(* ===== verification/_CoqProject ===== *)
-Q . S2P
Prelude.v
GoText.v
Backoff.v
Pool.v
Rely.v
Crypto.v
GoEncoding.v
Domain.v
Messaging.v
EventContract.v
Aes.v
Session.v
Store.v
Connections.v
PairingStore.v
PairingService.v
PairingSafety.v
PairingGuarantees.v
SessionVault.v
Kafka.v
Webhook.v
Delivery.v
DeliveryFencing.v
Leases.v
Actor.v
ActorSafety.v
ActorGuarantees.v
Outbound.v
Dispatch.v
DispatchStore.v
Rotation.v
Supervisor.v
SupervisorGuarantees.v
Ingress.v
Provider.v
Reconcile.v
DispatchInvariant.v
AtMostOnce.v
Responses.v
Acks.v
Lines.v
Commit.v
InboxInvariant.v
CommitSafety.v
Incoming.v
Projector.v
Sink.v
Receive.v
Runtime.v
ReceiveSafety.v
SinkGuarantees.v
Backfill.v
BackfillSafety.v
Images.v
MediaStore.v
MediaSafety.v
MediaGuard.v
MediaIngest.v
MediaPool.v
MediaGuarantees.v
Contacts.v
ContactsSafety.v
Tenants.v
TenantSafety.v
MediaCipher.v
MediaTransfer.v
Sender.v
ApiJson.v
Auth.v
Http.v
Endpoints.v
Api.v
ApiSafety.v
AdoptionProbes.v
Migrations.v
MigrationSafety.v
