(* ===== verification/Prelude.v ===== *)
(** * SirenaIX messaging gateway: a verified model of its core

    The gateway sends and receives text messages through paired phones. A tenant
    has connections (paired provider sessions); a connection has at most one actor
    in the whole fleet, which owns the provider session under a database lease; a
    submitted message waits in the lane of its connection until a dispatcher hands
    it to the provider, at most once; what the provider observes is projected into
    the database before it is acknowledged; every visible change emits an event
    that webhooks and Kafka deliver. Tenants reach all of it through an HTTP API.
    All durable state is in PostgreSQL and an object store, and every guarantee that
    crosses processes rests on fencing tokens and row locks in the database.

    ** Parts, files and sources (under src/internal/gateway/ unless src/pkg is named)

    Foundations.
    - Prelude: errors as the sentinels [errors.Is] finds, fallible results, 64-bit
      integers, bytes, length frames, and [prog], a program of calls to
      collaborators, with its executions.
    - GoText, GoEncoding, Crypto, Aes: what the sources use of the Go standard
      library (UTF-8, decimal text, encoding/json, RFC 3339, SHA-256, HMAC, hex,
      base64, AES-256-GCM), executable.
    - Rely: programs beside an environment, a small rely-style program logic, pools of
      threads over one world, and bounds on the number of calls.

    Data and commands.
    - Domain (domain/): connection and message states, E.164 numbers, labels,
      identifiers.
    - Messaging (messaging/service.go): validation, digest and identifiers of a
      command; submit, get and list over the store interface [MessageStore].
    - EventContract (eventcontract/envelope.go): the public event body.

    Sessions.
    - Session, SessionVault (session/): sealing of provider sessions over the
      class [KeyWrapper], the local and the KMS wrapper, the vault over
      [EnvelopeStore].

    The store (store/postgres/).
    - Store (db.go, types.go, migrations): tables as finite maps with their
      constraints; [inTenant] is a transaction.
    - Connections and Lines (connections.go), Leases (connection_actor.go), Outbound,
      Reconcile, Responses, Acks and Commit (messages.go), DispatchStore
      (dispatch.go), Delivery (delivery.go), MediaStore (media.go, media_fetch.go),
      Contacts (contacts.go, metadata.go), Tenants (tenant_admin.go): the repository
      operations.
    - DispatchInvariant, DeliveryFencing, PairingStore, InboxInvariant, CommitSafety,
      MediaSafety, ContactsSafety, TenantSafety: what these operations preserve.
    - AdoptionProbes, Migrations, MigrationSafety (migration_runner.go): the catalogue
      of migrations, its SQL scanner, the ledger, and any number of runs over one
      database.

    Processes.
    - Backoff, Pool, Actor, ActorSafety, ActorGuarantees (connectionactor/): the
      delays, the registries of actors, one run of an actor beside its provider
      and its callers, the discipline of that run, and what follows from it.
    - PairingService, PairingSafety, PairingGuarantees (pairing/service.go): the
      operations on pairing attempts as programs, the invariant of the registry and
      what an operation may rely on, and what any number of them guarantee.
    - Dispatch (messaging/dispatch.go) and AtMostOnce: the dispatcher and the
      whole outbound path as one system with crashes; Sender
      (provider/gmessages/messaging_runtime.go): what it hands a message to.
    - Supervisor, SupervisorGuarantees (app/supervisor.go): the polling loops of a
      process and what their rotating cursors (Rotation) guarantee.
    - Kafka (kafka/consumer.go, outbox.go), Webhook (webhook/signature.go,
      worker.go), Endpoints (webhook/endpoints.go, http.go): the boundaries of events
      and commands.

    The inbound path.
    - Incoming, Receive (src/pkg/libgm event_handler.go, session_handler.go): decoding
      of provider frames, the queue of acknowledgements.
    - Projector, Sink, Provider, Runtime (provider/gmessages/): projections, the
      durable sink, status mapping, the runtime of one ownership.
    - Ingress (ingress/service.go): validation of an envelope before Commit stores it.
    - Backfill (messaging/backfill.go, store/postgres/backfill.go,
      provider/gmessages/backfill_runtime.go): import of history.
    - ReceiveSafety, SinkGuarantees, BackfillSafety: the composition and its guarantees.

    Media and contacts.
    - MediaGuard (media/ssrf.go), Images and MediaIngest (media/upload.go, fetch.go),
      MediaPool, MediaGuarantees: addresses, image inspection, uploads and fetch
      workers, run beside each other.
    - MediaCipher, MediaTransfer (src/pkg/libgm crypto/aesgcm.go, aesctr.go,
      media_context.go): encryption and bounded transfer.
    - Contacts also has contacts/, contactsync/ and the listing by provider/gmessages.

    The HTTP API.
    - Auth (auth/verifier.go), ApiJson (strict decoding of bodies), Http, Api
      (httpapi/): tokens, requests, responses and every handler; ApiSafety.

    Components meet at classes ([MessageStore], [KeyWrapper], [EnvelopeStore],
    [FencedEnvelopeStore]): the client is proved against the class, and the
    repository discharges it. Processes meet the store as calls: AtMostOnce runs the
    dispatcher's program against the repository's operations, ReceiveSafety the
    protocol client against the sink and the repository.

    ** What the theorems show

    - Outbound: over every interleaving of dispatchers, crashes, lost replies and
      lease changes a message is handed to the provider at most once and lanes keep
      their discipline (AtMostOnce); resubmission is idempotent and creation atomic, media
      and audit included (Outbound); claims are first in, first out under a fresh
      token (DispatchInvariant); the dispatcher sends only under a granted claim
      (Dispatch), and the sender at most once, to the route the command names, with what
      a caller that waited or gave up learns of it (Sender); every lane that stays
      queued is handed out and, once its actor is ready, dispatched, and the actor of
      every connection that stays runnable is started, within a bounded number of
      polls (SupervisorGuarantees).
    - Ownership: fencing tokens identify owners and displaced owners are locked out
      (Leases); one process runs one actor of a connection (Pool); beside any
      provider and callers, a run has one provider generation at a time, restored
      from the last durable session, writes only under its lease, runs an operation
      once and only while ready, ends as its causes demand, and returns once it lost
      its right to go on (ActorGuarantees); delays follow their formula (Backoff).
    - Pairing: over every interleaving of operations, an attempt is worked on by one
      of them at a time, a begun pairing stays registered until it is resolved, and
      provider handles are neither lost nor disposed of twice (PairingGuarantees); an
      attempt displaced in the database can neither commit nor restore (PairingStore).
    - Inbound: a response is acknowledged only once it is durable, and no queued
      acknowledgement is lost (ReceiveSafety); an identifier seen with two contents is
      a conflict for good, and the response tables stay well formed (CommitSafety); a
      message is actionable only if it arrived live (SinkGuarantees); the cursor of the
      history waits for every conversation of its page (BackfillSafety); the carrier
      state never goes back (Domain).
    - Events: the body is canonical (EventContract); an event leaves the outbox only
      when fanned out, and delivery attempts are fenced (DeliveryFencing); one
      attempt posts at most one signed request (Webhook), with the secret the tenant
      was shown, the old one staying for the grace period of a rotation (Endpoints);
      commands are settled before their offset is committed and events are published
      in order (Kafka).
    - Sessions: sealed sessions open to themselves, under their scope only;
      rotation loses nothing (SessionVault).
    - Media: whatever uploads and workers run at once, a ready row describes bytes that
      are stored (MediaGuarantees); claims of fetch jobs are fenced (MediaSafety); the
      validators of GIF and WebP accept exactly their grammars (Images); only public
      addresses of allowed hosts are fetched (MediaGuard); what is encrypted and
      uploaded within the limits downloads to itself (MediaCipher, MediaTransfer).
    - Contacts: synchronisation keeps what tenants entered, and pages are complete
      (ContactsSafety).
    - Tenants: suspension locks out and is undone exactly (TenantSafety); schema
      migrations are applied once, in order and as the ledger says (MigrationSafety);
      a call of the API is made only for the tenant and scopes of a verified token
      (ApiSafety).
    - Some theorems state defects. Claimed: a projected message can make listing fail
      (Reconcile), the last page of a conversation is refused for good
      (SinkGuarantees), decryption panics on malformed media (MediaCipher), uploads
      near the limit cannot be downloaded (MediaTransfer), resuming a tenant loses a
      quarantine (TenantSafety), and an unexpected query parameter is answered with
      success (ApiSafety). Others: a long KMS key identifier is accepted and unusable
      (SessionVault), a retry is stranded by a revocation and a second dead letter
      cannot be replayed (DeliveryFencing), the recorded dimensions of a WebP can be forged
      (Images).

    ** Bounds and assumptions

    - Integers are Z with the wrap-around of their width written out. Fuel appears
      where Go loops: 64 rounds of the backoff loop, and the length of the input for
      the scanners of JSON and SQL, always suffice (proved); the loops of [Actor.Run]
      are cut after any number of iterations, an execution so cut returning [None], and
      every theorem holds for every cut, so for every prefix of a run that goes on for
      ever.
    - A repository call is one atomic step at one reading of the database clock, and
      clocks do not go back: the statements lock the rows they decide on. Fresh
      identifiers, random bytes and clocks are arguments. Where a commit can take
      effect although it reports failure, the world decides which.
    - Key wrapping, envelope storage, protobuf codecs, [url.Parse],
      [mime.ParseMediaType], [image.DecodeConfig], [strconv.Quote], [http.ParseTime],
      the OIDC library, name resolution, Unicode tables and what PostgreSQL makes of a
      migration are parameters, with the laws the code relies on as class fields or
      named hypotheses, each with an instance. SHA-256, HMAC and AES are computed; no
      collision resistance is assumed (theorems that need it conclude with the
      collision).
    - A locked region of a registry is one step. A [select] is a call answered by a
      case that can be ready. Reports of a provider that fails to be restored are
      dropped, as the code drops them.

    ** Not modelled

    Metrics, logging, the clearing of buffers, and contexts beyond being done. Process
    composition and configuration from the environment (wiring); the object stores (the
    operating system's files and the S3 client: the worlds of MediaPool have what they
    promise); the Kafka broker client; checks of database roles; the session codec and
    the pairing adapter (translation of libgm structures); libgm's long polling,
    pairing and requests (HTTP over generated protobufs, reached only through the
    provider interfaces); and the Matrix bridge, which the gateway does not use. *)

From Stdlib Require Export ZArith Lia Bool Ascii.
From Stdlib Require String.
From stdpp Require Export base strings gmap numbers option.
From stdpp Require Export list_basics list_relations list_monad list_misc list_tactics list_numbers list sorting.

#[global] Open Scope string_scope.
#[global] Open Scope list_scope.
#[global] Open Scope Z_scope.
#[global] Set Default Goal Selector "!".
#[global] Unset Printing Records.
#[global] Set Warnings "-register-all".

(** ** Automation *)

Create HintDb gateway discriminated.
#[export] Hint Extern 5 (_ = _ :> Z) => lia : gateway.
#[export] Hint Extern 5 (_ <= _)%Z => lia : gateway.
#[export] Hint Extern 5 (_ < _)%Z => lia : gateway.

(** Turns the boolean guards the code is written with into propositions. *)
Ltac reflect_bools :=
  repeat match goal with
  | H : (_ && _)%bool = true |- _ => apply andb_true_iff in H as [? ?]
  | H : (_ || _)%bool = false |- _ => apply orb_false_iff in H as [? ?]
  | H : negb _ = true |- _ => apply negb_true_iff in H
  | H : negb _ = false |- _ => apply negb_false_iff in H
  | H : bool_decide _ = true |- _ => apply bool_decide_eq_true in H
  | H : bool_decide _ = false |- _ => apply bool_decide_eq_false in H
  | H : (_ <=? _)%Z = true |- _ => apply Z.leb_le in H
  | H : (_ <=? _)%Z = false |- _ => apply Z.leb_gt in H
  | H : (_ <? _)%Z = true |- _ => apply Z.ltb_lt in H
  | H : (_ <? _)%Z = false |- _ => apply Z.ltb_ge in H
  | H : (_ >? _)%Z = true |- _ => rewrite Z.gtb_ltb in H; apply Z.ltb_lt in H
  | H : (_ >? _)%Z = false |- _ => rewrite Z.gtb_ltb in H; apply Z.ltb_ge in H
  | H : (_ >=? _)%Z = true |- _ => rewrite Z.geb_leb in H; apply Z.leb_le in H
  | H : (_ >=? _)%Z = false |- _ => rewrite Z.geb_leb in H; apply Z.leb_gt in H
  | H : (_ =? _)%Z = true |- _ => apply Z.eqb_eq in H
  | H : (_ =? _)%Z = false |- _ => apply Z.eqb_neq in H
  | H : String.eqb _ _ = true |- _ => apply String.eqb_eq in H
  | H : String.eqb _ _ = false |- _ => apply String.eqb_neq in H
  end.

(** Splits on the scrutinee of the outermost match/if of a hypothesis until
    none is left, keeping the equations. *)
Ltac case_hyp H :=
  repeat match type of H with
  | context [match ?x with _ => _ end] =>
      lazymatch x with
      | context [match _ with _ => _ end] => fail
      | _ => destruct x eqn:?
      end; try discriminate H
  end.

(** Splits on the guard a goal starts with, dropping the refused branch. *)
Ltac pass_guard E :=
  match goal with |- (if ?b then _ else _) = _ -> _ => destruct b eqn:E; try done; [] end.

(** Splits on the condition of the first [if] of a hypothesis or of the goal. *)
Ltac case_if_in H E := match type of H with context [if ?b then _ else _] => destruct b eqn:E end.
Ltac case_if_goal E := match goal with |- context [if ?b then _ else _] => destruct b eqn:E end.

(** ** Errors

    A Go [error] value is modelled by what [errors.Is] can find in it: the
    list of sentinels in its chain, [[]] being [nil].  [fmt.Errorf("...: %w")]
    keeps that list, [errors.Join] appends and drops [nil]s. An anonymous
    [errors.New] (or an error of a collaborator) is [ErrText]. *)

Inductive sentinel :=
(* internal/gateway/domain/errors.go *)
| ErrInvalidTenantID | ErrInvalidIdentifier | ErrInvalidPhoneNumber | ErrInvalidLabelSlug
| ErrInvalidConnectionState | ErrTenantBoundary | ErrConnectionBoundary | ErrInvalidMessageState
(* internal/gateway/messaging *)
| ErrInvalidCommand | ErrInvalidRoute | ErrIdempotencyConflict | ErrMessageNotFound
| ErrDispatchFenceLost | ErrBackfillPoisoned
(* internal/gateway/connectionactor *)
| ErrInvalidConfig | ErrLeaseUnavailable | ErrProviderAuthorization | ErrProviderTransient
| ErrProviderPermanentConfig | ErrProviderPermanentProtocol | ErrProviderUnavailable
| ErrProviderJoinTimeout | ErrSharedInfrastructure | ErrStaleGeneration
(* internal/gateway/app *)
| ErrInvalidSupervisor
(* context *)
| ContextCanceled | ContextDeadlineExceeded
(* internal/gateway/store/postgres *)
| ErrInvalidLease | ErrInvalidEncryptedSession | SqlErrNoRows
| ErrInvalidTenantAdminInput | ErrTenantNotFound | ErrTenantPairingActive
(* internal/gateway/ingress *)
| ErrConflictingEnvelope | ErrInvalidProviderResponseID | ErrProviderResponseCapacity
(* internal/gateway/eventcontract *)
| ErrInvalidEventEnvelope
(* internal/gateway/kafka *)
| ErrInvalidConsumer | ErrInvalidOutboxWorker
(* internal/gateway/webhook *)
| ErrInvalidWorker | ErrWebhookClaimLost | ErrUnsafeDestination
| ErrInvalidEndpoint | ErrEndpointQuotaExceeded
(* internal/gateway/session *)
| ErrInvalidManager | ErrInvalidScope | ErrInvalidSessionEnvelope | ErrEncrypt | ErrDecrypt
| ErrKeyWrapper | ErrStore
(* internal/gateway/media *)
| ErrUnsafeURL | ErrRedirectDenied | ErrFetchFenceLost | ErrTooLarge | ErrLengthMismatch
| ErrUnsupportedImage | ErrPixelLimit | ErrMediaNotFound | ErrStoredMediaCorrupt
(* pkg/libgm *)
| ErrMediaPolicyRequired | ErrMediaTooLarge | ErrMediaInvalid
(* internal/gateway/contacts, internal/gateway/contactsync *)
| ErrInvalidContact | ErrConnectionNotFound | ErrConnectionAccessDenied | ErrContactAccessDenied
| ErrInvalidDependency | ErrProviderIdentityConflict
(* internal/gateway/pairing *)
| ErrInvalidDependencies | ErrPairingConnectionState | ErrAttemptActive | ErrAttemptBusy
| ErrAttemptSuperseded | ErrAttemptNotFound | ErrAttemptExpired | ErrUnknownDevice
| ErrInvalidProviderData | ErrProviderOperation | ErrSessionPersistence | ErrInvalidCookieBundle
| ErrText (text : string).

#[export] Instance sentinel_eq_dec : EqDecision sentinel.
Proof. solve_decision. Defined.

Abbreviation error := (list sentinel).

(** [errors.Is]. *)
Definition errors_Is (err : error) (target : sentinel) : bool := bool_decide (target ∈ err).

(** [errors.Join]. *)
Definition errors_Join (errs : list error) : error := concat errs.

Definition is_nil {A} (l : list A) : bool := match l with [] => true | _ => false end.

Lemma is_nil_true {A} (l : list A) : is_nil l = true <-> l = [].
Proof. by destruct l. Qed.

Lemma is_nil_false {A} (l : list A) : is_nil l = false <-> l <> [].
Proof. by destruct l. Qed.

Lemma errors_Is_app e1 e2 t : errors_Is (e1 ++ e2) t = errors_Is e1 t || errors_Is e2 t.
Proof.
  unfold errors_Is. apply Bool.eq_iff_eq_true. rewrite orb_true_iff, !bool_decide_eq_true.
  set_solver.
Qed.

Lemma errors_Is_nil t : errors_Is [] t = false.
Proof. apply bool_decide_eq_false. set_solver. Qed.

(** ** Fallible results *)

Inductive result (A : Type) :=
| Ok (a : A)
| Err (e : error).
Arguments Ok {A} a.
Arguments Err {A} e.

#[export] Instance result_eq_dec {A} `{EqDecision A} : EqDecision (result A).
Proof. solve_decision. Defined.

Definition result_bind {A B} (c : result A) (k : A -> result B) : result B :=
  match c with Ok a => k a | Err e => Err e end.

Definition is_ok {A} (c : result A) : bool := match c with Ok _ => true | Err _ => false end.

Declare Scope gateway_scope.
Delimit Scope gateway_scope with gw.
Notation "'let!' x ':=' c 'in' k" := (result_bind c (fun x => k))
  (at level 10, x binder, c at level 100, k at level 200) : gateway_scope.
(** [if cond { return err }]: the guard-and-return of the Go sources. *)
Notation "'guard' b 'else' e ';;' k" := (if b then k else Err [e])
  (at level 10, b at level 99, e at level 9, k at level 200) : gateway_scope.
Notation "a =s b" := (String.eqb a b) (at level 70) : gateway_scope.
Notation "a <>s b" := (negb (String.eqb a b)) (at level 70) : gateway_scope.
#[global] Open Scope gateway_scope.

Lemma result_bind_ok {A B} (c : result A) (k : A -> result B) b :
  result_bind c k = Ok b -> exists a, c = Ok a /\ k a = Ok b.
Proof. destruct c; simpl; [eauto | discriminate]. Qed.

(** ** Machine integers *)

Definition two63 : Z := 2 ^ 63.
Definition two64 : Z := 2 ^ 64.
Definition max_int64 : Z := two63 - 1.

(** [int64] wrap-around and the conversions of Go. *)
Definition int64 (z : Z) : Z := (z + two63) mod two64 - two63.
Definition uint64 (z : Z) : Z := z mod two64.
Definition uint32 (z : Z) : Z := z mod 2 ^ 32.

Definition in_int64 (z : Z) : Prop := - two63 <= z < two63.

Lemma int64_id z : in_int64 z -> int64 z = z.
Proof. unfold in_int64, int64. intros. rewrite Z.mod_small; unfold two63, two64 in *; lia. Qed.

Lemma uint64_id z : 0 <= z < two64 -> uint64 z = z.
Proof. apply Z.mod_small. Qed.

(** Durations are [int64] nanoseconds. *)
Definition Nanosecond : Z := 1.
Definition Microsecond : Z := 1000 * Nanosecond.
Definition Millisecond : Z := 1000 * Microsecond.
Definition Second : Z := 1000 * Millisecond.
Definition Minute : Z := 60 * Second.
Definition Hour : Z := 60 * Minute.

(** A [time.Time] is its instant in nanoseconds since the Unix epoch; the zero
    [time.Time] (January 1, year 1 UTC) is the instant below. *)
Definition time_zero : Z := -62135596800 * Second.
Definition time_IsZero (t : Z) : bool := t =? time_zero.

(** ** Bytes and strings: a Go [string] is a byte sequence. *)

Abbreviation bytes := (list ascii).

Definition bytes_of (s : string) : bytes := String.list_ascii_of_string s.
Definition string_of (b : bytes) : string := String.string_of_list_ascii b.
Definition len (s : string) : Z := Z.of_nat (String.length s).
Definition blen {A} (b : list A) : Z := Z.of_nat (length b).

Definition byte_val (b : ascii) : Z := Z.of_N (N_of_ascii b).
Definition byte_of_Z (z : Z) : ascii := ascii_of_N (Z.to_N (z mod 256)).

Lemma bytes_of_string_of b : bytes_of (string_of b) = b.
Proof. apply String.list_ascii_of_string_of_list_ascii. Qed.

Lemma string_of_bytes_of s : string_of (bytes_of s) = s.
Proof. apply String.string_of_list_ascii_of_string. Qed.

Lemma bytes_of_inj s t : bytes_of s = bytes_of t -> s = t.
Proof. intros H. by rewrite <- (string_of_bytes_of s), H, string_of_bytes_of. Qed.

Lemma length_bytes_of s : length (bytes_of s) = String.length s.
Proof. induction s; simpl; congruence. Qed.

Lemma len_bytes s : len s = blen (bytes_of s).
Proof. unfold len, blen. by rewrite length_bytes_of. Qed.

Lemma bytes_of_app s t : bytes_of (s +:+ t) = bytes_of s ++ bytes_of t.
Proof. unfold bytes_of. induction s as [|c s IH]; [done|]. simpl. f_equal. exact IH. Qed.

Lemma len_nonneg s : 0 <= len s.
Proof. unfold len. lia. Qed.

Lemma len_zero s : len s = 0 <-> s = "".
Proof. split; [destruct s; [done | unfold len; simpl; lia] | by intros ->]. Qed.

Lemma byte_val_range b : 0 <= byte_val b < 256.
Proof. unfold byte_val. pose proof (N_ascii_bounded b). lia. Qed.

Lemma byte_val_inj a b : byte_val a = byte_val b -> a = b.
Proof.
  unfold byte_val. intros H%N2Z.inj.
  by rewrite <- (ascii_N_embedding a), H, ascii_N_embedding.
Qed.

Lemma byte_val_of_Z z : byte_val (byte_of_Z z) = z mod 256.
Proof.
  pose proof (Z.mod_pos_bound z 256 eq_refl).
  unfold byte_val, byte_of_Z. rewrite N_ascii_embedding; lia.
Qed.

#[export] Hint Resolve len_nonneg byte_val_range : gateway.

(** ** Big-endian integers and length-prefixed framing

    [binary.BigEndian.PutUint32]/[PutUint64] write the low 32/64 bits. *)
Fixpoint be_encode (k : nat) (v : Z) : bytes :=
  match k with
  | O => []
  | S k' => byte_of_Z (v / 256 ^ Z.of_nat k') :: be_encode k' v
  end.

Definition PutUint32 (v : Z) : bytes := be_encode 4 v.
Definition PutUint64 (v : Z) : bytes := be_encode 8 v.

Fixpoint be_decode (acc : Z) (b : bytes) : Z :=
  match b with
  | [] => acc
  | c :: b' => be_decode (acc * 256 + byte_val c) b'
  end.

Lemma length_be_encode k v : length (be_encode k v) = k.
Proof. induction k; simpl; congruence. Qed.

Lemma be_decode_encode k v acc :
  be_decode acc (be_encode k v) = acc * 256 ^ Z.of_nat k + v mod 256 ^ Z.of_nat k.
Proof.
  revert acc. induction k as [|k IH]; intros acc.
  { simpl. rewrite Z.mod_1_r. lia. }
  cbn [be_encode be_decode]. rewrite IH, byte_val_of_Z.
  replace (Z.of_nat (S k)) with (Z.succ (Z.of_nat k)) by lia.
  rewrite Z.pow_succ_r by lia. set (p := 256 ^ Z.of_nat k).
  assert (0 < p) by (apply Z.pow_pos_nonneg; lia).
  rewrite (Z.mul_comm 256 p), (Z.rem_mul_r v p 256) by lia. lia.
Qed.

Lemma be_encode_inj k v w :
  0 <= v < 256 ^ Z.of_nat k -> 0 <= w < 256 ^ Z.of_nat k ->
  be_encode k v = be_encode k w -> v = w.
Proof.
  intros Hv Hw H. apply (f_equal (be_decode 0)) in H.
  rewrite !be_decode_encode, !Z.mod_small in H by lia. lia.
Qed.

(** A frame is the big-endian length of a value followed by the value. *)
Definition frame (k : nat) (v : bytes) : bytes := be_encode k (blen v) ++ v.

Definition frameable (k : nat) (v : bytes) : Prop := blen v < 256 ^ Z.of_nat k.

Lemma frame_inj k v w r s :
  frameable k v -> frameable k w -> frame k v ++ r = frame k w ++ s -> v = w /\ r = s.
Proof.
  unfold frameable, frame, blen. intros Hv Hw H. rewrite <- !app_assoc in H.
  apply app_inj_1 in H as [Hlen H]; [|by rewrite !length_be_encode].
  apply be_encode_inj in Hlen; [|lia..].
  apply app_inj_1 in H as [-> ->]; [done | lia].
Qed.

(** A sequence of frames determines the sequence of values: nothing but the
    values themselves is needed to read it back. *)
Lemma frames_inj k vs ws :
  (0 < k)%nat ->
  Forall (frameable k) vs -> Forall (frameable k) ws ->
  concat (frame k <$> vs) = concat (frame k <$> ws) -> vs = ws.
Proof.
  intros Hk Hvs. revert ws. induction Hvs as [|v vs Hv Hvs IH]; intros ws Hws H.
  - destruct Hws as [|w ws Hw Hws]; [done|]. exfalso. simpl in H.
    apply (f_equal length) in H. unfold frame in H.
    rewrite !length_app, length_be_encode in H. simpl in H. lia.
  - destruct Hws as [|w ws Hw Hws].
    + exfalso. simpl in H. apply (f_equal length) in H. unfold frame in H.
      rewrite !length_app, length_be_encode in H. simpl in H. lia.
    + cbn in H. apply frame_inj in H as [-> H]; [|done..].
      f_equal. by apply IH.
Qed.

(** ** Lists *)

Lemma filter_all {A} (P : A -> Prop) `{forall x, Decision (P x)} (l : list A) :
  Forall P l -> filter P l = l.
Proof.
  induction 1 as [|x l Hx _ IH]; [done|]. rewrite filter_cons_True by done. by rewrite IH.
Qed.

Lemma existsb_false {A} (p : A -> bool) l :
  existsb p l = false <-> forall a, a ∈ l -> p a = false.
Proof.
  induction l as [|a l IH]; simpl; [set_solver|].
  rewrite orb_false_iff, IH. set_solver.
Qed.

Lemma forallb_Forall {A} (p : A -> bool) l :
  forallb p l = true <-> Forall (fun a => p a = true) l.
Proof.
  induction l as [|a l IH]; simpl; [by split|].
  rewrite andb_true_iff, IH, Forall_cons. done.
Qed.

Lemma elem_of_List_filter {X} (f : X -> bool) l x : x ∈ List.filter f l <-> x ∈ l /\ f x = true.
Proof. rewrite !list_elem_of_In. apply List.filter_In. Qed.

Lemma head_merge_sort {X} (R : relation X) `{!RelDecision R} (l : list X) x :
  head (merge_sort R l) = Some x -> x ∈ l.
Proof.
  intros H. rewrite <- (merge_sort_Permutation R l). destruct (merge_sort R l); [done|].
  injection H as <-. by left.
Qed.

Lemma head_merge_sort_min {X} (R : relation X) `{!RelDecision R, !Total R, !Transitive R} (l : list X) x y :
  head (merge_sort R l) = Some x -> y ∈ l -> y = x \/ R x y.
Proof.
  intros H Hy. pose proof (StronglySorted_merge_sort R l) as Hs.
  rewrite <- (merge_sort_Permutation R l) in Hy. destruct (merge_sort R l) as [|z l']; [done|].
  injection H as ->. apply elem_of_cons in Hy as [->|Hy]; [by left|]. right.
  apply StronglySorted_inv in Hs as [_ Hs]. rewrite Forall_forall in Hs. by apply Hs.
Qed.

(** ** Programs of calls

    Code that talks to interfaces is a program: the calls it makes, in the
    order the code makes them, each with the continuation on the answer.  [E X]
    are the calls answered by an [X]. *)

Inductive prog (E : Type -> Type) (A : Type) : Type :=
| Ret (a : A)
| Call {X : Type} (c : E X) (k : X -> prog E A).
Arguments Ret {E A} a.
Arguments Call {E A X} c k.

Notation "'call!' x ':=' c 'in' k" := (Call c (fun x => k))
  (at level 10, x binder, c at level 100, k at level 200) : gateway_scope.

(** Answering every call from a state. *)
Fixpoint run_prog {E A S} (answer : forall X, E X -> S -> S * X) (p : prog E A) (s : S) : S * A :=
  match p with
  | Ret a => (s, a)
  | Call c k => let '(s', x) := answer _ c s in run_prog answer (k x) s'
  end.

(** The executions of a program: [executes log p t a] when [p] can return [a]
    after the calls and answers [t], each written down by [log]. *)
Fixpoint executes {E A L} (log : forall X, E X -> X -> L) (p : prog E A) (t : list L) (a : A) : Prop :=
  match p with
  | Ret a' => t = [] /\ a = a'
  | Call c k => exists x t', t = log _ c x :: t' /\ executes log (k x) t' a
  end.

(** Concurrent executions: [interleaved ts t] when [t] merges the traces [ts],
    keeping the order of each. *)
Inductive interleaved {L} : list (list L) -> list L -> Prop :=
| interleaved_done ts : Forall (eq []) ts -> interleaved ts []
| interleaved_step pre x l post t :
    interleaved (pre ++ l :: post) t -> interleaved (pre ++ (x :: l) :: post) (x :: t).

Lemma interleaved_permutation {L} (ts : list (list L)) t : interleaved ts t -> t ≡ₚ concat ts.
Proof.
  induction 1 as [ts Hts | pre x l post t _ IH].
  - induction Hts as [|? ts <- _ IH]; [done|]. exact IH.
  - rewrite IH, !concat_app. cbn. solve_Permutation.
Qed.

(** An entry of the merge comes from one trace, and what came before it there
    comes before it in the merge. *)
Lemma interleaved_origin {L} (ts : list (list L)) t :
  interleaved ts t -> forall i y, t !! i = Some y ->
  exists n l k, ts !! n = Some l /\ l !! k = Some y /\
    forall j x, (j < k)%nat -> l !! j = Some x -> exists j', (j' < i)%nat /\ t !! j' = Some x.
Proof.
  induction 1 as [ts Hts | pre z l post t Ht IH]; intros i y Hi; [by rewrite lookup_nil in Hi|].
  destruct i as [|i]; simpl in Hi.
  { injection Hi as ->. exists (length pre), (y :: l), 0%nat. rewrite list_lookup_middle by done.
    split_and!; [done..|]. intros; lia. }
  destruct (IH i y Hi) as (n & l' & k & Hn & Hk & Hb).
  assert (forall j x, (j < k)%nat -> l' !! j = Some x -> exists j', (j' < S i)%nat /\ (z :: t) !! j' = Some x) as Hb'.
  { intros j x Hj Hx. destruct (Hb j x Hj Hx) as (j' & ? & ?). exists (S j'). split; [lia | done]. }
  destruct (decide (n = length pre)) as [->|Hne].
  - rewrite list_lookup_middle in Hn by done. injection Hn as ->.
    exists (length pre), (z :: l'), (S k). rewrite list_lookup_middle by done. split_and!; [done..|].
    intros [|j] x Hj Hx; simpl in Hx; [exists 0%nat; split; [lia | done] | apply (Hb' j x); [lia | done]].
  - exists n, l', k. split_and!; [|done..]. rewrite <- Hn. destruct (decide (n < length pre)%nat).
    + by rewrite !lookup_app_l by lia.
    + rewrite !lookup_app_r by lia. destruct (n - length pre)%nat eqn:E; [lia | done].
Qed.
