(* ===== verification/GoText.v ===== *)
(** * Text as the gateway's Go code sees it

    UTF-8 segmentation ([utf8.ValidString], [for range] over a string), the
    fixed Unicode classes the identifier checks use ([unicode.IsControl],
    [unicode.IsSpace], the Cf and Co tables of Unicode 15), [strings.TrimSpace],
    [strings.ContainsAny] on ASCII sets, and decimal/hexadecimal printing. *)

From S2P Require Import Prelude.

(** ** UTF-8 *)

Definition RuneError : Z := 0xFFFD.
Definition MaxRune : Z := 0x10FFFF.

Definition between (lo hi x : Z) : bool := (lo <=? x) && (x <=? hi).
Definition cont (x : Z) : bool := between 0x80 0xBF x.

(** The acceptance table of package utf8: which second byte a lead byte allows. *)
Definition lead2 (x y : Z) : bool := between 0xC2 0xDF x && cont y.
Definition lead3 (x y : Z) : bool :=
  ((x =? 0xE0) && between 0xA0 0xBF y) || (between 0xE1 0xEC x && cont y) ||
  ((x =? 0xED) && between 0x80 0x9F y) || (between 0xEE 0xEF x && cont y).
Definition lead4 (x y : Z) : bool :=
  ((x =? 0xF0) && between 0x90 0xBF y) || (between 0xF1 0xF3 x && cont y) ||
  ((x =? 0xF4) && between 0x80 0x8F y).

Definition low6 (x : Z) : Z := Z.land x 0x3F.
Definition rune2 (x y : Z) : Z := Z.lor (Z.shiftl (Z.land x 0x1F) 6) (low6 y).
Definition rune3 (x y z : Z) : Z :=
  Z.lor (Z.shiftl (Z.land x 0x0F) 12) (Z.lor (Z.shiftl (low6 y) 6) (low6 z)).
Definition rune4 (x y z w : Z) : Z :=
  Z.lor (Z.shiftl (Z.land x 0x07) 18)
    (Z.lor (Z.shiftl (low6 y) 12) (Z.lor (Z.shiftl (low6 z) 6) (low6 w))).

(** The runes of a byte string with the bytes that encode them; [None] is one
    byte of invalid encoding, which [utf8.DecodeRune] reports as
    [(RuneError, 1)]. *)
Fixpoint chunks (b : bytes) : list (option Z * bytes) :=
  match b with
  | [] => []
  | b0 :: t0 =>
    let x := byte_val b0 in
    if x <? 0x80 then (Some x, [b0]) :: chunks t0 else
    match t0 with
    | [] => [(None, [b0])]
    | b1 :: t1 =>
      let y := byte_val b1 in
      if lead2 x y then (Some (rune2 x y), [b0; b1]) :: chunks t1 else
      match t1 with
      | [] => (None, [b0]) :: chunks t0
      | b2 :: t2 =>
        let z := byte_val b2 in
        if lead3 x y && cont z then (Some (rune3 x y z), [b0; b1; b2]) :: chunks t2 else
        match t2 with
        | [] => (None, [b0]) :: chunks t0
        | b3 :: t3 =>
          let w := byte_val b3 in
          if lead4 x y && cont z && cont w
          then (Some (rune4 x y z w), [b0; b1; b2; b3]) :: chunks t3
          else (None, [b0]) :: chunks t0
        end
      end
    end
  end.

(** [for _, r := range s]. *)
Definition runes (s : string) : list Z := (fun c => default RuneError c.1) <$> chunks (bytes_of s).

(** [utf8.ValidString], [utf8.Valid]. *)
Definition utf8_Valid (b : bytes) : bool := forallb (fun c => bool_decide (is_Some c.1)) (chunks b).
Definition utf8_ValidString (s : string) : bool := utf8_Valid (bytes_of s).

(** ** Unicode classes *)

Definition in_ranges (ranges : list (Z * Z)) (r : Z) : bool :=
  existsb (fun p => between p.1 p.2 r) ranges.

Definition unicode_IsControl (r : Z) : bool := between 0 0x1F r || between 0x7F 0x9F r.

Definition space_ranges : list (Z * Z) :=
  [(0x09, 0x0D); (0x20, 0x20); (0x85, 0x85); (0xA0, 0xA0); (0x1680, 0x1680); (0x2000, 0x200A);
   (0x2028, 0x2029); (0x202F, 0x202F); (0x205F, 0x205F); (0x3000, 0x3000)].
Definition unicode_IsSpace (r : Z) : bool := in_ranges space_ranges r.

Definition Cf_ranges : list (Z * Z) :=
  [(0xAD, 0xAD); (0x600, 0x605); (0x61C, 0x61C); (0x6DD, 0x6DD); (0x70F, 0x70F); (0x890, 0x891);
   (0x8E2, 0x8E2); (0x180E, 0x180E); (0x200B, 0x200F); (0x202A, 0x202E); (0x2060, 0x2064);
   (0x2066, 0x206F); (0xFEFF, 0xFEFF); (0xFFF9, 0xFFFB); (0x110BD, 0x110BD); (0x110CD, 0x110CD);
   (0x13430, 0x1343F); (0x1BCA0, 0x1BCA3); (0x1D173, 0x1D17A); (0xE0001, 0xE0001);
   (0xE0020, 0xE007F)].
Definition Co_ranges : list (Z * Z) :=
  [(0xE000, 0xF8FF); (0xF0000, 0xFFFFD); (0x100000, 0x10FFFD)].

(** ** Trimming and searching *)

Fixpoint drop_while {A} (p : A -> bool) (l : list A) : list A :=
  match l with
  | [] => []
  | a :: l' => if p a then drop_while p l' else l
  end.

Definition space_chunk (c : option Z * bytes) : bool :=
  match c.1 with Some r => unicode_IsSpace r | None => false end.

(** [strings.TrimSpace]. UTF-8 is self-synchronising, so decoding from the end
    ([utf8.DecodeLastRune]) finds the same runes as decoding from the start. *)
Definition TrimSpace_bytes (b : bytes) : bytes :=
  concat (snd <$> rev (drop_while space_chunk (rev (drop_while space_chunk (chunks b))))).
Definition TrimSpace (s : string) : string := string_of (TrimSpace_bytes (bytes_of s)).

(** [strings.ContainsAny] for a set of ASCII characters, [strings.ContainsRune]
    and [strings.IndexByte] for one. *)
Definition ContainsAny (s : string) (set : list Z) : bool :=
  existsb (fun c => bool_decide (byte_val c ∈ set)) (bytes_of s).
Definition ContainsByte (s : string) (c : Z) : bool := ContainsAny s [c].

(** [strings.HasPrefix]. *)
Definition HasPrefix (s prefix : string) : bool := String.prefix prefix s.

(** ** Number printing *)

Definition digit_char (d : Z) : ascii := byte_of_Z (48 + d).

Fixpoint decimal_digits (fuel : nat) (n : Z) (acc : bytes) : bytes :=
  match fuel with
  | O => acc
  | S fuel' =>
    let acc' := digit_char (n mod 10) :: acc in
    if n / 10 =? 0 then acc' else decimal_digits fuel' (n / 10) acc'
  end.

(** [strconv.FormatUint(v, 10)] (20 digits hold any 64-bit value) and
    [strconv.FormatInt]/[strconv.Itoa]. *)
Definition FormatUint (n : Z) : string := string_of (decimal_digits 20 n []).
Definition FormatInt (n : Z) : string :=
  if n <? 0 then string_of (byte_of_Z 45 :: decimal_digits 20 (- n) []) else FormatUint n.
Definition Itoa := FormatInt.

(** ** Lemmas *)

Lemma chunks_ascii_cons c b :
  byte_val c < 0x80 -> chunks (c :: b) = (Some (byte_val c), [c]) :: chunks b.
Proof. intros H%Z.ltb_lt. destruct b; cbn; by rewrite H. Qed.

Definition ascii_bytes (b : bytes) : Prop := Forall (fun c => byte_val c < 0x80) b.

Lemma chunks_ascii b : ascii_bytes b -> chunks b = (fun c => (Some (byte_val c), [c])) <$> b.
Proof.
  induction 1 as [|c b Hc _ IH]; [done|]. by rewrite chunks_ascii_cons, IH.
Qed.

(** Every rune boundary is one of the four encodings or a rejected byte, and
    the encodings of more than one byte have no byte below 0x80. *)
Inductive chunk_step : bytes -> option Z -> bytes -> bytes -> Prop :=
| step_ascii c t : byte_val c < 0x80 -> chunk_step (c :: t) (Some (byte_val c)) [c] t
| step_bad c t : 0x80 <= byte_val c -> chunk_step (c :: t) None [c] t
| step_multi r e t : Forall (fun c => 0x80 <= byte_val c) e -> e <> [] ->
    chunk_step (e ++ t) (Some r) e t.

Lemma cont_high x : cont x = true -> 0x80 <= x.
Proof. unfold cont, between. intros. reflect_bools. lia. Qed.

Lemma lead_high x y : lead2 x y || lead3 x y || lead4 x y = true -> 0x80 <= x /\ 0x80 <= y.
Proof.
  unfold lead2, lead3, lead4, cont, between. intros H.
  repeat match type of H with (_ || _)%bool = true => apply orb_true_iff in H as [H|H] end;
    reflect_bools; lia.
Qed.

Lemma chunks_step c0 b0 :
  exists r e t, chunk_step (c0 :: b0) r e t /\ chunks (c0 :: b0) = (r, e) :: chunks t.
Proof.
  destruct (byte_val c0 <? 0x80) eqn:E0.
  { apply Z.ltb_lt in E0. exists (Some (byte_val c0)), [c0], b0.
    split; [by constructor | by apply chunks_ascii_cons]. }
  assert (Hbad : forall t, chunk_step (c0 :: t) None [c0] t)
    by (intros; constructor; by apply Z.ltb_ge in E0).
  destruct b0 as [|c1 b1]; [exists None, [c0], []; split; [done | cbn; by rewrite E0]|].
  destruct (lead2 (byte_val c0) (byte_val c1)) eqn:E1.
  { exists (Some (rune2 (byte_val c0) (byte_val c1))), [c0; c1], b1.
    pose proof (lead_high _ _ ltac:(rewrite E1; reflexivity)) as [??].
    split; [apply (step_multi _ [c0; c1]); [by repeat constructor | done]
           | cbn; by rewrite E0, E1]. }
  destruct b1 as [|c2 b2].
  { exists None, [c0], [c1]. split; [done|]. cbn [chunks]. by rewrite E0, E1. }
  destruct (lead3 (byte_val c0) (byte_val c1) && cont (byte_val c2)) eqn:E2.
  { exists (Some (rune3 (byte_val c0) (byte_val c1) (byte_val c2))), [c0; c1; c2], b2.
    split; [| cbn [chunks]; by rewrite E0, E1, E2].
    apply andb_true_iff in E2 as [El Ec%cont_high].
    pose proof (lead_high (byte_val c0) (byte_val c1)) as [??];
      [rewrite El; by rewrite orb_true_r|].
    apply (step_multi _ [c0; c1; c2]); [by repeat constructor | done]. }
  destruct b2 as [|c3 b3].
  { exists None, [c0], [c1; c2]. split; [done|]. cbn [chunks]. by rewrite E0, E1, E2. }
  destruct (lead4 (byte_val c0) (byte_val c1) && cont (byte_val c2) && cont (byte_val c3)) eqn:E3.
  { eexists (Some _), [c0; c1; c2; c3], b3.
    split; [| cbn [chunks]; by rewrite E0, E1, E2, E3].
    apply andb_true_iff in E3 as [[El Ec%cont_high]%andb_true_iff Ed%cont_high].
    pose proof (lead_high (byte_val c0) (byte_val c1)) as [??];
      [rewrite El; by rewrite orb_true_r|].
    apply (step_multi _ [c0; c1; c2; c3]); [by repeat constructor | done]. }
  exists None, [c0], (c1 :: c2 :: c3 :: b3). split; [done|].
  cbn [chunks]. by rewrite E0, E1, E2, E3.
Qed.

(** Induction over a byte string rune by rune. *)
Lemma chunks_ind (P : bytes -> Prop) :
  P [] ->
  (forall b r e t, chunk_step b r e t -> chunks b = (r, e) :: chunks t -> P t -> P b) ->
  forall b, P b.
Proof.
  intros Hnil Hstep b. remember (length b) as n eqn:Hn.
  revert b Hn. induction n as [n IH] using lt_wf_ind. intros b ->.
  destruct b as [|c b]; [done|].
  destruct (chunks_step c b) as (r & e & t & Hs & Hc).
  eapply Hstep; [done..|]. eapply IH; [|done].
  assert (Hlen : (length t < length (c :: b))%nat); [|exact Hlen].
  inversion Hs; subst; [simpl; lia..|]. rewrite length_app. destruct e; [done|]. simpl. lia.
Qed.

Lemma chunks_concat b : concat (snd <$> chunks b) = b.
Proof.
  induction b as [|b r e t Hs Hc IH] using chunks_ind; [done|].
  rewrite Hc. cbn. rewrite IH. by inversion Hs.
Qed.

(** An ASCII byte of a string is one of its runes. *)
Lemma ascii_byte_is_rune b c :
  c ∈ b -> byte_val c < 0x80 -> (Some (byte_val c), [c]) ∈ chunks b.
Proof.
  intros Hin Hc. induction b as [|b r e t Hs Heq IH] using chunks_ind; [set_solver|].
  rewrite Heq. inversion Hs as [c' t' Hc' | c' t' Hc' | r' e' t' He']; subst.
  - set_solver.
  - apply elem_of_cons in Hin as [->|?]; [lia | set_solver].
  - apply elem_of_app in Hin as [Hin|?]; [|set_solver].
    pose proof (proj1 (Forall_forall _ _) He' _ Hin). simpl in *. lia.
Qed.

Lemma runes_ascii_byte s c :
  c ∈ bytes_of s -> byte_val c < 0x80 -> byte_val c ∈ runes s.
Proof.
  intros Hin Hc. unfold runes. apply list_elem_of_fmap.
  exists (Some (byte_val c), [c]). split; [done | by apply ascii_byte_is_rune].
Qed.

Lemma utf8_Valid_ascii b : ascii_bytes b -> utf8_Valid b = true.
Proof.
  intros H. unfold utf8_Valid. rewrite (chunks_ascii _ H).
  induction b as [|c b IH]; [done|]. inversion H; subst. cbn. by apply IH.
Qed.

Lemma runes_ascii s : ascii_bytes (bytes_of s) -> runes s = byte_val <$> bytes_of s.
Proof.
  intros H. unfold runes. rewrite (chunks_ascii _ H), <- list_fmap_compose.
  by apply list_fmap_ext.
Qed.

Lemma drop_while_head {A} (p : A -> bool) l :
  (forall a, head l = Some a -> p a = false) -> drop_while p l = l.
Proof. destruct l as [|a l]; [done|]. simpl. intros H. by rewrite H. Qed.

Lemma head_rev {A} (l : list A) : head (rev l) = last l.
Proof. rewrite rev_alt. apply head_reverse. Qed.

(** A byte string whose first and last bytes are ASCII non-spaces is trimmed. *)
Lemma TrimSpace_bytes_id b :
  ascii_bytes b ->
  (forall c, head b = Some c -> unicode_IsSpace (byte_val c) = false) ->
  (forall c, last b = Some c -> unicode_IsSpace (byte_val c) = false) ->
  TrimSpace_bytes b = b.
Proof.
  intros Ha Hh Hl. unfold TrimSpace_bytes.
  assert (drop_while space_chunk (chunks b) = chunks b) as ->.
  { apply drop_while_head. rewrite (chunks_ascii _ Ha). destruct b as [|c b]; [done|].
    cbn. intros ? [= <-]. by apply Hh. }
  rewrite drop_while_head; [by rewrite rev_involutive, chunks_concat|].
  intros a. rewrite head_rev, (chunks_ascii _ Ha), fmap_last.
  intros (c & Hc & ->)%fmap_Some. by apply Hl.
Qed.

Lemma TrimSpace_id s :
  ascii_bytes (bytes_of s) ->
  (forall c, head (bytes_of s) = Some c -> unicode_IsSpace (byte_val c) = false) ->
  (forall c, last (bytes_of s) = Some c -> unicode_IsSpace (byte_val c) = false) ->
  TrimSpace s = s.
Proof. intros. unfold TrimSpace. rewrite TrimSpace_bytes_id by done. apply string_of_bytes_of. Qed.

(** ** Writing runes

    [strings.Builder.WriteRune], i.e. [utf8.AppendRune]: surrogates and values
    out of range are written as [RuneError]. *)
Definition encode_rune (r : Z) : bytes :=
  let r := if between 0 0xD7FF r || between 0xE000 MaxRune r then r else RuneError in
  if r <=? 0x7F then [byte_of_Z r]
  else if r <=? 0x7FF then [byte_of_Z (0xC0 + Z.shiftr r 6); byte_of_Z (0x80 + low6 r)]
  else if r <=? 0xFFFF then
    [byte_of_Z (0xE0 + Z.shiftr r 12); byte_of_Z (0x80 + low6 (Z.shiftr r 6));
     byte_of_Z (0x80 + low6 r)]
  else
    [byte_of_Z (0xF0 + Z.shiftr r 18); byte_of_Z (0x80 + low6 (Z.shiftr r 12));
     byte_of_Z (0x80 + low6 (Z.shiftr r 6)); byte_of_Z (0x80 + low6 r)].

Definition string_of_runes (rs : list Z) : string := string_of (concat (encode_rune <$> rs)).

(** ** Decimal numbers read back *)

Fixpoint decimal_value (acc : Z) (b : bytes) : Z :=
  match b with
  | [] => acc
  | c :: b' => decimal_value (acc * 10 + (byte_val c - 48)) b'
  end.

Lemma decimal_value_app a b c : decimal_value a (b ++ c) = decimal_value (decimal_value a b) c.
Proof. revert a. induction b; intros; simpl; auto. Qed.

Definition digit_byte (c : ascii) : Prop := 48 <= byte_val c <= 57.

Lemma digit_char_val d : 0 <= d < 10 -> byte_val (digit_char d) = 48 + d.
Proof. intros. unfold digit_char. rewrite byte_val_of_Z, Z.mod_small; lia. Qed.

Lemma decimal_digits_spec fuel n acc :
  0 <= n < 10 ^ Z.of_nat fuel ->
  exists ds, decimal_digits fuel n acc = ds ++ acc /\ Forall digit_byte ds /\ decimal_value 0 ds = n.
Proof.
  revert n acc. induction fuel as [|fuel IH]; intros n acc Hn.
  { exists []. split_and!; [done..|]. simpl in *. lia. }
  pose proof (Z.mod_pos_bound n 10 eq_refl) as Hd. pose proof (Z.div_mod n 10 ltac:(lia)) as Hdm.
  rewrite Nat2Z.inj_succ, Z.pow_succ_r in Hn by lia.
  assert (digit_byte (digit_char (n mod 10))) as Hdig
    by (unfold digit_byte; rewrite digit_char_val by lia; lia).
  cbn [decimal_digits]. destruct (n / 10 =? 0) eqn:E; reflect_bools.
  - exists [digit_char (n mod 10)]. split_and!; [done | by apply Forall_singleton|].
    cbn [decimal_value]. rewrite digit_char_val by lia. lia.
  - destruct (IH (n / 10) (digit_char (n mod 10) :: acc)) as (ds & -> & Hds & Hv).
    { split; [apply Z.div_pos; lia | apply Z.div_lt_upper_bound; lia]. }
    exists (ds ++ [digit_char (n mod 10)]). rewrite <- app_assoc. split_and!; [done | |].
    + apply Forall_app. split; [done | by apply Forall_singleton].
    + rewrite decimal_value_app, Hv. cbn [decimal_value]. rewrite digit_char_val by lia. lia.
Qed.

(** A printed [int64] is its sign and its digits, and determines the number. *)
Lemma FormatInt_spec n :
  in_int64 n ->
  exists ds, bytes_of (FormatInt n) = (if n <? 0 then [byte_of_Z 45] else []) ++ ds /\
    Forall digit_byte ds /\ decimal_value 0 ds = Z.abs n.
Proof.
  unfold in_int64, two63. intros Hn. unfold FormatInt, FormatUint.
  destruct (decimal_digits_spec 20 (Z.abs n) []) as (ds & Hds & Hall & Hv);
    [change (10 ^ Z.of_nat 20) with 100000000000000000000; lia|].
  rewrite app_nil_r in Hds. exists ds. split; [|done].
  destruct (n <? 0) eqn:E; reflect_bools; rewrite bytes_of_string_of.
  - rewrite Z.abs_neq in Hds by lia. by rewrite Hds.
  - rewrite Z.abs_eq in Hds by lia. by rewrite Hds.
Qed.

Lemma FormatInt_inj m n : in_int64 m -> in_int64 n -> FormatInt m = FormatInt n -> m = n.
Proof.
  intros (dm & Em & Hdm & Hm)%FormatInt_spec (dn & En & Hdn & Hn)%FormatInt_spec E.
  rewrite E, En in Em.
  assert (forall d, Forall digit_byte d -> forall e, byte_of_Z 45 :: e <> d) as Hsign.
  { intros d Hd e <-. inversion Hd as [|? ? Hb]; subst. unfold digit_byte in Hb.
    rewrite byte_val_of_Z in Hb. change (45 mod 256) with 45 in Hb. lia. }
  destruct (m <? 0) eqn:Lm, (n <? 0) eqn:Ln; reflect_bools; cbn in Em.
  - injection Em as ->. lia.
  - by apply eq_sym, Hsign in Em.
  - by apply Hsign in Em.
  - subst. lia.
Qed.

(** The first separator splits a text whose head does not contain it. *)
Lemma split_at_separator (c : ascii) (a b x y : bytes) :
  c ∉ a -> c ∉ b -> a ++ c :: x = b ++ c :: y -> a = b /\ x = y.
Proof.
  revert b. induction a as [|d a IH]; intros [|e b] Ha Hb H; simpl in H; simplify_eq; try set_solver.
  destruct (IH b) as [-> ->]; set_solver.
Qed.
