(* ===== verification/Backoff.v ===== *)
(** * Delays of a connection actor (internal/gateway/connectionactor/backoff.go, actor.go)

    The exponential backoff between provider generations, its jitter, and the
    delay between lease renewals.  Random bytes and the fallback clock are
    arguments. *)

From S2P Require Import Prelude.

Definition defaultBackoffBase : Z := 2 * Second.
Definition defaultBackoffCap : Z := 5 * Minute.

Record Backoff := { bo_base : Z; bo_cap : Z; bo_failures : Z }.

Definition NewBackoff (Base Cap : Z) : result Backoff :=
  let base := if Base =? 0 then defaultBackoffBase else Base in
  let cap := if Cap =? 0 then defaultBackoffCap else Cap in
  if (base <=? 0) || (cap <? base) then Err [ErrInvalidConfig]
  else Ok {| bo_base := base; bo_cap := cap; bo_failures := 0 |}.

(** The loop of [Fail]; a duration doubles at most 63 times below its cap. *)
Fixpoint grow (fuel : nat) (exponent failures limit cap : Z) : Z :=
  match fuel with
  | O => limit
  | S fuel =>
    if (exponent <? failures) && (limit <? cap) then
      if limit >? Z.quot cap 2 then cap else grow fuel (exponent + 1) failures (int64 (limit * 2)) cap
    else limit
  end.

Definition backoff_limit (failures base cap : Z) : Z :=
  let limit := grow 64 1 failures base cap in if limit >? cap then cap else limit.

(** [cryptoInt63n]; [random] is what [rand.Read] delivered, [None] its error. *)
Definition cryptoInt63n (limit : Z) (random : option Z) (unixNano : Z) : Z :=
  if limit <=? 1 then 0
  else match random with
  | None => Z.rem unixNano limit
  | Some bits => Z.rem (Z.land (uint64 bits) (two63 - 1)) limit
  end.

(** [Fail]: the new state and the delay, drawn by [int63n]. *)
Definition Backoff_Fail (int63n : Z -> Z) (backoff : Backoff) : Backoff * Z :=
  let failures := uint64 (bo_failures backoff + 1) in
  ({| bo_base := bo_base backoff; bo_cap := bo_cap backoff; bo_failures := failures |},
   int63n (backoff_limit failures (bo_base backoff) (bo_cap backoff))).

Definition Backoff_Ready (backoff : Backoff) : Backoff :=
  {| bo_base := bo_base backoff; bo_cap := bo_cap backoff; bo_failures := 0 |}.

(** [renewDelay] *)
Definition renewDelay (leaseTTL : Z) (random : option Z) (unixNano : Z) : Z :=
  let base := Z.quot leaseTTL 3 in
  let jitterRange := Z.quot leaseTTL 6 in
  if jitterRange <=? 0 then base else int64 (base + cryptoInt63n jitterRange random unixNano).

(** ** Properties *)

Lemma cryptoInt63n_range limit random unixNano :
  1 <= limit -> 0 <= unixNano -> 0 <= cryptoInt63n limit random unixNano < limit.
Proof.
  intros Hl Hn. unfold cryptoInt63n. destruct (limit <=? 1) eqn:E; reflect_bools; [lia|].
  destruct random as [bits|]; apply Z.rem_bound_pos; try lia.
  apply Z.land_nonneg. left. unfold uint64. apply Z.mod_pos_bound. reflexivity.
Qed.

Lemma pow2_pos n : 0 <= n -> 1 <= 2 ^ n.
Proof. intros. change 1 with (2 ^ 0) at 1. apply Z.pow_le_mono_r; lia. Qed.

Lemma renewDelay_range leaseTTL random unixNano :
  0 <= unixNano -> 6 <= leaseTTL < two63 ->
  leaseTTL / 3 <= renewDelay leaseTTL random unixNano < leaseTTL / 2 + 1.
Proof.
  intros Hn Httl. unfold renewDelay. rewrite !Z.quot_div_nonneg by lia.
  assert (1 <= leaseTTL / 6) by (apply Z.div_le_lower_bound; lia).
  destruct (leaseTTL / 6 <=? 0) eqn:E; reflect_bools; [lia|].
  pose proof (cryptoInt63n_range (leaseTTL / 6) random unixNano ltac:(lia) Hn).
  pose proof (Z.div_mod leaseTTL 3 ltac:(lia)). pose proof (Z.mod_pos_bound leaseTTL 3 eq_refl).
  pose proof (Z.div_mod leaseTTL 6 ltac:(lia)). pose proof (Z.mod_pos_bound leaseTTL 6 eq_refl).
  pose proof (Z.div_mod leaseTTL 2 ltac:(lia)). pose proof (Z.mod_pos_bound leaseTTL 2 eq_refl).
  rewrite int64_id by (unfold in_int64; unfold two63 in *; lia). lia.
Qed.

(** The loop computes the capped power, for any fuel above the number of doublings
    that fit. *)
Lemma grow_spec fuel k failures limit cap :
  0 < limit -> limit <= cap -> cap < two63 -> cap < limit * 2 ^ Z.of_nat fuel -> 0 <= k <= failures ->
  grow fuel k failures limit cap = Z.min cap (limit * 2 ^ (failures - k)).
Proof.
  revert k limit. induction fuel as [|fuel IH]; intros k limit Hpos Hle Hcap Hfuel Hk; [simpl in Hfuel; lia|].
  cbn [grow]. rewrite Nat2Z.inj_succ, Z.pow_succ_r in Hfuel by lia.
  destruct (k <? failures) eqn:E1; reflect_bools.
  2:{ cbn. replace (failures - k) with 0 by lia. simpl. lia. }
  destruct (limit <? cap) eqn:E2; reflect_bools; cbn [andb].
  2:{ assert (1 <= 2 ^ (failures - k)) by (apply pow2_pos; lia). nia. }
  replace (failures - k) with (Z.succ (failures - (k + 1))) by lia. rewrite Z.pow_succ_r by lia.
  assert (1 <= 2 ^ (failures - (k + 1))) by (apply pow2_pos; lia).
  rewrite Z.quot_div_nonneg by lia. pose proof (Z.div_mod cap 2 ltac:(lia)) as Hdm.
  pose proof (Z.mod_pos_bound cap 2 eq_refl).
  destruct (limit >? cap / 2) eqn:E3; reflect_bools; [nia|].
  rewrite int64_id by (unfold in_int64; unfold two63 in *; lia).
  rewrite IH by lia. f_equal. lia.
Qed.

Definition backoff_ok (backoff : Backoff) : Prop :=
  0 < bo_base backoff <= bo_cap backoff /\ bo_cap backoff < two63 /\ 0 <= bo_failures backoff < two64 - 1.

(** The doubling loop with its overflow guards is the closed form: after the
    n-th failure in a row the delay is drawn below [min cap (base * 2^(n-1))], no
    intermediate value leaves 64 bits, the state counts the failure, [Ready] makes
    the next limit the base again, and 64 rounds of the loop always suffice (more
    change nothing). The gateway's own source of randomness stays in that range,
    so a delay is never negative and never reaches the limit; and a lease is
    renewed between a third and a half of its lifetime. *)
Theorem delays_follow_formula (backoff : Backoff) (random : option Z) (unixNano leaseTTL : Z) :
  backoff_ok backoff -> 0 <= unixNano -> 6 <= leaseTTL < two63 ->
  let limit := Z.min (bo_cap backoff) (bo_base backoff * 2 ^ bo_failures backoff) in
  let '(backoff', delay) := Backoff_Fail (fun n => cryptoInt63n n random unixNano) backoff in
  backoff_limit (bo_failures backoff') (bo_base backoff) (bo_cap backoff) = limit /\
  0 <= delay < limit /\
  bo_failures backoff' = bo_failures backoff + 1 /\
  backoff_limit 1 (bo_base (Backoff_Ready backoff')) (bo_cap (Backoff_Ready backoff')) = bo_base backoff /\
  (forall more, grow (64 + more) 1 (bo_failures backoff') (bo_base backoff) (bo_cap backoff) =
                grow 64 1 (bo_failures backoff') (bo_base backoff) (bo_cap backoff)) /\
  leaseTTL / 3 <= renewDelay leaseTTL random unixNano < leaseTTL / 2 + 1.
Proof.
  destruct backoff as [base cap failures]. intros ([Hb Hc] & Hcap & Hf) Hn Httl.
  cbn [Backoff_Fail Backoff_Ready bo_base bo_cap bo_failures] in *. cbv zeta. rewrite uint64_id by lia.
  assert (forall n m, (64 <= n)%nat -> 1 <= m -> grow n 1 m base cap = Z.min cap (base * 2 ^ (m - 1))) as Hgrow.
  { intros n m Hn64 Hm. apply grow_spec; try lia.
    assert (2 ^ 63 <= 2 ^ Z.of_nat n) by (apply Z.pow_le_mono_r; lia).
    unfold two63 in Hcap. generalize dependent (2 ^ Z.of_nat n). intros. nia. }
  assert (forall m, 1 <= m -> backoff_limit m base cap = Z.min cap (base * 2 ^ (m - 1))) as Hlimit.
  { intros m Hm. unfold backoff_limit. rewrite Hgrow by lia. destruct (_ >? cap) eqn:E; reflect_bools; lia. }
  assert (1 <= 2 ^ failures) by (apply pow2_pos; lia).
  rewrite Hlimit by lia. replace (failures + 1 - 1) with failures by lia. split; [reflexivity|].
  split; [apply cryptoInt63n_range; [nia | exact Hn]|]. split; [reflexivity|].
  split; [rewrite Hlimit by lia; simpl; lia|].
  split; [intros more; rewrite !Hgrow by lia; reflexivity|]. by apply renewDelay_range.
Qed.

Lemma delays_follow_formula_witness :
  let '(backoff', delay) := Backoff_Fail (fun n => cryptoInt63n n (Some 123456789012345) 0)
      {| bo_base := 2 * Second; bo_cap := 5 * Minute; bo_failures := 70 |} in
  backoff_limit (bo_failures backoff') (2 * Second) (5 * Minute) = 5 * Minute /\ 0 <= delay < 5 * Minute.
Proof.
  assert (backoff_ok {| bo_base := 2 * Second; bo_cap := 5 * Minute; bo_failures := 70 |}) as Hok
    by (repeat split; vm_compute; congruence).
  destruct (delays_follow_formula {| bo_base := 2 * Second; bo_cap := 5 * Minute; bo_failures := 70 |}
    (Some 123456789012345) 0 (30 * Second) Hok) as (H1 & H2 & _).
  - lia.
  - split; vm_compute; congruence.
  - split; [exact H1 | exact H2].
Defined.
