(* ===== verification/Pool.v ===== *)
(** * Actor pools (internal/gateway/connectionactor/pool.go, manager.go)

    The two registries of connection actors of one process. Each locked region of
    the code is one step; the goroutine of an actor is the step that ends it. An
    entry has an identity (the pointer the goroutine keeps), so that a goroutine can
    tell whether the registry still holds its own entry. *)

From S2P Require Import Prelude.

Record Key := { key_TenantID : string; key_ConnectionID : string }.

#[export] Instance Key_eq_dec : EqDecision Key.
Proof. solve_decision. Defined.

#[export] Instance Key_countable : Countable Key.
Proof.
  refine (inj_countable' (fun k => (key_TenantID k, key_ConnectionID k))
            (fun p => {| key_TenantID := p.1; key_ConnectionID := p.2 |}) _).
  by intros [].
Defined.

Definition Key_valid (key : Key) : bool := (key_TenantID key <>s "") && (key_ConnectionID key <>s "").

(** ** Pool *)

Module Pool.

(** [running] says that [done] is not closed; [actor] that the entry has an actor at
    all (a quarantine without one has none). *)
Record poolEntry := {
  pe_key : Key;
  pe_actor : bool;
  pe_running : bool;
  pe_cancelled : bool;
  pe_terminalErr : error;
  pe_quarantined : bool
}.

Record Pool := {
  po_entries : gmap nat poolEntry;
  po_actors : gmap Key nat;
  po_closed : bool;
  po_next : nat
}.

Definition NewPool : Pool := {| po_entries := ∅; po_actors := ∅; po_closed := false; po_next := 0 |}.

Definition set_entry (id : nat) (e : poolEntry) (p : Pool) : Pool := {|
  po_entries := <[id := e]> (po_entries p); po_actors := po_actors p; po_closed := po_closed p; po_next := po_next p |}.

Definition add_entry (key : Key) (e : poolEntry) (p : Pool) : Pool := {|
  po_entries := <[po_next p := e]> (po_entries p); po_actors := <[key := po_next p]> (po_actors p);
  po_closed := po_closed p; po_next := S (po_next p) |}.

Definition remove_key (key : Key) (p : Pool) : Pool := {|
  po_entries := po_entries p; po_actors := delete key (po_actors p); po_closed := po_closed p; po_next := po_next p |}.

Definition lookup_entry (p : Pool) (key : Key) : option (nat * poolEntry) :=
  match po_actors p !! key with
  | Some id => (fun e => (id, e)) <$> po_entries p !! id
  | None => None
  end.

Definition new_entry (key : Key) : poolEntry := {|
  pe_key := key; pe_actor := true; pe_running := true; pe_cancelled := false; pe_terminalErr := []; pe_quarantined := false |}.

(** [newActor] is what the constructor returned: an actor, or its error ([nil] for a
    missing actor without one). [ctxErr] is [ctx.Err()]. *)
Definition Start (ctxErr : error) (key : Key) (newActor : option error) (p : Pool) : Pool * error :=
  if negb (is_nil ctxErr) then (p, ctxErr)
  else if negb (Key_valid key) then (p, [ErrInvalidConfig])
  else if po_closed p then (p, [ErrProviderUnavailable])
  else match lookup_entry p key with
  | Some (_, existing) => (p, pe_terminalErr existing)
  | None =>
    match newActor with
    | Some err => (p, if is_nil err then [ErrInvalidConfig] else err)
    | None => (add_entry key (new_entry key) p, [])
    end
  end.

Definition end_entry (e : poolEntry) (terminalErr : error) (quarantined : bool) : poolEntry := {|
  pe_key := pe_key e; pe_actor := pe_actor e; pe_running := false; pe_cancelled := pe_cancelled e;
  pe_terminalErr := terminalErr; pe_quarantined := quarantined |}.

(** The end of the goroutine: [Run] returned [runErr]. *)
Definition finish (id : nat) (runErr : error) (p : Pool) : Pool :=
  match po_entries p !! id with
  | None => p
  | Some e =>
    if bool_decide (po_actors p !! pe_key e = Some id) then
      if errors_Is runErr ErrProviderJoinTimeout then set_entry id (end_entry e [ErrProviderJoinTimeout] (pe_quarantined e)) p
      else if errors_Is runErr ErrSharedInfrastructure || errors_Is runErr ErrStaleGeneration ||
              errors_Is runErr ErrProviderPermanentProtocol
      then set_entry id (end_entry e runErr (errors_Is runErr ErrProviderPermanentProtocol || pe_quarantined e)) p
      else
        let p' := set_entry id (end_entry e (pe_terminalErr e) (pe_quarantined e)) p in
        if pe_quarantined e then p' else remove_key (pe_key e) p'
    else set_entry id (end_entry e (pe_terminalErr e) (pe_quarantined e)) p
  end.

(** [Execute] up to the call of the actor: the entry whose actor is called. *)
Definition Execute (key : Key) (p : Pool) : result nat :=
  if negb (Key_valid key) then Err [ErrInvalidConfig]
  else match lookup_entry p key with
  | Some (id, e) =>
    if pe_quarantined e || negb (is_nil (pe_terminalErr e)) || negb (pe_actor e) || negb (pe_running e)
    then Err [ErrProviderUnavailable] else Ok id
  | None => Err [ErrProviderUnavailable]
  end.

Definition quarantined_entry (e : poolEntry) : poolEntry := {|
  pe_key := pe_key e; pe_actor := pe_actor e; pe_running := pe_running e; pe_cancelled := true;
  pe_terminalErr := if is_nil (pe_terminalErr e) then [ErrProviderUnavailable] else pe_terminalErr e;
  pe_quarantined := true |}.

(** [Quarantine] before it waits: the entry to wait for, if any. *)
Definition Quarantine (key : Key) (p : Pool) : Pool * result (option nat) :=
  if negb (Key_valid key) then (p, Err [ErrInvalidConfig])
  else match lookup_entry p key with
  | None => (add_entry key {| pe_key := key; pe_actor := false; pe_running := false; pe_cancelled := false;
                              pe_terminalErr := [ErrProviderUnavailable]; pe_quarantined := true |} p, Ok None)
  | Some (id, e) => (set_entry id (quarantined_entry e) p, Ok (Some id))
  end.

(** What [Quarantine] returns once the actor is done. *)
Definition Quarantine_joined (id : nat) (p : Pool) : error :=
  match po_entries p !! id with
  | Some e => if errors_Is (pe_terminalErr e) ErrProviderJoinTimeout then [ErrProviderJoinTimeout] else []
  | None => []
  end.

Definition Resume (key : Key) (p : Pool) : Pool * error :=
  if negb (Key_valid key) then (p, [ErrInvalidConfig])
  else match lookup_entry p key with
  | None => (p, [ErrProviderUnavailable])
  | Some (_, e) =>
    if negb (pe_quarantined e) then (p, [ErrProviderUnavailable])
    else if errors_Is (pe_terminalErr e) ErrProviderJoinTimeout then (p, [ErrProviderJoinTimeout])
    else if pe_running e then (p, [ErrProviderJoinTimeout])
    else (remove_key key p, [])
  end.

Definition cancel_entry (e : poolEntry) : poolEntry := {|
  pe_key := pe_key e; pe_actor := pe_actor e; pe_running := pe_running e; pe_cancelled := true;
  pe_terminalErr := pe_terminalErr e; pe_quarantined := pe_quarantined e |}.

(** [Shutdown] before it waits: the registered entries are cancelled. *)
Definition Shutdown (p : Pool) : Pool := {|
  po_entries := map_imap (fun id e =>
    Some (if bool_decide (po_actors p !! pe_key e = Some id) then cancel_entry e else e)) (po_entries p);
  po_actors := po_actors p; po_closed := true; po_next := po_next p |}.

(** ** Steps *)

Inductive step (p : Pool) : Pool -> Prop :=
| step_start ctxErr key newActor : step p (Start ctxErr key newActor p).1
| step_finish id runErr e :
    po_entries p !! id = Some e -> pe_running e = true -> step p (finish id runErr p)
| step_quarantine key : step p (Quarantine key p).1
| step_resume key : step p (Resume key p).1
| step_shutdown : step p (Shutdown p).

Definition steps : Pool -> Pool -> Prop := rtc step.

(** The registry points at entries of its keys, every running actor is the
    registered one of its key, and identities are fresh. *)
Record pool_ok (p : Pool) : Prop := {
  registered : forall key id, po_actors p !! key = Some id ->
    exists e, po_entries p !! id = Some e /\ pe_key e = key;
  running_registered : forall id e, po_entries p !! id = Some e -> pe_running e = true ->
    po_actors p !! pe_key e = Some id;
  fresh : forall id, (po_next p <= id)%nat -> po_entries p !! id = None
}.

Lemma lookup_entry_Some p key id e :
  lookup_entry p key = Some (id, e) <-> po_actors p !! key = Some id /\ po_entries p !! id = Some e.
Proof.
  unfold lookup_entry. destruct (po_actors p !! key) as [id'|]; [|naive_solver].
  destruct (po_entries p !! id') eqn:E; cbn; naive_solver.
Qed.

Lemma lookup_entry_None p key : pool_ok p -> lookup_entry p key = None -> po_actors p !! key = None.
Proof.
  intros Hok. unfold lookup_entry. destruct (po_actors p !! key) as [id|] eqn:E; [|done].
  destruct (registered p Hok _ _ E) as (e & He & _). by rewrite He.
Qed.

(** Replacing an entry by one of the same key that does not run again keeps it. *)
Lemma set_entry_ok p id e e' :
  pool_ok p -> po_entries p !! id = Some e -> pe_key e' = pe_key e -> (pe_running e' = true -> pe_running e = true) ->
  pool_ok (set_entry id e' p).
Proof.
  intros [Hreg Hrun Hfresh] He Hkey Hr. split; cbn.
  - intros key id0 H0. destruct (Hreg _ _ H0) as (e0 & He0 & Hk0). destruct (decide (id0 = id)) as [->|].
    + exists e'. rewrite lookup_insert_eq. split; [done|]. congruence.
    + exists e0. by rewrite lookup_insert_ne.
  - intros id0 e0 H0 Hr0. apply lookup_insert_Some in H0 as [[<- <-]|[? H0]]; [|by apply Hrun].
    rewrite Hkey. apply Hrun; auto.
  - intros id0 Hle. rewrite lookup_insert_ne; [by apply Hfresh|]. intros <-. by rewrite Hfresh in He.
Qed.

Lemma add_entry_ok p key e :
  pool_ok p -> po_actors p !! key = None -> pe_key e = key -> pool_ok (add_entry key e p).
Proof.
  intros [Hreg Hrun Hfresh] Hnone Hkey. split; cbn.
  - intros key0 id0 H0. apply lookup_insert_Some in H0 as [[<- <-]|[? H0]].
    + exists e. by rewrite lookup_insert_eq.
    + destruct (Hreg _ _ H0) as (e0 & He0 & Hk0). exists e0. rewrite lookup_insert_ne; [done|].
      intros <-. by rewrite Hfresh in He0.
  - intros id0 e0 H0 Hr0. apply lookup_insert_Some in H0 as [[<- <-]|[? H0]].
    + rewrite Hkey. by rewrite lookup_insert_eq.
    + rewrite lookup_insert_ne; [by apply Hrun|]. intros Heq. specialize (Hrun _ _ H0 Hr0). congruence.
  - intros id0 Hle. rewrite lookup_insert_ne by lia. apply Hfresh. lia.
Qed.

(** A key is unregistered only when its actor does not run. *)
Lemma remove_key_ok p key id e :
  pool_ok p -> po_actors p !! key = Some id -> po_entries p !! id = Some e -> pe_running e = false ->
  pool_ok (remove_key key p).
Proof.
  intros [Hreg Hrun Hfresh] Hk He Hr. split; cbn; [|intros id0 e0 H0 Hr0|done].
  - intros key0 id0 [? H0]%lookup_delete_Some. by apply Hreg.
  - rewrite lookup_delete_ne; [by apply Hrun|]. intros Heq. specialize (Hrun _ _ H0 Hr0).
    rewrite <- Heq, Hk in Hrun. injection Hrun as ->. congruence.
Qed.

Lemma finish_ok p id runErr : pool_ok p -> pool_ok (finish id runErr p).
Proof.
  intros Hok. unfold finish. destruct (po_entries p !! id) as [e|] eqn:He; [|done].
  assert (forall t q, pool_ok (set_entry id (end_entry e t q) p)) as Hset
    by (intros; by eapply set_entry_ok).
  destruct (bool_decide _) eqn:Ereg; [|apply Hset]. reflect_bools.
  destruct (errors_Is _ _); [apply Hset|]. destruct (_ || _); [apply Hset|].
  destruct (pe_quarantined e); [apply Hset|].
  eapply remove_key_ok; [apply Hset | exact Ereg | apply lookup_insert_eq | done].
Qed.

Lemma step_pool_ok p p' : step p p' -> pool_ok p -> pool_ok p'.
Proof.
  intros [ctxErr key newActor | id runErr e _ _ | key | key |] Hok.
  - unfold Start. destruct (negb _); [done|]. destruct (negb _); [done|]. destruct (po_closed p); [done|].
    destruct (lookup_entry p key) as [[id e]|] eqn:E; [done|]. destruct newActor; [done|].
    apply add_entry_ok; [done | by apply lookup_entry_None | done].
  - by apply finish_ok.
  - unfold Quarantine. destruct (negb _); [done|]. destruct (lookup_entry p key) as [[id e]|] eqn:E; cbn.
    + apply lookup_entry_Some in E as [_ He]. by eapply set_entry_ok.
    + apply add_entry_ok; [done | by apply lookup_entry_None | done].
  - unfold Resume. destruct (negb _); [done|]. destruct (lookup_entry p key) as [[id e]|] eqn:E; [|done].
    destruct (negb _); [done|]. destruct (errors_Is _ _); [done|]. destruct (pe_running e) eqn:Er; [done|].
    apply lookup_entry_Some in E as [Ha He]. by eapply remove_key_ok.
  - destruct Hok as [Hreg Hrun Hfresh]. split; cbn.
    + intros key id H. destruct (Hreg _ _ H) as (e & He & Hk). rewrite map_lookup_imap, He. cbn.
      eexists. split; [done|]. by destruct (bool_decide _).
    + intros id e H Hr. rewrite map_lookup_imap in H. destruct (po_entries p !! id) as [e0|] eqn:E0; [|done].
      cbn in H. injection H as <-. destruct (bool_decide _); by apply (Hrun id e0).
    + intros id Hle. by rewrite map_lookup_imap, Hfresh.
Qed.

Lemma steps_pool_ok p p' : steps p p' -> pool_ok p -> pool_ok p'.
Proof. induction 1 as [|p q r Hs _ IH]; [done|]. intros Hok. by eapply IH, step_pool_ok. Qed.

Lemma NewPool_ok : pool_ok NewPool.
Proof. split; cbn; [by intros | by intros | done]. Qed.

(** The tombstone a join timeout leaves. *)
Definition tombstone (key : Key) (p : Pool) : Prop :=
  exists id e, po_actors p !! key = Some id /\ po_entries p !! id = Some e /\
    pe_running e = false /\ errors_Is (pe_terminalErr e) ErrProviderJoinTimeout = true.

Lemma tombstone_step key p p' : pool_ok p -> step p p' -> tombstone key p -> tombstone key p'.
Proof.
  intros Hok Hs (id & e & Ha & He & Hr & Ht).
  assert (forall id' e', id' <> id -> tombstone key (set_entry id' e' p)) as Hset.
  { intros id' e' Hne. exists id, e. cbn. by rewrite lookup_insert_ne. }
  assert (forall key' e', key' <> key -> tombstone key (add_entry key' e' p)) as Hadd.
  { intros key' e' Hne. exists id, e. cbn. rewrite !lookup_insert_ne; [done| |done].
    intros <-. by rewrite (fresh p Hok) in He. }
  assert (lookup_entry p key = Some (id, e)) as Hl by by apply lookup_entry_Some.
  destruct Hs as [ctxErr key' newActor | id' runErr e' He' Hr' | key' | key' |].
  - unfold Start. destruct (negb _); [by exists id, e|]. destruct (negb _); [by exists id, e|].
    destruct (po_closed p); [by exists id, e|].
    destruct (lookup_entry p key') as [[]|] eqn:El; [by exists id, e|]. destruct newActor; [by exists id, e|].
    apply Hadd. congruence.
  - assert (id' <> id) by congruence. unfold finish. rewrite He'. destruct (bool_decide _) eqn:Ereg; [|by apply Hset].
    reflect_bools. destruct (errors_Is runErr _); [by apply Hset|]. destruct (_ || _); [by apply Hset|].
    destruct (pe_quarantined e'); [by apply Hset|]. exists id, e. cbn.
    rewrite lookup_delete_ne, lookup_insert_ne; [done | done |]. congruence.
  - unfold Quarantine. destruct (negb _); [by exists id, e|].
    destruct (lookup_entry p key') as [[id' e']|] eqn:El; cbn; [|apply Hadd; congruence].
    apply lookup_entry_Some in El as [Ha' He']. destruct (decide (id' = id)) as [->|]; [|by apply Hset].
    rewrite He in He'. injection He' as <-. exists id, (quarantined_entry e). cbn. rewrite lookup_insert_eq.
    split_and!; [done..|]. destruct (pe_terminalErr e); [by rewrite errors_Is_nil in Ht | done].
  - unfold Resume. destruct (negb _); [by exists id, e|].
    destruct (lookup_entry p key') as [[id' e']|] eqn:El; [|by exists id, e].
    destruct (negb _); [by exists id, e|]. destruct (errors_Is (pe_terminalErr e') _) eqn:Et; [by exists id, e|].
    destruct (pe_running e'); [by exists id, e|]. exists id, e. cbn.
    rewrite lookup_delete_ne; [done|]. intros ->. rewrite Hl in El. injection El as <- <-. congruence.
  - exists id. cbn. rewrite map_lookup_imap, He. cbn. eexists. split; [done|]. split; [done|].
    by destruct (bool_decide _).
Qed.

Lemma tombstone_steps key p p' : pool_ok p -> steps p p' -> tombstone key p -> tombstone key p'.
Proof.
  intros Hok Hs. induction Hs as [|p q r Hs _ IH]; [done|]. intros Ht.
  apply IH; [by eapply step_pool_ok | by eapply tombstone_step].
Qed.

Lemma tombstone_refuses key p ctxErr newActor :
  pool_ok p -> tombstone key p ->
  (Start ctxErr key newActor p).1 = p /\ (Resume key p).1 = p /\ (forall id, Execute key p <> Ok id) /\
  (forall id e, po_entries p !! id = Some e -> pe_key e = key -> pe_running e = false).
Proof.
  intros Hok (id & e & Ha & He & Hr & Ht).
  assert (lookup_entry p key = Some (id, e)) as Hl by by apply lookup_entry_Some.
  split_and!.
  - unfold Start. destruct (negb _); [done|]. destruct (negb _); [done|]. destruct (po_closed p); [done|]. by rewrite Hl.
  - unfold Resume. destruct (negb _); [done|]. rewrite Hl. destruct (negb _); [done|]. by rewrite Ht.
  - intros id'. unfold Execute. destruct (negb _); [done|]. rewrite Hl, Hr. cbn. by rewrite !orb_true_r.
  - intros id' e' He' Hk. destruct (pe_running e') eqn:Er; [|done].
    pose proof (running_registered p Hok _ _ He' Er) as Ha'. rewrite Hk, Ha in Ha'. injection Ha' as <-. congruence.
Qed.

Lemma Execute_running key p id :
  Execute key p = Ok id -> exists e, po_entries p !! id = Some e /\ po_actors p !! key = Some id /\
    pe_running e = true /\ pe_quarantined e = false /\ pe_terminalErr e = [].
Proof.
  unfold Execute. destruct (negb _); [done|]. destruct (lookup_entry p key) as [[id' e]|] eqn:E; [|done].
  destruct (_ || _) eqn:Eb; [done|]. intros [= <-]. reflect_bools. apply lookup_entry_Some in E as [Ha He].
  exists e. split_and!; [done..|]. by apply is_nil_true.
Qed.
End Pool.

(** ** Manager *)

Module Manager.

(** [exited] is closed when the run function returned, [done] after the cleanup. *)
Record localActor := { la_key : Key; la_exited : bool; la_done : bool; la_stopping : bool; la_cancelled : bool }.

Record Manager := { mg_entries : gmap nat localActor; mg_actors : gmap Key nat; mg_next : nat }.

Definition NewManager : Manager := {| mg_entries := ∅; mg_actors := ∅; mg_next := 0 |}.

(** What the locked decision of [Start] finds: nothing to do, a new actor, or an
    actor whose end it has to wait for. *)
Inductive decision := Running | Created | WaitFor (id : nat).

Definition lookup_actor (m : Manager) (key : Key) : option (nat * localActor) :=
  match mg_actors m !! key with
  | Some id => (fun a => (id, a)) <$> mg_entries m !! id
  | None => None
  end.

Definition Start_decide (key : Key) (m : Manager) : Manager * decision :=
  match lookup_actor m key with
  | Some (id, current) =>
    if negb (la_stopping current) && negb (la_exited current) then (m, Running) else (m, WaitFor id)
  | None =>
    ({| mg_entries := <[mg_next m := {| la_key := key; la_exited := false; la_done := false; la_stopping := false;
                                        la_cancelled := false |}]> (mg_entries m);
        mg_actors := <[key := mg_next m]> (mg_actors m); mg_next := S (mg_next m) |}, Created)
  end.

Definition unregister (key : Key) (id : nat) (m : Manager) : gmap Key nat :=
  if bool_decide (mg_actors m !! key = Some id) then delete key (mg_actors m) else mg_actors m.

(** After [done] of the awaited actor: the entry is dropped and [Start] decides
    again. *)
Definition Start_waited (key : Key) (id : nat) (m : Manager) : Manager :=
  {| mg_entries := mg_entries m; mg_actors := unregister key id m; mg_next := mg_next m |}.

Definition set_actor (id : nat) (a : localActor) (m : Manager) : Manager :=
  {| mg_entries := <[id := a]> (mg_entries m); mg_actors := mg_actors m; mg_next := mg_next m |}.

(** The run function returned. *)
Definition exit_actor (a : localActor) : localActor :=
  {| la_key := la_key a; la_exited := true; la_done := la_done a; la_stopping := la_stopping a; la_cancelled := la_cancelled a |}.

(** The cleanup under the lock. *)
Definition cleanup (id : nat) (a : localActor) (m : Manager) : Manager :=
  {| mg_entries := <[id := {| la_key := la_key a; la_exited := la_exited a; la_done := true; la_stopping := true;
                              la_cancelled := la_cancelled a |}]> (mg_entries m);
     mg_actors := unregister (la_key a) id m; mg_next := mg_next m |}.

Definition stop_actor (a : localActor) : localActor :=
  {| la_key := la_key a; la_exited := la_exited a; la_done := la_done a; la_stopping := true; la_cancelled := true |}.

(** [Start] up to its first wait; after a wait it is [Start_decide] again. *)
Definition Manager_Start (ctxErr : error) (key : Key) (m : Manager) : Manager * result decision :=
  if negb (is_nil ctxErr) then (m, Err ctxErr)
  else if negb (Key_valid key) then (m, Err [ErrInvalidConfig])
  else let '(m', d) := Start_decide key m in (m', Ok d).

(** [Stop] before it waits. *)
Definition Stop (key : Key) (m : Manager) : Manager :=
  if negb (Key_valid key) then m
  else match lookup_actor m key with Some (id, a) => set_actor id (stop_actor a) m | None => m end.

Inductive step (m : Manager) : Manager -> Prop :=
| step_start ctxErr key : step m (Manager_Start ctxErr key m).1
| step_decide key : Key_valid key = true -> step m (Start_decide key m).1
| step_waited key id a : mg_entries m !! id = Some a -> la_done a = true -> step m (Start_waited key id m)
| step_exit id a : mg_entries m !! id = Some a -> la_exited a = false -> step m (set_actor id (exit_actor a) m)
| step_cleanup id a :
    mg_entries m !! id = Some a -> la_exited a = true -> la_done a = false -> step m (cleanup id a m)
| step_stop key : step m (Stop key m).

Record manager_ok (m : Manager) : Prop := {
  running_registered : forall id a, mg_entries m !! id = Some a -> la_exited a = false -> mg_actors m !! la_key a = Some id;
  done_exited : forall id a, mg_entries m !! id = Some a -> la_done a = true -> la_exited a = true;
  registered : forall key id, mg_actors m !! key = Some id -> exists a, mg_entries m !! id = Some a /\ la_key a = key;
  fresh : forall id, (mg_next m <= id)%nat -> mg_entries m !! id = None
}.

Lemma set_actor_ok m id a a' :
  manager_ok m -> mg_entries m !! id = Some a -> la_key a' = la_key a ->
  (la_exited a = true -> la_exited a' = true) -> (la_done a' = true -> la_exited a' = true) ->
  manager_ok (set_actor id a' m).
Proof.
  intros [Hrun Hdone Hreg Hfresh] Ha Hk He Hd. split; cbn.
  - intros id0 a0 H0 Hr0. apply lookup_insert_Some in H0 as [[<- <-]|[? H0]]; [|by apply Hrun].
    rewrite Hk. apply Hrun; [done|]. destruct (la_exited a); [|done]. by rewrite He in Hr0.
  - intros id0 a0 H0 Hd0. apply lookup_insert_Some in H0 as [[<- <-]|[? H0]]; [auto | by eapply Hdone].
  - intros key id0 H0. destruct (Hreg _ _ H0) as (a0 & Ha0 & Hk0). destruct (decide (id0 = id)) as [->|].
    + exists a'. rewrite lookup_insert_eq. split; [done | congruence].
    + exists a0. by rewrite lookup_insert_ne.
  - intros id0 Hle. rewrite lookup_insert_ne; [by apply Hfresh|]. intros <-. by rewrite Hfresh in Ha.
Qed.

(** Unregistering an actor that has exited. *)
Lemma unregister_ok m key id a :
  manager_ok m -> mg_entries m !! id = Some a -> la_exited a = true -> manager_ok (Start_waited key id m).
Proof.
  intros [Hrun Hdone Hreg Hfresh] Ha He. unfold Start_waited, unregister.
  destruct (bool_decide _) eqn:E; [|by split]. reflect_bools. split; cbn; [|done| |done].
  - intros id0 a0 H0 Hr0. rewrite lookup_delete_ne; [by apply Hrun|]. intros Heq.
    specialize (Hrun _ _ H0 Hr0). rewrite <- Heq, E in Hrun. injection Hrun as ->. congruence.
  - intros key0 id0 [_ H0]%lookup_delete_Some. by apply Hreg.
Qed.

Lemma lookup_actor_Some m key id a :
  lookup_actor m key = Some (id, a) <-> mg_actors m !! key = Some id /\ mg_entries m !! id = Some a.
Proof.
  unfold lookup_actor. destruct (mg_actors m !! key) as [id'|]; [|naive_solver].
  destruct (mg_entries m !! id') eqn:E; cbn; naive_solver.
Qed.

Lemma Start_decide_ok m key : manager_ok m -> manager_ok (Start_decide key m).1.
Proof.
  intros Hok.
  unfold Start_decide. destruct (lookup_actor m key) as [[id a]|] eqn:E; [by destruct (_ && _)|]. cbn.
  destruct Hok as [Hrun Hdone Hreg Hfresh].
  assert (mg_actors m !! key = None) as Hnone.
  { unfold lookup_actor in E. destruct (mg_actors m !! key) as [id|] eqn:Ek; [|done].
    destruct (Hreg _ _ Ek) as (a & Ha & _). by rewrite Ha in E. }
  split; cbn.
  - intros id a H Hr. apply lookup_insert_Some in H as [[<- <-]|[? H]]; [by rewrite lookup_insert_eq|].
    rewrite lookup_insert_ne; [by apply Hrun|]. intros Heq. specialize (Hrun _ _ H Hr). congruence.
  - intros id a H Hd. apply lookup_insert_Some in H as [[<- <-]|[? H]]; [done | by eapply Hdone].
  - intros key0 id H. apply lookup_insert_Some in H as [[<- <-]|[? H]]; [eexists; by rewrite lookup_insert_eq|].
    destruct (Hreg _ _ H) as (a & Ha & Hk). exists a. rewrite lookup_insert_ne; [done|].
    intros <-. by rewrite Hfresh in Ha.
  - intros id Hle. rewrite lookup_insert_ne by lia. apply Hfresh. lia.
Qed.

Lemma step_manager_ok m m' : step m m' -> manager_ok m -> manager_ok m'.
Proof.
  intros [ctxErr key | key _ | key id a Ha Hd | id a Ha Hx | id a Ha Hx Hd | key] Hok.
  - unfold Manager_Start. destruct (negb _); [done|]. destruct (negb _); [done|].
    pose proof (Start_decide_ok m key Hok). by destruct (Start_decide key m).
  - by apply Start_decide_ok.
  - eapply unregister_ok; [done..|]. by apply (done_exited m Hok id a).
  - eapply set_actor_ok; done.
  - set (a' := {| la_key := la_key a; la_exited := la_exited a; la_done := true; la_stopping := true;
      la_cancelled := la_cancelled a |}).
    assert (manager_ok (set_actor id a' m)) as Hset by by eapply set_actor_ok.
    change (manager_ok (Start_waited (la_key a) id (set_actor id a' m))).
    eapply (unregister_ok _ (la_key a) id); [exact Hset | apply lookup_insert_eq | done].
  - unfold Stop. destruct (negb _); [done|]. destruct (lookup_actor m key) as [[id a]|] eqn:E; [|done]. apply lookup_actor_Some in E as [_ Ha].
    eapply set_actor_ok; [done..| |by apply (done_exited m Hok id a)]. done.
Qed.

Lemma steps_manager_ok m m' : rtc step m m' -> manager_ok m -> manager_ok m'.
Proof. induction 1 as [|m q r Hs _ IH]; [done|]. intros Hok. by eapply IH, step_manager_ok. Qed.

Lemma NewManager_ok : manager_ok NewManager.
Proof. by split; cbn. Qed.
End Manager.

(** One process never runs two actors of one connection. In every state the
    pool can reach, whatever is started, quarantined, resumed, shut down and however
    actors end: two running entries of the same key are the same entry; [Execute]
    reaches only the running actor of its key, and none that is quarantined or
    ended; and once an actor ended with a join timeout (a provider call may still be
    executing), no later state starts, resumes or reaches an actor of that key. The
    same exclusion holds for the manager. *)
Theorem one_actor_per_connection (p : Pool.Pool) :
  Pool.steps Pool.NewPool p ->
  (forall id1 id2 e1 e2, Pool.po_entries p !! id1 = Some e1 -> Pool.po_entries p !! id2 = Some e2 ->
     Pool.pe_running e1 = true -> Pool.pe_running e2 = true -> Pool.pe_key e1 = Pool.pe_key e2 -> id1 = id2) /\
  (forall key id, Pool.Execute key p = Ok id -> exists e, Pool.po_entries p !! id = Some e /\ Pool.pe_key e = key /\
     Pool.pe_running e = true /\ Pool.pe_quarantined e = false) /\
  (forall key p', Pool.tombstone key p -> Pool.steps p p' ->
     (forall ctxErr newActor, (Pool.Start ctxErr key newActor p').1 = p') /\ (Pool.Resume key p').1 = p' /\
     (forall id, Pool.Execute key p' <> Ok id) /\
     (forall id e, Pool.po_entries p' !! id = Some e -> Pool.pe_key e = key -> Pool.pe_running e = false)) /\
  (forall m, rtc Manager.step Manager.NewManager m -> forall id1 id2 a1 a2,
     Manager.mg_entries m !! id1 = Some a1 -> Manager.mg_entries m !! id2 = Some a2 ->
     Manager.la_exited a1 = false -> Manager.la_exited a2 = false -> Manager.la_key a1 = Manager.la_key a2 -> id1 = id2).
Proof.
  intros Hsteps. pose proof (Pool.steps_pool_ok _ _ Hsteps Pool.NewPool_ok) as Hok. split_and!.
  - intros id1 id2 e1 e2 H1 H2 R1 R2 Hk. pose proof (Pool.running_registered p Hok _ _ H1 R1).
    pose proof (Pool.running_registered p Hok _ _ H2 R2). congruence.
  - intros key id (e & He & Ha & Hr & Hq & _)%Pool.Execute_running. exists e.
    destruct (Pool.registered p Hok _ _ Ha) as (e' & He' & Hk). split_and!; [done | congruence | done | done].
  - intros key p' Ht Hs. pose proof (Pool.tombstone_steps _ _ _ Hok Hs Ht) as Ht'.
    pose proof (Pool.steps_pool_ok _ _ Hs Hok) as Hok'.
    destruct (Pool.tombstone_refuses key p' [] None Hok' Ht') as (_ & ? & ? & ?). split_and!; [|done..].
    intros ctxErr newActor. by apply Pool.tombstone_refuses.
  - intros m Hm id1 id2 a1 a2 H1 H2 R1 R2 Hk.
    pose proof (Manager.steps_manager_ok _ _ Hm Manager.NewManager_ok) as Hmok.
    pose proof (Manager.running_registered m Hmok _ _ H1 R1). pose proof (Manager.running_registered m Hmok _ _ H2 R2).
    congruence.
Qed.

(** An actor that could not be joined: its connection stays shut. *)
Definition sample_key : Key := {| key_TenantID := "t1"; key_ConnectionID := "c1" |}.
Definition sample_pool : Pool.Pool :=
  Pool.finish 0 [ErrProviderJoinTimeout] (Pool.Start [] sample_key None Pool.NewPool).1.

Lemma one_actor_per_connection_witness :
  Pool.tombstone sample_key sample_pool /\ (Pool.Start [] sample_key None sample_pool).1 = sample_pool.
Proof.
  assert (Pool.tombstone sample_key sample_pool) as Ht by (eexists 0%nat, _; vm_compute; repeat split).
  split; [exact Ht|].
  assert (Pool.steps Pool.NewPool sample_pool) as Hsteps.
  { eapply rtc_l; [apply (Pool.step_start _ [] sample_key None)|]. apply rtc_once.
    eapply Pool.step_finish; vm_compute; reflexivity. }
  destruct (one_actor_per_connection sample_pool Hsteps) as (_ & _ & H & _).
  destruct (H sample_key sample_pool Ht (rtc_refl _ _)) as (Hstart & _). apply Hstart.
Defined.
