(* ===== verification/Rely.v ===== *)
(** * Programs beside an environment

    A goroutine is a program of calls ([prog] of the prelude). Beside it runs an
    environment: other goroutines that share its channels and locks. This file has
    sequencing of programs, their joint execution with an environment, and a small
    program logic: [safe p Q w] says that from the world [w], whatever the
    environment does between two calls and whatever the calls answer, every call
    [p] makes is allowed in the world it is made in, and [p] returns only values
    and worlds of [Q]. *)

From S2P Require Import Prelude.

Fixpoint prog_bind {E A B} (p : prog E A) (k : A -> prog E B) : prog E B :=
  match p with
  | Ret a => k a
  | Call c k' => Call c (fun x => prog_bind (k' x) k)
  end.

Notation "'do!' x ':=' p 'in' k" := (prog_bind p (fun x => k))
  (at level 10, x binder, p at level 100, k at level 200) : gateway_scope.

(** ** Bounded executions

    [bounded n p Q]: whatever its calls answer, [p] returns after at most [n] of them,
    with a result of [Q]. *)
Fixpoint bounded {E A} (n : nat) (p : prog E A) (Q : A -> Prop) {struct p} : Prop :=
  match p with
  | Ret a => Q a
  | Call c k => match n with O => False | S n => forall x, bounded n (k x) Q end
  end.

Lemma bounded_mono {E A} n m (p : prog E A) (Q Q' : A -> Prop) :
  bounded n p Q -> (n <= m)%nat -> (forall a, Q a -> Q' a) -> bounded m p Q'.
Proof.
  intros Hp Hle HQ. revert n m Hp Hle. induction p as [a | X c k IH]; intros n m Hp Hle; [by apply HQ|].
  destruct n as [|n]; [done|]. destruct m as [|m]; [lia|]. intros x. eapply IH; [apply Hp | lia].
Qed.

Lemma bounded_bind {E A B} n m (p : prog E A) (k : A -> prog E B) Q R :
  bounded n p Q -> (forall a, Q a -> bounded m (k a) R) -> bounded (n + m) (prog_bind p k) R.
Proof.
  intros Hp Hk. revert n Hp. induction p as [a | X c k' IH]; intros n Hp; cbn.
  - eapply bounded_mono; [by apply Hk | lia | done].
  - destruct n as [|n]; [done|]. cbn. intros x. apply IH, Hp.
Qed.

Lemma bounded_executes {E A L} (log : forall X, E X -> X -> L) n (p : prog E A) Q t a :
  bounded n p Q -> executes log p t a -> (length t <= n)%nat /\ Q a.
Proof.
  revert n t. induction p as [a' | X c k IH]; intros n t Hp He; cbn in He.
  - destruct He as [-> ->]. cbn. split; [lia | done].
  - destruct He as (x & t' & -> & He). destruct n as [|n]; [done|]. destruct (IH x n t' (Hp x) He). cbn. split; [lia | done].
Qed.

Lemma executes_bind {E A B L} (log : forall X, E X -> X -> L) (p : prog E A) (k : A -> prog E B) t b :
  executes log (prog_bind p k) t b -> exists t1 t2 a, t = t1 ++ t2 /\ executes log p t1 a /\ executes log (k a) t2 b.
Proof.
  revert t. induction p as [a | X c k' IH]; intros t He; cbn in He; [by exists [], t, a|].
  destruct He as (x & t' & -> & He). destruct (IH x t' He) as (t1 & t2 & a & -> & H1 & H2).
  exists (log X c x :: t1), t2, a. split; [done|]. split; [by exists x, t1 | done].
Qed.

(** The execution in which [answer] answers from a state. *)
Fixpoint transcript {E A L S} (log : forall X, E X -> X -> L) (answer : forall X, E X -> S -> S * X) (p : prog E A) (s : S)
    : list L * A :=
  match p with
  | Ret a => ([], a)
  | Call c k =>
    let '(s', x) := answer _ c s in let '(t, a) := transcript log answer (k x) s' in (log _ c x :: t, a)
  end.

Lemma transcript_executes {E A L S} (log : forall X, E X -> X -> L) (answer : forall X, E X -> S -> S * X) (p : prog E A) s :
  let '(t, a) := transcript log answer p s in executes log p t a.
Proof.
  revert s. induction p as [a | X c k IH]; intros s; cbn; [done|]. destruct (answer X c s) as [s' x].
  specialize (IH x s'). destruct (transcript log answer (k x) s') as [t a]. by exists x, t.
Qed.

Lemma transcript_forall {E A L S} (log : forall X, E X -> X -> L) (answer : forall X, E X -> S -> S * X) (P : L -> Prop) (p : prog E A) s :
  (forall X (c : E X) s, P (log X c (answer X c s).2)) -> Forall P (transcript log answer p s).1.
Proof.
  intros HP. revert s. induction p as [a | X c k IH]; intros s; cbn; [constructor|].
  pose proof (HP X c s) as H. destruct (answer X c s) as [s' x]. specialize (IH x s').
  destruct (transcript log answer (k x) s') as [t a]. by constructor.
Qed.

(** [winds_down stops n p Q D]: once a call got an answer that [stops], [p] returns
    after at most [n] more, with a result of [D]; an execution without such an answer
    has a result of [Q]. *)
Section WindsDown.
Context {E : Type -> Type}.
Variable stops : forall X, E X -> X -> bool.
Arguments stops {X}.

Fixpoint winds_down {A} (n : nat) (p : prog E A) (Q D : A -> Prop) : Prop :=
  match p with
  | Ret a => Q a
  | Call c k => forall x, if stops c x then bounded n (k x) D else winds_down n (k x) Q D
  end.

Lemma winds_down_mono {A} n m (p : prog E A) (Q D Q' D' : A -> Prop) :
  winds_down n p Q D -> (n <= m)%nat -> (forall a, Q a -> Q' a) -> (forall a, D a -> D' a) -> winds_down m p Q' D'.
Proof.
  intros Hp Hle HQ HD. induction p as [a | X c k IH]; [by apply HQ|]. intros x. specialize (Hp x).
  destruct (stops c x); [by eapply bounded_mono | by apply IH].
Qed.

Lemma winds_down_bind {A B} n m (p : prog E A) (k : A -> prog E B) Q D Q' D' :
  winds_down n p Q D -> (forall a, Q a -> winds_down (n + m) (k a) Q' D') ->
  (forall a, D a -> bounded m (k a) D') -> winds_down (n + m) (prog_bind p k) Q' D'.
Proof.
  intros Hp HQ HD. induction p as [a | X c k' IH]; [by apply HQ|]. intros x. specialize (Hp x).
  destruct (stops c x); [by eapply bounded_bind | by apply IH].
Qed.

Lemma winds_down_executes {A} n (p : prog E A) Q D answers a i :
  winds_down n p Q D -> executes (fun X c x => stops c x) p answers a -> answers !! i = Some true ->
  (length answers <= i + 1 + n)%nat /\ D a.
Proof.
  revert answers i. induction p as [a' | X c k IH]; intros answers i Hp He Hi; cbn in He.
  - destruct He as [-> _]. by rewrite lookup_nil in Hi.
  - destruct He as (x & t & -> & He). specialize (Hp x). destruct i as [|i]; cbn in Hi.
    + injection Hi as Hs. rewrite Hs in Hp. destruct (bounded_executes _ _ _ _ _ _ Hp He). cbn. split; [lia | done].
    + destruct (stops c x).
      * destruct (bounded_executes _ _ _ _ _ _ Hp He). cbn. split; [lia | done].
      * destruct (IH x t i Hp He Hi). cbn. split; [lia | done].
Qed.
End WindsDown.

(** ** Executions beside an environment *)

Section Rely.
Context {E : Type -> Type} {W : Type}.

(** [env w w']: a step of the environment. [respond c w x]: the world after the call
    [c] answered [x], [None] when it cannot. *)
Variable env : W -> W -> Prop.
Variable respond : forall X, E X -> W -> X -> option W.
Arguments respond {X}.

Inductive run_step {A} : W * prog E A -> W * prog E A -> Prop :=
| run_env w w' p : env w w' -> run_step (w, p) (w', p)
| run_call X (c : E X) k w x w' : respond c w x = Some w' -> run_step (w, Call c k) (w', k x).

Definition interferes : W -> W -> Prop := rtc env.

Variable allowed : forall X, E X -> W -> Prop.
Arguments allowed {X}.

Fixpoint safe {A} (p : prog E A) (Q : A -> W -> Prop) (w : W) : Prop :=
  forall w1, interferes w w1 ->
  match p with
  | Ret a => Q a w1
  | Call c k => allowed c w1 /\ forall x w2, respond c w1 x = Some w2 -> safe (k x) Q w2
  end.

Lemma safe_interferes {A} (p : prog E A) Q w w' : interferes w w' -> safe p Q w -> safe p Q w'.
Proof. intros Hi Hs. destruct p; intros w1 H1; apply Hs; by etrans. Qed.

Lemma safe_mono {A} (p : prog E A) (Q Q' : A -> W -> Prop) w :
  (forall a w, Q a w -> Q' a w) -> safe p Q w -> safe p Q' w.
Proof.
  intros HQ. revert w. induction p as [a | X c k IH]; intros w Hs w1 Hi; [by apply HQ, Hs|].
  destruct (Hs w1 Hi) as [Hal Hk]. split; [done|]. intros x w2 Hr. by apply IH, Hk.
Qed.

Lemma safe_bind {A B} (p : prog E A) (k : A -> prog E B) Q R w :
  safe p Q w -> (forall a w, Q a w -> safe (k a) R w) -> safe (prog_bind p k) R w.
Proof.
  intros Hp Hk. revert w Hp. induction p as [a | X c k' IH]; intros w Hp; cbn.
  - apply Hk, Hp. reflexivity.
  - intros w1 Hi. destruct (Hp w1 Hi) as [Hal Hx]. split; [done|]. intros x w2 Hr. by apply IH, Hx.
Qed.

(** Reasoning with an invariant the environment keeps. *)
Section Stable.
Variable I : W -> Prop.
Hypothesis stable : forall w w', env w w' -> I w -> I w'.

Lemma interferes_stable w w' : interferes w w' -> I w -> I w'.
Proof. induction 1; eauto. Qed.

Lemma safe_ret {A} (a : A) (Q : A -> W -> Prop) w :
  I w -> (forall w, I w -> Q a w) -> safe (Ret a) Q w.
Proof. intros HI HQ w1 Hi. apply HQ. by eapply interferes_stable. Qed.

Lemma safe_call {A X} (c : E X) (k : X -> prog E A) Q w :
  I w -> (forall w, I w -> allowed c w) ->
  (forall w x w', I w -> respond c w x = Some w' -> safe (k x) Q w') ->
  safe (Call c k) Q w.
Proof.
  intros HI Hal Hk w1 Hi. pose proof (interferes_stable _ _ Hi HI). split; [auto|]. intros x w2 Hr. by eapply Hk.
Qed.
End Stable.

(** What the logic promises of executions. *)
Lemma safe_step {A} (p p' : prog E A) Q w w' : run_step (w, p) (w', p') -> safe p Q w -> safe p' Q w'.
Proof.
  intros Hs Hp. inversion Hs as [? ? ? He | X c k ? x ? Hr]; subst.
  - eapply safe_interferes; [by apply rtc_once | done].
  - by apply (Hp w (rtc_refl _ _)).
Qed.

Lemma safe_steps {A} (p p' : prog E A) Q w w' :
  rtc run_step (w, p) (w', p') -> safe p Q w -> safe p' Q w'.
Proof.
  intros Hs. remember (w, p) as c0 eqn:E0. remember (w', p') as c1 eqn:E1. revert w p w' p' E0 E1.
  induction Hs as [[w0 p0]|[w0 p0] [w1 p1] [w2 p2] Hs _ IH]; intros w p w' p' [= -> ->] [= ? ?]; subst; [done|].
  intros Hp. eapply IH; [done..|]. by eapply safe_step.
Qed.

Lemma safe_adequate {A} (p : prog E A) Q w :
  safe p Q w ->
  (forall w' X (c : E X) k, rtc run_step (w, p) (w', Call c k) -> allowed c w') /\
  (forall w' a, rtc run_step (w, p) (w', Ret a) -> Q a w').
Proof.
  intros Hp. split.
  - intros w' X c k Hs. pose proof (safe_steps _ _ _ _ _ Hs Hp) as H. by destruct (H w' (rtc_refl _ _)).
  - intros w' a Hs. pose proof (safe_steps _ _ _ _ _ Hs Hp) as H. by apply (H w' (rtc_refl _ _)).
Qed.

(** A concrete execution: the answers and the environment's acts from a script. *)
Context {S V : Type}.
Variable act : V -> W -> W.
Hypothesis act_env : forall v w, env w (act v w).
Variable oracle : forall X, E X -> W -> S -> X * S * list V.
Arguments oracle {X}.

Fixpoint play {A} (n : nat) (s : S) (w : W) (p : prog E A) : option (S * (W * prog E A)) :=
  match n, p with
  | O, _ | _, Ret _ => Some (s, (w, p))
  | Datatypes.S n, Call c k =>
    let '(x, s', vs) := oracle c w s in
    match respond c w x with
    | Some w' => play n s' (foldl (fun w v => act v w) w' vs) (k x)
    | None => None
    end
  end.

Lemma env_steps {A} vs w (p : prog E A) : rtc run_step (w, p) (foldl (fun w v => act v w) w vs, p).
Proof. revert w. induction vs as [|v vs IH]; intros w; [done|]. eapply rtc_l; [by apply run_env | apply IH]. Qed.

Lemma play_steps {A} n s w (p : prog E A) s' c :
  play n s w p = Some (s', c) -> rtc run_step (w, p) c.
Proof.
  revert s w p. induction n as [|n IH]; intros s w p H; cbn in H; [by injection H as <- <-|].
  destruct p as [a | X c0 k]; [by injection H as <- <-|].
  destruct (oracle c0 w s) as [[x s1] vs]. destruct (respond c0 w x) as [w1|] eqn:Er; [|done].
  eapply rtc_l; [by apply run_call|]. etrans; [apply env_steps | by eapply IH].
Qed.
End Rely.

(** ** Threads

    Any number of threads run programs over one world, interleaved call by call. Each
    thread relies on the others ([rely]); a call that is allowed keeps the invariant
    and what every other thread relies on. *)

Section Threads.
Context {E : Type -> Type} {W A : Type}.
Variable respond : nat -> forall X, E X -> W -> X -> option W.
Variable fresh : nat -> W -> Prop.
Variable entry : prog E A -> Prop.

Abbreviation threads := (gmap nat (prog E A)).

(** A thread that holds nothing enters a program, or a thread makes its next call. *)
Inductive pool_step : W * threads -> W * threads -> Prop :=
| pool_spawn i p w ts : ts !! i = None -> fresh i w -> entry p -> pool_step (w, ts) (w, <[i := p]> ts)
| pool_call i X (c : E X) k x w w' ts :
    ts !! i = Some (Call c k) -> respond i X c w x = Some w' -> pool_step (w, ts) (w', <[i := k x]> ts).

Variable rely : nat -> W -> W -> Prop.
Variable J : W -> Prop.
Variable allowed : nat -> forall X, E X -> W -> Prop.
Variable Q : nat -> A -> W -> Prop.

(** What the others do, as thread [i] sees it. *)
Definition others (i : nat) (w w' : W) : Prop := rely i w w' /\ J w'.

Hypothesis guarantee : forall i X (c : E X) w x w',
  J w -> allowed i X c w -> respond i X c w x = Some w' -> J w' /\ forall j, j <> i -> rely j w w'.
Hypothesis entries : forall i p w, entry p -> J w -> fresh i w -> safe (others i) (respond i) (allowed i) p (Q i) w.

Theorem pool_safe w0 w ts :
  J w0 -> rtc pool_step (w0, ∅) (w, ts) ->
  J w /\ forall i p, ts !! i = Some p -> safe (others i) (respond i) (allowed i) p (Q i) w.
Proof.
  intros HJ Hs.
  assert (forall c1, rtc pool_step (w0, ∅) c1 -> J c1.1 /\
    forall i p, c1.2 !! i = Some p -> safe (others i) (respond i) (allowed i) p (Q i) c1.1) as H; [|by apply H in Hs].
  clear w ts Hs. apply rtc_ind_r; [|intros [w1 ts1] c2 Hs Hstep IH].
  - split; [done|]. cbn. intros i p Hi. by rewrite lookup_empty in Hi.
  - destruct IH as [HJ1 Hts]. cbn in HJ1, Hts.
    inversion Hstep as [i p ? ? Hi Hf He | i X c k x ? ? ? Hi Hr]; subst; cbn.
    + split; [done|]. intros j q [[<- <-]|[? Hj]]%lookup_insert_Some; [by apply entries | by apply Hts].
    + pose proof (Hts _ _ Hi) as Hsafe. destruct (Hsafe w1 (rtc_refl _ _)) as [Hal Hk].
      destruct (guarantee _ _ _ _ _ _ HJ1 Hal Hr) as [HJ2 Hrely]. split; [done|].
      intros j q [[<- <-]|[? Hj]]%lookup_insert_Some; [by apply Hk|].
      eapply safe_interferes; [apply rtc_once | by apply Hts]. split; [by apply Hrely | done].
Qed.

(** A concrete execution of the threads: who goes next, entering a program or making a
    call, from a script. *)
Context {O : Type}.
Variable body : O -> prog E A.
Hypothesis body_entry : forall o, entry (body o).
Variable may_enter : nat -> W -> bool.
Hypothesis may_enter_fresh : forall i w, may_enter i w = true -> fresh i w.
Variable oracle : forall X, E X -> W -> X.

Fixpoint pool_play (script : list (nat * option O)) (w : W) (ts : threads) : option (W * threads) :=
  match script with
  | [] => Some (w, ts)
  | (i, Some o) :: rest =>
    match ts !! i with
    | None => if may_enter i w then pool_play rest w (<[i := body o]> ts) else None
    | Some _ => None
    end
  | (i, None) :: rest =>
    match ts !! i with
    | Some (Call c k) =>
      let x := oracle _ c w in
      match respond i _ c w x with Some w' => pool_play rest w' (<[i := k x]> ts) | None => None end
    | _ => None
    end
  end.

Lemma pool_play_steps script w ts c : pool_play script w ts = Some c -> rtc pool_step (w, ts) c.
Proof.
  revert w ts. induction script as [|[i [o|]] rest IH]; intros w ts H; cbn in H; [by injection H as <-|..].
  - destruct (ts !! i) eqn:Ei; [done|]. destruct (may_enter i w) eqn:Em; [|done].
    eapply rtc_l; [|by apply IH]. apply pool_spawn; [done | by apply may_enter_fresh | apply body_entry].
  - destruct (ts !! i) as [[a|X c0 k]|] eqn:Ei; [done| |done]. destruct (respond i X c0 w (oracle X c0 w)) as [w'|] eqn:Er; [|done].
    eapply rtc_l; [by eapply pool_call | by apply IH].
Qed.
End Threads.
