(* ===== verification/Crypto.v ===== *)
(** * Hashing and text encodings of the Go standard library

    [crypto/sha256], [crypto/hmac] over it, [encoding/hex] and
    [base64.RawURLEncoding], executable, so that identifiers, digests and
    signatures computed by the gateway can be evaluated. *)

From S2P Require Import Prelude GoText.

(** ** SHA-256 on 32-bit words *)

Definition w32 (z : Z) : Z := z mod 2 ^ 32.
Definition add32 (a b : Z) : Z := w32 (a + b).
Definition rotr (n x : Z) : Z := Z.lor (Z.shiftr x n) (w32 (Z.shiftl x (32 - n))).
Definition Ch (x y z : Z) : Z := Z.lxor (Z.land x y) (Z.land (2 ^ 32 - 1 - x) z).
Definition Maj (x y z : Z) : Z := Z.lxor (Z.land x y) (Z.lxor (Z.land x z) (Z.land y z)).
Definition bsig0 (x : Z) : Z := Z.lxor (rotr 2 x) (Z.lxor (rotr 13 x) (rotr 22 x)).
Definition bsig1 (x : Z) : Z := Z.lxor (rotr 6 x) (Z.lxor (rotr 11 x) (rotr 25 x)).
Definition ssig0 (x : Z) : Z := Z.lxor (rotr 7 x) (Z.lxor (rotr 18 x) (Z.shiftr x 3)).
Definition ssig1 (x : Z) : Z := Z.lxor (rotr 17 x) (Z.lxor (rotr 19 x) (Z.shiftr x 10)).

(** The constants are the first 32 bits of the fractional parts of the cube
    and square roots of the first primes (FIPS 180-4, 4.2.2 and 5.3.3). *)
Definition is_prime (n : nat) : bool :=
  forallb (fun d => negb (Nat.modulo n d =? 0)%nat) (seq 2 (n - 2)).
Definition first_primes (count : nat) : list Z :=
  Z.of_nat <$> take count (List.filter is_prime (seq 2 320)).

(** The integer cube root of [v], by bisection on [bits] bits. *)
Fixpoint cbrt (bits : nat) (acc v : Z) : Z :=
  match bits with
  | O => acc
  | S b =>
      let candidate := acc + 2 ^ Z.of_nat b in
      cbrt b (if candidate * candidate * candidate <=? v then candidate else acc) v
  end.

Definition sha_k : list Z :=
  Eval vm_compute in (fun p => w32 (cbrt 40 0 (p * 2 ^ 96))) <$> first_primes 64.
Definition sha_init : list Z :=
  Eval vm_compute in (fun p => w32 (Z.sqrt (p * 2 ^ 64))) <$> first_primes 8.

(** The message schedule, most recent word first. *)
Fixpoint schedule (n : nat) (w : list Z) : list Z :=
  match n with
  | O => w
  | S n' =>
      let nx := add32 (add32 (ssig1 (nth 1 w 0)) (nth 6 w 0))
                      (add32 (ssig0 (nth 14 w 0)) (nth 15 w 0)) in
      schedule n' (nx :: w)
  end.

Definition sha_round (s : list Z) (kw : Z * Z) : list Z :=
  match s with
  | [a; b; c; d; e; f; g; h] =>
      let t1 := add32 (add32 h (bsig1 e)) (add32 (Ch e f g) (add32 kw.1 kw.2)) in
      let t2 := add32 (bsig0 a) (Maj a b c) in
      [add32 t1 t2; a; b; c; add32 d t1; e; f; g]
  | _ => s
  end.

Definition sha_block (s : list Z) (words : list Z) : list Z :=
  let w := rev (schedule 48 (rev words)) in
  zip_with add32 s (fold_left sha_round (zip sha_k w) s).

Fixpoint words_of (n : nat) (b : bytes) : list Z :=
  match n with
  | O => []
  | S n' => be_decode 0 (take 4 b) :: words_of n' (drop 4 b)
  end.

Fixpoint sha_blocks (n : nat) (b : bytes) (s : list Z) : list Z :=
  match n with
  | O => s
  | S n' => sha_blocks n' (drop 64 b) (sha_block s (words_of 16 (take 64 b)))
  end.

Definition sha_pad (b : bytes) : bytes :=
  let n := blen b in
  b ++ [byte_of_Z 0x80] ++ repeat (byte_of_Z 0) (Z.to_nat ((55 - n) mod 64)) ++ be_encode 8 (8 * n).

(** [sha256.Sum256]. *)
Definition sha256 (b : bytes) : bytes :=
  let p := sha_pad b in
  concat (be_encode 4 <$> sha_blocks (Z.to_nat (blen p / 64)) p sha_init).

(** ** HMAC-SHA-256 *)

Definition xor_byte (k : Z) (c : ascii) : ascii := byte_of_Z (Z.lxor k (byte_val c)).

Definition hmac_sha256 (key msg : bytes) : bytes :=
  let key := if blen key >? 64 then sha256 key else key in
  let key := key ++ repeat (byte_of_Z 0) (64 - length key) in
  sha256 ((xor_byte 0x5c <$> key) ++ sha256 ((xor_byte 0x36 <$> key) ++ msg)).

(** ** Hexadecimal and base64url *)

Definition nth_char (alphabet : string) (i : Z) : ascii :=
  default "?"%char (bytes_of alphabet !! Z.to_nat i).

Definition lowerHex : string := "0123456789abcdef".

(** [hex.EncodeToString]. *)
Definition hex_encode (b : bytes) : bytes :=
  concat ((fun c => [nth_char lowerHex (Z.shiftr (byte_val c) 4);
                     nth_char lowerHex (Z.land (byte_val c) 0x0f)]) <$> b).

Definition hex_digit (c : ascii) : option Z :=
  let v := byte_val c in
  if between 48 57 v then Some (v - 48)
  else if between 97 102 v then Some (v - 87)
  else if between 65 70 v then Some (v - 55)
  else None.

(** [hex.DecodeString]; [None] is an odd length or a character outside the
    alphabet. *)
Fixpoint hex_decode (b : bytes) : option bytes :=
  match b with
  | [] => Some []
  | [_] => None
  | c :: d :: b' =>
      match hex_digit c, hex_digit d, hex_decode b' with
      | Some x, Some y, Some r => Some (byte_of_Z (x * 16 + y) :: r)
      | _, _, _ => None
      end
  end.

Definition base64url : string := "ABCDEFGHIJKLMNOPQRSTUVWXYZabcdefghijklmnopqrstuvwxyz0123456789-_".

(** [base64.RawURLEncoding.EncodeToString] (no padding). *)
Fixpoint base64_encode (b : bytes) : bytes :=
  match b with
  | [] => []
  | [x] =>
      let v := byte_val x * 16 in
      [nth_char base64url (v / 64); nth_char base64url (v mod 64)]
  | [x; y] =>
      let v := (byte_val x * 256 + byte_val y) * 4 in
      [nth_char base64url (v / 4096); nth_char base64url (v / 64 mod 64); nth_char base64url (v mod 64)]
  | x :: y :: z :: b' =>
      let v := (byte_val x * 256 + byte_val y) * 256 + byte_val z in
      nth_char base64url (v / 262144) :: nth_char base64url (v / 4096 mod 64) ::
      nth_char base64url (v / 64 mod 64) :: nth_char base64url (v mod 64) :: base64_encode b'
  end.

(** ** Checks against published vectors *)

Example sha256_abc :
  string_of (hex_encode (sha256 (bytes_of "abc"))) =
  "ba7816bf8f01cfea414140de5dae2223b00361a396177a9cb410ff61f20015ad".
Proof. vm_compute. reflexivity. Qed.

Example sha256_two_blocks :
  string_of (hex_encode (sha256 (bytes_of "abcdbcdecdefdefgefghfghighijhijkijkljklmklmnlmnomnopnopq"))) =
  "248d6a61d20638b8e5c026930c3e6039a33ce45964ff2167f6ecedd419db06c1".
Proof. vm_compute. reflexivity. Qed.

Example hmac_rfc4231_case2 :
  string_of (hex_encode (hmac_sha256 (bytes_of "Jefe") (bytes_of "what do ya want for nothing?"))) =
  "5bdcc146bf60754e6a042426089575c75a003f089d2739839dec58b964ec3843".
Proof. vm_compute. reflexivity. Qed.

Example base64url_vector :
  string_of (base64_encode (bytes_of "Man is d")) = "TWFuIGlzIGQ".
Proof. vm_compute. reflexivity. Qed.

(** ** Lemmas *)

Lemma length_sha_block s ws : length s = 8%nat -> length (sha_block s ws) = 8%nat.
Proof.
  intros Hs. unfold sha_block.
  set (l := zip sha_k _). clearbody l.
  assert (forall l t, length t = 8%nat -> length (fold_left sha_round l t) = 8%nat) as H.
  { clear. induction l as [|kw l IH]; intros t Ht; [done|]. cbn [fold_left]. apply IH.
    do 8 (destruct t as [|? t]; [done|]). by destruct t. }
  rewrite length_zip_with, H by done. lia.
Qed.

Lemma length_sha_blocks n b s : length s = 8%nat -> length (sha_blocks n b s) = 8%nat.
Proof. revert b s. induction n; intros; simpl; auto using length_sha_block. Qed.

Lemma length_sha256 b : length (sha256 b) = 32%nat.
Proof.
  unfold sha256. set (l := sha_blocks _ _ _).
  assert (length l = 8%nat) as H by by apply length_sha_blocks.
  clearbody l. do 8 (destruct l as [|? l]; [done|]). by destruct l.
Qed.

Lemma length_hmac_sha256 k b : length (hmac_sha256 k b) = 32%nat.
Proof. apply length_sha256. Qed.

Lemma hex_digit_nth x : 0 <= x < 16 -> hex_digit (nth_char lowerHex x) = Some x.
Proof.
  intros Hx. assert (exists n, (n < 16)%nat /\ x = Z.of_nat n) as (n & Hn & ->)
    by (exists (Z.to_nat x); lia).
  do 16 (destruct n as [|n]; [reflexivity|]). lia.
Qed.

(** Decoding inverts encoding. *)
Lemma hex_decode_encode b : hex_decode (hex_encode b) = Some b.
Proof.
  induction b as [|c b IH]; [done|]. unfold hex_encode in *. cbn [fmap list_fmap concat app].
  pose proof (byte_val_range c) as Hc.
  assert (0 <= Z.shiftr (byte_val c) 4 < 16) as H1.
  { rewrite Z.shiftr_div_pow2 by lia. change (2 ^ 4) with 16.
    split; [apply Z.div_pos; lia | apply Z.div_lt_upper_bound; lia]. }
  assert (Z.land (byte_val c) 0x0f = byte_val c mod 16) as E2
    by apply (Z.land_ones (byte_val c) 4 ltac:(lia)).
  pose proof (Z.mod_pos_bound (byte_val c) 16 eq_refl) as H2.
  cbn [hex_decode]. rewrite E2, hex_digit_nth, hex_digit_nth by lia. cbn in IH. rewrite IH.
  f_equal. f_equal. apply byte_val_inj. rewrite byte_val_of_Z.
  rewrite Z.shiftr_div_pow2 by lia. change (2 ^ 4) with 16.
  rewrite Z.mul_comm, <- Z.div_mod by lia. apply Z.mod_small. lia.
Qed.

Lemma length_hex_encode b : length (hex_encode b) = (2 * length b)%nat.
Proof.
  induction b as [|c b IH]; [done|]. unfold hex_encode in *. cbn [fmap list_fmap concat app length].
  cbn in IH. rewrite IH. lia.
Qed.
