(* ===== verification/GoEncoding.v ===== *)
(** * JSON and RFC 3339 of the Go standard library

    [encoding/json] printing (string escaping, [omitempty], object members in
    field order, maps with sorted keys) and [time.Format(time.RFC3339Nano)] in
    UTC, executable, with the sorting the gateway uses ([sort.Strings],
    [sort.Slice]). *)

From S2P Require Import Prelude GoText Crypto.


(** ** JSON *)

Inductive json :=
| JNull
| JBool (b : bool)
| JInt (n : Z)
| JString (s : string)
| JArray (l : list json)
| JObject (members : list (string * json)).

Definition hex4 (r : Z) : bytes :=
  hex_encode [byte_of_Z (r / 256); byte_of_Z r].

(** One chunk of a string as [encoding/json] writes it: the two-character
    escapes, [\u00xx] for the other control characters and for the characters
    HTML cares about, [\ufffd] for an invalid byte. *)
Definition json_escape_chunk (c : option Z * bytes) : bytes :=
  match c.1 with
  | None => bytes_of "\ufffd"
  | Some r =>
    if r =? 34 then [byte_of_Z 92; byte_of_Z 34]
    else if r =? 92 then [byte_of_Z 92; byte_of_Z 92]
    else if r =? 8 then bytes_of "\b"
    else if r =? 12 then bytes_of "\f"
    else if r =? 10 then bytes_of "\n"
    else if r =? 13 then bytes_of "\r"
    else if r =? 9 then bytes_of "\t"
    else if (r <? 32) || bool_decide (r ∈ [38; 60; 62; 0x2028; 0x2029]) then bytes_of "\u" ++ hex4 r
    else c.2
  end.

Definition json_string (s : string) : bytes :=
  [byte_of_Z 34] ++ concat (json_escape_chunk <$> chunks (bytes_of s)) ++ [byte_of_Z 34].

Fixpoint json_join (parts : list bytes) : bytes :=
  match parts with
  | [] => []
  | [p] => p
  | p :: rest => p ++ [byte_of_Z 44] ++ json_join rest
  end.

Fixpoint json_print (v : json) : bytes :=
  match v with
  | JNull => bytes_of "null"
  | JBool b => bytes_of (if b then "true" else "false")
  | JInt n => bytes_of (FormatInt n)
  | JString s => json_string s
  | JArray l => [byte_of_Z 91] ++ json_join (map json_print l) ++ [byte_of_Z 93]
  | JObject members =>
      [byte_of_Z 123] ++
      json_join (map (fun m => json_string m.1 ++ [byte_of_Z 58] ++ json_print m.2) members) ++
      [byte_of_Z 125]
  end.

(** Struct fields: always present, or left out when empty ([omitempty]). *)
Definition field (name : string) (v : json) : list (string * json) := [(name, v)].
Definition omit_string (name v : string) : list (string * json) :=
  if v =s "" then [] else field name (JString v).
Definition omit_int (name : string) (v : Z) : list (string * json) :=
  if v =? 0 then [] else field name (JInt v).
Definition omit_true (name : string) (v : bool) : list (string * json) :=
  if v then field name (JBool true) else [].
Definition omit_list (name : string) (v : list json) : list (string * json) :=
  match v with [] => [] | _ => field name (JArray v) end.

(** [sort.Strings]: byte order. *)
Definition sort_Strings (l : list string) : list string := merge_sort String.le l.

(** A [map[string]any] is written with its keys sorted. *)
Definition member_le (a b : string * json) : Prop := String.le a.1 b.1.

#[export] Instance member_le_dec a b : Decision (member_le a b).
Proof. unfold member_le. apply _. Defined.

Definition omit_map (name : string) (v : list (string * json)) : list (string * json) :=
  match v with [] => [] | _ => field name (JObject (merge_sort member_le v)) end.

(** ** RFC 3339 *)

(** Proleptic Gregorian date of a day number relative to 1970-01-01. *)
Definition civil_of_days (days : Z) : Z * Z * Z :=
  let z := days + 719468 in
  let era := z / 146097 in
  let doe := z mod 146097 in
  let yoe := (doe - doe / 1460 + doe / 36524 - doe / 146096) / 365 in
  let doy := doe - (365 * yoe + yoe / 4 - yoe / 100) in
  let mp := (5 * doy + 2) / 153 in
  let day := doy - (153 * mp + 2) / 5 + 1 in
  let month := if mp <? 10 then mp + 3 else mp - 9 in
  (yoe + era * 400 + (if month <=? 2 then 1 else 0), month, day).

Definition pad (width : nat) (n : Z) : bytes :=
  let d := decimal_digits 20 n [] in repeat (digit_char 0) (width - length d) ++ d.

(** The fraction [.999999999]: trailing zeros dropped, nothing for zero. *)
Definition nano_fraction (nanos : Z) : bytes :=
  match rev (drop_while (fun c => byte_val c =? 48) (rev (pad 9 nanos))) with
  | [] => []
  | digits => byte_of_Z 46 :: digits
  end.

Definition sep (c : Z) : bytes := [byte_of_Z c].

(** [t.UTC().Format(time.RFC3339Nano)]. *)
Definition RFC3339Nano (t : Z) : string :=
  let secs := t / Second in
  let nanos := t mod Second in
  let '(year, month, day) := civil_of_days (secs / 86400) in
  let s := secs mod 86400 in
  string_of (pad 4 year ++ sep 45 ++ pad 2 month ++ sep 45 ++ pad 2 day ++ sep 84 ++
             pad 2 (s / 3600) ++ sep 58 ++ pad 2 (s / 60 mod 60) ++ sep 58 ++ pad 2 (s mod 60) ++
             nano_fraction nanos ++ sep 90).

Example rfc3339_leap : RFC3339Nano (1709210096 * Second + 5000000) = "2024-02-29T12:34:56.005Z".
Proof. vm_compute. reflexivity. Qed.
Example rfc3339_epoch : RFC3339Nano 0 = "1970-01-01T00:00:00Z".
Proof. vm_compute. reflexivity. Qed.

(** ** Sorting by a key *)

(** A list sorted by a key is determined by its elements when no key repeats:
    the result of an unstable sort is then the only one possible. *)
Lemma sorted_by_key_unique {A K} (R : relation K) (key : A -> K)
  `{!Transitive R, !AntiSymm (=) R} (l1 l2 : list A) :
  NoDup (key <$> l1) -> l1 ≡ₚ l2 ->
  Sorted (fun a b => R (key a) (key b)) l1 -> Sorted (fun a b => R (key a) (key b)) l2 -> l1 = l2.
Proof.
  intros Hnd Hp Hs1 Hs2. apply Sorted_unique_strong with (R := fun a b => R (key a) (key b)); auto.
  - intros a b c. apply transitivity.
  - intros a b Ha Hb Hab Hba. assert (key a = key b) as Hk by (by apply (anti_symm R)).
    rewrite <- Hp in Hb. apply list_elem_of_lookup in Ha as [i Hi], Hb as [j Hj].
    assert (i = j) as ->; [|congruence].
    eapply NoDup_lookup; [exact Hnd | |]; rewrite list_lookup_fmap.
    + by rewrite Hi.
    + rewrite Hj. simpl. by rewrite Hk.
Qed.

(** Sorting strings only depends on which strings there are. *)
Lemma sort_Strings_perm l1 l2 : l1 ≡ₚ l2 -> sort_Strings l1 = sort_Strings l2.
Proof.
  intros Hp. unfold sort_Strings. apply (Sorted_unique String.le).
  - apply Sorted_merge_sort, _.
  - apply Sorted_merge_sort, _.
  - by rewrite !merge_sort_Permutation.
Qed.

#[export] Instance sort_Strings_proper : Proper ((≡ₚ) ==> (=)) sort_Strings.
Proof. intros l1 l2. apply sort_Strings_perm. Qed.

Lemma sort_Strings_elem l s : s ∈ sort_Strings l <-> s ∈ l.
Proof. unfold sort_Strings. by rewrite merge_sort_Permutation. Qed.
