(* ===== verification/Domain.v ===== *)
(** * Domain model (internal/gateway/domain)

    Connection and message states, E.164 phone numbers, labels, provider
    identifiers and the tenant/connection boundary of a line.  Go string enums
    are inductive types with one constructor per constant and one for any
    other string value (the zero value [""] is such a value). *)

From S2P Require Import Prelude GoText.

(** ** connection.go *)

Inductive ConnectionState :=
| ConnectionStateUnpaired
| ConnectionStatePairing
| ConnectionStateConnected
| ConnectionStateDegraded
| ConnectionStateReauthorizationRequired
| ConnectionStateSuspended
| ConnectionStateDisconnected
| ConnectionStateOther (s : string).

#[export] Instance ConnectionState_eq_dec : EqDecision ConnectionState.
Proof. solve_decision. Defined.

Definition ConnectionState_Validate (state : ConnectionState) : result unit :=
  match state with
  | ConnectionStateOther _ => Err [ErrInvalidConnectionState]
  | _ => Ok tt
  end.

Record Connection := {
  conn_ID : string;
  conn_TenantID : string;
  conn_Name : string;
  conn_State : ConnectionState
}.

Record Line := {
  line_ID : string;
  line_TenantID : string;
  line_ConnectionID : string;
  line_ProviderParticipantID : string;
  line_ProviderOutgoingID : string;
  line_DisplayName : string
}.

Definition Line_ValidateFor (line : Line) (connection : Connection) : result unit :=
  if (line_TenantID line =s "") || (conn_TenantID connection =s "") ||
     (line_TenantID line <>s conn_TenantID connection)
  then Err [ErrTenantBoundary]
  else if (line_ConnectionID line =s "") || (conn_ID connection =s "") ||
          (line_ConnectionID line <>s conn_ID connection)
  then Err [ErrConnectionBoundary]
  else Ok tt.

(** ** message.go *)

Inductive MessageState :=
| MessageStateQueued
| MessageStateDispatching
| MessageStateProviderAccepted
| MessageStateAwaitingPhone
| MessageStateSent
| MessageStateDelivered
| MessageStateRead
| MessageStateUncertain
| MessageStateFailed
| MessageStateOther (s : string).

#[export] Instance MessageState_eq_dec : EqDecision MessageState.
Proof. solve_decision. Defined.

(** The string the state is in Go, JSON and SQL. *)
Definition MessageState_text (state : MessageState) : string :=
  match state with
  | MessageStateQueued => "queued"
  | MessageStateDispatching => "dispatching"
  | MessageStateProviderAccepted => "provider_accepted"
  | MessageStateAwaitingPhone => "awaiting_phone"
  | MessageStateSent => "sent"
  | MessageStateDelivered => "delivered"
  | MessageStateRead => "read"
  | MessageStateUncertain => "uncertain"
  | MessageStateFailed => "failed"
  | MessageStateOther s => s
  end.

Definition MessageState_Validate (state : MessageState) : result unit :=
  match state with
  | MessageStateOther _ => Err [ErrInvalidMessageState]
  | _ => Ok tt
  end.

Definition messageStateRank (state : MessageState) : Z * bool :=
  match state with
  | MessageStateQueued => (0, true)
  | MessageStateDispatching => (1, true)
  | MessageStateProviderAccepted => (2, true)
  | MessageStateAwaitingPhone => (3, true)
  | MessageStateSent => (4, true)
  | MessageStateDelivered => (5, true)
  | MessageStateRead => (6, true)
  | MessageStateUncertain => (2, true)
  | MessageStateFailed => (7, true)
  | MessageStateOther _ => (0, false)
  end.

Definition messageStateRankMust (state : MessageState) : Z := fst (messageStateRank state).

(** One iteration of the loop of [DeriveMessageState] on
    [(current, currentRank)]. *)
Definition derive_step (acc : MessageState * Z) (observed : MessageState) : MessageState * Z :=
  let '(current, currentRank) := acc in
  let '(rank, valid) := messageStateRank observed in
  if negb valid then acc else
  match observed with
  | MessageStateUncertain =>
      if currentRank <? messageStateRankMust MessageStateSent
      then (observed, messageStateRankMust MessageStateUncertain) else acc
  | MessageStateFailed =>
      if currentRank <? messageStateRankMust MessageStateSent
      then (observed, messageStateRankMust MessageStateFailed) else acc
  | _ =>
      if bool_decide (current = MessageStateUncertain) ||
         (bool_decide (current <> MessageStateFailed) && (rank >=? currentRank))
      then (observed, rank) else acc
  end.

Definition DeriveMessageState (history : list MessageState) : MessageState :=
  fst (fold_left derive_step history (MessageStateOther "", -1)).

(** ** contact.go *)

Record E164Phone := { e164_value : string }.

#[export] Instance E164Phone_eq_dec : EqDecision E164Phone.
Proof. solve_decision. Defined.

Definition E164Phone_String (phone : E164Phone) : string := e164_value phone.

Definition plus_char : ascii := "+"%char.
Definition is_digit_char (c : ascii) : bool := between 48 57 (byte_val c).
(** space, tab, parentheses, hyphen and full stop *)
Definition is_format_char (c : ascii) : bool := bool_decide (byte_val c ∈ [32; 9; 40; 41; 45; 46]).

(** The digit loop of [ParseE164]; [None] is its [default] case. *)
Fixpoint scan_digits (b : bytes) (digits : bytes) : option bytes :=
  match b with
  | [] => Some digits
  | char :: b' =>
      if is_digit_char char then scan_digits b' (digits ++ [char])
      else if is_format_char char then scan_digits b' digits
      else None
  end.

Definition ParseE164 (raw : string) : result E164Phone :=
  let input := bytes_of (TrimSpace raw) in
  match input with
  | c0 :: rest =>
      if (blen input <? 2) || negb (bool_decide (c0 = plus_char)) then Err [ErrInvalidPhoneNumber]
      else match scan_digits rest [] with
      | None => Err [ErrInvalidPhoneNumber]
      | Some digits =>
          if (blen digits <? 2) || (blen digits >? 15) || bool_decide (head digits = Some "0"%char)
          then Err [ErrInvalidPhoneNumber]
          else Ok {| e164_value := String plus_char (string_of digits) |}
      end
  | [] => Err [ErrInvalidPhoneNumber]
  end.

Record Contact := {
  contact_ID : string;
  contact_TenantID : string;
  contact_Phone : E164Phone;
  contact_Alias : string;
  contact_ProviderDisplayName : string;
  contact_LabelIDs : list string
}.

Definition EffectiveDisplayName (contact : Contact) : string :=
  let alias := TrimSpace (contact_Alias contact) in
  if alias <>s "" then alias else
  let providerName := TrimSpace (contact_ProviderDisplayName contact) in
  if providerName <>s "" then providerName else E164Phone_String (contact_Phone contact).

Record Label := { label_ID : string; label_TenantID : string; label_Name : string; label_Slug : string }.

(** The letter, digit and lower-case tables of package unicode are arguments. *)
Section Slug.
Context (IsLetter IsDigit : Z -> bool) (ToLower : Z -> Z).

Definition hyphen : Z := 45.

(** The loop of [normalizeSlug] on the runes written so far and
    [separatorPending]. *)
Definition slug_step (acc : list Z * bool) (char : Z) : list Z * bool :=
  let '(slug, separatorPending) := acc in
  if IsLetter char || IsDigit char then
    let slug := if separatorPending && negb (is_nil slug) then slug ++ [hyphen] else slug in
    (slug ++ [ToLower char], false)
  else (slug, true).

Definition normalizeSlug_runes (input : list Z) : list Z := fst (fold_left slug_step input ([], false)).

Definition normalizeSlug (input : string) : string :=
  string_of_runes (normalizeSlug_runes (runes (TrimSpace input))).

Definition NewLabel (id tenantID name : string) : result Label :=
  if tenantID =s "" then Err [ErrInvalidTenantID]
  else if id =s "" then Err [ErrInvalidIdentifier]
  else let slug := normalizeSlug name in
  if slug =s "" then Err [ErrInvalidLabelSlug]
  else Ok {| label_ID := id; label_TenantID := tenantID; label_Name := TrimSpace name; label_Slug := slug |}.
End Slug.

(** ** identifiers.go *)

Definition ProviderPageCursorID : string := "_provider_page".
Definition MaxProviderConversationIDBytes : Z := 512.
Definition MaxProviderResponseIDBytes : Z := 256.

Definition unsafeProviderIdentifierRune (character : Z) : bool :=
  unicode_IsControl character || unicode_IsSpace character ||
  in_ranges Cf_ranges character || in_ranges Co_ranges character ||
  between 0xFDD0 0xFDEF character ||
  ((character >=? 0) && (character <=? MaxRune) && (Z.land character 0xFFFE =? 0xFFFE)).

Definition ValidProviderIdentifier (value : string) : bool :=
  if (value =s "") || (value =s ProviderPageCursorID) || (len value >? MaxProviderConversationIDBytes) ||
     negb (utf8_ValidString value) || (TrimSpace value <>s value)
  then false
  else negb (existsb unsafeProviderIdentifierRune (runes value)).

Definition ValidProviderConversationID (value : string) : bool := ValidProviderIdentifier value.

Definition ValidProviderResponseID (value : string) : bool :=
  if (value =s "") || (len value >? MaxProviderResponseIDBytes) || negb (utf8_ValidString value) ||
     (TrimSpace value <>s value)
  then false
  else negb (existsb unsafeProviderIdentifierRune (runes value)).

(** ** Properties of the message state derivation *)

Definition carrier_state (s : MessageState) : Prop :=
  s = MessageStateSent \/ s = MessageStateDelivered \/ s = MessageStateRead.

(** The accumulator's rank is the rank of its state, except before the first
    valid observation. *)
Definition derive_inv (acc : MessageState * Z) : Prop :=
  acc = (MessageStateOther "", -1) \/
  (messageStateRank acc.1 = (acc.2, true)).

Lemma derive_step_inv acc s : derive_inv acc -> derive_inv (derive_step acc s).
Proof.
  destruct acc as [c r]. unfold derive_inv, derive_step. intros H.
  destruct s; cbn; repeat case_match; auto.
Qed.

Lemma derive_fold_inv h acc : derive_inv acc -> derive_inv (fold_left derive_step h acc).
Proof. revert acc. induction h as [|s h IH]; [done|]. intros. apply IH, derive_step_inv, H. Qed.

Definition derive_acc (h : list MessageState) : MessageState * Z :=
  fold_left derive_step h (MessageStateOther "", -1).

Lemma derive_acc_inv h : derive_inv (derive_acc h).
Proof. apply derive_fold_inv. by left. Qed.

Lemma derive_acc_app h h' : derive_acc (h ++ h') = fold_left derive_step h' (derive_acc h).
Proof. apply fold_left_app. Qed.

Lemma derive_step_failed s : derive_step (MessageStateFailed, 7) s = (MessageStateFailed, 7).
Proof. by destruct s. Qed.

Lemma derive_fold_failed h :
  fold_left derive_step h (MessageStateFailed, 7) = (MessageStateFailed, 7).
Proof. induction h as [|s h IH]; [done|]. cbn [fold_left]. by rewrite derive_step_failed. Qed.

Lemma derive_fold_carrier h c r :
  carrier_state c -> messageStateRank c = (r, true) ->
  exists c' r', fold_left derive_step h (c, r) = (c', r') /\ carrier_state c' /\
    messageStateRank c' = (r', true) /\ r <= r'.
Proof.
  revert c r. induction h as [|s h IH]; intros c r Hc Hr; [exists c, r; auto with lia|].
  assert (exists c1 r1, derive_step (c, r) s = (c1, r1) /\ carrier_state c1 /\
            messageStateRank c1 = (r1, true) /\ r <= r1) as (c1 & r1 & Hs & Hc1 & Hr1 & Hle).
  { unfold carrier_state in *.
    destruct Hc as [-> | [-> | ->]]; cbn in Hr; injection Hr as <-; destruct s; cbn;
      eexists _, _; (split; [reflexivity | cbn; auto with lia]). }
  cbn [fold_left]. rewrite Hs. destruct (IH _ _ Hc1 Hr1) as (c' & r' & ? & ? & ? & ?).
  exists c', r'. auto with lia.
Qed.

(** Carrier evidence is never lowered: once the derived state of a history
    is sent, delivered or read, every extension of the history derives one of
    these states again with a rank at least as high, whatever provider
    receipts, failures or uncertainty arrive later or out of order. *)
Theorem derive_carrier_never_lowered (h h' : list MessageState)
  (Hc : carrier_state (DeriveMessageState h)) :
  carrier_state (DeriveMessageState (h ++ h')) /\
  messageStateRankMust (DeriveMessageState h) <= messageStateRankMust (DeriveMessageState (h ++ h')).
Proof.
  unfold DeriveMessageState in *. fold (derive_acc h) in *. fold (derive_acc (h ++ h')).
  rewrite derive_acc_app. destruct (derive_acc h) as [c r] eqn:E. simpl in Hc.
  destruct (derive_acc_inv h) as [H | H]; rewrite E in H.
  - injection H as -> ->. destruct Hc as [H|[H|H]]; discriminate.
  - destruct (derive_fold_carrier h' c r Hc H) as (c' & r' & -> & ? & Hr' & ?).
    unfold messageStateRankMust. simpl in *. rewrite H, Hr'. auto.
Qed.

Lemma derive_carrier_never_lowered_witness :
  carrier_state (DeriveMessageState
    ([MessageStateQueued; MessageStateDelivered] ++ [MessageStateFailed; MessageStateSent])).
Proof.
  apply (derive_carrier_never_lowered [MessageStateQueued; MessageStateDelivered]).
  right. left. reflexivity.
Defined.

Lemma derive_snoc (h : list MessageState) (s : MessageState) :
  let cur := DeriveMessageState h in
  DeriveMessageState (h ++ [s]) =
    match s with
    | MessageStateOther _ => cur
    | MessageStateUncertain | MessageStateFailed =>
        match cur with
        | MessageStateSent | MessageStateDelivered | MessageStateRead | MessageStateFailed => cur
        | _ => s
        end
    | _ =>
        match cur with
        | MessageStateUncertain | MessageStateOther _ => s
        | MessageStateFailed => cur
        | _ => if messageStateRankMust cur <=? messageStateRankMust s then s else cur
        end
    end.
Proof.
  cbn zeta. unfold DeriveMessageState. fold (derive_acc h). fold (derive_acc (h ++ [s])).
  rewrite derive_acc_app. cbn [fold_left].
  destruct (derive_acc h) as [c r] eqn:E. pose proof (derive_acc_inv h) as H. rewrite E in H.
  destruct H as [[= -> ->] | H]; [by destruct s|].
  destruct c; cbn in H; try discriminate H; injection H as <-; by destruct s.
Qed.

(** The derived state is determined in one step by the current one: failed
    is final, carrier states only climb, an uncertain message takes whatever
    valid state is observed next (even a lower one such as queued), and any
    other state yields to uncertainty, failure or a state of equal or higher
    rank. Strings that are no message state never change the result. *)
Theorem derive_one_step (h : list MessageState) (s : MessageState) :
  let cur := DeriveMessageState h in
  DeriveMessageState (h ++ [s]) =
    match s with
    | MessageStateOther _ => cur
    | MessageStateUncertain | MessageStateFailed =>
        match cur with
        | MessageStateSent | MessageStateDelivered | MessageStateRead | MessageStateFailed => cur
        | _ => s
        end
    | _ =>
        match cur with
        | MessageStateUncertain | MessageStateOther _ => s
        | MessageStateFailed => cur
        | _ => if messageStateRankMust cur <=? messageStateRankMust s then s else cur
        end
    end.
Proof. apply derive_snoc. Qed.

(** ** Properties of E.164 parsing *)

Lemma scan_digits_acc b acc ds :
  scan_digits b acc = Some ds <->
  Forall (fun c => is_digit_char c || is_format_char c = true) b /\
  ds = acc ++ filter (fun c => is_digit_char c = true) b.
Proof.
  revert acc ds. induction b as [|c b IH]; intros acc ds; cbn [scan_digits].
  { rewrite filter_nil, app_nil_r. split; [intros [= <-]; by split | by intros [_ ->]]. }
  rewrite Forall_cons, filter_cons. case_decide as Ed.
  - rewrite Ed, IH, <- app_assoc. simpl. naive_solver.
  - apply not_true_iff_false in Ed. rewrite Ed. simpl.
    destruct (is_format_char c); [rewrite IH; naive_solver | naive_solver].
Qed.

Definition canonical_digits (ds : bytes) : Prop :=
  Forall (fun c => is_digit_char c = true) ds /\ 2 <= blen ds <= 15 /\ head ds <> Some "0"%char.

Lemma ParseE164_ok_iff (raw : string) (p : E164Phone) :
  ParseE164 raw = Ok p <->
  exists rest,
    bytes_of (TrimSpace raw) = plus_char :: rest /\
    Forall (fun c => is_digit_char c || is_format_char c = true) rest /\
    canonical_digits (filter (fun c => is_digit_char c = true) rest) /\
    e164_value p = String plus_char (string_of (filter (fun c => is_digit_char c = true) rest)).
Proof.
  unfold ParseE164, canonical_digits. split.
  - destruct (bytes_of (TrimSpace raw)) as [|c0 rest]; [discriminate|].
    destruct (_ || _) eqn:E1; [discriminate|]. reflect_bools. subst c0.
    destruct (scan_digits rest []) as [ds|] eqn:Es; [|discriminate].
    destruct ((_ || _) || _) eqn:E2; [discriminate|]. reflect_bools.
    intros [= <-]. exists rest. apply scan_digits_acc in Es as [? ->]. simpl in *.
    split_and!; auto; [|lia..].
    apply Forall_forall. intros c. rewrite list_elem_of_filter. tauto.
  - intros (rest & -> & Hf & (Hd & Hlen & Hhead) & Hp).
    set (ds := filter _ rest) in *.
    assert (Hle : (length ds <= length rest)%nat) by apply length_filter.
    assert (scan_digits rest [] = Some ds) as -> by (apply scan_digits_acc; auto).
    unfold blen in *. simpl length.
    replace (Z.of_nat (S (length rest)) <? 2) with false by (symmetry; apply Z.ltb_ge; lia).
    rewrite bool_decide_true by done. simpl.
    replace (Z.of_nat (length ds) <? 2) with false by (symmetry; apply Z.ltb_ge; lia).
    replace (Z.of_nat (length ds) >? 15) with false
      by (symmetry; rewrite Z.gtb_ltb; apply Z.ltb_ge; lia).
    rewrite bool_decide_false by done. simpl. destruct p. simpl in *. by subst.
Qed.

(** [ParseE164] accepts exactly the inputs that, with surrounding space
    removed, are a plus sign followed by digits and formatting characters whose
    digits form a canonical international number of 2 to 15 digits without a
    leading zero, and returns that number. *)
Theorem ParseE164_spec (raw : string) (p : E164Phone) :
  ParseE164 raw = Ok p <->
  exists rest,
    bytes_of (TrimSpace raw) = plus_char :: rest /\
    Forall (fun c => is_digit_char c || is_format_char c = true) rest /\
    canonical_digits (filter (fun c => is_digit_char c = true) rest) /\
    e164_value p = String plus_char (string_of (filter (fun c => is_digit_char c = true) rest)).
Proof. apply ParseE164_ok_iff. Qed.

Lemma is_digit_char_ascii c : is_digit_char c = true -> byte_val c < 0x80.
Proof. unfold is_digit_char, between. intros. reflect_bools. lia. Qed.

Lemma unicode_IsSpace_false c :
  0x21 <= byte_val c < 0x80 -> unicode_IsSpace (byte_val c) = false.
Proof.
  intros H. unfold unicode_IsSpace, space_ranges, in_ranges, between. simpl.
  repeat match goal with
  | |- context [(?a <=? ?b)%Z] => let E := fresh in destruct (a <=? b)%Z eqn:E; simpl; reflect_bools
  end; first [done | lia].
Qed.

Lemma is_digit_char_not_space c :
  is_digit_char c = true -> unicode_IsSpace (byte_val c) = false.
Proof.
  unfold is_digit_char, between. intros. reflect_bools. apply unicode_IsSpace_false. lia.
Qed.

Lemma last_cons_Forall {A} (P : A -> Prop) x l c :
  P x -> Forall P l -> last (x :: l) = Some c -> P c.
Proof.
  intros Hx Hl Hc. assert (Forall P (x :: l)) as H by by constructor.
  rewrite Forall_forall in H. apply H. apply last_Some in Hc as [l' ->]. set_solver.
Qed.

Lemma canonical_number_trimmed ds :
  Forall (fun c => is_digit_char c = true) ds ->
  TrimSpace (String plus_char (string_of ds)) = String plus_char (string_of ds).
Proof.
  intros Hd.
  assert (bytes_of (String plus_char (string_of ds)) = plus_char :: ds) as Hb
    by (cbn; f_equal; apply bytes_of_string_of).
  apply TrimSpace_id; rewrite Hb.
  - constructor; [done|]. eapply Forall_impl; [exact Hd | apply is_digit_char_ascii].
  - by intros ? [= <-].
  - intros c Hc. eapply (last_cons_Forall (fun c => unicode_IsSpace (byte_val c) = false)); [|..|exact Hc].
    + done.
    + eapply Forall_impl; [exact Hd | apply is_digit_char_not_space].
Qed.

Lemma ParseE164_String raw p : ParseE164 raw = Ok p -> ParseE164 (E164Phone_String p) = Ok p.
Proof.
  intros H. apply ParseE164_ok_iff in H as (rest & _ & _ & (Hd & Hlen & Hh) & Hp).
  set (ds := filter _ rest) in *.
  apply ParseE164_ok_iff. exists ds. unfold E164Phone_String. rewrite Hp.
  rewrite canonical_number_trimmed by done.
  assert (filter (fun c => is_digit_char c = true) ds = ds) as Hf
    by by apply filter_all.
  rewrite Hf. split_and!; [|..|done].
  - cbn. f_equal. apply bytes_of_string_of.
  - eapply Forall_impl; [exact Hd|]. by intros c ->.
  - done.
Qed.

(** A parsed number prints to a canonical number: parsing what [String]
    prints gives the same number back, so normalisation is idempotent and equal
    printed numbers are equal phones. *)
Theorem ParseE164_String_roundtrip (raw : string) (p : E164Phone) (H : ParseE164 raw = Ok p) :
  ParseE164 (E164Phone_String p) = Ok p.
Proof. by eapply ParseE164_String. Qed.

Lemma ParseE164_String_roundtrip_witness :
  ParseE164 (E164Phone_String {| e164_value := "+12025550123" |}) = Ok {| e164_value := "+12025550123" |}.
Proof. apply (ParseE164_String_roundtrip " +1 (202) 555-0123 "). vm_compute. reflexivity. Defined.

(** ** Properties of label slugs *)

Section SlugProperties.
Context (IsLetter IsDigit : Z -> bool) (ToLower : Z -> Z).

Let alnum (r : Z) : bool := IsLetter r || IsDigit r.

(** The maximal runs of letters and digits of a text, in order. *)
Fixpoint words (input : list Z) (word : list Z) : list (list Z) :=
  match input with
  | [] => if is_nil word then [] else [word]
  | r :: input' =>
      if alnum r then words input' (word ++ [r])
      else (if is_nil word then [] else [word]) ++ words input' []
  end.

Fixpoint join_words (ws : list (list Z)) : list Z :=
  match ws with
  | [] => []
  | w :: ws' => fmap ToLower w ++ (if is_nil ws' then [] else hyphen :: join_words ws')
  end.

Lemma join_words_cons w ws :
  join_words (w :: ws) =
    fmap ToLower w ++ (if is_nil ws then [] else hyphen :: join_words ws).
Proof. done. Qed.

Lemma words_nonempty input word w : w ∈ words input word -> w <> [].
Proof.
  revert word. induction input as [|r input IH]; intros word; cbn [words].
  - destruct word; simpl; set_solver.
  - destruct (alnum r); [apply IH|]. intros [H|H]%elem_of_app; [destruct word; set_solver | eauto].
Qed.

Lemma join_words_nil input word : join_words (words input word) = [] -> words input word = [].
Proof.
  destruct (words input word) as [|w ws] eqn:E; [done|].
  assert (w <> []) by (apply (words_nonempty input word); rewrite E; set_solver).
  destruct w; [done|]. simpl. discriminate.
Qed.

Lemma words_started input w : w <> [] -> words input w <> [].
Proof.
  revert w. induction input as [|r input IH]; intros w Hw; cbn [words].
  - by destruct w.
  - destruct (alnum r); [apply IH; by destruct w | by destruct w].
Qed.

Let run (input : list Z) (acc : list Z * bool) : list Z :=
  fst (fold_left (slug_step IsLetter IsDigit ToLower) input acc).

Definition glue (slug rest : list Z) : list Z :=
  if is_nil rest then slug else if is_nil slug then rest else slug ++ hyphen :: rest.

Lemma slug_run input :
  (forall slug, run input (slug, true) = glue slug (join_words (words input []))) /\
  (forall slug w, w <> [] ->
     run input (slug ++ fmap ToLower w, false) = slug ++ join_words (words input w)).
Proof.
  unfold run. induction input as [|r input [IHa IHb]]; split.
  - done.
  - intros slug w Hw. destruct w; [done|]. simpl. by rewrite app_nil_r.
  - intros slug. cbn [fold_left slug_step words]. fold (alnum r). destruct (alnum r) eqn:Er.
    + set (pre := if true && negb (is_nil slug) then slug ++ [hyphen] else slug).
      change [ToLower r] with (fmap ToLower [r]). rewrite IHb by done.
      change (([] : list Z) ++ [r]) with [r].
      assert (join_words (words input [r]) <> []) as Hj
        by (intros Hn%join_words_nil; revert Hn; by apply words_started).
      unfold glue. destruct (join_words (words input [r])) as [|j js]; [done|].
      unfold pre. destruct slug; [done|]. simpl. by rewrite <- app_assoc.
    + apply IHa.
  - intros slug w Hw. cbn [fold_left slug_step words]. fold (alnum r). destruct (alnum r) eqn:Er.
    + simpl. rewrite <- app_assoc. change [ToLower r] with (fmap ToLower [r]).
      rewrite <- fmap_app. apply IHb. by destruct w.
    + rewrite IHa. unfold glue. destruct w as [|x w]; [done|].
      change ((if is_nil (x :: w) then [] else [x :: w]) ++ words input [])
        with ((x :: w) :: words input []).
      rewrite join_words_cons. destruct (words input []) as [|w1 ws] eqn:Ew.
      * simpl. by rewrite app_nil_r.
      * assert (join_words (w1 :: ws) <> []) as Hj
          by (rewrite <- Ew; intros Hn%join_words_nil; by rewrite Ew in Hn).
        change (is_nil (w1 :: ws)) with false. destruct (join_words (w1 :: ws)) as [|j js]; [done|].
        destruct slug; simpl; [done|]. by rewrite <- app_assoc.
Qed.

Lemma normalizeSlug_runes_words input :
  normalizeSlug_runes IsLetter IsDigit ToLower input = join_words (words input []).
Proof.
  unfold normalizeSlug_runes. destruct input as [|r input]; [done|].
  destruct (slug_run input) as [Ha Hb]. unfold run in *.
  cbn [fold_left slug_step words]. fold (alnum r). destruct (alnum r) eqn:Er.
  - change ([] ++ [r]) with [r]. specialize (Hb [] [r] ltac:(done)). exact Hb.
  - rewrite Ha. unfold glue.
    change ((if is_nil ([] : list Z) then [] else [[]]) ++ words input []) with (words input []).
    by destruct (join_words (words input [])).
Qed.
End SlugProperties.

(** A label slug is the lower-cased maximal letter/digit runs of the trimmed
    name joined by single hyphens (no leading, trailing or doubled separator),
    and [NewLabel] succeeds exactly when the tenant, the identifier and the
    slug are non-empty. *)
Theorem NewLabel_spec (IsLetter IsDigit : Z -> bool) (ToLower : Z -> Z) (id tenantID name : string) :
  let slug := string_of_runes
    (join_words ToLower (words IsLetter IsDigit (runes (TrimSpace name)) [])) in
  NewLabel IsLetter IsDigit ToLower id tenantID name =
    if String.eqb tenantID "" then Err [ErrInvalidTenantID]
    else if String.eqb id "" then Err [ErrInvalidIdentifier]
    else if String.eqb slug "" then Err [ErrInvalidLabelSlug]
    else Ok {| label_ID := id; label_TenantID := tenantID;
               label_Name := TrimSpace name; label_Slug := slug |}.
Proof. cbn zeta. unfold NewLabel, normalizeSlug. by rewrite normalizeSlug_runes_words. Qed.

(** ** Properties of provider identifiers *)

Definition safe_byte (c : ascii) : Prop := 0x20 < byte_val c /\ byte_val c <> 0x7F.

Lemma safe_runes_bytes value c :
  existsb unsafeProviderIdentifierRune (runes value) = false -> c ∈ bytes_of value -> safe_byte c.
Proof.
  intros Hu Hin. unfold safe_byte.
  destruct (decide (byte_val c < 0x80)) as [Hc|]; [|lia].
  pose proof (runes_ascii_byte _ _ Hin Hc) as Hr.
  pose proof (proj1 (existsb_false _ _) Hu _ Hr) as Hsafe. clear -Hsafe.
  pose proof (byte_val_range c).
  unfold unsafeProviderIdentifierRune in Hsafe.
  apply orb_false_iff in Hsafe as [Hsafe _]. apply orb_false_iff in Hsafe as [Hsafe _].
  apply orb_false_iff in Hsafe as [Hsafe _]. apply orb_false_iff in Hsafe as [Hsafe _].
  apply orb_false_iff in Hsafe as [Hc Hs].
  unfold unicode_IsControl, between in Hc. apply orb_false_iff in Hc as [H1 H2].
  unfold unicode_IsSpace, space_ranges, in_ranges in Hs. simpl in Hs.
  apply orb_false_iff in Hs as [_ Hs]. apply orb_false_iff in Hs as [H3 _].
  unfold between in H3.
  apply andb_false_iff in H1, H2, H3. lia.
Qed.

(** Every byte of an accepted provider identifier or response identifier is
    above the ASCII space and not DEL (no NUL, control, line break or blank can
    reach SQL, ACKs or logs), the identifiers are bounded, and a response
    identifier other than the reserved page cursor is also a provider
    identifier. *)
Theorem provider_identifiers_safe (value : string) :
  (ValidProviderIdentifier value = true ->
     value <> "" /\ value <> ProviderPageCursorID /\ len value <= 512 /\
     Forall safe_byte (bytes_of value)) /\
  (ValidProviderResponseID value = true ->
     value <> "" /\ len value <= 256 /\ Forall safe_byte (bytes_of value) /\
     (value <> ProviderPageCursorID -> ValidProviderIdentifier value = true)).
Proof.
  unfold ValidProviderIdentifier, ValidProviderResponseID,
    MaxProviderConversationIDBytes, MaxProviderResponseIDBytes. split.
  - destruct (_ || _) eqn:E; [discriminate|]. intros H. reflect_bools.
    split_and!; auto. apply Forall_forall. intros c. by apply safe_runes_bytes.
  - destruct (_ || _) eqn:E; [discriminate|]. intros H. reflect_bools.
    split_and!; auto; [apply Forall_forall; intros c; by apply safe_runes_bytes|].
    intros Hne. apply String.eqb_neq in Hne.
    replace (len value >? 512) with false by (symmetry; rewrite Z.gtb_ltb; apply Z.ltb_ge; lia).
    repeat match goal with Hb : value <> "" |- _ => apply String.eqb_neq in Hb end.
    repeat match goal with Hb : _ = true |- _ => rewrite Hb; clear Hb end.
    repeat match goal with Hb : _ = false |- _ => rewrite Hb; clear Hb end.
    match goal with Hb : TrimSpace value = value |- _ => rewrite Hb end.
    by rewrite String.eqb_refl.
Qed.
