(* ===== verification/Messaging.v ===== *)
(** * Outbound commands (internal/gateway/messaging/service.go)

    Validation of a send command, its canonical digest and identifiers, and
    [Service.submit]/[Get]/[List] against the store interface the package
    declares.  The laws of that interface are what the package comment of
    [Store] promises; the PostgreSQL store discharges them. *)

From S2P Require Import Prelude GoText Crypto Domain.

Definition RouteModePhoneDefault : string := "phone_default".
Definition maxTextBytes : Z := 64 * 1024.
Definition maxIdempotencyBytes : Z := 200.

Record SendInput := {
  si_ConnectionID : string;
  si_ConversationID : string;
  si_Recipient : string;
  si_LineID : string;
  si_RouteMode : string;
  si_Text : string;
  si_MediaIDs : list string
}.

Record Attachment := { att_MediaID : string; att_Position : Z }.

Record OutboundMessage := {
  om_ID : string;
  om_TenantID : string;
  om_ConnectionID : string;
  om_ConversationID : string;
  om_Recipient : string;
  om_LineID : string;
  om_RouteMode : string;
  om_Text : string;
  om_MediaIDs : list string;
  om_ProviderTmpID : string;
  om_ProviderMessageID : string;
  om_Direction : string;
  om_Transport : string;
  om_Attachments : list Attachment;
  om_State : MessageState;
  om_CreatedAt : Z
}.

Inductive CreateOutcome := CreateInserted | CreateDuplicate | CreateConflict | CreateOther (code : Z).

Record CommandAudit := {
  ca_Topic : string;
  ca_Partition : Z;
  ca_Offset : Z;
  ca_ProducerIdentity : string;
  ca_CorrelationID : string;
  ca_PayloadDigest : bytes
}.

Record CreateOutboundCommand := {
  co_IdempotencyKey : string;
  co_RequestDigest : bytes;
  co_Message : OutboundMessage;
  co_CommandAudit : option CommandAudit
}.

Record CreateResult := { cr_Outcome : CreateOutcome; cr_Message : OutboundMessage }.

Record ListOptions := { lo_After : string; lo_Limit : Z }.
Record MessagePage := { mp_Messages : list OutboundMessage; mp_NextCursor : string }.

(** The zero [OutboundMessage{}]. *)
Definition zero_message : OutboundMessage := {|
  om_ID := ""; om_TenantID := ""; om_ConnectionID := ""; om_ConversationID := "";
  om_Recipient := ""; om_LineID := ""; om_RouteMode := ""; om_Text := ""; om_MediaIDs := [];
  om_ProviderTmpID := ""; om_ProviderMessageID := ""; om_Direction := ""; om_Transport := "";
  om_Attachments := []; om_State := MessageStateOther ""; om_CreatedAt := time_zero |}.

(** ** Validation *)

Definition validIdempotencyKey (key : string) : bool :=
  if (key =s "") || (len key >? maxIdempotencyBytes) || (TrimSpace key <>s key) then false
  else forallb (fun c => negb ((byte_val c <? 0x21) || (byte_val c >? 0x7e))) (bytes_of key).

(** The loop over the media identifiers with the [seen] set. *)
Fixpoint mediaIDs_distinct (ids : list string) (seen : gset string) : bool :=
  match ids with
  | [] => true
  | mediaID :: ids' =>
      if mediaID =s "" then false
      else if bool_decide (mediaID ∈ seen) then false
      else mediaIDs_distinct ids' ({[mediaID]} ∪ seen)
  end.

Definition validContent (input : SendInput) : bool :=
  if negb (utf8_ValidString (si_Text input)) || (len (si_Text input) >? maxTextBytes) then false
  else if (TrimSpace (si_Text input) =s "") && (blen (si_MediaIDs input) =? 0) then false
  else if blen (si_MediaIDs input) >? 16 then false
  else mediaIDs_distinct (si_MediaIDs input) ∅.

Definition validateRoute (input : SendInput) : result unit :=
  let conversationID := TrimSpace (si_ConversationID input) in
  let recipient := TrimSpace (si_Recipient input) in
  if conversationID <>s "" then
    if negb (ValidProviderConversationID conversationID) || (recipient <>s "") ||
       (si_RouteMode input <>s "")
    then Err [ErrInvalidRoute] else Ok tt
  else if (si_RouteMode input <>s RouteModePhoneDefault) || (si_LineID input <>s "") ||
          (recipient =s "") || ContainsAny recipient [44; 59]
  then Err [ErrInvalidRoute]
  else match ParseE164 recipient with
  | Err _ => Err [ErrInvalidRoute]
  | Ok _ => Ok tt
  end.

Definition zero_digest : bytes := repeat (byte_of_Z 0) 32.

Definition CommandAudit_valid (audit : CommandAudit) : bool :=
  (ca_Topic audit <>s "") && (len (ca_Topic audit) <=? 249) &&
  (ca_Partition audit >=? 0) && (ca_Offset audit >=? 0) &&
  (ca_ProducerIdentity audit <>s "") && (len (ca_ProducerIdentity audit) <=? 512) &&
  (len (ca_CorrelationID audit) <=? 512) && negb (bool_decide (ca_PayloadDigest audit = zero_digest)).

(** ** Identifiers and digests *)

Definition ProviderTemporaryID (tenantID messageID : string) : string :=
  let digest := sha256 (bytes_of tenantID ++ [byte_of_Z 0] ++ bytes_of messageID) in
  "sx-" +:+ string_of (base64_encode (take 18 digest)).

(** The values hashed by [CanonicalRequestDigest], in order. *)
Definition canonical_fields (input : SendInput) : list string :=
  [si_ConnectionID input; TrimSpace (si_ConversationID input); TrimSpace (si_Recipient input);
   si_LineID input; si_RouteMode input; si_Text input] ++ si_MediaIDs input.

(** What is written to the hash: every value behind its 64-bit length. *)
Definition canonical_preimage (input : SendInput) : bytes :=
  concat ((fun value => PutUint64 (uint64 (len value)) ++ bytes_of value) <$> canonical_fields input).

Definition CanonicalRequestDigest (input : SendInput) : bytes := sha256 (canonical_preimage input).

(** ** The store interface *)

Class MessageStore (S : Type) := {
  CreateOutbound : S -> CreateOutboundCommand -> S * result CreateResult;
  GetMessage : S -> string -> string -> result OutboundMessage;
  (** [None]: the store does not implement [ListStore]. *)
  ListMessages : option (S -> string -> ListOptions -> result MessagePage)
}.

(** What [Service.submit] hands to the store, and what the store may rely on. *)
Definition command_wf (c : CreateOutboundCommand) : Prop :=
  let m := co_Message c in
  om_TenantID m <> "" /\ om_ID m <> "" /\ om_ConnectionID m <> "" /\ co_IdempotencyKey c <> "" /\
  om_State m = MessageStateQueued /\
  (om_ConversationID m = "" \/ ValidProviderConversationID (om_ConversationID m) = true) /\
  length (co_RequestDigest c) = 32%nat.

(** [CreateOutbound atomically stores the idempotency record, queued message,
    initial immutable status, and corresponding outbox event]: an idempotency
    key is bound once, with the digest of the request that bound it and the
    message it created. *)
Class MessageStoreLaws (S : Type) `{MessageStore S} := {
  bound : S -> string -> string -> option (bytes * string);
  create_fresh s c s' r :
    bound s (om_TenantID (co_Message c)) (co_IdempotencyKey c) = None ->
    CreateOutbound s c = (s', Ok r) ->
    r = {| cr_Outcome := CreateInserted; cr_Message := co_Message c |} /\
    bound s' (om_TenantID (co_Message c)) (co_IdempotencyKey c) =
      Some (co_RequestDigest c, om_ID (co_Message c));
  create_repeated s c s' r id :
    command_wf c ->
    bound s (om_TenantID (co_Message c)) (co_IdempotencyKey c) = Some (co_RequestDigest c, id) ->
    CreateOutbound s c = (s', Ok r) ->
    cr_Outcome r = CreateDuplicate /\ om_ID (cr_Message r) = id;
  create_reused s c digest id :
    command_wf c ->
    bound s (om_TenantID (co_Message c)) (co_IdempotencyKey c) = Some (digest, id) ->
    digest <> co_RequestDigest c ->
    CreateOutbound s c = (s, Ok {| cr_Outcome := CreateConflict; cr_Message := zero_message |});
  create_keeps s c s' r t k b :
    CreateOutbound s c = (s', r) -> bound s t k = Some b -> bound s' t k = Some b
}.

(** ** The service *)

Section Service.
Context {S : Type} `{MessageStore S}.

Fixpoint attachments (position : Z) (mediaIDs : list string) : list Attachment :=
  match mediaIDs with
  | [] => []
  | mediaID :: ids =>
      {| att_MediaID := mediaID; att_Position := position |} :: attachments (position + 1) ids
  end.

(** The message [submit] builds; [id] and [now] are what [newID] and [now]
    return. *)
Definition submitted_message (tenantID id : string) (now : Z) (input : SendInput) : OutboundMessage := {|
  om_ID := id; om_TenantID := tenantID; om_ConnectionID := si_ConnectionID input;
  om_ConversationID := TrimSpace (si_ConversationID input);
  om_Recipient := TrimSpace (si_Recipient input);
  om_LineID := si_LineID input; om_RouteMode := si_RouteMode input; om_Text := si_Text input;
  om_MediaIDs := si_MediaIDs input;
  om_ProviderTmpID := ProviderTemporaryID tenantID id; om_ProviderMessageID := "";
  om_Direction := "outbound"; om_Transport := "";
  om_Attachments := attachments 0 (si_MediaIDs input);
  om_State := MessageStateQueued; om_CreatedAt := now |}.

Definition submit (s : S) (tenantID idempotencyKey : string) (input : SendInput)
    (audit : option CommandAudit) (id : string) (now : Z) : S * result OutboundMessage :=
  if (tenantID =s "") || negb (validIdempotencyKey idempotencyKey) ||
     (si_ConnectionID input =s "") || negb (validContent input)
  then (s, Err [ErrInvalidCommand])
  else match validateRoute input with
  | Err e => (s, Err e)
  | Ok _ =>
    if id =s "" then (s, Err [ErrInvalidCommand])
    else
      let '(s', result) := CreateOutbound s {|
        co_IdempotencyKey := idempotencyKey;
        co_RequestDigest := CanonicalRequestDigest input;
        co_Message := submitted_message tenantID id now input;
        co_CommandAudit := audit |} in
      match result with
      | Err e => (s', Err e)
      | Ok r =>
        match cr_Outcome r with
        | CreateInserted | CreateDuplicate => (s', Ok (cr_Message r))
        | CreateConflict => (s', Err [ErrIdempotencyConflict])
        | CreateOther _ => (s', Err [ErrText "invalid message store result"])
        end
      end
  end.

Definition Submit s tenantID idempotencyKey input id now :=
  submit s tenantID idempotencyKey input None id now.

Definition SubmitAuthenticatedCommand (s : S) (tenantID idempotencyKey : string)
    (input : SendInput) (audit : CommandAudit) (id : string) (now : Z) : S * result OutboundMessage :=
  if negb (CommandAudit_valid audit) then (s, Err [ErrInvalidCommand])
  else submit s tenantID idempotencyKey input (Some audit) id now.

Definition Get (s : S) (tenantID messageID : string) : result OutboundMessage :=
  if (tenantID =s "") || (messageID =s "") then Err [ErrMessageNotFound]
  else let! message := GetMessage s tenantID messageID in
  if (om_TenantID message <>s tenantID) || (om_ID message <>s messageID)
  then Err [ErrMessageNotFound] else Ok message.

Definition List (s : S) (tenantID : string) (options : ListOptions) : result MessagePage :=
  if (tenantID =s "") || (lo_Limit options <? 1) || (lo_Limit options >? 200)
  then Err [ErrInvalidCommand]
  else match ListMessages with
  | None => Err [ErrText "message listing is unavailable"]
  | Some list_messages =>
    let! page := list_messages s tenantID options in
    if existsb (fun m => (om_TenantID m <>s tenantID) || (om_ID m =s "")) (mp_Messages page)
    then Err [ErrMessageNotFound] else Ok page
  end.
End Service.

(** ** Properties of the canonical digest *)

Definition go_string (s : string) : Prop := len s < two63.

Lemma canonical_frames input :
  Forall go_string (canonical_fields input) ->
  canonical_preimage input = concat (frame 8 <$> (bytes_of <$> canonical_fields input)).
Proof.
  unfold canonical_preimage. induction 1 as [|v l Hv _ IH]; [done|].
  cbn [fmap list_fmap concat]. f_equal; [|apply IH].
  unfold frame, PutUint64. rewrite len_bytes in *. f_equal. f_equal.
  apply uint64_id. unfold go_string, blen, two64, two63 in *. rewrite len_bytes in Hv.
  unfold blen in Hv. lia.
Qed.

Lemma go_strings_frameable l : Forall go_string l -> Forall (frameable 8) (bytes_of <$> l).
Proof.
  induction 1 as [|v l Hv _ IH]; [constructor|]. cbn [fmap list_fmap]. constructor; [|done].
  unfold frameable, go_string in *. rewrite len_bytes in Hv. unfold two63 in Hv. simpl. lia.
Qed.

(** The bytes hashed into the canonical request digest determine the
    request: two commands with the same preimage have the same connection,
    trimmed conversation and recipient, line, route mode, text and media list,
    so no field can be moved into another and two different requests never
    share a preimage. *)
Theorem canonical_preimage_injective (a b : SendInput)
  (Ha : Forall go_string (canonical_fields a)) (Hb : Forall go_string (canonical_fields b))
  (Heq : canonical_preimage a = canonical_preimage b) :
  si_ConnectionID a = si_ConnectionID b /\
  TrimSpace (si_ConversationID a) = TrimSpace (si_ConversationID b) /\
  TrimSpace (si_Recipient a) = TrimSpace (si_Recipient b) /\
  si_LineID a = si_LineID b /\ si_RouteMode a = si_RouteMode b /\ si_Text a = si_Text b /\
  si_MediaIDs a = si_MediaIDs b.
Proof.
  rewrite !canonical_frames in Heq by done.
  apply frames_inj in Heq; [|lia|by apply go_strings_frameable..].
  assert (canonical_fields a = canonical_fields b) as E.
  { eapply (list_fmap_eq_inj bytes_of); [exact bytes_of_inj | exact Heq]. }
  unfold canonical_fields in E. simpl in E. by injection E as -> -> -> -> -> -> ->.
Qed.

Definition example_input : SendInput := {|
  si_ConnectionID := "conn-1"; si_ConversationID := " conv-9 "; si_Recipient := "";
  si_LineID := "line-2"; si_RouteMode := ""; si_Text := "hello"; si_MediaIDs := ["m1"; "m2"] |}.

Lemma canonical_preimage_injective_witness :
  si_MediaIDs example_input = si_MediaIDs
    {| si_ConnectionID := "conn-1"; si_ConversationID := "conv-9"; si_Recipient := " ";
       si_LineID := "line-2"; si_RouteMode := ""; si_Text := "hello"; si_MediaIDs := ["m1"; "m2"] |}.
Proof.
  eapply (canonical_preimage_injective example_input).
  - repeat constructor.
  - repeat constructor.
  - vm_compute. reflexivity.
Defined.

(** ** Properties of the service *)

Lemma TrimSpace_empty : TrimSpace "" = "".
Proof. reflexivity. Qed.

Section ServiceProperties.
Context {S : Type} `{MessageStoreLaws S}.

(** A submission as it reaches the service. *)
Record Submission := {
  sub_tenant : string; sub_key : string; sub_input : SendInput;
  sub_audit : option CommandAudit; sub_id : string; sub_now : Z
}.

Definition do_submit (s : S) (sub : Submission) : S * result OutboundMessage :=
  submit s (sub_tenant sub) (sub_key sub) (sub_input sub) (sub_audit sub) (sub_id sub) (sub_now sub).

Definition sub_command (sub : Submission) : CreateOutboundCommand := {|
  co_IdempotencyKey := sub_key sub;
  co_RequestDigest := CanonicalRequestDigest (sub_input sub);
  co_Message := submitted_message (sub_tenant sub) (sub_id sub) (sub_now sub) (sub_input sub);
  co_CommandAudit := sub_audit sub |}.

(** The guards a submission passes before the store is called. *)
Definition sub_checks (sub : Submission) : bool :=
  (sub_tenant sub <>s "") && validIdempotencyKey (sub_key sub) &&
  (si_ConnectionID (sub_input sub) <>s "") && validContent (sub_input sub) &&
  is_ok (validateRoute (sub_input sub)) && (sub_id sub <>s "").

Lemma do_submit_rejected s sub :
  sub_checks sub = false -> exists e, do_submit s sub = (s, Err e).
Proof.
  unfold sub_checks, do_submit, submit. intros Hc.
  destruct (_ || _) eqn:E; [eauto|]. reflect_bools.
  destruct (validateRoute (sub_input sub)) eqn:Er; [|eauto].
  destruct (sub_id sub =s "") eqn:Ei; [eauto|]. exfalso.
  apply not_true_iff_false in Hc. apply Hc. simpl.
  repeat match goal with Hb : _ <> "" |- _ => apply String.eqb_neq in Hb; rewrite Hb end.
  repeat match goal with Hb : _ = true |- _ => rewrite Hb end. reflexivity.
Qed.

Lemma do_submit_accepted s sub :
  sub_checks sub = true ->
  do_submit s sub =
    let '(s', result) := CreateOutbound s (sub_command sub) in
    match result with
    | Err e => (s', Err e)
    | Ok r =>
      match cr_Outcome r with
      | CreateInserted | CreateDuplicate => (s', Ok (cr_Message r))
      | CreateConflict => (s', Err [ErrIdempotencyConflict])
      | CreateOther _ => (s', Err [ErrText "invalid message store result"])
      end
    end.
Proof.
  unfold sub_checks, do_submit, submit. intros Hc. reflect_bools.
  destruct (validateRoute (sub_input sub)) eqn:Er; [|discriminate].
  repeat match goal with Hb : _ <> "" |- _ => apply String.eqb_neq in Hb; rewrite Hb; clear Hb end.
  repeat match goal with Hb : _ = true |- _ => rewrite Hb; clear Hb end. reflexivity.
Qed.

Lemma validIdempotencyKey_nonempty k : validIdempotencyKey k = true -> k <> "".
Proof. intros Hk ->. discriminate. Qed.

Lemma validateRoute_conversation input u :
  validateRoute input = Ok u ->
  TrimSpace (si_ConversationID input) = "" \/
  ValidProviderConversationID (TrimSpace (si_ConversationID input)) = true.
Proof.
  unfold validateRoute. destruct (_ <>s "") eqn:E; reflect_bools; [|auto].
  destruct (_ || _) eqn:E'; [discriminate|]. reflect_bools. auto.
Qed.

(** Everything the service sends to the store is well formed. *)
Lemma sub_command_wf sub : sub_checks sub = true -> command_wf (sub_command sub).
Proof.
  unfold sub_checks. intros Hc. reflect_bools.
  destruct (validateRoute (sub_input sub)) eqn:Er; [|discriminate].
  unfold command_wf, sub_command. simpl. split_and!; auto.
  - by apply validIdempotencyKey_nonempty.
  - by apply validateRoute_conversation in Er.
  - apply length_sha256.
Qed.

Lemma do_submit_keeps s sub s' r t k b :
  do_submit s sub = (s', r) -> bound s t k = Some b -> bound s' t k = Some b.
Proof.
  intros Hs Hb. destruct (sub_checks sub) eqn:Hc.
  - rewrite do_submit_accepted in Hs by done.
    destruct (CreateOutbound s (sub_command sub)) as [s1 r1] eqn:Ec.
    apply (create_keeps _ _ _ _ t k b Ec) in Hb. case_hyp Hs; congruence.
  - destruct (do_submit_rejected s sub Hc) as [e He]. congruence.
Qed.

(** The store after a sequence of submissions. *)
Definition run (s : S) (subs : list Submission) : S :=
  fold_left (fun s sub => fst (do_submit s sub)) subs s.

Lemma run_keeps subs s t k b : bound s t k = Some b -> bound (run s subs) t k = Some b.
Proof.
  revert s. induction subs as [|sub subs IH]; intros s Hb; [done|].
  unfold run in *. cbn [fold_left]. apply IH.
  destruct (do_submit s sub) as [s' r] eqn:E. by eapply do_submit_keeps.
Qed.

(** A successful submission leaves its key bound to the message it returns. *)
Lemma do_submit_binds s sub s' m :
  do_submit s sub = (s', Ok m) ->
  bound s' (sub_tenant sub) (sub_key sub) = Some (CanonicalRequestDigest (sub_input sub), om_ID m).
Proof.
  intros Hs. destruct (sub_checks sub) eqn:Hc;
    [|destruct (do_submit_rejected s sub Hc) as [e He]; congruence].
  rewrite do_submit_accepted in Hs by done.
  destruct (CreateOutbound s (sub_command sub)) as [s1 r1] eqn:Ec.
  destruct r1 as [r1|e1]; [|discriminate].
  pose proof (sub_command_wf sub Hc) as Hwf.
  destruct (bound s (sub_tenant sub) (sub_key sub)) as [[d id]|] eqn:Hb.
  - destruct (decide (d = CanonicalRequestDigest (sub_input sub))) as [->|Hd].
    + pose proof (create_keeps _ _ _ _ _ _ _ Ec Hb) as Hb'.
      destruct (create_repeated _ (sub_command sub) _ _ _ Hwf Hb Ec) as [Ho Hi].
      rewrite Ho in Hs. injection Hs as <- <-. by rewrite Hb', Hi.
    + rewrite (create_reused s (sub_command sub) d id Hwf Hb Hd) in Ec.
      injection Ec as <- <-. discriminate.
  - destruct (create_fresh _ (sub_command sub) _ _ Hb Ec) as [-> Hb'].
    simpl in *. injection Hs as <- <-. done.
Qed.

(** Over any store with the laws, submission is idempotent per tenant and key,
    whatever other submissions happen in between: after a submission returned a message, the
    same key with the same canonical request returns that same message, and
    with a different canonical request it is refused as a conflict and the
    store is left as it was. *)
Lemma submit_idempotent_store (s0 s1 : S) (sub sub' : Submission) (m : OutboundMessage)
  (between : list Submission)
  (Hfirst : do_submit s0 sub = (s1, Ok m))
  (Htenant : sub_tenant sub' = sub_tenant sub) (Hkey : sub_key sub' = sub_key sub)
  (Hvalid : sub_checks sub' = true) :
  let s2 := run s1 between in
  (CanonicalRequestDigest (sub_input sub') = CanonicalRequestDigest (sub_input sub) ->
   forall s3 m', do_submit s2 sub' = (s3, Ok m') -> om_ID m' = om_ID m) /\
  (CanonicalRequestDigest (sub_input sub') <> CanonicalRequestDigest (sub_input sub) ->
   do_submit s2 sub' = (s2, Err [ErrIdempotencyConflict])).
Proof.
  cbn zeta. apply do_submit_binds in Hfirst.
  pose proof (run_keeps between _ _ _ _ Hfirst) as Hb.
  rewrite <- Htenant, <- Hkey in Hb. split.
  - intros Hd s3 m' Hs. pose proof (do_submit_binds _ _ _ _ Hs) as Hb3.
    pose proof (do_submit_keeps _ _ _ _ _ _ _ Hs Hb). congruence.
  - intros Hd. rewrite do_submit_accepted by done.
    rewrite (create_reused _ (sub_command sub') _ _ (sub_command_wf _ Hvalid) Hb)
      by (simpl; congruence). reflexivity.
Qed.
End ServiceProperties.

(** Reads stay inside the tenant whatever the store returns: [Get] answers
    only with the requested message of the requesting tenant, and [List] only
    with pages all of whose messages belong to that tenant. *)
Theorem reads_stay_in_tenant {S : Type} `{MessageStore S} (s : S) (tenantID messageID : string)
  (options : ListOptions) :
  (forall m, Get s tenantID messageID = Ok m -> om_TenantID m = tenantID /\ om_ID m = messageID) /\
  (forall page, List s tenantID options = Ok page ->
     Forall (fun m => om_TenantID m = tenantID /\ om_ID m <> "") (mp_Messages page)).
Proof.
  unfold Get, List. split.
  - intros m. destruct (_ || _); [discriminate|].
    intros (m1 & _ & Hm)%result_bind_ok. destruct (_ || _) eqn:E; [discriminate|].
    injection Hm as <-. by reflect_bools.
  - intros page. destruct (_ || _); [discriminate|].
    destruct ListMessages as [lm|]; [|discriminate].
    intros (p & _ & Hp)%result_bind_ok. destruct (existsb _ _) eqn:E; [discriminate|].
    injection Hp as <-. apply Forall_forall. intros m Hm.
    pose proof (proj1 (existsb_false _ _) E m Hm) as He. simpl in He. reflect_bools. auto.
Qed.
