(* ===== verification/EventContract.v ===== *)
(** * The public event body (internal/gateway/eventcontract/envelope.go)

    [Marshal]: validation, normalisation (canonical phone numbers, distinct
    sorted recipients, ordered media, version and timestamps) and the JSON body
    shared by the outbox, the webhooks and Kafka. *)

From S2P Require Import Prelude GoText Crypto GoEncoding Domain.

Definition Version : Z := 1.

Record Media := {
  md_ID : string;
  md_Position : Z;
  md_Status : string;
  md_MIMEType : string;
  md_Size : Z;
  md_DisplayFilename : string;
  md_MetadataPath : string;
  md_ContentPath : string
}.

Record Envelope := {
  ev_EventID : string;
  ev_Type : string;
  ev_Version : Z;
  ev_OccurredAt : Z;
  ev_OccurredAtText : string;
  ev_IngestedAt : Z;
  ev_IngestedAtText : string;
  ev_TenantID : string;
  ev_ConnectionID : string;
  ev_ConversationID : string;
  ev_MessageID : string;
  ev_ProviderMessageID : string;
  ev_ProviderTmpID : string;
  ev_Direction : string;
  ev_Provenance : string;
  ev_ProviderStatus : string;
  ev_Actionable : bool;
  ev_Sender : string;
  ev_Recipients : list string;
  ev_Text : string;
  ev_Transport : string;
  ev_Status : string;
  ev_State : string;
  ev_MediaID : string;
  ev_MetadataPath : string;
  ev_ContentPath : string;
  ev_Media : list Media;
  ev_ProviderResponseID : string;
  ev_Reason : string;
  ev_Data : list (string * json)
}.

#[export] Instance Media_eq_dec : EqDecision Media.
Proof. solve_decision. Defined.

(** The zero [Envelope{}]: composite literals set some of its fields. *)
Definition zero_envelope : Envelope := {|
  ev_EventID := ""; ev_Type := ""; ev_Version := 0; ev_OccurredAt := time_zero;
  ev_OccurredAtText := ""; ev_IngestedAt := time_zero; ev_IngestedAtText := "";
  ev_TenantID := ""; ev_ConnectionID := ""; ev_ConversationID := ""; ev_MessageID := "";
  ev_ProviderMessageID := ""; ev_ProviderTmpID := ""; ev_Direction := ""; ev_Provenance := "";
  ev_ProviderStatus := ""; ev_Actionable := false; ev_Sender := ""; ev_Recipients := [];
  ev_Text := ""; ev_Transport := ""; ev_Status := ""; ev_State := ""; ev_MediaID := "";
  ev_MetadataPath := ""; ev_ContentPath := ""; ev_Media := []; ev_ProviderResponseID := "";
  ev_Reason := ""; ev_Data := [] |}.

(** ** Field checks *)

Definition validToken (value : string) (limit : Z) : bool :=
  (len value >? 0) && (len value <=? limit) && utf8_ValidString value &&
  (TrimSpace value =s value) && negb (ContainsAny value [0; 13; 10]).

Definition validOptionalToken (value : string) (limit : Z) : bool :=
  (value =s "") || validToken value limit.

Definition validOptionalText (value : string) (limit : Z) : bool :=
  (len value <=? limit) && utf8_ValidString value && negb (ContainsByte value 0).

Definition validMedia (item : Media) : bool :=
  negb (negb (validToken (md_ID item) 256) || (md_Position item <? 0) || (md_Position item >? 255) ||
        ((md_Status item <>s "pending") && (md_Status item <>s "ready") &&
         (md_Status item <>s "failed")) || (md_Size item <? 0) ||
        negb (validOptionalText (md_MIMEType item) 255) ||
        negb (validOptionalText (md_DisplayFilename item) 255) ||
        negb (validOptionalText (md_MetadataPath item) 1024) ||
        negb (validOptionalText (md_ContentPath item) 1024)).

(** The first guard of [Marshal] after the version. *)
Definition validFields (input : Envelope) : bool :=
  negb (negb (validToken (ev_EventID input) 256) || negb (validToken (ev_Type input) 128) ||
        time_IsZero (ev_OccurredAt input) ||
        negb (validToken (ev_TenantID input) 256) ||
        negb (validOptionalToken (ev_ConnectionID input) 256) ||
        negb (validOptionalToken (ev_ConversationID input) MaxProviderConversationIDBytes) ||
        negb (validOptionalToken (ev_MessageID input) 256) ||
        negb (validOptionalToken (ev_ProviderMessageID input) MaxProviderConversationIDBytes) ||
        negb (validOptionalToken (ev_ProviderTmpID input) MaxProviderConversationIDBytes) ||
        negb (validOptionalToken (ev_MediaID input) 256) ||
        negb (validOptionalText (ev_MetadataPath input) 1024) ||
        negb (validOptionalText (ev_ContentPath input) 1024) ||
        negb (validOptionalToken (ev_Reason input) 128) ||
        negb (validOptionalText (ev_Text input) (Z.shiftl 4 20))).

Definition validDirection (direction : string) : bool :=
  (direction =s "") || (direction =s "inbound") || (direction =s "outbound") ||
  (direction =s "unknown").

(** A live inbound message must carry its whole identity. *)
Definition validReceived (input : Envelope) : bool :=
  negb (negb (ev_Actionable input) || time_IsZero (ev_IngestedAt input) ||
        (ev_ConnectionID input =s "") || (ev_ConversationID input =s "") ||
        (ev_ProviderMessageID input =s "") || (ev_Direction input <>s "inbound") ||
        (ev_Provenance input <>s "provider_live")).

(** ** Normalisation *)

(** The recipients loop: canonical numbers, first occurrence kept. *)
Fixpoint canonical_recipients (raws : list string) (seen : gset string) (recipients : list string)
    : result (list string) :=
  match raws with
  | [] => Ok recipients
  | raw :: raws' =>
    match ParseE164 raw with
    | Err _ => Err [ErrInvalidEventEnvelope]
    | Ok phone =>
      let canonical := E164Phone_String phone in
      if bool_decide (canonical ∈ seen) then canonical_recipients raws' seen recipients
      else canonical_recipients raws' ({[canonical]} ∪ seen) (recipients ++ [canonical])
    end
  end.

(** The order of [sort.Slice]: by position, then by identifier. *)
Definition media_key (m : Media) : Z * string := (md_Position m, md_ID m).
Definition key_le (a b : Z * string) : Prop :=
  a.1 < b.1 \/ a.1 = b.1 /\ String.le a.2 b.2.
Definition media_le (a b : Media) : Prop := key_le (media_key a) (media_key b).

#[export] Instance media_le_dec a b : Decision (media_le a b).
Proof. unfold media_le, key_le. apply _. Defined.

Definition sort_media (l : list Media) : list Media := merge_sort media_le l.

Definition canonical_sender (sender : string) : result string :=
  if sender =s "" then Ok sender
  else match ParseE164 sender with
  | Err _ => Err [ErrInvalidEventEnvelope]
  | Ok phone => Ok (E164Phone_String phone)
  end.

Definition media_json (m : Media) : json := JObject (
  field "media_id" (JString (md_ID m)) ++ field "position" (JInt (md_Position m)) ++
  field "status" (JString (md_Status m)) ++ omit_string "mime_type" (md_MIMEType m) ++
  omit_int "size" (md_Size m) ++ omit_string "display_filename" (md_DisplayFilename m) ++
  omit_string "metadata_path" (md_MetadataPath m) ++ omit_string "content_path" (md_ContentPath m)).

(** The struct as its tags say: the two [time.Time] fields are not written. *)
Definition envelope_json (e : Envelope) : json := JObject (
  field "event_id" (JString (ev_EventID e)) ++ field "type" (JString (ev_Type e)) ++
  field "version" (JInt (ev_Version e)) ++ field "occurred_at" (JString (ev_OccurredAtText e)) ++
  omit_string "ingested_at" (ev_IngestedAtText e) ++ field "tenant_id" (JString (ev_TenantID e)) ++
  omit_string "connection_id" (ev_ConnectionID e) ++
  omit_string "conversation_id" (ev_ConversationID e) ++ omit_string "message_id" (ev_MessageID e) ++
  omit_string "provider_message_id" (ev_ProviderMessageID e) ++
  omit_string "provider_tmp_id" (ev_ProviderTmpID e) ++ omit_string "direction" (ev_Direction e) ++
  omit_string "provenance" (ev_Provenance e) ++ omit_string "provider_status" (ev_ProviderStatus e) ++
  omit_true "actionable" (ev_Actionable e) ++ omit_string "sender" (ev_Sender e) ++
  omit_list "recipients" (map JString (ev_Recipients e)) ++ omit_string "text" (ev_Text e) ++
  omit_string "transport" (ev_Transport e) ++ omit_string "status" (ev_Status e) ++
  omit_string "state" (ev_State e) ++ omit_string "media_id" (ev_MediaID e) ++
  omit_string "metadata_path" (ev_MetadataPath e) ++ omit_string "content_path" (ev_ContentPath e) ++
  omit_list "media" (map media_json (ev_Media e)) ++
  omit_string "provider_response_id" (ev_ProviderResponseID e) ++
  omit_string "reason" (ev_Reason e) ++ omit_map "data" (ev_Data e)).

(** The envelope [Marshal] hands to [json.Marshal]: the validated input with
    its normalised fields. *)
Definition with_normal_fields (input : Envelope) (sender : string) (recipients : list string)
    : Envelope := {|
  ev_EventID := ev_EventID input; ev_Type := ev_Type input; ev_Version := Version;
  ev_OccurredAt := ev_OccurredAt input; ev_OccurredAtText := RFC3339Nano (ev_OccurredAt input);
  ev_IngestedAt := ev_IngestedAt input;
  ev_IngestedAtText :=
    if negb (time_IsZero (ev_IngestedAt input)) then RFC3339Nano (ev_IngestedAt input)
    else ev_IngestedAtText input;
  ev_TenantID := ev_TenantID input; ev_ConnectionID := ev_ConnectionID input;
  ev_ConversationID := ev_ConversationID input; ev_MessageID := ev_MessageID input;
  ev_ProviderMessageID := ev_ProviderMessageID input; ev_ProviderTmpID := ev_ProviderTmpID input;
  ev_Direction := ev_Direction input; ev_Provenance := ev_Provenance input;
  ev_ProviderStatus := ev_ProviderStatus input; ev_Actionable := ev_Actionable input;
  ev_Sender := sender; ev_Recipients := sort_Strings recipients;
  ev_Text := ev_Text input; ev_Transport := ev_Transport input; ev_Status := ev_Status input;
  ev_State := ev_State input; ev_MediaID := ev_MediaID input;
  ev_MetadataPath := ev_MetadataPath input; ev_ContentPath := ev_ContentPath input;
  ev_Media := sort_media (ev_Media input); ev_ProviderResponseID := ev_ProviderResponseID input;
  ev_Reason := ev_Reason input; ev_Data := ev_Data input |}.

Definition normalize (input : Envelope) : result Envelope :=
  guard negb (negb (ev_Version input =? 0) && negb (ev_Version input =? Version))
    else ErrInvalidEventEnvelope ;;
  guard validFields input else ErrInvalidEventEnvelope ;;
  guard validDirection (ev_Direction input) else ErrInvalidEventEnvelope ;;
  guard validOptionalToken (ev_Provenance input) 128 && validOptionalToken (ev_ProviderStatus input) 128
    else ErrInvalidEventEnvelope ;;
  guard negb (ev_Actionable input && (ev_Type input <>s "message.received"))
    else ErrInvalidEventEnvelope ;;
  guard negb ((ev_Type input =s "message.received") && negb (validReceived input))
    else ErrInvalidEventEnvelope ;;
  let! sender := canonical_sender (ev_Sender input) in
  let! recipients := canonical_recipients (ev_Recipients input) ∅ [] in
  guard forallb validMedia (ev_Media input) else ErrInvalidEventEnvelope ;;
  Ok (with_normal_fields input sender recipients).

Definition Marshal (input : Envelope) : result bytes :=
  let! normal := normalize input in Ok (json_print (envelope_json normal)).

(** ** Recipients *)

(** The canonical form of a raw recipient, [None] if it does not parse. *)
Definition canonical (raw : string) : option string :=
  match ParseE164 raw with Ok phone => Some (E164Phone_String phone) | Err _ => None end.

Lemma canonical_idem raw s : canonical raw = Some s -> canonical s = Some s.
Proof.
  unfold canonical. destruct (ParseE164 raw) as [p|] eqn:E; [|done]. intros [= <-].
  by rewrite (ParseE164_String raw p E).
Qed.

Lemma canonical_recipients_spec raws seen recs :
  (forall s, s ∈ seen <-> s ∈ recs) -> NoDup recs ->
  match canonical_recipients raws seen recs with
  | Ok rs => NoDup rs /\ (forall s, s ∈ rs <-> s ∈ recs \/ Some s ∈ canonical <$> raws) /\
             None ∉ canonical <$> raws
  | Err e => e = [ErrInvalidEventEnvelope] /\ None ∈ canonical <$> raws
  end.
Proof.
  revert seen recs. induction raws as [|raw raws IH]; intros seen recs Hseen Hnd; simpl.
  { split_and!; set_solver. }
  assert (Hc : canonical raw = match ParseE164 raw with
    Ok phone => Some (E164Phone_String phone) | Err _ => None end) by done.
  destruct (ParseE164 raw) as [p|e]; rewrite Hc; [|split; [done|set_solver]].
  case_bool_decide as Hin.
  - specialize (IH seen recs Hseen Hnd). destruct (canonical_recipients raws seen recs);
      destruct IH; [|split; set_solver].
    split_and!; set_solver.
  - specialize (IH ({[E164Phone_String p]} ∪ seen) (recs ++ [E164Phone_String p])).
    ospecialize (IH _ _); [set_solver | |].
    { apply NoDup_app. split_and!; [done | set_solver | apply NoDup_singleton]. }
    destruct (canonical_recipients raws _ _); destruct IH; [|split; set_solver].
    split_and!; set_solver.
Qed.

(** Only the set of canonical numbers matters. *)
Lemma recipients_as_set raws1 raws2 :
  (forall c, c ∈ canonical <$> raws1 <-> c ∈ canonical <$> raws2) ->
  match canonical_recipients raws1 ∅ [], canonical_recipients raws2 ∅ [] with
  | Ok r1, Ok r2 => sort_Strings r1 = sort_Strings r2
  | Err e1, Err e2 => e1 = e2
  | _, _ => False
  end.
Proof.
  intros Hset.
  pose proof (canonical_recipients_spec raws1 ∅ []) as H1.
  pose proof (canonical_recipients_spec raws2 ∅ []) as H2.
  ospecialize (H1 _ _); [set_solver | constructor |].
  ospecialize (H2 _ _); [set_solver | constructor |].
  destruct (canonical_recipients raws1 ∅ []) as [r1|e1],
           (canonical_recipients raws2 ∅ []) as [r2|e2].
  - destruct H1 as (Hn1 & Hr1 & _), H2 as (Hn2 & Hr2 & _). apply sort_Strings_perm.
    apply NoDup_Permutation; [done..|]. intros s. rewrite Hr1, Hr2, Hset. done.
  - destruct H1 as (_ & _ & H1), H2 as [_ H2]. by apply H1, Hset.
  - destruct H1 as [_ H1], H2 as (_ & _ & H2). by apply H2, Hset.
  - destruct H1 as [-> _], H2 as [-> _]. done.
Qed.

(** ** Media *)

#[export] Instance key_le_trans : Transitive key_le.
Proof.
  intros [p1 i1] [p2 i2] [p3 i3] [H|[H Hi]] [H'|[H' Hi']]; unfold key_le in *; simpl in *;
    [left; lia..|right; split; [lia | by trans i2]].
Qed.

#[export] Instance key_le_antisymm : AntiSymm (=) key_le.
Proof.
  intros [p1 i1] [p2 i2] [H|[H Hi]] [H'|[H' Hi']]; unfold key_le in *; simpl in *; [lia..|].
  f_equal; [lia | by apply (anti_symm String.le)].
Qed.

#[export] Instance media_le_total : Total media_le.
Proof.
  intros a b. unfold media_le, key_le. destruct (media_key a) as [p i], (media_key b) as [q j]. simpl.
  destruct (Z.lt_trichotomy p q) as [|[->|]]; [auto| |auto].
  destruct (total String.le i j); auto.
Qed.

Lemma sort_media_sorted l : Sorted media_le (sort_media l).
Proof. apply (Sorted_merge_sort media_le). Qed.

Lemma sort_media_perm l : sort_media l ≡ₚ l.
Proof. apply merge_sort_Permutation. Qed.

Lemma sort_media_unique l1 l2 :
  NoDup (media_key <$> l1) -> l1 ≡ₚ l2 -> Sorted media_le l2 -> sort_media l1 = l2.
Proof.
  intros Hnd Hp Hs. apply (sorted_by_key_unique key_le media_key).
  - by rewrite (sort_media_perm l1).
  - by rewrite sort_media_perm.
  - apply sort_media_sorted.
  - exact Hs.
Qed.

(** ** The normal form *)

(** An envelope with the same event but its lists written differently. *)
Definition with_lists (e : Envelope) (recipients : list string) (media : list Media) : Envelope := {|
  ev_EventID := ev_EventID e; ev_Type := ev_Type e; ev_Version := ev_Version e;
  ev_OccurredAt := ev_OccurredAt e; ev_OccurredAtText := ev_OccurredAtText e;
  ev_IngestedAt := ev_IngestedAt e; ev_IngestedAtText := ev_IngestedAtText e;
  ev_TenantID := ev_TenantID e; ev_ConnectionID := ev_ConnectionID e;
  ev_ConversationID := ev_ConversationID e; ev_MessageID := ev_MessageID e;
  ev_ProviderMessageID := ev_ProviderMessageID e; ev_ProviderTmpID := ev_ProviderTmpID e;
  ev_Direction := ev_Direction e; ev_Provenance := ev_Provenance e;
  ev_ProviderStatus := ev_ProviderStatus e; ev_Actionable := ev_Actionable e;
  ev_Sender := ev_Sender e; ev_Recipients := recipients; ev_Text := ev_Text e;
  ev_Transport := ev_Transport e; ev_Status := ev_Status e; ev_State := ev_State e;
  ev_MediaID := ev_MediaID e; ev_MetadataPath := ev_MetadataPath e;
  ev_ContentPath := ev_ContentPath e; ev_Media := media;
  ev_ProviderResponseID := ev_ProviderResponseID e; ev_Reason := ev_Reason e;
  ev_Data := ev_Data e |}.

(** The checks of [Marshal] that do not look at the lists. *)
Definition scalar_checks (e : Envelope) : bool :=
  negb (negb (ev_Version e =? 0) && negb (ev_Version e =? Version)) && validFields e &&
  validDirection (ev_Direction e) &&
  (validOptionalToken (ev_Provenance e) 128 && validOptionalToken (ev_ProviderStatus e) 128) &&
  negb (ev_Actionable e && (ev_Type e <>s "message.received")) &&
  negb ((ev_Type e =s "message.received") && negb (validReceived e)).

Lemma normalize_eq e :
  normalize e =
  guard scalar_checks e else ErrInvalidEventEnvelope ;;
  let! sender := canonical_sender (ev_Sender e) in
  let! recipients := canonical_recipients (ev_Recipients e) ∅ [] in
  guard forallb validMedia (ev_Media e) else ErrInvalidEventEnvelope ;;
  Ok (with_normal_fields e sender recipients).
Proof.
  unfold normalize, scalar_checks.
  repeat match goal with |- context [if ?b then _ else _] =>
    lazymatch b with context [_ && _ && _] => fail | _ => destruct b; [|by rewrite ?andb_false_r] end
  end; done.
Qed.

Lemma forallb_perm {A} (p : A -> bool) l1 l2 : l1 ≡ₚ l2 -> forallb p l1 = forallb p l2.
Proof.
  intros Hp. apply Bool.eq_iff_eq_true. rewrite !forallb_Forall. by rewrite Hp.
Qed.

Lemma normalize_lists e rs ms :
  (forall c, c ∈ canonical <$> rs <-> c ∈ canonical <$> ev_Recipients e) ->
  ms ≡ₚ ev_Media e -> NoDup (media_key <$> ms) ->
  normalize (with_lists e rs ms) = normalize e.
Proof.
  intros Hr Hm Hnd. rewrite !normalize_eq. change (scalar_checks (with_lists e rs ms)) with (scalar_checks e).
  destruct (scalar_checks e); [|done]. simpl ev_Sender.
  destruct (canonical_sender (ev_Sender e)) as [sender|]; [|done]. cbn [result_bind].
  apply recipients_as_set in Hr. simpl ev_Recipients.
  destruct (canonical_recipients rs ∅ []), (canonical_recipients (ev_Recipients e) ∅ []);
    try contradiction; cbn [result_bind]; [|congruence].
  simpl ev_Media. rewrite (forallb_perm validMedia _ _ Hm).
  destruct (forallb validMedia (ev_Media e)); [|done].
  unfold with_normal_fields. simpl. rewrite Hr.
  rewrite (sort_media_unique ms (sort_media (ev_Media e)));
    [done | done | by rewrite sort_media_perm | apply sort_media_sorted].
Qed.

Lemma canonical_sender_idem s s' : canonical_sender s = Ok s' -> canonical_sender s' = Ok s'.
Proof.
  unfold canonical_sender. destruct (s =s "") eqn:E.
  { intros [= <-]. by rewrite E. }
  destruct (ParseE164 s) as [p|] eqn:Ep; [|done]. intros [= <-].
  rewrite (ParseE164_String s p Ep). by case_match.
Qed.

Lemma canonical_recipients_ok raws rs :
  canonical_recipients raws ∅ [] = Ok rs ->
  NoDup rs /\ Forall (fun s => canonical s = Some s) rs /\
  (forall s, s ∈ rs <-> Some s ∈ canonical <$> raws).
Proof.
  intros H. pose proof (canonical_recipients_spec raws ∅ []) as Hs.
  ospecialize (Hs _ _); [set_solver | constructor |]. rewrite H in Hs.
  destruct Hs as (Hnd & Hel & _). split_and!; [done| |set_solver].
  apply Forall_forall. intros s [Hs|Hs]%Hel; [set_solver|].
  apply list_elem_of_fmap in Hs as (raw & Hraw & _). by eapply canonical_idem.
Qed.

Lemma canonical_recipients_canon rs :
  NoDup rs -> Forall (fun s => canonical s = Some s) rs ->
  exists rs', canonical_recipients rs ∅ [] = Ok rs' /\ rs' ≡ₚ rs.
Proof.
  intros Hnd Hc. pose proof (canonical_recipients_spec rs ∅ []) as Hs.
  ospecialize (Hs _ _); [set_solver | constructor |].
  assert (canonical <$> rs = Some <$> rs) as Hmap.
  { clear Hnd Hs. induction Hc as [|s rs Hs _ IH]; [done|]. cbn. rewrite Hs. by f_equal. }
  rewrite Hmap in Hs. destruct (canonical_recipients rs ∅ []) as [rs'|e].
  - exists rs'. split; [done|]. destruct Hs as (Hn & Hel & _).
    apply NoDup_Permutation; [done..|]. intros s. rewrite Hel. set_solver.
  - destruct Hs as [_ Hs]. set_solver.
Qed.

Lemma scalar_checks_normal e sender rs :
  scalar_checks e = true -> scalar_checks (with_normal_fields e sender rs) = true.
Proof.
  unfold scalar_checks. rewrite !andb_true_iff. intros [[[[[_ Hf] Hd] Hp] Ha] Hr].
  split_and!; [done | exact Hf | exact Hd | apply Hp | apply Hp | exact Ha | exact Hr].
Qed.

Lemma normalize_idem e n :
  normalize e = Ok n -> NoDup (media_key <$> ev_Media e) -> normalize n = Ok n.
Proof.
  rewrite !normalize_eq. destruct (scalar_checks e) eqn:Hc; [|done].
  intros (sender & Hs & (rs & Hr & Hm)%result_bind_ok)%result_bind_ok Hnd.
  destruct (forallb validMedia (ev_Media e)) eqn:Hv; [|done]. injection Hm as <-.
  rewrite scalar_checks_normal by done.
  cbn [with_normal_fields ev_Sender ev_Recipients ev_Media].
  rewrite (canonical_sender_idem _ _ Hs). cbn [result_bind].
  destruct (canonical_recipients_ok _ _ Hr) as (Hn & Hcan & _).
  destruct (canonical_recipients_canon (sort_Strings rs)) as (rs' & -> & Hrs').
  { unfold sort_Strings. by rewrite merge_sort_Permutation. }
  { unfold sort_Strings. by rewrite merge_sort_Permutation. }
  cbn [result_bind]. rewrite (forallb_perm _ _ _ (sort_media_perm _)), Hv.
  f_equal. unfold with_normal_fields at 1. cbn [with_normal_fields ev_EventID ev_Type ev_Version
    ev_OccurredAt ev_OccurredAtText ev_IngestedAt ev_IngestedAtText ev_Media].
  rewrite Hrs', (sort_Strings_perm (sort_Strings rs) rs)
    by (unfold sort_Strings; by rewrite merge_sort_Permutation).
  rewrite (sort_media_unique (sort_media (ev_Media e)) (sort_media (ev_Media e)));
    [| by rewrite sort_media_perm | done | apply sort_media_sorted].
  unfold with_normal_fields. generalize RFC3339Nano, time_IsZero. intros print is_zero. simpl.
  by destruct (is_zero (ev_IngestedAt e)).
Qed.

(** The event body is deterministic: it does not depend on the order,
    formatting or repetition of the recipients, nor on the order in which media
    with distinct (position, identifier) are listed, so the same event always
    has the same bytes under its event identifier. *)
Theorem Marshal_deterministic (e : Envelope) (rs : list string) (ms : list Media)
  (Hrecipients : forall c, c ∈ canonical <$> rs <-> c ∈ canonical <$> ev_Recipients e)
  (Hmedia : ms ≡ₚ ev_Media e) (Hkeys : NoDup (media_key <$> ms)) :
  Marshal (with_lists e rs ms) = Marshal e.
Proof. unfold Marshal. by rewrite normalize_lists. Qed.

(** What [Marshal] writes is a normal form: the version is 1, the recipients
    are the distinct canonical numbers of the input in increasing order, the
    media are ordered, an actionable event is a live inbound message with its
    connection, conversation and provider message identifiers (and the
    converse), and writing the normal form again changes nothing. *)
Theorem normalize_normal_form (e n : Envelope) (H : normalize e = Ok n) :
  ev_Version n = Version /\
  NoDup (ev_Recipients n) /\ Sorted String.le (ev_Recipients n) /\
  (forall s, s ∈ ev_Recipients n <-> Some s ∈ canonical <$> ev_Recipients e) /\
  Sorted media_le (ev_Media n) /\ ev_Media n ≡ₚ ev_Media e /\
  (ev_Actionable n = true <-> ev_Type n = "message.received") /\
  (ev_Actionable n = true ->
   ev_ConnectionID n <> "" /\ ev_ConversationID n <> "" /\ ev_ProviderMessageID n <> "" /\
   ev_Direction n = "inbound" /\ ev_Provenance n = "provider_live" /\ ev_IngestedAt n <> time_zero) /\
  (NoDup (media_key <$> ev_Media e) -> normalize n = Ok n).
Proof.
  pose proof (normalize_idem e n H) as Hidem. rewrite normalize_eq in H.
  destruct (scalar_checks e) eqn:Hc; [|done].
  apply result_bind_ok in H as (sender & Hs & (rs & Hr & Hm)%result_bind_ok).
  destruct (forallb validMedia (ev_Media e)) eqn:Hv; [|done]. injection Hm as <-.
  destruct (canonical_recipients_ok _ _ Hr) as (Hn & Hcan & Hel).
  cbn [with_normal_fields ev_Version ev_Recipients ev_Media ev_Actionable ev_Type ev_ConnectionID
    ev_ConversationID ev_ProviderMessageID ev_Direction ev_Provenance ev_IngestedAt].
  assert (ev_Actionable e = true <-> ev_Type e = "message.received") as Hact.
  { unfold scalar_checks in Hc. reflect_bools. destruct (ev_Actionable e) eqn:Ea.
    - destruct (ev_Type e =s "message.received") eqn:Et; reflect_bools; [done | discriminate].
    - split; [done|]. intros Et. rewrite Et in *. simpl in *. unfold validReceived in *.
      rewrite Ea in *. discriminate. }
  split_and!; auto.
  - unfold sort_Strings. by rewrite merge_sort_Permutation.
  - apply (Sorted_merge_sort String.le).
  - intros s. by rewrite sort_Strings_elem.
  - apply sort_media_sorted.
  - apply sort_media_perm.
  - intros Ht%Hact. unfold scalar_checks in Hc. reflect_bools. rewrite Ht in *. simpl in *.
    unfold validReceived, time_IsZero in *. reflect_bools. split_and!; done.
Qed.

Definition example_media (position : Z) (id : string) : Media := {|
  md_ID := id; md_Position := position; md_Status := "ready"; md_MIMEType := "image/png";
  md_Size := 12; md_DisplayFilename := ""; md_MetadataPath := ""; md_ContentPath := "" |}.

Definition example_received : Envelope := {|
  ev_EventID := "evt-1"; ev_Type := "message.received"; ev_Version := 0; ev_OccurredAt := 0;
  ev_OccurredAtText := ""; ev_IngestedAt := Second; ev_IngestedAtText := "";
  ev_TenantID := "t1"; ev_ConnectionID := "c1"; ev_ConversationID := "v1"; ev_MessageID := "";
  ev_ProviderMessageID := "p1"; ev_ProviderTmpID := ""; ev_Direction := "inbound";
  ev_Provenance := "provider_live"; ev_ProviderStatus := ""; ev_Actionable := true;
  ev_Sender := "+1 (202) 555-0100"; ev_Recipients := ["+442071838750"; "+1 202 555 0101"];
  ev_Text := "hi"; ev_Transport := "sms"; ev_Status := ""; ev_State := ""; ev_MediaID := "";
  ev_MetadataPath := ""; ev_ContentPath := "";
  ev_Media := [example_media 1 "b"; example_media 0 "a"];
  ev_ProviderResponseID := ""; ev_Reason := ""; ev_Data := [] |}.

Example marshal_received :
  (string_of <$> match Marshal example_received with Ok b => Some b | Err _ => None end) <> None.
Proof. vm_compute. discriminate. Qed.

Lemma Marshal_deterministic_witness :
  Marshal (with_lists example_received ["+12025550101"; "+1 202 555 0101"; "+44 2071838750"]
    [example_media 0 "a"; example_media 1 "b"]) = Marshal example_received.
Proof.
  apply Marshal_deterministic.
  - intros c. vm_compute (canonical <$> _). set_solver.
  - vm_compute. apply perm_swap.
  - vm_compute. apply NoDup_cons. split; [set_solver | apply NoDup_singleton].
Defined.

Lemma normalize_normal_form_witness :
  exists n, normalize example_received = Ok n /\ ev_Recipients n = ["+12025550101"; "+442071838750"] /\
  (ev_Actionable n = true <-> ev_Type n = "message.received").
Proof.
  destruct (normalize example_received) as [n|] eqn:E; [|vm_compute in E; discriminate].
  exists n. split; [done|]. split; [vm_compute in E; by injection E as <-|].
  by destruct (normalize_normal_form _ _ E) as (_ & _ & _ & _ & _ & _ & ? & _).
Defined.
