(* ===== verification/Aes.v ===== *)
(** * AES-256-GCM of the Go standard library

    [crypto/aes] with a 32-byte key and [cipher.NewGCM] with its 12-byte nonce
    and 16-byte tag, executable, as far as the session envelope uses them:
    [Seal] and [Open].  [gcm_Open_Seal] is the only property the envelope code
    relies on; it needs nothing of the cipher itself. *)

From S2P Require Import Prelude Crypto.

(** ** GF(2^8) and the S-box *)

Definition xtime (a : Z) : Z :=
  let d := Z.shiftl a 1 in if Z.testbit d 8 then Z.lxor d 0x11b else d.

Fixpoint gf_mul (n : nat) (a b acc : Z) : Z :=
  match n with
  | O => acc
  | S n' => gf_mul n' (xtime a) (Z.shiftr b 1) (if Z.odd b then Z.lxor acc a else acc)
  end.
Definition gmul (a b : Z) : Z := gf_mul 8 a b 0.

Definition gf_inverse (a : Z) : Z :=
  Nat.iter 253 (fun x => gmul x a) a.

Definition rotl8 (x n : Z) : Z := Z.land (Z.lor (Z.shiftl x n) (Z.shiftr x (8 - n))) 0xff.

Definition sbox_entry (a : Z) : Z :=
  let b := gf_inverse a in
  Z.lxor (Z.lxor b (rotl8 b 1)) (Z.lxor (rotl8 b 2) (Z.lxor (rotl8 b 3) (Z.lxor (rotl8 b 4) 0x63))).

Definition sbox : list Z := Eval vm_compute in sbox_entry <$> (Z.of_nat <$> seq 0 256).
Definition sub_byte (a : Z) : Z := nth (Z.to_nat a) sbox 0.

(** ** Key expansion: 60 words of four bytes *)

Definition xor_list (a b : list Z) : list Z := zip_with Z.lxor a b.

Fixpoint key_words (n : nat) (i : Z) (rcon : Z) (rev_words : list (list Z)) : list (list Z) :=
  match n with
  | O => rev rev_words
  | S n' =>
    let prev := nth 0 rev_words [] in
    let old := nth 7 rev_words [] in
    let temp :=
      if i mod 8 =? 0 then
        match sub_byte <$> (drop 1 prev ++ take 1 prev) with
        | b :: rest => Z.lxor b rcon :: rest
        | [] => []
        end
      else if i mod 8 =? 4 then sub_byte <$> prev
      else prev in
    key_words n' (i + 1) (if i mod 8 =? 0 then xtime rcon else rcon) (xor_list old temp :: rev_words)
  end.

Fixpoint split_every (n : nat) (fuel : nat) (l : list Z) : list (list Z) :=
  match fuel with
  | O => []
  | S f => match l with [] => [] | _ => take n l :: split_every n f (drop n l) end
  end.

(** Fifteen round keys of sixteen bytes. *)
Definition round_keys (key : list Z) : list (list Z) :=
  split_every 16 15 (concat (key_words 52 8 1 (rev (split_every 4 8 key)))).

(** ** The block cipher *)

Definition shift_rows (s : list Z) : list Z :=
  (fun i : nat => nth (i mod 4 + 4 * ((i / 4 + i mod 4) mod 4))%nat s 0) <$> seq 0 16.

Definition mix_column (c : list Z) : list Z :=
  match c with
  | [a; b; d; e] =>
    let m2 := xtime in
    let m3 x := Z.lxor (xtime x) x in
    [Z.lxor (Z.lxor (m2 a) (m3 b)) (Z.lxor d e); Z.lxor (Z.lxor a (m2 b)) (Z.lxor (m3 d) e);
     Z.lxor (Z.lxor a b) (Z.lxor (m2 d) (m3 e)); Z.lxor (Z.lxor (m3 a) b) (Z.lxor d (m2 e))]
  | _ => c
  end.
Definition mix_columns (s : list Z) : list Z := concat (mix_column <$> split_every 4 4 s).

Definition round (s k : list Z) : list Z := xor_list (mix_columns (shift_rows (sub_byte <$> s))) k.

Definition aes_encrypt (keys : list (list Z)) (block : list Z) : list Z :=
  match keys with
  | [] => block
  | k0 :: ks =>
    let s := fold_left round (take 13 ks) (xor_list block k0) in
    xor_list (shift_rows (sub_byte <$> s)) (nth 13 ks [])
  end.

(** ** GCM *)

Definition values (b : bytes) : list Z := byte_val <$> b.

Fixpoint big_endian (acc : Z) (l : list Z) : Z :=
  match l with [] => acc | a :: l' => big_endian (acc * 256 + a) l' end.

Fixpoint gcm_mul (n : nat) (x v acc : Z) : Z :=
  match n with
  | O => acc
  | S n' =>
    gcm_mul n' x (if Z.odd v then Z.lxor (Z.shiftr v 1) (Z.shiftl 0xe1 120) else Z.shiftr v 1)
      (if Z.testbit x (Z.of_nat n') then Z.lxor acc v else acc)
  end.

Definition pad16 (l : list Z) : list Z := l ++ repeat 0 (Z.to_nat ((- blen l) mod 16)).

Definition ghash (h : Z) (data : list Z) : Z :=
  fold_left (fun y b => gcm_mul 128 (Z.lxor y (big_endian 0 b)) h 0)
    (split_every 16 (length data) data) 0.

(** One byte of the text with one value of the key stream. *)
Definition xor_byte (c : ascii) (k : Z) : ascii := byte_of_Z (Z.lxor (byte_val c) k).

(** Sixteen values of key stream from the counter block of [nonce] and [counter]. *)
Definition key_stream (keys : list (list Z)) (nonce : list Z) (counter : Z) : list Z :=
  take 16 (aes_encrypt keys (nonce ++ values (be_encode 4 counter)) ++ repeat 0 16).

(** Counter mode over a key stream of sixteen values per counter; a block is
    consumed per unit of [fuel]. *)
Fixpoint stream_xor (fuel : nat) (stream : Z -> list Z) (counter : Z) (data : bytes) : bytes :=
  match fuel with
  | O => []
  | S f =>
    match data with
    | [] => []
    | _ =>
      zip_with xor_byte (take 16 data) (stream counter) ++
      stream_xor f stream (counter + 1) (drop 16 data)
    end
  end.

Definition ctr (fuel : nat) (keys : list (list Z)) (nonce : list Z) (counter : Z) (data : bytes) : bytes :=
  stream_xor fuel (key_stream keys nonce) counter data.

Definition gcm_tag (keys : list (list Z)) (nonce : list Z) (ct ad : bytes) : bytes :=
  let h := big_endian 0 (aes_encrypt keys (repeat 0 16)) in
  let lens := values (be_encode 8 (8 * blen ad) ++ be_encode 8 (8 * blen ct)) in
  let s := ghash h (pad16 (values ad) ++ pad16 (values ct) ++ lens) in
  be_encode 16 (Z.lxor s (big_endian 0 (aes_encrypt keys (nonce ++ [0; 0; 0; 1])))).

Definition gcm_crypt (keys : list (list Z)) (nonce : list Z) (data : bytes) : bytes :=
  ctr (length data) keys nonce 2 data.

(** [aead.Seal(nil, nonce, plaintext, ad)]: ciphertext and tag. *)
Definition gcm_Seal (key nonce plaintext ad : bytes) : bytes :=
  let keys := round_keys (values key) in
  let ct := gcm_crypt keys (values nonce) plaintext in
  ct ++ gcm_tag keys (values nonce) ct ad.

(** [aead.Open(nil, nonce, ciphertext, ad)]; [None] is the authentication error. *)
Definition gcm_Open (key nonce sealed ad : bytes) : option bytes :=
  let keys := round_keys (values key) in
  if blen sealed <? 16 then None
  else
    let n := (length sealed - 16)%nat in
    let ct := take n sealed in
    if bool_decide (gcm_tag keys (values nonce) ct ad = drop n sealed)
    then Some (gcm_crypt keys (values nonce) ct) else None.

(** Test case 16 of the GCM specification (AES-256 with additional data). *)
Definition hex (s : string) : bytes := default [] (hex_decode (bytes_of s)).

Example gcm_test_case_16 :
  hex_encode (gcm_Seal
    (hex "feffe9928665731c6d6a8f9467308308feffe9928665731c6d6a8f9467308308")
    (hex "cafebabefacedbaddecaf888")
    (hex "d9313225f88406e5a55909c5aff5269a86a7a9531534f7da2e4c303d8a318a721c3c0c95956809532fcf0e2449a6b525b16aedf5aa0de657ba637b39")
    (hex "feedfacedeadbeeffeedfacedeadbeefabaddad2")) =
  bytes_of "522dc1f099567d07f47f37a32a84427d643a8cdcbfe5c0c97598a2bd2555d1aa8cb08e48590dbb3da7b08b1056828838c5f61e6393ba7a0abcc9f66276fc6ece0f4e1768cddf8853bb2d551b".
Proof. vm_compute. reflexivity. Qed.

(** ** Opening what was sealed *)

Lemma xor_byte_involutive c k : xor_byte (xor_byte c k) k = c.
Proof.
  apply byte_val_inj. unfold xor_byte. rewrite !byte_val_of_Z.
  change 256 with (2 ^ 8). apply Z.bits_inj'. intros n Hn.
  pose proof (byte_val_range c) as Hc.
  destruct (Z.lt_ge_cases n 8) as [Hlt|Hge].
  - rewrite Z.mod_pow2_bits_low, Z.lxor_spec, Z.mod_pow2_bits_low, Z.lxor_spec by lia.
    rewrite xorb_assoc, xorb_nilpotent, xorb_false_r. done.
  - rewrite Z.mod_pow2_bits_high by lia. symmetry. apply Z.bits_above_log2; [lia|].
    destruct (Z.eq_dec (byte_val c) 0) as [->|]; [simpl; lia|].
    apply Z.lt_le_trans with 8; [|done]. apply Z.log2_lt_pow2; lia.
Qed.

Lemma length_key_stream keys nonce counter : length (key_stream keys nonce counter) = 16%nat.
Proof. unfold key_stream. rewrite length_take, length_app, repeat_length. lia. Qed.

Section stream.
Context (stream : Z -> list Z) (length_stream : forall counter, length (stream counter) = 16%nat).

Lemma length_stream_xor fuel counter data :
  (length data <= fuel)%nat -> length (stream_xor fuel stream counter data) = length data.
Proof.
  revert counter data. induction fuel as [|f IH]; intros counter data H; [simpl; lia|].
  destruct data as [|c data]; [done|]. cbn [stream_xor]. remember (c :: data) as d eqn:Hd.
  rewrite length_app, length_zip_with, length_stream, length_take, IH, length_drop;
    rewrite ?length_drop; subst d; cbn [length] in *; lia.
Qed.

Lemma zip_xor_involutive (l : bytes) (k : list Z) :
  (length l <= length k)%nat -> zip_with xor_byte (zip_with xor_byte l k) k = l.
Proof.
  revert k. induction l as [|c l IH]; intros [|x k] H; simpl in *; try done; [lia|].
  rewrite xor_byte_involutive. f_equal. apply IH. lia.
Qed.

Lemma stream_xor_involutive fuel counter data :
  (length data <= fuel)%nat ->
  stream_xor fuel stream counter (stream_xor fuel stream counter data) = data.
Proof.
  revert counter data. induction fuel as [|f IH]; intros counter data H; [destruct data; simpl in *; [done|lia]|].
  destruct data as [|c data]; [done|]. remember (c :: data) as d eqn:Hd.
  assert (Hstep : forall x, x <> [] -> stream_xor (S f) stream counter x =
    zip_with xor_byte (take 16 x) (stream counter) ++
    stream_xor f stream (counter + 1) (drop 16 x)) by (intros [|? ?]; done).
  rewrite (Hstep d) by (by subst d).
  set (b := zip_with xor_byte (take 16 d) (stream counter)).
  set (r := stream_xor f stream (counter + 1) (drop 16 d)).
  assert (Hb : length b = (16 `min` length d)%nat)
    by (unfold b; rewrite length_zip_with, length_stream, length_take; lia).
  assert (Hdl : (length (drop 16 d) <= f)%nat) by (rewrite length_drop; subst d; cbn [length] in *; lia).
  assert (Hr : length r = length (drop 16 d)) by (by apply length_stream_xor).
  assert (Htake : take 16 (b ++ r) = b /\ drop 16 (b ++ r) = r).
  { destruct (le_lt_dec 16 (length d)).
    - by rewrite take_app_length', drop_app_length' by lia.
    - rewrite length_drop in Hr. replace r with (@nil ascii) by (symmetry; apply nil_length_inv; lia).
      rewrite app_nil_r, take_ge, drop_ge by lia. done. }
  rewrite Hstep.
  2: { intros E. apply (f_equal length) in E. rewrite length_app, Hb in E.
       subst d. cbn in E. lia. }
  destruct Htake as [-> ->]. unfold b, r. rewrite IH by done.
  rewrite zip_xor_involutive; [apply take_drop|].
  rewrite length_stream, length_take. lia.
Qed.

End stream.

Lemma length_ctr fuel keys nonce counter data :
  (length data <= fuel)%nat -> length (ctr fuel keys nonce counter data) = length data.
Proof. apply length_stream_xor, length_key_stream. Qed.

Lemma ctr_involutive fuel keys nonce counter data :
  (length data <= fuel)%nat ->
  ctr fuel keys nonce counter (ctr fuel keys nonce counter data) = data.
Proof. apply stream_xor_involutive, length_key_stream. Qed.

Lemma length_gcm_tag keys nonce ct ad : length (gcm_tag keys nonce ct ad) = 16%nat.
Proof. apply length_be_encode. Qed.

Lemma length_gcm_Seal key nonce plaintext ad :
  length (gcm_Seal key nonce plaintext ad) = (length plaintext + 16)%nat.
Proof.
  unfold gcm_Seal, gcm_crypt. by rewrite length_app, length_gcm_tag, length_ctr.
Qed.

Lemma gcm_Open_Seal key nonce plaintext ad :
  gcm_Open key nonce (gcm_Seal key nonce plaintext ad) ad = Some plaintext.
Proof.
  unfold gcm_Open. unfold blen. rewrite length_gcm_Seal.
  destruct (_ <? 16) eqn:E; [apply Z.ltb_lt in E; lia|].
  replace (length plaintext + 16 - 16)%nat with (length plaintext) by lia.
  unfold gcm_Seal. set (keys := round_keys (values key)).
  set (ct := gcm_crypt keys (values nonce) plaintext).
  assert (Hct : length ct = length plaintext) by (by apply length_ctr).
  rewrite <- Hct, take_app_length, drop_app_length.
  rewrite bool_decide_true by done. f_equal.
  unfold gcm_crypt. rewrite Hct. by apply ctr_involutive.
Qed.
