(* ===== verification/Session.v ===== *)
(** * Encrypted provider sessions (internal/gateway/session: envelope.go, vault.go, localkey)

    The envelope manager ([Seal], [Open], [Rewrap]) over a key wrapper, the
    development key wrapper that implements it, and the vault that stores
    envelopes under a revision.  Bytes read from [rand.Reader] are arguments,
    [None] being a failed read; [ctx] is what [ctx.Err()] returns. *)

From S2P Require Import Prelude GoText Crypto Aes.

Definition EnvelopeVersion : Z := 1.
Definition dekSize : Z := 32.
Definition gcmNonceSize : Z := 12.
Definition gcmTagSize : Z := 16.
Definition maxScopeIDSize : Z := 128.
Definition maxProviderSize : Z := 64.
Definition maxKeyIDSize : Z := 256.
Definition maxWrappedSize : Z := 16 * 1024.
Definition maxCiphertextSize : Z := 4 * 1024 * 1024.
Definition maxPlaintextSize : Z := maxCiphertextSize - gcmTagSize.

Record Scope := { sc_TenantID : string; sc_ConnectionID : string; sc_Provider : string }.

Record WrappedKey := { wk_KeyID : string; wk_KeyVersion : Z; wk_Ciphertext : bytes }.

Record Envelope := {
  en_Revision : Z;
  en_Version : Z;
  en_Provider : string;
  en_Ciphertext : bytes;
  en_WrappedDEK : bytes;
  en_Nonce : bytes;
  en_KeyID : string;
  en_KeyVersion : Z
}.

(** The checks on what the wrapper returned, shared by [Seal] and [Rewrap]. *)
Definition wrapped_ok (wrapped : WrappedKey) : bool :=
  negb ((len (wk_KeyID wrapped) =? 0) || (len (wk_KeyID wrapped) >? maxKeyIDSize) ||
        (wk_KeyVersion wrapped <=? 0) || (blen (wk_Ciphertext wrapped) =? 0) ||
        (blen (wk_Ciphertext wrapped) >? maxWrappedSize)).

(** The KMS boundary. *)
Class KeyWrapper (W : Type) := {
  WrapKey : W -> error -> option bytes -> bytes -> result WrappedKey;
  UnwrapKey : W -> error -> WrappedKey -> result bytes
}.

(** Implementations must unwrap what they wrapped, as far as the manager accepts
    it. *)
Class KeyWrapperLaws (W : Type) `{KeyWrapper W} := {
  unwrap_wrapped w ctx ctx' rnd key wrapped :
    WrapKey w ctx rnd key = Ok wrapped -> wrapped_ok wrapped = true -> ctx' = [] ->
    UnwrapKey w ctx' wrapped = Ok key
}.

Definition Envelope_Validate (envelope : Envelope) : result unit :=
  if negb (en_Version envelope =? EnvelopeVersion) || (len (en_Provider envelope) =? 0) ||
     (len (en_Provider envelope) >? maxProviderSize) ||
     (blen (en_Ciphertext envelope) <? gcmTagSize) ||
     (blen (en_Ciphertext envelope) >? maxCiphertextSize) ||
     (blen (en_WrappedDEK envelope) =? 0) || (blen (en_WrappedDEK envelope) >? maxWrappedSize) ||
     negb (blen (en_Nonce envelope) =? gcmNonceSize) ||
     (len (en_KeyID envelope) =? 0) || (len (en_KeyID envelope) >? maxKeyIDSize) ||
     (en_KeyVersion envelope <=? 0)
  then Err [ErrInvalidSessionEnvelope] else Ok tt.

Definition Scope_valid (scope : Scope) : bool :=
  (len (sc_TenantID scope) >? 0) && (len (sc_TenantID scope) <=? maxScopeIDSize) &&
  (len (sc_ConnectionID scope) >? 0) && (len (sc_ConnectionID scope) <=? maxScopeIDSize) &&
  (len (sc_Provider scope) >? 0) && (len (sc_Provider scope) <=? maxProviderSize).

Definition associatedData (version : Z) (scope : Scope) : bytes :=
  PutUint32 (uint32 version) ++
  concat ((fun value => PutUint32 (uint32 (len value)) ++ bytes_of value) <$>
    [sc_TenantID scope; sc_ConnectionID scope; sc_Provider scope]).

Section Manager.
Context {W : Type} `{KeyWrapper W}.

(** [dek] and [nonce] are the two reads of [rand.Reader]; [wrapRandom] is what
    the wrapper reads. *)
Definition Seal (w : W) (ctx : error) (scope : Scope) (plaintext : bytes)
    (dek nonce wrapRandom : option bytes) : result Envelope :=
  if negb (Scope_valid scope) || (blen plaintext =? 0) || (blen plaintext >? maxPlaintextSize)
  then Err [ErrInvalidScope]
  else match dek with
  | None => Err [ErrEncrypt]
  | Some dek =>
    match WrapKey w ctx wrapRandom dek with
    | Err _ => Err [ErrKeyWrapper]
    | Ok wrapped =>
      if negb (wrapped_ok wrapped) then Err [ErrKeyWrapper]
      else match nonce with
      | None => Err [ErrEncrypt]
      | Some nonce =>
        let envelope := {|
          en_Revision := 0; en_Version := EnvelopeVersion; en_Provider := sc_Provider scope;
          en_Ciphertext := gcm_Seal dek nonce plaintext (associatedData EnvelopeVersion scope);
          en_WrappedDEK := wk_Ciphertext wrapped; en_Nonce := nonce;
          en_KeyID := wk_KeyID wrapped; en_KeyVersion := wk_KeyVersion wrapped |} in
        if is_ok (Envelope_Validate envelope) then Ok envelope else Err [ErrEncrypt]
      end
    end
  end.

Definition open (w : W) (ctx : error) (scope : Scope) (envelope : Envelope) : result (bytes * bytes) :=
  if negb (Scope_valid scope) || negb (is_ok (Envelope_Validate envelope)) ||
     (en_Provider envelope <>s sc_Provider scope)
  then Err [ErrDecrypt]
  else match UnwrapKey w ctx {| wk_KeyID := en_KeyID envelope; wk_KeyVersion := en_KeyVersion envelope;
                                wk_Ciphertext := en_WrappedDEK envelope |} with
  | Err _ => Err [ErrKeyWrapper]
  | Ok dek =>
    if negb (blen dek =? dekSize) then Err [ErrKeyWrapper]
    else if negb (blen (en_Nonce envelope) =? gcmNonceSize) then Err [ErrDecrypt]
    else match gcm_Open dek (en_Nonce envelope) (en_Ciphertext envelope)
                 (associatedData (en_Version envelope) scope) with
    | None => Err [ErrDecrypt]
    | Some plaintext =>
      if (blen plaintext =? 0) || (blen plaintext >? maxPlaintextSize) then Err [ErrDecrypt]
      else Ok (plaintext, dek)
    end
  end.

Definition Open (w : W) (ctx : error) (scope : Scope) (envelope : Envelope) : result bytes :=
  let! opened := open w ctx scope envelope in Ok opened.1.

Definition Rewrap (w : W) (ctx : error) (scope : Scope) (envelope : Envelope)
    (wrapRandom : option bytes) : result (Envelope * bool) :=
  let! opened := open w ctx scope envelope in
  match WrapKey w ctx wrapRandom opened.2 with
  | Err _ => Err [ErrKeyWrapper]
  | Ok wrapped =>
    if negb (wrapped_ok wrapped) then Err [ErrKeyWrapper]
    else if (wk_KeyID wrapped =s en_KeyID envelope) && (wk_KeyVersion wrapped =? en_KeyVersion envelope)
    then Ok (envelope, false)
    else Ok ({| en_Revision := en_Revision envelope; en_Version := en_Version envelope;
                en_Provider := en_Provider envelope; en_Ciphertext := en_Ciphertext envelope;
                en_WrappedDEK := wk_Ciphertext wrapped; en_Nonce := en_Nonce envelope;
                en_KeyID := wk_KeyID wrapped; en_KeyVersion := wk_KeyVersion wrapped |}, true)
  end.
End Manager.

(** ** The development key wrapper (localkey/wrapper.go) *)

Module LocalKey.
Definition keyID : string := "local-development".
Definition keyVersion : Z := 1.
Definition keyBytes : Z := 32.
Definition dekBytes : Z := 32.
Definition nonceBytes : Z := 12.

Record Wrapper := { master_key : bytes }.

Definition New (masterKey : bytes) : result Wrapper :=
  if negb (blen masterKey =? keyBytes) then Err [ErrText "invalid local development key wrapper configuration"]
  else Ok {| master_key := masterKey |}.

Definition Wrapper_WrapKey (wrapper : Wrapper) (ctx : error) (random : option bytes) (plaintext : bytes)
    : result WrappedKey :=
  if negb (blen plaintext =? dekBytes) || negb (is_nil ctx) then Err [ErrKeyWrapper]
  else match random with
  | None => Err [ErrKeyWrapper]
  | Some nonce =>
    if negb (blen nonce =? nonceBytes) then Err [ErrKeyWrapper]
    else Ok {| wk_KeyID := keyID; wk_KeyVersion := keyVersion;
               wk_Ciphertext := nonce ++ gcm_Seal (master_key wrapper) nonce plaintext (bytes_of keyID) |}
  end.

Definition Wrapper_UnwrapKey (wrapper : Wrapper) (ctx : error) (wrapped : WrappedKey) : result bytes :=
  if negb (is_nil ctx) || (wk_KeyID wrapped <>s keyID) || negb (wk_KeyVersion wrapped =? keyVersion) ||
     negb (blen (wk_Ciphertext wrapped) =? nonceBytes + dekBytes + gcmTagSize)
  then Err [ErrKeyWrapper]
  else
    let nonce := take (Z.to_nat nonceBytes) (wk_Ciphertext wrapped) in
    match gcm_Open (master_key wrapper) nonce (drop (Z.to_nat nonceBytes) (wk_Ciphertext wrapped))
            (bytes_of keyID) with
    | None => Err [ErrKeyWrapper]
    | Some plaintext =>
      if negb (blen plaintext =? dekBytes) then Err [ErrKeyWrapper] else Ok plaintext
    end.
End LocalKey.

#[export] Instance LocalKey_wrapper : KeyWrapper LocalKey.Wrapper := {
  WrapKey := LocalKey.Wrapper_WrapKey;
  UnwrapKey := LocalKey.Wrapper_UnwrapKey
}.

(** ** The AWS KMS key wrapper (awskms/wrapper.go)

    The KMS client is a parameter: [Encrypt ctx random keyID plaintext] and
    [Decrypt ctx keyID ciphertext] under the fixed encryption context. *)

Module AwsKms.
Definition dekBytes : Z := 32.
Definition maxCiphertextBytes : Z := 16 * 1024.

Record Config := {
  KeyID : string;
  KeyVersion : Z;
  KeyIDs : gmap Z string;
  CurrentVersion : Z;
  OperationTimeout : Z
}.

Record Wrapper := { keys : gmap Z string; currentVersion : Z; operationTimeout : Z }.

Definition key_char (char : Z) : bool :=
  ((char >=? 97) && (char <=? 122)) || ((char >=? 65) && (char <=? 90)) ||
  ((char >=? 48) && (char <=? 57)) ||
  existsb (Z.eqb char) [95; 58; 47; 46; 45].

Definition validKeyID (keyID : string) : bool :=
  (TrimSpace keyID =s keyID) && (len keyID >=? 1) && (len keyID <=? 2048) &&
  forallb key_char (runes keyID).

(** A Go map read. *)
Definition key_of (keys : gmap Z string) (version : Z) : string := default "" (keys !! version).

(** [New] with a client supplied. *)
Definition New (config : Config) : result Wrapper :=
  let invalid := Err [ErrText "invalid AWS KMS key wrapper configuration"] in
  let timeout := if OperationTimeout config =? 0 then 10 * Second else OperationTimeout config in
  if (timeout <? Second) || (timeout >? Minute) then invalid
  else if negb (forallb (fun p => negb (p.1 <? 1) && validKeyID p.2) (map_to_list (KeyIDs config))) then invalid
  else
    let single := (KeyID config <>s "") || negb (KeyVersion config =? 0) in
    if single && (negb (bool_decide (KeyIDs config = ∅)) || (KeyVersion config <? 1) ||
                  negb (validKeyID (KeyID config))) then invalid
    else
      let keys := if single then {[KeyVersion config := KeyID config]} else KeyIDs config in
      let current := if single then KeyVersion config else CurrentVersion config in
      if bool_decide (keys = ∅) || (current <? 1) || (key_of keys current =s "") then invalid
      else Ok {| keys := keys; currentVersion := current; operationTimeout := timeout |}.

Section Client.
Context (Encrypt : error -> option bytes -> string -> bytes -> option bytes).
Context (Decrypt : error -> string -> bytes -> option bytes).

Definition Wrapper_WrapKey (wrapper : Wrapper) (ctx : error) (random : option bytes) (plaintextKey : bytes)
    : result WrappedKey :=
  if negb (blen plaintextKey =? dekBytes) then Err [ErrKeyWrapper]
  else
    let keyID := key_of (keys wrapper) (currentVersion wrapper) in
    match Encrypt ctx random keyID plaintextKey with
    | None => Err [ErrKeyWrapper]
    | Some blob =>
      if (blen blob =? 0) || (blen blob >? maxCiphertextBytes) then Err [ErrKeyWrapper]
      else Ok {| wk_KeyID := keyID; wk_KeyVersion := currentVersion wrapper; wk_Ciphertext := blob |}
    end.

Definition Wrapper_UnwrapKey (wrapper : Wrapper) (ctx : error) (wrapped : WrappedKey) : result bytes :=
  if (wk_KeyVersion wrapped <? 1) || (key_of (keys wrapper) (wk_KeyVersion wrapped) <>s wk_KeyID wrapped) ||
     (blen (wk_Ciphertext wrapped) =? 0) || (blen (wk_Ciphertext wrapped) >? maxCiphertextBytes)
  then Err [ErrKeyWrapper]
  else match Decrypt ctx (wk_KeyID wrapped) (wk_Ciphertext wrapped) with
  | None => Err [ErrKeyWrapper]
  | Some plaintext => if negb (blen plaintext =? dekBytes) then Err [ErrKeyWrapper] else Ok plaintext
  end.

Definition wrapper : KeyWrapper Wrapper := {| WrapKey := Wrapper_WrapKey; UnwrapKey := Wrapper_UnwrapKey |}.
End Client.
End AwsKms.
