(* ===== verification/Store.v ===== *)
(** * The relational store (internal/gateway/store/postgres: db.go, types.go, migrations)

    The tables the modelled repository operations touch, one [gmap] per table
    keyed by its primary key, the constraints the schema declares on an insert,
    and the transaction wrapper [inTenant].  A repository call is one atomic
    step: the row locks every statement starts with ([FOR UPDATE] on the
    connection, the lease, the lane, ...) serialise the calls that touch the same
    rows.  [now] is the database clock of the call and every [repository.newID()]
    is an argument. *)

From S2P Require Import Prelude GoText Crypto GoEncoding Domain Session EventContract.

Abbreviation tenant := string.

(** ** Rows *)

Record TenantRow := { tn_Name : string; tn_Status : string; tn_MaxConnections : Z }.

(** [cn_PriorState], [cn_PairingStartedAt] and [cn_PairingAttemptID] are the
    pairing metadata; [cn_TenantSuspendPriorState] belongs to administrative
    suspension. *)
Record ConnectionRow := {
  cn_Name : string;
  cn_State : ConnectionState;
  cn_Fingerprint : option bytes;
  cn_ReauthorizationEventID : option string;
  cn_PriorState : option ConnectionState;
  cn_PairingStartedAt : option Z;
  cn_PairingAttemptID : option string;
  cn_TenantSuspendPriorState : option ConnectionState
}.

Record LeaseRow := { ls_Owner : option string; ls_Token : Z; ls_ExpiresAt : Z }.

Record HealthRow := {
  hl_Token : Z;
  hl_ActorState : string;
  hl_ConnectionState : ConnectionState;
  hl_ConnectedAt : option Z;
  hl_LastFrameAt : option Z;
  hl_LastPhoneResponseAt : option Z;
  hl_ReconnectCount : Z;
  hl_BackoffMicroseconds : Z;
  hl_LastSafeReason : string;
  hl_RequiresReauthorization : bool;
  hl_UpdatedAt : Z
}.

(** [connection_sessions] holds the columns of a [session.Envelope] with its
    revision. *)
Abbreviation SessionRow := Session.Envelope.

Record LaneRow := {
  ln_Token : Z;
  ln_Owner : option string;
  ln_Claimed : option string;
  ln_ExpiresAt : option Z
}.

Record MessageRow := {
  ms_ConnectionID : string;
  ms_ConversationID : string;
  ms_OrderingKey : string;
  ms_Direction : string;
  ms_Recipient : string;
  ms_LineID : option string;
  ms_RouteMode : string;
  ms_Text : string;
  ms_ProviderMessageID : option string;
  ms_ProviderTmpID : option string;
  ms_Transport : string;
  ms_State : MessageState;
  ms_CreatedAt : Z
}.

Inductive Phase := Claimed | ProviderIOStarted | Complete.

#[export] Instance Phase_eq_dec : EqDecision Phase.
Proof. solve_decision. Defined.

Record AttemptRow := {
  at_MessageID : string;
  at_ConnectionID : string;
  at_OrderingKey : string;
  at_Owner : string;
  at_LaneToken : Z;
  at_FencingToken : Z;
  at_Phase : Phase;
  at_SafeResult : string;
  at_CreatedAt : Z;
  at_ProviderIOStartedAt : option Z;
  at_CompletedAt : option Z
}.

Record StatusRow := {
  st_MessageID : string;
  st_State : MessageState;
  st_ProviderStatus : string;
  st_SafeReason : string;
  st_ObservedAt : Z
}.

Record IdempotencyRow := { id_Digest : bytes; id_MessageID : string }.

Record EventRow := {
  er_Type : string;
  er_AggregateType : string;
  er_AggregateID : string;
  er_ConnectionID : option string;
  er_ConversationID : string;
  er_Body : bytes
}.

Record OutboxRow := {
  ob_EventID : string;
  ob_Destination : string;
  ob_AvailableAt : Z;
  ob_ClaimedBy : option string;
  ob_ClaimExpiresAt : option Z;
  ob_AttemptCount : Z;
  ob_PublishedAt : option Z
}.

Record KafkaCommandRow := {
  kc_CommandID : string;
  kc_ProducerIdentity : string;
  kc_IdempotencyKey : string;
  kc_CorrelationID : string;
  kc_PayloadDigest : bytes;
  kc_MessageID : string
}.

Record ConversationRow := {
  cv_DefaultOutgoingID : string;
  cv_IsGroup : bool;
  cv_OrderingKey : string
}.

Record LineRow := { li_ConnectionID : string; li_OutgoingID : string; li_Active : bool }.

(** ** The database *)

Record Db := {
  tenants : gmap string TenantRow;
  connections : gmap (string * string) ConnectionRow;
  leases : gmap (string * string) LeaseRow;
  health : gmap (string * string) HealthRow;
  sessions : gmap (string * string) SessionRow;
  lanes : gmap (string * string * string) LaneRow;
  messages : gmap (string * string) MessageRow;
  attempts : gmap (string * string) AttemptRow;
  statuses : gmap (string * string) StatusRow;
  idempotency : gmap (string * string) IdempotencyRow;
  events : gmap (string * string) EventRow;
  outbox : gmap (string * string) OutboxRow;
  kafka_commands : gmap (string * string * Z * Z) KafkaCommandRow;
  conversations : gmap (string * string * string) ConversationRow;
  lines : gmap (string * string) LineRow;
  media_objects : gmap (string * string) string;
  message_media : gmap (string * string) (list (string * Z))
}.

Definition empty_db : Db := {|
  tenants := ∅; connections := ∅; leases := ∅; health := ∅; sessions := ∅; lanes := ∅; messages
  := ∅; attempts := ∅; statuses := ∅; idempotency := ∅; events := ∅; outbox := ∅; kafka_commands
  := ∅; conversations := ∅; lines := ∅; media_objects := ∅; message_media := ∅ |}.

(** Table updates. *)
Definition set_tenants (t : gmap string TenantRow) (db : Db) : Db := {|
  tenants := t; connections := connections db; leases := leases db; health := health db;
  sessions := sessions db; lanes := lanes db; messages := messages db; attempts := attempts db;
  statuses := statuses db; idempotency := idempotency db; events := events db; outbox := outbox
  db; kafka_commands := kafka_commands db; conversations := conversations db; lines := lines db;
  media_objects := media_objects db; message_media := message_media db |}.
Definition set_connections (t : gmap (string * string) ConnectionRow) (db : Db) : Db := {|
  tenants := tenants db; connections := t; leases := leases db; health := health db; sessions :=
  sessions db; lanes := lanes db; messages := messages db; attempts := attempts db; statuses :=
  statuses db; idempotency := idempotency db; events := events db; outbox := outbox db;
  kafka_commands := kafka_commands db; conversations := conversations db; lines := lines db;
  media_objects := media_objects db; message_media := message_media db |}.
Definition set_leases (t : gmap (string * string) LeaseRow) (db : Db) : Db := {|
  tenants := tenants db; connections := connections db; leases := t; health := health db;
  sessions := sessions db; lanes := lanes db; messages := messages db; attempts := attempts db;
  statuses := statuses db; idempotency := idempotency db; events := events db; outbox := outbox
  db; kafka_commands := kafka_commands db; conversations := conversations db; lines := lines db;
  media_objects := media_objects db; message_media := message_media db |}.
Definition set_health (t : gmap (string * string) HealthRow) (db : Db) : Db := {|
  tenants := tenants db; connections := connections db; leases := leases db; health := t;
  sessions := sessions db; lanes := lanes db; messages := messages db; attempts := attempts db;
  statuses := statuses db; idempotency := idempotency db; events := events db; outbox := outbox
  db; kafka_commands := kafka_commands db; conversations := conversations db; lines := lines db;
  media_objects := media_objects db; message_media := message_media db |}.
Definition set_sessions (t : gmap (string * string) SessionRow) (db : Db) : Db := {|
  tenants := tenants db; connections := connections db; leases := leases db; health := health
  db; sessions := t; lanes := lanes db; messages := messages db; attempts := attempts db;
  statuses := statuses db; idempotency := idempotency db; events := events db; outbox := outbox
  db; kafka_commands := kafka_commands db; conversations := conversations db; lines := lines db;
  media_objects := media_objects db; message_media := message_media db |}.
Definition set_lanes (t : gmap (string * string * string) LaneRow) (db : Db) : Db := {|
  tenants := tenants db; connections := connections db; leases := leases db; health := health
  db; sessions := sessions db; lanes := t; messages := messages db; attempts := attempts db;
  statuses := statuses db; idempotency := idempotency db; events := events db; outbox := outbox
  db; kafka_commands := kafka_commands db; conversations := conversations db; lines := lines db;
  media_objects := media_objects db; message_media := message_media db |}.
Definition set_messages (t : gmap (string * string) MessageRow) (db : Db) : Db := {|
  tenants := tenants db; connections := connections db; leases := leases db; health := health
  db; sessions := sessions db; lanes := lanes db; messages := t; attempts := attempts db;
  statuses := statuses db; idempotency := idempotency db; events := events db; outbox := outbox
  db; kafka_commands := kafka_commands db; conversations := conversations db; lines := lines db;
  media_objects := media_objects db; message_media := message_media db |}.
Definition set_attempts (t : gmap (string * string) AttemptRow) (db : Db) : Db := {|
  tenants := tenants db; connections := connections db; leases := leases db; health := health
  db; sessions := sessions db; lanes := lanes db; messages := messages db; attempts := t;
  statuses := statuses db; idempotency := idempotency db; events := events db; outbox := outbox
  db; kafka_commands := kafka_commands db; conversations := conversations db; lines := lines db;
  media_objects := media_objects db; message_media := message_media db |}.
Definition set_statuses (t : gmap (string * string) StatusRow) (db : Db) : Db := {|
  tenants := tenants db; connections := connections db; leases := leases db; health := health
  db; sessions := sessions db; lanes := lanes db; messages := messages db; attempts := attempts
  db; statuses := t; idempotency := idempotency db; events := events db; outbox := outbox db;
  kafka_commands := kafka_commands db; conversations := conversations db; lines := lines db;
  media_objects := media_objects db; message_media := message_media db |}.
Definition set_idempotency (t : gmap (string * string) IdempotencyRow) (db : Db) : Db := {|
  tenants := tenants db; connections := connections db; leases := leases db; health := health
  db; sessions := sessions db; lanes := lanes db; messages := messages db; attempts := attempts
  db; statuses := statuses db; idempotency := t; events := events db; outbox := outbox db;
  kafka_commands := kafka_commands db; conversations := conversations db; lines := lines db;
  media_objects := media_objects db; message_media := message_media db |}.
Definition set_events (t : gmap (string * string) EventRow) (db : Db) : Db := {|
  tenants := tenants db; connections := connections db; leases := leases db; health := health
  db; sessions := sessions db; lanes := lanes db; messages := messages db; attempts := attempts
  db; statuses := statuses db; idempotency := idempotency db; events := t; outbox := outbox db;
  kafka_commands := kafka_commands db; conversations := conversations db; lines := lines db;
  media_objects := media_objects db; message_media := message_media db |}.
Definition set_outbox (t : gmap (string * string) OutboxRow) (db : Db) : Db := {|
  tenants := tenants db; connections := connections db; leases := leases db; health := health
  db; sessions := sessions db; lanes := lanes db; messages := messages db; attempts := attempts
  db; statuses := statuses db; idempotency := idempotency db; events := events db; outbox := t;
  kafka_commands := kafka_commands db; conversations := conversations db; lines := lines db;
  media_objects := media_objects db; message_media := message_media db |}.
Definition set_kafka_commands (t : gmap (string * string * Z * Z) KafkaCommandRow) (db : Db) : Db := {|
  tenants := tenants db; connections := connections db; leases := leases db; health := health
  db; sessions := sessions db; lanes := lanes db; messages := messages db; attempts := attempts
  db; statuses := statuses db; idempotency := idempotency db; events := events db; outbox :=
  outbox db; kafka_commands := t; conversations := conversations db; lines := lines db;
  media_objects := media_objects db; message_media := message_media db |}.
Definition set_conversations (t : gmap (string * string * string) ConversationRow) (db : Db) : Db := {|
  tenants := tenants db; connections := connections db; leases := leases db; health := health
  db; sessions := sessions db; lanes := lanes db; messages := messages db; attempts := attempts
  db; statuses := statuses db; idempotency := idempotency db; events := events db; outbox :=
  outbox db; kafka_commands := kafka_commands db; conversations := t; lines := lines db;
  media_objects := media_objects db; message_media := message_media db |}.
Definition set_lines (t : gmap (string * string) LineRow) (db : Db) : Db := {|
  tenants := tenants db; connections := connections db; leases := leases db; health := health
  db; sessions := sessions db; lanes := lanes db; messages := messages db; attempts := attempts
  db; statuses := statuses db; idempotency := idempotency db; events := events db; outbox :=
  outbox db; kafka_commands := kafka_commands db; conversations := conversations db; lines := t;
  media_objects := media_objects db; message_media := message_media db |}.
Definition set_media_objects (t : gmap (string * string) string) (db : Db) : Db := {|
  tenants := tenants db; connections := connections db; leases := leases db; health := health
  db; sessions := sessions db; lanes := lanes db; messages := messages db; attempts := attempts
  db; statuses := statuses db; idempotency := idempotency db; events := events db; outbox :=
  outbox db; kafka_commands := kafka_commands db; conversations := conversations db; lines :=
  lines db; media_objects := t; message_media := message_media db |}.
Definition set_message_media (t : gmap (string * string) (list (string * Z))) (db : Db) : Db := {|
  tenants := tenants db; connections := connections db; leases := leases db; health := health
  db; sessions := sessions db; lanes := lanes db; messages := messages db; attempts := attempts
  db; statuses := statuses db; idempotency := idempotency db; events := events db; outbox :=
  outbox db; kafka_commands := kafka_commands db; conversations := conversations db; lines :=
  lines db; media_objects := media_objects db; message_media := t |}.

(** ** Transactions

    [inTenant]: an empty tenant is refused, an error rolls everything back. *)
Definition inTenant {S T} (tenantID : tenant) (operation : S -> result (S * T)) (db : S)
    : S * result T :=
  if tenantID =s "" then (db, Err [ErrInvalidTenantID])
  else match operation db with
  | Err e => (db, Err e)
  | Ok (db', v) => (db', Ok v)
  end.

Definition has_connection (db : Db) (t : tenant) (c : string) : bool :=
  bool_decide (is_Some (connections db !! (t, c))).

(** A fenced statement: the caller's lease row, alive under its owner and token. *)
Definition owned_lease (db : Db) (t : tenant) (c : string) (owner : string) (token : Z) (now : Z) : bool :=
  has_connection db t c &&
  match leases db !! (t, c) with
  | Some l => bool_decide (ls_Owner l = Some owner) && (ls_Token l =? token) && (ls_ExpiresAt l >? now)
  | None => false
  end.

Lemma inTenant_error {S T} t op (db db' : S) e :
  @inTenant S T t op db = (db', Err e) -> db' = db.
Proof. unfold inTenant. destruct (t =s ""); [congruence|]. destruct (op db) as [[]|]; congruence. Qed.

Lemma inTenant_ok {S T} t op (db db' : S) v :
  @inTenant S T t op db = (db', Ok v) -> op db = Ok (db', v).
Proof. unfold inTenant. destruct (t =s ""); [congruence|]. destruct (op db) as [[]|]; congruence. Qed.

Lemma inTenant_cases {S T} t op (db db' : S) r :
  @inTenant S T t op db = (db', r) ->
  (db' = db /\ exists e, r = Err e) \/ (exists v, r = Ok v /\ op db = Ok (db', v)).
Proof.
  intros H. destruct r as [v|e].
  - right. exists v. split; [done|]. by eapply inTenant_ok.
  - left. split; [by eapply inTenant_error | eauto].
Qed.

(** An insert under a primary key. *)
Definition insert_unique {K V} `{Countable K} (m : gmap K V) (k : K) (v : V) : result (gmap K V) :=
  match m !! k with
  | Some _ => Err [ErrText "duplicate key value violates unique constraint"]
  | None => Ok (<[k := v]> m)
  end.

Definition foreign_key (b : bool) : result unit :=
  if b then Ok tt else Err [ErrText "violates foreign key constraint"].
Definition check_constraint (b : bool) : result unit :=
  if b then Ok tt else Err [ErrText "violates check constraint"].

(** CHECK constraints of [connections] (migrations 0004 and 0016). *)
Definition fingerprint_matches_state (c : ConnectionRow) : bool :=
  let exact := match cn_Fingerprint c with Some f => blen f =? 32 | None => false end in
  let absent := bool_decide (cn_Fingerprint c = None) in
  match cn_State c with
  | ConnectionStateUnpaired => absent
  | ConnectionStatePairing => absent || exact
  | ConnectionStateSuspended =>
      exact || (bool_decide (cn_TenantSuspendPriorState c = Some ConnectionStateUnpaired) && absent)
  | ConnectionStateConnected | ConnectionStateDegraded | ConnectionStateReauthorizationRequired
  | ConnectionStateDisconnected => exact
  | ConnectionStateOther _ => false
  end.

Definition reauthorization_event_required (c : ConnectionRow) : bool :=
  negb (bool_decide (cn_State c = ConnectionStateReauthorizationRequired)) ||
  match cn_ReauthorizationEventID c with
  | Some e => existsb (fun b => negb (byte_val b =? 32)) (bytes_of e)
  | None => false
  end.

Definition pairing_identifier_char (c : ascii) : bool :=
  let x := byte_val c in
  between 48 57 x || between 65 90 x || between 97 122 x || (x =? 45) || (x =? 95).

Definition pairing_prior_ok (c : ConnectionRow) : bool :=
  match cn_PriorState c with
  | Some ConnectionStateUnpaired | Some ConnectionStateReauthorizationRequired => true
  | _ => false
  end.

Definition pairing_metadata_required (c : ConnectionRow) : bool :=
  if bool_decide (cn_State c = ConnectionStatePairing) then
    match cn_PairingAttemptID c with
    | Some id => (8 <=? len id) && (len id <=? 128) && forallb pairing_identifier_char (bytes_of id)
    | None => false
    end && pairing_prior_ok c && bool_decide (cn_PairingStartedAt c <> None)
  else bool_decide (cn_PairingAttemptID c = None) && bool_decide (cn_PriorState c = None) &&
       bool_decide (cn_PairingStartedAt c = None).

Definition connection_row_ok (c : ConnectionRow) : bool :=
  is_ok (ConnectionState_Validate (cn_State c)) && fingerprint_matches_state c &&
  reauthorization_event_required c && pairing_metadata_required c &&
  (bool_decide (cn_TenantSuspendPriorState c = None) ||
   bool_decide (cn_State c = ConnectionStateSuspended)).

(** [UNIQUE (tenant_id, provider_device_fingerprint)]. *)
Definition fingerprint_taken (db : Db) (t : tenant) (c : string) (f : option bytes) : bool :=
  match f with
  | None => false
  | Some f => existsb (fun p => (p.1.1 =s t) && (p.1.2 <>s c) && bool_decide (cn_Fingerprint p.2 = Some f))
                (map_to_list (connections db))
  end.

(** An insert or update of a connection row: the tenant exists and every
    constraint holds of the new row. *)
Definition put_connection (t : tenant) (c : string) (row : ConnectionRow) (db : Db) : result Db :=
  let! _ := foreign_key (bool_decide (is_Some (tenants db !! t))) in
  let! _ := check_constraint (connection_row_ok row) in
  let! _ := check_constraint (negb (fingerprint_taken db t c (cn_Fingerprint row))) in
  Ok (set_connections (<[(t, c) := row]> (connections db)) db).

(** [timestamptz] keeps microseconds. *)
Definition pg_timestamp (t : Z) : Z := (t + 500) / 1000 * 1000.

Definition NULLIF_empty (s : string) : option string := if s =s "" then None else Some s.

(** ** Events and outbox (messages.go: insertGatewayEventSQL, insertEventOutboxSQL) *)

Definition insertGatewayEvent (t : tenant) (eventID eventType aggregateType aggregateID connectionID
    conversationID : string) (body : bytes) (db : Db) : result Db :=
  let! _ := foreign_key ((connectionID =s "") || has_connection db t connectionID) in
  let! _ := check_constraint (blen body <=? 1048576) in
  let! events' := insert_unique (events db) (t, eventID)
    {| er_Type := eventType; er_AggregateType := aggregateType; er_AggregateID := aggregateID;
       er_ConnectionID := NULLIF_empty connectionID; er_ConversationID := conversationID;
       er_Body := body |} in
  Ok (set_events events' db).

Definition outbox_row (eventID destination : string) (now : Z) : OutboxRow := {|
  ob_EventID := eventID; ob_Destination := destination; ob_AvailableAt := now;
  ob_ClaimedBy := None; ob_ClaimExpiresAt := None; ob_AttemptCount := 0; ob_PublishedAt := None |}.

(** UNIQUE (tenant_id, event_id, destination). *)
Definition outbox_has (db : Db) (t : tenant) (eventID destination : string) : bool :=
  existsb (fun p => (p.1.1 =s t) && (ob_EventID p.2 =s eventID) && (ob_Destination p.2 =s destination))
    (map_to_list (outbox db)).

Definition insert_outbox_row (t : tenant) (outboxID eventID destination : string) (now : Z) (db : Db)
    : result Db :=
  let! _ := foreign_key (bool_decide (is_Some (events db !! (t, eventID)))) in
  let! _ := check_constraint (negb (outbox_has db t eventID destination)) in
  let! outbox' := insert_unique (outbox db) (t, outboxID) (outbox_row eventID destination now) in
  Ok (set_outbox outbox' db).

Definition insertEventOutbox (t : tenant) (outboxID eventID : string) (now : Z) (db : Db) : result Db :=
  let! db1 := insert_outbox_row t (outboxID +:+ ":webhook") eventID "webhook" now db in
  insert_outbox_row t (outboxID +:+ ":kafka") eventID "kafka" now db1.

(** ** Status history (insertMessageStatusSQL, listMessageStatesSQL) *)

Definition insertMessageStatus (t : tenant) (statusID messageID : string) (state : MessageState)
    (providerStatus safeReason : string) (now : Z) (db : Db) : result Db :=
  let! _ := foreign_key (bool_decide (is_Some (messages db !! (t, messageID)))) in
  let! _ := check_constraint (is_ok (MessageState_Validate state)) in
  let! statuses' := insert_unique (statuses db) (t, statusID)
    {| st_MessageID := messageID; st_State := state; st_ProviderStatus := providerStatus;
       st_SafeReason := safeReason; st_ObservedAt := now |} in
  Ok (set_statuses statuses' db).

Definition status_le (a b : (string * string) * StatusRow) : Prop :=
  st_ObservedAt a.2 < st_ObservedAt b.2 \/
  st_ObservedAt a.2 = st_ObservedAt b.2 /\ String.le a.1.2 b.1.2.

#[export] Instance status_le_dec a b : Decision (status_le a b).
Proof. unfold status_le. apply _. Defined.

Definition message_statuses (db : Db) (t : tenant) (messageID : string)
    : list ((string * string) * StatusRow) :=
  List.filter (fun p => (p.1.1 =s t) && (st_MessageID p.2 =s messageID)) (map_to_list (statuses db)).

(** [ORDER BY observed_at, status_id]. *)
Definition loadMessageStateHistory (db : Db) (t : tenant) (messageID : string) : list MessageState :=
  (fun p => st_State p.2) <$> merge_sort status_le (message_statuses db t messageID).

(** ** What an insert does *)

Lemma insert_unique_ok {K V} `{Countable K} (m m' : gmap K V) k v :
  insert_unique m k v = Ok m' -> m !! k = None /\ m' = <[k := v]> m.
Proof. unfold insert_unique. destruct (m !! k) eqn:E; [done|]. intros [= <-]. auto. Qed.

(** Unfolds a chain of fallible steps in [H]. *)
Ltac bind_ok H := repeat (let Hn := fresh "Hstep" in apply result_bind_ok in H as (? & Hn & H)).

Lemma insertGatewayEvent_ok t e ty at_ ai c cv body db db' :
  insertGatewayEvent t e ty at_ ai c cv body db = Ok db' ->
  events db !! (t, e) = None /\
  db' = set_events (<[(t, e) := {| er_Type := ty; er_AggregateType := at_; er_AggregateID := ai;
    er_ConnectionID := NULLIF_empty c; er_ConversationID := cv; er_Body := body |}]> (events db)) db.
Proof.
  unfold insertGatewayEvent. intros H. bind_ok H. injection H as <-.
  match goal with Hi : insert_unique _ _ _ = _ |- _ => apply insert_unique_ok in Hi as [? ->] end. done.
Qed.

Lemma insert_outbox_row_ok t o e d now db db' :
  insert_outbox_row t o e d now db = Ok db' ->
  is_Some (events db !! (t, e)) /\ outbox db !! (t, o) = None /\
  db' = set_outbox (<[(t, o) := outbox_row e d now]> (outbox db)) db.
Proof.
  unfold insert_outbox_row. intros H. bind_ok H. injection H as <-.
  match goal with Hi : insert_unique _ _ _ = _ |- _ => apply insert_unique_ok in Hi as [? ->] end.
  split; [|done]. unfold foreign_key in *.
  destruct (bool_decide (is_Some (events db !! (t, e)))) eqn:E; [by reflect_bools | done].
Qed.

Lemma insertEventOutbox_ok t o e now db db' :
  insertEventOutbox t o e now db = Ok db' ->
  is_Some (events db !! (t, e)) /\
  outbox db !! (t, o +:+ ":webhook") = None /\ outbox db !! (t, o +:+ ":kafka") = None /\
  db' = set_outbox (<[(t, o +:+ ":kafka") := outbox_row e "kafka" now]>
          (<[(t, o +:+ ":webhook") := outbox_row e "webhook" now]> (outbox db))) db.
Proof.
  unfold insertEventOutbox. intros (db1 & (He & Hw & ->)%insert_outbox_row_ok & H)%result_bind_ok.
  apply insert_outbox_row_ok in H as (_ & Hk & ->). split_and!; [done..| |done].
  simpl in Hk. by apply lookup_insert_None in Hk as [? _].
Qed.

Lemma insertMessageStatus_ok t s m st ps sr now db db' :
  insertMessageStatus t s m st ps sr now db = Ok db' ->
  is_Some (messages db !! (t, m)) /\ statuses db !! (t, s) = None /\
  db' = set_statuses (<[(t, s) := {| st_MessageID := m; st_State := st; st_ProviderStatus := ps;
    st_SafeReason := sr; st_ObservedAt := now |}]> (statuses db)) db.
Proof.
  unfold insertMessageStatus. intros H. bind_ok H. injection H as <-.
  match goal with Hi : insert_unique _ _ _ = _ |- _ => apply insert_unique_ok in Hi as [? ->] end.
  split; [|done]. unfold foreign_key in *.
  destruct (bool_decide (is_Some (messages db !! (t, m)))) eqn:E; [by reflect_bools | done].
Qed.

Lemma put_connection_ok t c row db db' :
  put_connection t c row db = Ok db' ->
  connection_row_ok row = true /\ db' = set_connections (<[(t, c) := row]> (connections db)) db.
Proof.
  unfold put_connection. intros H. bind_ok H. injection H as <-. split; [|done].
  unfold check_constraint in *. by destruct (connection_row_ok row).
Qed.
