(* ===== verification/Connections.v ===== *)
(** * Connection rows (internal/gateway/store/postgres/connections.go)

    The authorization life cycle of a connection row (pairing, reauthorization,
    transitions), its encrypted session under a revision, and the
    reauthorization event with its outbox rows. *)

From S2P Require Import Prelude GoText Crypto GoEncoding Domain Session EventContract Store.

Definition sha256_Size : Z := 32.
Definition DefaultMaxConnectionsPerTenant : Z := 128.

(** ** Pairing identifiers (pairing/service.go), shared with the repository *)

Definition PairingIDMinLength : Z := 8.
Definition PairingIDMaxLength : Z := 128.
Definition maxAttemptTTL : Z := 24 * Hour.

Definition ValidAttemptTTL (ttl : Z) : bool := (ttl >? 0) && (ttl <=? maxAttemptTTL).

Definition pairing_rune (char : Z) : bool :=
  between 97 122 char || between 65 90 char || between 48 57 char || (char =? 45) || (char =? 95).

Definition ValidPairingID (value : string) : bool :=
  if (len value <? PairingIDMinLength) || (len value >? PairingIDMaxLength) then false
  else forallb pairing_rune (runes value).

(** ** Connections *)

Definition validFingerprintForState (state : ConnectionState) (fingerprint : bytes) : bool :=
  match state with
  | ConnectionStateUnpaired => blen fingerprint =? 0
  | ConnectionStatePairing => (blen fingerprint =? 0) || (blen fingerprint =? sha256_Size)
  | _ => blen fingerprint =? sha256_Size
  end.

Record ConnectionRecord := { rec_Connection : Connection; rec_Fingerprint : bytes }.

Definition connection_count (db : Db) (t : tenant) : Z :=
  blen (List.filter (fun p => p.1.1 =s t) (map_to_list (connections db))).

Definition SaveConnection (tenantID : tenant) (record : ConnectionRecord) (db : Db) : Db * result unit :=
  let connection := rec_Connection record in
  if tenantID =s "" then (db, Err [ErrInvalidTenantID])
  else if conn_ID connection =s "" then (db, Err [ErrInvalidIdentifier])
  else if conn_TenantID connection <>s tenantID then (db, Err [ErrTenantBoundary])
  else match ConnectionState_Validate (conn_State connection) with
  | Err e => (db, Err e)
  | Ok _ =>
    if bool_decide (conn_State connection = ConnectionStatePairing) ||
       bool_decide (conn_State connection = ConnectionStateReauthorizationRequired)
    then (db, Err [ErrPairingConnectionState])
    else if negb (validFingerprintForState (conn_State connection) (rec_Fingerprint record))
    then (db, Err [ErrText "invalid provider device fingerprint"])
    else inTenant tenantID (fun db =>
      let key := (tenantID, conn_ID connection) in
      match tenants db !! tenantID with
      | None => Err [ErrText "check connection quota"]
      | Some tn =>
        if tn_Status tn =s "suspended" then Err [ErrText "tenant is suspended"]
        else if tn_Status tn <>s "active" then Err [ErrText "stored tenant status is invalid"]
        else if (tn_MaxConnections tn <? 1) || (tn_MaxConnections tn >? DefaultMaxConnectionsPerTenant)
        then Err [ErrText "stored tenant connection quota is invalid"]
        else if bool_decide (connections db !! key = None) &&
                (connection_count db tenantID >=? tn_MaxConnections tn)
        then Err [ErrText "tenant connection quota exceeded"]
        else
          let fingerprint := match rec_Fingerprint record with [] => None | f => Some f end in
          let fresh := {|
            cn_Name := conn_Name connection; cn_State := conn_State connection;
            cn_Fingerprint := fingerprint; cn_ReauthorizationEventID := None; cn_PriorState := None;
            cn_PairingStartedAt := None; cn_PairingAttemptID := None;
            cn_TenantSuspendPriorState := None |} in
          let createOnly := bool_decide (conn_State connection = ConnectionStateUnpaired) &&
                            bool_decide (fingerprint = None) in
          let! db' := match connections db !! key with
          | None => put_connection tenantID (conn_ID connection) fresh db
          | Some old =>
            if createOnly then Err [ErrText "duplicate key value violates unique constraint"]
            else put_connection tenantID (conn_ID connection) {|
              cn_Name := conn_Name connection; cn_State := conn_State connection;
              cn_Fingerprint := fingerprint;
              cn_ReauthorizationEventID := cn_ReauthorizationEventID old;
              cn_PriorState := cn_PriorState old; cn_PairingStartedAt := cn_PairingStartedAt old;
              cn_PairingAttemptID := cn_PairingAttemptID old;
              cn_TenantSuspendPriorState := cn_TenantSuspendPriorState old |} db
          end in
          Ok (db', tt)
      end) db
  end.

Definition GetConnection (tenantID connectionID : string) (db : Db) : Db * result Connection :=
  if tenantID =s "" then (db, Err [ErrInvalidTenantID])
  else if connectionID =s "" then (db, Err [ErrInvalidIdentifier])
  else inTenant tenantID (fun db =>
    match connections db !! (tenantID, connectionID) with
    | None => Err [ErrConnectionNotFound]
    | Some c =>
      let! _ := ConnectionState_Validate (cn_State c) in
      Ok (db, {| conn_ID := connectionID; conn_TenantID := tenantID; conn_Name := cn_Name c;
                 conn_State := cn_State c |})
    end) db.

(** [connection_sessions.revision] is a bigint. *)
Definition next_revision (r : Z) : result Z :=
  if r + 1 >? max_int64 then Err [ErrText "bigint out of range"] else Ok (r + 1).

Definition with_revision (e : Session.Envelope) (r : Z) : SessionRow := {|
  en_Revision := r; en_Version := en_Version e; en_Provider := en_Provider e;
  en_Ciphertext := en_Ciphertext e; en_WrappedDEK := en_WrappedDEK e; en_Nonce := en_Nonce e;
  en_KeyID := en_KeyID e; en_KeyVersion := en_KeyVersion e |}.

(** saveEncryptedSessionSQL and commitEncryptedSessionSQL: insert at revision 1
    or replace under the next revision. *)
Definition upsert_session (t : tenant) (c : string) (envelope : Session.Envelope) (db : Db) : result Db :=
  let! _ := foreign_key (has_connection db t c) in
  let! r := match sessions db !! (t, c) with
            | None => Ok 1
            | Some old => next_revision (en_Revision old)
            end in
  Ok (set_sessions (<[(t, c) := with_revision envelope r]> (sessions db)) db).

Definition SaveEncryptedSession (tenantID connectionID : string) (session : Session.Envelope) (db : Db)
    : Db * result unit :=
  if tenantID =s "" then (db, Err [ErrInvalidTenantID])
  else if connectionID =s "" then (db, Err [ErrInvalidIdentifier])
  else if negb (is_ok (Envelope_Validate session)) then (db, Err [ErrInvalidEncryptedSession])
  else inTenant tenantID (fun db =>
    let! db' := upsert_session tenantID connectionID session db in Ok (db', tt)) db.

Definition LoadEncryptedSession (tenantID connectionID : string) (db : Db) : Db * result Session.Envelope :=
  if connectionID =s "" then (db, Err [ErrInvalidIdentifier])
  else inTenant tenantID (fun db =>
    match sessions db !! (tenantID, connectionID) with
    | None => Err [ErrText "encrypted session not found"]
    | Some s =>
      if negb (is_ok (Envelope_Validate s)) then Err [ErrInvalidEncryptedSession] else Ok (db, s)
    end) db.

(** The update both compare-and-swap statements make. *)
Definition swap_session (t : tenant) (c : string) (expectedRevision : Z) (envelope : Session.Envelope)
    (db : Db) : result (Db * bool) :=
  match sessions db !! (t, c) with
  | Some old =>
    if en_Revision old =? expectedRevision then
      let! r := next_revision (en_Revision old) in
      Ok (set_sessions (<[(t, c) := with_revision envelope r]> (sessions db)) db, true)
    else Ok (db, false)
  | None => Ok (db, false)
  end.

Definition CompareAndSwapEncryptedSession (tenantID connectionID : string) (expectedRevision : Z)
    (envelope : Session.Envelope) (db : Db) : Db * result bool :=
  if (tenantID =s "") || (connectionID =s "") || (expectedRevision =? 0) ||
     negb (is_ok (Envelope_Validate envelope))
  then (db, Err [ErrInvalidEncryptedSession])
  else inTenant tenantID (swap_session tenantID connectionID expectedRevision envelope) db.

(** ** State transitions *)

Definition with_state (c : ConnectionRow) (state : ConnectionState) : ConnectionRow := {|
  cn_Name := cn_Name c; cn_State := state; cn_Fingerprint := cn_Fingerprint c;
  cn_ReauthorizationEventID := cn_ReauthorizationEventID c; cn_PriorState := cn_PriorState c;
  cn_PairingStartedAt := cn_PairingStartedAt c; cn_PairingAttemptID := cn_PairingAttemptID c;
  cn_TenantSuspendPriorState := cn_TenantSuspendPriorState c |}.

Definition TransitionConnection (tenantID connectionID : string) (from : list ConnectionState)
    (to : ConnectionState) (db : Db) : Db * result unit :=
  if (tenantID =s "") || (connectionID =s "") || is_nil from ||
     negb (is_ok (ConnectionState_Validate to)) || bool_decide (to = ConnectionStatePairing) ||
     bool_decide (to = ConnectionStateReauthorizationRequired)
  then (db, Err [ErrPairingConnectionState])
  else if negb (forallb (fun s => is_ok (ConnectionState_Validate s)) from)
  then (db, Err [ErrPairingConnectionState])
  else inTenant tenantID (fun db =>
    match connections db !! (tenantID, connectionID) with
    | Some c =>
      if bool_decide (cn_State c ∈ from) then
        let! db' := put_connection tenantID connectionID (with_state c to) db in Ok (db', tt)
      else Err [ErrPairingConnectionState]
    | None => Err [ErrPairingConnectionState]
    end) db.

(** The pairing metadata set by beginPairingSQL. *)
Definition pairing_row (c : ConnectionRow) (prior : ConnectionState) (attemptID : string) (now : Z)
    : ConnectionRow := {|
  cn_Name := cn_Name c; cn_State := ConnectionStatePairing; cn_Fingerprint := cn_Fingerprint c;
  cn_ReauthorizationEventID := cn_ReauthorizationEventID c; cn_PriorState := Some prior;
  cn_PairingStartedAt := Some now; cn_PairingAttemptID := Some attemptID;
  cn_TenantSuspendPriorState := cn_TenantSuspendPriorState c |}.

(** The metadata cleared, as restorePairingSQL and commitConnectionStateSQL do. *)
Definition unpairing_row (c : ConnectionRow) (state : ConnectionState) (fingerprint : option bytes)
    (event : option string) : ConnectionRow := {|
  cn_Name := cn_Name c; cn_State := state; cn_Fingerprint := fingerprint;
  cn_ReauthorizationEventID := event; cn_PriorState := None; cn_PairingStartedAt := None;
  cn_PairingAttemptID := None; cn_TenantSuspendPriorState := cn_TenantSuspendPriorState c |}.

Definition pairing_startable (state : ConnectionState) : bool :=
  match state with
  | ConnectionStateUnpaired | ConnectionStateReauthorizationRequired => true
  | _ => false
  end.

(** An abandoned pairing: older than [ttl], with a state to return to. *)
Definition pairing_stale (c : ConnectionRow) (ttl now : Z) : bool :=
  bool_decide (cn_State c = ConnectionStatePairing) &&
  match cn_PairingStartedAt c with
  | Some started => started <? now - ttl / 1000 * 1000
  | None => false
  end && pairing_prior_ok c.

Definition BeginPairing (tenantID connectionID attemptID : string) (ttl now : Z) (db : Db)
    : Db * result ConnectionState :=
  if (tenantID =s "") || (connectionID =s "") || negb (ValidPairingID attemptID) ||
     negb (ValidAttemptTTL ttl)
  then (db, Err [ErrPairingConnectionState])
  else inTenant tenantID (fun db =>
    match tenants db !! tenantID with
    | None => Err [ErrText "tenant is suspended"]
    | Some tn =>
      if tn_Status tn <>s "active" then Err [ErrText "tenant is suspended"]
      else match connections db !! (tenantID, connectionID) with
      | None => Err [ErrPairingConnectionState]
      | Some c =>
        if pairing_startable (cn_State c) || pairing_stale c ttl now then
          let prior := if bool_decide (cn_State c = ConnectionStatePairing)
                       then default (cn_State c) (cn_PriorState c) else cn_State c in
          let! db' := put_connection tenantID connectionID (pairing_row c prior attemptID now) db in
          Ok (db', prior)
        else if bool_decide (cn_State c = ConnectionStatePairing) then Err [ErrAttemptActive]
        else Err [ErrPairingConnectionState]
      end
    end) db.

Definition RestorePairing (tenantID connectionID attemptID : string) (db : Db)
    : Db * result ConnectionState :=
  if (tenantID =s "") || (connectionID =s "") || negb (ValidPairingID attemptID)
  then (db, Err [ErrPairingConnectionState])
  else inTenant tenantID (fun db =>
    match connections db !! (tenantID, connectionID) with
    | None => Err [ErrAttemptSuperseded]
    | Some c =>
      match cn_PriorState c with
      | Some prior =>
        if bool_decide (cn_State c = ConnectionStatePairing) &&
           bool_decide (cn_PairingAttemptID c = Some attemptID) && pairing_prior_ok c then
          let! db' := put_connection tenantID connectionID
            (unpairing_row c prior (cn_Fingerprint c) (cn_ReauthorizationEventID c)) db in
          Ok (db', prior)
        else Err [ErrAttemptSuperseded]
      | None => Err [ErrAttemptSuperseded]
      end
    end) db.

(** reconcileStalePairingsSQL on one row of the tenant. *)
Definition reconcile_stale_row (t : tenant) (ttl now : Z) (acc : result (Db * Z))
    (row : (string * string) * ConnectionRow) : result (Db * Z) :=
  let! st := acc in
  let '((t', c), r) := row in
  match cn_PriorState r with
  | Some prior =>
    if (t' =s t) && pairing_stale r ttl now then
      let! db' := put_connection t c
        (unpairing_row r prior (cn_Fingerprint r) (cn_ReauthorizationEventID r)) st.1 in
      Ok (db', st.2 + 1)
    else Ok st
  | None => Ok st
  end.

Definition ReconcileStalePairings (tenantID : tenant) (ttl now : Z) (db : Db) : Db * result Z :=
  if (tenantID =s "") || negb (ValidAttemptTTL ttl) then (db, Err [ErrPairingConnectionState])
  else inTenant tenantID (fun db =>
    fold_left (reconcile_stale_row tenantID ttl now) (map_to_list (connections db)) (Ok (db, 0))) db.

Definition CommitPairedSession (tenantID connectionID attemptID : string) (envelope : Session.Envelope)
    (fingerprint : bytes) (db : Db) : Db * result unit :=
  if (tenantID =s "") || (connectionID =s "") || negb (ValidPairingID attemptID) ||
     negb (is_ok (Envelope_Validate envelope)) || negb (blen fingerprint =? sha256_Size)
  then (db, Err [ErrInvalidEncryptedSession])
  else inTenant tenantID (fun db =>
    let! db1 := upsert_session tenantID connectionID envelope db in
    match connections db1 !! (tenantID, connectionID) with
    | Some c =>
      if bool_decide (cn_State c = ConnectionStatePairing) &&
         bool_decide (cn_PairingAttemptID c = Some attemptID) then
        let! db2 := put_connection tenantID connectionID
          (unpairing_row c ConnectionStateConnected (Some fingerprint) None) db1 in
        Ok (db2, tt)
      else Err [ErrAttemptSuperseded]
    | None => Err [ErrAttemptSuperseded]
    end) db.

(** ** Reauthorization *)

Definition reauthorization_type : string := "connection.reauthorization_required".

Definition reauthorization_envelope (tenantID connectionID eventID : string) (wall : Z) : Envelope := {|
  ev_EventID := eventID; ev_Type := reauthorization_type; ev_Version := 0; ev_OccurredAt := wall;
  ev_OccurredAtText := ""; ev_IngestedAt := time_zero; ev_IngestedAtText := "";
  ev_TenantID := tenantID; ev_ConnectionID := connectionID; ev_ConversationID := "";
  ev_MessageID := ""; ev_ProviderMessageID := ""; ev_ProviderTmpID := ""; ev_Direction := "";
  ev_Provenance := ""; ev_ProviderStatus := ""; ev_Actionable := false; ev_Sender := "";
  ev_Recipients := []; ev_Text := ""; ev_Transport := "";
  ev_Status := "reauthorization-required"; ev_State := "reauthorization-required";
  ev_MediaID := ""; ev_MetadataPath := ""; ev_ContentPath := ""; ev_Media := [];
  ev_ProviderResponseID := ""; ev_Reason := ""; ev_Data := [] |}.

(** [ON CONFLICT (tenant_id, event_id, destination) DO NOTHING] for one destination. *)
Definition ensure_outbox_row (t : tenant) (outboxID eventID destination : string) (now : Z) (db : Db)
    : result Db :=
  if outbox_has db t eventID destination then Ok db
  else insert_outbox_row t outboxID eventID destination now db.

Definition insertReauthorizationEvent (tenantID connectionID eventID : string) (wall now : Z) (db : Db)
    : result Db :=
  let! body := Marshal (reauthorization_envelope tenantID connectionID eventID wall) in
  let! db1 := match events db !! (tenantID, eventID) with
              | Some _ => Ok db
              | None => insertGatewayEvent tenantID eventID reauthorization_type "connection"
                          connectionID connectionID "" body db
              end in
  match events db1 !! (tenantID, eventID) with
  | None => Err [SqlErrNoRows]
  | Some stored =>
    if (er_Type stored <>s reauthorization_type) || (er_AggregateType stored <>s "connection") ||
       (er_AggregateID stored <>s connectionID) ||
       (default "" (er_ConnectionID stored) <>s connectionID)
    then Err [ErrText "reauthorization event identity conflict"]
    else
      let! db2 := ensure_outbox_row tenantID (eventID +:+ ":webhook") eventID "webhook" now db1 in
      ensure_outbox_row tenantID (eventID +:+ ":kafka") eventID "kafka" now db2
  end.

Definition with_reauthorization (c : ConnectionRow) (eventID : string) : ConnectionRow := {|
  cn_Name := cn_Name c; cn_State := ConnectionStateReauthorizationRequired;
  cn_Fingerprint := cn_Fingerprint c; cn_ReauthorizationEventID := Some eventID;
  cn_PriorState := cn_PriorState c; cn_PairingStartedAt := cn_PairingStartedAt c;
  cn_PairingAttemptID := cn_PairingAttemptID c;
  cn_TenantSuspendPriorState := cn_TenantSuspendPriorState c |}.

(** fenceConnectionLeaseForReauthorizationSQL: a held lease is taken away under
    a new token. *)
Definition fence_lease_for_reauthorization (t : tenant) (c : string) (now : Z) (db : Db) : result Db :=
  match leases db !! (t, c) with
  | Some l =>
    match ls_Owner l with
    | Some _ =>
      let! token := next_revision (ls_Token l) in
      Ok (set_leases (<[(t, c) := {| ls_Owner := None; ls_Token := token; ls_ExpiresAt := now |}]>
            (leases db)) db)
    | None => Ok db
    end
  | None => Ok db
  end.

Record AuthorizationTransition := { tr_Transitioned : bool; tr_EventID : string }.

Definition reauthorizable (state : ConnectionState) : bool :=
  match state with
  | ConnectionStateConnected | ConnectionStateDegraded | ConnectionStateDisconnected
  | ConnectionStateSuspended | ConnectionStateReauthorizationRequired => true
  | _ => false
  end.

Definition MarkReauthorizationRequired (tenantID connectionID newEventID : string) (wall now : Z) (db : Db)
    : Db * result AuthorizationTransition :=
  if (tenantID =s "") || (connectionID =s "") then (db, Err [ErrInvalidIdentifier])
  else inTenant tenantID (fun db =>
    match connections db !! (tenantID, connectionID) with
    | None => Err [ErrConnectionNotFound]
    | Some c =>
      let event := default "" (cn_ReauthorizationEventID c) in
      if bool_decide (cn_State c = ConnectionStateReauthorizationRequired) && (event <>s "") then
        let! db1 := fence_lease_for_reauthorization tenantID connectionID now db in
        let! db2 := insertReauthorizationEvent tenantID connectionID event wall now db1 in
        Ok (db2, {| tr_Transitioned := false; tr_EventID := event |})
      else if negb (reauthorizable (cn_State c)) then Err [ErrPairingConnectionState]
      else if newEventID =s "" then Err [ErrText "generate authorization event ID"]
      else
        let! db1 := put_connection tenantID connectionID (with_reauthorization c newEventID) db in
        let! db2 := fence_lease_for_reauthorization tenantID connectionID now db1 in
        let! db3 := insertReauthorizationEvent tenantID connectionID newEventID wall now db2 in
        Ok (db3, {| tr_Transitioned := true; tr_EventID := newEventID |})
    end) db.

(** ** Listing connections *)

(** [ORDER BY connection_id] over the connections of a tenant. *)
Definition row_le (a b : string * ConnectionRow) : Prop := String.le a.1 b.1.

#[export] Instance row_le_dec : RelDecision row_le.
Proof. intros a b. unfold row_le. apply _. Defined.

Definition connection_rows (db : Db) (t : tenant) : list (string * ConnectionRow) :=
  merge_sort row_le ((fun p => (p.1.2, p.2)) <$> List.filter (fun p => p.1.1 =s t) (map_to_list (connections db))).

Definition connection_record (t : tenant) (id : string) (c : ConnectionRow) : ConnectionRecord := {|
  rec_Connection := {| conn_ID := id; conn_TenantID := t; conn_Name := cn_Name c; conn_State := cn_State c |};
  rec_Fingerprint := default [] (cn_Fingerprint c) |}.

Fixpoint scan_connections (t : tenant) (rows : list (string * ConnectionRow)) : result (list ConnectionRecord) :=
  match rows with
  | [] => Ok []
  | (id, c) :: rest =>
    let! _ := ConnectionState_Validate (cn_State c) in
    let! records := scan_connections t rest in Ok (connection_record t id c :: records)
  end.

Definition ListConnections (tenantID : tenant) (db : Db) : Db * result (list ConnectionRecord) :=
  inTenant tenantID (fun db =>
    let! records := scan_connections tenantID (take (Z.to_nat DefaultMaxConnectionsPerTenant) (connection_rows db tenantID)) in
    Ok (db, records)) db.

Record ConnectionPage := { pg_Records : list ConnectionRecord; pg_NextCursor : string }.

Fixpoint scan_page (t : tenant) (rows : list (string * ConnectionRow)) : result (list ConnectionRecord) :=
  match rows with
  | [] => Ok []
  | (id, c) :: rest =>
    if (id =s "") || negb (is_ok (ConnectionState_Validate (cn_State c))) then Err [ErrText "invalid connection in page"]
    else let! records := scan_page t rest in Ok (connection_record t id c :: records)
  end.

Definition ListConnectionsPage (tenantID after : string) (limit : Z) (db : Db) : Db * result ConnectionPage :=
  if (tenantID =s "") || (len after >? 256) || (limit <? 1) || (limit >? 256) then (db, Err [ErrInvalidIdentifier])
  else inTenant tenantID (fun db =>
    let! records := scan_page tenantID (take (Z.to_nat (limit + 1))
      (List.filter (fun r => String.leb after r.1 && (r.1 <>s after)) (connection_rows db tenantID))) in
    Ok (db, if blen records >? limit then
              let page := take (Z.to_nat limit) records in
              {| pg_Records := page;
                 pg_NextCursor := match last page with Some r => conn_ID (rec_Connection r) | None => "" end |}
            else {| pg_Records := records; pg_NextCursor := "" |})) db.
