(* ===== verification/PairingStore.v ===== *)
(** * Pairing attempts in the store (internal/gateway/store/postgres/connections.go)

    Which attempt owns the pairing of a connection, how the operations on
    connection rows move that ownership, and that an attempt that lost it can
    neither commit nor restore. *)

From S2P Require Import Prelude GoText Crypto GoEncoding Domain Session EventContract Store Connections.

Definition row_owner (r : option ConnectionRow) : option string :=
  match r with
  | Some r => if bool_decide (cn_State r = ConnectionStatePairing) then cn_PairingAttemptID r else None
  | None => None
  end.

(** The attempt whose pairing a connection is in. *)
Definition pairing_owner (db : Db) (t c : string) : option string := row_owner (connections db !! (t, c)).

(** The operations that write connection rows, each at its database time. *)
Inductive PairingOp :=
| OpBegin (t c id : string) (ttl now : Z)
| OpRestore (t c id : string)
| OpCommit (t c id : string) (envelope : Session.Envelope) (fingerprint : bytes)
| OpReconcile (t : string) (ttl now : Z)
| OpTransition (t c : string) (from : list ConnectionState) (to : ConnectionState)
| OpSave (t : string) (record : ConnectionRecord)
| OpMark (t c newEventID : string) (wall now : Z).

Definition exec (op : PairingOp) (db : Db) : Db :=
  match op with
  | OpBegin t c id ttl now => (BeginPairing t c id ttl now db).1
  | OpRestore t c id => (RestorePairing t c id db).1
  | OpCommit t c id envelope fingerprint => (CommitPairedSession t c id envelope fingerprint db).1
  | OpReconcile t ttl now => (ReconcileStalePairings t ttl now db).1
  | OpTransition t c from to => (TransitionConnection t c from to db).1
  | OpSave t record => (SaveConnection t record db).1
  | OpMark t c newEventID wall now => (MarkReauthorizationRequired t c newEventID wall now db).1
  end.

Definition exec_all (ops : list PairingOp) (db : Db) : Db := foldl (fun db op => exec op db) db ops.

(** An operation leaves the owner, clears it, or is the [BeginPairing] of a new one. *)
Definition owner_moves (op : PairingOp) (db db' : Db) (t c : string) : Prop :=
  pairing_owner db' t c = pairing_owner db t c \/ pairing_owner db' t c = None \/
  exists id ttl now, op = OpBegin t c id ttl now /\ pairing_owner db' t c = Some id.

Lemma inTenant_keeps_or_runs {A} t (f : Db -> result (Db * A)) db :
  (inTenant t f db).1 = db \/ exists db' a, f db = Ok (db', a) /\ inTenant t f db = (db', Ok a).
Proof.
  unfold inTenant. destruct (t =s ""); [by left|]. destruct (f db) as [[db' a]|e]; [right; by exists db', a | by left].
Qed.

Lemma put_connection_Ok t c row db db' :
  put_connection t c row db = Ok db' -> connections db' = <[(t, c) := row]> (connections db) /\ connection_row_ok row = true.
Proof.
  unfold put_connection. intros (? & _ & H)%result_bind_ok. apply result_bind_ok in H as (? & Hc & H).
  apply result_bind_ok in H as (? & _ & H). injection H as <-. split; [done|].
  unfold check_constraint in Hc. by destruct (connection_row_ok row).
Qed.

(** A row that is not pairing has no owner. *)
Lemma put_unpaired t c row db db' t' c' :
  put_connection t c row db = Ok db' -> cn_State row <> ConnectionStatePairing ->
  pairing_owner db' t' c' = pairing_owner db t' c' \/ pairing_owner db' t' c' = None.
Proof.
  intros [Hc _]%put_connection_Ok Hs. unfold pairing_owner. rewrite Hc.
  destruct (decide ((t, c) = (t', c'))) as [<-|Hne]; [|left; by rewrite lookup_insert_ne].
  right. rewrite lookup_insert_eq. cbn. by rewrite bool_decide_false.
Qed.

Lemma put_paired t c row id db db' t' c' :
  put_connection t c row db = Ok db' -> cn_State row = ConnectionStatePairing -> cn_PairingAttemptID row = Some id ->
  pairing_owner db' t' c' = pairing_owner db t' c' \/ (t = t' /\ c = c' /\ pairing_owner db' t' c' = Some id).
Proof.
  intros [Hc _]%put_connection_Ok Hs Hid. unfold pairing_owner. rewrite Hc.
  destruct (decide ((t, c) = (t', c'))) as [[= <- <-]|Hne]; [|left; by rewrite lookup_insert_ne].
  right. rewrite lookup_insert_eq. cbn. by rewrite bool_decide_true, Hid.
Qed.

Lemma upsert_session_connections t c e db db' : upsert_session t c e db = Ok db' -> connections db' = connections db.
Proof.
  unfold upsert_session. intros (? & _ & H)%result_bind_ok. apply result_bind_ok in H as (? & _ & H). by injection H as <-.
Qed.

Lemma prior_not_pairing r prior : pairing_prior_ok r = true -> cn_PriorState r = Some prior -> prior <> ConnectionStatePairing.
Proof. unfold pairing_prior_ok. intros H E. rewrite E in H. by destruct prior. Qed.

Lemma begin_moves t c id ttl now db t' c' :
  owner_moves (OpBegin t c id ttl now) db (exec (OpBegin t c id ttl now) db) t' c'.
Proof.
  unfold owner_moves. cbn [exec]. unfold BeginPairing. destruct (_ || _ || _ || _); [by left|].
  match goal with |- context [inTenant t ?f db] => destruct (inTenant_keeps_or_runs t f db) as [->|(db' & a & Hf & ->)] end; [by left|].
  cbn. destruct (tenants db !! t) as [tn|]; [|done]. destruct (tn_Status tn <>s "active"); [done|].
  destruct (connections db !! (t, c)) as [r|]; [|done]. destruct (_ || _); [|by destruct (bool_decide _)].
  apply result_bind_ok in Hf as (db1 & Hput & [= <- _]).
  destruct (put_paired _ _ _ id _ _ t' c' Hput eq_refl eq_refl) as [?|(<- & <- & ?)]; [by left|].
  right; right. by exists id, ttl, now.
Qed.

Lemma restore_moves t c id db t' c' :
  let db' := (RestorePairing t c id db).1 in
  pairing_owner db' t' c' = pairing_owner db t' c' \/ pairing_owner db' t' c' = None.
Proof.
  cbn. unfold RestorePairing. destruct (_ || _ || _); [by left|].
  match goal with |- context [inTenant t ?f db] => destruct (inTenant_keeps_or_runs t f db) as [->|(db' & a & Hf & ->)] end; [by left|].
  cbn. destruct (connections db !! (t, c)) as [r|]; [|done]. destruct (cn_PriorState r) as [prior|] eqn:Ep; [|done].
  destruct (_ && _) eqn:Eb; [|done]. apply andb_true_iff in Eb as [_ Hp].
  apply result_bind_ok in Hf as (db1 & Hput & [= <- _]). eapply put_unpaired; [exact Hput|]. by eapply prior_not_pairing.
Qed.

Lemma commit_moves t c id e f db t' c' :
  let db' := (CommitPairedSession t c id e f db).1 in
  pairing_owner db' t' c' = pairing_owner db t' c' \/ pairing_owner db' t' c' = None.
Proof.
  cbn. unfold CommitPairedSession. destruct (_ || _ || _ || _ || _); [by left|].
  match goal with |- context [inTenant t ?g db] => destruct (inTenant_keeps_or_runs t g db) as [->|(db' & a & Hf & ->)] end; [by left|].
  cbn. apply result_bind_ok in Hf as (db1 & Hup & Hf). apply upsert_session_connections in Hup.
  destruct (connections db1 !! (t, c)) as [r|]; [|done]. destruct (_ && _); [|done].
  apply result_bind_ok in Hf as (db2 & Hput & [= <- _]).
  assert (pairing_owner db1 t' c' = pairing_owner db t' c') as <- by (unfold pairing_owner; by rewrite Hup).
  by eapply put_unpaired.
Qed.

Lemma reconcile_moves t ttl now db t' c' :
  let db' := (ReconcileStalePairings t ttl now db).1 in
  pairing_owner db' t' c' = pairing_owner db t' c' \/ pairing_owner db' t' c' = None.
Proof.
  cbn. unfold ReconcileStalePairings. destruct (_ || _); [by left|].
  match goal with |- context [inTenant t ?g db] => destruct (inTenant_keeps_or_runs t g db) as [->|(db' & a & Hf & ->)] end; [by left|].
  cbn. generalize dependent (map_to_list (connections db)). intros rows.
  assert (forall st, pairing_owner st.1 t' c' = pairing_owner db t' c' \/ pairing_owner st.1 t' c' = None ->
    fold_left (reconcile_stale_row t ttl now) rows (Ok st) = Ok (db', a) ->
    pairing_owner db' t' c' = pairing_owner db t' c' \/ pairing_owner db' t' c' = None) as Hfold; [|by apply Hfold; left].
  induction rows as [|[[t0 c0] r] rows IH]; intros st Hst H; cbn in H; [by injection H as ->|].
  assert (forall e, fold_left (reconcile_stale_row t ttl now) rows (Err e) <> Ok (db', a)) as Herr
    by (intros e; clear; by induction rows).
  destruct (cn_PriorState r) as [prior|] eqn:Ep; [|by eapply IH].
  destruct (_ && _) eqn:Eb; [|by eapply IH]. apply andb_true_iff in Eb as [_ Hs]. unfold pairing_stale in Hs.
  apply andb_true_iff in Hs as [_ Hp].
  destruct (put_connection t c0 _ st.1) as [db1|e] eqn:Eput; cbn in H; [|by apply Herr in H].
  eapply IH; [|exact H]. cbn. apply (put_unpaired _ _ _ _ _ t' c') in Eput; [|by eapply prior_not_pairing].
  destruct Eput as [->|]; [done | by right].
Qed.

Lemma transition_moves t c from to db t' c' :
  let db' := (TransitionConnection t c from to db).1 in
  pairing_owner db' t' c' = pairing_owner db t' c' \/ pairing_owner db' t' c' = None.
Proof.
  cbn. unfold TransitionConnection. destruct (_ || _) eqn:Eb; [by left|].
  apply orb_false_iff in Eb as [[_ Hto]%orb_false_iff _]. destruct (negb _); [by left|].
  match goal with |- context [inTenant t ?g db] => destruct (inTenant_keeps_or_runs t g db) as [->|(db' & a & Hf & ->)] end; [by left|].
  cbn. destruct (connections db !! (t, c)) as [r|]; [|done]. destruct (bool_decide (cn_State r ∈ from)); [|done].
  apply result_bind_ok in Hf as (db1 & Hput & [= <- _]). eapply put_unpaired; [exact Hput|]. cbn. by reflect_bools.
Qed.

Lemma save_moves t record db t' c' :
  let db' := (SaveConnection t record db).1 in
  pairing_owner db' t' c' = pairing_owner db t' c' \/ pairing_owner db' t' c' = None.
Proof.
  cbn. unfold SaveConnection. destruct (t =s ""); [by left|]. destruct (_ =s ""); [by left|]. destruct (_ <>s t); [by left|].
  destruct (ConnectionState_Validate _); [|by left]. destruct (_ || _) eqn:Eb; [by left|].
  apply orb_false_iff in Eb as [Hs _]. destruct (negb _); [by left|].
  match goal with |- context [inTenant t ?g db] => destruct (inTenant_keeps_or_runs t g db) as [->|(db' & a' & Hf & ->)] end; [by left|].
  cbn. destruct (tenants db !! t) as [tn|]; [|done]. destruct (tn_Status tn =s "suspended"); [done|].
  destruct (tn_Status tn <>s "active"); [done|]. destruct (_ || _); [done|]. destruct (_ && _); [done|].
  apply result_bind_ok in Hf as (db1 & Hput & [= <- _]). reflect_bools.
  destruct (connections db !! _) as [old|].
  - destruct (_ && _); [done|]. by eapply put_unpaired.
  - by eapply put_unpaired.
Qed.

(** Reauthorization leaves the other tables' rows of connections alone. *)
Lemma fence_lease_connections t c now db db' :
  fence_lease_for_reauthorization t c now db = Ok db' -> connections db' = connections db.
Proof.
  unfold fence_lease_for_reauthorization. destruct (leases db !! (t, c)) as [l|]; [|congruence].
  destruct (ls_Owner l); [|congruence]. intros (token & _ & [= <-])%result_bind_ok. done.
Qed.

Lemma ensure_outbox_row_connections t o e d now db db' :
  ensure_outbox_row t o e d now db = Ok db' -> connections db' = connections db.
Proof.
  unfold ensure_outbox_row. destruct (outbox_has _ _ _ _); [congruence|]. by intros (_ & _ & ->)%insert_outbox_row_ok.
Qed.

Lemma insertReauthorizationEvent_connections t c e wall now db db' :
  insertReauthorizationEvent t c e wall now db = Ok db' -> connections db' = connections db.
Proof.
  unfold insertReauthorizationEvent. intros (body & _ & (db1 & H1 & H)%result_bind_ok)%result_bind_ok.
  assert (connections db1 = connections db) as <-.
  { destruct (events db !! (t, e)); [congruence|]. by apply insertGatewayEvent_ok in H1 as [_ ->]. }
  destruct (events db1 !! (t, e)); [|done]. destruct (_ || _); [done|].
  apply result_bind_ok in H as (db2 & H2 & H3). apply ensure_outbox_row_connections in H2, H3. congruence.
Qed.

Lemma mark_moves t c ev wall now db t' c' :
  let db' := (MarkReauthorizationRequired t c ev wall now db).1 in
  pairing_owner db' t' c' = pairing_owner db t' c' \/ pairing_owner db' t' c' = None.
Proof.
  cbn. unfold MarkReauthorizationRequired. destruct (_ || _); [by left|].
  match goal with |- context [inTenant t ?g db] => destruct (inTenant_keeps_or_runs t g db) as [->|(db' & a & Hf & ->)] end; [by left|].
  cbn. destruct (connections db !! (t, c)) as [r|]; [|done].
  assert (forall db0 db2 db3 e, fence_lease_for_reauthorization t c now db0 = Ok db2 ->
    insertReauthorizationEvent t c e wall now db2 = Ok db3 -> pairing_owner db3 t' c' = pairing_owner db0 t' c') as Hsame.
  { intros db0 db2 db3 e H2%fence_lease_connections H3%insertReauthorizationEvent_connections. unfold pairing_owner. congruence. }
  destruct (_ && _).
  - apply result_bind_ok in Hf as (db1 & H1 & Hf). apply result_bind_ok in Hf as (db2 & H2 & [= <- _]). left. by eapply Hsame.
  - destruct (negb _); [done|]. destruct (ev =s ""); [done|].
    apply result_bind_ok in Hf as (db1 & H1 & Hf). apply result_bind_ok in Hf as (db2 & H2 & Hf).
    apply result_bind_ok in Hf as (db3 & H3 & [= <- _]). rewrite (Hsame _ _ _ _ H2 H3).
    by eapply put_unpaired.
Qed.

Lemma exec_moves op db t c : owner_moves op db (exec op db) t c.
Proof.
  destruct op; cbn [exec]; [apply begin_moves|..].
  - destruct (restore_moves t0 c0 id db t c); unfold owner_moves; eauto.
  - destruct (commit_moves t0 c0 id envelope fingerprint db t c); unfold owner_moves; eauto.
  - destruct (reconcile_moves t0 ttl now db t c); unfold owner_moves; eauto.
  - destruct (transition_moves t0 c0 from to db t c); unfold owner_moves; eauto.
  - destruct (save_moves t0 record db t c); unfold owner_moves; eauto.
  - destruct (mark_moves t0 c0 newEventID wall now db t c); unfold owner_moves; eauto.
Qed.

(** No attempt becomes the owner again without its own [BeginPairing]. *)
Definition begins (op : PairingOp) (t c id : string) : Prop := exists ttl now, op = OpBegin t c id ttl now.

Lemma exec_all_displaced ops db t c id :
  pairing_owner db t c <> Some id -> Forall (fun op => ~ begins op t c id) ops ->
  pairing_owner (exec_all ops db) t c <> Some id.
Proof.
  intros Hne Hops. revert db Hne. induction Hops as [|op ops Hop _ IH]; intros db Hne; [done|]. cbn. apply IH.
  destruct (exec_moves op db t c) as [->|[->|(id' & ttl & now & -> & ->)]]; [done | done|].
  intros [= ->]. apply Hop. by exists ttl, now.
Qed.

(** ** What ownership decides *)

Lemma inTenant_Ok {A} t (f : Db -> result (Db * A)) db db' a : inTenant t f db = (db', Ok a) -> f db = Ok (db', a).
Proof. unfold inTenant. destruct (t =s ""); [done|]. destruct (f db) as [[? ?]|]; [|done]. by intros [= -> ->]. Qed.

Lemma BeginPairing_owner t c id ttl now db db' prior :
  BeginPairing t c id ttl now db = (db', Ok prior) ->
  pairing_owner db' t c = Some id /\ ValidPairingID id = true /\ (t =s "") = false /\ (c =s "") = false.
Proof.
  unfold BeginPairing. destruct (_ || _ || _ || _) eqn:Eg; [done|]. intros H%inTenant_Ok.
  apply orb_false_iff in Eg as [[[Et Ec]%orb_false_iff Eid]%orb_false_iff _]. apply negb_false_iff in Eid.
  destruct (tenants db !! t) as [tn|]; [|done]. destruct (tn_Status tn <>s "active"); [done|].
  destruct (connections db !! (t, c)) as [r|]; [|done]. destruct (_ || _); [|by destruct (bool_decide _)].
  apply result_bind_ok in H as (db2 & [Hc _]%put_connection_Ok & [= <- _]).
  split_and!; [|done..]. unfold pairing_owner. by rewrite Hc, lookup_insert_eq.
Qed.

(** A pairing that is not stale excludes every other attempt. *)
Lemma BeginPairing_excluded t c id id' ttl now db r :
  connections db !! (t, c) = Some r -> pairing_owner db t c = Some id' -> pairing_stale r ttl now = false ->
  exists e, BeginPairing t c id ttl now db = (db, Err e).
Proof.
  intros Hr Ho Hs. unfold BeginPairing. destruct (_ || _ || _ || _); [by eexists|]. unfold inTenant.
  destruct (t =s ""); [by eexists|]. destruct (tenants db !! t) as [tn|]; [|by eexists].
  destruct (tn_Status tn <>s "active"); [by eexists|]. rewrite Hr, Hs. unfold pairing_owner in Ho. rewrite Hr in Ho. cbn in Ho.
  destruct (bool_decide (cn_State r = ConnectionStatePairing)) eqn:Es; [|done]. reflect_bools. rewrite Es. cbn. by eexists.
Qed.

Lemma RestorePairing_superseded t c id db :
  (t =s "") = false -> (c =s "") = false -> ValidPairingID id = true -> pairing_owner db t c <> Some id ->
  RestorePairing t c id db = (db, Err [ErrAttemptSuperseded]).
Proof.
  intros Ht Hc Hid Ho. unfold RestorePairing, inTenant. rewrite Ht, Hc, Hid. cbn [orb negb].
  unfold pairing_owner in Ho. destruct (connections db !! (t, c)) as [r|]; [|done]. cbn in Ho.
  destruct (cn_PriorState r); [|done]. destruct (bool_decide (cn_State r = ConnectionStatePairing)); [|done].
  destruct (bool_decide (cn_PairingAttemptID r = Some id)) eqn:E; [by reflect_bools | done].
Qed.

Lemma CommitPairedSession_superseded t c id e f db :
  pairing_owner db t c <> Some id -> exists err, CommitPairedSession t c id e f db = (db, Err err).
Proof.
  intros Ho. unfold CommitPairedSession. destruct (_ || _ || _ || _ || _); [by eexists|]. unfold inTenant.
  destruct (t =s ""); [by eexists|]. destruct (upsert_session t c e db) as [db1|] eqn:Eu; [|by eexists]. cbn.
  apply upsert_session_connections in Eu. unfold pairing_owner in Ho. rewrite <- Eu in Ho.
  destruct (connections db1 !! (t, c)) as [r|]; [|by eexists]. cbn in Ho.
  destruct (bool_decide (cn_State r = ConnectionStatePairing)); [|by eexists].
  destruct (bool_decide (cn_PairingAttemptID r = Some id)) eqn:E; [by reflect_bools | by eexists].
Qed.

(** A commit is made by the owner, which then stores its session and its device. *)
Lemma CommitPairedSession_owner t c id e f db db' :
  CommitPairedSession t c id e f db = (db', Ok tt) ->
  pairing_owner db t c = Some id /\ pairing_owner db' t c = None /\
  (exists row, connections db' !! (t, c) = Some row /\ cn_State row = ConnectionStateConnected /\ cn_Fingerprint row = Some f) /\
  exists revision, sessions db' !! (t, c) = Some (with_revision e revision).
Proof.
  unfold CommitPairedSession. destruct (_ || _ || _ || _ || _); [done|]. intros H%inTenant_Ok.
  apply result_bind_ok in H as (db1 & Hu & H). pose proof (upsert_session_connections _ _ _ _ _ Hu) as Eu.
  destruct (connections db1 !! (t, c)) as [r|] eqn:Er; [|done]. destruct (_ && _) eqn:Eb; [|done].
  apply result_bind_ok in H as (db2 & Hput & [= <-]). apply andb_true_iff in Eb as [Es Eid]. reflect_bools.
  assert (sessions db2 = sessions db1) as Hs by (unfold put_connection in Hput; bind_ok Hput; by injection Hput as <-).
  apply put_connection_Ok in Hput as [Hc _]. unfold pairing_owner. rewrite Hc, lookup_insert_eq, <- Eu, Er. cbn.
  rewrite bool_decide_true by done. split_and!; [done | done | by eexists |]. rewrite Hs.
  unfold upsert_session in Hu. bind_ok Hu. injection Hu as <-. cbn. rewrite lookup_insert_eq. by eexists.
Qed.

(** A pairing attempt that lost its connection is locked out. Once another
    attempt began to pair the connection, then after any further operations on
    connection rows (none of which begins that attempt anew), the old attempt can
    neither commit a session nor restore the connection: both fail and change
    nothing. While an attempt owns a connection and is not stale no other attempt
    can begin; and a commit succeeds only for the owner, leaves its session and its
    device on the connection, and ends the ownership. *)
Theorem displaced_attempt_locked_out (db : Db) (t c A B : string) (ttlA nowA ttlB nowB : Z)
  (between after : list PairingOp) (db1 db3 : Db) (priorA priorB : ConnectionState)
  (Hold : BeginPairing t c A ttlA nowA db = (db1, Ok priorA))
  (Hnew : BeginPairing t c B ttlB nowB (exec_all between db1) = (db3, Ok priorB))
  (Hother : A <> B) (Hafter : Forall (fun op => ~ begins op t c A) after) :
  let db4 := exec_all after db3 in
  RestorePairing t c A db4 = (db4, Err [ErrAttemptSuperseded]) /\
  (forall envelope fingerprint, exists e, CommitPairedSession t c A envelope fingerprint db4 = (db4, Err e)) /\
  (forall id id' ttl now row, connections db4 !! (t, c) = Some row -> pairing_owner db4 t c = Some id' ->
     pairing_stale row ttl now = false -> exists e, BeginPairing t c id ttl now db4 = (db4, Err e)) /\
  (forall id envelope fingerprint db5, CommitPairedSession t c id envelope fingerprint db4 = (db5, Ok tt) ->
     pairing_owner db4 t c = Some id /\ pairing_owner db5 t c = None /\
     (exists row, connections db5 !! (t, c) = Some row /\ cn_State row = ConnectionStateConnected /\
        cn_Fingerprint row = Some fingerprint) /\
     exists revision, sessions db5 !! (t, c) = Some (with_revision envelope revision)).
Proof.
  intros db4. destruct (BeginPairing_owner _ _ _ _ _ _ _ _ Hold) as (_ & HA & Ht & Hc).
  destruct (BeginPairing_owner _ _ _ _ _ _ _ _ Hnew) as (HB & _ & _ & _).
  assert (pairing_owner db4 t c <> Some A) as Hlost by (apply exec_all_displaced; [rewrite HB; congruence | done]).
  split_and!.
  - by apply RestorePairing_superseded.
  - intros e f. by apply CommitPairedSession_superseded.
  - intros. by eapply BeginPairing_excluded.
  - intros. by apply CommitPairedSession_owner.
Qed.

(** ** A concrete history: the first attempt is abandoned, a second one takes over. *)

Definition unpaired_row : ConnectionRow := {|
  cn_Name := "phone"; cn_State := ConnectionStateUnpaired; cn_Fingerprint := None; cn_ReauthorizationEventID := None;
  cn_PriorState := None; cn_PairingStartedAt := None; cn_PairingAttemptID := None; cn_TenantSuspendPriorState := None |}.

Definition unpaired_db : Db :=
  set_connections {[("t1", "c1") := unpaired_row]}
    (set_tenants {["t1" := {| tn_Name := "tenant"; tn_Status := "active"; tn_MaxConnections := 128 |}]} empty_db).

Lemma displaced_attempt_locked_out_witness :
  let db3 := exec (OpBegin "t1" "c1" "attempt-2" Minute (10 * Minute))
               (exec (OpBegin "t1" "c1" "attempt-1" Minute Minute) unpaired_db) in
  pairing_owner db3 "t1" "c1" = Some "attempt-2" /\
  RestorePairing "t1" "c1" "attempt-1" db3 = (db3, Err [ErrAttemptSuperseded]).
Proof.
  assert (BeginPairing "t1" "c1" "attempt-1" Minute Minute unpaired_db =
    (exec (OpBegin "t1" "c1" "attempt-1" Minute Minute) unpaired_db, Ok ConnectionStateUnpaired)) as H1 by (vm_compute; reflexivity).
  assert (BeginPairing "t1" "c1" "attempt-2" Minute (10 * Minute)
      (exec_all [] (exec (OpBegin "t1" "c1" "attempt-1" Minute Minute) unpaired_db)) =
    (exec (OpBegin "t1" "c1" "attempt-2" Minute (10 * Minute))
       (exec (OpBegin "t1" "c1" "attempt-1" Minute Minute) unpaired_db), Ok ConnectionStateUnpaired)) as H2 by (vm_compute; reflexivity).
  split; [vm_compute; reflexivity|].
  refine (proj1 (displaced_attempt_locked_out _ _ _ _ _ _ _ _ _ [] [] _ _ _ _ H1 H2 _ _)); [discriminate | constructor].
Defined.
