(* ===== verification/PairingService.v ===== *)
(** * The pairing service (internal/gateway/pairing/service.go)

    The in-memory registry of pairing attempts and the operations on it, as programs
    of calls. A region under the lock of an attempt is one call ([Locked]): it sees
    the clock, whether the attempt is still registered, and the attempt, and may
    change the attempt and remove it from the registry; a region under the lock of
    the service is one call too. Calls to the provider and to the repository happen
    outside the locks. Go pointers to attempts are numbers, provider handles too. *)

From S2P Require Import Prelude GoText Crypto Domain Session Store Connections Rely.

Definition DeviceIDMaxLength : Z := 256.
Definition defaultAttemptTTL : Z := 5 * Minute.

Definition ValidDeviceID (value : string) : bool :=
  if (len value =? 0) || (len value >? DeviceIDMaxLength) then false
  else forallb (fun char => negb ((char <? 33) || (char >? 126))) (runes value).

Inductive State :=
| StateNone | StateAwaitingDeviceSelection | StateAwaitingPhoneApproval | StateComplete | StateExpired
| StateCancelled | StateFailed.

#[export] Instance State_eq_dec : EqDecision State.
Proof. solve_decision. Defined.

Record Device := { dv_ID : string; dv_Label : string }.

#[export] Instance Device_eq_dec : EqDecision Device.
Proof. solve_decision. Defined.

Record CompletedSession := { cs_Plaintext : bytes; cs_DeviceFingerprint : bytes }.

Record Attempt := { at_ID : string; at_State : State; at_ExpiresAt : Z; at_Devices : list Device; at_Emoji : string }.

#[export] Instance Attempt_eq_dec : EqDecision Attempt.
Proof. solve_decision. Defined.

Record attemptKey := { ak_tenantID : string; ak_connectionID : string }.

#[export] Instance attemptKey_eq_dec : EqDecision attemptKey.
Proof. solve_decision. Defined.

#[export] Instance attemptKey_countable : Countable attemptKey.
Proof.
  refine (inj_countable' (fun k => (ak_tenantID k, ak_connectionID k))
            (fun p => {| ak_tenantID := p.1; ak_connectionID := p.2 |}) _).
  by intros [].
Defined.

Inductive attemptOperation := operationIdle | operationStart | operationSelect | operationComplete | operationCleanup.

#[export] Instance attemptOperation_eq_dec : EqDecision attemptOperation.
Proof. solve_decision. Defined.

#[export] Instance envelope_eq_dec : EqDecision Session.Envelope.
Proof. solve_decision. Defined.

(** [aa_timer] is the delay the expiry timer was last set to, if it is set. *)
Record activeAttempt := {
  aa_Attempt : Attempt;
  aa_key : attemptKey;
  aa_original : ConnectionState;
  aa_handle : option Z;
  aa_deviceIDs : list string;
  aa_pending : option Session.Envelope;
  aa_fingerprint : bytes;
  aa_operation : attemptOperation;
  aa_generation : Z;
  aa_pairingPersisted : bool;
  aa_cleanupPending : bool;
  aa_cleanupCancel : bool;
  aa_timer : option Z
}.

#[export] Instance activeAttempt_eq_dec : EqDecision activeAttempt.
Proof. solve_decision. Defined.

(** ** Field assignments *)

Definition set_attempt (t : Attempt) (a : activeAttempt) : activeAttempt := {|
  aa_Attempt := t; aa_key := aa_key a; aa_original := aa_original a; aa_handle := aa_handle a;
  aa_deviceIDs := aa_deviceIDs a; aa_pending := aa_pending a; aa_fingerprint := aa_fingerprint a;
  aa_operation := aa_operation a; aa_generation := aa_generation a; aa_pairingPersisted := aa_pairingPersisted a;
  aa_cleanupPending := aa_cleanupPending a; aa_cleanupCancel := aa_cleanupCancel a; aa_timer := aa_timer a |}.

Definition set_reservation (operation : attemptOperation) (generation : Z) (a : activeAttempt) : activeAttempt := {|
  aa_Attempt := aa_Attempt a; aa_key := aa_key a; aa_original := aa_original a; aa_handle := aa_handle a;
  aa_deviceIDs := aa_deviceIDs a; aa_pending := aa_pending a; aa_fingerprint := aa_fingerprint a;
  aa_operation := operation; aa_generation := generation; aa_pairingPersisted := aa_pairingPersisted a;
  aa_cleanupPending := aa_cleanupPending a; aa_cleanupCancel := aa_cleanupCancel a; aa_timer := aa_timer a |}.

Definition set_handle (handle : option Z) (a : activeAttempt) : activeAttempt := {|
  aa_Attempt := aa_Attempt a; aa_key := aa_key a; aa_original := aa_original a; aa_handle := handle;
  aa_deviceIDs := aa_deviceIDs a; aa_pending := aa_pending a; aa_fingerprint := aa_fingerprint a;
  aa_operation := aa_operation a; aa_generation := aa_generation a; aa_pairingPersisted := aa_pairingPersisted a;
  aa_cleanupPending := aa_cleanupPending a; aa_cleanupCancel := aa_cleanupCancel a; aa_timer := aa_timer a |}.

Definition set_devices (deviceIDs : list string) (a : activeAttempt) : activeAttempt := {|
  aa_Attempt := aa_Attempt a; aa_key := aa_key a; aa_original := aa_original a; aa_handle := aa_handle a;
  aa_deviceIDs := deviceIDs; aa_pending := aa_pending a; aa_fingerprint := aa_fingerprint a;
  aa_operation := aa_operation a; aa_generation := aa_generation a; aa_pairingPersisted := aa_pairingPersisted a;
  aa_cleanupPending := aa_cleanupPending a; aa_cleanupCancel := aa_cleanupCancel a; aa_timer := aa_timer a |}.

Definition set_sealed (pending : option Session.Envelope) (fingerprint : bytes) (a : activeAttempt) : activeAttempt := {|
  aa_Attempt := aa_Attempt a; aa_key := aa_key a; aa_original := aa_original a; aa_handle := aa_handle a;
  aa_deviceIDs := aa_deviceIDs a; aa_pending := pending; aa_fingerprint := fingerprint;
  aa_operation := aa_operation a; aa_generation := aa_generation a; aa_pairingPersisted := aa_pairingPersisted a;
  aa_cleanupPending := aa_cleanupPending a; aa_cleanupCancel := aa_cleanupCancel a; aa_timer := aa_timer a |}.

Definition set_persisted (original : ConnectionState) (persisted : bool) (a : activeAttempt) : activeAttempt := {|
  aa_Attempt := aa_Attempt a; aa_key := aa_key a; aa_original := original; aa_handle := aa_handle a;
  aa_deviceIDs := aa_deviceIDs a; aa_pending := aa_pending a; aa_fingerprint := aa_fingerprint a;
  aa_operation := aa_operation a; aa_generation := aa_generation a; aa_pairingPersisted := persisted;
  aa_cleanupPending := aa_cleanupPending a; aa_cleanupCancel := aa_cleanupCancel a; aa_timer := aa_timer a |}.

Definition set_cleanup (pending cancel : bool) (a : activeAttempt) : activeAttempt := {|
  aa_Attempt := aa_Attempt a; aa_key := aa_key a; aa_original := aa_original a; aa_handle := aa_handle a;
  aa_deviceIDs := aa_deviceIDs a; aa_pending := aa_pending a; aa_fingerprint := aa_fingerprint a;
  aa_operation := aa_operation a; aa_generation := aa_generation a; aa_pairingPersisted := aa_pairingPersisted a;
  aa_cleanupPending := pending; aa_cleanupCancel := cancel; aa_timer := aa_timer a |}.

Definition set_timer (timer : option Z) (a : activeAttempt) : activeAttempt := {|
  aa_Attempt := aa_Attempt a; aa_key := aa_key a; aa_original := aa_original a; aa_handle := aa_handle a;
  aa_deviceIDs := aa_deviceIDs a; aa_pending := aa_pending a; aa_fingerprint := aa_fingerprint a;
  aa_operation := aa_operation a; aa_generation := aa_generation a; aa_pairingPersisted := aa_pairingPersisted a;
  aa_cleanupPending := aa_cleanupPending a; aa_cleanupCancel := aa_cleanupCancel a; aa_timer := timer |}.

Definition set_State (state : State) (a : activeAttempt) : activeAttempt :=
  let t := aa_Attempt a in
  set_attempt {| at_ID := at_ID t; at_State := state; at_ExpiresAt := at_ExpiresAt t; at_Devices := at_Devices t;
                 at_Emoji := at_Emoji t |} a.

Definition set_public (state : State) (devices : list Device) (emoji : string) (a : activeAttempt) : activeAttempt :=
  let t := aa_Attempt a in
  set_attempt {| at_ID := at_ID t; at_State := state; at_ExpiresAt := at_ExpiresAt t; at_Devices := devices;
                 at_Emoji := emoji |} a.

(** [operation = ...; generation++]. *)
Definition reserve (operation : attemptOperation) (a : activeAttempt) : activeAttempt :=
  set_reservation operation (uint64 (aa_generation a + 1)) a.

Definition release (a : activeAttempt) : activeAttempt := set_reservation operationIdle (aa_generation a) a.

(** [scheduleExpiryLocked] *)
Definition scheduleExpiry (delay : Z) (a : activeAttempt) : activeAttempt :=
  set_timer (Some (if delay <? 0 then 0 else delay)) a.

(** The registry's part of [removeLocked] is the flag of a region; this is the rest. *)
Definition removed (a : activeAttempt) : activeAttempt := set_timer None a.

(** ** Calls *)

Inductive PairingCall : Type -> Type :=
(* regions *)
| Locked (p : nat) (f : Z -> bool -> activeAttempt -> activeAttempt * bool) : PairingCall (Z * bool * activeAttempt)
| ByKey (key : attemptKey) : PairingCall (option (nat * string))
| Get (key : attemptKey) (pairingID : string) : PairingCall (option nat)
| Register (a : activeAttempt) : PairingCall (option nat)
| Registered : PairingCall (list nat)
(* clock, identifiers, sealing *)
| Now : PairingCall Z
| NewID : PairingCall string
| Seal (scope : Scope) (plaintext : bytes) : PairingCall (result Session.Envelope)
(* repository *)
| GetConnection (key : attemptKey) : PairingCall (result Connection)
| BeginPairing (p : nat) (key : attemptKey) (attemptID : string) (ttl : Z) : PairingCall (result ConnectionState)
| RestorePairing (p : nat) (key : attemptKey) (attemptID : string) : PairingCall error
| CommitPairedSession (p : nat) (key : attemptKey) (attemptID : string) (envelope : Session.Envelope) (fingerprint : bytes)
    : PairingCall error
| ReconcileStale (tenantID : string) (ttl : Z) : PairingCall (result Z)
| MarkReauthorization (key : attemptKey) : PairingCall (result AuthorizationTransition)
(* provider *)
| Discover (p : nat) (cookies : list (string * string)) : PairingCall (option Z * list Device * error)
| StartApproval (p : nat) (handle : option Z) (deviceID : string) : PairingCall (result string)
| Complete (p : nat) (handle : option Z) : PairingCall (result CompletedSession)
| Dispose (handle : option Z) (cancel : bool) : PairingCall unit.

(** A region of the attempt [p]: from the clock, whether it is registered and its
    fields to its new fields, whether it is removed, and the answer. *)
Definition locked {X} (p : nat) (f : Z -> bool -> activeAttempt -> activeAttempt * bool * X) : prog PairingCall X :=
  call! seen := Locked p (fun now current a => (f now current a).1) in
  Ret (f seen.1.1 seen.1.2 seen.2).2.

(** ** Cleanup *)

(** What the first region of [finishReserved] found: the handle to dispose of, how,
    whether the pairing is durable, and the attempt's identity. *)
Record finishing := {
  fi_handle : option Z;
  fi_cancel : bool;
  fi_persisted : bool;
  fi_key : attemptKey;
  fi_ID : string
}.

Definition finish_begin (generation : Z) (state : State) (cancel : bool) (now : Z) (current : bool) (a : activeAttempt)
    : activeAttempt * bool * option finishing :=
  if negb (aa_generation a =? generation) || bool_decide (aa_operation a = operationIdle) then (a, false, None)
  else
    let cancelProvider := cancel && bool_decide (aa_pending a = None) in
    (set_timer None (set_State state (set_sealed None [] (set_handle None
       (set_cleanup true cancelProvider (set_reservation operationCleanup (aa_generation a) a))))), false,
     Some {| fi_handle := aa_handle a; fi_cancel := cancelProvider; fi_persisted := aa_pairingPersisted a;
             fi_key := aa_key a; fi_ID := at_ID (aa_Attempt a) |}).

Definition finish_done (now : Z) (current : bool) (a : activeAttempt) : activeAttempt * bool * unit :=
  (release (removed (set_persisted (aa_original a) false (set_cleanup false (aa_cleanupCancel a) a))), true, tt).

Definition finish_failed (now : Z) (current : bool) (a : activeAttempt) : activeAttempt * bool * unit :=
  (scheduleExpiry Second (release a), false, tt).

Definition finishReserved (p : nat) (generation : Z) (state : State) (cancel : bool) : prog PairingCall error :=
  do! begun := locked p (finish_begin generation state cancel) in
  match begun with
  | None => Ret [ErrAttemptBusy]
  | Some fi =>
    do! _ := match fi_handle fi with
             | Some handle => call! _ := Dispose (Some handle) (fi_cancel fi) in Ret tt
             | None => Ret tt
             end in
    if fi_persisted fi then
      call! err := RestorePairing p (fi_key fi) (fi_ID fi) in
      if is_nil err then do! _ := locked p finish_done in Ret []
      else if errors_Is err ErrAttemptSuperseded then do! _ := locked p finish_done in Ret err
      else do! _ := locked p finish_failed in Ret err
    else do! _ := locked p finish_done in Ret []
  end.

Definition fail_begin (now : Z) (current : bool) (a : activeAttempt) : activeAttempt * bool * Z :=
  let a := reserve operationCleanup a in (a, false, aa_generation a).

Definition fail_attempt (p : nat) (cancel : bool) : prog PairingCall unit :=
  do! generation := locked p fail_begin in
  do! _ := finishReserved p generation StateFailed cancel in Ret tt.

(** ** Reservations

    What a region that wants the attempt found: an error, an expired attempt that is
    now reserved for cleanup, or the attempt reserved for its operation. *)
Inductive picked :=
| PickErr (e : sentinel)
| PickExpired (generation : Z)
| PickGo (generation : Z) (handle : option Z) (pending : option Session.Envelope).

(** The checks the regions of [SelectDevice], [Complete] and [lookup] begin with. *)
Definition pick (operation : attemptOperation) (eligible : activeAttempt -> option sentinel) (now : Z) (current : bool)
    (a : activeAttempt) : activeAttempt * bool * picked :=
  if negb current then (a, false, PickErr ErrAttemptNotFound)
  else if bool_decide (aa_operation a <> operationIdle) then (a, false, PickErr ErrAttemptBusy)
  else if now >? at_ExpiresAt (aa_Attempt a) then
    let a := reserve operationCleanup a in (a, false, PickExpired (aa_generation a))
  else match eligible a with
  | Some e => (a, false, PickErr e)
  | None => let a := reserve operation a in (a, false, PickGo (aa_generation a) (aa_handle a) (aa_pending a))
  end.

Definition selectable (deviceID : string) (a : activeAttempt) : option sentinel :=
  if bool_decide (at_State (aa_Attempt a) <> StateAwaitingDeviceSelection) then Some ErrUnknownDevice
  else if bool_decide (deviceID ∈ aa_deviceIDs a) then None else Some ErrUnknownDevice.

Definition approvable (a : activeAttempt) : option sentinel :=
  if bool_decide (at_State (aa_Attempt a) <> StateAwaitingPhoneApproval) then Some ErrAttemptNotFound else None.

(** The end of an expired attempt. *)
Definition expire (p : nat) (generation : Z) : prog PairingCall error :=
  do! err := finishReserved p generation StateExpired true in
  Ret (if is_nil err then [ErrAttemptExpired] else [ErrSessionPersistence]).

Definition get (key : attemptKey) (pairingID : string) : prog PairingCall (option nat) :=
  if negb (ValidPairingID pairingID) then Ret None
  else call! found := Get key pairingID in Ret found.

(** [lookup] as [Start] uses it: its error. The region reserves nothing unless the
    attempt is expired. *)
Definition lookup_region (now : Z) (current : bool) (a : activeAttempt) : activeAttempt * bool * option picked :=
  if negb current then (a, false, Some (PickErr ErrAttemptNotFound))
  else if bool_decide (aa_operation a <> operationIdle) then (a, false, Some (PickErr ErrAttemptBusy))
  else if now >? at_ExpiresAt (aa_Attempt a) then
    let a := reserve operationCleanup a in (a, false, Some (PickExpired (aa_generation a)))
  else (a, false, None).

Definition lookup (key : attemptKey) (pairingID : string) : prog PairingCall error :=
  do! found := get key pairingID in
  match found with
  | None => Ret [ErrAttemptNotFound]
  | Some p =>
    do! picked := locked p lookup_region in
    match picked with
    | Some (PickErr e) => Ret [e]
    | Some (PickExpired generation) => expire p generation
    | _ => Ret []
    end
  end.

(** What the region of [retryCleanup] found. *)
Inductive retrying := RetryCleaned | RetryNone | RetryBusy | RetryGo (generation : Z) (state : State) (cancel : bool).

Definition retry_region (now : Z) (current : bool) (a : activeAttempt) : activeAttempt * bool * retrying :=
  if negb current then (a, false, RetryCleaned)
  else if negb (aa_cleanupPending a) then (a, false, RetryNone)
  else if bool_decide (aa_operation a <> operationIdle) then (a, false, RetryBusy)
  else let a := reserve operationCleanup a in
       (a, false, RetryGo (aa_generation a) (at_State (aa_Attempt a)) (aa_cleanupCancel a)).

Definition retryCleanup (p : nat) : prog PairingCall (result bool) :=
  do! found := locked p retry_region in
  match found with
  | RetryCleaned => Ret (Ok true)
  | RetryNone => Ret (Ok false)
  | RetryBusy => Ret (Err [ErrAttemptBusy])
  | RetryGo generation state cancel =>
    do! err := finishReserved p generation state cancel in
    Ret (if is_nil err then Ok true else Err [ErrSessionPersistence])
  end.

(** ** Approval *)

Definition approve_region (now : Z) (current : bool) (a : activeAttempt) : activeAttempt * bool * option (Z * option Z) :=
  if bool_decide (aa_operation a <> operationIdle) then (a, false, None)
  else let a := reserve operationSelect a in (a, false, Some (aa_generation a, aa_handle a)).

Definition approved_region (generation : Z) (emoji : string) (now : Z) (current : bool) (a : activeAttempt)
    : activeAttempt * bool * option Attempt :=
  if bool_decide (aa_operation a <> operationSelect) || negb (aa_generation a =? generation) || negb current
  then (a, false, None)
  else let a := release (set_public StateAwaitingPhoneApproval [] emoji a) in (a, false, Some (aa_Attempt a)).

Definition startApprovalReserved (p : nat) (generation : Z) (handle : option Z) (deviceID : string)
    : prog PairingCall (result Attempt) :=
  call! approval := StartApproval p handle deviceID in
  match approval with
  | Ok emoji =>
    if emoji =s "" then
      do! err := finishReserved p generation StateFailed true in
      Ret (Err (if is_nil err then [ErrProviderOperation] else [ErrSessionPersistence]))
    else
      do! result := locked p (approved_region generation emoji) in
      Ret (match result with Some t => Ok t | None => Err [ErrAttemptNotFound] end)
  | Err _ =>
    do! err := finishReserved p generation StateFailed true in
    Ret (Err (if is_nil err then [ErrProviderOperation] else [ErrSessionPersistence]))
  end.

Definition startApproval (p : nat) (deviceID : string) : prog PairingCall (result Attempt) :=
  do! reserved := locked p approve_region in
  match reserved with
  | None => Ret (Err [ErrAttemptBusy])
  | Some (generation, handle) => startApprovalReserved p generation handle deviceID
  end.

Definition SelectDevice (key : attemptKey) (pairingID deviceID : string) : prog PairingCall (result Attempt) :=
  do! found := get key pairingID in
  match found with
  | None => Ret (Err [ErrAttemptNotFound])
  | Some p =>
    do! picked := locked p (pick operationSelect (selectable deviceID)) in
    match picked with
    | PickErr e => Ret (Err [e])
    | PickExpired generation => do! err := expire p generation in Ret (Err err)
    | PickGo generation handle _ => startApprovalReserved p generation handle deviceID
    end
  end.

Section Service.
Variable providerName : string.
Variable ttl : Z.

(** ** Start *)

Definition new_attempt (id : string) (startedAt : Z) (key : attemptKey) : activeAttempt := {|
  aa_Attempt := {| at_ID := id; at_State := StateNone; at_ExpiresAt := startedAt + ttl; at_Devices := []; at_Emoji := "" |};
  aa_key := key; aa_original := ConnectionStateOther ""; aa_handle := None; aa_deviceIDs := []; aa_pending := None;
  aa_fingerprint := []; aa_operation := operationStart; aa_generation := 1; aa_pairingPersisted := false;
  aa_cleanupPending := false; aa_cleanupCancel := false; aa_timer := None |}.

Definition persisted_region (prior : ConnectionState) (now : Z) (current : bool) (a : activeAttempt) : activeAttempt * bool * unit :=
  (scheduleExpiry (at_ExpiresAt (aa_Attempt a) - now) (set_persisted prior true a), false, tt).

Definition remove_region (now : Z) (current : bool) (a : activeAttempt) : activeAttempt * bool * unit := (removed a, true, tt).

Definition handle_region (handle : option Z) (now : Z) (current : bool) (a : activeAttempt) : activeAttempt * bool * unit :=
  (set_handle handle a, false, tt).

Definition idle_region (now : Z) (current : bool) (a : activeAttempt) : activeAttempt * bool * unit := (release a, false, tt).

(** The identifiers recorded until the first invalid or repeated device, and whether
    there was none. *)
Fixpoint scan_devices (devices : list Device) (seen : list string) : list string * bool :=
  match devices with
  | [] => (seen, true)
  | d :: rest =>
    if negb (ValidDeviceID (dv_ID d)) || (dv_Label d =s "") || (len (dv_Label d) >? 128) || bool_decide (dv_ID d ∈ seen)
    then (seen, false)
    else scan_devices rest (seen ++ [dv_ID d])
  end.

(** [None]: the attempt is no longer the one [Start] reserved. *)
Definition discovered_region (handle : option Z) (devices : list Device) (now : Z) (current : bool) (a : activeAttempt)
    : activeAttempt * bool * option bool :=
  if bool_decide (aa_operation a <> operationStart) || negb (aa_generation a =? 1) || negb current
  then (a, false, None)
  else
    let '(ids, valid) := scan_devices devices [] in
    (set_devices ids (set_handle handle a), false, Some valid).

Definition choose_region (devices : list Device) (now : Z) (current : bool) (a : activeAttempt) : activeAttempt * bool * Attempt :=
  let a := set_public StateAwaitingDeviceSelection devices (at_Emoji (aa_Attempt a)) a in (a, false, aa_Attempt a).

(** [Start] once the pairing is durable. *)
Definition discover (p : nat) (cookies : list (string * string)) : prog PairingCall (result Attempt) :=
  call! found := Discover p cookies in
  let '(handle, devices, err) := found in
  if negb (is_nil err) then
    do! _ := locked p (handle_region handle) in
    do! cleanupErr := finishReserved p 1 StateFailed true in
    Ret (Err (if negb (is_nil cleanupErr) then [ErrSessionPersistence]
              else if errors_Is err ErrInvalidCookieBundle then [ErrInvalidCookieBundle] else [ErrProviderOperation]))
  else
    do! recorded := locked p (discovered_region handle devices) in
    match recorded with
    | None =>
      match handle with
      | Some h => call! _ := Dispose (Some h) true in Ret (Err [ErrAttemptNotFound])
      | None => Ret (Err [ErrAttemptNotFound])
      end
    | Some false => do! _ := fail_attempt p true in Ret (Err [ErrInvalidProviderData])
    | Some true =>
      match devices with
      | [] => do! _ := fail_attempt p true in Ret (Err [ErrInvalidProviderData])
      | [device] => do! _ := locked p idle_region in startApproval p (dv_ID device)
      | _ => do! _ := locked p idle_region in do! result := locked p (choose_region devices) in Ret (Ok result)
      end
    end.

(** [Start] from the repository's view of the connection on. *)
Definition begin (key : attemptKey) (cookies : list (string * string)) : prog PairingCall (result Attempt) :=
  call! found := GetConnection key in
  match found with
  | Err _ => Ret (Err [ErrAttemptNotFound])
  | Ok connection =>
    if (conn_TenantID connection <>s ak_tenantID key) || (conn_ID connection <>s ak_connectionID key)
    then Ret (Err [ErrAttemptNotFound])
    else match conn_State connection with
    | ConnectionStateUnpaired | ConnectionStateReauthorizationRequired | ConnectionStatePairing =>
      call! id := NewID in
      if negb (ValidPairingID id) then Ret (Err [ErrProviderOperation])
      else
        call! startedAt := Now in
        call! registered := Register (new_attempt id startedAt key) in
        match registered with
        | None => Ret (Err [ErrAttemptActive])
        | Some p =>
          call! prior := BeginPairing p key id ttl in
          match prior with
          | Err err =>
            do! _ := locked p remove_region in
            Ret (Err (if errors_Is err ErrAttemptActive then [ErrAttemptActive]
                      else if errors_Is err ErrPairingConnectionState then [ErrPairingConnectionState]
                      else [ErrSessionPersistence]))
          | Ok prior => do! _ := locked p (persisted_region prior) in discover p cookies
          end
        end
    | _ => Ret (Err [ErrPairingConnectionState])
    end
  end.

Definition Service_Start (key : attemptKey) (cookies : list (string * string)) : prog PairingCall (result Attempt) :=
  if (ak_tenantID key =s "") || (ak_connectionID key =s "") then Ret (Err [ErrAttemptNotFound])
  else
    call! current := ByKey key in
    match current with
    | None => begin key cookies
    | Some (p, id) =>
      do! cleaned := retryCleanup p in
      match cleaned with
      | Err e => Ret (Err e)
      | Ok true => begin key cookies
      | Ok false =>
        do! err := lookup key id in
        if is_nil err then Ret (Err [ErrAttemptActive])
        else if errors_Is err ErrAttemptExpired then begin key cookies
        else Ret (Err err)
      end
    end.

(** ** Complete *)

Definition sealed_region (generation : Z) (envelope : Session.Envelope) (fingerprint : bytes) (now : Z) (current : bool)
    (a : activeAttempt) : activeAttempt * bool * bool :=
  if bool_decide (aa_operation a <> operationComplete) || negb (aa_generation a =? generation) || negb current
  then (a, false, false)
  else (set_handle None (set_sealed (Some envelope) fingerprint a), false, true).

Definition fingerprint_region (now : Z) (current : bool) (a : activeAttempt) : activeAttempt * bool * (bytes * string) :=
  (a, false, (aa_fingerprint a, at_ID (aa_Attempt a))).

Definition commit_failed_region (generation : Z) (superseded : bool) (now : Z) (current : bool) (a : activeAttempt)
    : activeAttempt * bool * unit :=
  if bool_decide (aa_operation a = operationComplete) && (aa_generation a =? generation) then
    if superseded then (release (removed (set_State StateFailed (set_sealed None [] a))), true, tt)
    else (release a, false, tt)
  else (a, false, tt).

Definition committed_region (generation : Z) (now : Z) (current : bool) (a : activeAttempt)
    : activeAttempt * bool * option Attempt :=
  if bool_decide (aa_operation a <> operationComplete) || negb (aa_generation a =? generation) || negb current
  then (a, false, None)
  else
    let a := release (set_public StateComplete (at_Devices (aa_Attempt a)) "" (set_sealed None [] (removed a))) in
    (a, true, Some (aa_Attempt a)).

Definition commit (p : nat) (key : attemptKey) (generation : Z) (envelope : Session.Envelope) : prog PairingCall (result Attempt) :=
  do! found := locked p fingerprint_region in
  call! err := CommitPairedSession p key found.2 envelope found.1 in
  if negb (is_nil err) then
    do! _ := locked p (commit_failed_region generation (errors_Is err ErrAttemptSuperseded)) in
    Ret (Err [ErrSessionPersistence])
  else
    do! result := locked p (committed_region generation) in
    Ret (match result with Some t => Ok t | None => Err [ErrAttemptNotFound] end).

Definition failed (p : nat) (generation : Z) (cancel : bool) (e : sentinel) : prog PairingCall (result Attempt) :=
  do! err := finishReserved p generation StateFailed cancel in
  Ret (Err (if is_nil err then [e] else [ErrSessionPersistence])).

Definition Service_Complete (key : attemptKey) (pairingID : string) : prog PairingCall (result Attempt) :=
  do! found := get key pairingID in
  match found with
  | None => Ret (Err [ErrAttemptNotFound])
  | Some p =>
    do! picked := locked p (pick operationComplete approvable) in
    match picked with
    | PickErr e => Ret (Err [e])
    | PickExpired generation => do! err := expire p generation in Ret (Err err)
    | PickGo generation handle (Some envelope) => commit p key generation envelope
    | PickGo generation handle None =>
      call! completed := Complete p handle in
      match completed with
      | Err _ => failed p generation true ErrProviderOperation
      | Ok completed =>
        if is_nil (cs_Plaintext completed) || negb (blen (cs_DeviceFingerprint completed) =? sha256_Size)
        then failed p generation true ErrProviderOperation
        else
          call! sealed := Seal {| sc_TenantID := ak_tenantID key; sc_ConnectionID := ak_connectionID key;
                                  sc_Provider := providerName |} (cs_Plaintext completed) in
          match sealed with
          | Err _ => failed p generation false ErrSessionPersistence
          | Ok envelope =>
            do! kept := locked p (sealed_region generation envelope (cs_DeviceFingerprint completed)) in
            if negb kept then Ret (Err [ErrAttemptNotFound])
            else
              call! _ := Dispose handle false in
              commit p key generation envelope
          end
      end
    end
  end.

(** ** Cancel and sweep *)

Definition cancel_region (now : Z) (current : bool) (a : activeAttempt) : activeAttempt * bool * (sentinel + Z) :=
  if negb current then (a, false, inl ErrAttemptNotFound)
  else if bool_decide (aa_operation a <> operationIdle) then (a, false, inl ErrAttemptBusy)
  else let a := reserve operationCleanup a in (a, false, inr (aa_generation a)).

Definition Cancel (key : attemptKey) (pairingID : string) : prog PairingCall error :=
  do! found := get key pairingID in
  match found with
  | None => Ret [ErrAttemptNotFound]
  | Some p =>
    do! reserved := locked p cancel_region in
    match reserved with
    | inl e => Ret [e]
    | inr generation =>
      do! err := finishReserved p generation StateCancelled true in
      Ret (if is_nil err then [] else [ErrSessionPersistence])
    end
  end.

Definition sweep_region (now : Z) (current : bool) (a : activeAttempt) : activeAttempt * bool * option (Z * State * bool) :=
  let due := aa_cleanupPending a || negb (now <? at_ExpiresAt (aa_Attempt a)) in
  if negb current then (a, false, None)
  else if bool_decide (aa_operation a <> operationIdle) then
    (if due then scheduleExpiry (50 * Millisecond) a else a, false, None)
  else if negb due then (a, false, None)
  else
    let state := if aa_cleanupPending a then at_State (aa_Attempt a) else StateExpired in
    let cancel := if aa_cleanupPending a then aa_cleanupCancel a else true in
    let a := reserve operationCleanup a in
    (a, false, Some (aa_generation a, state, cancel)).

Fixpoint sweep (ps : list nat) (cleaned : Z) (cleanupErr : error) : prog PairingCall (Z * error) :=
  match ps with
  | [] => Ret (cleaned, cleanupErr)
  | p :: rest =>
    do! due := locked p sweep_region in
    match due with
    | None => sweep rest cleaned cleanupErr
    | Some (generation, state, cancel) =>
      do! err := finishReserved p generation state cancel in
      if is_nil err then sweep rest (cleaned + 1) cleanupErr else sweep rest cleaned [ErrSessionPersistence]
    end
  end.

Definition SweepExpired : prog PairingCall (Z * error) :=
  call! active := Registered in sweep active 0 [].

Definition Service_ReconcileStalePairings (tenantID : string) : prog PairingCall (result Z) :=
  call! r := ReconcileStale tenantID ttl in Ret r.

Definition MarkAuthorizationFailure (key : attemptKey) : prog PairingCall (result AuthorizationTransition) :=
  call! r := MarkReauthorization key in
  Ret (match r with
       | Ok transition => if tr_EventID transition =s "" then Err [ErrSessionPersistence] else Ok transition
       | Err _ => Err [ErrSessionPersistence]
       end).
End Service.

(** [NewService]: the time to live it uses; [dependencies]: all collaborators are given
    and the provider has a name. *)
Definition NewService (dependencies : bool) (ttl : Z) : result Z :=
  if negb dependencies then Err [ErrInvalidDependencies]
  else if ttl =? 0 then Ok defaultAttemptTTL
  else if negb (ValidAttemptTTL ttl) then Err [ErrInvalidDependencies] else Ok ttl.

(** [randomID]; [random] is what [rand.Read] delivered, [None] its error. *)
Definition randomID (random : option bytes) : string :=
  match random with Some buffer => string_of (base64_encode buffer) | None => "" end.

(** ** The world of the service

    The registry, and what has happened: which thread reserved an attempt, what became
    of the durable pairing of an attempt, which thread has taken a provider handle out
    of its attempt, and which handles the provider gave out and were disposed of. *)

Inductive durable := Begun | Restored | Committed | Superseded.

#[export] Instance durable_eq_dec : EqDecision durable.
Proof. solve_decision. Defined.

Record World := {
  wd_attempts : gmap nat activeAttempt;
  wd_byKey : gmap attemptKey nat;
  wd_byID : gmap string nat;
  wd_next : nat;
  wd_holder : gmap nat nat;
  wd_durable : gmap nat durable;
  wd_hands : gmap Z nat;
  wd_given : gset Z;
  wd_disposed : gset Z
}.

Definition empty_world : World := {|
  wd_attempts := ∅; wd_byKey := ∅; wd_byID := ∅; wd_next := 0; wd_holder := ∅; wd_durable := ∅; wd_hands := ∅;
  wd_given := ∅; wd_disposed := ∅ |}.

Definition with_durable (d : gmap nat durable) (w : World) : World := {|
  wd_attempts := wd_attempts w; wd_byKey := wd_byKey w; wd_byID := wd_byID w; wd_next := wd_next w;
  wd_holder := wd_holder w; wd_durable := d; wd_hands := wd_hands w; wd_given := wd_given w;
  wd_disposed := wd_disposed w |}.

Definition with_hands (hands : gmap Z nat) (given disposed : gset Z) (w : World) : World := {|
  wd_attempts := wd_attempts w; wd_byKey := wd_byKey w; wd_byID := wd_byID w; wd_next := wd_next w;
  wd_holder := wd_holder w; wd_durable := wd_durable w; wd_hands := hands; wd_given := given; wd_disposed := disposed |}.

(** [isCurrentLocked] *)
Definition isCurrent (w : World) (p : nat) (a : activeAttempt) : bool :=
  bool_decide (wd_byID w !! at_ID (aa_Attempt a) = Some p) && bool_decide (wd_byKey w !! aa_key a = Some p).

(** [removeLocked] *)
Definition drop_entry {K} `{Countable K} (k : K) (p : nat) (m : gmap K nat) : gmap K nat :=
  if bool_decide (m !! k = Some p) then delete k m else m.

(** Thread [i] leaves a region of [p] in which the attempt [a] became [a']. *)
Definition leave (i p : nat) (a a' : activeAttempt) (remove : bool) (w : World) : World := {|
  wd_attempts := <[p := a']> (wd_attempts w);
  wd_byKey := if remove then drop_entry (aa_key a) p (wd_byKey w) else wd_byKey w;
  wd_byID := if remove then drop_entry (at_ID (aa_Attempt a)) p (wd_byID w) else wd_byID w;
  wd_next := wd_next w;
  wd_holder := if bool_decide (aa_operation a' = operationIdle) then delete p (wd_holder w)
               else match wd_holder w !! p with Some _ => wd_holder w | None => <[p := i]> (wd_holder w) end;
  wd_durable := wd_durable w;
  wd_hands := match aa_handle a, aa_handle a' with
              | Some h, None => <[h := i]> (wd_hands w)
              | None, Some h => delete h (wd_hands w)
              | _, _ => wd_hands w
              end;
  wd_given := wd_given w;
  wd_disposed := wd_disposed w |}.

(** A new attempt, reserved by the thread that registers it. *)
Definition register (i : nat) (a : activeAttempt) (w : World) : World := {|
  wd_attempts := <[wd_next w := a]> (wd_attempts w);
  wd_byKey := <[aa_key a := wd_next w]> (wd_byKey w);
  wd_byID := <[at_ID (aa_Attempt a) := wd_next w]> (wd_byID w);
  wd_next := S (wd_next w);
  wd_holder := <[wd_next w := i]> (wd_holder w);
  wd_durable := wd_durable w; wd_hands := wd_hands w; wd_given := wd_given w; wd_disposed := wd_disposed w |}.

(** What the repository's answer says of the durable pairing. *)
Definition resolve (p : nat) (err : error) (outcome : durable) (w : World) : World :=
  if is_nil err then with_durable (<[p := outcome]> (wd_durable w)) w
  else if errors_Is err ErrAttemptSuperseded then with_durable (<[p := Superseded]> (wd_durable w)) w
  else w.

Definition respond (i : nat) (X : Type) (c : PairingCall X) (w : World) : X -> option World :=
  match c in PairingCall X return X -> option World with
  | Locked p f => fun x =>
    let '(now, current, a) := x in
    match wd_attempts w !! p with
    | Some a0 =>
      if bool_decide (a0 = a) && Bool.eqb (isCurrent w p a) current
      then let '(a', remove) := f now current a in Some (leave i p a a' remove w) else None
    | None => None
    end
  | ByKey key => fun x =>
    let found := match wd_byKey w !! key with
                 | Some p => (fun a => (p, at_ID (aa_Attempt a))) <$> wd_attempts w !! p
                 | None => None
                 end in
    if bool_decide (found = x) then Some w else None
  | Get key pairingID => fun x =>
    let found := match wd_byID w !! pairingID with
                 | Some p => match wd_attempts w !! p with
                             | Some a => if bool_decide (aa_key a = key) then Some p else None
                             | None => None
                             end
                 | None => None
                 end in
    if bool_decide (found = x) then Some w else None
  | Register a => fun x =>
    let taken := bool_decide (is_Some (wd_byKey w !! aa_key a)) || bool_decide (is_Some (wd_byID w !! at_ID (aa_Attempt a))) in
    match x with
    | Some p => if negb taken && bool_decide (p = wd_next w) then Some (register i a w) else None
    | None => if taken then Some w else None
    end
  | Registered => fun x => if bool_decide (x ≡ₚ (map_to_list (wd_byKey w)).*2) then Some w else None
  | Now | NewID | Seal _ _ | GetConnection _ | ReconcileStale _ _ | MarkReauthorization _ => fun _ => Some w
  | BeginPairing p _ _ _ => fun x =>
    match x with Ok _ => Some (with_durable (<[p := Begun]> (wd_durable w)) w) | Err _ => Some w end
  | RestorePairing p _ _ => fun err => Some (resolve p err Restored w)
  | CommitPairedSession p _ _ _ _ => fun err => Some (resolve p err Committed w)
  | Discover _ _ => fun x =>
    match x.1.1 with
    | Some h => (* a handle is new *)
      if bool_decide (h ∈ wd_given w) then None
      else Some (with_hands (<[h := i]> (wd_hands w)) ({[h]} ∪ wd_given w) (wd_disposed w) w)
    | None => Some w
    end
  | StartApproval _ _ _ | Complete _ _ => fun _ => Some w
  | Dispose handle _ => fun _ =>
    match handle with
    | Some h => Some (with_hands (delete h (wd_hands w)) (wd_given w) ({[h]} ∪ wd_disposed w) w)
    | None => Some w
    end
  end.
