(* ===== verification/PairingSafety.v ===== *)
(** * Pairing attempts are handled by one operation at a time

    Any number of threads run the operations of the pairing service over one
    registry. Each region keeps the invariant of the registry and what every other
    thread relies on, so that a reserved attempt belongs to the thread that reserved
    it, a provider handle is used and disposed of once, and a durable pairing is never
    forgotten. *)

From S2P Require Import Prelude GoText Crypto Domain Session Store Connections Rely PairingService.

Record registry_ok (w : World) : Prop := {
  ok_byID : forall id p, wd_byID w !! id = Some p ->
    exists a, wd_attempts w !! p = Some a /\ at_ID (aa_Attempt a) = id /\ wd_byKey w !! aa_key a = Some p;
  ok_byKey : forall k p, wd_byKey w !! k = Some p ->
    exists a, wd_attempts w !! p = Some a /\ aa_key a = k /\ wd_byID w !! at_ID (aa_Attempt a) = Some p;
  ok_fresh : forall p, (wd_next w <= p)%nat -> wd_attempts w !! p = None;
  ok_holder : forall p a, wd_attempts w !! p = Some a -> is_Some (wd_holder w !! p) <-> aa_operation a <> operationIdle;
  ok_holder_dom : forall p, is_Some (wd_holder w !! p) -> is_Some (wd_attempts w !! p);
  ok_durable : forall p, wd_durable w !! p = Some Begun -> exists a, wd_attempts w !! p = Some a /\
    isCurrent w p a = true /\ (aa_pairingPersisted a = true \/ aa_operation a = operationStart);
  ok_durable_dom : forall p, is_Some (wd_durable w !! p) -> is_Some (wd_attempts w !! p);
  ok_stored : forall p a h, wd_attempts w !! p = Some a -> aa_handle a = Some h ->
    wd_hands w !! h = None /\ h ∉ wd_disposed w;
  ok_stored_inj : forall p1 p2 a1 a2 h, wd_attempts w !! p1 = Some a1 -> wd_attempts w !! p2 = Some a2 ->
    aa_handle a1 = Some h -> aa_handle a2 = Some h -> p1 = p2;
  ok_hands : forall h i, wd_hands w !! h = Some i -> h ∉ wd_disposed w;
  ok_given : forall h, h ∈ wd_given w <->
    h ∈ wd_disposed w \/ is_Some (wd_hands w !! h) \/ exists p a, wd_attempts w !! p = Some a /\ aa_handle a = Some h;
  ok_kept : forall p a, wd_attempts w !! p = Some a -> aa_handle a <> None -> isCurrent w p a = true /\ aa_pending a = None
}.

(** The same attempt up to its timer, its state and the devices it shows: what a thread
    that has not reserved an attempt may still change of it. *)
Definition alike (a a' : activeAttempt) : Prop :=
  exists t state devices, a' = set_timer t (set_public state devices (at_Emoji (aa_Attempt a)) a).

(** What thread [j] relies on: what it reserved stays as it is, in that sense, so do
    the handles it has in hand, and an attempt never changes its connection. *)
Record rely (j : nat) (w w' : World) : Prop := {
  rely_held : forall p a, wd_holder w !! p = Some j -> wd_attempts w !! p = Some a ->
    wd_holder w' !! p = Some j /\ (exists a', wd_attempts w' !! p = Some a' /\ alike a a') /\
    (isCurrent w p a = true -> isCurrent w' p a = true) /\ wd_durable w' !! p = wd_durable w !! p;
  rely_hands : forall h, wd_hands w' !! h = Some j <-> wd_hands w !! h = Some j;
  rely_keys : forall p a, wd_attempts w !! p = Some a -> exists a', wd_attempts w' !! p = Some a' /\ aa_key a' = aa_key a
}.

(** What thread [i] may do to the attempt [p] in a region. *)
Definition change_ok (i : nat) (w : World) (p : nat) (a a' : activeAttempt) (remove : bool) : Prop :=
  (remove = false /\ alike a a') \/
  (at_ID (aa_Attempt a') = at_ID (aa_Attempt a) /\ aa_key a' = aa_key a /\
   (wd_holder w !! p = Some i \/ aa_operation a = operationIdle) /\
   (remove = true -> wd_durable w !! p <> Some Begun) /\
   (wd_durable w !! p = Some Begun -> aa_pairingPersisted a' = true \/ aa_operation a' = operationStart) /\
   (aa_handle a' <> None -> aa_pending a' = None /\ remove = false /\ (aa_handle a = None -> isCurrent w p a = true)) /\
   match aa_handle a, aa_handle a' with
   | Some h, Some h' => h = h'
   | None, Some h => wd_hands w !! h = Some i
   | _, None => True
   end).

(** The thread has reserved [p], whose fields satisfy [P]. *)
Definition reserved (i : nat) (w : World) (p : nat) (P : activeAttempt -> Prop) : Prop :=
  wd_holder w !! p = Some i /\ exists a, wd_attempts w !! p = Some a /\ P a.

Definition identified (key : attemptKey) (id : string) (a : activeAttempt) : Prop :=
  aa_key a = key /\ at_ID (aa_Attempt a) = id.

(** What holds when thread [i] makes a call. *)
Definition allowed (i : nat) (X : Type) (c : PairingCall X) (w : World) : Prop :=
  match c with
  | Locked p f => forall now a, wd_attempts w !! p = Some a ->
      let '(a', remove) := f now (isCurrent w p a) a in change_ok i w p a a' remove
  | Register a => aa_operation a = operationStart /\ aa_handle a = None
  | BeginPairing p key id _ => wd_durable w !! p = None /\
      reserved i w p (fun a => identified key id a /\ aa_operation a = operationStart /\ isCurrent w p a = true)
  | RestorePairing p key id => reserved i w p (fun a => identified key id a /\ aa_operation a = operationCleanup)
  | CommitPairedSession p key id _ _ =>
      reserved i w p (fun a => identified key id a /\ aa_operation a = operationComplete /\ isCurrent w p a = true)
  | Discover p _ => reserved i w p (fun a => aa_operation a = operationStart /\ isCurrent w p a = true)
  | StartApproval p handle _ => reserved i w p (fun a => aa_operation a = operationSelect /\ aa_handle a = handle)
  | Complete p handle => reserved i w p (fun a => aa_operation a = operationComplete /\ aa_handle a = handle /\ isCurrent w p a = true)
  | Dispose (Some h) _ => wd_hands w !! h = Some i
  | _ => True
  end.

(** ** Every allowed call keeps the registry and what the others rely on *)

Lemma isCurrent_iff w p a :
  isCurrent w p a = true <-> wd_byID w !! at_ID (aa_Attempt a) = Some p /\ wd_byKey w !! aa_key a = Some p.
Proof. unfold isCurrent. rewrite andb_true_iff, !bool_decide_eq_true. done. Qed.

Lemma drop_entry_Some {K} `{Countable K} (k k' : K) p q (m : gmap K nat) :
  drop_entry k p m !! k' = Some q -> m !! k' = Some q /\ (k' = k -> q <> p).
Proof.
  unfold drop_entry. destruct (bool_decide (m !! k = Some p)) eqn:E; reflect_bools.
  - intros [Hne Hm]%lookup_delete_Some. split; [done|]. intros ->. done.
  - intros Hm. split; [done|]. intros -> ->. done.
Qed.

Lemma drop_entry_other {K} `{Countable K} (k k' : K) p q (m : gmap K nat) :
  m !! k' = Some q -> q <> p -> drop_entry k p m !! k' = Some q.
Proof.
  intros Hm Hne. unfold drop_entry. destruct (bool_decide (m !! k = Some p)) eqn:E; [|done]. reflect_bools.
  rewrite lookup_delete_ne; [done|]. intros ->. congruence.
Qed.

(** What a region changes, as a thread sees it afterwards. *)
Lemma change_same i w p a a' remove :
  change_ok i w p a a' remove -> at_ID (aa_Attempt a') = at_ID (aa_Attempt a) /\ aa_key a' = aa_key a.
Proof. intros [[_ (t & state & devices & ->)]|(? & ? & _)]; done. Qed.

Section Leave.
Variables (i p : nat) (a a' : activeAttempt) (remove : bool) (w : World).
Hypothesis Hw : registry_ok w.
Hypothesis Ha : wd_attempts w !! p = Some a.
Hypothesis Hc : change_ok i w p a a' remove.

Lemma leave_current q b :
  (q = p -> remove = false) -> isCurrent w q b = true -> isCurrent (leave i p a a' remove w) q b = true.
Proof.
  intros Hq [H1 H2]%isCurrent_iff. apply isCurrent_iff. cbn. destruct remove; [|done].
  assert (q <> p) by (intros ->; by specialize (Hq eq_refl)). split; by apply drop_entry_other.
Qed.

(** Attempts other than [p] are untouched. *)
Lemma leave_holder q : q <> p -> wd_holder (leave i p a a' remove w) !! q = wd_holder w !! q.
Proof.
  intros Hne. cbn. destruct (bool_decide _); [by rewrite lookup_delete_ne|].
  destruct (wd_holder w !! p); [done|]. by rewrite lookup_insert_ne.
Qed.

Lemma leave_holder_self :
  is_Some (wd_holder (leave i p a a' remove w) !! p) <-> aa_operation a' <> operationIdle.
Proof.
  cbn. destruct (bool_decide (aa_operation a' = operationIdle)) eqn:E; reflect_bools.
  - rewrite lookup_delete_eq, E. split; [by intros [? ?] | done].
  - split; [done|]. intros _. destruct (wd_holder w !! p) eqn:Eh; [by rewrite Eh|]. rewrite lookup_insert_eq. by eexists.
Qed.

(** The handle of [p] moves between the attempt and the thread's hand. *)
Lemma leave_hands h j :
  wd_hands (leave i p a a' remove w) !! h = Some j ->
  (wd_hands w !! h = Some j /\ aa_handle a' <> Some h) \/ (j = i /\ aa_handle a = Some h /\ aa_handle a' = None).
Proof.
  intros H. destruct Hc as [[_ (t & state & devices & ->)]|(_ & _ & _ & _ & _ & _ & Hh)]; cbn in H.
  - destruct (aa_handle a) as [h0|] eqn:E; (left; split; [done|]); cbn; rewrite E; [|done].
    intros [= ->]. destruct (ok_stored w Hw _ _ _ Ha E). congruence.
  - destruct (aa_handle a) as [h0|] eqn:E, (aa_handle a') as [h1|] eqn:E'.
    + subst h1. left. split; [done|]. intros [= ->]. destruct (ok_stored w Hw _ _ _ Ha E). congruence.
    + apply lookup_insert_Some in H as [[<- <-]|[? ?]]; [by right | by left].
    + apply lookup_delete_Some in H as [? ?]. left. split; [done|]. congruence.
    + by left.
Qed.

Lemma leave_hands_other h : aa_handle a <> Some h -> aa_handle a' <> Some h ->
  wd_hands (leave i p a a' remove w) !! h = wd_hands w !! h.
Proof.
  intros H1 H2. cbn. destruct (aa_handle a) as [h0|], (aa_handle a') as [h1|]; try done.
  - rewrite lookup_insert_ne; congruence.
  - rewrite lookup_delete_ne; congruence.
Qed.

(** A handle the attempt has afterwards was its own or came from the thread's hand. *)
Lemma leave_handle h : aa_handle a' = Some h -> aa_handle a = Some h \/ (aa_handle a = None /\ wd_hands w !! h = Some i).
Proof.
  intros H. destruct Hc as [[_ (t & state & devices & ->)]|(_ & _ & _ & _ & _ & _ & Hh)]; [by left|].
  rewrite H in Hh. destruct (aa_handle a) as [h0|]; [left; congruence | by right].
Qed.

Abbreviation left := (leave i p a a' remove w).

Lemma leave_byID id q : wd_byID left !! id = Some q -> wd_byID w !! id = Some q /\ (remove = true -> id = at_ID (aa_Attempt a) -> q <> p).
Proof. cbn. destruct remove; [|done]. intros [H1 H2]%drop_entry_Some. auto. Qed.

Lemma leave_byKey k q : wd_byKey left !! k = Some q -> wd_byKey w !! k = Some q /\ (remove = true -> k = aa_key a -> q <> p).
Proof. cbn. destruct remove; [|done]. intros [H1 H2]%drop_entry_Some. auto. Qed.

Lemma leave_attempt q b : wd_attempts left !! q = Some b -> (q = p /\ b = a') \/ (q <> p /\ wd_attempts w !! q = Some b).
Proof. cbn. intros [[<- <-]|[? ?]]%lookup_insert_Some; auto. Qed.

Lemma leave_attempt_dom q : is_Some (wd_attempts w !! q) -> is_Some (wd_attempts left !! q).
Proof. intros H. cbn. rewrite lookup_insert_is_Some. destruct (decide (p = q)); auto. Qed.

(** Registered attempts other than a removed one stay registered. *)
Lemma leave_registered q b :
  wd_attempts w !! q = Some b -> isCurrent w q b = true -> (q = p -> remove = false) ->
  exists b', wd_attempts left !! q = Some b' /\ at_ID (aa_Attempt b') = at_ID (aa_Attempt b) /\ aa_key b' = aa_key b /\
    wd_byID left !! at_ID (aa_Attempt b) = Some q /\ wd_byKey left !! aa_key b = Some q.
Proof.
  intros Hb Hcur Hq. destruct (change_same _ _ _ _ _ _ Hc) as [Hid Hkey].
  pose proof (leave_current q b Hq Hcur) as [H1 H2]%isCurrent_iff.
  destruct (decide (q = p)) as [->|Hne].
  - assert (b = a) as -> by congruence. exists a'. cbn [wd_attempts leave]. rewrite lookup_insert_eq. done.
  - exists b. cbn [wd_attempts leave]. rewrite lookup_insert_ne by done. done.
Qed.

Lemma leave_index_ok :
  (forall id q, wd_byID left !! id = Some q ->
    exists b, wd_attempts left !! q = Some b /\ at_ID (aa_Attempt b) = id /\ wd_byKey left !! aa_key b = Some q) /\
  (forall k q, wd_byKey left !! k = Some q ->
    exists b, wd_attempts left !! q = Some b /\ aa_key b = k /\ wd_byID left !! at_ID (aa_Attempt b) = Some q).
Proof.
  split.
  - intros id q [H Hr]%leave_byID. destruct (ok_byID w Hw _ _ H) as (b & Hb & Hid & Hk).
    destruct (leave_registered q b Hb) as (b' & Hb' & Hid' & Hk' & _ & Hreg).
    { apply isCurrent_iff. by rewrite Hid. }
    { intros ->. destruct remove; [|done]. assert (b = a) as -> by congruence. by destruct (Hr eq_refl). }
    exists b'. rewrite Hid', Hk'. done.
  - intros k q [H Hr]%leave_byKey. destruct (ok_byKey w Hw _ _ H) as (b & Hb & Hk & Hid).
    destruct (leave_registered q b Hb) as (b' & Hb' & Hid' & Hk' & Hreg & _).
    { apply isCurrent_iff. by rewrite Hk. }
    { intros ->. destruct remove; [|done]. assert (b = a) as -> by congruence. by destruct (Hr eq_refl). }
    exists b'. rewrite Hid', Hk'. done.
Qed.

Lemma leave_durable q : wd_durable w !! q = Some Begun -> exists b, wd_attempts left !! q = Some b /\
  isCurrent left q b = true /\ (aa_pairingPersisted b = true \/ aa_operation b = operationStart).
Proof.
  intros Hd. destruct (ok_durable w Hw _ Hd) as (b & Hb & Hcur & Hp).
  destruct (leave_registered q b Hb Hcur) as (b' & Hb' & Hid & Hk & H1 & H2).
  { intros ->. destruct Hc as [[-> _]|(_ & _ & _ & Hr & _)]; [done|]. destruct remove; [|done]. by destruct (Hr eq_refl). }
  exists b'. split; [done|]. split; [apply isCurrent_iff; by rewrite Hid, Hk|].
  apply leave_attempt in Hb' as [[-> ->]|[_ Hb']]; [|congruence].
  destruct Hc as [[_ (t & state & devices & ->)]|(_ & _ & _ & _ & Hpers & _)]; [|auto]. assert (b = a) as -> by congruence. done.
Qed.

Lemma leave_stored q b h : wd_attempts left !! q = Some b -> aa_handle b = Some h ->
  wd_hands left !! h = None /\ h ∉ wd_disposed left.
Proof.
  intros Hb Hh. assert (h ∉ wd_disposed w) as Hd.
  { apply leave_attempt in Hb as [[-> ->]|[_ Hb]]; [|by destruct (ok_stored w Hw _ _ _ Hb Hh)].
    apply leave_handle in Hh as [Hh|[_ Hh]]; [by destruct (ok_stored w Hw _ _ _ Ha Hh) | by apply (ok_hands w Hw) in Hh]. }
  split; [|done]. destruct (wd_hands left !! h) as [j|] eqn:E; [|done]. exfalso.
  apply leave_hands in E as [[E Hne]|(-> & Hha & Hha')]; (apply leave_attempt in Hb as [[-> ->]|[Hq Hb]]; [congruence|]).
  - destruct (ok_stored w Hw _ _ _ Hb Hh). congruence.
  - by apply Hq, (ok_stored_inj w Hw _ _ _ _ h Hb Ha).
Qed.

Lemma leave_stored_inj q b h : q <> p -> wd_attempts w !! q = Some b -> aa_handle b = Some h -> aa_handle a' <> Some h.
Proof.
  intros Hne Hb Hh [Hh'|[_ Hh']]%leave_handle.
  - by apply Hne, (ok_stored_inj w Hw _ _ _ _ h Hb Ha).
  - destruct (ok_stored w Hw _ _ _ Hb Hh). congruence.
Qed.

(** No handle is lost: one the attempt gives up is in the thread's hand. *)
Lemma leave_given h : h ∈ wd_given left <->
  h ∈ wd_disposed left \/ is_Some (wd_hands left !! h) \/ exists q b, wd_attempts left !! q = Some b /\ aa_handle b = Some h.
Proof.
  change (wd_given left) with (wd_given w). change (wd_disposed left) with (wd_disposed w). rewrite (ok_given w Hw). split.
  - intros [H|H]; [by left | right]. destruct (decide (aa_handle a' = Some h)) as [E'|E'].
    { right. exists p, a'. split; [apply lookup_insert_eq | done]. }
    destruct (decide (aa_handle a = Some h)) as [E|E].
    { left. cbn. rewrite E. destruct (aa_handle a') as [h'|] eqn:Ea'; [|rewrite lookup_insert_eq; by eexists].
      destruct (leave_handle h' Ea') as [?|[? _]]; congruence. }
    rewrite leave_hands_other by done. destruct H as [H|(q & b & Hb & Hh)]; [by left | right]. exists q, b.
    split; [|done]. cbn. rewrite lookup_insert_ne; [done | congruence].
  - intros [H|[[j H]|(q & b & Hb & Hh)]]; [by left | right | right].
    + apply leave_hands in H as [[H _]|(_ & H & _)]; [left; by eexists | right; by exists p, a].
    + apply leave_attempt in Hb as [[-> ->]|[_ Hb]]; [|right; by exists q, b].
      destruct (leave_handle h Hh) as [?|[_ ?]]; [right; by exists p, a | left; by eexists].
Qed.

Lemma leave_kept q b : wd_attempts left !! q = Some b -> aa_handle b <> None -> isCurrent left q b = true /\ aa_pending b = None.
Proof.
  intros Hb Hh. destruct (change_same _ _ _ _ _ _ Hc) as [Hid Hkey].
  apply leave_attempt in Hb as [[-> ->]|[Hne Hb]].
  - assert (remove = false /\ aa_pending a' = None /\ isCurrent w p a = true) as (Hr & Hpend & Hcur).
    { destruct Hc as [[-> (t & state & devices & ->)]|(_ & _ & _ & _ & _ & Hk & _)].
      - destruct (ok_kept w Hw _ _ Ha Hh). auto.
      - destruct (Hk Hh) as (? & ? & Hcur). split; [done|]. split; [done|].
        destruct (decide (aa_handle a = None)) as [E|E]; [by apply Hcur | by destruct (ok_kept w Hw _ _ Ha E)]. }
    split; [|done]. apply leave_current; [done|]. unfold isCurrent in *. by rewrite Hid, Hkey.
  - destruct (ok_kept w Hw _ _ Hb Hh). split; [by apply leave_current | done].
Qed.

Lemma leave_ok : registry_ok left.
Proof.
  destruct leave_index_ok as [HbyID HbyKey]. constructor; [done | done | ..].
  - intros q Hq. cbn. rewrite lookup_insert_ne; [by apply (ok_fresh w Hw)|].
    intros <-. by rewrite (ok_fresh w Hw) in Ha.
  - intros q b [[-> ->]|[Hne Hb]]%leave_attempt; [apply leave_holder_self|]. rewrite leave_holder by done. by apply (ok_holder w Hw).
  - intros q Hq. destruct (decide (q = p)) as [->|Hne]; [cbn; rewrite lookup_insert_eq; by eexists|].
    rewrite leave_holder in Hq by done. by apply leave_attempt_dom, (ok_holder_dom w Hw).
  - intros q. apply leave_durable.
  - intros q Hq. by apply leave_attempt_dom, (ok_durable_dom w Hw).
  - apply leave_stored.
  - intros q1 q2 b1 b2 h [[-> ->]|[Hne1 Hb1]]%leave_attempt [[-> ->]|[Hne2 Hb2]]%leave_attempt H1 H2; [done | .. | by eapply (ok_stored_inj w Hw)].
    + by destruct (leave_stored_inj q2 b2 h Hne2 Hb2 H2).
    + by destruct (leave_stored_inj q1 b1 h Hne1 Hb1 H1).
  - intros h j [[H _]|(_ & H & _)]%leave_hands; [by eapply (ok_hands w Hw) | by destruct (ok_stored w Hw _ _ _ Ha H)].
  - apply leave_given.
  - apply leave_kept.
Qed.

Lemma alike_refl b : alike b b.
Proof. exists (aa_timer b), (at_State (aa_Attempt b)), (at_Devices (aa_Attempt b)). by destruct b as [[]]. Qed.

(** Only the thread that reserved [p] changes what others rely on. *)
Lemma leave_frame j : j <> i -> wd_holder w !! p = Some j -> remove = false /\ alike a a' /\ wd_holder left !! p = Some j.
Proof.
  intros Hne Hj. assert (aa_operation a <> operationIdle) as Hop by (apply (ok_holder w Hw _ _ Ha); by eexists).
  destruct Hc as [[-> Hal]|(_ & _ & [Hi|Hi] & _)]; [|congruence|done]. split; [done|]. split; [done|]. cbn.
  destruct Hal as (t & state & devices & ->). cbn. rewrite bool_decide_eq_false_2 by done. by rewrite Hj.
Qed.

Lemma leave_rely j : j <> i -> rely j w left.
Proof.
  intros Hne. constructor.
  - intros q b Hq Hb. destruct (decide (q = p)) as [->|Hqp].
    + destruct (leave_frame j Hne Hq) as (Hr & Hal & Hh). assert (b = a) as -> by congruence. split; [done|].
      split; [exists a'; cbn; by rewrite lookup_insert_eq|]. split; [by apply leave_current | done].
    + rewrite leave_holder by done. split; [done|].
      split; [exists b; cbn; rewrite lookup_insert_ne by done; split; [done | apply alike_refl]|]. split; [by apply leave_current | done].
  - intros h. split.
    + by intros [[? _]|[-> _]]%leave_hands.
    + intros Hh. rewrite leave_hands_other; [done|..].
      * intros E. destruct (ok_stored w Hw _ _ _ Ha E). congruence.
      * intros [E|[_ E]]%leave_handle; [|congruence]. destruct (ok_stored w Hw _ _ _ Ha E). congruence.
  - intros q b Hb. cbn. destruct (decide (q = p)) as [->|Hqp]; [exists a' | exists b].
    + rewrite lookup_insert_eq. split; [done|]. destruct (change_same _ _ _ _ _ _ Hc). congruence.
    + by rewrite lookup_insert_ne.
Qed.
End Leave.

Lemma rely_refl j w : rely j w w.
Proof. constructor; [|done | eauto]. intros p a Hp Ha. split; [done|]. split; [exists a; split; [done | apply alike_refl] | done]. Qed.

(** The repository's answer for an attempt the thread reserved. *)
Lemma durable_ok i w p a d :
  registry_ok w -> wd_holder w !! p = Some i -> wd_attempts w !! p = Some a ->
  (d = Begun -> isCurrent w p a = true /\ aa_operation a = operationStart) ->
  registry_ok (with_durable (<[p := d]> (wd_durable w)) w) /\
  forall j, j <> i -> rely j w (with_durable (<[p := d]> (wd_durable w)) w).
Proof.
  intros Hw Hi Ha Hd. split.
  - destruct Hw. constructor; cbn; try done.
    + intros q [[<- ->]|[_ Hq]]%lookup_insert_Some; [|by apply ok_durable0]. exists a. destruct (Hd eq_refl). auto.
    + intros q [x [[<- <-]|[_ Hq]]%lookup_insert_Some]; [by eexists | apply ok_durable_dom0; by eexists].
  - intros j Hne. constructor; [|done | by apply (rely_refl j w)]. intros q b Hq Hb. destruct (rely_held _ _ _ (rely_refl j w) _ _ Hq Hb) as (? & ? & ? & _).
    split; [done|]. split; [done|]. split; [done|]. cbn. rewrite lookup_insert_ne; [done|]. intros ->. congruence.
Qed.

Lemma resolve_ok i w p a err outcome :
  registry_ok w -> wd_holder w !! p = Some i -> wd_attempts w !! p = Some a -> outcome <> Begun ->
  registry_ok (resolve p err outcome w) /\ forall j, j <> i -> rely j w (resolve p err outcome w).
Proof.
  intros Hw Hi Ha Hne. unfold resolve. destruct (is_nil err); [by eapply durable_ok|].
  destruct (errors_Is err _); [by eapply durable_ok | split; [done | intros; apply rely_refl]].
Qed.

(** The handles a thread has in hand. *)
Lemma discover_ok i w h :
  registry_ok w -> h ∉ wd_given w ->
  registry_ok (with_hands (<[h := i]> (wd_hands w)) ({[h]} ∪ wd_given w) (wd_disposed w) w) /\
  forall j, j <> i -> rely j w (with_hands (<[h := i]> (wd_hands w)) ({[h]} ∪ wd_given w) (wd_disposed w) w).
Proof.
  intros Hw Hnew. rewrite (ok_given w Hw) in Hnew. split.
  - destruct Hw. constructor; cbn; try done.
    + intros q b h' Hb Hh'. destruct (ok_stored0 q b h' Hb Hh') as [H1 H2]. split; [|done]. rewrite lookup_insert_ne; [done|].
      intros <-. eauto 10.
    + intros h' j [[<- _]|[_ H]]%lookup_insert_Some; [auto | by eapply ok_hands0].
    + intros h'. rewrite elem_of_union, elem_of_singleton, ok_given0, lookup_insert_is_Some'. clear. naive_solver.
  - intros j Hne. constructor; [by apply (rely_refl j w) | | by apply (rely_refl j w)]. intros h'. cbn. rewrite lookup_insert_Some. split.
    + intros [[_ ->]|[_ H]]; done.
    + intros H. right. split; [|done]. intros <-. destruct Hnew. right. left. by eexists.
Qed.

Lemma dispose_ok i w h :
  registry_ok w -> wd_hands w !! h = Some i ->
  registry_ok (with_hands (delete h (wd_hands w)) (wd_given w) ({[h]} ∪ wd_disposed w) w) /\
  forall j, j <> i -> rely j w (with_hands (delete h (wd_hands w)) (wd_given w) ({[h]} ∪ wd_disposed w) w).
Proof.
  intros Hw Hh. split.
  - destruct Hw. constructor; cbn; try done.
    + intros q b h' Hb Hh'. destruct (ok_stored0 q b h' Hb Hh') as [H1 H2]. rewrite lookup_delete_None. split; [auto|].
      assert (h <> h') by (intros <-; congruence). set_solver.
    + intros h' j [Hne H]%lookup_delete_Some. apply ok_hands0 in H. set_solver.
    + intros h'. rewrite ok_given0, elem_of_union, elem_of_singleton, lookup_delete_is_Some.
      destruct (decide (h = h')) as [<-|Hne]; [|clear -Hne; naive_solver]. split; [auto|]. intros _. right. left. by eexists.
  - intros j Hne. constructor; [by apply (rely_refl j w) | | by apply (rely_refl j w)]. intros h'. cbn. rewrite lookup_delete_Some. split; [by intros [_ ?]|].
    intros H. split; [|done]. intros <-. congruence.
Qed.

Lemma register_ok i w a :
  registry_ok w -> aa_operation a = operationStart -> aa_handle a = None ->
  wd_byKey w !! aa_key a = None -> wd_byID w !! at_ID (aa_Attempt a) = None ->
  registry_ok (register i a w) /\ forall j, j <> i -> rely j w (register i a w).
Proof.
  intros Hw Hop Hh Hk Hid. assert (wd_attempts w !! wd_next w = None) as Hnew by (by apply (ok_fresh w Hw)).
  assert (forall q, is_Some (wd_attempts w !! q) -> wd_next w <> q) as Hold by (intros q [x Hq] <-; congruence).
  assert (forall q b, wd_attempts w !! q = Some b -> isCurrent w q b = true -> isCurrent (register i a w) q b = true) as Hcur.
  { intros q b Hb [H1 H2]%isCurrent_iff. apply isCurrent_iff. cbn. rewrite !lookup_insert_ne by congruence. done. }
  assert (forall q b, wd_attempts (register i a w) !! q = Some b -> (q = wd_next w /\ b = a) \/ wd_attempts w !! q = Some b) as Hsplit.
  { intros q b. cbn. intros [[<- <-]|[_ ?]]%lookup_insert_Some; auto. }
  split.
  - destruct Hw. constructor.
    + cbn. intros id q [[<- <-]|[Hne Hq]]%lookup_insert_Some.
      { exists a. by rewrite !lookup_insert_eq. }
      destruct (ok_byID0 _ _ Hq) as (b & Hb & Hbid & Hbk). exists b. rewrite !lookup_insert_ne; [done | congruence..].
    + cbn. intros k q [[<- <-]|[Hne Hq]]%lookup_insert_Some.
      { exists a. by rewrite !lookup_insert_eq. }
      destruct (ok_byKey0 _ _ Hq) as (b & Hb & Hbk & Hbid). exists b. rewrite !lookup_insert_ne; [done | congruence..].
    + cbn. intros q Hq. rewrite lookup_insert_ne by lia. apply ok_fresh0. lia.
    + intros q b [[-> ->]|Hb]%Hsplit; cbn.
      { rewrite lookup_insert_eq, Hop. split; [done | by eexists]. }
      rewrite lookup_insert_ne by (apply Hold; by eexists). by apply ok_holder0.
    + cbn. intros q Hq. rewrite lookup_insert_is_Some. apply lookup_insert_is_Some in Hq as [?|[? ?]]; auto.
    + intros q Hq. destruct (ok_durable0 q Hq) as (b & Hb & Hc & Hp). exists b. split; [|auto]. cbn.
      rewrite lookup_insert_ne; [done|]. apply Hold. by eexists.
    + cbn. intros q Hq. apply ok_durable_dom0 in Hq. rewrite lookup_insert_is_Some. auto.
    + intros q b h [[-> ->]|Hb]%Hsplit Hb'; [congruence|]. by eapply ok_stored0.
    + intros q1 q2 b1 b2 h [[-> ->]|H1]%Hsplit [[-> ->]|H2]%Hsplit ? ?; [done | congruence.. | by eapply ok_stored_inj0].
    + done.
    + intros h. change (wd_given (register i a w)) with (wd_given w). rewrite ok_given0. cbn. split.
      * intros [H|[H|(q & b & Hb & H)]]; [auto..|]. do 2 right. exists q, b. rewrite lookup_insert_ne; [done|]. apply Hold. by eexists.
      * intros [H|[H|(q & b & [[-> ->]|Hb]%Hsplit & H)]]; [auto.. | congruence |]. eauto 10.
    + intros q b [[-> ->]|Hb]%Hsplit H; [congruence|]. destruct (ok_kept0 _ _ Hb H). split; [by apply Hcur | done].
  - intros j Hne. constructor; [|done|]; [|intros q b Hb; exists b; cbn; rewrite lookup_insert_ne; [done | apply Hold; by eexists]].
    intros q b Hq Hb. assert (wd_next w <> q) by (apply Hold; by eexists). cbn.
    rewrite !lookup_insert_ne by done. split; [done|]. split; [exists b; split; [done | apply alike_refl]|].
    split; [by apply Hcur | done].
Qed.

Lemma guarantee i X (c : PairingCall X) w x w' :
  registry_ok w -> allowed i X c w -> respond i X c w x = Some w' -> registry_ok w' /\ forall j, j <> i -> rely j w w'.
Proof.
  intros Hw Hal Hr.
  assert (w' = w -> registry_ok w' /\ forall j, j <> i -> rely j w w') as Hsame by (intros ->; split; [done | intros; apply rely_refl]).
  destruct c; cbn in Hr; try (injection Hr as <-; by apply Hsame); try (destruct (bool_decide _); [injection Hr as <-; by apply Hsame | done]).
  - destruct x as [[now current] a]. destruct (wd_attempts w !! p) as [a0|] eqn:Ea; [|done].
    destruct (bool_decide (a0 = a)) eqn:E; [|done]. destruct (Bool.eqb (isCurrent w p a) current) eqn:Ec; [|done]. reflect_bools. subst a0.
    apply Bool.eqb_prop in Ec as <-. specialize (Hal now a Ea). destruct (f now (isCurrent w p a) a) as [a' remove]. injection Hr as <-.
    split; [by eapply leave_ok | intros; by eapply leave_rely].
  - destruct Hal as [Hop Hh]. destruct (bool_decide (is_Some (wd_byKey w !! aa_key a))) eqn:E1;
      [destruct x as [q|]; [done | injection Hr as <-; by apply Hsame]|].
    destruct (bool_decide (is_Some (wd_byID w !! at_ID (aa_Attempt a)))) eqn:E2;
      [destruct x as [q|]; [done | injection Hr as <-; by apply Hsame]|]. cbn in Hr. reflect_bools.
    destruct x as [q|]; [|done]. destruct (bool_decide _); [|done]. injection Hr as <-.
    apply register_ok; [done.. | by apply eq_None_not_Some | by apply eq_None_not_Some].
  - destruct x as [s|e]; injection Hr as <-; [|by apply Hsame]. destruct Hal as (_ & Hi & a & Ha & _ & Hop & Hcur).
    by eapply durable_ok.
  - destruct Hal as (Hi & a & Ha & _). injection Hr as <-. by eapply resolve_ok.
  - destruct Hal as (Hi & a & Ha & _). injection Hr as <-. by eapply resolve_ok.
  - destruct (x.1.1) as [h|]; [|injection Hr as <-; by apply Hsame]. case_bool_decide; [done|]. injection Hr as <-.
    by apply discover_ok.
  - destruct handle as [h|]; injection Hr as <-; [by apply dispose_ok | by apply Hsame].
Qed.
