(* ===== verification/PairingGuarantees.v ===== *)
(** * What the pairing service guarantees

    Each operation of the service, run beside any others, makes only calls that are
    allowed to it and leaves no provider handle in its hands. *)

From S2P Require Import Prelude GoText Crypto Domain Session Store Connections Rely PairingService PairingSafety.

(** What a thread knows of an attempt it reserved. *)
Record reservation := {
  rv_p : nat;
  rv_key : attemptKey;
  rv_id : string;
  rv_op : attemptOperation;
  rv_gen : Z;
  rv_handle : option Z;
  rv_pending : option Session.Envelope;
  rv_persisted : bool;
  rv_current : bool;
  rv_durable : option durable
}.

Definition shape (r : reservation) (a : activeAttempt) : Prop :=
  aa_key a = rv_key r /\ at_ID (aa_Attempt a) = rv_id r /\ aa_operation a = rv_op r /\ aa_generation a = rv_gen r /\
  aa_handle a = rv_handle r /\ aa_pairingPersisted a = rv_persisted r /\ aa_pending a = rv_pending r.

Lemma shape_alike r a a' : alike a a' -> shape r a -> shape r a'.
Proof. by intros (t & state & devices & ->). Qed.

Section Thread.
Variable i : nat.

Abbreviation sf := (safe (others rely registry_ok i) (respond i) (allowed i)).

Definition reserves (r : reservation) (w : World) : Prop :=
  wd_holder w !! rv_p r = Some i /\
  (exists a, wd_attempts w !! rv_p r = Some a /\ shape r a /\ (rv_current r = true -> isCurrent w (rv_p r) a = true)) /\
  wd_durable w !! rv_p r = rv_durable r.

(** What the thread has reserved and in hand. *)
Definition view (held : option reservation) (hand : option Z) (w : World) : Prop :=
  registry_ok w /\ (forall h, wd_hands w !! h = Some i <-> hand = Some h) /\
  match held with Some r => reserves r w | None => True end.

(** An operation that is done with: nothing is left in hand. *)
Definition rest {A} (_ : A) (w : World) : Prop := view None None w.

Lemma view_stable held hand w w' : others rely registry_ok i w w' -> view held hand w -> view held hand w'.
Proof.
  intros [[Hheld Hhands _] Hw'] (Hw & Hh & Hr). split; [done|]. split; [intros h; by rewrite Hhands|].
  destruct held as [r|]; [|done]. destruct Hr as (Hi & (a & Ha & Hs & Hcur) & Hd).
  destruct (Hheld _ _ Hi Ha) as (Hi' & (a' & Ha' & Hal) & Hcur' & Hd'). split; [done|]. split; [|congruence].
  exists a'. split; [done|]. split; [by eapply shape_alike|]. intros H%Hcur%Hcur'. destruct Hal as (t & state & devices & ->). done.
Qed.

Lemma view_forget held hand w : view held hand w -> view None hand w.
Proof. by intros (? & ? & _). Qed.

Lemma rest_ret {A} (a : A) held w : view held None w -> sf (Ret a) rest w.
Proof. intros H%view_forget. eapply (safe_ret _ _ _ (view None None)); [apply view_stable | done | done]. Qed.

(** A call that changes nothing. *)
Lemma quiet_call {A X} (c : PairingCall X) (k : X -> prog PairingCall A) Q held hand w :
  view held hand w -> (forall w, view held hand w -> allowed i X c w) ->
  (forall w x w', respond i X c w x = Some w' -> w' = w) ->
  (forall x w, view held hand w -> sf (k x) Q w) -> sf (Call c k) Q w.
Proof.
  intros Hv Hal Hsame Hk. eapply (safe_call _ _ _ (view held hand)); [apply view_stable | done | done |].
  intros w1 x w2 Hw1 Hr. rewrite (Hsame _ _ _ Hr). by apply Hk.
Qed.

(** ** Regions of an attempt the thread reserved *)

Definition after (r : reservation) (a' : activeAttempt) (remove : bool) : option reservation :=
  if bool_decide (aa_operation a' = operationIdle) then None
  else Some {| rv_p := rv_p r; rv_key := rv_key r; rv_id := rv_id r; rv_op := aa_operation a'; rv_gen := aa_generation a';
               rv_handle := aa_handle a'; rv_pending := aa_pending a'; rv_persisted := aa_pairingPersisted a'; rv_current := rv_current r && negb remove;
               rv_durable := rv_durable r |}.

Definition hand_after (h h' hand : option Z) : option Z :=
  match h, h' with Some h, None => Some h | None, Some _ => None | _, _ => hand end.

Definition fits (r : reservation) (hand : option Z) (a' : activeAttempt) (remove : bool) : Prop :=
  at_ID (aa_Attempt a') = rv_id r /\ aa_key a' = rv_key r /\
  (remove = true -> rv_durable r <> Some Begun) /\
  (rv_durable r = Some Begun -> aa_pairingPersisted a' = true \/ aa_operation a' = operationStart) /\
  (aa_handle a' <> None -> aa_pending a' = None /\ remove = false /\ (rv_handle r = None -> rv_current r = true)) /\
  match rv_handle r, aa_handle a' with
  | Some h, Some h' => h = h'
  | Some h, None => hand = None
  | None, Some h => hand = Some h
  | None, None => True
  end.

Lemma fits_change r hand w a a' remove :
  view (Some r) hand w -> wd_attempts w !! rv_p r = Some a -> shape r a -> fits r hand a' remove ->
  change_ok i w (rv_p r) a a' remove.
Proof.
  intros (Hw & Hh & Hi & (a0 & Ha0 & _ & Hcur) & Hd) Ha (Hkey & Hid & _ & _ & Hhandle & _) (H1 & H2 & H3 & H4 & H5 & H6). right.
  assert (a0 = a) as -> by congruence.
  rewrite Hd, Hkey, Hid, Hhandle. split; [done|]. split; [done|]. split; [by left|]. split; [done|]. split; [done|].
  split; [intros Hne; destruct (H5 Hne) as (? & ? & ?); auto|].
  destruct (rv_handle r), (aa_handle a'); try done. by apply Hh.
Qed.

(** The attempt keeps its handle. *)
Lemma fits_keep r hand a' :
  at_ID (aa_Attempt a') = rv_id r -> aa_key a' = rv_key r -> aa_handle a' = rv_handle r ->
  (rv_handle r <> None -> aa_pending a' = None) ->
  (rv_durable r = Some Begun -> aa_pairingPersisted a' = true \/ aa_operation a' = operationStart) -> fits r hand a' false.
Proof.
  intros H1 H2 H3 H4 H5. split; [done|]. split; [done|]. split; [done|]. split; [done|]. rewrite H3. split; [|by destruct (rv_handle r)].
  intros Hne. split; [auto|]. split; [done|]. intros; done.
Qed.

(** The attempt has no handle afterwards. *)
Lemma fits_none r hand a' remove :
  at_ID (aa_Attempt a') = rv_id r -> aa_key a' = rv_key r -> aa_handle a' = None -> (rv_handle r <> None -> hand = None) ->
  (remove = true -> rv_durable r <> Some Begun) ->
  (rv_durable r = Some Begun -> aa_pairingPersisted a' = true \/ aa_operation a' = operationStart) -> fits r hand a' remove.
Proof.
  intros H1 H2 H3 H4 H5 H6. split; [done|]. split; [done|]. split; [done|]. split; [done|]. rewrite H3. split; [done|].
  destruct (rv_handle r); [by apply H4 | done].
Qed.

(** The attempt gets the handle in hand. *)
Lemma fits_store r hand a' :
  at_ID (aa_Attempt a') = rv_id r -> aa_key a' = rv_key r -> rv_handle r = None -> aa_handle a' = hand -> aa_pending a' = None ->
  rv_current r = true ->
  (rv_durable r = Some Begun -> aa_pairingPersisted a' = true \/ aa_operation a' = operationStart) -> fits r hand a' false.
Proof.
  intros H1 H2 H3 H4 H5 H6 H7. split; [done|]. split; [done|]. split; [done|]. split; [done|]. rewrite H3. split; [done|].
  by destruct (aa_handle a').
Qed.

Lemma leave_view r hand w a a' remove :
  view (Some r) hand w -> wd_attempts w !! rv_p r = Some a -> shape r a -> fits r hand a' remove ->
  view (after r a' remove) (hand_after (rv_handle r) (aa_handle a') hand) (leave i (rv_p r) a a' remove w).
Proof.
  intros Hv Ha Hs Hf. pose proof (fits_change _ _ _ _ _ _ Hv Ha Hs Hf) as Hc.
  destruct Hv as (Hw & Hh & Hi & (a0 & Ha0 & _ & Hcur) & Hd). assert (a0 = a) as -> by congruence.
  destruct Hs as (Hkey & Hid & _ & _ & Hhandle & _). destruct Hf as (Hid' & Hkey' & _ & _ & _ & Hfit).
  split; [by eapply leave_ok|]. split.
  - intros h. cbn. rewrite Hhandle. destruct (rv_handle r) as [h0|], (aa_handle a') as [h1|]; cbn; try apply Hh.
    + subst hand. rewrite lookup_insert_Some. split; [intros [[-> _]|[_ H]]; [done | by apply Hh in H] | intros [= ->]; by left].
    + subst hand. rewrite lookup_delete_Some. split; [|done]. intros [Hne H]. apply Hh in H. congruence.
  - unfold after. destruct (bool_decide (aa_operation a' = operationIdle)) eqn:E; [done|].
    split; [cbn; rewrite E; by rewrite Hi|]. split; [|done]. exists a'. split; [apply lookup_insert_eq|].
    split; [done|]. cbn [rv_current rv_p]. intros [Hc' Hr]%andb_true_iff. apply Hcur in Hc'.
    assert (isCurrent w (rv_p r) a' = true) as Hcur' by (unfold isCurrent in *; by rewrite Hid', Hkey', <- Hid, <- Hkey).
    apply leave_current; [done | intros _; by destruct remove | done].
Qed.

(** What the invariant says of a reserved attempt. *)
Lemma view_kept r hand w : view (Some r) hand w ->
  (rv_durable r = Some Begun -> rv_persisted r = true \/ rv_op r = operationStart) /\ (rv_handle r <> None -> rv_pending r = None).
Proof.
  intros (Hw & _ & _ & (a & Ha & (_ & _ & Hop & _ & Hh & Hp & Hpend) & _) & Hd). rewrite <- Hd, <- Hop, <- Hp, <- Hh, <- Hpend. split.
  - intros Hb. destruct (ok_durable w Hw _ Hb) as (b & Hb' & _ & H). by assert (b = a) as -> by congruence.
  - intros Hne. by destruct (ok_kept w Hw _ _ Ha Hne).
Qed.

Lemma own_region {A X} r (f : Z -> bool -> activeAttempt -> activeAttempt * bool * X) (k : X -> prog PairingCall A) Q hand w :
  view (Some r) hand w ->
  (forall now current a, shape r a -> (rv_current r = true -> current = true) ->
    (rv_durable r = Some Begun -> rv_persisted r = true \/ rv_op r = operationStart) ->
    (rv_handle r <> None -> rv_pending r = None) ->
    let '(a', remove, x) := f now current a in
    fits r hand a' remove /\
    forall w, view (after r a' remove) (hand_after (rv_handle r) (aa_handle a') hand) w -> sf (k x) Q w) ->
  sf (prog_bind (locked (rv_p r) f) k) Q w.
Proof.
  intros Hv Hf. unfold locked. cbn [prog_bind]. eapply (safe_call _ _ _ (view (Some r) hand)); [apply view_stable | done |..]; clear w Hv.
  - intros w Hv now a Ha. pose proof (view_kept _ _ _ Hv) as [Hd Hk]. pose proof Hv as (_ & _ & _ & (a0 & Ha0 & Hs & Hcur) & _).
    assert (a0 = a) as -> by congruence. specialize (Hf now _ a Hs Hcur Hd Hk).
    destruct (f now (isCurrent w (rv_p r) a) a) as [[a' remove] x]. cbn. eapply fits_change; [done..|]. apply Hf.
  - intros w [[now current] a] w' Hv Hr. cbn in Hr. pose proof (view_kept _ _ _ Hv) as [Hd Hk].
    pose proof Hv as (_ & _ & _ & (a0 & Ha0 & Hs & Hcur) & _).
    rewrite Ha0 in Hr. destruct (bool_decide (a0 = a)) eqn:E; [|done]. destruct (Bool.eqb _ current) eqn:Ec; [|done].
    reflect_bools. subst a0. apply Bool.eqb_prop in Ec as <-. cbn. specialize (Hf now _ a Hs Hcur Hd Hk).
    destruct (f now (isCurrent w (rv_p r) a) a) as [[a' remove] x]. injection Hr as <-. destruct Hf as [Hfit Hnext].
    by apply Hnext, leave_view.
Qed.

(** ** Regions of an attempt the thread has not reserved *)

(** Such a region changes nothing the reserving thread relies on, or it reserves an
    attempt that is idle. *)
Definition take (p : nat) (a : activeAttempt) (op : attemptOperation) (current : bool) (d : option durable) : reservation := {|
  rv_p := p; rv_key := aa_key a; rv_id := at_ID (aa_Attempt a); rv_op := op; rv_gen := aa_generation (reserve op a);
  rv_handle := aa_handle a; rv_pending := aa_pending a; rv_persisted := aa_pairingPersisted a; rv_current := current;
  rv_durable := d |}.

Lemma leave_alike p w a a' : view None None w -> wd_attempts w !! p = Some a -> alike a a' -> view None None (leave i p a a' false w).
Proof.
  intros (Hw & Hh & _) Ha Hal. assert (change_ok i w p a a' false) by (left; done). split; [by eapply leave_ok|]. split; [|done].
  intros h. destruct Hal as (t & state & devices & ->). cbn. rewrite <- (Hh h). destruct (aa_handle a); done.
Qed.

Lemma reserve_change p w a op :
  registry_ok w -> wd_attempts w !! p = Some a -> aa_operation a = operationIdle -> change_ok i w p a (reserve op a) false.
Proof.
  intros Hw Ha Hidle. right. cbn. split; [done|]. split; [done|]. split; [by right|]. split; [done|]. split.
  - intros Hd. destruct (ok_durable w Hw _ Hd) as (b & Hb & _ & Hp). assert (b = a) as -> by congruence.
    destruct Hp as [Hp|Hp]; [by left | congruence].
  - split; [|by destruct (aa_handle a)]. intros Hne. destruct (ok_kept w Hw _ _ Ha Hne). auto.
Qed.

Lemma leave_take p w a op :
  view None None w -> wd_attempts w !! p = Some a -> aa_operation a = operationIdle -> op <> operationIdle ->
  view (Some (take p a op (isCurrent w p a) (wd_durable w !! p))) None (leave i p a (reserve op a) false w).
Proof.
  intros (Hw & Hh & _) Ha Hidle Hop. pose proof (reserve_change p w a op Hw Ha Hidle) as Hc. split; [by eapply leave_ok|]. split.
  - intros h. cbn. destruct (aa_handle a); apply Hh.
  - split; [|split; [|done]].
    + cbn. rewrite bool_decide_eq_false_2 by done. destruct (wd_holder w !! p) as [j|] eqn:E; [|by rewrite lookup_insert_eq].
      destruct (proj1 (ok_holder w Hw _ _ Ha)); [by eexists | done].
    + exists (reserve op a). split; [apply lookup_insert_eq|]. split; [done|].
      intros Hcur. by apply leave_current.
Qed.

(** The connection of an attempt, when the thread knows it. *)
Definition keyed (key : option attemptKey) (p : nat) (w : World) : Prop :=
  forall k, key = Some k -> exists a, wd_attempts w !! p = Some a /\ aa_key a = k.

Lemma keyed_stable key p w w' : others rely registry_ok i w w' -> keyed key p w -> keyed key p w'.
Proof. intros [Hr _] Hk k E. destruct (Hk k E) as (a & Ha & <-). by apply (rely_keys _ _ _ Hr). Qed.

Lemma other_region {A X} key p (f : Z -> bool -> activeAttempt -> activeAttempt * bool * X) (k : X -> prog PairingCall A) Q w :
  view None None w -> keyed key p w ->
  (forall now current a, (forall k, key = Some k -> aa_key a = k) -> let '(a', remove, x) := f now current a in remove = false /\
    ((alike a a' /\ forall w, view None None w -> sf (k x) Q w) \/
     (aa_operation a = operationIdle /\ exists op, op <> operationIdle /\ a' = reserve op a /\
      forall d w, view (Some (take p a op current d)) None w -> sf (k x) Q w))) ->
  sf (prog_bind (locked p f) k) Q w.
Proof.
  intros Hv Hk Hf. unfold locked. cbn [prog_bind].
  assert (forall w a, keyed key p w -> wd_attempts w !! p = Some a -> forall k, key = Some k -> aa_key a = k) as Hkey.
  { intros w1 a Hk1 Ha k' E. destruct (Hk1 k' E) as (b & Hb & <-). congruence. }
  eapply (safe_call _ _ _ (fun w => view None None w /\ keyed key p w)); [|done|..]; clear w Hv Hk.
  - intros w w' Ho [Hv Hk]. split; [by eapply view_stable | by eapply keyed_stable].
  - intros w [Hv Hk] now a Ha. specialize (Hf now (isCurrent w p a) a (Hkey w a Hk Ha)).
    destruct (f now (isCurrent w p a) a) as [[a' remove] x]. destruct Hf as [-> [[Hal _]|(Hidle & op & _ & -> & _)]]; cbn.
    + by left.
    + apply reserve_change; [apply Hv | done | done].
  - intros w [[now current] a] w' [Hv Hk] Hr. cbn in Hr. destruct (wd_attempts w !! p) as [a0|] eqn:Ea; [|done].
    destruct (bool_decide (a0 = a)) eqn:E; [|done]. destruct (Bool.eqb _ current) eqn:Ec; [|done].
    reflect_bools. subst a0. apply Bool.eqb_prop in Ec as <-. cbn. specialize (Hf now (isCurrent w p a) a (Hkey w a Hk Ea)).
    destruct (f now (isCurrent w p a) a) as [[a' remove] x]. injection Hr as <-.
    destruct Hf as [-> [[Hal Hnext]|(Hidle & op & Hop & -> & Hnext)]].
    + by apply Hnext, leave_alike.
    + eapply Hnext. by apply leave_take.
Qed.

(** The two outcomes of such a region. *)
Ltac untouched := split; [done|]; left; split; [apply alike_refl|]; intros.
Ltac take_it op :=
  split; [done|]; right;
  split; [match goal with H : bool_decide (?x <> ?y) = false |- _ => apply bool_decide_eq_false in H; by destruct (decide (x = y)) end|];
  exists op; split; [done|]; split; [done|]; intros d w1 Hv1.

(** ** Calls for an attempt the thread reserved *)

Definition with_outcome (d : option durable) (r : reservation) : reservation := {|
  rv_p := rv_p r; rv_key := rv_key r; rv_id := rv_id r; rv_op := rv_op r; rv_gen := rv_gen r; rv_handle := rv_handle r;
  rv_pending := rv_pending r; rv_persisted := rv_persisted r; rv_current := rv_current r; rv_durable := d |}.

Definition recorded_outcome (err : error) (outcome : durable) (d : option durable) : option durable :=
  if is_nil err then Some outcome else if errors_Is err ErrAttemptSuperseded then Some Superseded else d.

Lemma view_reserved r hand w (P : activeAttempt -> Prop) :
  view (Some r) hand w -> (forall a, shape r a -> (rv_current r = true -> isCurrent w (rv_p r) a = true) -> P a) -> reserved i w (rv_p r) P.
Proof. intros (_ & _ & Hi & (a & Ha & Hs & Hcur) & _) HP. split; [done|]. exists a. auto. Qed.

Lemma durable_view r hand w d :
  view (Some r) hand w -> (d = Begun -> rv_current r = true /\ rv_op r = operationStart) ->
  view (Some (with_outcome (Some d) r)) hand (with_durable (<[rv_p r := d]> (wd_durable w)) w).
Proof.
  intros (Hw & Hh & Hi & (a & Ha & Hs & Hcur) & Hd) Hb. split.
  - eapply durable_ok; [done..|]. intros ->. destruct (Hb eq_refl) as [Hc Ho]. split; [auto|]. destruct Hs as (_ & _ & -> & _). done.
  - split; [done|]. split; [done|]. split; [by exists a|]. cbn. apply lookup_insert_eq.
Qed.

Lemma resolve_view r hand w err outcome :
  view (Some r) hand w -> outcome <> Begun ->
  view (Some (with_outcome (recorded_outcome err outcome (rv_durable r)) r)) hand (resolve (rv_p r) err outcome w).
Proof.
  intros Hv Hne. unfold resolve, recorded_outcome. destruct (is_nil err); [by apply durable_view|].
  destruct (errors_Is err _); [by apply durable_view|]. by destruct r.
Qed.

Lemma restore_call {A} r hand (k : error -> prog PairingCall A) Q w :
  view (Some r) hand w -> rv_op r = operationCleanup ->
  (forall err w, view (Some (with_outcome (recorded_outcome err Restored (rv_durable r)) r)) hand w -> sf (k err) Q w) ->
  sf (Call (RestorePairing (rv_p r) (rv_key r) (rv_id r)) k) Q w.
Proof.
  intros Hv Hop Hk. eapply (safe_call _ _ _ (view (Some r) hand)); [apply view_stable | done |..]; clear w Hv.
  - intros w Hv. eapply view_reserved; [done|]. intros a (? & ? & ? & _) _. split; [done | congruence].
  - intros w err w' Hv [= <-]. by apply Hk, resolve_view.
Qed.

Lemma commit_call {A} r hand envelope fingerprint (k : error -> prog PairingCall A) Q w :
  view (Some r) hand w -> rv_op r = operationComplete -> rv_current r = true ->
  (forall err w, view (Some (with_outcome (recorded_outcome err Committed (rv_durable r)) r)) hand w -> sf (k err) Q w) ->
  sf (Call (CommitPairedSession (rv_p r) (rv_key r) (rv_id r) envelope fingerprint) k) Q w.
Proof.
  intros Hv Hop Hcur Hk. eapply (safe_call _ _ _ (view (Some r) hand)); [apply view_stable | done |..]; clear w Hv.
  - intros w Hv. eapply view_reserved; [done|]. intros a (? & ? & ? & _) Hc. split; [done|]. split; [congruence | auto].
  - intros w err w' Hv [= <-]. by apply Hk, resolve_view.
Qed.

Lemma dispose_call {A} held h cancel (k : unit -> prog PairingCall A) Q w :
  view held (Some h) w -> (forall w, view held None w -> sf (k tt) Q w) -> sf (Call (Dispose (Some h) cancel) k) Q w.
Proof.
  intros Hv Hk. eapply (safe_call _ _ _ (view held (Some h))); [apply view_stable | done |..]; clear w Hv.
  - intros w (_ & Hh & _). by apply Hh.
  - intros w [] w' (Hw & Hh & Hr) [= <-]. apply Hk. split; [by eapply dispose_ok; [|apply Hh]|]. split; [|by destruct held].
    intros h'. cbn. rewrite lookup_delete_Some. split; [|done]. intros [Hne H]. apply Hh in H. congruence.
Qed.

(** ** Cleanup *)

Definition done_with (r : reservation) : Prop := rv_durable r = Some Begun -> rv_persisted r = true.

Lemma finish_done_safe {A} r (a : A) w :
  view (Some r) None w -> rv_handle r = None -> rv_durable r <> Some Begun ->
  sf (do! _ := locked (rv_p r) finish_done in Ret a) rest w.
Proof.
  intros Hv Hh Hd. eapply own_region; [done|]. intros now current b (Hkey & Hid & _ & _ & Hhandle & _) _ _ _. cbn. split.
  - apply fits_none; cbn; congruence.
  - rewrite Hhandle, Hh. intros w' Hv'. by eapply rest_ret.
Qed.

Lemma restored_safe r w :
  view (Some r) None w -> rv_op r = operationCleanup -> rv_handle r = None -> done_with r ->
  sf (if rv_persisted r then
        call! err := RestorePairing (rv_p r) (rv_key r) (rv_id r) in
        if is_nil err then do! _ := locked (rv_p r) finish_done in Ret []
        else if errors_Is err ErrAttemptSuperseded then do! _ := locked (rv_p r) finish_done in Ret err
        else do! _ := locked (rv_p r) finish_failed in Ret err
      else do! _ := locked (rv_p r) finish_done in Ret []) rest w.
Proof.
  intros Hv Hop Hh Hd. destruct (rv_persisted r) eqn:Ep.
  - eapply restore_call; [done..|]. intros err w1 Hv1. unfold recorded_outcome in Hv1. destruct (is_nil err); [by apply (finish_done_safe _ _ _ Hv1)|].
    destruct (errors_Is err _); [by apply (finish_done_safe _ _ _ Hv1)|]. eapply (own_region _ _ _ _ _ _ Hv1).
    intros now current a (Hkey & Hid & _ & _ & Hhandle & Hp & Hpend) _ Hd' Hk. cbn in *. split.
    + apply fits_keep; cbn; [congruence.. | |]; intros; [congruence | left; congruence].
    + rewrite Hhandle, Hh. intros w2 Hv2. by eapply rest_ret.
  - apply finish_done_safe; [done..|]. intros E. specialize (Hd E). congruence.
Qed.

Lemma finishReserved_safe r state cancel w :
  view (Some r) None w -> rv_op r <> operationIdle -> done_with r ->
  sf (finishReserved (rv_p r) (rv_gen r) state cancel) rest w.
Proof.
  intros Hv Hop Hd. unfold finishReserved. eapply own_region; [done|].
  intros now current a (Hkey & Hid & Hopa & Hgen & Hhandle & Hp & Hpend) _ Hd' Hk. unfold finish_begin.
  rewrite Hgen, Z.eqb_refl, bool_decide_eq_false_2 by congruence. cbn -[locked safe]. rewrite Hhandle, Hkey, Hid, Hp. split.
  - apply fits_none; cbn; [done.. | |]; [done|]. rewrite Hp. auto.
  - intros w1 Hv1. unfold after in Hv1. cbn in Hv1. rewrite Hp, andb_true_r in Hv1.
    set (r' := {| rv_p := rv_p r; rv_key := _ |}) in Hv1.
    assert (forall w, view (Some r') None w -> _) as Hrest by (intros; by apply (restored_safe r')).
    destruct (rv_handle r) as [h|]; cbn -[locked safe] in *; [|by apply Hrest]. by apply dispose_call with (held := Some r').
Qed.

Lemma view_done r hand w : view (Some r) hand w -> rv_op r <> operationStart -> done_with r.
Proof. intros Hv Hop Hd. by destruct (proj1 (view_kept _ _ _ Hv) Hd). Qed.

(** An operation that ends with the cleanup of what it reserved. *)
Lemma finish_then {A} r state cancel (k : error -> A) w :
  view (Some r) None w -> rv_op r <> operationIdle -> rv_op r <> operationStart ->
  sf (do! err := finishReserved (rv_p r) (rv_gen r) state cancel in Ret (k err)) rest w.
Proof.
  intros Hv H1 H2. eapply safe_bind; [apply finishReserved_safe; [done..|by eapply view_done]|]. intros err w' Hw. by eapply rest_ret.
Qed.

Lemma fail_safe r cancel w :
  view (Some r) None w -> (rv_durable r = Some Begun -> rv_persisted r = true) -> sf (fail_attempt (rv_p r) cancel) rest w.
Proof.
  intros Hv Hd. unfold fail_attempt. eapply own_region; [done|]. intros now current a (Hkey & Hid & _ & _ & Hhandle & Hp & Hpend) _ Hd' Hk. cbn -[locked safe]. split.
  - apply fits_keep; cbn; [done.. | |]; rewrite ?Hpend, ?Hp; auto.
  - rewrite Hhandle. intros w1 Hv1. unfold after in Hv1. cbn in Hv1.
    set (r' := {| rv_p := rv_p r; rv_key := _ |}) in Hv1. eapply (finish_then r'); [by destruct (rv_handle r) | done | done].
Qed.

(** A region that wants an idle attempt, and what follows. *)
Lemma expire_safe p a current d w :
  view (Some (take p a operationCleanup current d)) None w -> sf (expire p (aa_generation (reserve operationCleanup a))) rest w.
Proof. intros Hv. by apply (finish_then (take p a operationCleanup current d)). Qed.

Lemma get_call {A} key pairingID (k : option nat -> prog PairingCall A) Q w :
  view None None w -> (forall w, view None None w -> sf (k None) Q w) ->
  (forall p w, view None None w -> keyed (Some key) p w -> sf (k (Some p)) Q w) -> sf (prog_bind (get key pairingID) k) Q w.
Proof.
  intros Hv HNone HSome. unfold get. destruct (negb _); [by apply HNone|]. cbn [prog_bind].
  eapply (safe_call _ _ _ (view None None)); [apply view_stable | done | done |]. clear w Hv.
  intros w x w' Hv Hr. cbn in Hr. case_bool_decide as E; [|done]. injection Hr as <-. destruct x as [p|]; [|by apply HNone].
  apply HSome; [done|]. intros key' [= <-]. destruct (wd_byID w !! pairingID) as [q|]; [|done].
  destruct (wd_attempts w !! q) as [a|] eqn:Ea; [|done]. case_bool_decide; [|done]. injection E as ->. by exists a.
Qed.

Lemma pick_region {A} key p op eligible (k : picked -> prog PairingCall A) Q w :
  view None None w -> keyed (Some key) p w -> op <> operationIdle ->
  (forall e w, view None None w -> sf (k (PickErr e)) Q w) ->
  (forall a current d w, view (Some (take p a operationCleanup current d)) None w ->
    sf (k (PickExpired (aa_generation (reserve operationCleanup a)))) Q w) ->
  (forall a d w, aa_key a = key -> eligible a = None -> view (Some (take p a op true d)) None w ->
    sf (k (PickGo (aa_generation (reserve op a)) (aa_handle a) (aa_pending a))) Q w) ->
  sf (prog_bind (locked p (pick op eligible)) k) Q w.
Proof.
  intros Hv Hkeyed Hop Herr Hexp Hgo. eapply other_region; [done | done |]. intros now current a Hkey. unfold pick.
  destruct current; cbn [negb]; [|untouched; by apply Herr].
  destruct (bool_decide (aa_operation a <> operationIdle)) eqn:E; [untouched; by apply Herr|].
  destruct (now >? _); [take_it operationCleanup; by eapply Hexp|].
  destruct (eligible a) as [e|] eqn:Ee; [untouched; by apply Herr|].
  take_it op. exact (Hgo a d w1 (Hkey _ eq_refl) Ee Hv1).
Qed.

Lemma lookup_safe key pairingID w : view None None w -> sf (lookup key pairingID) rest w.
Proof.
  intros Hv. unfold lookup. apply get_call; [done | intros; by eapply rest_ret |]. clear w Hv. intros p w Hv Hkeyed.
  apply other_region with (key := None); [done | done |]. intros now current a _. unfold lookup_region.
  destruct current; cbn [negb]; [|untouched; by eapply rest_ret].
  destruct (bool_decide (aa_operation a <> operationIdle)) eqn:E; [untouched; by eapply rest_ret|].
  destruct (now >? _); [take_it operationCleanup; by eapply expire_safe | untouched; by eapply rest_ret].
Qed.

Lemma retryCleanup_safe p w : view None None w -> sf (retryCleanup p) rest w.
Proof.
  intros Hv. unfold retryCleanup. apply other_region with (key := None); [done | done |]. intros now current a _. unfold retry_region.
  destruct (negb current); [untouched; by eapply rest_ret|].
  destruct (negb (aa_cleanupPending a)); [untouched; by eapply rest_ret|].
  destruct (bool_decide (aa_operation a <> operationIdle)) eqn:E; [untouched; by eapply rest_ret|].
  take_it operationCleanup. by apply (finish_then (take p a operationCleanup current d)).
Qed.

(** ** Approval *)

Lemma approve_call {A} r hand deviceID (k : result string -> prog PairingCall A) Q w :
  view (Some r) hand w -> rv_op r = operationSelect ->
  (forall approval w, view (Some r) hand w -> sf (k approval) Q w) -> sf (Call (StartApproval (rv_p r) (rv_handle r) deviceID) k) Q w.
Proof.
  intros Hv Hop Hk. eapply quiet_call; [done | | by intros ? ? ? [= <-] | done]. intros w1 Hv1. eapply view_reserved; [done|].
  intros a (_ & _ & ? & _ & ? & _) _. split; [congruence | done].
Qed.

Lemma startApprovalReserved_safe r deviceID w :
  view (Some r) None w -> rv_op r = operationSelect ->
  sf (startApprovalReserved (rv_p r) (rv_gen r) (rv_handle r) deviceID) rest w.
Proof.
  intros Hv Hop. unfold startApprovalReserved. eapply approve_call; [done..|]. clear w Hv.
  intros [emoji|e] w Hv; [destruct (emoji =s "")|]; try (apply finish_then; [done | congruence | congruence]).
  eapply own_region; [done|]. intros now current a (Hkey & Hid & Hopa & Hgen & Hhandle & Hp & Hpend) _ Hd Hk. unfold approved_region.
  assert (rv_durable r = Some Begun -> aa_pairingPersisted a = true) as Hpers by (intros H; destruct (Hd H); congruence).
  destruct (_ || _); cbn -[safe]; rewrite Hhandle;
    (split; [apply fits_keep; cbn; [done.. | |]; rewrite ?Hpend; auto|]);
    intros w1 Hv1; eapply rest_ret; destruct (rv_handle r); done.
Qed.

Lemma startApproval_safe p deviceID w : view None None w -> sf (startApproval p deviceID) rest w.
Proof.
  intros Hv. unfold startApproval. apply other_region with (key := None); [done | done |]. intros now current a _. unfold approve_region.
  destruct (bool_decide (aa_operation a <> operationIdle)) eqn:E; [untouched; by eapply rest_ret|].
  take_it operationSelect. by apply (startApprovalReserved_safe (take p a operationSelect current d)).
Qed.

Lemma SelectDevice_safe key pairingID deviceID w : view None None w -> sf (SelectDevice key pairingID deviceID) rest w.
Proof.
  intros Hv. unfold SelectDevice. apply get_call; [done | intros; by eapply rest_ret |]. clear w Hv. intros p w Hv Hkeyed.
  eapply pick_region; [done | done | done | intros; by eapply rest_ret |..].
  - intros a current d w1 Hv1. eapply safe_bind; [by eapply expire_safe|]. intros; by eapply rest_ret.
  - intros a d w1 _ _ Hv1. by apply (startApprovalReserved_safe (take p a operationSelect true d)).
Qed.

(** ** Start *)

Lemma discover_call {A} r cookies (k : option Z * list Device * error -> prog PairingCall A) Q w :
  view (Some r) None w -> rv_op r = operationStart -> rv_current r = true ->
  (forall handle devices err w, view (Some r) handle w -> sf (k (handle, devices, err)) Q w) ->
  sf (Call (Discover (rv_p r) cookies) k) Q w.
Proof.
  intros Hv Hop Hcur Hk. eapply (safe_call _ _ _ (view (Some r) None)); [apply view_stable | done |..]; clear w Hv.
  - intros w Hv. eapply view_reserved; [done|]. intros a (_ & _ & ? & _) Hc. split; [congruence | auto].
  - intros w [[handle devices] err] w' Hv Hr. apply Hk. cbn in Hr. destruct handle as [h|]; [|by injection Hr as <-].
    case_bool_decide; [done|]. injection Hr as <-. destruct Hv as (Hw & Hh & Hr). split; [by apply discover_ok|].
    split; [|done]. intros h'. cbn. rewrite lookup_insert_Some. split; [intros [[-> _]|[_ Hx%Hh]]; done | intros [= ->]; by left].
Qed.

Definition registered (p : nat) (a : activeAttempt) : reservation := {|
  rv_p := p; rv_key := aa_key a; rv_id := at_ID (aa_Attempt a); rv_op := operationStart; rv_gen := aa_generation a;
  rv_handle := None; rv_pending := aa_pending a; rv_persisted := aa_pairingPersisted a; rv_current := true; rv_durable := None |}.

Lemma register_call {A} a (k : option nat -> prog PairingCall A) Q w :
  view None None w -> aa_operation a = operationStart -> aa_handle a = None ->
  (forall w, view None None w -> sf (k None) Q w) ->
  (forall p w, view (Some (registered p a)) None w -> sf (k (Some p)) Q w) -> sf (Call (Register a) k) Q w.
Proof.
  intros Hv Hop Hh HNone HSome. eapply (safe_call _ _ _ (view None None)); [apply view_stable | done | done |]. clear w Hv.
  intros w x w' Hv Hr. cbn in Hr.
  destruct (bool_decide (is_Some (wd_byKey w !! aa_key a))) eqn:E1; [destruct x; [done | injection Hr as <-; by apply HNone]|].
  destruct (bool_decide (is_Some (wd_byID w !! at_ID (aa_Attempt a)))) eqn:E2; [destruct x; [done | injection Hr as <-; by apply HNone]|].
  destruct x as [p|]; [|done]. cbn in Hr. destruct (bool_decide (p = wd_next w)) eqn:E3; [|done]. injection Hr as <-. reflect_bools. subst p.
  apply HSome. destruct Hv as (Hw & Hhands & _). split; [apply register_ok; [done.. | by apply eq_None_not_Some | by apply eq_None_not_Some]|].
  split; [done|]. assert (wd_attempts w !! wd_next w = None) as Hnew by (by apply (ok_fresh w Hw)). split; [apply lookup_insert_eq|]. split.
  - exists a. split; [apply lookup_insert_eq|]. split; [done|]. intros _. apply isCurrent_iff. split; apply lookup_insert_eq.
  - apply eq_None_not_Some. intros [x Hx]%(ok_durable_dom w Hw). cbn in Hx. congruence.
Qed.

Lemma begin_call {A} r hand ttl (k : result ConnectionState -> prog PairingCall A) Q w :
  view (Some r) hand w -> rv_op r = operationStart -> rv_current r = true -> rv_durable r = None ->
  (forall prior w, view (Some (with_outcome (Some Begun) r)) hand w -> sf (k (Ok prior)) Q w) ->
  (forall err w, view (Some r) hand w -> sf (k (Err err)) Q w) ->
  sf (Call (BeginPairing (rv_p r) (rv_key r) (rv_id r) ttl) k) Q w.
Proof.
  intros Hv Hop Hcur Hd HOk HErr. eapply (safe_call _ _ _ (view (Some r) hand)); [apply view_stable | done |..]; clear w Hv.
  - intros w Hv. pose proof Hv as (_ & _ & _ & _ & Hdw). split; [congruence|]. eapply view_reserved; [done|].
    intros a (? & ? & ? & _) Hc. split; [done|]. split; [congruence | auto].
  - intros w [prior|err] w' Hv [= <-]; [by apply HOk, durable_view | by apply HErr].
Qed.

(** The attempt of a [Start] whose pairing is durable. *)
Definition begun_reservation (p : nat) (key : attemptKey) (id : string) (handle : option Z) : reservation := {|
  rv_p := p; rv_key := key; rv_id := id; rv_op := operationStart; rv_gen := 1; rv_handle := handle; rv_pending := None; rv_persisted := true;
  rv_current := true; rv_durable := Some Begun |}.

(** A region that stores the handle in hand. *)
Lemma store_handle p key id handle w :
  view (Some (begun_reservation p key id handle)) (hand_after None handle handle) w -> view (Some (begun_reservation p key id handle)) None w.
Proof. by destruct handle. Qed.

Lemma choose_safe p devices w :
  view None None w -> sf (do! result := locked p (choose_region devices) in Ret (Ok result)) rest w.
Proof.
  intros Hv. apply other_region with (key := None); [done | done |]. intros now current a _. cbn. split; [done|]. left. split; [|intros; by eapply rest_ret].
  exists (aa_timer a), StateAwaitingDeviceSelection, devices. by destruct a.
Qed.

Lemma idle_then {A} p key id handle (k : prog PairingCall A) Q w :
  view (Some (begun_reservation p key id handle)) None w -> (forall w, view None None w -> sf k Q w) ->
  sf (do! _ := locked p idle_region in k) Q w.
Proof.
  intros Hv Hnext. apply (own_region _ _ _ _ _ _ Hv). intros now current a (Hkey & Hid & _ & _ & Hhandle & Hp & Hpend) _ Hd' Hk. cbn -[safe].
  cbn in Hkey, Hid, Hhandle, Hp. rewrite Hhandle. split; [|intros w1 Hv1; apply Hnext; by destruct handle].
  apply fits_keep; cbn; [done.. | |]; auto.
Qed.

Lemma discovered_safe p key id handle devices (valid : bool) w :
  view (Some (begun_reservation p key id handle)) None w ->
  sf (if valid then
        match devices with
        | [] => do! _ := fail_attempt p true in Ret (Err [ErrInvalidProviderData])
        | [device] => do! _ := locked p idle_region in startApproval p (dv_ID device)
        | _ => do! _ := locked p idle_region in do! result := locked p (choose_region devices) in Ret (Ok result)
        end
      else do! _ := fail_attempt p true in Ret (Err [ErrInvalidProviderData])) rest w.
Proof.
  intros Hv. assert (sf (do! _ := fail_attempt p true in Ret (@Err Attempt [ErrInvalidProviderData])) rest w) as Hfail.
  { eapply safe_bind; [by apply (fail_safe (begun_reservation p key id handle))|]. intros; by eapply rest_ret. }
  destruct valid; [|done]. destruct devices as [|device [|device' devices]]; [done|..].
  - eapply idle_then; [done|]. intros w1 Hv1. by apply startApproval_safe.
  - eapply idle_then; [done|]. intros w1 Hv1. by apply choose_safe.
Qed.

Lemma discover_safe p key id cookies w : view (Some (begun_reservation p key id None)) None w -> sf (discover p cookies) rest w.
Proof.
  intros Hv. unfold discover. apply (discover_call (begun_reservation p key id None)); [done..|]. clear w Hv.
  intros handle devices err w Hv. destruct (negb (is_nil err)).
  - apply (own_region _ _ _ _ _ _ Hv). intros now current a (Hkey & Hid & Hop & Hgen & _ & Hp & Hpend) _ Hd' Hk. cbn -[safe finishReserved]. split.
    { apply fits_store; cbn; auto. }
    intros w1 Hv1. unfold after in Hv1. cbn in Hv1, Hop, Hgen, Hp, Hpend. rewrite Hop, Hgen, Hp, Hpend in Hv1. apply store_handle in Hv1.
    eapply safe_bind; [by apply (finishReserved_safe _ _ _ _ Hv1)|]. intros; by eapply rest_ret.
  - apply (own_region _ _ _ _ _ _ Hv). intros now current a (Hkey & Hid & Hop & Hgen & _ & Hp & Hpend) Hcur _ Hk. cbn in Hkey, Hid, Hop, Hgen, Hp, Hpend.
    unfold discovered_region. rewrite Hop, Hgen, (Hcur eq_refl). cbn -[safe fail_attempt idle_region choose_region locked scan_devices].
    destruct (scan_devices devices []) as [ids valid] eqn:Es. split.
    { apply fits_store; cbn; auto. }
    intros w1 Hv1. unfold after in Hv1. cbn in Hv1. rewrite Hop, Hgen, Hp, Hpend in Hv1. apply store_handle in Hv1.
    eapply (discovered_safe _ _ _ _ devices valid) in Hv1. by destruct valid.
Qed.

Lemma persist_safe ttl p id startedAt key cookies w :
  view (Some (registered p (new_attempt ttl id startedAt key))) None w ->
  sf (call! prior := BeginPairing p key id ttl in
      match prior with
      | Err err =>
        do! _ := locked p remove_region in
        Ret (Err (if errors_Is err ErrAttemptActive then [ErrAttemptActive]
                  else if errors_Is err ErrPairingConnectionState then [ErrPairingConnectionState]
                  else [ErrSessionPersistence]))
      | Ok prior => do! _ := locked p (persisted_region prior) in discover p cookies
      end) rest w.
Proof.
  intros Hv. eapply (begin_call _ _ _ _ _ _ Hv); [done | done | done | |]; clear w Hv.
  - intros prior w Hv. apply (own_region _ _ _ _ _ _ Hv). intros now current a (Hkey & Hid & Hop & Hgen & Hhandle & Hp & Hpend) _ Hd' Hk.
    cbn in Hkey, Hid, Hop, Hgen, Hhandle, Hp, Hpend. cbn -[safe discover]. rewrite Hhandle. split.
    { apply fits_keep; cbn; auto. }
    intros w1 Hv1. unfold after in Hv1. cbn in Hv1. rewrite Hop, Hgen, Hhandle, Hpend in Hv1. exact (discover_safe p key id cookies w1 Hv1).
  - intros err w Hv. apply (own_region _ _ _ _ _ _ Hv). intros now current a (Hkey & Hid & Hop & Hgen & Hhandle & Hp & Hpend) _ Hd' Hk.
    cbn in Hkey, Hid, Hop, Hgen, Hhandle, Hp, Hpend. cbn -[safe]. rewrite Hhandle. split; [|intros w1 Hv1; by eapply rest_ret].
    apply fits_none; cbn; auto.
Qed.

Lemma begin_safe ttl key cookies w : view None None w -> sf (begin ttl key cookies) rest w.
Proof.
  intros Hv. unfold begin. eapply quiet_call; [done | done | by intros ? ? ? [= <-]|]. clear w Hv.
  intros [connection|e] w Hv; [|by eapply rest_ret]. destruct (_ || _); [by eapply rest_ret|].
  destruct (conn_State connection); try by eapply rest_ret.
  all: eapply quiet_call; [done | done | by intros ? ? ? [= <-]|]; clear w Hv; intros id w Hv.
  all: destruct (negb (ValidPairingID id)); [by eapply rest_ret|].
  all: eapply quiet_call; [done | done | by intros ? ? ? [= <-]|]; clear w Hv; intros startedAt w Hv.
  all: eapply register_call; [done | done | done | intros; by eapply rest_ret |]; clear w Hv; intros p w Hv.
  all: by eapply persist_safe.
Qed.

Lemma Service_Start_safe ttl key cookies w : view None None w -> sf (Service_Start ttl key cookies) rest w.
Proof.
  intros Hv. unfold Service_Start. destruct (_ || _); [by eapply rest_ret|].
  eapply quiet_call; [done | done | |]; [intros w1 x w2 H; cbn in H; by case_bool_decide; simplify_eq|]. clear w Hv.
  intros [[p id]|] w Hv; [|by apply begin_safe]. eapply safe_bind; [by apply retryCleanup_safe|]. clear w Hv.
  intros [[]|e] w Hv; [by apply begin_safe | | by eapply rest_ret].
  eapply safe_bind; [by apply lookup_safe|]. clear w Hv. intros err w Hv. destruct (is_nil err); [by eapply rest_ret|].
  destruct (errors_Is err _); [by apply begin_safe | by eapply rest_ret].
Qed.

(** ** Complete *)

Lemma complete_call {A} r hand (k : result CompletedSession -> prog PairingCall A) Q w :
  view (Some r) hand w -> rv_op r = operationComplete -> rv_current r = true ->
  (forall completed w, view (Some r) hand w -> sf (k completed) Q w) -> sf (Call (Complete (rv_p r) (rv_handle r)) k) Q w.
Proof.
  intros Hv Hop Hcur Hk. eapply quiet_call; [done | | by intros ? ? ? [= <-] | done]. intros w1 Hv1. eapply view_reserved; [done|].
  intros a (_ & _ & ? & _ & ? & _) Hc. split; [congruence|]. split; [done | auto].
Qed.

(** What [Complete] knows when it commits. *)
Definition completing (r : reservation) : Prop := rv_op r = operationComplete /\ rv_current r = true.

Lemma commit_failed_safe {A} r superseded (a0 : A) w :
  view (Some r) None w -> completing r -> rv_handle r = None -> (superseded = true -> rv_durable r <> Some Begun) ->
  sf (do! _ := locked (rv_p r) (commit_failed_region (rv_gen r) superseded) in Ret a0) rest w.
Proof.
  intros Hv [Hop Hcur] Hh Hs. eapply own_region; [done|].
  intros now current a (Hkey & Hid & Hopa & Hgen & Hhandle & Hp & Hpend) _ Hd _. unfold commit_failed_region.
  assert (rv_durable r = Some Begun -> aa_pairingPersisted a = true) as Hpers by (intros H; destruct (Hd H); congruence).
  rewrite Hopa, Hop, Hgen, Z.eqb_refl, bool_decide_eq_true_2 by done. cbn -[safe].
  destruct superseded; cbn -[safe]; rewrite Hhandle, Hh; (split; [|intros w1 Hv1; by eapply rest_ret]).
  - apply fits_none; cbn; [congruence.. | auto | auto].
  - apply fits_none; cbn; [congruence.. | done | auto].
Qed.

Lemma committed_safe {A} r (k : option Attempt -> A) w :
  view (Some r) None w -> completing r -> rv_handle r = None -> rv_durable r <> Some Begun ->
  sf (do! result := locked (rv_p r) (committed_region (rv_gen r)) in Ret (k result)) rest w.
Proof.
  intros Hv [Hop Hcur] Hh Hs. eapply own_region; [done|].
  intros now current a (Hkey & Hid & Hopa & Hgen & Hhandle & Hp & Hpend) Hc _ _. unfold committed_region.
  rewrite Hopa, Hop, Hgen, Z.eqb_refl, (Hc Hcur), bool_decide_eq_false_2 by auto. cbn -[safe]. rewrite Hhandle, Hh. split; [|intros w1 Hv1; by eapply rest_ret].
  apply fits_none; cbn; [congruence.. | auto | done].
Qed.

Lemma commit_safe r envelope w :
  view (Some r) None w -> completing r -> rv_handle r = None -> sf (commit (rv_p r) (rv_key r) (rv_gen r) envelope) rest w.
Proof.
  intros Hv [Hop Hcur] Hh. unfold commit. eapply own_region; [done|].
  intros now current a (Hkey & Hid & Hopa & Hgen & Hhandle & Hp & Hpend) _ Hd Hk. unfold fingerprint_region.
  split. { apply fits_keep; [done | done | done | by rewrite Hpend |]. intros H. destruct (Hd H); [left | right]; congruence. }
  rewrite Hhandle, Hh, Hid. unfold after. rewrite bool_decide_eq_false_2 by congruence. rewrite Hopa, Hgen, Hhandle, Hp, Hpend.
  clear w Hv. intros w Hv. cbn in Hv. set (r1 := {| rv_p := rv_p r |}) in Hv. assert (completing r1) as Hr1 by (split; [done | cbn; by rewrite Hcur]).
  apply (commit_call r1 None); [done | done | apply Hr1|]. clear w Hv. intros err w Hv. unfold recorded_outcome in Hv.
  destruct (is_nil err); [by apply (committed_safe _ _ _ Hv)|].
  apply (commit_failed_safe _ _ _ _ Hv); [done | done|]. intros E. by rewrite E.
Qed.

Lemma failed_safe r cancel e w : view (Some r) None w -> completing r -> sf (failed (rv_p r) (rv_gen r) cancel e) rest w.
Proof. intros Hv [Hop _]. apply finish_then; [done | congruence | congruence]. Qed.

Lemma sealed_safe r envelope fingerprint w :
  view (Some r) None w -> completing r ->
  sf (do! kept := locked (rv_p r) (sealed_region (rv_gen r) envelope fingerprint) in
      if negb kept then Ret (Err [ErrAttemptNotFound])
      else call! _ := Dispose (rv_handle r) false in commit (rv_p r) (rv_key r) (rv_gen r) envelope) rest w.
Proof.
  intros Hv [Hop Hcur]. eapply own_region; [done|].
  intros now current a (Hkey & Hid & Hopa & Hgen & Hhandle & Hp & Hpend) Hc Hd _. unfold sealed_region.
  rewrite Hopa, Hop, Hgen, Z.eqb_refl, (Hc Hcur), bool_decide_eq_false_2 by auto. cbn -[safe commit locked]. split.
  { apply fits_none; cbn; [done..|]. intros H. destruct (Hd H); [left | right]; congruence. }
  unfold after. cbn -[safe commit locked]. rewrite Hopa, Hgen, Hp, Hop, Hcur. clear w Hv. intros w Hv.
  match type of Hv with view ?h _ _ => assert (forall w, view h None w -> sf (commit (rv_p r) (rv_key r) (rv_gen r) envelope) rest w) as Hcommit end.
  { intros w1 Hv1. by apply (commit_safe _ _ _ Hv1). }
  destruct (rv_handle r) as [h|]; cbn in Hv; [by eapply dispose_call|]. eapply quiet_call; [done | done | by intros ? ? ? [= <-] |]. intros; by apply Hcommit.
Qed.

Lemma Complete_safe providerName key pairingID w : view None None w -> sf (Service_Complete providerName key pairingID) rest w.
Proof.
  intros Hv. unfold Service_Complete. apply get_call; [done | intros; by eapply rest_ret |]. clear w Hv. intros p w Hv Hkeyed.
  eapply pick_region; [done | done | done | intros; by eapply rest_ret |..]; clear w Hv Hkeyed.
  - intros a current d w Hv. eapply safe_bind; [by eapply expire_safe|]. intros; by eapply rest_ret.
  - intros a d w <- _ Hv. set (r := take p a operationComplete true d) in *. assert (completing r) as Hr by done.
    destruct (aa_pending a) as [envelope|] eqn:Ep.
    { apply (commit_safe r); [done..|]. destruct (view_kept _ _ _ Hv) as [_ Hk]. cbn in *. destruct (aa_handle a); [|done].
      by rewrite Hk in Ep. }
    apply (complete_call r None); [done..|]. clear w Hv. intros [completed|e] w Hv; [|by apply (failed_safe r)].
    destruct (_ || _); [by apply (failed_safe r)|]. eapply quiet_call; [done | done | by intros ? ? ? [= <-]|]. clear w Hv.
    intros [envelope|e] w Hv; [|by apply (failed_safe r)]. by apply (sealed_safe r).
Qed.

(** ** Cancel and sweep *)

Lemma Cancel_safe key pairingID w : view None None w -> sf (Cancel key pairingID) rest w.
Proof.
  intros Hv. unfold Cancel. apply get_call; [done | intros; by eapply rest_ret |]. clear w Hv. intros p w Hv _.
  apply other_region with (key := None); [done | done |]. intros now current a _. unfold cancel_region.
  destruct (negb current); [untouched; by eapply rest_ret|].
  destruct (bool_decide (aa_operation a <> operationIdle)) eqn:E; [untouched; by eapply rest_ret|].
  take_it operationCleanup. by apply (finish_then (take p a operationCleanup current d)).
Qed.

Lemma sweep_safe ps cleaned err w : view None None w -> sf (sweep ps cleaned err) rest w.
Proof.
  revert cleaned err w. induction ps as [|p ps IH]; intros cleaned err w Hv; cbn [sweep]; [by eapply rest_ret|].
  apply other_region with (key := None); [done | done |]. intros now current a _. unfold sweep_region.
  destruct (negb current); [untouched; by apply IH|].
  destruct (bool_decide (aa_operation a <> operationIdle)) eqn:E.
  - split; [done|]. left. split; [|intros; by apply IH]. destruct (_ || _); [|apply alike_refl].
    eexists _, (at_State (aa_Attempt a)), (at_Devices (aa_Attempt a)). by destruct a as [[]].
  - destruct (negb _); [untouched; by apply IH|]. take_it operationCleanup.
    eapply safe_bind; [apply (finishReserved_safe (take p a operationCleanup current d)); [done | done | by eapply view_done]|].
    intros err' w2 Hv2. destruct (is_nil err'); by apply IH.
Qed.

Lemma SweepExpired_safe w : view None None w -> sf SweepExpired rest w.
Proof.
  intros Hv. eapply quiet_call; [done | done | intros w1 x w2 H; cbn in H; by case_bool_decide; simplify_eq|].
  intros; by apply sweep_safe.
Qed.
End Thread.

(** ** Any number of operations at once *)

Inductive PairingOperation :=
| DoStart (key : attemptKey) (cookies : list (string * string))
| DoSelectDevice (key : attemptKey) (pairingID deviceID : string)
| DoComplete (key : attemptKey) (pairingID : string)
| DoCancel (key : attemptKey) (pairingID : string)
| DoSweepExpired
| DoReconcileStalePairings (tenantID : string)
| DoMarkAuthorizationFailure (key : attemptKey).

Section Pool.
Variables (providerName : string) (ttl : Z).

Definition body (o : PairingOperation) : prog PairingCall unit :=
  match o with
  | DoStart key cookies => do! _ := Service_Start ttl key cookies in Ret tt
  | DoSelectDevice key pairingID deviceID => do! _ := SelectDevice key pairingID deviceID in Ret tt
  | DoComplete key pairingID => do! _ := Service_Complete providerName key pairingID in Ret tt
  | DoCancel key pairingID => do! _ := Cancel key pairingID in Ret tt
  | DoSweepExpired => do! _ := SweepExpired in Ret tt
  | DoReconcileStalePairings tenantID => do! _ := Service_ReconcileStalePairings ttl tenantID in Ret tt
  | DoMarkAuthorizationFailure key => do! _ := MarkAuthorizationFailure key in Ret tt
  end.

Definition is_body (p : prog PairingCall unit) : Prop := exists o, p = body o.

(** A thread that enters has nothing in hand. *)
Definition empty_handed (i : nat) (w : World) : Prop := forall h, wd_hands w !! h <> Some i.

(** The registry [w] and the threads [ts], after any interleaving of operations. *)
Definition pairing_reachable (w : World) (ts : gmap nat (prog PairingCall unit)) : Prop :=
  rtc (pool_step respond empty_handed is_body) (empty_world, ∅) (w, ts).

Lemma empty_world_ok : registry_ok empty_world.
Proof.
  constructor; cbn; intros; try done; try (by destruct H).
  split; [set_solver|]. intros [H|[[? ?]|(? & ? & ? & _)]]; [set_solver | done | done].
Qed.

Lemma body_safe i o w : view i None None w -> safe (others rely registry_ok i) (respond i) (allowed i) (body o) (rest i) w.
Proof.
  intros Hv. destruct o; apply (safe_bind _ _ _ _ _ (rest i)); try (intros; by eapply rest_ret).
  - by apply Service_Start_safe.
  - by apply SelectDevice_safe.
  - by apply Complete_safe.
  - by apply Cancel_safe.
  - by apply SweepExpired_safe.
  - eapply quiet_call; [done | done | by intros ? ? ? [= <-] | intros; by eapply rest_ret].
  - eapply quiet_call; [done | done | by intros ? ? ? [= <-] | intros; by eapply rest_ret].
Qed.

Lemma pairing_safe w ts :
  pairing_reachable w ts -> registry_ok w /\
  forall i p, ts !! i = Some p -> safe (others rely registry_ok i) (respond i) (allowed i) p (rest i) w.
Proof.
  intros Hr. eapply pool_safe; [| |apply empty_world_ok | done].
  - intros. by eapply guarantee.
  - intros i p w0 [o ->] Hw Hf. apply body_safe. split; [done|]. split; [|done]. intros h. split; [intros H; by destruct (Hf h) | done].
Qed.

Lemma pairing_allowed w ts i X (c : PairingCall X) k : pairing_reachable w ts -> ts !! i = Some (Call c k) -> allowed i X c w.
Proof. intros Hr Hi. destruct (pairing_safe w ts Hr) as [_ H]. destruct (H i _ Hi w (rtc_refl _ _)). done. Qed.

(** The attempt a call to the provider or the repository works on, and the operation it
    belongs to. *)
Definition concerns {X} (c : PairingCall X) : option (nat * attemptOperation) :=
  match c with
  | BeginPairing p _ _ _ | Discover p _ => Some (p, operationStart)
  | StartApproval p _ _ => Some (p, operationSelect)
  | Complete p _ | CommitPairedSession p _ _ _ _ => Some (p, operationComplete)
  | RestorePairing p _ _ => Some (p, operationCleanup)
  | _ => None
  end.

(** The arguments of the call are the attempt's own. *)
Definition own_arguments {X} (c : PairingCall X) (a : activeAttempt) : Prop :=
  match c with
  | BeginPairing _ key id _ | RestorePairing _ key id | CommitPairedSession _ key id _ _ => identified key id a
  | StartApproval _ handle _ | Complete _ handle => aa_handle a = handle
  | _ => True
  end.

Lemma concerns_reserved i X (c : PairingCall X) w p op :
  allowed i X c w -> concerns c = Some (p, op) -> reserved i w p (fun a => aa_operation a = op /\ own_arguments c a).
Proof.
  intros Hal Hc. destruct c; try done; injection Hc as <- <-; unfold allowed, reserved in *; naive_solver.
Qed.

(** Handles in hand belong to threads that have entered. *)
Lemma respond_hands i X (c : PairingCall X) w x w' h j :
  respond i X c w x = Some w' -> wd_hands w' !! h = Some j -> j = i \/ wd_hands w !! h = Some j.
Proof.
  destruct c; cbn; intros Hr Hh; try (injection Hr as <-; auto; fail); try (case_bool_decide; [injection Hr as <-; auto | done]; fail).
  - destruct x as [[now current] a]. destruct (wd_attempts w !! p) as [a0|]; [|done].
    destruct (_ && _); [|done]. destruct (f now current a) as [a' remove]. injection Hr as <-. cbn in Hh.
    destruct (aa_handle a) as [h0|], (aa_handle a') as [h1|]; auto.
    + apply lookup_insert_Some in Hh as [[_ <-]|[_ Hh]]; auto.
    + apply lookup_delete_Some in Hh as [_ Hh]. auto.
  - destruct x as [q|]; [destruct (_ && _) | destruct (_ || _)]; try done; injection Hr as <-; auto.
  - destruct x; injection Hr as <-; auto.
  - injection Hr as <-. unfold resolve in Hh. destruct (is_nil x); [auto|]. destruct (errors_Is x _); auto.
  - injection Hr as <-. unfold resolve in Hh. destruct (is_nil x); [auto|]. destruct (errors_Is x _); auto.
  - destruct (x.1.1) as [h0|]; [|injection Hr as <-; auto]. case_bool_decide; [done|]. injection Hr as <-. cbn in Hh.
    apply lookup_insert_Some in Hh as [[_ <-]|[_ Hh]]; auto.
  - destruct handle as [h0|]; injection Hr as <-; [|auto]. cbn in Hh. apply lookup_delete_Some in Hh as [_ Hh]. auto.
Qed.

Lemma hands_entered w ts h i : pairing_reachable w ts -> wd_hands w !! h = Some i -> is_Some (ts !! i).
Proof.
  intros Hr. revert h i. pose (P := fun c : World * gmap nat (prog PairingCall unit) => forall h i, wd_hands c.1 !! h = Some i -> is_Some (c.2 !! i)).
  enough (forall c, rtc (pool_step respond empty_handed is_body) (empty_world, ∅) c -> P c) as H by (by apply (H (w, ts))).
  clear w ts Hr. apply (rtc_ind_r P); [done|]. unfold P. intros [w ts] c2 _ Hs IH h j Hh. cbn in IH.
  inversion Hs as [i p ? ? Hi Hf He | i X c k x ? ? ? Hi Hr]; subst; cbn in *; rewrite lookup_insert_is_Some.
  - destruct (decide (i = j)); eauto.
  - destruct (respond_hands _ _ _ _ _ _ _ _ Hr Hh) as [->|H]; [by left|]. destruct (decide (i = j)); eauto.
Qed.

(** C11. Whatever operations of the pairing service run at once, and whatever the
    provider and the repository answer: an operation that is about to call one of them
    for an attempt works on an attempt that is marked with this operation, with the
    attempt's own connection, identifier or provider handle; and no other operation is
    about to make such a call for the same attempt. *)
Theorem pairing_operations_exclusive w ts i X (c : PairingCall X) k p op :
  pairing_reachable w ts -> ts !! i = Some (Call c k) -> concerns c = Some (p, op) ->
  (exists a, wd_attempts w !! p = Some a /\ aa_operation a = op /\ own_arguments c a) /\
  (forall j Y (c' : PairingCall Y) k', ts !! j = Some (Call c' k') -> fst <$> concerns c' = Some p -> j = i).
Proof.
  intros Hr Hi Hc. pose proof (concerns_reserved _ _ _ _ _ _ (pairing_allowed _ _ _ _ _ _ Hr Hi) Hc) as (Hh & a & Ha & Hop & Hown).
  split; [by exists a|]. intros j Y c' k' Hj Hc'. destruct (concerns c') as [[p' op']|] eqn:Ec; [|done]. injection Hc' as ->.
  destruct (concerns_reserved _ _ _ _ _ _ (pairing_allowed _ _ _ _ _ _ Hr Hj) Ec) as [Hh' _]. congruence.
Qed.

(** C12. No provider handle is lost or used twice by the pairing service: a handle the
    provider gave out is, at any moment, exactly one of: disposed of; in the hands of an
    operation that is still running; or kept by an attempt that is registered under its
    identifier and its connection (so that selection, completion, cancellation or the
    sweep reaches it). A handle an operation is about to dispose of has not been disposed
    of before. *)
Theorem provider_handles_accounted_for w ts h :
  pairing_reachable w ts -> h ∈ wd_given w ->
  ((h ∈ wd_disposed w /\ wd_hands w !! h = None /\ forall p a, wd_attempts w !! p = Some a -> aa_handle a <> Some h) \/
   (h ∉ wd_disposed w /\ (exists i X (c : PairingCall X) k, wd_hands w !! h = Some i /\ ts !! i = Some (Call c k)) /\
    forall p a, wd_attempts w !! p = Some a -> aa_handle a <> Some h) \/
   (h ∉ wd_disposed w /\ wd_hands w !! h = None /\
    exists p a, wd_attempts w !! p = Some a /\ aa_handle a = Some h /\ isCurrent w p a = true)) /\
  (forall i cancel k, ts !! i = Some (Call (Dispose (Some h) cancel) k) -> h ∉ wd_disposed w).
Proof.
  intros Hr Hg. destruct (pairing_safe w ts Hr) as [Hw Hts]. split.
  - assert (forall p a, wd_hands w !! h <> None \/ h ∈ wd_disposed w -> wd_attempts w !! p = Some a -> aa_handle a <> Some h) as Hns.
    { intros p a Hor Ha Hh. destruct (ok_stored w Hw _ _ _ Ha Hh). naive_solver. }
    apply (ok_given w Hw) in Hg as [Hd|[[i Hi]|(p & a & Ha & Hh)]].
    + left. split; [done|]. split; [|eauto]. destruct (wd_hands w !! h) eqn:E; [|done]. by destruct (ok_hands w Hw _ _ E).
    + right. left. split; [by apply (ok_hands w Hw _ _ Hi)|]. split; [|intros p a; apply Hns; left; congruence]. exists i.
      destruct (hands_entered _ _ _ _ Hr Hi) as [[[]|X c k] Hp]; [|by exists X, c, k].
      destruct (Hts i _ Hp w (rtc_refl _ _)) as (_ & Hhands & _). by apply Hhands in Hi.
    + right. right. destruct (ok_stored w Hw _ _ _ Ha Hh). split; [done|]. split; [done|]. exists p, a. split; [done|]. split; [done|].
      apply (ok_kept w Hw _ _ Ha). congruence.
  - intros i cancel k Hi. pose proof (pairing_allowed _ _ _ _ _ _ Hr Hi) as Hal. by apply (ok_hands w Hw _ i).
Qed.

(** A pairing the repository has begun and not yet restored, committed or reported
    superseded is never forgotten by the service: its attempt is registered under its
    identifier and its connection, is marked as persisted (or [Start] is about to mark
    it), and it is the only one of its connection. *)
Theorem begun_pairing_stays_registered w ts p :
  pairing_reachable w ts -> wd_durable w !! p = Some Begun ->
  exists a, wd_attempts w !! p = Some a /\ isCurrent w p a = true /\
    (aa_pairingPersisted a = true \/ aa_operation a = operationStart) /\
    (forall q b, wd_durable w !! q = Some Begun -> wd_attempts w !! q = Some b -> aa_key b = aa_key a -> q = p).
Proof.
  intros Hr Hd. destruct (pairing_safe w ts Hr) as [Hw _]. destruct (ok_durable w Hw _ Hd) as (a & Ha & Hcur & Hp).
  exists a. split; [done|]. split; [done|]. split; [done|]. intros q b Hq Hb Hkey.
  destruct (ok_durable w Hw _ Hq) as (b' & Hb' & Hcur' & _). assert (b' = b) as -> by congruence.
  apply isCurrent_iff in Hcur as [_ H1]. apply isCurrent_iff in Hcur' as [_ H2]. congruence.
Qed.
End Pool.

(** ** A concrete execution

    An attempt has been started with two devices to choose from; one operation has
    selected a device and is about to ask the provider for its approval, another has
    found the attempt in order to cancel it. *)

Definition example_key : attemptKey := {| ak_tenantID := "t1"; ak_connectionID := "c1" |}.

Definition example_devices : list Device := [{| dv_ID := "d1"; dv_Label := "Phone" |}; {| dv_ID := "d2"; dv_Label := "Tablet" |}].

Definition no_attempt : activeAttempt := new_attempt 0 "" 0 {| ak_tenantID := ""; ak_connectionID := "" |}.

Definition example_oracle (X : Type) (c : PairingCall X) (w : World) : X :=
  match c in PairingCall X return X with
  | Locked p f => let a := default no_attempt (wd_attempts w !! p) in (0, isCurrent w p a, a)
  | ByKey key => match wd_byKey w !! key with
                 | Some p => (fun a => (p, at_ID (aa_Attempt a))) <$> wd_attempts w !! p
                 | None => None
                 end
  | Get _ pairingID => wd_byID w !! pairingID
  | Register _ => Some (wd_next w)
  | Registered => (map_to_list (wd_byKey w)).*2
  | Now => 0
  | NewID => "attempt-1"
  | Seal _ _ => Err [ErrProviderOperation]
  | GetConnection key => Ok {| conn_ID := ak_connectionID key; conn_TenantID := ak_tenantID key; conn_Name := "phone";
                               conn_State := ConnectionStateUnpaired |}
  | BeginPairing _ _ _ _ => Ok ConnectionStateUnpaired
  | RestorePairing _ _ _ => []
  | CommitPairedSession _ _ _ _ _ => []
  | ReconcileStale _ _ => Ok 0
  | MarkReauthorization _ => Err [ErrAttemptNotFound]
  | Discover _ _ => (Some 7, example_devices, [])
  | StartApproval _ _ _ => Ok "dog"
  | Complete _ _ => Err [ErrProviderOperation]
  | Dispose _ _ => tt
  end.

Definition steps_of (i n : nat) : list (nat * option PairingOperation) := repeat (i, None) n.

Definition example_script : list (nat * option PairingOperation) :=
  (0%nat, Some (DoStart example_key [])) :: steps_of 0 11 ++
  (1%nat, Some (DoSelectDevice example_key "attempt-1" "d1")) :: (2%nat, Some (DoCancel example_key "attempt-1")) ::
  steps_of 2 1 ++ steps_of 1 2.

Definition may_enter (i : nat) (w : World) : bool := forallb (fun hi => negb (hi.2 =? i)%nat) (map_to_list (wd_hands w)).

Lemma may_enter_empty_handed i w : may_enter i w = true -> empty_handed i w.
Proof.
  intros H h Hh. apply elem_of_map_to_list, list_elem_of_In in Hh. unfold may_enter in H. rewrite forallb_forall in H.
  specialize (H _ Hh). cbn in H. by rewrite Nat.eqb_refl in H.
Qed.

Definition example_run : option (World * gmap nat (prog PairingCall unit)) :=
  pool_play respond (body "google" (5 * Minute)) may_enter example_oracle example_script empty_world ∅.

(** What the execution came to. *)
Definition next_call (p : prog PairingCall unit) : option (nat * attemptOperation) :=
  match p with Call c _ => concerns c | Ret _ => None end.

Definition example_facts (r : World * gmap nat (prog PairingCall unit)) : bool :=
  bool_decide ((next_call <$> r.2 !! 1%nat) = Some (Some (0%nat, operationSelect))) &&
  bool_decide (7 ∈ wd_given r.1) && bool_decide (wd_durable r.1 !! 0%nat = Some Begun).

Lemma example_reaches w ts : example_run = Some (w, ts) -> pairing_reachable "google" (5 * Minute) w ts.
Proof. intros H. eapply pool_play_steps; [|apply may_enter_empty_handed | exact H]. intros o. by exists o. Qed.

Lemma example_run_facts : exists w ts, example_run = Some (w, ts) /\ example_facts (w, ts) = true.
Proof.
  assert (match example_run with Some r => example_facts r | None => false end = true) as H by (vm_compute; reflexivity).
  destruct example_run as [[w ts]|]; [by exists w, ts | done].
Qed.

Lemma pairing_operations_exclusive_witness :
  exists w ts X (c : PairingCall X) k, pairing_reachable "google" (5 * Minute) w ts /\ ts !! 1%nat = Some (Call c k) /\
    concerns c = Some (0%nat, operationSelect) /\
    (exists a, wd_attempts w !! 0%nat = Some a /\ aa_operation a = operationSelect /\ own_arguments c a).
Proof.
  destruct example_run_facts as (w & ts & Hrun & [[H1 H2]%andb_true_iff H3]%andb_true_iff). reflect_bools. cbn in H1.
  pose proof (example_reaches w ts Hrun) as Hr. destruct (ts !! 1%nat) as [[a|X c k]|] eqn:Ei; [done| |done]. injection H1 as Hc.
  exists w, ts, X, c, k. split; [exact Hr|]. split; [exact Ei|]. split; [exact Hc|].
  exact (proj1 (pairing_operations_exclusive _ _ w ts 1 X c k 0 operationSelect Hr Ei Hc)).
Defined.

Lemma provider_handles_accounted_for_witness :
  exists w ts, pairing_reachable "google" (5 * Minute) w ts /\ 7 ∈ wd_given w /\
    (forall i cancel k, ts !! i = Some (Call (Dispose (Some 7) cancel) k) -> 7 ∉ wd_disposed w).
Proof.
  destruct example_run_facts as (w & ts & Hrun & [[H1 H2]%andb_true_iff H3]%andb_true_iff). reflect_bools. cbn in H2.
  exists w, ts. split; [exact (example_reaches w ts Hrun)|]. split; [exact H2|].
  exact (proj2 (provider_handles_accounted_for _ _ w ts 7 (example_reaches w ts Hrun) H2)).
Defined.

Lemma begun_pairing_stays_registered_witness :
  exists w ts a, pairing_reachable "google" (5 * Minute) w ts /\ wd_durable w !! 0%nat = Some Begun /\
    wd_attempts w !! 0%nat = Some a /\ isCurrent w 0 a = true.
Proof.
  destruct example_run_facts as (w & ts & Hrun & [[H1 H2]%andb_true_iff H3]%andb_true_iff). reflect_bools. cbn in H3.
  destruct (begun_pairing_stays_registered _ _ w ts 0 (example_reaches w ts Hrun) H3) as (a & Ha & Hc & _).
  exists w, ts, a. split; [exact (example_reaches w ts Hrun)|]. split; [exact H3|]. split; [exact Ha | exact Hc].
Defined.
