(* ===== verification/SessionVault.v ===== *)
(** * The session vault (internal/gateway/session/vault.go)

    What sealing promises (the wrapper interface in, the plaintext out), the
    vault over a store of envelopes, and the repository as that store. *)

From S2P Require Import Prelude GoText Crypto Aes Domain Session Store Connections.

(** ** Sealing and opening *)

#[export] Instance LocalKey_laws : KeyWrapperLaws LocalKey.Wrapper.
Proof.
  constructor. intros w ctx ctx' rnd key wrapped H _ ->. cbn [WrapKey UnwrapKey LocalKey_wrapper] in *.
  unfold LocalKey.Wrapper_WrapKey in H. set (ad := bytes_of LocalKey.keyID) in *.
  destruct (_ || _) eqn:E; [done|]. destruct rnd as [nonce|]; [|done].
  destruct (negb (blen nonce =? _)) eqn:En; [done|]. injection H as <-. reflect_bools.
  assert (Hn : length nonce = 12%nat) by (unfold LocalKey.nonceBytes, blen in *; lia).
  unfold LocalKey.Wrapper_UnwrapKey. fold ad. cbn [wk_KeyID wk_KeyVersion wk_Ciphertext].
  assert (Hl : blen (nonce ++ gcm_Seal (LocalKey.master_key w) nonce key ad) =
    LocalKey.nonceBytes + LocalKey.dekBytes + gcmTagSize).
  { unfold blen. rewrite length_app, length_gcm_Seal. unfold LocalKey.dekBytes, LocalKey.nonceBytes,
      gcmTagSize, blen in *. lia. }
  rewrite Hl, Z.eqb_refl. change (Z.to_nat LocalKey.nonceBytes) with 12%nat.
  rewrite take_app_length', drop_app_length', gcm_Open_Seal by done. cbn [negb is_nil orb].
  replace (blen key =? LocalKey.dekBytes) with true; [done|]. symmetry. by apply Z.eqb_eq.
Qed.

(** AWS KMS decrypts under a key what it encrypted under it. *)
Lemma AwsKms_laws Encrypt Decrypt
  (kms_roundtrip : forall ctx rnd keyID plaintext blob,
     Encrypt ctx rnd keyID plaintext = Some blob -> Decrypt [] keyID blob = Some plaintext) :
  @KeyWrapperLaws AwsKms.Wrapper (AwsKms.wrapper Encrypt Decrypt).
Proof.
  constructor. intros w ctx ctx' rnd key wrapped H Hok ->. cbn [WrapKey UnwrapKey AwsKms.wrapper] in *.
  unfold AwsKms.Wrapper_WrapKey in H. destruct (negb (blen key =? _)) eqn:Ek; [done|].
  destruct (Encrypt _ _ _ _) as [blob|] eqn:Ee; [|done]. destruct (_ || _) eqn:Eb; [done|].
  injection H as <-. unfold AwsKms.Wrapper_UnwrapKey, wrapped_ok in *.
  cbn [wk_KeyID wk_KeyVersion wk_Ciphertext] in *. apply orb_false_iff in Eb as [-> ->].
  rewrite String.eqb_refl, (kms_roundtrip _ _ _ _ _ Ee), Ek. reflect_bools.
  replace (AwsKms.currentVersion w <? 1) with false; [done|]. symmetry. apply Z.ltb_ge. lia.
Qed.

Section Sealing.
Context {W : Type} `{KeyWrapperLaws W}.

Lemma Validate_ok e : is_ok (Envelope_Validate e) = true ->
  en_Version e = EnvelopeVersion /\ blen (en_Nonce e) = gcmNonceSize.
Proof.
  unfold Envelope_Validate. destruct (_ || _) eqn:E; [done|]. intros _. by reflect_bools.
Qed.

(** What [Seal] returns when it succeeds. *)
Lemma Seal_ok w ctx scope plaintext dek nonce rnd e :
  Seal w ctx scope plaintext dek nonce rnd = Ok e ->
  exists k n wrapped, dek = Some k /\ nonce = Some n /\ WrapKey w ctx rnd k = Ok wrapped /\ wrapped_ok wrapped = true /\
    Scope_valid scope = true /\ 0 < blen plaintext <= maxPlaintextSize /\
    is_ok (Envelope_Validate e) = true /\
    e = {| en_Revision := 0; en_Version := EnvelopeVersion; en_Provider := sc_Provider scope;
           en_Ciphertext := gcm_Seal k n plaintext (associatedData EnvelopeVersion scope);
           en_WrappedDEK := wk_Ciphertext wrapped; en_Nonce := n;
           en_KeyID := wk_KeyID wrapped; en_KeyVersion := wk_KeyVersion wrapped |}.
Proof.
  unfold Seal. destruct (_ || _) eqn:E; [done|]. destruct dek as [k|]; [|done].
  destruct (WrapKey w ctx rnd k) as [wrapped|] eqn:Ew; [|done]. destruct (wrapped_ok wrapped) eqn:Eok; [|done]. cbn [negb].
  destruct nonce as [n|]; [|done]. set (env := Build_Envelope _ _ _ _ _ _ _ _).
  destruct (is_ok (Envelope_Validate env)) eqn:Ev; [|done]. intros [= <-]. reflect_bools.
  exists k, n, wrapped. split_and!; try done; unfold blen in *; lia.
Qed.

Lemma open_Seal w ctx scope plaintext k nonce rnd e :
  blen k = dekSize -> Seal w ctx scope plaintext (Some k) nonce rnd = Ok e ->
  open w [] scope e = Ok (plaintext, k).
Proof.
  intros Hk (k' & n & wrapped & [= <-] & -> & Hw & Hwok & Hsc & Hp & Hv & ->)%Seal_ok. unfold open.
  destruct (Validate_ok _ Hv) as [_ Hn]. cbn [en_Nonce] in Hn.
  rewrite Hsc, Hv. cbn [negb orb en_Provider en_KeyID en_KeyVersion en_WrappedDEK en_Nonce
    en_Ciphertext en_Version]. rewrite String.eqb_refl. cbn [negb].
  replace {| wk_KeyID := wk_KeyID wrapped; wk_KeyVersion := wk_KeyVersion wrapped;
             wk_Ciphertext := wk_Ciphertext wrapped |} with wrapped by (by destruct wrapped).
  rewrite (unwrap_wrapped _ _ [] _ _ _ Hw Hwok eq_refl), Hk, Hn, !Z.eqb_refl. cbn [negb].
  rewrite gcm_Open_Seal.
  destruct (_ || _) eqn:E; [|done]. apply orb_true_iff in E as [E|E]; reflect_bools; lia.
Qed.

(** An envelope that opens is valid for its scope. *)
Lemma open_ok w ctx scope e r : open w ctx scope e = Ok r ->
  Scope_valid scope = true /\ is_ok (Envelope_Validate e) = true /\ en_Provider e = sc_Provider scope /\
  exists dek, UnwrapKey w ctx {| wk_KeyID := en_KeyID e; wk_KeyVersion := en_KeyVersion e;
    wk_Ciphertext := en_WrappedDEK e |} = Ok dek /\ dek = r.2 /\ blen dek = dekSize /\
    gcm_Open dek (en_Nonce e) (en_Ciphertext e) (associatedData (en_Version e) scope) = Some r.1 /\
    0 < blen r.1 <= maxPlaintextSize.
Proof.
  unfold open. destruct (_ || _) eqn:E; [done|]. destruct (UnwrapKey _ _ _) as [dek|]; [|done].
  destruct (negb (blen dek =? dekSize)) eqn:Ed; [done|].
  destruct (negb (blen (en_Nonce e) =? gcmNonceSize)); [done|].
  destruct (gcm_Open _ _ _ _) as [p|] eqn:Eo; [|done]. destruct ((blen p =? 0) || _) eqn:El; [done|].
  intros [= <-]. reflect_bools. split_and!; try done. exists dek. split_and!; try done; simpl; unfold blen in *; lia.
Qed.

Lemma wrapped_valid e wrapped :
  is_ok (Envelope_Validate e) = true -> wrapped_ok wrapped = true ->
  is_ok (Envelope_Validate {| en_Revision := en_Revision e; en_Version := en_Version e;
    en_Provider := en_Provider e; en_Ciphertext := en_Ciphertext e;
    en_WrappedDEK := wk_Ciphertext wrapped; en_Nonce := en_Nonce e;
    en_KeyID := wk_KeyID wrapped; en_KeyVersion := wk_KeyVersion wrapped |}) = true.
Proof.
  unfold Envelope_Validate, wrapped_ok. cbn [en_Version en_Provider en_Ciphertext en_WrappedDEK en_Nonce
    en_KeyID en_KeyVersion].
  destruct (negb (en_Version e =? EnvelopeVersion)); [done|].
  destruct (len (en_Provider e) =? 0); [done|]. destruct (len (en_Provider e) >? maxProviderSize); [done|].
  destruct (blen (en_Ciphertext e) <? gcmTagSize); [done|].
  destruct (blen (en_Ciphertext e) >? maxCiphertextSize); [done|].
  destruct (negb (blen (en_Nonce e) =? gcmNonceSize)); [by rewrite !orb_true_r|]. cbn [orb].
  intros _. rewrite negb_true_iff. intros Hw.
  repeat match goal with H : _ || _ = false |- _ => apply orb_false_iff in H as [? ?] end.
  by repeat match goal with H : _ = false |- _ => rewrite H; clear H end.
Qed.

(** Rewrapping yields an envelope that opens to the same plaintext and key. *)
Lemma Rewrap_opens w scope e rnd e' changed :
  Rewrap w [] scope e rnd = Ok (e', changed) ->
  (changed = false -> e' = e) /\ en_Revision e' = en_Revision e /\ en_Ciphertext e' = en_Ciphertext e /\
  en_Nonce e' = en_Nonce e /\ (exists r, open w [] scope e = Ok r /\ open w [] scope e' = Ok r).
Proof.
  unfold Rewrap. intros (r & Ho & H1)%result_bind_ok.
  destruct (WrapKey w [] rnd r.2) as [wrapped|] eqn:Ew; [|done].
  destruct (wrapped_ok wrapped) eqn:Eok; [|done]. cbn [negb] in H1.
  destruct (_ && _); injection H1 as <- <-; [split_and!; try done; by exists r|].
  split_and!; try done. exists r. split; [done|].
  apply open_ok in Ho as (Hsc & Hv & Hp & dek & _ & Hd & Hk & Hg & Hb). subst dek.
  unfold open. rewrite Hsc, (wrapped_valid e wrapped Hv Eok).
  cbn [en_Provider en_KeyID en_KeyVersion en_WrappedDEK en_Nonce en_Ciphertext en_Version].
  rewrite Hp, String.eqb_refl. cbn [negb orb].
  replace {| wk_KeyID := wk_KeyID wrapped; wk_KeyVersion := wk_KeyVersion wrapped;
             wk_Ciphertext := wk_Ciphertext wrapped |} with wrapped by (by destruct wrapped).
  rewrite (unwrap_wrapped _ _ [] _ _ _ Ew Eok eq_refl), Hk. destruct (Validate_ok _ Hv) as [_ ->].
  rewrite !Z.eqb_refl. cbn [negb]. rewrite Hg.
  destruct (_ || _) eqn:E; [apply orb_true_iff in E as [E|E]; reflect_bools; lia|]. by destruct r.
Qed.
End Sealing.

(** What is sealed for a scope opens under that scope to the same plaintext,
    for every key wrapper that unwraps what it wrapped; the sealed envelope is
    valid for the store and 16 bytes longer than the plaintext. *)
Theorem Open_Seal_roundtrip {W : Type} `{KeyWrapperLaws W} (w : W) (ctx : error) (scope : Scope)
    (plaintext k : bytes) (nonce rnd : option bytes) (e : Envelope)
  (Hk : blen k = dekSize) (Hseal : Seal w ctx scope plaintext (Some k) nonce rnd = Ok e) :
  Open w [] scope e = Ok plaintext /\ is_ok (Envelope_Validate e) = true /\
  blen (en_Ciphertext e) = blen plaintext + gcmTagSize.
Proof.
  split; [unfold Open; by rewrite (open_Seal _ _ _ _ _ _ _ _ Hk Hseal)|].
  apply Seal_ok in Hseal as (k' & n & wrapped & _ & _ & _ & _ & _ & _ & Hv & ->). split; [done|].
  unfold blen. cbn [en_Ciphertext]. rewrite length_gcm_Seal. unfold gcmTagSize. lia.
Qed.

(** The associated data binds an envelope to its tenant, connection and
    provider: two valid scopes with the same associated data are the same
    scope. *)
Theorem associatedData_binds_scope (version : Z) (a b : Scope)
  (Ha : Scope_valid a = true) (Hb : Scope_valid b = true)
  (Heq : associatedData version a = associatedData version b) : a = b.
Proof.
  assert (Hfr : forall s, Scope_valid s = true -> associatedData version s = PutUint32 (uint32 version) ++
            concat (frame 4 <$> (bytes_of <$> [sc_TenantID s; sc_ConnectionID s; sc_Provider s])) /\
            Forall (frameable 4) (bytes_of <$> [sc_TenantID s; sc_ConnectionID s; sc_Provider s])).
  { intros s Hs. unfold Scope_valid, maxScopeIDSize, maxProviderSize in Hs. reflect_bools.
    unfold associatedData, PutUint32, frame, frameable. cbn [fmap list_fmap].
    rewrite !len_bytes in *. unfold uint32. change (2 ^ 32) with 4294967296.
    rewrite !(Z.mod_small (blen _)) by lia. split; [done|].
    repeat constructor; cbn; lia. }
  destruct (Hfr a Ha) as [Ea Fa]. destruct (Hfr b Hb) as [Eb Fb]. rewrite Ea, Eb in Heq.
  apply app_inj_1 in Heq as [_ Heq]; [|done]. apply frames_inj in Heq; [|lia|done..].
  cbn [fmap list_fmap] in Heq. injection Heq as H1%bytes_of_inj H2%bytes_of_inj H3%bytes_of_inj.
  destruct a, b; simpl in *; congruence.
Qed.

(** Rewrapping under the current key never touches the encrypted session:
    revision, nonce and ciphertext stay, nothing changes when the key is already
    current, and the envelope opens exactly as before. *)
Theorem Rewrap_preserves_session {W : Type} `{KeyWrapperLaws W} (w : W) (scope : Scope) (e e' : Envelope)
    (rnd : option bytes) (changed : bool) (Hre : Rewrap w [] scope e rnd = Ok (e', changed)) :
  (changed = false -> e' = e) /\ en_Revision e' = en_Revision e /\ en_Ciphertext e' = en_Ciphertext e /\
  en_Nonce e' = en_Nonce e /\ Open w [] scope e' = Open w [] scope e /\ is_ok (Open w [] scope e) = true.
Proof.
  destruct (Rewrap_opens _ _ _ _ _ _ Hre) as (H1 & H2 & H3 & H4 & r & Ho & Ho').
  split_and!; try done; unfold Open; rewrite Ho, ?Ho'; done.
Qed.

(** ** The store of envelopes *)

(** [session.EnvelopeStore]. *)
Class EnvelopeStore (S : Type) := {
  es_Save : string -> string -> Envelope -> S -> S * result unit;
  es_Load : string -> string -> S -> S * result Envelope;
  es_Swap : string -> string -> Z -> Envelope -> S -> S * result bool;
  es_wf : S -> Prop
}.

(** What the vault relies on: reads change nothing, a saved envelope is loaded
    back under a positive revision, a swap happens only at the expected revision
    and raises it, and a refused swap changes nothing. *)
Class EnvelopeStoreLaws (S : Type) `{EnvelopeStore S} := {
  load_pure t c s : (es_Load t c s).1 = s;
  save_load t c e s s' : es_wf s -> es_Save t c e s = (s', Ok tt) ->
    es_wf s' /\ exists r, 0 < r /\ (es_Load t c s').2 = Ok (with_revision e r);
  swap_load t c expected e s s' : es_wf s -> es_Swap t c expected e s = (s', Ok true) ->
    es_wf s' /\ (es_Load t c s').2 = Ok (with_revision e (expected + 1)) /\
    forall old, (es_Load t c s).2 = Ok old -> en_Revision old = expected;
  swap_refused t c expected e s s' r : es_Swap t c expected e s = (s', r) -> r <> Ok true -> s' = s
}.

(** [session.FencedEnvelopeStore], at a database clock. *)
Class FencedEnvelopeStore (S : Type) := {
  es_SwapFenced : string -> string -> string -> Z -> Z -> Envelope -> Z -> S -> S * result bool
}.

Section Vault.
Context {W S : Type} `{KeyWrapperLaws W, EnvelopeStoreLaws S}.

Definition Vault_CompareAndSwapFenced `{FencedEnvelopeStore S} (w : W) (ctx : error) (scope : Scope)
    (ownerID : string) (fencingToken expectedRevision : Z) (plaintext : bytes)
    (dek nonce rnd : option bytes) (now : Z) (s : S) : S * result bool :=
  if (ownerID =s "") || (fencingToken =? 0) || (expectedRevision =? 0) then (s, Err [ErrStore])
  else match Seal w ctx scope plaintext dek nonce rnd with
  | Err e => (s, Err e)
  | Ok envelope =>
    let '(s', r) := es_SwapFenced (sc_TenantID scope) (sc_ConnectionID scope) ownerID fencingToken
                      expectedRevision envelope now s in
    match r with Ok swapped => (s', Ok swapped) | Err _ => (s', Err [ErrStore]) end
  end.

Definition Vault_Save (w : W) (ctx : error) (scope : Scope) (plaintext : bytes)
    (dek nonce rnd : option bytes) (s : S) : S * error :=
  match Seal w ctx scope plaintext dek nonce rnd with
  | Err e => (s, e)
  | Ok envelope =>
    let '(s', r) := es_Save (sc_TenantID scope) (sc_ConnectionID scope) envelope s in
    match r with Ok _ => (s', []) | Err _ => (s', [ErrStore]) end
  end.

Definition Vault_LoadVersioned (w : W) (ctx : error) (scope : Scope) (s : S) : S * result (bytes * Z) :=
  let '(s', r) := es_Load (sc_TenantID scope) (sc_ConnectionID scope) s in
  match r with
  | Err _ => (s', Err [ErrStore])
  | Ok envelope =>
    if en_Revision envelope =? 0 then (s', Err [ErrStore])
    else match Open w ctx scope envelope with
    | Err e => (s', Err e)
    | Ok plaintext => (s', Ok (plaintext, en_Revision envelope))
    end
  end.

Definition Vault_Load (w : W) (ctx : error) (scope : Scope) (s : S) : S * result bytes :=
  let '(s', r) := Vault_LoadVersioned w ctx scope s in
  (s', match r with Ok v => Ok v.1 | Err e => Err e end).

(** [Rotate]: [ctxErr], [rnd] and [others] give, for each attempt, the context
    error, the wrapper's random bytes and what other writers did to the store
    between the load and the swap. *)
Fixpoint rotate_attempts (w : W) (ctxErr : nat -> error) (rnd : nat -> option bytes) (others : nat -> S -> S)
    (scope : Scope) (attempt fuel : nat) (s : S) : S * result bool :=
  match fuel with
  | O => (s, Err [ErrStore])
  | Datatypes.S fuel =>
    if negb (is_nil (ctxErr attempt)) then (s, Err (ctxErr attempt))
    else
      let '(s1, loaded) := es_Load (sc_TenantID scope) (sc_ConnectionID scope) s in
      match loaded with
      | Err _ => (s1, Err [ErrStore])
      | Ok envelope =>
        match Rewrap w (ctxErr attempt) scope envelope (rnd attempt) with
        | Err e => (s1, Err e)
        | Ok (_, false) => (s1, Ok false)
        | Ok (rotated, true) =>
          let '(s2, swapped) := es_Swap (sc_TenantID scope) (sc_ConnectionID scope)
                                  (en_Revision envelope) rotated (others attempt s1) in
          match swapped with
          | Err _ => (s2, Err [ErrStore])
          | Ok true => (s2, Ok true)
          | Ok false => rotate_attempts w ctxErr rnd others scope (Datatypes.S attempt) fuel s2
          end
        end
      end
  end.

Definition maxConflicts : nat := 5.

Definition Vault_Rotate (w : W) (ctxErr : nat -> error) (rnd : nat -> option bytes) (others : nat -> S -> S)
    (scope : Scope) (s : S) : S * result bool :=
  rotate_attempts w ctxErr rnd others scope 0 maxConflicts s.

(** The envelope stored for a scope. *)
Definition stored (scope : Scope) (s : S) : option Envelope :=
  match (es_Load (sc_TenantID scope) (sc_ConnectionID scope) s).2 with Ok e => Some e | Err _ => None end.

(** Other writers keep the store well formed and write under a new revision. *)
Definition writes_versioned (others : nat -> S -> S) (scope : Scope) : Prop :=
  forall i s, es_wf s -> es_wf (others i s) /\
    forall e, stored scope s = Some e -> exists e', stored scope (others i s) = Some e' /\
      (e' = e \/ en_Revision e < en_Revision e').

Lemma open_revision w ctx scope e r : open w ctx scope (with_revision e r) = open w ctx scope e.
Proof. done. Qed.

(** What an attempt that swapped did. *)
Lemma rotate_swapped w ctxErr rnd others scope attempt fuel s s' :
  writes_versioned others scope -> es_wf s ->
  rotate_attempts w ctxErr rnd others scope attempt fuel s = (s', Ok true) ->
  es_wf s' /\ exists before e e', stored scope before = Some e /\ stored scope s' = Some e' /\
    en_Revision e' = en_Revision e + 1 /\
    exists plaintext, Open w [] scope e = Ok plaintext /\ Open w [] scope e' = Ok plaintext.
Proof.
  intros Hothers. revert attempt s. induction fuel as [|fuel IH]; intros attempt s Hwf; [done|].
  cbn [rotate_attempts]. destruct (ctxErr attempt) eqn:Ectx; [|done]. cbn [is_nil negb].
  pose proof (load_pure (sc_TenantID scope) (sc_ConnectionID scope) s) as Hpure.
  destruct (es_Load _ _ s) as [s1 loaded] eqn:El. simpl in Hpure. subst s1.
  destruct loaded as [e|]; [|done].
  destruct (Rewrap _ _ _ _ _) as [[rotated [|]]|] eqn:Er; [|done|done].
  destruct (es_Swap _ _ _ _ _) as [s2 [[|]|]] eqn:Es; [| |done].
  - intros [= <-]. destruct (Hothers attempt s Hwf) as [Hwf2 Hlater].
    destruct (Hlater e) as (e2 & He2 & Hcase); [unfold stored; by rewrite El|].
    destruct (swap_load _ _ _ _ _ _ Hwf2 Es) as (Hwf' & Hload & Hexp). split; [done|].
    assert (Hl2 : (es_Load (sc_TenantID scope) (sc_ConnectionID scope) (others attempt s)).2 = Ok e2).
    { unfold stored in He2. destruct (es_Load _ _ (others attempt s)) as [? [?|]]; simpl in *; congruence. }
    specialize (Hexp _ Hl2). destruct Hcase as [->|Hlt]; [|lia].
    destruct (Rewrap_opens _ _ _ _ _ _ Er) as (_ & _ & _ & _ & r & Ho & Ho').
    exists (others attempt s), e, (with_revision rotated (en_Revision e + 1)).
    split_and!; [done|unfold stored; by rewrite Hload|done|].
    exists r.1. unfold Open. rewrite open_revision, Ho, Ho'. done.
  - intros Hrot. apply swap_refused in Es as ->; [|done]. destruct (Hothers attempt s Hwf) as [Hwf2 _].
    by eapply IH.
Qed.
End Vault.

(** ** The repository as the store *)

#[export] Instance Repository_envelopes : EnvelopeStore Db := {
  es_Save := SaveEncryptedSession;
  es_Load := LoadEncryptedSession;
  es_Swap := CompareAndSwapEncryptedSession;
  es_wf db := forall k e, sessions db !! k = Some e -> 0 < en_Revision e
}.

Lemma load_put db t c e r :
  t <> "" -> c <> "" -> is_ok (Envelope_Validate e) = true ->
  (LoadEncryptedSession t c (set_sessions (<[(t, c) := with_revision e r]> (sessions db)) db)).2 =
  Ok (with_revision e r).
Proof.
  intros Ht Hc Hv. unfold LoadEncryptedSession. apply String.eqb_neq in Ht, Hc. rewrite Hc.
  unfold inTenant. rewrite Ht. cbn [sessions set_sessions]. rewrite lookup_insert_eq.
  change (Envelope_Validate (with_revision e r)) with (Envelope_Validate e). by rewrite Hv.
Qed.

Lemma next_revision_ok r r' : next_revision r = Ok r' -> r' = r + 1.
Proof. unfold next_revision. destruct (_ >? _); congruence. Qed.

#[export] Instance Repository_envelope_laws : EnvelopeStoreLaws Db.
Proof.
  constructor.
  - intros t c db. cbn [es_Load Repository_envelopes]. unfold LoadEncryptedSession.
    destruct (c =s ""); [done|]. unfold inTenant. destruct (t =s ""); [done|].
    destruct (sessions db !! _); [|done]. by destruct (negb _).
  - cbn [es_Save es_Load es_wf Repository_envelopes]. intros t c e db db' Hwf H.
    unfold SaveEncryptedSession in H. destruct (t =s "") eqn:Et; [done|]. destruct (c =s "") eqn:Ec; [done|].
    destruct (is_ok (Envelope_Validate e)) eqn:Ev; [|done]. cbn [negb] in H.
    apply inTenant_ok in H. apply result_bind_ok in H as (db1 & H & [= <-]). unfold upsert_session in H.
    apply result_bind_ok in H as (_ & _ & H). apply result_bind_ok in H as (r & Hr & [= <-]).
    assert (Hpos : 0 < r).
    { destruct (sessions db !! (t, c)) as [old|] eqn:Eo; [|by injection Hr as <-].
      apply next_revision_ok in Hr. specialize (Hwf _ _ Eo). lia. }
    split.
    + intros k e' Hk. cbn in Hk. apply lookup_insert_Some in Hk as [[_ <-]|[_ Hk]]; [done | by eapply Hwf].
    + exists r. split; [done|]. apply load_put; [by apply String.eqb_neq..|done].
  - cbn [es_Swap es_Load es_wf Repository_envelopes]. intros t c expected e db db' Hwf H.
    unfold CompareAndSwapEncryptedSession in H.
    destruct (t =s "") eqn:Et; [done|]. destruct (c =s "") eqn:Ec; [done|].
    destruct (expected =? 0); [done|]. destruct (is_ok (Envelope_Validate e)) eqn:Ev; [|done].
    apply inTenant_ok in H. unfold swap_session in H.
    destruct (sessions db !! (t, c)) as [old|] eqn:Eo; [|done].
    destruct (en_Revision old =? expected) eqn:Er; [|done]. apply Z.eqb_eq in Er.
    apply result_bind_ok in H as (r & Hr & [= <-]). apply next_revision_ok in Hr. subst r.
    specialize (Hwf _ _ Eo) as Hpos. split_and!.
    + intros k e' Hk. cbn in Hk. apply lookup_insert_Some in Hk as [[_ <-]|[_ Hk]]; [simpl; lia | by eapply Hwf].
    + rewrite <- Er. apply load_put; [by apply String.eqb_neq..|done].
    + intros old' Ho. unfold LoadEncryptedSession in Ho. rewrite Ec in Ho. unfold inTenant in Ho.
      rewrite Et, Eo in Ho. destruct (negb _); [done|]. simpl in Ho. by injection Ho as <-.
  - cbn [es_Swap Repository_envelopes]. intros t c expected e db db' r H Hne.
    unfold CompareAndSwapEncryptedSession in H. destruct (_ || _); [by injection H as <- _|].
    apply inTenant_cases in H as [[-> _]|[v [-> H]]]; [done|]. unfold swap_session in H.
    destruct (sessions db !! (t, c)) as [old|]; [|by injection H as <- _].
    destruct (_ =? _); [|by injection H as <- _]. apply result_bind_ok in H as (r & _ & [= <- <-]). done.
Qed.

(** ** The vault keeps sessions *)

Section VaultClaims.
Context {W S : Type} `{KeyWrapperLaws W, EnvelopeStoreLaws S}.

Lemma save_then_load (w : W) ctx scope plaintext k nonce rnd (s s' : S) :
  es_wf s -> blen k = dekSize -> Vault_Save w ctx scope plaintext (Some k) nonce rnd s = (s', []) ->
  es_wf s' /\ exists r, 0 < r /\ Vault_LoadVersioned w [] scope s' = (s', Ok (plaintext, r)).
Proof.
  intros Hwf Hk. unfold Vault_Save. destruct (Seal _ _ _ _ _ _ _) as [e|err] eqn:Es.
  - destruct (es_Save _ _ _ _) as [s1 [[]|]] eqn:Ev; [|done]. intros [= <-].
    destruct (save_load _ _ _ _ _ Hwf Ev) as (Hwf' & r & Hr & Hl). split; [done|]. exists r. split; [done|].
    unfold Vault_LoadVersioned.
    pose proof (load_pure (sc_TenantID scope) (sc_ConnectionID scope) s1) as Hp.
    destruct (es_Load _ _ s1) as [s2 loaded]. simpl in *. subst s2 loaded.
    destruct (en_Revision (with_revision e r) =? 0) eqn:E; [apply Z.eqb_eq in E; simpl in E; lia|].
    unfold Open. rewrite open_revision, (open_Seal _ _ _ _ _ _ _ _ Hk Es). done.
  - intros [= _ ->]. unfold Seal in Es. by repeat case_match.
Qed.

(** An attempt that does not swap leaves only what the other writers did. *)
Lemma rotate_refused (w : W) ctxErr rnd others scope attempt fuel (s s' : S) r :
  rotate_attempts w ctxErr rnd others scope attempt fuel s = (s', r) -> r <> Ok true ->
  exists n, s' = foldl (fun s i => others i s) s (seq attempt n).
Proof.
  revert attempt s. induction fuel as [|fuel IH]; intros attempt s; cbn [rotate_attempts].
  { intros [= <- _] _. by exists O. }
  destruct (negb _); [intros [= <- _] _; by exists O|].
  pose proof (load_pure (sc_TenantID scope) (sc_ConnectionID scope) s) as Hpure.
  destruct (es_Load _ _ s) as [s1 loaded]. simpl in Hpure. subst s1.
  destruct loaded as [e|]; [|intros [= <- _] _; by exists O].
  destruct (Rewrap _ _ _ _ _) as [[rotated [|]]|]; [|intros [= <- _] _; by exists O..].
  destruct (es_Swap _ _ _ _ _) as [s2 [[|]|]] eqn:Es; [by intros [= <- <-]| |].
  - apply swap_refused in Es as ->; [|done]. intros Hrot Hr. destruct (IH _ _ Hrot Hr) as [n ->].
    by exists (Datatypes.S n).
  - apply swap_refused in Es as ->; [|done]. intros [= <- _] _. by exists 1%nat.
Qed.
End VaultClaims.

(** A session saved in the vault is loaded back: whatever lawful store and
    key wrapper are behind it, after a successful [Save] both [Load] and
    [LoadVersioned] return the saved plaintext, under a positive revision. *)
Theorem Vault_Save_Load {W S : Type} `{KeyWrapperLaws W, EnvelopeStoreLaws S} (w : W) (ctx : error)
    (scope : Scope) (plaintext k : bytes) (nonce rnd : option bytes) (s s' : S)
  (Hwf : es_wf s) (Hk : blen k = dekSize)
  (Hsave : Vault_Save w ctx scope plaintext (Some k) nonce rnd s = (s', [])) :
  Vault_Load w [] scope s' = (s', Ok plaintext) /\
  exists r, 0 < r /\ Vault_LoadVersioned w [] scope s' = (s', Ok (plaintext, r)).
Proof.
  destruct (save_then_load _ _ _ _ _ _ _ _ _ Hwf Hk Hsave) as (_ & r & Hr & Hl).
  split; [unfold Vault_Load; by rewrite Hl | by exists r].
Qed.

(** [Rotate] never loses an update and never changes a session, under any
    interference of other writers between its load and its swap: when it reports
    a rotation, it replaced exactly the envelope that was stored at that moment
    by one of the next revision that opens to the same plaintext; otherwise it
    wrote nothing, and the store is what the other writers made of it. *)
Theorem Vault_Rotate_safe {W S : Type} `{KeyWrapperLaws W, EnvelopeStoreLaws S} (w : W)
    (ctxErr : nat -> error) (rnd : nat -> option bytes) (others : nat -> S -> S) (scope : Scope) (s : S)
  (Hwf : es_wf s) (Hothers : writes_versioned others scope) :
  let '(s', r) := Vault_Rotate w ctxErr rnd others scope s in
  match r with
  | Ok true => exists before e e', stored scope before = Some e /\ stored scope s' = Some e' /\
      en_Revision e' = en_Revision e + 1 /\
      exists plaintext, Open w [] scope e = Ok plaintext /\ Open w [] scope e' = Ok plaintext
  | _ => exists n, s' = foldl (fun s i => others i s) s (seq 0 n)
  end.
Proof.
  destruct (Vault_Rotate w ctxErr rnd others scope s) as [s' r] eqn:Er.
  destruct (decide (r = Ok true)) as [->|Hr].
  - by destruct (rotate_swapped _ _ _ _ _ _ _ _ _ Hothers Hwf Er).
  - pose proof (rotate_refused _ _ _ _ _ _ _ _ _ _ Er Hr). destruct r as [[]|]; done.
Qed.

(** A KMS key identifier of 257 to 2048 bytes is accepted by the KMS wrapper's
    configuration, but nothing can ever be sealed under it, because the session
    manager bounds key identifiers by 256 bytes. *)
Theorem long_kms_key_unusable Encrypt Decrypt (keyID : string) (ctx : error) (scope : Scope)
    (plaintext : bytes) (dek nonce rnd : option bytes)
  (Hvalid : AwsKms.validKeyID keyID = true) (Hlong : maxKeyIDSize < len keyID) :
  exists w, AwsKms.New {| AwsKms.KeyID := keyID; AwsKms.KeyVersion := 1; AwsKms.KeyIDs := ∅;
                          AwsKms.CurrentVersion := 0; AwsKms.OperationTimeout := 0 |} = Ok w /\
    is_ok (@Seal _ (AwsKms.wrapper Encrypt Decrypt) w ctx scope plaintext dek nonce rnd) = false.
Proof.
  unfold maxKeyIDSize in Hlong.
  assert (Hne : keyID =s "" = false) by (apply String.eqb_neq; intros ->; by vm_compute in Hlong).
  exists {| AwsKms.keys := {[1 := keyID]}; AwsKms.currentVersion := 1; AwsKms.operationTimeout := 10 * Second |}.
  split.
  - unfold AwsKms.New. cbn [AwsKms.KeyID AwsKms.KeyVersion AwsKms.KeyIDs AwsKms.CurrentVersion
      AwsKms.OperationTimeout]. rewrite Hne, Hvalid, map_to_list_empty. cbn [negb orb andb forallb].
    rewrite bool_decide_eq_true_2 by done. unfold AwsKms.key_of. rewrite lookup_singleton_eq. simpl.
    rewrite Hne. rewrite bool_decide_eq_false_2; [done|]. apply map_non_empty_singleton.
  - unfold Seal. destruct (_ || _); [done|]. destruct dek as [k|]; [|done].
    cbn [WrapKey AwsKms.wrapper]. unfold AwsKms.Wrapper_WrapKey.
    destruct (negb _); [done|]. cbn [AwsKms.keys AwsKms.currentVersion]. unfold AwsKms.key_of.
    rewrite lookup_singleton_eq. simpl. destruct (Encrypt _ _ _ _) as [blob|]; [|done].
    destruct (_ || _); [done|]. unfold wrapped_ok. cbn [wk_KeyID].
    replace (len keyID >? maxKeyIDSize) with true
      by (symmetry; apply Z.gtb_lt; unfold maxKeyIDSize; lia).
    by rewrite orb_true_r.
Qed.

(** ** Concrete sessions *)

Definition session_scope : Scope := {| sc_TenantID := "t1"; sc_ConnectionID := "c1"; sc_Provider := "gmessages" |}.
Definition session_wrapper : LocalKey.Wrapper := {| LocalKey.master_key := repeat (byte_of_Z 1) 32 |}.
Definition session_dek : bytes := repeat (byte_of_Z 2) 32.
Definition session_nonce : option bytes := Some (repeat (byte_of_Z 3) 12).
Definition session_text : bytes := bytes_of "provider session".

Definition sealed_session : Envelope :=
  Eval vm_compute in
    match Seal session_wrapper [] session_scope session_text (Some session_dek) session_nonce session_nonce with
    | Ok e => e
    | Err _ => {| en_Revision := 0; en_Version := 0; en_Provider := ""; en_Ciphertext := [];
                  en_WrappedDEK := []; en_Nonce := []; en_KeyID := ""; en_KeyVersion := 0 |}
    end.

Lemma Open_Seal_roundtrip_witness : Open session_wrapper [] session_scope sealed_session = Ok session_text.
Proof.
  refine (proj1 (Open_Seal_roundtrip session_wrapper [] session_scope session_text session_dek session_nonce
    session_nonce sealed_session eq_refl _)).
  vm_compute. reflexivity.
Defined.

Lemma associatedData_binds_scope_witness :
  {| sc_TenantID := "t1"; sc_ConnectionID := "c1"; sc_Provider := "gmessages" |} = session_scope.
Proof.
  apply (associatedData_binds_scope 1 {| sc_TenantID := "t1"; sc_ConnectionID := "c1";
    sc_Provider := "gmessages" |} session_scope eq_refl eq_refl). reflexivity.
Defined.

(** A KMS that returns the key under a marker, for two key generations. *)
Definition plain_Encrypt (ctx : error) (rnd : option bytes) (keyID : string) (plaintext : bytes) : option bytes :=
  Some (bytes_of "blob:" ++ plaintext).
Definition plain_Decrypt (ctx : error) (keyID : string) (blob : bytes) : option bytes := Some (drop 5 blob).

Lemma plain_roundtrip ctx rnd keyID plaintext blob :
  plain_Encrypt ctx rnd keyID plaintext = Some blob -> plain_Decrypt [] keyID blob = Some plaintext.
Proof. by intros [= <-]. Qed.

Definition plain_laws : @KeyWrapperLaws _ (AwsKms.wrapper plain_Encrypt plain_Decrypt) :=
  AwsKms_laws plain_Encrypt plain_Decrypt plain_roundtrip.

Definition kms_wrapper (current : Z) : AwsKms.Wrapper :=
  {| AwsKms.keys := {[1 := "old-key"; 2 := "new-key"]}; AwsKms.currentVersion := current;
     AwsKms.operationTimeout := 10 * Second |}.

Definition kms_sealed : Envelope :=
  Eval vm_compute in
    match @Seal _ (AwsKms.wrapper plain_Encrypt plain_Decrypt) (kms_wrapper 1) [] session_scope session_text
            (Some session_dek) session_nonce None with
    | Ok e => e
    | Err _ => sealed_session
    end.

Definition kms_rewrapped : Envelope :=
  Eval vm_compute in
    match @Rewrap _ (AwsKms.wrapper plain_Encrypt plain_Decrypt) (kms_wrapper 2) [] session_scope kms_sealed None with
    | Ok (e, _) => e
    | Err _ => sealed_session
    end.

Lemma Rewrap_preserves_session_witness :
  en_KeyID kms_rewrapped = "new-key" /\ en_Ciphertext kms_rewrapped = en_Ciphertext kms_sealed.
Proof.
  split; [reflexivity|].
  destruct (@Rewrap_preserves_session _ _ plain_laws (kms_wrapper 2) session_scope kms_sealed kms_rewrapped
    None true) as (_ & _ & Hc & _); [vm_compute; reflexivity | exact Hc].
Defined.

Definition vault_db : Db :=
  set_connections {[("t1", "c1") := {|
    cn_Name := "phone"; cn_State := ConnectionStateConnected;
    cn_Fingerprint := Some (repeat (byte_of_Z 7) 32); cn_ReauthorizationEventID := None;
    cn_PriorState := None; cn_PairingStartedAt := None; cn_PairingAttemptID := None;
    cn_TenantSuspendPriorState := None |}]} empty_db.

Lemma vault_db_wf : es_wf vault_db.
Proof. intros k e Hk. cbn in Hk. by rewrite lookup_empty in Hk. Qed.

Definition vault_saved : Db :=
  (@Vault_Save _ _ (AwsKms.wrapper plain_Encrypt plain_Decrypt) _ (kms_wrapper 1) [] session_scope session_text
     (Some session_dek) session_nonce None vault_db).1.

Lemma Vault_Save_Load_witness :
  @Vault_Load _ _ (AwsKms.wrapper plain_Encrypt plain_Decrypt) _ (kms_wrapper 1) [] session_scope vault_saved =
    (vault_saved, Ok session_text).
Proof.
  refine (proj1 (@Vault_Save_Load _ _ _ plain_laws _ _ (kms_wrapper 1) [] session_scope session_text session_dek
    session_nonce None vault_db vault_saved vault_db_wf eq_refl _)).
  vm_compute. reflexivity.
Defined.

(** Another writer saves the session once more between the first load and swap. *)
Definition vault_others (i : nat) (db : Db) : Db :=
  match i with O => (SaveEncryptedSession "t1" "c1" kms_sealed db).1 | _ => db end.

Lemma vault_others_versioned : writes_versioned vault_others session_scope.
Proof.
  intros [|i] db Hwf; [|by split; [|intros e He; exists e; auto]]. unfold vault_others.
  destruct (SaveEncryptedSession "t1" "c1" kms_sealed db) as [db' [[]|err]] eqn:E.
  - destruct (save_load "t1" "c1" kms_sealed db db' Hwf E) as (Hwf' & r & Hr & Hl). split; [done|].
    intros e He. exists (with_revision kms_sealed r).
    split; [unfold stored, session_scope; cbn [sc_TenantID sc_ConnectionID fst]; by rewrite Hl|]. right.
    unfold SaveEncryptedSession in E. cbn [String.eqb] in E.
    apply inTenant_ok in E. apply result_bind_ok in E as (db1 & E & [= <-]). unfold upsert_session in E.
    apply result_bind_ok in E as (_ & _ & E). apply result_bind_ok in E as (r' & Hr' & [= <-]).
    rewrite load_put in Hl by done. injection Hl as <-.
    unfold stored in He. cbn in He. unfold LoadEncryptedSession in He. cbn in He.
    destruct (sessions db !! ("t1", "c1")) as [old|] eqn:Eo; [|done].
    destruct (negb _); [done|]. injection He as <-. apply next_revision_ok in Hr'. simpl. lia.
  - assert (db' = db) as -> by (unfold SaveEncryptedSession in E; by apply inTenant_error in E).
    split; [done|]. intros e He. exists e. auto.
Qed.

Lemma Vault_Rotate_safe_witness :
  exists before e e', stored session_scope before = Some e /\
    stored session_scope (@Vault_Rotate _ _ (AwsKms.wrapper plain_Encrypt plain_Decrypt) _ (kms_wrapper 2)
      (fun _ => []) (fun _ => None) vault_others session_scope vault_saved).1 = Some e' /\
    en_Revision e' = en_Revision e + 1.
Proof.
  assert (Hwf : es_wf vault_saved).
  { refine (proj1 (@save_then_load _ _ _ plain_laws _ _ (kms_wrapper 1) [] session_scope session_text session_dek
      session_nonce None vault_db vault_saved vault_db_wf eq_refl _)). vm_compute. reflexivity. }
  pose proof (@Vault_Rotate_safe _ _ _ plain_laws _ _ (kms_wrapper 2) (fun _ => []) (fun _ => None) vault_others
    session_scope vault_saved Hwf vault_others_versioned) as Hrot.
  set (out := Vault_Rotate _ _ _ _ _ _) in *.
  assert (Hr : out.2 = Ok true) by (vm_compute; reflexivity).
  destruct out as [s' r]. simpl in *. rewrite Hr in Hrot. destruct Hrot as (before & e & e' & H1 & H2 & H3 & _).
  exists before, e, e'. auto.
Defined.

Definition long_key : string := string_of (repeat (byte_of_Z 97) 300).

Lemma long_kms_key_unusable_witness :
  exists w, AwsKms.New {| AwsKms.KeyID := long_key; AwsKms.KeyVersion := 1; AwsKms.KeyIDs := ∅;
                          AwsKms.CurrentVersion := 0; AwsKms.OperationTimeout := 0 |} = Ok w /\
    is_ok (@Seal _ (AwsKms.wrapper plain_Encrypt plain_Decrypt) w [] session_scope session_text
             (Some session_dek) session_nonce None) = false.
Proof.
  apply (long_kms_key_unusable plain_Encrypt plain_Decrypt long_key); [vm_compute; reflexivity|].
  vm_compute. reflexivity.
Defined.
