(* ===== verification/Kafka.v ===== *)
(** * Kafka boundaries (internal/gateway/kafka: consumer.go, outbox.go)

    The command consumer (tenant authorisation, decoding of the command envelope
    as encoding/json does it, submission or dead letter, offset commit) and the
    outbox publisher, as programs of calls to their interfaces. *)

From S2P Require Import Prelude GoText Crypto Domain Messaging.

Definition DefaultCommandsTopic : string := "sirenaix.messaging.commands.v1".
Definition DefaultEventsTopic : string := "sirenaix.messaging.events.v1".
Definition maxCommandBytes : Z := 2 ^ 20.

Record CommandRecord := {
  kr_Topic : string;
  kr_Partition : Z;
  kr_Offset : Z;
  kr_Principal : string;
  kr_CorrelationID : string;
  kr_Value : bytes
}.

(** The formatted [SafeError]: its text and the error printed after it. *)
Record SafeError := { se_Text : string; se_Cause : error }.

Record CommandDLQRecord := {
  dq_Topic : string;
  dq_Partition : Z;
  dq_Offset : Z;
  dq_AuthorizedTenant : string;
  dq_CorrelationID : string;
  dq_OriginalPayload : bytes;
  dq_SafeError : SafeError
}.

(** ** Topic bindings *)

Record TopicBinding := { tb_TenantID : string; tb_Principal : string }.

(** [NewTopicTenantAuthorizer]; the bindings in the order the map is ranged
    over. *)
Fixpoint bind_topics (bindings : list (string * TopicBinding)) (tenants : gmap string string)
    : result (gmap string string) :=
  match bindings with
  | [] => Ok tenants
  | (topic, binding) :: rest =>
    if (topic =s "") || (len topic >? 249) || (tb_TenantID binding =s "") || (tb_Principal binding =s "") ||
       (len (tb_Principal binding) >? 256)
    then Err [ErrInvalidConsumer]
    else match tenants !! tb_Principal binding with
    | Some existing =>
      if existing <>s tb_TenantID binding then Err [ErrInvalidConsumer]
      else bind_topics rest (<[tb_Principal binding := tb_TenantID binding]> tenants)
    | None => bind_topics rest (<[tb_Principal binding := tb_TenantID binding]> tenants)
    end
  end.

Definition NewTopicTenantAuthorizer (bindings : list (string * TopicBinding)) : result (gmap string string) :=
  if is_nil bindings then Err [ErrInvalidConsumer] else bind_topics bindings ∅.

Definition TopicTenantAuthorizer_Authorize (tenants : gmap string string) (principal : string) : result string :=
  match tenants !! principal with
  | Some tenantID => if tenantID =s "" then Err [ErrInvalidConsumer] else Ok tenantID
  | None => Err [ErrInvalidConsumer]
  end.

(** ** Decoding a command

    [json.Decoder.Decode] into [commandEnvelope] with unknown fields disallowed.
    Every field is a string or a list of strings, so an accepted value is an
    object whose members are strings, [null] and arrays of these; everything else
    is a syntax error, an unknown field or a type mismatch. *)

Record commandEnvelope := {
  ce_Version : string;
  ce_TenantID : string;
  ce_IdempotencyKey : string;
  ce_ConnectionID : string;
  ce_ConversationID : string;
  ce_Recipient : string;
  ce_LineID : string;
  ce_RouteMode : string;
  ce_Text : string;
  ce_MediaIDs : list string
}.

Definition zero_command : commandEnvelope := {|
  ce_Version := ""; ce_TenantID := ""; ce_IdempotencyKey := ""; ce_ConnectionID := ""; ce_ConversationID := "";
  ce_Recipient := ""; ce_LineID := ""; ce_RouteMode := ""; ce_Text := ""; ce_MediaIDs := [] |}.

Definition is_byte (c : ascii) (v : Z) : bool := byte_val c =? v.

Definition json_space (c : ascii) : bool :=
  is_byte c 32 || is_byte c 9 || is_byte c 10 || is_byte c 13.

Fixpoint skip_space (b : bytes) : bytes :=
  match b with
  | c :: rest => if json_space c then skip_space rest else b
  | [] => []
  end.

Definition hex4_value (a b c d : ascii) : option Z :=
  match hex_digit a, hex_digit b, hex_digit c, hex_digit d with
  | Some x, Some y, Some z, Some w => Some (((x * 16 + y) * 16 + z) * 16 + w)
  | _, _, _, _ => None
  end.

Definition simple_escape (c : ascii) : option Z :=
  if is_byte c 34 then Some 34 else if is_byte c 92 then Some 92 else if is_byte c 47 then Some 47
  else if is_byte c 98 then Some 8 else if is_byte c 102 then Some 12 else if is_byte c 110 then Some 10
  else if is_byte c 114 then Some 13 else if is_byte c 116 then Some 9 else None.

Definition high_surrogate (r : Z) : bool := between 0xD800 0xDBFF r.
Definition low_surrogate (r : Z) : bool := between 0xDC00 0xDFFF r.

(** The low surrogate an escape at the head of [b] stands for. *)
Definition low_escape (b : bytes) : option (Z * bytes) :=
  match b with
  | bs :: u :: h1 :: h2 :: h3 :: h4 :: rest =>
    if is_byte bs 92 && is_byte u 117 then
      match hex4_value h1 h2 h3 h4 with
      | Some r => if low_surrogate r then Some (r, rest) else None
      | None => None
      end
    else None
  | _ => None
  end.

(** The rest of a string literal after its opening quote: contents and what
    follows the closing quote. [fuel] is the length of the input. *)
Fixpoint json_string (fuel : nat) (b : bytes) : option (bytes * bytes) :=
  match fuel with
  | O => None
  | S fuel =>
    match b with
    | [] => None
    | c :: rest =>
      if is_byte c 34 then Some ([], rest)
      else if byte_val c <? 32 then None
      else if negb (is_byte c 92) then
        match json_string fuel rest with Some (s, r) => Some (c :: s, r) | None => None end
      else match rest with
      | [] => None
      | e :: rest =>
        if is_byte e 117 then
          match rest with
          | h1 :: h2 :: h3 :: h4 :: rest =>
            match hex4_value h1 h2 h3 h4 with
            | None => None
            | Some r =>
              let '(value, rest) :=
                if high_surrogate r then
                  match low_escape rest with
                  | Some (l, rest') => (0x10000 + (r - 0xD800) * 1024 + (l - 0xDC00), rest')
                  | None => (RuneError, rest)
                  end
                else if low_surrogate r then (RuneError, rest) else (r, rest) in
              match json_string fuel rest with
              | Some (s, r') => Some (encode_rune value ++ s, r')
              | None => None
              end
            end
          | _ => None
          end
        else match simple_escape e with
        | None => None
        | Some v => match json_string fuel rest with
                    | Some (s, r) => Some (byte_of_Z v :: s, r)
                    | None => None
                    end
        end
      end
    end
  end.

(** A string or [null]. *)
Definition json_scalar (b : bytes) : option (option bytes * bytes) :=
  match b with
  | c :: rest =>
    if is_byte c 34 then
      match json_string (length rest) rest with Some (s, r) => Some (Some s, r) | None => None end
    else match rest with
    | u :: l :: l' :: rest' =>
      if is_byte c 110 && is_byte u 117 && is_byte l 108 && is_byte l' 108 then Some (None, rest') else None
    | _ => None
    end
  | [] => None
  end.

Fixpoint json_elements (fuel : nat) (b : bytes) : option (list (option bytes) * bytes) :=
  match fuel with
  | O => None
  | S fuel =>
    match json_scalar (skip_space b) with
    | None => None
    | Some (v, r) =>
      match skip_space r with
      | c :: r =>
        if is_byte c 93 then Some ([v], r)
        else if is_byte c 44 then
          match json_elements fuel r with Some (vs, r) => Some (v :: vs, r) | None => None end
        else None
      | [] => None
      end
    end
  end.

Inductive json_field := FieldText (value : option bytes) | FieldList (values : list (option bytes)).

Definition json_member_value (b : bytes) : option (json_field * bytes) :=
  match b with
  | c :: rest =>
    if is_byte c 91 then
      match skip_space rest with
      | d :: rest' =>
        if is_byte d 93 then Some (FieldList [], rest')
        else match json_elements (length rest) rest with
        | Some (vs, r) => Some (FieldList vs, r)
        | None => None
        end
      | [] => None
      end
    else match json_scalar b with Some (v, r) => Some (FieldText v, r) | None => None end
  | [] => None
  end.

Fixpoint json_members (fuel : nat) (b : bytes) : option (list (bytes * json_field) * bytes) :=
  match fuel with
  | O => None
  | S fuel =>
    match skip_space b with
    | q :: rest =>
      if is_byte q 34 then
        match json_string (length rest) rest with
        | None => None
        | Some (key, r) =>
          match skip_space r with
          | c :: r =>
            if is_byte c 58 then
              match json_member_value (skip_space r) with
              | None => None
              | Some (v, r) =>
                match skip_space r with
                | c :: r =>
                  if is_byte c 125 then Some ([(key, v)], r)
                  else if is_byte c 44 then
                    match json_members fuel r with
                    | Some (ms, r) => Some ((key, v) :: ms, r)
                    | None => None
                    end
                  else None
                | [] => None
                end
              end
            else None
          | [] => None
          end
        end
      else None
    | [] => None
    end
  end.

Definition json_object (b : bytes) : option (list (bytes * json_field) * bytes) :=
  match skip_space b with
  | c :: rest =>
    if is_byte c 123 then
      match skip_space rest with
      | d :: rest' => if is_byte d 125 then Some ([], rest') else json_members (length rest) rest
      | [] => None
      end
    else None
  | [] => None
  end.

(** [foldName]: ASCII letters, the long s and the Kelvin sign fold. *)
Definition fold_rune (r : Z) : Z :=
  if between 97 122 r then r - 32
  else if r =? 0x17F then 83 else if r =? 0x212A then 75 else r.

Definition fold_name (name : bytes) : list Z := fold_rune <$> runes (string_of name).

Definition command_fields : list string :=
  ["version"; "tenant_id"; "idempotency_key"; "connection_id"; "conversation_id"; "recipient"; "line_id";
   "route_mode"; "text"; "media_ids"].

Definition field_of (key : bytes) : option string :=
  match find (fun f => bool_decide (bytes_of f = key)) command_fields with
  | Some f => Some f
  | None => find (fun f => bool_decide (fold_name (bytes_of f) = fold_name key)) command_fields
  end.

(** An element [null] keeps the element an earlier occurrence of the key left. *)
Fixpoint decode_list (old : list string) (values : list (option bytes)) : list string :=
  match values with
  | [] => []
  | v :: rest =>
    match v with Some s => string_of s | None => default "" (head old) end :: decode_list (tail old) rest
  end.

Definition set_text (f : string) (v : string) (c : commandEnvelope) : commandEnvelope := {|
  ce_Version := if f =s "version" then v else ce_Version c;
  ce_TenantID := if f =s "tenant_id" then v else ce_TenantID c;
  ce_IdempotencyKey := if f =s "idempotency_key" then v else ce_IdempotencyKey c;
  ce_ConnectionID := if f =s "connection_id" then v else ce_ConnectionID c;
  ce_ConversationID := if f =s "conversation_id" then v else ce_ConversationID c;
  ce_Recipient := if f =s "recipient" then v else ce_Recipient c;
  ce_LineID := if f =s "line_id" then v else ce_LineID c;
  ce_RouteMode := if f =s "route_mode" then v else ce_RouteMode c;
  ce_Text := if f =s "text" then v else ce_Text c;
  ce_MediaIDs := ce_MediaIDs c |}.

Definition set_media (ids : list string) (c : commandEnvelope) : commandEnvelope := {|
  ce_Version := ce_Version c; ce_TenantID := ce_TenantID c; ce_IdempotencyKey := ce_IdempotencyKey c;
  ce_ConnectionID := ce_ConnectionID c; ce_ConversationID := ce_ConversationID c;
  ce_Recipient := ce_Recipient c; ce_LineID := ce_LineID c; ce_RouteMode := ce_RouteMode c;
  ce_Text := ce_Text c; ce_MediaIDs := ids |}.

Definition set_member (m : bytes * json_field) (c : commandEnvelope) : option commandEnvelope :=
  match field_of m.1 with
  | None => None
  | Some f =>
    if f =s "media_ids" then
      match m.2 with
      | FieldList values => Some (set_media (decode_list (ce_MediaIDs c) values) c)
      | FieldText None => Some (set_media [] c)
      | FieldText (Some _) => None
      end
    else match m.2 with
    | FieldText (Some s) => Some (set_text f (string_of s) c)
    | FieldText None => Some c
    | FieldList _ => None
    end
  end.

Fixpoint set_members (ms : list (bytes * json_field)) (c : commandEnvelope) : option commandEnvelope :=
  match ms with
  | [] => Some c
  | m :: rest => match set_member m c with Some c => set_members rest c | None => None end
  end.

Definition decodeCommand (value : bytes) : result commandEnvelope :=
  if negb (utf8_Valid value) then Err [ErrText "invalid UTF-8"]
  else match json_object value with
  | None => Err [ErrText "invalid JSON"]
  | Some (ms, rest) =>
    match set_members ms zero_command with
    | None => Err [ErrText "invalid JSON"]
    | Some command =>
      if negb (is_nil (skip_space rest)) then Err [ErrText "multiple JSON values"]
      else if (ce_Version command <>s "v1") || (ce_TenantID command =s "") ||
              (ce_IdempotencyKey command =s "") || (ce_ConnectionID command =s "")
      then Err [ErrText "missing command fields"]
      else if (ce_ConversationID command <>s "") &&
              negb (ValidProviderConversationID (TrimSpace (ce_ConversationID command)))
      then Err [ErrText "invalid provider conversation ID"]
      else Ok command
    end
  end.

Definition sample_value : bytes :=
  bytes_of (" { 'version':'v1', 'Tenant_ID' : 't1','idempotency_key':'k', 'connection_id':'c\u0031'," +:+
    "'text':'a\n','media_ids':['m1',null], 'line_id':null } ") ≫= fun c => if is_byte c 39 then [byte_of_Z 34] else [c].

Definition sample_command : commandEnvelope := {|
  ce_Version := "v1"; ce_TenantID := "t1"; ce_IdempotencyKey := "k"; ce_ConnectionID := "c1";
  ce_ConversationID := ""; ce_Recipient := ""; ce_LineID := ""; ce_RouteMode := "";
  ce_Text := string_of (bytes_of "a" ++ [byte_of_Z 10]); ce_MediaIDs := ["m1"; ""] |}.

Lemma decode_command_sample : decodeCommand sample_value = Ok sample_command.
Proof. vm_compute. reflexivity. Qed.

(** ** The command consumer *)

(** The interfaces the consumer calls: [TenantAuthorizer], [CommandService],
    [CommandDLQStore] and [OffsetCommitter]. *)
Inductive CommandCall : Type -> Type :=
| Authorize (principal : string) : CommandCall (result string)
| SubmitAuthenticatedCommand (tenant key : string) (input : SendInput) (audit : CommandAudit)
    : CommandCall (result OutboundMessage)
| StoreDLQ (dead : CommandDLQRecord) : CommandCall error
| CommitOffset (record : CommandRecord) : CommandCall error.

Record CommandConsumer := { cc_topics : list string }.

Definition NewCommandConsumer (CommandsTopic : string) (AllowedTopics : list string) : result CommandConsumer :=
  let topics :=
    if is_nil AllowedTopics
    then [if CommandsTopic =s "" then DefaultCommandsTopic else CommandsTopic] else AllowedTopics in
  if existsb (fun topic => (topic =s "") || (len topic >? 249)) topics then Err [ErrInvalidConsumer]
  else Ok {| cc_topics := topics |}.

Definition deadLetterAndCommit (record : CommandRecord) (safeError tenantID : string) (cause : error)
    : prog CommandCall error :=
  let oversized := blen (kr_Value record) >? maxCommandBytes in
  call! err := StoreDLQ {|
    dq_Topic := kr_Topic record; dq_Partition := kr_Partition record; dq_Offset := kr_Offset record;
    dq_AuthorizedTenant := tenantID; dq_CorrelationID := kr_CorrelationID record;
    dq_OriginalPayload := if oversized then take (Z.to_nat maxCommandBytes) (kr_Value record)
                          else kr_Value record;
    dq_SafeError := if oversized then {| se_Text := "command payload exceeded limit"; se_Cause := [] |}
                    else {| se_Text := safeError; se_Cause := cause |} |} in
  if negb (is_nil err) then Ret err else call! err := CommitOffset record in Ret err.

Definition command_input (command : commandEnvelope) : SendInput := {|
  si_ConnectionID := ce_ConnectionID command; si_ConversationID := ce_ConversationID command;
  si_Recipient := ce_Recipient command; si_LineID := ce_LineID command;
  si_RouteMode := ce_RouteMode command; si_Text := ce_Text command; si_MediaIDs := ce_MediaIDs command |}.

Definition command_audit (record : CommandRecord) : CommandAudit := {|
  ca_Topic := kr_Topic record; ca_Partition := kr_Partition record; ca_Offset := kr_Offset record;
  ca_ProducerIdentity := kr_Principal record; ca_CorrelationID := kr_CorrelationID record;
  ca_PayloadDigest := sha256 (kr_Value record) |}.

Definition command_rejected (err : error) : bool :=
  errors_Is err ErrInvalidCommand || errors_Is err ErrInvalidRoute || errors_Is err ErrIdempotencyConflict.

Definition CommandConsumer_Handle (consumer : CommandConsumer) (record : CommandRecord) : prog CommandCall error :=
  if kr_Principal record =s "" then Ret [ErrInvalidConsumer]
  else
    call! authorized := Authorize (kr_Principal record) in
    match authorized with
    | Err _ => Ret [ErrInvalidConsumer]
    | Ok tenant =>
      if tenant =s "" then Ret [ErrInvalidConsumer]
      else if negb (bool_decide (kr_Topic record ∈ cc_topics consumer)) ||
              (blen (kr_Value record) =? 0) || (blen (kr_Value record) >? maxCommandBytes)
      then deadLetterAndCommit record "invalid command record" tenant []
      else match decodeCommand (kr_Value record) with
      | Err _ => deadLetterAndCommit record "invalid command envelope" tenant []
      | Ok command =>
        if ce_TenantID command <>s tenant
        then deadLetterAndCommit record "command tenant does not match authenticated producer" tenant []
        else
          call! submitted := SubmitAuthenticatedCommand tenant (ce_IdempotencyKey command)
                               (command_input command) (command_audit record) in
          match submitted with
          | Ok _ => call! err := CommitOffset record in Ret err
          | Err err =>
            if command_rejected err then deadLetterAndCommit record "command rejected" tenant err
            else Ret err
          end
      end
    end.

(** What a run of the consumer shows to the outside. *)
Inductive command_entry :=
| Authorized (principal : string) (answer : result string)
| Submitted (tenant key : string) (input : SendInput) (audit : CommandAudit) (answer : result OutboundMessage)
| DeadLettered (dead : CommandDLQRecord) (answer : error)
| Committed (record : CommandRecord) (answer : error).

Definition command_log (X : Type) (c : CommandCall X) : X -> command_entry :=
  match c in CommandCall X return X -> command_entry with
  | Authorize principal => Authorized principal
  | SubmitAuthenticatedCommand tenant key input audit => Submitted tenant key input audit
  | StoreDLQ dead => DeadLettered dead
  | CommitOffset record => Committed record
  end.

(** An entry that makes the outcome of [record] for [tenant] durable: the command
    it decodes to was submitted with its audit, or a dead letter of it stored. *)
Definition entry_for (record : CommandRecord) (tenant : string) (e : command_entry) : Prop :=
  match e with
  | Submitted tenant' key input audit _ =>
      tenant' = tenant /\ audit = command_audit record /\
      exists command, decodeCommand (kr_Value record) = Ok command /\ ce_TenantID command = tenant /\
        key = ce_IdempotencyKey command /\ input = command_input command
  | DeadLettered dead _ =>
      dq_AuthorizedTenant dead = tenant /\ dq_Topic dead = kr_Topic record /\
      dq_Partition dead = kr_Partition record /\ dq_Offset dead = kr_Offset record /\
      dq_OriginalPayload dead = take (Z.to_nat maxCommandBytes) (kr_Value record)
  | Authorized _ _ | Committed _ _ => False
  end.

Definition made_durable (e : command_entry) : Prop :=
  match e with
  | Submitted _ _ _ _ (Ok _) | DeadLettered _ [] => True
  | _ => False
  end.

Definition entry_error (e : command_entry) : error :=
  match e with
  | Submitted _ _ _ _ (Err err) | DeadLettered _ err | Committed _ err | Authorized _ (Err err) => err
  | _ => []
  end.

(** How the calls after the authorisation end: the last one for the record failed
    and its error is returned; one succeeded and the offset is committed; or the
    submission was refused and the dead letter follows. *)
Inductive settles (record : CommandRecord) (tenant : string) : list command_entry -> error -> Prop :=
| settles_failed e err :
    entry_for record tenant e -> ~ made_durable e -> err = entry_error e -> settles record tenant [e] err
| settles_committed e err :
    entry_for record tenant e -> made_durable e -> settles record tenant [e; Committed record err] err
| settles_rejected e t err :
    entry_for record tenant e -> ~ made_durable e -> settles record tenant t err ->
    settles record tenant (e :: t) err.

Lemma dead_letter_settles record text tenant cause t err :
  executes command_log (deadLetterAndCommit record text tenant cause) t err -> settles record tenant t err.
Proof.
  unfold deadLetterAndCommit. intros (x & t' & -> & H). cbn [command_log].
  assert (entry_for record tenant (DeadLettered {|
    dq_Topic := kr_Topic record; dq_Partition := kr_Partition record; dq_Offset := kr_Offset record;
    dq_AuthorizedTenant := tenant; dq_CorrelationID := kr_CorrelationID record;
    dq_OriginalPayload := if blen (kr_Value record) >? maxCommandBytes
      then take (Z.to_nat maxCommandBytes) (kr_Value record) else kr_Value record;
    dq_SafeError := if blen (kr_Value record) >? maxCommandBytes
      then {| se_Text := "command payload exceeded limit"; se_Cause := [] |}
      else {| se_Text := text; se_Cause := cause |} |} x)) as Hentry.
  { cbn. destruct (_ >? _) eqn:E; [done|]. reflect_bools. unfold blen in E.
    rewrite take_ge by lia. done. }
  destruct x as [|s x]; simpl in H.
  - destruct H as (e & t'' & -> & -> & ->). by apply settles_committed.
  - destruct H as [-> ->]. apply settles_failed; [done | by intros [] | done].
Qed.

(** C27. What the consumer does with one record, whatever its collaborators
    answer. Without an authenticated tenant it makes no other call and fails, so
    the offset stays. Otherwise every command it submits is the one the record
    decodes to, under the tenant the broker principal was authorised for (never
    one the payload claims) and with an audit that binds topic, partition, offset,
    producer and payload digest; every dead letter is filed under that tenant with
    at most [maxCommandBytes] of the payload; and the offset is committed only
    directly after the submission or the dead letter succeeded, for this record. *)
Theorem Handle_settles (consumer : CommandConsumer) (record : CommandRecord) t err :
  executes command_log (CommandConsumer_Handle consumer record) t err ->
  (exists tenant t', tenant <> "" /\ t = Authorized (kr_Principal record) (Ok tenant) :: t' /\
     settles record tenant t' err) \/
  (err = [ErrInvalidConsumer] /\
   (t = [] /\ kr_Principal record = "" \/
    exists r, t = [Authorized (kr_Principal record) r] /\ forall tenant, r = Ok tenant -> tenant = "")).
Proof.
  unfold CommandConsumer_Handle. destruct (kr_Principal record =s "") eqn:Ep; reflect_bools; [naive_solver|].
  intros (answer & t' & -> & H). cbn [command_log].
  destruct answer as [tenant|e]; [|naive_solver].
  destruct (tenant =s "") eqn:Et; reflect_bools; [subst; naive_solver|].
  left. exists tenant, t'. split; [done|]. split; [done|].
  destruct (negb _ || _ || _) in H; [by eapply dead_letter_settles|].
  destruct (decodeCommand (kr_Value record)) as [command|] eqn:Ed; [|by eapply dead_letter_settles].
  destruct (ce_TenantID command =s tenant) eqn:Ec in H; cbn [negb] in H; [|by eapply dead_letter_settles].
  reflect_bools. destruct H as (answer & t & -> & H). cbn [command_log].
  assert (forall r, entry_for record tenant (Submitted tenant (ce_IdempotencyKey command)
    (command_input command) (command_audit record) r)) as Hentry by naive_solver.
  destruct answer as [m|e].
  - destruct H as (x & t'' & -> & -> & ->). apply settles_committed; [apply Hentry | done].
  - destruct (command_rejected e) eqn:Er.
    + apply settles_rejected; [apply Hentry | by intros [] | by eapply dead_letter_settles].
    + destruct H as [-> ->]. apply settles_failed; [apply Hentry | by intros [] | done].
Qed.

Definition sample_record : CommandRecord := {|
  kr_Topic := DefaultCommandsTopic; kr_Partition := 3; kr_Offset := 41; kr_Principal := "User:t1";
  kr_CorrelationID := "corr"; kr_Value := sample_value |}.

Definition sample_dead : CommandDLQRecord := {|
  dq_Topic := DefaultCommandsTopic; dq_Partition := 3; dq_Offset := 41; dq_AuthorizedTenant := "t1";
  dq_CorrelationID := "corr"; dq_OriginalPayload := sample_value;
  dq_SafeError := {| se_Text := "command rejected"; se_Cause := [ErrInvalidRoute] |} |}.

(** A command the service refuses goes to the dead letters, then the offset is
    committed. *)
Definition sample_entries : list command_entry :=
  [Authorized "User:t1" (Ok "t1");
   Submitted "t1" "k" (command_input sample_command) (command_audit sample_record) (Err [ErrInvalidRoute]);
   DeadLettered sample_dead []; Committed sample_record []].

Lemma sample_consumer_runs :
  executes command_log (CommandConsumer_Handle {| cc_topics := [DefaultCommandsTopic] |} sample_record) sample_entries [].
Proof.
  assert (blen (kr_Value sample_record) >? maxCommandBytes = false) as Hlen by (vm_compute; reflexivity).
  assert (blen (kr_Value sample_record) =? 0 = false) as Hpos by (vm_compute; reflexivity).
  unfold CommandConsumer_Handle, deadLetterAndCommit. rewrite Hlen, Hpos.
  change (decodeCommand (kr_Value sample_record)) with (decodeCommand sample_value).
  rewrite decode_command_sample.
  exists (Ok "t1"). eexists. split; [reflexivity|].
  exists (Err [ErrInvalidRoute]). eexists. split; [reflexivity|].
  exists []. eexists. split; [reflexivity|]. exists []. eexists. split; [reflexivity|]. split; reflexivity.
Qed.

Lemma Handle_settles_witness :
  exists tenant, tenant <> "" /\ settles sample_record tenant (tail sample_entries) [].
Proof.
  destruct (Handle_settles {| cc_topics := [DefaultCommandsTopic] |} sample_record sample_entries []
    sample_consumer_runs) as [(tenant & t' & Hne & [= <- <-] & Hs)|[Hbad _]]; [|discriminate Hbad].
  exists "t1". split; [discriminate | exact Hs].
Defined.

(** ** The outbox publisher *)

Record OutboxEvent := {
  ke_EventID : string;
  ke_TenantID : string;
  ke_ConnectionID : string;
  ke_ConversationID : string;
  ke_CanonicalBody : bytes
}.

Record EventRecord := { er_Topic : string; er_Key : bytes; er_PartitionKey : bytes; er_Value : bytes }.

(** [EventStore] and [EventPublisher]. *)
Inductive OutboxCall : Type -> Type :=
| ClaimEvents (tenant owner : string) (limit : Z) : OutboxCall (result (list OutboxEvent))
| Publish (record : EventRecord) : OutboxCall error
| MarkPublished (tenant eventID : string) : OutboxCall error.

Record OutboxWorker := {
  ow_ownerID : string;
  ow_tenantID : string;
  ow_topic : string;
  ow_claimLimit : Z
}.

Definition NewOutboxWorker (OwnerID TenantID EventsTopic : string) (ClaimLimit : Z) : result OutboxWorker :=
  if (OwnerID =s "") || (TenantID =s "") then Err [ErrInvalidOutboxWorker]
  else
    let topic := if EventsTopic =s "" then DefaultEventsTopic else EventsTopic in
    let limit := if ClaimLimit =? 0 then 64 else ClaimLimit in
    if (limit <? 1) || (limit >? 256) then Err [ErrInvalidOutboxWorker]
    else Ok {| ow_ownerID := OwnerID; ow_tenantID := TenantID; ow_topic := topic; ow_claimLimit := limit |}.

Definition PartitionKey (tenantID connectionID conversationID : string) : bytes :=
  concat ((fun value => PutUint32 (len value) ++ bytes_of value) <$> [tenantID; connectionID; conversationID]).

Definition event_record (worker : OutboxWorker) (event : OutboxEvent) : EventRecord := {|
  er_Topic := ow_topic worker; er_Key := bytes_of (ke_EventID event);
  er_PartitionKey := PartitionKey (ke_TenantID event) (ke_ConnectionID event) (ke_ConversationID event);
  er_Value := ke_CanonicalBody event |}.

Definition valid_outbox_event (event : OutboxEvent) : bool :=
  negb ((ke_EventID event =s "") || (ke_TenantID event =s "") || (ke_ConnectionID event =s "") ||
        (blen (ke_CanonicalBody event) =? 0) || (blen (ke_CanonicalBody event) >? 2 ^ 20)).

Fixpoint publish_events (worker : OutboxWorker) (events : list OutboxEvent) : prog OutboxCall error :=
  match events with
  | [] => Ret []
  | event :: rest =>
    if ke_TenantID event <>s ow_tenantID worker then Ret [ErrText "kafka store returned a cross-tenant event"]
    else if negb (valid_outbox_event event) then Ret [ErrText "invalid kafka outbox event"]
    else
      call! err := Publish (event_record worker event) in
      if negb (is_nil err) then Ret err
      else
        call! err := MarkPublished (ke_TenantID event) (ke_EventID event) in
        if negb (is_nil err) then Ret err else publish_events worker rest
  end.

Definition OutboxWorker_RunBatch (worker : OutboxWorker) : prog OutboxCall error :=
  call! claimed := ClaimEvents (ow_tenantID worker) (ow_ownerID worker) (ow_claimLimit worker) in
  match claimed with
  | Err e => Ret e
  | Ok events => publish_events worker events
  end.

Inductive outbox_entry :=
| ClaimedBatch (tenant owner : string) (limit : Z) (answer : result (list OutboxEvent))
| Published (record : EventRecord) (answer : error)
| Marked (tenant eventID : string) (answer : error).

Definition outbox_log (X : Type) (c : OutboxCall X) : X -> outbox_entry :=
  match c in OutboxCall X return X -> outbox_entry with
  | ClaimEvents tenant owner limit => ClaimedBatch tenant owner limit
  | Publish record => Published record
  | MarkPublished tenant eventID => Marked tenant eventID
  end.

(** The two entries of an event that went out. *)
Definition delivered (worker : OutboxWorker) (event : OutboxEvent) : list outbox_entry :=
  [Published (event_record worker event) []; Marked (ke_TenantID event) (ke_EventID event) []].

(** What may be left of the event a batch stops at: nothing (it was refused), a
    publication the broker did not acknowledge, or an acknowledged one whose mark
    failed. *)
Definition stopped_at (worker : OutboxWorker) (event : OutboxEvent) (t : list outbox_entry) (err : error) : Prop :=
  (t = [] /\ (ke_TenantID event <> ow_tenantID worker \/ valid_outbox_event event = false)) \/
  t = [Published (event_record worker event) err] \/
  t = [Published (event_record worker event) []; Marked (ke_TenantID event) (ke_EventID event) err].

Definition publishable (worker : OutboxWorker) (event : OutboxEvent) : Prop :=
  ke_TenantID event = ow_tenantID worker /\ valid_outbox_event event = true.

Definition batch_outcome (worker : OutboxWorker) (events : list OutboxEvent) (t : list outbox_entry) (err : error) : Prop :=
  (err = [] /\ Forall (publishable worker) events /\ t = events ≫= delivered worker) \/
  (err <> [] /\ exists done event rest tail, events = done ++ event :: rest /\
     Forall (publishable worker) done /\ t = (done ≫= delivered worker) ++ tail /\
     stopped_at worker event tail err).

Lemma stops_here worker event rest t err :
  err <> [] -> stopped_at worker event t err -> batch_outcome worker (event :: rest) t err.
Proof. intros He Hs. right. split; [done|]. by exists [], event, rest, t. Qed.

Lemma goes_on worker event rest t err :
  publishable worker event -> batch_outcome worker rest t err ->
  batch_outcome worker (event :: rest) (delivered worker event ++ t) err.
Proof.
  intros Hp [(-> & Hall & ->)|(He & done & ev & rest' & tail & -> & Hall & -> & Hs)].
  - left. split; [done|]. split; [by constructor | done].
  - right. split; [done|]. exists (event :: done), ev, rest', tail. split; [done|].
    split; [by constructor | done].
Qed.

Lemma publish_events_runs worker events t err :
  executes outbox_log (publish_events worker events) t err -> batch_outcome worker events t err.
Proof.
  revert t. induction events as [|event rest IH]; intros t; cbn [publish_events].
  { intros [-> ->]. by left. }
  destruct (ke_TenantID event =s ow_tenantID worker) eqn:Et; cbn [negb]; reflect_bools.
  2:{ intros [-> ->]. apply stops_here; [done|]. left. naive_solver. }
  destruct (valid_outbox_event event) eqn:Ev; cbn [negb].
  2:{ intros [-> ->]. apply stops_here; [done|]. left. naive_solver. }
  intros (x & t' & -> & H). destruct x as [|s x]; cbn in H.
  2:{ destruct H as [-> ->]. apply stops_here; [done|]. right. by left. }
  destruct H as (x & t'' & -> & H). destruct x as [|s x]; cbn in H.
  2:{ destruct H as [-> ->]. apply stops_here; [done|]. right. by right. }
  apply (goes_on worker event rest t'' err); [done | by apply IH].
Qed.

(** A batch hands the claimed events of the worker's own tenant to the broker
    in the order they were claimed, and marks an event published only after the
    broker acknowledged exactly its record. A batch without error has published and
    marked every claimed event; one that stops has done so for a prefix, and of the
    event it stops at at most the publication went out, so it is sent again under
    the same event identifier rather than lost. *)
Theorem RunBatch_in_order (worker : OutboxWorker) t err :
  executes outbox_log (OutboxWorker_RunBatch worker) t err ->
  exists answer t',
    t = ClaimedBatch (ow_tenantID worker) (ow_ownerID worker) (ow_claimLimit worker) answer :: t' /\
    match answer with
    | Err e => t' = [] /\ err = e
    | Ok events => batch_outcome worker events t' err
    end.
Proof.
  intros (answer & t' & -> & H). exists answer, t'. split; [done|].
  destruct answer as [events|e]; [by apply publish_events_runs | by destruct H].
Qed.

Definition sample_worker : OutboxWorker := {|
  ow_ownerID := "w1"; ow_tenantID := "t1"; ow_topic := DefaultEventsTopic; ow_claimLimit := 64 |}.
Definition sample_event (id : string) : OutboxEvent := {|
  ke_EventID := id; ke_TenantID := "t1"; ke_ConnectionID := "c1"; ke_ConversationID := "v1";
  ke_CanonicalBody := bytes_of "{}" |}.

(** The second mark is lost: the batch stops with its error. *)
Lemma RunBatch_in_order_witness :
  batch_outcome sample_worker [sample_event "e1"; sample_event "e2"]
    (delivered sample_worker (sample_event "e1") ++
     [Published (event_record sample_worker (sample_event "e2")) []; Marked "t1" "e2" [ContextCanceled]])
    [ContextCanceled].
Proof.
  destruct (RunBatch_in_order sample_worker
    (ClaimedBatch "t1" "w1" 64 (Ok [sample_event "e1"; sample_event "e2"]) ::
     delivered sample_worker (sample_event "e1") ++
     [Published (event_record sample_worker (sample_event "e2")) []; Marked "t1" "e2" [ContextCanceled]])
    [ContextCanceled]) as (answer & t' & [= <- <-] & H).
  - exists (Ok [sample_event "e1"; sample_event "e2"]). eexists. split; [reflexivity|].
    exists []. eexists. split; [reflexivity|]. exists []. eexists. split; [reflexivity|].
    exists []. eexists. split; [reflexivity|]. exists [ContextCanceled]. eexists. split; [reflexivity|]. done.
  - exact H.
Defined.

Lemma PartitionKey_frames t c v :
  PartitionKey t c v = concat (frame 4 <$> [bytes_of t; bytes_of c; bytes_of v]).
Proof. unfold PartitionKey, frame, PutUint32. cbn. by rewrite !len_bytes. Qed.

(** Two events share a partition key exactly when tenant, connection and
    conversation agree, so a partition keeps the order of one conversation and no
    choice of identifiers lets one tenant share another's key. *)
Theorem PartitionKey_injective (t1 c1 v1 t2 c2 v2 : string) :
  Forall (fun s => len s < 2 ^ 32) [t1; c1; v1; t2; c2; v2] ->
  PartitionKey t1 c1 v1 = PartitionKey t2 c2 v2 <-> (t1, c1, v1) = (t2, c2, v2).
Proof.
  intros Hlen. split; [|by intros [= -> -> ->]]. rewrite !PartitionKey_frames. intros H.
  apply frames_inj in H; [injection H as ?%bytes_of_inj ?%bytes_of_inj ?%bytes_of_inj; by subst | lia | |];
    repeat (apply Forall_cons in Hlen as [? Hlen]);
    repeat constructor; unfold frameable; rewrite <- len_bytes; assumption.
Qed.

Lemma PartitionKey_injective_witness :
  PartitionKey "ab" "c" "d" <> PartitionKey "a" "bc" "d".
Proof.
  intros H. apply (PartitionKey_injective "ab" "c" "d" "a" "bc" "d") in H; [discriminate H|].
  repeat constructor.
Defined.
