(* ===== verification/Webhook.v ===== *)
(** * Webhook delivery (internal/gateway/webhook: signature.go, worker.go)

    The signature of a delivery and its verification, and the worker that claims
    deliveries, admits, posts and completes them, as programs of calls to its
    store, its secret opener, its HTTP client, the clock and the jitter source.
    The renewal loop runs beside the request; the answers its ticks got are part
    of the answer of the request. *)

From S2P Require Import Prelude GoText Crypto Session.

(** ** Signatures *)

Definition signaturePrefix : string := "v1=".

Definition time_Unix (t : Z) : Z := t / Second.

(** The bytes written to the MAC. *)
Definition signed_payload (timestamp : Z) (eventID : string) (body : bytes) : bytes :=
  bytes_of (FormatInt (time_Unix timestamp)) ++ bytes_of "." ++ bytes_of eventID ++ bytes_of "." ++ body.

Definition Sign (secret : bytes) (timestamp : Z) (eventID : string) (body : bytes) : string :=
  signaturePrefix +:+ string_of (hex_encode (hmac_sha256 secret (signed_payload timestamp eventID body))).

(** [strings.TrimPrefix]. *)
Definition TrimPrefix (s prefix : string) : string :=
  if HasPrefix s prefix then string_of (drop (String.length prefix) (bytes_of s)) else s.

Definition Verify (secret : bytes) (timestamp : Z) (eventID : string) (body : bytes) (signature : string) : bool :=
  if negb (HasPrefix signature signaturePrefix) then false
  else match hex_decode (bytes_of (TrimPrefix signature signaturePrefix)) with
  | None => false
  | Some provided =>
    if negb (blen provided =? 32) then false
    else
      let expected := Sign secret timestamp eventID body in
      bool_decide (Some provided = hex_decode (bytes_of (TrimPrefix expected signaturePrefix)))
  end.

Lemma HasPrefix_split s p : HasPrefix s p = true -> exists r, s = p +:+ r.
Proof.
  unfold HasPrefix. revert s. induction p as [|c p IH]; intros s H; [by exists s|].
  destruct s as [|d s]; [done|]. simpl in H. destruct (ascii_dec c d) as [->|]; [|done].
  destruct (IH _ H) as [r ->]. by exists r.
Qed.

Lemma HasPrefix_v1 s : HasPrefix (signaturePrefix +:+ s) signaturePrefix = true.
Proof. unfold HasPrefix. cbn. by destruct s. Qed.

Lemma TrimPrefix_v1 s : TrimPrefix (signaturePrefix +:+ s) signaturePrefix = s.
Proof.
  unfold TrimPrefix. rewrite HasPrefix_v1. rewrite bytes_of_app. apply string_of_bytes_of.
Qed.

Lemma Sign_decodes secret t id body :
  hex_decode (bytes_of (TrimPrefix (Sign secret t id body) signaturePrefix)) =
  Some (hmac_sha256 secret (signed_payload t id body)).
Proof. unfold Sign. by rewrite TrimPrefix_v1, bytes_of_string_of, hex_decode_encode. Qed.

Lemma Verify_Sign secret t id body secret' t' id' body' :
  Verify secret' t' id' body' (Sign secret t id body) =
  bool_decide (hmac_sha256 secret (signed_payload t id body) = hmac_sha256 secret' (signed_payload t' id' body')).
Proof.
  unfold Verify. unfold Sign at 1. rewrite HasPrefix_v1. cbn [negb]. rewrite !Sign_decodes.
  unfold blen. rewrite length_hmac_sha256. cbn [negb Z.of_nat Pos.of_succ_nat Pos.succ Z.eqb Pos.eqb].
  apply bool_decide_ext. split; congruence.
Qed.

Definition dotless (s : string) : Prop := byte_of_Z 46 ∉ bytes_of s.

#[export] Instance dotless_dec s : Decision (dotless s).
Proof. unfold dotless. apply _. Defined.

Lemma signed_payload_inj t id body t' id' body' :
  in_int64 (time_Unix t) -> in_int64 (time_Unix t') -> dotless id -> dotless id' ->
  signed_payload t id body = signed_payload t' id' body' ->
  time_Unix t = time_Unix t' /\ id = id' /\ body = body'.
Proof.
  intros Ht Ht' Hid Hid' H. unfold signed_payload in H.
  assert (forall n, in_int64 n -> byte_of_Z 46 ∉ bytes_of (FormatInt n)) as Hnum.
  { intros n (ds & -> & Hds & _)%FormatInt_spec.
    intros [Hin|Hin]%elem_of_app.
    - destruct (n <? 0); [|set_solver]. apply list_elem_of_singleton in Hin.
      apply (f_equal byte_val) in Hin. vm_compute in Hin. done.
    - pose proof (proj1 (Forall_forall _ _) Hds _ Hin) as Hd. unfold digit_byte in Hd.
      rewrite byte_val_of_Z in Hd. change (46 mod 256) with 46 in Hd. lia. }
  change (bytes_of ".") with [byte_of_Z 46] in H. cbn [app] in H.
  apply split_at_separator in H as [Hn H]; [|by apply Hnum..].
  apply split_at_separator in H as [Hi ->]; [|done..].
  split_and!; [|by apply bytes_of_inj | done]. by apply FormatInt_inj, bytes_of_inj.
Qed.

(** The receiver's check. A signature made by [Sign] verifies for exactly the
    inputs whose MAC agrees, hence always for its own; and when it verifies for
    another second, event identifier or body (identifiers without a dot, as the
    gateway's are), two different messages have the same HMAC under the secret. A
    signature without the version prefix, with another length or encoding is
    refused. *)
Theorem signature_binds (secret : bytes) (t t' : Z) (id id' : string) (body body' : bytes) :
  in_int64 (time_Unix t) -> in_int64 (time_Unix t') -> dotless id -> dotless id' ->
  Verify secret t id body (Sign secret t id body) = true /\
  (Verify secret t' id' body' (Sign secret t id body) = true ->
   (time_Unix t = time_Unix t' /\ id = id' /\ body = body') \/
   (signed_payload t id body <> signed_payload t' id' body' /\
    hmac_sha256 secret (signed_payload t id body) = hmac_sha256 secret (signed_payload t' id' body'))) /\
  forall signature, Verify secret t id body signature = true ->
    exists encoded, signature = signaturePrefix +:+ encoded /\
      hex_decode (bytes_of encoded) = Some (hmac_sha256 secret (signed_payload t id body)).
Proof.
  intros Ht Ht' Hid Hid'. rewrite !Verify_Sign. split_and!.
  - by apply bool_decide_eq_true.
  - intros H. reflect_bools.
    destruct (decide (signed_payload t id body = signed_payload t' id' body')) as [E|]; [left | by right].
    by apply signed_payload_inj.
  - intros signature H. unfold Verify in H.
    destruct (HasPrefix signature signaturePrefix) eqn:Hp; [|done]. cbn [negb] in H.
    apply HasPrefix_split in Hp as [encoded ->]. rewrite TrimPrefix_v1 in H.
    exists encoded. split; [done|]. destruct (hex_decode (bytes_of encoded)) as [p|]; [|done].
    destruct (negb (blen p =? 32)); [done|]. rewrite Sign_decodes in H. by reflect_bools.
Qed.

Lemma signature_binds_witness :
  Verify (bytes_of "s") (5 * Second) "e1" (bytes_of "{}")
    (Sign (bytes_of "s") (5 * Second) "e1" (bytes_of "{}")) = true /\
  Verify (bytes_of "s") (6 * Second) "e1" (bytes_of "{}")
    (Sign (bytes_of "s") (5 * Second) "e1" (bytes_of "{}")) = false.
Proof.
  split.
  - apply (signature_binds (bytes_of "s") (5 * Second) (5 * Second) "e1" "e1" (bytes_of "{}") (bytes_of "{}"));
      [split; vm_compute; congruence | split; vm_compute; congruence | |];
      apply (bool_decide_eq_true _); vm_compute; reflexivity.
  - vm_compute. reflexivity.
Defined.

(** ** The worker *)

Record Delivery := {
  wd_TenantID : string;
  wd_DeliveryID : string;
  wd_EndpointID : string;
  wd_EventID : string;
  wd_Destination : string;
  wd_KeyID : string;
  wd_CanonicalBody : bytes;
  wd_Attempt : Z;
  wd_OwnerID : string;
  wd_ClaimToken : Z;
  wd_EndpointGeneration : Z;
  wd_Secret : Envelope
}.

Record AttemptResult := {
  ar_TenantID : string;
  ar_DeliveryID : string;
  ar_Attempt : Z;
  ar_OwnerID : string;
  ar_ClaimToken : Z;
  ar_Succeeded : bool;
  ar_Dead : bool;
  ar_StatusCode : Z;
  ar_SafeError : string;
  ar_NextAvailableAt : Z
}.

Record HTTPResult := { hr_StatusCode : Z; hr_RetryAfter : Z }.

(** The headers of a request. *)
Record Headers := {
  hd_Version : string;
  hd_Timestamp : string;
  hd_EventID : string;
  hd_KeyID : string;
  hd_Signature : string
}.

Definition maxRetryAfter : Z := Hour.

(** [Store], [SecretOpener], [Deliverer], the clock and the jitter source. *)
Inductive WorkerCall : Type -> Type :=
| Now : WorkerCall Z
| PurgeExpiredSecrets (tenant : string) : WorkerCall error
| ClaimDeliveries (tenant owner : string) (limit : Z) : WorkerCall (result (list Delivery))
| OpenSecret (scope : Scope) (secret : Envelope) : WorkerCall (result bytes)
| AdmitClaim (delivery : Delivery) : WorkerCall (result bool)
| Deliver (delivery : Delivery) (destination : string) (headers : Headers) (body : bytes)
    : WorkerCall (HTTPResult * error * list (result bool))
| Jitter (maximum : Z) : WorkerCall Z
| CompleteAttempt (outcome : AttemptResult) : WorkerCall error.

Record Worker := {
  wk_ownerID : string;
  wk_tenantID : string;
  wk_maxConcurrent : Z;
  wk_maxAttempts : Z;
  wk_claimLimit : Z;
  wk_renewInterval : Z
}.

Definition NewWorker (OwnerID TenantID : string) (MaxConcurrent MaxAttempts ClaimLimit RenewInterval : Z) : result Worker :=
  if (OwnerID =s "") || (TenantID =s "") then Err [ErrInvalidWorker]
  else
    let concurrent := if MaxConcurrent =? 0 then 4 else MaxConcurrent in
    let tries := if MaxAttempts =? 0 then 8 else MaxAttempts in
    let limit := if ClaimLimit =? 0 then 32 else ClaimLimit in
    let renew := if RenewInterval =? 0 then 10 * Second else RenewInterval in
    if (concurrent <? 1) || (concurrent >? 64) || (tries <? 1) || (tries >? 32) || (limit <? 1) || (limit >? 256) ||
       (renew <? Millisecond) || (renew >? 15 * Second)
    then Err [ErrInvalidWorker]
    else Ok {| wk_ownerID := OwnerID; wk_tenantID := TenantID; wk_maxConcurrent := concurrent;
               wk_maxAttempts := tries; wk_claimLimit := limit; wk_renewInterval := renew |}.

(** [fullJitter]; [draw] is what [rand.Int] returned, [None] its error. *)
Definition fullJitter (maximum : Z) (draw : option Z) : Z :=
  if maximum <=? 0 then 0 else match draw with Some value => value | None => Z.quot maximum 2 end.

(** [time.Second << min(attempt-1, 10)]; a negative count panics. *)
Definition backoff (attempt : Z) : option Z :=
  let count := Z.min (attempt - 1) 10 in if count <? 0 then None else Some (int64 (Z.shiftl Second count)).

Definition failure_result (worker : Worker) (delivery : Delivery) (statusCode : Z) (safeError : string) (next : Z) : AttemptResult := {|
  ar_TenantID := wd_TenantID delivery; ar_DeliveryID := wd_DeliveryID delivery; ar_Attempt := wd_Attempt delivery;
  ar_OwnerID := wd_OwnerID delivery; ar_ClaimToken := wd_ClaimToken delivery; ar_Succeeded := false;
  ar_Dead := wd_Attempt delivery >=? wk_maxAttempts worker; ar_StatusCode := statusCode;
  ar_SafeError := safeError; ar_NextAvailableAt := next |}.

(** Programs return [None] where the code panics. *)
Definition completeFailureWithRetryAfter (worker : Worker) (delivery : Delivery) (now statusCode : Z) (safeError : string)
    (retryAfter : Z) : prog WorkerCall (option error) :=
  if wd_Attempt delivery >=? wk_maxAttempts worker then
    call! err := CompleteAttempt (failure_result worker delivery statusCode safeError time_zero) in Ret (Some err)
  else
    let retryAfter := if retryAfter <? 0 then 0 else retryAfter in
    let retryAfter := if retryAfter >? maxRetryAfter then maxRetryAfter else retryAfter in
    match backoff (wd_Attempt delivery) with
    | None => Ret None
    | Some delay =>
      call! jitter := Jitter delay in
      let jitter := if (jitter <? 0) || (jitter >? maxRetryAfter) then maxRetryAfter else jitter in
      call! err := CompleteAttempt
        (failure_result worker delivery statusCode safeError (now + Z.max retryAfter jitter)) in
      Ret (Some err)
    end.

Definition completeFailure (worker : Worker) (delivery : Delivery) (now statusCode : Z) (safeError : string)
    : prog WorkerCall (option error) :=
  completeFailureWithRetryAfter worker delivery now statusCode safeError 0.

(** [renewClaim]: what the loop reports, from the answers of its ticks up to the
    moment the request returned and the loop was stopped. *)
Fixpoint renewClaim (ticks : list (result bool)) : option error :=
  match ticks with
  | [] => None
  | Ok true :: rest => renewClaim rest
  | Ok false :: _ => Some [ErrWebhookClaimLost]
  | Err e :: _ => Some e
  end.

Definition webhook_scope (delivery : Delivery) : Scope := {|
  sc_TenantID := wd_TenantID delivery; sc_ConnectionID := wd_EndpointID delivery; sc_Provider := "webhook" |}.

Definition delivery_headers (secret : bytes) (now : Z) (delivery : Delivery) : Headers := {|
  hd_Version := "v1"; hd_Timestamp := FormatInt (time_Unix now); hd_EventID := wd_EventID delivery;
  hd_KeyID := wd_KeyID delivery;
  hd_Signature := Sign secret now (wd_EventID delivery) (wd_CanonicalBody delivery) |}.

Definition success_result (delivery : Delivery) (statusCode : Z) : AttemptResult := {|
  ar_TenantID := wd_TenantID delivery; ar_DeliveryID := wd_DeliveryID delivery; ar_Attempt := wd_Attempt delivery;
  ar_OwnerID := wd_OwnerID delivery; ar_ClaimToken := wd_ClaimToken delivery; ar_Succeeded := true; ar_Dead := false;
  ar_StatusCode := statusCode; ar_SafeError := ""; ar_NextAvailableAt := time_zero |}.

Definition accepted (posted : HTTPResult) (err : error) : bool :=
  is_nil err && (hr_StatusCode posted >=? 200) && (hr_StatusCode posted <? 300).

Definition attempt (worker : Worker) (delivery : Delivery) : prog WorkerCall (option error) :=
  call! now := Now in
  call! opened := OpenSecret (webhook_scope delivery) (wd_Secret delivery) in
  match opened with
  | Err _ => completeFailure worker delivery now 0 "secret unavailable"
  | Ok secret =>
    call! admitted := AdmitClaim delivery in
    match admitted with
    | Err e => Ret (Some e)
    | Ok false => Ret (Some [ErrWebhookClaimLost])
    | Ok true =>
      call! sent := Deliver delivery (wd_Destination delivery) (delivery_headers secret now delivery)
                      (wd_CanonicalBody delivery) in
      let '(posted, err, ticks) := sent in
      match renewClaim ticks with
      | Some e => Ret (Some e)
      | None =>
        if accepted posted err then
          call! err := CompleteAttempt (success_result delivery (hr_StatusCode posted)) in Ret (Some err)
        else
          completeFailureWithRetryAfter worker delivery now (hr_StatusCode posted)
            (if is_nil err then "webhook returned HTTP " +:+ Itoa (hr_StatusCode posted) else "delivery failed")
            (hr_RetryAfter posted)
      end
    end
  end.

(** The deliveries of a batch the loop starts an attempt for, and the error it
    returns before waiting for them; [cancelled] is the number of deliveries
    started before the context was found done. *)
Fixpoint started (worker : Worker) (deliveries : list Delivery) (cancelled : option nat) : list Delivery * error :=
  match deliveries with
  | [] => ([], [])
  | delivery :: rest =>
    if (wd_TenantID delivery <>s wk_tenantID worker) || (wd_OwnerID delivery <>s wk_ownerID worker) ||
       (wd_ClaimToken delivery =? 0)
    then ([], [ErrText "webhook store returned a cross-tenant delivery"])
    else match cancelled with
    | Some O => ([], [])
    | _ => let '(ds, e) := started worker rest (pred <$> cancelled) in (delivery :: ds, e)
    end
  end.

(** What an attempt shows to the outside. *)
Inductive worker_entry :=
| ReadClock (now : Z)
| PurgedSecrets (tenant : string) (answer : error)
| ClaimedDeliveries (tenant owner : string) (limit : Z) (answer : result (list Delivery))
| Opened (scope : Scope) (secret : Envelope) (answer : result bytes)
| ClaimAdmitted (delivery : Delivery) (answer : result bool)
| Posted (delivery : Delivery) (destination : string) (headers : Headers) (body : bytes)
    (answer : HTTPResult * error * list (result bool))
| Jittered (maximum answer : Z)
| Completed (outcome : AttemptResult) (answer : error).

Definition worker_log (X : Type) (c : WorkerCall X) : X -> worker_entry :=
  match c in WorkerCall X return X -> worker_entry with
  | Now => ReadClock
  | PurgeExpiredSecrets tenant => PurgedSecrets tenant
  | ClaimDeliveries tenant owner limit => ClaimedDeliveries tenant owner limit
  | OpenSecret scope secret => Opened scope secret
  | AdmitClaim delivery => ClaimAdmitted delivery
  | Deliver delivery destination headers body => Posted delivery destination headers body
  | Jitter maximum => Jittered maximum
  | CompleteAttempt outcome => Completed outcome
  end.

Definition names_delivery (delivery : Delivery) (r : AttemptResult) : Prop :=
  ar_TenantID r = wd_TenantID delivery /\ ar_DeliveryID r = wd_DeliveryID delivery /\
  ar_Attempt r = wd_Attempt delivery /\ ar_OwnerID r = wd_OwnerID delivery /\
  ar_ClaimToken r = wd_ClaimToken delivery.

(** A failed attempt is dead exactly when the attempts are used up, and otherwise
    comes back within the hour. *)
Definition failure_of (worker : Worker) (delivery : Delivery) (now : Z) (r : AttemptResult) : Prop :=
  names_delivery delivery r /\ ar_Succeeded r = false /\
  ar_Dead r = (wd_Attempt delivery >=? wk_maxAttempts worker) /\
  (ar_Dead r = false -> now <= ar_NextAvailableAt r <= now + maxRetryAfter).

Definition success_of (delivery : Delivery) (r : AttemptResult) : Prop :=
  names_delivery delivery r /\ ar_Succeeded r = true /\ ar_Dead r = false.

(** The end of a failed attempt. *)
Definition failure_tail (worker : Worker) (delivery : Delivery) (now : Z) (t : list worker_entry) (res : option error) : Prop :=
  (t = [] /\ res = None /\ wd_Attempt delivery < 1) \/
  exists r e, res = Some e /\ failure_of worker delivery now r /\
    (t = [Completed r e] \/ exists maximum j, t = [Jittered maximum j; Completed r e]).

Lemma completeFailure_runs worker d now status text retry t res :
  executes worker_log (completeFailureWithRetryAfter worker d now status text retry) t res ->
  failure_tail worker d now t res.
Proof.
  unfold completeFailureWithRetryAfter. destruct (wd_Attempt d >=? wk_maxAttempts worker) eqn:E.
  { intros (e & t' & -> & -> & ->). right. eexists _, _. split; [done|]. split; [|by left].
    unfold failure_of. cbn. rewrite E. split_and!; done. }
  destruct (backoff (wd_Attempt d)) as [delay|] eqn:Eb.
  2:{ intros [-> ->]. left. unfold backoff in Eb. split_and!; [done..|].
      destruct (Z.min (wd_Attempt d - 1) 10 <? 0) eqn:Ec; reflect_bools; [lia | done]. }
  intros (j & t' & -> & e & t'' & -> & -> & ->). right. eexists _, _. split; [done|].
  split; [|right; by eexists _, _]. unfold failure_of. cbn. rewrite E. split_and!; [done..|].
  intros _. unfold maxRetryAfter. assert (0 < Hour) by reflexivity.
  set (j' := if (j <? 0) || (j >? Hour) then Hour else j).
  set (r := if retry <? 0 then 0 else retry). set (r' := if r >? Hour then Hour else r).
  assert (0 <= j' <= Hour) by (subst j'; destruct ((j <? 0) || (j >? Hour)) eqn:?; reflect_bools; lia).
  assert (0 <= r' <= Hour).
  { subst r' r. destruct (retry <? 0) eqn:?; [|destruct (retry >? Hour) eqn:?]; reflect_bools; simpl; lia. }
  lia.
Qed.

(** The request of an attempt: to the delivery's destination, with the stored body
    and headers under which the signature verifies. *)
Definition request_of (delivery : Delivery) (secret : bytes) (now : Z) (e : worker_entry) : Prop :=
  match e with
  | Posted delivery' destination headers body _ =>
      delivery' = delivery /\ destination = wd_Destination delivery /\ body = wd_CanonicalBody delivery /\
      hd_Version headers = "v1" /\ hd_EventID headers = wd_EventID delivery /\ hd_KeyID headers = wd_KeyID delivery /\
      hd_Timestamp headers = FormatInt (time_Unix now) /\
      Verify secret now (hd_EventID headers) body (hd_Signature headers) = true
  | _ => False
  end.

(** How an attempt goes: the secret is unavailable; the claim is not admitted; or
    one request goes out, after which the claim is lost, or the result recorded. *)
Inductive attempt_goes (worker : Worker) (delivery : Delivery) : list worker_entry -> option error -> Prop :=
| goes_sealed now e t res :
    failure_tail worker delivery now t res ->
    attempt_goes worker delivery (ReadClock now :: Opened (webhook_scope delivery) (wd_Secret delivery) (Err e) :: t) res
| goes_refused now secret answer e :
    answer <> Ok true ->
    attempt_goes worker delivery
      [ReadClock now; Opened (webhook_scope delivery) (wd_Secret delivery) (Ok secret); ClaimAdmitted delivery answer] (Some e)
| goes_posted now secret destination headers body posted err ticks t res :
    request_of delivery secret now (Posted delivery destination headers body (posted, err, ticks)) ->
    (t = [] /\ res = renewClaim ticks /\ res <> None) \/
    (renewClaim ticks = None /\ accepted posted err = true /\
     exists r e, success_of delivery r /\ t = [Completed r e] /\ res = Some e) \/
    (renewClaim ticks = None /\ accepted posted err = false /\ failure_tail worker delivery now t res) ->
    attempt_goes worker delivery
      (ReadClock now :: Opened (webhook_scope delivery) (wd_Secret delivery) (Ok secret) :: ClaimAdmitted delivery (Ok true) ::
       Posted delivery destination headers body (posted, err, ticks) :: t) res.

Lemma Verify_own secret t id body : Verify secret t id body (Sign secret t id body) = true.
Proof. rewrite Verify_Sign. by apply bool_decide_eq_true. Qed.

Lemma attempt_runs worker delivery t res :
  executes worker_log (attempt worker delivery) t res ->
  attempt_goes worker delivery t res /\ (1 <= wd_Attempt delivery -> res <> None).
Proof.
  intros (now & t1 & -> & opened & t2 & -> & H). cbn [worker_log].
  assert (forall t res, failure_tail worker delivery now t res -> 1 <= wd_Attempt delivery -> res <> None) as Hret.
  { intros t' res' [(-> & -> & ?)|(r & e & -> & _)] ?; [lia | done]. }
  destruct opened as [secret|e].
  2:{ apply completeFailure_runs in H. split; [by apply goes_sealed | by eapply Hret]. }
  destruct H as (admitted & t3 & -> & H).
  destruct admitted as [[|]|e]; [|destruct H as [-> ->]; split; [by apply goes_refused | done]..].
  destruct H as ([[posted err] ticks] & t4 & -> & H). cbn [worker_log].
  assert (request_of delivery secret now (Posted delivery (wd_Destination delivery) (delivery_headers secret now delivery)
    (wd_CanonicalBody delivery) (posted, err, ticks))) as Hreq by (cbn; split_and!; [done..|apply Verify_own]).
  destruct (renewClaim ticks) as [e|] eqn:Er.
  { destruct H as [-> ->]. split; [|done]. eapply goes_posted; [done|]. left. by rewrite Er. }
  destruct (accepted posted err) eqn:Ea.
  - destruct H as (e & t5 & -> & -> & ->). split; [|done]. eapply goes_posted; [done|]. right. left.
    split_and!; [done..|]. eexists _, _. split; [|done]. done.
  - apply completeFailure_runs in H. split; [|by eapply Hret]. eapply goes_posted; [done|]. right. by right.
Qed.

(** C28. Whatever the store, the key service and the receiver answer, an attempt
    posts at most one request, directly after the store admitted this very claim;
    the request carries the stored body and a signature the receiver's check
    accepts under the endpoint's secret. A result is recorded at most once, as the
    last call and for this claim: as a success exactly when a 2xx answer came back
    and every renewal held, never when a renewal failed, and otherwise as a failure
    that is dead exactly when the attempts are used up and retried within the hour
    if not. An attempt of a claimed delivery (attempt number at least one) always
    returns. *)
Theorem attempt_discipline (worker : Worker) (delivery : Delivery) t res :
  executes worker_log (attempt worker delivery) t res ->
  attempt_goes worker delivery t res /\ (1 <= wd_Attempt delivery -> res <> None).
Proof. apply attempt_runs. Qed.

(** The receiver asks for a pause; the failure is recorded with it. *)
Definition sample_delivery : Delivery := {|
  wd_TenantID := "t1"; wd_DeliveryID := "ep:e1"; wd_EndpointID := "ep"; wd_EventID := "e1";
  wd_Destination := "https://hooks.example/x"; wd_KeyID := "k1"; wd_CanonicalBody := bytes_of "{}";
  wd_Attempt := 2; wd_OwnerID := "w1"; wd_ClaimToken := 7; wd_EndpointGeneration := 1;
  wd_Secret := {| en_Revision := 0; en_Version := 1; en_Provider := "webhook"; en_Ciphertext := [];
                  en_WrappedDEK := []; en_Nonce := []; en_KeyID := "kms"; en_KeyVersion := 1 |} |}.
Definition sample_webhook_worker : Worker := {|
  wk_ownerID := "w1"; wk_tenantID := "t1"; wk_maxConcurrent := 4; wk_maxAttempts := 8; wk_claimLimit := 32;
  wk_renewInterval := 10 * Second |}.
Definition sample_attempt_entries : list worker_entry :=
  [ReadClock (100 * Second);
   Opened (webhook_scope sample_delivery) (wd_Secret sample_delivery) (Ok (bytes_of "s"));
   ClaimAdmitted sample_delivery (Ok true);
   Posted sample_delivery "https://hooks.example/x" (delivery_headers (bytes_of "s") (100 * Second) sample_delivery)
     (bytes_of "{}") ({| hr_StatusCode := 503; hr_RetryAfter := 30 * Second |}, [], [Ok true]);
   Jittered (2 * Second) Second;
   Completed (failure_result sample_webhook_worker sample_delivery 503 "webhook returned HTTP 503" (130 * Second)) []].

Lemma sample_attempt_runs :
  executes worker_log (attempt sample_webhook_worker sample_delivery) sample_attempt_entries (Some []).
Proof.
  exists (100 * Second). eexists. split; [reflexivity|].
  exists (Ok (bytes_of "s")). eexists. split; [reflexivity|].
  exists (Ok true). eexists. split; [reflexivity|].
  exists ({| hr_StatusCode := 503; hr_RetryAfter := 30 * Second |}, [], [Ok true]). eexists. split; [reflexivity|].
  exists Second. eexists. split; [reflexivity|]. exists []. eexists. split; [reflexivity|]. split; reflexivity.
Qed.

Lemma attempt_discipline_witness :
  attempt_goes sample_webhook_worker sample_delivery sample_attempt_entries (Some []).
Proof.
  exact (proj1 (attempt_discipline sample_webhook_worker sample_delivery sample_attempt_entries (Some [])
    sample_attempt_runs)).
Defined.

(** ** A batch

    [RunBatch] purges, claims, and starts one concurrent attempt per delivery: the
    calls of the attempts interleave. [ctxErr] is the error of the context at the
    end; a delivery of another tenant or owner makes it return at once, while the
    attempts already started go on. *)
Inductive Worker_RunBatch (worker : Worker) : list worker_entry -> error -> Prop :=
| batch_purge_failed e :
    e <> [] -> Worker_RunBatch worker [PurgedSecrets (wk_tenantID worker) e] e
| batch_claim_failed e :
    Worker_RunBatch worker
      [PurgedSecrets (wk_tenantID worker) [];
       ClaimedDeliveries (wk_tenantID worker) (wk_ownerID worker) (wk_claimLimit worker) (Err e)] e
| batch_ran deliveries cancelled ctxErr ds e runs errs t :
    started worker deliveries cancelled = (ds, e) ->
    (is_Some cancelled -> ctxErr <> []) ->
    Forall2 (fun d run => executes worker_log (attempt worker d) run.1 (Some run.2)) ds runs ->
    interleaved (fst <$> runs) t ->
    errs ≡ₚ (snd <$> runs) ->
    Worker_RunBatch worker
      (PurgedSecrets (wk_tenantID worker) [] ::
       ClaimedDeliveries (wk_tenantID worker) (wk_ownerID worker) (wk_claimLimit worker) (Ok deliveries) :: t)
      (if is_nil e then errors_Join (ctxErr :: errs) else e).

(** Deliveries are identified by tenant and delivery identifier. *)
Definition delivery_key (delivery : Delivery) : string * string := (wd_TenantID delivery, wd_DeliveryID delivery).

Definition posts (key : string * string) (e : worker_entry) : Prop :=
  match e with Posted delivery _ _ _ _ => delivery_key delivery = key | _ => False end.

#[export] Instance posts_dec key e : Decision (posts key e).
Proof. destruct e; cbn; apply _. Defined.

Lemma started_spec worker deliveries cancelled ds e :
  started worker deliveries cancelled = (ds, e) ->
  sublist ds deliveries /\
  Forall (fun d => wd_TenantID d = wk_tenantID worker /\ wd_OwnerID d = wk_ownerID worker /\ wd_ClaimToken d <> 0) ds.
Proof.
  revert cancelled ds e. induction deliveries as [|d rest IH]; intros cancelled ds e; cbn [started].
  { by intros [= <- <-]. }
  destruct ((wd_TenantID d <>s wk_tenantID worker) || (wd_OwnerID d <>s wk_ownerID worker) || (wd_ClaimToken d =? 0)) eqn:E.
  { intros [= <- <-]. split; [apply sublist_nil_l | done]. }
  reflect_bools. destruct cancelled as [[|n]|];
    [intros [= <- <-]; split; [apply sublist_nil_l | done] | |];
    destruct (started worker rest _) as [ds' e'] eqn:Es; intros [= <- <-];
    destruct (IH _ _ _ Es) as [? ?]; (split; [by apply sublist_skip | by constructor]).
Qed.

(** The entries of one attempt: its only request is for its own delivery, and
    directly follows the admission. *)
Lemma failure_tail_silent worker d now t res k :
  failure_tail worker d now t res -> filter (posts k) t = [].
Proof. by intros [(-> & _)|(r & e & _ & _ & [->|(m & j & ->)])]. Qed.

Lemma attempt_posts worker d t res key :
  attempt_goes worker d t res ->
  (length (filter (posts key) t) <= if decide (delivery_key d = key) then 1 else 0)%nat.
Proof.
  intros [now e t' res' Ht | now secret answer e _ | now secret dest h body posted err ticks t' res' _ Hcase];
    rewrite ?filter_cons_False by (cbn; tauto).
  - rewrite (failure_tail_silent _ _ _ _ _ key Ht). simpl. case_decide; lia.
  - simpl. case_decide; lia.
  - assert (filter (posts key) t' = []) as Hnil.
    { destruct Hcase as [(-> & _)|[(_ & _ & r & e & _ & -> & _)|(_ & _ & Ht)]]; [done..|].
      by eapply failure_tail_silent. }
    rewrite filter_cons, Hnil.
    change (posts key (Posted d dest h body (posted, err, ticks))) with (delivery_key d = key).
    repeat case_decide; simpl; (done || lia).
Qed.

Lemma attempt_admitted worker d t res k d' dest h body r :
  attempt_goes worker d t res -> t !! k = Some (Posted d' dest h body r) ->
  d' = d /\ exists j, (j < k)%nat /\ t !! j = Some (ClaimAdmitted d (Ok true)).
Proof.
  intros Hgo Hk.
  assert (forall now t' res', failure_tail worker d now t' res' -> forall n, t' !! n <> Some (Posted d' dest h body r)) as Htail.
  { intros now t' res' Ht n Hn. pose proof (failure_tail_silent _ _ _ _ _ (delivery_key d') Ht) as Hf.
    assert (Posted d' dest h body r ∈ filter (posts (delivery_key d')) t') as Hin
      by (apply list_elem_of_filter; split; [done | by eapply list_elem_of_lookup_2]).
    rewrite Hf in Hin. set_solver. }
  destruct Hgo as [now e t' res' Ht | now secret answer e _ | now secret dest' h' body' posted err ticks t' res' _ Hcase].
  - destruct k as [|[|k]]; [done..|]. by apply (Htail _ _ _ Ht) in Hk.
  - by destruct k as [|[|[|k]]].
  - destruct k as [|[|[|[|k]]]]; [done..| |].
    + cbn in Hk. simplify_eq. split; [done|]. exists 2%nat. split; [lia | done].
    + cbn in Hk. destruct Hcase as [(-> & _)|[(_ & _ & r' & e & _ & -> & _)|(_ & _ & Ht)]]; [done | |].
      * by destruct k.
      * by apply (Htail _ _ _ Ht) in Hk.
Qed.

Lemma runs_post_once worker ds runs key :
  Forall2 (fun d run => executes worker_log (attempt worker d) run.1 (Some run.2)) ds runs ->
  NoDup (delivery_key <$> ds) ->
  (length (filter (posts key) (concat (fst <$> runs))) <=
   if decide (key ∈ delivery_key <$> ds) then 1 else 0)%nat.
Proof.
  induction 1 as [|d [l e] ds runs Hrun _ IH]; intros Hnd; [simpl; lia|].
  rewrite fmap_cons in Hnd. apply NoDup_cons in Hnd as [Hnotin Hnd]. specialize (IH Hnd).
  apply attempt_runs in Hrun as [Hgo _]. pose proof (attempt_posts _ _ _ _ key Hgo) as Hle. cbn in Hle.
  rewrite !fmap_cons. cbn [concat fst]. rewrite filter_app, length_app.
  destruct (decide (delivery_key d = key)) as [<-|Hne].
  - rewrite decide_True by set_solver. rewrite decide_False in IH by done. lia.
  - destruct (decide (key ∈ delivery_key <$> ds)).
    + rewrite decide_True by set_solver. lia.
    + rewrite decide_False by set_solver. lia.
Qed.

(** In a batch, whatever its calls answer and however its attempts interleave:
    every request is for a delivery the claim returned, of the worker's own tenant
    and owner and with a claim token, and comes after the store admitted that
    delivery; and when the claim returned no delivery twice, no delivery is
    requested twice. *)
Theorem batch_posts_admitted_once (worker : Worker) t err :
  Worker_RunBatch worker t err ->
  (forall i d dest h body r, t !! i = Some (Posted d dest h body r) ->
     wd_TenantID d = wk_tenantID worker /\ wd_OwnerID d = wk_ownerID worker /\ wd_ClaimToken d <> 0 /\
     (exists deliveries, d ∈ deliveries /\
        t !! 1%nat = Some (ClaimedDeliveries (wk_tenantID worker) (wk_ownerID worker) (wk_claimLimit worker) (Ok deliveries))) /\
     exists j, (j < i)%nat /\ t !! j = Some (ClaimAdmitted d (Ok true))) /\
  (forall deliveries key,
     t !! 1%nat = Some (ClaimedDeliveries (wk_tenantID worker) (wk_ownerID worker) (wk_claimLimit worker) (Ok deliveries)) ->
     NoDup (delivery_key <$> deliveries) -> (length (filter (posts key) t) <= 1)%nat).
Proof.
  intros [e _ | e | deliveries cancelled ctxErr ds e runs errs t' Hs _ Hruns Hint _].
  { split; [by intros [|i] |]. by intros ? ? H. }
  { split; [by intros [|[|i]] |]. intros ? ? [=]. }
  apply started_spec in Hs as [Hsub Hown].
  split.
  - intros i d dest h body r Hi. destruct i as [|[|i]]; [done..|]. cbn in Hi.
    destruct (interleaved_origin _ _ Hint _ _ Hi) as (n & l & k & Hn & Hk & Hb).
    apply list_lookup_fmap_Some in Hn as ([l' e'] & -> & Hn). cbn in Hk, Hb.
    destruct (Forall2_lookup_r _ _ _ _ _ Hruns Hn) as (d0 & Hd0 & Hex). cbn in Hex.
    apply attempt_runs in Hex as [Hgo _].
    destruct (attempt_admitted _ _ _ _ _ _ _ _ _ _ Hgo Hk) as [-> (j & Hj & Hadm)].
    destruct (Hb _ _ Hj Hadm) as (j' & Hj' & Hadm').
    pose proof (proj1 (Forall_lookup _ _) Hown _ _ Hd0) as (? & ? & ?).
    assert (d0 ∈ ds) by by eapply list_elem_of_lookup_2. split_and!; [done..| |].
    + exists deliveries. split; [by eapply sublist_subseteq | done].
    + exists (S (S j')). split; [lia | done].
  - intros deliveries' key [= <-] Hnd.
    assert (NoDup (delivery_key <$> ds)) as Hnd' by (by eapply sublist_NoDup, fmap_sublist).
    rewrite !filter_cons_False by (cbn; tauto).
    rewrite (filter_Permutation _ _ _ (interleaved_permutation _ _ Hint)).
    pose proof (runs_post_once worker ds runs key Hruns Hnd') as Hle. by case_decide; lia.
Qed.

Lemma batch_posts_admitted_once_witness :
  length (filter (posts ("t1", "ep:e1"))
    (PurgedSecrets "t1" [] :: ClaimedDeliveries "t1" "w1" 32 (Ok [sample_delivery]) :: sample_attempt_entries)) = 1%nat /\
  (length (filter (posts ("t1", "ep:e1"))
    (PurgedSecrets "t1" [] :: ClaimedDeliveries "t1" "w1" 32 (Ok [sample_delivery]) :: sample_attempt_entries)) <= 1)%nat.
Proof.
  split; [reflexivity|].
  apply (batch_posts_admitted_once sample_webhook_worker _ []) with (deliveries := [sample_delivery]).
  - apply (batch_ran sample_webhook_worker [sample_delivery] None [] [sample_delivery] [] [(sample_attempt_entries, [])] [[]]).
    + reflexivity.
    + by intros [? ?].
    + constructor; [exact sample_attempt_runs | constructor].
    + cbn. unfold sample_attempt_entries.
      do 6 apply (interleaved_step []). apply interleaved_done. by repeat constructor.
    + reflexivity.
  - reflexivity.
  - cbn. apply NoDup_singleton.
Defined.
