(* ===== verification/Delivery.v ===== *)
(** * Webhook and Kafka delivery in the store (internal/gateway/store/postgres/delivery.go)

    Webhook endpoints, the deliveries their events fan out to, attempts and dead
    letters, the Kafka event deliveries and the dead letters of Kafka commands,
    beside the tables of [Store].  As there, a repository call is one atomic step
    at the database clock [now] (so [SKIP LOCKED] skips nothing), the
    data-modifying parts of one statement read the tables as the statement found
    them, and every [repository.newID()] is an argument. *)

From S2P Require Import Prelude GoText Crypto GoEncoding Domain Messaging Session EventContract Store Kafka Webhook.

(** ** Rows (migrations 0007, 0008, 0009) *)

Record SealedSecret := {
  ss_Ciphertext : bytes;
  ss_WrappedDEK : bytes;
  ss_Nonce : bytes;
  ss_KeyID : string;
  ss_KeyVersion : Z
}.

Record EndpointRow := {
  ep_Destination : string;
  ep_KeyID : string;
  ep_Secret : SealedSecret;
  ep_Previous : option (string * SealedSecret * Z);
  ep_Active : bool;
  ep_CreatedAt : Z;
  ep_Generation : Z
}.

Inductive DeliveryState := Pending | Delivering | Succeeded | Dead.

#[export] Instance DeliveryState_eq_dec : EqDecision DeliveryState.
Proof. solve_decision. Defined.

Record DeliveryRow := {
  dl_EndpointID : string;
  dl_EventID : string;
  dl_Body : bytes;
  dl_State : DeliveryState;
  dl_AttemptCount : Z;
  dl_CycleAttemptCount : Z;
  dl_AvailableAt : Z;
  dl_ClaimedBy : option string;
  dl_ClaimExpiresAt : option Z;
  dl_CompletedAt : option Z;
  dl_ClaimToken : Z;
  dl_Generation : Z;
  dl_HTTPStartedAt : option Z
}.

Record WebhookAttemptRow := {
  wa_StartedAt : Z;
  wa_FinishedAt : option Z;
  wa_StatusCode : option Z;
  wa_SafeError : string
}.

Record DLQRow := {
  dr_DeliveryID : string;
  dr_EventID : string;
  dr_Body : bytes;
  dr_SafeError : string;
  dr_DeadAt : Z;
  dr_ReplayedAt : option Z
}.

Record KafkaDeliveryRow := {
  kd_EventID : string;
  kd_Topic : string;
  kd_PartitionKey : string;
  kd_AttemptCount : Z;
  kd_State : string;
  kd_PublishedAt : option Z
}.

Record CommandDLQRow := {
  cr_Topic : string;
  cr_Partition : Z;
  cr_Offset : Z;
  cr_Payload : bytes;
  cr_SafeError : SafeError;
  cr_CorrelationID : string
}.

(** Webhook attempts are keyed by tenant, delivery and attempt number
    ([UNIQUE (tenant_id, delivery_id, attempt_number)]). *)
Record WebhookDb := {
  base : Db;
  endpoints : gmap (string * string) EndpointRow;
  deliveries : gmap (string * string) DeliveryRow;
  webhook_attempts : gmap (string * string * Z) WebhookAttemptRow;
  dlq : gmap (string * string) DLQRow;
  kafka_deliveries : gmap (string * string) KafkaDeliveryRow;
  command_dlq : gmap (string * string) CommandDLQRow
}.

Definition set_base (b : Db) (s : WebhookDb) : WebhookDb := {|
  base := b; endpoints := endpoints s; deliveries := deliveries s; webhook_attempts := webhook_attempts s;
  dlq := dlq s; kafka_deliveries := kafka_deliveries s; command_dlq := command_dlq s |}.
Definition set_endpoints (e : gmap (string * string) EndpointRow) (s : WebhookDb) : WebhookDb := {|
  base := base s; endpoints := e; deliveries := deliveries s; webhook_attempts := webhook_attempts s;
  dlq := dlq s; kafka_deliveries := kafka_deliveries s; command_dlq := command_dlq s |}.
Definition set_deliveries (d : gmap (string * string) DeliveryRow) (s : WebhookDb) : WebhookDb := {|
  base := base s; endpoints := endpoints s; deliveries := d; webhook_attempts := webhook_attempts s;
  dlq := dlq s; kafka_deliveries := kafka_deliveries s; command_dlq := command_dlq s |}.
Definition set_webhook_attempts (a : gmap (string * string * Z) WebhookAttemptRow) (s : WebhookDb) : WebhookDb := {|
  base := base s; endpoints := endpoints s; deliveries := deliveries s; webhook_attempts := a;
  dlq := dlq s; kafka_deliveries := kafka_deliveries s; command_dlq := command_dlq s |}.
Definition set_dlq (d : gmap (string * string) DLQRow) (s : WebhookDb) : WebhookDb := {|
  base := base s; endpoints := endpoints s; deliveries := deliveries s; webhook_attempts := webhook_attempts s;
  dlq := d; kafka_deliveries := kafka_deliveries s; command_dlq := command_dlq s |}.
Definition set_kafka_deliveries (k : gmap (string * string) KafkaDeliveryRow) (s : WebhookDb) : WebhookDb := {|
  base := base s; endpoints := endpoints s; deliveries := deliveries s; webhook_attempts := webhook_attempts s;
  dlq := dlq s; kafka_deliveries := k; command_dlq := command_dlq s |}.
Definition set_command_dlq (c : gmap (string * string) CommandDLQRow) (s : WebhookDb) : WebhookDb := {|
  base := base s; endpoints := endpoints s; deliveries := deliveries s; webhook_attempts := webhook_attempts s;
  dlq := dlq s; kafka_deliveries := kafka_deliveries s; command_dlq := c |}.

(** ** Endpoints *)

Record Endpoint := {
  we_ID : string;
  we_TenantID : string;
  we_Destination : string;
  we_KeyID : string;
  we_Active : bool;
  we_CreatedAt : Z
}.

Record EndpointRotation := {
  rt_TenantID : string;
  rt_EndpointID : string;
  rt_KeyID : string;
  rt_Secret : Session.Envelope;
  rt_PreviousValidUntil : Z
}.

Definition MaxEndpointsPerTenant : Z := 128.

Definition sealed (secret : Session.Envelope) : SealedSecret := {|
  ss_Ciphertext := en_Ciphertext secret; ss_WrappedDEK := en_WrappedDEK secret; ss_Nonce := en_Nonce secret;
  ss_KeyID := en_KeyID secret; ss_KeyVersion := en_KeyVersion secret |}.

Definition tenant_endpoints (s : WebhookDb) (t : tenant) : list (string * EndpointRow) :=
  (fun p => (p.1.2, p.2)) <$> List.filter (fun p => p.1.1 =s t) (map_to_list (endpoints s)).

Definition active_endpoints (s : WebhookDb) (t : tenant) : list (string * EndpointRow) :=
  List.filter (fun p => ep_Active p.2) (tenant_endpoints s t).

(** The unique constraints of [webhook_endpoints], beside its primary key. *)
Definition endpoint_taken (s : WebhookDb) (t : tenant) (endpointID : string) (p : string * EndpointRow -> bool) : bool :=
  existsb (fun e => (e.1 <>s endpointID) && p e) (tenant_endpoints s t).

Definition Repository_CreateEndpoint (endpoint : Endpoint) (secret : Session.Envelope) (maxEndpoints : Z) (s : WebhookDb)
    : WebhookDb * result unit :=
  if (we_TenantID endpoint =s "") || (we_ID endpoint =s "") || (we_Destination endpoint =s "") ||
     (we_KeyID endpoint =s "") || negb (is_ok (Envelope_Validate secret)) || (en_Provider secret <>s "webhook") ||
     (maxEndpoints <? 1) || (maxEndpoints >? MaxEndpointsPerTenant)
  then (s, Err [ErrInvalidEndpoint])
  else inTenant (we_TenantID endpoint) (fun s =>
    let t := we_TenantID endpoint in
    if blen (active_endpoints s t) >=? maxEndpoints then Err [ErrEndpointQuotaExceeded]
    else
      let! _ := foreign_key (bool_decide (is_Some (tenants (base s) !! t))) in
      let! _ := check_constraint (negb (endpoint_taken s t (we_ID endpoint) (fun e => ep_Destination e.2 =s we_Destination endpoint))) in
      let! _ := check_constraint (negb (endpoint_taken s t (we_ID endpoint) (fun e => ep_KeyID e.2 =s we_KeyID endpoint))) in
      let! endpoints' := insert_unique (endpoints s) (t, we_ID endpoint)
        {| ep_Destination := we_Destination endpoint; ep_KeyID := we_KeyID endpoint; ep_Secret := sealed secret;
           ep_Previous := None; ep_Active := true; ep_CreatedAt := we_CreatedAt endpoint; ep_Generation := 1 |} in
      Ok (set_endpoints endpoints' s, tt)) s.

Definition Repository_RotateEndpoint (rotation : EndpointRotation) (s : WebhookDb) : WebhookDb * result unit :=
  if (rt_TenantID rotation =s "") || (rt_EndpointID rotation =s "") || (rt_KeyID rotation =s "") ||
     negb (is_ok (Envelope_Validate (rt_Secret rotation))) || (en_Provider (rt_Secret rotation) <>s "webhook") ||
     time_IsZero (rt_PreviousValidUntil rotation)
  then (s, Err [ErrInvalidEndpoint])
  else inTenant (rt_TenantID rotation) (fun s =>
    let t := rt_TenantID rotation in
    match endpoints s !! (t, rt_EndpointID rotation) with
    | Some row =>
      if ep_Active row then
        let! _ := check_constraint (negb (endpoint_taken s t (rt_EndpointID rotation) (fun e => ep_KeyID e.2 =s rt_KeyID rotation))) in
        Ok (set_endpoints (<[(t, rt_EndpointID rotation) := {|
              ep_Destination := ep_Destination row; ep_KeyID := rt_KeyID rotation; ep_Secret := sealed (rt_Secret rotation);
              ep_Previous := Some (ep_KeyID row, ep_Secret row, rt_PreviousValidUntil rotation);
              ep_Active := true; ep_CreatedAt := ep_CreatedAt row; ep_Generation := ep_Generation row |}]> (endpoints s)) s, tt)
      else Err [ErrInvalidEndpoint]
    | None => Err [ErrInvalidEndpoint]
    end) s.

Definition endpoint_of (t : tenant) (p : string * EndpointRow) : Endpoint := {|
  we_ID := p.1; we_TenantID := t; we_Destination := ep_Destination p.2; we_KeyID := ep_KeyID p.2;
  we_Active := ep_Active p.2; we_CreatedAt := ep_CreatedAt p.2 |}.

Definition Repository_ListEndpoints (t : tenant) (after : string) (limit : Z) (s : WebhookDb)
    : WebhookDb * result (list Endpoint * string) :=
  if (t =s "") || (len after >? 256) || (limit <? 1) || (limit >? 200) then (s, Err [ErrInvalidEndpoint])
  else inTenant t (fun s =>
    let found := take (Z.to_nat (limit + 1)) (merge_sort (fun a b => String.le a.1 b.1)
      (List.filter (fun p => String.leb after p.1 && (p.1 <>s after)) (tenant_endpoints s t))) in
    let page := endpoint_of t <$> found in
    if blen page >? limit then
      let page := take (Z.to_nat limit) page in Ok (s, (page, from_option we_ID "" (last page)))
    else Ok (s, (page, ""))) s.

Definition purge_previous (now : Z) (row : EndpointRow) : EndpointRow :=
  match ep_Previous row with
  | Some (_, _, until) =>
    if until <=? now then {|
      ep_Destination := ep_Destination row; ep_KeyID := ep_KeyID row; ep_Secret := ep_Secret row; ep_Previous := None;
      ep_Active := ep_Active row; ep_CreatedAt := ep_CreatedAt row; ep_Generation := ep_Generation row |}
    else row
  | None => row
  end.

Definition purge_expired (t : tenant) (now : Z) (m : gmap (string * string) EndpointRow) : gmap (string * string) EndpointRow :=
  map_imap (fun k row => Some (if k.1 =s t then purge_previous now row else row)) m.

Definition Repository_PurgeExpiredSecrets (t : tenant) (now : Z) (s : WebhookDb) : WebhookDb * result unit :=
  if t =s "" then (s, Err [ErrInvalidWorker])
  else inTenant t (fun s => Ok (set_endpoints (purge_expired t now (endpoints s)) s, tt)) s.

(** ** Claiming *)

(** A claim that another worker holds. *)
Definition held (claimedBy : option string) (expires : option Z) (now : Z) : bool :=
  match claimedBy with
  | None => false
  | Some _ => match expires with Some e => negb (e <=? now) | None => true end
  end.

Definition outbox_le (a b : string * OutboxRow) : Prop :=
  ob_AvailableAt a.2 < ob_AvailableAt b.2 \/ ob_AvailableAt a.2 = ob_AvailableAt b.2 /\ String.le a.1 b.1.

#[export] Instance outbox_le_dec a b : Decision (outbox_le a b).
Proof. unfold outbox_le. apply _. Defined.

Definition outbox_open (now : Z) (destination : string) (row : OutboxRow) : bool :=
  (ob_Destination row =s destination) && bool_decide (ob_PublishedAt row = None) &&
  (ob_AvailableAt row <=? now) && negb (held (ob_ClaimedBy row) (ob_ClaimExpiresAt row) now).

(** [locked_outbox]: the oldest open rows of one destination. *)
Definition locked_outbox (s : WebhookDb) (t : tenant) (destination : string) (limit now : Z) : list (string * OutboxRow) :=
  take (Z.to_nat limit) (merge_sort outbox_le
    ((fun p => (p.1.2, p.2)) <$>
      List.filter (fun p => (p.1.1 =s t) && outbox_open now destination p.2) (map_to_list (outbox (base s))))).

Definition has_delivery (s : WebhookDb) (t : tenant) (endpointID eventID : string) : bool :=
  existsb (fun p => (p.1.1 =s t) && (dl_EndpointID p.2 =s endpointID) && (dl_EventID p.2 =s eventID))
    (map_to_list (deliveries s)).

Definition id_le {A} (a b : string * A) : Prop := String.le a.1 b.1.

#[export] Instance id_le_dec {A} (a b : string * A) : Decision (id_le a b).
Proof. unfold id_le. apply _. Defined.

(** [candidate_pairs]: event, body, endpoint and generation. *)
Definition candidate_pairs (s : WebhookDb) (t : tenant) (locked : list (string * OutboxRow)) (limit : Z)
    : list (string * bytes * string * Z) :=
  take (Z.to_nat limit)
    (merge_sort id_le locked ≫= fun o =>
     match events (base s) !! (t, ob_EventID o.2) with
     | None => []
     | Some event =>
       (fun e => (ob_EventID o.2, er_Body event, e.1, ep_Generation e.2)) <$>
         List.filter (fun e => negb (has_delivery s t e.1 (ob_EventID o.2))) (merge_sort id_le (active_endpoints s t))
     end).

Definition new_delivery (endpointID eventID : string) (body : bytes) (generation now : Z) : DeliveryRow := {|
  dl_EndpointID := endpointID; dl_EventID := eventID; dl_Body := body; dl_State := Pending; dl_AttemptCount := 0;
  dl_CycleAttemptCount := 0; dl_AvailableAt := now; dl_ClaimedBy := None; dl_ClaimExpiresAt := None;
  dl_CompletedAt := None; dl_ClaimToken := 0; dl_Generation := generation; dl_HTTPStartedAt := None |}.

(** [materialized]: one row per pair, none where the endpoint has one for the
    event; identifiers collide with an error. *)
Fixpoint materialize (t : tenant) (now : Z) (pairs : list (string * bytes * string * Z)) (s : WebhookDb) : result WebhookDb :=
  match pairs with
  | [] => Ok s
  | (eventID, body, endpointID, generation) :: rest =>
    if has_delivery s t endpointID eventID then materialize t now rest s
    else
      let! deliveries' := insert_unique (deliveries s) (t, endpointID +:+ ":" +:+ eventID)
                            (new_delivery endpointID eventID body generation now) in
      materialize t now rest (set_deliveries deliveries' s)
  end.

(** [completed_events]: every active endpoint has a delivery of the event. *)
Definition event_completed (before after : WebhookDb) (t : tenant) (eventID : string) : bool :=
  forallb (fun e => has_delivery after t e.1 eventID) (active_endpoints before t).

Definition close_row (now : Z) (row : OutboxRow) : OutboxRow := {|
  ob_EventID := ob_EventID row; ob_Destination := ob_Destination row; ob_AvailableAt := ob_AvailableAt row;
  ob_ClaimedBy := None; ob_ClaimExpiresAt := None; ob_AttemptCount := ob_AttemptCount row;
  ob_PublishedAt := Some now |}.

(** [closed_outbox]: the webhook rows of the completed events. *)
Definition close_outbox (t : tenant) (completed : list string) (now : Z) (b : Db) : Db :=
  set_outbox (map_imap (fun k row =>
    Some (if (k.1 =s t) && (ob_Destination row =s "webhook") && bool_decide (ob_EventID row ∈ completed)
          then close_row now row else row)) (outbox b)) b.

Definition delivery_le (a b : string * DeliveryRow) : Prop :=
  dl_AvailableAt a.2 < dl_AvailableAt b.2 \/ dl_AvailableAt a.2 = dl_AvailableAt b.2 /\ String.le a.1 b.1.

#[export] Instance delivery_le_dec a b : Decision (delivery_le a b).
Proof. unfold delivery_le. apply _. Defined.

Definition claimable (s : WebhookDb) (t : tenant) (now : Z) (row : DeliveryRow) : bool :=
  match endpoints s !! (t, dl_EndpointID row) with
  | Some e => ep_Active e
  | None => false
  end &&
  (bool_decide (dl_State row = Pending) || bool_decide (dl_State row = Delivering)) &&
  (dl_AvailableAt row <=? now) && negb (held (dl_ClaimedBy row) (dl_ClaimExpiresAt row) now).

(** [candidates] *)
Definition claim_candidates (s : WebhookDb) (t : tenant) (limit now : Z) : list (string * DeliveryRow) :=
  take (Z.to_nat limit) (merge_sort delivery_le
    ((fun p => (p.1.2, p.2)) <$>
      List.filter (fun p => (p.1.1 =s t) && claimable s t now p.2) (map_to_list (deliveries s)))).

Definition ClaimInterval : Z := 30 * Second.

(** [claimed] *)
Definition claimed_row (owner : string) (generation now : Z) (row : DeliveryRow) : DeliveryRow := {|
  dl_EndpointID := dl_EndpointID row; dl_EventID := dl_EventID row; dl_Body := dl_Body row; dl_State := Delivering;
  dl_AttemptCount := dl_AttemptCount row + 1; dl_CycleAttemptCount := dl_CycleAttemptCount row + 1;
  dl_AvailableAt := dl_AvailableAt row; dl_ClaimedBy := Some owner; dl_ClaimExpiresAt := Some (now + ClaimInterval);
  dl_CompletedAt := dl_CompletedAt row; dl_ClaimToken := dl_ClaimToken row + 1; dl_Generation := generation;
  dl_HTTPStartedAt := None |}.

Definition claim_delivery (t : tenant) (deliveryID : string) (e : EndpointRow) (row : DeliveryRow) : Delivery := {|
  wd_TenantID := t; wd_DeliveryID := deliveryID; wd_EndpointID := dl_EndpointID row; wd_EventID := dl_EventID row;
  wd_Destination := ep_Destination e; wd_KeyID := ep_KeyID e; wd_CanonicalBody := dl_Body row;
  wd_Attempt := dl_CycleAttemptCount row; wd_OwnerID := default "" (dl_ClaimedBy row);
  wd_ClaimToken := dl_ClaimToken row; wd_EndpointGeneration := dl_Generation row;
  wd_Secret := {| en_Revision := 0; en_Version := 1; en_Provider := "webhook";
    en_Ciphertext := ss_Ciphertext (ep_Secret e); en_WrappedDEK := ss_WrappedDEK (ep_Secret e);
    en_Nonce := ss_Nonce (ep_Secret e); en_KeyID := ss_KeyID (ep_Secret e);
    en_KeyVersion := ss_KeyVersion (ep_Secret e) |} |}.

Definition started_attempt (now : Z) : WebhookAttemptRow := {|
  wa_StartedAt := now; wa_FinishedAt := None; wa_StatusCode := None; wa_SafeError := "" |}.

Fixpoint claim_each (t : tenant) (owner : string) (now : Z) (candidates : list (string * DeliveryRow)) (s : WebhookDb)
    : result (WebhookDb * list Delivery) :=
  match candidates with
  | [] => Ok (s, [])
  | (deliveryID, row) :: rest =>
    match endpoints s !! (t, dl_EndpointID row) with
    | None => claim_each t owner now rest s
    | Some e =>
      let row' := claimed_row owner (ep_Generation e) now row in
      let! attempts' := insert_unique (webhook_attempts s) (t, deliveryID, dl_AttemptCount row') (started_attempt now) in
      let! claimed := claim_each t owner now rest
        (set_webhook_attempts attempts' (set_deliveries (<[(t, deliveryID) := row']> (deliveries s)) s)) in
      Ok (claimed.1, claim_delivery t deliveryID e row' :: claimed.2)
    end
  end.

(** One execution of claimWebhookDeliveriesSQL. *)
Definition claim_pass (t : tenant) (owner : string) (limit now : Z) (s : WebhookDb) : result (WebhookDb * list Delivery) :=
  let locked := locked_outbox s t "webhook" limit now in
  let! s1 := materialize t now (candidate_pairs s t locked limit) s in
  let completed := List.filter (event_completed s s1 t) ((fun o => ob_EventID o.2) <$> locked) in
  let s2 := set_base (close_outbox t completed now (base s1)) s1 in
  let s3 := set_endpoints (purge_expired t now (endpoints s2)) s2 in
  claim_each t owner now (claim_candidates s t limit now) s3.

(** A second pass sees the rows the first one materialised. *)
Definition Repository_Claim (t : tenant) (owner : string) (limit now : Z) (s : WebhookDb)
    : WebhookDb * result (list Delivery) :=
  if (t =s "") || (owner =s "") || (len owner >? 256) || (limit <? 1) || (limit >? 256) then (s, Err [ErrInvalidWorker])
  else inTenant t (fun s =>
    let! first := claim_pass t owner limit now s in
    if is_nil first.2 then claim_pass t owner limit now first.1 else Ok first) s.

(** ** Holding a claim *)

(** The claim [delivery_id, owner, token] on a row that is being delivered. *)
Definition claim_matches (row : DeliveryRow) (owner : string) (token : Z) : bool :=
  bool_decide (dl_ClaimedBy row = Some owner) && (dl_ClaimToken row =? token) && bool_decide (dl_State row = Delivering).

Definition unexpired (row : DeliveryRow) (now : Z) : bool :=
  match dl_ClaimExpiresAt row with Some e => e >? now | None => false end.

Definition admitted_row (now : Z) (row : DeliveryRow) : DeliveryRow := {|
  dl_EndpointID := dl_EndpointID row; dl_EventID := dl_EventID row; dl_Body := dl_Body row; dl_State := dl_State row;
  dl_AttemptCount := dl_AttemptCount row; dl_CycleAttemptCount := dl_CycleAttemptCount row;
  dl_AvailableAt := dl_AvailableAt row; dl_ClaimedBy := dl_ClaimedBy row; dl_ClaimExpiresAt := dl_ClaimExpiresAt row;
  dl_CompletedAt := dl_CompletedAt row; dl_ClaimToken := dl_ClaimToken row; dl_Generation := dl_Generation row;
  dl_HTTPStartedAt := Some now |}.

Definition admissible (s : WebhookDb) (delivery : Delivery) (now : Z) (row : DeliveryRow) : bool :=
  match endpoints s !! (wd_TenantID delivery, wd_EndpointID delivery) with
  | Some e => ep_Active e && (ep_Generation e =? wd_EndpointGeneration delivery)
  | None => false
  end &&
  (dl_EndpointID row =s wd_EndpointID delivery) && claim_matches row (wd_OwnerID delivery) (wd_ClaimToken delivery) &&
  (dl_Generation row =? wd_EndpointGeneration delivery) && bool_decide (dl_HTTPStartedAt row = None) && unexpired row now.

Definition Repository_AdmitClaim (delivery : Delivery) (now : Z) (s : WebhookDb) : WebhookDb * result bool :=
  if (wd_TenantID delivery =s "") || (wd_DeliveryID delivery =s "") || (wd_EndpointID delivery =s "") ||
     (wd_OwnerID delivery =s "") || (len (wd_OwnerID delivery) >? 256) || (wd_ClaimToken delivery =? 0) ||
     (wd_EndpointGeneration delivery =? 0)
  then (s, Err [ErrInvalidWorker])
  else inTenant (wd_TenantID delivery) (fun s =>
    let key := (wd_TenantID delivery, wd_DeliveryID delivery) in
    match deliveries s !! key with
    | Some row =>
      if admissible s delivery now row
      then Ok (set_deliveries (<[key := admitted_row now row]> (deliveries s)) s, true)
      else Ok (s, false)
    | None => Ok (s, false)
    end) s.

Definition renewed_row (now : Z) (row : DeliveryRow) : DeliveryRow := {|
  dl_EndpointID := dl_EndpointID row; dl_EventID := dl_EventID row; dl_Body := dl_Body row; dl_State := dl_State row;
  dl_AttemptCount := dl_AttemptCount row; dl_CycleAttemptCount := dl_CycleAttemptCount row;
  dl_AvailableAt := dl_AvailableAt row; dl_ClaimedBy := dl_ClaimedBy row;
  dl_ClaimExpiresAt := Some (now + ClaimInterval); dl_CompletedAt := dl_CompletedAt row;
  dl_ClaimToken := dl_ClaimToken row; dl_Generation := dl_Generation row; dl_HTTPStartedAt := dl_HTTPStartedAt row |}.

Definition Repository_RenewClaim (t : tenant) (deliveryID owner : string) (token now : Z) (s : WebhookDb)
    : WebhookDb * result bool :=
  if (t =s "") || (deliveryID =s "") || (owner =s "") || (len owner >? 256) || (token =? 0)
  then (s, Err [ErrInvalidWorker])
  else inTenant t (fun s =>
    match deliveries s !! (t, deliveryID) with
    | Some row =>
      if claim_matches row owner token && unexpired row now && negb (bool_decide (dl_HTTPStartedAt row = None))
      then Ok (set_deliveries (<[(t, deliveryID) := renewed_row now row]> (deliveries s)) s, true)
      else Ok (s, false)
    | None => Ok (s, false)
    end) s.

(** ** Completing *)

(** [INSERT INTO webhook_dlq ... ON CONFLICT (tenant_id, delivery_id) DO NOTHING] *)
Definition insert_dlq (t : tenant) (dlqID deliveryID : string) (row : DeliveryRow) (safeError : string) (now : Z)
    (m : gmap (string * string) DLQRow) : result (gmap (string * string) DLQRow) :=
  if existsb (fun p => (p.1.1 =s t) && (dr_DeliveryID p.2 =s deliveryID)) (map_to_list m) then Ok m
  else insert_unique m (t, dlqID) {| dr_DeliveryID := deliveryID; dr_EventID := dl_EventID row; dr_Body := dl_Body row;
                                     dr_SafeError := safeError; dr_DeadAt := now; dr_ReplayedAt := None |}.

Definition finished_attempt (now : Z) (statusCode : option Z) (safeError : string) (a : WebhookAttemptRow) : WebhookAttemptRow := {|
  wa_StartedAt := wa_StartedAt a; wa_FinishedAt := Some now; wa_StatusCode := statusCode; wa_SafeError := safeError |}.

(** [updated_delivery]; [revoked] says the endpoint is no longer active. *)
Definition completed_row (revoked succeeded dead : bool) (next now : Z) (row : DeliveryRow) : DeliveryRow := {|
  dl_EndpointID := dl_EndpointID row; dl_EventID := dl_EventID row; dl_Body := dl_Body row;
  dl_State := if revoked then Dead else if succeeded then Succeeded else if dead then Dead else Pending;
  dl_AttemptCount := dl_AttemptCount row; dl_CycleAttemptCount := dl_CycleAttemptCount row;
  dl_AvailableAt := if revoked || succeeded || dead then dl_AvailableAt row else next;
  dl_ClaimedBy := None; dl_ClaimExpiresAt := None;
  dl_CompletedAt := if revoked || succeeded || dead then Some now else None;
  dl_ClaimToken := dl_ClaimToken row; dl_Generation := dl_Generation row; dl_HTTPStartedAt := dl_HTTPStartedAt row |}.

Definition complete_attempt (r : AttemptResult) (next : Z) (dlqID : string) (now : Z) (s : WebhookDb) : result (WebhookDb * unit) :=
  let t := ar_TenantID r in
  let lost := Err [ErrText "webhook delivery claim lost"] in
  match deliveries s !! (t, ar_DeliveryID r) with
  | None => lost
  | Some row =>
    match endpoints s !! (t, dl_EndpointID row), webhook_attempts s !! (t, ar_DeliveryID r, dl_AttemptCount row) with
    | Some e, Some a =>
      if claim_matches row (ar_OwnerID r) (ar_ClaimToken r) && (dl_CycleAttemptCount row =? ar_Attempt r) then
        let revoked := negb (ep_Active e) in
        let safeError := if revoked then "endpoint revoked" else ar_SafeError r in
        let statusCode := if ar_StatusCode r =? 0 then None else Some (ar_StatusCode r) in
        let! dlq' := if ar_Dead r || revoked then insert_dlq t dlqID (ar_DeliveryID r) row safeError now (dlq s)
                     else Ok (dlq s) in
        Ok (set_dlq dlq'
              (set_webhook_attempts (<[(t, ar_DeliveryID r, dl_AttemptCount row) := finished_attempt now statusCode safeError a]> (webhook_attempts s))
              (set_deliveries (<[(t, ar_DeliveryID r) := completed_row revoked (ar_Succeeded r) (ar_Dead r) next now row]> (deliveries s)) s)), tt)
      else lost
    | _, _ => lost
    end
  end.

(** [wall] is [time.Now] of the process. *)
Definition Repository_CompleteAttempt (r : AttemptResult) (wall : Z) (dlqID : string) (now : Z) (s : WebhookDb)
    : WebhookDb * result unit :=
  if (ar_TenantID r =s "") || (ar_DeliveryID r =s "") || (ar_Attempt r <? 1) || (ar_OwnerID r =s "") ||
     (len (ar_OwnerID r) >? 256) || (ar_ClaimToken r =? 0) || (len (ar_SafeError r) >? 1024)
  then (s, Err [ErrInvalidWorker])
  else inTenant (ar_TenantID r) (fun s =>
    let next := if time_IsZero (ar_NextAvailableAt r) then wall else ar_NextAvailableAt r in
    complete_attempt r (pg_timestamp next) dlqID now s) s.

(** ** Replay and revocation *)

Definition replayed_row (now : Z) (row : DeliveryRow) : DeliveryRow := {|
  dl_EndpointID := dl_EndpointID row; dl_EventID := dl_EventID row; dl_Body := dl_Body row; dl_State := Pending;
  dl_AttemptCount := dl_AttemptCount row; dl_CycleAttemptCount := 0; dl_AvailableAt := now; dl_ClaimedBy := None;
  dl_ClaimExpiresAt := None; dl_CompletedAt := None; dl_ClaimToken := dl_ClaimToken row + 1;
  dl_Generation := dl_Generation row; dl_HTTPStartedAt := dl_HTTPStartedAt row |}.

Definition mark_replayed (now : Z) (d : DLQRow) : DLQRow := {|
  dr_DeliveryID := dr_DeliveryID d; dr_EventID := dr_EventID d; dr_Body := dr_Body d; dr_SafeError := dr_SafeError d;
  dr_DeadAt := dr_DeadAt d; dr_ReplayedAt := Some now |}.

Definition Repository_ReplayDLQ (t : tenant) (dlqID : string) (now : Z) (s : WebhookDb) : WebhookDb * result unit :=
  if (t =s "") || (dlqID =s "") then (s, Err [ErrInvalidEndpoint])
  else inTenant t (fun s =>
    match dlq s !! (t, dlqID) with
    | None => Err [ErrInvalidEndpoint]
    | Some d =>
      match deliveries s !! (t, dr_DeliveryID d) with
      | None => Err [ErrInvalidEndpoint]
      | Some row =>
        match endpoints s !! (t, dl_EndpointID row) with
        | None => Err [ErrInvalidEndpoint]
        | Some e =>
          if bool_decide (dr_ReplayedAt d = None) && ep_Active e then
            Ok (set_dlq (<[(t, dlqID) := mark_replayed now d]> (dlq s))
                  (set_deliveries (<[(t, dr_DeliveryID d) := replayed_row now row]> (deliveries s)) s), tt)
          else Err [ErrInvalidEndpoint]
        end
      end
    end) s.

(** [locked_deliveries]: queued work of the endpoint, and work whose request is not
    known to be on the wire any more. *)
Definition revocable (endpointID : string) (now : Z) (row : DeliveryRow) : bool :=
  (dl_EndpointID row =s endpointID) &&
  (bool_decide (dl_State row = Pending) || bool_decide (dl_State row = Delivering)) &&
  (bool_decide (dl_HTTPStartedAt row = None) ||
   match dl_ClaimExpiresAt row with Some e => e <=? now | None => false end).

Definition revoked_row (now : Z) (row : DeliveryRow) : DeliveryRow := {|
  dl_EndpointID := dl_EndpointID row; dl_EventID := dl_EventID row; dl_Body := dl_Body row; dl_State := Dead;
  dl_AttemptCount := dl_AttemptCount row; dl_CycleAttemptCount := dl_CycleAttemptCount row;
  dl_AvailableAt := dl_AvailableAt row; dl_ClaimedBy := None; dl_ClaimExpiresAt := None; dl_CompletedAt := Some now;
  dl_ClaimToken := dl_ClaimToken row + 1; dl_Generation := dl_Generation row; dl_HTTPStartedAt := dl_HTTPStartedAt row |}.

Definition on_wire (endpointID : string) (now : Z) (row : DeliveryRow) : bool :=
  (dl_EndpointID row =s endpointID) && bool_decide (dl_State row = Delivering) &&
  negb (bool_decide (dl_HTTPStartedAt row = None)) && unexpired row now.

Fixpoint revoke_each (t : tenant) (now : Z) (rows : list (string * DeliveryRow)) (s : WebhookDb) : result WebhookDb :=
  match rows with
  | [] => Ok s
  | (deliveryID, row) :: rest =>
    let attempts' := match webhook_attempts s !! (t, deliveryID, dl_AttemptCount row) with
      | Some a => if bool_decide (wa_FinishedAt a = None)
                  then <[(t, deliveryID, dl_AttemptCount row) := finished_attempt now (wa_StatusCode a) "endpoint revoked" a]> (webhook_attempts s)
                  else webhook_attempts s
      | None => webhook_attempts s
      end in
    let! dlq' := insert_dlq t (deliveryID +:+ ":revoked") deliveryID row "endpoint revoked" now (dlq s) in
    revoke_each t now rest
      (set_dlq dlq' (set_webhook_attempts attempts'
        (set_deliveries (<[(t, deliveryID) := revoked_row now row]> (deliveries s)) s)))
  end.

Definition tenant_deliveries (s : WebhookDb) (t : tenant) (p : DeliveryRow -> bool) : list (string * DeliveryRow) :=
  (fun d => (d.1.2, d.2)) <$> List.filter (fun d => (d.1.1 =s t) && p d.2) (map_to_list (deliveries s)).

Definition deactivate (row : EndpointRow) : EndpointRow := {|
  ep_Destination := ep_Destination row; ep_KeyID := ep_KeyID row; ep_Secret := ep_Secret row; ep_Previous := ep_Previous row;
  ep_Active := false; ep_CreatedAt := ep_CreatedAt row;
  ep_Generation := if ep_Active row then ep_Generation row + 1 else ep_Generation row |}.

(** The result says whether a request may still be on the wire. *)
Definition Repository_DeleteEndpoint (t : tenant) (endpointID : string) (now : Z) (s : WebhookDb) : WebhookDb * result bool :=
  if (t =s "") || (endpointID =s "") then (s, Err [ErrInvalidEndpoint])
  else inTenant t (fun s =>
    match endpoints s !! (t, endpointID) with
    | None => Err [ErrInvalidEndpoint]
    | Some e =>
      let! s1 := revoke_each t now (tenant_deliveries s t (revocable endpointID now)) s in
      Ok (set_endpoints (<[(t, endpointID) := deactivate e]> (endpoints s1)) s1,
          negb (is_nil (tenant_deliveries s t (on_wire endpointID now))))
    end) s.

(** ** Kafka *)

Definition kafka_delivery (t : tenant) (eventID : string) (event : EventRow) : KafkaDeliveryRow := {|
  kd_EventID := eventID; kd_Topic := DefaultEventsTopic;
  kd_PartitionKey := t +:+ ":" +:+ default "" (Store.er_ConnectionID event) +:+ ":" +:+ Store.er_ConversationID event;
  kd_AttemptCount := 0; kd_State := "pending"; kd_PublishedAt := None |}.

Definition has_kafka_delivery (s : WebhookDb) (t : tenant) (eventID : string) : bool :=
  existsb (fun p => (p.1.1 =s t) && (kd_EventID p.2 =s eventID) && (kd_Topic p.2 =s DefaultEventsTopic))
    (map_to_list (kafka_deliveries s)).

(** materializeKafkaEventsSQL *)
Fixpoint materialize_kafka (t : tenant) (eventIDs : list string) (s : WebhookDb) : result WebhookDb :=
  match eventIDs with
  | [] => Ok s
  | eventID :: rest =>
    match events (base s) !! (t, eventID) with
    | None => materialize_kafka t rest s
    | Some event =>
      if has_kafka_delivery s t eventID then materialize_kafka t rest s
      else
        let! rows := insert_unique (kafka_deliveries s) (t, eventID +:+ ":kafka") (kafka_delivery t eventID event) in
        materialize_kafka t rest (set_kafka_deliveries rows s)
    end
  end.

Definition claim_outbox_row (owner : string) (now : Z) (row : OutboxRow) : OutboxRow := {|
  ob_EventID := ob_EventID row; ob_Destination := ob_Destination row; ob_AvailableAt := ob_AvailableAt row;
  ob_ClaimedBy := Some owner; ob_ClaimExpiresAt := Some (now + ClaimInterval);
  ob_AttemptCount := ob_AttemptCount row + 1; ob_PublishedAt := ob_PublishedAt row |}.

Definition publishing_row (row : KafkaDeliveryRow) : KafkaDeliveryRow := {|
  kd_EventID := kd_EventID row; kd_Topic := kd_Topic row; kd_PartitionKey := kd_PartitionKey row;
  kd_AttemptCount := kd_AttemptCount row + 1; kd_State := "publishing"; kd_PublishedAt := kd_PublishedAt row |}.

Definition outbox_event (t : tenant) (eventID : string) (event : EventRow) : OutboxEvent := {|
  ke_EventID := eventID; ke_TenantID := t; ke_ConnectionID := default "" (Store.er_ConnectionID event);
  ke_ConversationID := Store.er_ConversationID event; ke_CanonicalBody := er_Body event |}.

(** claimKafkaEventsSQL: the claimed outbox rows, their deliveries, and the events
    in the order of their identifiers. *)
Definition claim_kafka (t : tenant) (owner : string) (limit now : Z) (s : WebhookDb) : WebhookDb * list OutboxEvent :=
  let locked := locked_outbox s t "kafka" limit now in
  let claimed := (fun o => ob_EventID o.2) <$> locked in
  let outbox' := map_imap (fun k row =>
    Some (if (k.1 =s t) && bool_decide (k.2 ∈ fst <$> locked) then claim_outbox_row owner now row else row)) (outbox (base s)) in
  let delivered p := (p.1.1 =s t) && bool_decide (kd_EventID p.2 ∈ claimed) && (kd_Topic p.2 =s DefaultEventsTopic) in
  let rows := map_imap (fun k row => Some (if delivered (k, row) then publishing_row row else row)) (kafka_deliveries s) in
  let ids := merge_sort String.le ((fun p => kd_EventID p.2) <$> List.filter delivered (map_to_list (kafka_deliveries s))) in
  (set_kafka_deliveries rows (set_base (set_outbox outbox' (base s)) s),
   omap (fun eventID => outbox_event t eventID <$> events (base s) !! (t, eventID)) ids).

Definition Repository_ClaimEvents (t : tenant) (owner : string) (limit now : Z) (s : WebhookDb)
    : WebhookDb * result (list OutboxEvent) :=
  if (t =s "") || (owner =s "") || (len owner >? 256) || (limit <? 1) || (limit >? 256) then (s, Err [ErrInvalidOutboxWorker])
  else inTenant t (fun s =>
    let! s1 := materialize_kafka t ((fun o => ob_EventID o.2) <$> locked_outbox s t "kafka" limit now) s in
    Ok (claim_kafka t owner limit now s1)) s.

Definition published_row (now : Z) (row : KafkaDeliveryRow) : KafkaDeliveryRow := {|
  kd_EventID := kd_EventID row; kd_Topic := kd_Topic row; kd_PartitionKey := kd_PartitionKey row;
  kd_AttemptCount := kd_AttemptCount row; kd_State := "published"; kd_PublishedAt := Some now |}.

(** markKafkaEventPublishedSQL *)
Definition Repository_MarkPublished (t : tenant) (eventID : string) (now : Z) (s : WebhookDb) : WebhookDb * result unit :=
  if (t =s "") || (eventID =s "") then (s, Err [ErrInvalidOutboxWorker])
  else inTenant t (fun s =>
    let open_row p := (p.1.1 =s t) && (ob_EventID p.2 =s eventID) && (ob_Destination p.2 =s "kafka") &&
                  bool_decide (ob_PublishedAt p.2 = None) in
    if existsb open_row (map_to_list (outbox (base s))) then
      let outbox' := map_imap (fun k row => Some (if open_row (k, row) then close_row now row else row)) (outbox (base s)) in
      let rows := map_imap (fun k row =>
        Some (if (k.1 =s t) && (kd_EventID row =s eventID) then published_row now row else row)) (kafka_deliveries s) in
      Ok (set_kafka_deliveries rows (set_base (set_outbox outbox' (base s)) s), tt)
    else Ok (s, tt)) s.

(** The length of the printed error text [safeErrorLen] is bounded by the table;
    it is an argument, since the model keeps errors and not their texts. *)
Definition Repository_StoreDLQ (record : CommandDLQRecord) (safeErrorLen : Z) (dlqID : string) (s : WebhookDb)
    : WebhookDb * result unit :=
  if (dq_AuthorizedTenant record =s "") || (dq_Topic record =s "") || (blen (dq_OriginalPayload record) >? 2 ^ 20) ||
     (safeErrorLen =? 0) || (safeErrorLen >? 1024) || (len (dq_CorrelationID record) >? 256)
  then (s, Err [ErrInvalidConsumer])
  else inTenant (dq_AuthorizedTenant record) (fun s =>
    let t := dq_AuthorizedTenant record in
    if existsb (fun p => (p.1.1 =s t) && (cr_Topic p.2 =s dq_Topic record) && (cr_Partition p.2 =? dq_Partition record) &&
                         (cr_Offset p.2 =? dq_Offset record)) (map_to_list (command_dlq s))
    then Ok (s, tt)
    else
      let! _ := foreign_key (bool_decide (is_Some (tenants (base s) !! t))) in
      let! rows := insert_unique (command_dlq s) (t, dlqID)
        {| cr_Topic := dq_Topic record; cr_Partition := dq_Partition record; cr_Offset := dq_Offset record;
           cr_Payload := dq_OriginalPayload record; cr_SafeError := dq_SafeError record;
           cr_CorrelationID := dq_CorrelationID record |} in
      Ok (set_command_dlq rows s, tt)) s.

(** ** Every operation of the store *)

(** [OpOther] stands for the operations on the other tables. *)
Inductive DeliveryOp :=
| OpCreateEndpoint (endpoint : Endpoint) (secret : Session.Envelope) (maxEndpoints : Z)
| OpRotateEndpoint (rotation : EndpointRotation)
| OpPurgeExpiredSecrets (t : tenant) (now : Z)
| OpClaim (t : tenant) (owner : string) (limit now : Z)
| OpAdmitClaim (delivery : Delivery) (now : Z)
| OpRenewClaim (t : tenant) (deliveryID owner : string) (token now : Z)
| OpCompleteAttempt (r : AttemptResult) (wall : Z) (dlqID : string) (now : Z)
| OpReplayDLQ (t : tenant) (dlqID : string) (now : Z)
| OpDeleteEndpoint (t : tenant) (endpointID : string) (now : Z)
| OpClaimEvents (t : tenant) (owner : string) (limit now : Z)
| OpMarkPublished (t : tenant) (eventID : string) (now : Z)
| OpStoreDLQ (record : CommandDLQRecord) (safeErrorLen : Z) (dlqID : string)
| OpOther (b : Db).

Definition apply_op (s : WebhookDb) (op : DeliveryOp) : WebhookDb :=
  match op with
  | OpCreateEndpoint endpoint secret m => (Repository_CreateEndpoint endpoint secret m s).1
  | OpRotateEndpoint rotation => (Repository_RotateEndpoint rotation s).1
  | OpPurgeExpiredSecrets t now => (Repository_PurgeExpiredSecrets t now s).1
  | OpClaim t owner limit now => (Repository_Claim t owner limit now s).1
  | OpAdmitClaim delivery now => (Repository_AdmitClaim delivery now s).1
  | OpRenewClaim t id owner token now => (Repository_RenewClaim t id owner token now s).1
  | OpCompleteAttempt r wall id now => (Repository_CompleteAttempt r wall id now s).1
  | OpReplayDLQ t id now => (Repository_ReplayDLQ t id now s).1
  | OpDeleteEndpoint t id now => (Repository_DeleteEndpoint t id now s).1
  | OpClaimEvents t owner limit now => (Repository_ClaimEvents t owner limit now s).1
  | OpMarkPublished t id now => (Repository_MarkPublished t id now s).1
  | OpStoreDLQ record n id => (Repository_StoreDLQ record n id s).1
  | OpOther b => set_base b s
  end.

Definition run_ops (ops : list DeliveryOp) (s : WebhookDb) : WebhookDb := fold_left apply_op ops s.
