(* ===== verification/DeliveryFencing.v ===== *)
(** * What the delivery store guarantees

    Theorems about the operations of [Delivery]: a row only moves forward and
    keeps its identity, so admissions are fenced by the claim token; fan-out
    closes an event only when every active endpoint has its delivery; and what a
    revocation and a replay leave behind. *)

From S2P Require Import Prelude GoText Crypto GoEncoding Domain Messaging Session EventContract Store Kafka Webhook Delivery.

(** ** Rows only move forward

    A row keeps its endpoint, event and body; its claim token never decreases, and
    under one token a started request stays started. *)

Definition row_advances (r r' : DeliveryRow) : Prop :=
  (dl_EndpointID r', dl_EventID r', dl_Body r') = (dl_EndpointID r, dl_EventID r, dl_Body r) /\
  dl_ClaimToken r <= dl_ClaimToken r' /\
  (dl_ClaimToken r = dl_ClaimToken r' -> dl_HTTPStartedAt r <> None -> dl_HTTPStartedAt r' <> None).

#[export] Instance row_advances_preorder : PreOrder row_advances.
Proof.
  split.
  - intros r. split_and!; [done | lia | done].
  - intros a b c (Ha & Hab & Hab') (Hb & Hbc & Hbc'). split_and!; [congruence | lia |].
    intros. apply Hbc'; [lia|]. apply Hab'; [lia | done].
Qed.

Definition rows_advance (m m' : gmap (string * string) DeliveryRow) : Prop :=
  forall k row, m !! k = Some row -> exists row', m' !! k = Some row' /\ row_advances row row'.

#[export] Instance rows_advance_preorder : PreOrder rows_advance.
Proof.
  split.
  - intros m k row Hk. exists row. split; [done | reflexivity].
  - intros a b c Hab Hbc k row Hk. destruct (Hab _ _ Hk) as (row1 & Hk1 & H1).
    destruct (Hbc _ _ Hk1) as (row2 & Hk2 & H2). exists row2. split; [done|]. by transitivity row1.
Qed.

Lemma rows_advance_update m k row row' :
  m !! k = Some row -> row_advances row row' -> rows_advance m (<[k := row']> m).
Proof.
  intros Hk Hr k0 row0 Hk0. destruct (decide (k0 = k)) as [->|].
  - exists row'. rewrite lookup_insert_eq. split; [done|]. by simplify_eq.
  - exists row0. rewrite lookup_insert_ne by done. split; [done | reflexivity].
Qed.

Lemma rows_advance_fresh m k row : m !! k = None -> rows_advance m (<[k := row]> m).
Proof.
  intros Hk k0 row0 Hk0. exists row0. rewrite lookup_insert_ne by congruence. split; [done | reflexivity].
Qed.

Lemma materialize_spec t now pairs s s' :
  materialize t now pairs s = Ok s' ->
  deliveries s ⊆ deliveries s' /\ endpoints s' = endpoints s /\ webhook_attempts s' = webhook_attempts s /\
  dlq s' = dlq s /\ base s' = base s.
Proof.
  revert s. induction pairs as [|[[[ev body] ep] gen] rest IH]; intros s; cbn [materialize].
  { by intros [= ->]. }
  destruct (has_delivery s t ep ev); [by apply IH|]. intros H.
  apply result_bind_ok in H as (rows & (Hnone & ->)%insert_unique_ok & H).
  apply IH in H as (Hsub & He & Ha & Hd & Hb). cbn in *. split_and!; [|done..].
  etrans; [|exact Hsub]. by apply insert_subseteq.
Qed.

Lemma claim_each_spec t owner now candidates s s' ds :
  NoDup (fst <$> candidates) ->
  Forall (fun c => deliveries s !! (t, c.1) = Some c.2) candidates ->
  claim_each t owner now candidates s = Ok (s', ds) ->
  rows_advance (deliveries s) (deliveries s') /\
  endpoints s' = endpoints s /\ base s' = base s /\ dlq s' = dlq s /\
  Forall (fun d => exists row e, (wd_DeliveryID d, row) ∈ candidates /\
     endpoints s !! (t, dl_EndpointID row) = Some e /\
     d = claim_delivery t (wd_DeliveryID d) e (claimed_row owner (ep_Generation e) now row) /\
     deliveries s' !! (t, wd_DeliveryID d) = Some (claimed_row owner (ep_Generation e) now row)) ds /\
  (forall k, (forall c, c ∈ candidates -> k <> (t, c.1)) -> deliveries s' !! k = deliveries s !! k) /\
  (forall k row, deliveries s !! k = Some row -> k ∉ delivery_key <$> ds -> deliveries s' !! k = Some row).
Proof.
  revert s s' ds. induction candidates as [|[id row] rest IH]; intros s s' ds Hnd Hrows; cbn [claim_each].
  { intros [= -> <-]. split_and!; [reflexivity | done..]. }
  rewrite fmap_cons in Hnd. apply NoDup_cons in Hnd as [Hnotin Hnd]. apply Forall_cons in Hrows as [Hrow Hrows].
  cbn in Hrow, Hnotin.
  destruct (endpoints s !! (t, dl_EndpointID row)) as [e|] eqn:He.
  2:{ intros H. apply IH in H as (H1 & H2 & H3 & H4 & H5 & H6 & H7); [|done..]. split_and!; [done..| | |done].
      - eapply Forall_impl; [exact H5|]. cbn. intros d (r & e & Hin & Hrest). exists r, e. set_solver.
      - intros k Hk. apply H6. set_solver. }
  intros H. apply result_bind_ok in H as (atts & _ & H).
  apply result_bind_ok in H as ([s1 ds1] & Hrec & [= <- <-]). cbn [fst snd].
  set (row' := claimed_row owner (ep_Generation e) now row) in *.
  apply IH in Hrec as (H1 & H2 & H3 & H4 & H5 & H6 & H7); [|done|].
  2:{ apply Forall_forall. intros c Hc. cbn. rewrite lookup_insert_ne.
      - by apply (proj1 (Forall_forall _ _) Hrows).
      - intros [= Heq]. apply Hnotin. rewrite Heq. by apply list_elem_of_fmap_2. }
  cbn in *. split_and!; [|done..| | |].
  - transitivity (<[(t, id) := row']> (deliveries s)); [|done]. eapply rows_advance_update; [done|].
    split_and!; cbn; [done | lia | intros ?; lia].
  - constructor.
    + exists row, e. cbn. split_and!; [set_solver | done | done |].
      rewrite H6; [by rewrite lookup_insert_eq|]. intros c Hc [= Heq]. apply Hnotin. rewrite Heq. by apply list_elem_of_fmap_2.
    + eapply Forall_impl; [exact H5|]. cbn. intros d (r & e' & Hin & Hrest). exists r, e'. set_solver.
  - intros k Hk. rewrite H6 by set_solver. rewrite lookup_insert_ne; [done|]. intros <-. by apply (Hk (id, row)); [set_solver|].
  - intros k row0 Hk Hni. apply H7; [|set_solver]. rewrite lookup_insert_ne; [done|]. set_solver.
Qed.

Lemma tenant_rows_spec {V} (m : gmap (string * string) V) (t : string) (p : V -> bool) :
  let l := (fun q => (q.1.2, q.2)) <$> List.filter (fun q => (q.1.1 =s t) && p q.2) (map_to_list m) in
  NoDup (fst <$> l) /\ forall id row, (id, row) ∈ l <-> m !! (t, id) = Some row /\ p row = true.
Proof.
  cbn. split.
  - rewrite <- list_fmap_compose. pose proof (NoDup_fst_map_to_list m) as Hnd.
    induction (map_to_list m) as [|[[t' id] row] l IH]; [constructor|]. rewrite fmap_cons in Hnd.
    apply NoDup_cons in Hnd as [Hni Hnd]. cbn. destruct ((t' =s t) && p row) eqn:E; [|by apply IH].
    cbn. constructor; [|by apply IH]. reflect_bools. subst t'.
    intros ([[t' id'] row'] & Heq & Hin)%list_elem_of_fmap. cbn in Heq. subst id'.
    apply list_elem_of_In, filter_In in Hin as [Hin Hc]. cbn in Hc. reflect_bools. subst t'.
    apply Hni. apply list_elem_of_fmap. exists ((t, id), row'). split; [done|]. by apply list_elem_of_In.
  - intros id row. rewrite list_elem_of_fmap. split.
    + intros ([[t' id'] row'] & [= -> ->] & Hin). apply list_elem_of_In, filter_In in Hin as [Hin Hc].
      cbn in Hc. reflect_bools. subst t'. split; [|done]. by apply elem_of_map_to_list, list_elem_of_In.
    + intros [Hl Hp]. exists ((t, id), row). split; [done|]. apply list_elem_of_In, filter_In.
      split; [by apply list_elem_of_In, elem_of_map_to_list|]. cbn. by rewrite String.eqb_refl, Hp.
Qed.

Lemma claim_candidates_spec s t limit now :
  NoDup (fst <$> claim_candidates s t limit now) /\
  forall id row, (id, row) ∈ claim_candidates s t limit now ->
    deliveries s !! (t, id) = Some row /\ claimable s t now row = true.
Proof.
  unfold claim_candidates.
  destruct (tenant_rows_spec (deliveries s) t (claimable s t now)) as [Hnd Hin].
  set (l := _ <$> List.filter _ _) in *. set (l' := merge_sort delivery_le l).
  assert (l' ≡ₚ l) as Hp by apply merge_sort_Permutation. split.
  - rewrite fmap_take. apply (sublist_NoDup _ (fst <$> l')); [|apply sublist_take]. by rewrite Hp.
  - intros id row H. apply Hin. rewrite <- Hp. apply elem_of_take in H as (i & Hi & _).
    by eapply list_elem_of_lookup_2.
Qed.

(** One pass: rows advance, the granted deliveries are claimable ones under a new
    token, and every other row stays. *)
Definition granted (t : tenant) (owner : string) (now : Z) (s s' : WebhookDb) (d : Delivery) : Prop :=
  exists row e, deliveries s !! (t, wd_DeliveryID d) = Some row /\ claimable s t now row = true /\
    endpoints s !! (t, dl_EndpointID row) = Some e /\
    wd_TenantID d = t /\ wd_OwnerID d = owner /\ wd_EndpointID d = dl_EndpointID row /\
    wd_EventID d = dl_EventID row /\ wd_CanonicalBody d = dl_Body row /\
    wd_ClaimToken d = dl_ClaimToken row + 1 /\ wd_Attempt d = dl_CycleAttemptCount row + 1 /\
    wd_EndpointGeneration d = ep_Generation e /\
    deliveries s' !! (t, wd_DeliveryID d) = Some (claimed_row owner (ep_Generation e) now row).

Lemma purge_expired_lookup t now m k :
  purge_expired t now m !! k = (fun row => if k.1 =s t then purge_previous now row else row) <$> m !! k.
Proof. unfold purge_expired. rewrite map_lookup_imap. by destruct (m !! k). Qed.

Lemma purge_previous_same now row :
  ep_Active (purge_previous now row) = ep_Active row /\ ep_Generation (purge_previous now row) = ep_Generation row.
Proof. unfold purge_previous. destruct (ep_Previous row) as [[[]]|]; [|done]. by destruct (_ <=? now). Qed.

Lemma claim_pass_spec t owner limit now s s' ds :
  claim_pass t owner limit now s = Ok (s', ds) ->
  rows_advance (deliveries s) (deliveries s') /\ dlq s' = dlq s /\
  Forall (granted t owner now s s') ds /\
  (forall k row, deliveries s !! k = Some row -> k ∉ delivery_key <$> ds -> deliveries s' !! k = Some row).
Proof.
  unfold claim_pass. intros H. apply result_bind_ok in H as (s1 & Hm & H).
  apply materialize_spec in Hm as (Hsub & He & _ & Hdlq & _).
  destruct (claim_candidates_spec s t limit now) as [Hnd Hc].
  apply claim_each_spec in H as (Hadv & _ & _ & Hd & Hds & _ & Hkeep); [|done|].
  2:{ apply Forall_forall. intros [id row] Hin. destruct (Hc _ _ Hin) as [Hl _]. cbn.
      eapply lookup_weaken; [exact Hl | done]. }
  cbn in *. split_and!.
  - transitivity (deliveries s1); [|done]. intros k row Hk. exists row.
    split; [by eapply lookup_weaken | reflexivity].
  - congruence.
  - eapply Forall_impl; [exact Hds|]. cbn. intros d (row & e & Hin & Hep & Hd' & Hl).
    destruct (Hc _ _ Hin) as [Hrow Hcl]. rewrite purge_expired_lookup, He in Hep.
    destruct (endpoints s !! (t, dl_EndpointID row)) as [e0|] eqn:Ee0; [|done]. cbn in Hep.
    rewrite String.eqb_refl in Hep. injection Hep as <-. exists row, e0.
    rewrite (proj2 (purge_previous_same now e0)) in *.
    rewrite Hd'. cbn. split_and!; done.
  - intros k row Hk Hni. apply Hkeep; [by eapply lookup_weaken | done].
Qed.

Lemma held_not_claimable s t now row :
  held (dl_ClaimedBy row) (dl_ClaimExpiresAt row) now = true -> claimable s t now row = false.
Proof. intros H. unfold claimable. rewrite H. cbn. by rewrite !andb_false_r. Qed.

Lemma Claim_spec t owner limit now s s' r :
  Repository_Claim t owner limit now s = (s', r) ->
  rows_advance (deliveries s) (deliveries s') /\ dlq s' = dlq s /\
  forall ds, r = Ok ds ->
    (exists s1, deliveries s ⊆ deliveries s1 /\ Forall (granted t owner now s1 s') ds) /\
    (forall k row, deliveries s !! k = Some row -> k ∉ delivery_key <$> ds -> deliveries s' !! k = Some row).
Proof.
  unfold Repository_Claim. destruct (_ || _); [intros [= <- <-]; split_and!; [reflexivity | done | done]|].
  intros H. apply inTenant_cases in H as [(-> & e & ->)|(ds & -> & H)]; [split_and!; [reflexivity | done | done]|].
  apply result_bind_ok in H as ([s1 ds1] & H1 & H). cbn in H.
  apply claim_pass_spec in H1 as (Ha1 & Hd1 & Hg1 & Hk1).
  destruct ds1 as [|d1 ds1]; cbn in H.
  - apply claim_pass_spec in H as (Ha2 & Hd2 & Hg2 & Hk2). split_and!.
    + by transitivity (deliveries s1).
    + congruence.
    + intros ds' [= <-]. assert (deliveries s ⊆ deliveries s1) as Hsub.
      { apply map_subseteq_spec. intros k row Hk. apply Hk1; [done | set_solver]. }
      split; [by exists s1|]. intros k row Hk Hni. apply Hk2; [by eapply lookup_weaken | done].
  - injection H as <- <-. split_and!; [done..|]. intros ds' [= <-]. split; [by exists s | done].
Qed.

Lemma AdmitClaim_spec d now s s' r :
  Repository_AdmitClaim d now s = (s', r) ->
  (s' = s /\ r <> Ok true) \/
  (r = Ok true /\ exists row, deliveries s !! delivery_key d = Some row /\ admissible s d now row = true /\
     s' = set_deliveries (<[delivery_key d := admitted_row now row]> (deliveries s)) s).
Proof.
  unfold Repository_AdmitClaim, delivery_key. destruct (_ || _); [intros [= <- <-]; by left|]. intros H.
  apply inTenant_cases in H as [(-> & e & ->)|(b & -> & H)]; [by left|].
  destruct (deliveries s !! (wd_TenantID d, wd_DeliveryID d)) as [row|] eqn:Hl; [|injection H as <- <-; by left].
  destruct (admissible s d now row) eqn:Ha; injection H as <- <-; [|by left].
  right. split; [done|]. by exists row.
Qed.

Lemma admissible_token s d now row :
  admissible s d now row = true -> dl_ClaimToken row = wd_ClaimToken d /\ dl_HTTPStartedAt row = None.
Proof. unfold admissible, claim_matches. intros H. reflect_bools. done. Qed.

Lemma AdmitClaim_advances d now s : rows_advance (deliveries s) (deliveries (Repository_AdmitClaim d now s).1).
Proof.
  destruct (Repository_AdmitClaim d now s) as [s' r] eqn:E.
  apply AdmitClaim_spec in E as [[-> _]|(_ & row & Hl & Ha & ->)]; [reflexivity|].
  cbn. eapply rows_advance_update; [done|]. by split_and!; cbn; [done | lia |].
Qed.

Lemma RenewClaim_advances t id owner token now s :
  rows_advance (deliveries s) (deliveries (Repository_RenewClaim t id owner token now s).1).
Proof.
  destruct (Repository_RenewClaim t id owner token now s) as [s' r] eqn:E. unfold Repository_RenewClaim in E.
  destruct (_ || _) in E; [injection E as <- <-; reflexivity|].
  apply inTenant_cases in E as [(-> & e & ->)|(b & -> & H)]; [reflexivity|].
  destruct (deliveries s !! (t, id)) as [row|] eqn:Hl; [|injection H as <- <-; reflexivity].
  destruct (_ && _) in H; injection H as <- <-; [|reflexivity].
  cbn. eapply rows_advance_update; [done|]. by split_and!; cbn; [done | lia |].
Qed.

Lemma CompleteAttempt_advances r wall id now s :
  rows_advance (deliveries s) (deliveries (Repository_CompleteAttempt r wall id now s).1).
Proof.
  destruct (Repository_CompleteAttempt r wall id now s) as [s' res] eqn:E. unfold Repository_CompleteAttempt in E.
  destruct (_ || _) in E; [injection E as <- <-; reflexivity|].
  apply inTenant_cases in E as [(-> & e & ->)|([] & -> & H)]; [reflexivity|]. unfold complete_attempt in H.
  destruct (deliveries s !! (ar_TenantID r, ar_DeliveryID r)) as [row|] eqn:Hl; [|done].
  destruct (endpoints s !! _) as [e|]; [|done]. destruct (webhook_attempts s !! _) as [a|]; [|done].
  destruct (_ && _) in H; [|done]. apply result_bind_ok in H as (dlq' & _ & [= <-]).
  cbn. eapply rows_advance_update; [done|]. by split_and!; cbn; [done | lia |].
Qed.

Lemma ReplayDLQ_advances t id now s : rows_advance (deliveries s) (deliveries (Repository_ReplayDLQ t id now s).1).
Proof.
  destruct (Repository_ReplayDLQ t id now s) as [s' res] eqn:E. unfold Repository_ReplayDLQ in E.
  destruct (_ || _) in E; [injection E as <- <-; reflexivity|].
  apply inTenant_cases in E as [(-> & e & ->)|([] & -> & H)]; [reflexivity|].
  destruct (dlq s !! (t, id)) as [d|]; [|done]. destruct (deliveries s !! _) as [row|] eqn:Hl; [|done].
  destruct (endpoints s !! _) as [e|]; [|done]. destruct (_ && _) in H; [|done]. injection H as <-.
  cbn. eapply rows_advance_update; [done|]. split_and!; cbn; [done | lia | intros ?; lia].
Qed.

Lemma revoke_each_spec t now rows s s' :
  NoDup (fst <$> rows) -> Forall (fun c => deliveries s !! (t, c.1) = Some c.2) rows ->
  revoke_each t now rows s = Ok s' ->
  rows_advance (deliveries s) (deliveries s') /\ endpoints s' = endpoints s /\
  (forall k, (forall c, c ∈ rows -> k <> (t, c.1)) -> deliveries s' !! k = deliveries s !! k).
Proof.
  revert s. induction rows as [|[id row] rest IH]; intros s Hnd Hrows; cbn [revoke_each].
  { intros [= ->]. split_and!; [reflexivity | done..]. }
  rewrite fmap_cons in Hnd. apply NoDup_cons in Hnd as [Hnotin Hnd]. apply Forall_cons in Hrows as [Hrow Hrows].
  cbn in Hrow, Hnotin. intros H. apply result_bind_ok in H as (dlq' & _ & H).
  assert (forall c, c ∈ rest -> id <> c.1) as Hne.
  { intros c Hc ->. apply Hnotin. by apply list_elem_of_fmap_2. }
  apply IH in H as (H1 & H2 & H3); [|done|].
  2:{ apply Forall_forall. intros c Hc. cbn. rewrite lookup_insert_ne.
      - by apply (proj1 (Forall_forall _ _) Hrows).
      - intros [= Heq]. by apply (Hne c). }
  cbn in *. split_and!; [|done|].
  - transitivity (<[(t, id) := revoked_row now row]> (deliveries s)); [|done].
    eapply rows_advance_update; [done|]. split_and!; cbn; [done | lia | intros ?; lia].
  - intros k Hk. rewrite H3 by set_solver. rewrite lookup_insert_ne; [done|]. intros <-. by apply (Hk (id, row)); [set_solver|].
Qed.

Lemma DeleteEndpoint_spec t id now s s' r :
  Repository_DeleteEndpoint t id now s = (s', r) ->
  rows_advance (deliveries s) (deliveries s') /\
  (s' = s \/ forall k row, deliveries s !! k = Some row -> k.1 <> t \/ revocable id now row = false -> deliveries s' !! k = Some row).
Proof.
  unfold Repository_DeleteEndpoint. destruct (_ || _); [intros [= <- <-]; split; [reflexivity | by left]|].
  intros H. apply inTenant_cases in H as [(-> & e & ->)|(b & -> & H)]; [split; [reflexivity | by left]|].
  destruct (endpoints s !! (t, id)) as [e|]; [|done].
  apply result_bind_ok in H as (s1 & H & [= <- <-]). cbn.
  destruct (tenant_rows_spec (deliveries s) t (revocable id now)) as [Hnd Hin].
  fold (tenant_deliveries s t (revocable id now)) in Hnd, Hin.
  apply revoke_each_spec in H as (H1 & H2 & H3); [|done|].
  - split; [done|]. right. intros [t' k] row Hk Hcase. rewrite H3; [done|]. intros [id' row'] Hc [= -> ->].
    apply Hin in Hc as [Hl Hr]. rewrite Hk in Hl. injection Hl as <-. cbn in Hcase. destruct Hcase; congruence.
  - apply Forall_forall. intros [id' row'] Hc. by apply Hin in Hc as [? _].
Qed.

(** ** Every operation advances *)

(** An operation that does not touch the deliveries. *)
Lemma inTenant_frame {T U} t (op : WebhookDb -> result (WebhookDb * T)) (proj : WebhookDb -> U) s s' r :
  (forall v, op s = Ok v -> proj v.1 = proj s) -> inTenant t op s = (s', r) -> proj s' = proj s.
Proof. intros Hop H. apply inTenant_cases in H as [[-> _]|(v & _ & H)]; [done | by apply (Hop _ H)]. Qed.

Lemma materialize_kafka_deliveries t ids s s' : materialize_kafka t ids s = Ok s' -> deliveries s' = deliveries s.
Proof.
  revert s. induction ids as [|id ids IH]; intros s; cbn [materialize_kafka]; [by intros [= ->]|].
  destruct (events (base s) !! (t, id)) as [ev|]; [|by apply IH].
  destruct (has_kafka_delivery s t id); [by apply IH|]. intros H.
  by apply result_bind_ok in H as (rows & _ & ->%IH).
Qed.

Lemma apply_op_frame op s :
  match op with
  | OpCreateEndpoint _ _ _ | OpRotateEndpoint _ | OpPurgeExpiredSecrets _ _ | OpClaimEvents _ _ _ _ |
    OpMarkPublished _ _ _ | OpStoreDLQ _ _ _ | OpOther _ => deliveries (apply_op s op) = deliveries s
  | _ => True
  end.
Proof.
  destruct op; cbn [apply_op]; try exact I; [| | | | | |done].
  - unfold Repository_CreateEndpoint. destruct (_ || _); [done|].
    destruct (inTenant _ _ _) as [s' r] eqn:E. eapply inTenant_frame; [|exact E]. intros [s1 []] H.
    destruct (_ >=? _) in H; [done|]. bind_ok H. by injection H as <-.
  - unfold Repository_RotateEndpoint. destruct (_ || _); [done|].
    destruct (inTenant _ _ _) as [s' r] eqn:E. eapply inTenant_frame; [|exact E]. intros [s1 []] H.
    destruct (endpoints s !! _) as [row|]; [|done]. destruct (ep_Active row); [|done]. bind_ok H. by injection H as <-.
  - unfold Repository_PurgeExpiredSecrets. destruct (_ =s _); [done|].
    destruct (inTenant _ _ _) as [s' r] eqn:E. eapply inTenant_frame; [|exact E]. by intros [s1 []] [= <-].
  - unfold Repository_ClaimEvents. destruct (_ || _); [done|].
    destruct (inTenant _ _ _) as [s' r] eqn:E. eapply inTenant_frame; [|exact E]. intros [s1 es] H.
    apply result_bind_ok in H as (s2 & Hm%materialize_kafka_deliveries & [= <- <-]). exact Hm.
  - unfold Repository_MarkPublished. destruct (_ || _); [done|].
    destruct (inTenant _ _ _) as [s' r] eqn:E. eapply inTenant_frame; [|exact E]. intros [s1 []] H. cbn in H.
    destruct (existsb _ _) in H; by injection H as <-.
  - unfold Repository_StoreDLQ. destruct (_ || _); [done|].
    destruct (inTenant _ _ _) as [s' r] eqn:E. eapply inTenant_frame; [|exact E]. intros [s1 []] H. cbn in H.
    destruct (existsb _ _) in H; [by injection H as <-|]. bind_ok H. by injection H as <-.
Qed.

Lemma apply_op_advances op s : rows_advance (deliveries s) (deliveries (apply_op s op)).
Proof.
  pose proof (apply_op_frame op s) as Hframe.
  destruct op; try (rewrite Hframe; reflexivity); cbn [apply_op].
  - destruct (Repository_Claim t owner limit now s) as [s' r] eqn:E. by apply Claim_spec in E as [? _].
  - apply AdmitClaim_advances.
  - apply RenewClaim_advances.
  - apply CompleteAttempt_advances.
  - apply ReplayDLQ_advances.
  - destruct (Repository_DeleteEndpoint t endpointID now s) as [s' r] eqn:E. by apply DeleteEndpoint_spec in E as [? _].
Qed.

Lemma run_ops_advances ops s : rows_advance (deliveries s) (deliveries (run_ops ops s)).
Proof.
  revert s. induction ops as [|op ops IH]; intros s; [reflexivity|].
  transitivity (deliveries (apply_op s op)); [apply apply_op_advances | apply IH].
Qed.

(** Fencing of webhook requests. Once the store admitted a claim (the only time
    a request may start), then after any further operations of any workers and
    administrators: another admission of the same delivery carries a strictly newer
    claim token, so no claim is ever admitted twice; every later claim of the
    delivery hands out a strictly newer token; and while somebody holds the claim
    unexpired, nobody else is granted the delivery and its row stays. *)
Theorem admission_fenced (s s1 : WebhookDb) (d : Delivery) (now : Z) (ops : list DeliveryOp) :
  Repository_AdmitClaim d now s = (s1, Ok true) ->
  (forall d' now' s3, delivery_key d' = delivery_key d ->
     Repository_AdmitClaim d' now' (run_ops ops s1) = (s3, Ok true) -> wd_ClaimToken d < wd_ClaimToken d') /\
  (forall t owner limit now' s3 ds, Repository_Claim t owner limit now' (run_ops ops s1) = (s3, Ok ds) ->
     (forall d', d' ∈ ds -> delivery_key d' = delivery_key d -> wd_ClaimToken d < wd_ClaimToken d') /\
     (forall row, deliveries (run_ops ops s1) !! delivery_key d = Some row ->
        held (dl_ClaimedBy row) (dl_ClaimExpiresAt row) now' = true ->
        delivery_key d ∉ delivery_key <$> ds /\ deliveries s3 !! delivery_key d = Some row)).
Proof.
  intros H. apply AdmitClaim_spec in H as [[_ ?]|(_ & row & Hl & Ha & Hs1)]; [done|].
  apply admissible_token in Ha as [Htok _].
  assert (deliveries s1 !! delivery_key d = Some (admitted_row now row)) as Hl1 by (rewrite Hs1; apply lookup_insert_eq).
  destruct (run_ops_advances ops s1 _ _ Hl1) as (row2 & Hl2 & _ & Hle & Hstart). cbn in Hle, Hstart.
  set (s2 := run_ops ops s1) in *. split.
  - intros d' now' s3 Hkey H. apply AdmitClaim_spec in H as [[_ ?]|(_ & row3 & Hl3 & Ha3 & _)]; [done|].
    apply admissible_token in Ha3 as [Htok3 Hnone]. rewrite Hkey in Hl3. rewrite Hl2 in Hl3. injection Hl3 as <-.
    destruct (decide (dl_ClaimToken row = dl_ClaimToken row2)) as [Heq|]; [|lia].
    by destruct (Hstart Heq).
  - intros t owner limit now' s3 ds H. apply Claim_spec in H as (_ & _ & H).
    destruct (H ds eq_refl) as [(s2' & Hsub & Hg) Hkeep].
    assert (forall d', d' ∈ ds -> delivery_key d' = delivery_key d ->
      wd_ClaimToken d' = dl_ClaimToken row2 + 1 /\ held (dl_ClaimedBy row2) (dl_ClaimExpiresAt row2) now' = false) as Hgr.
    { intros d' Hin Hkey. destruct (proj1 (Forall_forall _ _) Hg _ Hin) as (r & e & Hr & Hc & _ & Ht & _ & _ & _ & _ & Htk & _).
      assert (deliveries s2' !! delivery_key d = Some row2) as Hl2' by (by eapply lookup_weaken).
      rewrite <- Hkey in Hl2'. unfold delivery_key in Hl2'. rewrite Ht, Hr in Hl2'. injection Hl2' as ->.
      split; [done|]. destruct (held _ _ _) eqn:Eh; [|done]. by rewrite held_not_claimable in Hc. }
    split.
    + intros d' Hin Hkey. destruct (Hgr d' Hin Hkey) as [-> _]. lia.
    + intros r Hr Hh. rewrite Hl2 in Hr. injection Hr as <-.
      assert (delivery_key d ∉ delivery_key <$> ds) as Hni.
      { intros (d' & Hkey & Hin)%list_elem_of_fmap. destruct (Hgr d' Hin (eq_sym Hkey)) as [_ Hf]. congruence. }
      split; [done|]. by apply Hkeep.
Qed.

(** ** Fan-out *)

Lemma has_delivery_spec s t ep ev :
  has_delivery s t ep ev = true <->
  exists id row, deliveries s !! (t, id) = Some row /\ dl_EndpointID row = ep /\ dl_EventID row = ev.
Proof.
  unfold has_delivery. rewrite existsb_exists. split.
  - intros ([[t' id] row] & Hin%list_elem_of_In%elem_of_map_to_list & H). cbn in H. reflect_bools. subst. by exists id, row.
  - intros (id & row & Hl & <- & <-). exists ((t, id), row). split; [by apply list_elem_of_In, elem_of_map_to_list|].
    cbn. by rewrite !String.eqb_refl.
Qed.

Lemma has_delivery_advances s s' t ep ev :
  rows_advance (deliveries s) (deliveries s') -> has_delivery s t ep ev = true -> has_delivery s' t ep ev = true.
Proof.
  rewrite !has_delivery_spec. intros Hadv (id & row & Hl & <- & <-).
  destruct (Hadv _ _ Hl) as (row' & Hl' & [= He Hv _] & _). by exists id, row'.
Qed.

Lemma active_endpoints_spec s t ep e :
  (ep, e) ∈ active_endpoints s t <-> endpoints s !! (t, ep) = Some e /\ ep_Active e = true.
Proof.
  unfold active_endpoints, tenant_endpoints. rewrite list_elem_of_In, filter_In, <- list_elem_of_In, list_elem_of_fmap.
  cbn. split.
  - intros [([[t' ep'] e'] & [= -> ->] & Hin) Ha]. apply list_elem_of_In, filter_In in Hin as [Hin Ht].
    cbn in Ht. reflect_bools. subst t'. split; [|done]. by apply elem_of_map_to_list, list_elem_of_In.
  - intros [Hl Ha]. split; [|done]. exists ((t, ep), e). split; [done|]. apply list_elem_of_In, filter_In.
    split; [by apply list_elem_of_In, elem_of_map_to_list|]. cbn. apply String.eqb_refl.
Qed.

(** The deliveries of one endpoint and event are one row. *)
Definition deliveries_unique (m : gmap (string * string) DeliveryRow) : Prop :=
  forall k1 k2 r1 r2, m !! k1 = Some r1 -> m !! k2 = Some r2 -> k1.1 = k2.1 ->
    dl_EndpointID r1 = dl_EndpointID r2 -> dl_EventID r1 = dl_EventID r2 -> k1 = k2.

Lemma materialize_unique t now pairs s s' :
  materialize t now pairs s = Ok s' -> deliveries_unique (deliveries s) -> deliveries_unique (deliveries s').
Proof.
  revert s. induction pairs as [|[[[ev body] ep] gen] rest IH]; intros s; cbn [materialize]; [by intros [= ->]|].
  destruct (has_delivery s t ep ev) eqn:Eh; [by apply IH|]. intros H Hu.
  apply result_bind_ok in H as (rows & (Hnone & ->)%insert_unique_ok & H). apply IH in H; [done|]. cbn.
  assert (forall k r, deliveries s !! k = Some r -> k.1 = t -> dl_EndpointID r = ep -> dl_EventID r = ev -> False) as Hno.
  { intros [t' id] r Hl [= ->] <- <-. apply not_true_iff_false in Eh. apply Eh, has_delivery_spec. by exists id, r. }
  intros k1 k2 r1 r2 H1 H2 Ht He Hv.
  apply lookup_insert_Some in H1 as [[<- <-]|[? H1]], H2 as [[<- <-]|[? H2]]; [done | | |by eapply Hu].
  - exfalso. apply (Hno _ _ H2); done.
  - exfalso. apply (Hno _ _ H1); done.
Qed.

(** Updates that keep every row's identity and add none keep the rows unique. *)
Lemma rows_advance_unique m m' :
  rows_advance m m' -> (forall k, m !! k = None -> m' !! k = None) -> deliveries_unique m -> deliveries_unique m'.
Proof.
  intros Hadv Hnone Hu k1 k2 r1 r2 H1 H2 Ht He Hv.
  destruct (m !! k1) as [q1|] eqn:Q1; [|by rewrite (Hnone _ Q1) in H1].
  destruct (m !! k2) as [q2|] eqn:Q2; [|by rewrite (Hnone _ Q2) in H2].
  destruct (Hadv _ _ Q1) as (r1' & H1' & [= ? ? _] & _), (Hadv _ _ Q2) as (r2' & H2' & [= ? ? _] & _).
  eapply Hu; [done..| |]; congruence.
Qed.

Lemma close_outbox_lookup t completed now b k :
  outbox (close_outbox t completed now b) !! k =
  (fun row => if (k.1 =s t) && (ob_Destination row =s "webhook") && bool_decide (ob_EventID row ∈ completed)
              then close_row now row else row) <$> outbox b !! k.
Proof. unfold close_outbox. cbn. rewrite map_lookup_imap. by destruct (outbox b !! k). Qed.

(** What one pass does to outbox rows and to the uniqueness of deliveries. *)
Lemma claim_pass_fanout t owner limit now s s' ds :
  claim_pass t owner limit now s = Ok (s', ds) ->
  (deliveries_unique (deliveries s) -> deliveries_unique (deliveries s')) /\
  (forall ep, (fun e => ep_Active e) <$> endpoints s' !! (t, ep) = (fun e => ep_Active e) <$> endpoints s !! (t, ep)) /\
  (forall k row, outbox (base s) !! k = Some row -> exists row', outbox (base s') !! k = Some row' /\
     (row' = row \/
      row' = close_row now row /\ k.1 = t /\ ob_Destination row = "webhook" /\
      forall ep e, endpoints s !! (t, ep) = Some e -> ep_Active e = true -> has_delivery s' t ep (ob_EventID row) = true)).
Proof.
  unfold claim_pass. intros H. apply result_bind_ok in H as (s1 & Hm & H).
  pose proof (materialize_unique _ _ _ _ _ Hm) as Hu. apply materialize_spec in Hm as (Hsub & He & _ & _ & Hb).
  destruct (claim_candidates_spec s t limit now) as [Hnd Hc].
  assert (Forall (fun c => deliveries s1 !! (t, c.1) = Some c.2) (claim_candidates s t limit now)) as Hrows.
  { apply Forall_forall. intros [id row] Hin. destruct (Hc _ _ Hin) as [Hl _]. cbn.
    eapply lookup_weaken; [exact Hl | done]. }
  apply claim_each_spec in H as (Hadv & He' & Hb' & _ & _ & Hother & _); [|done..]. cbn in *.
  split_and!.
  - intros Hus. apply (rows_advance_unique (deliveries s1)); [done| |by apply Hu].
    intros k Hk. rewrite Hother; [done|]. intros c Hin ->.
    pose proof (proj1 (Forall_forall _ _) Hrows _ Hin). congruence.
  - intros ep. rewrite He', purge_expired_lookup, He. cbn. rewrite String.eqb_refl.
    destruct (endpoints s !! (t, ep)) as [e|]; [|done]. cbn. by rewrite (proj1 (purge_previous_same now e)).
  - intros k row Hk. rewrite Hb', close_outbox_lookup, Hb, Hk. cbn. eexists. split; [done|].
    destruct (_ && _) eqn:Ec; [right | by left]. reflect_bools. split_and!; [done..|].
    intros ep e Hep Ha. match goal with Hin : ob_EventID row ∈ _ |- _ =>
      apply list_elem_of_In, filter_In in Hin as [_ Hcomp] end.
    unfold event_completed in Hcomp. rewrite forallb_forall in Hcomp.
    assert (has_delivery s1 t ep (ob_EventID row) = true) as Hhas.
    { apply (Hcomp (ep, e)). apply list_elem_of_In, active_endpoints_spec. done. }
    eapply has_delivery_advances; [|exact Hhas]. done.
Qed.

(** C29. Fan-out of events to webhooks. A claim closes an outbox row only when it is
    a webhook row of the claiming tenant and every endpoint of that tenant that is
    active has a delivery of the event; no other row's fields change; and an
    endpoint never gets two deliveries of one event. *)
Theorem fanout_complete (t : tenant) (owner : string) (limit now : Z) (s s' : WebhookDb) (ds : list Delivery) :
  Repository_Claim t owner limit now s = (s', Ok ds) ->
  (deliveries_unique (deliveries s) -> deliveries_unique (deliveries s')) /\
  (forall k row, outbox (base s) !! k = Some row -> exists row', outbox (base s') !! k = Some row' /\
     (row' = row \/
      row' = close_row now row /\ k.1 = t /\ ob_Destination row = "webhook" /\
      forall ep e, endpoints s !! (t, ep) = Some e -> ep_Active e = true -> has_delivery s' t ep (ob_EventID row) = true)).
Proof.
  unfold Repository_Claim. destruct (_ || _); [done|]. intros H. apply inTenant_ok in H.
  apply result_bind_ok in H as ([s1 ds1] & H1 & H). cbn in H.
  pose proof (claim_pass_fanout _ _ _ _ _ _ _ H1) as (Hu1 & Ha1 & Ho1).
  destruct ds1 as [|d1 ds1]; cbn in H; [|injection H as <- <-; done].
  pose proof (claim_pass_fanout _ _ _ _ _ _ _ H) as (Hu2 & _ & Ho2).
  apply claim_pass_spec in H as (Hadv & _). split; [auto|]. intros k row Hk.
  destruct (Ho1 k row Hk) as (row1 & Hk1 & Hcase1). destruct (Ho2 k row1 Hk1) as (row2 & Hk2 & Hcase2).
  exists row2. split; [done|].
  destruct Hcase1 as [->|(-> & Ht & Hd & Hall)].
  - destruct Hcase2 as [->|(-> & Ht & Hd & Hall)]; [by left|]. right. split_and!; [done..|].
    intros ep e Hep Hact. specialize (Ha1 ep). rewrite Hep in Ha1. cbn in Ha1.
    destruct (endpoints s1 !! (t, ep)) as [e1|] eqn:E1; [|done]. cbn in Ha1.
    apply (Hall ep e1); [done | congruence].
  - right. split_and!; [by destruct Hcase2 as [->|(-> & _)] | done | done|].
    intros ep e Hep Hact. eapply has_delivery_advances; [exact Hadv | by eapply Hall].
Qed.

(** ** Rows nothing moves any more *)

Definition inactive (s : WebhookDb) (t : tenant) (ep : string) : Prop :=
  exists e, endpoints s !! (t, ep) = Some e /\ ep_Active e = false.

(** Every dead letter of a delivery satisfies [R]. *)
Definition dead_letters (R : DLQRow -> Prop) (m : gmap (string * string) DLQRow) (t : tenant) (id : string) : Prop :=
  forall q d, m !! (t, q) = Some d -> dr_DeliveryID d = id -> R d.

(** A dead letter nobody can replay. *)
Definition spent (d : DLQRow) : Prop := dr_ReplayedAt d <> None.

(** Rows no worker holds and no revocation picks up: dead ones, and ones that wait
    for their next attempt after a request was started. *)
Definition idle (row : DeliveryRow) : Prop :=
  dl_State row <> Delivering /\
  (dl_State row = Dead \/ dl_ClaimExpiresAt row = None /\ dl_HTTPStartedAt row <> None).

Definition frozen (R : DLQRow -> Prop) (t : tenant) (id : string) (row : DeliveryRow) (s : WebhookDb) : Prop :=
  deliveries s !! (t, id) = Some row /\
  (dl_State row = Dead \/ inactive s t (dl_EndpointID row)) /\ dead_letters R (dlq s) t id.

Lemma purge_inactive s t t' now ep :
  inactive s t ep -> inactive (set_endpoints (purge_expired t' now (endpoints s)) s) t ep.
Proof.
  intros (e & He & Ha). unfold inactive. cbn. rewrite purge_expired_lookup, He. cbn.
  destruct (t =s t'); eexists; (split; [done|]); [by rewrite (proj1 (purge_previous_same now e)) | done].
Qed.

Lemma claim_pass_inactive t owner limit now s s' ds t' ep :
  claim_pass t owner limit now s = Ok (s', ds) -> inactive s t' ep -> inactive s' t' ep.
Proof.
  unfold claim_pass. intros H Hin. apply result_bind_ok in H as (s1 & Hm & H).
  apply materialize_spec in Hm as (Hsub & He & _ & _ & _).
  destruct (claim_candidates_spec s t limit now) as [Hnd Hc].
  apply claim_each_spec in H as (_ & He' & _); [|done|].
  - unfold inactive in *. rewrite He'. apply (purge_inactive (set_base _ s1)). unfold inactive. cbn. by rewrite He.
  - apply Forall_forall. intros [id row] Hi. destruct (Hc _ _ Hi) as [Hl _]. cbn. by eapply lookup_weaken.
Qed.

Section Frozen.
Context (R : DLQRow -> Prop) (R_spent : forall d, R d -> spent d).
Context (t : tenant) (id : string) (row : DeliveryRow) (Hidle : idle row).

Lemma claim_pass_frozen t' owner limit now s s' ds :
  claim_pass t' owner limit now s = Ok (s', ds) -> frozen R t id row s ->
  frozen R t id row s' /\ (t, id) ∉ delivery_key <$> ds.
Proof.
  intros H (Hrow & Hin & Hdl).
  assert (dl_State row = Dead \/ inactive s' t (dl_EndpointID row)) as Hin'
    by (destruct Hin; [by left | right; by eapply claim_pass_inactive]).
  apply claim_pass_spec in H as (_ & Hd & Hg & Hkeep).
  assert ((t, id) ∉ delivery_key <$> ds) as Hni.
  { intros (d & [= Ht Hid] & Hd')%list_elem_of_fmap.
    destruct (proj1 (Forall_forall _ _) Hg _ Hd') as (r & e & Hr & Hc & _ & Ht' & _).
    rewrite <- Hid, <- Ht', <- Ht, Hrow in Hr. injection Hr as <-.
    unfold claimable in Hc. rewrite <- Ht', <- Ht in Hc. destruct Hin as [Hdead|(e' & He' & Ha)].
    - rewrite Hdead in Hc. reflect_bools. done.
    - rewrite He', Ha in Hc. done. }
  split; [|done]. split_and!; [by apply Hkeep | done | by rewrite Hd].
Qed.

Lemma insert_dlq_other t' q id' row' err now m m' :
  insert_dlq t' q id' row' err now m = Ok m' -> (t', id') <> (t, id) -> dead_letters R m t id -> dead_letters R m' t id.
Proof.
  unfold insert_dlq. destruct (existsb _ _); [by intros [= <-]|].
  intros [_ ->]%insert_unique_ok Hne Hno q' d Hq Hid.
  apply lookup_insert_Some in Hq as [[[= -> ->] <-]|[_ Hq]]; [cbn in Hid; congruence | by eapply Hno].
Qed.

Lemma revoke_each_keeps t' now rows s s' :
  NoDup (fst <$> rows) -> Forall (fun c => deliveries s !! (t', c.1) = Some c.2) rows ->
  (forall c, c ∈ rows -> (t, id) <> (t', c.1)) ->
  revoke_each t' now rows s = Ok s' ->
  deliveries s' !! (t, id) = deliveries s !! (t, id) /\ endpoints s' = endpoints s /\
  (dead_letters R (dlq s) t id -> dead_letters R (dlq s') t id).
Proof.
  intros Hnd Hrows Hne H. pose proof (revoke_each_spec _ _ _ _ _ Hnd Hrows H) as (_ & He & Hother).
  split_and!; [by rewrite Hother | done|].
  clear Hnd Hrows He Hother. revert s H. induction rows as [|[id' r] rest IH]; intros s; cbn [revoke_each].
  { by intros [= ->]. }
  intros H Hdl. apply result_bind_ok in H as (m & Hm & H). eapply IH; [|exact H|]; [set_solver|]. cbn.
  eapply insert_dlq_other; [exact Hm | | done]. intros Heq. apply (Hne (id', r)); [set_solver | done].
Qed.

Lemma claim_matches_idle owner token : claim_matches row owner token = true -> False.
Proof. unfold claim_matches. intros H. reflect_bools. by destruct Hidle. Qed.

Lemma AdmitClaim_frozen d now s : frozen R t id row s -> frozen R t id row (Repository_AdmitClaim d now s).1.
Proof.
  intros (Hrow & Hin & Hdl). destruct (Repository_AdmitClaim d now s) as [s' r] eqn:E.
  apply AdmitClaim_spec in E as [[-> _]|(_ & row' & Hl & Ha & ->)]; [done|]. cbn. split_and!; [|done..]. cbn.
  rewrite lookup_insert_ne; [done|]. intros Heq. rewrite Heq, Hrow in Hl. injection Hl as <-.
  unfold admissible in Ha. reflect_bools. by eapply claim_matches_idle.
Qed.

Lemma RenewClaim_frozen t' id' owner token now s :
  frozen R t id row s -> frozen R t id row (Repository_RenewClaim t' id' owner token now s).1.
Proof.
  intros (Hrow & Hin & Hdl). destruct (Repository_RenewClaim t' id' owner token now s) as [s' r] eqn:E.
  unfold Repository_RenewClaim in E. destruct (_ || _) in E; [by injection E as <- <-|].
  apply inTenant_cases in E as [(-> & e & ->)|(b & -> & H)]; [done|].
  destruct (deliveries s !! (t', id')) as [row'|] eqn:Hl; [|by injection H as <- <-].
  destruct (claim_matches row' owner token && _ && _) eqn:Em in H; injection H as <- <-; [|done].
  split_and!; [|done..]. cbn. rewrite lookup_insert_ne; [done|]. intros Heq. rewrite Heq, Hrow in Hl. injection Hl as <-.
  reflect_bools. by eapply claim_matches_idle.
Qed.

Lemma CompleteAttempt_frozen r wall q now s :
  frozen R t id row s -> frozen R t id row (Repository_CompleteAttempt r wall q now s).1.
Proof.
  intros (Hrow & Hin & Hdl). destruct (Repository_CompleteAttempt r wall q now s) as [s' res] eqn:E.
  unfold Repository_CompleteAttempt in E. destruct (_ || _) in E; [by injection E as <- <-|].
  apply inTenant_cases in E as [(-> & e & ->)|([] & -> & H)]; [done|]. unfold complete_attempt in H.
  destruct (deliveries s !! (ar_TenantID r, ar_DeliveryID r)) as [row'|] eqn:Hl; [|done].
  destruct (endpoints s !! (ar_TenantID r, dl_EndpointID row')) as [e|]; [|done].
  destruct (webhook_attempts s !! (ar_TenantID r, ar_DeliveryID r, dl_AttemptCount row')) as [a|]; [|done].
  destruct (claim_matches row' (ar_OwnerID r) (ar_ClaimToken r) && _) eqn:Em in H; [|done].
  apply result_bind_ok in H as (dlq' & Hd & [= <-]).
  assert ((ar_TenantID r, ar_DeliveryID r) <> (t, id)) as Hne.
  { intros Heq. rewrite Heq, Hrow in Hl. injection Hl as <-. reflect_bools. by eapply claim_matches_idle. }
  split_and!; [|done|]; cbn.
  - by rewrite lookup_insert_ne.
  - destruct (ar_Dead r || negb (ep_Active e)); [|by injection Hd as <-]. by eapply insert_dlq_other.
Qed.

Lemma ReplayDLQ_frozen t' q now s : frozen R t id row s -> frozen R t id row (Repository_ReplayDLQ t' q now s).1.
Proof.
  intros (Hrow & Hin & Hdl). destruct (Repository_ReplayDLQ t' q now s) as [s' res] eqn:E.
  unfold Repository_ReplayDLQ in E. destruct (_ || _) in E; [by injection E as <- <-|].
  apply inTenant_cases in E as [(-> & e & ->)|([] & -> & H)]; [done|].
  destruct (dlq s !! (t', q)) as [d|] eqn:Hq; [|done].
  destruct (deliveries s !! (t', dr_DeliveryID d)) as [row'|] eqn:Hl; [|done].
  destruct (endpoints s !! (t', dl_EndpointID row')) as [e|]; [|done].
  destruct (bool_decide (dr_ReplayedAt d = None) && ep_Active e) eqn:Ec in H; [|done]. injection H as <-. reflect_bools.
  assert (t' = t -> dr_DeliveryID d <> id) as Hne.
  { intros -> Hid. by apply (R_spent d (Hdl q d Hq Hid)). }
  split_and!; [|done|]; cbn.
  - rewrite lookup_insert_ne; [done|]. intros [= -> Heq]. by apply Hne.
  - intros q' d' Hq' Hid'. apply lookup_insert_Some in Hq' as [[[= -> ->] <-]|[_ Hq']]; [|by eapply Hdl].
    cbn in Hid'. by destruct Hne.
Qed.

Lemma idle_not_revocable ep now : revocable ep now row = false.
Proof.
  unfold revocable. destruct Hidle as [_ [Hd|[Hx Hh]]].
  - rewrite Hd. cbn. by rewrite andb_false_r.
  - rewrite Hx, (bool_decide_eq_false_2 (dl_HTTPStartedAt row = None)) by done. apply andb_false_r.
Qed.

(** Revoking an endpoint skips the row, and stops its endpoint. *)
Lemma DeleteEndpoint_skips t' ep now s s' b :
  Repository_DeleteEndpoint t' ep now s = (s', Ok b) ->
  deliveries s !! (t, id) = Some row -> dead_letters R (dlq s) t id ->
  deliveries s' !! (t, id) = Some row /\ dead_letters R (dlq s') t id /\
  (forall t0 ep0, inactive s t0 ep0 -> inactive s' t0 ep0) /\ inactive s' t' ep.
Proof.
  intros E Hrow Hdl. unfold Repository_DeleteEndpoint in E. destruct (_ || _) in E; [done|].
  apply inTenant_ok in E. destruct (endpoints s !! (t', ep)) as [e|] eqn:He; [|done].
  apply result_bind_ok in E as (s1 & H & [= <- <-]).
  destruct (tenant_rows_spec (deliveries s) t' (revocable ep now)) as [Hnd Hin].
  fold (tenant_deliveries s t' (revocable ep now)) in Hnd, Hin.
  apply revoke_each_keeps in H as (Hrow' & He' & Hdl'); [| done | |].
  - cbn. split_and!; [congruence | auto | | ].
    + intros t0 ep0 (e0 & He0 & Ha0). unfold inactive. cbn. rewrite He'.
      destruct (decide ((t', ep) = (t0, ep0))) as [Heq|Hne].
      * rewrite Heq, lookup_insert_eq. by eexists.
      * rewrite lookup_insert_ne by done. by exists e0.
    + unfold inactive. cbn. rewrite lookup_insert_eq. by eexists.
  - apply Forall_forall. intros [id' row'] Hc. by apply Hin in Hc as [? _].
  - intros [id' row'] Hc [= -> ->]. apply Hin in Hc as [Hl Hr].
    cbn in Hl. rewrite Hrow in Hl. injection Hl as <-. by rewrite idle_not_revocable in Hr.
Qed.

Lemma DeleteEndpoint_frozen t' ep now s :
  frozen R t id row s -> frozen R t id row (Repository_DeleteEndpoint t' ep now s).1.
Proof.
  intros (Hrow & Hin & Hdl). destruct (Repository_DeleteEndpoint t' ep now s) as [s' [b|e]] eqn:E.
  - destruct (DeleteEndpoint_skips _ _ _ _ _ _ E Hrow Hdl) as (? & ? & Hi & _). split_and!; [done| |done].
    destruct Hin; auto.
  - unfold Repository_DeleteEndpoint in E. destruct (_ || _) in E; [by injection E as <- <-|].
    by apply inTenant_error in E as ->.
Qed.

(** The endpoints an operation leaves inactive, and the dead letters it leaves. *)
Lemma frame_frozen s s' :
  deliveries s' = deliveries s -> dlq s' = dlq s ->
  (inactive s t (dl_EndpointID row) -> inactive s' t (dl_EndpointID row)) ->
  frozen R t id row s -> frozen R t id row s'.
Proof. intros Hd Hq Hi (Hrow & Hin & Hno). unfold frozen. rewrite Hd, Hq. naive_solver. Qed.

Lemma materialize_kafka_frame t' ids s s' :
  materialize_kafka t' ids s = Ok s' -> endpoints s' = endpoints s /\ dlq s' = dlq s.
Proof.
  revert s. induction ids as [|id0 ids IH]; intros s; cbn [materialize_kafka]; [by intros [= ->]|].
  destruct (events (base s) !! (t', id0)) as [ev|]; [|by apply IH].
  destruct (has_kafka_delivery s t' id0); [by apply IH|]. intros H.
  by apply result_bind_ok in H as (rows & _ & [-> ->]%IH).
Qed.

Lemma CreateEndpoint_frame e secret m s t' ep :
  dlq (Repository_CreateEndpoint e secret m s).1 = dlq s /\
  (inactive s t' ep -> inactive (Repository_CreateEndpoint e secret m s).1 t' ep).
Proof.
  destruct (Repository_CreateEndpoint e secret m s) as [s' r] eqn:E. unfold Repository_CreateEndpoint in E.
  destruct (_ || _) in E; [by injection E as <- <-|].
  apply inTenant_cases in E as [(-> & err & ->)|([] & -> & H)]; [done|].
  destruct (_ >=? _) in H; [done|]. bind_ok H. injection H as <-. cbn. split; [done|].
  match goal with Hi : insert_unique _ _ _ = _ |- _ => apply insert_unique_ok in Hi as [Hn ->] end.
  intros (e' & He' & Ha). exists e'. cbn. rewrite lookup_insert_ne by congruence. done.
Qed.

Lemma RotateEndpoint_frame rotation s t' ep :
  dlq (Repository_RotateEndpoint rotation s).1 = dlq s /\
  (inactive s t' ep -> inactive (Repository_RotateEndpoint rotation s).1 t' ep).
Proof.
  destruct (Repository_RotateEndpoint rotation s) as [s' r] eqn:E. unfold Repository_RotateEndpoint in E.
  destruct (_ || _) in E; [by injection E as <- <-|].
  apply inTenant_cases in E as [(-> & err & ->)|([] & -> & H)]; [done|].
  destruct (endpoints s !! (rt_TenantID rotation, rt_EndpointID rotation)) as [row0|] eqn:He; [|done].
  destruct (ep_Active row0) eqn:Ea; [|done]. bind_ok H. injection H as <-. cbn. split; [done|].
  intros (e' & He' & Ha). exists e'. cbn. rewrite lookup_insert_ne by congruence. done.
Qed.

Lemma apply_op_frozen op s :
  frozen R t id row s -> frozen R t id row (apply_op s op).
Proof.
  intros Hst. pose proof (apply_op_frame op s) as Hframe. destruct op; cbn [apply_op] in *.
  - destruct (CreateEndpoint_frame endpoint secret maxEndpoints s t (dl_EndpointID row)). by eapply frame_frozen.
  - destruct (RotateEndpoint_frame rotation s t (dl_EndpointID row)). by eapply frame_frozen.
  - unfold Repository_PurgeExpiredSecrets in *. destruct (t0 =s "") eqn:E; [done|].
    unfold inTenant in *. rewrite E in *. cbn in *. eapply frame_frozen; [done | done | apply purge_inactive | done].
  - destruct (Repository_Claim t0 owner limit now s) as [s' r] eqn:E. unfold Repository_Claim in E.
    destruct (_ || _) in E; [by injection E as <- <-|].
    apply inTenant_cases in E as [(-> & e & ->)|(ds & -> & H)]; [done|].
    apply result_bind_ok in H as ([s1 ds1] & H1 & H). cbn in H. eapply claim_pass_frozen in H1 as [H1 _]; [|done].
    destruct (is_nil ds1); [by eapply claim_pass_frozen in H as [? _] | by injection H as <- <-].
  - by apply AdmitClaim_frozen.
  - by apply RenewClaim_frozen.
  - by apply CompleteAttempt_frozen.
  - by apply ReplayDLQ_frozen.
  - by apply DeleteEndpoint_frozen.
  - eapply frame_frozen; [exact Hframe | | | done]; clear Hframe;
      destruct (Repository_ClaimEvents t0 owner limit now s) as [s' r] eqn:E; unfold Repository_ClaimEvents in E;
      (destruct (_ || _) in E; [by injection E as <- <-|]);
      (apply inTenant_cases in E as [(-> & e & ->)|(ds & -> & H)]; [done|]);
      apply result_bind_ok in H as (s2 & [He Hd]%materialize_kafka_frame & [= <- <-]); cbn; [done|].
    unfold inactive. by rewrite <- He.
  - unfold Repository_MarkPublished in *. destruct (_ || _); [done|].
    destruct (inTenant _ _ _) as [s' r] eqn:E. apply inTenant_cases in E as [(-> & e & ->)|([] & -> & H)]; [done|].
    cbn in H. destruct (existsb _ _) in H; injection H as <-; [|done]. by eapply frame_frozen.
  - unfold Repository_StoreDLQ in *. destruct (_ || _); [done|].
    destruct (inTenant _ _ _) as [s' r] eqn:E. apply inTenant_cases in E as [(-> & e & ->)|([] & -> & H)]; [done|].
    cbn in H. destruct (existsb _ _) in H; [by injection H as <-|]. bind_ok H. injection H as <-. by eapply frame_frozen.
  - by eapply frame_frozen.
Qed.

Lemma run_ops_frozen ops s : frozen R t id row s -> frozen R t id row (run_ops ops s).
Proof. revert s. induction ops as [|op ops IH]; intros s Hf; [done|]. by apply IH, apply_op_frozen. Qed.

Lemma Claim_frozen t' owner limit now s s' ds :
  frozen R t id row s -> Repository_Claim t' owner limit now s = (s', Ok ds) -> (t, id) ∉ delivery_key <$> ds.
Proof.
  unfold Repository_Claim. intros Hf. destruct (_ || _); [done|]. intros H. apply inTenant_ok in H.
  apply result_bind_ok in H as ([s1 ds1] & H1 & H). cbn in H. apply claim_pass_frozen in H1 as [Hf1 Hni]; [|done].
  destruct (is_nil ds1); [by apply claim_pass_frozen in H as [_ ?] | by injection H as <- <-].
Qed.
End Frozen.

(** A delivery that waits for a retry is lost when its endpoint is revoked. Its
    request was started and failed, so [http_started_at] is set and the claim is
    cleared; the revocation takes up only deliveries whose request never started or
    whose claim expired, and [NULL <= now] is neither. Whatever happens afterwards,
    the row stays pending, no claim ever returns it and no dead letter names it,
    although every other queued delivery of the endpoint becomes a dead letter. *)
Theorem revocation_strands_retry (s0 s1 s2 : WebhookDb) (r : AttemptResult) (row0 : DeliveryRow) (e : EndpointRow)
    (wall now0 now : Z) (q : string) (b : bool) (ops : list DeliveryOp) :
  deliveries s0 !! (ar_TenantID r, ar_DeliveryID r) = Some row0 -> dl_HTTPStartedAt row0 <> None ->
  endpoints s0 !! (ar_TenantID r, dl_EndpointID row0) = Some e -> ep_Active e = true ->
  dead_letters (fun _ => False) (dlq s0) (ar_TenantID r) (ar_DeliveryID r) ->
  ar_Succeeded r = false -> ar_Dead r = false ->
  Repository_CompleteAttempt r wall q now0 s0 = (s1, Ok tt) ->
  Repository_DeleteEndpoint (ar_TenantID r) (dl_EndpointID row0) now s1 = (s2, Ok b) ->
  (exists row, dl_State row = Pending /\ deliveries (run_ops ops s2) !! (ar_TenantID r, ar_DeliveryID r) = Some row) /\
  dead_letters (fun _ => False) (dlq (run_ops ops s2)) (ar_TenantID r) (ar_DeliveryID r) /\
  (forall t owner limit now' s3 ds, Repository_Claim t owner limit now' (run_ops ops s2) = (s3, Ok ds) ->
     (ar_TenantID r, ar_DeliveryID r) ∉ delivery_key <$> ds).
Proof.
  intros Hrow Hhttp He Ha Hdl Hs Hd Hc Hdel.
  unfold Repository_CompleteAttempt in Hc. destruct (_ || _) in Hc; [done|]. apply inTenant_ok in Hc.
  unfold complete_attempt in Hc. rewrite Hrow, He, Ha, Hs, Hd in Hc. cbn in Hc.
  destruct (webhook_attempts s0 !! _) as [a|] in Hc; [|done]. destruct (_ && _) in Hc; [|done]. injection Hc as <-.
  set (row := completed_row false false false _ now0 row0) in *.
  assert (idle row) as Hidle by (split; [done | by right]).
  assert (forall d : DLQRow, False -> spent d) as Hspent by done.
  apply (DeleteEndpoint_skips (fun _ => False) Hspent (ar_TenantID r) (ar_DeliveryID r) row Hidle) in Hdel
    as (Hrow2 & Hdl2 & _ & Hin2); [|apply lookup_insert_eq | done].
  assert (frozen (fun _ => False) (ar_TenantID r) (ar_DeliveryID r) row s2) as Hf by (split_and!; [done | by right | done]).
  apply (run_ops_frozen _ Hspent _ _ _ Hidle ops) in Hf. split_and!.
  - exists row. split; [done | apply Hf].
  - apply Hf.
  - intros t owner limit now' s3 ds HC. by eapply (Claim_frozen (fun _ => False) _ _ row).
Qed.

(** A delivery can be replayed once in its life. When it dies again after a
    replay, its dead letter is still the old one, marked replayed: the insertion of
    a second one does nothing. From then on the delivery stays dead whatever is
    done, and every replay of it is refused. *)
Theorem second_death_is_final (s : WebhookDb) (t : tenant) (q : string) (d : DLQRow) (row : DeliveryRow)
    (ops : list DeliveryOp) :
  dlq s !! (t, q) = Some d -> dr_ReplayedAt d <> None ->
  (forall q' d', dlq s !! (t, q') = Some d' -> dr_DeliveryID d' = dr_DeliveryID d -> q' = q) ->
  deliveries s !! (t, dr_DeliveryID d) = Some row -> dl_State row = Dead ->
  deliveries (run_ops ops s) !! (t, dr_DeliveryID d) = Some row /\
  (forall q' d' now, dlq (run_ops ops s) !! (t, q') = Some d' -> dr_DeliveryID d' = dr_DeliveryID d ->
     exists e, Repository_ReplayDLQ t q' now (run_ops ops s) = (run_ops ops s, Err e)) /\
  (forall r next q' now s', ar_TenantID r = t -> ar_DeliveryID r = dr_DeliveryID d -> dlq s' = dlq s ->
     complete_attempt r next q' now s' = Err [ErrText "webhook delivery claim lost"] \/
     exists s2, complete_attempt r next q' now s' = Ok (s2, tt) /\ dlq s2 = dlq s).
Proof.
  intros Hq Hrep Huniq Hrow Hdead.
  assert (idle row) as Hidle by (split; [congruence | by left]).
  assert (frozen spent t (dr_DeliveryID d) row s) as Hf.
  { split_and!; [done | by left|]. intros q' d' Hq' Hid. rewrite (Huniq _ _ Hq' Hid), Hq in Hq'. by injection Hq' as <-. }
  apply (run_ops_frozen spent (fun d H => H) _ _ _ Hidle ops) in Hf as (Hrow' & _ & Hdl). split_and!; [done| |].
  - intros q' d' now Hq' Hid. specialize (Hdl q' d' Hq' Hid).
    destruct (Repository_ReplayDLQ t q' now (run_ops ops s)) as [s' [[]|e]] eqn:E.
    + exfalso. unfold Repository_ReplayDLQ in E. destruct (_ || _) in E; [done|]. apply inTenant_ok in E.
      rewrite Hq' in E. destruct (deliveries _ !! _) as [row'|] in E; [|done].
      destruct (endpoints _ !! _) as [e|] in E; [|done]. rewrite bool_decide_eq_false_2 in E by done. done.
    + exists e. unfold Repository_ReplayDLQ in E. destruct (_ || _) in E; [by injection E as <- <-|].
      by rewrite (inTenant_error _ _ _ _ _ E).
  - intros r next q' now s' Ht Hid Hs'. unfold complete_attempt. rewrite Ht, Hid.
    destruct (deliveries s' !! _) as [row'|]; [|by left]. destruct (endpoints s' !! _) as [e|]; [|by left].
    destruct (webhook_attempts s' !! _) as [a|]; [|by left]. destruct (_ && _); [|by left]. right.
    assert (forall txt, insert_dlq t q' (dr_DeliveryID d) row' txt now (dlq s') = Ok (dlq s')) as Hins.
    { intros txt. unfold insert_dlq. destruct (existsb _ _) eqn:Ex; [done|]. exfalso.
      rewrite existsb_false in Ex. specialize (Ex ((t, q), d)). cbn in Ex. rewrite !String.eqb_refl in Ex.
      discriminate Ex. apply elem_of_map_to_list. by rewrite Hs'. }
    rewrite Hins. destruct (ar_Dead r || negb (ep_Active e)); cbn; eexists; (split; [done|]); done.
Qed.

(** ** Concrete runs *)

Definition sample_base : Db :=
  set_outbox {[("t1", "o1:webhook") := outbox_row "e1" "webhook" 0]}
    (set_events {[("t1", "e1") := {| er_Type := "message.received"; er_AggregateType := "message"; er_AggregateID := "m1";
        Store.er_ConnectionID := Some "c1"; Store.er_ConversationID := "v1"; er_Body := bytes_of "{}" |}]}
      (set_tenants {["t1" := {| tn_Name := "T"; tn_Status := "active"; tn_MaxConnections := 1 |}]} empty_db)).

Definition sample_store : WebhookDb := {|
  base := sample_base;
  endpoints := {[("t1", "ep") := {| ep_Destination := "https://hooks.example/x"; ep_KeyID := "k1";
    ep_Secret := {| ss_Ciphertext := []; ss_WrappedDEK := []; ss_Nonce := []; ss_KeyID := "kms"; ss_KeyVersion := 1 |};
    ep_Previous := None; ep_Active := true; ep_CreatedAt := 0; ep_Generation := 1 |}]};
  deliveries := ∅; webhook_attempts := ∅; dlq := ∅; kafka_deliveries := ∅; command_dlq := ∅ |}.

Definition claims_of (r : WebhookDb * result (list Delivery)) : list Delivery :=
  match r.2 with Ok ds => ds | Err _ => [] end.

(** The event fans out, the delivery is claimed and its request starts. *)
Definition claimed_store : WebhookDb := (Repository_Claim "t1" "w1" 32 (100 * Second) sample_store).1.
Definition claimed_delivery : Delivery :=
  match claims_of (Repository_Claim "t1" "w1" 32 (100 * Second) sample_store) with d :: _ => d | [] => sample_delivery end.
Definition started_store : WebhookDb := (Repository_AdmitClaim claimed_delivery (101 * Second) claimed_store).1.
(** Nobody renews: another worker takes the delivery over. *)
Definition retaken_store : WebhookDb * result (list Delivery) := Repository_Claim "t1" "w2" 32 (131 * Second) started_store.

Example sample_tokens :
  wd_ClaimToken claimed_delivery = 1 /\ map wd_ClaimToken (claims_of retaken_store) = [2] /\
  (fun o => ob_PublishedAt o) <$> outbox (base claimed_store) !! ("t1", "o1:webhook") = Some (Some (100 * Second)).
Proof. vm_compute. done. Qed.

Lemma admission_fenced_witness :
  exists d', claims_of retaken_store = [d'] /\ wd_ClaimToken claimed_delivery < wd_ClaimToken d'.
Proof.
  assert (exists d', claims_of retaken_store = [d']) as [d' Hd'] by (eexists; vm_compute; reflexivity).
  exists d'. split; [exact Hd'|].
  assert (Repository_AdmitClaim claimed_delivery (101 * Second) claimed_store = (started_store, Ok true)) as Hadm
    by (vm_compute; reflexivity).
  destruct (admission_fenced claimed_store started_store claimed_delivery (101 * Second) [] Hadm) as [_ Hclaim].
  destruct (Hclaim "t1" "w2" 32 (131 * Second) retaken_store.1 [d']) as [Hlt _].
  - rewrite <- Hd'. vm_compute. reflexivity.
  - apply Hlt; [constructor|]. vm_compute in Hd'. injection Hd' as <-. vm_compute. reflexivity.
Defined.

Lemma fanout_complete_witness :
  has_delivery claimed_store "t1" "ep" "e1" = true.
Proof.
  destruct (fanout_complete "t1" "w1" 32 (100 * Second) sample_store claimed_store [claimed_delivery]) as [_ H].
  - vm_compute. reflexivity.
  - destruct (H ("t1", "o1:webhook") (outbox_row "e1" "webhook" 0)) as (row' & Hrow' & [->|(_ & _ & _ & Hall)]).
    + vm_compute. reflexivity.
    + vm_compute in Hrow'. discriminate Hrow'.
    + eapply Hall; vm_compute; reflexivity.
Defined.

(** The receiver answers 503, the attempt is completed, the endpoint revoked. *)
Definition failed_attempt : AttemptResult := failure_result sample_webhook_worker claimed_delivery 503 "webhook returned HTTP 503" (130 * Second).
Definition failed_store : WebhookDb := (Repository_CompleteAttempt failed_attempt 0 "q1" (102 * Second) started_store).1.
Definition revoked_store : WebhookDb := (Repository_DeleteEndpoint "t1" "ep" (103 * Second) failed_store).1.

Lemma revocation_strands_retry_witness :
  exists row, dl_State row = Pending /\
    deliveries (run_ops [OpClaim "t1" "w1" 32 (1000 * Second); OpDeleteEndpoint "t1" "ep" (2000 * Second)] revoked_store)
      !! ("t1", "ep:e1") = Some row.
Proof.
  eapply (revocation_strands_retry started_store failed_store revoked_store failed_attempt _ _ 0 (102 * Second) (103 * Second) "q1" false).
  - vm_compute. reflexivity.
  - vm_compute. discriminate.
  - vm_compute. reflexivity.
  - vm_compute. reflexivity.
  - intros q d Hq. vm_compute in Hq. discriminate Hq.
  - reflexivity.
  - vm_compute. reflexivity.
  - vm_compute. reflexivity.
  - vm_compute. reflexivity.
Defined.

(** The last attempt fails, the dead letter is replayed, the delivery fails again. *)
Definition last_attempt (d : Delivery) : AttemptResult := {|
  ar_TenantID := wd_TenantID d; ar_DeliveryID := wd_DeliveryID d; ar_Attempt := wd_Attempt d; ar_OwnerID := wd_OwnerID d;
  ar_ClaimToken := wd_ClaimToken d; ar_Succeeded := false; ar_Dead := true; ar_StatusCode := 500;
  ar_SafeError := "webhook returned HTTP 500"; ar_NextAvailableAt := time_zero |}.
Definition dead_store : WebhookDb := (Repository_CompleteAttempt (last_attempt claimed_delivery) 0 "q1" (102 * Second) started_store).1.
Definition replayed_store : WebhookDb := (Repository_ReplayDLQ "t1" "q1" (200 * Second) dead_store).1.
Definition again_store : WebhookDb * result (list Delivery) := Repository_Claim "t1" "w1" 32 (201 * Second) replayed_store.
Definition dead_again_store : WebhookDb :=
  match claims_of again_store with
  | d :: _ => (Repository_CompleteAttempt (last_attempt d) 0 "q2" (202 * Second) again_store.1).1
  | [] => again_store.1
  end.

Lemma second_death_is_final_witness :
  exists d e, dlq dead_again_store !! ("t1", "q1") = Some d /\
    Repository_ReplayDLQ "t1" "q1" (300 * Second) dead_again_store = (dead_again_store, Err e).
Proof.
  assert (exists d, dlq dead_again_store !! ("t1", "q1") = Some d /\ dr_ReplayedAt d <> None /\ dr_DeliveryID d = "ep:e1")
    as (d & Hd & Hr & Hid) by (eexists; split; [vm_compute; reflexivity | split; [vm_compute; discriminate | reflexivity]]).
  assert (exists row, deliveries dead_again_store !! ("t1", "ep:e1") = Some row /\ dl_State row = Dead)
    as (row & Hrow & Hdead) by (eexists; split; vm_compute; reflexivity).
  assert (map fst (map_to_list (dlq dead_again_store)) = [("t1", "q1")]) as Hkeys by (vm_compute; reflexivity).
  assert (forall q' d', dlq dead_again_store !! ("t1", q') = Some d' -> q' = "q1") as Hu.
  { intros q' d' Hq'. apply elem_of_map_to_list, (list_elem_of_fmap_2 fst) in Hq'. cbn in Hq'.
    change (fst <$> map_to_list (dlq dead_again_store)) with (map fst (map_to_list (dlq dead_again_store))) in Hq'.
    rewrite Hkeys in Hq'. apply list_elem_of_singleton in Hq'. by injection Hq'. }
  destruct (second_death_is_final dead_again_store "t1" "q1" d row []) as (_ & H & _).
  - exact Hd.
  - exact Hr.
  - intros q' d' Hq' _. by eapply Hu.
  - rewrite Hid. exact Hrow.
  - exact Hdead.
  - destruct (H "q1" d (300 * Second) Hd eq_refl) as [e He]. exists d, e. split; [exact Hd | exact He].
Defined.
