(* ===== verification/Leases.v ===== *)
(** * Connection leases and fencing (internal/gateway/store/postgres/connection_actor.go)

    The lease row of a connection, its fencing token, and the fenced writes an
    actor makes under it.  Every operation is one transaction at database time
    [now]. *)

From S2P Require Import Prelude GoText Crypto GoEncoding Domain Session EventContract Store Connections SessionVault.

Definition minimumLeaseTTL : Z := Second.
Definition maximumLeaseTTL : Z := 10 * Minute.

Definition validLeaseInput (tenantID connectionID ownerID : string) (ttl : Z) : bool :=
  (tenantID <>s "") && (connectionID <>s "") && (len ownerID >? 0) && (len ownerID <=? 256) &&
  (ttl >=? minimumLeaseTTL) && (ttl <=? maximumLeaseTTL).

Record ConnectionLease := { cl_OwnerID : string; cl_FencingToken : Z; cl_ExpiresAt : Z }.

(** [ttl.Microseconds()] of interval, in nanoseconds. *)
Definition lease_interval (ttl : Z) : Z := ttl / 1000 * 1000.

(** The token a bigint column can still be incremented from. *)
Definition next_token (token : Z) : result Z :=
  if token + 1 >? max_int64 then Err [ErrText "bigint out of range"] else Ok (token + 1).

(** acquireConnectionLeaseSQL; [None] when the statement returns no row. *)
Definition acquire_lease_row (existing : option LeaseRow) (owner : string) (expires now : Z)
    : result (option LeaseRow) :=
  match existing with
  | None => Ok (Some {| ls_Owner := Some owner; ls_Token := 1; ls_ExpiresAt := expires |})
  | Some l =>
    let mine := bool_decide (ls_Owner l = Some owner) in
    if mine || (ls_ExpiresAt l <=? now) then
      let! token := (if mine && (ls_ExpiresAt l >? now) then Ok (ls_Token l) else next_token (ls_Token l)) in
      Ok (Some {| ls_Owner := Some owner; ls_Token := token; ls_ExpiresAt := expires |})
    else Ok None
  end.

Definition AcquireConnectionLease (tenantID connectionID ownerID : string) (ttl now : Z) (db : Db)
    : Db * result (option ConnectionLease) :=
  if negb (validLeaseInput tenantID connectionID ownerID ttl) then (db, Err [ErrInvalidLease])
  else inTenant tenantID (fun db =>
    let expires := now + lease_interval ttl in
    let! _ := foreign_key (has_connection db tenantID connectionID) in
    let! row := acquire_lease_row (leases db !! (tenantID, connectionID)) ownerID expires now in
    match row with
    | None => Ok (db, None)
    | Some l =>
      Ok (set_leases (<[(tenantID, connectionID) := l]> (leases db)) db,
          Some {| cl_OwnerID := ownerID; cl_FencingToken := ls_Token l; cl_ExpiresAt := expires |})
    end) db.

(** The rows renewConnectionLeaseSQL and releaseConnectionLeaseSQL match. *)
Definition lease_matches (l : LeaseRow) (owner : string) (token now : Z) : bool :=
  bool_decide (ls_Owner l = Some owner) && (ls_Token l =? token) && (ls_ExpiresAt l >? now).

Definition RenewConnectionLease (tenantID connectionID ownerID : string) (fencingToken ttl now : Z) (db : Db)
    : Db * result bool :=
  if negb (validLeaseInput tenantID connectionID ownerID ttl) || (fencingToken =? 0)
  then (db, Err [ErrInvalidLease])
  else inTenant tenantID (fun db =>
    match leases db !! (tenantID, connectionID) with
    | Some l =>
      if lease_matches l ownerID fencingToken now then
        Ok (set_leases (<[(tenantID, connectionID) :=
              {| ls_Owner := ls_Owner l; ls_Token := ls_Token l;
                 ls_ExpiresAt := now + lease_interval ttl |}]> (leases db)) db, true)
      else Ok (db, false)
    | None => Ok (db, false)
    end) db.

Definition ReleaseConnectionLease (tenantID connectionID ownerID : string) (fencingToken now : Z) (db : Db)
    : Db * result bool :=
  if (tenantID =s "") || (connectionID =s "") || (ownerID =s "") || (fencingToken =? 0)
  then (db, Err [ErrInvalidLease])
  else inTenant tenantID (fun db =>
    match leases db !! (tenantID, connectionID) with
    | Some l =>
      if lease_matches l ownerID fencingToken now then
        Ok (set_leases (<[(tenantID, connectionID) :=
              {| ls_Owner := None; ls_Token := ls_Token l; ls_ExpiresAt := now |}]> (leases db)) db, true)
      else Ok (db, false)
    | None => Ok (db, false)
    end) db.

(** ** Health *)

Record ConnectionActorHealth := {
  ah_ActorState : string;
  ah_LeaseState : string;
  ah_ConnectionState : ConnectionState;
  ah_ConnectedAt : option Z;
  ah_LastFrameAt : option Z;
  ah_LastPhoneResponseAt : option Z;
  ah_ReconnectCount : Z;
  ah_CurrentBackoff : Z;
  ah_LastSafeReason : string;
  ah_RequiresReauthorization : bool;
  ah_FencingToken : Z;
  ah_UpdatedAt : Z
}.

Definition safe_reasons : list string :=
  ["none"; "transient-network"; "provider-auth"; "provider-config"; "provider-protocol";
   "shared-infrastructure"; "lease-lost"; "session-conflict"; "shutdown"].

Definition actor_states : list string :=
  ["acquiring"; "connecting"; "ready"; "backoff"; "stopped"; "lease-lost"].

Definition validActorHealth (health : ConnectionActorHealth) : bool :=
  if negb (is_ok (ConnectionState_Validate (ah_ConnectionState health))) ||
     (ah_ReconnectCount health >? max_int64) || (ah_CurrentBackoff health <? 0) ||
     (ah_CurrentBackoff health >? maximumLeaseTTL)
  then false
  else if negb (existsb (String.eqb (ah_ActorState health)) actor_states) then false
  else existsb (String.eqb (ah_LastSafeReason health)) safe_reasons.

(** The states a row of [connection_actor_health] may name. *)
Definition health_connection_state_ok (state : ConnectionState) : bool :=
  match state with
  | ConnectionStateConnected | ConnectionStateDegraded | ConnectionStateReauthorizationRequired
  | ConnectionStateDisconnected | ConnectionStateSuspended => true
  | _ => false
  end.

Definition health_row (token now : Z) (health : ConnectionActorHealth) : HealthRow := {|
  hl_Token := token; hl_ActorState := ah_ActorState health;
  hl_ConnectionState := ah_ConnectionState health; hl_ConnectedAt := ah_ConnectedAt health;
  hl_LastFrameAt := ah_LastFrameAt health; hl_LastPhoneResponseAt := ah_LastPhoneResponseAt health;
  hl_ReconnectCount := ah_ReconnectCount health;
  hl_BackoffMicroseconds := ah_CurrentBackoff health / 1000;
  hl_LastSafeReason := ah_LastSafeReason health;
  hl_RequiresReauthorization := ah_RequiresReauthorization health; hl_UpdatedAt := now |}.

(** The column CHECKs of [connection_actor_health], with the reasons migration 0011
    allows. *)
Definition health_checks (row : HealthRow) : bool :=
  (hl_Token row >? 0) && existsb (String.eqb (hl_ActorState row)) actor_states &&
  health_connection_state_ok (hl_ConnectionState row) && (hl_ReconnectCount row >=? 0) &&
  (hl_BackoffMicroseconds row >=? 0) && existsb (String.eqb (hl_LastSafeReason row)) safe_reasons.

Definition WriteConnectionHealthFenced (tenantID connectionID ownerID : string) (fencingToken : Z)
    (health : ConnectionActorHealth) (now : Z) (db : Db) : Db * result bool :=
  if (tenantID =s "") || (connectionID =s "") || (ownerID =s "") || (fencingToken =? 0) ||
     negb (validActorHealth health)
  then (db, Err [ErrInvalidLease])
  else inTenant tenantID (fun db =>
    if negb (owned_lease db tenantID connectionID ownerID fencingToken now) then Ok (db, false)
    else
      let! _ := check_constraint (health_checks (health_row fencingToken now health)) in
      let stale := match Store.health db !! (tenantID, connectionID) with
                   | Some h => negb (hl_Token h <=? fencingToken)
                   | None => false
                   end in
      if stale then Ok (db, false)
      else Ok (set_health (<[(tenantID, connectionID) := health_row fencingToken now health]>
                 (Store.health db)) db, true)) db.

Definition GetConnectionHealth (tenantID connectionID : string) (now connectionUpdatedAt : Z) (db : Db)
    : Db * result ConnectionActorHealth :=
  if (tenantID =s "") || (connectionID =s "") then (db, Err [ErrInvalidIdentifier])
  else inTenant tenantID (fun db =>
    match connections db !! (tenantID, connectionID) with
    | None => Err [SqlErrNoRows]
    | Some c =>
      let l := leases db !! (tenantID, connectionID) in
      let h := match l, Store.health db !! (tenantID, connectionID) with
               | Some l, Some h => if hl_Token h =? ls_Token l then Some h else None
               | _, _ => None
               end in
      let live := match l with
                  | Some l => bool_decide (ls_Owner l <> None) && (ls_ExpiresAt l >? now)
                  | None => false
                  end in
      Ok (db, {|
        ah_FencingToken := from_option hl_Token 0 h; ah_ActorState := from_option hl_ActorState "" h;
        ah_LeaseState := if live then "owned" else "inactive";
        ah_ConnectionState := cn_State c; ah_ConnectedAt := h ≫= hl_ConnectedAt;
        ah_LastFrameAt := h ≫= hl_LastFrameAt; ah_LastPhoneResponseAt := h ≫= hl_LastPhoneResponseAt;
        ah_ReconnectCount := from_option hl_ReconnectCount 0 h;
        ah_CurrentBackoff := from_option hl_BackoffMicroseconds 0 h * Microsecond;
        ah_LastSafeReason := from_option hl_LastSafeReason "none" h;
        ah_RequiresReauthorization := bool_decide (cn_State c = ConnectionStateReauthorizationRequired);
        ah_UpdatedAt := from_option hl_UpdatedAt connectionUpdatedAt h |})
    end) db.

(** ** Fenced writes to the connection *)

(** quarantineBackfillConnectionSQL: suspend the connection, take the lease away
    under a new token and record stopped health, or fail as a whole. *)
Definition quarantine_health (old : option HealthRow) (token now : Z) (safeReason : string) : HealthRow :=
  match old with
  | None => {|
      hl_Token := token; hl_ActorState := "stopped"; hl_ConnectionState := ConnectionStateSuspended;
      hl_ConnectedAt := None; hl_LastFrameAt := None; hl_LastPhoneResponseAt := None;
      hl_ReconnectCount := 0; hl_BackoffMicroseconds := 0; hl_LastSafeReason := safeReason;
      hl_RequiresReauthorization := false; hl_UpdatedAt := now |}
  | Some h => {|
      hl_Token := token; hl_ActorState := "stopped"; hl_ConnectionState := ConnectionStateSuspended;
      hl_ConnectedAt := hl_ConnectedAt h; hl_LastFrameAt := hl_LastFrameAt h;
      hl_LastPhoneResponseAt := hl_LastPhoneResponseAt h; hl_ReconnectCount := hl_ReconnectCount h;
      hl_BackoffMicroseconds := 0; hl_LastSafeReason := safeReason;
      hl_RequiresReauthorization := false; hl_UpdatedAt := now |}
  end.

Definition quarantinable (state : ConnectionState) : bool :=
  match state with
  | ConnectionStateConnected | ConnectionStateDegraded | ConnectionStateDisconnected
  | ConnectionStateSuspended => true
  | _ => false
  end.

Definition QuarantineBackfillConnection (tenantID connectionID safeReason : string) (now : Z) (db : Db)
    : Db * result unit :=
  if (tenantID =s "") || (connectionID =s "") || (safeReason <>s "provider-protocol")
  then (db, Err [ErrInvalidIdentifier])
  else inTenant tenantID (fun db =>
    match connections db !! (tenantID, connectionID), leases db !! (tenantID, connectionID) with
    | Some c, Some l =>
      if negb (quarantinable (cn_State c)) then Err [SqlErrNoRows]
      else
        let! token := next_token (ls_Token l) in
        let! db1 := put_connection tenantID connectionID (with_state c ConnectionStateSuspended) db in
        let db2 := set_leases (<[(tenantID, connectionID) :=
                     {| ls_Owner := None; ls_Token := token; ls_ExpiresAt := now |}]> (leases db1)) db1 in
        Ok (set_health (<[(tenantID, connectionID) :=
              quarantine_health (Store.health db2 !! (tenantID, connectionID)) token now safeReason]>
              (Store.health db2)) db2, tt)
    | _, _ => Err [SqlErrNoRows]
    end) db.

Definition MarkReauthorizationRequiredFenced (tenantID connectionID ownerID : string) (fencingToken : Z)
    (eventID : string) (wall now : Z) (db : Db) : Db * result bool :=
  if (tenantID =s "") || (connectionID =s "") || (ownerID =s "") || (fencingToken =? 0)
  then (db, Err [ErrInvalidLease])
  else if eventID =s "" then (db, Err [ErrText "generate authorization event ID"])
  else inTenant tenantID (fun db =>
    match connections db !! (tenantID, connectionID) with
    | None => Ok (db, false)
    | Some c =>
      if negb (reauthorizable (cn_State c)) ||
         negb (owned_lease db tenantID connectionID ownerID fencingToken now)
      then Ok (db, false)
      else
        let kept := default "" (cn_ReauthorizationEventID c) in
        let storedEventID := if kept =s "" then eventID else kept in
        let! db1 := put_connection tenantID connectionID (with_reauthorization c storedEventID) db in
        let! db2 := insertReauthorizationEvent tenantID connectionID storedEventID wall now db1 in
        Ok (db2, true)
    end) db.

Definition CompareAndSwapEncryptedSessionFenced (tenantID connectionID ownerID : string)
    (fencingToken expectedRevision : Z) (envelope : Session.Envelope) (now : Z) (db : Db)
    : Db * result bool :=
  if (tenantID =s "") || (connectionID =s "") || (ownerID =s "") || (fencingToken =? 0) ||
     (expectedRevision =? 0) || negb (is_ok (Envelope_Validate envelope))
  then (db, Err [ErrInvalidEncryptedSession])
  else inTenant tenantID (fun db =>
    if owned_lease db tenantID connectionID ownerID fencingToken now
    then swap_session tenantID connectionID expectedRevision envelope db
    else Ok (db, false)) db.

#[export] Instance Repository_fenced_envelopes : FencedEnvelopeStore Db := {
  es_SwapFenced t c owner token revision envelope now db :=
    CompareAndSwapEncryptedSessionFenced t c owner token revision envelope now db
}.

(** ** Histories of lease operations *)

Inductive LeaseOp :=
| OpAcquire (t c owner : string) (ttl : Z)
| OpRenew (t c owner : string) (token ttl : Z)
| OpRelease (t c owner : string) (token : Z)
| OpWriteHealth (t c owner : string) (token : Z) (h : ConnectionActorHealth)
| OpQuarantine (t c reason : string)
| OpMarkReauthorizationFenced (t c owner : string) (token : Z) (event : string) (wall : Z)
| OpMarkReauthorization (t c event : string) (wall : Z)
| OpSwapSession (t c owner : string) (token revision : Z) (envelope : Session.Envelope).

Inductive LeaseReply :=
| Acquired (l : option ConnectionLease)
| Owned (b : bool)
| Done
| Failed (e : error).

Definition reply {A} (f : A -> LeaseReply) (r : result A) : LeaseReply :=
  match r with Ok a => f a | Err e => Failed e end.

Definition exec (op : LeaseOp) (now : Z) (db : Db) : Db * LeaseReply :=
  match op with
  | OpAcquire t c owner ttl =>
      let '(db', r) := AcquireConnectionLease t c owner ttl now db in (db', reply Acquired r)
  | OpRenew t c owner token ttl =>
      let '(db', r) := RenewConnectionLease t c owner token ttl now db in (db', reply Owned r)
  | OpRelease t c owner token =>
      let '(db', r) := ReleaseConnectionLease t c owner token now db in (db', reply Owned r)
  | OpWriteHealth t c owner token h =>
      let '(db', r) := WriteConnectionHealthFenced t c owner token h now db in (db', reply Owned r)
  | OpQuarantine t c reason =>
      let '(db', r) := QuarantineBackfillConnection t c reason now db in (db', reply (fun _ => Done) r)
  | OpMarkReauthorizationFenced t c owner token event wall =>
      let '(db', r) := MarkReauthorizationRequiredFenced t c owner token event wall now db in
      (db', reply Owned r)
  | OpMarkReauthorization t c event wall =>
      let '(db', r) := MarkReauthorizationRequired t c event wall now db in
      (db', reply (fun _ => Done) r)
  | OpSwapSession t c owner token revision envelope =>
      let '(db', r) := CompareAndSwapEncryptedSessionFenced t c owner token revision envelope now db in
      (db', reply Owned r)
  end.

(** How a lease row may change: its token never goes back, and under the same
    token it keeps its owner or loses it. *)
Definition lease_evolves (l l' : LeaseRow) : Prop :=
  ls_Token l < ls_Token l' \/
  ls_Token l = ls_Token l' /\ (ls_Owner l' = ls_Owner l \/ ls_Owner l' = None).

#[export] Instance lease_evolves_refl : Reflexive lease_evolves.
Proof. intros l. right. auto. Qed.

#[export] Instance lease_evolves_trans : Transitive lease_evolves.
Proof.
  intros a b c [Hab|[Hab Ho]] [Hbc|[Hbc Ho']]; [left; lia..|]. right. split; [lia|].
  destruct Ho' as [->|]; auto.
Qed.

Definition table_evolves (m m' : gmap (string * string) LeaseRow) : Prop :=
  forall k l, m !! k = Some l -> exists l', m' !! k = Some l' /\ lease_evolves l l'.

#[export] Instance table_evolves_refl : Reflexive table_evolves.
Proof. intros m k l Hl. exists l. split; [done | reflexivity]. Qed.

#[export] Instance table_evolves_trans : Transitive table_evolves.
Proof.
  intros m1 m2 m3 H12 H23 k l Hl. destruct (H12 _ _ Hl) as (l2 & Hl2 & He).
  destruct (H23 _ _ Hl2) as (l3 & Hl3 & He'). exists l3. split; [done | by transitivity l2].
Qed.

Lemma table_evolves_insert m k l' :
  (forall l, m !! k = Some l -> lease_evolves l l') -> table_evolves m (<[k := l']> m).
Proof.
  intros H k' l Hl. destruct (decide (k = k')) as [<-|Hk].
  - exists l'. rewrite lookup_insert_eq. auto.
  - exists l. rewrite lookup_insert_ne by done. split; [done | reflexivity].
Qed.

(** Steps that leave the lease table alone. *)
Lemma insertGatewayEvent_leases t e ty at_ ai c cv body db db' :
  insertGatewayEvent t e ty at_ ai c cv body db = Ok db' -> leases db' = leases db.
Proof. by intros [_ ->]%insertGatewayEvent_ok. Qed.

Lemma insert_outbox_row_leases t o e d now db db' :
  insert_outbox_row t o e d now db = Ok db' -> leases db' = leases db.
Proof. by intros (_ & _ & ->)%insert_outbox_row_ok. Qed.

Lemma ensure_outbox_row_leases t o e d now db db' :
  ensure_outbox_row t o e d now db = Ok db' -> leases db' = leases db.
Proof.
  unfold ensure_outbox_row. destruct (outbox_has _ _ _ _); [congruence|].
  apply insert_outbox_row_leases.
Qed.

Lemma insertReauthorizationEvent_leases t c e wall now db db' :
  insertReauthorizationEvent t c e wall now db = Ok db' -> leases db' = leases db.
Proof.
  unfold insertReauthorizationEvent. intros (body & _ & (db1 & H1 & H)%result_bind_ok)%result_bind_ok.
  assert (leases db1 = leases db) as <-.
  { destruct (events db !! (t, e)); [congruence|]. by eapply insertGatewayEvent_leases. }
  destruct (events db1 !! (t, e)); [|done]. destruct (_ || _); [done|].
  apply result_bind_ok in H as (db2 & H2 & H3).
  apply ensure_outbox_row_leases in H2, H3. congruence.
Qed.

Lemma put_connection_leases t c row db db' :
  put_connection t c row db = Ok db' -> leases db' = leases db.
Proof. by intros [_ ->]%put_connection_ok. Qed.

Lemma next_token_ok token token' : next_token token = Ok token' -> token' = token + 1.
Proof. unfold next_token. destruct (_ >? _); congruence. Qed.

Lemma fence_lease_evolves t c now db db' :
  fence_lease_for_reauthorization t c now db = Ok db' -> table_evolves (leases db) (leases db').
Proof.
  unfold fence_lease_for_reauthorization. destruct (leases db !! (t, c)) as [l|] eqn:El;
    [|intros [= <-]; reflexivity].
  destruct (ls_Owner l); [|intros [= <-]; reflexivity].
  intros (token & Ht & H)%result_bind_ok. injection H as <-. apply next_token_ok in Ht.
  apply table_evolves_insert. intros l' Hl'. left. simpl. rewrite El in Hl'. injection Hl' as <-. lia.
Qed.

Lemma swap_session_leases t c rev env db db' b :
  swap_session t c rev env db = Ok (db', b) -> leases db' = leases db.
Proof.
  unfold swap_session. destruct (sessions db !! (t, c)); [|congruence].
  destruct (_ =? _); [|congruence]. intros (r & _ & H)%result_bind_ok. by injection H as <-.
Qed.

Lemma acquire_lease_row_evolves l owner expires now l' :
  acquire_lease_row (Some l) owner expires now = Ok (Some l') ->
  lease_evolves l l' /\ (ls_Token l' = ls_Token l -> ls_Owner l = Some owner).
Proof.
  unfold acquire_lease_row. intros H. destruct (_ || _) eqn:E; [|done].
  apply result_bind_ok in H as (token & Ht & H). injection H as <-. simpl.
  destruct (bool_decide (ls_Owner l = Some owner)) eqn:Em; reflect_bools; simpl in Ht.
  - destruct (ls_ExpiresAt l >? now).
    + injection Ht as <-. rewrite Em. split; [right; auto | auto].
    + apply next_token_ok in Ht. split; [left; simpl; lia | intros; exact Em].
  - apply next_token_ok in Ht. split; [left; simpl; lia | simpl; lia].
Qed.

(** Opens a repository call: refused before the transaction, rolled back, or
    committed. *)
Ltac open_call H :=
  lazymatch type of H with
  | (if ?b then _ else _) = _ => destruct b; [injection H as <- <-| open_call H]
  | inTenant _ _ _ = _ =>
      apply inTenant_cases in H as [[-> [? ->]]|[? [-> H]]]
  end.

Lemma acquire_evolves t c owner ttl now db db' r :
  AcquireConnectionLease t c owner ttl now db = (db', r) ->
  table_evolves (leases db) (leases db') /\
  (forall cl, r = Ok (Some cl) ->
     cl_OwnerID cl = owner /\
     leases db' !! (t, c) = Some {| ls_Owner := Some owner; ls_Token := cl_FencingToken cl;
                                    ls_ExpiresAt := cl_ExpiresAt cl |} /\
     (forall l, leases db !! (t, c) = Some l ->
        ls_Token l < cl_FencingToken cl \/
        ls_Token l = cl_FencingToken cl /\ ls_Owner l = Some owner)).
Proof.
  unfold AcquireConnectionLease. intros H. open_call H.
  { split; [reflexivity | done]. } { split; [reflexivity | done]. }
  apply result_bind_ok in H as (? & _ & (row & Hrow & H)%result_bind_ok).
  destruct row as [l'|]; injection H as <- <-; [|split; [reflexivity | done]].
  assert (Hl : forall l, leases db !! (t, c) = Some l ->
    lease_evolves l l' /\ (ls_Token l' = ls_Token l -> ls_Owner l = Some owner)).
  { intros l El. rewrite El in Hrow. by eapply acquire_lease_row_evolves. }
  split.
  - apply table_evolves_insert. intros l El. by apply Hl.
  - intros cl [= <-]. simpl. split; [done|]. split.
    + rewrite lookup_insert_eq. f_equal.
      unfold acquire_lease_row in Hrow. destruct (leases db !! (t, c)).
      * destruct (_ || _); [|done]. apply result_bind_ok in Hrow as (tk & _ & Hrow).
        by injection Hrow as <-.
      * by injection Hrow as <-.
    + intros l El. destruct (Hl l El) as [[?|[? _]] Ho]; [auto|]. right. auto.
Qed.

Lemma exec_evolves op now db db' r :
  exec op now db = (db', r) -> table_evolves (leases db) (leases db').
Proof.
  destruct op as [t c o ttl|t c o k ttl|t c o k|t c o k h|t c reason|t c o k e w|t c e w|t c o k rv en];
    cbn [exec];
    match goal with |- (let '(_, _) := ?f in _) = _ -> _ => destruct f as [db1 r1] eqn:H end;
    intros [= <- _].
  - by apply acquire_evolves in H as [? _].
  - unfold RenewConnectionLease in H. open_call H; [reflexivity..|].
    destruct (leases db !! (t, c)) as [l|] eqn:El; [|by injection H as <- <-].
    destruct (lease_matches l o k now); injection H as <- <-; [|reflexivity].
    apply table_evolves_insert. intros l' Hl'. rewrite El in Hl'. injection Hl' as <-. right. auto.
  - unfold ReleaseConnectionLease in H. open_call H; [reflexivity..|].
    destruct (leases db !! (t, c)) as [l|] eqn:El; [|by injection H as <- <-].
    destruct (lease_matches l o k now); injection H as <- <-; [|reflexivity].
    apply table_evolves_insert. intros l' Hl'. rewrite El in Hl'. injection Hl' as <-. right. auto.
  - unfold WriteConnectionHealthFenced in H. open_call H; [reflexivity..|].
    destruct (negb _); [injection H as <- <-; reflexivity|].
    apply result_bind_ok in H as (? & _ & H).
    match goal with Hh : (if ?b then _ else _) = _ |- _ => destruct b end;
      injection H as <- <-; reflexivity.
  - unfold QuarantineBackfillConnection in H. open_call H; [reflexivity..|].
    destruct (connections db !! (t, c)) as [cn|]; [|done].
    destruct (leases db !! (t, c)) as [l|] eqn:El; [|done]. destruct (negb _); [done|].
    apply result_bind_ok in H as (token & Ht & (db2 & Hp & H)%result_bind_ok).
    injection H as <- <-. simpl. apply put_connection_leases in Hp. rewrite Hp.
    apply table_evolves_insert. intros l' Hl'. rewrite El in Hl'. injection Hl' as <-.
    apply next_token_ok in Ht. left. simpl. lia.
  - unfold MarkReauthorizationRequiredFenced in H. open_call H; [reflexivity..|].
    destruct (connections db !! (t, c)) as [cn|]; [|injection H as <- <-; reflexivity].
    destruct (_ || _); [injection H as <- <-; reflexivity|].
    apply result_bind_ok in H as (db2 & Hp & (db3 & Hi & H)%result_bind_ok). injection H as <- <-.
    apply put_connection_leases in Hp. apply insertReauthorizationEvent_leases in Hi.
    rewrite Hi, Hp. reflexivity.
  - unfold MarkReauthorizationRequired in H. open_call H; [reflexivity..|].
    destruct (connections db !! (t, c)) as [cn|]; [|done].
    destruct (_ && _).
    + apply result_bind_ok in H as (db2 & Hf & (db3 & Hi & H)%result_bind_ok). injection H as <- <-.
      apply insertReauthorizationEvent_leases in Hi. rewrite Hi. by eapply fence_lease_evolves.
    + destruct (negb _); [done|]. destruct (e =s ""); [done|].
      apply result_bind_ok in H as (db2 & Hp & (db3 & Hf & (db4 & Hi & H)%result_bind_ok)%result_bind_ok).
      injection H as <- <-. apply put_connection_leases in Hp.
      apply insertReauthorizationEvent_leases in Hi. rewrite Hi, <- Hp. by eapply fence_lease_evolves.
  - unfold CompareAndSwapEncryptedSessionFenced in H. open_call H; [reflexivity..|].
    destruct (owned_lease _ _ _ _ _ _); [|injection H as <- <-; reflexivity].
    apply swap_session_leases in H. rewrite H. reflexivity.
Qed.

(** A history: operations at the database times they ran at. *)
Fixpoint exec_all (ops : list (LeaseOp * Z)) (db : Db) : Db :=
  match ops with
  | [] => db
  | (op, now) :: ops' => exec_all ops' (exec op now db).1
  end.

Lemma exec_all_evolves ops db : table_evolves (leases db) (leases (exec_all ops db)).
Proof.
  revert db. induction ops as [|[op now] ops IH]; intros db; [reflexivity|]. cbn [exec_all].
  destruct (exec op now db) as [db' r] eqn:E. transitivity (leases db');
    [by eapply exec_evolves | apply IH].
Qed.

(** Two acquisitions of the same lease, with anything in between. *)
Lemma acquire_twice db t c A B ttlA nowA ttlB nowB between db1 db3 first second :
  AcquireConnectionLease t c A ttlA nowA db = (db1, Ok (Some first)) ->
  AcquireConnectionLease t c B ttlB nowB (exec_all between db1) = (db3, Ok (Some second)) ->
  cl_FencingToken first < cl_FencingToken second \/
  cl_FencingToken first = cl_FencingToken second /\ A = B.
Proof.
  intros [_ Hf]%acquire_evolves [_ Hs]%acquire_evolves.
  destruct (Hf _ eq_refl) as (_ & Hrow & _).
  destruct (exec_all_evolves between db1 _ _ Hrow) as (l & Hl & He).
  destruct (Hs _ eq_refl) as (_ & _ & Hold). specialize (Hold _ Hl).
  unfold lease_evolves in He. simpl in He.
  destruct He as [He|[He Hown]], Hold as [Ho|[Ho Hown']]; [left; lia..|].
  right. split; [lia|]. rewrite Hown' in Hown. destruct Hown; congruence.
Qed.

(** C6. Fencing tokens identify lease holders: whatever operations happen
    between two successful acquisitions of a connection's lease (and however the
    database clock moves), the later token is at least the earlier one, and two
    acquisitions with the same token were made by the same owner. *)
Theorem fencing_tokens_identify_owners (db : Db) (t c A B : string) (ttlA nowA ttlB nowB : Z)
  (between : list (LeaseOp * Z)) (db1 db3 : Db) (first second : ConnectionLease)
  (Hfirst : AcquireConnectionLease t c A ttlA nowA db = (db1, Ok (Some first)))
  (Hsecond : AcquireConnectionLease t c B ttlB nowB (exec_all between db1) = (db3, Ok (Some second))) :
  cl_FencingToken first <= cl_FencingToken second /\
  (cl_FencingToken first = cl_FencingToken second -> A = B).
Proof. destruct (acquire_twice _ _ _ _ _ _ _ _ _ _ _ _ _ _ Hfirst Hsecond); lia || (split; [lia|tauto]). Qed.

(** The operations that act under a fencing token, and what they can be
    answered. *)
Definition fenced (op : LeaseOp) : option (string * string * Z) :=
  match op with
  | OpRenew t c _ token _ | OpRelease t c _ token | OpWriteHealth t c _ token _
  | OpMarkReauthorizationFenced t c _ token _ _ | OpSwapSession t c _ token _ _ => Some (t, c, token)
  | _ => None
  end.

Definition refused (r : LeaseReply) : Prop := r = Owned false \/ exists e, r = Failed e.

Lemma lease_matches_stale l owner token now : ls_Token l <> token -> lease_matches l owner token now = false.
Proof.
  intros H. unfold lease_matches. destruct (ls_Token l =? token) eqn:E; reflect_bools; [done|].
  by rewrite andb_false_r.
Qed.

Lemma owned_lease_stale db t c l owner token now :
  leases db !! (t, c) = Some l -> ls_Token l <> token -> owned_lease db t c owner token now = false.
Proof.
  intros Hl Hk. unfold owned_lease. rewrite Hl. apply andb_false_iff. right.
  by apply lease_matches_stale.
Qed.

Lemma fenced_stale_refused op now db t c token l :
  fenced op = Some (t, c, token) -> leases db !! (t, c) = Some l -> ls_Token l <> token ->
  exists r, exec op now db = (db, r) /\ refused r.
Proof.
  intros Hop Hl Hk. unfold refused.
  destruct op; try done; injection Hop as -> -> ->; cbn [exec];
    match goal with |- context [let '(_, _) := ?f in _] => destruct f as [db1 r1] eqn:H end;
    unfold RenewConnectionLease, ReleaseConnectionLease, WriteConnectionHealthFenced,
      MarkReauthorizationRequiredFenced, CompareAndSwapEncryptedSessionFenced in H;
    open_call H; eauto 6.
  - rewrite Hl, lease_matches_stale in H by done. injection H as <- <-. eauto.
  - rewrite Hl, lease_matches_stale in H by done. injection H as <- <-. eauto.
  - rewrite (owned_lease_stale _ _ _ _ _ _ _ Hl Hk) in H. injection H as <- <-. eauto.
  - destruct (connections db !! (t, c)); [|injection H as <- <-; eauto].
    rewrite (owned_lease_stale _ _ _ _ _ _ _ Hl Hk), orb_true_r in H. injection H as <- <-. eauto.
  - rewrite (owned_lease_stale _ _ _ _ _ _ _ Hl Hk) in H. injection H as <- <-. eauto.
Qed.

(** C7. A displaced lease holder is locked out for good: once another owner has
    acquired the lease, then after any further operations every renewal,
    release, health write, reauthorization or session swap made with the old
    token is refused and changes nothing in the database. *)
Theorem displaced_owner_locked_out (db : Db) (t c A B : string) (ttlA nowA ttlB nowB : Z)
  (between after : list (LeaseOp * Z)) (db1 db3 : Db) (old new : ConnectionLease) (op : LeaseOp) (now : Z)
  (Hold : AcquireConnectionLease t c A ttlA nowA db = (db1, Ok (Some old)))
  (Hnew : AcquireConnectionLease t c B ttlB nowB (exec_all between db1) = (db3, Ok (Some new)))
  (Hother : A <> B) (Hop : fenced op = Some (t, c, cl_FencingToken old)) :
  let db4 := exec_all after db3 in
  exists r, exec op now db4 = (db4, r) /\ refused r.
Proof.
  cbn zeta.
  assert (cl_FencingToken old < cl_FencingToken new) as Hlt
    by (destruct (acquire_twice _ _ _ _ _ _ _ _ _ _ _ _ _ _ Hold Hnew) as [|[_ ?]]; done).
  apply acquire_evolves in Hnew as [_ Hs]. destruct (Hs _ eq_refl) as (_ & Hrow & _).
  destruct (exec_all_evolves after db3 _ _ Hrow) as (l & Hl & He).
  eapply fenced_stale_refused; [exact Hop | exact Hl|].
  unfold lease_evolves in He. simpl in He. destruct He as [He|[He _]]; lia.
Qed.

(** ** A concrete history *)

Definition example_connection : ConnectionRow := {|
  cn_Name := "phone"; cn_State := ConnectionStateConnected;
  cn_Fingerprint := Some (repeat (byte_of_Z 7) 32); cn_ReauthorizationEventID := None;
  cn_PriorState := None; cn_PairingStartedAt := None; cn_PairingAttemptID := None;
  cn_TenantSuspendPriorState := None |}.

Definition example_db : Db :=
  set_connections {[("t1", "c1") := example_connection]}
    (set_tenants {["t1" := {| tn_Name := "tenant"; tn_Status := "active"; tn_MaxConnections := 128 |}]}
      empty_db).

Definition example_between : list (LeaseOp * Z) :=
  [(OpRenew "t1" "c1" "actor-a" 1 (30 * Second), 10 * Second)].

Definition example_after_a : Db := (AcquireConnectionLease "t1" "c1" "actor-a" (30 * Second) 0 example_db).1.
Definition example_after_b : Db :=
  (AcquireConnectionLease "t1" "c1" "actor-b" (30 * Second) (60 * Second)
     (exec_all example_between example_after_a)).1.

Lemma fencing_tokens_identify_owners_witness :
  exists second, AcquireConnectionLease "t1" "c1" "actor-b" (30 * Second) (60 * Second)
      (exec_all example_between example_after_a) = (example_after_b, Ok (Some second)) /\
    cl_FencingToken second = 2 /\ 1 <= cl_FencingToken second.
Proof.
  exists {| cl_OwnerID := "actor-b"; cl_FencingToken := 2; cl_ExpiresAt := 90 * Second |}.
  assert (H : AcquireConnectionLease "t1" "c1" "actor-b" (30 * Second) (60 * Second)
      (exec_all example_between example_after_a) = (example_after_b,
      Ok (Some {| cl_OwnerID := "actor-b"; cl_FencingToken := 2; cl_ExpiresAt := 90 * Second |})))
    by (vm_compute; reflexivity).
  split; [exact H|]. split; [reflexivity|].
  refine (proj1 (fencing_tokens_identify_owners example_db "t1" "c1" "actor-a" "actor-b" (30 * Second) 0
    (30 * Second) (60 * Second) example_between example_after_a example_after_b
    {| cl_OwnerID := "actor-a"; cl_FencingToken := 1; cl_ExpiresAt := 30 * Second |} _ _ H)).
  vm_compute. reflexivity.
Defined.

Lemma displaced_owner_locked_out_witness :
  exists r, exec (OpRelease "t1" "c1" "actor-a" 1) (61 * Second) example_after_b = (example_after_b, r) /\
    refused r.
Proof.
  refine (displaced_owner_locked_out example_db "t1" "c1" "actor-a" "actor-b" (30 * Second) 0
    (30 * Second) (60 * Second) example_between [] example_after_a example_after_b
    {| cl_OwnerID := "actor-a"; cl_FencingToken := 1; cl_ExpiresAt := 30 * Second |}
    {| cl_OwnerID := "actor-b"; cl_FencingToken := 2; cl_ExpiresAt := 90 * Second |}
    (OpRelease "t1" "c1" "actor-a" 1) (61 * Second) _ _ _ eq_refl).
  - vm_compute. reflexivity.
  - vm_compute. reflexivity.
  - discriminate.
Defined.
