(* ===== verification/Actor.v ===== *)
(** * The connection actor (internal/gateway/connectionactor/actor.go)

    One run of an actor: it takes the lease of a connection, restores the provider
    from the durable session, and runs provider generations until the context
    ends, the lease is lost, the session conflicts or the provider fails for good.
    [Run] is a program of calls to its store, its sessions, its provider, the
    clock, and the channels and locks it shares with the provider's callbacks and
    with the callers of [Execute]; the shared state and what each call does to it
    are at the end of the file. A [select] is a call whose answer is the ready case
    that was taken. Buffers are values: the code copies a session before it keeps
    or hands it on, and clears the copies it drops. *)

From S2P Require Import Prelude GoText Crypto Domain Session Backoff Pool Rely Store SessionVault Leases.

Definition ReasonNone : string := "none".
Definition ReasonTransientNetwork : string := "transient-network".
Definition ReasonProviderAuth : string := "provider-auth".
Definition ReasonProviderConfig : string := "provider-config".
Definition ReasonProviderProtocol : string := "provider-protocol".
Definition ReasonSharedInfrastructure : string := "shared-infrastructure".
Definition ReasonLeaseLost : string := "lease-lost".
Definition ReasonSessionConflict : string := "session-conflict".
Definition ReasonShutdown : string := "shutdown".
Definition defaultLeaseTTL : Z := 30 * Second.
Definition defaultSessionDebounce : Z := 500 * Millisecond.
Definition defaultJoinTimeout : Z := 5 * Second.
Definition providerEventBufferSize : Z := 64.
Definition defaultOperationQueueSize : Z := 64.

(** ** Configuration *)

(** [cf_collaborators]: store, sessions and providers are all given. *)
Record ActorConfig := {
  cf_OwnerID : string;
  cf_collaborators : bool;
  cf_LeaseTTL : Z;
  cf_SessionDebounce : Z;
  cf_BackoffBase : Z;
  cf_BackoffCap : Z;
  cf_OperationQueueSize : Z;
  cf_JoinTimeout : Z
}.

Record Actor := {
  ac_ownerID : string;
  ac_leaseTTL : Z;
  ac_sessionDebounce : Z;
  ac_backoffBase : Z;
  ac_backoffCap : Z;
  ac_operationQueueSize : Z;
  ac_joinTimeout : Z
}.

Definition or_default (value default : Z) : Z := if value =? 0 then default else value.

Definition NewActor (config : ActorConfig) : result Actor :=
  if (cf_OwnerID config =s "") || (len (cf_OwnerID config) >? 256) || negb (cf_collaborators config)
  then Err [ErrInvalidConfig]
  else
    let ttl := or_default (cf_LeaseTTL config) defaultLeaseTTL in
    if (ttl <? 3 * Second) || (ttl >? 10 * Minute) then Err [ErrInvalidConfig]
    else
      let debounce := or_default (cf_SessionDebounce config) defaultSessionDebounce in
      if (debounce <? 0) || (debounce >? Minute) then Err [ErrInvalidConfig]
      else
        let queue := or_default (cf_OperationQueueSize config) defaultOperationQueueSize in
        if (queue <? 1) || (queue >? 1024) then Err [ErrInvalidConfig]
        else
          let join := or_default (cf_JoinTimeout config) defaultJoinTimeout in
          if (join <? 10 * Millisecond) || (join >? 30 * Second) then Err [ErrInvalidConfig]
          else
            let! _ := NewBackoff (cf_BackoffBase config) (cf_BackoffCap config) in
            Ok {| ac_ownerID := cf_OwnerID config; ac_leaseTTL := ttl; ac_sessionDebounce := debounce;
                  ac_backoffBase := cf_BackoffBase config; ac_backoffCap := cf_BackoffCap config;
                  ac_operationQueueSize := queue; ac_joinTimeout := join |}.

Record ProviderOwnership := { ow_Key : Key; ow_OwnerID : string; ow_FencingToken : Z; ow_LeaseTTL : Z }.

(** [ProviderOwnershipFromContext]; [value] is what the context carries. *)
Definition ProviderOwnershipFromContext (value : option ProviderOwnership) : option ProviderOwnership :=
  match value with
  | Some o => if negb (Key_valid (ow_Key o)) || (ow_OwnerID o =s "") || (ow_FencingToken o =? 0) then None else Some o
  | None => None
  end.

Record SessionSnapshot := { ss_Plaintext : bytes; ss_Revision : Z }.

(** ** Sessions from the vault (vault_sessions.go) *)

Definition NewVaultSessionStore (provider : string) : result string :=
  if (provider =s "") || (len provider >? 64) then Err [ErrInvalidConfig] else Ok provider.

Definition VaultSessionStore_scope (provider : string) (key : Key) : Scope :=
  {| sc_TenantID := key_TenantID key; sc_ConnectionID := key_ConnectionID key; sc_Provider := provider |}.

Definition VaultSessionStore_LoadVersioned {W S} `{KeyWrapper W} `{EnvelopeStore S} (provider : string) (w : W) (ctx : error)
    (key : Key) (s : S) : S * result SessionSnapshot :=
  let '(s', r) := Vault_LoadVersioned w ctx (VaultSessionStore_scope provider key) s in
  (s', let! loaded := r in Ok {| ss_Plaintext := loaded.1; ss_Revision := loaded.2 |}).

Definition VaultSessionStore_CompareAndSwapFenced {W S} `{KeyWrapper W} `{FencedEnvelopeStore S} (provider : string) (w : W)
    (ctx : error) (key : Key) (ownerID : string) (fencingToken expectedRevision : Z) (plaintext : bytes)
    (dek nonce rnd : option bytes) (now : Z) (s : S) : S * result bool :=
  Vault_CompareAndSwapFenced w ctx (VaultSessionStore_scope provider key) ownerID fencingToken expectedRevision plaintext
    dek nonce rnd now s.

(** ** Operations of callers

    [rq_ID] is the identity of a request (its result channel). The queue is the
    buffered channel [operations]. *)

Record request := { rq_ID : Z; rq_RunID : Z; rq_Key : Key }.

#[export] Instance request_eq_dec : EqDecision request.
Proof. solve_decision. Defined.

Record operations := {
  op_queue : list request;
  op_key : Key;
  op_runID : Z;
  op_active : bool;
  op_ready : bool
}.

(** The check of [Execute]: the run the request will carry. [ctxErr] is [ctx.Err()]. *)
Definition Execute_admit (ctxErr : error) (key : Key) (ops : operations) : result Z :=
  if negb (is_nil ctxErr) then Err ctxErr
  else if negb (Key_valid key) then Err [ErrInvalidConfig]
  else if negb (op_active ops) || negb (op_ready ops) || bool_decide (op_key ops <> key)
  then Err [ErrProviderUnavailable]
  else Ok (op_runID ops).

(** [actor.operations <- request]; [None] while the buffer is full. *)
Definition Execute_send (queueSize : Z) (r : request) (ops : operations) : option operations :=
  if Z.of_nat (length (op_queue ops)) <? queueSize
  then Some {| op_queue := op_queue ops ++ [r]; op_key := op_key ops; op_runID := op_runID ops;
               op_active := op_active ops; op_ready := op_ready ops |}
  else None.

(** The requests drained are answered [ErrProviderUnavailable]. *)
Definition beginOperationRun (key : Key) (ops : operations) : operations * list request * result Z :=
  if op_active ops then (ops, [], Err [ErrInvalidConfig])
  else
    let runID := uint64 (op_runID ops + 1) in
    ({| op_queue := []; op_key := key; op_runID := runID; op_active := true; op_ready := false |}, op_queue ops, Ok runID).

Definition setOperationReady (runID : Z) (ready : bool) (ops : operations) : operations :=
  if op_active ops && (op_runID ops =? runID)
  then {| op_queue := op_queue ops; op_key := op_key ops; op_runID := op_runID ops;
          op_active := op_active ops; op_ready := ready |}
  else ops.

Definition endOperationRun (runID : Z) (ops : operations) : operations * list request :=
  let ended := op_active ops && (op_runID ops =? runID) in
  ({| op_queue := []; op_key := op_key ops; op_runID := op_runID ops;
      op_active := if ended then false else op_active ops;
      op_ready := if ended then false else op_ready ops |}, op_queue ops).

(** ** Callbacks of the provider *)

Inductive providerEventKind := eventReady | eventFrame | eventPhoneResponse | eventSessionChanged.

#[export] Instance providerEventKind_eq_dec : EqDecision providerEventKind.
Proof. solve_decision. Defined.

Record providerEvent := { pv_kind : providerEventKind; pv_session : bytes }.

#[export] Instance providerEvent_eq_dec : EqDecision providerEvent.
Proof. solve_decision. Defined.

(** [sessions] has room for one session. *)
Record providerCallbacks := { cb_events : list providerEvent; cb_sessions : option bytes; cb_active : bool }.

Definition newProviderCallbacks : providerCallbacks := {| cb_events := []; cb_sessions := None; cb_active := true |}.

(** [Hooks.send] of a generation; [done] says that its context is done. *)
Definition Hooks_send (done : bool) (event : providerEvent) (cb : providerCallbacks) : providerCallbacks :=
  if done || negb (cb_active cb) then cb
  else if Z.of_nat (length (cb_events cb)) <? providerEventBufferSize
  then {| cb_events := cb_events cb ++ [event]; cb_sessions := cb_sessions cb; cb_active := cb_active cb |}
  else cb.

Definition Hooks_Ready (done : bool) : providerCallbacks -> providerCallbacks :=
  Hooks_send done {| pv_kind := eventReady; pv_session := [] |}.
Definition Hooks_Frame (done : bool) : providerCallbacks -> providerCallbacks :=
  Hooks_send done {| pv_kind := eventFrame; pv_session := [] |}.
Definition Hooks_PhoneResponse (done : bool) : providerCallbacks -> providerCallbacks :=
  Hooks_send done {| pv_kind := eventPhoneResponse; pv_session := [] |}.

(** [Hooks.SessionChanged]: the hooks of a generation always have a session hook. *)
Definition replaceSession (plaintext : bytes) (cb : providerCallbacks) : providerCallbacks :=
  if negb (cb_active cb) then cb
  else {| cb_events := cb_events cb; cb_sessions := Some plaintext; cb_active := cb_active cb |}.

(** An empty channel yields [nil]. *)
Definition takeLatest (cb : providerCallbacks) : providerCallbacks * bytes :=
  ({| cb_events := cb_events cb; cb_sessions := None; cb_active := cb_active cb |},
   match cb_sessions cb with Some latest => latest | None => [] end).

Definition stopAcceptingAndTakeLatest (cb : providerCallbacks) : providerCallbacks * bytes :=
  takeLatest {| cb_events := cb_events cb; cb_sessions := cb_sessions cb; cb_active := false |}.

(** ** Calls *)

(** The cases of the two [select]s. A request comes with whether its context is
    done, an ended goroutine with the error it sent. *)
Inductive selected :=
| SelDone
| SelRenew
| SelEvent (event : providerEvent)
| SelRequest (r : request) (cancelled : bool)
| SelResult (operationErr : error)
| SelSession (session : bytes)
| SelDebounce
| SelConnect (connectErr : error).

Inductive waited := WaitDone | WaitElapsed | WaitRenew.

Inductive ActorCall : Type -> Type :=
| CtxErr : ActorCall error
| Now : ActorCall Z
| RandomBits : ActorCall (option Z * Z)
| Int63n (limit : Z) : ActorCall Z
| StartTimer (delay : Z) : ActorCall unit
(* Store *)
| AcquireLease (key : Key) (ownerID : string) (ttl : Z) : ActorCall (result (option ConnectionLease))
| RenewLease (key : Key) (ownerID : string) (token ttl : Z) : ActorCall (result bool)
| ReleaseLease (key : Key) (ownerID : string) (token : Z) : ActorCall (result bool)
| GetConnection (key : Key) : ActorCall (result Connection)
| WriteHealth (key : Key) (ownerID : string) (token : Z) (health : ConnectionActorHealth) : ActorCall (result bool)
| MarkReauthorization (key : Key) (ownerID : string) (token : Z) : ActorCall (result bool)
(* SessionStore *)
| LoadVersioned (key : Key) : ActorCall (result SessionSnapshot)
| CompareAndSwap (key : Key) (ownerID : string) (token revision : Z) (plaintext : bytes) : ActorCall (result bool)
(* operations *)
| BeginOperationRun (key : Key) : ActorCall (result Z)
| SetOperationReady (runID : Z) (ready : bool) : ActorCall unit
| EndOperationRun (runID : Z) : ActorCall unit
| StartOperation (ownership : ProviderOwnership) (r : request) : ActorCall unit
| CancelOperation (r : request) : ActorCall unit
| JoinOperation (r : request) : ActorCall (option error)
| Reply (r : request) (err : error) : ActorCall unit
(* provider *)
| Restore (ownership : ProviderOwnership) (session : bytes) : ActorCall (result unit)
| StartConnect : ActorCall unit
| CancelGeneration : ActorCall unit
| Disconnect (timeout : Z) : ActorCall bool
| JoinConnect (timeout : Z) : ActorCall (option error)
| TakeLatest : ActorCall bytes
| StopAcceptingAndTakeLatest : ActorCall bytes
(* select *)
| Select (debounce queue : bool) (operation : option request) : ActorCall selected
| WaitSelect : ActorCall waited.

(** ** The generation *)

Inductive generationExitKind :=
| generationExitShutdown | generationExitLeaseLost | generationExitSessionConflict | generationExitProvider.

Record generationExit := {
  ex_kind : generationExitKind;
  ex_err : error;
  ex_providerErr : error;
  ex_providerJoined : bool
}.

Record generationOutcome := { go_stop : bool; go_err : error }.

(** The variables of [runGeneration]; [debounce] says that the timer is set. *)
Record generation := {
  ge_snapshot : SessionSnapshot;
  ge_backoff : Backoff;
  ge_health : ConnectionActorHealth;
  ge_pending : bytes;
  ge_debounce : bool;
  ge_operation : option request
}.

Definition set_pending (pending : bytes) (debounce : bool) (g : generation) : generation := {|
  ge_snapshot := ge_snapshot g; ge_backoff := ge_backoff g; ge_health := ge_health g;
  ge_pending := pending; ge_debounce := debounce; ge_operation := ge_operation g |}.

Definition set_session (snapshot : SessionSnapshot) (pending : bytes) (g : generation) : generation := {|
  ge_snapshot := snapshot; ge_backoff := ge_backoff g; ge_health := ge_health g;
  ge_pending := pending; ge_debounce := ge_debounce g; ge_operation := ge_operation g |}.

Definition set_operation (operation : option request) (g : generation) : generation := {|
  ge_snapshot := ge_snapshot g; ge_backoff := ge_backoff g; ge_health := ge_health g;
  ge_pending := ge_pending g; ge_debounce := ge_debounce g; ge_operation := operation |}.

Definition set_ge_health (health : ConnectionActorHealth) (g : generation) : generation := {|
  ge_snapshot := ge_snapshot g; ge_backoff := ge_backoff g; ge_health := health;
  ge_pending := ge_pending g; ge_debounce := ge_debounce g; ge_operation := ge_operation g |}.

Definition set_ge_backoff (backoff : Backoff) (g : generation) : generation := {|
  ge_snapshot := ge_snapshot g; ge_backoff := backoff; ge_health := ge_health g;
  ge_pending := ge_pending g; ge_debounce := ge_debounce g; ge_operation := ge_operation g |}.

Definition initial_health (token : Z) : ConnectionActorHealth := {|
  ah_ActorState := "connecting"; ah_LeaseState := ""; ah_ConnectionState := ConnectionStateDisconnected;
  ah_ConnectedAt := None; ah_LastFrameAt := None; ah_LastPhoneResponseAt := None; ah_ReconnectCount := 0;
  ah_CurrentBackoff := 0; ah_LastSafeReason := ReasonNone; ah_RequiresReauthorization := false;
  ah_FencingToken := token; ah_UpdatedAt := time_zero |}.

(** Assignments to the fields of a health record. *)
Definition set_state (actorState : string) (state : ConnectionState) (reason : string) (h : ConnectionActorHealth)
    : ConnectionActorHealth := {|
  ah_ActorState := actorState; ah_LeaseState := ah_LeaseState h; ah_ConnectionState := state;
  ah_ConnectedAt := ah_ConnectedAt h; ah_LastFrameAt := ah_LastFrameAt h;
  ah_LastPhoneResponseAt := ah_LastPhoneResponseAt h; ah_ReconnectCount := ah_ReconnectCount h;
  ah_CurrentBackoff := ah_CurrentBackoff h; ah_LastSafeReason := reason;
  ah_RequiresReauthorization := ah_RequiresReauthorization h; ah_FencingToken := ah_FencingToken h;
  ah_UpdatedAt := ah_UpdatedAt h |}.

Definition set_delay (reconnects delay : Z) (h : ConnectionActorHealth) : ConnectionActorHealth := {|
  ah_ActorState := ah_ActorState h; ah_LeaseState := ah_LeaseState h; ah_ConnectionState := ah_ConnectionState h;
  ah_ConnectedAt := ah_ConnectedAt h; ah_LastFrameAt := ah_LastFrameAt h;
  ah_LastPhoneResponseAt := ah_LastPhoneResponseAt h; ah_ReconnectCount := reconnects;
  ah_CurrentBackoff := delay; ah_LastSafeReason := ah_LastSafeReason h;
  ah_RequiresReauthorization := ah_RequiresReauthorization h; ah_FencingToken := ah_FencingToken h;
  ah_UpdatedAt := ah_UpdatedAt h |}.

Definition clear_backoff (h : ConnectionActorHealth) : ConnectionActorHealth := set_delay (ah_ReconnectCount h) 0 h.

Definition set_times (connected frame phone : option Z) (h : ConnectionActorHealth) : ConnectionActorHealth := {|
  ah_ActorState := ah_ActorState h; ah_LeaseState := ah_LeaseState h; ah_ConnectionState := ah_ConnectionState h;
  ah_ConnectedAt := connected; ah_LastFrameAt := frame;
  ah_LastPhoneResponseAt := phone; ah_ReconnectCount := ah_ReconnectCount h;
  ah_CurrentBackoff := ah_CurrentBackoff h; ah_LastSafeReason := ah_LastSafeReason h;
  ah_RequiresReauthorization := ah_RequiresReauthorization h; ah_FencingToken := ah_FencingToken h;
  ah_UpdatedAt := ah_UpdatedAt h |}.

Definition set_reauthorization (h : ConnectionActorHealth) : ConnectionActorHealth := {|
  ah_ActorState := ah_ActorState h; ah_LeaseState := ah_LeaseState h; ah_ConnectionState := ah_ConnectionState h;
  ah_ConnectedAt := ah_ConnectedAt h; ah_LastFrameAt := ah_LastFrameAt h;
  ah_LastPhoneResponseAt := ah_LastPhoneResponseAt h; ah_ReconnectCount := ah_ReconnectCount h;
  ah_CurrentBackoff := ah_CurrentBackoff h; ah_LastSafeReason := ah_LastSafeReason h;
  ah_RequiresReauthorization := true; ah_FencingToken := ah_FencingToken h;
  ah_UpdatedAt := ah_UpdatedAt h |}.

Definition stamp (token now : Z) (h : ConnectionActorHealth) : ConnectionActorHealth := {|
  ah_ActorState := ah_ActorState h; ah_LeaseState := ah_LeaseState h; ah_ConnectionState := ah_ConnectionState h;
  ah_ConnectedAt := ah_ConnectedAt h; ah_LastFrameAt := ah_LastFrameAt h;
  ah_LastPhoneResponseAt := ah_LastPhoneResponseAt h; ah_ReconnectCount := ah_ReconnectCount h;
  ah_CurrentBackoff := ah_CurrentBackoff h; ah_LastSafeReason := ah_LastSafeReason h;
  ah_RequiresReauthorization := ah_RequiresReauthorization h; ah_FencingToken := token;
  ah_UpdatedAt := now |}.

Definition terminalProviderError (err : error) : bool :=
  errors_Is err ErrStaleGeneration || errors_Is err ErrSharedInfrastructure || errors_Is err ErrProviderAuthorization ||
  errors_Is err ErrProviderPermanentConfig || errors_Is err ErrProviderPermanentProtocol.

(** [None] where the code returns false. *)
Definition applyTerminalProviderHealth (health : ConnectionActorHealth) (providerErr : error) : option ConnectionActorHealth :=
  if errors_Is providerErr ErrStaleGeneration
  then Some (clear_backoff (set_state "lease-lost" ConnectionStateDisconnected ReasonLeaseLost health))
  else if errors_Is providerErr ErrSharedInfrastructure
  then Some (clear_backoff (set_state "stopped" ConnectionStateDegraded ReasonSharedInfrastructure health))
  else if errors_Is providerErr ErrProviderAuthorization
  then Some (clear_backoff (set_state "stopped" ConnectionStateDegraded ReasonProviderAuth health))
  else if errors_Is providerErr ErrProviderPermanentConfig
  then Some (clear_backoff (set_state "stopped" ConnectionStateDegraded ReasonProviderConfig health))
  else if errors_Is providerErr ErrProviderPermanentProtocol
  then Some (clear_backoff (set_state "stopped" ConnectionStateDegraded ReasonProviderProtocol health))
  else None.

Definition joinError (disconnectJoined connectJoined : bool) : error :=
  if disconnectJoined && connectJoined then [] else [ErrProviderJoinTimeout].

(** [owned, err] of a fenced call. *)
Definition granted (r : result bool) : bool := match r with Ok true => true | _ => false end.
Definition err_of (r : result bool) : error := match r with Err e => e | Ok _ => [] end.

Section Program.
Variable actor : Actor.
Variable key : Key.
Variable token : Z.

Definition ownership : ProviderOwnership := {|
  ow_Key := key; ow_OwnerID := ac_ownerID actor; ow_FencingToken := token; ow_LeaseTTL := ac_leaseTTL actor |}.

Definition writeHealth (health : ConnectionActorHealth) : prog ActorCall (ConnectionActorHealth * result bool) :=
  call! now := Now in
  let health := stamp token now health in
  call! written := WriteHealth key (ac_ownerID actor) token health in
  Ret (health, written).

Definition startRenewTimer : prog ActorCall unit :=
  call! random := RandomBits in
  call! _ := StartTimer (renewDelay (ac_leaseTTL actor) random.1 random.2) in Ret tt.

(** The new snapshot and pending session, and what the code returns. *)
Definition flushPendingSession (snapshot : SessionSnapshot) (pending : bytes)
    : prog ActorCall (SessionSnapshot * bytes * result bool) :=
  if is_nil pending then Ret (snapshot, pending, Ok true)
  else
    call! swapped := CompareAndSwap key (ac_ownerID actor) token (ss_Revision snapshot) pending in
    if granted swapped
    then Ret ({| ss_Plaintext := pending; ss_Revision := uint64 (ss_Revision snapshot + 1) |}, [], Ok true)
    else Ret (snapshot, [], swapped).

Inductive loop_next := Continue (g : generation) | Exit (g : generation) (exit : generationExit).

Definition exit_of (kind : generationExitKind) (err : error) : generationExit :=
  {| ex_kind := kind; ex_err := err; ex_providerErr := []; ex_providerJoined := false |}.

(** A fenced call failed: shutdown when the context is done, else the lease is lost. *)
Definition fenceExit (g : generation) (err : error) : prog ActorCall loop_next :=
  call! ctxErr := CtxErr in
  Ret (Exit g (if is_nil ctxErr then exit_of generationExitLeaseLost err else exit_of generationExitShutdown [])).

Definition keepPending (g : generation) (session : bytes) : prog ActorCall loop_next :=
  if ge_debounce g then Ret (Continue (set_pending session true g))
  else call! _ := StartTimer (ac_sessionDebounce actor) in Ret (Continue (set_pending session true g)).

(** What an event does to the backoff and the health. *)
Definition eventHealth (kind : providerEventKind) (now : Z) (g : generation) : generation :=
  let h := ge_health g in
  match kind with
  | eventReady => set_ge_backoff (Backoff_Ready (ge_backoff g))
      (set_ge_health (clear_backoff (set_state "ready" ConnectionStateConnected ReasonNone
        (set_times (Some now) (ah_LastFrameAt h) (ah_LastPhoneResponseAt h) h))) g)
  | eventFrame => set_ge_health (set_times (ah_ConnectedAt h) (Some now) (ah_LastPhoneResponseAt h) h) g
  | eventPhoneResponse => set_ge_health (set_times (ah_ConnectedAt h) (ah_LastFrameAt h) (Some now) h) g
  | eventSessionChanged => g
  end.

(** One iteration of the generation loop. *)
Definition generationStep (runID : Z) (g : generation) : prog ActorCall loop_next :=
  let idle := bool_decide (ge_operation g = None) in
  call! case := Select (ge_debounce g) (idle && (ah_ActorState (ge_health g) =s "ready")) (ge_operation g) in
  match case with
  | SelDone => Ret (Exit g (exit_of generationExitShutdown []))
  | SelRenew =>
    call! renewed := RenewLease key (ac_ownerID actor) token (ac_leaseTTL actor) in
    if granted renewed then do! _ := startRenewTimer in Ret (Continue g) else fenceExit g (err_of renewed)
  | SelEvent event =>
    if bool_decide (pv_kind event = eventSessionChanged) then keepPending g (pv_session event)
    else
      call! now := Now in
      let g := eventHealth (pv_kind event) now g in
      do! written := writeHealth (ge_health g) in
      let g := set_ge_health written.1 g in
      if granted written.2 then
        if bool_decide (pv_kind event = eventReady)
        then call! _ := SetOperationReady runID true in Ret (Continue g)
        else Ret (Continue g)
      else fenceExit g (err_of written.2)
  | SelRequest r cancelled =>
    if negb (rq_RunID r =? runID) || bool_decide (rq_Key r <> key) || cancelled
    then call! _ := Reply r [ErrProviderUnavailable] in Ret (Continue g)
    else call! _ := StartOperation ownership r in Ret (Continue (set_operation (Some r) g))
  | SelResult operationErr =>
    match ge_operation g with
    | Some r => call! _ := CancelOperation r in call! _ := Reply r operationErr in Ret (Continue (set_operation None g))
    | None => Ret (Continue g)
    end
  | SelSession session => keepPending g session
  | SelDebounce =>
    call! latest := TakeLatest in
    let g := set_pending (if is_nil latest then ge_pending g else latest) false g in
    call! ctxErr := CtxErr in
    if negb (is_nil ctxErr) then Ret (Exit g (exit_of generationExitShutdown []))
    else
      do! flushed := flushPendingSession (ge_snapshot g) (ge_pending g) in
      let g := set_session flushed.1.1 flushed.1.2 g in
      if granted flushed.2 then Ret (Continue g)
      else Ret (Exit g (exit_of generationExitSessionConflict (err_of flushed.2)))
  | SelConnect connectErr =>
    let joined kind providerErr :=
      {| ex_kind := kind; ex_err := []; ex_providerErr := providerErr; ex_providerJoined := true |} in
    if terminalProviderError connectErr then Ret (Exit g (joined generationExitProvider connectErr))
    else
      call! ctxErr := CtxErr in
      if negb (is_nil ctxErr) || errors_Is connectErr ContextCanceled
      then Ret (Exit g (joined generationExitShutdown []))
      else Ret (Exit g (joined generationExitProvider connectErr))
  end.

(** The loop; [None] while it still runs after [steps] iterations. *)
Fixpoint generationLoop (steps : nat) (runID : Z) (g : generation) : prog ActorCall (option (generation * generationExit)) :=
  match steps with
  | O => Ret None
  | S steps =>
    do! next := generationStep runID g in
    match next with
    | Continue g => generationLoop steps runID g
    | Exit g exit => Ret (Some (g, exit))
    end
  end.

(** The operation in flight is cancelled and joined. *)
Definition joinOperation (g : generation) (exit : generationExit) : prog ActorCall generationExit :=
  match ge_operation g with
  | None => Ret exit
  | Some r =>
    call! _ := CancelOperation r in
    call! joined := JoinOperation r in
    match joined with
    | Some operationErr => call! _ := Reply r operationErr in Ret exit
    | None =>
      call! _ := Reply r [ErrProviderUnavailable] in
      Ret {| ex_kind := ex_kind exit; ex_err := errors_Join [ex_err exit; [ErrProviderJoinTimeout]];
             ex_providerErr := ex_providerErr exit; ex_providerJoined := ex_providerJoined exit |}
    end
  end.

Definition stopped (err : error) : generationOutcome := {| go_stop := true; go_err := err |}.

Definition writeHealthDetached (health : ConnectionActorHealth) (outcome : generationOutcome)
    : prog ActorCall (ConnectionActorHealth * generationOutcome) :=
  do! written := writeHealth health in Ret (written.1, outcome).

(** The last part of [finalizeGeneration]: everything is joined and the session is
    flushed. *)
Definition finalizeJoined (exit : generationExit) (h : ConnectionActorHealth)
    : prog ActorCall (ConnectionActorHealth * generationOutcome) :=
  let providerErr := ex_providerErr exit in
  match (if terminalProviderError providerErr then generationExitProvider else ex_kind exit) with
  | generationExitShutdown =>
    writeHealthDetached (clear_backoff (set_state "stopped" ConnectionStateDisconnected ReasonShutdown h)) (stopped [])
  | generationExitLeaseLost =>
    writeHealthDetached (clear_backoff (set_state "lease-lost" ConnectionStateDisconnected ReasonLeaseLost h)) (stopped (ex_err exit))
  | generationExitSessionConflict =>
    writeHealthDetached (clear_backoff (set_state "stopped" ConnectionStateDegraded ReasonSessionConflict h)) (stopped (ex_err exit))
  | generationExitProvider =>
    if errors_Is providerErr ErrStaleGeneration then
      writeHealthDetached (clear_backoff (set_state "lease-lost" ConnectionStateDisconnected ReasonLeaseLost h)) (stopped providerErr)
    else if errors_Is providerErr ErrSharedInfrastructure then
      writeHealthDetached (set_state "stopped" ConnectionStateDegraded ReasonSharedInfrastructure h) (stopped providerErr)
    else if errors_Is providerErr ErrProviderAuthorization then
      call! transitioned := MarkReauthorization key (ac_ownerID actor) token in
      if granted transitioned then
        writeHealthDetached (set_reauthorization
          (set_state "stopped" ConnectionStateReauthorizationRequired ReasonProviderAuth h)) (stopped [])
      else Ret (h, stopped (err_of transitioned))
    else if errors_Is providerErr ErrProviderPermanentConfig then
      writeHealthDetached (set_state "stopped" ConnectionStateDegraded ReasonProviderConfig h) (stopped [])
    else if errors_Is providerErr ErrProviderPermanentProtocol then
      writeHealthDetached (set_state "stopped" ConnectionStateDegraded ReasonProviderProtocol h) (stopped providerErr)
    else Ret (h, {| go_stop := false; go_err := [] |})
  end.

(** [Connect] is joined unless it was already. *)
Definition joinConnect (exit : generationExit) : prog ActorCall (generationExit * bool) :=
  if ex_providerJoined exit then Ret (exit, true)
  else
    call! joined := JoinConnect (ac_joinTimeout actor) in
    match joined with
    | None => Ret (exit, false)
    | Some connectErr =>
      if terminalProviderError connectErr then
        Ret ({| ex_kind := generationExitProvider; ex_err := ex_err exit;
                ex_providerErr := errors_Join [ex_providerErr exit; connectErr];
                ex_providerJoined := ex_providerJoined exit |}, true)
      else Ret (exit, true)
    end.

(** The health written when the final flush failed, or when something could not be
    joined. *)
Definition flushFailedHealth (exit : generationExit) (h : ConnectionActorHealth) : ConnectionActorHealth :=
  clear_backoff match applyTerminalProviderHealth h (ex_providerErr exit) with
  | Some h => h
  | None =>
    match ex_kind exit with
    | generationExitLeaseLost => set_state "lease-lost" ConnectionStateDisconnected ReasonLeaseLost h
    | _ => set_state "stopped" ConnectionStateDegraded ReasonSessionConflict h
    end
  end.

Definition unjoinedHealth (exit : generationExit) (h : ConnectionActorHealth) : ConnectionActorHealth :=
  clear_backoff match applyTerminalProviderHealth h (ex_providerErr exit) with
  | Some h => h
  | None => set_state "stopped" ConnectionStateDegraded ReasonProviderProtocol h
  end.

Definition finalizeGeneration (g : generation) (exit : generationExit) : prog ActorCall (generation * generationOutcome) :=
  call! _ := CancelGeneration in
  call! disconnectJoined := Disconnect (ac_joinTimeout actor) in
  do! connect := joinConnect exit in
  let '(exit, connectJoined) := connect in
  call! latest := StopAcceptingAndTakeLatest in
  let pending := if is_nil latest then ge_pending g else latest in
  do! flushed := flushPendingSession (ge_snapshot g) pending in
  let g := set_session flushed.1.1 flushed.1.2 g in
  let swapped := flushed.2 in
  let joinErr := joinError disconnectJoined connectJoined in
  do! final := (
    if negb (granted swapped) then
      writeHealthDetached (flushFailedHealth exit (ge_health g))
        (stopped (errors_Join [err_of swapped; ex_err exit; ex_providerErr exit; joinErr]))
    else if negb disconnectJoined || negb connectJoined || errors_Is (ex_err exit) ErrProviderJoinTimeout then
      writeHealthDetached (unjoinedHealth exit (ge_health g))
        (stopped (errors_Join [ex_err exit; ex_providerErr exit; joinErr]))
    else finalizeJoined exit (ge_health g)) in
  Ret (set_ge_health final.1 g, final.2).

Definition runGeneration (steps : nat) (runID : Z) (g : generation) : prog ActorCall (option (generation * generationOutcome)) :=
  call! _ := SetOperationReady runID false in
  call! _ := StartConnect in
  do! _ := startRenewTimer in
  do! looped := generationLoop steps runID (set_operation None (set_pending [] false g)) in
  match looped with
  | None => Ret None
  | Some (g, exit) =>
    call! _ := SetOperationReady runID false in
    do! exit := joinOperation g exit in
    do! final := finalizeGeneration (set_operation None g) exit in
    call! _ := SetOperationReady runID false in
    Ret (Some final)
  end.

(** [waitBackoff]: its error, [None] while it still waits. *)
Fixpoint waitLoop (steps : nat) (h : ConnectionActorHealth) : prog ActorCall (option (ConnectionActorHealth * error)) :=
  match steps with
  | O => Ret None
  | S steps =>
    call! case := WaitSelect in
    match case with
    | WaitDone => call! ctxErr := CtxErr in Ret (Some (h, ctxErr))
    | WaitElapsed => Ret (Some (h, []))
    | WaitRenew =>
      call! renewed := RenewLease key (ac_ownerID actor) token (ac_leaseTTL actor) in
      if granted renewed then do! _ := startRenewTimer in waitLoop steps h
      else
        do! written := writeHealth (set_state "lease-lost" (ah_ConnectionState h) ReasonLeaseLost h) in
        Ret (Some (written.1, if is_nil (err_of renewed) then [ErrLeaseUnavailable] else err_of renewed))
    end
  end.

Definition waitBackoff (steps : nat) (delay : Z) (h : ConnectionActorHealth)
    : prog ActorCall (option (ConnectionActorHealth * error)) :=
  call! _ := StartTimer delay in
  do! _ := startRenewTimer in
  waitLoop steps h.

(** Between two generations: the error that ends the run, or the health to go on with. *)
Definition backOff (steps : nat) (g : generation) : prog ActorCall (option (generation + error)) :=
  call! delay := Int63n (backoff_limit (uint64 (bo_failures (ge_backoff g) + 1)) (bo_base (ge_backoff g)) (bo_cap (ge_backoff g))) in
  let g := set_ge_backoff (Backoff_Fail (fun _ => delay) (ge_backoff g)).1 g in
  let h := set_delay (uint64 (ah_ReconnectCount (ge_health g) + 1)) delay
             (set_state "backoff" ConnectionStateDegraded ReasonTransientNetwork (ge_health g)) in
  do! written := writeHealth h in
  if negb (granted written.2) then Ret (Some (inr (err_of written.2)))
  else
    do! waited := waitBackoff steps delay written.1 in
    match waited with
    | None => Ret None
    | Some (h, waitErr) =>
      if negb (is_nil waitErr) then Ret (Some (inr (if errors_Is waitErr ContextCanceled then [] else waitErr)))
      else
        do! written := writeHealth (clear_backoff (set_state "connecting" (ah_ConnectionState h) (ah_LastSafeReason h) h)) in
        if negb (granted written.2) then Ret (Some (inr (err_of written.2)))
        else Ret (Some (inl (set_ge_health written.1 g)))
    end.

(** The loop of [Run]; each of its inner loops is cut after [steps] iterations. *)
Fixpoint generations (fuel steps : nat) (runID : Z) (g : generation) : prog ActorCall (option error) :=
  match fuel with
  | O => Ret None
  | S fuel =>
    call! restored := Restore ownership (ss_Plaintext (ge_snapshot g)) in
    match restored with
    | Err _ =>
      do! _ := writeHealth (set_state "stopped" ConnectionStateDegraded ReasonProviderConfig (ge_health g)) in Ret (Some [])
    | Ok _ =>
      do! outcome := runGeneration steps runID g in
      match outcome with
      | None => Ret None
      | Some (g, outcome) =>
        if go_stop outcome then Ret (Some (go_err outcome))
        else
          do! next := backOff steps g in
          match next with
          | None => Ret None
          | Some (inr err) => Ret (Some err)
          | Some (inl g) => generations fuel steps runID g
          end
      end
    end
  end.

(** [Run] once its lease and its operation run are taken. *)
Definition runRegistered (fuel steps : nat) (runID : Z) : prog ActorCall (option error) :=
  call! found := GetConnection key in
  match found with
  | Err e => Ret (Some e)
  | Ok connection =>
    if (conn_TenantID connection <>s key_TenantID key) || (conn_ID connection <>s key_ConnectionID key)
    then Ret (Some [ErrTenantBoundary])
    else match conn_State connection with
    | ConnectionStateConnected | ConnectionStateDegraded | ConnectionStateDisconnected =>
      call! loaded := LoadVersioned key in
      match loaded with
      | Err e => Ret (Some e)
      | Ok snapshot =>
        if is_nil (ss_Plaintext snapshot) || (ss_Revision snapshot =? 0) then Ret (Some [ErrInvalidConfig])
        else match NewBackoff (ac_backoffBase actor) (ac_backoffCap actor) with
        | Err e => Ret (Some e)
        | Ok backoff =>
          do! written := writeHealth (initial_health token) in
          if negb (granted written.2) then Ret (Some (err_of written.2))
          else generations fuel steps runID {| ge_snapshot := snapshot; ge_backoff := backoff; ge_health := written.1;
                                                ge_pending := []; ge_debounce := false; ge_operation := None |}
        end
      end
    | ConnectionStateReauthorizationRequired | ConnectionStateUnpaired | ConnectionStatePairing
    | ConnectionStateSuspended => Ret (Some [])
    | ConnectionStateOther _ => Ret (Some [ErrInvalidConnectionState])
    end
  end.

Definition runLeased (fuel steps : nat) : prog ActorCall (option error) :=
  call! run := BeginOperationRun key in
  match run with
  | Err e => Ret (Some e)
  | Ok runID =>
    do! ended := runRegistered fuel steps runID in
    match ended with
    | None => Ret None
    | Some err => call! _ := EndOperationRun runID in Ret (Some err)
    end
  end.
End Program.

(** [Run]; [None] for an execution cut while it still runs. *)
Definition Run (actor : Actor) (fuel steps : nat) (key : Key) : prog ActorCall (option error) :=
  call! ctxErr := CtxErr in
  if negb (is_nil ctxErr) then Ret (Some ctxErr)
  else if negb (Key_valid key) then Ret (Some [ErrInvalidConfig])
  else
    call! acquired := AcquireLease key (ac_ownerID actor) (ac_leaseTTL actor) in
    match acquired with
    | Err e => Ret (Some e)
    | Ok None => Ret (Some [ErrLeaseUnavailable])
    | Ok (Some lease) =>
      do! ended := runLeased actor key (cl_FencingToken lease) fuel steps in
      match ended with
      | None => Ret None
      | Some err => call! _ := ReleaseLease key (ac_ownerID actor) (cl_FencingToken lease) in Ret (Some err)
      end
    end.

(** ** The world of a run

    What the actor shares with the provider's callbacks ([wo_callbacks]) and with
    the callers of [Execute] ([wo_operations]; [wo_callers] are those past the check
    that have not queued their request). The rest is what has happened: the
    requests admitted to the current run, started and answered, the goroutines
    started and not yet joined, the lease held, the health and the session last
    made durable, and the last session the provider reported since the session
    was loaded ([wo_blank]: it reported an empty one). *)

Record World := {
  wo_done : bool;
  wo_callbacks : providerCallbacks;
  wo_operations : operations;
  wo_callers : list request;
  wo_nextID : Z;
  wo_admitted : list Z;
  wo_started : list Z;
  wo_replied : list Z;
  wo_connecting : bool;
  wo_disconnecting : nat;
  wo_running : list request;
  wo_lease : option (Key * string * Z);
  wo_health : string;
  wo_durable : option SessionSnapshot;
  wo_reported : option bytes;
  wo_blank : bool
}.

Definition with_callbacks (cb : providerCallbacks) (w : World) : World := {|
  wo_done := wo_done w; wo_callbacks := cb; wo_operations := wo_operations w; wo_callers := wo_callers w;
  wo_nextID := wo_nextID w; wo_admitted := wo_admitted w; wo_started := wo_started w; wo_replied := wo_replied w;
  wo_connecting := wo_connecting w; wo_disconnecting := wo_disconnecting w; wo_running := wo_running w;
  wo_lease := wo_lease w; wo_health := wo_health w; wo_durable := wo_durable w; wo_reported := wo_reported w;
  wo_blank := wo_blank w |}.

Definition with_operations (ops : operations) (w : World) : World := {|
  wo_done := wo_done w; wo_callbacks := wo_callbacks w; wo_operations := ops; wo_callers := wo_callers w;
  wo_nextID := wo_nextID w; wo_admitted := wo_admitted w; wo_started := wo_started w; wo_replied := wo_replied w;
  wo_connecting := wo_connecting w; wo_disconnecting := wo_disconnecting w; wo_running := wo_running w;
  wo_lease := wo_lease w; wo_health := wo_health w; wo_durable := wo_durable w; wo_reported := wo_reported w;
  wo_blank := wo_blank w |}.

Definition with_callers (callers : list request) (nextID : Z) (admitted : list Z) (w : World) : World := {|
  wo_done := wo_done w; wo_callbacks := wo_callbacks w; wo_operations := wo_operations w; wo_callers := callers;
  wo_nextID := nextID; wo_admitted := admitted; wo_started := wo_started w; wo_replied := wo_replied w;
  wo_connecting := wo_connecting w; wo_disconnecting := wo_disconnecting w; wo_running := wo_running w;
  wo_lease := wo_lease w; wo_health := wo_health w; wo_durable := wo_durable w; wo_reported := wo_reported w;
  wo_blank := wo_blank w |}.

Definition with_goroutines (connecting : bool) (disconnecting : nat) (running : list request) (w : World) : World := {|
  wo_done := wo_done w; wo_callbacks := wo_callbacks w; wo_operations := wo_operations w; wo_callers := wo_callers w;
  wo_nextID := wo_nextID w; wo_admitted := wo_admitted w; wo_started := wo_started w; wo_replied := wo_replied w;
  wo_connecting := connecting; wo_disconnecting := disconnecting; wo_running := running;
  wo_lease := wo_lease w; wo_health := wo_health w; wo_durable := wo_durable w; wo_reported := wo_reported w;
  wo_blank := wo_blank w |}.

Definition with_requests (started replied : list Z) (w : World) : World := {|
  wo_done := wo_done w; wo_callbacks := wo_callbacks w; wo_operations := wo_operations w; wo_callers := wo_callers w;
  wo_nextID := wo_nextID w; wo_admitted := wo_admitted w; wo_started := started; wo_replied := replied;
  wo_connecting := wo_connecting w; wo_disconnecting := wo_disconnecting w; wo_running := wo_running w;
  wo_lease := wo_lease w; wo_health := wo_health w; wo_durable := wo_durable w; wo_reported := wo_reported w;
  wo_blank := wo_blank w |}.

Definition with_durable (lease : option (Key * string * Z)) (health : string) (durable : option SessionSnapshot)
    (w : World) : World := {|
  wo_done := wo_done w; wo_callbacks := wo_callbacks w; wo_operations := wo_operations w; wo_callers := wo_callers w;
  wo_nextID := wo_nextID w; wo_admitted := wo_admitted w; wo_started := wo_started w; wo_replied := wo_replied w;
  wo_connecting := wo_connecting w; wo_disconnecting := wo_disconnecting w; wo_running := wo_running w;
  wo_lease := lease; wo_health := health; wo_durable := durable; wo_reported := wo_reported w;
  wo_blank := wo_blank w |}.

Definition with_report (reported : option bytes) (blank : bool) (w : World) : World := {|
  wo_done := wo_done w; wo_callbacks := wo_callbacks w; wo_operations := wo_operations w; wo_callers := wo_callers w;
  wo_nextID := wo_nextID w; wo_admitted := wo_admitted w; wo_started := wo_started w; wo_replied := wo_replied w;
  wo_connecting := wo_connecting w; wo_disconnecting := wo_disconnecting w; wo_running := wo_running w;
  wo_lease := wo_lease w; wo_health := wo_health w; wo_durable := wo_durable w; wo_reported := reported;
  wo_blank := blank |}.

Definition cancel_context (w : World) : World := {|
  wo_done := true; wo_callbacks := wo_callbacks w; wo_operations := wo_operations w; wo_callers := wo_callers w;
  wo_nextID := wo_nextID w; wo_admitted := wo_admitted w; wo_started := wo_started w; wo_replied := wo_replied w;
  wo_connecting := wo_connecting w; wo_disconnecting := wo_disconnecting w; wo_running := wo_running w;
  wo_lease := wo_lease w; wo_health := wo_health w; wo_durable := wo_durable w; wo_reported := wo_reported w;
  wo_blank := wo_blank w |}.

(** What goes on beside the actor: its context ends, the provider calls its hooks,
    callers enter [Execute], queue their request, or give up. *)
Inductive beside :=
| EnvCancel
| EnvReady
| EnvFrame
| EnvPhoneResponse
| EnvSessionChanged (session : bytes)
| EnvAdmit (key : Key)
| EnvSend (r : request)
| EnvLeave (r : request).

Definition remove_request (r : request) (l : list request) : list request := filter (fun r' => r' <> r) l.

Definition env (queueSize : Z) (v : beside) (w : World) : World :=
  match v with
  | EnvCancel => cancel_context w
  | EnvReady => with_callbacks (Hooks_Ready (wo_done w) (wo_callbacks w)) w
  | EnvFrame => with_callbacks (Hooks_Frame (wo_done w) (wo_callbacks w)) w
  | EnvPhoneResponse => with_callbacks (Hooks_PhoneResponse (wo_done w) (wo_callbacks w)) w
  | EnvSessionChanged session =>
    let w' := with_callbacks (replaceSession session (wo_callbacks w)) w in
    if cb_active (wo_callbacks w) then with_report (Some session) (wo_blank w || is_nil session) w' else w'
  | EnvAdmit key =>
    match Execute_admit [] key (wo_operations w) with
    | Ok runID =>
      with_callers (wo_callers w ++ [{| rq_ID := wo_nextID w; rq_RunID := runID; rq_Key := key |}])
        (wo_nextID w + 1) (wo_admitted w ++ [wo_nextID w]) w
    | Err _ => w
    end
  | EnvSend r =>
    if bool_decide (r ∈ wo_callers w) then
      match Execute_send queueSize r (wo_operations w) with
      | Some ops => with_operations ops (with_callers (remove_request r (wo_callers w)) (wo_nextID w) (wo_admitted w) w)
      | None => w
      end
    else w
  | EnvLeave r => with_callers (remove_request r (wo_callers w)) (wo_nextID w) (wo_admitted w) w
  end.

Definition reply_all (rs : list request) (w : World) : World :=
  with_requests (wo_started w) (wo_replied w ++ map rq_ID rs) w.

(** The ready cases of the generation's [select]; a channel that is [nil] never is. *)
Definition select_respond (debounce queue : bool) (operation : option request) (w : World) (x : selected) : option World :=
  match x with
  | SelDone => if wo_done w then Some w else None
  | SelRenew => Some w
  | SelEvent event =>
    match cb_events (wo_callbacks w) with
    | e :: events =>
      if bool_decide (e = event)
      then Some (with_callbacks {| cb_events := events; cb_sessions := cb_sessions (wo_callbacks w);
                                   cb_active := cb_active (wo_callbacks w) |} w)
      else None
    | [] => None
    end
  | SelRequest r _ =>
    match op_queue (wo_operations w) with
    | r' :: rest =>
      if queue && bool_decide (r' = r) then
        let ops := wo_operations w in
        Some (with_operations {| op_queue := rest; op_key := op_key ops; op_runID := op_runID ops;
                                 op_active := op_active ops; op_ready := op_ready ops |} w)
      else None
    | [] => None
    end
  | SelResult _ =>
    match operation with
    | Some r =>
      if bool_decide (r ∈ wo_running w)
      then Some (with_goroutines (wo_connecting w) (wo_disconnecting w) (remove_request r (wo_running w)) w) else None
    | None => None
    end
  | SelSession session =>
    if bool_decide (cb_sessions (wo_callbacks w) = Some session)
    then Some (with_callbacks (takeLatest (wo_callbacks w)).1 w) else None
  | SelDebounce => if debounce then Some w else None
  | SelConnect _ =>
    if wo_connecting w then Some (with_goroutines false (wo_disconnecting w) (wo_running w) w) else None
  end.

(** The effect of each call, [None] for an answer it cannot give. *)
Definition respond (X : Type) (c : ActorCall X) (w : World) : X -> option World :=
  match c in ActorCall X return X -> option World with
  | CtxErr => fun x => if Bool.eqb (wo_done w) (negb (is_nil x)) then Some w else None
  | Now | RandomBits | Int63n _ | StartTimer _ | CancelOperation _ | CancelGeneration => fun _ => Some w
  | GetConnection _ | RenewLease _ _ _ _ | MarkReauthorization _ _ _ => fun _ => Some w
  | AcquireLease key ownerID _ => fun x =>
    match x with
    | Ok (Some lease) => Some (with_durable (Some (key, ownerID, cl_FencingToken lease)) (wo_health w) (wo_durable w) w)
    | _ => Some w
    end
  | ReleaseLease _ _ _ => fun _ => Some (with_durable None (wo_health w) (wo_durable w) w)
  | WriteHealth _ _ _ health => fun x =>
    if granted x then Some (with_durable (wo_lease w) (ah_ActorState health) (wo_durable w) w) else Some w
  | LoadVersioned _ => fun x =>
    match x with
    | Ok snapshot => Some (with_report None false (with_durable (wo_lease w) (wo_health w) (Some snapshot) w))
    | Err _ => Some w
    end
  | CompareAndSwap _ _ _ revision plaintext => fun x =>
    if granted x then
      Some (with_durable (wo_lease w) (wo_health w)
              (Some {| ss_Plaintext := plaintext; ss_Revision := uint64 (revision + 1) |}) w)
    else Some w
  | BeginOperationRun key => fun x =>
    let '(ops, drained, r) := beginOperationRun key (wo_operations w) in
    if bool_decide (r = x) then
      if is_ok r then Some (with_callers (wo_callers w) (wo_nextID w) [] (reply_all drained (with_operations ops w)))
      else Some w
    else None
  | SetOperationReady runID ready => fun _ => Some (with_operations (setOperationReady runID ready (wo_operations w)) w)
  | EndOperationRun runID => fun _ =>
    let '(ops, drained) := endOperationRun runID (wo_operations w) in Some (reply_all drained (with_operations ops w))
  | StartOperation _ r => fun _ =>
    Some (with_requests (wo_started w ++ [rq_ID r]) (wo_replied w)
            (with_goroutines (wo_connecting w) (wo_disconnecting w) (wo_running w ++ [r]) w))
  | JoinOperation r => fun x =>
    match x with
    | Some _ =>
      if bool_decide (r ∈ wo_running w)
      then Some (with_goroutines (wo_connecting w) (wo_disconnecting w) (remove_request r (wo_running w)) w) else None
    | None => Some w
    end
  | Reply r _ => fun _ => Some (reply_all [r] w)
  | Restore _ _ => fun x =>
    match x with
    | Ok _ => Some (with_callbacks newProviderCallbacks w)
    | Err _ => Some w
    end
  | StartConnect => fun _ => Some (with_goroutines true (wo_disconnecting w) (wo_running w) w)
  | Disconnect _ => fun x =>
    Some (if x then w else with_goroutines (wo_connecting w) (S (wo_disconnecting w)) (wo_running w) w)
  | JoinConnect _ => fun x =>
    match x with
    | Some _ => if wo_connecting w then Some (with_goroutines false (wo_disconnecting w) (wo_running w) w) else None
    | None => Some w
    end
  | TakeLatest => fun x =>
    let '(cb, latest) := takeLatest (wo_callbacks w) in
    if bool_decide (latest = x) then Some (with_callbacks cb w) else None
  | StopAcceptingAndTakeLatest => fun x =>
    let '(cb, latest) := stopAcceptingAndTakeLatest (wo_callbacks w) in
    if bool_decide (latest = x) then Some (with_callbacks cb w) else None
  | Select debounce queue operation => select_respond debounce queue operation w
  | WaitSelect => fun x => match x with WaitDone => if wo_done w then Some w else None | _ => Some w end
  end.
