(* ===== verification/ActorSafety.v ===== *)
(** * What a run of a connection actor may do

    The discipline of [Actor.Run] beside its provider and its callers, proved once
    with the program logic of Rely.v: a view is what the actor knows of its world at
    a point of its code, [ok] relates the two, and every call moves both. *)

From S2P Require Import Prelude GoText Crypto Domain Session Backoff Pool Rely Store Leases Actor.

(** ** The discipline *)

(** No goroutine of an earlier generation is left. *)
Definition no_goroutine (w : World) : Prop :=
  wo_connecting w = false /\ wo_disconnecting w = 0%nat /\ wo_running w = [].

Definition owns (w : World) (key : Key) (ownerID : string) (token : Z) : Prop := wo_lease w = Some (key, ownerID, token).

(** What holds when the actor makes a call. *)
Definition allowed (X : Type) (c : ActorCall X) (w : World) : Prop :=
  match c with
  | RenewLease key ownerID token _ | WriteHealth key ownerID token _ | MarkReauthorization key ownerID token =>
    owns w key ownerID token
  | ReleaseLease key ownerID token => owns w key ownerID token /\ op_active (wo_operations w) = false
  | CompareAndSwap key ownerID token revision _ =>
    owns w key ownerID token /\ exists s, wo_durable w = Some s /\ ss_Revision s = revision
  | Restore own session =>
    owns w (ow_Key own) (ow_OwnerID own) (ow_FencingToken own) /\ no_goroutine w /\
    (exists revision, wo_durable w = Some {| ss_Plaintext := session; ss_Revision := revision |}) /\
    (wo_blank w = false -> forall s, wo_reported w = Some s -> s = session)
  | StartConnect => no_goroutine w
  | StartOperation own r =>
    owns w (ow_Key own) (ow_OwnerID own) (ow_FencingToken own) /\ rq_Key r = ow_Key own /\
    rq_ID r ∈ wo_admitted w /\ rq_ID r ∉ wo_started w /\ rq_ID r ∉ wo_replied w /\
    wo_health w = "ready" /\ op_ready (wo_operations w) = true /\
    wo_connecting w = true /\ wo_disconnecting w = 0%nat /\ wo_running w = []
  | SetOperationReady _ ready => ready = true -> wo_health w = "ready"
  | Reply r _ => rq_ID r ∉ wo_replied w
  | _ => True
  end.

(** ** Views *)

(** [vw_held]: a request taken from the queue; [vw_act]: the operation not answered
    yet; [vw_ready]: readiness is durable and published; [vw_active]: the callbacks
    of the generation are accepted; [vw_latest]: no reported session was given up. *)
Record view := {
  vw_lease : option (Key * string * Z);
  vw_run : option (Z * Key);
  vw_connecting : bool;
  vw_disconnecting : nat;
  vw_running : list request;
  vw_held : list request;
  vw_act : list request;
  vw_written : bool;
  vw_ready : bool;
  vw_active : bool;
  vw_snapshot : option SessionSnapshot;
  vw_pending : bytes;
  vw_latest : bool
}.

Definition queued (w : World) : list request := wo_callers w ++ op_queue (wo_operations w).

(** The session the actor would make durable next is the last one reported. *)
Definition latest_ok (snapshot : SessionSnapshot) (pending : bytes) (w : World) : Prop :=
  match cb_sessions (wo_callbacks w) with
  | Some s => wo_reported w = Some s
  | None =>
    if is_nil pending then forall s, wo_reported w = Some s -> s = ss_Plaintext snapshot else wo_reported w = Some pending
  end.

Record ok (v : view) (w : World) : Prop := {
  ok_lease : wo_lease w = vw_lease v;
  ok_run : match vw_run v with
           | Some (runID, key) => op_active (wo_operations w) = true /\ op_runID (wo_operations w) = runID /\
                                  op_key (wo_operations w) = key
           | None => op_active (wo_operations w) = false
           end;
  ok_goroutines : wo_connecting w = vw_connecting v /\ wo_disconnecting w = vw_disconnecting v /\
                  wo_running w = vw_running v;
  ok_ids : NoDup (map rq_ID (queued w ++ vw_held v ++ vw_act v) ++ wo_replied w);
  ok_old : Forall (fun i => i < wo_nextID w) (map rq_ID (queued w ++ vw_held v ++ vw_act v) ++ wo_replied w);
  ok_started : forall i, i ∈ wo_started w -> i ∈ wo_replied w \/ i ∈ map rq_ID (vw_act v);
  ok_admitted : Forall (fun r => rq_RunID r <= op_runID (wo_operations w) /\
                                 (rq_RunID r = op_runID (wo_operations w) ->
                                  rq_ID r ∈ wo_admitted w /\ rq_Key r = op_key (wo_operations w)))
                  (queued w ++ vw_held v);
  ok_written : vw_written v = true -> wo_health w = "ready";
  ok_ready : vw_ready v = true -> wo_health w = "ready" /\ op_ready (wo_operations w) = true;
  ok_active : cb_active (wo_callbacks w) = vw_active v;
  ok_events : Forall (fun e => pv_kind e <> eventSessionChanged) (cb_events (wo_callbacks w));
  ok_blank : cb_sessions (wo_callbacks w) = Some [] -> wo_blank w = true;
  ok_session : forall s, vw_snapshot v = Some s -> wo_durable w = Some s /\ (vw_latest v = true -> wo_blank w = false -> latest_ok s (vw_pending v) w);
  ok_idle : vw_active v = false -> cb_sessions (wo_callbacks w) = None
}.

(** ** The environment keeps a view *)

Lemma NoDup_sub {A} (l k : list A) : l ⊆+ k -> NoDup k -> NoDup l.
Proof. intros [k' ->]%submseteq_Permutation Hk. by apply NoDup_app in Hk as (? & _ & _). Qed.

Lemma Forall_sub {A} (P : A -> Prop) l k : l ⊆+ k -> Forall P k -> Forall P l.
Proof. intros [k' ->]%submseteq_Permutation Hk. by apply Forall_app in Hk as [? _]. Qed.

Lemma remove_request_sub r l : remove_request r l ⊆+ l.
Proof. apply sublist_submseteq, sublist_filter. Qed.

Lemma remove_request_move r l : r ∈ l -> remove_request r l ++ [r] ⊆+ l.
Proof.
  intros [l1 [l2 ->]]%list_elem_of_split. unfold remove_request. rewrite filter_app, filter_cons_False by naive_solver.
  rewrite <- app_assoc. apply submseteq_app; [apply remove_request_sub|].
  etrans; [apply Permutation_submseteq, Permutation_app_comm|]. cbn. apply submseteq_skip, remove_request_sub.
Qed.

Lemma remove_request_self r : remove_request r [r] = [].
Proof. unfold remove_request. by rewrite filter_cons_False by naive_solver. Qed.

(** Fewer requests, in any order, keep the request part of a view. *)
Lemma requests_sub {v : view} {w : World} (rs : list request) (replied : list Z) (P : request -> Prop) :
  rs ⊆+ queued w -> NoDup (map rq_ID (queued w ++ vw_held v ++ vw_act v) ++ replied) ->
  Forall (fun i => i < wo_nextID w) (map rq_ID (queued w ++ vw_held v ++ vw_act v) ++ replied) ->
  Forall P (queued w ++ vw_held v) ->
  NoDup (map rq_ID (rs ++ vw_held v ++ vw_act v) ++ replied) /\
  Forall (fun i => i < wo_nextID w) (map rq_ID (rs ++ vw_held v ++ vw_act v) ++ replied) /\
  Forall P (rs ++ vw_held v).
Proof.
  intros Hrs Hn Ho Ha.
  assert (map rq_ID (rs ++ vw_held v ++ vw_act v) ++ replied ⊆+ map rq_ID (queued w ++ vw_held v ++ vw_act v) ++ replied).
  { rewrite !map_app. apply submseteq_app; [|reflexivity]. apply submseteq_app; [|reflexivity].
    by apply (fmap_submseteq rq_ID). }
  split_and!; [by eapply NoDup_sub | by eapply Forall_sub|]. eapply Forall_sub; [|done]. by apply submseteq_app; [|reflexivity].
Qed.

Lemma send_ok v w done e :
  pv_kind e <> eventSessionChanged -> ok v w -> ok v (with_callbacks (Hooks_send done e (wo_callbacks w)) w).
Proof.
  intros He [Hle Hru Hgo Hid Hol Hst Had Hwr Hre Hac Hev Hbl Hse Hidle]. unfold Hooks_send.
  destruct (_ || _); [by split|]. destruct (_ <? _); [|by split]. split; cbn; try done.
  apply Forall_app. split; [done|]. by apply Forall_singleton.
Qed.

Lemma admit_ok v w key : ok v w -> ok v (env 0 (EnvAdmit key) w).
Proof.
  intros Hok. cbn [env]. destruct (Execute_admit [] key (wo_operations w)) as [runID|] eqn:E; [|done].
  destruct Hok as [Hle Hru Hgo Hid Hol Hst Had Hwr Hre Hac Hev Hbl Hse Hidle].
  unfold Execute_admit in E. cbn in E. destruct (negb (Key_valid key)); [done|]. destruct (_ || _) eqn:Eb; [done|].
  injection E as <-. reflect_bools.
  assert (op_key (wo_operations w) = key) as <- by (by destruct (decide (op_key (wo_operations w) = key))).
  set (r := {| rq_ID := wo_nextID w; rq_RunID := op_runID (wo_operations w); rq_Key := op_key (wo_operations w) |}).
  assert (wo_nextID w ∉ map rq_ID (queued w ++ vw_held v ++ vw_act v) ++ wo_replied w) as Hnew.
  { intros Hin. rewrite Forall_forall in Hol. specialize (Hol _ Hin). lia. }
  set (l := map rq_ID (queued w ++ vw_held v ++ vw_act v) ++ wo_replied w) in *.
  assert (map rq_ID (((wo_callers w ++ [r]) ++ op_queue (wo_operations w)) ++ vw_held v ++ vw_act v) ++ wo_replied w
          ≡ₚ wo_nextID w :: l) as Hperm.
  { unfold l, queued. rewrite !map_app. cbn. rewrite <- !app_assoc. cbn. symmetry. apply Permutation_middle. }
  split; cbn; try done; unfold queued; cbn.
  - rewrite Hperm. by constructor.
  - rewrite Hperm. constructor; [lia|]. eapply Forall_impl; [exact Hol|]. cbn. lia.
  - assert (((wo_callers w ++ [r]) ++ op_queue (wo_operations w)) ++ vw_held v ≡ₚ r :: (queued w ++ vw_held v)) as ->
      by (unfold queued; rewrite <- !app_assoc; cbn; symmetry; apply Permutation_middle).
    constructor; [split; [done|]; set_solver|]. eapply Forall_impl; [exact Had|]. cbn. intros r' [? Hadm]. split; [done|].
    intros [? ?]%Hadm. split; [set_solver | done].
Qed.

Lemma callers_ok v w ops callers :
  op_key ops = op_key (wo_operations w) -> op_runID ops = op_runID (wo_operations w) ->
  op_active ops = op_active (wo_operations w) -> op_ready ops = op_ready (wo_operations w) ->
  callers ++ op_queue ops ⊆+ queued w ->
  ok v w -> ok v (with_operations ops (with_callers callers (wo_nextID w) (wo_admitted w) w)).
Proof.
  intros Hk Hr Ha Hy Hsub [Hle Hru Hgo Hid Hol Hst Had Hwr Hre Hac Hev Hbl Hse Hidle].
  destruct (requests_sub (v := v) _ _ _ Hsub Hid Hol Had) as (H1 & H2 & H3).
  split; cbn; rewrite ?Hk, ?Hr, ?Ha, ?Hy; done.
Qed.

Lemma env_ok queueSize v w e : ok v w -> ok v (env queueSize e w).
Proof.
  intros Hok. destruct e as [| | | |session|key|r|r]; cbn [env].
  - by destruct Hok.
  - by apply send_ok.
  - by apply send_ok.
  - by apply send_ok.
  - unfold replaceSession. destruct (cb_active (wo_callbacks w)) eqn:Eact; cbn [negb].
    2:{ destruct Hok. by split. }
    destruct Hok as [Hle Hru Hgo Hid Hol Hst Had Hwr Hre Hac Hev Hbl Hse Hidle]. split; cbn; try done.
    + congruence.
    + intros [= ->]. apply orb_true_r.
    + intros s Hs. split; [by apply Hse | done].
    + congruence.
  - by apply admit_ok.
  - destruct (bool_decide (r ∈ wo_callers w)) eqn:Er; [|done]. reflect_bools. unfold Execute_send.
    destruct (_ <? _); [|done]. apply callers_ok; [done..| |done]. cbn. unfold queued.
    etrans; [|apply submseteq_app; [by apply remove_request_move|reflexivity]].
    rewrite <- app_assoc. apply submseteq_app; [reflexivity|]. apply Permutation_submseteq, Permutation_app_comm.
  - change (ok v (with_operations (wo_operations w) (with_callers (remove_request r (wo_callers w)) (wo_nextID w) (wo_admitted w) w))).
    apply callers_ok; [done..| |done]. apply submseteq_app; [apply remove_request_sub | reflexivity].
Qed.

(** One thing happens beside the actor. *)
Definition around (queueSize : Z) (w w' : World) : Prop := exists e, w' = env queueSize e w.

Lemma around_ok queueSize v w w' : around queueSize w w' -> ok v w -> ok v w'.
Proof. intros [e ->]. apply env_ok. Qed.

(** ** The effect of calls on a view *)

Definition forget (v : view) : view := {|
  vw_lease := vw_lease v; vw_run := vw_run v; vw_connecting := vw_connecting v; vw_disconnecting := vw_disconnecting v;
  vw_running := vw_running v; vw_held := vw_held v; vw_act := vw_act v; vw_written := false; vw_ready := false;
  vw_active := vw_active v; vw_snapshot := vw_snapshot v; vw_pending := vw_pending v; vw_latest := vw_latest v |}.

Lemma forget_ok v w : ok v w -> ok (forget v) w.
Proof. intros []. by split. Qed.

(** An accepted health write; [r]: it says ready. *)
Definition wrote (r : bool) (v : view) : view := {|
  vw_lease := vw_lease v; vw_run := vw_run v; vw_connecting := vw_connecting v; vw_disconnecting := vw_disconnecting v;
  vw_running := vw_running v; vw_held := vw_held v; vw_act := vw_act v; vw_written := r; vw_ready := r && vw_ready v;
  vw_active := vw_active v; vw_snapshot := vw_snapshot v; vw_pending := vw_pending v; vw_latest := vw_latest v |}.

Lemma wrote_ok v w state :
  ok v w -> ok (wrote (state =s "ready") v) (with_durable (wo_lease w) state (wo_durable w) w).
Proof.
  intros [Hle Hru Hgo Hid Hol Hst Had Hwr Hre Hac Hev Hbl Hse Hidle]. split; cbn; try done.
  - by intros ->%String.eqb_eq.
  - intros [->%String.eqb_eq Hr]%andb_true_iff. split; [done|]. by apply Hre.
Qed.

Definition answer_view (held act : list request) (v : view) : view := {|
  vw_lease := vw_lease v; vw_run := vw_run v; vw_connecting := vw_connecting v; vw_disconnecting := vw_disconnecting v;
  vw_running := vw_running v; vw_held := held; vw_act := act; vw_written := vw_written v; vw_ready := vw_ready v;
  vw_active := vw_active v; vw_snapshot := vw_snapshot v; vw_pending := vw_pending v; vw_latest := vw_latest v |}.

(** The request in hand, or the one in flight, is not answered yet; answering it
    moves it to the answered ones. *)
Lemma reply_fresh v w r : ok v w -> r ∈ vw_held v ++ vw_act v -> rq_ID r ∉ wo_replied w.
Proof.
  intros Hok Hin Hr. pose proof (ok_ids _ _ Hok) as Hid. apply NoDup_app in Hid as (_ & Hd & _).
  apply (Hd (rq_ID r)); [|done]. apply list_elem_of_fmap. exists r. split; [done|]. set_solver.
Qed.

Lemma reply_ok v w r :
  ok v w -> (vw_held v = [r] /\ vw_act v = []) \/ (vw_held v = [] /\ vw_act v = [r]) ->
  ok (answer_view [] [] v) (reply_all [r] w).
Proof.
  intros [Hle Hru Hgo Hid Hol Hst Had Hwr Hre Hac Hev Hbl Hse Hidle] Hcase.
  assert (vw_held v ++ vw_act v = [r]) as Heq by (by destruct Hcase as [[-> ->]|[-> ->]]).
  rewrite Heq in Hid, Hol.
  assert (map rq_ID (queued w ++ [r]) ++ wo_replied w ≡ₚ map rq_ID (queued w ++ [] ++ []) ++ wo_replied w ++ [rq_ID r]) as Hperm.
  { rewrite !map_app, !app_nil_r, <- app_assoc. apply Permutation_app_head. cbn. apply Permutation_cons_append. }
  split; cbn [answer_view vw_held vw_act reply_all with_requests wo_replied map vw_lease vw_run vw_connecting
              vw_disconnecting vw_running vw_written vw_ready vw_active vw_snapshot vw_pending vw_latest]; try done.
  - change (queued (reply_all [r] w)) with (queued w). by rewrite <- Hperm.
  - change (queued (reply_all [r] w)) with (queued w). cbn [wo_nextID with_requests]. by rewrite <- Hperm.
  - intros i Hi. left. apply Hst in Hi as [Hi|Hi]; [set_solver|]. apply elem_of_app. right.
    destruct Hcase as [[_ Hv]|[_ Hv]]; rewrite Hv in Hi; [by apply elem_of_nil in Hi | done].
  - change (queued (reply_all [r] w)) with (queued w). rewrite app_nil_r.
    by apply Forall_app in Had as [? _].
Qed.

(** A request leaves the queue into the actor's hand. *)
Lemma take_ok v w r rest :
  let ops := wo_operations w in
  ok v w -> vw_held v = [] -> vw_act v = [] -> op_queue ops = r :: rest ->
  ok (answer_view [r] [] v)
    (with_operations {| op_queue := rest; op_key := op_key ops; op_runID := op_runID ops;
                        op_active := op_active ops; op_ready := op_ready ops |} w).
Proof.
  intros ops [Hle Hru Hgo Hid Hol Hst Had Hwr Hre Hac Hev Hbl Hse Hidle] Hh Ha Hq. rewrite Hh, Ha in *.
  assert (queued w ++ [] ++ [] ≡ₚ (wo_callers w ++ rest) ++ [r] ++ []) as Hperm.
  { unfold queued. unfold ops in Hq. rewrite Hq, !app_nil_r, <- app_assoc. apply Permutation_app_head.
    apply Permutation_cons_append. }
  split; cbn; try done; unfold queued; cbn.
  - by rewrite <- Hperm.
  - by rewrite <- Hperm.
  - change [r] with ([r] ++ []). rewrite <- Hperm. by rewrite app_nil_r in *.
Qed.

Section Registered.
Variable actor : Actor.
Variable key : Key.
Variable token runID : Z.
Variable queueSize : Z.

Abbreviation ownerID := (ac_ownerID actor).
Abbreviation Safe := (safe (around queueSize) respond allowed).

(** The views of a registered run. *)
Definition vw (connecting : bool) (disconnecting : nat) (running held act : list request) (written ready active : bool)
    (snapshot : option SessionSnapshot) (pending : bytes) (latest : bool) : view := {|
  vw_lease := Some (key, ownerID, token); vw_run := Some (runID, key); vw_connecting := connecting;
  vw_disconnecting := disconnecting; vw_running := running; vw_held := held; vw_act := act; vw_written := written;
  vw_ready := ready; vw_active := active; vw_snapshot := snapshot; vw_pending := pending; vw_latest := latest |}.

Lemma start_ok c d wr rd ac sn pe la r w :
  ok (vw c d [] [r] [] wr rd ac sn pe la) w ->
  ok (vw c d [r] [] [r] wr rd ac sn pe la)
    (with_requests (wo_started w ++ [rq_ID r]) (wo_replied w)
       (with_goroutines (wo_connecting w) (wo_disconnecting w) (wo_running w ++ [r]) w)).
Proof.
  intros [Hle Hru (Hg1 & Hg2 & Hg3) Hid Hol Hst Had Hwr Hre Hac Hev Hbl Hse Hidle]. split; cbn in *; try done.
  - by rewrite Hg3.
  - intros i [Hi|Hi]%elem_of_app; [|by right]. apply Hst in Hi as [Hi|Hi]; [by left | by apply elem_of_nil in Hi].
  - apply Forall_app in Had as [? _]. by rewrite app_nil_r.
Qed.

Lemma goroutines_ok c d rs c' d' rs' held act wr rd ac sn pe la w :
  ok (vw c d rs held act wr rd ac sn pe la) w -> ok (vw c' d' rs' held act wr rd ac sn pe la) (with_goroutines c' d' rs' w).
Proof. intros []. by split. Qed.

Lemma ready_ok c d rs held act ac sn pe la rd ready w :
  ok (vw c d rs held act true rd ac sn pe la) w ->
  ok (vw c d rs held act ready ready ac sn pe la) (with_operations (setOperationReady runID ready (wo_operations w)) w).
Proof.
  intros [Hle (Hr1 & Hr2 & Hr3) Hgo Hid Hol Hst Had Hwr Hre Hac Hev Hbl Hse Hidle]. cbn in *.
  unfold setOperationReady. rewrite Hr1, Hr2, Z.eqb_refl. cbn [andb]. split; cbn; try done; unfold queued; cbn; rewrite <- ?Hr2; try done.
  - auto.
  - intros ->. auto.
Qed.

Lemma unready_ok c d rs held act wr rd ac sn pe la w :
  ok (vw c d rs held act wr rd ac sn pe la) w ->
  ok (vw c d rs held act false false ac sn pe la) (with_operations (setOperationReady runID false (wo_operations w)) w).
Proof.
  intros [Hle (Hr1 & Hr2 & Hr3) Hgo Hid Hol Hst Had Hwr Hre Hac Hev Hbl Hse Hidle]. cbn in *.
  unfold setOperationReady. rewrite Hr1, Hr2, Z.eqb_refl. cbn [andb].
  split; cbn; try done; unfold queued; cbn; by rewrite <- ?Hr2.
Qed.

(** The actor takes the latest reported session, if there is one. *)
Lemma take_session_ok c d rs held act wr rd ac sn pe la w active :
  active = ac \/ active = false ->
  ok (vw c d rs held act wr rd ac sn pe la) w ->
  let cb := {| cb_events := cb_events (wo_callbacks w); cb_sessions := None; cb_active := active |} in
  let latest := (takeLatest (wo_callbacks w)).2 in
  ok (vw c d rs held act wr rd active sn (if is_nil latest then pe else latest) la) (with_callbacks cb w).
Proof.
  intros Hactive [Hle Hru Hgo Hid Hol Hst Had Hwr Hre Hac Hev Hbl Hse Hidle]. cbn in *. split; cbn; try done.
  intros s Hs. destruct (Hse s Hs) as [Hdur Hlat]. split; [done|]. intros Hla Hb.
  specialize (Hlat Hla Hb). unfold latest_ok in *. cbn in *.
  destruct (cb_sessions (wo_callbacks w)) as [[|a l]|] eqn:E; cbn.
  - rewrite Hbl in Hb by done. done.
  - done.
  - done.
Qed.

Lemma receive_session_ok c d rs held act wr rd ac sn pe la w session :
  cb_sessions (wo_callbacks w) = Some session ->
  ok (vw c d rs held act wr rd ac sn pe la) w ->
  ok (vw c d rs held act wr rd ac sn session la) (with_callbacks (takeLatest (wo_callbacks w)).1 w).
Proof.
  intros Hs [Hle Hru Hgo Hid Hol Hst Had Hwr Hre Hac Hev Hbl Hse Hidle]. cbn in *. split; cbn; try done.
  intros s Hsn. destruct (Hse s Hsn) as [Hdur Hlat]. split; [done|]. intros Hla Hb.
  specialize (Hlat Hla Hb). unfold latest_ok in *. cbn. rewrite Hs in Hlat.
  destruct session as [|a l]; [|done]. rewrite Hbl in Hb by done. done.
Qed.

(** The pending session became durable. *)
Lemma swapped_ok c d rs held act wr rd ac s pe la w :
  pe <> [] -> ok (vw c d rs held act wr rd ac (Some s) pe la) w ->
  let s' := {| ss_Plaintext := pe; ss_Revision := uint64 (ss_Revision s + 1) |} in
  ok (vw c d rs held act wr rd ac (Some s') [] la) (with_durable (wo_lease w) (wo_health w) (Some s') w).
Proof.
  intros Hpe [Hle Hru Hgo Hid Hol Hst Had Hwr Hre Hac Hev Hbl Hse Hidle] s'. cbn in *. split; cbn; try done.
  intros s0 [= <-]. destruct (Hse s eq_refl) as [Hdur Hlat]. split; [done|]. intros Hla Hb.
  specialize (Hlat Hla Hb). unfold latest_ok in *. cbn.
  destruct (cb_sessions (wo_callbacks w)); [done|]. destruct pe as [|a l]; [done|]. cbn in Hlat. congruence.
Qed.

(** Giving up the pending session. *)
Lemma give_up_ok c d rs held act wr rd ac sn pe la pe' w :
  ok (vw c d rs held act wr rd ac sn pe la) w -> ok (vw c d rs held act wr rd ac sn pe' false) w.
Proof. intros [Hle Hru Hgo Hid Hol Hst Had Hwr Hre Hac Hev Hbl Hse Hidle]. split; cbn in *; try done. naive_solver. Qed.

(** ** The program keeps its view *)

Ltac call_rule :=
  cbv zeta;
  match goal with H : ok ?v ?w |- safe _ _ _ (Call _ _) _ ?w =>
    eapply (safe_call (around queueSize) respond allowed (ok v) (around_ok queueSize v)); [exact H | |]; repeat match goal with x : World |- _ => clear dependent x end
  end.

(** A call that leaves the world alone. *)
Ltac neutral_rule x :=
  call_rule; [intros w H; cbn; try exact I; try exact (ok_lease _ _ H)
             | intros w x w' H Hr; cbn in Hr; injection Hr as <-].

Lemma safe_Ret {A} (a : A) (Q : A -> World -> Prop) v w :
  ok v w -> (forall w, ok v w -> Q a w) -> Safe (Ret a) Q w.
Proof. intros H HQ. by eapply (safe_ret (around queueSize) respond allowed (ok v) (around_ok queueSize v)). Qed.

Lemma writeHealth_safe c d rs held act wr rd ac sn pe la h w :
  ok (vw c d rs held act wr rd ac sn pe la) w ->
  Safe (writeHealth actor key token h) (fun r w' =>
    (exists now, r.1 = stamp token now h) /\
    let ready := ah_ActorState h =s "ready" in
    if granted r.2 then ok (vw c d rs held act ready (ready && rd) ac sn pe la) w'
    else ok (vw c d rs held act wr rd ac sn pe la) w') w.
Proof.
  intros H. unfold writeHealth. neutral_rule now. call_rule; [intros w H; exact (ok_lease _ _ H)|].
  intros w x w' H Hr. cbn in Hr. destruct (granted x) eqn:Eg; injection Hr as <-.
  - apply (wrote_ok _ _ (ah_ActorState (stamp token now h))) in H. eapply safe_Ret; [exact H|]. intros w1 H1. cbn [fst snd].
    split; [by eexists|]. rewrite Eg. exact H1.
  - eapply safe_Ret; [exact H|]. intros w1 H1. cbn [fst snd]. split; [by eexists|]. by rewrite Eg.
Qed.

Lemma startRenewTimer_safe v w : ok v w -> Safe (startRenewTimer actor) (fun _ w => ok v w) w.
Proof. intros H. unfold startRenewTimer. neutral_rule bits. neutral_rule u. by eapply safe_Ret. Qed.

Lemma flush_safe c d rs held act wr rd ac s pe la w :
  ok (vw c d rs held act wr rd ac (Some s) pe la) w ->
  Safe (flushPendingSession actor key token s pe) (fun r w' =>
    if granted r.2 then ok (vw c d rs held act wr rd ac (Some r.1.1) [] la) w' /\ r.1.2 = []
    else ok (vw c d rs held act wr rd ac (Some r.1.1) r.1.2 false) w') w.
Proof.
  intros H. unfold flushPendingSession. destruct (is_nil pe) eqn:Ep.
  { apply is_nil_true in Ep as ->. by eapply safe_Ret. }
  call_rule; [intros w H; split; [exact (ok_lease _ _ H)|]; exists s; split; [|done]; by apply (ok_session _ _ H)|].
  apply is_nil_false in Ep. intros w x w' H Hr. cbn in Hr. destruct (granted x) eqn:Eg; injection Hr as <-.
  - apply swapped_ok in H; [|done]. eapply safe_Ret; [exact H|]. by intros.
  - eapply give_up_ok in H. eapply safe_Ret; [exact H|]. intros w1 H1. cbn [fst snd]. rewrite Eg. exact H1.
Qed.

(** What the actor knows at the head of the generation loop, and when it left it. *)
Definition operating (g : generation) : list request := match ge_operation g with Some r => [r] | None => [] end.

Definition loop_view (g : generation) : view :=
  let ready := ah_ActorState (ge_health g) =s "ready" in
  vw true 0 (operating g) [] (operating g) ready ready true (Some (ge_snapshot g)) (ge_pending g) true.

Definition exit_view (g : generation) (exit : generationExit) (latest : bool) : view :=
  vw (negb (ex_providerJoined exit)) 0 (operating g) [] (operating g) false false true (Some (ge_snapshot g)) (ge_pending g) latest.

(** A session is given up only on the way to an end that restores nothing. *)
Definition conclusive (exit : generationExit) : Prop :=
  ex_kind exit = generationExitSessionConflict \/ terminalProviderError (ex_providerErr exit) = true.

Definition exited (g : generation) (exit : generationExit) (w : World) : Prop :=
  exists latest, ok (exit_view g exit latest) w /\ (latest = true \/ conclusive exit).

Definition next_ok (n : loop_next) (w : World) : Prop :=
  match n with Continue g => ok (loop_view g) w | Exit g exit => exited g exit w end.

Lemma exit_Ret g exit w wr rd :
  ok (vw (negb (ex_providerJoined exit)) 0 (operating g) [] (operating g) wr rd true (Some (ge_snapshot g)) (ge_pending g) true) w ->
  Safe (Ret (Exit g exit)) next_ok w.
Proof.
  intros H. apply forget_ok in H. eapply safe_Ret; [exact H|]. intros w1 H1. exists true. split; [exact H1 | by left].
Qed.

Lemma fenceExit_safe g err w wr rd :
  ok (vw true 0 (operating g) [] (operating g) wr rd true (Some (ge_snapshot g)) (ge_pending g) true) w ->
  Safe (fenceExit g err) next_ok w.
Proof.
  intros H. unfold fenceExit. call_rule; [done|]. intros w x w' H Hr. cbn in Hr.
  destruct (Bool.eqb _ _); [|done]. injection Hr as <-. destruct (is_nil x); by eapply exit_Ret.
Qed.

Lemma keepPending_safe g session w :
  ok (loop_view (set_pending session true g)) w -> Safe (keepPending actor g session) next_ok w.
Proof.
  intros H. unfold keepPending. destruct (ge_debounce g); [by eapply safe_Ret|]. neutral_rule u. by eapply safe_Ret.
Qed.

Lemma event_ok v w e events :
  ok v w -> cb_events (wo_callbacks w) = e :: events ->
  pv_kind e <> eventSessionChanged /\
  ok v (with_callbacks {| cb_events := events; cb_sessions := cb_sessions (wo_callbacks w);
                          cb_active := cb_active (wo_callbacks w) |} w).
Proof.
  intros [Hle Hru Hgo Hid Hol Hst Had Hwr Hre Hac Hev Hbl Hse Hidle] He. rewrite He in Hev. inversion_clear Hev.
  split; [done|]. by split.
Qed.

(** The health after an event says ready if the event does, or as before. *)
Lemma eventHealth_state kind now g :
  ah_ActorState (ge_health (eventHealth kind now g)) =
  (if bool_decide (kind = eventReady) then "ready" else ah_ActorState (ge_health g)) /\
  operating (eventHealth kind now g) = operating g /\ ge_snapshot (eventHealth kind now g) = ge_snapshot g /\
  ge_pending (eventHealth kind now g) = ge_pending g.
Proof. by destruct kind. Qed.

Lemma event_safe g kind w :
  ok (loop_view g) w ->
  Safe (call! now := Now in
        let g := eventHealth kind now g in
        do! written := writeHealth actor key token (ge_health g) in
        let g := set_ge_health written.1 g in
        if granted written.2 then
          if bool_decide (kind = eventReady) then call! _ := SetOperationReady runID true in Ret (Continue g)
          else Ret (Continue g)
        else fenceExit g (err_of written.2)) next_ok w.
Proof.
  intros H. neutral_rule now. destruct (eventHealth_state kind now g) as (Es & Eo & En & Ep).
  eapply safe_bind; [by eapply writeHealth_safe|]. intros [h r] w1 [[t Ht] H1]. cbn [fst snd] in *. subst h.
  clear dependent w. unfold loop_view in *. destruct (granted r).
  - destruct (bool_decide (kind = eventReady)).
    + rewrite Es in H1. cbn in H1. call_rule; [intros w H _; by apply (ok_written _ _ H)|].
      intros w x w' H Hr. cbn in Hr. injection Hr as <-. eapply ready_ok in H. eapply safe_Ret; [exact H|]. intros w2 H2.
      unfold next_ok, loop_view, set_ge_health, operating. cbn. unfold operating in Eo. rewrite Es, Eo, En, Ep. exact H2.
    + rewrite Es, andb_diag in H1. eapply safe_Ret; [exact H1|]. intros w2 H2.
      unfold next_ok, loop_view, set_ge_health, operating. cbn. unfold operating in Eo. by rewrite Es, Eo, En, Ep.
  - eapply fenceExit_safe. unfold set_ge_health, operating. cbn. unfold operating in Eo. rewrite Eo, En, Ep. exact H1.
Qed.

Lemma request_safe g r cancelled w :
  ge_operation g = None -> ah_ActorState (ge_health g) = "ready" ->
  ok (vw true 0 [] [r] [] true true true (Some (ge_snapshot g)) (ge_pending g) true) w ->
  Safe (if negb (rq_RunID r =? runID) || bool_decide (rq_Key r <> key) || cancelled
        then call! _ := Reply r [ErrProviderUnavailable] in Ret (Continue g)
        else call! _ := StartOperation (ownership actor key token) r in Ret (Continue (set_operation (Some r) g))) next_ok w.
Proof.
  intros Eo Es H. destruct (_ || cancelled) eqn:Eb.
  - call_rule; [intros w H; eapply reply_fresh; [exact H | set_solver]|].
    intros w x w' H Hr. cbn in Hr. injection Hr as <-. eapply reply_ok in H; [|by left].
    eapply safe_Ret; [exact H|]. intros w1 H1. unfold next_ok, loop_view, operating. rewrite Eo, Es. exact H1.
  - reflect_bools. call_rule.
    + intros w H. pose proof H as [Hle (Hr1 & Hr2 & Hr3) (Hg1 & Hg2 & Hg3) Hid Hol Hst Had Hwr Hre Hac Hev Hbl Hse Hidle].
      cbn in *. apply Forall_app in Had as [_ Had]. apply Forall_singleton in Had as [_ Had].
      destruct Had as [Hadm Hkey]; [by rewrite Hr2|].
      assert (rq_ID r ∉ wo_replied w) as Hrep by (eapply reply_fresh; [exact H | set_solver]).
      destruct (Hre eq_refl) as [Hh Hy]. split_and!; [done | congruence | done | | done | done | done | done | done | done].
      intros [?|Hin]%Hst; [done | by apply elem_of_nil in Hin].
    + intros w x w' H Hr. cbn in Hr. injection Hr as <-. apply start_ok in H. eapply safe_Ret; [exact H|].
      intros w1 Hok1. unfold next_ok, loop_view, operating, set_operation. cbn. rewrite Es. exact Hok1.
Qed.

Lemma result_safe g r operationErr w :
  ge_operation g = Some r ->
  ok (vw true 0 [] [] [r] (ah_ActorState (ge_health g) =s "ready") (ah_ActorState (ge_health g) =s "ready") true
        (Some (ge_snapshot g)) (ge_pending g) true) w ->
  Safe (call! _ := CancelOperation r in call! _ := Reply r operationErr in Ret (Continue (set_operation None g))) next_ok w.
Proof.
  intros Eo H. neutral_rule u. call_rule; [intros w H; eapply reply_fresh; [exact H | set_solver]|].
  intros w x w' H Hr. cbn in Hr. injection Hr as <-. eapply reply_ok in H; [|by right].
  eapply safe_Ret; [exact H|]. intros w1 H1. exact H1.
Qed.

Lemma debounce_safe g w :
  ok (loop_view g) w ->
  Safe (call! latest := TakeLatest in
        let g := set_pending (if is_nil latest then ge_pending g else latest) false g in
        call! ctxErr := CtxErr in
        if negb (is_nil ctxErr) then Ret (Exit g (exit_of generationExitShutdown []))
        else
          do! flushed := flushPendingSession actor key token (ge_snapshot g) (ge_pending g) in
          let g := set_session flushed.1.1 flushed.1.2 g in
          if granted flushed.2 then Ret (Continue g)
          else Ret (Exit g (exit_of generationExitSessionConflict (err_of flushed.2)))) next_ok w.
Proof.
  intros H. call_rule; [done|]. intros w latest w' H Hr. cbn in Hr. destruct (bool_decide _) eqn:Eb; [|done].
  injection Hr as <-. reflect_bools. unfold loop_view in H. pose proof (ok_active _ _ H : _ = true) as Ha. rewrite Ha.
  eapply (take_session_ok _ _ _ _ _ _ _ _ _ _ _ _ true) in H; [|by left]. cbv zeta in H.
  assert ((takeLatest (wo_callbacks w)).2 = latest) as El by exact Eb. rewrite El in H. call_rule; [done|]. intros w ctxErr w' H Hr. cbn in Hr.
  destruct (Bool.eqb _ _); [|done]. injection Hr as <-. destruct (negb (is_nil ctxErr)); [by eapply exit_Ret|].
  eapply safe_bind; [eapply flush_safe; exact H|]. intros [[s p] r] w1 H1. cbn [fst snd] in *.
  destruct (granted r).
  - destruct H1 as [H1 ->]. eapply safe_Ret; [exact H1|]. intros w2 H2. exact H2.
  - apply forget_ok in H1. eapply safe_Ret; [exact H1|]. intros w2 H2. exists false. split; [exact H2|]. by right; left.
Qed.

Lemma generationStep_safe g w : ok (loop_view g) w -> Safe (generationStep actor key token runID g) next_ok w.
Proof.
  intros H. unfold generationStep. call_rule; [done|]. intros w x w' H Hr. cbn in Hr.
  destruct x as [| |e|r cancelled|err|session| |err]; cbn in Hr.
  - destruct (wo_done w); [|done]. injection Hr as <-. by eapply exit_Ret.
  - injection Hr as <-. call_rule; [intros w H; exact (ok_lease _ _ H)|]. intros w renewed w' H Hr. cbn in Hr.
    injection Hr as <-. destruct (granted renewed); [|by eapply fenceExit_safe].
    eapply safe_bind; [by eapply startRenewTimer_safe|]. intros u w1 H1. eapply safe_Ret; [exact H1 | done].
  - destruct (cb_events (wo_callbacks w)) as [|e' events] eqn:Ee; [done|]. destruct (bool_decide _) eqn:Eb; [|done].
    injection Hr as <-. reflect_bools. subst e'. eapply event_ok in H as [Hk H]; [|done].
    rewrite bool_decide_false by done. by apply event_safe.
  - destruct (op_queue (wo_operations w)) as [|r' rest] eqn:Eq; [done|]. destruct (_ && bool_decide (r' = r)) eqn:Eb; [|done].
    injection Hr as <-. apply andb_true_iff in Eb as [[Eo Es]%andb_true_iff Er]. reflect_bools. subst r'.
    unfold loop_view, operating in H. rewrite Eo, Es in H.
    eapply take_ok in H; [|done..]. apply request_safe; [exact Eo | exact Es | exact H].
  - destruct (ge_operation g) as [r|] eqn:Eo; [|done]. destruct (bool_decide _) eqn:Eb; [|done]. injection Hr as <-.
    apply (result_safe g r err); [done|]. unfold loop_view, operating in H. rewrite Eo in H.
    pose proof (ok_goroutines _ _ H) as (-> & -> & ->). cbn [vw vw_running vw_connecting vw_disconnecting].
    rewrite remove_request_self. by eapply goroutines_ok.
  - destruct (bool_decide _) eqn:Eb; [|done]. injection Hr as <-. reflect_bools. apply keepPending_safe.
    by eapply receive_session_ok.
  - destruct (ge_debounce g); [|done]. injection Hr as <-. by apply debounce_safe.
  - destruct (wo_connecting w); [|done]. injection Hr as <-.
    pose proof (ok_goroutines _ _ H) as (_ & -> & ->). eapply goroutines_ok in H.
    destruct (terminalProviderError err) eqn:Et; [by eapply exit_Ret|]. call_rule; [done|].
    intros w ctxErr w' H Hr. cbn in Hr. destruct (Bool.eqb _ _); [|done]. injection Hr as <-.
    destruct (_ || _); by eapply exit_Ret.
Qed.

Lemma generationLoop_safe steps g w :
  ok (loop_view g) w ->
  Safe (generationLoop actor key token steps runID g) (fun r w =>
    match r with Some (g, exit) => exited g exit w | None => True end) w.
Proof.
  revert g w. induction steps as [|steps IH]; intros g w H; [by intros|].
  cbn [generationLoop]. eapply safe_bind; [by apply generationStep_safe|]. intros [g'|g' exit] w1 H1; [by apply IH|].
  destruct H1 as (latest & H1 & Hl). eapply safe_Ret; [exact H1|]. intros w2 H2. by exists latest.
Qed.

(** ** Teardown *)

Definition timed_out (err : error) : Prop := errors_Is err ErrProviderJoinTimeout = true.

Lemma timed_out_join err errs : err ∈ errs -> timed_out err -> timed_out (errors_Join errs).
Proof.
  intros Hin Ht. unfold timed_out, errors_Is, errors_Join in *. reflect_bools. apply bool_decide_eq_true.
  apply list_elem_of_In, in_concat. exists err. split; by apply list_elem_of_In.
Qed.

Lemma joinOperation_safe g exit w :
  exited g exit w ->
  Safe (joinOperation g exit) (fun exit w => exists latest rs,
    ok (vw (negb (ex_providerJoined exit)) 0 rs [] [] false false true (Some (ge_snapshot g)) (ge_pending g) latest) w /\
    (latest = true \/ conclusive exit) /\ (rs = [] \/ timed_out (ex_err exit))) w.
Proof.
  intros (latest & H & Hl). unfold joinOperation, exit_view, operating in *. destruct (ge_operation g) as [r|].
  2:{ eapply safe_Ret; [exact H|]. intros w1 H1. exists latest, []. split_and!; [done..|by left]. }
  neutral_rule u. call_rule; [done|]. intros w x w' H Hr. cbn in Hr.
  assert (forall rs err exit', ok (vw (negb (ex_providerJoined exit)) 0 rs [] [r] false false true
      (Some (ge_snapshot g)) (ge_pending g) latest) w' ->
      ex_providerJoined exit' = ex_providerJoined exit -> (latest = true \/ conclusive exit') ->
      (rs = [] \/ timed_out (ex_err exit')) ->
      Safe (call! _ := Reply r err in Ret exit') (fun exit w => exists latest rs,
        ok (vw (negb (ex_providerJoined exit)) 0 rs [] [] false false true (Some (ge_snapshot g)) (ge_pending g) latest) w /\
        (latest = true \/ conclusive exit) /\ (rs = [] \/ timed_out (ex_err exit))) w') as Hreply.
  { intros rs err exit' H1 Hj Hl' Hrs. call_rule; [intros w H; eapply reply_fresh; [exact H | set_solver]|].
    intros w x0 w' H Hr. cbn in Hr. injection Hr as <-. eapply reply_ok in H; [|by right].
    eapply safe_Ret; [exact H|]. intros w1 H1. exists latest, rs. rewrite Hj. by split_and!. }
  destruct x as [err|].
  - destruct (bool_decide _); [|done]. injection Hr as <-. apply (Hreply []); [|done|done|by left].
    pose proof (ok_goroutines _ _ H) as (-> & -> & ->). cbn [vw vw_running vw_connecting vw_disconnecting].
    rewrite remove_request_self. by eapply goroutines_ok.
  - injection Hr as <-. apply (Hreply [r]); [done|done|done|]. right.
    apply (timed_out_join [ErrProviderJoinTimeout] [ex_err exit; [ErrProviderJoinTimeout]]); [set_solver | done].
Qed.

Lemma joinConnect_safe exit d rs ac sn pe latest w :
  ok (vw (negb (ex_providerJoined exit)) d rs [] [] false false ac sn pe latest) w -> (latest = true \/ conclusive exit) ->
  Safe (joinConnect actor exit) (fun r w =>
    ok (vw (negb r.2) d rs [] [] false false ac sn pe latest) w /\ (latest = true \/ conclusive r.1) /\
    ex_err r.1 = ex_err exit) w.
Proof.
  intros H Hl. unfold joinConnect. destruct (ex_providerJoined exit) eqn:Ej; [by eapply safe_Ret|].
  call_rule; [done|]. intros w x w' H Hr. cbn in Hr. destruct x as [err|].
  - destruct (wo_connecting w); [|done]. injection Hr as <-. pose proof (ok_goroutines _ _ H) as (_ & -> & ->).
    eapply goroutines_ok in H. destruct (terminalProviderError err) eqn:Et; [|by eapply safe_Ret].
    eapply safe_Ret; [exact H|]. intros w1 H1. cbn. split_and!; [done| |done]. right. right. cbn.
    unfold terminalProviderError, errors_Join in *. cbn. rewrite app_nil_r, !errors_Is_app.
    revert Et. repeat (destruct (errors_Is err _); rewrite ?orb_true_r); done.
  - injection Hr as <-. by eapply safe_Ret.
Qed.

Lemma writeHealthDetached_safe c d rs held act wr rd ac sn pe la h outcome w :
  ok (vw c d rs held act wr rd ac sn pe la) w ->
  Safe (writeHealthDetached actor key token h outcome)
    (fun r w => ok (vw c d rs held act false false ac sn pe la) w /\ r.2 = outcome) w.
Proof.
  intros H. unfold writeHealthDetached. eapply safe_bind; [by eapply writeHealth_safe|]. intros [h' r] w1 [_ H1].
  cbn [fst snd] in *. destruct (granted r); apply forget_ok in H1; (eapply safe_Ret; [exact H1 | done]).
Qed.

Lemma finalizeJoined_safe exit h s latest w :
  ok (vw false 0 [] [] [] false false false (Some s) [] latest) w -> (latest = true \/ conclusive exit) ->
  Safe (finalizeJoined actor key token exit h) (fun r w =>
    ok (vw false 0 [] [] [] false false false (Some s) [] latest) w /\ (go_stop r.2 = false -> latest = true)) w.
Proof.
  intros H Hl. assert (forall h err w, ok (vw false 0 [] [] [] false false false (Some s) [] latest) w ->
    Safe (writeHealthDetached actor key token h (stopped err)) (fun r w =>
    ok (vw false 0 [] [] [] false false false (Some s) [] latest) w /\ (go_stop r.2 = false -> latest = true)) w) as Hwrite.
  { intros h' err w0 H0. eapply safe_mono; [|by eapply writeHealthDetached_safe]. intros [h1 out] w1 [H1 E]. cbn in *. by subst out. }
  unfold finalizeJoined. destruct (terminalProviderError (ex_providerErr exit)) eqn:Et.
  - destruct (errors_Is _ ErrStaleGeneration) eqn:E1; [by apply Hwrite|].
    destruct (errors_Is _ ErrSharedInfrastructure) eqn:E2; [by apply Hwrite|].
    destruct (errors_Is _ ErrProviderAuthorization) eqn:E3.
    { call_rule; [intros w H; exact (ok_lease _ _ H)|]. intros w x w' H Hr. cbn in Hr. injection Hr as <-.
      destruct (granted x); [by apply Hwrite | by eapply safe_Ret]. }
    destruct (errors_Is _ ErrProviderPermanentConfig) eqn:E4; [by apply Hwrite|].
    destruct (errors_Is _ ErrProviderPermanentProtocol) eqn:E5; [by apply Hwrite|].
    unfold terminalProviderError in Et. by rewrite E1, E2, E3, E4, E5 in Et.
  - assert (ex_kind exit = generationExitProvider -> latest = true) as Hk.
    { intros Ek. destruct Hl as [|[?|?]]; congruence. }
    unfold terminalProviderError in Et. rewrite !orb_false_iff in Et.
    destruct (ex_kind exit) eqn:Ek; [by apply Hwrite..|]. destruct Et as [[[[-> ->] ->] ->] ->].
    eapply safe_Ret; [exact H|]. auto.
Qed.

(** What is left when a generation ended: nothing, or an error that says so. *)
Definition ended (err : error) (w : World) : Prop :=
  exists c d rs sn pe la, ok (vw c d rs [] [] false false false sn pe la) w /\
    ((c = false /\ d = 0%nat /\ rs = []) \/ timed_out err).

(** What holds between two generations. *)
Definition between (g : generation) (w : World) : Prop :=
  ok (vw false 0 [] [] [] false false false (Some (ge_snapshot g)) [] true) w.

Definition finalized (r : generation * generationOutcome) (w : World) : Prop :=
  if go_stop r.2 then ended (go_err r.2) w else between r.1 w.

Lemma ended_Ret {A} (a : A) err c d rs sn pe la (Q : A -> World -> Prop) w :
  ok (vw c d rs [] [] false false false sn pe la) w -> (c = false /\ d = 0%nat /\ rs = []) \/ timed_out err ->
  (forall w, ended err w -> Q a w) -> Safe (Ret a) Q w.
Proof. intros H Hg HQ. eapply safe_Ret; [exact H|]. intros w1 H1. apply HQ. by exists c, d, rs, sn, pe, la. Qed.

(** The end of [finalizeGeneration], after the flush. *)
Lemma conclude_safe g exit disconnectJoined connectJoined swapped d rs pe latest w :
  ok (vw (negb connectJoined) d rs [] [] false false false (Some (ge_snapshot g)) pe latest) w ->
  (disconnectJoined = true -> d = 0%nat) -> (rs = [] \/ timed_out (ex_err exit)) ->
  (granted swapped = true -> pe = [] /\ (latest = true \/ conclusive exit)) ->
  let joinErr := joinError disconnectJoined connectJoined in
  Safe (do! final := (
          if negb (granted swapped) then
            writeHealthDetached actor key token (flushFailedHealth exit (ge_health g))
              (stopped (errors_Join [err_of swapped; ex_err exit; ex_providerErr exit; joinErr]))
          else if negb disconnectJoined || negb connectJoined || errors_Is (ex_err exit) ErrProviderJoinTimeout then
            writeHealthDetached actor key token (unjoinedHealth exit (ge_health g))
              (stopped (errors_Join [ex_err exit; ex_providerErr exit; joinErr]))
          else finalizeJoined actor key token exit (ge_health g)) in
        Ret (set_ge_health final.1 g, final.2)) finalized w.
Proof.
  intros H Hd Hrs Hsw joinErr.
  assert (forall errs, ex_err exit ∈ errs -> joinErr ∈ errs ->
    (negb connectJoined = false /\ d = 0%nat /\ rs = []) \/ timed_out (errors_Join errs)) as Hleft.
  { intros errs He Hj. destruct (decide (joinErr = [])) as [E|Hne].
    - unfold joinErr, joinError in E. destruct (disconnectJoined && connectJoined) eqn:Ej; [|done].
      apply andb_true_iff in Ej as [-> ->]. destruct Hrs as [->|Ht]; [left; auto|]. right. by apply (timed_out_join (ex_err exit)).
    - right. apply (timed_out_join joinErr); [done|]. unfold joinErr, joinError in *. by destruct (_ && _). }
  assert (forall h errs, ex_err exit ∈ errs -> joinErr ∈ errs ->
    Safe (do! final := writeHealthDetached actor key token h (stopped (errors_Join errs)) in
          Ret (set_ge_health final.1 g, final.2)) finalized w) as Hstop.
  { intros h errs He Hj. eapply safe_bind; [by eapply writeHealthDetached_safe|]. intros [h' out] w1 [H1 E].
    cbn [fst snd] in *. subst out. by eapply ended_Ret; [exact H1 | apply (Hleft errs) |]. }
  destruct (granted swapped) eqn:Eg; cbn [negb]; [|apply Hstop; set_solver].
  destruct (_ || errors_Is _ _) eqn:Ej; [apply Hstop; set_solver|].
  apply orb_false_iff in Ej as [[Ed Ec]%orb_false_iff Et]. apply negb_false_iff in Ed as ->. rewrite Ec in H.
  rewrite Hd in H by done. destruct Hrs as [->|Ht]; [|unfold timed_out in Ht; congruence].
  destruct (Hsw eq_refl) as [-> Hl]. eapply safe_bind; [by eapply finalizeJoined_safe|].
  intros [h' out] w1 [H1 Hstay]. cbn [fst snd] in *. destruct (go_stop out) eqn:Es.
  - eapply (ended_Ret _ (go_err out)); [exact H1 | by left|]. intros w2 H2. unfold finalized. cbn [fst snd]. by rewrite Es.
  - rewrite Hstay in H1 by done. eapply safe_Ret; [exact H1|]. intros w2 H2. unfold finalized. cbn [fst snd]. by rewrite Es.
Qed.

Lemma finalizeGeneration_safe g exit rs latest w :
  ok (vw (negb (ex_providerJoined exit)) 0 rs [] [] false false true (Some (ge_snapshot g)) (ge_pending g) latest) w ->
  (latest = true \/ conclusive exit) -> (rs = [] \/ timed_out (ex_err exit)) ->
  Safe (finalizeGeneration actor key token g exit) finalized w.
Proof.
  intros H Hl Hrs. unfold finalizeGeneration. neutral_rule u. call_rule; [done|].
  intros w joined w' H Hr. cbn in Hr.
  assert (exists d, (joined = true -> d = 0%nat) /\ ok (vw (negb (ex_providerJoined exit)) d rs [] [] false false true
      (Some (ge_snapshot g)) (ge_pending g) latest) w') as (d & Hd & H1).
  { injection Hr as <-. destruct joined; [by exists 0%nat|]. exists 1%nat. split; [done|].
    pose proof (ok_goroutines _ _ H) as (-> & -> & ->). by eapply goroutines_ok. }
  clear dependent w. rename H1 into H. eapply safe_bind; [by eapply joinConnect_safe|].
  intros [exit' cj] w1 (H1 & Hl1 & He). cbn [fst snd] in *. rewrite <- He in Hrs. clear dependent w'. clear He Hl.
  call_rule; [done|]. intros w latestSession w' H Hr. cbn in Hr. destruct (bool_decide _) eqn:Eb; [|done].
  injection Hr as <-. reflect_bools. eapply (take_session_ok _ _ _ _ _ _ _ _ _ _ _ _ false) in H; [|by right].
  cbv zeta in H. assert ((takeLatest (wo_callbacks w)).2 = latestSession) as El by exact Eb. rewrite El in H.
  eapply safe_bind; [by eapply flush_safe|]. intros [[s p] r] w1 H1. cbn [fst snd] in *.
  assert (exists la, ok (vw (negb cj) d rs [] [] false false false (Some s) p la) w1 /\
    (granted r = true -> p = [] /\ (la = true \/ conclusive exit'))) as (la & H2 & Hla).
  { destruct (granted r); [destruct H1 as [H1 ->]; by exists latest | by exists false]. }
  by eapply (conclude_safe (set_session s p g)).
Qed.

(** ** Generations *)

Lemma unready_finalized r w :
  finalized r w -> finalized r (with_operations (setOperationReady runID false (wo_operations w)) w).
Proof.
  unfold finalized. destruct (go_stop r.2).
  - intros (c & d & rs & sn & pe & la & H & Hg). exists c, d, rs, sn, pe, la. split; [|done]. by eapply unready_ok.
  - intros H. by eapply unready_ok.
Qed.

Lemma finalized_interferes r w w' : interferes (around queueSize) w w' -> finalized r w -> finalized r w'.
Proof.
  intros Hi. unfold finalized. destruct (go_stop r.2).
  - intros (c & d & rs & sn & pe & la & H & Hg). exists c, d, rs, sn, pe, la. split; [|done].
    by eapply (interferes_stable _ (ok _) (around_ok queueSize _)).
  - intros H. by eapply (interferes_stable _ (ok _) (around_ok queueSize _)).
Qed.

Lemma runGeneration_safe steps g w :
  ok (vw false 0 [] [] [] false false true (Some (ge_snapshot g)) [] true) w -> ah_ActorState (ge_health g) = "connecting" ->
  Safe (runGeneration actor key token steps runID g) (fun r w => match r with Some r => finalized r w | None => True end) w.
Proof.
  intros H Hs. unfold runGeneration.
  call_rule; [by intros|]. intros w x w' H Hr. cbn in Hr. injection Hr as <-. eapply unready_ok in H.
  call_rule; [intros w H; exact (ok_goroutines _ _ H)|]. intros w y w' H Hr. cbn in Hr. injection Hr as <-.
  pose proof (ok_goroutines _ _ H) as (_ & -> & ->). eapply goroutines_ok in H.
  eapply safe_bind; [by apply startRenewTimer_safe|]. intros u w1 H1. clear dependent w.
  eapply safe_bind; [apply generationLoop_safe; unfold loop_view; cbn; rewrite Hs; exact H1|].
  intros [[g' exit]|] w2 H2; [|by intros]. clear dependent w1. destruct H2 as (latest & H2 & Hl).
  call_rule; [by intros|]. intros w z w' H Hr. cbn in Hr. injection Hr as <-. eapply unready_ok in H.
  eapply safe_bind; [apply joinOperation_safe; by exists latest|]. intros exit' w3 (la & rs & H3 & Hl3 & Hrs).
  clear dependent w. eapply safe_bind; [by eapply (finalizeGeneration_safe (set_operation None g'))|].
  intros r w4 H4. intros w5 Hi5. split; [done|]. intros v w6 Hr. cbn in Hr. injection Hr as <-. intros w7 Hi7.
  eapply finalized_interferes; [exact Hi7|]. apply unready_finalized. by eapply finalized_interferes.
Qed.

Lemma waitLoop_safe steps h c d rs sn pe la w :
  ok (vw c d rs [] [] false false false sn pe la) w ->
  Safe (waitLoop actor key token steps h) (fun _ w => ok (vw c d rs [] [] false false false sn pe la) w) w.
Proof.
  revert h w. induction steps as [|steps IH]; intros h w H; cbn [waitLoop]; [by eapply safe_Ret|].
  call_rule; [done|]. intros w x w' H Hr. cbn in Hr. destruct x.
  - destruct (wo_done w); [|done]. injection Hr as <-. call_rule; [done|]. intros w x w' H Hr. cbn in Hr.
    destruct (Bool.eqb _ _); [|done]. injection Hr as <-. by eapply safe_Ret.
  - injection Hr as <-. by eapply safe_Ret.
  - injection Hr as <-. call_rule; [intros w H; exact (ok_lease _ _ H)|]. intros w renewed w' H Hr. cbn in Hr.
    injection Hr as <-. destruct (granted renewed).
    + eapply safe_bind; [by eapply startRenewTimer_safe|]. intros u w1 H1. by apply IH.
    + eapply safe_bind; [by eapply writeHealth_safe|]. intros [h' r] w1 [_ H1]. cbn [fst snd] in *.
      destruct (granted r); eapply safe_Ret; eauto.
Qed.

Lemma between_write h w g :
  between g w -> (ah_ActorState h =s "ready") = false ->
  Safe (writeHealth actor key token h) (fun r w => between g w /\ exists now, r.1 = stamp token now h) w.
Proof.
  intros H Hs. eapply safe_mono; [|by eapply writeHealth_safe]. intros [h' r] w1 [Ht H1]. cbn [fst snd] in *.
  split; [|done]. rewrite Hs in H1. by destruct (granted r).
Qed.

Lemma between_end {A} (a : A) err g (Q : A -> World -> Prop) w :
  between g w -> (forall w, ended err w -> Q a w) -> Safe (Ret a) Q w.
Proof. intros H HQ. eapply ended_Ret; [exact H | by left | done]. Qed.

Lemma waitBackoff_safe steps delay h g w :
  between g w -> Safe (waitBackoff actor key token steps delay h) (fun _ w => between g w) w.
Proof.
  intros H. unfold waitBackoff, between in *. neutral_rule u. eapply safe_bind; [by eapply startRenewTimer_safe|].
  intros v w1 H1. by apply waitLoop_safe.
Qed.

Lemma backOff_safe steps g w :
  between g w ->
  Safe (backOff actor key token steps g) (fun r w =>
    match r with
    | Some (inl g') => between g' w /\ ah_ActorState (ge_health g') = "connecting"
    | Some (inr err) => ended err w
    | None => True
    end) w.
Proof.
  intros H. unfold backOff. unfold between in H. neutral_rule delay.
  eapply safe_bind; [by apply (between_write _ _ g)|].
  intros [h r] w1 [H1 _]. cbn [fst snd]. clear dependent w. destruct (negb (granted r)); [by eapply between_end|].
  eapply safe_bind; [by apply (waitBackoff_safe _ _ _ g)|]. intros [[h2 err]|] w2 H2; [|by intros]. clear dependent w1.
  destruct (negb (is_nil err)); [by eapply between_end|].
  eapply safe_bind; [by apply (between_write _ _ g)|]. intros [h3 r3] w3 [H3 [now Eh]]. cbn [fst snd] in *. subst h3.
  clear dependent w2. destruct (negb (granted r3)); [by eapply between_end|]. eapply safe_Ret; [exact H3|].
  intros w4 H4. split; [exact H4 | done].
Qed.

Lemma generations_safe fuel steps g w :
  between g w -> ah_ActorState (ge_health g) = "connecting" ->
  Safe (generations actor key token fuel steps runID g) (fun r w => match r with Some err => ended err w | None => True end) w.
Proof.
  revert g w. induction fuel as [|fuel IH]; intros g w H Hs; [by intros|]. cbn [generations]. unfold between in H.
  call_rule.
  { intros w H. destruct (ok_session _ _ H _ eq_refl) as [Hd Hl]. split_and!.
    - exact (ok_lease _ _ H).
    - exact (ok_goroutines _ _ H).
    - exists (ss_Revision (ge_snapshot g)). rewrite Hd. by destruct (ge_snapshot g).
    - intros Hb s Hrep. specialize (Hl eq_refl Hb). unfold latest_ok in Hl.
      rewrite (ok_idle _ _ H) in Hl by done. by apply Hl. }
  intros w x w' H Hr. cbn in Hr. destruct x as [u|e]; injection Hr as <-.
  - eapply safe_bind; [apply runGeneration_safe; [|done]|].
    + destruct H as [Hle Hru Hgo Hid Hol Hst Had Hwr Hre Hac Hev Hbl Hse Hidle]. cbn in *. split; cbn; try done.
      intros s [= <-]. destruct (Hse _ eq_refl) as [Hd Hl]. split; [done|]. intros _ Hb. specialize (Hl eq_refl Hb).
      unfold latest_ok in *. cbn. by rewrite Hidle in Hl.
    + intros [[g' out]|] w1 H1; [|by intros]. clear dependent w. unfold finalized in H1. cbn [fst snd] in *.
      destruct (go_stop out).
      * destruct H1 as (c & d & rs & sn & pe & la & H1 & Hg). by eapply ended_Ret.
      * eapply safe_bind; [by apply backOff_safe|]. intros [[g2|err]|] w2 H2; [| |by intros].
        -- destruct H2. by apply IH.
        -- destruct H2 as (c & d & rs & sn & pe & la & H2 & Hg). by eapply ended_Ret.
  - eapply safe_bind; [by apply (between_write _ _ g)|]. intros r w1 [H1 _]. by eapply between_end.
Qed.

Lemma loaded_ok s w :
  ok (vw false 0 [] [] [] false false false None [] true) w ->
  ok (vw false 0 [] [] [] false false false (Some s) [] true)
    (with_report None false (with_durable (wo_lease w) (wo_health w) (Some s) w)).
Proof.
  intros [Hle Hru Hgo Hid Hol Hst Had Hwr Hre Hac Hev Hbl Hse Hidle]. cbn in *. split; cbn; try done.
  - by rewrite Hidle.
  - intros s0 [= <-]. split; [done|]. intros _ _. unfold latest_ok. cbn. by rewrite Hidle.
Qed.

Lemma runRegistered_safe fuel steps w :
  ok (vw false 0 [] [] [] false false false None [] true) w ->
  Safe (runRegistered actor key token fuel steps runID) (fun r w => match r with Some err => ended err w | None => True end) w.
Proof.
  intros H. unfold runRegistered. neutral_rule found.
  assert (forall e w, ok (vw false 0 [] [] [] false false false None [] true) w ->
    Safe (Ret (Some e)) (fun r w => match r with Some err => ended err w | None => True end) w) as Hend.
  { intros e w0 H0. eapply ended_Ret; [exact H0 | by left | done]. }
  destruct found as [connection|e]; [|by apply Hend]. destruct (_ || _); [by apply Hend|].
  assert (Safe (call! loaded := LoadVersioned key in
      match loaded with
      | Err e => Ret (Some e)
      | Ok snapshot =>
        if is_nil (ss_Plaintext snapshot) || (ss_Revision snapshot =? 0) then Ret (Some [ErrInvalidConfig])
        else match NewBackoff (ac_backoffBase actor) (ac_backoffCap actor) with
        | Err e => Ret (Some e)
        | Ok backoff =>
          do! written := writeHealth actor key token (initial_health token) in
          if negb (granted written.2) then Ret (Some (err_of written.2))
          else generations actor key token fuel steps runID {| ge_snapshot := snapshot; ge_backoff := backoff;
                 ge_health := written.1; ge_pending := []; ge_debounce := false; ge_operation := None |}
        end
      end) (fun r w => match r with Some err => ended err w | None => True end) w) as Hload.
  { call_rule; [done|]. intros w loaded w' H Hr. cbn in Hr. destruct loaded as [s|e]; injection Hr as <-; [|by apply Hend].
    apply (loaded_ok s) in H.
    assert (forall e w, ok (vw false 0 [] [] [] false false false (Some s) [] true) w ->
      Safe (Ret (Some e)) (fun r w => match r with Some err => ended err w | None => True end) w) as Hend2.
    { intros e w0 H0. eapply ended_Ret; [exact H0 | by left | done]. }
    destruct (_ || _); [by apply Hend2|]. destruct (NewBackoff _ _) as [backoff|e]; [|by apply Hend2].
    eapply safe_bind; [by eapply writeHealth_safe|]. intros [h r] w1 [[now Eh] H1]. cbn [fst snd] in *. subst h.
    destruct (granted r); cbn [negb]; [|by apply Hend2]. by apply generations_safe. }
  destruct (conn_State connection); first [exact Hload | by apply Hend].
Qed.
End Registered.

(** ** A whole run *)

Definition unregistered (lease : option (Key * string * Z)) (c : bool) (d : nat) (rs : list request) : view := {|
  vw_lease := lease; vw_run := None; vw_connecting := c; vw_disconnecting := d; vw_running := rs; vw_held := [];
  vw_act := []; vw_written := false; vw_ready := false; vw_active := false; vw_snapshot := None; vw_pending := [];
  vw_latest := true |}.

(** An actor no run of which is under way; its run counter does not wrap. *)
Definition idle (w : World) : Prop :=
  ok (unregistered None false 0 []) w /\ 0 <= op_runID (wo_operations w) < two64 - 1.

Definition counted (v : view) (w : World) : Prop := ok v w /\ 0 <= op_runID (wo_operations w) < two64 - 1.

Lemma env_runID queueSize e w : op_runID (wo_operations (env queueSize e w)) = op_runID (wo_operations w).
Proof.
  destruct e; cbn [env]; try done.
  - unfold replaceSession. by destruct (cb_active _).
  - by destruct (Execute_admit _ _ _).
  - destruct (bool_decide _); [|done]. unfold Execute_send. by destruct (_ <? _).
Qed.

Lemma counted_stable queueSize v w w' : around queueSize w w' -> counted v w -> counted v w'.
Proof. intros [e ->] [H Hr]. split; [by apply env_ok | by rewrite env_runID]. Qed.

Lemma begin_run_ok actor key token w x w' :
  counted (unregistered (Some (key, ac_ownerID actor, token)) false 0 []) w ->
  respond _ (BeginOperationRun key) w x = Some w' ->
  exists runID, x = Ok runID /\ runID = op_runID (wo_operations w) + 1 /\ op_runID (wo_operations w') = runID /\
    ok (vw actor key token runID false 0 [] [] [] false false false None [] true) w'.
Proof.
  intros [[Hle Hru Hgo Hid Hol Hst Had Hwr Hre Hac Hev Hbl Hse Hidle] Hrange] Hr. cbn in *. unfold beginOperationRun in Hr.
  rewrite Hru in Hr. cbn in Hr. rewrite uint64_id in Hr by lia. destruct (bool_decide _) eqn:Eb; [|done]. reflect_bools.
  injection Hr as <-. exists (op_runID (wo_operations w) + 1). split_and!; [done..|].
  assert (map rq_ID (queued w ++ [] ++ []) ++ wo_replied w ≡ₚ
          map rq_ID ((wo_callers w ++ []) ++ [] ++ []) ++ wo_replied w ++ map rq_ID (op_queue (wo_operations w))) as Hperm.
  { unfold queued. rewrite !app_nil_r, map_app, <- app_assoc. apply Permutation_app_head, Permutation_app_comm. }
  split; cbn; try done; unfold queued; cbn.
  - by rewrite <- Hperm.
  - by rewrite <- Hperm.
  - intros i Hi. apply Hst in Hi as [Hi|Hi]; [left; set_solver | by apply elem_of_nil in Hi].
  - rewrite !app_nil_r in *. unfold queued in Had. apply Forall_app in Had as [Had _].
    eapply Forall_impl; [exact Had|]. cbn. intros r [? _]. split; [lia | lia].
Qed.

Lemma end_run_ok actor key token runID c d rs sn pe la w :
  ok (vw actor key token runID c d rs [] [] false false false sn pe la) w ->
  ok (unregistered (Some (key, ac_ownerID actor, token)) c d rs)
    (let '(ops, drained) := endOperationRun runID (wo_operations w) in reply_all drained (with_operations ops w)).
Proof.
  intros [Hle (Hr1 & Hr2 & Hr3) Hgo Hid Hol Hst Had Hwr Hre Hac Hev Hbl Hse Hidle]. cbn in *. unfold endOperationRun.
  rewrite Hr1, Hr2, Z.eqb_refl. cbn [andb].
  assert (map rq_ID (queued w ++ [] ++ []) ++ wo_replied w ≡ₚ
          map rq_ID ((wo_callers w ++ []) ++ [] ++ []) ++ wo_replied w ++ map rq_ID (op_queue (wo_operations w))) as Hperm.
  { unfold queued. rewrite !app_nil_r, map_app, <- app_assoc. apply Permutation_app_head, Permutation_app_comm. }
  split; cbn; try done; unfold queued; cbn.
  - by rewrite <- Hperm.
  - by rewrite <- Hperm.
  - intros i Hi. apply Hst in Hi as [Hi|Hi]; [left; set_solver | by apply elem_of_nil in Hi].
  - rewrite !app_nil_r in *. unfold queued in Had. apply Forall_app in Had as [Had _]. by rewrite <- Hr2.
Qed.

(** What is left when [Run] returns. *)
Definition returned (err : error) (w : World) : Prop :=
  exists c d rs, ok (unregistered None c d rs) w /\ ((c = false /\ d = 0%nat /\ rs = []) \/ timed_out err).

Section Whole.
Variable actor : Actor.
Variable key : Key.
Variable queueSize : Z.

Lemma lease_ok lease lease' c d rs w :
  ok (unregistered lease c d rs) w ->
  ok (unregistered lease' c d rs) (with_durable lease' (wo_health w) (wo_durable w) w).
Proof. intros []. by split. Qed.

Lemma runLeased_safe token fuel steps w :
  counted (unregistered (Some (key, ac_ownerID actor, token)) false 0 []) w ->
  safe (around queueSize) respond allowed (runLeased actor key token fuel steps) (fun r w =>
    match r with
    | Some err => exists c d rs, ok (unregistered (Some (key, ac_ownerID actor, token)) c d rs) w /\
                    ((c = false /\ d = 0%nat /\ rs = []) \/ timed_out err)
    | None => True
    end) w.
Proof.
  intros H. unfold runLeased.
  eapply (safe_call _ _ _ (counted _) (counted_stable queueSize _)); [exact H | done|].
  clear dependent w. intros w x w' H Hr. destruct (begin_run_ok _ _ _ _ _ _ H Hr) as (runID & -> & _ & _ & H1).
  clear dependent w. eapply safe_bind; [by apply runRegistered_safe|]. intros [err|] w1 H1'; [|by intros].
  destruct H1' as (c & d & rs & sn & pe & la & H2 & Hg).
  eapply (safe_call _ _ _ (ok _) (around_ok queueSize _)); [exact H2 | done|]. clear dependent w1.
  intros w y w1 H2 Hr. cbn in Hr. injection Hr as <-. apply end_run_ok in H2.
  eapply (safe_ret _ _ _ (ok _) (around_ok queueSize _)); [exact H2|]. intros w2 H3. by exists c, d, rs.
Qed.

(** The whole of [Run] keeps the discipline, and leaves nothing behind silently. *)
Lemma Run_safe fuel steps w :
  idle w ->
  safe (around queueSize) respond allowed (Run actor fuel steps key) (fun r w =>
    match r with Some err => returned err w | None => True end) w.
Proof.
  intros H. unfold Run. eapply (safe_call _ _ _ (counted _) (counted_stable queueSize _)); [exact H | done|].
  clear dependent w. intros w x w' H Hr. cbn in Hr. destruct (Bool.eqb _ _); [|done]. injection Hr as <-.
  assert (forall e w, counted (unregistered None false 0 []) w ->
    safe (around queueSize) respond allowed (Ret (Some e)) (fun r w => match r with Some err => returned err w | None => True end) w) as Hend.
  { intros e w0 H0. eapply (safe_ret _ _ _ (counted _) (counted_stable queueSize _)); [exact H0|]. intros w1 [H1 _].
    exists false, 0%nat, []. split; [exact H1 | by left]. }
  destruct (negb (is_nil x)); [by apply Hend|]. destruct (negb (Key_valid key)); [by apply Hend|].
  eapply (safe_call _ _ _ (counted _) (counted_stable queueSize _)); [exact H | done|].
  clear dependent w. intros w acquired w' H Hr. cbn in Hr.
  destruct acquired as [[lease|]|e]; injection Hr as <-; [|by apply Hend..].
  eapply safe_bind; [apply runLeased_safe; destruct H as [H Hc]; split; [by eapply lease_ok | exact Hc]|].
  intros [err|] w1 H1; [|by intros]. destruct H1 as (c & d & rs & H1 & Hg).
  eapply (safe_call _ _ _ (ok _) (around_ok queueSize _)); [exact H1 | |].
  - intros w2 H2. split; [exact (ok_lease _ _ H2) | exact (ok_run _ _ H2)].
  - intros w2 y w3 H2 Hr. cbn in Hr. injection Hr as <-. apply (lease_ok _ None) in H2.
    eapply (safe_ret _ _ _ (ok _) (around_ok queueSize _)); [exact H2|]. intros w4 H4. by exists c, d, rs.
Qed.
End Whole.
