(* ===== verification/ActorGuarantees.v ===== *)
(** * Guarantees of a connection actor

    What the discipline of ActorSafety.v means for executions of [Actor.Run]: one
    provider generation at a time, every write under one lease, operations only in
    a ready generation and once; what a generation's end depends on; and that a run
    that lost its right to go on returns. *)

From S2P Require Import Prelude GoText Crypto Domain Session Backoff Pool Rely Store Leases Actor ActorSafety.

(** ** A concrete run

    A script of the cases the two [select]s take and of what happens beside the
    actor after each; every other call succeeds. *)

Record move := { mv_select : selected; mv_wait : waited; mv_beside : list beside }.

Definition picks (case : selected) (bs : list beside) : move := {| mv_select := case; mv_wait := WaitElapsed; mv_beside := bs |}.

Definition scripted (X : Type) (c : ActorCall X) (w : World) (s : list move) : X * list move * list beside :=
  match c in ActorCall X return X * list move * list beside with
  | CtxErr => (if wo_done w then [ContextCanceled] else [], s, [])
  | Now => (1000, s, [])
  | RandomBits => ((Some 5, 0), s, [])
  | Int63n limit => (Z.quot limit 2, s, [])
  | StartTimer _ | SetOperationReady _ _ | EndOperationRun _ | StartOperation _ _ | CancelOperation _ | Reply _ _
  | StartConnect | CancelGeneration => (tt, s, [])
  | AcquireLease _ ownerID ttl => (Ok (Some {| cl_OwnerID := ownerID; cl_FencingToken := 7; cl_ExpiresAt := ttl |}), s, [])
  | RenewLease _ _ _ _ | ReleaseLease _ _ _ | WriteHealth _ _ _ _ | MarkReauthorization _ _ _
  | CompareAndSwap _ _ _ _ _ => (Ok true, s, [])
  | GetConnection key => (Ok {| conn_ID := key_ConnectionID key; conn_TenantID := key_TenantID key; conn_Name := "phone";
                                conn_State := ConnectionStateConnected |}, s, [])
  | LoadVersioned _ => (Ok {| ss_Plaintext := bytes_of "s1"; ss_Revision := 1 |}, s, [])
  | BeginOperationRun key => ((beginOperationRun key (wo_operations w)).2, s, [])
  | JoinOperation _ | JoinConnect _ => (Some [ErrProviderTransient], s, [])
  | Restore _ _ => (Ok tt, s, [])
  | Disconnect _ => (true, s, [])
  | TakeLatest => ((takeLatest (wo_callbacks w)).2, s, [])
  | StopAcceptingAndTakeLatest => ((stopAcceptingAndTakeLatest (wo_callbacks w)).2, s, [])
  | Select _ _ _ => match s with m :: s => (mv_select m, s, mv_beside m) | [] => (SelRenew, s, []) end
  | WaitSelect => match s with m :: s => (mv_wait m, s, mv_beside m) | [] => (WaitElapsed, s, []) end
  end.

Definition sample_actor : Actor := {|
  ac_ownerID := "replica-1"; ac_leaseTTL := defaultLeaseTTL; ac_sessionDebounce := defaultSessionDebounce;
  ac_backoffBase := 0; ac_backoffCap := 0; ac_operationQueueSize := 64; ac_joinTimeout := defaultJoinTimeout |}.

Definition fresh_world : World := {|
  wo_done := false; wo_callbacks := {| cb_events := []; cb_sessions := None; cb_active := false |};
  wo_operations := {| op_queue := []; op_key := {| key_TenantID := ""; key_ConnectionID := "" |}; op_runID := 0;
                      op_active := false; op_ready := false |};
  wo_callers := []; wo_nextID := 0; wo_admitted := []; wo_started := []; wo_replied := []; wo_connecting := false;
  wo_disconnecting := 0; wo_running := []; wo_lease := None; wo_health := ""; wo_durable := None; wo_reported := None;
  wo_blank := false |}.

Lemma fresh_idle : idle fresh_world.
Proof. split; [|done]. split; cbn; try done; try constructor. all: set_solver. Qed.

Definition sample_request : request := {| rq_ID := 0; rq_RunID := 1; rq_Key := sample_key |}.

(** The provider becomes ready, runs an operation, reports a new session and loses
    its network. *)
Definition sample_moves : list move := [
  picks SelRenew [EnvReady];
  picks (SelEvent {| pv_kind := eventReady; pv_session := [] |}) [];
  picks SelRenew [EnvAdmit sample_key; EnvSend sample_request];
  picks (SelRequest sample_request false) [EnvSessionChanged (bytes_of "s2")];
  picks (SelResult []) [];
  picks (SelSession (bytes_of "s2")) [EnvSessionChanged (bytes_of "s3")];
  picks (SelConnect [ErrProviderTransient]) [EnvSessionChanged (bytes_of "s4")];
  picks SelRenew []].

Definition sample_run (n : nat) : option (list move * (World * prog ActorCall (option error))) :=
  play respond (env 64) scripted n sample_moves fresh_world (Run sample_actor 5 20 sample_key).

(** ** Executions *)

(** The configurations a run of the actor can reach. *)
Definition reaches (actor : Actor) (queueSize : Z) (key : Key) (w0 w : World) (p : prog ActorCall (option error)) : Prop :=
  exists fuel steps, rtc (run_step (around queueSize) respond) (w0, Run actor fuel steps key) (w, p).

Lemma reaches_allowed actor queueSize key w0 w X (c : ActorCall X) k :
  idle w0 -> reaches actor queueSize key w0 w (Call c k) -> allowed X c w.
Proof.
  intros Hi (fuel & steps & Hs).
  by apply (proj1 (safe_adequate _ _ _ _ _ _ (Run_safe actor key queueSize fuel steps w0 Hi)) w X c k).
Qed.

Lemma reaches_returned actor queueSize key w0 w err :
  idle w0 -> reaches actor queueSize key w0 w (Ret (Some err)) -> returned err w.
Proof.
  intros Hi (fuel & steps & Hs).
  by apply (proj2 (safe_adequate _ _ _ _ _ _ (Run_safe actor key queueSize fuel steps w0 Hi)) w (Some err)).
Qed.

Lemma tombstone_finish key (p : Pool.Pool) id e err :
  Pool.pool_ok p -> Pool.po_entries p !! id = Some e -> Pool.pe_running e = true -> Pool.pe_key e = key ->
  timed_out err -> Pool.tombstone key (Pool.finish id err p).
Proof.
  intros Hok He Hr <- Ht. pose proof (Pool.running_registered p Hok _ _ He Hr) as Ha.
  unfold Pool.finish. rewrite He, bool_decide_true, Ht by done. exists id, (Pool.end_entry e [ErrProviderJoinTimeout] (Pool.pe_quarantined e)).
  cbn. rewrite lookup_insert_eq. by split_and!.
Qed.

(** C8. At most one provider generation of a connection. Whenever a run, beside any
    provider and any callers, restores a provider: the [Connect] and [Disconnect] of
    every earlier generation have returned, and so have their operations; the
    session it restores from is the one last made durable, and the last one the
    provider reported (unless it ever reported an empty one). When the run returns,
    either no goroutine of a provider is left and the actor is as before the run, or
    the error says that a join timed out, and then the pool that ran the actor keeps
    a tombstone which refuses every later actor of the connection. *)
Theorem one_provider_generation (actor : Actor) (queueSize : Z) (key : Key) (w0 : World) :
  idle w0 ->
  (forall w own session k, reaches actor queueSize key w0 w (Call (Restore own session) k) ->
     no_goroutine w /\
     (exists revision, wo_durable w = Some {| ss_Plaintext := session; ss_Revision := revision |}) /\
     (wo_blank w = false -> forall reported, wo_reported w = Some reported -> reported = session)) /\
  (forall w k, reaches actor queueSize key w0 w (Call StartConnect k) -> no_goroutine w) /\
  (forall w err, reaches actor queueSize key w0 w (Ret (Some err)) ->
     (no_goroutine w /\ ok (unregistered None false 0 []) w) \/
     (errors_Is err ErrProviderJoinTimeout = true /\
      forall (p : Pool.Pool) id e, Pool.steps Pool.NewPool p -> Pool.po_entries p !! id = Some e ->
        Pool.pe_running e = true -> Pool.pe_key e = key -> Pool.tombstone key (Pool.finish id err p))).
Proof.
  intros Hi. split_and!.
  - intros w own session k Hr. destruct (reaches_allowed _ _ _ _ _ _ _ _ Hi Hr) as (_ & H & H1 & H2). done.
  - intros w k Hr. exact (reaches_allowed _ _ _ _ _ _ _ _ Hi Hr).
  - intros w err Hr. destruct (reaches_returned _ _ _ _ _ _ Hi Hr) as (c & d & rs & H & [(-> & -> & ->)|Ht]).
    + left. split; [exact (ok_goroutines _ _ H) | exact H].
    + right. split; [exact Ht|]. intros p id e Hp He Hrun Hk.
      eapply tombstone_finish; [by apply (Pool.steps_pool_ok _ _ Hp), Pool.NewPool_ok | done..].
Qed.

(** C9. Every write of a run is fenced by the one lease it acquired. A renewal, a
    health or reauthorization write, a session swap and the release carry exactly the
    connection, owner and token of the lease the run holds; a session swap expects
    the revision of the session that is durable; the provider and its operations are
    given that ownership; the lease is released only after no operation can be
    admitted any more, and a run that returned holds none. *)
Theorem writes_fenced_by_lease (actor : Actor) (queueSize : Z) (key : Key) (w0 : World) :
  idle w0 ->
  (forall w X (c : ActorCall X) k key' ownerID token,
     reaches actor queueSize key w0 w (Call c k) ->
     match c with
     | RenewLease key1 owner1 token1 _ | ReleaseLease key1 owner1 token1 | WriteHealth key1 owner1 token1 _
     | MarkReauthorization key1 owner1 token1 | CompareAndSwap key1 owner1 token1 _ _ =>
       (key1, owner1, token1) = (key', ownerID, token)
     | Restore own _ | StartOperation own _ => (ow_Key own, ow_OwnerID own, ow_FencingToken own) = (key', ownerID, token)
     | _ => False
     end -> wo_lease w = Some (key', ownerID, token)) /\
  (forall w key' ownerID token revision plaintext k,
     reaches actor queueSize key w0 w (Call (CompareAndSwap key' ownerID token revision plaintext) k) ->
     exists s, wo_durable w = Some s /\ ss_Revision s = revision) /\
  (forall w key' ownerID token k, reaches actor queueSize key w0 w (Call (ReleaseLease key' ownerID token) k) ->
     op_active (wo_operations w) = false) /\
  (forall w err, reaches actor queueSize key w0 w (Ret (Some err)) -> wo_lease w = None).
Proof.
  intros Hi. split_and!.
  - intros w X c k key' ownerID token Hr Hc. pose proof (reaches_allowed _ _ _ _ _ _ _ _ Hi Hr) as H.
    unfold allowed, owns in H. destruct c; try done; simplify_eq; try done; by destruct H.
  - intros w key' ownerID token revision plaintext k Hr. by apply (reaches_allowed _ _ _ _ _ _ _ _ Hi Hr).
  - intros w key' ownerID token k Hr. by apply (reaches_allowed _ _ _ _ _ _ _ _ Hi Hr).
  - intros w err Hr. destruct (reaches_returned _ _ _ _ _ _ Hi Hr) as (c & d & rs & H & _). exact (ok_lease _ _ H).
Qed.

(** C10. Operations run once, one at a time, and only where they were admitted. When a
    run starts an operation: it was admitted by this run (not by an earlier one of
    the same actor), for the actor's own connection, has neither been started nor
    answered before; the generation's readiness is durable and still published; its
    provider is connected, is not being torn down and runs no other operation. No
    request is ever answered twice; and readiness is published only after the
    health write that says ready was accepted. *)
Theorem operations_once_while_ready (actor : Actor) (queueSize : Z) (key : Key) (w0 : World) :
  idle w0 ->
  (forall w own r k, reaches actor queueSize key w0 w (Call (StartOperation own r) k) ->
     rq_ID r ∈ wo_admitted w /\ rq_Key r = ow_Key own /\ rq_ID r ∉ wo_started w /\ rq_ID r ∉ wo_replied w /\
     wo_health w = "ready" /\ op_ready (wo_operations w) = true /\
     wo_connecting w = true /\ wo_disconnecting w = 0%nat /\ wo_running w = []) /\
  (forall w r err k, reaches actor queueSize key w0 w (Call (Reply r err) k) -> rq_ID r ∉ wo_replied w) /\
  (forall w runID k, reaches actor queueSize key w0 w (Call (SetOperationReady runID true) k) -> wo_health w = "ready") /\
  (forall key' ctxErr ops runID, Execute_admit ctxErr key' ops = Ok runID ->
     op_active ops = true /\ op_ready ops = true /\ op_key ops = key' /\ runID = op_runID ops).
Proof.
  intros Hi. split_and!.
  - intros w own r k Hr. destruct (reaches_allowed _ _ _ _ _ _ _ _ Hi Hr) as (_ & ? & ? & ? & ? & ? & ? & ? & ? & ?). done.
  - intros w r err k Hr. exact (reaches_allowed _ _ _ _ _ _ _ _ Hi Hr).
  - intros w runID k Hr. by apply (reaches_allowed _ _ _ _ _ _ _ _ Hi Hr).
  - intros key' ctxErr ops runID. unfold Execute_admit. destruct (negb (is_nil ctxErr)); [done|].
    destruct (negb (Key_valid key')); [done|]. destruct (_ || _) eqn:E; [done|]. intros [= <-].
    apply orb_false_iff in E as [[Ea Er]%orb_false_iff Ek]. apply negb_false_iff in Ea, Er. reflect_bools.
    split_and!; [done..| |done]. by apply dec_stable.
Qed.

(** The call a run is at after [n] calls, if [f] recognises it. *)
Definition at_call {B} (f : forall X, ActorCall X -> option B) (n : nat) : option (World * B) :=
  match sample_run n with
  | Some (_, (w, Call c _)) => (fun b => (w, b)) <$> f _ c
  | _ => None
  end.

Lemma at_call_reaches {B} (f : forall X, ActorCall X -> option B) n w b :
  at_call f n = Some (w, b) ->
  exists X (c : ActorCall X) k, f X c = Some b /\ reaches sample_actor 64 sample_key fresh_world w (Call c k).
Proof.
  unfold at_call. destruct (sample_run n) as [[s [w' [a | X c k]]]|] eqn:E; [done| |done]. intros H.
  destruct (f X c) eqn:Ef; [|done]. injection H as -> ->. exists X, c, k. split; [done|].
  exists 5%nat, 20%nat. eapply (play_steps (around 64) respond (env 64)); [|exact E]. intros v w0. by exists v.
Qed.

Definition is_restore (X : Type) (c : ActorCall X) : option (ProviderOwnership * bytes) :=
  match c with Restore own session => Some (own, session) | _ => None end.
Definition is_swap (X : Type) (c : ActorCall X) : option (Key * string * Z * Z * bytes) :=
  match c with CompareAndSwap key ownerID token revision plaintext => Some (key, ownerID, token, revision, plaintext) | _ => None end.
Definition is_operation (X : Type) (c : ActorCall X) : option (ProviderOwnership * request) :=
  match c with StartOperation own r => Some (own, r) | _ => None end.

(** The second generation restores the session reported last. *)
Lemma one_provider_generation_witness :
  exists w own k, reaches sample_actor 64 sample_key fresh_world w (Call (Restore own (bytes_of "s4")) k) /\
    no_goroutine w /\ wo_reported w = Some (bytes_of "s4").
Proof.
  destruct (at_call is_restore 49) as [[w b]|] eqn:E; [|vm_compute in E; discriminate].
  destruct (at_call_reaches _ _ _ _ E) as (X & c & k & Hc & Hr). vm_compute in E. injection E as <- <-.
  destruct c; try discriminate Hc. injection Hc as -> ->. eexists _, _, _. split; [exact Hr|]. split; [|reflexivity].
  exact (proj1 (proj1 (one_provider_generation sample_actor 64 sample_key fresh_world fresh_idle) _ _ _ _ Hr)).
Defined.

(** The flush between the generations expects the loaded revision. *)
Lemma writes_fenced_by_lease_witness :
  exists w k, reaches sample_actor 64 sample_key fresh_world w
    (Call (CompareAndSwap sample_key "replica-1" 7 1 (bytes_of "s4")) k) /\ wo_lease w = Some (sample_key, "replica-1", 7).
Proof.
  destruct (at_call is_swap 38) as [[w b]|] eqn:E; [|vm_compute in E; discriminate].
  destruct (at_call_reaches _ _ _ _ E) as (X & c & k & Hc & Hr). vm_compute in E. injection E as <- <-.
  destruct c; try discriminate Hc. injection Hc as -> -> -> -> ->. eexists _, _. split; [exact Hr|].
  exact (proj1 (writes_fenced_by_lease sample_actor 64 sample_key fresh_world fresh_idle) _ _ _ _ _ _ _ Hr eq_refl).
Defined.

Lemma operations_once_while_ready_witness :
  exists w own k, reaches sample_actor 64 sample_key fresh_world w (Call (StartOperation own sample_request) k) /\
    wo_health w = "ready" /\ wo_running w = [].
Proof.
  destruct (at_call is_operation 26) as [[w b]|] eqn:E; [|vm_compute in E; discriminate].
  destruct (at_call_reaches _ _ _ _ E) as (X & c & k & Hc & Hr). vm_compute in E. injection E as <- <-.
  destruct c; try discriminate Hc. injection Hc as -> ->. eexists _, _, _. split; [exact Hr|].
  destruct (proj1 (operations_once_while_ready sample_actor 64 sample_key fresh_world fresh_idle) _ _ _ _ Hr)
    as (_ & _ & _ & _ & H & _ & _ & _ & H1).
  split; [exact H | exact H1].
Defined.

(** ** Termination *)

(** The answers after which the run has lost its right to go on: its context is
    done, or a fenced write is refused. *)
Definition stopping (X : Type) (c : ActorCall X) : X -> bool :=
  match c in ActorCall X return X -> bool with
  | CtxErr => fun x => negb (is_nil x)
  | Select _ _ _ => fun x => match x with SelDone => true | _ => false end
  | RenewLease _ _ _ _ | WriteHealth _ _ _ _ | CompareAndSwap _ _ _ _ _ => fun x => negb (granted x)
  | _ => fun _ => false
  end.

Section Termination.
Variable actor : Actor.
Variable key : Key.
Variable token : Z.

Abbreviation Winds := (winds_down stopping).

Lemma writeHealth_winds h :
  Winds 0 (writeHealth actor key token h) (fun r => granted r.2 = true) (fun r => granted r.2 = false).
Proof. intros now. cbn. intros r. by destruct (granted r) eqn:E; cbn. Qed.

Lemma writeHealth_bounded h : bounded 2 (writeHealth actor key token h) (fun _ => True).
Proof. by intros now r. Qed.

Lemma startRenewTimer_winds : Winds 0 (startRenewTimer actor) (fun _ => True) (fun _ => False).
Proof. by intros bits u. Qed.

Lemma flush_winds s pe :
  Winds 0 (flushPendingSession actor key token s pe) (fun r => granted r.2 = true) (fun r => granted r.2 = false).
Proof.
  unfold flushPendingSession. destruct (is_nil pe); [done|]. intros r. cbn. destruct (granted r) eqn:E; cbn; [done|].
  by rewrite E.
Qed.

Lemma flush_bounded s pe : bounded 1 (flushPendingSession actor key token s pe) (fun _ => True).
Proof. unfold flushPendingSession. destruct (is_nil pe); [done|]. intros r. by destruct (granted r). Qed.

(** An exit that never leads to another generation. *)
Definition final_exit (n : loop_next) : Prop :=
  match n with Exit _ exit => ex_kind exit <> generationExitProvider | Continue _ => False end.

Lemma fenceExit_bounded g err : bounded 1 (fenceExit g err) final_exit.
Proof. intros x. cbn. by destruct (is_nil x). Qed.

Lemma fenceExit_winds g err : Winds 1 (fenceExit g err) (fun _ => True) final_exit.
Proof. intros x. cbn. by destruct (is_nil x). Qed.

Lemma generationStep_winds runID g :
  Winds 1 (generationStep actor key token runID g) (fun _ => True) final_exit.
Proof.
  unfold generationStep. intros [| |e|r cancelled|err|session| |err]; cbn [stopping].
  - done.
  - intros r. cbn [stopping]. destruct (granted r); cbn [negb]; [|apply fenceExit_bounded].
    by intros bits u.
  - destruct (bool_decide (pv_kind e = eventSessionChanged)); [unfold keepPending; by destruct (ge_debounce g)|].
    intros now. cbn [stopping]. cbv zeta. change 1%nat with (0 + 1)%nat. eapply winds_down_bind; [apply writeHealth_winds | |].
    + intros [h r] Hr. cbn [fst snd] in *. rewrite Hr. by destruct (bool_decide _).
    + intros [h r] Hr. cbn [fst snd] in *. rewrite Hr. apply fenceExit_bounded.
  - by destruct (_ || cancelled).
  - by destruct (ge_operation g).
  - unfold keepPending. by destruct (ge_debounce g).
  - intros latest. cbn [stopping]. intros ctxErr. cbn [stopping]. destruct (negb (is_nil ctxErr)); [done|].
    cbv zeta. change 1%nat with (0 + 1)%nat. eapply winds_down_bind; [apply flush_winds | |].
    + intros r Hr. by rewrite Hr.
    + intros r Hr. by rewrite Hr.
  - destruct (terminalProviderError err); [done|]. intros ctxErr. cbn [stopping].
    destruct (negb (is_nil ctxErr)); cbn [orb]; [done|]. by destruct (errors_Is _ _).
Qed.

Definition final_loop (r : option (generation * generationExit)) : Prop :=
  match r with Some (_, exit) => ex_kind exit <> generationExitProvider | None => False end.

Lemma generationLoop_winds steps runID g :
  Winds 1 (generationLoop actor key token steps runID g) (fun _ => True) final_loop.
Proof.
  revert g. induction steps as [|steps IH]; intros g; [done|]. cbn [generationLoop].
  change 1%nat with (1 + 0)%nat. eapply winds_down_bind; [apply generationStep_winds | |].
  - intros [g'|g' exit] _; [apply IH | done].
  - by intros [g'|g' exit].
Qed.

Lemma joinOperation_bounded g exit : bounded 3 (joinOperation g exit) (fun exit' => ex_kind exit' = ex_kind exit).
Proof. unfold joinOperation. destruct (ge_operation g); [|done]. intros u [err|] v; by cbn. Qed.

Lemma writeHealthDetached_bounded h out : bounded 2 (writeHealthDetached actor key token h out) (fun r => r.2 = out).
Proof. by intros now r. Qed.

Lemma writeHealthDetached_winds h out :
  Winds 0 (writeHealthDetached actor key token h out) (fun r => r.2 = out) (fun r => r.2 = out).
Proof. intros now r. cbn. by destruct (negb (granted r)). Qed.

Lemma joinConnect_bounded exit :
  bounded 1 (joinConnect actor exit) (fun r => ex_kind exit <> generationExitProvider ->
    ex_kind r.1 <> generationExitProvider \/ terminalProviderError (ex_providerErr r.1) = true).
Proof.
  unfold joinConnect. destruct (ex_providerJoined exit); [by left|]. intros [err|]; cbn; [|by left].
  destruct (terminalProviderError err) eqn:Et; cbn; [|by left]. intros _. right.
  unfold terminalProviderError, errors_Join in *. cbn. rewrite app_nil_r, !errors_Is_app.
  revert Et. repeat (destruct (errors_Is err _); rewrite ?orb_true_r); done.
Qed.

Lemma finalizeJoined_bounded exit h :
  bounded 3 (finalizeJoined actor key token exit h) (fun r =>
    ex_kind exit <> generationExitProvider \/ terminalProviderError (ex_providerErr exit) = true -> go_stop r.2 = true).
Proof.
  assert (forall h err Q, (forall r, Q (r, stopped err) : Prop) -> bounded 3 (writeHealthDetached actor key token h (stopped err)) Q) as Hw.
  { intros h' err Q HQ. eapply bounded_mono; [apply writeHealthDetached_bounded | lia|]. intros [r out] E. cbn in E. subst. apply HQ. }
  unfold finalizeJoined. destruct (terminalProviderError (ex_providerErr exit)) eqn:Et.
  - destruct (errors_Is _ ErrStaleGeneration) eqn:E1; [by apply Hw|].
    destruct (errors_Is _ ErrSharedInfrastructure) eqn:E2; [by apply Hw|].
    destruct (errors_Is _ ErrProviderAuthorization) eqn:E3; [intros x; by destruct (granted x)|].
    destruct (errors_Is _ ErrProviderPermanentConfig) eqn:E4; [by apply Hw|].
    destruct (errors_Is _ ErrProviderPermanentProtocol) eqn:E5; [by apply Hw|].
    unfold terminalProviderError in Et. by rewrite E1, E2, E3, E4, E5 in Et.
  - destruct (ex_kind exit) eqn:Ek; [by apply Hw..|]. unfold terminalProviderError in Et. rewrite !orb_false_iff in Et.
    destruct Et as [[[[-> ->] ->] ->] ->]. cbn. by intros [|].
Qed.

Lemma finalizeGeneration_bounded g exit :
  bounded 8 (finalizeGeneration actor key token g exit) (fun r => ex_kind exit <> generationExitProvider -> go_stop r.2 = true).
Proof.
  intros u dj. change 6%nat with (1 + 5)%nat. eapply bounded_bind; [apply joinConnect_bounded|].
  intros [exit' cj] He latest. cbn [fst snd] in He. cbv zeta. change 4%nat with (1 + 3)%nat.
  eapply bounded_bind; [apply flush_bounded|]. intros flushed _. change 3%nat with (3 + 0)%nat.
  eapply (bounded_bind _ _ _ _ (fun r => ex_kind exit <> generationExitProvider -> go_stop r.2 = true)); [|done].
  assert (forall h err, bounded 3 (writeHealthDetached actor key token h (stopped err))
    (fun r => ex_kind exit <> generationExitProvider -> go_stop r.2 = true)) as Hw.
  { intros h err. eapply bounded_mono; [apply writeHealthDetached_bounded | lia|]. intros [r out] E. cbn in E. by subst. }
  destruct (negb (granted flushed.2)); [apply Hw|]. destruct (_ || _); [apply Hw|].
  eapply bounded_mono; [apply finalizeJoined_bounded | lia|]. intros r Hr Hk. by apply Hr, He.
Qed.

Lemma finalizeJoined_winds exit h :
  Winds 0 (finalizeJoined actor key token exit h) (fun _ => True) (fun r => go_stop r.2 = true).
Proof.
  assert (forall h err, Winds 0 (writeHealthDetached actor key token h (stopped err)) (fun _ => True) (fun r => go_stop r.2 = true)) as Hw.
  { intros h' err. eapply winds_down_mono; [apply writeHealthDetached_winds | lia | done|]. intros [r out] E. cbn in E. by subst. }
  unfold finalizeJoined. destruct (if terminalProviderError _ then _ else _); [by apply Hw..|].
  destruct (errors_Is _ ErrStaleGeneration); [by apply Hw|]. destruct (errors_Is _ ErrSharedInfrastructure); [by apply Hw|].
  destruct (errors_Is _ ErrProviderAuthorization); [intros x; cbn [stopping]; destruct (granted x); [apply Hw | done]|].
  destruct (errors_Is _ ErrProviderPermanentConfig); [by apply Hw|].
  by destruct (errors_Is _ ErrProviderPermanentProtocol); [apply Hw|].
Qed.

Lemma finalizeGeneration_winds g exit :
  Winds 2 (finalizeGeneration actor key token g exit) (fun _ => True) (fun r => go_stop r.2 = true).
Proof.
  intros u dj. cbn [stopping]. change 2%nat with (0 + 2)%nat.
  eapply (winds_down_bind _ _ _ _ _ (fun _ => True) (fun _ => False)); [|clear exit; intros [exit cj] _|done].
  { unfold joinConnect. destruct (ex_providerJoined exit); [done|]. intros [err|]; cbn [stopping]; [|done].
    by destruct (terminalProviderError err). }
  intros latest. cbn [stopping]. cbv zeta. eapply winds_down_bind; [apply flush_winds | |].
  - intros flushed Hf. rewrite Hf. cbn [negb]. change (0 + 2)%nat with (2 + 0)%nat.
    eapply (winds_down_bind _ _ _ _ _ (fun _ => True) (fun r => go_stop r.2 = true)); [|done|done].
    destruct (_ || _).
    + eapply winds_down_mono; [apply writeHealthDetached_winds | lia | done|]. intros [r out] E. cbn in E. by subst.
    + eapply winds_down_mono; [apply finalizeJoined_winds | lia | done | done].
  - intros flushed Hf. rewrite Hf. cbn [negb]. change 2%nat with (2 + 0)%nat.
    eapply (bounded_bind _ _ _ _ (fun r => go_stop r.2 = true)); [|done].
    eapply bounded_mono; [apply writeHealthDetached_bounded | lia|]. intros [r out] E. cbn in E. by subst.
Qed.

Definition stopped_generation (r : option (generation * generationOutcome)) : Prop :=
  match r with Some (_, out) => go_stop out = true | None => False end.

Lemma runGeneration_winds steps runID g :
  Winds 14 (runGeneration actor key token steps runID g) (fun _ => True) stopped_generation.
Proof.
  unfold runGeneration. intros u. cbn [stopping]. intros v. cbn [stopping]. change 14%nat with (0 + 14)%nat.
  eapply winds_down_bind; [apply startRenewTimer_winds|intros x _|done]. change (0 + 14)%nat with (1 + 13)%nat.
  eapply winds_down_bind; [apply generationLoop_winds| |].
  - intros [[g' exit]|] _; [|done]. intros y. cbn [stopping]. change (1 + 13)%nat with (0 + 14)%nat.
    eapply (winds_down_bind _ _ _ _ _ (fun _ => True) (fun _ => False)); [|intros exit' _|done].
    { unfold joinOperation. destruct (ge_operation g'); [|done]. intros a. cbn [stopping]. intros [e|]; cbn [stopping]; by intros b. }
    change (0 + 14)%nat with (2 + 12)%nat. eapply winds_down_bind; [apply finalizeGeneration_winds | |].
    + intros r _ z. done.
    + intros [g2 out] Hr z. exact Hr.
  - intros [[g' exit]|] Hf; [|done]. intros y. change 12%nat with (3 + (8 + 1))%nat.
    eapply bounded_bind; [apply joinOperation_bounded|]. intros exit' Hk.
    eapply bounded_bind; [apply finalizeGeneration_bounded|]. intros r Hr z. cbn. destruct r as [g2 out]. cbn in *.
    apply Hr. by rewrite Hk.
Qed.

Lemma waitLoop_winds steps h :
  Winds 2 (waitLoop actor key token steps h) (fun _ => True)
    (fun r => match r with Some (_, err) => err <> [] | None => False end).
Proof.
  revert h. induction steps as [|steps IH]; intros h; [done|]. cbn [waitLoop]. intros [| |]; cbn [stopping].
  - intros ctxErr. cbn [stopping]. by destruct ctxErr.
  - done.
  - intros r. cbn [stopping]. destruct (granted r) eqn:E; cbn [negb].
    + change 2%nat with (0 + 2)%nat. eapply winds_down_bind; [apply startRenewTimer_winds|intros x _|done]. apply IH.
    + intros now w. cbn. by destruct (err_of r).
Qed.

Lemma backOff_winds steps g :
  Winds 2 (backOff actor key token steps g) (fun _ => True)
    (fun r => match r with Some (inr _) => True | _ => False end).
Proof.
  unfold backOff. intros delay. cbn [stopping]. cbv zeta. change 2%nat with (0 + 2)%nat.
  eapply winds_down_bind; [apply writeHealth_winds | |].
  - intros r Hr. rewrite Hr. cbn [negb]. unfold waitBackoff. change (0 + 2)%nat with (2 + 0)%nat.
    eapply (winds_down_bind _ _ _ _ _ (fun _ => True) (fun r => match r with Some (_, err) => err <> [] | None => False end)).
    + intros u. cbn [stopping]. change 2%nat with (0 + 2)%nat.
      eapply winds_down_bind; [apply startRenewTimer_winds|intros x _|done]. apply waitLoop_winds.
    + intros [[h err]|] _; [|done]. destruct (negb (is_nil err)); [done|]. change (2 + 0)%nat with (0 + 2)%nat.
      eapply winds_down_bind; [apply writeHealth_winds | |]; intros r2 Hr2; by rewrite Hr2.
    + intros [[h err]|] He; [|done]. destruct err; done.
  - intros r Hr. by rewrite Hr.
Qed.

Lemma generations_winds fuel steps runID g :
  Winds 14 (generations actor key token fuel steps runID g) (fun _ => True) (fun r => r <> None).
Proof.
  revert g. induction fuel as [|fuel IH]; intros g; [done|]. cbn [generations]. intros [u|e]; cbn [stopping].
  - change 14%nat with (14 + 0)%nat. eapply winds_down_bind; [apply runGeneration_winds | |].
    + intros [[g' out]|] _; [|done]. destruct (go_stop out); [done|]. change (14 + 0)%nat with (2 + 12)%nat.
      eapply winds_down_bind; [apply backOff_winds | |].
      * intros [[g2|err]|] _; [apply IH | done | done].
      * by intros [[g2|err]|].
    + intros [[g' out]|] Hs; [|done]. cbn in Hs. by rewrite Hs.
  - change 14%nat with (0 + 14)%nat. by eapply winds_down_bind; [apply writeHealth_winds | |].
Qed.

Lemma runRegistered_winds fuel steps runID :
  Winds 14 (runRegistered actor key token fuel steps runID) (fun _ => True) (fun r => r <> None).
Proof.
  unfold runRegistered. intros [connection|e]; cbn [stopping]; [|done]. destruct (_ || _); [done|].
  destruct (conn_State connection); try done.
  all: intros [s|e]; cbn [stopping]; [|done]; destruct (_ || _); [done|]; destruct (NewBackoff _ _); [|done].
  all: change 14%nat with (0 + 14)%nat; eapply winds_down_bind; [apply writeHealth_winds | |]; intros r Hr; rewrite Hr; cbn [negb];
    [apply generations_winds | done].
Qed.

Lemma runLeased_winds fuel steps : Winds 15 (runLeased actor key token fuel steps) (fun _ => True) (fun r => r <> None).
Proof.
  unfold runLeased. intros [runID|e]; cbn [stopping]; [|done]. change 15%nat with (14 + 1)%nat.
  eapply winds_down_bind; [apply runRegistered_winds | |]; intros [err|] Hr; try done; by intros u.
Qed.
End Termination.

Lemma Run_winds actor fuel steps key : winds_down stopping 16 (Run actor fuel steps key) (fun _ => True) (fun r => r <> None).
Proof.
  unfold Run. intros ctxErr. cbn [stopping]. destruct (negb (is_nil ctxErr)); [done|]. destruct (negb (Key_valid key)); [done|].
  intros [[lease|]|e]; cbn [stopping]; [|done|done]. change 16%nat with (15 + 1)%nat.
  eapply winds_down_bind; [apply runLeased_winds | |]; intros [err|] Hr; try done; by intros u.
Qed.

(** C35. A run that lost its right to go on returns. In every execution of [Run],
    whatever its collaborators answer: once it saw its context done, or a lease
    renewal, a health write or a session swap was refused or failed, it makes at
    most sixteen more calls (the code bounds each by a timeout) and has returned; it
    never restores another provider nor waits for another event. *)
Theorem lost_run_returns (actor : Actor) (fuel steps : nat) (key : Key) (answers : list bool) (r : option error) (i : nat) :
  executes stopping (Run actor fuel steps key) answers r ->
  answers !! i = Some true ->
  (length answers <= i + 1 + 16)%nat /\ exists err, r = Some err.
Proof.
  intros He Hi. destruct (winds_down_executes stopping _ _ _ _ _ _ _ (Run_winds actor fuel steps key) He Hi) as [Hl Hr].
  split; [exact Hl|]. destruct r as [err|]; [by exists err | done].
Qed.

(** A run whose context ends once the provider is ready. *)
Definition cancelled_run : list bool * option error :=
  transcript stopping (fun X c s => let '(x, s', _) := scripted X c fresh_world s in (s', x))
    (Run sample_actor 5 20 sample_key)
    [picks SelRenew []; picks (SelEvent {| pv_kind := eventReady; pv_session := [] |}) [];
     picks (SelSession (bytes_of "s2")) []; picks SelDone []].

Lemma lost_run_returns_witness :
  exists answers r, executes stopping (Run sample_actor 5 20 sample_key) answers r /\ answers !! 23%nat = Some true /\
    (length answers <= 23 + 1 + 16)%nat /\ r = Some [].
Proof.
  destruct cancelled_run as [answers r] eqn:E.
  assert (executes stopping (Run sample_actor 5 20 sample_key) answers r) as He.
  { pose proof (transcript_executes stopping (fun X c s => let '(x, s', _) := scripted X c fresh_world s in (s', x))
      (Run sample_actor 5 20 sample_key)
      [picks SelRenew []; picks (SelEvent {| pv_kind := eventReady; pv_session := [] |}) [];
       picks (SelSession (bytes_of "s2")) []; picks SelDone []]) as H.
    unfold cancelled_run in E. rewrite E in H. exact H. }
  vm_compute in E. injection E as <- <-. eexists _, _. split; [exact He|]. split; [reflexivity|].
  split; [|reflexivity]. exact (proj1 (lost_run_returns sample_actor 5 20 sample_key _ _ 23 He eq_refl)).
Defined.

(** ** How a generation ends *)

(** The health a call writes. *)
Definition health_written (X : Type) (c : ActorCall X) (_ : X) : option ConnectionActorHealth :=
  match c with WriteHealth _ _ _ health => Some health | _ => None end.

(** The strongest terminal cause in an error. *)
Definition terminal_reason (cause : error) : string :=
  if errors_Is cause ErrStaleGeneration then ReasonLeaseLost
  else if errors_Is cause ErrSharedInfrastructure then ReasonSharedInfrastructure
  else if errors_Is cause ErrProviderAuthorization then ReasonProviderAuth
  else if errors_Is cause ErrProviderPermanentConfig then ReasonProviderConfig
  else ReasonProviderProtocol.

Section Outcome.
Variable answers : forall X, ActorCall X -> X.
Arguments answers {X}.
Variable actor : Actor.
Variable key : Key.
Variable token : Z.

(** The health writes and the result of a program, every call answered by [answers]
    (no call of [finalizeGeneration] is made twice). *)
Definition replay {A} (p : prog ActorCall A) : list (option ConnectionActorHealth) * A :=
  transcript health_written (fun X c (u : unit) => (u, answers c)) p tt.

Lemma replay_bind {A B} (p : prog ActorCall A) (k : A -> prog ActorCall B) :
  replay (prog_bind p k) = let '(t, a) := replay p in let '(t', b) := replay (k a) in (t ++ t', b).
Proof.
  induction p as [a | X c k' IH]; unfold replay in *; cbn; [by destruct (transcript _ _ (k a) tt)|].
  rewrite IH. destruct (transcript _ _ (k' (answers c)) tt) as [t a]. by destruct (transcript _ _ (k a) tt).
Qed.

Lemma replay_call {A X} (c : ActorCall X) (k : X -> prog ActorCall A) :
  replay (Call c k) = let '(t, a) := replay (k (answers c)) in (health_written X c (answers c) :: t, a).
Proof. done. Qed.

(** What is written last. *)
Definition recorded (t : list (option ConnectionActorHealth)) (h : ConnectionActorHealth) (reason : string) : Prop :=
  last t = Some (Some h) /\ ah_LastSafeReason h = reason.

Lemma recorded_app l t h reason : recorded t h reason -> recorded (l ++ t) h reason.
Proof. intros [H ?]. split; [|done]. rewrite last_app. by rewrite H. Qed.

Lemma recorded_cons o t h reason : recorded t h reason -> recorded (o :: t) h reason.
Proof. apply (recorded_app [o]). Qed.

Lemma replay_write h out :
  let '(t, (h', out')) := replay (writeHealthDetached actor key token h out) in
  out' = out /\ recorded t h' (ah_LastSafeReason h).
Proof. by cbn. Qed.

(** The transition to reauthorization was refused, and nothing is written. *)
Definition mark_refused (cause : error) (out : generationOutcome) : Prop :=
  errors_Is cause ErrStaleGeneration = false /\ errors_Is cause ErrSharedInfrastructure = false /\
  errors_Is cause ErrProviderAuthorization = true /\
  let marked := answers (MarkReauthorization key (ac_ownerID actor) token) in
  granted marked = false /\ go_err out = err_of marked.

Lemma replay_joined exit h :
  let cause := ex_providerErr exit in
  let '(t, (h', out)) := replay (finalizeJoined actor key token exit h) in
  (go_stop out = false <-> terminalProviderError cause = false /\ ex_kind exit = generationExitProvider) /\
  (terminalProviderError cause = true -> mark_refused cause out \/ recorded t h' (terminal_reason cause)).
Proof.
  intros cause. unfold finalizeJoined. fold cause.
  assert (forall h reason, terminalProviderError cause = true \/ ex_kind exit <> generationExitProvider ->
    (terminalProviderError cause = true -> reason = terminal_reason cause) -> ah_LastSafeReason h = reason ->
    forall err, let '(t, (h', out)) := replay (writeHealthDetached actor key token h (stopped err)) in
    (go_stop out = false <-> terminalProviderError cause = false /\ ex_kind exit = generationExitProvider) /\
    (terminalProviderError cause = true -> mark_refused cause out \/ recorded t h' (terminal_reason cause))) as Hw.
  { intros h0 reason Hk Hr Hh err. cbn. split; [split; [done|]; intros [? ?]; destruct Hk; congruence|].
    intros Ht. right. split; [done|]. cbn. by rewrite Hh, Hr. }
  unfold terminal_reason, mark_refused in *. destruct (terminalProviderError cause) eqn:Et.
  - destruct (errors_Is cause ErrStaleGeneration) eqn:E1; [by eapply Hw; [left | |]|].
    destruct (errors_Is cause ErrSharedInfrastructure) eqn:E2; [by eapply Hw; [left | |]|].
    destruct (errors_Is cause ErrProviderAuthorization) eqn:E3.
    { unfold replay. cbn. destruct (granted _) eqn:Eg; cbn.
      - split; [by split; [|intros []]|]. intros _. right. done.
      - split; [by split; [|intros []]|]. intros _. left. done. }
    destruct (errors_Is cause ErrProviderPermanentConfig) eqn:E4; [by eapply Hw; [left | |]|].
    destruct (errors_Is cause ErrProviderPermanentProtocol) eqn:E5; [by eapply Hw; [left | |]|].
    unfold terminalProviderError in Et. by rewrite E1, E2, E3, E4, E5 in Et.
  - destruct (ex_kind exit) eqn:Ek; rewrite ?Ek in Hw; [by refine (Hw _ _ (or_intror _) _ eq_refl _)..|]. unfold terminalProviderError in Et. rewrite !orb_false_iff in Et.
    destruct Et as [[[[-> ->] ->] ->] ->]. cbn. done.
Qed.

Lemma terminal_health exit h :
  terminalProviderError (ex_providerErr exit) = true ->
  exists h', applyTerminalProviderHealth h (ex_providerErr exit) = Some h' /\
    ah_LastSafeReason h' = terminal_reason (ex_providerErr exit).
Proof.
  unfold applyTerminalProviderHealth, terminal_reason, terminalProviderError.
  repeat (destruct (errors_Is (ex_providerErr exit) _); [by eexists|]). done.
Qed.

(** The error of [Connect], as far as the end of the generation learns it. *)
Definition connect_cause (exit : generationExit) : error :=
  if ex_providerJoined exit then []
  else match answers (JoinConnect (ac_joinTimeout actor)) with
  | Some connectErr => if terminalProviderError connectErr then connectErr else []
  | None => []
  end.

Definition connect_joined (exit : generationExit) : bool :=
  ex_providerJoined exit || bool_decide (answers (JoinConnect (ac_joinTimeout actor)) <> None).

Lemma replay_connect exit :
  let '(_, (exit', cj)) := replay (joinConnect actor exit) in
  cj = connect_joined exit /\ ex_err exit' = ex_err exit /\ ex_providerErr exit' = ex_providerErr exit ++ connect_cause exit /\
  (ex_kind exit' = ex_kind exit \/ terminalProviderError (ex_providerErr exit') = true).
Proof.
  unfold joinConnect, connect_joined, connect_cause. destruct (ex_providerJoined exit); [cbn; rewrite app_nil_r; naive_solver|].
  unfold replay. cbn. destruct (answers (JoinConnect (ac_joinTimeout actor))) as [err|]; [|cbn; rewrite app_nil_r; naive_solver].
  destruct (terminalProviderError err) eqn:Et; cbn; rewrite ?app_nil_r; [|naive_solver]. split_and!; [done..|]. right.
  unfold terminalProviderError in *. rewrite !errors_Is_app.
  revert Et. repeat (destruct (errors_Is err _); rewrite ?orb_true_r); done.
Qed.

Definition last_session (g : generation) : bytes :=
  let latest := answers StopAcceptingAndTakeLatest in if is_nil latest then ge_pending g else latest.

Definition session_kept (g : generation) : bool :=
  is_nil (last_session g) ||
  granted (answers (CompareAndSwap key (ac_ownerID actor) token (ss_Revision (ge_snapshot g)) (last_session g))).

Lemma replay_flush g :
  let '(_, (s, p, r)) := replay (flushPendingSession actor key token (ge_snapshot g) (last_session g)) in
  granted r = session_kept g /\
  (session_kept g = true -> p = [] /\ s = if is_nil (last_session g) then ge_snapshot g
    else {| ss_Plaintext := last_session g; ss_Revision := uint64 (ss_Revision (ge_snapshot g) + 1) |}).
Proof.
  unfold flushPendingSession, session_kept. destruct (is_nil (last_session g)) eqn:E.
  - cbn. apply is_nil_true in E. naive_solver.
  - unfold replay. cbn. destruct (granted _) eqn:Eg; cbn; [naive_solver|]. rewrite Eg. naive_solver.
Qed.

(** Everything of the generation is joined and its session is durable. *)
Definition settled (g : generation) (exit : generationExit) : bool :=
  session_kept g && answers (Disconnect (ac_joinTimeout actor)) && connect_joined exit &&
  negb (errors_Is (ex_err exit) ErrProviderJoinTimeout).
End Outcome.

(** How a generation ends. For every answer of the collaborators: the run goes on
    to another generation exactly when it left the loop because the provider failed,
    no terminal cause is known (neither from the loop nor from the [Connect] joined
    in the teardown), everything was joined in time and the last session is durable;
    then the snapshot of the next generation is that session under the next
    revision. A terminal cause is never lost, whatever began the teardown and
    however it went: the last health written names the strongest cause, unless the
    provider refused the authorization and the fenced transition to
    reauthorization itself was refused. *)
Theorem generation_outcome (answers : forall X, ActorCall X -> X) (actor : Actor) (key : Key) (token : Z)
    (g : generation) (exit : generationExit) :
  let cause := ex_providerErr exit ++ connect_cause answers actor exit in
  let '(written, (g', out)) := replay answers (finalizeGeneration actor key token g exit) in
  (go_stop out = false <->
     settled answers actor key token g exit = true /\ terminalProviderError cause = false /\
     ex_kind exit = generationExitProvider) /\
  (go_stop out = false -> ge_pending g' = [] /\
     ge_snapshot g' = if is_nil (last_session answers g) then ge_snapshot g
       else {| ss_Plaintext := last_session answers g; ss_Revision := uint64 (ss_Revision (ge_snapshot g) + 1) |}) /\
  (terminalProviderError cause = true ->
     recorded written (ge_health g') (terminal_reason cause) \/
     (settled answers actor key token g exit = true /\ mark_refused answers actor key token cause out)).
Proof.
  intros cause. pose proof (replay_connect answers actor exit) as Hc. pose proof (replay_flush answers actor key token g) as Hf.
  unfold finalizeGeneration. rewrite !replay_call, replay_bind.
  destruct (replay answers (joinConnect actor exit)) as [t1 [exit' cj]]. destruct Hc as (-> & He & Hp & Hk).
  rewrite replay_call. fold (last_session answers g). rewrite replay_bind.
  destruct (replay answers (flushPendingSession actor key token (ge_snapshot g) (last_session answers g))) as [t2 [[s p] r]].
  destruct Hf as [Hr Hkept]. cbn [fst snd]. rewrite replay_bind, He. unfold settled. rewrite <- Hr in *. fold cause in Hp.
  set (dj := answers bool (Disconnect (ac_joinTimeout actor))). set (cj := connect_joined answers actor exit).
  assert (forall h t3, recorded t3 h (terminal_reason cause) ->
    recorded (None :: None :: t1 ++ (None :: t2 ++ (t3 ++ []))) h (terminal_reason cause)) as Hlast.
  { intros h t3 H3. rewrite app_nil_r. by do 2 apply recorded_cons; apply recorded_app, recorded_cons, recorded_app. }
  destruct (granted r) eqn:Eg; cbn [negb andb].
  - destruct (Hkept eq_refl) as [-> ->]. destruct (_ || _) eqn:Ej.
    + assert (dj && cj && negb (errors_Is (ex_err exit) ErrProviderJoinTimeout) = false) as ->
        by (revert Ej; by destruct dj, cj, (errors_Is _ _)).
      cbn. split; [naive_solver|]. split; [done|]. intros Ht. left. rewrite <- Hp in Ht.
      destruct (terminal_health exit' (ge_health g) Ht) as (h' & Ha & Hreason). rewrite Hp in Hreason.
      apply (Hlast _ [None; Some _]). split; [done|]. cbn. unfold unjoinedHealth. by rewrite Ha.
    + assert (dj && cj && negb (errors_Is (ex_err exit) ErrProviderJoinTimeout) = true) as ->
        by (revert Ej; by destruct dj, cj, (errors_Is _ _)).
      pose proof (replay_joined answers actor key token exit' (ge_health g)) as Hj. cbn [set_session ge_health].
      destruct (replay answers (finalizeJoined actor key token exit' (ge_health g))) as [t3 [h' out]]. rewrite Hp in *.
      destruct Hj as [Hstop Hterm]. cbn. split_and!.
      * rewrite Hstop. split; [intros [Ht Hkind]; split_and!; [done..|] | intros (_ & Ht & Hkind); split; [done|]].
        -- destruct Hk as [<-|?]; [done | congruence].
        -- destruct Hk as [->|?]; [done | congruence].
      * done.
      * intros Ht. destruct (Hterm Ht) as [?|?]; [right | left; by apply Hlast]. done.
  - cbn. split; [naive_solver|]. split; [done|]. intros Ht. left. rewrite <- Hp in Ht.
    destruct (terminal_health exit' (ge_health g) Ht) as (h' & Ha & Hreason). rewrite Hp in Hreason.
    apply (Hlast _ [None; Some _]). split; [done|]. cbn. unfold flushFailedHealth. by rewrite Ha.
Qed.
