(* ===== verification/Outbound.v ===== *)
(** * Outbound submission in the store (internal/gateway/store/postgres/messages.go)

    [CreateOutbound] and what it calls: the idempotency record, the route check,
    the message row with its lane, media, Kafka audit, first status, event and
    outbox rows, all in one transaction; and the reads of a message.  The
    repository discharges the laws the messaging service is proved against. *)

From S2P Require Import Prelude GoText Crypto GoEncoding Domain Messaging Session EventContract Store.

(** ** Event bodies *)

Fixpoint ready_media (position : Z) (mediaIDs : list string) : list Media :=
  match mediaIDs with
  | [] => []
  | mediaID :: ids =>
    {| md_ID := mediaID; md_Position := position; md_Status := "ready"; md_MIMEType := "";
       md_Size := 0; md_DisplayFilename := ""; md_MetadataPath := "";
       md_ContentPath := "/v1/media/" +:+ mediaID +:+ "/content" |} :: ready_media (position + 1) ids
  end.

Definition outboundMessageEventBody (eventID eventType : string) (message : OutboundMessage)
    (state : MessageState) (occurredAt wall : Z) : result bytes :=
  let occurredAt := if time_IsZero occurredAt then wall else occurredAt in
  let recipients := match ParseE164 (om_Recipient message) with
                    | Ok phone => [E164Phone_String phone]
                    | Err _ => []
                    end in
  Marshal {|
    ev_EventID := eventID; ev_Type := eventType; ev_Version := 0; ev_OccurredAt := occurredAt;
    ev_OccurredAtText := ""; ev_IngestedAt := time_zero; ev_IngestedAtText := "";
    ev_TenantID := om_TenantID message; ev_ConnectionID := om_ConnectionID message;
    ev_ConversationID := om_ConversationID message; ev_MessageID := om_ID message;
    ev_ProviderMessageID := om_ProviderMessageID message; ev_ProviderTmpID := om_ProviderTmpID message;
    ev_Direction := "outbound"; ev_Provenance := ""; ev_ProviderStatus := ""; ev_Actionable := false;
    ev_Sender := ""; ev_Recipients := recipients; ev_Text := om_Text message;
    ev_Transport := om_Transport message; ev_Status := MessageState_text state;
    ev_State := MessageState_text state; ev_MediaID := ""; ev_MetadataPath := "";
    ev_ContentPath := ""; ev_Media := ready_media 0 (om_MediaIDs message);
    ev_ProviderResponseID := ""; ev_Reason := ""; ev_Data := [] |}.

(** ** Reading a message *)

(** Scanning a nullable column into a Go [string]: NULL is an error. *)
Definition scan_string (column : option string) : result string :=
  match column with
  | Some s => Ok s
  | None => Err [ErrText "converting NULL to string is unsupported"]
  end.

Definition media_of (db : Db) (t : tenant) (messageID : string) : list string :=
  fst <$> default [] (message_media db !! (t, messageID)).

(** One row of getOutboundMessageSQL or listMessagesSQL. *)
Definition scan_message (db : Db) (t : tenant) (messageID : string) (row : MessageRow)
    : result OutboundMessage :=
  let! providerTmpID := scan_string (ms_ProviderTmpID row) in
  let mediaIDs := media_of db t messageID in
  Ok {| om_ID := messageID; om_TenantID := t; om_ConnectionID := ms_ConnectionID row;
        om_ConversationID := ms_ConversationID row; om_Recipient := ms_Recipient row;
        om_LineID := default "" (ms_LineID row); om_RouteMode := ms_RouteMode row;
        om_Text := ms_Text row; om_MediaIDs := mediaIDs; om_ProviderTmpID := providerTmpID;
        om_ProviderMessageID := default "" (ms_ProviderMessageID row);
        om_Direction := ms_Direction row; om_Transport := ms_Transport row;
        om_Attachments := attachments 0 mediaIDs; om_State := ms_State row;
        om_CreatedAt := ms_CreatedAt row |}.

Definition loadOutboundMessage (db : Db) (t : tenant) (messageID : string) : result OutboundMessage :=
  match messages db !! (t, messageID) with
  | None => Err [ErrMessageNotFound]
  | Some row =>
    let! message := scan_message db t messageID row in
    if negb (is_ok (MessageState_Validate (om_State message))) then Err [ErrInvalidMessageState]
    else Ok message
  end.

Definition Repository_GetMessage (t : tenant) (messageID : string) (db : Db) : Db * result OutboundMessage :=
  if (t =s "") || (messageID =s "") then (db, Err [ErrMessageNotFound])
  else inTenant t (fun db => let! m := loadOutboundMessage db t messageID in Ok (db, m)) db.

(** [WHERE tenant_id = $1 AND message_id > $2 ORDER BY message_id LIMIT $3]. *)
Definition message_page_rows (db : Db) (t : tenant) (after : string) (limit : Z)
    : list (string * MessageRow) :=
  take (Z.to_nat limit)
    (merge_sort (fun a b => String.le a.1 b.1)
      ((fun p => (p.1.2, p.2)) <$>
        List.filter (fun p => (p.1.1 =s t) && String.leb after p.1.2 && (p.1.2 <>s after))
          (map_to_list (messages db)))).

Fixpoint scan_messages (db : Db) (t : tenant) (rows : list (string * MessageRow))
    : result (list OutboundMessage) :=
  match rows with
  | [] => Ok []
  | (id, row) :: rest =>
    let! m := scan_message db t id row in
    let! ms := scan_messages db t rest in
    Ok (m :: ms)
  end.

Definition Repository_ListMessages (t : tenant) (options : ListOptions) (db : Db)
    : Db * result MessagePage :=
  if (t =s "") || (lo_Limit options <? 1) || (lo_Limit options >? 200) then (db, Err [ErrInvalidCommand])
  else inTenant t (fun db =>
    let! ms := scan_messages db t (message_page_rows db t (lo_After options) (lo_Limit options + 1)) in
    if blen ms >? lo_Limit options then
      let page := take (Z.to_nat (lo_Limit options)) ms in
      Ok (db, {| mp_Messages := page; mp_NextCursor := from_option om_ID "" (last page) |})
    else Ok (db, {| mp_Messages := ms; mp_NextCursor := "" |})) db.

(** ** Kafka audit *)

Definition recordKafkaCommand (command : CreateOutboundCommand) (audit : CommandAudit)
    (messageID commandID : string) (db : Db) : result Db :=
  let t := om_TenantID (co_Message command) in
  let key := (t, ca_Topic audit, ca_Partition audit, ca_Offset audit) in
  let row := {| kc_CommandID := commandID; kc_ProducerIdentity := ca_ProducerIdentity audit;
                kc_IdempotencyKey := co_IdempotencyKey command;
                kc_CorrelationID := ca_CorrelationID audit;
                kc_PayloadDigest := ca_PayloadDigest audit; kc_MessageID := messageID |} in
  match kafka_commands db !! key with
  | None =>
    let! _ := foreign_key (bool_decide (is_Some (messages db !! (t, messageID)))) in
    let! _ := check_constraint (blen (ca_PayloadDigest audit) =? 32) in
    (* PRIMARY KEY (tenant_id, command_id) *)
    let! _ := check_constraint (negb (existsb (fun p => (p.1.1.1.1 =s t) && (kc_CommandID p.2 =s commandID))
      (map_to_list (kafka_commands db)))) in
    if commandID =s "" then Err [ErrIdempotencyConflict]
    else Ok (set_kafka_commands (<[key := row]> (kafka_commands db)) db)
  | Some old =>
    if (kc_ProducerIdentity old =s kc_ProducerIdentity row) &&
       (kc_IdempotencyKey old =s kc_IdempotencyKey row) &&
       (kc_CorrelationID old =s kc_CorrelationID row) &&
       bool_decide (kc_PayloadDigest old = kc_PayloadDigest row) && (kc_MessageID old =s messageID)
    then if kc_CommandID old =s "" then Err [ErrIdempotencyConflict] else Ok db
    else Err [ErrIdempotencyConflict]
  end.

Definition record_audit (command : CreateOutboundCommand) (messageID commandID : string) (db : Db)
    : result Db :=
  match co_CommandAudit command with
  | None => Ok db
  | Some audit => recordKafkaCommand command audit messageID commandID db
  end.

(** ** Creating a message *)

(** validateMessageRouteSQL and the route check; the ordering key. *)
Definition outbound_ordering_key (message : OutboundMessage) (db : Db) : result string :=
  let t := om_TenantID message in
  let c := om_ConnectionID message in
  if om_ConversationID message =s "" then Ok ("new:" +:+ om_Recipient message)
  else match conversations db !! (t, c, om_ConversationID message) with
  | None => Err [ErrInvalidRoute]
  | Some conv =>
    let requested := match lines db !! (t, om_LineID message) with
                     | Some line =>
                       if (om_LineID message <>s "") && (li_ConnectionID line =s c) && li_Active line
                       then li_OutgoingID line else ""
                     | None => ""
                     end in
    if (cv_DefaultOutgoingID conv =s "") ||
       ((om_LineID message <>s "") && (requested <>s cv_DefaultOutgoingID conv))
    then Err [ErrInvalidRoute]
    else Ok (if cv_OrderingKey conv =s "" then om_ConversationID message else cv_OrderingKey conv)
  end.

(** [UNIQUE (tenant_id, connection_id, provider_tmp_id)]. *)
Definition tmp_id_taken (db : Db) (t : tenant) (c tmpID : string) : bool :=
  existsb (fun p => (p.1.1 =s t) && (ms_ConnectionID p.2 =s c) &&
                    bool_decide (ms_ProviderTmpID p.2 = Some tmpID)) (map_to_list (messages db)).

Definition outbound_row (message : OutboundMessage) (orderingKey : string) : MessageRow := {|
  ms_ConnectionID := om_ConnectionID message; ms_ConversationID := om_ConversationID message;
  ms_OrderingKey := orderingKey; ms_Direction := "outbound"; ms_Recipient := om_Recipient message;
  ms_LineID := NULLIF_empty (om_LineID message); ms_RouteMode := om_RouteMode message;
  ms_Text := om_Text message; ms_ProviderMessageID := None;
  ms_ProviderTmpID := Some (om_ProviderTmpID message); ms_Transport := "";
  ms_State := MessageStateQueued; ms_CreatedAt := pg_timestamp (om_CreatedAt message) |}.

Definition insertOutboundMessage (message : OutboundMessage) (orderingKey : string) (db : Db) : result Db :=
  let t := om_TenantID message in
  let! _ := foreign_key (has_connection db t (om_ConnectionID message)) in
  let! _ := foreign_key ((om_LineID message =s "") ||
                         bool_decide (is_Some (lines db !! (t, om_LineID message)))) in
  let! _ := check_constraint (len (om_Text message) <=? 65536) in
  let! _ := check_constraint (negb (tmp_id_taken db t (om_ConnectionID message) (om_ProviderTmpID message))) in
  let! messages' := insert_unique (messages db) (t, om_ID message) (outbound_row message orderingKey) in
  Ok (set_messages messages' db).

(** ensureMessageLaneSQL. *)
Definition ensureMessageLane (t : tenant) (c orderingKey : string) (db : Db) : Db :=
  match lanes db !! (t, c, orderingKey) with
  | Some _ => db
  | None => set_lanes (<[(t, c, orderingKey) :=
      {| ln_Token := 0; ln_Owner := None; ln_Claimed := None; ln_ExpiresAt := None |}]> (lanes db)) db
  end.

(** insertOutboundMediaSQL: every requested object must be ready. *)
Definition insertOutboundMedia (message : OutboundMessage) (db : Db) : result Db :=
  let t := om_TenantID message in
  match om_MediaIDs message with
  | [] => Ok db
  | ids =>
    let ready := List.filter (fun p => bool_decide (media_objects db !! (t, p.1) = Some "ready"))
                   ((fun a => (att_MediaID a, att_Position a)) <$> attachments 0 ids) in
    let! _ := check_constraint (bool_decide (NoDup (fst <$> ready))) in
    if blen ready =? blen ids
    then Ok (set_message_media (<[(t, om_ID message) := ready]> (message_media db)) db)
    else Err [ErrInvalidCommand]
  end.

Definition insertMessageIdempotency (command : CreateOutboundCommand) (db : Db) : result Db :=
  let message := co_Message command in
  let! _ := check_constraint (blen (co_RequestDigest command) =? 32) in
  let! table := insert_unique (idempotency db) (om_TenantID message, co_IdempotencyKey command)
    {| id_Digest := co_RequestDigest command; id_MessageID := om_ID message |} in
  Ok (set_idempotency table db).

(** The identifiers a call draws from [repository.newID]. *)
Record CreateIDs := { ci_command : string; ci_status : string; ci_event : string; ci_outbox : string }.

Definition create_transaction (command : CreateOutboundCommand) (ids : CreateIDs) (wall now : Z) (db : Db)
    : result (Db * CreateResult) :=
  let message := co_Message command in
  let t := om_TenantID message in
  match idempotency db !! (t, co_IdempotencyKey command) with
  | Some stored =>
    if negb (blen (id_Digest stored) =? 32) ||
       negb (bool_decide (id_Digest stored = co_RequestDigest command))
    then Ok (db, {| cr_Outcome := CreateConflict; cr_Message := zero_message |})
    else
      let! m := loadOutboundMessage db t (id_MessageID stored) in
      let! db' := record_audit command (om_ID m) (ci_command ids) db in
      Ok (db', {| cr_Outcome := CreateDuplicate; cr_Message := m |})
  | None =>
    let! orderingKey := outbound_ordering_key message db in
    let! db1 := insertOutboundMessage message orderingKey db in
    let db2 := ensureMessageLane t (om_ConnectionID message) orderingKey db1 in
    let! db3 := insertOutboundMedia message db2 in
    let! db4 := insertMessageIdempotency command db3 in
    let! db5 := record_audit command (om_ID message) (ci_command ids) db4 in
    let! db6 := insertMessageStatus t (ci_status ids) (om_ID message) MessageStateQueued "" "" now db5 in
    let! body := outboundMessageEventBody (ci_event ids) "message.queued" message MessageStateQueued
                   (om_CreatedAt message) wall in
    let! db7 := insertGatewayEvent t (ci_event ids) "message.queued" "message" (om_ID message)
                  (om_ConnectionID message) (om_ConversationID message) body db6 in
    let! db8 := insertEventOutbox t (ci_outbox ids) (ci_event ids) now db7 in
    Ok (db8, {| cr_Outcome := CreateInserted; cr_Message := message |})
  end.

Definition Repository_CreateOutbound (command : CreateOutboundCommand) (ids : CreateIDs) (wall now : Z)
    (db : Db) : Db * result CreateResult :=
  let message := co_Message command in
  if (om_TenantID message =s "") || (om_ID message =s "") || (om_ConnectionID message =s "") ||
     (co_IdempotencyKey command =s "") || negb (bool_decide (om_State message = MessageStateQueued))
  then (db, Err [ErrInvalidCommand])
  else if (om_ConversationID message <>s "") &&
          negb (ValidProviderConversationID (om_ConversationID message))
  then (db, Err [ErrInvalidRoute])
  else inTenant (om_TenantID message) (create_transaction command ids wall now) db.

(** ** The repository as a message store *)

(** [rp_calls] is what the calls to come will draw: identifiers, wall clock and
    database clock. *)
Record Repository := { rp_db : Db; rp_calls : list (CreateIDs * Z * Z) }.

Definition no_ids : CreateIDs := {| ci_command := ""; ci_status := ""; ci_event := ""; ci_outbox := "" |}.

Definition is_conflict (r : result CreateResult) : bool :=
  match r with
  | Ok r => match cr_Outcome r with CreateConflict => true | _ => false end
  | Err _ => false
  end.

Definition store_CreateOutbound (s : Repository) (command : CreateOutboundCommand)
    : Repository * result CreateResult :=
  let '(ids, wall, now) := default (no_ids, 0, 0) (head (rp_calls s)) in
  let '(db', r) := Repository_CreateOutbound command ids wall now (rp_db s) in
  ({| rp_db := db'; rp_calls := if is_conflict r then rp_calls s else tail (rp_calls s) |}, r).

#[export] Instance Repository_store : MessageStore Repository := {
  CreateOutbound := store_CreateOutbound;
  GetMessage s t id := (Repository_GetMessage t id (rp_db s)).2;
  ListMessages := Some (fun s t options => (Repository_ListMessages t options (rp_db s)).2)
}.

Definition idempotency_bound (db : Db) (t k : string) : option (bytes * string) :=
  (fun row => (id_Digest row, id_MessageID row)) <$> idempotency db !! (t, k).

(** *** What the steps of a creation do *)

Lemma insertOutboundMessage_ok m k db db' :
  insertOutboundMessage m k db = Ok db' ->
  messages db !! (om_TenantID m, om_ID m) = None /\
  has_connection db (om_TenantID m) (om_ConnectionID m) = true /\
  db' = set_messages (<[(om_TenantID m, om_ID m) := outbound_row m k]> (messages db)) db.
Proof.
  unfold insertOutboundMessage. intros H. bind_ok H. injection H as <-.
  match goal with Hi : insert_unique _ _ _ = _ |- _ => apply insert_unique_ok in Hi as [? ->] end.
  split_and!; [done| |done]. unfold foreign_key in *. by destruct (has_connection _ _ _).
Qed.

Definition idle_lane : LaneRow :=
  {| ln_Token := 0; ln_Owner := None; ln_Claimed := None; ln_ExpiresAt := None |}.

(** A lane added idle if it was missing, every other lane kept. *)
Definition lane_ensured (old new : gmap (string * string * string) LaneRow) (key : string * string * string)
    : Prop :=
  is_Some (new !! key) /\
  (forall k l, old !! k = Some l -> new !! k = Some l) /\
  (forall k l, new !! k = Some l -> old !! k = Some l \/ k = key /\ l = idle_lane /\ old !! k = None).

Lemma ensureMessageLane_ok t c k db :
  exists lanes', ensureMessageLane t c k db = set_lanes lanes' db /\
    lane_ensured (lanes db) lanes' (t, c, k).
Proof.
  unfold ensureMessageLane, lane_ensured. destruct (lanes db !! (t, c, k)) as [l|] eqn:E.
  - exists (lanes db). split_and!; [by destruct db | by exists l | done | auto].
  - eexists. split; [reflexivity|]. split_and!.
    + by rewrite lookup_insert_eq.
    + intros key l Hl. rewrite lookup_insert_ne; [done|]. intros <-. by rewrite E in Hl.
    + intros key l. destruct (decide ((t, c, k) = key)) as [<-|Hk].
      * rewrite lookup_insert_eq. intros [= <-]. auto.
      * rewrite lookup_insert_ne by done. auto.
Qed.

Lemma filter_length_all {A} (f : A -> bool) l : length (List.filter f l) = length l -> List.filter f l = l /\ Forall (fun x => f x = true) l.
Proof.
  induction l as [|x l IH]; cbn; [done|]. destruct (f x) eqn:E; cbn.
  - intros [= H]. destruct (IH H) as [-> Hl]. by split; [|constructor].
  - intros H. pose proof (filter_length_le f l). lia.
Qed.

(** The rows of the media a message was sent with, in their order. *)
Definition attachment_rows (m : OutboundMessage) : list (string * Z) :=
  (fun a => (att_MediaID a, att_Position a)) <$> attachments 0 (om_MediaIDs m).

(** The requested media, all of them ready, are attached to the message. *)
Definition media_attached (db : Db) (m : OutboundMessage) (media' : gmap (string * string) (list (string * Z))) : Prop :=
  match om_MediaIDs m with
  | [] => media' = message_media db
  | ids => media' = <[(om_TenantID m, om_ID m) := attachment_rows m]> (message_media db) /\
           Forall (fun id => media_objects db !! (om_TenantID m, id) = Some "ready") ids
  end.

Lemma attachments_ids n ids : att_MediaID <$> attachments n ids = ids.
Proof. revert n. induction ids as [|id ids IH]; intros n; cbn; [done|]. by rewrite IH. Qed.

Lemma insertOutboundMedia_ok m db db' :
  insertOutboundMedia m db = Ok db' -> exists media', db' = set_message_media media' db /\ media_attached db m media'.
Proof.
  unfold insertOutboundMedia, media_attached, attachment_rows. destruct (om_MediaIDs m) as [|id0 ids0] eqn:Ei.
  - intros [= <-]. exists (message_media db). by destruct db.
  - rewrite <- Ei. intros (? & _ & H)%result_bind_ok. destruct (_ =? _) eqn:El; [|done]. injection H as <-.
    apply Z.eqb_eq in El. unfold blen in El. apply Nat2Z.inj in El.
    rewrite <- (attachments_ids 0 (om_MediaIDs m)) in El at 2. rewrite length_fmap in El.
    destruct (filter_length_all (fun p => bool_decide (media_objects db !! (om_TenantID m, p.1) = Some "ready"))
      ((fun a => (att_MediaID a, att_Position a)) <$> attachments 0 (om_MediaIDs m))) as [Hf Hr]; [by rewrite length_fmap|].
    rewrite Hf. eexists. split; [done|]. split; [done|]. rewrite <- (attachments_ids 0 (om_MediaIDs m)).
    rewrite Forall_fmap in Hr. apply Forall_fmap. eapply Forall_impl; [exact Hr|]. intros a Ha. by apply bool_decide_eq_true in Ha.
Qed.

Lemma insertMessageIdempotency_ok c db db' :
  insertMessageIdempotency c db = Ok db' ->
  db' = set_idempotency (<[(om_TenantID (co_Message c), co_IdempotencyKey c) :=
    {| id_Digest := co_RequestDigest c; id_MessageID := om_ID (co_Message c) |}]> (idempotency db)) db.
Proof.
  unfold insertMessageIdempotency. intros H. bind_ok H. injection H as <-.
  by match goal with Hi : insert_unique _ _ _ = _ |- _ => apply insert_unique_ok in Hi as [? ->] end.
Qed.

(** The audit row of a command that came over Kafka, and no other row of the audit. *)
Definition audit_recorded (command : CreateOutboundCommand) (messageID : string)
    (commands commands' : gmap (string * string * Z * Z) KafkaCommandRow) : Prop :=
  match co_CommandAudit command with
  | None => commands' = commands
  | Some audit =>
    let key := (om_TenantID (co_Message command), ca_Topic audit, ca_Partition audit, ca_Offset audit) in
    (exists row, commands' !! key = Some row /\ kc_MessageID row = messageID /\ kc_PayloadDigest row = ca_PayloadDigest audit /\
       kc_IdempotencyKey row = co_IdempotencyKey command) /\
    (forall key', key' <> key -> commands' !! key' = commands !! key')
  end.

Lemma record_audit_ok c m i db db' :
  record_audit c m i db = Ok db' ->
  exists commands', db' = set_kafka_commands commands' db /\ audit_recorded c m (kafka_commands db) commands'.
Proof.
  assert (db = set_kafka_commands (kafka_commands db) db) as Hsame by (by destruct db).
  unfold record_audit, audit_recorded. destruct (co_CommandAudit c) as [a|]; [|intros [= <-]; by exists (kafka_commands db)].
  unfold recordKafkaCommand. destruct (kafka_commands db !! _) as [old|] eqn:Ek.
  - destruct (_ && _) eqn:Ea; [|done]. destruct (kc_CommandID old =s ""); [done|]. intros [= <-]. exists (kafka_commands db). split; [done|].
    split; [|done]. exists old. reflect_bools. by split_and!.
  - intros H. bind_ok H. destruct (_ =s _); [done|]. injection H as <-. eexists. split; [done|]. split.
    + rewrite lookup_insert_eq. eexists. by split_and!.
    + intros key' Hk. by rewrite lookup_insert_ne.
Qed.

(** A committed insertion, step by step. *)
Lemma create_inserted_ok command ids wall now db db' r :
  idempotency db !! (om_TenantID (co_Message command), co_IdempotencyKey command) = None ->
  create_transaction command ids wall now db = Ok (db', r) ->
  let m := co_Message command in
  let t := om_TenantID m in
  r = {| cr_Outcome := CreateInserted; cr_Message := m |} /\
  exists key lanes' media' commands' body,
    outbound_ordering_key m db = Ok key /\
    messages db !! (t, om_ID m) = None /\ has_connection db t (om_ConnectionID m) = true /\
    statuses db !! (t, ci_status ids) = None /\ events db !! (t, ci_event ids) = None /\
    lane_ensured (lanes db) lanes' (t, om_ConnectionID m, key) /\
    outboundMessageEventBody (ci_event ids) "message.queued" m MessageStateQueued
      (om_CreatedAt m) wall = Ok body /\
    media_attached db m media' /\ audit_recorded command (om_ID m) (kafka_commands db) commands' /\
    db' = {| tenants := tenants db; connections := connections db; leases := leases db;
      health := health db; sessions := sessions db; lanes := lanes';
      messages := <[(t, om_ID m) := outbound_row m key]> (messages db); attempts := attempts db;
      statuses := <[(t, ci_status ids) := {| st_MessageID := om_ID m; st_State := MessageStateQueued;
        st_ProviderStatus := ""; st_SafeReason := ""; st_ObservedAt := now |}]> (statuses db);
      idempotency := <[(t, co_IdempotencyKey command) := {| id_Digest := co_RequestDigest command;
        id_MessageID := om_ID m |}]> (idempotency db);
      events := <[(t, ci_event ids) := {| er_Type := "message.queued"; er_AggregateType := "message";
        er_AggregateID := om_ID m; er_ConnectionID := NULLIF_empty (om_ConnectionID m);
        er_ConversationID := om_ConversationID m; er_Body := body |}]> (events db);
      outbox := <[(t, ci_outbox ids +:+ ":kafka") := outbox_row (ci_event ids) "kafka" now]>
        (<[(t, ci_outbox ids +:+ ":webhook") := outbox_row (ci_event ids) "webhook" now]> (outbox db));
      kafka_commands := commands'; conversations := conversations db; lines := lines db;
      media_objects := media_objects db; message_media := media' |}.
Proof.
  intros Hnone. unfold create_transaction. rewrite Hnone. cbn zeta. intros H.
  apply result_bind_ok in H as (key & Hkey & H). apply result_bind_ok in H as (db1 & H1 & H).
  apply insertOutboundMessage_ok in H1 as (Hm & Hc & ->).
  destruct (ensureMessageLane_ok (om_TenantID (co_Message command)) (om_ConnectionID (co_Message command))
    key (set_messages (<[(om_TenantID (co_Message command), om_ID (co_Message command)) :=
      outbound_row (co_Message command) key]> (messages db)) db)) as (lanes' & Hl & Hl').
  rewrite Hl in H. clear Hl.
  apply result_bind_ok in H as (db3 & H3 & H). apply insertOutboundMedia_ok in H3 as (media' & -> & Hmedia).
  apply result_bind_ok in H as (db4 & H4 & H). apply insertMessageIdempotency_ok in H4 as ->.
  apply result_bind_ok in H as (db5 & H5 & H). apply record_audit_ok in H5 as (commands' & -> & Haudit).
  apply result_bind_ok in H as (db6 & H6 & H). apply insertMessageStatus_ok in H6 as (_ & Hs & ->).
  apply result_bind_ok in H as (body & Hbody & H). apply result_bind_ok in H as (db7 & H7 & H).
  apply insertGatewayEvent_ok in H7 as (He & ->). apply result_bind_ok in H as (db8 & H8 & H).
  apply insertEventOutbox_ok in H8 as (_ & _ & _ & ->). injection H as <- <-.
  split; [done|]. exists key, lanes', media', commands', body. simpl in *.
  by split_and!.
Qed.

(** A committed call that found the key already bound. *)
Lemma create_bound_ok command ids wall now db db' r stored :
  idempotency db !! (om_TenantID (co_Message command), co_IdempotencyKey command) = Some stored ->
  create_transaction command ids wall now db = Ok (db', r) ->
  (exists commands', db' = set_kafka_commands commands' db /\
     (cr_Outcome r = CreateConflict -> commands' = kafka_commands db) /\
     (cr_Outcome r = CreateDuplicate -> audit_recorded command (om_ID (cr_Message r)) (kafka_commands db) commands')) /\
  (r = {| cr_Outcome := CreateConflict; cr_Message := zero_message |} /\
     (blen (id_Digest stored) <> 32 \/ id_Digest stored <> co_RequestDigest command) \/
   id_Digest stored = co_RequestDigest command /\ cr_Outcome r = CreateDuplicate /\
     om_ID (cr_Message r) = id_MessageID stored).
Proof.
  intros Hsome. unfold create_transaction. rewrite Hsome. cbn zeta. destruct (_ || _) eqn:E.
  - intros [= <- <-]. split; [exists (kafka_commands db); split_and!; [by destruct db | done | done]|]. left. split; [done|].
    apply orb_true_iff in E as [E|E]; reflect_bools; auto.
  - apply orb_false_iff in E as [_ E]. reflect_bools.
    intros (m & Hm & (db1 & Ha & H)%result_bind_ok)%result_bind_ok. injection H as <- <-.
    apply record_audit_ok in Ha as (commands' & -> & Ha). split; [exists commands'; by split_and!|]. right. simpl. split; [done|]. split; [done|].
    unfold loadOutboundMessage in Hm. destruct (messages db !! _); [|done].
    apply result_bind_ok in Hm as (m' & Hs & Hm). destruct (negb _); [done|]. injection Hm as ->.
    unfold scan_message in Hs. apply result_bind_ok in Hs as (? & _ & Hs). by injection Hs as <-.
Qed.

(** The idempotency table after a committed creation. *)
Lemma create_transaction_idempotency command ids wall now db db' r :
  create_transaction command ids wall now db = Ok (db', r) ->
  let t := om_TenantID (co_Message command) in
  let k := co_IdempotencyKey command in
  match idempotency db !! (t, k) with
  | Some stored =>
    idempotency db' = idempotency db /\
    (r = {| cr_Outcome := CreateConflict; cr_Message := zero_message |} /\
       (blen (id_Digest stored) <> 32 \/ id_Digest stored <> co_RequestDigest command) \/
     id_Digest stored = co_RequestDigest command /\ cr_Outcome r = CreateDuplicate /\
       om_ID (cr_Message r) = id_MessageID stored)
  | None =>
    r = {| cr_Outcome := CreateInserted; cr_Message := co_Message command |} /\
    idempotency db' = <[(t, k) := {| id_Digest := co_RequestDigest command;
                                     id_MessageID := om_ID (co_Message command) |}]> (idempotency db)
  end.
Proof.
  intros H. cbn zeta. destruct (idempotency db !! _) as [stored|] eqn:Es.
  - destruct (create_bound_ok _ _ _ _ _ _ _ _ Es H) as [(? & -> & _) Hr]. done.
  - destruct (create_inserted_ok _ _ _ _ _ _ _ Es H) as (-> & ? & ? & ? & ? & ? & Hdb).
    destruct_and! Hdb. by subst db'.
Qed.

Lemma Repository_CreateOutbound_cases command ids wall now db db' r :
  Repository_CreateOutbound command ids wall now db = (db', r) ->
  (db' = db /\ exists e, r = Err e) \/
  (exists v, r = Ok v /\ create_transaction command ids wall now db = Ok (db', v)).
Proof.
  unfold Repository_CreateOutbound. destruct (_ || _); [intros [= <- <-]; eauto|].
  destruct (_ && _); [intros [= <- <-]; eauto|]. apply inTenant_cases.
Qed.

Lemma Repository_CreateOutbound_wf command ids wall now db :
  command_wf command ->
  Repository_CreateOutbound command ids wall now db =
    inTenant (om_TenantID (co_Message command)) (create_transaction command ids wall now) db.
Proof.
  intros (Ht & Hi & Hc & Hk & Hs & Hv & _). unfold Repository_CreateOutbound.
  apply String.eqb_neq in Ht, Hi, Hc, Hk. rewrite Ht, Hi, Hc, Hk, bool_decide_true by done. simpl.
  destruct Hv as [-> | ->]; [done|]. by rewrite andb_false_r.
Qed.

#[export] Instance Repository_laws : MessageStoreLaws Repository.
Proof.
  refine {| bound := fun s => idempotency_bound (rp_db s) |}; unfold idempotency_bound;
    cbn [CreateOutbound Repository_store]; unfold store_CreateOutbound; intros s c;
    destruct (default (no_ids, 0, 0) (head (rp_calls s))) as [[ids wall] now];
    destruct (Repository_CreateOutbound c ids wall now (rp_db s)) as [db' r'] eqn:E;
    apply Repository_CreateOutbound_cases in E as Hc.
  - intros s' r Hb [= <- ->]. destruct Hc as [[_ [e He]]|(v & [= <-] & Ht)]; [done|].
    apply create_transaction_idempotency in Ht. cbn zeta in Ht.
    destruct (idempotency (rp_db s) !! _); [done|]. destruct Ht as [-> Ht]. split; [done|].
    cbn [rp_db]. rewrite Ht, lookup_insert_eq. done.
  - intros s' r id Hwf Hb [= <- ->]. destruct Hc as [[_ [e He]]|(v & [= <-] & Ht)]; [done|].
    apply create_transaction_idempotency in Ht. cbn zeta in Ht.
    destruct (idempotency (rp_db s) !! _) as [stored|]; [|done]. injection Hb as Hd Hid.
    destruct Ht as [_ [[-> Hne]|(_ & Ho & Hm)]]; [|split; congruence].
    destruct Hwf as (_ & _ & _ & _ & _ & _ & Hlen). exfalso.
    destruct Hne as [Hne|Hne]; [|congruence]. apply Hne. unfold blen. rewrite Hd, Hlen. done.
  - intros digest id Hwf Hb Hd. rewrite Repository_CreateOutbound_wf in E by done.
    unfold inTenant in E. pose proof Hwf as (Htn & _). apply String.eqb_neq in Htn. rewrite Htn in E.
    unfold create_transaction in E. destruct (idempotency (rp_db s) !! _) as [stored|]; [|done].
    injection Hb as Hd' Hid. rewrite (bool_decide_false (id_Digest stored = _)) in E by congruence.
    rewrite orb_true_r in E. injection E as <- <-. simpl. by destruct s.
  - intros s' r t k b [= <- <-] Hb. cbn [rp_db].
    destruct Hc as [[-> _]|(v & -> & Ht)]; [done|].
    apply create_transaction_idempotency in Ht. cbn zeta in Ht.
    destruct (idempotency (rp_db s) !! (om_TenantID (co_Message c), co_IdempotencyKey c)) eqn:El.
    + by destruct Ht as [-> _].
    + destruct Ht as [_ ->]. rewrite lookup_insert_ne; [done|]. intros [= <- <-]. by rewrite El in Hb.
Defined.

(** ** Creation is atomic *)

(** Everything a queued message needs to be dispatched and announced. *)
Definition queued_completely (db db' : Db) (command : CreateOutboundCommand) (ids : CreateIDs) (key : string)
    (now : Z) : Prop :=
  let m := co_Message command in
  let t := om_TenantID m in
  messages db' !! (t, om_ID m) = Some (outbound_row m key) /\
  is_Some (lanes db' !! (t, om_ConnectionID m, key)) /\
  media_attached db m (message_media db') /\
  audit_recorded command (om_ID m) (kafka_commands db) (kafka_commands db') /\
  idempotency db' !! (t, co_IdempotencyKey command) =
    Some {| id_Digest := co_RequestDigest command; id_MessageID := om_ID m |} /\
  statuses db' !! (t, ci_status ids) = Some {| st_MessageID := om_ID m; st_State := MessageStateQueued;
    st_ProviderStatus := ""; st_SafeReason := ""; st_ObservedAt := now |} /\
  (exists ev, events db' !! (t, ci_event ids) = Some ev /\ er_Type ev = "message.queued" /\
     er_AggregateID ev = om_ID m) /\
  outbox db' !! (t, ci_outbox ids +:+ ":webhook") = Some (outbox_row (ci_event ids) "webhook" now) /\
  outbox db' !! (t, ci_outbox ids +:+ ":kafka") = Some (outbox_row (ci_event ids) "kafka" now).

Lemma suffix_ne (o : string) : o +:+ ":kafka" <> o +:+ ":webhook".
Proof. intros H%(f_equal bytes_of). rewrite !bytes_of_app in H. apply app_inv_head in H. discriminate. Qed.

(** C5. Accepting an outbound message is all or nothing: a call that fails
    leaves the database as it was; a call that inserts stores the queued message
    on the ordering lane of its route together with its media in their order, all
    of them ready, the idempotency record, the audit of a command that came over
    Kafka, its first status, its event and one outbox row per destination; a
    conflicting key changes nothing, and a repeated one nothing but that audit. *)
Theorem create_outbound_atomic (command : CreateOutboundCommand) (ids : CreateIDs) (wall now : Z)
  (db db' : Db) (r : result CreateResult)
  (H : Repository_CreateOutbound command ids wall now db = (db', r)) :
  match r with
  | Err _ => db' = db
  | Ok res =>
    match cr_Outcome res with
    | CreateInserted =>
      exists key, outbound_ordering_key (co_Message command) db = Ok key /\
        messages db !! (om_TenantID (co_Message command), om_ID (co_Message command)) = None /\
        queued_completely db db' command ids key now
    | CreateDuplicate => exists commands', db' = set_kafka_commands commands' db /\
        audit_recorded command (om_ID (cr_Message res)) (kafka_commands db) commands'
    | _ => db' = db
    end
  end.
Proof.
  apply Repository_CreateOutbound_cases in H as [[-> [e ->]]|(v & -> & H)]; [done|].
  destruct (idempotency db !! (om_TenantID (co_Message command), co_IdempotencyKey command))
    as [stored|] eqn:Es.
  - destruct (create_bound_ok _ _ _ _ _ _ _ _ Es H) as [(commands' & -> & Hc & Ha) [[-> _]|(_ & Ho & _)]].
    + cbn. rewrite Hc by done. by destruct db.
    + rewrite Ho. exists commands'. by split; [|apply Ha].
  - destruct (create_inserted_ok _ _ _ _ _ _ _ Es H)
      as (-> & key & lanes' & media' & commands' & body & Hk & Hm & _ & _ & _ & (Hl & _) & _ & Hmedia & Haudit & ->).
    exists key. unfold queued_completely. cbn [cr_Outcome messages lanes message_media kafka_commands idempotency statuses events outbox].
    rewrite !lookup_insert_eq. split_and!; try done; [eexists; split_and!; done|].
    rewrite lookup_insert_ne, lookup_insert_eq; [done|]. intros [= He]. by apply (suffix_ne (ci_outbox ids)).
Qed.

(** ** Submission is idempotent *)

(** Everything but the Kafka audit. *)
Definition same_but_audit (db db' : Db) : Prop := exists commands', db' = set_kafka_commands commands' db.

Lemma create_loaded command ids wall now db db' r t id m :
  create_transaction command ids wall now db = Ok (db', r) ->
  loadOutboundMessage db t id = Ok m -> loadOutboundMessage db' t id = Ok m.
Proof.
  intros H Hl. destruct (idempotency db !! (om_TenantID (co_Message command), co_IdempotencyKey command)) as [stored|] eqn:Es.
  - by destruct (create_bound_ok _ _ _ _ _ _ _ _ Es H) as [(commands' & -> & _) _].
  - destruct (create_inserted_ok _ _ _ _ _ _ _ Es H)
      as (_ & key & lanes' & media' & commands' & body & _ & Hm & _ & _ & _ & _ & _ & Hmedia & _ & ->).
    unfold loadOutboundMessage, scan_message, media_of in *. cbn [messages message_media].
    destruct (messages db !! (t, id)) as [row|] eqn:Er; [|done].
    assert ((om_TenantID (co_Message command), om_ID (co_Message command)) <> (t, id)) as Hne by (intros He; rewrite He in Hm; congruence).
    rewrite lookup_insert_ne, Er by done. assert (media' !! (t, id) = message_media db !! (t, id)) as ->; [|done].
    unfold media_attached in Hmedia. destruct (om_MediaIDs _); [by subst|]. destruct Hmedia as [-> _]. by rewrite lookup_insert_ne.
Qed.

Lemma inserted_loaded command ids wall now db db' :
  create_transaction command ids wall now db = Ok (db', {| cr_Outcome := CreateInserted; cr_Message := co_Message command |}) ->
  exists m, loadOutboundMessage db' (om_TenantID (co_Message command)) (om_ID (co_Message command)) = Ok m.
Proof.
  intros H. destruct (idempotency db !! (om_TenantID (co_Message command), co_IdempotencyKey command)) as [stored|] eqn:Es.
  - by destruct (create_bound_ok _ _ _ _ _ _ _ _ Es H) as [_ [[? _]|(_ & ? & _)]].
  - destruct (create_inserted_ok _ _ _ _ _ _ _ Es H)
      as (_ & key & lanes' & media' & commands' & body & _ & _ & _ & _ & _ & _ & _ & _ & _ & ->).
    unfold loadOutboundMessage. cbn [messages]. rewrite lookup_insert_eq. by eexists.
Qed.

Lemma store_create_cases (s s' : Repository) command r :
  CreateOutbound s command = (s', r) ->
  (rp_db s' = rp_db s /\ exists e, r = Err e) \/
  (exists v ids wall now, r = Ok v /\ create_transaction command ids wall now (rp_db s) = Ok (rp_db s', v)).
Proof.
  cbn [CreateOutbound Repository_store]. unfold store_CreateOutbound.
  destruct (default (no_ids, 0, 0) (head (rp_calls s))) as [[ids wall] now].
  destruct (Repository_CreateOutbound command ids wall now (rp_db s)) as [db' r'] eqn:E.
  apply Repository_CreateOutbound_cases in E. intros [= <- <-]. cbn.
  destruct E as [[-> He]|(v & -> & Ht)]; [by left | right; by exists v, ids, wall, now].
Qed.

Lemma submit_loaded (s : Repository) sub t id m :
  loadOutboundMessage (rp_db s) t id = Ok m -> loadOutboundMessage (rp_db (do_submit s sub).1) t id = Ok m.
Proof.
  intros Hl. destruct (sub_checks sub) eqn:Hc; [|destruct (do_submit_rejected s sub Hc) as [e ->]; done].
  rewrite do_submit_accepted by done. destruct (CreateOutbound s (sub_command sub)) as [s' r] eqn:Ec.
  assert (loadOutboundMessage (rp_db s') t id = Ok m) as Hl'.
  { apply store_create_cases in Ec as [[-> _]|(v & ids & wall & now & _ & Ht)]; [done | by eapply create_loaded]. }
  destruct r as [r|e]; [|done]. by destruct (cr_Outcome r).
Qed.

Lemma run_loaded subs (s : Repository) t id m :
  loadOutboundMessage (rp_db s) t id = Ok m -> loadOutboundMessage (rp_db (run s subs)) t id = Ok m.
Proof.
  revert s. induction subs as [|sub subs IH]; intros s Hl; [done|]. unfold run. cbn [fold_left]. by apply IH, submit_loaded.
Qed.

(** The message a submission returned can be read. *)
Lemma submitted_loaded (s s' : Repository) sub m :
  do_submit s sub = (s', Ok m) -> exists m0, loadOutboundMessage (rp_db s') (sub_tenant sub) (om_ID m) = Ok m0.
Proof.
  intros Hs. destruct (sub_checks sub) eqn:Hc; [|destruct (do_submit_rejected s sub Hc) as [e He]; congruence].
  rewrite do_submit_accepted in Hs by done. destruct (CreateOutbound s (sub_command sub)) as [s1 r] eqn:Ec.
  apply store_create_cases in Ec as [[_ [e ->]]|(v & ids & wall & now & -> & Ht)]; [done|].
  destruct (idempotency (rp_db s) !! (om_TenantID (co_Message (sub_command sub)), co_IdempotencyKey (sub_command sub))) as [stored|] eqn:Es.
  - pose proof (create_bound_ok _ _ _ _ _ _ _ _ Es Ht) as [_ [[-> _]|(_ & Ho & Hid)]]; [done|]. rewrite Ho in Hs. injection Hs as <- <-.
    rewrite Hid. pose proof Ht as Ht'. unfold create_transaction in Ht'. rewrite Es in Ht'. cbv zeta in Ht'. destruct (_ || _); [by injection Ht' as _ <-|].
    apply result_bind_ok in Ht' as (m1 & Hm1 & _). exists m1. by eapply create_loaded.
  - destruct (create_inserted_ok _ _ _ _ _ _ _ Es Ht) as [-> _]. injection Hs as <- <-. cbn [cr_Message].
    exact (inserted_loaded _ _ _ _ _ _ Ht).
Qed.

Lemma submit_bound (s s' : Repository) sub r id :
  sub_checks sub = true -> bound s (sub_tenant sub) (sub_key sub) = Some (CanonicalRequestDigest (sub_input sub), id) ->
  do_submit s sub = (s', r) ->
  same_but_audit (rp_db s) (rp_db s') /\
  match r with Ok m => om_ID m = id | Err _ => rp_db s' = rp_db s end.
Proof.
  intros Hc Hb Hs. pose proof (sub_command_wf sub Hc) as Hwf. rewrite do_submit_accepted in Hs by done.
  destruct (CreateOutbound s (sub_command sub)) as [s1 r1] eqn:Ec.
  assert (same_but_audit (rp_db s) (rp_db s)) as Hsame by (exists (kafka_commands (rp_db s)); by destruct (rp_db s)).
  pose proof Ec as Hcases. apply store_create_cases in Hcases as [[Hdb [e ->]]|(v & ids & wall & now & -> & Ht)].
  { injection Hs as <- <-. rewrite Hdb. done. }
  destruct (create_repeated _ (sub_command sub) _ _ _ Hwf Hb Ec) as [Ho Hi]. rewrite Ho in Hs. injection Hs as <- <-. split; [|done].
  cbn in Hb. unfold idempotency_bound in Hb.
  destruct (idempotency (rp_db s) !! (sub_tenant sub, sub_key sub)) as [stored|] eqn:Es; [|done].
  destruct (create_bound_ok (sub_command sub) _ _ _ _ _ _ _ Es Ht) as [(commands' & -> & _) _]. by exists commands'.
Qed.

Lemma submit_bound_plain (s : Repository) sub id m :
  sub_checks sub = true -> sub_audit sub = None ->
  bound s (sub_tenant sub) (sub_key sub) = Some (CanonicalRequestDigest (sub_input sub), id) ->
  loadOutboundMessage (rp_db s) (sub_tenant sub) id = Ok m ->
  exists s', do_submit s sub = (s', Ok m) /\ rp_db s' = rp_db s.
Proof.
  intros Hc Ha Hb Hl. pose proof (sub_command_wf sub Hc) as Hwf. rewrite do_submit_accepted by done.
  cbn [CreateOutbound Repository_store]. unfold store_CreateOutbound.
  destruct (default (no_ids, 0, 0) (head (rp_calls s))) as [[ids wall] now]. rewrite Repository_CreateOutbound_wf by done.
  cbn in Hb. unfold idempotency_bound in Hb.
  destruct (idempotency (rp_db s) !! (sub_tenant sub, sub_key sub)) as [stored|] eqn:Es; [|done]. injection Hb as Hd Hid.
  assert (create_transaction (sub_command sub) ids wall now (rp_db s) = Ok (rp_db s, {| cr_Outcome := CreateDuplicate; cr_Message := m |})) as Ht.
  { unfold create_transaction. change (om_TenantID (co_Message (sub_command sub))) with (sub_tenant sub).
    change (co_IdempotencyKey (sub_command sub)) with (sub_key sub). rewrite Es. cbv zeta.
    destruct Hwf as (_ & _ & _ & _ & _ & _ & Hlen). rewrite bool_decide_true by done.
    unfold blen. rewrite Hd. cbn [sub_command co_RequestDigest] in Hlen. rewrite Hlen. cbn [negb orb Z.eqb]. cbn. rewrite Hid, Hl. cbn.
    unfold record_audit. cbn [sub_command co_CommandAudit]. by rewrite Ha. }
  unfold inTenant. destruct Hwf as (Htn & _). apply String.eqb_neq in Htn. rewrite Htn, Ht. cbn. by eexists.
Qed.

(** C3. Submission is idempotent per tenant and key, whatever other submissions
    happen in between. After a submission returned a message, the same key with the
    same canonical request writes nothing but the audit of a command that came over
    Kafka: no message, media, lane, status, event, outbox row or key; when it succeeds it
    returns that message, when it fails the database is as it was, and without an audit
    it does succeed, with the message as it is stored. With a different canonical request
    it is refused as a conflict and the store is left as it was. *)
Theorem submit_idempotent (s0 s1 : Repository) (sub sub' : Submission) (m : OutboundMessage)
  (between : list Submission)
  (Hfirst : do_submit s0 sub = (s1, Ok m))
  (Htenant : sub_tenant sub' = sub_tenant sub) (Hkey : sub_key sub' = sub_key sub)
  (Hvalid : sub_checks sub' = true) :
  let s2 := run s1 between in
  (CanonicalRequestDigest (sub_input sub') = CanonicalRequestDigest (sub_input sub) ->
   (forall s3 r, do_submit s2 sub' = (s3, r) ->
      same_but_audit (rp_db s2) (rp_db s3) /\
      match r with Ok m' => om_ID m' = om_ID m | Err _ => rp_db s3 = rp_db s2 end) /\
   (sub_audit sub' = None ->
    exists s3 m', do_submit s2 sub' = (s3, Ok m') /\ rp_db s3 = rp_db s2 /\
      loadOutboundMessage (rp_db s2) (sub_tenant sub) (om_ID m) = Ok m')) /\
  (CanonicalRequestDigest (sub_input sub') <> CanonicalRequestDigest (sub_input sub) ->
   do_submit s2 sub' = (s2, Err [ErrIdempotencyConflict])).
Proof.
  cbn zeta. split; [|by apply (submit_idempotent_store s0 s1 sub sub' m between)].
  intros Hd. pose proof (run_keeps between _ _ _ _ (do_submit_binds _ _ _ _ Hfirst)) as Hb. rewrite <- Htenant, <- Hkey, <- Hd in Hb. split.
  - intros s3 r Hs. by apply (submit_bound _ _ _ _ _ Hvalid Hb).
  - intros Ha. destruct (submitted_loaded _ _ _ _ Hfirst) as [m0 Hl]. apply (run_loaded between) in Hl. rewrite <- Htenant in Hl |- *.
    destruct (submit_bound_plain _ _ _ _ Hvalid Ha Hb Hl) as (s3 & Hs & Hdb). by exists s3, m0.
Qed.

(** ** Concrete submissions *)

Definition sample_db : Db :=
  set_connections {[("t1", "c1") := {|
    cn_Name := "phone"; cn_State := ConnectionStateConnected;
    cn_Fingerprint := Some (repeat (byte_of_Z 7) 32); cn_ReauthorizationEventID := None;
    cn_PriorState := None; cn_PairingStartedAt := None; cn_PairingAttemptID := None;
    cn_TenantSuspendPriorState := None |}]}
    (set_tenants {["t1" := {| tn_Name := "tenant"; tn_Status := "active"; tn_MaxConnections := 128 |}]}
      (set_media_objects {[("t1", "media-1") := "ready"]} empty_db)).

Definition sample_ids (n : string) : CreateIDs := {|
  ci_command := "cmd" +:+ n; ci_status := "st" +:+ n; ci_event := "evt" +:+ n; ci_outbox := "ob" +:+ n |}.

Definition sample_repository : Repository := {|
  rp_db := sample_db;
  rp_calls := [(sample_ids "1", Second, Second); (sample_ids "2", 2 * Second, 2 * Second)] |}.

Definition sample_submission (id text : string) : Submission := {|
  sub_tenant := "t1"; sub_key := "key-1";
  sub_input := {| si_ConnectionID := "c1"; si_ConversationID := ""; si_Recipient := "+12025550100";
    si_LineID := ""; si_RouteMode := RouteModePhoneDefault; si_Text := text; si_MediaIDs := ["media-1"] |};
  sub_audit := None; sub_id := id; sub_now := Second |}.

Definition sample_message : OutboundMessage :=
  submitted_message "t1" "msg-1" Second (sub_input (sample_submission "msg-1" "hello")).

Definition sample_after : Repository := (do_submit sample_repository (sample_submission "msg-1" "hello")).1.

Lemma submit_idempotent_witness :
  do_submit sample_after (sample_submission "msg-2" "goodbye") =
    (sample_after, Err [ErrIdempotencyConflict]) /\
  (exists s3 m', do_submit sample_after (sample_submission "msg-2" "hello") = (s3, Ok m') /\ rp_db s3 = rp_db sample_after /\
     loadOutboundMessage (rp_db sample_after) "t1" "msg-1" = Ok m').
Proof.
  split.
  - refine (proj2 (submit_idempotent sample_repository sample_after (sample_submission "msg-1" "hello")
      (sample_submission "msg-2" "goodbye") sample_message [] _ eq_refl eq_refl _) _).
    + vm_compute. reflexivity.
    + vm_compute. reflexivity.
    + vm_compute. discriminate.
  - destruct (proj1 (submit_idempotent sample_repository sample_after (sample_submission "msg-1" "hello")
      (sample_submission "msg-2" "hello") sample_message [] ltac:(vm_compute; reflexivity) eq_refl eq_refl
      ltac:(vm_compute; reflexivity)) eq_refl) as [_ H].
    destruct (H eq_refl) as (s3 & m' & Hs & Hdb & Hl). exists s3, m'. split; [exact Hs|]. split; [exact Hdb|].
    exact Hl.
Defined.

Definition sample_command : CreateOutboundCommand := sub_command (sample_submission "msg-1" "hello").

Definition sample_created : Db * result CreateResult :=
  Repository_CreateOutbound sample_command (sample_ids "1") Second Second sample_db.

Lemma create_outbound_atomic_witness :
  exists key, queued_completely sample_db sample_created.1 sample_command (sample_ids "1") key Second /\
    message_media sample_created.1 !! ("t1", "msg-1") = Some [("media-1", 0)].
Proof.
  pose proof (create_outbound_atomic sample_command (sample_ids "1") Second Second sample_db
    sample_created.1 sample_created.2 (surjective_pairing sample_created)) as H.
  assert (Hr : sample_created.2 = Ok {| cr_Outcome := CreateInserted; cr_Message := sample_message |})
    by (vm_compute; reflexivity).
  rewrite Hr in H. cbn [cr_Outcome] in H. destruct H as (key & _ & _ & H). exists key. split; [exact H | vm_compute; reflexivity].
Defined.
