(* ===== verification/Dispatch.v ===== *)
(** * The dispatcher (internal/gateway/messaging/dispatch.go)

    [DispatchLane] as a process: the calls it makes on its store and its
    provider sender, in the order the code makes them, each with the
    continuation on the answer.  The renewal loop runs beside the send; the
    answers its ticks got are part of the answer of the send. *)

From S2P Require Import Prelude GoText Crypto Domain Messaging.

Record LaneKey := { lk_TenantID : string; lk_ConnectionID : string; lk_ConversationID : string }.

Record DispatchClaim := {
  dc_Message : OutboundMessage;
  dc_AttemptID : string;
  dc_OrderingKey : string;
  dc_OwnerID : string;
  dc_LaneToken : Z;
  dc_FencingToken : Z
}.

Record ProviderSendResult := { psr_Accepted : bool; psr_FailureReason : string; psr_ConversationID : string }.

Record ProviderSendCommand := { psc_Message : OutboundMessage; psc_FencingToken : Z }.

(** ** Calls and processes *)

Inductive DispatchCall : Type -> Type :=
| ClaimNext (lane : LaneKey) (owner : string) : DispatchCall (result (option DispatchClaim))
| BeginProviderIO (claim : DispatchClaim) (owner : string) : DispatchCall (result bool)
| SendOnce (claim : DispatchClaim) (command : ProviderSendCommand) (renewAs : string)
    : DispatchCall (ProviderSendResult * error * list (result bool))
| CompleteDispatch (claim : DispatchClaim) (states : list MessageState) (reason : string) : DispatchCall error
| ReleaseBeforeDispatch (claim : DispatchClaim) (reason : string) : DispatchCall error.

Definition proc (A : Type) : Type := prog DispatchCall A.

(** ** The code *)

Record Dispatcher := { dp_ownerID : string; dp_renew : Z }.

Definition NewDispatcher (ownerID : string) (renewInterval : Z) : result Dispatcher :=
  if (ownerID =s "") || (len ownerID >? 256) then Err [ErrInvalidCommand]
  else
    let renewInterval := if renewInterval =? 0 then 10 * Second else renewInterval in
    if (renewInterval <? Millisecond) || (renewInterval >? 15 * Second) then Err [ErrInvalidCommand]
    else Ok {| dp_ownerID := ownerID; dp_renew := renewInterval |}.

(** [renewProviderIO]: what the loop reports, from the answers of its ticks up
    to the moment the send returned and the loop was stopped. *)
Fixpoint renewProviderIO (ticks : list (result bool)) : error :=
  match ticks with
  | [] => []
  | Ok true :: rest => renewProviderIO rest
  | Ok false :: _ => [ErrDispatchFenceLost]
  | Err e :: _ => e
  end.

Definition set_conversation (m : OutboundMessage) (conversationID : string) : OutboundMessage := {|
  om_ID := om_ID m; om_TenantID := om_TenantID m; om_ConnectionID := om_ConnectionID m;
  om_ConversationID := conversationID; om_Recipient := om_Recipient m; om_LineID := om_LineID m;
  om_RouteMode := om_RouteMode m; om_Text := om_Text m; om_MediaIDs := om_MediaIDs m;
  om_ProviderTmpID := om_ProviderTmpID m; om_ProviderMessageID := om_ProviderMessageID m;
  om_Direction := om_Direction m; om_Transport := om_Transport m; om_Attachments := om_Attachments m;
  om_State := om_State m; om_CreatedAt := om_CreatedAt m |}.

Definition set_claim_conversation (claim : DispatchClaim) (conversationID : string) : DispatchClaim := {|
  dc_Message := set_conversation (dc_Message claim) conversationID; dc_AttemptID := dc_AttemptID claim;
  dc_OrderingKey := dc_OrderingKey claim; dc_OwnerID := dc_OwnerID claim;
  dc_LaneToken := dc_LaneToken claim; dc_FencingToken := dc_FencingToken claim |}.

(** The claim, states and reason the outcome of a send is completed with. *)
Definition outcome (claim : DispatchClaim) (result : ProviderSendResult) (sendErr renewErr : error)
    : DispatchClaim * list MessageState * string :=
  if negb (is_nil renewErr) then (claim, [MessageStateUncertain], "dispatch_fence_lost")
  else if negb (is_nil sendErr) then (claim, [MessageStateUncertain], "provider_io_ambiguous")
  else
    let claim := if psr_ConversationID result <>s ""
                 then set_claim_conversation claim (psr_ConversationID result) else claim in
    if psr_Accepted result
    then (claim, [MessageStateProviderAccepted; MessageStateAwaitingPhone], "")
    else if psr_FailureReason result <>s ""
    then (claim, [MessageStateFailed], psr_FailureReason result)
    else (claim, [MessageStateUncertain], "provider_response_ambiguous").

Definition DispatchLane (dispatcher : Dispatcher) (lane : LaneKey) : proc (bool * error) :=
  if (lk_TenantID lane =s "") || (lk_ConnectionID lane =s "") || (lk_ConversationID lane =s "")
  then Ret (false, [ErrInvalidRoute])
  else
    call! claimed := ClaimNext lane (dp_ownerID dispatcher) in
    match claimed with
    | Err e => Ret (false, e)
    | Ok None => Ret (false, [])
    | Ok (Some claim) =>
      call! owned := BeginProviderIO claim (dp_ownerID dispatcher) in
      match owned with
      | Ok true =>
        call! sent := SendOnce claim {| psc_Message := dc_Message claim;
                                        psc_FencingToken := dc_FencingToken claim |}
                        (dp_ownerID dispatcher) in
        let '(result, sendErr, ticks) := sent in
        let '(claim', states, reason) := outcome claim result sendErr (renewProviderIO ticks) in
        call! err := CompleteDispatch claim' states reason in Ret (true, err)
      | _ =>
        call! releaseErr := ReleaseBeforeDispatch claim "fence_lost" in
        match owned with
        | Err e => Ret (true, e)
        | Ok _ => if negb (is_nil releaseErr) then Ret (true, releaseErr)
                  else Ret (true, [ErrDispatchFenceLost])
        end
      end
    end.

(** ** The send is fenced and happens once *)

(** [fenced perm p]: in [p], a send for [claim] happens only when [perm] is
    [claim], that is directly after [BeginProviderIO] answered [true] for that very
    claim, carries the message of the claim, and uses the permission up. *)
Fixpoint fenced {A} (perm : option DispatchClaim) (p : proc A) : Prop :=
  match p with
  | Ret _ => True
  | Call c k =>
    match c in DispatchCall X return (X -> proc A) -> (X -> option DispatchClaim -> Prop) -> Prop with
    | BeginProviderIO claim owner => fun k rec =>
        forall r, rec r (match r with Ok true => Some claim | _ => None end)
    | SendOnce claim command _ => fun k rec =>
        perm = Some claim /\ psc_Message command = dc_Message claim /\ forall r, rec r None
    | ClaimNext _ _ => fun k rec => forall r, rec r None
    | CompleteDispatch _ _ _ => fun k rec => forall r, rec r None
    | ReleaseBeforeDispatch _ _ => fun k rec => forall r, rec r None
    end k (fun x perm' => fenced perm' (k x))
  end.

Lemma DispatchLane_fenced_lemma dispatcher lane : fenced None (DispatchLane dispatcher lane).
Proof.
  unfold DispatchLane. destruct (_ || _); [done|]. cbn. intros [[claim|]|e]; [|done..].
  cbn. intros [[|]|e]; cbn.
  - split; [done|]. split; [done|]. intros [[result sendErr] ticks].
    destruct (outcome claim result sendErr (renewProviderIO ticks)) as [[claim' states] reason]. done.
  - intros []; done.
  - intros _. done.
Qed.

(** Whatever the store and the provider answer, [DispatchLane] calls the
    provider only immediately after [BeginProviderIO] granted that very claim,
    and at most once per grant; and after a send the only thing left is one
    completion whose states never requeue the message: accepted by the relay
    (never carrier-sent) when the provider accepted it, failed when it gave a
    reason, and uncertain on every ambiguity. *)
Theorem DispatchLane_send_discipline (dispatcher : Dispatcher) (lane : LaneKey) :
  fenced None (DispatchLane dispatcher lane) /\
  forall claim result sendErr renewErr,
    let '(claim', states, reason) := outcome claim result sendErr renewErr in
    dc_AttemptID claim' = dc_AttemptID claim /\ om_ID (dc_Message claim') = om_ID (dc_Message claim) /\
    (states = [MessageStateUncertain] \/ states = [MessageStateFailed] \/
     states = [MessageStateProviderAccepted; MessageStateAwaitingPhone]) /\
    (states = [MessageStateProviderAccepted; MessageStateAwaitingPhone] <->
     renewErr = [] /\ sendErr = [] /\ psr_Accepted result = true) /\
    (states = [MessageStateFailed] ->
     renewErr = [] /\ sendErr = [] /\ psr_Accepted result = false /\ reason = psr_FailureReason result).
Proof.
  split; [apply DispatchLane_fenced_lemma|]. intros claim result sendErr renewErr. unfold outcome.
  destruct renewErr; [|simpl; split_and!; naive_solver].
  destruct sendErr; [|simpl; split_and!; naive_solver]. simpl.
  destruct (psr_ConversationID result =s ""), (psr_Accepted result) eqn:Ea,
    (psr_FailureReason result =s ""); simpl; split_and!; naive_solver.
Qed.
