(* ===== verification/DispatchStore.v ===== *)
(** * Dispatch in the store (internal/gateway/store/postgres/dispatch.go)

    Lanes, attempts and claims: one statement per operation, as in the SQL.  A
    statement's common table expressions all read the state before it. *)

From S2P Require Import Prelude GoText Crypto GoEncoding Domain Messaging Session EventContract Store Outbound Dispatch.

Definition claim_interval : Z := 30 * Second.

(** ** The recovery event body: [jsonb_build_object(...)::text] *)

Definition pg_escape_chunk (c : option Z * bytes) : bytes :=
  match c.1 with
  | None => c.2
  | Some r =>
    if r =? 34 then [byte_of_Z 92; byte_of_Z 34]
    else if r =? 92 then [byte_of_Z 92; byte_of_Z 92]
    else if r =? 8 then bytes_of "\b" else if r =? 12 then bytes_of "\f"
    else if r =? 10 then bytes_of "\n" else if r =? 13 then bytes_of "\r"
    else if r =? 9 then bytes_of "\t"
    else if r <? 32 then bytes_of "\u" ++ hex4 r
    else c.2
  end.

Definition pg_string (s : string) : bytes :=
  [byte_of_Z 34] ++ concat (pg_escape_chunk <$> chunks (bytes_of s)) ++ [byte_of_Z 34].

Fixpoint jsonb_members (members : list (string * bytes)) : bytes :=
  match members with
  | [] => []
  | [(k, v)] => pg_string k ++ bytes_of ": " ++ v
  | (k, v) :: rest => pg_string k ++ bytes_of ": " ++ v ++ bytes_of ", " ++ jsonb_members rest
  end.

(** [to_char(... 'YYYY-MM-DD"T"HH24:MI:SS.US"Z"')]. *)
Definition pg_utc_text (t : Z) : bytes :=
  let secs := t / Second in
  let '(year, month, day) := civil_of_days (secs / 86400) in
  let s := secs mod 86400 in
  pad 4 year ++ sep 45 ++ pad 2 month ++ sep 45 ++ pad 2 day ++ sep 84 ++
  pad 2 (s / 3600) ++ sep 58 ++ pad 2 (s / 60 mod 60) ++ sep 58 ++ pad 2 (s mod 60) ++
  sep 46 ++ pad 6 (t mod Second / 1000) ++ sep 90.

(** [jsonb] keeps its keys by length and then by bytes. *)
Definition recovery_body (t : tenant) (eventID messageID : string) (m : MessageRow) (now : Z) : bytes :=
  [byte_of_Z 123] ++ jsonb_members
    [("type", pg_string "message.uncertain"); ("state", pg_string "uncertain");
     ("status", pg_string "uncertain"); ("version", bytes_of "1"); ("event_id", pg_string eventID);
     ("direction", pg_string "outbound"); ("tenant_id", pg_string t);
     ("message_id", pg_string messageID);
     ("occurred_at", [byte_of_Z 34] ++ pg_utc_text now ++ [byte_of_Z 34]);
     ("connection_id", pg_string (ms_ConnectionID m));
     ("conversation_id", pg_string (ms_ConversationID m))] ++ [byte_of_Z 125].

(** ** Rows *)

Definition with_message_state (m : MessageRow) (state : MessageState) : MessageRow := {|
  ms_ConnectionID := ms_ConnectionID m; ms_ConversationID := ms_ConversationID m;
  ms_OrderingKey := ms_OrderingKey m; ms_Direction := ms_Direction m; ms_Recipient := ms_Recipient m;
  ms_LineID := ms_LineID m; ms_RouteMode := ms_RouteMode m; ms_Text := ms_Text m;
  ms_ProviderMessageID := ms_ProviderMessageID m; ms_ProviderTmpID := ms_ProviderTmpID m;
  ms_Transport := ms_Transport m; ms_State := state; ms_CreatedAt := ms_CreatedAt m |}.

Definition update_message_state (t : tenant) (messageID : string) (m : MessageRow) (state : MessageState)
    (db : Db) : Db :=
  set_messages (<[(t, messageID) := with_message_state m state]> (messages db)) db.

Definition finish_attempt (a : AttemptRow) (safeResult : string) (now : Z) : AttemptRow := {|
  at_MessageID := at_MessageID a; at_ConnectionID := at_ConnectionID a;
  at_OrderingKey := at_OrderingKey a; at_Owner := at_Owner a; at_LaneToken := at_LaneToken a;
  at_FencingToken := at_FencingToken a; at_Phase := Complete; at_SafeResult := safeResult;
  at_CreatedAt := at_CreatedAt a; at_ProviderIOStartedAt := at_ProviderIOStartedAt a;
  at_CompletedAt := Some now |}.

Definition start_attempt (a : AttemptRow) (now : Z) : AttemptRow := {|
  at_MessageID := at_MessageID a; at_ConnectionID := at_ConnectionID a;
  at_OrderingKey := at_OrderingKey a; at_Owner := at_Owner a; at_LaneToken := at_LaneToken a;
  at_FencingToken := at_FencingToken a; at_Phase := ProviderIOStarted; at_SafeResult := at_SafeResult a;
  at_CreatedAt := at_CreatedAt a; at_ProviderIOStartedAt := Some now;
  at_CompletedAt := at_CompletedAt a |}.

Definition put_attempt (t : tenant) (attemptID : string) (a : AttemptRow) (db : Db) : Db :=
  set_attempts (<[(t, attemptID) := a]> (attempts db)) db.

Definition put_lane (t : tenant) (c key : string) (l : LaneRow) (db : Db) : Db :=
  set_lanes (<[(t, c, key) := l]> (lanes db)) db.

Definition release_lane (l : LaneRow) : LaneRow :=
  {| ln_Token := ln_Token l; ln_Owner := None; ln_Claimed := None; ln_ExpiresAt := None |}.

(** ** Claiming *)

(** locked_lease of claimNextMessageSQL: any live lease of the owner. *)
Definition claim_lease (db : Db) (t : tenant) (c owner : string) (now : Z) : option Z :=
  if negb (has_connection db t c) then None
  else match leases db !! (t, c) with
  | Some l => if bool_decide (ls_Owner l = Some owner) && (ls_ExpiresAt l >? now)
              then Some (ls_Token l) else None
  | None => None
  end.

(** locked_lane: free, or its claim expired. *)
Definition lane_available (l : LaneRow) (now : Z) : bool :=
  bool_decide (ln_Owner l = None) ||
  match ln_ExpiresAt l with Some e => e <=? now | None => false end.

Definition open_phase (p : Phase) : bool := match p with Complete => false | _ => true end.

Definition claim_attempt_matches (t : tenant) (c key messageID : string) (token : Z)
    (p : (string * string) * AttemptRow) : bool :=
  (p.1.1 =s t) && (at_MessageID p.2 =s messageID) && (at_LaneToken p.2 =? token) &&
  (at_ConnectionID p.2 =s c) && (at_OrderingKey p.2 =s key) && open_phase (at_Phase p.2).

Definition newest_first (a b : (string * string) * AttemptRow) : Prop :=
  at_CreatedAt b.2 < at_CreatedAt a.2 \/
  at_CreatedAt b.2 = at_CreatedAt a.2 /\ String.le b.1.2 a.1.2.

#[export] Instance newest_first_dec a b : Decision (newest_first a b).
Proof. unfold newest_first. apply _. Defined.

(** locked_attempt: the open attempt that holds the lane. *)
Definition lane_attempt (db : Db) (t : tenant) (c key : string) (l : LaneRow)
    : option ((string * string) * AttemptRow) :=
  match ln_Claimed l with
  | None => None
  | Some messageID =>
    head (merge_sort newest_first
      (List.filter (claim_attempt_matches t c key messageID (ln_Token l)) (map_to_list (attempts db))))
  end.

Definition queue_order (a b : (string * string) * MessageRow) : Prop :=
  ms_CreatedAt a.2 < ms_CreatedAt b.2 \/
  ms_CreatedAt a.2 = ms_CreatedAt b.2 /\ String.le a.1.2 b.1.2.

#[export] Instance queue_order_dec a b : Decision (queue_order a b).
Proof. unfold queue_order. apply _. Defined.

Definition queued_in_lane (t : tenant) (c key : string) (p : (string * string) * MessageRow) : bool :=
  (p.1.1 =s t) && (ms_ConnectionID p.2 =s c) && (ms_OrderingKey p.2 =s key) &&
  bool_decide (ms_State p.2 = MessageStateQueued).

(** candidate: the oldest queued message of the lane. *)
Definition lane_candidate (db : Db) (t : tenant) (c key : string) : option ((string * string) * MessageRow) :=
  head (merge_sort queue_order (List.filter (queued_in_lane t c key) (map_to_list (messages db)))).

Record ClaimIDs := {
  cm_attempt : string;
  cm_status : string;
  cm_recoveryStatus : string;
  cm_recoveryEvent : string;
  cm_recoveryWebhook : string;
  cm_recoveryKafka : string
}.

(** recovered_message, recovered_attempt, recovery_status, recovery_event and
    recovery_outbox: the attempt a crashed holder left open is settled, back to
    the queue if the provider was not contacted, uncertain otherwise. *)
Definition recover_attempt (t : tenant) (attemptID : string) (a : AttemptRow) (ids : ClaimIDs) (now : Z)
    (db : Db) : result Db :=
  let messageID := at_MessageID a in
  match messages db !! (t, messageID) with
  | None => Ok db
  | Some m =>
    if negb (bool_decide (ms_State m = MessageStateDispatching)) then Ok db
    else
      let before := bool_decide (at_Phase a = Claimed) in
      let state := if before then MessageStateQueued else MessageStateUncertain in
      let reason := if before then "crash_before_provider_io" else "provider_io_ambiguous" in
      let db1 := update_message_state t messageID m state db in
      let db2 := put_attempt t attemptID (finish_attempt a reason now) db1 in
      let! db3 := insertMessageStatus t (cm_recoveryStatus ids) messageID state "" reason now db2 in
      if before then Ok db3
      else
        let! db4 := insertGatewayEvent t (cm_recoveryEvent ids) "message.uncertain" "message" messageID
                      (ms_ConnectionID m) (ms_ConversationID m)
                      (recovery_body t (cm_recoveryEvent ids) messageID m now) db3 in
        let! db5 := insert_outbox_row t (cm_recoveryWebhook ids) (cm_recoveryEvent ids) "webhook" now db4 in
        insert_outbox_row t (cm_recoveryKafka ids) (cm_recoveryEvent ids) "kafka" now db5
  end.

Definition claimed_message (t : tenant) (messageID : string) (m : MessageRow) (mediaIDs : list string)
    (providerTmpID : string) : OutboundMessage := {|
  om_ID := messageID; om_TenantID := t; om_ConnectionID := ms_ConnectionID m;
  om_ConversationID := ms_ConversationID m; om_Recipient := ms_Recipient m;
  om_LineID := default "" (ms_LineID m); om_RouteMode := ms_RouteMode m; om_Text := ms_Text m;
  om_MediaIDs := mediaIDs; om_ProviderTmpID := providerTmpID; om_ProviderMessageID := "";
  om_Direction := ""; om_Transport := ""; om_Attachments := [];
  om_State := MessageStateDispatching; om_CreatedAt := ms_CreatedAt m |}.

(** claimed_lane, updated_message, inserted_attempt and inserted_status. *)
Definition claim_candidate (t : tenant) (c key owner : string) (l : LaneRow) (fencingToken : Z)
    (messageID : string) (m : MessageRow) (ids : ClaimIDs) (now : Z) (db : Db)
    : result (Db * option DispatchClaim) :=
  let token := ln_Token l + 1 in
  let! _ := check_constraint (token <=? max_int64) in
  let db1 := put_lane t c key {| ln_Token := token; ln_Owner := Some owner; ln_Claimed := Some messageID;
                                 ln_ExpiresAt := Some (now + claim_interval) |} db in
  let db2 := update_message_state t messageID m MessageStateDispatching db1 in
  let! _ := check_constraint (fencingToken >? 0) in
  let! attempts' := insert_unique (attempts db2) (t, cm_attempt ids) {|
    at_MessageID := messageID; at_ConnectionID := c; at_OrderingKey := key; at_Owner := owner;
    at_LaneToken := token; at_FencingToken := fencingToken; at_Phase := Claimed; at_SafeResult := "";
    at_CreatedAt := now; at_ProviderIOStartedAt := None; at_CompletedAt := None |} in
  let db3 := set_attempts attempts' db2 in
  let! db4 := insertMessageStatus t (cm_status ids) messageID MessageStateDispatching "" "" now db3 in
  let! providerTmpID := scan_string (ms_ProviderTmpID m) in
  if (cm_attempt ids =s "") || (token =? 0) || (fencingToken =? 0)
  then Err [ErrText "invalid dispatch claim returned by database"]
  else Ok (db4, Some {|
    dc_Message := claimed_message t messageID m (media_of db t messageID) providerTmpID;
    dc_AttemptID := cm_attempt ids; dc_OrderingKey := key; dc_OwnerID := owner;
    dc_LaneToken := token; dc_FencingToken := fencingToken |}).

(** claimNextMessageSQL.  When the lane still names a message whose attempt is
    closed, released_stale_lane and claimed_lane address the same row; the
    invariant of the lanes below shows this does not happen. *)
Definition claim_transaction (t : tenant) (c key owner : string) (ids : ClaimIDs) (now : Z) (db : Db)
    : result (Db * option DispatchClaim) :=
  match claim_lease db t c owner now, lanes db !! (t, c, key) with
  | Some fencingToken, Some l =>
    if negb (lane_available l now) then Ok (db, None)
    else match lane_attempt db t c key l with
    | Some (attemptKey, a) =>
      let! db1 := recover_attempt t attemptKey.2 a ids now db in
      Ok (put_lane t c key (release_lane l) db1, None)
    | None =>
      match lane_candidate db t c key with
      | Some (messageKey, m) =>
        claim_candidate t c key owner l fencingToken messageKey.2 m ids now db
      | None =>
        match ln_Claimed l with
        | Some _ => Ok (put_lane t c key (release_lane l) db, None)
        | None => Ok (db, None)
        end
      end
    end
  | _, _ => Ok (db, None)
  end.

Definition Repository_ClaimNext (lane : LaneKey) (ownerID : string) (ids : ClaimIDs) (now : Z) (db : Db)
    : Db * result (option DispatchClaim) :=
  if (lk_TenantID lane =s "") || (lk_ConnectionID lane =s "") || (lk_ConversationID lane =s "") ||
     (ownerID =s "") || (len ownerID >? 256)
  then (db, Err [ErrInvalidRoute])
  else inTenant (lk_TenantID lane)
    (claim_transaction (lk_TenantID lane) (lk_ConnectionID lane) (lk_ConversationID lane) ownerID ids now) db.

(** ** Claims in the hands of their owner *)

Definition validDispatchClaim (claim : DispatchClaim) : bool :=
  (om_TenantID (dc_Message claim) <>s "") && (om_ConnectionID (dc_Message claim) <>s "") &&
  (om_ID (dc_Message claim) <>s "") && (dc_AttemptID claim <>s "") &&
  (dc_LaneToken claim >? 0) && (dc_FencingToken claim >? 0).

Definition dispatchOrderingKey (claim : DispatchClaim) : string :=
  if dc_OrderingKey claim <>s "" then dc_OrderingKey claim
  else if om_ConversationID (dc_Message claim) <>s "" then om_ConversationID (dc_Message claim)
  else if om_Recipient (dc_Message claim) <>s "" then "new:" +:+ om_Recipient (dc_Message claim)
  else "".

(** locked_lane: the lane is held by this owner for this message under this
    token; [live] adds the expiry check. *)
Definition lane_held (l : LaneRow) (owner messageID : string) (token : Z) : bool :=
  bool_decide (ln_Owner l = Some owner) && (ln_Token l =? token) &&
  bool_decide (ln_Claimed l = Some messageID).

Definition lane_live (l : LaneRow) (now : Z) : bool :=
  match ln_ExpiresAt l with Some e => e >? now | None => false end.

(** locked_attempt of the claim, in the given phase. *)
Definition attempt_held (a : AttemptRow) (owner messageID : string) (laneToken fencingToken : Z)
    (phase : Phase) : bool :=
  (at_MessageID a =s messageID) && (at_Owner a =s owner) && (at_LaneToken a =? laneToken) &&
  (at_FencingToken a =? fencingToken) && bool_decide (at_Phase a = phase).

Definition message_dispatching (db : Db) (t : tenant) (messageID : string) : option MessageRow :=
  match messages db !! (t, messageID) with
  | Some m => if bool_decide (ms_State m = MessageStateDispatching) then Some m else None
  | None => None
  end.

(** The rows a statement locks for a claim: lane, attempt and dispatching
    message, all held by [owner]. *)
Definition locked_claim (claim : DispatchClaim) (owner : string) (phase : Phase) (live : bool)
    (now : Z) (db : Db) : option (LaneRow * AttemptRow * MessageRow) :=
  let t := om_TenantID (dc_Message claim) in
  let c := om_ConnectionID (dc_Message claim) in
  let messageID := om_ID (dc_Message claim) in
  match lanes db !! (t, c, dispatchOrderingKey claim), attempts db !! (t, dc_AttemptID claim),
        message_dispatching db t messageID with
  | Some l, Some a, Some m =>
    if lane_held l owner messageID (dc_LaneToken claim) && (negb live || lane_live l now) &&
       attempt_held a owner messageID (dc_LaneToken claim) (dc_FencingToken claim) phase
    then Some (l, a, m) else None
  | _, _, _ => None
  end.

Definition claim_lease_owned (claim : DispatchClaim) (owner : string) (now : Z) (db : Db) : bool :=
  owned_lease db (om_TenantID (dc_Message claim)) (om_ConnectionID (dc_Message claim)) owner
    (dc_FencingToken claim) now.

Definition bad_claim (claim : DispatchClaim) (ownerID : string) : bool :=
  negb (validDispatchClaim claim) || (dispatchOrderingKey claim =s "") || (ownerID =s "") ||
  (len ownerID >? 256).

Definition Repository_BeginProviderIO (claim : DispatchClaim) (ownerID : string) (now : Z) (db : Db)
    : Db * result bool :=
  if bad_claim claim ownerID then (db, Err [ErrInvalidCommand])
  else
    let t := om_TenantID (dc_Message claim) in
    inTenant t (fun db =>
      if negb (claim_lease_owned claim ownerID now db) then Ok (db, false)
      else match locked_claim claim ownerID Claimed true now db with
      | Some (_, a, _) => Ok (put_attempt t (dc_AttemptID claim) (start_attempt a now) db, true)
      | None => Ok (db, false)
      end) db.

Definition Repository_RenewProviderIO (claim : DispatchClaim) (ownerID : string) (now : Z) (db : Db)
    : Db * result bool :=
  if bad_claim claim ownerID then (db, Err [ErrInvalidCommand])
  else
    let t := om_TenantID (dc_Message claim) in
    let c := om_ConnectionID (dc_Message claim) in
    inTenant t (fun db =>
      if negb (claim_lease_owned claim ownerID now db) then Ok (db, false)
      else match locked_claim claim ownerID ProviderIOStarted true now db with
      | Some (l, a, _) =>
        if (at_ConnectionID a =s c) && (at_OrderingKey a =s dispatchOrderingKey claim)
        then Ok (put_lane t c (dispatchOrderingKey claim)
                   {| ln_Token := ln_Token l; ln_Owner := ln_Owner l; ln_Claimed := ln_Claimed l;
                      ln_ExpiresAt := Some (now + claim_interval) |} db, true)
        else Ok (db, false)
      | None => Ok (db, false)
      end) db.

(** lockDispatchCompletionSQL checks the lease owner and token, not its expiry. *)
Definition completion_lease (claim : DispatchClaim) (db : Db) : bool :=
  let t := om_TenantID (dc_Message claim) in
  let c := om_ConnectionID (dc_Message claim) in
  has_connection db t c &&
  match leases db !! (t, c) with
  | Some l => bool_decide (ls_Owner l = Some (dc_OwnerID claim)) && (ls_Token l =? dc_FencingToken claim)
  | None => false
  end.

Record StatusIDs := { si_status : string; si_event : string; si_outbox : string }.

(** One iteration of the completion loop. *)
Definition append_dispatch_status (claim : DispatchClaim) (safeReason : string) (wall now : Z)
    (ids : StatusIDs) (state : MessageState) (db : Db) : result Db :=
  let message := dc_Message claim in
  let t := om_TenantID message in
  let eventType := "message." +:+ MessageState_text state in
  let! db1 := insertMessageStatus t (si_status ids) (om_ID message) state "gmessages" safeReason now db in
  let! body := outboundMessageEventBody (si_event ids) eventType message state wall wall in
  let! db2 := insertGatewayEvent t (si_event ids) eventType "message" (om_ID message)
                (om_ConnectionID message) (om_ConversationID message) body db1 in
  insertEventOutbox t (si_outbox ids) (si_event ids) now db2.

Fixpoint append_dispatch_statuses (claim : DispatchClaim) (safeReason : string) (wall now : Z)
    (ids : nat -> StatusIDs) (n : nat) (states : list MessageState) (db : Db) : result Db :=
  match states with
  | [] => Ok db
  | state :: rest =>
    let! db1 := append_dispatch_status claim safeReason wall now (ids n) state db in
    append_dispatch_statuses claim safeReason wall now ids (S n) rest db1
  end.

Definition completable (state : MessageState) : bool :=
  is_ok (MessageState_Validate state) && negb (bool_decide (state = MessageStateQueued)) &&
  negb (bool_decide (state = MessageStateDispatching)).

Definition complete_transaction (claim : DispatchClaim) (states : list MessageState) (safeReason : string)
    (ids : nat -> StatusIDs) (wall now : Z) (db : Db) : result (Db * unit) :=
  let t := om_TenantID (dc_Message claim) in
  let c := om_ConnectionID (dc_Message claim) in
  let messageID := om_ID (dc_Message claim) in
  if negb (completion_lease claim db) then Err [ErrDispatchFenceLost]
  else match locked_claim claim (dc_OwnerID claim) ProviderIOStarted false now db with
  | None => Err [ErrDispatchFenceLost]
  | Some (l, a, m) =>
    let finalState := DeriveMessageState (ms_State m :: states) in
    let! db1 := append_dispatch_statuses claim safeReason wall now ids 0 states db in
    let! _ := check_constraint (is_ok (MessageState_Validate finalState)) in
    let db2 := update_message_state t messageID m finalState db1 in
    let db3 := put_attempt t (dc_AttemptID claim) (finish_attempt a safeReason now) db2 in
    Ok (put_lane t c (dispatchOrderingKey claim) (release_lane l) db3, tt)
  end.

Definition Repository_CompleteDispatch (claim : DispatchClaim) (states : list MessageState)
    (safeReason : string) (ids : nat -> StatusIDs) (wall now : Z) (db : Db) : Db * result unit :=
  if bad_claim claim (dc_OwnerID claim) || is_nil states || (len safeReason >? 512)
  then (db, Err [ErrInvalidCommand])
  else if negb (forallb completable states) then (db, Err [ErrInvalidMessageState])
  else inTenant (om_TenantID (dc_Message claim))
         (complete_transaction claim states safeReason ids wall now) db.

Definition release_transaction (claim : DispatchClaim) (safeReason statusID : string) (now : Z) (db : Db)
    : result (Db * unit) :=
  let t := om_TenantID (dc_Message claim) in
  let c := om_ConnectionID (dc_Message claim) in
  let messageID := om_ID (dc_Message claim) in
  if negb (claim_lease_owned claim (dc_OwnerID claim) now db) then Err [ErrDispatchFenceLost]
  else match locked_claim claim (dc_OwnerID claim) Claimed true now db with
  | None => Err [ErrDispatchFenceLost]
  | Some (l, a, m) =>
    let db1 := put_attempt t (dc_AttemptID claim) (finish_attempt a safeReason now) db in
    let db2 := put_lane t c (dispatchOrderingKey claim) (release_lane l) db1 in
    let db3 := update_message_state t messageID m MessageStateQueued db2 in
    let! db4 := insertMessageStatus t statusID messageID MessageStateQueued "" safeReason now db3 in
    Ok (db4, tt)
  end.

Definition Repository_ReleaseBeforeDispatch (claim : DispatchClaim) (safeReason statusID : string) (now : Z)
    (db : Db) : Db * result unit :=
  if bad_claim claim (dc_OwnerID claim) || (len safeReason >? 512) then (db, Err [ErrInvalidCommand])
  else inTenant (om_TenantID (dc_Message claim)) (release_transaction claim safeReason statusID now) db.

(** ** Listing lanes with work *)

(** [GROUP BY connection_id, ordering_key] over the queued messages, in
    lexicographic order. *)
Definition lane_le (a b : string * string) : Prop :=
  a.1 <> b.1 /\ String.le a.1 b.1 \/ a.1 = b.1 /\ String.le a.2 b.2.

#[export] Instance lane_le_dec a b : Decision (lane_le a b).
Proof. unfold lane_le. apply _. Defined.

Definition queued_lanes (db : Db) (t : tenant) : list (string * string) :=
  merge_sort lane_le (remove_dups ((fun p => (ms_ConnectionID p.2, ms_OrderingKey p.2)) <$>
    List.filter (fun p => (p.1.1 =s t) && bool_decide (ms_State p.2 = MessageStateQueued))
      (map_to_list (messages db)))).

Fixpoint lane_keys (t : tenant) (rows : list (string * string)) : result (list LaneKey) :=
  match rows with
  | [] => Ok []
  | (c, key) :: rest =>
    if (c =s "") || (key =s "") then Err [ErrText "invalid dispatch lane returned by database"]
    else let! lanes := lane_keys t rest in
      Ok ({| lk_TenantID := t; lk_ConnectionID := c; lk_ConversationID := key |} :: lanes)
  end.

(** listQueuedDispatchLanesAfterSQL: the lanes after a cursor, at most [limit]. *)
Definition ListQueuedDispatchLanesAfter (tenantID : tenant) (after : LaneKey) (limit : Z) (db : Db)
    : Db * result (list LaneKey) :=
  if (tenantID =s "") || (limit <? 1) || (limit >? 256) ||
     ((lk_TenantID after <>s "") && (lk_TenantID after <>s tenantID))
  then (db, Err [ErrInvalidRoute])
  else inTenant tenantID (fun db =>
    let cursor := (lk_ConnectionID after, lk_ConversationID after) in
    let! lanes := lane_keys tenantID (take (Z.to_nat limit)
      (List.filter (fun p => (lk_ConnectionID after =s "") ||
                             (bool_decide (lane_le cursor p) && negb (bool_decide (p = cursor))))
        (queued_lanes db tenantID))) in
    Ok (db, lanes)) db.
