(* ===== verification/Rotation.v ===== *)
(** * A rotating cursor does not starve anyone

    A poll takes the first few entries after a cursor, or from the start when nothing is
    left after it, and moves the cursor to the last one it took. Entries come and go
    between polls. An entry that stays is reached within as many polls as there are
    entries at all. *)

From S2P Require Import Prelude.

Section Rotation.
Context {K : Type} `{EqDecision K}.
Variable le : K -> K -> Prop.
Context `{!RelDecision le, !PartialOrder le, !Total le}.

Definition past (c : option K) (x : K) : bool :=
  match c with None => true | Some c => bool_decide (le c x) && negb (bool_decide (x = c)) end.

(** The entries a cursor meets before it has served [target], going round. *)
Definition ahead (target : K) (c : option K) (x : K) : bool :=
  if past c target then past c x && bool_decide (le x target) else past c x || bool_decide (le x target).

Definition distance (all : list K) (target : K) (c : option K) : nat := length (List.filter (ahead target c) all).

(** One poll: the entries [page] were served from the live ones, and the cursor moved from
    [c] to [c']. The second listing of a poll may see other entries ([live']). *)
Definition polled (limit : nat) (live live' : list K) (c : option K) (page : list K) (c' : option K) : Prop :=
  let rest := List.filter (past c) live in
  (rest <> [] /\ page = take limit rest /\ (c' = last page \/ c' = None /\ page = rest)) \/
  (rest = [] /\ page = take limit live' /\ (c' = last page \/ c' = None /\ page = live')).

Lemma filter_start l : List.filter (past None) l = l.
Proof. induction l as [|x l IH]; cbn; [done | by rewrite IH]. Qed.

Lemma past_Some c x : past (Some c) x = true <-> le c x /\ x <> c.
Proof. cbn. rewrite andb_true_iff, negb_true_iff, bool_decide_eq_true, bool_decide_eq_false. done. Qed.

Lemma past_trans c x y : past c x = true -> past (Some x) y = true -> past c y = true.
Proof.
  destruct c as [c|]; [|done]. rewrite !past_Some. intros [H1 H2] [H3 H4]. split; [by etrans|]. intros ->. by apply H2, (anti_symm le).
Qed.

Lemma not_past c x : past (Some c) x = false -> le x c.
Proof.
  intros H. destruct (total le x c) as [?|Hle]; [done|]. destruct (decide (x = c)) as [->|Hne]; [reflexivity|].
  assert (past (Some c) x = true) by (by apply past_Some). congruence.
Qed.

Lemma past_irrefl x : past (Some x) x = false.
Proof. cbn. rewrite (bool_decide_eq_true_2 (x = x)) by done. by rewrite andb_false_r. Qed.

Lemma past_le x y z : past (Some x) y = true -> le z x -> past (Some z) y = true.
Proof.
  rewrite !past_Some. intros [H1 H2] H3. split; [by etrans|]. intros ->. by apply H2, (anti_symm le).
Qed.

(** Fewer entries are ahead when one of them no longer is. *)
Lemma filter_at_most (f g : K -> bool) (l : list K) :
  (forall x, f x = true -> g x = true) -> (length (List.filter f l) <= length (List.filter g l))%nat.
Proof.
  intros Hfg. induction l as [|x l IH]; cbn; [lia|]. destruct (f x) eqn:Ef; [rewrite (Hfg _ Ef); cbn; lia|]. destruct (g x); cbn; lia.
Qed.

Lemma filter_fewer (f g : K -> bool) (l : list K) (y : K) :
  (forall x, f x = true -> g x = true) -> y ∈ l -> g y = true -> f y = false ->
  (length (List.filter f l) < length (List.filter g l))%nat.
Proof.
  intros Hfg Hy Hg Hf. induction Hy as [z rest|z x rest Hy IH]; cbn.
  - rewrite Hf, Hg. cbn. pose proof (filter_at_most f g rest Hfg). lia.
  - specialize (IH Hg Hf). destruct (f x) eqn:Ef; [rewrite (Hfg _ Ef); cbn; lia|]. destruct (g x); cbn; lia.
Qed.

Lemma StronglySorted_list_filter (f : K -> bool) l : StronglySorted le l -> StronglySorted le (List.filter f l).
Proof.
  induction 1 as [|x l Hs IH Hx]; cbn; [constructor|]. destruct (f x); [|done]. constructor; [done|].
  rewrite Forall_forall in *. intros y Hy. apply Hx. apply list_elem_of_In in Hy. apply filter_In in Hy as [Hy _]. by apply list_elem_of_In.
Qed.

Lemma elem_of_list_filter_bool (f : K -> bool) l x : x ∈ List.filter f l <-> x ∈ l /\ f x = true.
Proof. rewrite !list_elem_of_In. apply filter_In. Qed.

(** An entry that a page of a sorted list leaves out comes after the whole page. *)
Lemma page_before limit l target y :
  StronglySorted le l -> target ∈ l -> target ∉ take limit l -> y ∈ take limit l -> past (Some y) target = true.
Proof.
  intros Hs Ht Hout Hy. apply past_Some. split; [|by intros ->].
  rewrite <- (take_drop limit l) in Hs, Ht. apply elem_of_app in Ht as [Ht|Ht]; [done|].
  by eapply StronglySorted_app_1_elem_of.
Qed.

Lemma last_page_elem limit (l : list K) : (1 <= limit)%nat -> l <> [] -> exists y, last (take limit l) = Some y /\ y ∈ take limit l.
Proof.
  intros Hl Hne. destruct (last (take limit l)) as [y|] eqn:E.
  - exists y. split; [done|]. apply last_Some in E as [l' ->]. set_solver.
  - apply last_None in E. destruct l; [done|]. destruct limit; [lia|]. done.
Qed.

Variables (all : list K) (target : K).
Hypothesis Htarget : target ∈ all.

Lemma distance_pos c : (1 <= distance all target c)%nat.
Proof.
  unfold distance. assert (target ∈ List.filter (ahead target c) all) as H.
  { apply elem_of_list_filter_bool. split; [done|]. unfold ahead. rewrite (bool_decide_eq_true_2 (le target target)) by reflexivity.
    destruct (past c target); [done | by rewrite orb_true_r]. }
  destruct (List.filter (ahead target c) all); [by apply elem_of_nil in H | cbn; lia].
Qed.

Lemma distance_le c : (distance all target c <= length all)%nat.
Proof. unfold distance. apply filter_length_le. Qed.

(** From a cursor before the target, a page without it ends before it. *)
Lemma advance_before c y : past c target = true -> past c y = true -> past (Some y) target = true -> y ∈ all ->
  (distance all target (Some y) < distance all target c)%nat.
Proof.
  intros Hc Hy Hyt Hall. assert (le y target) by (by apply past_Some in Hyt as [? _]).
  eapply (filter_fewer _ _ _ y); [|done|..]; unfold ahead; rewrite ?Hc, ?Hyt.
  - intros x [H1 H2]%andb_true_iff. rewrite H2, andb_true_r. by eapply past_trans.
  - by rewrite Hy, bool_decide_eq_true_2.
  - by rewrite past_irrefl.
Qed.

(** From a cursor after the target, a page moves on, and to the start from the end. *)
Lemma advance_after c y c' : past (Some c) target = false -> past (Some c) y = true -> y ∈ all -> c' = Some y \/ c' = None ->
  (distance all target c' < distance all target (Some c))%nat.
Proof.
  intros Hc Hy Hall Hc'. pose proof (not_past _ _ Hc) as Htc. assert (past (Some target) y = true) as Hty by (by eapply past_le).
  assert (bool_decide (le y target) = false) as Hyt.
  { apply bool_decide_eq_false. intros H. apply past_Some in Hty as [H1 H2]. by apply H2, (anti_symm le). }
  eapply (filter_fewer _ _ _ y); [|done|..]; unfold ahead; rewrite ?Hc.
  - destruct Hc' as [->| ->]; [|cbn [past andb]; intros x ->; apply orb_true_r].
    replace (past (Some y) target) with false.
    + intros x [H|H]%orb_true_iff; apply orb_true_iff; [left; by eapply past_trans | by right].
    + symmetry. apply not_true_iff_false. intros H. apply past_Some in H as [H1 _]. apply bool_decide_eq_false in Hyt.
      apply past_Some in Hty as [H2 H3]. by apply H3, (anti_symm le).
  - by rewrite Hy.
  - destruct Hc' as [->| ->]; [|done].
    replace (past (Some y) target) with false; [by rewrite past_irrefl, Hyt|].
    symmetry. apply not_true_iff_false. intros H. apply past_Some in H as [H1 _].
    apply past_Some in Hty as [H2 H3]. by apply H3, (anti_symm le).
Qed.

Lemma distance_wrap c : past (Some c) target = false -> (distance all target None <= distance all target (Some c))%nat.
Proof.
  intros Hc. apply filter_at_most. intros x. unfold ahead. rewrite Hc. cbn [past andb]. intros ->. apply orb_true_r.
Qed.

Theorem poll_progress limit live live' c page c' :
  (1 <= limit)%nat -> StronglySorted le live -> StronglySorted le live' -> target ∈ live -> target ∈ live' ->
  (forall x, x ∈ live -> x ∈ all) -> (forall x, x ∈ live' -> x ∈ all) ->
  polled limit live live' c page c' -> target ∉ page ->
  (distance all target c' < distance all target c)%nat.
Proof.
  intros Hlimit Hs Hs' Ht Ht' Ha Ha' Hp Hout. destruct Hp as [(Hne & -> & Hc')|(Hempty & -> & Hc')].
  - set (rest := List.filter (past c) live) in *.
    assert (forall x, x ∈ rest <-> x ∈ live /\ past c x = true) as Hrest by (intros; apply elem_of_list_filter_bool).
    assert (StronglySorted le rest) as Hsr by (by apply StronglySorted_list_filter).
    destruct (last_page_elem limit rest Hlimit Hne) as (y & Hlast & Hy).
    assert (y ∈ rest) as [Hyl Hyc]%Hrest by (rewrite <- (take_drop limit rest); set_solver).
    destruct (past c target) eqn:Hct.
    + assert (target ∈ rest) as Htr by (by apply Hrest).
      destruct Hc' as [->|[-> Hall]]; [|by rewrite Hall in Hout]. rewrite Hlast.
      apply advance_before; [done | done | by eapply page_before | by apply Ha].
    + destruct c as [c|]; [|done]. apply (advance_after c y); [done | done | by apply Ha |]. destruct Hc' as [->|[-> _]]; [left; congruence | by right].
  - assert (past c target = false) as Hct.
    { apply not_true_iff_false. intros H. assert (target ∈ List.filter (past c) live) as Hin by (by apply elem_of_list_filter_bool).
      rewrite Hempty in Hin. by apply elem_of_nil in Hin. }
    destruct c as [c|]; [|done]. destruct (last_page_elem limit live' Hlimit) as (y & Hlast & Hy); [by intros ->; apply elem_of_nil in Ht'|].
    destruct Hc' as [->|[-> Hall]]; [|by rewrite Hall in Hout]. rewrite Hlast.
    eapply Nat.lt_le_trans; [|by apply distance_wrap]. apply advance_before; [done | done | by eapply page_before |].
    apply Ha'. rewrite <- (take_drop limit live'). set_solver.
Qed.
End Rotation.
