(* ===== verification/Supervisor.v ===== *)
(** * The worker supervisor (internal/gateway/app/supervisor.go)

    The polling loops of a gateway process: one discovers the connections that need an
    actor, and every tenant has one that dispatches its queued lanes and, where
    configured, loops for media, backfill, webhooks and Kafka. A loop is a program of
    calls. Its cursors and counters belong to it alone (they are indexed by tenant and
    the connections of a tenant are handled by one loop), so they are passed along
    rather than shared. *)

From S2P Require Import Prelude GoText Domain Session Store Connections Pool Dispatch DispatchStore Rely.

(** ** Configuration *)

(** The numbers of [SupervisorConfig], and the tenants that have each kind of worker.
    [dependencies]: the collaborators that are always needed and every worker are given;
    [quarantine]: so is the one for backfill. *)
Record SupervisorConfig := {
  sc_Tenants : list string;
  sc_Media : list string;
  sc_Backfill : list string;
  sc_Webhooks : list string;
  sc_Kafka : list string;
  sc_PollInterval : Z;
  sc_ReadyTimeout : Z;
  sc_JoinTimeout : Z;
  sc_LaneLimit : Z;
  sc_DispatchConcurrency : Z;
  sc_FatalErrorThreshold : Z;
  sc_MediaLimit : Z;
  sc_BackfillLimit : Z;
  sc_ConnectionLimit : Z
}.

Definition or_default (value fallback : Z) : Z := if value =? 0 then fallback else value.

Definition with_defaults (config : SupervisorConfig) : SupervisorConfig := {|
  sc_Tenants := sc_Tenants config; sc_Media := sc_Media config; sc_Backfill := sc_Backfill config;
  sc_Webhooks := sc_Webhooks config; sc_Kafka := sc_Kafka config;
  sc_PollInterval := or_default (sc_PollInterval config) Second;
  sc_ReadyTimeout := or_default (sc_ReadyTimeout config) Second;
  sc_JoinTimeout := or_default (sc_JoinTimeout config) (10 * Second);
  sc_LaneLimit := or_default (sc_LaneLimit config) 64;
  sc_DispatchConcurrency := or_default (sc_DispatchConcurrency config) 8;
  sc_FatalErrorThreshold := or_default (sc_FatalErrorThreshold config) 5;
  sc_MediaLimit := or_default (sc_MediaLimit config) 16;
  sc_BackfillLimit := or_default (sc_BackfillLimit config) 16;
  sc_ConnectionLimit := or_default (sc_ConnectionLimit config) 64 |}.

Definition within (value low high : Z) : bool := negb ((value <? low) || (value >? high)).

Fixpoint distinct_tenants (tenants seen : list string) : bool :=
  match tenants with
  | [] => true
  | t :: rest => (t <>s "") && negb (bool_decide (t ∈ seen)) && distinct_tenants rest (t :: seen)
  end.

Definition NewSupervisor (dependencies quarantine : bool) (config : SupervisorConfig) : result SupervisorConfig :=
  let config := with_defaults config in
  let trusted := forallb (fun t => bool_decide (t ∈ sc_Tenants config)) in
  if is_nil (sc_Tenants config) || (blen (sc_Tenants config) >? 1024) || negb dependencies ||
     negb (within (sc_PollInterval config) (10 * Millisecond) Minute) ||
     negb (within (sc_ReadyTimeout config) Millisecond (10 * Second)) ||
     negb (within (sc_JoinTimeout config) (10 * Millisecond) Minute) ||
     negb (within (sc_LaneLimit config) 1 256) || negb (within (sc_DispatchConcurrency config) 1 64) ||
     negb (within (sc_FatalErrorThreshold config) 1 100) || negb (within (sc_MediaLimit config) 1 64) ||
     negb (within (sc_BackfillLimit config) 1 64) || negb (within (sc_ConnectionLimit config) 1 256)
  then Err [ErrInvalidSupervisor]
  else if negb (distinct_tenants (sc_Tenants config) []) ||
          negb (trusted (sc_Webhooks config) && trusted (sc_Kafka config)) || negb (trusted (sc_Media config)) ||
          negb (trusted (sc_Backfill config)) || (negb (is_nil (sc_Backfill config)) && negb quarantine)
  then Err [ErrInvalidSupervisor]
  else Ok config.

(** The loops [Run] launches, in order. *)
Inductive job :=
| JobDiscover | JobDispatch (t : string) | JobMedia (t : string) | JobBackfill (t : string) | JobWebhooks (t : string)
| JobKafka (t : string).

Definition tenant_jobs (config : SupervisorConfig) (t : string) : list job :=
  let has workers (j : job) := if bool_decide (t ∈ workers) then [j] else [] in
  JobDispatch t :: has (sc_Media config) (JobMedia t) ++ has (sc_Backfill config) (JobBackfill t) ++
  has (sc_Webhooks config) (JobWebhooks t) ++ has (sc_Kafka config) (JobKafka t).

Definition launched (config : SupervisorConfig) : list job :=
  JobDiscover :: (sc_Tenants config ≫= tenant_jobs config).

(** ** Calls *)

(** [Hand]: [queue <- lane], [false] when the context was done instead. [CtxErr]:
    [ctx.Err()]. [Fatal]: the send to [fatal] that does not wait. [Tick]: the select at
    the end of an iteration, [false] when the context is done. [AwaitEnd]: the select of
    [Run], with the fatal error if there is one. *)
Inductive SupCall : Type -> Type :=
| ListPage (t cursor : string) (limit : Z) : SupCall (result ConnectionPage)
| ListLanesAfter (t : string) (cursor : LaneKey) (limit : Z) : SupCall (result (list LaneKey))
| ListLanes (t : string) (limit : Z) : SupCall (result (list LaneKey))
| ActorStart (key : Key) : SupCall error
| ActorReady (key : Key) : SupCall bool
| ActorQuarantine (key : Key) : SupCall error
| ActorShutdown : SupCall error
| Hand (lane : LaneKey) : SupCall bool
| DispatchOne (lane : LaneKey) : SupCall (bool * error)
| RunOne (t : string) : SupCall (bool * error)
| RunConnection (key : Key) : SupCall (bool * error)
| RunBatch (j : job) : SupCall error
| QuarantineBackfill (key : Key) (reason : string) : SupCall error
| OnError (e : error) : SupCall unit
| Fatal (e : error) : SupCall unit
| CtxErr : SupCall error
| Tick : SupCall bool
| Launch (jobs : list job) : SupCall unit
| AwaitEnd : SupCall error
| StopWorkers : SupCall unit.

(** ** Discovery of actors *)

Definition connectionLocalActorError (err : error) : bool :=
  errors_Is err ErrStaleGeneration || errors_Is err ErrProviderUnavailable || errors_Is err ErrProviderTransient ||
  errors_Is err ErrProviderAuthorization || errors_Is err ErrProviderPermanentConfig ||
  errors_Is err ErrProviderPermanentProtocol || errors_Is err ErrProviderJoinTimeout.

Definition runnable (state : ConnectionState) : bool :=
  bool_decide (state = ConnectionStateConnected) || bool_decide (state = ConnectionStateDegraded).

Definition failure_count (failures : gmap Key Z) (key : Key) : Z := default 0 (failures !! key).

Section Loops.
Variable config : SupervisorConfig.

Definition recordActorInfrastructureFailure (key : Key) (failure : error) (failures : gmap Key Z) : prog SupCall (gmap Key Z) :=
  let count := failure_count failures key + 1 in
  let failures := <[key := count]> failures in
  if count <? sc_FatalErrorThreshold config then Ret failures
  else call! _ := Fatal failure in Ret failures.

(** A page from the cursor, from the start when there is nothing left after it. *)
Definition next_page (t cursor : string) (limit : Z) : prog SupCall (result ConnectionPage) :=
  call! page := ListPage t cursor limit in
  match page with
  | Ok p => if is_nil (pg_Records p) && (cursor <>s "") then call! page := ListPage t "" limit in Ret page else Ret page
  | Err e => Ret (Err e)
  end.

Fixpoint start_actors (t : string) (records : list ConnectionRecord) (failures : gmap Key Z) : prog SupCall (gmap Key Z * error) :=
  match records with
  | [] => Ret (failures, [])
  | record :: rest =>
    let connection := rec_Connection record in
    if (conn_TenantID connection <>s t) || (conn_ID connection =s "")
    then Ret (failures, [ErrText "connection source returned a cross-tenant connection"])
    else if negb (runnable (conn_State connection)) then start_actors t rest failures
    else
      let key := {| key_TenantID := t; key_ConnectionID := conn_ID connection |} in
      call! err := ActorStart key in
      if negb (is_nil err) && negb (errors_Is err ContextCanceled) then
        if connectionLocalActorError err then call! _ := OnError err in start_actors t rest failures
        else if errors_Is err ErrSharedInfrastructure then
          call! _ := OnError err in
          do! failures := recordActorInfrastructureFailure key err failures in start_actors t rest failures
        else Ret (failures, err)
      else start_actors t rest (delete key failures)
  end.

(** The state of the discovery loop: a cursor per tenant and the failures counted. *)
Record discovery := { ds_cursors : gmap string string; ds_failures : gmap Key Z }.

Fixpoint discover_tenants (tenants : list string) (st : discovery) : prog SupCall (discovery * error) :=
  match tenants with
  | [] => Ret (st, [])
  | t :: rest =>
    do! page := next_page t (default "" (ds_cursors st !! t)) (sc_ConnectionLimit config) in
    match page with
    | Err e => Ret (st, e)
    | Ok page =>
      let cursors := <[t := pg_NextCursor page]> (ds_cursors st) in
      do! r := start_actors t (pg_Records page) (ds_failures st) in
      let st := {| ds_cursors := cursors; ds_failures := r.1 |} in
      if is_nil r.2 then discover_tenants rest st else Ret (st, r.2)
    end
  end.

Definition discoverActors (st : discovery) : prog SupCall (discovery * error) := discover_tenants (sc_Tenants config) st.

(** ** Dispatch *)

Definition lane_key (lane : LaneKey) : Key := {| key_TenantID := lk_TenantID lane; key_ConnectionID := lk_ConnectionID lane |}.

Definition dispatchLane (lane : LaneKey) : prog SupCall error :=
  call! err := ActorStart (lane_key lane) in
  if negb (is_nil err) then
    if connectionLocalActorError err then call! _ := OnError err in Ret [] else Ret err
  else
    call! ready := ActorReady (lane_key lane) in
    if negb ready then Ret []
    else call! r := DispatchOne lane in Ret r.2.

(** The lanes are handed to [dispatchConcurrency] goroutines, which share nothing but
    the channel of errors: here each lane is dispatched when it is handed out. [None]:
    the context was done while lanes were left. *)
Fixpoint hand_out (lanes : list LaneKey) (found : error) : prog SupCall (option error) :=
  match lanes with
  | [] => Ret (Some found)
  | lane :: rest =>
    call! handed := Hand lane in
    if negb handed then Ret None
    else
      do! err := dispatchLane lane in
      if is_nil err then hand_out rest found
      else call! ctxErr := CtxErr in hand_out rest (if is_nil ctxErr then errors_Join [found; err] else found)
  end.

Definition empty_lane : LaneKey := {| lk_TenantID := ""; lk_ConnectionID := ""; lk_ConversationID := "" |}.

(** The lanes of one poll and the cursor for the next. *)
Definition next_lanes (t : string) (cursor : LaneKey) : prog SupCall (result (list LaneKey)) :=
  call! lanes := ListLanesAfter t cursor (sc_LaneLimit config) in
  match lanes with
  | Ok [] => if lk_ConnectionID cursor <>s "" then call! lanes := ListLanesAfter t empty_lane (sc_LaneLimit config) in Ret lanes
             else Ret lanes
  | _ => Ret lanes
  end.

Definition next_cursor (cursor : LaneKey) (lanes : result (list LaneKey)) : LaneKey :=
  match lanes with Ok lanes => default cursor (last lanes) | Err _ => cursor end.

Definition foreign_lane (t : string) (lane : LaneKey) : bool :=
  (lk_TenantID lane <>s t) || (lk_ConnectionID lane =s "") || (lk_ConversationID lane =s "").

(** [paged]: the source of lanes takes a cursor, as the repository does. *)
Definition dispatch (paged : bool) (t : string) (cursor : LaneKey) : prog SupCall (LaneKey * error) :=
  do! lanes := if paged then next_lanes t cursor
               else call! lanes := ListLanes t (sc_LaneLimit config) in Ret lanes in
  let cursor := if paged then next_cursor cursor lanes else cursor in
  match lanes with
  | Err e => Ret (cursor, e)
  | Ok lanes =>
    if existsb (foreign_lane t) lanes then Ret (cursor, [ErrText "lane source returned a cross-tenant lane"])
    else if is_nil lanes then Ret (cursor, [])
    else
      do! r := hand_out lanes [] in
      match r with
      | Some found => Ret (cursor, found)
      | None => call! ctxErr := CtxErr in Ret (cursor, ctxErr)
      end
  end.

(** ** Media *)

Fixpoint drain (t : string) (count : nat) : prog SupCall error :=
  match count with
  | O => Ret []
  | S count =>
    call! r := RunOne t in
    if negb (is_nil r.2) || negb r.1 then Ret r.2 else drain t count
  end.

Definition drainMedia (t : string) : prog SupCall error := drain t (Z.to_nat (sc_MediaLimit config)).

(** ** Backfill *)

Record backfill := { bf_cursor : string; bf_failures : gmap Key Z; bf_quarantined : gset Key }.

Definition with_failures (failures : gmap Key Z) (st : backfill) : backfill := {|
  bf_cursor := bf_cursor st; bf_failures := failures; bf_quarantined := bf_quarantined st |}.

Definition recordBackfillResult (key : Key) (itemErr : error) (st : backfill) : prog SupCall (backfill * error) :=
  if is_nil itemErr then Ret (with_failures (delete key (bf_failures st)) st, [])
  else if bool_decide (key ∈ bf_quarantined st) then Ret (st, [])
  else if errors_Is itemErr ErrStaleGeneration then Ret (with_failures (delete key (bf_failures st)) st, [])
  else
    let permanent := errors_Is itemErr ErrBackfillPoisoned || errors_Is itemErr ErrProviderPermanentProtocol in
    let count := if permanent then sc_FatalErrorThreshold config else failure_count (bf_failures st) key + 1 in
    let st := with_failures (<[key := count]> (bf_failures st)) st in
    if count <? sc_FatalErrorThreshold config then Ret (st, [])
    else if errors_Is itemErr ErrSharedInfrastructure then call! _ := Fatal itemErr in Ret (st, [])
    else
      call! err := QuarantineBackfill key "provider-protocol" in
      if negb (is_nil err) then Ret (st, err)
      else
        call! actorErr := ActorQuarantine key in
        Ret ({| bf_cursor := bf_cursor st; bf_failures := delete key (bf_failures st);
                bf_quarantined := {[key]} ∪ bf_quarantined st |}, actorErr).

(** [None]: a connection of another tenant. *)
Fixpoint eligible (t : string) (records : list ConnectionRecord) : option (list Key) :=
  match records with
  | [] => Some []
  | record :: rest =>
    let connection := rec_Connection record in
    if (conn_TenantID connection <>s t) || (conn_ID connection =s "") then None
    else
      keys ← eligible t rest;
      Some (if runnable (conn_State connection)
            then {| key_TenantID := t; key_ConnectionID := conn_ID connection |} :: keys else keys)
  end.

Fixpoint backfill_keys (keys : list Key) (st : backfill) (failures : error) : prog SupCall (backfill * error) :=
  match keys with
  | [] => Ret (st, failures)
  | key :: rest =>
    if bool_decide (key ∈ bf_quarantined st) then backfill_keys rest st failures
    else
      call! startErr := ActorStart key in
      if negb (is_nil startErr) then
        call! ctxErr := CtxErr in
        if is_nil ctxErr then
          call! _ := OnError startErr in
          do! r := recordBackfillResult key startErr st in backfill_keys rest r.1 (errors_Join [failures; r.2])
        else backfill_keys rest st failures
      else
        call! ready := ActorReady key in
        if negb ready then backfill_keys rest st failures
        else
          call! item := RunConnection key in
          if is_nil item.2 then do! r := recordBackfillResult key [] st in backfill_keys rest r.1 failures
          else
            call! ctxErr := CtxErr in
            if is_nil ctxErr then
              call! _ := OnError item.2 in
              do! r := recordBackfillResult key item.2 st in backfill_keys rest r.1 (errors_Join [failures; r.2])
            else backfill_keys rest st failures
  end.

Definition runBackfill (t : string) (st : backfill) : prog SupCall (backfill * error) :=
  do! page := next_page t (bf_cursor st) (sc_BackfillLimit config) in
  match page with
  | Err e => Ret (st, e)
  | Ok page =>
    let st := {| bf_cursor := pg_NextCursor page; bf_failures := bf_failures st; bf_quarantined := bf_quarantined st |} in
    match eligible t (pg_Records page) with
    | None => Ret (st, [ErrText "connection source returned a cross-tenant connection"])
    | Some keys => backfill_keys keys st []
    end
  end.

(** ** Loops *)

(** A loop over the state [S] of its work; [None] when it is cut after [fuel]
    iterations, and otherwise whether it ended because of too many failures. *)
Fixpoint runLoop {S} (work : S -> prog SupCall (S * error)) (fuel : nat) (consecutiveFailures : Z) (st : S) : prog SupCall (option bool) :=
  match fuel with
  | O => Ret None
  | Datatypes.S fuel =>
    let next (consecutiveFailures : Z) (st : S) : prog SupCall (option bool) :=
      call! go := Tick in if negb go then Ret (Some false) else runLoop work fuel consecutiveFailures st in
    do! r := work st in
    if is_nil r.2 then next 0 r.1
    else
      call! ctxErr := CtxErr in
      if negb (is_nil ctxErr) then next 0 r.1
      else
        call! _ := OnError r.2 in
        if consecutiveFailures + 1 >=? sc_FatalErrorThreshold config then call! _ := Fatal r.2 in Ret (Some true)
        else next (consecutiveFailures + 1) r.1
  end.

Definition Supervisor_Run : prog SupCall error :=
  call! _ := Launch (launched config) in
  call! fatalErr := AwaitEnd in
  call! _ := StopWorkers in
  call! err := ActorShutdown in
  Ret (if is_nil err then fatalErr else errors_Join [fatalErr; err]).
End Loops.
