(* ===== verification/SupervisorGuarantees.v ===== *)
(** * What the supervisor guarantees

    Nobody is starved by the polling loops: a lane that stays queued is dispatched, and a
    connection that stays runnable gets its actor started, within as many polls as there
    are lanes or connections. A connection that was taken out of backfill stays out. *)

From S2P Require Import Prelude GoText Domain Session Store Connections Pool Dispatch DispatchStore Rely Rotation Supervisor.

Inductive SupEvent :=
| EvPage (t cursor : string) (limit : Z) (page : result ConnectionPage)
| EvLanes (t : string) (cursor : LaneKey) (limit : Z) (lanes : result (list LaneKey))
| EvStart (key : Key) (err : error)
| EvHand (lane : LaneKey) (handed : bool)
| EvReady (key : Key) (ready : bool)
| EvDispatch (lane : LaneKey) (outcome : bool * error)
| EvBackfill (key : Key) (err : error)
| EvQuarantine (key : Key) (err : error)
| EvFatal (err : error)
| EvOther.

Definition sup_log (X : Type) (c : SupCall X) : X -> SupEvent :=
  match c in SupCall X return X -> SupEvent with
  | ListPage t cursor limit => EvPage t cursor limit
  | ListLanesAfter t cursor limit => EvLanes t cursor limit
  | ActorStart key => EvStart key
  | Hand lane => EvHand lane
  | ActorReady key => EvReady key
  | DispatchOne lane => EvDispatch lane
  | RunConnection key => fun x => EvBackfill key x.2
  | QuarantineBackfill key _ => EvQuarantine key
  | Fatal err => fun _ => EvFatal err
  | _ => fun _ => EvOther
  end.

Abbreviation runs := (executes sup_log).

(** ** The order of lanes *)

#[export] Instance lane_le_rel_dec : RelDecision lane_le := lane_le_dec.

#[export] Instance lane_le_po : PartialOrder lane_le.
Proof.
  split; [split|].
  - intros [a b]. right. split; [done | reflexivity].
  - intros [a1 b1] [a2 b2] [a3 b3] [[H1 H2]|[H1 H2]] [[H3 H4]|[H3 H4]]; cbn in *; subst.
    + left. cbn. split; [|by etrans]. intros ->. by apply H1, (anti_symm String.le).
    + left. done.
    + left. done.
    + right. split; [done | by etrans].
  - intros [a1 b1] [a2 b2] [[H1 H2]|[H1 H2]] [[H3 H4]|[H3 H4]]; cbn in *; subst; try done.
    + by destruct H1; apply (anti_symm String.le).
    + f_equal. by apply (anti_symm String.le).
Qed.

#[export] Instance lane_le_total : Total lane_le.
Proof.
  intros [a1 b1] [a2 b2]. unfold lane_le. cbn. destruct (decide (a1 = a2)) as [->|Hne].
  - destruct (total String.le b1 b2); [left | right]; right; done.
  - destruct (total String.le a1 a2); [left | right]; left; done.
Qed.

Lemma queued_lanes_sorted db t : StronglySorted lane_le (queued_lanes db t).
Proof. apply StronglySorted_merge_sort; apply _. Qed.

(** ** Lanes *)

(** The cursor as the position of a rotation. *)
Definition lane_position (cursor : LaneKey) : option (string * string) :=
  if lk_ConnectionID cursor =s "" then None else Some (lk_ConnectionID cursor, lk_ConversationID cursor).

Definition to_lane (t : string) (p : string * string) : LaneKey := {| lk_TenantID := t; lk_ConnectionID := p.1; lk_ConversationID := p.2 |}.

Definition named (p : string * string) : Prop := p.1 <> "" /\ p.2 <> "".

Lemma lane_keys_named t rows : Forall named rows -> lane_keys t rows = Ok (to_lane t <$> rows).
Proof.
  induction 1 as [|[c key] rows [Hc Hk] _ IH]; [done|]. cbn in *. apply String.eqb_neq in Hc, Hk. rewrite Hc, Hk. cbn. by rewrite IH.
Qed.

Lemma lane_filter cursor l :
  List.filter (fun p => (lk_ConnectionID cursor =s "") ||
    (bool_decide (lane_le (lk_ConnectionID cursor, lk_ConversationID cursor) p) &&
     negb (bool_decide (p = (lk_ConnectionID cursor, lk_ConversationID cursor))))) l =
  List.filter (past lane_le (lane_position cursor)) l.
Proof. unfold lane_position. apply filter_ext. intros p. destruct (lk_ConnectionID cursor =s ""); [done|]. done. Qed.

(** What happens to a lane that is handed out: its connection's actor is started; once
    it is started and ready the lane's next message is dispatched, and only the actor's
    failure to start or to become ready stands in the way. *)
Inductive handed_out (lane : LaneKey) : list SupEvent -> Prop :=
| handed_unstarted err : err <> [] -> handed_out lane [EvHand lane true; EvStart (lane_key lane) err]
| handed_unready : handed_out lane [EvHand lane true; EvStart (lane_key lane) []; EvReady (lane_key lane) false]
| handed_dispatched outcome :
    handed_out lane [EvHand lane true; EvStart (lane_key lane) []; EvReady (lane_key lane) true; EvDispatch lane outcome].

Definition lane_served (lane : LaneKey) (tr : list SupEvent) : Prop :=
  exists before attempt after, tr = before ++ attempt ++ after /\ handed_out lane attempt.

Lemma lane_served_app lane t1 t2 : lane_served lane t2 -> lane_served lane (t1 ++ t2).
Proof. intros (b & a & c & -> & H). exists (t1 ++ b), a, c. by rewrite <- app_assoc. Qed.

Lemma lane_served_app_l lane t1 t2 : lane_served lane t1 -> lane_served lane (t1 ++ t2).
Proof. intros (b & a & c & -> & H). exists b, a, (c ++ t2). by rewrite <- !app_assoc. Qed.

Lemma dispatchLane_served lane tr err : runs (dispatchLane lane) tr err -> lane_served lane (EvHand lane true :: tr).
Proof.
  intros (e & t1 & -> & Hrun). destruct (is_nil e) eqn:He; cbn [negb] in Hrun.
  - apply is_nil_true in He as ->. destruct Hrun as ([] & t2 & -> & Hrun); cbn [negb] in Hrun.
    + destruct Hrun as (outcome & t3 & -> & _). exists []. do 2 eexists. split; [|apply (handed_dispatched lane outcome)]. done.
    + exists []. do 2 eexists. split; [|apply handed_unready]. done.
  - exists []. do 2 eexists. split; [|apply (handed_unstarted lane e)]; [done|]. by intros ->.
Qed.

(** A connection whose actor was up whenever it was asked for. *)
Definition actor_up (key : Key) (ev : SupEvent) : Prop :=
  match ev with
  | EvStart key' err => key' = key -> err = []
  | EvReady key' ready => key' = key -> ready = true
  | _ => True
  end.

Lemma served_dispatched lane tr :
  lane_served lane tr -> Forall (actor_up (lane_key lane)) tr -> exists outcome, EvDispatch lane outcome ∈ tr.
Proof.
  intros (b & a & c & -> & H) Hup. rewrite Forall_forall in Hup.
  assert (forall ev, ev ∈ a -> ev ∈ b ++ a ++ c) as Hin by set_solver. destruct H as [err Hne| |outcome].
  - destruct Hne. apply (Hup (EvStart (lane_key lane) err)); [apply Hin; set_solver | done].
  - assert (false = true) as [=]. apply (Hup (EvReady (lane_key lane) false)); [apply Hin; set_solver | done].
  - exists outcome. apply Hin. set_solver.
Qed.

Section Lanes.
Variables (config : SupervisorConfig) (t : string) (target : string * string) (all : list (string * string)).
Hypothesis Ht : t <> "".
Hypothesis Hlimit : 1 <= sc_LaneLimit config <= 256.
Hypothesis Hnamed : Forall named all.

Definition lane_limit := Z.to_nat (sc_LaneLimit config).

(** The database as the listings see it: the target is queued, and so may be any of the
    others, whatever else has changed. *)
Definition lanes_live (db : Db) : Prop :=
  target ∈ queued_lanes db t /\ forall p, p ∈ queued_lanes db t -> p ∈ all.

(** What a poll met: listings of such databases, and a context that is not done. *)
Definition lanes_served (ev : SupEvent) : Prop :=
  match ev with
  | EvLanes t' cursor limit lanes => exists db, lanes_live db /\ lanes = (ListQueuedDispatchLanesAfter t' cursor limit db).2
  | EvHand _ handed => handed = true
  | _ => True
  end.

Lemma list_lanes cursor db :
  lk_TenantID cursor = "" \/ lk_TenantID cursor = t -> lanes_live db ->
  (ListQueuedDispatchLanesAfter t cursor (sc_LaneLimit config) db).2 =
    Ok (to_lane t <$> take lane_limit (List.filter (past lane_le (lane_position cursor)) (queued_lanes db t))).
Proof.
  intros Hc [_ Hall]. unfold ListQueuedDispatchLanesAfter. apply String.eqb_neq in Ht as Ht'. rewrite Ht'.
  replace (sc_LaneLimit config <? 1) with false by (symmetry; apply Z.ltb_ge; lia).
  replace (sc_LaneLimit config >? 256) with false by (symmetry; rewrite Z.gtb_ltb; apply Z.ltb_ge; lia).
  replace ((lk_TenantID cursor <>s "") && (lk_TenantID cursor <>s t)) with false
    by (destruct Hc as [->| ->]; [done | by rewrite (String.eqb_refl t), andb_false_r]).
  cbn. unfold inTenant. rewrite Ht'. rewrite lane_filter, lane_keys_named; [done|].
  apply Forall_forall. intros p Hp. rewrite Forall_forall in Hnamed. apply Hnamed, Hall.
  eapply elem_of_list_filter_bool. rewrite <- (take_drop lane_limit). apply elem_of_app. left. exact Hp.
Qed.

Lemma lane_position_to_lane p : named p -> lane_position (to_lane t p) = Some p.
Proof. intros [Hc _]. unfold lane_position. cbn. apply String.eqb_neq in Hc. rewrite Hc. by destruct p. Qed.

Definition own_cursor (cursor : LaneKey) : Prop := lk_TenantID cursor = "" \/ lk_TenantID cursor = t.

(** What one poll lists. *)
Lemma next_lanes_polled cursor tr lanes :
  own_cursor cursor -> runs (next_lanes config t cursor) tr lanes -> Forall lanes_served tr ->
  exists db db' page, lanes_live db /\ lanes_live db' /\ lanes = Ok (to_lane t <$> page) /\
    polled lane_le lane_limit (queued_lanes db t) (queued_lanes db' t) (lane_position cursor) page (last page).
Proof.
  intros Hc (x & tr' & -> & Hrun) Hserved. apply Forall_cons in Hserved as [(db & Hdb & ->) Hserved]. rewrite list_lanes in Hrun by done.
  set (rest := List.filter _ (queued_lanes db t)) in Hrun. destruct (decide (rest = [])) as [Hempty|Hne].
  - rewrite Hempty, take_nil in Hrun. cbn in Hrun. assert (lk_ConnectionID cursor <>s "" = true) as Hcur.
    { destruct (lk_ConnectionID cursor =s "") eqn:E; [|done]. unfold rest, lane_position in Hempty. rewrite E in Hempty.
      assert (target ∈ List.filter (past lane_le None) (queued_lanes db t)) as H by (apply elem_of_list_filter_bool; split; [apply Hdb | done]).
      rewrite Hempty in H. by apply elem_of_nil in H. }
    rewrite Hcur in Hrun. destruct Hrun as (x & tr2 & -> & -> & ->). apply Forall_cons in Hserved as [(db' & Hdb' & ->) _].
    exists db, db', (take lane_limit (queued_lanes db' t)). split; [done|]. split; [done|]. rewrite list_lanes by (done || by left).
    change (lane_position empty_lane) with (@None (string * string)). rewrite filter_start. split; [done | right; auto].
  - assert (take lane_limit rest <> []) as Hpage.
    { destruct rest; [done|]. unfold lane_limit. destruct (Z.to_nat (sc_LaneLimit config)) eqn:E; [lia | done]. }
    exists db, db, (take lane_limit rest). split; [done|]. split; [done|]. split; [|left; auto].
    destruct (take lane_limit rest) as [|p page] eqn:Ep; [done|]. cbn in Hrun. by destruct Hrun as [-> ->].
Qed.

(** Every lane that was listed is taken up. *)
Lemma hand_out_all lanes found tr r :
  runs (hand_out lanes found) tr r -> Forall lanes_served tr -> forall lane, lane ∈ lanes -> lane_served lane tr.
Proof.
  revert found tr. induction lanes as [|lane lanes IH]; intros found tr Hrun Hserved lane' Hin; [by apply elem_of_nil in Hin|].
  destruct Hrun as (handed & tr' & -> & Hrun). apply Forall_cons in Hserved as [Hh Hserved]. cbn in Hh. subst handed. cbn [negb] in Hrun.
  apply executes_bind in Hrun as (t1 & t2 & err & -> & Hd & Hrun). apply Forall_app in Hserved as [_ Hserved].
  apply elem_of_cons in Hin as [->|Hin].
  - apply (lane_served_app_l _ (_ :: t1)). by eapply dispatchLane_served.
  - apply (lane_served_app _ [_]), lane_served_app. destruct (is_nil err); [by eapply IH|].
    destruct Hrun as (ctxErr & t3 & -> & Hrun). apply Forall_cons in Hserved as [_ Hserved]. apply (lane_served_app _ [_]). by eapply IH.
Qed.

Lemma polled_in_all db db' c page :
  lanes_live db -> lanes_live db' -> polled lane_le lane_limit (queued_lanes db t) (queued_lanes db' t) c page (last page) ->
  Forall named page /\ exists p, last page = Some p.
Proof.
  intros [Hin Hall] [Hin' Hall'] Hp. assert (1 <= lane_limit)%nat as Hl by (unfold lane_limit; lia).
  assert (exists l, l <> [] /\ page = take lane_limit l /\ forall p, p ∈ l -> p ∈ all) as (l & Hne & -> & Hl').
  { destruct Hp as [(Hne & -> & _)|(_ & -> & _)]; eexists; (split; [|split; [done|]]).
    - done.
    - intros p [H _]%elem_of_list_filter_bool. by apply Hall.
    - intros E. rewrite E in Hin'. by apply elem_of_nil in Hin'.
    - done. }
  split; [|destruct (last_page_elem lane_le lane_limit l Hl Hne) as (y & -> & _); by exists y].
  apply Forall_forall. intros p Hp'. rewrite Forall_forall in Hnamed. apply Hnamed, Hl'. rewrite <- (take_drop lane_limit l). set_solver.
Qed.

Lemma dispatch_polled cursor tr cursor' err :
  own_cursor cursor -> runs (dispatch config true t cursor) tr (cursor', err) -> Forall lanes_served tr ->
  own_cursor cursor' /\ exists db db' page, lanes_live db /\ lanes_live db' /\
    polled lane_le lane_limit (queued_lanes db t) (queued_lanes db' t) (lane_position cursor) page (lane_position cursor') /\
    forall p, p ∈ page -> lane_served (to_lane t p) tr.
Proof.
  intros Hc Hrun Hserved. unfold dispatch in Hrun. apply executes_bind in Hrun as (t1 & t2 & lanes & -> & Hl & Hrun).
  apply Forall_app in Hserved as [Hs1 Hs2]. destruct (next_lanes_polled _ _ _ Hc Hl Hs1) as (db & db' & page & Hdb & Hdb' & -> & Hp).
  destruct (polled_in_all _ _ _ _ Hdb Hdb' Hp) as [Hpage (p & Hlast)].
  assert (next_cursor cursor (Ok (to_lane t <$> page)) = to_lane t p) as Hnext by (cbn; rewrite fmap_last, Hlast; done).
  rewrite Hnext in Hrun. assert (cursor' = to_lane t p /\ forall q, q ∈ page -> lane_served (to_lane t q) t2) as [-> Hall].
  { replace (existsb (foreign_lane t) (to_lane t <$> page)) with false in Hrun.
    2:{ symmetry. clear -Hpage. induction Hpage as [|[c k] page [H1 H2] _ IH]; [done|]. cbn in *. apply String.eqb_neq in H1, H2.
        unfold foreign_lane at 1. cbn. by rewrite String.eqb_refl, H1, H2. }
    replace (is_nil (to_lane t <$> page)) with false in Hrun by (by destruct page).
    apply executes_bind in Hrun as (t3 & t4 & r & -> & Hh & Hrun). apply Forall_app in Hs2 as [Hs3 _]. split.
    - destruct r; cbn in Hrun; [by destruct Hrun as [_ [= -> _]] | by destruct Hrun as (? & ? & _ & _ & [= -> _])].
    - intros q Hq. apply lane_served_app_l, (hand_out_all _ _ _ _ Hh Hs3). by apply list_elem_of_fmap_2. }
  split; [by right|]. exists db, db', page. split; [done|]. split; [done|].
  rewrite lane_position_to_lane by (rewrite Forall_forall in Hpage; apply Hpage; apply last_Some in Hlast as [l ->]; set_solver).
  rewrite <- Hlast. split; [done|]. intros q Hq. apply lane_served_app. auto.
Qed.

(** Consecutive polls of the dispatch loop of a tenant. *)
Inductive lane_polls : LaneKey -> list (list SupEvent) -> Prop :=
| lane_polls_nil cursor : lane_polls cursor []
| lane_polls_cons cursor tr cursor' err trs :
    runs (dispatch config true t cursor) tr (cursor', err) -> lane_polls cursor' trs -> lane_polls cursor (tr :: trs).

Lemma lane_reached cursor trs :
  target ∈ all -> own_cursor cursor -> lane_polls cursor trs -> Forall (Forall lanes_served) trs ->
  (distance lane_le all target (lane_position cursor) <= length trs)%nat ->
  exists tr, tr ∈ trs /\ lane_served (to_lane t target) tr.
Proof.
  intros Hin Hc Hp. induction Hp as [cursor|cursor tr cursor' err trs Hrun Hp IH]; intros Hserved Hd.
  - pose proof (distance_pos lane_le all target Hin (lane_position cursor)). cbn in Hd. lia.
  - apply Forall_cons in Hserved as [Hs Hserved].
    destruct (dispatch_polled _ _ _ _ Hc Hrun Hs) as (Hc' & db & db' & page & Hdb & Hdb' & Hpoll & Hall).
    destruct (decide (target ∈ page)) as [Hpage|Hpage]; [exists tr; split; [apply list_elem_of_here | by apply Hall]|].
    assert (distance lane_le all target (lane_position cursor') < distance lane_le all target (lane_position cursor))%nat.
    { eapply (poll_progress lane_le all target Hin lane_limit); [unfold lane_limit; lia | apply queued_lanes_sorted | apply queued_lanes_sorted
        | apply Hdb | apply Hdb' | apply Hdb | apply Hdb' | done | done]. }
    destruct IH as (tr' & Htr & Hl); [done | done | cbn in Hd; lia |]. exists tr'. split; [by apply list_elem_of_further | done].
Qed.
End Lanes.

(** ** Configurations *)

Lemma within_true v low high : within v low high = true <-> low <= v <= high.
Proof. unfold within. rewrite negb_true_iff, orb_false_iff, Z.ltb_ge, Z.gtb_ltb, Z.ltb_ge. lia. Qed.

Lemma distinct_tenants_spec tenants seen :
  distinct_tenants tenants seen = true -> NoDup tenants /\ Forall (fun t => t <> "" /\ t ∉ seen) tenants.
Proof.
  revert seen. induction tenants as [|t tenants IH]; intros seen H; cbn in H; [split; constructor|].
  apply andb_true_iff in H as [[H1 H2]%andb_true_iff H3]. apply negb_true_iff in H1, H2. apply String.eqb_neq in H1. reflect_bools.
  destruct (IH _ H3) as [Hnd Hall]. split.
  - constructor; [|done]. intros Hin. rewrite Forall_forall in Hall. destruct (Hall _ Hin) as [_ Hn]. set_solver.
  - constructor; [done|]. eapply Forall_impl; [exact Hall|]. intros t' [? ?]. split; [done | set_solver].
Qed.

Lemma NewSupervisor_ok dependencies quarantine config0 config :
  NewSupervisor dependencies quarantine config0 = Ok config ->
  NoDup (sc_Tenants config) /\ Forall (fun t => t <> "") (sc_Tenants config) /\
  1 <= sc_LaneLimit config <= 256 /\ 1 <= sc_ConnectionLimit config <= 256 /\
  1 <= sc_BackfillLimit config <= 64 /\ 1 <= sc_FatalErrorThreshold config <= 100.
Proof.
  unfold NewSupervisor. intros H. cbv zeta in H.
  match type of H with (if ?b then _ else _) = _ => destruct b eqn:E1; [done|] end.
  match type of H with (if ?b then _ else _) = _ => destruct b eqn:E2; [done|] end. injection H as <-.
  repeat match goal with E : _ || _ = false |- _ => apply orb_false_iff in E as [? ?] end.
  repeat match goal with E : negb _ = false |- _ => apply negb_false_iff in E end.
  match goal with E : distinct_tenants _ _ = true |- _ => apply distinct_tenants_spec in E as [Hnd Hall] end.
  repeat match goal with E : within _ _ _ = true |- _ => apply within_true in E end.
  split; [done|]. split; [eapply Forall_impl; [exact Hall|]; by intros t [? _] | tauto].
Qed.

(** C26. No lane is starved. A tenant's dispatch loop, polling with its rotating cursor
    and any limit a configuration admits, takes up every lane that stays queued within as
    many polls as there are lanes of the tenant, however the other lanes come and go
    between and during the polls, and whatever dispatching a lane returns: the lane is
    handed out, its connection's actor is started and, once that is ready, the lane's
    next message is dispatched; only the actor not starting or not becoming ready leaves
    the message where it is. So the lane of a connection whose actor is up is
    dispatched. *)
Theorem queued_lane_dispatched dependencies quarantine config0 config t target all cursor trs :
  NewSupervisor dependencies quarantine config0 = Ok config -> t ∈ sc_Tenants config ->
  target ∈ all -> Forall named all -> own_cursor t cursor ->
  lane_polls config t cursor trs -> Forall (Forall (lanes_served t target all)) trs ->
  (length all <= length trs)%nat ->
  exists tr, tr ∈ trs /\ lane_served (to_lane t target) tr /\
    (Forall (actor_up (lane_key (to_lane t target))) tr -> exists outcome, EvDispatch (to_lane t target) outcome ∈ tr).
Proof.
  intros Hnew Ht Hin Hnamed Hc Hp Hs Hlen. destruct (NewSupervisor_ok _ _ _ _ Hnew) as (_ & Hne & Hlimit & _).
  rewrite Forall_forall in Hne. edestruct (lane_reached config t target all) as (tr & Htr & Hserved);
    [by apply Hne | done | done | done | done | done | done | etrans; [apply distance_le | done] |].
  exists tr. split; [done|]. split; [done | by apply served_dispatched].
Qed.

(** ** Connections *)

#[export] Instance row_le_transitive : Transitive row_le.
Proof. intros a b c. unfold row_le. apply transitivity. Qed.

#[export] Instance row_le_total : Total row_le.
Proof. intros a b. unfold row_le. apply total, _. Qed.

Lemma connection_rows_elem db t id row : (id, row) ∈ connection_rows db t <-> connections db !! (t, id) = Some row.
Proof.
  unfold connection_rows. rewrite merge_sort_Permutation, list_elem_of_fmap. split.
  - intros ([[t' id'] row'] & [= -> ->] & H). apply list_elem_of_In, filter_In in H as [H E]. cbn in E. apply String.eqb_eq in E as ->.
    by apply list_elem_of_In, elem_of_map_to_list in H.
  - intros H. exists ((t, id), row). split; [done|]. apply list_elem_of_In, filter_In. cbn. rewrite String.eqb_refl. split; [|done].
    by apply list_elem_of_In, elem_of_map_to_list.
Qed.

Definition ids (db : Db) (t : string) : list string := (connection_rows db t).*1.

Lemma ids_sorted db t : StronglySorted String.le (ids db t).
Proof.
  unfold ids. assert (StronglySorted row_le (connection_rows db t)) as H by (apply StronglySorted_merge_sort; apply _).
  induction H as [|r rows _ IH Hr]; cbn; [constructor|]. constructor; [done|]. by apply Forall_fmap.
Qed.

(** The constraints of the table that the listing relies on. *)
Definition rows_good (db : Db) : Prop :=
  forall t id row, connections db !! (t, id) = Some row -> id <> "" /\ len id <= 256 /\ is_ok (ConnectionState_Validate (cn_State row)) = true.

Definition position (cursor : string) : option string := if cursor =s "" then None else Some cursor.

(** The rows after a cursor. *)
Definition rows_after (db : Db) (t cursor : string) : list (string * ConnectionRow) :=
  List.filter (fun r => past String.le (position cursor) r.1) (connection_rows db t).

Lemma rows_after_ids db t cursor : (rows_after db t cursor).*1 = List.filter (past String.le (position cursor)) (ids db t).
Proof.
  unfold rows_after, ids. induction (connection_rows db t) as [|r rows IH]; cbn; [done|].
  destruct (past String.le (position cursor) r.1); cbn; [by rewrite IH | done].
Qed.

Lemma ids_all db t : ids db t = (rows_after db t "").*1.
Proof. rewrite rows_after_ids. change (position "") with (@None string). by rewrite filter_start. Qed.

Lemma rows_after_elem db t cursor r : r ∈ rows_after db t cursor -> connections db !! (t, r.1) = Some r.2.
Proof. destruct r as [id row]. intros [H _]%list_elem_of_In%filter_In. by apply connection_rows_elem, list_elem_of_In. Qed.

Definition record_of (t : string) (r : string * ConnectionRow) : ConnectionRecord := connection_record t r.1 r.2.

Lemma scan_page_good db t rows :
  rows_good db -> (forall r, r ∈ rows -> connections db !! (t, r.1) = Some r.2) -> scan_page t rows = Ok (record_of t <$> rows).
Proof.
  intros Hg. induction rows as [|[id row] rows IH]; intros Hin; [done|]. cbn.
  destruct (Hg t id row) as (H1 & _ & H2); [by apply (Hin (id, row)), list_elem_of_here|]. apply String.eqb_neq in H1. rewrite H1, H2. cbn.
  rewrite IH; [done|]. intros r Hr. by apply Hin, list_elem_of_further.
Qed.

Lemma list_page db t cursor limit :
  t <> "" -> len cursor <= 256 -> 1 <= limit <= 256 -> rows_good db ->
  let rest := rows_after db t cursor in let page := take (Z.to_nat limit) rest in
  (ListConnectionsPage t cursor limit db).2 =
    Ok {| pg_Records := record_of t <$> page;
          pg_NextCursor := if (Z.to_nat limit <? length rest)%nat then default "" (fst <$> last page) else "" |}.
Proof.
  intros Ht Hlen Hlimit Hg rest page. unfold ListConnectionsPage. apply String.eqb_neq in Ht. rewrite Ht.
  replace (len cursor >? 256) with false by (symmetry; rewrite Z.gtb_ltb; apply Z.ltb_ge; lia).
  replace (limit <? 1) with false by (symmetry; apply Z.ltb_ge; lia).
  replace (limit >? 256) with false by (symmetry; rewrite Z.gtb_ltb; apply Z.ltb_ge; lia). cbn -[Nat.ltb]. unfold inTenant. rewrite Ht.
  replace (List.filter _ (connection_rows db t)) with rest.
  2:{ unfold rest, rows_after. apply filter_ext_in. intros [id row] Hin%list_elem_of_In%connection_rows_elem. cbn.
      destruct (Hg _ _ _ Hin) as [Hid _]. unfold position. destruct (cursor =s "") eqn:E.
      - apply String.eqb_eq in E as ->. destruct id; [done|]. done.
      - cbn. f_equal; [|f_equal; apply Bool.eq_iff_eq_true; rewrite bool_decide_eq_true, String.eqb_eq; done].
        apply Bool.eq_iff_eq_true. rewrite bool_decide_eq_true. unfold String.le. by rewrite Is_true_true. }
  rewrite (scan_page_good db); [|done|].
  2:{ intros r Hr. apply (rows_after_elem db t cursor). fold rest. rewrite <- (take_drop (Z.to_nat (limit + 1)) rest). set_solver. }
  cbn -[Nat.ltb]. unfold blen. rewrite length_fmap, length_take.
  destruct (Nat.ltb_spec (Z.to_nat limit) (length rest)) as [Hlt|Hge].
  - replace (Z.of_nat _ >? limit) with true by (symmetry; rewrite Z.gtb_ltb; apply Z.ltb_lt; lia). cbn.
    rewrite <- fmap_take, take_take. replace (Z.to_nat limit `min` Z.to_nat (limit + 1))%nat with (Z.to_nat limit) by lia. fold page.
    do 2 f_equal. rewrite fmap_last. destruct (last page) as [[id row]|]; reflexivity.
  - replace (Z.of_nat _ >? limit) with false by (symmetry; rewrite Z.gtb_ltb; apply Z.ltb_ge; lia). cbn.
    unfold page. rewrite !take_ge by lia. done.
Qed.

(** Where a page leaves the cursor. *)
Definition next_after (limit : nat) (rest : list (string * ConnectionRow)) : string :=
  if (limit <? length rest)%nat then default "" (fst <$> last (take limit rest)) else "".

Lemma next_after_spec db t cursor limit :
  rows_good db -> let rest := rows_after db t cursor in let page := take limit rest in
  len (next_after limit rest) <= 256 /\
  (position (next_after limit rest) = last page.*1 \/ position (next_after limit rest) = None /\ page.*1 = rest.*1).
Proof.
  intros Hg rest page. unfold next_after. destruct (Nat.ltb_spec limit (length rest)) as [Hlt|Hge].
  - rewrite fmap_last. fold page. destruct (last page) as [[id row]|] eqn:E; cbn; [|split; [unfold len; cbn; lia | by left]].
    assert (connections db !! (t, id) = Some row) as Hrow.
    { apply (rows_after_elem db t cursor (id, row)). fold rest. rewrite <- (take_drop limit rest). fold page. apply last_Some in E as [l ->]. set_solver. }
    destruct (Hg _ _ _ Hrow) as (Hne & Hlen & _). split; [done|]. left. unfold position. apply String.eqb_neq in Hne. by rewrite Hne.
  - split; [unfold len; cbn; lia|]. right. unfold page. by rewrite take_ge.
Qed.

Lemma record_nil t limit rest : (1 <= limit)%nat -> is_nil (record_of t <$> take limit rest) = is_nil rest.
Proof. intros H. destruct limit; [lia|]. by destruct rest. Qed.

Section Discovery.
Variables (config : SupervisorConfig) (target_tenant target : string) (all : list string).
Hypothesis Hlimit : 1 <= sc_ConnectionLimit config <= 256.

Definition page_limit := Z.to_nat (sc_ConnectionLimit config).

(** The database as the listings see it: the target is runnable. *)
Definition connections_live (db : Db) : Prop :=
  rows_good db /\ (exists row, connections db !! (target_tenant, target) = Some row /\ runnable (cn_State row) = true) /\
  forall id, id ∈ ids db target_tenant -> id ∈ all.

(** An actor that starts, or does not for a reason of its own connection or of the shared
    infrastructure. *)
Definition ordinary (err : error) : bool :=
  is_nil err || errors_Is err ContextCanceled || connectionLocalActorError err || errors_Is err ErrSharedInfrastructure.

Definition discovery_served (ev : SupEvent) : Prop :=
  match ev with
  | EvPage t cursor limit page => exists db, connections_live db /\ page = (ListConnectionsPage t cursor limit db).2
  | EvStart _ err => ordinary err = true
  | _ => True
  end.

Lemma live_target db : connections_live db -> target ∈ ids db target_tenant.
Proof.
  intros (_ & (row & Hrow & _) & _). unfold ids. apply list_elem_of_fmap. exists (target, row). split; [done|]. by apply connection_rows_elem.
Qed.

(** The rows of a page and the cursor it leaves. *)
Lemma next_page_rows t cursor tr page :
  t <> "" -> len cursor <= 256 -> runs (next_page t cursor (sc_ConnectionLimit config)) tr page -> Forall discovery_served tr ->
  exists db db' from rows next, connections_live db /\ connections_live db' /\ (from = db \/ from = db') /\
    page = Ok {| pg_Records := record_of t <$> rows; pg_NextCursor := next |} /\ len next <= 256 /\
    (forall r, r ∈ rows -> connections from !! (t, r.1) = Some r.2) /\
    (t = target_tenant -> polled String.le page_limit (ids db t) (ids db' t) (position cursor) rows.*1 (position next)).
Proof.
  intros Ht Hlen (x & tr' & -> & Hrun) Hs. apply Forall_cons in Hs as [(db & Hdb & ->) Hs]. pose proof Hdb as [Hg _].
  rewrite list_page in Hrun by done. set (rest := rows_after db t cursor) in Hrun. fold page_limit in Hrun. cbn [pg_Records] in Hrun.
  rewrite record_nil in Hrun by (unfold page_limit; lia). fold (next_after page_limit rest) in Hrun.
  destruct (next_after_spec db t cursor page_limit Hg) as [Hn1 Hn2]. fold rest in Hn1, Hn2.
  assert (forall rows db0 c, rows = take page_limit (rows_after db0 t c) -> forall r, r ∈ rows -> connections db0 !! (t, r.1) = Some r.2) as Hrows.
  { intros rows db0 c -> r Hr. apply (rows_after_elem db0 t c). rewrite <- (take_drop page_limit (rows_after db0 t c)). set_solver. }
  destruct (is_nil rest && (cursor <>s "")) eqn:E.
  - apply andb_true_iff in E as [Enil%is_nil_true _]. destruct Hrun as (x & tr2 & -> & -> & ->).
    apply Forall_cons in Hs as [(db' & Hdb' & ->) _]. pose proof Hdb' as [Hg' _]. rewrite list_page by (done || unfold len; cbn; lia).
    fold page_limit. fold (next_after page_limit (rows_after db' t "")). destruct (next_after_spec db' t "" page_limit Hg') as [Hm1 Hm2].
    eexists db, db', db', _, _. split; [done|]. split; [done|]. split; [by right|]. split; [done|]. split; [done|]. split; [by eapply Hrows|].
    intros ->. right. unfold rest in Enil. rewrite <- rows_after_ids, Enil. split; [done|].
    rewrite (ids_all db'), <- fmap_take. split; [done | exact Hm2].
  - destruct Hrun as [-> ->]. eexists db, db, db, _, _. split; [done|]. split; [done|]. split; [by left|]. split; [done|]. split; [done|].
    split; [by eapply Hrows|]. intros ->. left. rewrite <- rows_after_ids, <- fmap_take. fold rest. split; [|split; [done | exact Hn2]].
    apply andb_false_iff in E as [E%is_nil_false|E]; [by destruct rest|]. apply negb_false_iff, String.eqb_eq in E. subst cursor.
    intros Hempty. pose proof (live_target db Hdb) as Hin. rewrite ids_all in Hin. fold rest in Hin. rewrite Hempty in Hin.
    by apply elem_of_nil in Hin.
Qed.

Definition target_key : Key := {| key_TenantID := target_tenant; key_ConnectionID := target |}.

Definition own_record (t : string) (r : ConnectionRecord) : Prop :=
  conn_TenantID (rec_Connection r) = t /\ conn_ID (rec_Connection r) <> "".

Definition started_in (key : Key) (tr : list SupEvent) : Prop := exists err, EvStart key err ∈ tr.

Lemma started_app key t1 t2 : started_in key t1 \/ started_in key t2 -> started_in key (t1 ++ t2).
Proof. intros [[e H]|[e H]]; exists e; apply elem_of_app; auto. Qed.

(** Every runnable connection of a page is started. *)
Lemma start_actors_all t records failures tr r :
  runs (start_actors config t records failures) tr r -> Forall discovery_served tr -> Forall (own_record t) records ->
  r.2 = [] /\ forall record, record ∈ records -> runnable (conn_State (rec_Connection record)) = true ->
    started_in {| key_TenantID := t; key_ConnectionID := conn_ID (rec_Connection record) |} tr.
Proof.
  revert failures tr. induction records as [|record records IH]; intros failures tr Hrun Hs Hown; cbn [start_actors] in Hrun.
  - destruct Hrun as [-> ->]. split; [done|]. intros r' H. by apply elem_of_nil in H.
  - apply Forall_cons in Hown as [[Ht Hid] Hown]. rewrite Ht, String.eqb_refl in Hrun. apply String.eqb_neq in Hid. rewrite Hid in Hrun. cbn [orb negb] in Hrun.
    assert (forall f t1 t2, tr = t1 ++ t2 -> runs (start_actors config t records f) t2 r -> r.2 = [] /\
      forall r', r' ∈ records -> runnable (conn_State (rec_Connection r')) = true ->
        started_in {| key_TenantID := t; key_ConnectionID := conn_ID (rec_Connection r') |} tr) as Hrest.
    { intros f t1 t2 -> H. apply Forall_app in Hs as [_ Hs2]. destruct (IH _ _ H Hs2 Hown) as [? Hall]. split; [done|].
      intros r' H1 H2. apply started_app. right. auto. }
    destruct (runnable (conn_State (rec_Connection record))) eqn:Erun; cbn [negb] in Hrun.
    2:{ destruct (Hrest failures [] tr eq_refl Hrun) as [? Hall]. split; [done|]. intros r' [->|Hr']%elem_of_cons H2; [congruence | auto]. }
    destruct Hrun as (err & tr' & -> & Hrun). pose proof Hs as [Hord _]%Forall_cons. cbn in Hord.
    assert (exists f t1 t2, tr' = t1 ++ t2 /\ runs (start_actors config t records f) t2 r) as (f & t1 & t2 & -> & Hrun').
    { unfold ordinary in Hord. destruct (negb (is_nil err) && negb (errors_Is err ContextCanceled)) eqn:E; [|by eexists _, [], tr'].
      apply andb_true_iff in E as [E1%negb_true_iff E2%negb_true_iff]. rewrite E1, E2 in Hord. cbn in Hord.
      destruct (connectionLocalActorError err).
      - destruct Hrun as (x & t2 & -> & Hrun). by eexists _, [_], t2.
      - cbn in Hord. rewrite Hord in Hrun. destruct Hrun as (x & t2 & -> & Hrun). apply executes_bind in Hrun as (t3 & t4 & f & -> & _ & Hrun).
        by exists f, (EvOther :: t3), t4. }
    destruct (Hrest f (EvStart {| key_TenantID := t; key_ConnectionID := conn_ID (rec_Connection record) |} err :: t1) t2 eq_refl Hrun') as [? Hall].
    split; [done|]. intros r' [->|Hr']%elem_of_cons H2; [exists err; apply list_elem_of_here | by apply Hall].
Qed.

Definition cursors_ok (st : discovery) : Prop := forall t c, ds_cursors st !! t = Some c -> len c <= 256.

Definition cursor_of (st : discovery) (t : string) : string := default "" (ds_cursors st !! t).

Lemma cursor_of_len st t : cursors_ok st -> len (cursor_of st t) <= 256.
Proof. intros H. unfold cursor_of. destruct (ds_cursors st !! t) eqn:E; cbn; [by eapply H | unfold len; cbn; lia]. Qed.

(** A turn of the target's tenant. *)
Definition turned (st st' : discovery) (tr : list SupEvent) : Prop :=
  exists db db' page, connections_live db /\ connections_live db' /\
    polled String.le page_limit (ids db target_tenant) (ids db' target_tenant) (position (cursor_of st target_tenant)) page
      (position (cursor_of st' target_tenant)) /\
    (target ∈ page -> started_in target_key tr).

Lemma discover_tenants_turned tenants st tr st' err :
  NoDup tenants -> Forall (fun t => t <> "") tenants -> cursors_ok st ->
  runs (discover_tenants config tenants st) tr (st', err) -> Forall discovery_served tr ->
  err = [] /\ cursors_ok st' /\ (forall t, t ∉ tenants -> ds_cursors st' !! t = ds_cursors st !! t) /\
  (target_tenant ∈ tenants -> turned st st' tr).
Proof.
  revert st tr. induction tenants as [|t tenants IH]; intros st tr Hnd Hne Hc Hrun Hs; cbn [discover_tenants] in Hrun.
  - destruct Hrun as [_ [= -> ->]]. split; [done|]. split; [done|]. split; [done|]. intros H. by apply elem_of_nil in H.
  - apply NoDup_cons in Hnd as [Hni Hnd]. apply Forall_cons in Hne as [Ht Hne].
    apply executes_bind in Hrun as (t1 & t2 & page & -> & Hpage & Hrun). apply Forall_app in Hs as [Hs1 Hs2].
    destruct (next_page_rows _ _ _ _ Ht (cursor_of_len st t Hc) Hpage Hs1) as (db & db' & from & rows & next & Hdb & Hdb' & Hfrom & -> & Hlen & Hrows & Hpoll).
    cbn [pg_Records pg_NextCursor] in Hrun. apply executes_bind in Hrun as (t3 & t4 & r & -> & Hstart & Hrun). apply Forall_app in Hs2 as [Hs3 Hs4].
    assert (connections_live from) as Hlf by (by destruct Hfrom as [->| ->]).
    destruct (start_actors_all _ _ _ _ _ Hstart Hs3) as [Hnil Hall].
    { apply Forall_forall. intros rec (row & -> & Hrow)%list_elem_of_fmap. split; [done|]. cbn. by destruct (proj1 Hlf _ _ _ (Hrows _ Hrow)). }
    rewrite Hnil in Hrun. cbn [is_nil] in Hrun. set (st1 := {| ds_cursors := _ |}) in Hrun.
    assert (cursors_ok st1) as Hc1 by (intros t' c; cbn; intros [[-> <-]|[_ H]]%lookup_insert_Some; [done | by eapply Hc]).
    destruct (IH st1 t4 Hnd Hne Hc1 Hrun Hs4) as (-> & Hc' & Hkeep & Hturn). split; [done|]. split; [done|]. split.
    { intros t' H. rewrite Hkeep by set_solver. cbn. rewrite lookup_insert_ne; [done | set_solver]. }
    intros [<-|Hin]%elem_of_cons.
    + exists db, db', rows.*1. split; [done|]. split; [done|].
      replace (cursor_of st' target_tenant) with next by (unfold cursor_of; rewrite Hkeep by done; cbn; by rewrite lookup_insert_eq).
      split; [by apply Hpoll|]. intros ([id row] & Hid & Hrow)%list_elem_of_fmap. cbn in Hid. subst id. apply started_app. right. apply started_app. left.
      apply (Hall (record_of target_tenant (target, row))); [by apply list_elem_of_fmap_2|]. cbn.
      destruct Hlf as (_ & (row' & Hrow' & Hrun') & _). specialize (Hrows _ Hrow). cbn in Hrows. congruence.
    + destruct (Hturn Hin) as (d & d' & p & H1 & H2 & H3 & H4). exists d, d', p. split; [done|]. split; [done|].
      replace (cursor_of st target_tenant) with (cursor_of st1 target_tenant)
        by (unfold cursor_of; cbn; rewrite lookup_insert_ne; [done | by intros ->]).
      split; [done|]. intros H. apply started_app. right. apply started_app. right. auto.
Qed.

(** Consecutive polls of the discovery loop. *)
Inductive discovery_polls : discovery -> list (list SupEvent) -> Prop :=
| discovery_polls_nil st : discovery_polls st []
| discovery_polls_cons st tr st' err trs :
    runs (discoverActors config st) tr (st', err) -> discovery_polls st' trs -> discovery_polls st (tr :: trs).

Lemma connection_reached st trs :
  NoDup (sc_Tenants config) -> Forall (fun t => t <> "") (sc_Tenants config) -> target_tenant ∈ sc_Tenants config ->
  target ∈ all -> cursors_ok st -> discovery_polls st trs -> Forall (Forall discovery_served) trs ->
  (distance String.le all target (position (cursor_of st target_tenant)) <= length trs)%nat ->
  exists tr, tr ∈ trs /\ started_in target_key tr.
Proof.
  intros Hnd Hne Hin Hall Hc Hp. induction Hp as [st|st tr st' err trs Hrun Hp IH]; intros Hs Hd.
  - pose proof (distance_pos String.le all target Hall (position (cursor_of st target_tenant))). cbn in Hd. lia.
  - apply Forall_cons in Hs as [Hs1 Hs].
    destruct (discover_tenants_turned _ _ _ _ _ Hnd Hne Hc Hrun Hs1) as (_ & Hc' & _ & Hturn).
    destruct (Hturn Hin) as (db & db' & page & Hdb & Hdb' & Hpoll & Hstarted).
    destruct (decide (target ∈ page)) as [Hpage|Hpage]; [exists tr; split; [apply list_elem_of_here | auto]|].
    assert (distance String.le all target (position (cursor_of st' target_tenant)) <
            distance String.le all target (position (cursor_of st target_tenant)))%nat.
    { apply (poll_progress String.le all target Hall page_limit (ids db target_tenant) (ids db' target_tenant) _ page);
        [unfold page_limit; lia | apply ids_sorted | apply ids_sorted | by apply live_target | by apply live_target
        | exact (proj2 (proj2 Hdb)) | exact (proj2 (proj2 Hdb')) | done | done]. }
    destruct IH as (tr' & Htr & Hl); [done | done | cbn in Hd; lia |]. exists tr'. split; [by apply list_elem_of_further | done].
Qed.
End Discovery.

(** No connection is forgotten. The discovery loop asks for the actor of every
    connection that stays connected or degraded, within as many polls as its tenant has
    connections, for every tenant and every page size a configuration admits, however
    rows come and go between the listings; it is enough that actors that do not start
    fail for a reason of their own or of the shared infrastructure. *)
Theorem runnable_connection_started dependencies quarantine config0 config t target all st trs :
  NewSupervisor dependencies quarantine config0 = Ok config -> t ∈ sc_Tenants config -> target ∈ all ->
  cursors_ok st -> discovery_polls config st trs -> Forall (Forall (discovery_served t target all)) trs ->
  (length all <= length trs)%nat ->
  exists tr err, tr ∈ trs /\ EvStart {| key_TenantID := t; key_ConnectionID := target |} err ∈ tr.
Proof.
  intros Hnew Ht Hin Hc Hp Hs Hlen. destruct (NewSupervisor_ok _ _ _ _ Hnew) as (Hnd & Hne & _ & Hlimit & _).
  destruct (connection_reached config t target all Hlimit st trs) as (tr & Htr & err & H); [done..| |by exists tr, err].
  etrans; [apply distance_le | done].
Qed.

(** ** Backfill *)

Section Backfill.
Variable config : SupervisorConfig.

Definition backfill_count (st : backfill) (key : Key) : Z := failure_count (bf_failures st) key.

Definition untouched_by (key : Key) (tr : list SupEvent) : Prop :=
  forall err, EvStart key err ∉ tr /\ EvBackfill key err ∉ tr /\ EvQuarantine key err ∉ tr.

(** From one state of the backfill loop to the next. *)
Record backfill_step (st : backfill) (tr : list SupEvent) (st' : backfill) : Prop := {
  step_keeps : bf_quarantined st ⊆ bf_quarantined st';
  step_out : forall key, key ∈ bf_quarantined st -> untouched_by key tr;
  step_durable : forall key, key ∈ bf_quarantined st' -> key ∈ bf_quarantined st \/ EvQuarantine key [] ∈ tr;
  step_crossing : forall key, backfill_count st key < sc_FatalErrorThreshold config <= backfill_count st' key ->
    (exists err, EvQuarantine key err ∈ tr) \/ (exists err, EvFatal err ∈ tr)
}.

Lemma backfill_step_app st t1 st1 t2 st2 : backfill_step st t1 st1 -> backfill_step st1 t2 st2 -> backfill_step st (t1 ++ t2) st2.
Proof.
  intros [H1 H2 H3 H4] [K1 K2 K3 K4]. constructor.
  - by etrans.
  - intros key Hk err. destruct (H2 key Hk err) as (? & ? & ?), (K2 key (H1 _ Hk) err) as (? & ? & ?). rewrite !not_elem_of_app. auto.
  - intros key [Hk|Hk]%K3; [destruct (H3 _ Hk); [by left|]|]; right; apply elem_of_app; auto.
  - intros key Hc. destruct (Z.lt_ge_cases (backfill_count st1 key) (sc_FatalErrorThreshold config)).
    + destruct (K4 key) as [[e He]|[e He]]; [lia | left | right]; exists e; apply elem_of_app; auto.
    + destruct (H4 key) as [[e He]|[e He]]; [lia | left | right]; exists e; apply elem_of_app; auto.
Qed.

(** Events that concern no quarantined connection change nothing. *)
Lemma backfill_step_event st ev :
  (forall key, key ∈ bf_quarantined st -> forall err, ev <> EvStart key err /\ ev <> EvBackfill key err /\ ev <> EvQuarantine key err) ->
  backfill_step st [ev] st.
Proof.
  intros H. constructor; [done | | auto | lia]. intros key Hk err. destruct (H key Hk err) as (? & ? & ?). rewrite !list_elem_of_singleton. auto.
Qed.

Lemma backfill_step_refl st : backfill_step st [] st.
Proof. constructor; [done | | auto | lia]. intros key _ err. rewrite !elem_of_nil. auto. Qed.

Lemma backfill_count_insert key key' count st :
  backfill_count (with_failures (<[key := count]> (bf_failures st)) st) key' = if decide (key = key') then count else backfill_count st key'.
Proof.
  unfold backfill_count, failure_count. cbn. destruct (decide (key = key')) as [->|Hne]; [by rewrite lookup_insert_eq | by rewrite lookup_insert_ne].
Qed.

Hypothesis Hthreshold : 1 <= sc_FatalErrorThreshold config.

Lemma failures_deleted_step st key : backfill_step st [] (with_failures (delete key (bf_failures st)) st).
Proof.
  constructor; cbn; [done | intros k _ err; rewrite !elem_of_nil; auto | auto |]. intros k. unfold backfill_count, failure_count. cbn.
  destruct (decide (key = k)) as [->|Hne]; [rewrite lookup_delete_eq; cbn; lia | rewrite lookup_delete_ne by done; lia].
Qed.

Lemma recordBackfillResult_step key e st tr r :
  runs (recordBackfillResult config key e st) tr r -> key ∉ bf_quarantined st -> backfill_step st tr r.1.
Proof.
  intros Hrun Hq. unfold recordBackfillResult in Hrun.
  destruct (is_nil e); [destruct Hrun as [-> ->]; apply failures_deleted_step|]. rewrite bool_decide_eq_false_2 in Hrun by done.
  destruct (errors_Is e ErrStaleGeneration); [destruct Hrun as [-> ->]; apply failures_deleted_step|].
  set (count := if _ || _ then _ else _) in Hrun. set (st1 := with_failures _ st) in Hrun.
  assert (forall k, k <> key -> backfill_count st1 k = backfill_count st k) as Hother
    by (intros k Hk; unfold st1; rewrite backfill_count_insert; by destruct (decide (key = k))).
  assert (backfill_count st1 key = count) as Hself by (unfold st1; rewrite backfill_count_insert; by destruct (decide (key = key))).
  assert (forall k, backfill_count st k < sc_FatalErrorThreshold config <= backfill_count st1 k ->
    k = key /\ sc_FatalErrorThreshold config <= count) as Hcross.
  { intros k Hk. destruct (decide (k = key)) as [->|Hne]; [split; [done | lia] | rewrite Hother in Hk by done; lia]. }
  destruct (count <? sc_FatalErrorThreshold config) eqn:Ec; [apply Z.ltb_lt in Ec | apply Z.ltb_ge in Ec].
  { destruct Hrun as [-> ->]. constructor; [done | intros k _ err; rewrite !elem_of_nil; auto | auto |]. intros k [_ ?]%Hcross. lia. }
  assert (forall ev, (forall k err, k <> key -> ev <> EvStart k err /\ ev <> EvBackfill k err /\ ev <> EvQuarantine k err) ->
    forall k, k ∈ bf_quarantined st -> untouched_by k [ev; EvOther] /\ untouched_by k [ev]) as Hout.
  { intros ev Hev k Hk. assert (k <> key) as Hne by (by intros ->). split; intros err; destruct (Hev k err Hne) as (? & ? & ?); set_solver. }
  destruct (errors_Is e ErrSharedInfrastructure).
  { destruct Hrun as (x & t2 & -> & -> & ->). constructor; [done | intros k Hk; by apply Hout | auto |].
    intros k _. right. exists e. apply list_elem_of_here. }
  destruct Hrun as (err & t2 & -> & Hrun). destruct (negb (is_nil err)) eqn:En.
  - destruct Hrun as [-> ->]. constructor; [done | intros k Hk; apply (Hout (EvQuarantine key err)); [|done]; intros k' err' Hne; split_and!; congruence | auto |].
    intros k [-> _]%Hcross. left. exists err. apply list_elem_of_here.
  - apply negb_false_iff, is_nil_true in En as ->. destruct Hrun as (x & t3 & -> & -> & ->). constructor; cbn.
    + set_solver.
    + intros k Hk. apply (Hout (EvQuarantine key [])); [|done]. intros k' err' Hne. split_and!; congruence.
    + intros k [->%elem_of_singleton|Hk]%elem_of_union; [right; apply list_elem_of_here | by left].
    + intros k Hk. left. exists []. assert (k = key) as ->; [|apply list_elem_of_here]. apply (Hcross k). revert Hk.
      unfold backfill_count, failure_count. cbn. destruct (decide (key = k)) as [->|Hne].
      * rewrite lookup_delete_eq. cbn. lia.
      * by rewrite lookup_delete_ne.
Qed.

Lemma backfill_keys_step keys st failures tr r :
  runs (backfill_keys config keys st failures) tr r -> backfill_step st tr r.1.
Proof.
  revert st failures tr. induction keys as [|key keys IH]; intros st failures tr Hrun; cbn [backfill_keys] in Hrun.
  - destruct Hrun as [-> ->]. apply backfill_step_refl.
  - destruct (bool_decide (key ∈ bf_quarantined st)) eqn:Eq; [by eapply IH|]. apply bool_decide_eq_false in Eq.
    assert (forall ev, (forall k err, k <> key -> ev <> EvStart k err /\ ev <> EvBackfill k err /\ ev <> EvQuarantine k err) ->
      forall t2 st', backfill_step st t2 st' -> backfill_step st (ev :: t2) st') as Hev.
    { intros ev H t2 st' Hs. apply (backfill_step_app st [ev] st); [|done]. apply backfill_step_event. intros k Hk err. apply H. by intros ->. }
    assert (forall k err, k <> key -> EvOther <> EvStart k err /\ EvOther <> EvBackfill k err /\ EvOther <> EvQuarantine k err) as Hoth by done.
    assert (forall e t2 f, runs (do! r := recordBackfillResult config key e st in backfill_keys config keys r.1 (f r)) t2 r ->
      backfill_step st t2 r.1) as Hrec.
    { intros e t2 f H. apply executes_bind in H as (t3 & t4 & r1 & -> & H1 & H2).
      eapply backfill_step_app; [by eapply recordBackfillResult_step | by eapply IH]. }
    destruct Hrun as (startErr & t1 & -> & Hrun). apply Hev; [intros k err Hne; split_and!; cbn; congruence|]. destruct (negb (is_nil startErr)).
    + destruct Hrun as (ctxErr & t2 & -> & Hrun). apply Hev; [done|]. destruct (is_nil ctxErr); [|by eapply IH].
      destruct Hrun as (x & t3 & -> & Hrun). apply Hev; [done|]. by eapply (Hrec _ _ (fun r => errors_Join [failures; r.2])).
    + destruct Hrun as (ready & t2 & -> & Hrun). apply Hev; [done|]. destruct (negb ready); [by eapply IH|].
      destruct Hrun as (item & t3 & -> & Hrun). apply Hev; [intros k err Hne; split_and!; cbn; congruence|]. destruct (is_nil item.2); [by eapply (Hrec _ _ (fun _ => failures))|].
      destruct Hrun as (ctxErr & t4 & -> & Hrun). apply Hev; [done|]. destruct (is_nil ctxErr); [|by eapply IH].
      destruct Hrun as (x & t5 & -> & Hrun). apply Hev; [done|]. by eapply (Hrec _ _ (fun r => errors_Join [failures; r.2])).
Qed.

Lemma runBackfill_step t st tr r : runs (runBackfill config t st) tr r -> backfill_step st tr r.1.
Proof.
  intros Hrun. apply executes_bind in Hrun as (t1 & t2 & page & -> & Hpage & Hrun).
  assert (forall st', bf_failures st' = bf_failures st -> bf_quarantined st' = bf_quarantined st -> backfill_step st t1 st') as H1.
  { intros st' Hf Hq. constructor; rewrite ?Hq; [done | | auto | unfold backfill_count; rewrite Hf; lia].
    intros key _ err. destruct Hpage as (x & t3 & -> & Hpage). cbn in Hpage.
    destruct x as [p|e]; [destruct (_ && _)|]; [destruct Hpage as (y & t4 & -> & -> & _)| |]; try (destruct Hpage as [-> _]); cbn; set_solver. }
  destruct page as [page|e]; [|destruct Hrun as [-> ->]; rewrite app_nil_r; by apply H1].
  eapply backfill_step_app; [by apply (H1 {| bf_cursor := pg_NextCursor page; bf_failures := bf_failures st; bf_quarantined := bf_quarantined st |})|].
  destruct (eligible t (pg_Records page)); [by eapply backfill_keys_step | destruct Hrun as [-> ->]; apply backfill_step_refl].
Qed.

(** Consecutive polls of the backfill loop of a tenant. *)
Inductive backfill_polls (t : string) : backfill -> list (list SupEvent) -> backfill -> Prop :=
| backfill_polls_nil st : backfill_polls t st [] st
| backfill_polls_cons st tr st' err trs st'' :
    runs (runBackfill config t st) tr (st', err) -> backfill_polls t st' trs st'' -> backfill_polls t st (tr :: trs) st''.

Lemma backfill_polls_step t st trs st' : backfill_polls t st trs st' -> backfill_step st (concat trs) st'.
Proof.
  induction 1 as [st|st tr st' err trs st'' Hrun _ IH]; [apply backfill_step_refl|]. cbn.
  eapply backfill_step_app; [by apply (runBackfill_step t _ _ _ Hrun) | done].
Qed.
End Backfill.

Lemma elem_of_concat {A} (x : A) ls : x ∈ concat ls <-> exists l, l ∈ ls /\ x ∈ l.
Proof. rewrite list_elem_of_In, in_concat. by setoid_rewrite list_elem_of_In. Qed.

(** A connection is taken out of backfill for good, and only durably. Over any
    consecutive polls of a tenant's backfill loop: a connection the loop holds as
    quarantined was recorded as such in the repository before; from then on the loop
    neither starts it, nor imports from it, nor records it again; and no connection's
    failures reach the threshold without a quarantine being asked for or a fatal error
    being reported. *)
Theorem backfill_quarantine_final dependencies quarantine config0 config t st before st1 after st2 :
  NewSupervisor dependencies quarantine config0 = Ok config ->
  backfill_polls config t st before st1 -> backfill_polls config t st1 after st2 ->
  (forall key, key ∈ bf_quarantined st1 ->
     (key ∈ bf_quarantined st \/ exists tr, tr ∈ before /\ EvQuarantine key [] ∈ tr) /\
     key ∈ bf_quarantined st2 /\ forall tr, tr ∈ after -> untouched_by key tr) /\
  (forall key, backfill_count st key < sc_FatalErrorThreshold config <= backfill_count st1 key ->
     exists tr err, tr ∈ before /\ (EvQuarantine key err ∈ tr \/ EvFatal err ∈ tr)).
Proof.
  intros Hnew H1 H2. destruct (NewSupervisor_ok _ _ _ _ Hnew) as (_ & _ & _ & _ & _ & Hthr & _).
  destruct (backfill_polls_step _ Hthr _ _ _ _ H1) as [_ _ Hdur Hcross]. destruct (backfill_polls_step _ Hthr _ _ _ _ H2) as [Hkeep Hout _ _].
  split; intros key Hk.
  - split; [|split; [by apply Hkeep|]].
    + destruct (Hdur _ Hk) as [?|(tr & ? & ?)%elem_of_concat]; [by left | right; eauto].
    + intros tr Htr err. destruct (Hout _ Hk err) as (Ha & Hb & Hc).
      split_and!; intros H; [apply Ha | apply Hb | apply Hc]; apply elem_of_concat; eauto.
  - destruct (Hcross _ Hk) as [[err (tr & ? & ?)%elem_of_concat]|[err (tr & ? & ?)%elem_of_concat]]; exists tr, err; auto.
Qed.

(** ** Concrete polls: two connections with a queued lane each, one at a time. *)

Definition example_message (connection : string) : MessageRow := {|
  ms_ConnectionID := connection; ms_ConversationID := "k"; ms_OrderingKey := "k"; ms_Direction := "outbound"; ms_Recipient := "+15550100";
  ms_LineID := None; ms_RouteMode := ""; ms_Text := "hello"; ms_ProviderMessageID := None; ms_ProviderTmpID := None; ms_Transport := "";
  ms_State := MessageStateQueued; ms_CreatedAt := 0 |}.

Definition example_connection : ConnectionRow := {|
  cn_Name := "phone"; cn_State := ConnectionStateConnected; cn_Fingerprint := Some []; cn_ReauthorizationEventID := None;
  cn_PriorState := None; cn_PairingStartedAt := None; cn_PairingAttemptID := None; cn_TenantSuspendPriorState := None |}.

Definition example_db : Db :=
  set_connections {[("t1", "c1") := example_connection; ("t1", "c2") := example_connection]}
    (set_messages {[("t1", "m1") := example_message "c1"; ("t1", "m2") := example_message "c2"]} empty_db).

Definition example_config : SupervisorConfig := {|
  sc_Tenants := ["t1"]; sc_Media := []; sc_Backfill := ["t1"]; sc_Webhooks := []; sc_Kafka := []; sc_PollInterval := 0; sc_ReadyTimeout := 0;
  sc_JoinTimeout := 0; sc_LaneLimit := 1; sc_DispatchConcurrency := 0; sc_FatalErrorThreshold := 0; sc_MediaLimit := 0;
  sc_BackfillLimit := 0; sc_ConnectionLimit := 1 |}.

Definition example_supervisor : SupervisorConfig := with_defaults example_config.

(** Actors start, and the first connection cannot be imported from. *)
Definition example_answer (X : Type) (c : SupCall X) (s : unit) : unit * X :=
  (s, match c in SupCall X return X with
      | ListPage t cursor limit => (ListConnectionsPage t cursor limit example_db).2
      | ListLanesAfter t cursor limit => (ListQueuedDispatchLanesAfter t cursor limit example_db).2
      | ListLanes _ _ => Ok []
      | ActorReady _ | Hand _ | Tick => true
      | DispatchOne _ | RunOne _ => (true, [])
      | RunConnection key => (true, if key_ConnectionID key =s "c1" then [ErrProviderPermanentProtocol] else [])
      | ActorStart _ | ActorQuarantine _ | ActorShutdown | RunBatch _ | QuarantineBackfill _ _ | CtxErr | AwaitEnd => []
      | OnError _ | Fatal _ | Launch _ | StopWorkers => tt
      end).

Abbreviation example_poll p := (transcript sup_log example_answer p tt).

Lemma example_poll_runs {A} (p : prog SupCall (A * error)) : runs p (example_poll p).1 ((example_poll p).2.1, (example_poll p).2.2).
Proof. pose proof (transcript_executes sup_log example_answer p tt) as H. by destruct (example_poll p) as [t []]. Qed.

Lemma example_new : NewSupervisor true true example_config = Ok example_supervisor.
Proof. vm_compute. reflexivity. Qed.

Lemma example_lanes : queued_lanes example_db "t1" = [("c1", "k"); ("c2", "k")].
Proof. vm_compute. reflexivity. Qed.

Lemma example_ids : ids example_db "t1" = ["c1"; "c2"].
Proof. vm_compute. reflexivity. Qed.

Lemma example_rows_good : rows_good example_db.
Proof.
  intros t id row H. cbn in H. apply lookup_insert_Some in H as [[[= <- <-] <-]|[_ H]]; [by vm_compute|].
  apply lookup_singleton_Some in H as [[= <- <-] <-]. by vm_compute.
Qed.

Lemma example_lanes_served X (c : SupCall X) s :
  lanes_served "t1" ("c2", "k") [("c1", "k"); ("c2", "k")] (sup_log X c (example_answer X c s).2).
Proof.
  destruct c; cbn; try done. exists example_db. split; [|done]. unfold lanes_live. rewrite example_lanes. set_solver.
Qed.

Lemma example_discovery_served X (c : SupCall X) s : discovery_served "t1" "c2" ["c1"; "c2"] (sup_log X c (example_answer X c s).2).
Proof.
  destruct c; cbn; try done. exists example_db. split; [|done]. split; [apply example_rows_good|]. split.
  - exists example_connection. by vm_compute.
  - intros id. by rewrite example_ids.
Qed.

Lemma queued_lane_dispatched_witness :
  let p1 := example_poll (dispatch example_supervisor true "t1" empty_lane) in
  let p2 := example_poll (dispatch example_supervisor true "t1" p1.2.1) in
  let lane := {| lk_TenantID := "t1"; lk_ConnectionID := "c2"; lk_ConversationID := "k" |} in
  exists tr, tr ∈ [p1.1; p2.1] /\ lane_served lane tr /\ (Forall (actor_up (lane_key lane)) tr -> exists outcome, EvDispatch lane outcome ∈ tr).
Proof.
  intros p1 p2 lane.
  refine (queued_lane_dispatched true true example_config example_supervisor "t1" ("c2", "k") [("c1", "k"); ("c2", "k")] empty_lane [p1.1; p2.1]
    example_new _ _ _ _ _ _ _).
  - apply list_elem_of_here.
  - apply list_elem_of_further, list_elem_of_here.
  - repeat constructor; discriminate.
  - by left.
  - eapply lane_polls_cons with (err := p1.2.2) (cursor' := p1.2.1); [|eapply lane_polls_cons with (err := p2.2.2) (cursor' := p2.2.1); [|constructor]].
    + exact (example_poll_runs (dispatch example_supervisor true "t1" empty_lane)).
    + exact (example_poll_runs (dispatch example_supervisor true "t1" p1.2.1)).
  - constructor; [|constructor; [|constructor]]; apply transcript_forall, example_lanes_served.
  - apply le_n.
Defined.

Definition no_discovery : discovery := {| ds_cursors := ∅; ds_failures := ∅ |}.

Lemma runnable_connection_started_witness :
  let p1 := example_poll (discoverActors example_supervisor no_discovery) in
  let p2 := example_poll (discoverActors example_supervisor p1.2.1) in
  exists tr err, tr ∈ [p1.1; p2.1] /\ EvStart {| key_TenantID := "t1"; key_ConnectionID := "c2" |} err ∈ tr.
Proof.
  intros p1 p2.
  refine (runnable_connection_started true true example_config example_supervisor "t1" "c2" ["c1"; "c2"] no_discovery [p1.1; p2.1]
    example_new _ _ _ _ _ _).
  - apply list_elem_of_here.
  - apply list_elem_of_further, list_elem_of_here.
  - intros t c H. cbn in H. by rewrite lookup_empty in H.
  - eapply discovery_polls_cons with (err := p1.2.2) (st' := p1.2.1); [|eapply discovery_polls_cons with (err := p2.2.2) (st' := p2.2.1); [|constructor]].
    + exact (example_poll_runs (discoverActors example_supervisor no_discovery)).
    + exact (example_poll_runs (discoverActors example_supervisor p1.2.1)).
  - constructor; [|constructor; [|constructor]]; apply transcript_forall, example_discovery_served.
  - apply le_n.
Defined.

Definition no_backfill : backfill := {| bf_cursor := ""; bf_failures := ∅; bf_quarantined := ∅ |}.

(** The first poll quarantines the first connection, the second leaves it alone. *)
Lemma backfill_quarantine_final_witness :
  let p1 := example_poll (runBackfill example_supervisor "t1" no_backfill) in
  let p2 := example_poll (runBackfill example_supervisor "t1" p1.2.1) in
  let key := {| key_TenantID := "t1"; key_ConnectionID := "c1" |} in
  key ∈ bf_quarantined p1.2.1 /\ EvQuarantine key [] ∈ p1.1 /\ forall tr, tr ∈ [p2.1] -> untouched_by key tr.
Proof.
  intros p1 p2 key. assert (key ∈ bf_quarantined p1.2.1) as Hq by (apply (bool_decide_unpack _); vm_compute; reflexivity).
  assert (backfill_polls example_supervisor "t1" no_backfill [p1.1] p1.2.1) as H1.
  { eapply backfill_polls_cons with (err := p1.2.2) (st' := p1.2.1); [|constructor].
    exact (example_poll_runs (runBackfill example_supervisor "t1" no_backfill)). }
  assert (backfill_polls example_supervisor "t1" p1.2.1 [p2.1] p2.2.1) as H2.
  { eapply backfill_polls_cons with (err := p2.2.2) (st' := p2.2.1); [|constructor].
    exact (example_poll_runs (runBackfill example_supervisor "t1" p1.2.1)). }
  destruct (proj1 (backfill_quarantine_final true true example_config example_supervisor "t1" _ _ _ _ _ example_new H1 H2) key Hq) as [Hd [_ Ht]].
  split; [exact Hq|]. split; [|exact Ht]. clearbody p2 p1. destruct Hd as [Hd|(tr & Htr & Hd)]; [exfalso; exact (not_elem_of_empty key Hd)|].
  apply list_elem_of_singleton in Htr. rewrite <- Htr. exact Hd.
Defined.
