(* ===== verification/Ingress.v ===== *)
(** * Durable ingress (internal/gateway/ingress/service.go)

    The synchronous boundary between a provider poll and ACK eligibility:
    validation of a provider projection, identity digests, the events of an
    envelope and [Service.Process] against the store interface.  The protobuf
    codec of the provider cursor is a parameter. *)

From S2P Require Import Prelude GoText Crypto GoEncoding Domain Session EventContract.

Definition PoisonReasonInvalidSettingsSnapshot : string := "invalid_settings_snapshot".
Definition MaxRawEnvelopeBytes : Z := Z.shiftl 4 20.
Definition MaxCursorBytes : Z := Z.shiftl 4 10.
Definition MaxProjectedConversations : Z := 256.
Definition MaxProjectedMessages : Z := 256.
Definition MaxProjectedLines : Z := 16.
Definition MaxAttachmentsPerMessage : Z := 16.
Definition MaxProjectedAttachments : Z := 256.
Definition MaxMessageTextBytes : Z := Z.shiftl 64 10.
Definition MaxProjectionTextBytes : Z := Z.shiftl 4 20.
Definition MaxMediaLocatorBytes : Z := Z.shiftl 2 10.
Definition MaxMediaMetadataBytes : Z := 255.
Definition MaxDeclaredMediaBytes : Z := Z.shiftl 25 20.

Definition MessageProvenanceLive : string := "provider_live".
Definition MessageProvenanceHistory : string := "provider_history".
Definition MessageProvenanceReplay : string := "provider_replay".
Definition LineDiscoveryAuthenticatedGoogleSettings : string := "authenticated_google_settings".
Definition CursorSourceListMessages : string := "list_messages".
Definition CursorSourceListConversations : string := "list_conversations".

(** The empty [domain.MessageState], an observation without a normalized state. *)
Definition no_state : MessageState := MessageStateOther "".

Record ProjectedMessage := {
  pm_ProviderMessageID : string;
  pm_ProviderTmpID : string;
  pm_ConversationID : string;
  pm_Direction : string;
  pm_Provenance : string;
  pm_ProviderStatus : string;
  pm_ProviderOccurredAt : Z;
  pm_Actionable : bool;
  pm_Sender : string;
  pm_Recipients : list string;
  pm_Text : string;
  pm_Transport : string;
  pm_State : MessageState
}.

Record ProjectedConversation := {
  pc_ConversationID : string;
  pc_DefaultOutgoingID : string;
  pc_IsGroup : bool
}.

Record ProjectedLine := {
  pl_ID : string;
  pl_TenantID : string;
  pl_ConnectionID : string;
  pl_ProviderParticipantID : string;
  pl_ProviderOutgoingID : string;
  pl_Phone : string;
  pl_DisplayName : string;
  pl_CarrierName : string;
  pl_ColorHex : string;
  pl_RCSEnabled : bool;
  pl_ProviderSIMNumber : Z;
  pl_ProviderSIMPayloadType : Z;
  pl_DiscoverySource : string
}.

Record Projection := {
  pj_Conversations : list ProjectedConversation;
  pj_Messages : list ProjectedMessage;
  pj_Lines : list ProjectedLine;
  pj_LineSnapshot : bool;
  pj_Cursor : bytes;
  pj_CursorBase : bytes;
  pj_CursorCandidate : bytes;
  pj_CursorSource : string;
  pj_CursorConversationID : string
}.

Record MediaLocator := {
  ml_ProviderMessageID : string;
  ml_Locator : string;
  ml_Position : Z;
  ml_MIMEType : string;
  ml_DeclaredSize : Z;
  ml_DisplayFilename : string;
  ml_KeyEnvelope : Session.Envelope;
  ml_ThumbnailKeyEnvelope : Session.Envelope;
  ml_KeyDigest : bytes;
  ml_ThumbnailKeyDigest : bytes
}.

Record OutboxEvent := {
  oe_ID : string;
  oe_Type : string;
  oe_AggregateID : string;
  oe_CanonicalBody : bytes;
  oe_PartitionTenant : string;
  oe_PartitionConnection : string;
  oe_PartitionConversation : string
}.

Record ProviderEnvelope := {
  pe_TenantID : string;
  pe_ConnectionID : string;
  pe_OwnerID : string;
  pe_FencingToken : Z;
  pe_ProviderResponseID : string;
  pe_Raw : bytes;
  pe_Projection : Projection;
  pe_Media : list MediaLocator;
  pe_DecodeError : error;
  pe_ACKWithheld : bool;
  pe_PoisonReason : string
}.

Record EnvelopeRecord := {
  rc_TenantID : string;
  rc_ConnectionID : string;
  rc_OwnerID : string;
  rc_FencingToken : Z;
  rc_ProviderResponseID : string;
  rc_Raw : bytes;
  rc_Digest : bytes;
  rc_Projection : Projection;
  rc_Media : list MediaLocator;
  rc_Events : list OutboxEvent;
  rc_Poisoned : bool;
  rc_PoisonReason : string;
  rc_ACKPending : bool;
  rc_ACKWithheld : bool;
  rc_ReceivedAt : Z
}.

Inductive CommitResult :=
| CommitInserted | CommitDuplicate | CommitConflict | CommitPoisoned | CommitDuplicatePoisoned
| CommitDuplicateACKWithheld | CommitOther (code : Z).

Record ProcessResult := {
  pr_ACKEligible : bool;
  pr_ACKWithheld : bool;
  pr_Duplicate : bool;
  pr_Poisoned : bool
}.

Definition empty_projection : Projection := {|
  pj_Conversations := []; pj_Messages := []; pj_Lines := []; pj_LineSnapshot := false;
  pj_Cursor := []; pj_CursorBase := []; pj_CursorCandidate := []; pj_CursorSource := "";
  pj_CursorConversationID := "" |}.

(** ** Validation *)

Definition validProviderString (value : string) (limit : Z) (optional : bool) : bool :=
  if value =s "" then optional
  else (len value <=? limit) && utf8_ValidString value && negb (ContainsByte value 0) &&
       (TrimSpace value <>s "").

Definition validOptionalProviderIdentifier (value : string) : bool :=
  (value =s "") || ValidProviderIdentifier value.

Definition zero_fingerprint : bytes := repeat (byte_of_Z 0) 32.

Definition validAttachmentKeyIdentity (envelope : Session.Envelope) (fingerprint : bytes) : bool :=
  let emptyEnvelope := is_nil (en_Ciphertext envelope) && is_nil (en_WrappedDEK envelope) &&
    is_nil (en_Nonce envelope) && (en_KeyID envelope =s "") && (en_KeyVersion envelope =? 0) &&
    (en_Version envelope =? 0) && (en_Provider envelope =s "") && (en_Revision envelope =? 0) in
  let emptyFingerprint := bool_decide (fingerprint = zero_fingerprint) in
  if emptyEnvelope then emptyFingerprint else is_ok (Envelope_Validate envelope).

Definition fail {A} (text : string) : result A := Err [ErrText text].

Section Cursor.
(** [proto.Unmarshal] into a [gmproto.Cursor] (its two known fields) and the
    deterministic marshal of those fields. *)
Context (unmarshalCursor : bytes -> option (string * Z)) (marshalCursor : string * Z -> bytes).

Definition CanonicalProviderCursor (encoded : bytes) : result bytes :=
  if (blen encoded =? 0) || (blen encoded >? MaxCursorBytes)
  then fail "provider cursor is absent or excessive"
  else match unmarshalCursor encoded with
  | None => fail "provider cursor semantic tuple is invalid"
  | Some (lastItemID, lastItemTimestamp) =>
    if negb (ValidProviderIdentifier lastItemID) || (lastItemTimestamp <=? 0)
    then fail "provider cursor semantic tuple is invalid"
    else
      let canonical := marshalCursor (lastItemID, lastItemTimestamp) in
      if (blen canonical =? 0) || (blen canonical >? MaxCursorBytes)
      then fail "provider cursor canonical encoding is invalid"
      else Ok canonical
  end.

Definition validate_cursor (projection : Projection) : result unit :=
  let candidate := if is_nil (pj_CursorCandidate projection) && negb (is_nil (pj_Cursor projection))
                   then pj_Cursor projection else pj_CursorCandidate projection in
  if negb (is_nil candidate) then
    match CanonicalProviderCursor candidate with
    | Err _ => fail "provider cursor candidate is invalid"
    | Ok canonicalCandidate =>
      let! canonicalBase := (if is_nil (pj_CursorBase projection) then Ok []
        else match CanonicalProviderCursor (pj_CursorBase projection) with
             | Err _ => fail "provider cursor base is invalid"
             | Ok b => Ok b
             end) in
      if negb (is_nil canonicalBase) && bool_decide (canonicalBase = canonicalCandidate)
      then fail "provider cursor did not advance"
      else if pj_CursorSource projection =s CursorSourceListMessages then
        match CanonicalProviderCursor (pj_Cursor projection) with
        | Err _ => fail "provider message cursor source or target is invalid"
        | Ok canonicalCursor =>
          if negb (ValidProviderConversationID (pj_CursorConversationID projection)) ||
             negb (bool_decide (canonicalCursor = canonicalCandidate))
          then fail "provider message cursor source or target is invalid" else Ok tt
        end
      else if pj_CursorSource projection =s CursorSourceListConversations then
        if (pj_CursorConversationID projection <>s ProviderPageCursorID) ||
           negb (is_nil (pj_Cursor projection))
        then fail "provider conversation cursor source or target is invalid" else Ok tt
      else fail "provider cursor source or target is invalid"
    end
  else if negb (is_nil (pj_Cursor projection)) || negb (is_nil (pj_CursorBase projection)) ||
          (pj_CursorSource projection <>s "") || (pj_CursorConversationID projection <>s "")
  then fail "provider cursor metadata without a cursor is invalid"
  else Ok tt.

Definition validLine (line : ProjectedLine) : bool :=
  negb ((pl_ID line =s "") || (pl_TenantID line =s "") || (pl_ConnectionID line =s "") ||
    negb (ValidProviderIdentifier (pl_ID line)) ||
    negb (ValidProviderIdentifier (pl_ProviderParticipantID line)) ||
    negb (ValidProviderIdentifier (pl_ProviderOutgoingID line)) ||
    (pl_ProviderSIMNumber line <? 0) || (pl_ProviderSIMPayloadType line <? 0) ||
    (pl_DiscoverySource line <>s LineDiscoveryAuthenticatedGoogleSettings) ||
    negb (validProviderString (pl_DisplayName line) 255 true) ||
    negb (validProviderString (pl_CarrierName line) 255 true) ||
    negb (validProviderString (pl_ColorHex line) 64 true)).

Fixpoint validate_lines (lines : list ProjectedLine) (lineIDs participantIDs : gset string) : result unit :=
  match lines with
  | [] => Ok tt
  | line :: rest =>
    if negb (validLine line) then fail "provider line fields are invalid"
    else match ParseE164 (pl_Phone line) with
    | Err _ => fail "provider line phone is invalid"
    | Ok phone =>
      if E164Phone_String phone <>s pl_Phone line then fail "provider line phone is invalid"
      else if bool_decide (pl_ID line ∈ lineIDs) then fail "provider line identity is duplicated"
      else if bool_decide (pl_ProviderParticipantID line ∈ participantIDs)
      then fail "provider line participant is duplicated"
      else validate_lines rest ({[pl_ID line]} ∪ lineIDs)
             ({[pl_ProviderParticipantID line]} ∪ participantIDs)
    end
  end.

Fixpoint validate_conversations (conversations : list ProjectedConversation) (seen : gset string)
    : result unit :=
  match conversations with
  | [] => Ok tt
  | conversation :: rest =>
    if negb (ValidProviderConversationID (pc_ConversationID conversation)) ||
       negb (validOptionalProviderIdentifier (pc_DefaultOutgoingID conversation))
    then fail "provider conversation identity is invalid"
    else if bool_decide (pc_ConversationID conversation ∈ seen)
    then fail "provider conversation is duplicated"
    else validate_conversations rest ({[pc_ConversationID conversation]} ∪ seen)
  end.

(** The year of an instant ([time.Time.Year], UTC). *)
Definition time_Year (t : Z) : Z := (civil_of_days (t / Second / 86400)).1.1.

Definition validate_message (message : ProjectedMessage) : result unit :=
  if negb (ValidProviderIdentifier (pm_ProviderMessageID message)) ||
     negb (validOptionalProviderIdentifier (pm_ProviderTmpID message)) ||
     negb (ValidProviderConversationID (pm_ConversationID message)) ||
     negb (utf8_ValidString (pm_Text message)) || ContainsByte (pm_Text message) 0 ||
     (len (pm_Text message) >? MaxMessageTextBytes)
  then fail "provider message fields are invalid"
  else if (pm_Transport message <>s "") && (pm_Transport message <>s "sms") &&
          (pm_Transport message <>s "mms") && (pm_Transport message <>s "rcs")
  then fail "provider transport is invalid"
  else if (pm_Direction message <>s "") && (pm_Direction message <>s "inbound") &&
          (pm_Direction message <>s "outbound") && (pm_Direction message <>s "unknown")
  then fail "provider message direction is invalid"
  else if (pm_Provenance message <>s "") && (pm_Provenance message <>s MessageProvenanceLive) &&
          (pm_Provenance message <>s MessageProvenanceHistory) &&
          (pm_Provenance message <>s MessageProvenanceReplay)
  then fail "provider message provenance is invalid"
  else if pm_Actionable message &&
          ((pm_Direction message <>s "inbound") || (pm_Provenance message <>s MessageProvenanceLive))
  then fail "only live inbound messages may be actionable"
  else if (len (pm_ProviderStatus message) >? 128) || negb (utf8_ValidString (pm_ProviderStatus message)) ||
          ContainsAny (pm_ProviderStatus message) [0; 13; 10]
  then fail "provider message status is invalid"
  else if negb (time_IsZero (pm_ProviderOccurredAt message)) &&
          ((time_Year (pm_ProviderOccurredAt message) <? 2000) ||
           (time_Year (pm_ProviderOccurredAt message) >? 2200))
  then fail "provider message timestamp is invalid"
  else if (pm_Sender message <>s "") && negb (is_ok (ParseE164 (pm_Sender message)))
  then fail "provider message sender is invalid"
  else if negb (forallb (fun r => is_ok (ParseE164 r)) (pm_Recipients message))
  then fail "provider message recipient is invalid"
  else if negb (bool_decide (pm_State message = no_state))
  then MessageState_Validate (pm_State message)
  else Ok tt.

Fixpoint validate_messages (messages : list ProjectedMessage) (seen : gset string) (totalText : Z)
    : result (gset string) :=
  match messages with
  | [] => Ok seen
  | message :: rest =>
    let! _ := validate_message message in
    if bool_decide (pm_ProviderMessageID message ∈ seen) then fail "provider message is duplicated"
    else
      let totalText := totalText + len (pm_Text message) in
      if totalText >? MaxProjectionTextBytes
      then fail "provider projection text exceeds aggregate limit"
      else validate_messages rest ({[pm_ProviderMessageID message]} ∪ seen) totalText
  end.

Definition positions_of (m : gmap string (gset Z)) (id : string) : gset Z := default ∅ (m !! id).

Fixpoint validate_media (media : list MediaLocator) (messageIDs : gset string)
    (positions : gmap string (gset Z)) : result unit :=
  match media with
  | [] => Ok tt
  | attachment :: rest =>
    let id := ml_ProviderMessageID attachment in
    if negb (bool_decide (id ∈ messageIDs)) || (ml_Position attachment <? 0) ||
       (ml_Position attachment >=? MaxAttachmentsPerMessage) ||
       negb (validProviderString (ml_Locator attachment) MaxMediaLocatorBytes false) ||
       negb (validProviderString (ml_MIMEType attachment) MaxMediaMetadataBytes true) ||
       negb (validProviderString (ml_DisplayFilename attachment) MaxMediaMetadataBytes true) ||
       (ml_DeclaredSize attachment <? 0) || (ml_DeclaredSize attachment >? MaxDeclaredMediaBytes)
    then fail "provider media fields are invalid"
    else if negb (validAttachmentKeyIdentity (ml_KeyEnvelope attachment) (ml_KeyDigest attachment)) ||
            negb (validAttachmentKeyIdentity (ml_ThumbnailKeyEnvelope attachment)
                    (ml_ThumbnailKeyDigest attachment))
    then fail "provider media key identity is invalid"
    else
      let perMessage := positions_of positions id in
      if bool_decide (ml_Position attachment ∈ perMessage) ||
         (Z.of_nat (size perMessage) >=? MaxAttachmentsPerMessage)
      then fail "provider media position is duplicated or excessive"
      else validate_media rest messageIDs (<[id := {[ml_Position attachment]} ∪ perMessage]> positions)
  end.

Definition ValidateProjection (projection : Projection) (media : list MediaLocator) : result unit :=
  if (blen (pj_Conversations projection) >? MaxProjectedConversations) ||
     (blen (pj_Messages projection) >? MaxProjectedMessages) ||
     (blen (pj_Lines projection) >? MaxProjectedLines) || (blen media >? MaxProjectedAttachments) ||
     (blen (pj_Cursor projection) >? MaxCursorBytes) ||
     (blen (pj_CursorBase projection) >? MaxCursorBytes) ||
     (blen (pj_CursorCandidate projection) >? MaxCursorBytes)
  then fail "provider projection cardinality exceeds limit"
  else if negb (Bool.eqb (pj_LineSnapshot projection) (blen (pj_Lines projection) >? 0))
  then fail "provider line snapshot is empty or ambiguous"
  else
    let! _ := validate_lines (pj_Lines projection) ∅ ∅ in
    let! _ := validate_cursor projection in
    let! _ := validate_conversations (pj_Conversations projection) ∅ in
    let! messageIDs := validate_messages (pj_Messages projection) ∅ 0 in
    validate_media media messageIDs ∅.
End Cursor.

(** ** Attachment identity *)

(** What [writeIdentityField] writes. *)
Definition identity_field (value : bytes) : bytes := PutUint64 (uint64 (blen value)) ++ value.

(** The fields [writeKeyIdentity] writes, in order. *)
Definition key_identity_fields (fingerprint : bytes) (envelope : Session.Envelope) : list bytes :=
  if negb (bool_decide (fingerprint = zero_fingerprint)) then [[byte_of_Z 1]; fingerprint]
  else [[byte_of_Z 0]; bytes_of (FormatUint (en_Revision envelope)); bytes_of (Itoa (en_Version envelope));
        bytes_of (en_Provider envelope); en_Ciphertext envelope; en_WrappedDEK envelope;
        en_Nonce envelope; bytes_of (en_KeyID envelope); bytes_of (Itoa (en_KeyVersion envelope))].

Definition attachment_fields (locator : MediaLocator) : list bytes :=
  [bytes_of (ml_Locator locator); bytes_of (ml_MIMEType locator);
   PutUint64 (uint64 (ml_DeclaredSize locator)); bytes_of (ml_DisplayFilename locator)] ++
  key_identity_fields (ml_KeyDigest locator) (ml_KeyEnvelope locator) ++
  key_identity_fields (ml_ThumbnailKeyDigest locator) (ml_ThumbnailKeyEnvelope locator).

Definition attachment_preimage (locator : MediaLocator) : bytes :=
  concat (identity_field <$> attachment_fields locator).

Definition AttachmentIdentityDigest (locator : MediaLocator) : bytes := sha256 (attachment_preimage locator).

Definition stringHex (input : bytes) : string := string_of (hex_encode input).

Definition AttachmentAggregateID (locator : MediaLocator) : string :=
  "attachment_" +:+ stringHex (take 16 (sha256 (
    identity_field (bytes_of (ml_ProviderMessageID locator)) ++
    identity_field (PutUint64 (uint64 (ml_Position locator))) ++
    identity_field (AttachmentIdentityDigest locator)))).

(** ** Events *)

Definition NUL : string := string_of [byte_of_Z 0].

Definition lookup_data (data : list (string * string)) (key : string) : string :=
  match find (fun p => p.1 =s key) data with Some p => p.2 | None => "" end.

Definition contractEvent (record : EnvelopeRecord) (eventID eventType aggregateID : string)
    (data : list (string * string)) : OutboxEvent :=
  let message := if HasPrefix eventType "message."
                 then find (fun m => pm_ProviderMessageID m =s aggregateID) (pj_Messages (rc_Projection record))
                 else None in
  let get {A} (f : ProjectedMessage -> A) (d : A) := from_option f d message in
  let envelope := {|
    ev_EventID := eventID; ev_Type := eventType; ev_Version := 0;
    ev_OccurredAt := match message with
                     | Some m => if negb (time_IsZero (pm_ProviderOccurredAt m))
                                 then pm_ProviderOccurredAt m else rc_ReceivedAt record
                     | None => rc_ReceivedAt record
                     end;
    ev_OccurredAtText := ""; ev_IngestedAt := get (fun _ => rc_ReceivedAt record) time_zero;
    ev_IngestedAtText := ""; ev_TenantID := rc_TenantID record;
    ev_ConnectionID := rc_ConnectionID record; ev_ConversationID := lookup_data data "conversation_id";
    ev_MessageID := ""; ev_ProviderMessageID := lookup_data data "provider_message_id";
    ev_ProviderTmpID := ""; ev_Direction := get pm_Direction ""; ev_Provenance := get pm_Provenance "";
    ev_ProviderStatus := get pm_ProviderStatus ""; ev_Actionable := get pm_Actionable false;
    ev_Sender := get pm_Sender ""; ev_Recipients := get pm_Recipients []; ev_Text := get pm_Text "";
    ev_Transport := get pm_Transport "";
    ev_Status := get (fun m => MessageState_text (pm_State m)) "";
    ev_State := get (fun m => MessageState_text (pm_State m)) "";
    ev_MediaID := ""; ev_MetadataPath := ""; ev_ContentPath := ""; ev_Media := [];
    ev_ProviderResponseID := lookup_data data "provider_response_id";
    ev_Reason := lookup_data data "reason";
    ev_Data := (fun p => (p.1, JString p.2)) <$> data |} in
  {| oe_ID := eventID; oe_Type := eventType; oe_AggregateID := aggregateID;
     oe_CanonicalBody := match Marshal envelope with Ok body => body | Err _ => [] end;
     oe_PartitionTenant := rc_TenantID record; oe_PartitionConnection := rc_ConnectionID record;
     oe_PartitionConversation := ev_ConversationID envelope |}.

Definition event_identifier (parts : list string) : string :=
  "evt_" +:+ stringHex (take 16 (sha256 (bytes_of (String.concat NUL parts)))).

Definition buildStableAggregateEvent (record : EnvelopeRecord) (eventType aggregateID : string)
    (data : list (string * string)) : OutboxEvent :=
  contractEvent record
    (event_identifier [rc_TenantID record; rc_ConnectionID record; eventType; aggregateID])
    eventType aggregateID data.

Definition buildEvent (record : EnvelopeRecord) (eventType aggregateID : string)
    (data : list (string * string)) : OutboxEvent :=
  contractEvent record
    (event_identifier [rc_TenantID record; rc_ConnectionID record; rc_ProviderResponseID record;
                       eventType; aggregateID])
    eventType aggregateID data.

Definition message_event_type (message : ProjectedMessage) : string :=
  if pm_Actionable message then "message.received"
  else if (pm_Provenance message =s MessageProvenanceHistory) ||
          (pm_Provenance message =s MessageProvenanceReplay) then "message.imported"
  else "message.updated".

Definition projectionEvents (record : EnvelopeRecord) : list OutboxEvent :=
  let projection := rc_Projection record in
  let events :=
    map (fun conversation => buildEvent record "conversation.updated" (pc_ConversationID conversation)
           [("conversation_id", pc_ConversationID conversation)]) (pj_Conversations projection) ++
    map (fun message => buildEvent record (message_event_type message) (pm_ProviderMessageID message)
           [("provider_message_id", pm_ProviderMessageID message);
            ("conversation_id", pm_ConversationID message)]) (pj_Messages projection) ++
    map (fun media => buildStableAggregateEvent record "media.pending" (AttachmentAggregateID media)
           [("provider_message_id", ml_ProviderMessageID media);
            ("attachment_index", Itoa (ml_Position media))]) (rc_Media record) in
  match events with
  | [] => [buildEvent record "inbox.received" (rc_ProviderResponseID record)
             [("provider_response_id", rc_ProviderResponseID record)]]
  | _ => events
  end.

(** ** Processing *)

(** The inbox store: one transaction per envelope. *)
Class InboxStore (S : Type) := { CommitEnvelope : S -> EnvelopeRecord -> S * result CommitResult }.

Section Process.
Context (unmarshalCursor : bytes -> option (string * Z)) (marshalCursor : string * Z -> bytes).
Context {S : Type} `{InboxStore S}.

Definition with_poison (record : EnvelopeRecord) (poisoned : bool) (reason : string)
    (projection : Projection) (media : list MediaLocator) (events : list OutboxEvent) : EnvelopeRecord := {|
  rc_TenantID := rc_TenantID record; rc_ConnectionID := rc_ConnectionID record;
  rc_OwnerID := rc_OwnerID record; rc_FencingToken := rc_FencingToken record;
  rc_ProviderResponseID := rc_ProviderResponseID record; rc_Raw := rc_Raw record;
  rc_Digest := rc_Digest record; rc_Projection := projection; rc_Media := media; rc_Events := events;
  rc_Poisoned := poisoned; rc_PoisonReason := reason; rc_ACKPending := rc_ACKPending record;
  rc_ACKWithheld := rc_ACKWithheld record; rc_ReceivedAt := rc_ReceivedAt record |}.

(** The record [Process] commits for an admitted envelope. *)
Definition envelope_record (envelope : ProviderEnvelope) (now : Z) : EnvelopeRecord :=
  let record := {|
    rc_TenantID := pe_TenantID envelope; rc_ConnectionID := pe_ConnectionID envelope;
    rc_OwnerID := pe_OwnerID envelope; rc_FencingToken := pe_FencingToken envelope;
    rc_ProviderResponseID := pe_ProviderResponseID envelope; rc_Raw := pe_Raw envelope;
    rc_Digest := sha256 (pe_Raw envelope); rc_Projection := pe_Projection envelope;
    rc_Media := pe_Media envelope; rc_Events := []; rc_Poisoned := false; rc_PoisonReason := "";
    rc_ACKPending := true; rc_ACKWithheld := pe_ACKWithheld envelope; rc_ReceivedAt := now |} in
  let projectionOk := is_ok (ValidateProjection unmarshalCursor marshalCursor (pe_Projection envelope)
                        (pe_Media envelope)) in
  if negb (is_nil (pe_DecodeError envelope)) || negb projectionOk then
    let reason := if pe_ACKWithheld envelope then pe_PoisonReason envelope
                  else if negb (is_nil (pe_DecodeError envelope)) then "decode_failed"
                  else "projection_invalid" in
    let poisoned := with_poison record true reason empty_projection [] [] in
    with_poison record true reason empty_projection []
      [buildEvent poisoned "inbox.poisoned" (pe_ProviderResponseID envelope) [("reason", reason)]]
  else with_poison record false "" (pe_Projection envelope) (pe_Media envelope) (projectionEvents record).

Definition Process (s : S) (envelope : ProviderEnvelope) (now : Z) : S * result ProcessResult :=
  if (pe_TenantID envelope =s "") || (pe_ConnectionID envelope =s "") || (pe_OwnerID envelope =s "") ||
     (pe_FencingToken envelope =? 0) || (blen (pe_Raw envelope) =? 0) ||
     (blen (pe_Raw envelope) >? MaxRawEnvelopeBytes)
  then (s, Err [ErrInvalidIdentifier])
  else if negb (ValidProviderResponseID (pe_ProviderResponseID envelope))
  then (s, Err (errors_Join [[ErrInvalidProviderResponseID]; [ErrInvalidIdentifier]]))
  else if pe_ACKWithheld envelope &&
          (is_nil (pe_DecodeError envelope) ||
           (pe_PoisonReason envelope <>s PoisonReasonInvalidSettingsSnapshot))
  then (s, Err [ErrInvalidIdentifier])
  else
    let record := envelope_record envelope now in
    let withheld := rc_ACKWithheld record in
    let '(s', committed) := CommitEnvelope s record in
    (s', let! result := committed in
      match result with
      | CommitInserted => Ok {| pr_ACKEligible := negb withheld; pr_ACKWithheld := withheld;
                                pr_Duplicate := false; pr_Poisoned := rc_Poisoned record |}
      | CommitDuplicate => Ok {| pr_ACKEligible := negb withheld; pr_ACKWithheld := withheld;
                                 pr_Duplicate := true; pr_Poisoned := rc_Poisoned record |}
      | CommitPoisoned => Ok {| pr_ACKEligible := negb withheld; pr_ACKWithheld := withheld;
                                pr_Duplicate := false; pr_Poisoned := true |}
      | CommitDuplicatePoisoned => Ok {| pr_ACKEligible := negb withheld; pr_ACKWithheld := withheld;
                                         pr_Duplicate := true; pr_Poisoned := true |}
      | CommitDuplicateACKWithheld => Ok {| pr_ACKEligible := false; pr_ACKWithheld := true;
                                            pr_Duplicate := true; pr_Poisoned := true |}
      | CommitConflict => Err [ErrConflictingEnvelope]
      | CommitOther _ => fail "invalid inbox commit result"
      end).
End Process.

(** ** Properties *)

(** Values a Go slice can hold. *)
Definition go_bytes (b : bytes) : Prop := blen b < two63.

Lemma identity_fields_frames l :
  Forall go_bytes l -> concat (identity_field <$> l) = concat (frame 8 <$> l).
Proof.
  induction 1 as [|v l Hv _ IH]; [done|]. cbn [fmap list_fmap concat]. f_equal; [|apply IH].
  unfold identity_field, frame, PutUint64. rewrite uint64_id; [done|].
  unfold go_bytes, blen, two64, two63 in *. lia.
Qed.

Lemma identity_fields_inj l1 l2 :
  Forall go_bytes l1 -> Forall go_bytes l2 ->
  concat (identity_field <$> l1) = concat (identity_field <$> l2) -> l1 = l2.
Proof.
  intros H1 H2. rewrite !identity_fields_frames by done. apply frames_inj; [lia|..].
  - eapply Forall_impl; [exact H1|]. intros b Hb. unfold frameable, go_bytes, two63 in *. simpl. lia.
  - eapply Forall_impl; [exact H2|]. intros b Hb. unfold frameable, go_bytes, two63 in *. simpl. lia.
Qed.

(** The key identities of two attachments, one after the other, are read back
    unambiguously: the marker of the first gives its number of fields. *)
Lemma key_identity_split f1 e1 f1' e1' f2 e2 f2' e2' :
  key_identity_fields f1 e1 ++ key_identity_fields f1' e1' =
  key_identity_fields f2 e2 ++ key_identity_fields f2' e2' ->
  key_identity_fields f1 e1 = key_identity_fields f2 e2 /\
  key_identity_fields f1' e1' = key_identity_fields f2' e2'.
Proof.
  intros H. apply app_inj_1 in H; [done|]. unfold key_identity_fields in *.
  destruct (bool_decide (f1 = _)), (bool_decide (f2 = _)); simpl in *; try done.
Qed.

Lemma key_identity_fingerprint f1 e1 f2 e2 :
  key_identity_fields f1 e1 = key_identity_fields f2 e2 -> f1 = f2.
Proof.
  unfold key_identity_fields.
  destruct (bool_decide (f1 = _)) eqn:E1, (bool_decide (f2 = _)) eqn:E2; reflect_bools; simpl;
    congruence.
Qed.

(** The identity of an attachment binds everything that affects fetching or
    presenting it: two attachments whose hashed bytes agree have the same
    locator, MIME type, size and file name, and the same identities and
    fingerprints of both keys; no field can be shifted into another. *)
Theorem attachment_identity_injective (a b : MediaLocator)
  (Ha : Forall go_bytes (attachment_fields a)) (Hb : Forall go_bytes (attachment_fields b))
  (Hsa : 0 <= ml_DeclaredSize a < two63) (Hsb : 0 <= ml_DeclaredSize b < two63)
  (Heq : attachment_preimage a = attachment_preimage b) :
  ml_Locator a = ml_Locator b /\ ml_MIMEType a = ml_MIMEType b /\
  ml_DeclaredSize a = ml_DeclaredSize b /\ ml_DisplayFilename a = ml_DisplayFilename b /\
  key_identity_fields (ml_KeyDigest a) (ml_KeyEnvelope a) =
    key_identity_fields (ml_KeyDigest b) (ml_KeyEnvelope b) /\
  key_identity_fields (ml_ThumbnailKeyDigest a) (ml_ThumbnailKeyEnvelope a) =
    key_identity_fields (ml_ThumbnailKeyDigest b) (ml_ThumbnailKeyEnvelope b) /\
  ml_KeyDigest a = ml_KeyDigest b /\ ml_ThumbnailKeyDigest a = ml_ThumbnailKeyDigest b.
Proof.
  apply identity_fields_inj in Heq; [|done..]. unfold attachment_fields in Heq. cbn [app] in Heq.
  remember (PutUint64 (uint64 (ml_DeclaredSize a))) as pa eqn:Epa.
  remember (PutUint64 (uint64 (ml_DeclaredSize b))) as pb eqn:Epb.
  injection Heq as Hl Hm Hs Hf Hk. rewrite Epa, Epb in Hs. apply key_identity_split in Hk as [Hk Ht].
  split_and!; [exact (bytes_of_inj _ _ Hl)|exact (bytes_of_inj _ _ Hm)| |exact (bytes_of_inj _ _ Hf)|exact Hk
    |exact Ht|exact (key_identity_fingerprint _ _ _ _ Hk)|exact (key_identity_fingerprint _ _ _ _ Ht)].
  unfold PutUint64 in Hs. rewrite !uint64_id in Hs by (unfold two63, two64 in *; lia).
  apply (be_encode_inj 8) in Hs; [done | unfold two63 in *; simpl; lia..].
Qed.

(** *** What a validated projection guarantees *)

Lemma validate_messages_sound ms seen total ids :
  validate_messages ms seen total = Ok ids -> 0 <= total ->
  NoDup (pm_ProviderMessageID <$> ms) /\
  Forall (fun m => validate_message m = Ok tt) ms /\
  (forall m, m ∈ ms -> pm_ProviderMessageID m ∉ seen) /\
  ids = list_to_set (pm_ProviderMessageID <$> ms) ∪ seen /\
  (ms <> [] -> total + foldr (fun m acc => len (pm_Text m) + acc) 0 ms <= MaxProjectionTextBytes).
Proof.
  revert seen total. induction ms as [|m ms IH]; intros seen total; cbn [validate_messages].
  { intros [= <-] _. split_and!; [constructor | constructor | set_solver | set_solver | done]. }
  intros (u & Hm & H)%result_bind_ok Ht. destruct u.
  destruct (bool_decide _) eqn:Ed; [done|]. reflect_bools.
  destruct (_ >? _) eqn:El; [done|]. rewrite Z.gtb_ltb in El. apply Z.ltb_ge in El.
  pose proof (len_nonneg (pm_Text m)).
  destruct (IH _ _ H) as (Hnd & Hall & Hfresh & Hids & Htext); [lia|].
  cbn [fmap list_fmap foldr]. split_and!.
  - constructor; [|done]. rewrite list_elem_of_fmap. intros (m' & Heq & Hm').
    apply (Hfresh m' Hm'). rewrite Heq. set_solver.
  - by constructor.
  - intros m' [->|Hm']%elem_of_cons; [done|]. specialize (Hfresh _ Hm'). set_solver.
  - rewrite Hids. set_solver.
  - intros _. destruct ms as [|m2 ms2]; [simpl; lia|]. assert (m2 :: ms2 <> []) as Hne by done.
    specialize (Htext Hne). lia.
Qed.

Lemma validate_media_sound ml ids positions :
  validate_media ml ids positions = Ok tt ->
  Forall (fun a => ml_ProviderMessageID a ∈ ids /\ 0 <= ml_Position a < MaxAttachmentsPerMessage /\
            0 <= ml_DeclaredSize a <= MaxDeclaredMediaBytes) ml /\
  (forall a, a ∈ ml -> ml_Position a ∉ positions_of positions (ml_ProviderMessageID a)) /\
  NoDup ((fun a => (ml_ProviderMessageID a, ml_Position a)) <$> ml).
Proof.
  revert positions. induction ml as [|a ml IH]; intros positions; cbn [validate_media].
  { intros _. split_and!; [constructor | set_solver | constructor]. }
  pass_guard E1. pass_guard E2. cbn zeta. pass_guard E3. intros H. apply IH in H as (Hall & Hfresh & Hnd).
  repeat (apply orb_false_iff in E1 as [E1 ?]). apply orb_false_iff in E3 as [E3 _]. reflect_bools.
  split_and!.
  - constructor; [|done]. split_and!; [done | lia..].
  - intros a' [->|Ha']%elem_of_cons; [done|]. specialize (Hfresh _ Ha').
    unfold positions_of in *. destruct (decide (ml_ProviderMessageID a' = ml_ProviderMessageID a)) as [Hq|Hq].
    + rewrite Hq in *. rewrite lookup_insert_eq in Hfresh. simpl in Hfresh. set_solver.
    + by rewrite lookup_insert_ne in Hfresh.
  - cbn [fmap list_fmap]. constructor; [|done]. rewrite list_elem_of_fmap. intros (a' & Heq & Ha').
    injection Heq as Hq Hp. specialize (Hfresh _ Ha'). unfold positions_of in Hfresh.
    rewrite Hq, lookup_insert_eq, Hp in Hfresh. simpl in Hfresh. set_solver.
Qed.

(** A projection that passes validation is bounded and unambiguous: at most
    256 conversations, messages and attachments, at most 4 MiB of text, each
    provider message once, and every attachment belongs to a projected message
    at a position below sixteen that no other attachment of that message uses. *)
Theorem ValidateProjection_bounds (unmarshalCursor : bytes -> option (string * Z))
  (marshalCursor : string * Z -> bytes) (projection : Projection) (media : list MediaLocator)
  (H : ValidateProjection unmarshalCursor marshalCursor projection media = Ok tt) :
  blen (pj_Conversations projection) <= 256 /\ blen (pj_Messages projection) <= 256 /\
  blen media <= 256 /\
  foldr (fun m acc => len (pm_Text m) + acc) 0 (pj_Messages projection) <= MaxProjectionTextBytes /\
  NoDup (pm_ProviderMessageID <$> pj_Messages projection) /\
  Forall (fun m => validate_message m = Ok tt) (pj_Messages projection) /\
  NoDup ((fun a => (ml_ProviderMessageID a, ml_Position a)) <$> media) /\
  Forall (fun a => ml_ProviderMessageID a ∈ pm_ProviderMessageID <$> pj_Messages projection /\
            0 <= ml_Position a < 16 /\ 0 <= ml_DeclaredSize a <= MaxDeclaredMediaBytes) media.
Proof.
  unfold ValidateProjection in H. destruct (_ || _) eqn:E; [done|].
  repeat (apply orb_false_iff in E as [E ?]). destruct (negb _); [done|].
  apply result_bind_ok in H as (? & _ & H). apply result_bind_ok in H as (? & _ & H).
  apply result_bind_ok in H as (? & _ & H). apply result_bind_ok in H as (ids & Hm & H).
  apply validate_messages_sound in Hm as (Hnd & Hall & _ & Hids & Htext); [|done].
  apply validate_media_sound in H as (Hmall & _ & Hmnd). reflect_bools.
  unfold MaxProjectedConversations, MaxProjectedMessages, MaxProjectedAttachments in *.
  split_and!; try done.
  - destruct (pj_Messages projection); [done|]. by apply Htext.
  - eapply Forall_impl; [exact Hmall|]. intros a (Ha & Hp & Hs). split_and!; try (unfold MaxAttachmentsPerMessage in *; lia).
    rewrite Hids in Ha. set_solver.
Qed.

(** ACK eligibility follows the durable commit: [Process] reports an
    envelope eligible only when the store committed it (newly, as a duplicate, or
    as poison) and it is not withheld; an envelope that did not decode or did not
    validate is committed as poison with no projection, no media and a single
    poison event, and any other is committed with exactly the projection it
    carried, which validated. *)
Theorem Process_ack_follows_commit (unmarshalCursor : bytes -> option (string * Z))
  (marshalCursor : string * Z -> bytes) {S : Type} `{InboxStore S} (s s' : S)
  (envelope : ProviderEnvelope) (now : Z) (r : ProcessResult)
  (Hok : Process unmarshalCursor marshalCursor s envelope now = (s', Ok r)) :
  let record := envelope_record unmarshalCursor marshalCursor envelope now in
  (exists commit, CommitEnvelope s record = (s', Ok commit) /\
     (pr_ACKEligible r = true ->
      pe_ACKWithheld envelope = false /\
      commit ∈ [CommitInserted; CommitDuplicate; CommitPoisoned; CommitDuplicatePoisoned])) /\
  (if rc_Poisoned record
   then rc_Projection record = empty_projection /\ rc_Media record = [] /\
        (exists event, rc_Events record = [event] /\ oe_Type event = "inbox.poisoned") /\
        pr_Poisoned r = true
   else rc_Projection record = pe_Projection envelope /\ rc_Media record = pe_Media envelope /\
        pe_DecodeError envelope = [] /\
        ValidateProjection unmarshalCursor marshalCursor (pe_Projection envelope) (pe_Media envelope) = Ok tt).
Proof.
  cbn zeta. unfold Process in Hok. revert Hok. pass_guard E1. pass_guard E2. pass_guard Ew. intros Hok.
  set (record := envelope_record unmarshalCursor marshalCursor envelope now) in *.
  assert (Hw : rc_ACKWithheld record = pe_ACKWithheld envelope).
  { unfold record, envelope_record. by case_if_goal Eb. }
  destruct (CommitEnvelope s record) as [s1 [commit|e]] eqn:Ec; [|done]. cbn [result_bind] in Hok.
  injection Hok as -> Hr. split.
  - exists commit. split; [done|]. destruct commit; simpl in Hr; try done; injection Hr as <-;
      cbn [pr_ACKEligible]; intros Hn; try done; rewrite Hw in Hn; apply negb_true_iff in Hn;
      (split; [done|]); set_solver.
  - destruct (rc_Poisoned record) eqn:Ep.
    + assert (pr_Poisoned r = true).
      { destruct commit; simpl in Hr; try done; injection Hr as <-; simpl; done. }
      unfold record, envelope_record in *. case_if_in Ep Eb; [|done]. simpl. split_and!; [done..| |done].
      eexists. split; done.
    + unfold record, envelope_record in *. case_if_in Ep Eb; [done|]. cbn.
      apply orb_false_iff in Eb as [Ed Ev]. apply negb_false_iff in Ed, Ev. apply is_nil_true in Ed.
      split_and!; try done. by destruct (ValidateProjection _ _ _ _) as [[]|].
Qed.

(** ** Concrete envelopes *)

Definition empty_key : Session.Envelope := {|
  en_Revision := 0; en_Version := 0; en_Provider := ""; en_Ciphertext := []; en_WrappedDEK := [];
  en_Nonce := []; en_KeyID := ""; en_KeyVersion := 0 |}.

Definition example_locator (name : string) : MediaLocator := {|
  ml_ProviderMessageID := "p1"; ml_Locator := "gmessages:abc"; ml_Position := 0;
  ml_MIMEType := "image/png"; ml_DeclaredSize := 1024; ml_DisplayFilename := name;
  ml_KeyEnvelope := empty_key; ml_ThumbnailKeyEnvelope := empty_key;
  ml_KeyDigest := zero_fingerprint; ml_ThumbnailKeyDigest := zero_fingerprint |}.

Definition example_projected : ProjectedMessage := {|
  pm_ProviderMessageID := "p1"; pm_ProviderTmpID := ""; pm_ConversationID := "v1";
  pm_Direction := "inbound"; pm_Provenance := MessageProvenanceLive; pm_ProviderStatus := "INCOMING_COMPLETE";
  pm_ProviderOccurredAt := time_zero; pm_Actionable := true; pm_Sender := "+12025550100";
  pm_Recipients := []; pm_Text := "hello"; pm_Transport := "rcs"; pm_State := MessageStateDelivered |}.

Definition example_projection : Projection := {|
  pj_Conversations := [{| pc_ConversationID := "v1"; pc_DefaultOutgoingID := ""; pc_IsGroup := false |}];
  pj_Messages := [example_projected]; pj_Lines := []; pj_LineSnapshot := false; pj_Cursor := [];
  pj_CursorBase := []; pj_CursorCandidate := []; pj_CursorSource := ""; pj_CursorConversationID := "" |}.

Definition example_provider_envelope : ProviderEnvelope := {|
  pe_TenantID := "t1"; pe_ConnectionID := "c1"; pe_OwnerID := "actor-a"; pe_FencingToken := 1;
  pe_ProviderResponseID := "resp-1"; pe_Raw := bytes_of "raw"; pe_Projection := example_projection;
  pe_Media := [example_locator "a.png"]; pe_DecodeError := []; pe_ACKWithheld := false;
  pe_PoisonReason := "" |}.

Definition no_codec : bytes -> option (string * Z) := fun _ => None.
Definition plain_codec : string * Z -> bytes := fun p => bytes_of p.1.

(** A store that records what it commits. *)
#[local] Instance recording_inbox : InboxStore (list EnvelopeRecord) := {
  CommitEnvelope s record := (s ++ [record], Ok CommitInserted)
}.

Lemma attachment_identity_injective_witness :
  attachment_preimage (example_locator "a.png") = attachment_preimage (example_locator "a.png") /\
  ml_DisplayFilename (example_locator "a.png") = "a.png".
Proof.
  split; [reflexivity|].
  destruct (attachment_identity_injective (example_locator "a.png") (example_locator "a.png"))
    as (_ & _ & _ & H & _).
  - repeat constructor.
  - repeat constructor.
  - done.
  - done.
  - reflexivity.
  - exact H.
Defined.

Lemma ValidateProjection_bounds_witness :
  NoDup (pm_ProviderMessageID <$> pj_Messages example_projection).
Proof.
  apply (ValidateProjection_bounds no_codec plain_codec example_projection [example_locator "a.png"]).
  vm_compute. reflexivity.
Defined.

Definition example_processed : list EnvelopeRecord * result ProcessResult :=
  Process no_codec plain_codec [] example_provider_envelope (1000 * Second).

Lemma Process_ack_follows_commit_witness :
  exists commit, CommitEnvelope [] (envelope_record no_codec plain_codec example_provider_envelope
    (1000 * Second)) = (example_processed.1, Ok commit).
Proof.
  destruct (Process_ack_follows_commit no_codec plain_codec [] example_processed.1
    example_provider_envelope (1000 * Second)
    {| pr_ACKEligible := true; pr_ACKWithheld := false; pr_Duplicate := false; pr_Poisoned := false |})
    as [(commit & Hc & _) _].
  - vm_compute. reflexivity.
  - exists commit. exact Hc.
Defined.
