(* ===== verification/Provider.v ===== *)
(** * Provider observations (internal/gateway/provider/gmessages/durable_sink.go)

    The normalisation of provider status codes, times and transports into what
    the gateway stores. A [gmproto.MessageStatusType] is its number. *)

From S2P Require Import Prelude GoText Crypto Domain Ingress.

Definition OUTGOING_COMPLETE : Z := 1.
Definition OUTGOING_DELIVERED : Z := 2.
Definition OUTGOING_DISPLAYED : Z := 11.
Definition OUTGOING_FAILED_TO_ENCRYPT : Z := 27.
Definition INCOMING_COMPLETE : Z := 100.
Definition INCOMING_DELIVERED : Z := 108.
Definition INCOMING_DISPLAYED : Z := 109.
Definition INCOMING_DOWNLOAD_RESTRICTED : Z := 118.

(** OUTGOING_FAILED_GENERIC, ..._EMERGENCY_NUMBER, CANCELED, FAILED_TOO_LARGE,
    ..._RECIPIENT_LOST_RCS, ..._NO_RETRY_NO_FALLBACK, ..._DID_NOT_DECRYPT,
    ..._LOST_ENCRYPTION, ..._DID_NOT_DECRYPT_NO_MORE_RETRY,
    ..._NEGATIVE_DELIVERY, ..._EMERGENCY_PROTOCOL_DETERMINATION_MESSAGE,
    RESTRICTED, FAILED_TO_ENCRYPT. *)
Definition outgoing_failures : list Z := [8; 9; 12; 13; 17; 18; 19; 21; 22; 24; 25; 26; 27].

Definition MapProviderMessageState (status : Z) : MessageState :=
  if status =? OUTGOING_COMPLETE then MessageStateSent
  else if status =? OUTGOING_DELIVERED then MessageStateDelivered
  else if status =? OUTGOING_DISPLAYED then MessageStateRead
  else if (status =? INCOMING_COMPLETE) || (status =? INCOMING_DELIVERED) then MessageStateDelivered
  else if status =? INCOMING_DISPLAYED then MessageStateRead
  else if bool_decide (status ∈ outgoing_failures) then MessageStateFailed
  else no_state.

Definition providerMessageDirection (status : Z) : string :=
  if (status >=? OUTGOING_COMPLETE) && (status <=? OUTGOING_FAILED_TO_ENCRYPT) then "outbound"
  else if (status >=? INCOMING_COMPLETE) && (status <=? INCOMING_DOWNLOAD_RESTRICTED) then "inbound"
  else "unknown".

Definition providerInboundReady (status : Z) : bool := status =? INCOMING_COMPLETE.

Definition trustedProviderMessageTime (microseconds : Z) : Z :=
  if (microseconds <? 946684800000000) || (microseconds >=? 7258118400000000) then time_zero
  else microseconds * Microsecond.

Definition mapProviderTransport (providerType : Z) : string :=
  if providerType =? 1 then "sms"
  else if (providerType =? 2) || (providerType =? 3) then "mms"
  else if providerType =? 4 then "rcs"
  else "".

(** An observation that can move a message out of the gateway's own hands. *)
Definition evidence (s : MessageState) : bool :=
  match s with
  | MessageStateQueued | MessageStateDispatching | MessageStateOther _ => false
  | _ => true
  end.

Lemma MapProviderMessageState_range status :
  MapProviderMessageState status = no_state \/ evidence (MapProviderMessageState status) = true.
Proof.
  unfold MapProviderMessageState.
  repeat match goal with |- context [if ?b then _ else _] => destruct b; [by right|] end. by left.
Qed.
