(* ===== verification/Reconcile.v ===== *)
(** * Reconciliation of provider observations (internal/gateway/store/postgres/messages.go)

    The message loop of [CommitEnvelope]: an observed provider message is
    inserted, or matched to the message it echoes and folded into its status
    history; an outbound message whose derived state changes emits a transition
    event.  Also [RecordCreatedConversationFenced], which binds the conversation
    a send created. *)

From S2P Require Import Prelude GoText Crypto GoEncoding Domain Messaging Session EventContract Store.
From S2P Require Import Outbound Dispatch DispatchStore Ingress Provider.

(** The fields of the envelope record the loop reads. *)
Record ReconcileContext := { rx_TenantID : string; rx_ConnectionID : string; rx_ReceivedAt : Z }.

(** lockProjectedMessageSQL: the row with the temporary identifier first. *)
Definition lock_projected (db : Db) (t : tenant) (c providerMessageID tmpID : string)
    : option ((string * string) * MessageRow) :=
  let rows := List.filter (fun p => (p.1.1 =s t) && (ms_ConnectionID p.2 =s c)) (map_to_list (messages db)) in
  match find (fun p => (tmpID <>s "") && bool_decide (ms_ProviderTmpID p.2 = Some tmpID)) rows with
  | Some p => Some p
  | None => find (fun p => bool_decide (ms_ProviderMessageID p.2 = Some providerMessageID)) rows
  end.

Definition receiptTransitionEventID (t messageID : string) (state : MessageState)
    (projected : ProjectedMessage) : string :=
  event_identifier [t; messageID; MessageState_text state; pm_ProviderMessageID projected;
                    pm_ProviderTmpID projected].

Definition known_direction (direction : string) : bool :=
  (direction =s "inbound") || (direction =s "outbound") || (direction =s "unknown").
Definition known_transport (transport : string) : bool :=
  (transport =s "") || (transport =s "sms") || (transport =s "mms") || (transport =s "rcs").

Definition projected_row (c : string) (projected : ProjectedMessage) (direction : string)
    (state : MessageState) (now : Z) : MessageRow := {|
  ms_ConnectionID := c; ms_ConversationID := pm_ConversationID projected;
  ms_OrderingKey := pm_ConversationID projected; ms_Direction := direction; ms_Recipient := "";
  ms_LineID := None; ms_RouteMode := ""; ms_Text := pm_Text projected;
  ms_ProviderMessageID := Some (pm_ProviderMessageID projected);
  ms_ProviderTmpID := NULLIF_empty (pm_ProviderTmpID projected);
  ms_Transport := pm_Transport projected; ms_State := state; ms_CreatedAt := now |}.

(** insertProjectedMessageSQL after the lookup found nothing. *)
Definition insert_projected (cx : ReconcileContext) (projected : ProjectedMessage) (candidateID : string)
    (now : Z) (db : Db) : result (Db * (string * MessageState * string)) :=
  let state := if bool_decide (pm_State projected = no_state) then MessageStateUncertain
               else pm_State projected in
  if negb (is_ok (MessageState_Validate state)) then fail "invalid provider message state"
  else
    let direction := if pm_Direction projected =s "" then "inbound" else pm_Direction projected in
    let! _ := foreign_key (has_connection db (rx_TenantID cx) (rx_ConnectionID cx)) in
    let! _ := check_constraint (known_direction direction && known_transport (pm_Transport projected) &&
                                (len (pm_Text projected) <=? 65536)) in
    match messages db !! (rx_TenantID cx, candidateID) with
    | Some _ => Err [SqlErrNoRows]
    | None =>
      Ok (set_messages (<[(rx_TenantID cx, candidateID) :=
            projected_row (rx_ConnectionID cx) projected direction state now]> (messages db)) db,
          (candidateID, state, direction))
    end.

(** The direction after the observation; a contradiction is an error. *)
Definition reconcile_direction (stored observed : string) : result string :=
  if (observed <>s "") && (observed <>s "unknown") then
    if stored =s "unknown" then Ok observed
    else if stored =s observed then Ok stored
    else fail "provider message direction conflicts with durable identity"
  else Ok stored.

(** updateProjectedMessageSQL. *)
Definition reconciled_row (m : MessageRow) (projected : ProjectedMessage) (derived : MessageState)
    (direction : string) : MessageRow := {|
  ms_ConnectionID := ms_ConnectionID m;
  ms_ConversationID := if pm_ConversationID projected =s "" then ms_ConversationID m
                       else pm_ConversationID projected;
  ms_OrderingKey := ms_OrderingKey m;
  ms_Direction := if (ms_Direction m =s "unknown") && ((direction =s "inbound") || (direction =s "outbound"))
                  then direction else ms_Direction m;
  ms_Recipient := ms_Recipient m; ms_LineID := ms_LineID m; ms_RouteMode := ms_RouteMode m;
  ms_Text := if ms_Text m =s "" then pm_Text projected else ms_Text m;
  ms_ProviderMessageID := if pm_ProviderMessageID projected =s "" then ms_ProviderMessageID m
                          else Some (pm_ProviderMessageID projected);
  ms_ProviderTmpID := ms_ProviderTmpID m;
  ms_Transport := if pm_Transport projected =s "" then ms_Transport m else pm_Transport projected;
  ms_State := derived; ms_CreatedAt := ms_CreatedAt m |}.

(** The derived state of a stored message under an observation. *)
Definition reconciled_state (db : Db) (t messageID : string) (current : MessageState)
    (observed : MessageState) : MessageState :=
  let history := loadMessageStateHistory db t messageID in
  let history := if is_nil history then [current] else history in
  DeriveMessageState (history ++ (if bool_decide (observed = no_state) then [] else [observed])).

(** [UNIQUE (tenant_id, connection_id, provider_message_id)] under an update. *)
Definition provider_id_taken (db : Db) (t c messageID : string) (providerID : option string) : bool :=
  match providerID with
  | None => false
  | Some id => existsb (fun p => (p.1.1 =s t) && (p.1.2 <>s messageID) && (ms_ConnectionID p.2 =s c) &&
                                 bool_decide (ms_ProviderMessageID p.2 = Some id)) (map_to_list (messages db))
  end.

(** What the loop carries from one branch to the common tail. *)
Record Reconciled := {
  ro_messageID : string;
  ro_direction : string;
  ro_state : MessageState;
  ro_transition : option MessageState
}.

Definition reconcile_existing (cx : ReconcileContext) (projected : ProjectedMessage) (messageID : string)
    (m : MessageRow) (db : Db) : result (Db * Reconciled) :=
  let! direction := reconcile_direction (ms_Direction m) (pm_Direction projected) in
  let derived := reconciled_state db (rx_TenantID cx) messageID (ms_State m) (pm_State projected) in
  if negb (is_ok (MessageState_Validate derived)) then fail "invalid reconciled provider message state"
  else
    let row := reconciled_row m projected derived direction in
    let! _ := check_constraint (known_transport (ms_Transport row) && (len (ms_Text row) <=? 65536)) in
    let! _ := check_constraint (negb (provider_id_taken db (rx_TenantID cx) (rx_ConnectionID cx) messageID
                                        (ms_ProviderMessageID row))) in
    let transition := if (direction =s "outbound") && negb (bool_decide (derived = ms_State m))
                      then Some derived else None in
    Ok (set_messages (<[(rx_TenantID cx, messageID) := row]> (messages db)) db,
        {| ro_messageID := messageID; ro_direction := direction; ro_state := derived;
           ro_transition := transition |}).

Definition transition_envelope (cx : ReconcileContext) (projected : ProjectedMessage)
    (eventID messageID : string) (transition : MessageState) : Envelope := {|
  ev_EventID := eventID; ev_Type := "message." +:+ MessageState_text transition; ev_Version := 0;
  ev_OccurredAt := if negb (time_IsZero (pm_ProviderOccurredAt projected))
                   then pm_ProviderOccurredAt projected else rx_ReceivedAt cx;
  ev_OccurredAtText := ""; ev_IngestedAt := rx_ReceivedAt cx; ev_IngestedAtText := "";
  ev_TenantID := rx_TenantID cx; ev_ConnectionID := rx_ConnectionID cx;
  ev_ConversationID := pm_ConversationID projected; ev_MessageID := messageID;
  ev_ProviderMessageID := pm_ProviderMessageID projected; ev_ProviderTmpID := pm_ProviderTmpID projected;
  ev_Direction := "outbound"; ev_Provenance := pm_Provenance projected;
  ev_ProviderStatus := pm_ProviderStatus projected; ev_Actionable := false;
  ev_Sender := pm_Sender projected; ev_Recipients := pm_Recipients projected;
  ev_Text := pm_Text projected; ev_Transport := pm_Transport projected;
  ev_Status := MessageState_text transition; ev_State := MessageState_text transition;
  ev_MediaID := ""; ev_MetadataPath := ""; ev_ContentPath := ""; ev_Media := [];
  ev_ProviderResponseID := ""; ev_Reason := ""; ev_Data := [] |}.

Record ReconcileIDs := { ri_candidate : string; ri_status : string; ri_outbox : string }.

(** The common tail: the observed status and the transition event. *)
Definition reconcile_tail (cx : ReconcileContext) (projected : ProjectedMessage) (ro : Reconciled)
    (ids : ReconcileIDs) (now : Z) (db : Db) : result Db :=
  let t := rx_TenantID cx in
  let! db1 := (if bool_decide (pm_State projected = no_state) then Ok db
    else insertMessageStatus t (ri_status ids) (ro_messageID ro) (pm_State projected)
           (if pm_ProviderStatus projected =s "" then "gmessages" else pm_ProviderStatus projected)
           "" now db) in
  match ro_transition ro with
  | None => Ok db1
  | Some transition =>
    let eventID := receiptTransitionEventID t (ro_messageID ro) transition projected in
    let! body := Marshal (transition_envelope cx projected eventID (ro_messageID ro) transition) in
    let! db2 := insertGatewayEvent t eventID ("message." +:+ MessageState_text transition) "message"
                  (ro_messageID ro) (rx_ConnectionID cx) (pm_ConversationID projected) body db1 in
    insertEventOutbox t (ri_outbox ids) eventID now db2
  end.

(** One iteration of the loop; the boolean says that the message was inserted. *)
Definition reconcile_message (cx : ReconcileContext) (projected : ProjectedMessage) (ids : ReconcileIDs)
    (now : Z) (db : Db) : result (Db * (Reconciled * bool)) :=
  match lock_projected db (rx_TenantID cx) (rx_ConnectionID cx) (pm_ProviderMessageID projected)
          (pm_ProviderTmpID projected) with
  | Some (key, m) =>
    let! reconciled := reconcile_existing cx projected key.2 m db in
    let! db1 := reconcile_tail cx projected reconciled.2 ids now reconciled.1 in
    Ok (db1, (reconciled.2, false))
  | None =>
    let! inserted := insert_projected cx projected (ri_candidate ids) now db in
    let '(db0, (messageID, state, direction)) := inserted in
    let ro := {| ro_messageID := messageID; ro_direction := direction;
                 ro_state := state; ro_transition := None |} in
    let! db1 := reconcile_tail cx projected ro ids now db0 in
    Ok (db1, (ro, true))
  end.

Definition project_message (cx : ReconcileContext) (projected : ProjectedMessage) (ids : ReconcileIDs)
    (now : Z) (db : Db) : result Db :=
  let! reconciled := reconcile_message cx projected ids now db in
  Ok reconciled.1.

(** The database after one iteration, without what the later loops read. *)
Lemma project_message_eq cx projected ids now db :
  project_message cx projected ids now db =
  match lock_projected db (rx_TenantID cx) (rx_ConnectionID cx) (pm_ProviderMessageID projected)
          (pm_ProviderTmpID projected) with
  | Some (key, m) =>
    let! reconciled := reconcile_existing cx projected key.2 m db in
    reconcile_tail cx projected reconciled.2 ids now reconciled.1
  | None =>
    let! inserted := insert_projected cx projected (ri_candidate ids) now db in
    let '(db1, (messageID, state, direction)) := inserted in
    reconcile_tail cx projected {| ro_messageID := messageID; ro_direction := direction;
      ro_state := state; ro_transition := None |} ids now db1
  end.
Proof.
  unfold project_message, reconcile_message. destruct (lock_projected _ _ _ _ _) as [[key m]|].
  - destruct (reconcile_existing _ _ _ _ _) as [[db0 ro]|]; [|done]. simpl. by destruct (reconcile_tail _ _ _ _ _ _).
  - destruct (insert_projected _ _ _ _ _) as [[db0 [[x st] dir]]|]; [|done]. simpl.
    by destruct (reconcile_tail _ _ _ _ _ _).
Qed.

Fixpoint project_messages (cx : ReconcileContext) (projected : list ProjectedMessage)
    (ids : nat -> ReconcileIDs) (n : nat) (now : Z) (db : Db) : result Db :=
  match projected with
  | [] => Ok db
  | p :: rest =>
    let! db1 := project_message cx p (ids n) now db in
    project_messages cx rest ids (S n) now db1
  end.

(** ** Binding the conversation a send created *)

(** postgres.ErrConnectionLeaseLost and messaging.ErrCanonicalLaneBusy. *)
Definition ErrConnectionLeaseLost : sentinel := ErrText "connection lease fence lost".
Definition ErrCanonicalLaneBusy : sentinel :=
  ErrText "provider conversation already has queued or in-flight work on another lane".

(** recordCreatedConversationSQL.  [existing_key] is the lane of the conversation
    if it is known already; a busy other lane refuses the binding. *)
Definition existing_key (db : Db) (t c conversationID : string) (m : MessageRow) : string :=
  match conversations db !! (t, c, conversationID) with
  | Some conv => if cv_OrderingKey conv =s "" then conversationID else cv_OrderingKey conv
  | None => ms_OrderingKey m
  end.

Definition current_attempt (db : Db) (t c messageID key owner : string) (fencingToken : Z) : bool :=
  existsb (fun p => (p.1.1 =s t) && (at_ConnectionID p.2 =s c) && (at_OrderingKey p.2 =s key) &&
                    (at_MessageID p.2 =s messageID) && (at_Owner p.2 =s owner) &&
                    (at_FencingToken p.2 =? fencingToken) && bool_decide (at_Phase p.2 = ProviderIOStarted))
    (map_to_list (attempts db)).

Definition current_lane (db : Db) (t c messageID key owner : string) : bool :=
  match lanes db !! (t, c, key) with
  | Some l => bool_decide (ln_Owner l = Some owner) && bool_decide (ln_Claimed l = Some messageID)
  | None => false
  end.

Definition other_lane_work (db : Db) (t c messageID key : string) : bool :=
  match lanes db !! (t, c, key) with
  | Some l => negb (bool_decide (ln_Claimed l = None))
  | None => false
  end ||
  existsb (fun p => (p.1.1 =s t) && (at_ConnectionID p.2 =s c) && (at_OrderingKey p.2 =s key) &&
                    open_phase (at_Phase p.2)) (map_to_list (attempts db)) ||
  existsb (fun p => (p.1.1 =s t) && (ms_ConnectionID p.2 =s c) && (ms_OrderingKey p.2 =s key) &&
                    (p.1.2 <>s messageID) &&
                    (bool_decide (ms_State p.2 = MessageStateQueued) ||
                     bool_decide (ms_State p.2 = MessageStateDispatching))) (map_to_list (messages db)).

Definition with_conversation (m : MessageRow) (conversationID : string) : MessageRow := {|
  ms_ConnectionID := ms_ConnectionID m; ms_ConversationID := conversationID;
  ms_OrderingKey := ms_OrderingKey m; ms_Direction := ms_Direction m; ms_Recipient := ms_Recipient m;
  ms_LineID := ms_LineID m; ms_RouteMode := ms_RouteMode m; ms_Text := ms_Text m;
  ms_ProviderMessageID := ms_ProviderMessageID m; ms_ProviderTmpID := ms_ProviderTmpID m;
  ms_Transport := ms_Transport m; ms_State := ms_State m; ms_CreatedAt := ms_CreatedAt m |}.

Definition record_created_conversation (t c messageID conversationID defaultOutgoingID : string)
    (isGroup : bool) (owner : string) (fencingToken now : Z) (db : Db) : result (Db * unit) :=
  match message_dispatching db t messageID with
  | Some m =>
    let key := ms_OrderingKey m in
    let other := existing_key db t c conversationID m in
    if negb (owned_lease db t c owner fencingToken now && (ms_ConnectionID m =s c) &&
             current_attempt db t c messageID key owner fencingToken &&
             current_lane db t c messageID key owner)
    then Err [ErrConnectionLeaseLost]
    else if (other <>s key) && other_lane_work db t c messageID other
    then Err [ErrCanonicalLaneBusy]
    else
      let db1 := set_conversations (<[(t, c, conversationID) :=
                   {| cv_DefaultOutgoingID := defaultOutgoingID; cv_IsGroup := isGroup;
                      cv_OrderingKey := key |}]> (conversations db)) db in
      Ok (set_messages (<[(t, messageID) := with_conversation m conversationID]> (messages db1)) db1, tt)
  | None => Err [ErrConnectionLeaseLost]
  end.

Definition RecordCreatedConversationFenced (tenantID connectionID messageID conversationID
    defaultOutgoingID : string) (isGroup : bool) (ownerID : string) (fencingToken now : Z) (db : Db)
    : Db * result unit :=
  if (tenantID =s "") || (connectionID =s "") || (messageID =s "") ||
     negb (ValidProviderConversationID conversationID) || negb (ValidProviderIdentifier defaultOutgoingID) ||
     (ownerID =s "") || (len ownerID >? 256) || (fencingToken =? 0) || isGroup
  then (db, Err [ErrInvalidRoute])
  else inTenant tenantID (record_created_conversation tenantID connectionID messageID conversationID
         defaultOutgoingID isGroup ownerID fencingToken now) db.

(** ** Reading projected messages back *)

Lemma scan_messages_null db t rows x row :
  In (x, row) rows -> ms_ProviderTmpID row = None -> is_ok (scan_messages db t rows) = false.
Proof.
  induction rows as [|[y row'] rows IH]; [done|]. intros Hin Hn. simpl.
  destruct Hin as [[= -> ->]|Hin].
  - unfold scan_message. by rewrite Hn.
  - destruct (scan_message db t y row'); [|done]. simpl. specialize (IH Hin Hn).
    by destruct (scan_messages db t rows).
Qed.

(** The tail touches neither messages nor their media. *)
Lemma reconcile_tail_messages cx projected ro ids now db db' :
  reconcile_tail cx projected ro ids now db = Ok db' -> messages db' = messages db.
Proof.
  unfold reconcile_tail. intros (db1 & H1 & H)%result_bind_ok.
  assert (E : messages db1 = messages db).
  { destruct (bool_decide _); [by injection H1 as <-|]. by apply insertMessageStatus_ok in H1 as (_ & _ & ->). }
  rewrite <- E. destruct (ro_transition ro); [|by injection H as <-].
  apply result_bind_ok in H as (body & _ & H).
  apply result_bind_ok in H as (db2 & [_ ->]%insertGatewayEvent_ok & H).
  by apply insertEventOutbox_ok in H as (_ & _ & _ & ->).
Qed.

(** The row of a message the loop inserted. *)
Lemma project_inserted cx projected ids now db db' :
  lock_projected db (rx_TenantID cx) (rx_ConnectionID cx) (pm_ProviderMessageID projected)
    (pm_ProviderTmpID projected) = None ->
  project_message cx projected ids now db = Ok db' ->
  exists direction state, messages db' = <[(rx_TenantID cx, ri_candidate ids) :=
    projected_row (rx_ConnectionID cx) projected direction state now]> (messages db).
Proof.
  intros Hl. rewrite project_message_eq, Hl.
  intros ([db1 [[x st] dir]] & H1 & H)%result_bind_ok. rewrite (reconcile_tail_messages _ _ _ _ _ _ _ H).
  unfold insert_projected in H1. destruct (negb _); [done|]. bind_ok H1.
  destruct (messages db !! _); [done|]. injection H1 as <- _ _ _. by eexists _, _.
Qed.

(** C34. A provider message without a temporary identifier (an inbound message,
    as a rule) is stored with a NULL [provider_tmp_id], which the readers scan
    into a Go string: after it is projected, [GetMessage] fails for it, and
    [ListMessages] fails for every page that contains it. *)
Theorem projected_message_unreadable (cx : ReconcileContext) (projected : ProjectedMessage)
    (ids : ReconcileIDs) (now : Z) (db db' : Db) (options : ListOptions)
  (Hnew : lock_projected db (rx_TenantID cx) (rx_ConnectionID cx) (pm_ProviderMessageID projected)
            (pm_ProviderTmpID projected) = None)
  (Htmp : pm_ProviderTmpID projected = "")
  (Hrun : project_message cx projected ids now db = Ok db') :
  is_ok (Repository_GetMessage (rx_TenantID cx) (ri_candidate ids) db').2 = false /\
  ((exists row, In (ri_candidate ids, row)
      (message_page_rows db' (rx_TenantID cx) (lo_After options) (lo_Limit options + 1))) ->
   is_ok (Repository_ListMessages (rx_TenantID cx) options db').2 = false).
Proof.
  destruct (project_inserted _ _ _ _ _ _ Hnew Hrun) as (direction & state & Hm).
  assert (Hrow : forall row, messages db' !! (rx_TenantID cx, ri_candidate ids) = Some row ->
            ms_ProviderTmpID row = None).
  { intros row Hr. rewrite Hm, lookup_insert_eq in Hr. injection Hr as <-. simpl. by rewrite Htmp. }
  split.
  - unfold Repository_GetMessage. destruct (_ || _); [done|]. unfold inTenant.
    destruct (_ =s _); [done|]. unfold loadOutboundMessage, scan_message. simpl.
    destruct (messages db' !! _) as [row|] eqn:Er; [|done]. simpl. by rewrite (Hrow _ eq_refl).
  - intros [row Hin]. unfold Repository_ListMessages. destruct (_ || _); [done|]. unfold inTenant.
    destruct (_ =s _); [done|]. assert (Hn : ms_ProviderTmpID row = None).
    { apply Hrow. apply list_elem_of_In in Hin. unfold message_page_rows in Hin.
      apply elem_of_take in Hin as (i & Hin & _). apply list_elem_of_lookup_2 in Hin.
      rewrite merge_sort_Permutation in Hin.
      apply list_elem_of_fmap in Hin as ([[t x] row'] & [= -> ->] & Hin).
      apply list_elem_of_In, filter_In in Hin as [Hin Hf]. apply list_elem_of_In, elem_of_map_to_list in Hin.
      reflect_bools. simpl in *. by subst. }
    pose proof (scan_messages_null db' (rx_TenantID cx) _ _ _ Hin Hn) as Hs.
    destruct (scan_messages _ _ _); [done|]. done.
Qed.

Definition unreadable_context : ReconcileContext :=
  {| rx_TenantID := "t1"; rx_ConnectionID := "c1"; rx_ReceivedAt := Second |}.

Definition unreadable_inbound : ProjectedMessage := {|
  pm_ProviderMessageID := "provider-1"; pm_ProviderTmpID := ""; pm_ConversationID := "conv-1";
  pm_Text := "hi"; pm_Transport := "sms"; pm_State := MessageStateDelivered; pm_Direction := "inbound";
  pm_Sender := "+12025550100"; pm_Recipients := []; pm_ProviderOccurredAt := time_zero;
  pm_Provenance := "provider_live"; pm_ProviderStatus := ""; pm_Actionable := true |}.

Definition unreadable_ids : ReconcileIDs := {| ri_candidate := "m1"; ri_status := "s1"; ri_outbox := "o1" |}.

Definition unreadable_db : Db :=
  match project_message unreadable_context unreadable_inbound unreadable_ids Second sample_db with
  | Ok db => db
  | Err _ => sample_db
  end.

Lemma projected_message_unreadable_witness :
  is_ok (Repository_ListMessages "t1" {| lo_After := ""; lo_Limit := 50 |} unreadable_db).2 = false.
Proof.
  refine (proj2 (projected_message_unreadable unreadable_context unreadable_inbound unreadable_ids Second
    sample_db unreadable_db {| lo_After := ""; lo_Limit := 50 |} eq_refl eq_refl _) _).
  - vm_compute. reflexivity.
  - exists (projected_row "c1" unreadable_inbound "inbound" MessageStateDelivered Second).
    vm_compute. left. reflexivity.
Defined.
