(* ===== verification/DispatchInvariant.v ===== *)
(** * The invariant of lanes, attempts, messages and their statuses

    What every operation of the store preserves, and what makes a provider send
    happen at most once: attempts carry distinct lane tokens, an attempt whose
    provider I/O has started is the newest of its message, its message is never
    back in the queue, and the status history keeps the gateway's own states
    strictly before any provider evidence, so that reconciliation cannot derive a
    queued state for a message that was handed to the provider. *)

From S2P Require Import Prelude GoText Crypto GoEncoding Domain Messaging Session EventContract Store.
From S2P Require Import Outbound Dispatch DispatchStore Ingress Provider Reconcile.

(** ** The derived state of ordered histories *)

(** The states the gateway itself writes before the provider answers. *)
Definition early (s : MessageState) : bool :=
  match s with MessageStateQueued | MessageStateDispatching => true | _ => false end.

Lemma evidence_not_early s : evidence s = true -> early s = false.
Proof. by destruct s. Qed.

Lemma derive_early h :
  Forall (fun s => early s = true) h ->
  (h = [] \/ early (DeriveMessageState h) = true) /\
  (MessageStateDispatching ∈ h -> DeriveMessageState h = MessageStateDispatching).
Proof.
  induction h as [|s h IH] using rev_ind; intros He; [split; [auto | intros H; inversion H]|].
  apply Forall_app in He as [He [Hs _]%Forall_cons]. destruct (IH He) as [IH1 IH2].
  rewrite derive_snoc. split.
  - right. destruct IH1 as [-> | IH1]; [by destruct s|].
    destruct s; try done; destruct (DeriveMessageState h); done.
  - intros [Hd | Hd%list_elem_of_singleton]%elem_of_app.
    + rewrite (IH2 Hd). by destruct s.
    + subst s. destruct IH1 as [-> | IH1]; [done|]. by destruct (DeriveMessageState h).
Qed.

Lemma derive_evidence_stays h v :
  Forall (fun s => early s = false) v ->
  evidence (DeriveMessageState h) = true -> evidence (DeriveMessageState (h ++ v)) = true.
Proof.
  induction v as [|s v IH] using rev_ind; [by rewrite app_nil_r|].
  intros [Hv [Hs _]%Forall_cons]%Forall_app He. rewrite app_assoc, derive_snoc.
  specialize (IH Hv He). destruct s; try done; destruct (DeriveMessageState (h ++ v)); done.
Qed.

Lemma derive_evidence h s v :
  Forall (fun s => early s = false) v ->
  evidence s = true -> s ∈ v -> evidence (DeriveMessageState (h ++ v)) = true.
Proof.
  intros Hv Hs (v1 & v2 & ->)%list_elem_of_split. rewrite cons_middle, !app_assoc.
  apply Forall_app in Hv as [_ [_ Hv2]%Forall_cons]. apply derive_evidence_stays; [done|].
  rewrite derive_snoc. destruct s; try done; by destruct (DeriveMessageState (h ++ v1)).
Qed.

(** Later observations leave the derived state alone or turn it into evidence. *)
Lemma derive_late h v :
  Forall (fun s => early s = false) v ->
  DeriveMessageState (h ++ v) = DeriveMessageState h \/ evidence (DeriveMessageState (h ++ v)) = true.
Proof.
  induction v as [|s v IH] using rev_ind; [rewrite app_nil_r; auto|].
  intros [Hv [Hs _]%Forall_cons]%Forall_app. rewrite app_assoc, derive_snoc.
  destruct (evidence s) eqn:Es.
  - right. destruct s; try done; destruct (DeriveMessageState (h ++ v)); done.
  - destruct s; try done. by apply IH.
Qed.

(** A sorted history in which the gateway's own states come first splits there. *)
Lemma ordered_split (l : list ((string * string) * StatusRow)) :
  StronglySorted status_le l ->
  (forall a b, a ∈ l -> b ∈ l -> early (st_State a.2) = true -> early (st_State b.2) = false ->
     st_ObservedAt a.2 < st_ObservedAt b.2) ->
  exists e v, (fun p => st_State p.2) <$> l = e ++ v /\
    Forall (fun s => early s = true) e /\ Forall (fun s => early s = false) v.
Proof.
  induction 1 as [|a l Hs IH Ha]; intros Ho; [exists [], []; auto|].
  destruct (early (st_State a.2)) eqn:Ea.
  - destruct IH as (e & v & Hl & He & Hv); [intros; apply Ho; by (try (right; assumption))|].
    exists (st_State a.2 :: e), v. rewrite fmap_cons, Hl. auto.
  - exists [], (st_State a.2 :: ((fun p => st_State p.2) <$> l)). split_and!; [done..|].
    constructor; [done|]. apply Forall_fmap, Forall_forall. intros b Hb. cbn.
    destruct (early (st_State b.2)) eqn:Eb; [|done].
    assert (st_ObservedAt b.2 < st_ObservedAt a.2) by (apply Ho; [by right | by left | done..]).
    rewrite Forall_forall in Ha. specialize (Ha b Hb). unfold status_le in Ha. lia.
Qed.

#[export] Instance status_le_total : Total status_le.
Proof.
  intros a b. unfold status_le.
  destruct (Z.lt_trichotomy (st_ObservedAt a.2) (st_ObservedAt b.2)) as [?|[?|?]]; [auto| |auto].
  destruct (total String.le a.1.2 b.1.2); auto.
Qed.

#[export] Instance status_le_trans : Transitive status_le.
Proof.
  intros a b c. unfold status_le. intros [?|[? ?]] [?|[? ?]]; [left; lia..|]. right.
  split; [lia | by transitivity b.1.2].
Qed.

(** ** The invariant *)

Abbreviation Lanes := (gmap (string * string * string) LaneRow).
Abbreviation Messages := (gmap (string * string) MessageRow).
Abbreviation Attempts := (gmap (string * string) AttemptRow).
Abbreviation Statuses := (gmap (string * string) StatusRow).

Definition io_started (a : AttemptRow) : Prop := is_Some (at_ProviderIOStartedAt a).

(** What an attempt row relies on in the other tables. *)
Definition attempt_ok (L : Lanes) (M : Messages) (S : Statuses) (t : string) (a : AttemptRow) : Prop :=
  (exists m, M !! (t, at_MessageID a) = Some m /\ ms_ConnectionID m = at_ConnectionID a /\
     ms_OrderingKey m = at_OrderingKey a /\ (io_started a -> ms_State m <> MessageStateQueued)) /\
  (exists l, L !! (t, at_ConnectionID a, at_OrderingKey a) = Some l /\ at_LaneToken a <= ln_Token l) /\
  (exists s r, S !! (t, s) = Some r /\ st_MessageID r = at_MessageID a /\
     st_State r = MessageStateDispatching) /\
  (at_Phase a = Claimed -> at_ProviderIOStartedAt a = None).

(** What two attempts of a tenant owe each other. *)
Definition attempts_apart (a b : AttemptRow) : Prop :=
  (at_ConnectionID a = at_ConnectionID b -> at_OrderingKey a = at_OrderingKey b ->
   at_LaneToken a <> at_LaneToken b) /\
  (at_MessageID a = at_MessageID b -> io_started a -> at_LaneToken b < at_LaneToken a).

(** The open attempt a claimed lane stands for. *)
Definition lane_holder (A : Attempts) (t c key messageID : string) (token : Z) : Prop :=
  exists x a, A !! (t, x) = Some a /\ at_MessageID a = messageID /\ at_LaneToken a = token /\
    at_ConnectionID a = c /\ at_OrderingKey a = key /\ open_phase (at_Phase a) = true.

(** No provider evidence is recorded for a message. *)
Definition unobserved (S : Statuses) (t messageID : string) : Prop :=
  forall s r, S !! (t, s) = Some r -> st_MessageID r = messageID -> early (st_State r) = true.

(** [T] bounds the times recorded so far. *)
Record tables_ok (T : Z) (L : Lanes) (M : Messages) (A : Attempts) (S : Statuses) : Prop := {
  ok_attempt t x a : A !! (t, x) = Some a -> attempt_ok L M S t a;
  ok_apart t x a y b : A !! (t, x) = Some a -> A !! (t, y) = Some b -> x <> y -> attempts_apart a b;
  ok_holder t c key l messageID : L !! (t, c, key) = Some l -> ln_Claimed l = Some messageID ->
    lane_holder A t c key messageID (ln_Token l);
  ok_status t s r : S !! (t, s) = Some r ->
    is_Some (M !! (t, st_MessageID r)) /\ st_ObservedAt r <= T /\
    (early (st_State r) = true \/ evidence (st_State r) = true);
  ok_order t s r s' r' : S !! (t, s) = Some r -> S !! (t, s') = Some r' ->
    st_MessageID r = st_MessageID r' -> early (st_State r) = true -> early (st_State r') = false ->
    st_ObservedAt r < st_ObservedAt r';
  ok_early t x m : M !! (t, x) = Some m -> early (ms_State m) = true -> unobserved S t x
}.

Definition dispatch_ok (T : Z) (db : Db) : Prop :=
  tables_ok T (lanes db) (messages db) (attempts db) (statuses db).

(** ** Updates of one table *)

(** Splits a lookup in an updated table into the new row and the old ones. *)
Ltac in_insert H :=
  let E := fresh "E" in
  apply lookup_insert_Some in H as [[E H]|[E H]]; [simplify_eq|].

Lemma later_ok T T' L M A S : T <= T' -> tables_ok T L M A S -> tables_ok T' L M A S.
Proof.
  intros HT [H1 H2 H3 H4 H5 H6]. split; try eassumption.
  intros t s r Hr. destruct (H4 t s r Hr) as (? & ? & ?). split_and!; [done | lia | done].
Qed.

Lemma lane_put T L M A S t c key l :
  tables_ok T L M A S ->
  (forall x a, A !! (t, x) = Some a -> at_ConnectionID a = c -> at_OrderingKey a = key ->
     at_LaneToken a <= ln_Token l) ->
  (forall m, ln_Claimed l = Some m -> lane_holder A t c key m (ln_Token l)) ->
  tables_ok T (<[(t, c, key) := l]> L) M A S.
Proof.
  intros [H1 H2 H3 H4 H5 H6] Htok Hheld. split; try eassumption.
  - intros t' x a Ha. destruct (H1 t' x a Ha) as (Hm & (l' & Hl & Hle) & Hs & Hp).
    split_and!; [done| |done..].
    destruct (decide ((t, c, key) = (t', at_ConnectionID a, at_OrderingKey a))) as [E|E].
    + simplify_eq. exists l. rewrite lookup_insert_eq. split; [done|]. by eapply Htok.
    + exists l'. by rewrite lookup_insert_ne.
  - intros t' c' key' l' m Hl Hm. in_insert Hl; [by apply Hheld | by eapply H3].
Qed.

Lemma message_put T L M A S t x m :
  tables_ok T L M A S ->
  (forall old, M !! (t, x) = Some old ->
     ms_ConnectionID old = ms_ConnectionID m /\ ms_OrderingKey old = ms_OrderingKey m) ->
  (early (ms_State m) = true -> unobserved S t x) ->
  (ms_State m = MessageStateQueued ->
     forall y a, A !! (t, y) = Some a -> at_MessageID a = x -> ~ io_started a) ->
  tables_ok T L (<[(t, x) := m]> M) A S.
Proof.
  intros [H1 H2 H3 H4 H5 H6] Hold Hun Hq. split; try eassumption.
  - intros t' y a Ha. destruct (H1 t' y a Ha) as ((m' & Hm & Hc & Hk & Hs) & Hl).
    split; [|done]. destruct (decide ((t, x) = (t', at_MessageID a))) as [E|E].
    + simplify_eq. exists m. rewrite lookup_insert_eq. destruct (Hold _ Hm) as [? ?].
      split_and!; [done | congruence | congruence |]. intros Hio Hqs. by eapply Hq.
    + exists m'. by rewrite lookup_insert_ne.
  - intros t' s r Hr. destruct (H4 t' s r Hr) as (Hm & ? & ?). split; [|done].
    apply lookup_insert_is_Some'. by right.
  - intros t' x' m' Hm He. in_insert Hm; [by apply Hun | by eapply H6].
Qed.

Lemma status_put T L M A S t s r m :
  tables_ok T L M A S -> M !! (t, st_MessageID r) = Some m -> S !! (t, s) = None ->
  st_ObservedAt r <= T ->
  (early (st_State r) = true /\ unobserved S t (st_MessageID r) \/
   evidence (st_State r) = true /\ early (ms_State m) = false /\
   (forall s' r', S !! (t, s') = Some r' -> st_MessageID r' = st_MessageID r ->
      early (st_State r') = true -> st_ObservedAt r' < st_ObservedAt r)) ->
  tables_ok T L M A (<[(t, s) := r]> S).
Proof.
  intros [H1 H2 H3 H4 H5 H6] Hm Hfresh HT Hst. split; try eassumption.
  - intros t' x a Ha. destruct (H1 t' x a Ha) as (? & ? & (s' & r' & Hr & Hs) & ?).
    split_and!; [done..| |done]. exists s', r'. split; [|done].
    rewrite lookup_insert_ne; [done|]. congruence.
  - intros t' s' r' Hr. in_insert Hr; [|by eapply H4]. split_and!; [by eexists | done |]. naive_solver.
  - intros t' s1 r1 s2 r2 Hr1 Hr2 Hmm He1 He2. in_insert Hr1; in_insert Hr2.
    + congruence.
    + destruct Hst as [[_ Hu]|[Hs _]]; [|by rewrite (evidence_not_early _ Hs) in He1].
      by rewrite (Hu _ _ Hr2) in He2.
    + destruct Hst as [[? _]|(_ & _ & Ho)]; [congruence|]. by eapply Ho.
    + by eapply H5.
  - intros t' x' m' Hm' He s' r' Hr Hx. in_insert Hr; [|by eapply H6].
    destruct Hst as [[? _]|(_ & ? & _)]; congruence.
Qed.

Lemma attempt_put T L M A S t x a :
  tables_ok T L M A S -> attempt_ok L M S t a ->
  (forall y b, A !! (t, y) = Some b -> y <> x -> attempts_apart a b /\ attempts_apart b a) ->
  (forall old, A !! (t, x) = Some old ->
     at_ConnectionID old = at_ConnectionID a /\ at_OrderingKey old = at_OrderingKey a /\
     at_MessageID old = at_MessageID a /\ at_LaneToken old = at_LaneToken a /\
     (open_phase (at_Phase a) = true \/
      forall l, L !! (t, at_ConnectionID a, at_OrderingKey a) = Some l -> ln_Claimed l = None)) ->
  tables_ok T L M (<[(t, x) := a]> A) S.
Proof.
  intros [H1 H2 H3 H4 H5 H6] Ha Hapart Hold. split; try eassumption.
  - intros t' y b Hb. in_insert Hb; [done | by eapply H1].
  - intros t' y b z c Hb Hc Hne. in_insert Hb; in_insert Hc; try done.
    + eapply Hapart; [done | congruence].
    + eapply Hapart; [done | congruence].
    + by eapply H2.
  - intros t' c key l m Hl Hm. destruct (H3 _ _ _ _ _ Hl Hm) as (y & b & Hb & Hbm & Hbt & Hbc & Hbk & Hbo).
    destruct (decide ((t, x) = (t', y))) as [E|E].
    + simplify_eq. destruct (Hold _ Hb) as (Ec & Ek & Em & Et & Hop). exists y, a.
      rewrite lookup_insert_eq. rewrite <- Em, <- Et, <- Ec, <- Ek. split_and!; try done.
      destruct Hop as [?|Hnone]; [done|]. rewrite <- Ec, <- Ek in Hnone.
      rewrite (Hnone _ Hl) in Hm. done.
    + exists y, b. by rewrite lookup_insert_ne.
Qed.

(** ** Consequences *)

(** The attempt that carries its lane's token is the newest of its message, and
    no other attempt of that message has contacted the provider. *)
Lemma newest_alone T L M A S t x a l y b :
  tables_ok T L M A S -> A !! (t, x) = Some a ->
  L !! (t, at_ConnectionID a, at_OrderingKey a) = Some l -> ln_Token l = at_LaneToken a ->
  A !! (t, y) = Some b -> y <> x -> at_MessageID b = at_MessageID a ->
  at_LaneToken b < at_LaneToken a /\ ~ io_started b.
Proof.
  intros [H1 H2 _ _ _ _] Ha Hl Htok Hb Hne Hm.
  destruct (H1 _ _ _ Ha) as ((m & Hma & Hc & Hk & _) & _).
  destruct (H1 _ _ _ Hb) as ((m' & Hmb & Hc' & Hk' & _) & (l' & Hl' & Hle) & _).
  rewrite Hm, Hma in Hmb. injection Hmb as <-. rewrite <- Hc', <- Hk', Hc, Hk, Hl in Hl'. simplify_eq.
  destruct (H2 _ _ _ _ _ Hb Ha Hne) as [Hd Hio].
  assert (at_LaneToken b <> at_LaneToken a) by (apply Hd; congruence).
  split; [lia|]. intros Hs. specialize (Hio Hm Hs). lia.
Qed.

(** At most one attempt of a message has started provider I/O. *)
Lemma one_io_attempt T L M A S t x a y b :
  tables_ok T L M A S -> A !! (t, x) = Some a -> A !! (t, y) = Some b ->
  at_MessageID a = at_MessageID b -> io_started a -> io_started b -> x = y.
Proof.
  intros Hok Ha Hb Hm Hia Hib. destruct (decide (x = y)) as [|Hne]; [done|].
  destruct (ok_apart _ _ _ _ _ Hok _ _ _ _ _ Ha Hb Hne) as [_ H1].
  destruct (ok_apart _ _ _ _ _ Hok _ _ _ _ _ Hb Ha (not_eq_sym Hne)) as [_ H2].
  specialize (H1 Hm Hia). specialize (H2 (eq_sym Hm) Hib). lia.
Qed.

(** ** The store's dispatch operations *)

Lemma begin_attempt T L M A S t x a l now :
  tables_ok T L M A S -> A !! (t, x) = Some a -> at_Phase a = Claimed ->
  L !! (t, at_ConnectionID a, at_OrderingKey a) = Some l -> ln_Token l = at_LaneToken a ->
  (exists m, M !! (t, at_MessageID a) = Some m /\ ms_State m = MessageStateDispatching) ->
  tables_ok T L M (<[(t, x) := start_attempt a now]> A) S.
Proof.
  intros Hok Ha Hp Hl Htok (m & Hm & Hd).
  destruct (ok_attempt _ _ _ _ _ Hok _ _ _ Ha) as ((m' & Hm' & Hc & Hk & _) & Hlane & Hs & _).
  apply attempt_put; [done| | |].
  - split_and!; [|done..]. exists m'. split_and!; try done. simpl. simplify_eq. congruence.
  - intros y b Hb Hne. destruct (ok_apart _ _ _ _ _ Hok _ _ _ _ _ Hb Ha Hne) as [Hd1 Hi1].
    split; split; simpl; try done.
    + intros. apply not_eq_sym. apply Hd1; congruence.
    + intros Hmb _. by eapply newest_alone.
  - intros old Ho. rewrite Ha in Ho. injection Ho as <-. simpl. split_and!; auto.
Qed.

(** Closing the attempt that holds its lane. *)
Lemma close_attempt T L M A S t x a l reason now :
  tables_ok T L M A S -> A !! (t, x) = Some a ->
  L !! (t, at_ConnectionID a, at_OrderingKey a) = Some l -> ln_Token l = at_LaneToken a ->
  tables_ok T (<[(t, at_ConnectionID a, at_OrderingKey a) := release_lane l]> L) M
    (<[(t, x) := finish_attempt a reason now]> A) S.
Proof.
  intros Hok Ha Hl Htok.
  assert (Hok' : tables_ok T (<[(t, at_ConnectionID a, at_OrderingKey a) := release_lane l]> L) M A S).
  { apply lane_put; [done| |done]. intros y b Hb Ec Ek.
    destruct (ok_attempt _ _ _ _ _ Hok _ _ _ Hb) as (_ & (l' & Hl' & Hle) & _).
    rewrite Ec, Ek, Hl in Hl'. by simplify_eq. }
  destruct (ok_attempt _ _ _ _ _ Hok' _ _ _ Ha) as (Hm & Hlane & Hs & _).
  apply attempt_put; [done | by split_and! | |].
  - intros y b Hb Hne. split.
    + exact (ok_apart _ _ _ _ _ Hok _ _ _ _ _ Ha Hb (not_eq_sym Hne)).
    + exact (ok_apart _ _ _ _ _ Hok _ _ _ _ _ Hb Ha Hne).
  - intros old Ho. rewrite Ha in Ho. injection Ho as <-. split_and!; try done. right.
    intros l' Hl'. simpl in Hl'. rewrite lookup_insert_eq in Hl'. by injection Hl' as <-.
Qed.

(** Back to the queue, for an attempt that never contacted the provider. *)
Lemma requeue T L M A S t x a l m s r reason now :
  tables_ok T L M A S -> T <= now -> A !! (t, x) = Some a -> at_Phase a = Claimed ->
  L !! (t, at_ConnectionID a, at_OrderingKey a) = Some l -> ln_Token l = at_LaneToken a ->
  M !! (t, at_MessageID a) = Some m -> ms_State m = MessageStateDispatching ->
  S !! (t, s) = None -> st_MessageID r = at_MessageID a -> st_State r = MessageStateQueued ->
  st_ObservedAt r = now ->
  tables_ok now (<[(t, at_ConnectionID a, at_OrderingKey a) := release_lane l]> L)
    (<[(t, at_MessageID a) := with_message_state m MessageStateQueued]> M)
    (<[(t, x) := finish_attempt a reason now]> A) (<[(t, s) := r]> S).
Proof.
  intros Hok HT Ha Hp Hl Htok Hm Hd Hs Hrm Hrs Hrt.
  assert (Hun : unobserved S t (at_MessageID a)).
  { eapply (ok_early _ _ _ _ _ Hok); [done|]. by rewrite Hd. }
  destruct (ok_attempt _ _ _ _ _ Hok _ _ _ Ha) as (_ & _ & _ & Hno).
  eapply later_ok in Hok; [|exact HT].
  eapply status_put.
  - apply message_put.
    + by eapply close_attempt.
    + intros old Ho. rewrite Hm in Ho. by injection Ho as <-.
    + done.
    + intros _ y b Hb Hbm. in_insert Hb.
      * simpl. unfold io_started. simpl. rewrite Hno by done. by intros [? ?].
      * refine (proj2 (newest_alone _ _ _ _ _ _ _ _ _ _ _ Hok Ha Hl Htok Hb _ Hbm)). congruence.
  - rewrite Hrm. apply lookup_insert_eq.
  - done.
  - lia.
  - left. rewrite Hrs, Hrm. done.
Qed.

(** Evidence settles the attempt. *)
Lemma settle T L M A S t x a l m state reason now :
  tables_ok T L M A S -> T <= now -> A !! (t, x) = Some a ->
  L !! (t, at_ConnectionID a, at_OrderingKey a) = Some l -> ln_Token l = at_LaneToken a ->
  M !! (t, at_MessageID a) = Some m -> early state = false ->
  tables_ok now (<[(t, at_ConnectionID a, at_OrderingKey a) := release_lane l]> L)
    (<[(t, at_MessageID a) := with_message_state m state]> M)
    (<[(t, x) := finish_attempt a reason now]> A) S.
Proof.
  intros Hok HT Ha Hl Htok Hm He. eapply later_ok in Hok; [|exact HT].
  apply message_put.
  - by eapply close_attempt.
  - intros old Ho. rewrite Hm in Ho. by injection Ho as <-.
  - simpl. congruence.
  - simpl. intros ->. done.
Qed.

Lemma evidence_put T L M A S t s r m :
  tables_ok T L M A S -> M !! (t, st_MessageID r) = Some m -> S !! (t, s) = None ->
  early (ms_State m) = false -> evidence (st_State r) = true -> st_ObservedAt r = T ->
  (forall s' r', S !! (t, s') = Some r' -> st_MessageID r' = st_MessageID r ->
      early (st_State r') = true -> st_ObservedAt r' < T) ->
  tables_ok T L M A (<[(t, s) := r]> S).
Proof.
  intros Hok Hm Hs Hst He HT Hbefore. eapply status_put; try done; [lia|]. right.
  rewrite HT. done.
Qed.

(** Claiming the oldest queued message of a free lane. *)
Lemma claim_message T L M A S t c key x l m messageID owner expires s r a now :
  tables_ok T L M A S -> T <= now -> A !! (t, x) = None -> S !! (t, s) = None ->
  L !! (t, c, key) = Some l -> M !! (t, messageID) = Some m ->
  ms_ConnectionID m = c -> ms_OrderingKey m = key -> ms_State m = MessageStateQueued ->
  st_MessageID r = messageID -> st_State r = MessageStateDispatching -> st_ObservedAt r = now ->
  at_MessageID a = messageID -> at_ConnectionID a = c -> at_OrderingKey a = key ->
  at_LaneToken a = ln_Token l + 1 -> at_Phase a = Claimed -> at_ProviderIOStartedAt a = None ->
  tables_ok now
    (<[(t, c, key) := {| ln_Token := ln_Token l + 1; ln_Owner := owner; ln_Claimed := Some messageID;
                         ln_ExpiresAt := expires |}]> L)
    (<[(t, messageID) := with_message_state m MessageStateDispatching]> M)
    (<[(t, x) := a]> A) (<[(t, s) := r]> S).
Proof.
  intros Hok HT Hx Hs Hl Hm Hc Hk Hq Hrm Hrs Hrt Ham Hac Hak Hat Hap Hai.
  eapply later_ok in Hok; [|exact HT].
  assert (Hun : unobserved S t messageID).
  { eapply (ok_early _ _ _ _ _ Hok); [done|]. by rewrite Hq. }
  assert (Htok : forall y b, A !! (t, y) = Some b -> at_ConnectionID b = c -> at_OrderingKey b = key ->
            at_LaneToken b <= ln_Token l).
  { intros y b Hb Hbc Hbk. destruct (ok_attempt _ _ _ _ _ Hok _ _ _ Hb) as (_ & (l' & Hl' & ?) & _).
    rewrite Hbc, Hbk, Hl in Hl'. by simplify_eq. }
  assert (Hnoio : forall y b, A !! (t, y) = Some b -> at_MessageID b = messageID -> ~ io_started b).
  { intros y b Hb Hbm Hio. destruct (ok_attempt _ _ _ _ _ Hok _ _ _ Hb) as ((m' & Hm' & _ & _ & Hn) & _).
    rewrite Hbm, Hm in Hm'. simplify_eq. by apply Hn. }
  set (l1 := {| ln_Token := ln_Token l + 1; ln_Owner := owner; ln_Claimed := None; ln_ExpiresAt := expires |}).
  set (l2 := {| ln_Token := ln_Token l + 1; ln_Owner := owner; ln_Claimed := Some messageID;
                ln_ExpiresAt := expires |}).
  rewrite <- (insert_insert_eq L (t, c, key) l2 l1). apply lane_put.
  - apply attempt_put.
    + eapply status_put; [|rewrite Hrm; apply lookup_insert_eq|done|lia|left; rewrite Hrs, Hrm; done].
      apply message_put; [|intros old Ho; rewrite Hm in Ho; by injection Ho as <-|done|done].
      apply lane_put; [done| |done]. simpl. intros y b Hb Hbc Hbk. specialize (Htok y b Hb Hbc Hbk). lia.
    + split_and!; [| | |done].
      * exists (with_message_state m MessageStateDispatching). rewrite Ham, lookup_insert_eq. simpl.
        split_and!; congruence.
      * exists l1. rewrite Hac, Hak, lookup_insert_eq. simpl. split; [done | lia].
      * exists s, r. rewrite lookup_insert_eq. split_and!; congruence.
    + intros y b Hb Hne. split; split.
      * intros Ec Ek. specialize (Htok y b Hb). rewrite Hac in Ec. rewrite Hak in Ek.
        specialize (Htok (eq_sym Ec) (eq_sym Ek)). lia.
      * unfold io_started. rewrite Hai. by intros _ [? ?].
      * intros Ec Ek. specialize (Htok y b Hb). rewrite Hac in Ec. rewrite Hak in Ek.
        specialize (Htok Ec Ek). lia.
      * intros Em Hio. rewrite Ham in Em. by destruct (Hnoio y b Hb Em).
    + intros old Ho. by rewrite Hx in Ho.
  - intros y b Hb Hbc Hbk. simpl. in_insert Hb; [lia|]. specialize (Htok y b Hb Hbc Hbk). lia.
  - intros m' [= <-]. exists x, a. rewrite lookup_insert_eq. simpl. rewrite Hap. split_and!; done.
Qed.

(** ** Reading the queue *)

Lemma lane_attempt_spec db t c key l k a :
  lane_attempt db t c key l = Some (k, a) ->
  attempts db !! (t, k.2) = Some a /\ ln_Claimed l = Some (at_MessageID a) /\
  at_LaneToken a = ln_Token l /\ at_ConnectionID a = c /\ at_OrderingKey a = key /\
  open_phase (at_Phase a) = true.
Proof.
  unfold lane_attempt. destruct (ln_Claimed l) as [m|]; [|done].
  intros [Hin Hf]%head_merge_sort%elem_of_List_filter. apply elem_of_map_to_list in Hin.
  unfold claim_attempt_matches in Hf. reflect_bools. destruct k as [t' x]. simpl in *.
  subst. split_and!; auto.
Qed.

Lemma lane_candidate_spec db t c key k m :
  lane_candidate db t c key = Some (k, m) ->
  messages db !! (t, k.2) = Some m /\ ms_ConnectionID m = c /\ ms_OrderingKey m = key /\
  ms_State m = MessageStateQueued.
Proof.
  unfold lane_candidate. intros [Hin Hf]%head_merge_sort%elem_of_List_filter.
  apply elem_of_map_to_list in Hin. unfold queued_in_lane in Hf. reflect_bools.
  destruct k as [t' x]. simpl in *. subst. split_and!; auto.
Qed.

(** ** Preservation by the transactions *)

Lemma release_put T L M A S t c key l :
  tables_ok T L M A S -> L !! (t, c, key) = Some l ->
  tables_ok T (<[(t, c, key) := release_lane l]> L) M A S.
Proof.
  intros Hok Hl. apply lane_put; [done| |done]. intros x a Ha Hc Hk.
  destruct (ok_attempt _ _ _ _ _ Hok _ _ _ Ha) as (_ & (l' & Hl' & ?) & _).
  rewrite Hc, Hk, Hl in Hl'. by simplify_eq.
Qed.

(** The early statuses of a state reached at [T] are before a later instant. *)
Lemma statuses_before T L M A S t x now :
  tables_ok T L M A S -> T < now ->
  forall s r, S !! (t, s) = Some r -> st_MessageID r = x -> early (st_State r) = true ->
    st_ObservedAt r < now.
Proof. intros Hok HT s r Hr _ _. destruct (ok_status _ _ _ _ _ Hok _ _ _ Hr) as (_ & ? & _). lia. Qed.

Lemma recover_ok T db t x a l ids now db' :
  dispatch_ok T db -> T < now -> attempts db !! (t, x) = Some a ->
  lanes db !! (t, at_ConnectionID a, at_OrderingKey a) = Some l -> ln_Token l = at_LaneToken a ->
  recover_attempt t x a ids now db = Ok db' ->
  dispatch_ok now (put_lane t (at_ConnectionID a) (at_OrderingKey a) (release_lane l) db').
Proof.
  unfold dispatch_ok. intros Hok HT Ha Hl Htok. unfold recover_attempt.
  assert (Hleave : dispatch_ok now (put_lane t (at_ConnectionID a) (at_OrderingKey a) (release_lane l) db)).
  { apply release_put; [|done]. eapply later_ok; [|done]. lia. }
  destruct (messages db !! (t, at_MessageID a)) as [m|] eqn:Em; [|by intros [= <-]].
  destruct (bool_decide (ms_State m = _)) eqn:Ed; simpl; [|by intros [= <-]].
  apply bool_decide_eq_true in Ed. destruct (bool_decide (at_Phase a = Claimed)) eqn:Ep.
  - apply bool_decide_eq_true in Ep.
    intros (db3 & (_ & Hs & ->)%insertMessageStatus_ok & [= <-])%result_bind_ok. simpl in *.
    eapply requeue; try done. lia.
  - intros (db3 & (_ & Hs & ->)%insertMessageStatus_ok & H)%result_bind_ok.
    apply result_bind_ok in H as (db4 & [_ ->]%insertGatewayEvent_ok & H).
    apply result_bind_ok in H as (db5 & (_ & _ & ->)%insert_outbox_row_ok & H).
    apply insert_outbox_row_ok in H as (_ & _ & ->). simpl in *.
    eapply evidence_put; simpl; try done.
    + eapply settle; try done. lia.
    + apply lookup_insert_eq.
    + done.
    + exact (statuses_before _ _ _ _ _ _ _ _ Hok HT).
Qed.

Lemma claim_transaction_ok T db t c key owner ids now db' r :
  dispatch_ok T db -> T < now -> claim_transaction t c key owner ids now db = Ok (db', r) ->
  dispatch_ok now db'.
Proof.
  intros Hok HT. assert (Hsame : dispatch_ok now db) by (eapply later_ok; [|done]; lia).
  unfold claim_transaction. destruct (claim_lease db t c owner now) as [token|]; [|by intros [= <- _]].
  destruct (lanes db !! (t, c, key)) as [l|] eqn:El; [|by intros [= <- _]].
  destruct (lane_available l now); simpl; [|by intros [= <- _]].
  destruct (lane_attempt db t c key l) as [[k a]|] eqn:Ea.
  - intros (db1 & Hr & [= <- _])%result_bind_ok.
    apply lane_attempt_spec in Ea as (Ha & _ & Htok & <- & <- & _).
    by eapply (recover_ok T db t k.2 a l).
  - destruct (lane_candidate db t c key) as [[k m]|] eqn:Em.
    + apply lane_candidate_spec in Em as (Hm & Hc & Hk & Hq). unfold claim_candidate. intros H.
      apply result_bind_ok in H as (_ & _ & H). apply result_bind_ok in H as (_ & _ & H).
      apply result_bind_ok in H as (A' & [Hx ->]%insert_unique_ok & H).
      apply result_bind_ok in H as (db4 & (_ & Hs & ->)%insertMessageStatus_ok & H).
      apply result_bind_ok in H as (tmp & _ & H). destruct (_ || _); [done|]. injection H as <- _.
      unfold dispatch_ok. simpl in *. eapply claim_message; (done || lia).
    + destruct (ln_Claimed l); intros [= <- _]; [|done]. by apply release_put.
Qed.

Lemma locked_claim_spec claim owner phase live now db l a m :
  locked_claim claim owner phase live now db = Some (l, a, m) ->
  let t := om_TenantID (dc_Message claim) in
  lanes db !! (t, om_ConnectionID (dc_Message claim), dispatchOrderingKey claim) = Some l /\
  attempts db !! (t, dc_AttemptID claim) = Some a /\
  messages db !! (t, om_ID (dc_Message claim)) = Some m /\ ms_State m = MessageStateDispatching /\
  ln_Token l = dc_LaneToken claim /\ at_LaneToken a = dc_LaneToken claim /\
  ln_Claimed l = Some (om_ID (dc_Message claim)) /\
  at_MessageID a = om_ID (dc_Message claim) /\ at_Phase a = phase.
Proof.
  unfold locked_claim, message_dispatching. cbn zeta.
  destruct (lanes db !! _) as [l'|] eqn:El; [|done].
  destruct (attempts db !! _) as [a'|] eqn:Ea; [|done].
  destruct (messages db !! _) as [m'|] eqn:Em; [|done].
  destruct (bool_decide (ms_State m' = _)) eqn:Ed; [|done].
  destruct (_ && _) eqn:E; [|done]. intros [= -> -> ->]. unfold lane_held, attempt_held in E.
  reflect_bools. split_and!; congruence.
Qed.

(** The lane a claim names is the lane of its attempt. *)
Lemma claim_lane T claim owner phase live now db l a m :
  dispatch_ok T db -> locked_claim claim owner phase live now db = Some (l, a, m) ->
  at_ConnectionID a = om_ConnectionID (dc_Message claim) /\ at_OrderingKey a = dispatchOrderingKey claim.
Proof.
  intros Hok (Hl & Ha & Hm & _ & Hlt & Hat & Hlc & Ham & _)%locked_claim_spec.
  destruct (ok_holder _ _ _ _ _ Hok _ _ _ _ _ Hl Hlc) as (x & b & Hb & Hbm & Hbt & Hbc & Hbk & _).
  destruct (ok_attempt _ _ _ _ _ Hok _ _ _ Ha) as ((m1 & Hm1 & Hc1 & Hk1 & _) & _).
  destruct (ok_attempt _ _ _ _ _ Hok _ _ _ Hb) as ((m2 & Hm2 & Hc2 & Hk2 & _) & _).
  rewrite Ham in Hm1. rewrite Hbm in Hm2. rewrite Hm1 in Hm2. injection Hm2 as ->. split; congruence.
Qed.

Lemma begin_ok T db claim owner now db' r :
  dispatch_ok T db -> T < now -> Repository_BeginProviderIO claim owner now db = (db', r) ->
  dispatch_ok now db'.
Proof.
  intros Hok HT. assert (Hsame : dispatch_ok now db) by (eapply later_ok; [|done]; lia).
  unfold Repository_BeginProviderIO. intros H. destruct (bad_claim claim owner); [by injection H as <- _|].
  apply inTenant_cases in H as [[-> _]|[v [_ H]]]; [done|].
  destruct (negb _); [by injection H as <- _|].
  destruct (locked_claim claim owner Claimed true now db) as [[[l a] m]|] eqn:E; [|by injection H as <- _].
  injection H as <- _. destruct (claim_lane _ _ _ _ _ _ _ _ _ _ Hsame E) as [Hc Hk].
  apply locked_claim_spec in E as (Hl & Ha & Hm & Hd & Hlt & Hat & _ & Ham & Hp).
  unfold dispatch_ok. simpl. eapply begin_attempt; try done.
  - by rewrite Hc, Hk.
  - congruence.
  - exists m. rewrite Ham. done.
Qed.

Lemma renew_ok T db claim owner now db' r :
  dispatch_ok T db -> T < now -> Repository_RenewProviderIO claim owner now db = (db', r) ->
  dispatch_ok now db'.
Proof.
  intros Hok HT. assert (Hsame : dispatch_ok now db) by (eapply later_ok; [|done]; lia).
  unfold Repository_RenewProviderIO. intros H. destruct (bad_claim claim owner); [by injection H as <- _|].
  apply inTenant_cases in H as [[-> _]|[v [_ H]]]; [done|].
  destruct (negb _); [by injection H as <- _|].
  destruct (locked_claim _ _ _ _ _ _) as [[[l a] m]|] eqn:E; [|by injection H as <- _].
  destruct (_ && _); injection H as <- _; [|done].
  apply locked_claim_spec in E as (Hl & _). unfold dispatch_ok. simpl. apply lane_put; [done| |].
  - intros x b Hb Hbc Hbk. destruct (ok_attempt _ _ _ _ _ Hsame _ _ _ Hb) as (_ & (l' & Hl' & ?) & _).
    rewrite Hbc, Hbk, Hl in Hl'. by simplify_eq.
  - simpl. intros m' Hm'. by eapply (ok_holder _ _ _ _ _ Hsame).
Qed.

Lemma release_transaction_ok T db claim reason statusID now db' r :
  dispatch_ok T db -> T < now -> release_transaction claim reason statusID now db = Ok (db', r) ->
  dispatch_ok now db'.
Proof.
  intros Hok HT. unfold release_transaction. destruct (negb _); [done|].
  destruct (locked_claim _ _ _ _ _ _) as [[[l a] m]|] eqn:E; [|done].
  intros (db4 & (_ & Hs & ->)%insertMessageStatus_ok & [= <- _])%result_bind_ok.
  destruct (claim_lane _ _ _ _ _ _ _ _ _ _ Hok E) as [Hc Hk].
  apply locked_claim_spec in E as (Hl & Ha & Hm & Hd & Hlt & Hat & _ & Ham & Hp).
  unfold dispatch_ok. simpl in *. rewrite <- Ham, <- Hc, <- Hk in *.
  eapply requeue; (done || lia || congruence).
Qed.

Lemma completable_evidence s : completable s = true -> evidence s = true.
Proof. by destruct s. Qed.

(** The completion loop appends evidence to the history and nothing else. *)
Lemma append_statuses_frame claim reason wall now ids n states db db' :
  append_dispatch_statuses claim reason wall now ids n states db = Ok db' ->
  lanes db' = lanes db /\ messages db' = messages db /\ attempts db' = attempts db /\
  (forallb completable states = true -> forall L M A m,
     tables_ok now L M A (statuses db) ->
     M !! (om_TenantID (dc_Message claim), om_ID (dc_Message claim)) = Some m ->
     early (ms_State m) = false ->
     (forall s r, statuses db !! (om_TenantID (dc_Message claim), s) = Some r ->
        st_MessageID r = om_ID (dc_Message claim) -> early (st_State r) = true -> st_ObservedAt r < now) ->
     tables_ok now L M A (statuses db')).
Proof.
  revert n db. induction states as [|state states IH]; intros n db; cbn [append_dispatch_statuses].
  { by intros [= <-]. }
  intros (db1 & H1 & H)%result_bind_ok. destruct (IH _ _ H) as (HL & HM & HA & Hok).
  unfold append_dispatch_status in H1.
  apply result_bind_ok in H1 as (db2 & (_ & Hs & ->)%insertMessageStatus_ok & H1).
  apply result_bind_ok in H1 as (body & _ & H1).
  apply result_bind_ok in H1 as (db3 & [_ ->]%insertGatewayEvent_ok & H1).
  apply insertEventOutbox_ok in H1 as (_ & _ & _ & ->). simpl in *.
  split_and!; [done..|]. intros [Hst Hsts]%andb_true_iff L M A m Ht Hm He Hb.
  apply completable_evidence in Hst. eapply Hok; try done.
  - by eapply evidence_put.
  - intros s r Hr Hrm Hre. in_insert Hr; [|by eapply Hb].
    simpl in Hre. by rewrite (evidence_not_early _ Hst) in Hre.
Qed.

Lemma derive_completed states :
  states <> [] -> forallb completable states = true ->
  early (DeriveMessageState (MessageStateDispatching :: states)) = false.
Proof.
  intros Hne Hall. apply evidence_not_early. destruct states as [|s states]; [done|].
  pose proof Hall as [Hs _]%andb_true_iff.
  apply (derive_evidence [MessageStateDispatching] s); [|by apply completable_evidence|by left].
  apply Forall_forall. intros x Hx. apply evidence_not_early, completable_evidence.
  rewrite forallb_forall in Hall. apply Hall. by apply list_elem_of_In.
Qed.

Lemma complete_ok T db claim states reason ids wall now db' r :
  dispatch_ok T db -> T < now ->
  Repository_CompleteDispatch claim states reason ids wall now db = (db', r) -> dispatch_ok now db'.
Proof.
  intros Hok HT. assert (Hsame : dispatch_ok now db) by (eapply later_ok; [|done]; lia).
  unfold Repository_CompleteDispatch. intros H.
  destruct (bad_claim _ _ || is_nil states || _) eqn:Eg; [by injection H as <- _|].
  apply orb_false_iff in Eg as [[_ Hne%is_nil_false]%orb_false_iff _].
  destruct (forallb completable states) eqn:Hall; [|by injection H as <- _].
  apply inTenant_cases in H as [[-> _]|[v [_ H]]]; [done|]. unfold complete_transaction in H.
  destruct (negb _); [done|].
  destruct (locked_claim _ _ _ _ _ _) as [[[l a] m]|] eqn:E; [|done].
  apply result_bind_ok in H as (db1 & Happ & H). apply result_bind_ok in H as (_ & _ & H).
  injection H as <- _. apply append_statuses_frame in Happ as (HL & HM & HA & Hst).
  destruct (claim_lane _ _ _ _ _ _ _ _ _ _ Hok E) as [Hc Hk].
  apply locked_claim_spec in E as (Hl & Ha & Hm & Hd & Hlt & Hat & _ & Ham & Hp).
  unfold dispatch_ok. simpl. rewrite HL, HM, HA.
  assert (Hfinal : early (DeriveMessageState (ms_State m :: states)) = false).
  { rewrite Hd. by apply derive_completed. }
  eapply (Hst Hall); [|apply lookup_insert_eq|done|exact (statuses_before _ _ _ _ _ _ _ _ Hok HT)].
  rewrite <- Ham, <- Hc, <- Hk in *. eapply settle; (done || lia || congruence).
Qed.

(** A new message with its first status. *)
Lemma fresh_message T L M A S t x m :
  tables_ok T L M A S -> M !! (t, x) = None -> tables_ok T L (<[(t, x) := m]> M) A S /\ unobserved S t x.
Proof.
  intros Hok Hx.
  assert (Hno : forall s r, S !! (t, s) = Some r -> st_MessageID r <> x).
  { intros s r Hr <-. destruct (ok_status _ _ _ _ _ Hok _ _ _ Hr) as ([? Hm] & _). congruence. }
  assert (Hun : unobserved S t x) by (intros s r Hr Hm; by destruct (Hno s r Hr)).
  split; [|done]. apply message_put; [done| |done|].
  - intros old Ho. congruence.
  - intros _ y a Ha Hm. destruct (ok_attempt _ _ _ _ _ Hok _ _ _ Ha) as ((m' & Hm' & _) & _). congruence.
Qed.

Lemma ensured_lane T L L' M A S key :
  tables_ok T L M A S -> lane_ensured L L' key -> tables_ok T L' M A S.
Proof.
  intros [H1 H2 H3 H4 H5 H6] (_ & Hkeep & Hnew). split; try eassumption.
  - intros t x a Ha. destruct (H1 t x a Ha) as (Hm & (l & Hl & Hle) & Hs & Hp).
    split_and!; try done. exists l. auto.
  - intros t c k l m Hl Hm. destruct (Hnew _ _ Hl) as [Hold|(_ & -> & _)]; [by eapply H3 | done].
Qed.

Lemma create_ok T db command ids wall now db' r :
  dispatch_ok T db -> T < now -> Repository_CreateOutbound command ids wall now db = (db', r) ->
  dispatch_ok now db'.
Proof.
  intros Hok HT. assert (Hsame : dispatch_ok now db) by (eapply later_ok; [|done]; lia).
  unfold Repository_CreateOutbound. intros H. destruct (_ || _); [by injection H as <- _|].
  destruct (_ && _); [by injection H as <- _|].
  apply inTenant_cases in H as [[-> _]|[v [_ H]]]; [done|].
  destruct (idempotency db !! (om_TenantID (co_Message command), co_IdempotencyKey command)) as [st|] eqn:Ei.
  - by destruct (create_bound_ok _ _ _ _ _ _ _ _ Ei H) as [(commands' & -> & _) _].
  - destruct (create_inserted_ok _ _ _ _ _ _ _ Ei H)
      as (_ & key & lanes' & media' & commands' & body & _ & Hm & _ & Hs & _ & Hlane & _ & _ & _ & ->).
    unfold dispatch_ok. simpl.
    destruct (fresh_message _ _ _ _ _ _ _ (outbound_row (co_Message command) key) Hsame Hm) as [Hok' Hun].
    eapply status_put.
    + eapply ensured_lane; [exact Hok' | exact Hlane].
    + apply lookup_insert_eq.
    + done.
    + simpl. lia.
    + left. done.
Qed.

(** Reconciliation: the observed state is evidence or none, as the mapping of
    provider statuses guarantees ([MapProviderMessageState_range]). *)
Definition provider_observation (projected : ProjectedMessage) : Prop :=
  exists status, pm_State projected = MapProviderMessageState status.

Lemma history_split T db t x :
  dispatch_ok T db ->
  exists e v, loadMessageStateHistory db t x = e ++ v /\
    Forall (fun s => early s = true) e /\ Forall (fun s => early s = false) v.
Proof.
  intros Hok. unfold loadMessageStateHistory. apply ordered_split; [apply (StronglySorted_merge_sort _)|].
  intros [[ta xa] a] [[tb xb] b]. rewrite !merge_sort_Permutation. unfold message_statuses.
  intros [Ha Hfa]%elem_of_List_filter [Hb Hfb]%elem_of_List_filter.
  apply elem_of_map_to_list in Ha, Hb. reflect_bools. simpl in *. subst.
  eapply (ok_order _ _ _ _ _ Hok); (done || congruence).
Qed.

Lemma history_elem db t x s :
  s ∈ loadMessageStateHistory db t x <->
  exists k r, statuses db !! (t, k) = Some r /\ st_MessageID r = x /\ st_State r = s.
Proof.
  unfold loadMessageStateHistory. rewrite list_elem_of_fmap. split.
  - intros ([[t' k] r] & -> & Hin). rewrite merge_sort_Permutation in Hin. unfold message_statuses in Hin.
    apply elem_of_List_filter in Hin as [Hin Hf]. apply elem_of_map_to_list in Hin. reflect_bools.
    simpl in *. subst. eauto.
  - intros (k & r & Hr & <- & <-). exists ((t, k), r). split; [done|]. rewrite merge_sort_Permutation.
    apply elem_of_List_filter. split; [by apply elem_of_map_to_list|]. simpl.
    by rewrite !String.eqb_refl.
Qed.

Definition observation (observed : MessageState) : list MessageState :=
  if bool_decide (observed = no_state) then [] else [observed].

Lemma observation_late observed :
  observed = no_state \/ evidence observed = true ->
  Forall (fun s => early s = false) (observation observed) /\
  (observed = no_state \/ evidence observed = true /\ observed ∈ observation observed).
Proof.
  unfold observation. intros [->|He]; [by split; [|left]|].
  destruct (bool_decide (observed = no_state)) eqn:E; [apply bool_decide_eq_true in E; by subst|].
  split; [constructor; [by apply evidence_not_early | done]|]. right. split; [done | by left].
Qed.

(** The history of a message without statuses. *)
Lemma no_history db t x :
  loadMessageStateHistory db t x = [] ->
  forall k r, statuses db !! (t, k) = Some r -> st_MessageID r <> x.
Proof.
  intros Hn k r Hr Hx. assert (Hin : st_State r ∈ loadMessageStateHistory db t x)
    by (apply history_elem; eauto). rewrite Hn in Hin. inversion Hin.
Qed.

(** A derived state of the gateway's own means that there is no evidence at all. *)
Lemma derived_early T db t x observed :
  dispatch_ok T db -> observed = no_state \/ evidence observed = true ->
  early (DeriveMessageState (loadMessageStateHistory db t x ++ observation observed)) = true ->
  unobserved (statuses db) t x /\ observed = no_state.
Proof.
  intros Hok [Hov Hobs]%observation_late Hd.
  destruct (history_split T db t x Hok) as (e & v & Hh & He & Hv).
  assert (Hno : forall s, s ∈ v ++ observation observed -> evidence s = true -> False).
  { intros s Hs Hse. rewrite Hh, <- app_assoc in Hd.
    assert (Hvo : Forall (fun s => early s = false) (v ++ observation observed)) by (by apply Forall_app).
    pose proof (derive_evidence e s _ Hvo Hse Hs) as Hev. by rewrite (evidence_not_early _ Hev) in Hd. }
  split.
  - intros k r Hr Hx. destruct (ok_status _ _ _ _ _ Hok _ _ _ Hr) as (_ & _ & [?|Hse]); [done|].
    exfalso. apply (Hno (st_State r)); [|done]. apply elem_of_app. left.
    assert (Hin : st_State r ∈ e ++ v) by (rewrite <- Hh; apply history_elem; eauto).
    apply elem_of_app in Hin as [Hin|]; [|done]. rewrite Forall_forall in He.
    specialize (He _ Hin). by rewrite (evidence_not_early _ Hse) in He.
  - destruct Hobs as [|[Hs Hin]]; [done|]. exfalso. eapply Hno; [|exact Hs]. apply elem_of_app. by right.
Qed.

(** A history with a dispatch never derives the queued state. *)
Lemma derived_not_queued T db t x observed :
  dispatch_ok T db -> observed = no_state \/ evidence observed = true ->
  MessageStateDispatching ∈ loadMessageStateHistory db t x ->
  DeriveMessageState (loadMessageStateHistory db t x ++ observation observed) <> MessageStateQueued.
Proof.
  intros Hok [Hov _]%observation_late Hin Hd.
  destruct (history_split T db t x Hok) as (e & v & Hh & He & Hv). rewrite Hh in Hin, Hd.
  apply elem_of_app in Hin as [Hin|Hin]; [|rewrite Forall_forall in Hv; by specialize (Hv _ Hin)].
  destruct (derive_early e He) as [_ Hdisp]. rewrite <- app_assoc in Hd.
  destruct (derive_late e (v ++ observation observed)) as [Hsame|Hev]; [by apply Forall_app| |].
  - by rewrite Hsame, (Hdisp Hin) in Hd.
  - by rewrite Hd in Hev.
Qed.

(** What reconciliation derives: evidence as soon as there is any, and never a
    queued state once the message has been dispatched. *)
Lemma reconciled_state_spec T db t x m observed :
  dispatch_ok T db -> messages db !! (t, x) = Some m ->
  observed = no_state \/ evidence observed = true ->
  let derived := reconciled_state db t x (ms_State m) observed in
  (early derived = true -> unobserved (statuses db) t x /\ observed = no_state) /\
  (derived = MessageStateQueued ->
     forall y a, attempts db !! (t, y) = Some a -> at_MessageID a = x -> ~ io_started a).
Proof.
  intros Hok Hm Hobs. unfold reconciled_state. fold (observation observed). cbn zeta.
  destruct (is_nil (loadMessageStateHistory db t x)) eqn:En.
  - apply is_nil_true in En. pose proof (no_history _ _ _ En) as Hnone. split.
    + intros Hd. split; [intros k r Hr Hx; by destruct (Hnone k r Hr)|].
      apply observation_late in Hobs as [Hov [|[Hs Hin]]]; [done|].
      pose proof (derive_evidence [ms_State m] _ _ Hov Hs Hin) as Hev.
      by rewrite (evidence_not_early _ Hev) in Hd.
    + intros _ y a Ha Hax. destruct (ok_attempt _ _ _ _ _ Hok _ _ _ Ha) as (_ & _ & (k & r & Hr & Hx & _) & _).
      destruct (Hnone k r Hr); congruence.
  - split; [by eapply derived_early|]. intros Hd y a Ha Hax _.
    destruct (ok_attempt _ _ _ _ _ Hok _ _ _ Ha) as (_ & _ & (k & r & Hr & Hx & Hrs) & _).
    eapply derived_not_queued; try done. apply history_elem. exists k, r. split_and!; congruence.
Qed.

(** No state of the gateway's own is as recent as [now]. *)
Definition quiet (now : Z) (db : Db) : Prop :=
  forall t s r, statuses db !! (t, s) = Some r -> early (st_State r) = true -> st_ObservedAt r < now.

Lemma quiet_later T now db : dispatch_ok T db -> T < now -> dispatch_ok now db /\ quiet now db.
Proof.
  intros Hok HT. split; [eapply later_ok; [|done]; lia|]. intros t s r Hr He.
  by eapply (statuses_before _ _ _ _ _ _ _ _ Hok HT).
Qed.

(** The tail writes evidence for a message that has a state of evidence. *)
Lemma reconcile_tail_ok now cx projected ro ids db db' m :
  dispatch_ok now db -> quiet now db -> reconcile_tail cx projected ro ids now db = Ok db' ->
  pm_State projected = no_state \/
    evidence (pm_State projected) = true /\
    messages db !! (rx_TenantID cx, ro_messageID ro) = Some m /\ early (ms_State m) = false ->
  dispatch_ok now db' /\ quiet now db'.
Proof.
  intros Hok Hq H Hst. unfold reconcile_tail in H. apply result_bind_ok in H as (db1 & H1 & H).
  assert (Hok1 : dispatch_ok now db1 /\ quiet now db1).
  { destruct (bool_decide _) eqn:E; [by injection H1 as <-|]. apply bool_decide_eq_false in E.
    apply insertMessageStatus_ok in H1 as (_ & Hs & ->).
    destruct Hst as [?|(He & Hm & Hme)]; [done|]. split.
    - eapply evidence_put; try done. intros s' r' Hr' _ He'. by eapply Hq.
    - intros t s r Hr Her. simpl in Hr. in_insert Hr; [|by eapply Hq].
      simpl in Her. by rewrite (evidence_not_early _ He) in Her. }
  destruct (ro_transition ro); [|by injection H as <-].
  apply result_bind_ok in H as (body & _ & H).
  apply result_bind_ok in H as (db2 & [_ ->]%insertGatewayEvent_ok & H).
  apply insertEventOutbox_ok in H as (_ & _ & _ & ->). done.
Qed.

Lemma lock_projected_spec db t c p tmp k m :
  lock_projected db t c p tmp = Some (k, m) -> messages db !! (t, k.2) = Some m /\ ms_ConnectionID m = c.
Proof.
  unfold lock_projected. cbn zeta. set (rows := List.filter _ _). intros H.
  assert (Hin : (k, m) ∈ rows).
  { destruct (find _ rows) as [q|] eqn:E.
    - injection H as ->. apply find_some in E as [? _]. by apply list_elem_of_In.
    - apply find_some in H as [? _]. by apply list_elem_of_In. }
  unfold rows in Hin. apply elem_of_List_filter in Hin as [Hin Hf]. apply elem_of_map_to_list in Hin.
  reflect_bools. destruct k as [t' x]. simpl in *. by subst.
Qed.

Lemma project_message_ok now cx projected ids db db' :
  dispatch_ok now db -> quiet now db -> provider_observation projected ->
  project_message cx projected ids now db = Ok db' -> dispatch_ok now db' /\ quiet now db'.
Proof.
  intros Hok Hq [status Hobs]. pose proof (MapProviderMessageState_range status) as Hr.
  rewrite <- Hobs in Hr. rewrite project_message_eq.
  destruct (lock_projected _ _ _ _ _) as [[k m]|] eqn:El.
  - apply lock_projected_spec in El as [Hm _]. intros ([db1 ro] & H1 & Ht)%result_bind_ok. simpl in Ht.
    unfold reconcile_existing in H1. apply result_bind_ok in H1 as (dir & _ & H1).
    destruct (negb _); [done|]. apply result_bind_ok in H1 as (_ & _ & H1).
    apply result_bind_ok in H1 as (_ & _ & H1). injection H1 as <- <-.
    destruct (reconciled_state_spec now db _ _ m _ Hok Hm Hr) as [He Hnq].
    eapply reconcile_tail_ok; [| |exact Ht|].
    + unfold dispatch_ok. simpl. apply message_put; [done| | |].
      * intros old Ho. rewrite Hm in Ho. injection Ho as <-. done.
      * simpl. intros Hd. by apply He.
      * simpl. exact Hnq.
    + done.
    + destruct Hr as [|Hev]; [by left|]. right. split; [done|]. simpl. rewrite lookup_insert_eq.
      split; [done|]. apply not_true_is_false. intros [_ Hn]%He. by rewrite Hn in Hev.
  - intros ([db1 [[x st] dir]] & H1 & Ht)%result_bind_ok. unfold insert_projected in H1.
    destruct (negb _); [done|]. apply result_bind_ok in H1 as (_ & _ & H1).
    apply result_bind_ok in H1 as (_ & _ & H1).
    destruct (messages db !! _) eqn:Em; [done|]. injection H1 as <- <- <- <-.
    eapply reconcile_tail_ok; [| |exact Ht|].
    + unfold dispatch_ok. simpl. by eapply fresh_message.
    + done.
    + destruct (bool_decide (pm_State projected = no_state)) eqn:E.
      * left. by apply bool_decide_eq_true in E.
      * right. apply bool_decide_eq_false in E. destruct Hr as [?|Hev]; [done|]. split; [done|]. simpl.
        rewrite lookup_insert_eq. split; [done|]. simpl. by apply evidence_not_early.
Qed.

Lemma project_messages_ok now cx projected ids n db db' :
  dispatch_ok now db -> quiet now db -> Forall provider_observation projected ->
  project_messages cx projected ids n now db = Ok db' -> dispatch_ok now db'.
Proof.
  intros Hok Hq Hall. revert n db Hok Hq. induction Hall as [|p rest Hp Hrest IH]; intros n db Hok Hq.
  { by intros [= <-]. }
  cbn [project_messages]. intros (db1 & H1 & H)%result_bind_ok.
  destruct (project_message_ok _ _ _ _ _ _ Hok Hq Hp H1) as [? ?]. by eapply IH.
Qed.

Lemma record_conversation_ok T db t c x conv out g owner token now db' r :
  dispatch_ok T db -> T < now ->
  RecordCreatedConversationFenced t c x conv out g owner token now db = (db', r) -> dispatch_ok now db'.
Proof.
  intros Hok HT. assert (Hsame : dispatch_ok now db) by (eapply later_ok; [|done]; lia).
  unfold RecordCreatedConversationFenced. intros H. destruct (_ || _); [by injection H as <- _|].
  apply inTenant_cases in H as [[-> _]|[v [_ H]]]; [done|]. unfold record_created_conversation in H.
  unfold message_dispatching in H. destruct (messages db !! (t, x)) as [m|] eqn:Em; [|done].
  destruct (bool_decide _) eqn:Ed; [|done]. destruct (negb _); [done|]. destruct (_ && _); [done|].
  injection H as <- _. apply bool_decide_eq_true in Ed. unfold dispatch_ok. simpl.
  apply message_put; [done| | |].
  - intros old Ho. rewrite Em in Ho. by injection Ho as <-.
  - simpl. intros _. eapply (ok_early _ _ _ _ _ Hsame); [done|]. by rewrite Ed.
  - simpl. congruence.
Qed.

(** ** Claims are first in, first out *)

#[export] Instance queue_order_total : Total queue_order.
Proof.
  intros a b. unfold queue_order.
  destruct (Z.lt_trichotomy (ms_CreatedAt a.2) (ms_CreatedAt b.2)) as [?|[?|?]]; [auto| |auto].
  destruct (total String.le a.1.2 b.1.2); auto.
Qed.

#[export] Instance queue_order_trans : Transitive queue_order.
Proof.
  intros a b c. unfold queue_order. intros [?|[? ?]] [?|[? ?]]; [left; lia..|]. right.
  split; [lia | by transitivity b.1.2].
Qed.




