(* ===== verification/AtMostOnce.v ===== *)
(** * A message reaches the provider at most once

    The whole outbound path as one system: the database, any number of
    dispatcher processes of any number of gateway replicas, and the log of what
    the provider was asked to send.  A process may crash at any point; a reply of
    the database may be lost, with the transaction committed or not; leases may
    change hands in any way; provider observations are reconciled at any time.
    The system interleaves these freely, the database clock only moving
    forward. *)

From S2P Require Import Prelude GoText Crypto GoEncoding Domain Messaging Session EventContract Store Leases.
From S2P Require Import Outbound Dispatch DispatchStore Ingress Provider Reconcile DispatchInvariant.

(** ** Answers of the store to a process *)

(** What the environment decides in one step of a process. [ch_lost] is [Some
    applied] when the reply is lost after the transaction was applied or not. *)
Record Choice := {
  ch_lost : option bool;
  ch_error : error;
  ch_claim : ClaimIDs;
  ch_status : nat -> StatusIDs;
  ch_statusID : string;
  ch_wall : Z;
  ch_sent : ProviderSendResult * error * list (result bool)
}.

Definition answer {R} (ch : Choice) (db : Db) (outcome : Db * result R) : Db * result R :=
  match ch_lost ch with
  | None => outcome
  | Some applied => (if applied then outcome.1 else db, Err (ch_error ch))
  end.

Definition as_error (r : result unit) : error := match r with Ok _ => [] | Err e => e end.

Definition code : Type := proc (bool * error).

(** Everything the provider was asked to send, with the claim it was sent for. *)
Abbreviation Log := (list (DispatchClaim * ProviderSendCommand)).

(** One call of a process, with the permission it holds afterwards. *)
Definition proc_step (ch : Choice) (now : Z) (p : code) (perm : option DispatchClaim) (db : Db) (sent : Log)
    : Db * Log * (code * option DispatchClaim) :=
  match p with
  | Ret v => (db, sent, (Ret v, perm))
  | Call c k =>
    match c in DispatchCall X return (X -> code) -> Db * Log * (code * option DispatchClaim) with
    | ClaimNext lane owner => fun k =>
        let '(db', r) := answer ch db (Repository_ClaimNext lane owner (ch_claim ch) now db) in
        (db', sent, (k r, None))
    | BeginProviderIO claim owner => fun k =>
        let '(db', r) := answer ch db (Repository_BeginProviderIO claim owner now db) in
        (db', sent, (k r, match r with Ok true => Some claim | _ => None end))
    | SendOnce claim command _ => fun k =>
        (db, sent ++ [(claim, command)], (k (ch_sent ch), None))
    | CompleteDispatch claim states reason => fun k =>
        let '(db', r) := answer ch db
          (Repository_CompleteDispatch claim states reason (ch_status ch) (ch_wall ch) now db) in
        (db', sent, (k (as_error r), None))
    | ReleaseBeforeDispatch claim reason => fun k =>
        let '(db', r) := answer ch db
          (Repository_ReleaseBeforeDispatch claim reason (ch_statusID ch) now db) in
        (db', sent, (k (as_error r), None))
    end k
  end.

(** ** The system *)

Record System := {
  sy_now : Z;
  sy_db : Db;
  sy_procs : gmap nat (code * option DispatchClaim);
  sy_sent : Log
}.

(** Tables a step leaves alone. *)
Definition same_dispatch (db db' : Db) : Prop :=
  lanes db' = lanes db /\ messages db' = messages db /\ attempts db' = attempts db /\
  statuses db' = statuses db.

Inductive step : System -> System -> Prop :=
| StepCreate now db procs sent now' command ids wall db' r :
    now < now' -> Repository_CreateOutbound command ids wall now' db = (db', r) ->
    step {| sy_now := now; sy_db := db; sy_procs := procs; sy_sent := sent |}
         {| sy_now := now'; sy_db := db'; sy_procs := procs; sy_sent := sent |}
| StepObserve now db procs sent now' cx projected ids n db' :
    now < now' -> Forall provider_observation projected ->
    project_messages cx projected ids n now' db = Ok db' ->
    step {| sy_now := now; sy_db := db; sy_procs := procs; sy_sent := sent |}
         {| sy_now := now'; sy_db := db'; sy_procs := procs; sy_sent := sent |}
| StepRenew now db procs sent now' claim owner db' r :
    now < now' -> Repository_RenewProviderIO claim owner now' db = (db', r) ->
    step {| sy_now := now; sy_db := db; sy_procs := procs; sy_sent := sent |}
         {| sy_now := now'; sy_db := db'; sy_procs := procs; sy_sent := sent |}
| StepConversation now db procs sent now' t c x conversation outgoing group owner token db' r :
    now < now' ->
    RecordCreatedConversationFenced t c x conversation outgoing group owner token now' db = (db', r) ->
    step {| sy_now := now; sy_db := db; sy_procs := procs; sy_sent := sent |}
         {| sy_now := now'; sy_db := db'; sy_procs := procs; sy_sent := sent |}
| StepElsewhere now db procs sent now' db' :
    now < now' -> same_dispatch db db' ->
    step {| sy_now := now; sy_db := db; sy_procs := procs; sy_sent := sent |}
         {| sy_now := now'; sy_db := db'; sy_procs := procs; sy_sent := sent |}
| StepSpawn now db procs sent pid dispatcher lane :
    procs !! pid = None ->
    step {| sy_now := now; sy_db := db; sy_procs := procs; sy_sent := sent |}
         {| sy_now := now; sy_db := db;
            sy_procs := <[pid := (DispatchLane dispatcher lane, None)]> procs; sy_sent := sent |}
| StepCrash now db procs sent pid :
    step {| sy_now := now; sy_db := db; sy_procs := procs; sy_sent := sent |}
         {| sy_now := now; sy_db := db; sy_procs := delete pid procs; sy_sent := sent |}
| StepProc now db procs sent now' pid p perm ch db' sent' p' :
    now < now' -> procs !! pid = Some (p, perm) ->
    proc_step ch now' p perm db sent = (db', sent', p') ->
    step {| sy_now := now; sy_db := db; sy_procs := procs; sy_sent := sent |}
         {| sy_now := now'; sy_db := db'; sy_procs := <[pid := p']> procs; sy_sent := sent' |}.

(** A gateway that has not queued anything yet. *)
Definition initial (s : System) : Prop :=
  lanes (sy_db s) = ∅ /\ messages (sy_db s) = ∅ /\ attempts (sy_db s) = ∅ /\ statuses (sy_db s) = ∅ /\
  sy_procs s = ∅ /\ sy_sent s = [].

(** The messages the provider was asked to send. *)
Definition sent_messages (s : System) : list (string * string) :=
  (fun e => (om_TenantID (psc_Message e.2), om_ID (psc_Message e.2))) <$> sy_sent s.

(** ** Grants survive *)

(** The provider I/O an attempt has started stays on record. *)
Definition keeps_io (db db' : Db) : Prop :=
  forall t x a, attempts db !! (t, x) = Some a -> io_started a ->
    exists a', attempts db' !! (t, x) = Some a' /\ io_started a' /\ at_MessageID a' = at_MessageID a.

#[export] Instance keeps_io_refl : Reflexive keeps_io.
Proof. intros db t x a Ha Hio. by exists a. Qed.

#[export] Instance keeps_io_trans : Transitive keeps_io.
Proof.
  intros db1 db2 db3 H12 H23 t x a Ha Hio. destruct (H12 _ _ _ Ha Hio) as (a2 & Ha2 & Hio2 & Hm2).
  destruct (H23 _ _ _ Ha2 Hio2) as (a3 & Ha3 & Hio3 & Hm3). exists a3. split_and!; [done..|congruence].
Qed.

Lemma keeps_io_same db db' : attempts db' = attempts db -> keeps_io db db'.
Proof. intros H t x a Ha Hio. exists a. by rewrite H. Qed.

Lemma keeps_io_put db db' t x a' :
  attempts db' = <[(t, x) := a']> (attempts db) ->
  (forall a, attempts db !! (t, x) = Some a -> io_started a ->
     io_started a' /\ at_MessageID a' = at_MessageID a) ->
  keeps_io db db'.
Proof.
  intros H Hput t' y b Hb Hio. rewrite H. destruct (decide ((t, x) = (t', y))) as [E|E].
  - simplify_eq. exists a'. rewrite lookup_insert_eq. destruct (Hput _ Hb Hio). done.
  - exists b. by rewrite lookup_insert_ne.
Qed.

(** Closing an attempt keeps its I/O on record. *)
Lemma keeps_io_finish db db' t x a reason now :
  attempts db' = <[(t, x) := finish_attempt a reason now]> (attempts db) ->
  attempts db !! (t, x) = Some a -> keeps_io db db'.
Proof. intros H Ha. eapply keeps_io_put; [done|]. intros b Hb Hio. rewrite Ha in Hb. by simplify_eq. Qed.

Lemma claim_keeps_io lane owner ids now db db' r :
  Repository_ClaimNext lane owner ids now db = (db', r) -> keeps_io db db'.
Proof.
  unfold Repository_ClaimNext. intros H. open_call H; [reflexivity..|]. unfold claim_transaction in H.
  destruct (claim_lease _ _ _ _ _); [|injection H as <- _; reflexivity].
  destruct (lanes db !! _) as [l|]; [|injection H as <- _; reflexivity]. destruct (negb _); [injection H as <- _; reflexivity|].
  destruct (lane_attempt _ _ _ _ _) as [[k a]|] eqn:Ea.
  - apply lane_attempt_spec in Ea as (Ha & _). apply result_bind_ok in H as (db1 & Hr & H).
    injection H as <- _. unfold recover_attempt in Hr.
    destruct (messages db !! _); [|injection Hr as <-; apply keeps_io_same; reflexivity]. destruct (negb _); [injection Hr as <-; apply keeps_io_same; reflexivity|].
    apply result_bind_ok in Hr as (db3 & (_ & _ & ->)%insertMessageStatus_ok & Hr).
    destruct (bool_decide (at_Phase a = Claimed)); (eapply keeps_io_finish; [|exact Ha]).
    + by injection Hr as <-.
    + apply result_bind_ok in Hr as (db4 & [_ ->]%insertGatewayEvent_ok & Hr).
      apply result_bind_ok in Hr as (db5 & (_ & _ & ->)%insert_outbox_row_ok & Hr).
      by apply insert_outbox_row_ok in Hr as (_ & _ & ->).
  - destruct (lane_candidate _ _ _ _) as [[k m]|]; [|destruct (ln_Claimed l); injection H as <- _; apply keeps_io_same; reflexivity].
    unfold claim_candidate in H. apply result_bind_ok in H as (_ & _ & H).
    apply result_bind_ok in H as (_ & _ & H). apply result_bind_ok in H as (A' & [Hx ->]%insert_unique_ok & H).
    apply result_bind_ok in H as (db4 & (_ & Hs & ->)%insertMessageStatus_ok & H).
    apply result_bind_ok in H as (tmp & _ & H). destruct (_ || _); [done|]. injection H as <- _.
    eapply keeps_io_put; [done|]. intros a Ha. simpl in Hx. congruence.
Qed.

(** A grant starts the I/O of an attempt that had not started any. *)
Lemma begin_grants T claim owner now db db' r :
  dispatch_ok T db -> Repository_BeginProviderIO claim owner now db = (db', r) ->
  keeps_io db db' /\
  (r = Ok true -> exists a,
     attempts db !! (om_TenantID (dc_Message claim), dc_AttemptID claim) = Some a /\ ~ io_started a /\
     at_MessageID a = om_ID (dc_Message claim) /\
     attempts db' !! (om_TenantID (dc_Message claim), dc_AttemptID claim) = Some (start_attempt a now)).
Proof.
  intros Hok. unfold Repository_BeginProviderIO. intros H. open_call H; [split; [reflexivity | done]..|].
  destruct (negb _); [injection H as <- <-; split; [reflexivity | done]|].
  destruct (locked_claim _ _ _ _ _ _) as [[[l a] m]|] eqn:E; [|injection H as <- <-; split; [reflexivity | done]].
  injection H as <- <-. apply locked_claim_spec in E as (_ & Ha & _ & _ & _ & _ & _ & Ham & Hp).
  destruct (ok_attempt _ _ _ _ _ Hok _ _ _ Ha) as (_ & _ & _ & Hno). split.
  - eapply keeps_io_put; [done|]. intros b Hb Hio. rewrite Ha in Hb. simplify_eq. split; [|done].
    by eexists.
  - intros _. exists a. split_and!; try done; [|apply lookup_insert_eq].
    unfold io_started. rewrite (Hno Hp). by intros [? ?].
Qed.

Lemma release_keeps_io claim reason statusID now db db' r :
  Repository_ReleaseBeforeDispatch claim reason statusID now db = (db', r) -> keeps_io db db'.
Proof.
  unfold Repository_ReleaseBeforeDispatch. intros H. open_call H; [reflexivity..|].
  unfold release_transaction in H. destruct (negb _); [done|].
  destruct (locked_claim _ _ _ _ _ _) as [[[l a] m]|] eqn:E; [|done].
  apply result_bind_ok in H as (db4 & (_ & _ & ->)%insertMessageStatus_ok & H). injection H as <- _.
  apply locked_claim_spec in E as (_ & Ha & _). by eapply keeps_io_finish.
Qed.

Lemma complete_keeps_io claim states reason ids wall now db db' r :
  Repository_CompleteDispatch claim states reason ids wall now db = (db', r) -> keeps_io db db'.
Proof.
  unfold Repository_CompleteDispatch. intros H. open_call H; [reflexivity..|].
  unfold complete_transaction in H. destruct (negb _); [done|].
  destruct (locked_claim _ _ _ _ _ _) as [[[l a] m]|] eqn:E; [|done].
  apply result_bind_ok in H as (db1 & Happ & H). apply result_bind_ok in H as (_ & _ & H). injection H as <- _.
  apply append_statuses_frame in Happ as (_ & _ & HA & _).
  apply locked_claim_spec in E as (_ & Ha & _). eapply keeps_io_finish; [|exact Ha]. simpl. by rewrite HA.
Qed.

(** ** The invariant of the system *)

Definition attempt_key (claim : DispatchClaim) : string * string :=
  (om_TenantID (dc_Message claim), dc_AttemptID claim).

Definition granted (db : Db) (claim : DispatchClaim) : Prop :=
  exists a, attempts db !! attempt_key claim = Some a /\ io_started a /\
    at_MessageID a = om_ID (dc_Message claim).

Lemma granted_keeps db db' claim : keeps_io db db' -> granted db claim -> granted db' claim.
Proof.
  intros Hk (a & Ha & Hio & Hm). destruct (Hk _ _ _ Ha Hio) as (a' & Ha' & Hio' & Hm').
  exists a'. split_and!; [done..|congruence].
Qed.

(** Grants in the hands of processes and grants used up are all different. *)
Record system_ok (s : System) : Prop := {
  so_db : dispatch_ok (sy_now s) (sy_db s);
  so_fenced pid p perm : sy_procs s !! pid = Some (p, perm) -> fenced perm p;
  so_held pid p claim : sy_procs s !! pid = Some (p, Some claim) -> granted (sy_db s) claim;
  so_sent e : e ∈ sy_sent s -> granted (sy_db s) e.1 /\ psc_Message e.2 = dc_Message e.1;
  so_apart pid p claim pid' p' claim' :
    sy_procs s !! pid = Some (p, Some claim) -> sy_procs s !! pid' = Some (p', Some claim') ->
    pid <> pid' -> attempt_key claim <> attempt_key claim';
  so_unused pid p claim e : sy_procs s !! pid = Some (p, Some claim) -> e ∈ sy_sent s ->
    attempt_key claim <> attempt_key e.1;
  so_once : NoDup (attempt_key ∘ fst <$> sy_sent s)
}.

(** A change of the database that keeps the grants. *)
Lemma system_db now db procs sent now' db' :
  system_ok {| sy_now := now; sy_db := db; sy_procs := procs; sy_sent := sent |} ->
  dispatch_ok now' db' -> keeps_io db db' ->
  system_ok {| sy_now := now'; sy_db := db'; sy_procs := procs; sy_sent := sent |}.
Proof.
  intros [Hdb Hf Hh Hs Ha Hu Ho] Hdb' Hk. split; simpl in *; try done.
  - intros pid p claim Hp. by eapply granted_keeps, Hh.
  - intros e He. destruct (Hs e He). split; [by eapply granted_keeps | done].
Qed.

(** A process without a grant of its own may be put anywhere. *)
Lemma system_proc now db procs sent pid p :
  system_ok {| sy_now := now; sy_db := db; sy_procs := procs; sy_sent := sent |} -> fenced None p ->
  system_ok {| sy_now := now; sy_db := db; sy_procs := <[pid := (p, None)]> procs; sy_sent := sent |}.
Proof.
  intros [Hdb Hf Hh Hs Ha Hu Ho] Hp. split; simpl in *; try done.
  - intros pid' q perm Hq. in_insert Hq; [done | by eapply Hf].
  - intros pid' q claim Hq. in_insert Hq. by eapply Hh.
  - intros pid1 q1 c1 pid2 q2 c2 H1 H2. in_insert H1. in_insert H2. by eapply Ha.
  - intros pid' q claim e Hq. in_insert Hq. by eapply Hu.
Qed.

(** A grant of an attempt that had not started. *)
Lemma system_grant now db procs sent pid p claim now' db' :
  system_ok {| sy_now := now; sy_db := db; sy_procs := procs; sy_sent := sent |} ->
  dispatch_ok now' db' -> keeps_io db db' -> fenced (Some claim) p -> granted db' claim ->
  (forall a, attempts db !! attempt_key claim = Some a -> ~ io_started a) ->
  system_ok {| sy_now := now'; sy_db := db'; sy_procs := <[pid := (p, Some claim)]> procs;
               sy_sent := sent |}.
Proof.
  intros Hs Hdb' Hk Hp Hg Hnew.
  assert (Hother : forall claim', granted db claim' -> attempt_key claim <> attempt_key claim').
  { intros claim' (a & Ha & Hio & _) E. rewrite <- E in Ha. by eapply Hnew. }
  pose proof (system_db _ _ _ _ _ _ Hs Hdb' Hk) as [Hdb Hf Hh Hse Ha Hu Ho].
  destruct Hs as [_ _ Hh0 Hse0 _ _ _]. split; simpl in *; try done.
  - intros pid' q perm Hq. in_insert Hq; [done | by eapply Hf].
  - intros pid' q c Hq. in_insert Hq; [done | by eapply Hh].
  - intros pid1 q1 c1 pid2 q2 c2 H1 H2 Hne. in_insert H1; in_insert H2; [| |by eapply Ha].
    + by eapply Hother, Hh0.
    + apply not_eq_sym. by eapply Hother, Hh0.
  - intros pid' q c e Hq He. in_insert Hq; [|by eapply Hu]. by apply Hother, Hse0.
Qed.

(** A process uses its grant for a send. *)
Lemma system_send now db procs sent pid p q claim command :
  system_ok {| sy_now := now; sy_db := db; sy_procs := procs; sy_sent := sent |} ->
  procs !! pid = Some (p, Some claim) -> psc_Message command = dc_Message claim -> fenced None q ->
  system_ok {| sy_now := now; sy_db := db; sy_procs := <[pid := (q, None)]> procs;
               sy_sent := sent ++ [(claim, command)] |}.
Proof.
  intros [Hdb Hf Hh Hs Ha Hu Ho] Hp Hm Hq. split; simpl in *; try done.
  - intros pid' r perm Hr. in_insert Hr; [done | by eapply Hf].
  - intros pid' r c Hr. in_insert Hr. by eapply Hh.
  - intros e [He|He%list_elem_of_singleton]%elem_of_app; [by apply Hs|]. subst e. simpl.
    split; [by eapply Hh | done].
  - intros pid1 q1 c1 pid2 q2 c2 H1 H2. in_insert H1. in_insert H2. by eapply Ha.
  - intros pid' r c e Hr [He|He%list_elem_of_singleton]%elem_of_app; in_insert Hr; [by eapply Hu|].
    subst e. simpl. eapply Ha; [done | done | congruence].
  - rewrite fmap_app. apply NoDup_app. split; [done|]. split; [|apply NoDup_singleton].
    intros k (e & -> & He)%list_elem_of_fmap Hk%list_elem_of_singleton. simpl in Hk.
    by eapply Hu; [| |symmetry].
Qed.

(** ** Every step keeps it *)

Lemma answer_cases {R} ch db (o : Db * result R) db' r :
  answer ch db o = (db', r) -> o = (db', r) \/ (exists e, r = Err e) /\ (db' = db \/ db' = o.1).
Proof.
  unfold answer. destruct (ch_lost ch) as [[]|]; [| |by left]; intros [= <- <-]; right; eauto.
Qed.

(** A call of the store by a process, with the reply possibly lost. *)
Lemma answer_db {R} ch now db now' (o : Db * result R) db' r :
  dispatch_ok now db -> now < now' -> dispatch_ok now' o.1 -> keeps_io db o.1 ->
  answer ch db o = (db', r) -> dispatch_ok now' db' /\ keeps_io db db'.
Proof.
  intros Hdb HT Hok Hk H. apply answer_cases in H as [->|[_ [-> | ->]]]; [done| |done].
  split; [eapply later_ok; [|done]; lia | reflexivity].
Qed.

Lemma claim_ok T db lane owner ids now db' r :
  dispatch_ok T db -> T < now -> Repository_ClaimNext lane owner ids now db = (db', r) ->
  dispatch_ok now db'.
Proof.
  intros Hok HT. assert (Hsame : dispatch_ok now db) by (eapply later_ok; [|done]; lia).
  unfold Repository_ClaimNext. intros H. open_call H; [done..|]. by eapply (claim_transaction_ok T).
Qed.

Lemma release_ok T db claim reason statusID now db' r :
  dispatch_ok T db -> T < now ->
  Repository_ReleaseBeforeDispatch claim reason statusID now db = (db', r) -> dispatch_ok now db'.
Proof.
  intros Hok HT. assert (Hsame : dispatch_ok now db) by (eapply later_ok; [|done]; lia).
  unfold Repository_ReleaseBeforeDispatch. intros H. open_call H; [done..|].
  by eapply (release_transaction_ok T).
Qed.

(** A store call after which the process holds no grant. *)
Lemma system_call {R} ch now db procs sent now' pid (o : Db * result R) db' r p :
  system_ok {| sy_now := now; sy_db := db; sy_procs := procs; sy_sent := sent |} -> now < now' ->
  dispatch_ok now' o.1 -> keeps_io db o.1 -> answer ch db o = (db', r) -> fenced None p ->
  system_ok {| sy_now := now'; sy_db := db'; sy_procs := <[pid := (p, None)]> procs; sy_sent := sent |}.
Proof.
  intros Hs HT Hok Hk Ha Hp. destruct (answer_db ch now db now' o db' r (so_db _ Hs) HT Hok Hk Ha).
  apply system_proc; [|done]. by eapply system_db.
Qed.

Lemma begin_system ch now db procs sent now' pid claim owner db' r p :
  system_ok {| sy_now := now; sy_db := db; sy_procs := procs; sy_sent := sent |} -> now < now' ->
  answer ch db (Repository_BeginProviderIO claim owner now' db) = (db', r) ->
  fenced (match r with Ok true => Some claim | _ => None end) p ->
  system_ok {| sy_now := now'; sy_db := db';
    sy_procs := <[pid := (p, match r with Ok true => Some claim | _ => None end)]> procs; sy_sent := sent |}.
Proof.
  intros Hs HT Ha Hp. destruct (Repository_BeginProviderIO claim owner now' db) as [db1 r1] eqn:Eb.
  pose proof (begin_ok _ _ _ _ _ _ _ (so_db _ Hs) HT Eb) as Hok.
  destruct (begin_grants _ _ _ _ _ _ _ (so_db _ Hs) Eb) as [Hk Hgrant].
  destruct (decide (r = Ok true)) as [->|Hr].
  - apply answer_cases in Ha as [[= -> ->]|[[e He] _]]; [|done].
    destruct (Hgrant eq_refl) as (a & Ha & Hno & Hm & Ha').
    eapply system_grant; try done.
    + eexists. split_and!; [exact Ha'|by eexists|done].
    + intros b Hb. unfold attempt_key in Hb. simpl in Ha. rewrite Ha in Hb. by injection Hb as <-.
  - replace (match r with Ok true => Some claim | _ => None end) with (@None DispatchClaim) in *
      by (destruct r as [[]|]; congruence).
    by eapply (system_call ch now db procs sent now' pid (db1, r1)).
Qed.

Lemma proc_step_ok ch now db procs sent now' pid p perm db' sent' p' :
  system_ok {| sy_now := now; sy_db := db; sy_procs := procs; sy_sent := sent |} -> now < now' ->
  procs !! pid = Some (p, perm) -> proc_step ch now' p perm db sent = (db', sent', p') ->
  system_ok {| sy_now := now'; sy_db := db'; sy_procs := <[pid := p']> procs; sy_sent := sent' |}.
Proof.
  intros Hs HT Hp Hstep. pose proof (so_db _ Hs) as Hdb. pose proof (so_fenced _ Hs _ _ _ Hp) as Hf.
  simpl in Hdb. assert (Hlater : dispatch_ok now' db) by (eapply later_ok; [|done]; lia).
  destruct p as [v|X c k]; [|destruct c as [lane owner|claim owner|claim command renewAs|claim states reason|claim reason]];
    cbn [proc_step] in Hstep; cbn [fenced] in Hf.
  - injection Hstep as <- <- <-. rewrite insert_id by done. by eapply system_db.
  - destruct (answer ch db _) as [db1 r] eqn:Ea. injection Hstep as <- <- <-.
    destruct (Repository_ClaimNext lane owner (ch_claim ch) now' db) as [db2 r2] eqn:Ec.
    eapply system_call; [done|done| | |exact Ea|apply Hf]; simpl.
    + by eapply (claim_ok now).
    + by eapply claim_keeps_io.
  - destruct (answer ch db _) as [db1 r] eqn:Ea. injection Hstep as <- <- <-.
    eapply begin_system; [done|done|exact Ea|apply Hf].
  - injection Hstep as <- <- <-. destruct Hf as (-> & Hm & Hf).
    eapply system_send; [|done..|apply Hf]. by eapply system_db.
  - destruct (answer ch db _) as [db1 r] eqn:Ea. injection Hstep as <- <- <-.
    destruct (Repository_CompleteDispatch _ _ _ _ _ _ _) as [db2 r2] eqn:Ec.
    eapply system_call; [done|done| | |exact Ea|apply Hf]; simpl.
    + by eapply (complete_ok now).
    + by eapply complete_keeps_io.
  - destruct (answer ch db _) as [db1 r] eqn:Ea. injection Hstep as <- <- <-.
    destruct (Repository_ReleaseBeforeDispatch _ _ _ _ _) as [db2 r2] eqn:Ec.
    eapply system_call; [done|done| | |exact Ea|apply Hf]; simpl.
    + by eapply (release_ok now).
    + by eapply release_keeps_io.
Qed.

Lemma system_keeps now db procs sent now' db' :
  system_ok {| sy_now := now; sy_db := db; sy_procs := procs; sy_sent := sent |} ->
  dispatch_ok now' db' -> attempts db' = attempts db ->
  system_ok {| sy_now := now'; sy_db := db'; sy_procs := procs; sy_sent := sent |}.
Proof. intros Hs Hok Ha. eapply system_db; [done..|]. by apply keeps_io_same. Qed.

(** The operations other than the dispatcher's leave the attempts alone. *)
Lemma create_attempts command ids wall now db db' r :
  Repository_CreateOutbound command ids wall now db = (db', r) -> attempts db' = attempts db.
Proof.
  unfold Repository_CreateOutbound. intros H. open_call H; [done..|].
  destruct (idempotency db !! (om_TenantID (co_Message command), co_IdempotencyKey command)) as [st|] eqn:Ei.
  - by destruct (create_bound_ok _ _ _ _ _ _ _ _ Ei H) as [(commands' & -> & _) _].
  - by destruct (create_inserted_ok _ _ _ _ _ _ _ Ei H)
      as (_ & key & lanes' & media' & commands' & body & _ & _ & _ & _ & _ & _ & _ & _ & _ & ->).
Qed.

Lemma project_attempts cx projected ids n now db db' :
  project_messages cx projected ids n now db = Ok db' -> attempts db' = attempts db.
Proof.
  revert n db. induction projected as [|p rest IH]; intros n db; [by intros [= <-]|].
  cbn [project_messages]. intros (db1 & H1 & H)%result_bind_ok. rewrite (IH _ _ H). clear H IH.
  assert (Htail : forall ro db0, reconcile_tail cx p ro (ids n) now db0 = Ok db1 ->
            attempts db1 = attempts db0).
  { intros ro db0 (db2 & H2 & H)%result_bind_ok. assert (E : attempts db2 = attempts db0).
    { destruct (bool_decide _); [by injection H2 as <-|]. by apply insertMessageStatus_ok in H2 as (_ & _ & ->). }
    rewrite <- E. destruct (ro_transition ro); [|by injection H as <-].
    apply result_bind_ok in H as (body & _ & H).
    apply result_bind_ok in H as (db3 & [_ ->]%insertGatewayEvent_ok & H).
    by apply insertEventOutbox_ok in H as (_ & _ & _ & ->). }
  rewrite project_message_eq in H1. destruct (lock_projected _ _ _ _ _) as [[k m]|].
  - apply result_bind_ok in H1 as ([db2 ro] & H2 & H). simpl in H. rewrite (Htail _ _ H).
    unfold reconcile_existing in H2. apply result_bind_ok in H2 as (dir & _ & H2).
    destruct (negb _); [done|]. bind_ok H2. by injection H2 as <- _.
  - apply result_bind_ok in H1 as ([db2 [[x st] dir]] & H2 & H). rewrite (Htail _ _ H).
    unfold insert_projected in H2. destruct (negb _); [done|]. bind_ok H2.
    destruct (messages db !! _); [done|]. by injection H2 as <- _ _ _.
Qed.

Lemma system_crash now db procs sent pid :
  system_ok {| sy_now := now; sy_db := db; sy_procs := procs; sy_sent := sent |} ->
  system_ok {| sy_now := now; sy_db := db; sy_procs := delete pid procs; sy_sent := sent |}.
Proof.
  intros [Hdb Hf Hh Hs Ha Hu Ho]. split; simpl in *; try done.
  - intros pid' p perm [_ Hp]%lookup_delete_Some. by eapply Hf.
  - intros pid' p claim [_ Hp]%lookup_delete_Some. by eapply Hh.
  - intros pid1 p1 c1 pid2 p2 c2 [_ H1]%lookup_delete_Some [_ H2]%lookup_delete_Some. by eapply Ha.
  - intros pid' p claim e [_ Hp]%lookup_delete_Some. by eapply Hu.
Qed.

Lemma step_ok s s' : step s s' -> system_ok s -> system_ok s'.
Proof.
  destruct 1 as [now db procs sent now' command ids wall db' r HT H
    |now db procs sent now' cx projected ids n db' HT Hobs H|now db procs sent now' claim owner db' r HT H
    |now db procs sent now' t c x conv out g owner token db' r HT H|now db procs sent now' db' HT H
    |now db procs sent pid dispatcher lane Hp|now db procs sent pid
    |now db procs sent now' pid p perm ch db' sent' p' HT Hp H]; intros Hs;
    pose proof (so_db _ Hs) as Hdb; simpl in Hdb.
  - eapply system_keeps; [done|by eapply (create_ok now)|by eapply create_attempts].
  - destruct (quiet_later _ _ _ Hdb HT).
    eapply system_keeps; [done|by eapply project_messages_ok|by eapply project_attempts].
  - eapply system_keeps; [done|by eapply (renew_ok now)|].
    unfold Repository_RenewProviderIO in H. open_call H; [done..|]. destruct (negb _); [by injection H as <- _|].
    destruct (locked_claim _ _ _ _ _ _) as [[[l a] m]|]; [|by injection H as <- _].
    destruct (_ && _); by injection H as <- _.
  - eapply system_keeps; [done|by eapply (record_conversation_ok now)|].
    unfold RecordCreatedConversationFenced in H. open_call H; [done..|]. unfold record_created_conversation in H.
    destruct (message_dispatching _ _ _); [|done]. destruct (negb _); [done|]. destruct (_ && _); [done|].
    by injection H as <- _.
  - destruct H as (Hl & Hm & Ha & Hst). eapply system_keeps; [done| |done].
    unfold dispatch_ok. rewrite Hl, Hm, Ha, Hst. eapply later_ok; [|done]. lia.
  - apply system_proc; [done|]. apply DispatchLane_fenced_lemma.
  - by apply system_crash.
  - by eapply proc_step_ok.
Qed.

Lemma initial_ok s : initial s -> system_ok s.
Proof.
  destruct s as [now db procs sent]. intros (Hl & Hm & Ha & Hst & Hp & Hse). simpl in *. subst procs sent.
  split; simpl; try (intros *; rewrite ?lookup_empty; set_solver); [|constructor].
  unfold dispatch_ok. rewrite Hl, Hm, Ha, Hst. split; intros *; by rewrite ?lookup_empty.
Qed.

Lemma reachable_ok s0 s : initial s0 -> rtc step s0 s -> system_ok s.
Proof. intros Hi Hr. apply initial_ok in Hi. induction Hr; [done|]. by eauto using step_ok. Qed.

Lemma sent_once s : system_ok s -> NoDup (sent_messages s).
Proof.
  intros Hs. apply NoDup_alt. intros i j [t x]. unfold sent_messages. rewrite !list_lookup_fmap.
  intros (ei & Hi & [= Hti Hxi])%fmap_Some (ej & Hj & [= Htj Hxj])%fmap_Some.
  assert (Hgi : ei ∈ sy_sent s) by (eapply list_elem_of_lookup_2; done).
  assert (Hgj : ej ∈ sy_sent s) by (eapply list_elem_of_lookup_2; done).
  destruct (so_sent _ Hs _ Hgi) as [(a & Ha & Hia & Hma) Ei].
  destruct (so_sent _ Hs _ Hgj) as [(b & Hb & Hib & Hmb) Ej].
  unfold attempt_key in Ha, Hb. rewrite <- Ei in Ha, Hma. rewrite <- Ej in Hb, Hmb.
  rewrite <- Hti in Ha. rewrite <- Htj in Hb.
  assert (E : dc_AttemptID ei.1 = dc_AttemptID ej.1).
  { eapply (one_io_attempt _ _ _ _ _ _ _ _ _ _ (so_db _ Hs)); [exact Ha|exact Hb|congruence|done..]. }
  eapply NoDup_lookup; [exact (so_once _ Hs)| |].
  - rewrite list_lookup_fmap, Hi. reflexivity.
  - rewrite list_lookup_fmap, Hj. simpl. f_equal. unfold attempt_key. simpl. rewrite <- Ei, <- Ej, E. congruence.
Qed.

(** C1. A message is handed to the provider at most once in its life, by all
    dispatchers of all replicas together, whatever the interleaving, crashes,
    lost database replies, lease changes and provider observations; and a
    message that was handed over is never in the queue again. *)
Theorem provider_send_at_most_once (s0 s : System) (Hinit : initial s0) (Hreach : rtc step s0 s) :
  NoDup (sent_messages s) /\
  forall t x, (t, x) ∈ sent_messages s ->
    exists m, messages (sy_db s) !! (t, x) = Some m /\ ms_State m <> MessageStateQueued.
Proof.
  pose proof (reachable_ok _ _ Hinit Hreach) as Hs. split; [by apply sent_once|].
  intros t x ([claim command] & [= -> ->] & He)%list_elem_of_fmap.
  destruct (so_sent _ Hs _ He) as [(a & Ha & Hio & Hma) E]. simpl in *. rewrite E.
  destruct (ok_attempt _ _ _ _ _ (so_db _ Hs) _ _ _ Ha) as ((m & Hm & _ & _ & Hq) & _).
  exists m. rewrite <- Hma. auto.
Qed.

(** C2. The dispatch tables of every reachable state satisfy the lane
    discipline: at most one attempt of a message has contacted the provider and
    it is the newest one, two attempts of a lane carry different lane tokens
    bounded by the lane's, and a claimed lane names an open attempt that holds
    its current token. *)
Theorem lane_discipline (s0 s : System) (Hinit : initial s0) (Hreach : rtc step s0 s) :
  let db := sy_db s in
  (forall t x a y b, attempts db !! (t, x) = Some a -> attempts db !! (t, y) = Some b ->
     at_MessageID a = at_MessageID b -> io_started a -> x <> y ->
     ~ io_started b /\ at_LaneToken b < at_LaneToken a) /\
  (forall t x a y b, attempts db !! (t, x) = Some a -> attempts db !! (t, y) = Some b ->
     at_ConnectionID a = at_ConnectionID b -> at_OrderingKey a = at_OrderingKey b ->
     at_LaneToken a = at_LaneToken b -> x = y) /\
  (forall t x a, attempts db !! (t, x) = Some a ->
     exists l, lanes db !! (t, at_ConnectionID a, at_OrderingKey a) = Some l /\
       at_LaneToken a <= ln_Token l) /\
  (forall t c key l x, lanes db !! (t, c, key) = Some l -> ln_Claimed l = Some x ->
     lane_holder (attempts db) t c key x (ln_Token l)).
Proof.
  pose proof (so_db _ (reachable_ok _ _ Hinit Hreach)) as Hok. cbn zeta. split_and!.
  - intros t x a y b Ha Hb Hm Hio Hne. split.
    + intros Hib. apply Hne. by eapply (one_io_attempt _ _ _ _ _ _ _ _ _ _ Hok).
    + by apply (ok_apart _ _ _ _ _ Hok _ _ _ _ _ Ha Hb Hne).
  - intros t x a y b Ha Hb Hc Hk Ht. destruct (decide (x = y)) as [|Hne]; [done|].
    destruct (ok_apart _ _ _ _ _ Hok _ _ _ _ _ Ha Hb Hne) as [Hd _]. by destruct (Hd Hc Hk).
  - intros t x a Ha. by destruct (ok_attempt _ _ _ _ _ Hok _ _ _ Ha) as (_ & Hl & _).
  - intros t c key l x Hl Hx. by eapply (ok_holder _ _ _ _ _ Hok).
Qed.

(** ** Running the system *)

Inductive Action :=
| ActCreate (command : CreateOutboundCommand) (ids : CreateIDs)
| ActAcquire (t c owner : string) (ttl : Z)
| ActSpawn (pid : nat) (dispatcher : Dispatcher) (lane : LaneKey)
| ActCrash (pid : nat)
| ActProc (pid : nat) (ch : Choice).

(** Each action takes a second. *)
Definition act (a : Action) (s : System) : System :=
  let now' := sy_now s + Second in
  match a with
  | ActCreate command ids =>
      {| sy_now := now'; sy_db := (Repository_CreateOutbound command ids now' now' (sy_db s)).1;
         sy_procs := sy_procs s; sy_sent := sy_sent s |}
  | ActAcquire t c owner ttl =>
      {| sy_now := now'; sy_db := (AcquireConnectionLease t c owner ttl now' (sy_db s)).1;
         sy_procs := sy_procs s; sy_sent := sy_sent s |}
  | ActSpawn pid dispatcher lane =>
      match sy_procs s !! pid with
      | None => {| sy_now := sy_now s; sy_db := sy_db s;
                   sy_procs := <[pid := (DispatchLane dispatcher lane, None)]> (sy_procs s);
                   sy_sent := sy_sent s |}
      | Some _ => s
      end
  | ActCrash pid =>
      {| sy_now := sy_now s; sy_db := sy_db s; sy_procs := delete pid (sy_procs s); sy_sent := sy_sent s |}
  | ActProc pid ch =>
      match sy_procs s !! pid with
      | Some (p, perm) =>
          let '(db', sent', p') := proc_step ch now' p perm (sy_db s) (sy_sent s) in
          {| sy_now := now'; sy_db := db'; sy_procs := <[pid := p']> (sy_procs s); sy_sent := sent' |}
      | None => s
      end
  end.

Lemma acquire_elsewhere t c owner ttl now db :
  same_dispatch db (AcquireConnectionLease t c owner ttl now db).1.
Proof.
  destruct (AcquireConnectionLease t c owner ttl now db) as [db' r] eqn:H.
  unfold AcquireConnectionLease in H. open_call H; [done..|]. bind_ok H. case_match; by injection H as <- _.
Qed.

Lemma act_steps a s : rtc step s (act a s).
Proof.
  destruct s as [now db procs sent]. assert (now < now + Second) by (assert (0 < Second) by reflexivity; lia).
  destruct a as [command ids|t c owner ttl|pid d lane|pid|pid ch]; simpl.
  - apply rtc_once. eapply StepCreate; [done | apply surjective_pairing].
  - apply rtc_once. apply StepElsewhere; [done | apply acquire_elsewhere].
  - destruct (procs !! pid) eqn:E; [reflexivity|]. apply rtc_once. by apply StepSpawn.
  - apply rtc_once. apply StepCrash.
  - destruct (procs !! pid) as [[p perm]|] eqn:E; [|reflexivity].
    destruct (proc_step ch (now + Second) p perm db sent) as [[db' sent'] p'] eqn:Ep.
    apply rtc_once. by eapply StepProc.
Qed.

Lemma acts_steps l s : rtc step s (foldl (fun s a => act a s) s l).
Proof.
  revert s. induction l as [|a l IH]; intros s; [reflexivity|]. simpl.
  etransitivity; [apply act_steps | apply IH].
Qed.

(** ** A run with a crash

    The first dispatcher crashes after its claim; after the claim expired the
    second one recovers it and a third one sends the message; a fourth one finds
    nothing left to do. *)

Definition run_start : System := {| sy_now := 0; sy_db := sample_db; sy_procs := ∅; sy_sent := [] |}.
Definition run_dispatcher : Dispatcher := {| dp_ownerID := "replica-1"; dp_renew := 10 * Second |}.
Definition run_lane : LaneKey :=
  {| lk_TenantID := "t1"; lk_ConnectionID := "c1"; lk_ConversationID := "new:+12025550100" |}.

Definition index (i : nat) : string := string_of (repeat (byte_of_Z 48) i).

Definition run_choice (n : string) : Choice := {|
  ch_lost := None; ch_error := [];
  ch_claim := {| cm_attempt := "attempt" +:+ n; cm_status := "claim" +:+ n; cm_recoveryStatus := "recovery" +:+ n;
                 cm_recoveryEvent := "rev" +:+ n; cm_recoveryWebhook := "rw" +:+ n; cm_recoveryKafka := "rk" +:+ n |};
  ch_status := fun i => {| si_status := "done" +:+ n +:+ index i; si_event := "event" +:+ n +:+ index i;
                           si_outbox := "outbox" +:+ n +:+ index i |};
  ch_statusID := "release" +:+ n; ch_wall := Second;
  ch_sent := ({| psr_Accepted := true; psr_FailureReason := ""; psr_ConversationID := "conv-1" |}, [], []) |}.

Definition run_lease : Action := ActAcquire "t1" "c1" "replica-1" Minute.

Definition run_actions : list Action :=
  [ActCreate sample_command (sample_ids "1"); run_lease;
   ActSpawn 0 run_dispatcher run_lane; ActProc 0 (run_choice "a"); ActCrash 0] ++ repeat run_lease 30 ++
  [ActSpawn 1 run_dispatcher run_lane; ActProc 1 (run_choice "b"); ActSpawn 2 run_dispatcher run_lane;
   ActProc 2 (run_choice "c"); ActProc 2 (run_choice "d"); ActProc 2 (run_choice "e"); ActProc 2 (run_choice "f");
   ActSpawn 3 run_dispatcher run_lane; ActProc 3 (run_choice "g")].

Definition run_end : System := foldl (fun s a => act a s) run_start run_actions.

Lemma run_sends : sent_messages run_end = [("t1", "msg-1")].
Proof. vm_compute. reflexivity. Qed.

Lemma provider_send_at_most_once_witness :
  NoDup (sent_messages run_end) /\ sent_messages run_end = [("t1", "msg-1")] /\
  exists m, messages (sy_db run_end) !! ("t1", "msg-1") = Some m /\ ms_State m <> MessageStateQueued.
Proof.
  assert (Hi : initial run_start) by (vm_compute; split_and!; reflexivity).
  destruct (provider_send_at_most_once run_start run_end Hi (acts_steps run_actions run_start)) as [Hn Hq].
  split; [exact Hn|]. split; [apply run_sends|]. apply Hq. rewrite run_sends. apply list_elem_of_here.
Defined.

Lemma lane_discipline_witness :
  exists l, lanes (sy_db run_end) !! ("t1", "c1", "new:+12025550100") = Some l /\ 2 <= ln_Token l.
Proof.
  assert (Hi : initial run_start) by (vm_compute; split_and!; reflexivity).
  destruct (lane_discipline run_start run_end Hi (acts_steps run_actions run_start)) as (_ & _ & Hl & _).
  destruct (attempts (sy_db run_end) !! ("t1", "attemptc")) as [a|] eqn:Ea; [|vm_compute in Ea; discriminate Ea].
  destruct (Hl "t1" "attemptc" a Ea) as (l & Hl1 & Hle). vm_compute in Ea. injection Ea as <-.
  exists l. split; [exact Hl1 | exact Hle].
Defined.
