(* ===== verification/Responses.v ===== *)
(** * Provider responses (internal/gateway/store/postgres/messages.go)

    The tables that remember which provider responses were seen, the SQL
    statements on them, and the acknowledgement operations of the repository.
    Every response identifier has one reservation, which names its digest and
    the one family ([provider_inbox] or [provider_rejected_responses]) its row
    is in.  Poisoned evidence, rejected responses and cursor advances are
    bounded per connection.

    The tables are keyed by (tenant, connection, response identifier), which the
    schema declares unique in each of them; the row's own identifier is a
    column. *)

From S2P Require Import Prelude GoText Crypto GoEncoding Domain Session EventContract Store Ingress Reconcile.

(** ** Sums over a table *)

Definition tally {K A} `{Countable K} (f : K -> A -> Z) (m : gmap K A) : Z :=
  foldr (fun p acc => f p.1 p.2 + acc) 0 (map_to_list m).

Section Tally.
Context {K A : Type} `{Countable K} (f : K -> A -> Z).

Lemma foldr_sum_perm (l1 l2 : list (K * A)) :
  l1 ≡ₚ l2 -> foldr (fun p acc => f p.1 p.2 + acc) 0 l1 = foldr (fun p acc => f p.1 p.2 + acc) 0 l2.
Proof. induction 1; simpl; lia. Qed.

Lemma tally_insert_fresh (m : gmap K A) k v :
  m !! k = None -> tally f (<[k := v]> m) = f k v + tally f m.
Proof.
  intros Hk. unfold tally. by rewrite (foldr_sum_perm _ _ (map_to_list_insert m k v Hk)).
Qed.

Lemma tally_delete (m : gmap K A) k :
  tally f (delete k m) = tally f m - from_option (f k) 0 (m !! k).
Proof.
  destruct (m !! k) as [v|] eqn:E; simpl.
  - rewrite <- (insert_delete_id m k v E) at 2. rewrite tally_insert_fresh by apply lookup_delete_eq. lia.
  - rewrite delete_id by done. lia.
Qed.

Lemma tally_insert (m : gmap K A) k v :
  tally f (<[k := v]> m) = tally f m - from_option (f k) 0 (m !! k) + f k v.
Proof.
  rewrite <- insert_delete_eq, tally_insert_fresh by apply lookup_delete_eq.
  rewrite tally_delete. lia.
Qed.

Lemma tally_nonneg (m : gmap K A) : (forall k v, 0 <= f k v) -> 0 <= tally f m.
Proof.
  intros Hf. unfold tally. induction (map_to_list m) as [|[k v] l IH]; simpl; [lia|].
  specialize (Hf k v). lia.
Qed.

Lemma tally_at (m : gmap K A) k v :
  (forall k v, 0 <= f k v) -> m !! k = Some v -> f k v <= tally f m.
Proof.
  intros Hf Hk. pose proof (tally_delete m k) as Hd. rewrite Hk in Hd. simpl in Hd.
  pose proof (tally_nonneg (delete k m) Hf). lia.
Qed.
End Tally.

Lemma tally_le {K A} `{Countable K} (f g : K -> A -> Z) (m : gmap K A) :
  (forall k v, m !! k = Some v -> f k v <= g k v) -> tally f m <= tally g m.
Proof.
  induction m as [|k v m Hk IH] using map_ind; [done|]. intros Hle.
  rewrite !tally_insert_fresh by done. specialize (Hle k v) as Hkv. rewrite lookup_insert_eq in Hkv.
  specialize (Hkv eq_refl). assert (tally f m <= tally g m); [|lia]. apply IH. intros k' v' Hk'.
  apply Hle. rewrite lookup_insert_ne; [done|]. congruence.
Qed.

(** A sum restricted to the rows another table confirms. *)
Lemma tally_eq {K A} `{Countable K} (f g : K -> A -> Z) (m : gmap K A) :
  (forall k v, m !! k = Some v -> f k v = g k v) -> tally f m = tally g m.
Proof.
  intros Heq. apply Z.le_antisymm; apply tally_le; intros k v Hk; rewrite (Heq _ _ Hk); lia.
Qed.

(** ** Rows *)

Definition MaxProviderCursorAdvances : Z := 256.
Definition MaxRejectedProviderResponses : Z := 256.
Definition MaxPoisonedProviderInboxEntries : Z := 256.
Definition MaxPoisonedProviderInboxBytes : Z := Z.shiftl 32 20.
Definition MaxOccurrences : Z := 2147483647.

Inductive Disposition := InInbox | InRejected.

#[export] Instance Disposition_eq_dec : EqDecision Disposition.
Proof. solve_decision. Defined.

Record ReservationRow := {
  rs_Digest : bytes;
  rs_Disposition : Disposition;
  rs_Conflicted : bool;
  rs_Occurrences : Z;
  rs_FirstSeenAt : Z;
  rs_LastSeenAt : Z
}.

Record InboxRow := {
  ib_InboxID : string;
  ib_Digest : bytes;
  ib_Raw : bytes;
  ib_Poisoned : bool;
  ib_PoisonReason : string;
  ib_ACKPending : bool;
  ib_ACKedAt : option Z;
  ib_Owner : string;
  ib_Token : Z;
  ib_ReceivedAt : Z
}.

Record RejectedRow := {
  rj_Digest : bytes;
  rj_Reason : string;
  rj_ACKPending : bool;
  rj_ACKedAt : option Z;
  rj_Conflicted : bool;
  rj_Occurrences : Z;
  rj_FirstSeenAt : Z;
  rj_LastSeenAt : Z
}.

Record ConflictRow := {
  cf_ConflictID : string;
  cf_Digest : bytes;
  cf_Size : Z;
  cf_Sample : bytes;
  cf_Occurrences : Z;
  cf_ObservedAt : Z
}.

Record BudgetRow := { bg_AcceptedAdvances : Z; bg_Exhausted : bool; bg_LastResponseID : string }.

(** The key holds the digest; [NULL] columns are [None]. *)
Record HistoryRow := { hs_Base : option bytes; hs_ResponseID : option string; hs_ObservedAt : Z }.

Abbreviation rkey := (string * string * string)%type.

Record Responses := {
  reservations : gmap rkey ReservationRow;
  inbox : gmap rkey InboxRow;
  rejected : gmap rkey RejectedRow;
  conflicts : gmap rkey ConflictRow;
  budgets : gmap rkey BudgetRow;
  history : gmap (rkey * bytes) HistoryRow
}.

Definition no_responses : Responses :=
  {| reservations := ∅; inbox := ∅; rejected := ∅; conflicts := ∅; budgets := ∅; history := ∅ |}.

Definition set_reservations (t : gmap rkey ReservationRow) (r : Responses) : Responses :=
  {| reservations := t; inbox := inbox r; rejected := rejected r; conflicts := conflicts r;
     budgets := budgets r; history := history r |}.
Definition set_inbox (t : gmap rkey InboxRow) (r : Responses) : Responses :=
  {| reservations := reservations r; inbox := t; rejected := rejected r; conflicts := conflicts r;
     budgets := budgets r; history := history r |}.
Definition set_rejected (t : gmap rkey RejectedRow) (r : Responses) : Responses :=
  {| reservations := reservations r; inbox := inbox r; rejected := t; conflicts := conflicts r;
     budgets := budgets r; history := history r |}.
Definition set_conflicts (t : gmap rkey ConflictRow) (r : Responses) : Responses :=
  {| reservations := reservations r; inbox := inbox r; rejected := rejected r; conflicts := t;
     budgets := budgets r; history := history r |}.
Definition set_budgets (t : gmap rkey BudgetRow) (r : Responses) : Responses :=
  {| reservations := reservations r; inbox := inbox r; rejected := rejected r; conflicts := conflicts r;
     budgets := t; history := history r |}.
Definition set_history (t : gmap (rkey * bytes) HistoryRow) (r : Responses) : Responses :=
  {| reservations := reservations r; inbox := inbox r; rejected := rejected r; conflicts := conflicts r;
     budgets := budgets r; history := t |}.

(** The identity a statement is about: tenant, connection and response. *)
Definition same_connection (t c : string) (k : rkey) : bool := (k.1.1 =s t) && (k.1.2 =s c).

Definition LEAST (a b : Z) : Z := Z.min a b.

(** ** Usage counters *)

(** The raw poison evidence of a connection. *)
Definition poison_rows (r : Responses) (t c : string) : Z :=
  tally (fun k row => if same_connection t c k && ib_Poisoned row then 1 else 0) (inbox r).
Definition poison_bytes (r : Responses) (t c : string) : Z :=
  tally (fun k row => if same_connection t c k && ib_Poisoned row then blen (ib_Raw row) else 0) (inbox r).

(** [insertProviderInboxSQL] counts the poisoned rows whose reservation says
    'inbox'. *)
Definition reserved_poison_rows (r : Responses) (t c : string) : Z :=
  tally (fun k row =>
    if same_connection t c k && ib_Poisoned row &&
       match reservations r !! k with
       | Some rs => bool_decide (rs_Disposition rs = InInbox)
       | None => false
       end then 1 else 0) (inbox r).

Definition rejected_reservations (r : Responses) (t c : string) : Z :=
  tally (fun k rs => if same_connection t c k && bool_decide (rs_Disposition rs = InRejected) then 1 else 0)
    (reservations r).

(** ** Statements *)

(** What [getProviderInboxSQL] returns: digest, disposition, ack_pending,
    poisoned and reason of an unconflicted reservation with its row. *)
Record Existing := {
  ex_Digest : bytes;
  ex_Disposition : Disposition;
  ex_ACKPending : bool;
  ex_Poisoned : bool;
  ex_PoisonReason : string
}.

Definition getProviderInbox (k : rkey) (r : Responses) : option Existing :=
  match reservations r !! k with
  | Some rs =>
    if rs_Conflicted rs then None
    else match rs_Disposition rs with
    | InInbox =>
      match inbox r !! k with
      | Some row => Some {| ex_Digest := rs_Digest rs; ex_Disposition := InInbox;
          ex_ACKPending := ib_ACKPending row; ex_Poisoned := ib_Poisoned row;
          ex_PoisonReason := ib_PoisonReason row |}
      | None => None
      end
    | InRejected =>
      match rejected r !! k with
      | Some row => Some {| ex_Digest := rs_Digest rs; ex_Disposition := InRejected;
          ex_ACKPending := rj_ACKPending row; ex_Poisoned := true; ex_PoisonReason := rj_Reason row |}
      | None => None
      end
    end
  | None => None
  end.

(** PRIMARY KEY (tenant_id, inbox_id) and (tenant_id, conflict_id). *)
Definition inbox_id_taken (r : Responses) (t id : string) : bool :=
  existsb (fun p => (p.1.1.1 =s t) && (ib_InboxID p.2 =s id)) (map_to_list (inbox r)).
Definition conflict_id_taken (r : Responses) (t id : string) : bool :=
  existsb (fun p => (p.1.1.1 =s t) && (cf_ConflictID p.2 =s id)) (map_to_list (conflicts r)).

(** The columns of the inserted row. *)
Definition new_inbox_row (record : EnvelopeRecord) (inboxID : string) : InboxRow := {|
  ib_InboxID := inboxID; ib_Digest := rc_Digest record; ib_Raw := rc_Raw record;
  ib_Poisoned := rc_Poisoned record; ib_PoisonReason := rc_PoisonReason record;
  ib_ACKPending := negb (rc_ACKWithheld record); ib_ACKedAt := None;
  ib_Owner := rc_OwnerID record; ib_Token := rc_FencingToken record;
  ib_ReceivedAt := pg_timestamp (rc_ReceivedAt record) |}.

Definition record_key (record : EnvelopeRecord) : rkey :=
  (rc_TenantID record, rc_ConnectionID record, rc_ProviderResponseID record).

(** A poisoned envelope is admitted only within the row and byte quotas. *)
Definition poison_admitted (record : EnvelopeRecord) (r : Responses) : bool :=
  negb (rc_Poisoned record) ||
  ((reserved_poison_rows r (rc_TenantID record) (rc_ConnectionID record) <? MaxPoisonedProviderInboxEntries) &&
   (poison_bytes r (rc_TenantID record) (rc_ConnectionID record) + blen (rc_Raw record)
      <=? MaxPoisonedProviderInboxBytes)).

(** The number of inserted rows is the boolean. *)
Definition insertProviderInbox (record : EnvelopeRecord) (inboxID : string) (r : Responses)
    : result (Responses * bool) :=
  let k := record_key record in
  if negb (poison_admitted record r) then Ok (r, false)
  else match reservations r !! k with
  | Some _ => Ok (r, false)
  | None =>
    let at_ := pg_timestamp (rc_ReceivedAt record) in
    let! _ := check_constraint (blen (rc_Digest record) =? 32) in
    let! _ := check_constraint (negb (inbox_id_taken r (rc_TenantID record) inboxID)) in
    let! inbox' := insert_unique (inbox r) k (new_inbox_row record inboxID) in
    Ok (set_inbox inbox' (set_reservations (<[k :=
          {| rs_Digest := rc_Digest record; rs_Disposition := InInbox; rs_Conflicted := false;
             rs_Occurrences := 1; rs_FirstSeenAt := at_; rs_LastSeenAt := at_ |}]> (reservations r)) r), true)
  end.

Definition with_inbox_ack (row : InboxRow) (pending : bool) (ackedAt : option Z) : InboxRow := {|
  ib_InboxID := ib_InboxID row; ib_Digest := ib_Digest row; ib_Raw := ib_Raw row;
  ib_Poisoned := ib_Poisoned row; ib_PoisonReason := ib_PoisonReason row;
  ib_ACKPending := pending; ib_ACKedAt := ackedAt; ib_Owner := ib_Owner row; ib_Token := ib_Token row;
  ib_ReceivedAt := ib_ReceivedAt row |}.

Definition with_inbox_poison (row : InboxRow) (reason : string) : InboxRow := {|
  ib_InboxID := ib_InboxID row; ib_Digest := ib_Digest row; ib_Raw := ib_Raw row;
  ib_Poisoned := true; ib_PoisonReason := reason; ib_ACKPending := ib_ACKPending row;
  ib_ACKedAt := ib_ACKedAt row; ib_Owner := ib_Owner row; ib_Token := ib_Token row;
  ib_ReceivedAt := ib_ReceivedAt row |}.

Definition with_rejected_ack (row : RejectedRow) (pending conflicted : bool) (ackedAt : option Z)
    : RejectedRow := {|
  rj_Digest := rj_Digest row; rj_Reason := rj_Reason row; rj_ACKPending := pending; rj_ACKedAt := ackedAt;
  rj_Conflicted := conflicted; rj_Occurrences := rj_Occurrences row;
  rj_FirstSeenAt := rj_FirstSeenAt row; rj_LastSeenAt := rj_LastSeenAt row |}.

Definition conflicted_reservation (rs : ReservationRow) (now : Z) : ReservationRow := {|
  rs_Digest := rs_Digest rs; rs_Disposition := rs_Disposition rs; rs_Conflicted := true;
  rs_Occurrences := LEAST (rs_Occurrences rs + 1) MaxOccurrences;
  rs_FirstSeenAt := rs_FirstSeenAt rs; rs_LastSeenAt := now |}.

Definition conflict_sample (conflictID : string) (record : EnvelopeRecord) (now : Z) : ConflictRow := {|
  cf_ConflictID := conflictID; cf_Digest := rc_Digest record; cf_Size := blen (rc_Raw record);
  cf_Sample := take 256 (rc_Raw record); cf_Occurrences := 1; cf_ObservedAt := now |}.

Definition repeated_conflict (row : ConflictRow) (now : Z) : ConflictRow := {|
  cf_ConflictID := cf_ConflictID row; cf_Digest := cf_Digest row; cf_Size := cf_Size row;
  cf_Sample := cf_Sample row; cf_Occurrences := LEAST (cf_Occurrences row + 1) MaxOccurrences;
  cf_ObservedAt := now |}.

(** The last part of [insertProviderInboxConflictSQL]: one bounded sample per
    response, its repetitions counted. *)
Definition record_conflict (record : EnvelopeRecord) (conflictID : string) (now : Z) (r : Responses)
    : result Responses :=
  let k := record_key record in
  match conflicts r !! k with
  | Some row => Ok (set_conflicts (<[k := repeated_conflict row now]> (conflicts r)) r)
  | None =>
    let! _ := foreign_key (bool_decide (is_Some (inbox r !! k))) in
    let! _ := check_constraint ((blen (rc_Digest record) =? 32) && between 1 4194304 (blen (rc_Raw record))) in
    let! _ := check_constraint (negb (conflict_id_taken r (rc_TenantID record) conflictID)) in
    Ok (set_conflicts (<[k := conflict_sample conflictID record now]> (conflicts r)) r)
  end.

Definition insertProviderInboxConflict (record : EnvelopeRecord) (conflictID : string) (now : Z)
    (r : Responses) : result Responses :=
  let k := record_key record in
  match reservations r !! k with
  | None => Ok r
  | Some rs =>
    let r1 := set_reservations (<[k := conflicted_reservation rs now]> (reservations r)) r in
    match rs_Disposition rs with
    | InInbox =>
      record_conflict record conflictID now
        (set_inbox (alter (fun row => with_inbox_ack row false (ib_ACKedAt row)) k (inbox r1)) r1)
    | InRejected =>
      Ok (set_rejected (alter (fun row => with_rejected_ack row false true (rj_ACKedAt row)) k (rejected r1)) r1)
    end
  end.

Definition reopenProviderACK (k : rkey) (r : Responses) : Responses :=
  match reservations r !! k with
  | Some rs =>
    if rs_Conflicted rs then r
    else match rs_Disposition rs with
    | InInbox => set_inbox (alter (fun row => with_inbox_ack row true None) k (inbox r)) r
    | InRejected =>
      set_rejected (alter (fun row => if rj_Conflicted row then row
                                      else with_rejected_ack row true (rj_Conflicted row) None) k (rejected r)) r
    end
  | None => r
  end.

(** [finalizeProviderPoisonSQL]: [None] when no row qualifies. *)
Definition admit_poison (k : rkey) (reason : string) (r : Responses) : option Responses :=
  match inbox r !! k with
  | Some row =>
    if negb (ib_Poisoned row) &&
       (poison_rows r k.1.1 k.1.2 <? MaxPoisonedProviderInboxEntries) &&
       (poison_bytes r k.1.1 k.1.2 + blen (ib_Raw row) <=? MaxPoisonedProviderInboxBytes)
    then Some (set_inbox (<[k := with_inbox_poison row reason]> (inbox r)) r)
    else None
  | None => None
  end.

Definition moved_reservation (rs : ReservationRow) (now : Z) : ReservationRow := {|
  rs_Digest := rs_Digest rs; rs_Disposition := InRejected; rs_Conflicted := rs_Conflicted rs;
  rs_Occurrences := rs_Occurrences rs; rs_FirstSeenAt := rs_FirstSeenAt rs; rs_LastSeenAt := now |}.

Definition compacted_row (rs : ReservationRow) (row : InboxRow) (reason : string) (now : Z) : RejectedRow := {|
  rj_Digest := rs_Digest rs; rj_Reason := reason; rj_ACKPending := negb (rs_Conflicted rs);
  rj_ACKedAt := None; rj_Conflicted := rs_Conflicted rs; rj_Occurrences := rs_Occurrences rs;
  rj_FirstSeenAt := ib_ReceivedAt row; rj_LastSeenAt := now |}.

(** CHECK (reason IN ...) of migration 0015. *)
Definition rejected_reason (reason : string) : bool :=
  bool_decide (reason ∈ ["provider_cursor_budget_exhausted"; "provider_cursor_cycle";
                         "media_identity_conflict"; "response_id_digest_conflict"]).

(** [compactProviderPoisonSQL]: the raw row and its conflict sample are deleted
    and the reservation moves to the rejected family; the boolean says whether
    a rejected row was inserted. *)
Definition compact_poison (k : rkey) (reason : string) (now : Z) (r : Responses)
    : result (Responses * bool) :=
  match inbox r !! k, reservations r !! k with
  | Some row, Some rs =>
    if negb (ib_Poisoned row) && bool_decide (rs_Disposition rs = InInbox) &&
       (rejected_reservations r k.1.1 k.1.2 <? MaxRejectedProviderResponses)
    then
      let r1 := set_inbox (delete k (inbox r)) (set_conflicts (delete k (conflicts r)) r) in
      if bool_decide (rs_Digest rs = ib_Digest row) then
        let! _ := check_constraint (rejected_reason reason) in
        let! rejected' := insert_unique (rejected r1) k (compacted_row rs row reason now) in
        Ok (set_rejected rejected' (set_reservations (<[k := moved_reservation rs now]> (reservations r1)) r1), true)
      else Ok (r1, false)
    else Ok (r, false)
  | _, _ => Ok (r, false)
  end.

(** [false] is [ErrProviderResponseCapacity]; the state goes with it because one
    caller keeps what the transaction did so far. *)
Definition finalizeProviderPoison (k : rkey) (reason : string) (now : Z) (r : Responses)
    : result (Responses * bool) :=
  match admit_poison k reason r with
  | Some r' => Ok (r', true)
  | None => compact_poison k reason now r
  end.

(** *** Rejected responses *)

Definition rejected_again (rs : ReservationRow) (digest : bytes) (at_ : Z) : ReservationRow := {|
  rs_Digest := rs_Digest rs; rs_Disposition := rs_Disposition rs;
  rs_Conflicted := rs_Conflicted rs || negb (bool_decide (rs_Digest rs = digest));
  rs_Occurrences := LEAST (rs_Occurrences rs + 1) MaxOccurrences;
  rs_FirstSeenAt := rs_FirstSeenAt rs; rs_LastSeenAt := at_ |}.

Definition new_rejected_reservation (digest : bytes) (at_ : Z) : ReservationRow := {|
  rs_Digest := digest; rs_Disposition := InRejected; rs_Conflicted := false; rs_Occurrences := 1;
  rs_FirstSeenAt := at_; rs_LastSeenAt := at_ |}.

(** The row of the second insert, or its update in place. *)
Definition rejected_row (rs : ReservationRow) (old : option RejectedRow) (at_ : Z) : RejectedRow :=
  match old with
  | None => {| rj_Digest := rs_Digest rs; rj_Reason := "provider_cursor_budget_exhausted";
      rj_ACKPending := negb (rs_Conflicted rs); rj_ACKedAt := None; rj_Conflicted := rs_Conflicted rs;
      rj_Occurrences := rs_Occurrences rs; rj_FirstSeenAt := at_; rj_LastSeenAt := at_ |}
  | Some row => {| rj_Digest := rj_Digest row; rj_Reason := rj_Reason row;
      rj_ACKPending := negb (rs_Conflicted rs);
      rj_ACKedAt := if negb (rs_Conflicted rs) then None else rj_ACKedAt row;
      rj_Conflicted := rs_Conflicted rs; rj_Occurrences := rs_Occurrences rs;
      rj_FirstSeenAt := rj_FirstSeenAt row; rj_LastSeenAt := at_ |}
  end.

(** [upsertRejectedProviderResponseSQL]: digest, conflicted and occurrence
    count, or nothing. *)
Definition upsertRejectedProviderResponse (record : EnvelopeRecord) (r : Responses)
    : result (Responses * option (bytes * bool * Z)) :=
  let k := record_key record in
  let at_ := pg_timestamp (rc_ReceivedAt record) in
  let old := reservations r !! k in
  let known := match old with Some rs => bool_decide (rs_Disposition rs = InRejected) | None => false end in
  if (rejected_reservations r (rc_TenantID record) (rc_ConnectionID record) <? MaxRejectedProviderResponses) || known
  then
    let! _ := check_constraint (blen (rc_Digest record) =? 32) in
    let rs := match old with
              | None => new_rejected_reservation (rc_Digest record) at_
              | Some rs => rejected_again rs (rc_Digest record) at_
              end in
    let r1 := set_reservations (<[k := rs]> (reservations r)) r in
    match rs_Disposition rs with
    | InInbox => Ok (r1, None)
    | InRejected =>
      let row := rejected_row rs (rejected r1 !! k) at_ in
      Ok (set_rejected (<[k := row]> (rejected r1)) r1,
          Some (rj_Digest row, rj_Conflicted row, rj_Occurrences row))
    end
  else Ok (r, None).

(** *** The cursor breaker *)

Definition ensureProviderCursorBudget (scope : rkey) (responseID : string) (r : Responses) : result Responses :=
  let! _ := check_constraint (between 1 512 (len scope.2)) in
  match budgets r !! scope with
  | Some _ => Ok r
  | None => Ok (set_budgets (<[scope := {| bg_AcceptedAdvances := 0; bg_Exhausted := false;
                                          bg_LastResponseID := responseID |}]> (budgets r)) r)
  end.

Definition incrementProviderCursorBudget (scope : rkey) (responseID : string) (r : Responses)
    : option (Responses * Z) :=
  match budgets r !! scope with
  | Some b =>
    if negb (bg_Exhausted b) && (bg_AcceptedAdvances b <? MaxProviderCursorAdvances)
    then Some (set_budgets (<[scope := {| bg_AcceptedAdvances := bg_AcceptedAdvances b + 1;
                 bg_Exhausted := bg_Exhausted b; bg_LastResponseID := responseID |}]> (budgets r)) r,
               bg_AcceptedAdvances b + 1)
    else None
  | None => None
  end.

Definition exhaustProviderCursorBudget (scope : rkey) (responseID : string) (r : Responses)
    : option Responses :=
  match budgets r !! scope with
  | Some b =>
    if negb (bg_Exhausted b) && (bg_AcceptedAdvances b >=? MaxProviderCursorAdvances)
    then Some (set_budgets (<[scope := {| bg_AcceptedAdvances := bg_AcceptedAdvances b;
                 bg_Exhausted := true; bg_LastResponseID := responseID |}]> (budgets r)) r)
    else None
  | None => None
  end.

Definition seedProviderCursorHistory (scope : rkey) (digest : bytes) (now : Z) (r : Responses) : Responses :=
  match history r !! (scope, digest) with
  | Some _ => r
  | None => set_history (<[(scope, digest) :=
      {| hs_Base := None; hs_ResponseID := None; hs_ObservedAt := now |}]> (history r)) r
  end.

(** The returned base digest and response; a stored row with another base
    digest returns nothing. *)
Definition insertProviderCursorHistory (scope : rkey) (digest : bytes) (base : option bytes)
    (responseID : string) (now : Z) (r : Responses) : option (Responses * HistoryRow) :=
  match history r !! (scope, digest) with
  | Some row => if bool_decide (hs_Base row = base) then Some (r, row) else None
  | None =>
    let row := {| hs_Base := base; hs_ResponseID := Some responseID; hs_ObservedAt := now |} in
    Some (set_history (<[(scope, digest) := row]> (history r)) r, row)
  end.

(** [ORDER BY observed_at DESC, cursor_digest DESC]. *)
Definition history_ge (a b : (rkey * bytes) * HistoryRow) : Prop :=
  hs_ObservedAt b.2 < hs_ObservedAt a.2 \/
  hs_ObservedAt b.2 = hs_ObservedAt a.2 /\ String.le (string_of b.1.2) (string_of a.1.2).

#[export] Instance history_ge_dec a b : Decision (history_ge a b).
Proof. unfold history_ge. apply _. Defined.

Definition scope_history (scope : rkey) (r : Responses) : list ((rkey * bytes) * HistoryRow) :=
  List.filter (fun p => bool_decide (p.1.1 = scope)) (map_to_list (history r)).

(** All but the 64 latest rows of the scope are deleted. *)
Definition pruneProviderCursorHistory (scope : rkey) (r : Responses) : Responses :=
  let stale := drop 64 (merge_sort history_ge (scope_history scope r)) in
  set_history (foldr (fun p h => delete p.1 h) (history r) stale) r.

(** The end of a scan clears the connection's budgets and cursor history
    (completeBackfillPageSQL). *)
Definition clear_cursor_scopes (t c : string) (r : Responses) : Responses :=
  set_history (filter (fun p => same_connection t c p.1.1 = false) (history r))
    (set_budgets (filter (fun p => same_connection t c p.1 = false) (budgets r)) r).

(** ** The ingress database

    The tables of Store.v with the response tables and the columns only ingress
    writes: [conversations.committed_cursor], the descriptive columns of lines
    and media, [message_media.provider_identity_digest] and
    [media_fetch_jobs]. *)

Record LineDetails := {
  ld_ParticipantID : string;
  ld_Phone : string;
  ld_DisplayName : string;
  ld_CarrierName : string;
  ld_ColorHex : string;
  ld_RCSEnabled : bool;
  ld_SIMNumber : Z;
  ld_SIMPayloadType : Z;
  ld_DiscoverySource : string
}.

Record MediaDetails := {
  mo_MessageID : option string;
  mo_MIMEType : string;
  mo_DisplayFilename : string;
  mo_ByteSize : Z;
  mo_ObjectKey : option string;
  mo_SHA256 : option bytes;
  mo_Width : option Z;
  mo_Height : option Z;
  mo_CreatedAt : Z
}.

(** The columns [envelopeSQLArgs] gives: all five, or none. *)
Record SealedKey := {
  sk_Ciphertext : bytes; sk_WrappedDEK : bytes; sk_Nonce : bytes; sk_KeyID : string; sk_KeyVersion : Z
}.

Record FetchJobRow := {
  fj_MediaID : string;
  fj_ConnectionID : string;
  fj_ProviderMessageID : string;
  fj_Locator : string;
  fj_MIMEType : string;
  fj_DeclaredSize : Z;
  fj_DisplayFilename : string;
  fj_Key : option SealedKey;
  fj_ThumbnailKey : option SealedKey;
  fj_IdentityDigest : option bytes;
  fj_State : string;
  fj_AttemptCount : Z;
  fj_AvailableAt : Z;
  fj_OwnerID : option string;
  fj_ClaimToken : Z;
  fj_ClaimExpiresAt : option Z;
  fj_LastSafeError : string
}.

Record ProjectedTables := {
  committed_cursors : gmap rkey bytes;
  line_details : gmap (string * string) LineDetails;
  attachment_identities : gmap (string * string * Z) bytes;
  media_details : gmap (string * string) MediaDetails;
  fetch_jobs : gmap (string * string) FetchJobRow
}.

Record IngressDb := { base : Db; responses : Responses; projected : ProjectedTables }.

Definition set_base (b : Db) (s : IngressDb) : IngressDb :=
  {| base := b; responses := responses s; projected := projected s |}.
Definition set_responses (r : Responses) (s : IngressDb) : IngressDb :=
  {| base := base s; responses := r; projected := projected s |}.
Definition set_projected (p : ProjectedTables) (s : IngressDb) : IngressDb :=
  {| base := base s; responses := responses s; projected := p |}.

Definition no_projection : ProjectedTables :=
  {| committed_cursors := ∅; line_details := ∅; attachment_identities := ∅; media_details := ∅; fetch_jobs := ∅ |}.
