(* ===== verification/Acks.v ===== *)
(** * Provider acknowledgements (internal/gateway/store/postgres/messages.go)

    Listing, marking and coordinating the acknowledgement of provider
    responses under the connection lease.  [CoordinateProviderACKsFenced] holds
    its row locks over the provider callback, so the admission, the callback and
    the update are one step. *)

From S2P Require Import Prelude GoText Crypto GoEncoding Domain Session EventContract Store Leases Ingress Reconcile Responses.

(** The rows an acknowledgement may touch: pending, under an unconflicted
    reservation of the same family. *)
Definition ackable_inbox (r : Responses) (k : rkey) : bool :=
  match inbox r !! k, reservations r !! k with
  | Some row, Some rs => ib_ACKPending row && bool_decide (rs_Disposition rs = InInbox) && negb (rs_Conflicted rs)
  | _, _ => false
  end.

Definition ackable_rejected (r : Responses) (k : rkey) : bool :=
  match rejected r !! k, reservations r !! k with
  | Some row, Some rs => rj_ACKPending row && negb (rj_Conflicted row) &&
                         bool_decide (rs_Disposition rs = InRejected) && negb (rs_Conflicted rs)
  | _, _ => false
  end.

Definition ackable (r : Responses) (k : rkey) : bool := ackable_inbox r k || ackable_rejected r k.

(** ** Listing *)

(** A lease the listing statement accepts; it does not join the connection. *)
Definition live_lease (db : Db) (t c owner : string) (token now : Z) : bool :=
  match leases db !! (t, c) with
  | Some l => lease_matches l owner token now
  | None => false
  end.

(** (received_at, inbox_id, response). *)
Record Pending := { pd_ReceivedAt : Z; pd_InboxID : string; pd_ResponseID : string }.

Definition pending_le (a b : Pending) : Prop :=
  pd_ReceivedAt a < pd_ReceivedAt b \/
  pd_ReceivedAt a = pd_ReceivedAt b /\ String.le (pd_InboxID a) (pd_InboxID b).

#[export] Instance pending_le_dec a b : Decision (pending_le a b).
Proof. unfold pending_le. apply _. Defined.

Definition inbox_pending (r : Responses) (t c : string) (limit : nat) : list Pending :=
  take limit (merge_sort pending_le
    ((fun p => {| pd_ReceivedAt := ib_ReceivedAt p.2; pd_InboxID := ib_InboxID p.2; pd_ResponseID := p.1.2 |})
     <$> List.filter (fun p => same_connection t c p.1 && ackable_inbox r p.1) (map_to_list (inbox r)))).

(** The rejected identifiers are ordered by the response identifier; the prefix
    only matters in the union. *)
Definition rejected_pending (r : Responses) (t c : string) (limit : nat) : list Pending :=
  take limit (merge_sort pending_le
    ((fun p => {| pd_ReceivedAt := rj_FirstSeenAt p.2; pd_InboxID := "rejected:" +:+ p.1.2; pd_ResponseID := p.1.2 |})
     <$> List.filter (fun p => same_connection t c p.1 && ackable_rejected r p.1) (map_to_list (rejected r)))).

Definition list_pending (r : Responses) (t c : string) (limit : nat) : list string :=
  pd_ResponseID <$> take limit (merge_sort pending_le (inbox_pending r t c limit ++ rejected_pending r t c limit)).

Definition ListPendingProviderACKsFenced (tenantID connectionID ownerID : string) (fencingToken limit now : Z)
    (s : IngressDb) : IngressDb * result (list string) :=
  if (tenantID =s "") || (connectionID =s "") || (ownerID =s "") || (fencingToken =? 0) ||
     (limit <? 1) || (limit >? 256)
  then (s, Err [ErrInvalidIdentifier])
  else inTenant tenantID (fun s =>
    if negb (live_lease (base s) tenantID connectionID ownerID fencingToken now)
    then Err [ErrConnectionLeaseLost]
    else
      let ids := list_pending (responses s) tenantID connectionID (Z.to_nat limit) in
      if forallb ValidProviderResponseID ids then Ok (s, ids)
      else Err (errors_Join [[ErrInvalidProviderResponseID]; [ErrInvalidIdentifier]])) s.

(** ** Marking *)

Definition valid_batch (ids : list string) : bool :=
  negb (is_nil ids) && (blen ids <=? 256) && forallb ValidProviderResponseID ids && bool_decide (NoDup ids).

Definition requested (t c : string) (ids : list string) (k : rkey) : bool :=
  same_connection t c k && bool_decide (k.2 ∈ ids).

(** Both updates of [markProviderACKedSQL] and
    [completeCoordinatedProviderACKSQL]. *)
Definition mark_acked (t c : string) (ids : list string) (now : Z) (r : Responses) : Responses :=
  set_rejected (map_imap (fun k row =>
      Some (if requested t c ids k && ackable_rejected r k
            then with_rejected_ack row false (rj_Conflicted row) (Some now) else row)) (rejected r))
  (set_inbox (map_imap (fun k row =>
      Some (if requested t c ids k && ackable_inbox r k
            then with_inbox_ack row false (Some now) else row)) (inbox r)) r).

Definition admitted (r : Responses) (t c : string) (ids : list string) : list string :=
  List.filter (fun id => ackable r (t, c, id)) ids.

(** The transaction commits whatever rows it could update, also when it
    answers [false]. *)
Definition MarkProviderACKedFenced (tenantID connectionID ownerID : string) (fencingToken : Z)
    (responseIDs : list string) (now : Z) (s : IngressDb) : IngressDb * result bool :=
  if (tenantID =s "") || (connectionID =s "") || (ownerID =s "") || (fencingToken =? 0) ||
     negb (valid_batch responseIDs)
  then (s, Err [ErrInvalidIdentifier])
  else inTenant tenantID (fun s =>
    if owned_lease (base s) tenantID connectionID ownerID fencingToken now
    then Ok (set_responses (mark_acked tenantID connectionID responseIDs now (responses s)) s,
             blen (admitted (responses s) tenantID connectionID responseIDs) =? blen responseIDs)
    else Ok (s, false)) s.

(** ** Coordinating *)

Definition ProviderACKCoordinationHardTimeout : Z := 5 * Second.

Record ACKCoordinationResult := { ac_AdmittedIDs : list string; ac_ProviderError : error }.

(** The lease is extended, never shortened. *)
Definition extend_lease (t c : string) (ttl now : Z) (db : Db) : Db :=
  set_leases (alter (fun l => {| ls_Owner := ls_Owner l; ls_Token := ls_Token l;
    ls_ExpiresAt := Z.max (ls_ExpiresAt l) (now + lease_interval ttl) |}) (t, c) (leases db)) db.

Definition no_acks : ACKCoordinationResult := {| ac_AdmittedIDs := []; ac_ProviderError := [] |}.

(** [send] is the provider callback; what it was given is the last component. *)
Definition coordinate (t c owner : string) (token ttl : Z) (ids : list string)
    (send : list string -> error) (now : Z) (s : IngressDb)
    : IngressDb * (ACKCoordinationResult * error) * option (list string) :=
  if negb (owned_lease (base s) t c owner token now) then (s, (no_acks, [ErrConnectionLeaseLost]), None)
  else
    let s1 := set_base (extend_lease t c ttl now (base s)) s in
    let ids' := admitted (responses s1) t c ids in
    if is_nil ids' then (s1, (no_acks, []), None)
    else
      let err := send ids' in
      if negb (is_nil err)
      then (s, ({| ac_AdmittedIDs := ids'; ac_ProviderError := err |}, []), Some ids')
      else
        let result := {| ac_AdmittedIDs := ids'; ac_ProviderError := [] |} in
        if blen (admitted (responses s1) t c ids') =? blen ids'
        then (set_responses (mark_acked t c ids' now (responses s1)) s1, (result, []), Some ids')
        else (s, (result, [ErrText "coordinated provider ACK rows changed while locked"]), Some ids').

Definition CoordinateProviderACKsFenced (tenantID connectionID ownerID : string) (fencingToken leaseTTL : Z)
    (responseIDs : list string) (send : list string -> error) (now : Z) (s : IngressDb)
    : IngressDb * (ACKCoordinationResult * error) * option (list string) :=
  if (tenantID =s "") || (connectionID =s "") || (ownerID =s "") || (fencingToken =? 0) ||
     (leaseTTL <=? ProviderACKCoordinationHardTimeout) || (leaseTTL >? maximumLeaseTTL) ||
     negb (valid_batch responseIDs)
  then (s, (no_acks, [ErrInvalidIdentifier]), None)
  else coordinate tenantID connectionID ownerID fencingToken leaseTTL responseIDs send now s.
