(* ===== verification/Lines.v ===== *)
(** * Discovered lines (internal/gateway/store/postgres/connections.go)

    Replacement of a connection's lines by an authenticated settings snapshot,
    and their listing.  The routing columns of a line are in [lines] of Store.v,
    the descriptive ones in [line_details]. *)

From S2P Require Import Prelude GoText Crypto GoEncoding Domain Session EventContract Store Outbound Ingress Reconcile Responses.

Definition MaxAuthenticatedLineSnapshot : Z := 16.
Definition LineDiscoveryLegacyUnknown : string := "legacy_unknown".

Record LineRecord := {
  lr_Line : Line;
  lr_Phone : E164Phone;
  lr_CarrierName : string;
  lr_ColorHex : string;
  lr_RCSEnabled : bool;
  lr_ProviderSIMNumber : Z;
  lr_ProviderSIMPayloadType : Z;
  lr_DiscoverySource : string
}.

Definition validLineMetadata (value : string) (limit : Z) : bool :=
  (len value <=? limit) && utf8_ValidString value && negb (ContainsAny value [0; 13; 10]).

Definition valid_line_record (record : LineRecord) : bool :=
  negb ((line_ID (lr_Line record) =s "") || (line_ProviderParticipantID (lr_Line record) =s "") ||
        (line_ProviderOutgoingID (lr_Line record) =s "") || (E164Phone_String (lr_Phone record) =s "") ||
        negb (validLineMetadata (line_DisplayName (lr_Line record)) 255) ||
        negb (validLineMetadata (lr_CarrierName record) 255) ||
        negb (validLineMetadata (lr_ColorHex record) 64) ||
        (lr_DiscoverySource record <>s LineDiscoveryAuthenticatedGoogleSettings)).

Fixpoint validate_line_records (connection : Connection) (records : list LineRecord) : result unit :=
  match records with
  | [] => Ok tt
  | record :: rest =>
    if negb (valid_line_record record) then Err [ErrInvalidIdentifier]
    else
      let! _ := Line_ValidateFor (lr_Line record) connection in
      validate_line_records connection rest
  end.

Definition validateLineReplacement (tenantID connectionID : string) (records : list LineRecord) : result unit :=
  if tenantID =s "" then Err [ErrInvalidTenantID]
  else if connectionID =s "" then Err [ErrInvalidIdentifier]
  else if blen records >? MaxAuthenticatedLineSnapshot then Err [ErrInvalidIdentifier]
  else validate_line_records {| conn_ID := connectionID; conn_TenantID := tenantID; conn_Name := "";
                                conn_State := ConnectionStateOther "" |} records.

(** ** Rows *)

Definition line_row (c : string) (record : LineRecord) : LineRow :=
  {| li_ConnectionID := c; li_OutgoingID := line_ProviderOutgoingID (lr_Line record); li_Active := true |}.

Definition details_of (record : LineRecord) : LineDetails := {|
  ld_ParticipantID := line_ProviderParticipantID (lr_Line record);
  ld_Phone := E164Phone_String (lr_Phone record); ld_DisplayName := line_DisplayName (lr_Line record);
  ld_CarrierName := lr_CarrierName record; ld_ColorHex := lr_ColorHex record;
  ld_RCSEnabled := lr_RCSEnabled record; ld_SIMNumber := lr_ProviderSIMNumber record;
  ld_SIMPayloadType := lr_ProviderSIMPayloadType record; ld_DiscoverySource := lr_DiscoverySource record |}.

(** UNIQUE (tenant_id, connection_id, provider_participant_id, provider_outgoing_id). *)
Definition participant_taken (s : IngressDb) (t c : string) (record : LineRecord) : bool :=
  existsb (fun p => (p.1.1 =s t) && (p.1.2 <>s line_ID (lr_Line record)) && (li_ConnectionID p.2 =s c) &&
                    (li_OutgoingID p.2 =s line_ProviderOutgoingID (lr_Line record)) &&
                    match line_details (projected s) !! p.1 with
                    | Some d => ld_ParticipantID d =s line_ProviderParticipantID (lr_Line record)
                    | None => false
                    end) (map_to_list (lines (base s))).

Definition set_line (t lineID : string) (row : LineRow) (d : LineDetails) (s : IngressDb) : IngressDb :=
  let p := projected s in
  {| base := set_lines (<[(t, lineID) := row]> (lines (base s))) (base s);
     responses := responses s;
     projected := {| committed_cursors := committed_cursors p;
       line_details := <[(t, lineID) := d]> (line_details p);
       attachment_identities := attachment_identities p; media_details := media_details p;
       fetch_jobs := fetch_jobs p |} |}.

(** [upsertLineSQL]; a line of another connection is not updated. *)
Definition upsert_line (t c : string) (record : LineRecord) (s : IngressDb) : result IngressDb :=
  let lineID := line_ID (lr_Line record) in
  let! _ := foreign_key (has_connection (base s) t c) in
  let! _ := check_constraint ((len (lr_CarrierName record) <=? 255) && (len (lr_ColorHex record) <=? 64) &&
    ((lr_DiscoverySource record =s LineDiscoveryLegacyUnknown) ||
     (lr_DiscoverySource record =s LineDiscoveryAuthenticatedGoogleSettings))) in
  match lines (base s) !! (t, lineID) with
  | Some row =>
    if li_ConnectionID row =s c then
      let! _ := check_constraint (negb (participant_taken s t c record)) in
      Ok (set_line t lineID (line_row c record) (details_of record) s)
    else fail "line belongs to another connection"
  | None =>
    let! _ := check_constraint (negb (participant_taken s t c record)) in
    Ok (set_line t lineID (line_row c record) (details_of record) s)
  end.

Fixpoint upsert_lines (t c : string) (records : list LineRecord) (s : IngressDb) : result IngressDb :=
  match records with
  | [] => Ok s
  | record :: rest => let! s1 := upsert_line t c record s in upsert_lines t c rest s1
  end.

(** [retireLinesSQL]. *)
Definition retire_line (t c : string) (ids : list string) (k : string * string) (row : LineRow) : LineRow :=
  if (k.1 =s t) && (li_ConnectionID row =s c) && li_Active row && negb (bool_decide (k.2 ∈ ids))
  then {| li_ConnectionID := li_ConnectionID row; li_OutgoingID := li_OutgoingID row; li_Active := false |}
  else row.

Definition retire_lines (t c : string) (ids : list string) (s : IngressDb) : IngressDb :=
  set_base (set_lines (map_imap (fun k row => Some (retire_line t c ids k row)) (lines (base s))) (base s)) s.

Definition replaceLineRows (t c : string) (records : list LineRecord) (s : IngressDb) : result IngressDb :=
  let! s1 := upsert_lines t c records s in
  Ok (retire_lines t c ((fun r => line_ID (lr_Line r)) <$> records) s1).

(** ** Operations *)

Definition ReplaceLines (tenantID connectionID : string) (records : list LineRecord) (s : IngressDb)
    : IngressDb * result unit :=
  match validateLineReplacement tenantID connectionID records with
  | Err e => (s, Err e)
  | Ok _ => inTenant tenantID (fun s =>
      if has_connection (base s) tenantID connectionID
      then let! s1 := replaceLineRows tenantID connectionID records s in Ok (s1, tt)
      else Err [ErrConnectionNotFound]) s
  end.

Definition ReplaceLinesFenced (tenantID connectionID ownerID : string) (fencingToken : Z)
    (records : list LineRecord) (now : Z) (s : IngressDb) : IngressDb * result unit :=
  if (ownerID =s "") || (fencingToken =? 0) then (s, Err [ErrInvalidLease])
  else match validateLineReplacement tenantID connectionID records with
  | Err e => (s, Err e)
  | Ok _ => inTenant tenantID (fun s =>
      if owned_lease (base s) tenantID connectionID ownerID fencingToken now
      then let! s1 := replaceLineRows tenantID connectionID records s in Ok (s1, tt)
      else Err [ErrConnectionLeaseLost]) s
  end.

Definition line_id_le (a b : string * (LineRow * LineDetails)) : Prop := String.le a.1 b.1.

#[export] Instance line_id_le_dec a b : Decision (line_id_le a b).
Proof. unfold line_id_le. apply _. Defined.

#[export] Instance line_id_le_total : Total line_id_le.
Proof. intros a b. unfold line_id_le. apply (total String.le). Qed.
#[export] Instance line_id_le_trans : Transitive line_id_le.
Proof. intros a b c. unfold line_id_le. apply transitivity. Qed.

(** [listLinesSQL]: a line row always has its descriptive columns. *)
Definition active_lines (s : IngressDb) (t c : string) : list (string * (LineRow * LineDetails)) :=
  merge_sort line_id_le (omap (fun p =>
    if (p.1.1 =s t) && (li_ConnectionID p.2 =s c) && li_Active p.2
    then (fun d => (p.1.2, (p.2, d))) <$> line_details (projected s) !! p.1
    else None) (map_to_list (lines (base s)))).

Definition scan_line (t : string) (p : string * (LineRow * LineDetails)) : result LineRecord :=
  let '(id, (row, d)) := p in
  let! phone := ParseE164 (ld_Phone d) in
  if (ld_DiscoverySource d <>s LineDiscoveryLegacyUnknown) &&
     (ld_DiscoverySource d <>s LineDiscoveryAuthenticatedGoogleSettings)
  then fail "stored line discovery source is invalid"
  else Ok {|
    lr_Line := {| line_ID := id; line_TenantID := t; line_ConnectionID := li_ConnectionID row;
      line_ProviderParticipantID := ld_ParticipantID d; line_ProviderOutgoingID := li_OutgoingID row;
      line_DisplayName := ld_DisplayName d |};
    lr_Phone := phone; lr_CarrierName := ld_CarrierName d; lr_ColorHex := ld_ColorHex d;
    lr_RCSEnabled := ld_RCSEnabled d; lr_ProviderSIMNumber := ld_SIMNumber d;
    lr_ProviderSIMPayloadType := ld_SIMPayloadType d; lr_DiscoverySource := ld_DiscoverySource d |}.

Fixpoint scan_lines (t : string) (rows : list (string * (LineRow * LineDetails))) : result (list LineRecord) :=
  match rows with
  | [] => Ok []
  | p :: rest =>
    let! record := scan_line t p in
    let! records := scan_lines t rest in
    Ok (record :: records)
  end.

Definition ListLines (tenantID connectionID : string) (s : IngressDb) : IngressDb * result (list LineRecord) :=
  if connectionID =s "" then (s, Err [ErrInvalidIdentifier])
  else inTenant tenantID (fun s =>
    let! records := scan_lines tenantID (active_lines s tenantID connectionID) in
    Ok (s, records)) s.

(** ** What a replacement leaves *)

Lemma NoDup_omap {A B} (f : A -> option B) (l : list A) :
  (forall x y z, f x = Some z -> f y = Some z -> x = y) -> NoDup l -> NoDup (omap f l).
Proof.
  intros Hinj. induction 1 as [|x l Hx _ IH]; [constructor|]. simpl.
  destruct (f x) as [z|] eqn:Ez; [|done]. constructor; [|done].
  rewrite list_elem_of_omap. intros (y & Hy & Hz). by rewrite (Hinj _ _ _ Ez Hz) in Hx.
Qed.

Lemma upsert_line_ok t c record s s' :
  upsert_line t c record s = Ok s' ->
  s' = set_line t (line_ID (lr_Line record)) (line_row c record) (details_of record) s.
Proof.
  unfold upsert_line. intros (_ & _ & (_ & _ & H)%result_bind_ok)%result_bind_ok.
  destruct (lines (base s) !! _) as [row|].
  - destruct (_ =s _); [|done]. by apply result_bind_ok in H as (_ & _ & [= <-]).
  - by apply result_bind_ok in H as (_ & _ & [= <-]).
Qed.

Definition line_id (r : LineRecord) : string := line_ID (lr_Line r).

Lemma upsert_lines_ok t c records s s' :
  upsert_lines t c records s = Ok s' -> NoDup (line_id <$> records) ->
  (forall r, r ∈ records -> lines (base s') !! (t, line_id r) = Some (line_row c r) /\
                            line_details (projected s') !! (t, line_id r) = Some (details_of r)) /\
  (forall k, (k.1 = t -> k.2 ∉ line_id <$> records) ->
     lines (base s') !! k = lines (base s) !! k /\
     line_details (projected s') !! k = line_details (projected s) !! k).
Proof.
  revert s. induction records as [|r records IH]; intros s; cbn [upsert_lines fmap list_fmap].
  { intros [= <-] _. split; [|done]. intros r Hr. by apply not_elem_of_nil in Hr. }
  intros (s1 & ->%upsert_line_ok & H)%result_bind_ok [Hr Hnd]%NoDup_cons.
  destruct (IH _ H Hnd) as [Hin Hout]. split.
  - intros r' [->|Hr']%elem_of_cons; [|by apply Hin].
    destruct (Hout (t, line_id r)) as [-> ->]; [done|]. unfold line_id. simpl.
    by rewrite !lookup_insert_eq.
  - intros [t' x] Hk. simpl in Hk. destruct (Hout (t', x)) as [-> ->].
    { simpl. intros -> Hx. apply Hk; [done|]. by apply elem_of_cons; right. }
    assert ((t, line_ID (lr_Line r)) <> (t', x)).
    { intros [= -> <-]. apply Hk; [done|]. by apply elem_of_cons; left. }
    simpl. by rewrite !lookup_insert_ne.
Qed.

(** A line as the listing reads it. *)
Definition line_entry (c : string) (r : LineRecord) : string * (LineRow * LineDetails) :=
  (line_id r, (line_row c r, details_of r)).

Lemma retire_line_active t c ids x row :
  li_Active (retire_line t c ids (t, x) row) = true -> li_ConnectionID (retire_line t c ids (t, x) row) = c ->
  x ∈ ids /\ retire_line t c ids (t, x) row = row.
Proof.
  unfold retire_line. simpl. rewrite String.eqb_refl. case_if_goal E; simpl; [done|]. intros Ha <-.
  rewrite String.eqb_refl, Ha in E. simpl in E. by reflect_bools.
Qed.

Lemma replaced_active t c records s s' :
  replaceLineRows t c records s = Ok s' -> NoDup (line_id <$> records) ->
  active_lines s' t c ≡ₚ line_entry c <$> records.
Proof.
  unfold replaceLineRows. intros (s1 & H & [= <-])%result_bind_ok Hnd.
  destruct (upsert_lines_ok _ _ _ _ _ H Hnd) as [Hin _]. unfold active_lines. rewrite merge_sort_Permutation.
  apply NoDup_Permutation.
  - apply NoDup_omap; [|apply NoDup_map_to_list]. intros [[t1 x] r1] [[t2 y] r2] z Hx Hy. simpl in *.
    case_if_in Hx Ex; [|done]. case_if_in Hy Ey; [|done]. reflect_bools. subst.
    apply fmap_Some in Hx as (d & _ & ->). apply fmap_Some in Hy as (d' & _ & [= -> -> ->]). done.
  - apply NoDup_fmap_1 with fst. by rewrite <- list_fmap_compose.
  - intros [x [row d]]. rewrite list_elem_of_omap, list_elem_of_fmap. split.
    + intros ([[t' x'] row'] & Hm & He). simpl in He. case_if_in He Ex; [|done]. reflect_bools. subst t'.
      apply fmap_Some in He as (d' & Hd & [= -> -> ->]). apply elem_of_map_to_list in Hm.
      unfold retire_lines in Hm. simpl in Hm. rewrite map_lookup_imap in Hm.
      destruct (lines (base s1) !! (t, x')) as [row0|] eqn:Er; [|done]. simpl in Hm. injection Hm as <-.
      match goal with Ha : li_Active _ = true, Hc : li_ConnectionID _ = c |- _ =>
        destruct (retire_line_active _ _ _ _ _ Ha Hc) as [Hx Heq] end.
      change (fun r => line_ID (lr_Line r)) with line_id in *. rewrite Heq in *.
      apply list_elem_of_fmap in Hx as (r & -> & Hr). destruct (Hin _ Hr) as [Hl Hdl].
      exists r. split; [|done]. unfold line_entry. simpl in Hd. rewrite Hl in Er. rewrite Hdl in Hd. congruence.
    + intros (r & [= -> -> ->] & Hr). destruct (Hin _ Hr) as [Hl Hdl].
      exists ((t, line_id r), line_row c r). split.
      * apply elem_of_map_to_list. unfold retire_lines. simpl. rewrite map_lookup_imap, Hl. simpl. f_equal.
        unfold retire_line. simpl. rewrite bool_decide_eq_true_2; [by rewrite andb_false_r|].
        change (fun r => line_ID (lr_Line r)) with line_id. apply list_elem_of_fmap. by exists r.
      * simpl. rewrite !String.eqb_refl. simpl. by rewrite Hdl.
Qed.

Lemma scan_entries t c records :
  (forall r, r ∈ records -> line_TenantID (lr_Line r) = t /\ line_ConnectionID (lr_Line r) = c /\
     lr_DiscoverySource r = LineDiscoveryAuthenticatedGoogleSettings /\
     ParseE164 (E164Phone_String (lr_Phone r)) = Ok (lr_Phone r)) ->
  scan_lines t (line_entry c <$> records) = Ok records.
Proof.
  induction records as [|r records IH]; intros H; [done|]. cbn [fmap list_fmap scan_lines].
  destruct (H r) as (Ht & Hc & Hs & Hp); [by apply elem_of_cons; left|].
  rewrite IH by (intros r' Hr'; apply H; by apply elem_of_cons; right).
  unfold scan_line, line_entry. cbn [details_of ld_Phone]. rewrite Hp. cbn [result_bind].
  cbn [ld_DiscoverySource details_of]. rewrite Hs. cbn [result_bind].
  destruct r as [[] ? ? ? ? ? ? ?]. simpl in *. subst. done.
Qed.

Lemma validate_line_records_ok connection records :
  validate_line_records connection records = Ok tt ->
  forall r, r ∈ records -> valid_line_record r = true /\ line_TenantID (lr_Line r) = conn_TenantID connection /\
    line_ConnectionID (lr_Line r) = conn_ID connection.
Proof.
  induction records as [|r records IH]; intros H r'; [by intros ?%not_elem_of_nil|]. simpl in H.
  destruct (valid_line_record r) eqn:Ev; [|done]. simpl in H. apply result_bind_ok in H as (u & Hl & H).
  intros [->|Hr']%elem_of_cons; [|by apply IH]. split; [done|]. unfold Line_ValidateFor in Hl.
  case_if_in Hl E1; [done|]. case_if_in Hl E2; [done|]. reflect_bools. done.
Qed.

Lemma validateLineReplacement_ok t c records :
  is_ok (validateLineReplacement t c records) = true ->
  t <> "" /\ c <> "" /\ forall r, r ∈ records -> line_TenantID (lr_Line r) = t /\ line_ConnectionID (lr_Line r) = c /\
    lr_DiscoverySource r = LineDiscoveryAuthenticatedGoogleSettings.
Proof.
  unfold validateLineReplacement. case_if_goal E1; [done|]. case_if_goal E2; [done|]. case_if_goal E3; [done|].
  destruct (validate_line_records _ _) as [[]|] eqn:E; [|done]. intros _. reflect_bools. split_and!; [done..|].
  intros r Hr. destruct (validate_line_records_ok _ _ E _ Hr) as (Hv & Ht & Hc). split_and!; [done..|].
  unfold valid_line_record in Hv. apply negb_true_iff in Hv. apply orb_false_iff in Hv as [_ Hv]. by reflect_bools.
Qed.

(** A replacement of a connection's lines by a snapshot is what a listing
    returns afterwards: exactly the records of the snapshot, field by field and
    ordered by line identifier; every line the snapshot does not name is
    retired. *)
Theorem ReplaceLines_listed (tenantID connectionID : string) (records : list LineRecord) (s s' : IngressDb)
  (Hids : NoDup (line_id <$> records))
  (Hphones : Forall (fun r => ParseE164 (E164Phone_String (lr_Phone r)) = Ok (lr_Phone r)) records)
  (Hrun : ReplaceLines tenantID connectionID records s = (s', Ok tt)) :
  exists listed, ListLines tenantID connectionID s' = (s', Ok listed) /\ listed ≡ₚ records /\
    StronglySorted String.le (line_id <$> listed).
Proof.
  unfold ReplaceLines in Hrun. destruct (validateLineReplacement _ _ _) as [u|] eqn:Ev; [|done].
  destruct (validateLineReplacement_ok tenantID connectionID records) as (Ht & Hc & Hr); [by rewrite Ev|].
  apply inTenant_ok in Hrun. case_if_in Hrun Ec; [|done]. apply result_bind_ok in Hrun as (s1 & Hrun & [= <-]).
  pose proof (replaced_active _ _ _ _ _ Hrun Hids) as Hp.
  apply Permutation_map_inv in Hp as (listed & Hl & Hperm). exists listed. split_and!; [| done |].
  - unfold ListLines. rewrite (proj2 (String.eqb_neq _ _) Hc). unfold inTenant.
    rewrite (proj2 (String.eqb_neq _ _) Ht). rewrite Hl. change (map (line_entry connectionID) listed)
      with (line_entry connectionID <$> listed). rewrite scan_entries; [done|].
    intros r Hin. rewrite <- Hperm in Hin. destruct (Hr _ Hin) as (? & ? & ?). split_and!; [done..|].
    rewrite Forall_forall in Hphones. by apply Hphones.
  - pose proof (StronglySorted_merge_sort line_id_le) as Hsort.
    unfold active_lines in Hl. set (l := omap _ _) in Hl. specialize (Hsort l). rewrite Hl in Hsort.
    clear -Hsort. induction listed as [|r l IH]; [constructor|]. inversion_clear Hsort as [|? ? Hs Hf].
    cbn [fmap list_fmap]. constructor; [by apply IH|]. apply Forall_fmap. clear IH Hs.
    induction l as [|r' l IH]; [constructor|]. inversion_clear Hf. constructor; [done|by apply IH].
Qed.

Definition example_line (id participant phone : string) : LineRecord := {|
  lr_Line := {| line_ID := id; line_TenantID := "t1"; line_ConnectionID := "c1";
    line_ProviderParticipantID := participant; line_ProviderOutgoingID := "out-" +:+ id;
    line_DisplayName := "SIM" |};
  lr_Phone := {| e164_value := phone |}; lr_CarrierName := "carrier"; lr_ColorHex := "#fff";
  lr_RCSEnabled := true; lr_ProviderSIMNumber := 1; lr_ProviderSIMPayloadType := 2;
  lr_DiscoverySource := LineDiscoveryAuthenticatedGoogleSettings |}.

Definition example_lines : list LineRecord :=
  [example_line "line-b" "p2" "+12025550101"; example_line "line-a" "p1" "+12025550100"].

Definition example_ingress : IngressDb :=
  {| base := sample_db; responses := no_responses; projected := no_projection |}.

Lemma ReplaceLines_listed_witness :
  exists listed, ListLines "t1" "c1" (ReplaceLines "t1" "c1" example_lines example_ingress).1 =
      ((ReplaceLines "t1" "c1" example_lines example_ingress).1, Ok listed) /\
    listed ≡ₚ example_lines /\ StronglySorted String.le (line_id <$> listed).
Proof.
  apply (ReplaceLines_listed "t1" "c1" example_lines example_ingress).
  - apply (bool_decide_unpack _). vm_compute. exact I.
  - repeat constructor.
  - vm_compute. reflexivity.
Defined.
