(* ===== verification/Commit.v ===== *)
(** * Committing an envelope (internal/gateway/store/postgres/messages.go: CommitEnvelope)

    One tenant transaction per provider envelope: the inbox fence, the cursor
    breaker, the replay and conflict rules of response identifiers, the raw
    inbox row, the line snapshot, cursor history, attachments, conversations,
    messages, media jobs, events and the committed cursor.  The protobuf codec
    of the cursor is a parameter, as in Ingress.v. *)

From S2P Require Import Prelude GoText Crypto GoEncoding Domain Session EventContract Store Outbound Ingress Reconcile Responses Lines.

(** What [repository.newID] returns at each of its calls. *)
Record CommitIDs := {
  cm_conflict : string;
  cm_inbox : string;
  cm_poison_outbox : string;
  cm_message : nat -> ReconcileIDs;
  cm_media : nat -> string * string;
  cm_event_outbox : nat -> string
}.

(** ** Poison *)

Definition stableInboxEventID (t c responseID reason : string) : string :=
  event_identifier [t; c; responseID; reason].

(** [now] stands for [time.Now] when the record carries no time. *)
Definition poison_envelope (eventID : string) (record : EnvelopeRecord) (reason : string) (now : Z)
    : Envelope := {|
  ev_EventID := eventID; ev_Type := "inbox.poisoned"; ev_Version := 0;
  ev_OccurredAt := if time_IsZero (rc_ReceivedAt record) then now else rc_ReceivedAt record;
  ev_OccurredAtText := ""; ev_IngestedAt := time_zero; ev_IngestedAtText := "";
  ev_TenantID := rc_TenantID record; ev_ConnectionID := rc_ConnectionID record; ev_ConversationID := "";
  ev_MessageID := ""; ev_ProviderMessageID := ""; ev_ProviderTmpID := ""; ev_Direction := "";
  ev_Provenance := ""; ev_ProviderStatus := ""; ev_Actionable := false; ev_Sender := "";
  ev_Recipients := []; ev_Text := ""; ev_Transport := ""; ev_Status := ""; ev_State := "";
  ev_MediaID := ""; ev_MetadataPath := ""; ev_ContentPath := ""; ev_Media := [];
  ev_ProviderResponseID := rc_ProviderResponseID record; ev_Reason := reason; ev_Data := [] |}.

Definition providerPoisonEventBody (eventID : string) (record : EnvelopeRecord) (reason : string) (now : Z)
    : result bytes := Marshal (poison_envelope eventID record reason now).

(** Finalising the raw row, then the poison event: [poisonCursorEnvelope] and
    the attachment conflict. *)
Definition poisonCursorEnvelope (record : EnvelopeRecord) (reason : string) (ids : CommitIDs) (now : Z)
    (s : IngressDb) : result (IngressDb * CommitResult) :=
  let t := rc_TenantID record in
  let! finalized := finalizeProviderPoison (record_key record) reason now (responses s) in
  if negb finalized.2 then Err [ErrProviderResponseCapacity]
  else
    let eventID := stableInboxEventID t (rc_ConnectionID record) (rc_ProviderResponseID record) reason in
    let! body := providerPoisonEventBody eventID record reason now in
    let! db1 := insertGatewayEvent t eventID "inbox.poisoned" "provider_envelope" (rc_ProviderResponseID record)
                  (rc_ConnectionID record) "" body (base s) in
    let! db2 := insertEventOutbox t (cm_poison_outbox ids) eventID now db1 in
    Ok (set_base db2 (set_responses finalized.1 s), CommitPoisoned).

(** ** Replays, conflicts and the exhausted breaker *)

(** The response is known and not conflicted. *)
Definition commit_existing (record : EnvelopeRecord) (ex : Existing) (ids : CommitIDs) (now : Z)
    (r : Responses) : result (Responses * CommitResult) :=
  let k := record_key record in
  if (blen (ex_Digest ex) =? 32) && bool_decide (ex_Digest ex = rc_Digest record) then
    if bool_decide (ex_Disposition ex = InInbox) && ex_Poisoned ex &&
       (ex_PoisonReason ex =s PoisonReasonInvalidSettingsSnapshot)
    then Ok (r, CommitDuplicateACKWithheld)
    else
      let r1 := if negb (ex_ACKPending ex) && negb (rc_ACKWithheld record) then reopenProviderACK k r else r in
      Ok (r1, if ex_Poisoned ex then CommitDuplicatePoisoned else CommitDuplicate)
  else
    let! r1 := insertProviderInboxConflict record (cm_conflict ids) now r in
    if bool_decide (ex_Disposition ex = InInbox) && negb (ex_Poisoned ex) then
      let! finalized := finalizeProviderPoison k "response_id_digest_conflict" now r1 in
      Ok (finalized.1, CommitConflict)
    else Ok (r1, CommitConflict).

(** The response is new (or fenced) and its scope is exhausted. *)
Definition commit_rejected (record : EnvelopeRecord) (r : Responses) : result (Responses * CommitResult) :=
  let! upserted := upsertRejectedProviderResponse record r in
  match upserted.2 with
  | None => Err (errors_Join [[ErrProviderResponseCapacity]; [ErrConflictingEnvelope]])
  | Some (storedDigest, conflicted, occurrences) =>
    let digestMatches := (blen storedDigest =? 32) && bool_decide (storedDigest = rc_Digest record) in
    Ok (upserted.1, if conflicted || negb digestMatches then CommitConflict
                    else if occurrences >? 1 then CommitDuplicatePoisoned
                    else CommitPoisoned)
  end.

(** ** The cursor *)

Section Cursor.
Context (unmarshalCursor : bytes -> option (string * Z)) (marshalCursor : string * Z -> bytes).

Definition canonical_cursor (cursor : bytes) : result bytes :=
  if is_nil cursor then Ok cursor else CanonicalProviderCursor unmarshalCursor marshalCursor cursor.

Definition canonicalizeProjectionCursors (p : Projection) : result Projection :=
  let! cursor := canonical_cursor (pj_Cursor p) in
  let! base := canonical_cursor (pj_CursorBase p) in
  let! candidate := canonical_cursor (pj_CursorCandidate p) in
  Ok {| pj_Conversations := pj_Conversations p; pj_Messages := pj_Messages p; pj_Lines := pj_Lines p;
        pj_LineSnapshot := pj_LineSnapshot p; pj_Cursor := cursor; pj_CursorBase := base;
        pj_CursorCandidate := candidate; pj_CursorSource := pj_CursorSource p;
        pj_CursorConversationID := pj_CursorConversationID p |}.
End Cursor.

Definition cursor_candidate (p : Projection) : bytes :=
  if is_nil (pj_CursorCandidate p) && negb (is_nil (pj_Cursor p)) then pj_Cursor p else pj_CursorCandidate p.

Definition cursor_scope (record : EnvelopeRecord) : rkey :=
  (rc_TenantID record, rc_ConnectionID record, pj_CursorConversationID (rc_Projection record)).

(** The budget of the scope, created and locked: advances and the breaker. *)
Definition lock_cursor_budget (record : EnvelopeRecord) (r : Responses) : result (Responses * (Z * bool)) :=
  if is_nil (cursor_candidate (rc_Projection record)) then Ok (r, (0, false))
  else
    let! r1 := ensureProviderCursorBudget (cursor_scope record) (rc_ProviderResponseID record) r in
    match budgets r1 !! cursor_scope record with
    | None => Err [SqlErrNoRows]
    | Some b =>
      if (bg_AcceptedAdvances b <? 0) || (bg_AcceptedAdvances b >? MaxProviderCursorAdvances)
      then fail "provider cursor budget is corrupt"
      else Ok (r1, (bg_AcceptedAdvances b, bg_Exhausted b))
    end.

(** Digest slices: a NULL or absent base is empty. *)
Definition base_matches (base stored : bytes) : bool :=
  (blen base =? blen stored) && (is_nil base || bool_decide (base = stored)).

Definition base_digest (p : Projection) : bytes :=
  if is_nil (pj_CursorBase p) then [] else sha256 (pj_CursorBase p).

Definition NULL_if_empty (b : bytes) : option bytes := if is_nil b then None else Some b.

(** A candidate the history does not know: one more advance of the budget. *)
Definition accept_cursor (record : EnvelopeRecord) (candidate : bytes) (now : Z) (r : Responses)
    : result Responses :=
  let scope := cursor_scope record in
  let base := base_digest (rc_Projection record) in
  let r1 := if is_nil base then r else seedProviderCursorHistory scope base now r in
  match insertProviderCursorHistory scope candidate (NULL_if_empty base) (rc_ProviderResponseID record) now r1 with
  | None => fail "insert provider cursor history"
  | Some (r2, row) =>
    if negb (base_matches base (default [] (hs_Base row))) ||
       negb (bool_decide (hs_ResponseID row = Some (rc_ProviderResponseID record)))
    then fail "provider cursor history digest mismatch"
    else match incrementProviderCursorBudget scope (rc_ProviderResponseID record) r2 with
    | None => fail "increment provider cursor budget"
    | Some (r3, advances) =>
      if (advances <? 1) || (advances >? MaxProviderCursorAdvances)
      then fail "provider cursor budget increment is invalid" else Ok r3
    end
  end.

(** The cursor phase; a poisoned envelope ends the transaction. *)
Definition commit_cursor (record : EnvelopeRecord) (acceptedAdvances : Z) (ids : CommitIDs) (now : Z)
    (s : IngressDb) : result (IngressDb * option CommitResult) :=
  let scope := cursor_scope record in
  let poison reason s := let! poisoned := poisonCursorEnvelope record reason ids now s in
                         Ok (poisoned.1, Some poisoned.2) in
  if is_nil (cursor_candidate (rc_Projection record)) then Ok (s, None)
  else
    let candidate := sha256 (cursor_candidate (rc_Projection record)) in
    match history (responses s) !! (scope, candidate) with
    | Some row =>
      if base_matches (base_digest (rc_Projection record)) (default [] (hs_Base row))
      then Ok (set_responses (pruneProviderCursorHistory scope (responses s)) s, None)
      else poison "provider_cursor_cycle" s
    | None =>
      if acceptedAdvances >=? MaxProviderCursorAdvances then
        match exhaustProviderCursorBudget scope (rc_ProviderResponseID record) (responses s) with
        | None => fail "exhaust provider cursor budget"
        | Some r1 => poison "provider_cursor_budget_exhausted" (set_responses r1 s)
        end
      else
        let! r1 := accept_cursor record candidate now (responses s) in
        Ok (set_responses (pruneProviderCursorHistory scope r1) s, None)
    end.

(** ** Lines *)

Definition line_record_of (record : EnvelopeRecord) (p : ProjectedLine) : result LineRecord :=
  if (pl_TenantID p <>s rc_TenantID record) || (pl_ConnectionID p <>s rc_ConnectionID record) ||
     (pl_DiscoverySource p <>s LineDiscoveryAuthenticatedGoogleSettings)
  then fail "provider line snapshot crossed its durable scope"
  else
    let! phone := ParseE164 (pl_Phone p) in
    Ok {| lr_Line := {| line_ID := pl_ID p; line_TenantID := pl_TenantID p;
            line_ConnectionID := pl_ConnectionID p; line_ProviderParticipantID := pl_ProviderParticipantID p;
            line_ProviderOutgoingID := pl_ProviderOutgoingID p; line_DisplayName := pl_DisplayName p |};
          lr_Phone := phone; lr_CarrierName := pl_CarrierName p; lr_ColorHex := pl_ColorHex p;
          lr_RCSEnabled := pl_RCSEnabled p; lr_ProviderSIMNumber := pl_ProviderSIMNumber p;
          lr_ProviderSIMPayloadType := pl_ProviderSIMPayloadType p;
          lr_DiscoverySource := LineDiscoveryAuthenticatedGoogleSettings |}.

Fixpoint line_records_of (record : EnvelopeRecord) (l : list ProjectedLine) : result (list LineRecord) :=
  match l with
  | [] => Ok []
  | p :: rest =>
    let! r := line_record_of record p in
    let! rs := line_records_of record rest in
    Ok (r :: rs)
  end.

Definition commit_lines (record : EnvelopeRecord) (s : IngressDb) : result IngressDb :=
  if pj_LineSnapshot (rc_Projection record) then
    let! records := line_records_of record (pj_Lines (rc_Projection record)) in
    let! _ := validateLineReplacement (rc_TenantID record) (rc_ConnectionID record) records in
    replaceLineRows (rc_TenantID record) (rc_ConnectionID record) records s
  else Ok s.

(** ** Attachments *)

Definition contractMedia (mediaID status : string) (locator : MediaLocator) : Media := {|
  md_ID := mediaID; md_Position := ml_Position locator; md_Status := status;
  md_MIMEType := ml_MIMEType locator; md_Size := ml_DeclaredSize locator;
  md_DisplayFilename := ml_DisplayFilename locator; md_MetadataPath := "/v1/media/" +:+ mediaID;
  md_ContentPath := if status =s "ready" then "/v1/media/" +:+ mediaID +:+ "/content" else "" |}.

(** [projectedByProviderID]: the last message wins. *)
Definition projected_by_id (record : EnvelopeRecord) (id : string) : option ProjectedMessage :=
  find (fun m => pm_ProviderMessageID m =s id) (rev (pj_Messages (rc_Projection record))).

Definition tmp_of (record : EnvelopeRecord) (locator : MediaLocator) : string :=
  from_option pm_ProviderTmpID "" (projected_by_id record (ml_ProviderMessageID locator)).

(** A message joined with its attachment at a position and the media object. *)
Record Attached := { aj_MessageID : string; aj_Row : MessageRow; aj_MediaID : string; aj_State : string }.

Definition attached_at (db : Db) (t c : string) (position : Z) : list Attached :=
  omap (fun p =>
    if (p.1.1 =s t) && (ms_ConnectionID p.2 =s c) then
      match find (fun a => a.2 =? position) (default [] (message_media db !! p.1)) with
      | Some (mediaID, _) =>
        (fun state => {| aj_MessageID := p.1.2; aj_Row := p.2; aj_MediaID := mediaID; aj_State := state |})
        <$> media_objects db !! (t, mediaID)
      | None => None
      end
    else None) (map_to_list (messages db)).

Definition has_tmp (tmpID : string) (m : MessageRow) : bool :=
  (tmpID <>s "") && bool_decide (ms_ProviderTmpID m = Some tmpID).
Definition has_provider_id (providerMessageID : string) (m : MessageRow) : bool :=
  bool_decide (ms_ProviderMessageID m = Some providerMessageID).

(** [ORDER BY job_id LIMIT 1] of the fetch jobs of a media object. *)
Definition job_digest (s : IngressDb) (t mediaID : string) : option bytes :=
  let jobs := List.filter (fun p => (p.1.1 =s t) && (fj_MediaID p.2 =s mediaID)) (map_to_list (fetch_jobs (projected s))) in
  match sort_Strings ((fun p => p.1.2) <$> jobs) with
  | job :: _ => fetch_jobs (projected s) !! (t, job) ≫= fj_IdentityDigest
  | [] => None
  end.

Definition stored_identity (s : IngressDb) (t : string) (a : Attached) (position : Z) : bytes :=
  match attachment_identities (projected s) !! (t, aj_MessageID a, position) with
  | Some d => d
  | None => default [] (job_digest s t (aj_MediaID a))
  end.

(** [lockExistingAttachmentSQL]: the temporary identifier first. *)
Definition lock_existing_attachment (s : IngressDb) (t c providerMessageID tmpID : string) (position : Z)
    : option Attached :=
  let rows := attached_at (base s) t c position in
  match find (fun a => has_tmp tmpID (aj_Row a)) rows with
  | Some a => Some a
  | None => find (fun a => has_provider_id providerMessageID (aj_Row a)) rows
  end.

Definition set_identities (m : gmap (string * string * Z) bytes) (s : IngressDb) : IngressDb :=
  let p := projected s in
  set_projected {| committed_cursors := committed_cursors p; line_details := line_details p;
    attachment_identities := m; media_details := media_details p; fetch_jobs := fetch_jobs p |} s.

(** [bindOutboundAttachmentIdentitySQL] does not join the media object. *)
Definition unbound_at (s : IngressDb) (t c providerMessageID tmpID : string) (position : Z) : list string :=
  omap (fun p =>
    if (p.1.1 =s t) && (ms_ConnectionID p.2 =s c) && (has_tmp tmpID p.2 || has_provider_id providerMessageID p.2) &&
       existsb (fun a => a.2 =? position) (default [] (message_media (base s) !! p.1)) &&
       bool_decide (attachment_identities (projected s) !! (t, p.1.2, position) = None)
    then Some p.1.2 else None) (map_to_list (messages (base s))).

Definition bind_outbound_identity (t c providerMessageID tmpID : string) (position : Z) (identity : bytes)
    (s : IngressDb) : result IngressDb :=
  match unbound_at s t c providerMessageID tmpID position with
  | [messageID] => Ok (set_identities (<[(t, messageID, position) := identity]>
                                        (attachment_identities (projected s))) s)
  | _ => fail "outbound attachment identity changed during binding"
  end.

(** [reusedAttachments] and [mediaByAggregate]. *)
Record MediaIndex := { mx_reused : gset string; mx_media : gmap string Media }.

Definition reuse_media (index : MediaIndex) (locator : MediaLocator) (a : Attached) : MediaIndex :=
  {| mx_reused := {[AttachmentAggregateID locator]} ∪ mx_reused index;
     mx_media := <[AttachmentAggregateID locator :=
                    contractMedia (aj_MediaID a) (aj_State a) locator]> (mx_media index) |}.

(** The loop over the attachments that exist already; a changed identity
    poisons the envelope. *)
Fixpoint resolve_attachments (record : EnvelopeRecord) (media : list MediaLocator) (ids : CommitIDs) (now : Z)
    (index : MediaIndex) (s : IngressDb) : result (IngressDb * (MediaIndex * option CommitResult)) :=
  match media with
  | [] => Ok (s, (index, None))
  | locator :: rest =>
    let t := rc_TenantID record in
    let c := rc_ConnectionID record in
    let tmpID := tmp_of record locator in
    let position := ml_Position locator in
    let identity := AttachmentIdentityDigest locator in
    match lock_existing_attachment s t c (ml_ProviderMessageID locator) tmpID position with
    | None => resolve_attachments record rest ids now index s
    | Some a =>
      let stored := stored_identity s t a position in
      if (blen stored =? blen identity) && bool_decide (stored = identity)
      then resolve_attachments record rest ids now (reuse_media index locator a) s
      else if is_nil stored && (ms_Direction (aj_Row a) =s "outbound") && (aj_State a =s "ready") then
        let! s1 := bind_outbound_identity t c (ml_ProviderMessageID locator) tmpID position identity s in
        resolve_attachments record rest ids now (reuse_media index locator a) s1
      else
        let! poisoned := poisonCursorEnvelope record "media_identity_conflict" ids now s in
        Ok (poisoned.1, (index, Some poisoned.2))
    end
  end.

(** ** Conversations and messages *)

Definition upsert_conversation (t c : string) (conversation : ProjectedConversation) (db : Db) : Db :=
  let k := (t, c, pc_ConversationID conversation) in
  let key := match conversations db !! k with
             | Some conv => if cv_OrderingKey conv =s "" then pc_ConversationID conversation else cv_OrderingKey conv
             | None => pc_ConversationID conversation
             end in
  set_conversations (<[k := {| cv_DefaultOutgoingID := pc_DefaultOutgoingID conversation;
    cv_IsGroup := pc_IsGroup conversation; cv_OrderingKey := key |}]> (conversations db)) db.

Fixpoint project_conversations (t c : string) (l : list ProjectedConversation) (db : Db) : result Db :=
  match l with
  | [] => Ok db
  | conversation :: rest =>
    if negb (ValidProviderConversationID (pc_ConversationID conversation)) ||
       ((pc_DefaultOutgoingID conversation <>s "") && negb (ValidProviderIdentifier (pc_DefaultOutgoingID conversation)))
    then fail "invalid provider conversation projection"
    else project_conversations t c rest (upsert_conversation t c conversation db)
  end.

Definition reconcile_context (record : EnvelopeRecord) : ReconcileContext :=
  {| rx_TenantID := rc_TenantID record; rx_ConnectionID := rc_ConnectionID record;
     rx_ReceivedAt := rc_ReceivedAt record |}.

(** [messageIDs], [messageStates], [messageDirections] and [messageInserted]. *)
Abbreviation MessageIndex := (gmap string (Reconciled * bool)).

Fixpoint reconcile_messages (cx : ReconcileContext) (l : list ProjectedMessage) (ids : nat -> ReconcileIDs)
    (n : nat) (now : Z) (index : MessageIndex) (db : Db) : result (Db * MessageIndex) :=
  match l with
  | [] => Ok (db, index)
  | p :: rest =>
    let! reconciled := reconcile_message cx p (ids n) now db in
    reconcile_messages cx rest ids (S n) now (<[pm_ProviderMessageID p := reconciled.2]> index) reconciled.1
  end.

Definition message_id_of (index : MessageIndex) (providerMessageID : string) : string :=
  from_option (fun ro => ro_messageID ro.1) "" (index !! providerMessageID).

(** ** New media *)

Definition envelopeSQLArgs (envelope : Session.Envelope) : option SealedKey :=
  if is_nil (en_Ciphertext envelope) then None
  else Some {| sk_Ciphertext := en_Ciphertext envelope; sk_WrappedDEK := en_WrappedDEK envelope;
               sk_Nonce := en_Nonce envelope; sk_KeyID := en_KeyID envelope; sk_KeyVersion := en_KeyVersion envelope |}.

(** The attachments of a message are kept ordered by position. *)
Fixpoint insert_position (a : string * Z) (l : list (string * Z)) : list (string * Z) :=
  match l with
  | [] => [a]
  | b :: rest => if a.2 <? b.2 then a :: l else b :: insert_position a rest
  end.

(** The claim columns of a new job have their defaults. *)
Definition job_row (record : EnvelopeRecord) (locator : MediaLocator) (mediaID : string) (now : Z) : FetchJobRow := {|
  fj_MediaID := mediaID; fj_ConnectionID := rc_ConnectionID record;
  fj_ProviderMessageID := ml_ProviderMessageID locator; fj_Locator := ml_Locator locator;
  fj_MIMEType := ml_MIMEType locator; fj_DeclaredSize := Z.max (ml_DeclaredSize locator) 0;
  fj_DisplayFilename := ml_DisplayFilename locator; fj_Key := envelopeSQLArgs (ml_KeyEnvelope locator);
  fj_ThumbnailKey := envelopeSQLArgs (ml_ThumbnailKeyEnvelope locator);
  fj_IdentityDigest := Some (AttachmentIdentityDigest locator); fj_State := "pending"; fj_AttemptCount := 0;
  fj_AvailableAt := now; fj_OwnerID := None; fj_ClaimToken := 0; fj_ClaimExpiresAt := None; fj_LastSafeError := "" |}.

(** [insertMediaObjectSQL], [insertInboundMediaLinkSQL] and
    [insertMediaFetchJobSQL]. *)
Definition insert_media (record : EnvelopeRecord) (locator : MediaLocator) (mediaID jobID messageID : string)
    (now : Z) (s : IngressDb) : result IngressDb :=
  let t := rc_TenantID record in
  let p := projected s in
  let position := ml_Position locator in
  let! _ := foreign_key (bool_decide (is_Some (messages (base s) !! (t, messageID)))) in
  let! _ := check_constraint (Z.max (ml_DeclaredSize locator) 0 <=? 26214400) in
  let! objects := insert_unique (media_objects (base s)) (t, mediaID) "pending" in
  let links := default [] (message_media (base s) !! (t, messageID)) in
  let! _ := check_constraint ((0 <=? position) && negb (existsb (fun a => (a.2 =? position) || (a.1 =s mediaID)) links)) in
  let! _ := check_constraint (negb (existsb (fun q => (q.1.1 =s t) && (fj_MediaID q.2 =s mediaID))
                                     (map_to_list (fetch_jobs p)))) in
  let! jobs := insert_unique (fetch_jobs p) (t, jobID) (job_row record locator mediaID now) in
  Ok {| base := set_message_media (<[(t, messageID) := insert_position (mediaID, position) links]>
                  (message_media (base s))) (set_media_objects objects (base s));
        responses := responses s;
        projected := {| committed_cursors := committed_cursors p; line_details := line_details p;
          attachment_identities := <[(t, messageID, position) := AttachmentIdentityDigest locator]>
                                     (attachment_identities p);
          media_details := <[(t, mediaID) := {| mo_MessageID := NULLIF_empty messageID;
            mo_MIMEType := ml_MIMEType locator; mo_DisplayFilename := ml_DisplayFilename locator;
            mo_ByteSize := Z.max (ml_DeclaredSize locator) 0; mo_ObjectKey := None; mo_SHA256 := None;
            mo_Width := None; mo_Height := None; mo_CreatedAt := now |}]> (media_details p);
          fetch_jobs := jobs |} |}.

Fixpoint project_media (record : EnvelopeRecord) (media : list MediaLocator) (mids : MessageIndex)
    (ids : nat -> string * string) (n : nat) (now : Z) (index : MediaIndex) (s : IngressDb)
    : result (IngressDb * MediaIndex) :=
  match media with
  | [] => Ok (s, index)
  | locator :: rest =>
    let aggregate := AttachmentAggregateID locator in
    if bool_decide (aggregate ∈ mx_reused index) then project_media record rest mids ids (S n) now index s
    else
      let messageID := message_id_of mids (ml_ProviderMessageID locator) in
      if messageID =s "" then fail "provider media has no projected message"
      else
        let '(mediaID, jobID) := ids n in
        let! s1 := insert_media record locator mediaID jobID messageID now s in
        project_media record rest mids ids (S n) now
          {| mx_reused := mx_reused index;
             mx_media := <[aggregate := contractMedia mediaID "pending" locator]> (mx_media index) |} s1
  end.

(** ** Events *)

Definition actionableProviderMessage (p : ProjectedMessage) : bool :=
  pm_Actionable p && (pm_Direction p =s "inbound") && (pm_Provenance p =s MessageProvenanceLive) &&
  (pm_ProviderStatus p =s "INCOMING_COMPLETE").

(** The fields [writeMessageEventIdentityField] writes, in order. *)
Definition media_identity_fields (item : Media) : list string :=
  [md_ID item; Itoa (md_Position item); md_Status item; md_MIMEType item; FormatInt (md_Size item);
   md_DisplayFilename item; md_MetadataPath item; md_ContentPath item].

Definition update_identity_fields (t messageID eventType : string) (p : ProjectedMessage) (direction : string)
    (state : MessageState) (media : list Media) : list string :=
  [t; messageID; eventType; pm_ProviderMessageID p; pm_ProviderTmpID p; pm_ConversationID p; direction;
   pm_Provenance p; pm_ProviderStatus p; RFC3339Nano (pm_ProviderOccurredAt p); pm_Sender p] ++
  sort_Strings (pm_Recipients p) ++
  [pm_Text p; pm_Transport p; MessageState_text state] ++
  (sort_media media ≫= media_identity_fields).

Definition semanticMessageEventID (t messageID eventType : string) (p : ProjectedMessage) (direction : string)
    (state : MessageState) (media : list Media) : string :=
  if eventType <>s "message.updated" then event_identifier [t; messageID; eventType]
  else "evt_" +:+ stringHex (take 16 (sha256 (concat
         ((fun f => identity_field (bytes_of f)) <$>
          update_identity_fields t messageID eventType p direction state media)))).

(** The type the store gives a message event. *)
Definition semantic_event_type (p : ProjectedMessage) (inserted : bool) : string :=
  if actionableProviderMessage p then "message.received"
  else if inserted && ((pm_Provenance p =s MessageProvenanceHistory) || (pm_Provenance p =s MessageProvenanceReplay))
  then "message.imported"
  else "message.updated".

Definition semantic_event (event : OutboxEvent) : bool :=
  (oe_Type event =s "message.received") || (oe_Type event =s "message.imported") ||
  (oe_Type event =s "message.updated").

Definition message_media_items (record : EnvelopeRecord) (p : ProjectedMessage) (index : MediaIndex) : list Media :=
  omap (fun locator =>
    if ml_ProviderMessageID locator =s pm_ProviderMessageID p
    then mx_media index !! AttachmentAggregateID locator else None) (rc_Media record).

(** What an event is stored as. *)
Record StoredEvent := {
  se_ID : string;
  se_Type : string;
  se_AggregateType : string;
  se_AggregateID : string;
  se_Conversation : string;
  se_Body : bytes
}.

Definition message_event_envelope (record : EnvelopeRecord) (p : ProjectedMessage) (eventID eventType : string)
    (ro : Reconciled) (media : list Media) : Envelope := {|
  ev_EventID := eventID; ev_Type := eventType; ev_Version := 0;
  ev_OccurredAt := if negb (time_IsZero (pm_ProviderOccurredAt p)) then pm_ProviderOccurredAt p
                   else rc_ReceivedAt record;
  ev_OccurredAtText := ""; ev_IngestedAt := rc_ReceivedAt record; ev_IngestedAtText := "";
  ev_TenantID := rc_TenantID record; ev_ConnectionID := rc_ConnectionID record;
  ev_ConversationID := pm_ConversationID p; ev_MessageID := ro_messageID ro;
  ev_ProviderMessageID := pm_ProviderMessageID p; ev_ProviderTmpID := pm_ProviderTmpID p;
  ev_Direction := ro_direction ro; ev_Provenance := pm_Provenance p;
  ev_ProviderStatus := pm_ProviderStatus p; ev_Actionable := eventType =s "message.received";
  ev_Sender := pm_Sender p; ev_Recipients := pm_Recipients p; ev_Text := pm_Text p;
  ev_Transport := pm_Transport p; ev_Status := MessageState_text (ro_state ro);
  ev_State := MessageState_text (ro_state ro); ev_MediaID := ""; ev_MetadataPath := "";
  ev_ContentPath := ""; ev_Media := media; ev_ProviderResponseID := ""; ev_Reason := "";
  ev_Data := [("provider_message_id", JString (pm_ProviderMessageID p));
              ("conversation_id", JString (pm_ConversationID p))] |}.

Definition message_event (record : EnvelopeRecord) (event : OutboxEvent) (mids : MessageIndex) (index : MediaIndex)
    : result StoredEvent :=
  match projected_by_id record (oe_AggregateID event), mids !! oe_AggregateID event with
  | Some p, Some (ro, inserted) =>
    if ro_messageID ro =s "" then fail "message event has no projected message"
    else
      let media := message_media_items record p index in
      let eventType := semantic_event_type p inserted in
      let eventID := semanticMessageEventID (rc_TenantID record) (ro_messageID ro) eventType p
                       (ro_direction ro) (ro_state ro) media in
      let! body := Marshal (message_event_envelope record p eventID eventType ro media) in
      Ok {| se_ID := eventID; se_Type := eventType; se_AggregateType := "message";
            se_AggregateID := ro_messageID ro; se_Conversation := oe_PartitionConversation event; se_Body := body |}
  | _, _ => fail "message event has no projected message"
  end.

Definition locator_by_aggregate (record : EnvelopeRecord) (aggregate : string) : option MediaLocator :=
  find (fun l => AttachmentAggregateID l =s aggregate) (rev (rc_Media record)).

Definition media_event_envelope (record : EnvelopeRecord) (event : OutboxEvent) (locator : MediaLocator)
    (p : ProjectedMessage) (media : Media) (messageID : string) : Envelope := {|
  ev_EventID := oe_ID event; ev_Type := oe_Type event; ev_Version := 0;
  ev_OccurredAt := rc_ReceivedAt record; ev_OccurredAtText := ""; ev_IngestedAt := time_zero;
  ev_IngestedAtText := ""; ev_TenantID := rc_TenantID record; ev_ConnectionID := rc_ConnectionID record;
  ev_ConversationID := pm_ConversationID p; ev_MessageID := messageID;
  ev_ProviderMessageID := ml_ProviderMessageID locator; ev_ProviderTmpID := ""; ev_Direction := "";
  ev_Provenance := ""; ev_ProviderStatus := ""; ev_Actionable := false; ev_Sender := "";
  ev_Recipients := []; ev_Text := ""; ev_Transport := ""; ev_Status := md_Status media;
  ev_State := md_Status media; ev_MediaID := md_ID media; ev_MetadataPath := md_MetadataPath media;
  ev_ContentPath := ""; ev_Media := [media]; ev_ProviderResponseID := ""; ev_Reason := "";
  ev_Data := [("provider_message_id", JString (ml_ProviderMessageID locator));
              ("message_id", JString messageID); ("conversation_id", JString (pm_ConversationID p));
              ("attachment_index", JInt (ml_Position locator)); ("media_id", JString (md_ID media));
              ("status", JString (md_Status media)); ("metadata_path", JString (md_MetadataPath media))] |}.

Definition media_pending_event (record : EnvelopeRecord) (event : OutboxEvent) (mids : MessageIndex)
    (index : MediaIndex) : result StoredEvent :=
  let missing := fail "pending media event has no allocated media object" in
  match mx_media index !! oe_AggregateID event, locator_by_aggregate record (oe_AggregateID event) with
  | Some media, Some locator =>
    match projected_by_id record (ml_ProviderMessageID locator) with
    | Some p =>
      let messageID := message_id_of mids (ml_ProviderMessageID locator) in
      if (md_ID media =s "") || (messageID =s "") then missing
      else
        let! body := Marshal (media_event_envelope record event locator p media messageID) in
        Ok {| se_ID := oe_ID event; se_Type := oe_Type event; se_AggregateType := "media";
              se_AggregateID := md_ID media; se_Conversation := pm_ConversationID p; se_Body := body |}
    | None => missing
    end
  | _, _ => missing
  end.

Definition stored_event (record : EnvelopeRecord) (event : OutboxEvent) (mids : MessageIndex) (index : MediaIndex)
    : result StoredEvent :=
  if semantic_event event then message_event record event mids index
  else if oe_Type event =s "media.pending" then media_pending_event record event mids index
  else Ok {| se_ID := oe_ID event; se_Type := oe_Type event; se_AggregateType := "provider_envelope";
             se_AggregateID := oe_AggregateID event; se_Conversation := oe_PartitionConversation event;
             se_Body := oe_CanonicalBody event |}.

(** [insertGatewayEventIfAbsentSQL]: the boolean says that a row was inserted. *)
Definition insertGatewayEventIfAbsent (t : string) (e : StoredEvent) (c : string) (db : Db) : result (Db * bool) :=
  let! _ := check_constraint (blen (se_Body e) <=? 1048576) in
  match events db !! (t, se_ID e) with
  | Some _ => Ok (db, false)
  | None =>
    let! db1 := insertGatewayEvent t (se_ID e) (se_Type e) (se_AggregateType e) (se_AggregateID e) c
                  (se_Conversation e) (se_Body e) db in
    Ok (db1, true)
  end.

Definition insert_stored_event (t c : string) (semantic : bool) (e : StoredEvent) (outboxID : string) (now : Z)
    (db : Db) : result Db :=
  let! inserted := (if semantic then insertGatewayEventIfAbsent t e c db
    else let! db1 := insertGatewayEvent t (se_ID e) (se_Type e) (se_AggregateType e) (se_AggregateID e) c
                       (se_Conversation e) (se_Body e) db in Ok (db1, true)) in
  if inserted.2 then insertEventOutbox t outboxID (se_ID e) now inserted.1 else Ok inserted.1.

Fixpoint project_events (record : EnvelopeRecord) (l : list OutboxEvent) (mids : MessageIndex) (index : MediaIndex)
    (ids : nat -> string) (n : nat) (now : Z) (db : Db) : result Db :=
  match l with
  | [] => Ok db
  | event :: rest =>
    if (oe_Type event =s "media.pending") && bool_decide (oe_AggregateID event ∈ mx_reused index)
    then project_events record rest mids index ids (S n) now db
    else if (oe_ID event =s "") || (oe_Type event =s "") || is_nil (oe_CanonicalBody event) ||
            (blen (oe_CanonicalBody event) >? 1048576)
    then fail "invalid durable event"
    else
      let! e := stored_event record event mids index in
      let! db1 := insert_stored_event (rc_TenantID record) (rc_ConnectionID record) (semantic_event event) e
                    (ids n) now db in
      project_events record rest mids index ids (S n) now db1
  end.

(** ** The committed cursor *)

Definition set_cursors (m : gmap rkey bytes) (s : IngressDb) : IngressDb :=
  let p := projected s in
  set_projected {| committed_cursors := m; line_details := line_details p;
    attachment_identities := attachment_identities p; media_details := media_details p;
    fetch_jobs := fetch_jobs p |} s.

Definition advance_cursor (record : EnvelopeRecord) (s : IngressDb) : result IngressDb :=
  let p := rc_Projection record in
  if is_nil (pj_Cursor p) then Ok s
  else if (pj_CursorSource p <>s CursorSourceListMessages) ||
          negb (ValidProviderConversationID (pj_CursorConversationID p))
  then fail "invalid committed cursor source or target"
  else
    let k := cursor_scope record in
    let conversations' := match conversations (base s) !! k with
      | Some _ => conversations (base s)
      | None => <[k := {| cv_DefaultOutgoingID := ""; cv_IsGroup := false; cv_OrderingKey := "" |}]>
                  (conversations (base s))
      end in
    Ok (set_cursors (<[k := pj_Cursor p]> (committed_cursors (projected s)))
         (set_base (set_conversations conversations' (base s)) s)).

(** ** CommitEnvelope *)

Definition commit_invalid (record : EnvelopeRecord) : bool :=
  (rc_TenantID record =s "") || (rc_ConnectionID record =s "") ||
  negb (ValidProviderResponseID (rc_ProviderResponseID record)) || (rc_OwnerID record =s "") ||
  (rc_FencingToken record =? 0) || is_nil (rc_Raw record) || (blen (rc_Raw record) >? Z.shiftl 4 20) ||
  negb (rc_ACKPending record) || (rc_ACKWithheld record && negb (rc_Poisoned record)).

(** Everything after the cursor phase. *)
Definition commit_projection (record : EnvelopeRecord) (ids : CommitIDs) (now : Z) (s : IngressDb)
    : result (IngressDb * CommitResult) :=
  let t := rc_TenantID record in
  let c := rc_ConnectionID record in
  let p := rc_Projection record in
  let! resolved := resolve_attachments record (rc_Media record) ids now {| mx_reused := ∅; mx_media := ∅ |} s in
  let '(s1, (index, poisoned)) := resolved in
  match poisoned with
  | Some outcome => Ok (s1, outcome)
  | None =>
    let! db2 := project_conversations t c (pj_Conversations p) (base s1) in
    let! reconciled := reconcile_messages (reconcile_context record) (pj_Messages p) (cm_message ids) 0 now ∅ db2 in
    let! media := project_media record (rc_Media record) reconciled.2 (cm_media ids) 0 now index
                    (set_base reconciled.1 s1) in
    let! db5 := project_events record (rc_Events record) reconciled.2 media.2 (cm_event_outbox ids) 0 now
                  (base media.1) in
    let! s6 := advance_cursor record (set_base db5 media.1) in
    Ok (s6, if rc_Poisoned record then CommitPoisoned else CommitInserted)
  end.

(** The transaction of a response that is not known. *)
Definition commit_new (record : EnvelopeRecord) (acceptedAdvances : Z) (ids : CommitIDs) (now : Z) (s : IngressDb)
    : result (IngressDb * CommitResult) :=
  let! inserted := insertProviderInbox record (cm_inbox ids) (responses s) in
  if negb inserted.2 then
    Err (if rc_Poisoned record then errors_Join [[ErrProviderResponseCapacity]; [ErrConflictingEnvelope]]
         else [ErrConflictingEnvelope])
  else
    let! s1 := commit_lines record (set_responses inserted.1 s) in
    let! cursor := commit_cursor record acceptedAdvances ids now s1 in
    match cursor.2 with
    | Some outcome => Ok (cursor.1, outcome)
    | None => commit_projection record ids now cursor.1
    end.

Definition commit_transaction (record : EnvelopeRecord) (ids : CommitIDs) (now : Z) (s : IngressDb)
    : result (IngressDb * CommitResult) :=
  if negb (owned_lease (base s) (rc_TenantID record) (rc_ConnectionID record) (rc_OwnerID record)
             (rc_FencingToken record) now)
  then Err [ErrConnectionLeaseLost]
  else
    let! budget := lock_cursor_budget record (responses s) in
    let '(r1, (acceptedAdvances, exhausted)) := budget in
    match getProviderInbox (record_key record) r1 with
    | Some ex =>
      let! committed := commit_existing record ex ids now r1 in
      Ok (set_responses committed.1 s, committed.2)
    | None =>
      if negb (is_nil (cursor_candidate (rc_Projection record))) && exhausted then
        let! rejected := commit_rejected record r1 in
        Ok (set_responses rejected.1 s, rejected.2)
      else commit_new record acceptedAdvances ids now (set_responses r1 s)
    end.

Definition with_projection (record : EnvelopeRecord) (p : Projection) : EnvelopeRecord := {|
  rc_TenantID := rc_TenantID record; rc_ConnectionID := rc_ConnectionID record;
  rc_OwnerID := rc_OwnerID record; rc_FencingToken := rc_FencingToken record;
  rc_ProviderResponseID := rc_ProviderResponseID record; rc_Raw := rc_Raw record;
  rc_Digest := rc_Digest record; rc_Projection := p; rc_Media := rc_Media record;
  rc_Events := rc_Events record; rc_Poisoned := rc_Poisoned record;
  rc_PoisonReason := rc_PoisonReason record; rc_ACKPending := rc_ACKPending record;
  rc_ACKWithheld := rc_ACKWithheld record; rc_ReceivedAt := rc_ReceivedAt record |}.

Section Commit.
Context (unmarshalCursor : bytes -> option (string * Z)) (marshalCursor : string * Z -> bytes).

(** The record the transaction runs on: its cursors canonical, its projection
    valid. *)
Definition canonical_record (record : EnvelopeRecord) : option EnvelopeRecord :=
  if commit_invalid record then None
  else match canonicalizeProjectionCursors unmarshalCursor marshalCursor (rc_Projection record) with
  | Err _ => None
  | Ok p =>
    if is_ok (ValidateProjection unmarshalCursor marshalCursor p (rc_Media record))
    then Some (with_projection record p) else None
  end.

Definition Repository_CommitEnvelope (record : EnvelopeRecord) (ids : CommitIDs) (now : Z) (s : IngressDb)
    : IngressDb * result CommitResult :=
  match canonical_record record with
  | None => (s, Err [ErrInvalidIdentifier])
  | Some record => inTenant (rc_TenantID record) (commit_transaction record ids now) s
  end.

Definition LoadCommittedCursor (tenantID connectionID conversationID : string) (s : IngressDb)
    : IngressDb * result bytes :=
  if (tenantID =s "") || (connectionID =s "") ||
     ((conversationID <>s ProviderPageCursorID) && negb (ValidProviderConversationID conversationID))
  then (s, Err [ErrInvalidIdentifier])
  else inTenant tenantID (fun s =>
    match committed_cursors (projected s) !! (tenantID, connectionID, conversationID) with
    | Some cursor => Ok (s, if blen cursor <=? 4096 then cursor else [])
    | None => Ok (s, [])
    end) s.
End Commit.

(** ** The store of the ingress service

    [ir_calls] is what the transactions to come draw: identifiers and the
    database clock. *)
Record InboxRepository := { ir_db : IngressDb; ir_calls : list (CommitIDs * Z) }.

Definition no_commit_ids : CommitIDs := {|
  cm_conflict := ""; cm_inbox := ""; cm_poison_outbox := "";
  cm_message := fun _ => {| ri_candidate := ""; ri_status := ""; ri_outbox := "" |};
  cm_media := fun _ => ("", ""); cm_event_outbox := fun _ => "" |}.

#[export] Instance commit_store (unmarshalCursor : bytes -> option (string * Z))
    (marshalCursor : string * Z -> bytes) : InboxStore InboxRepository := {|
  CommitEnvelope := fun s record =>
    let '(ids, now) := default (no_commit_ids, 0) (head (ir_calls s)) in
    let '(db, out) := Repository_CommitEnvelope unmarshalCursor marshalCursor record ids now (ir_db s) in
    ({| ir_db := db; ir_calls := tail (ir_calls s) |}, out) |}.
