(* ===== verification/InboxInvariant.v ===== *)
(** * The invariant of provider responses

    What the response tables promise and that every statement of Responses.v
    and every acknowledgement of Acks.v keeps it. *)

From S2P Require Import Prelude GoText Crypto GoEncoding Domain Session EventContract Store Leases Outbound Ingress Reconcile Responses Acks.

(** ** Statement *)

Definition inbox_row_ok (rs : ReservationRow) (row : InboxRow) : Prop :=
  rs_Disposition rs = InInbox /\ ib_Digest row = rs_Digest rs /\
  (rs_Conflicted rs = true -> ib_ACKPending row = false) /\
  (ib_ACKPending row = true -> ib_ACKedAt row = None) /\ 1 <= blen (ib_Raw row) <= 4194304.

Definition rejected_row_ok (rs : ReservationRow) (row : RejectedRow) : Prop :=
  rs_Disposition rs = InRejected /\ rj_Digest row = rs_Digest rs /\ rj_Conflicted row = rs_Conflicted rs /\
  (rs_Conflicted rs = true -> rj_ACKPending row = false) /\
  (rj_ACKPending row = true -> rj_ACKedAt row = None).

(** The rows of one response identifier: none at all, or a reservation with the
    one row of its family. *)
Definition slot_ok (rs : option ReservationRow) (i : option InboxRow) (j : option RejectedRow)
    (cf : option ConflictRow) : Prop :=
  match rs with
  | None => i = None /\ j = None /\ cf = None
  | Some rs =>
    blen (rs_Digest rs) = 32 /\ 1 <= rs_Occurrences rs <= MaxOccurrences /\
    match rs_Disposition rs with
    | InInbox => j = None /\ exists row, i = Some row /\ inbox_row_ok rs row
    | InRejected => i = None /\ cf = None /\ exists row, j = Some row /\ rejected_row_ok rs row
    end
  end.

Definition slots (r : Responses) (k : rkey) : Prop :=
  slot_ok (reservations r !! k) (inbox r !! k) (rejected r !! k) (conflicts r !! k).

Definition budget_ok (b : BudgetRow) : Prop :=
  0 <= bg_AcceptedAdvances b <= MaxProviderCursorAdvances /\
  (bg_Exhausted b = true -> bg_AcceptedAdvances b = MaxProviderCursorAdvances).

(** Every reservation has exactly one row, of its family, with its digest; a
    conflicted one is not pending; poison evidence, rejected responses, cursor
    advances and cursor history are bounded. *)
Record responses_ok (r : Responses) : Prop := {
  ok_slots : forall k, slots r k;
  ok_poison_rows : forall t c, poison_rows r t c <= MaxPoisonedProviderInboxEntries;
  ok_poison_bytes : forall t c, poison_bytes r t c <= MaxPoisonedProviderInboxBytes;
  ok_rejected_rows : forall t c, rejected_reservations r t c <= MaxRejectedProviderResponses;
  ok_budgets : forall k b, budgets r !! k = Some b -> budget_ok b;
  ok_history : forall scope, (length (scope_history scope r) <= 64)%nat
}.

(** ** Sums under updates in place *)

Section TallyUpdates.
Context {K A : Type} `{Countable K} (f : K -> A -> Z).

Lemma tally_alter (g : A -> A) k (m : gmap K A) :
  (forall v, m !! k = Some v -> f k (g v) = f k v) -> tally f (alter g k m) = tally f m.
Proof.
  intros Hg. rewrite alter_alt. destruct (m !! k) as [v|] eqn:E; [|done].
  rewrite tally_insert, E. simpl. rewrite Hg by done. lia.
Qed.

Lemma tally_imap (g : K -> A -> A) (m : gmap K A) :
  (forall k v, m !! k = Some v -> f k (g k v) = f k v) ->
  tally f (map_imap (fun k v => Some (g k v)) m) = tally f m.
Proof.
  induction m as [|k v m Hk IH] using map_ind; [done|]. intros Hg.
  rewrite map_imap_insert_Some with (y := g k v) by done.
  rewrite !tally_insert_fresh; [|done|by rewrite map_lookup_imap, Hk].
  rewrite IH, Hg; [done|by apply lookup_insert_eq|]. intros k' v' Hk'. apply Hg.
  rewrite lookup_insert_ne; congruence.
Qed.
End TallyUpdates.

(** Ranges of the summands. *)
Lemma poison_flag_nonneg t c k (row : InboxRow) :
  0 <= (if same_connection t c k && ib_Poisoned row then 1 else 0).
Proof. by case_if_goal E. Qed.

Lemma poison_size_nonneg t c k (row : InboxRow) :
  0 <= (if same_connection t c k && ib_Poisoned row then blen (ib_Raw row) else 0).
Proof. case_if_goal E; unfold blen; lia. Qed.

(** ** Reading the slots *)

Lemma slot_inbox r k row :
  responses_ok r -> inbox r !! k = Some row ->
  exists rs, reservations r !! k = Some rs /\ rejected r !! k = None /\ inbox_row_ok rs row.
Proof.
  intros Hok Hk. pose proof (ok_slots r Hok k) as Hs. unfold slots, slot_ok in Hs. rewrite Hk in Hs.
  destruct (reservations r !! k) as [rs|]; [|naive_solver]. destruct Hs as (_ & _ & Hs).
  destruct (rs_Disposition rs); [|naive_solver]. destruct Hs as (Hj & row' & [= <-] & Hr). eauto.
Qed.

Lemma slot_rejected r k row :
  responses_ok r -> rejected r !! k = Some row ->
  exists rs, reservations r !! k = Some rs /\ inbox r !! k = None /\ rejected_row_ok rs row.
Proof.
  intros Hok Hk. pose proof (ok_slots r Hok k) as Hs. unfold slots, slot_ok in Hs. rewrite Hk in Hs.
  destruct (reservations r !! k) as [rs|]; [|naive_solver]. destruct Hs as (_ & _ & Hs).
  destruct (rs_Disposition rs); [naive_solver|]. destruct Hs as (Hj & _ & row' & [= <-] & Hr). eauto.
Qed.

(** With the invariant, the count [insertProviderInboxSQL] takes is the count of
    poisoned rows. *)
Lemma reserved_poison_rows_eq r t c : responses_ok r -> reserved_poison_rows r t c = poison_rows r t c.
Proof.
  intros Hok. unfold reserved_poison_rows, poison_rows. apply tally_eq. intros k row Hk.
  destruct (slot_inbox _ _ _ Hok Hk) as (rs & Hrs & _ & Hd & _). rewrite Hrs, bool_decide_eq_true_2 by done.
  by rewrite andb_true_r.
Qed.

Lemma no_responses_ok : responses_ok no_responses.
Proof.
  constructor; simpl.
  - intros k. unfold slots. simpl. by rewrite !lookup_empty.
  - intros t c. done.
  - intros t c. unfold poison_bytes, MaxPoisonedProviderInboxBytes. done.
  - intros t c. done.
  - intros k b. by rewrite lookup_empty.
  - intros scope. unfold scope_history. simpl. rewrite map_to_list_empty. simpl. lia.
Qed.

(** ** One response at a time *)

(** [r'] differs from [r] in the rows of [k] only. *)
Record only_at (k : rkey) (r r' : Responses) : Prop := {
  oa_reservations : forall k', k' <> k -> reservations r' !! k' = reservations r !! k';
  oa_inbox : forall k', k' <> k -> inbox r' !! k' = inbox r !! k';
  oa_rejected : forall k', k' <> k -> rejected r' !! k' = rejected r !! k';
  oa_conflicts : forall k', k' <> k -> conflicts r' !! k' = conflicts r !! k';
  oa_budgets : budgets r' = budgets r;
  oa_history : history r' = history r
}.

Lemma only_at_ok k r r' :
  responses_ok r -> only_at k r r' -> slots r' k ->
  (forall t c, poison_rows r' t c <= MaxPoisonedProviderInboxEntries) ->
  (forall t c, poison_bytes r' t c <= MaxPoisonedProviderInboxBytes) ->
  (forall t c, rejected_reservations r' t c <= MaxRejectedProviderResponses) -> responses_ok r'.
Proof.
  intros Hok [Hr Hi Hj Hc Hb Hh] Hk Hrows Hbytes Hrej. constructor; try done.
  - intros k'. destruct (decide (k' = k)) as [->|Hne]; [done|]. unfold slots.
    rewrite Hr, Hi, Hj, Hc by done. apply (ok_slots r Hok).
  - rewrite Hb. apply (ok_budgets r Hok).
  - intros scope. unfold scope_history. rewrite Hh. apply (ok_history r Hok).
Qed.

(** An update of the rows of [k] that keeps the poison flag and the raw bytes of
    its inbox row and the disposition of its reservation keeps the counts. *)
Lemma same_counts r r' :
  (forall t c, tally (fun k row => if same_connection t c k && ib_Poisoned row then 1 else 0) (inbox r') =
               tally (fun k row => if same_connection t c k && ib_Poisoned row then 1 else 0) (inbox r)) ->
  (forall t c, tally (fun k row => if same_connection t c k && ib_Poisoned row then blen (ib_Raw row) else 0) (inbox r') =
               tally (fun k row => if same_connection t c k && ib_Poisoned row then blen (ib_Raw row) else 0) (inbox r)) ->
  (forall t c, rejected_reservations r' t c = rejected_reservations r t c) ->
  responses_ok r ->
  (forall t c, poison_rows r' t c <= MaxPoisonedProviderInboxEntries) /\
  (forall t c, poison_bytes r' t c <= MaxPoisonedProviderInboxBytes) /\
  (forall t c, rejected_reservations r' t c <= MaxRejectedProviderResponses).
Proof.
  intros H1 H2 H3 Hok. unfold poison_rows, poison_bytes. split_and!; intros t c.
  - rewrite H1. apply (ok_poison_rows r Hok).
  - rewrite H2. apply (ok_poison_bytes r Hok).
  - rewrite H3. apply (ok_rejected_rows r Hok).
Qed.

Ltac solve_only_at := constructor; intros; simpl; rewrite ?lookup_insert_ne, ?lookup_alter_ne, ?lookup_delete_ne by congruence; done.

(** ** Statements *)

Lemma insertProviderInbox_effect record id r r' b :
  insertProviderInbox record id r = Ok (r', b) ->
  (b = false /\ r' = r) \/
  (b = true /\ poison_admitted record r = true /\ blen (rc_Digest record) = 32 /\
   reservations r !! record_key record = None /\ inbox r !! record_key record = None /\
   r' = set_inbox (<[record_key record := new_inbox_row record id]> (inbox r))
         (set_reservations (<[record_key record := {| rs_Digest := rc_Digest record; rs_Disposition := InInbox;
            rs_Conflicted := false; rs_Occurrences := 1; rs_FirstSeenAt := pg_timestamp (rc_ReceivedAt record);
            rs_LastSeenAt := pg_timestamp (rc_ReceivedAt record) |}]> (reservations r)) r)).
Proof.
  unfold insertProviderInbox. case_if_goal Ea; [intros [= <- <-]; by left|].
  destruct (reservations r !! _) eqn:Er; [intros [= <- <-]; by left|].
  intros (? & Hd & (_ & _ & (inbox' & [Hi ->]%insert_unique_ok & [= <- <-])%result_bind_ok)%result_bind_ok)%result_bind_ok.
  right. apply negb_false_iff in Ea. unfold check_constraint in Hd. case_if_in Hd Eb; [|done]. reflect_bools.
  split_and!; done.
Qed.

Lemma same_connection_spec t c k : same_connection t c k = true -> t = k.1.1 /\ c = k.1.2.
Proof. unfold same_connection. intros H. by reflect_bools. Qed.

Lemma insertProviderInbox_ok record id r r' b :
  responses_ok r -> 1 <= blen (rc_Raw record) <= 4194304 ->
  insertProviderInbox record id r = Ok (r', b) -> responses_ok r'.
Proof.
  intros Hok Hraw [[_ ->]|(_ & Ha & Hd & Hr & Hi & ->)]%insertProviderInbox_effect; [done|].
  pose proof (ok_slots r Hok (record_key record)) as Hs. unfold slots, slot_ok in Hs. rewrite Hr in Hs.
  destruct Hs as (_ & Hj & _).
  assert (Hadm : rc_Poisoned record = true ->
    poison_rows r (rc_TenantID record) (rc_ConnectionID record) < MaxPoisonedProviderInboxEntries /\
    poison_bytes r (rc_TenantID record) (rc_ConnectionID record) + blen (rc_Raw record) <= MaxPoisonedProviderInboxBytes).
  { intros Hp. unfold poison_admitted in Ha. rewrite Hp in Ha. simpl in Ha.
    rewrite (reserved_poison_rows_eq _ _ _ Hok) in Ha. apply andb_true_iff in Ha as [Ha1 Ha2].
    apply Z.ltb_lt in Ha1. apply Z.leb_le in Ha2. done. }
  apply (only_at_ok (record_key record) r); [done|solve_only_at|..].
  - unfold slots. simpl. rewrite !lookup_insert_eq, Hj. unfold slot_ok. cbn [rs_Digest rs_Occurrences rs_Disposition].
    split_and!; [done|unfold MaxOccurrences; lia..|done|]. eexists. split; [done|]. done.
  - intros t c. unfold poison_rows. simpl. rewrite tally_insert_fresh by done. fold (poison_rows r t c).
    pose proof (ok_poison_rows r Hok t c). cbn [ib_Poisoned new_inbox_row]. case_if_goal E; [|lia].
    apply andb_true_iff in E as [[-> ->]%same_connection_spec Hp]. destruct (Hadm Hp). simpl in *. lia.
  - intros t c. unfold poison_bytes. simpl. rewrite tally_insert_fresh by done. fold (poison_bytes r t c).
    pose proof (ok_poison_bytes r Hok t c). cbn [ib_Poisoned new_inbox_row ib_Raw]. case_if_goal E; [|lia].
    apply andb_true_iff in E as [[-> ->]%same_connection_spec Hp]. destruct (Hadm Hp). simpl in *. lia.
  - intros t c. unfold rejected_reservations. simpl. rewrite tally_insert_fresh by done.
    cbn [rs_Disposition]. rewrite bool_decide_eq_false_2 by done. rewrite andb_false_r.
    apply (ok_rejected_rows r Hok t c).
Qed.

Lemma LEAST_occurrences n : 1 <= n <= MaxOccurrences -> 1 <= LEAST (n + 1) MaxOccurrences <= MaxOccurrences.
Proof. unfold LEAST, MaxOccurrences. lia. Qed.

(** The effect of [insertProviderInboxConflictSQL] on a known response. *)
Definition conflicted_slot (k : rkey) (r' : Responses) : Prop :=
  exists rs, reservations r' !! k = Some rs /\ rs_Conflicted rs = true.

Lemma record_conflict_effect record id now r r' :
  record_conflict record id now r = Ok r' ->
  exists row, r' = set_conflicts (<[record_key record := row]> (conflicts r)) r.
Proof.
  unfold record_conflict. destruct (conflicts r !! _); [intros [= <-]; eauto|].
  intros (_ & _ & (_ & _ & (_ & _ & [= <-])%result_bind_ok)%result_bind_ok)%result_bind_ok. eauto.
Qed.

Lemma insertProviderInboxConflict_ok record id now r r' :
  responses_ok r -> insertProviderInboxConflict record id now r = Ok r' ->
  responses_ok r' /\ (is_Some (reservations r !! record_key record) -> conflicted_slot (record_key record) r').
Proof.
  intros Hok. unfold insertProviderInboxConflict. remember (record_key record) as k eqn:Ek.
  destruct (reservations r !! k) as [rs|] eqn:Er; [|intros [= <-]; split; [done|by intros []]].
  pose proof (ok_slots r Hok k) as Hs. unfold slots, slot_ok in Hs. rewrite Er in Hs.
  destruct Hs as (Hd & Ho & Hs). pose proof (LEAST_occurrences _ Ho) as Ho'.
  destruct (rs_Disposition rs) eqn:Ed.
  - destruct Hs as (Hj & row & Hi & Hrow). intros (cf & ->)%record_conflict_effect. rewrite <- Ek. split.
    2:{ intros _. exists (conflicted_reservation rs now). simpl. by rewrite lookup_insert_eq. }
    destruct (same_counts r (set_conflicts (<[k := cf]> (conflicts r)) (set_inbox (alter (fun row =>
      with_inbox_ack row false (ib_ACKedAt row)) k (inbox r)) (set_reservations (<[k := conflicted_reservation rs now]>
      (reservations r)) r)))) as (H1 & H2 & H3); try done; simpl.
    + intros t c. by apply tally_alter.
    + intros t c. by apply tally_alter.
    + intros t c. unfold rejected_reservations. simpl. rewrite tally_insert, Er. simpl. lia.
    + apply (only_at_ok k r); [exact Hok|solve_only_at| |done..]. unfold slots. simpl.
      rewrite !lookup_insert_eq, lookup_alter_eq, Hi, Hj. simpl. rewrite Ed. split_and!; try done; [lia..|].
      eexists. split; [done|]. destruct Hrow as (? & ? & ? & ? & ?). unfold inbox_row_ok. simpl. done.
  - destruct Hs as (Hi & Hc & row & Hj & Hrow). intros [= <-]. split.
    2:{ intros _. exists (conflicted_reservation rs now). simpl. by rewrite lookup_insert_eq. }
    destruct (same_counts r (set_rejected (alter (fun row => with_rejected_ack row false true (rj_ACKedAt row)) k
      (rejected r)) (set_reservations (<[k := conflicted_reservation rs now]> (reservations r)) r)))
      as (H1 & H2 & H3); try done; simpl.
    + intros t c. unfold rejected_reservations. simpl. rewrite tally_insert, Er. simpl. lia.
    + apply (only_at_ok k r); [exact Hok|solve_only_at| |done..]. unfold slots. simpl.
      rewrite !lookup_insert_eq, lookup_alter_eq, Hi, Hj, Hc. simpl. rewrite Ed. split_and!; try done; [lia..|].
      eexists. split; [done|]. destruct Hrow as (? & ? & ? & ? & ?). unfold rejected_row_ok. simpl. done.
Qed.

Lemma reopenProviderACK_ok k r : responses_ok r -> responses_ok (reopenProviderACK k r).
Proof.
  intros Hok. unfold reopenProviderACK. destruct (reservations r !! k) as [rs|] eqn:Er; [|done].
  destruct (rs_Conflicted rs) eqn:Ec; [done|].
  pose proof (ok_slots r Hok k) as Hs. unfold slots, slot_ok in Hs. rewrite Er in Hs.
  destruct Hs as (Hd & Ho & Hs). destruct (rs_Disposition rs) eqn:Ed.
  - destruct Hs as (Hj & row & Hi & Hrow).
    destruct (same_counts r (set_inbox (alter (fun row => with_inbox_ack row true None) k (inbox r)) r))
      as (H1 & H2 & H3); try done; simpl; [intros t c; by apply tally_alter..|].
    apply (only_at_ok k r); [exact Hok|solve_only_at| |done..]. unfold slots. simpl.
    rewrite lookup_alter_eq, Er, Hi, Hj. simpl. rewrite Ed. split_and!; try done; [lia..|].
    eexists. split; [done|]. destruct Hrow as (? & ? & ? & ? & ?). unfold inbox_row_ok. simpl.
    split_and!; try done; [|lia..]. congruence.
  - destruct Hs as (Hi & Hc & row & Hj & Hrow).
    apply (only_at_ok k r); [exact Hok|solve_only_at| |apply (ok_poison_rows r Hok)|apply (ok_poison_bytes r Hok)
      |apply (ok_rejected_rows r Hok)]. unfold slots. simpl.
    rewrite lookup_alter_eq, Er, Hi, Hj, Hc. simpl. rewrite Ed. split_and!; try done; [lia..|].
    eexists. split; [done|]. destruct Hrow as (? & ? & Hcf & ? & ?). rewrite Hcf, Ec.
    unfold rejected_row_ok. simpl. split_and!; try done. congruence.
Qed.

Lemma admit_poison_effect k reason r r' :
  admit_poison k reason r = Some r' ->
  exists row, inbox r !! k = Some row /\ ib_Poisoned row = false /\
    poison_rows r k.1.1 k.1.2 < MaxPoisonedProviderInboxEntries /\
    poison_bytes r k.1.1 k.1.2 + blen (ib_Raw row) <= MaxPoisonedProviderInboxBytes /\
    r' = set_inbox (<[k := with_inbox_poison row reason]> (inbox r)) r.
Proof.
  unfold admit_poison. destruct (inbox r !! k) as [row|]; [|done]. case_if_goal E; [|done]. intros [= <-].
  apply andb_true_iff in E as [[E1 E2]%andb_true_iff E3]. apply negb_true_iff in E1.
  apply Z.ltb_lt in E2. apply Z.leb_le in E3. eauto 10.
Qed.

Lemma admit_poison_ok k reason r r' : responses_ok r -> admit_poison k reason r = Some r' -> responses_ok r'.
Proof.
  intros Hok (row & Hi & Hp & Hrows & Hbytes & ->)%admit_poison_effect.
  destruct (slot_inbox _ _ _ Hok Hi) as (rs & Hr & Hj & Hrow).
  pose proof (ok_slots r Hok k) as Hs. unfold slots, slot_ok in Hs. rewrite Hr in Hs. destruct Hs as (Hd & Ho & _).
  apply (only_at_ok k r); [exact Hok|solve_only_at|..].
  - unfold slots. simpl. rewrite lookup_insert_eq, Hr, Hj. simpl.
    destruct Hrow as (Hdi & ? & ? & ? & ?). rewrite Hdi. split_and!; try done; [lia..|].
    eexists. split; [done|]. done.
  - intros t c. unfold poison_rows. simpl. rewrite tally_insert, Hi. simpl. rewrite Hp, andb_false_r, andb_true_r.
    pose proof (ok_poison_rows r Hok t c) as Hle. fold (poison_rows r t c). case_if_goal E; [|lia].
    apply same_connection_spec in E as [-> ->]. lia.
  - intros t c. unfold poison_bytes. simpl. rewrite tally_insert, Hi. simpl. rewrite Hp, andb_false_r, andb_true_r.
    pose proof (ok_poison_bytes r Hok t c) as Hle. fold (poison_bytes r t c). case_if_goal E; [|lia].
    apply same_connection_spec in E as [-> ->]. lia.
  - apply (ok_rejected_rows r Hok).
Qed.

Lemma compact_poison_effect k reason now r r' b :
  responses_ok r -> compact_poison k reason now r = Ok (r', b) ->
  (b = false /\ r' = r) \/
  (b = true /\ exists row rs, inbox r !! k = Some row /\ reservations r !! k = Some rs /\
     ib_Poisoned row = false /\ rejected_reservations r k.1.1 k.1.2 < MaxRejectedProviderResponses /\
     r' = set_rejected (<[k := compacted_row rs row reason now]> (rejected r))
           (set_reservations (<[k := moved_reservation rs now]> (reservations r))
             (set_inbox (delete k (inbox r)) (set_conflicts (delete k (conflicts r)) r)))).
Proof.
  intros Hok. unfold compact_poison. destruct (inbox r !! k) as [row|] eqn:Hi; [|intros [= <- <-]; by left].
  destruct (slot_inbox _ _ _ Hok Hi) as (rs & Hr & Hj & Hrow). rewrite Hr.
  case_if_goal E; [|intros [= <- <-]; by left]. destruct Hrow as (Hd & Hdig & _).
  rewrite bool_decide_eq_true_2 by done.
  intros (_ & _ & (rej & [_ ->]%insert_unique_ok & [= <- <-])%result_bind_ok)%result_bind_ok.
  right. split; [done|]. exists row, rs. apply andb_true_iff in E as [[E1 _]%andb_true_iff E3].
  apply negb_true_iff in E1. apply Z.ltb_lt in E3. split_and!; done.
Qed.

Lemma compact_poison_ok k reason now r r' b :
  responses_ok r -> compact_poison k reason now r = Ok (r', b) -> responses_ok r'.
Proof.
  intros Hok [[_ ->]|(_ & row & rs & Hi & Hr & Hp & Hlt & ->)]%compact_poison_effect; [done| |done].
  destruct (slot_inbox _ _ _ Hok Hi) as (rs' & Hr' & Hj & Hrow). rewrite Hr in Hr'. injection Hr' as <-.
  pose proof (ok_slots r Hok k) as Hs. unfold slots, slot_ok in Hs. rewrite Hr in Hs. destruct Hs as (Hd & Ho & _).
  apply (only_at_ok k r); [exact Hok|solve_only_at|..].
  - unfold slots. simpl. rewrite !lookup_insert_eq, !lookup_delete_eq. unfold slot_ok. simpl.
    split_and!; try done; [lia..|]. eexists. split; [done|]. unfold rejected_row_ok. simpl.
    split_and!; try done. by destruct (rs_Conflicted rs).
  - intros t c. unfold poison_rows. simpl. rewrite tally_delete, Hi. simpl. rewrite Hp, andb_false_r.
    pose proof (ok_poison_rows r Hok t c) as Hle. fold (poison_rows r t c). lia.
  - intros t c. unfold poison_bytes. simpl. rewrite tally_delete, Hi. simpl. rewrite Hp, andb_false_r.
    pose proof (ok_poison_bytes r Hok t c) as Hle. fold (poison_bytes r t c). lia.
  - intros t c. unfold rejected_reservations. simpl. rewrite tally_insert, Hr. simpl.
    destruct Hrow as (-> & _). rewrite bool_decide_eq_false_2, andb_false_r by done.
    rewrite ?andb_true_r. fold (rejected_reservations r t c).
    pose proof (ok_rejected_rows r Hok t c). case_if_goal E; [|lia].
    apply same_connection_spec in E as [-> ->]. lia.
Qed.

(** Finalising keeps the invariant and whether a response is conflicted; every
    other response is as before. *)
Lemma finalizeProviderPoison_ok k reason now r r' b :
  responses_ok r -> finalizeProviderPoison k reason now r = Ok (r', b) -> responses_ok r'.
Proof.
  intros Hok. unfold finalizeProviderPoison. destruct (admit_poison k reason r) as [r1|] eqn:E.
  - intros [= <- _]. by eapply admit_poison_ok.
  - by apply compact_poison_ok.
Qed.

Lemma upsertRejected_effect record r r' d cf n :
  responses_ok r -> upsertRejectedProviderResponse record r = Ok (r', Some (d, cf, n)) ->
  responses_ok r' /\ exists rs row, reservations r' !! record_key record = Some rs /\
    rejected r' !! record_key record = Some row /\ d = rj_Digest row /\ cf = rj_Conflicted row /\
    rs_Disposition rs = InRejected /\ rj_ACKPending row = negb cf /\ rs_Conflicted rs = cf /\
    rj_Digest row = rs_Digest rs /\ (cf = false -> rs_Digest rs = rc_Digest record) /\
    (forall rs0, reservations r !! record_key record = Some rs0 -> rs_Conflicted rs0 = true -> rs_Conflicted rs = true).
Proof.
  intros Hok. unfold upsertRejectedProviderResponse. remember (record_key record) as k eqn:Ek. cbv zeta.
  case_if_goal Ecap; [|done]. intros (u & Hd32 & H)%result_bind_ok.
  unfold check_constraint in Hd32. case_if_in Hd32 E32; [|done]. apply Z.eqb_eq in E32.
  pose proof (ok_slots r Hok k) as Hs. unfold slots, slot_ok in Hs.
  destruct (reservations r !! k) as [rs0|] eqn:Er.
  - destruct Hs as (Hd & Ho & Hs). pose proof (LEAST_occurrences _ Ho) as Ho'. simpl in H.
    destruct (rs_Disposition rs0) eqn:Ed; [done|]. destruct Hs as (Hi & Hc & row0 & Hj & Hrow).
    rewrite Hj in H. injection H as <- <- <- <-. split.
    + apply (only_at_ok k r); [exact Hok|solve_only_at| |apply (ok_poison_rows r Hok)|apply (ok_poison_bytes r Hok)|].
      * unfold slots. simpl. rewrite !lookup_insert_eq, Hi, Hc. simpl. rewrite Ed. split_and!; try done; [lia..|].
        eexists. split; [done|]. destruct Hrow as (? & ? & ? & ? & ?). unfold rejected_row_ok. simpl.
        split_and!; try done; by destruct (rs_Conflicted rs0 || _).
      * intros t c. unfold rejected_reservations. simpl. rewrite tally_insert, Er. simpl.
        fold (rejected_reservations r t c). pose proof (ok_rejected_rows r Hok t c). lia.
    + eexists _, _. simpl. rewrite !lookup_insert_eq. split_and!; try done.
      * by destruct Hrow as (_ & ? & _).
      * simpl. intros [_ Hneg]%orb_false_iff. apply negb_false_iff in Hneg. by apply bool_decide_eq_true in Hneg.
      * intros rs1 [= <-] Hc1. simpl. by rewrite Hc1.
  - destruct Hs as (Hi & Hj & Hc). simpl in H. rewrite Hj in H. simpl in H. injection H as <- <- <- <-.
    rewrite orb_false_r in Ecap. apply Z.ltb_lt in Ecap. split.
    + apply (only_at_ok k r); [exact Hok|solve_only_at| |apply (ok_poison_rows r Hok)|apply (ok_poison_bytes r Hok)|].
      * unfold slots. simpl. rewrite !lookup_insert_eq, Hi, Hc. unfold slot_ok. simpl.
        split_and!; try done. eexists. split; [done|]. done.
      * intros t c. unfold rejected_reservations. simpl. rewrite tally_insert_fresh by done. simpl.
        rewrite andb_true_r. fold (rejected_reservations r t c). pose proof (ok_rejected_rows r Hok t c).
        case_if_goal E; [|lia]. apply same_connection_spec in E as [-> ->]. rewrite Ek in *. simpl in *. lia.
    + eexists _, _. simpl. rewrite !lookup_insert_eq. split_and!; try done.
Qed.

(** ** The cursor breaker *)

(** The tables the breaker does not touch are as before. *)
Lemma same_rows_ok r r' :
  responses_ok r -> reservations r' = reservations r -> inbox r' = inbox r -> rejected r' = rejected r ->
  conflicts r' = conflicts r -> (forall k b, budgets r' !! k = Some b -> budget_ok b) ->
  (forall scope, (length (scope_history scope r') <= 64)%nat) -> responses_ok r'.
Proof.
  intros Hok Hr Hi Hj Hc Hb Hh. constructor; try done.
  - intros k. unfold slots. rewrite Hr, Hi, Hj, Hc. apply (ok_slots r Hok).
  - unfold poison_rows. rewrite Hi. apply (ok_poison_rows r Hok).
  - unfold poison_bytes. rewrite Hi. apply (ok_poison_bytes r Hok).
  - unfold rejected_reservations. rewrite Hr. apply (ok_rejected_rows r Hok).
Qed.

Lemma insert_budget_ok scope b r :
  responses_ok r -> budget_ok b -> responses_ok (set_budgets (<[scope := b]> (budgets r)) r).
Proof.
  intros Hok Hb. apply (same_rows_ok r); try done.
  - intros k b'. simpl. intros [[_ <-]|[_ H]]%lookup_insert_Some; [done|]. by eapply (ok_budgets r Hok).
  - apply (ok_history r Hok).
Qed.

Lemma ensureProviderCursorBudget_ok scope id r r' :
  responses_ok r -> ensureProviderCursorBudget scope id r = Ok r' -> responses_ok r'.
Proof.
  intros Hok. unfold ensureProviderCursorBudget. intros (_ & _ & H)%result_bind_ok.
  destruct (budgets r !! scope); injection H as <-; [done|]. by apply insert_budget_ok.
Qed.

Lemma exhaustProviderCursorBudget_ok scope id r r' :
  responses_ok r -> exhaustProviderCursorBudget scope id r = Some r' -> responses_ok r'.
Proof.
  intros Hok. unfold exhaustProviderCursorBudget. destruct (budgets r !! scope) as [b|] eqn:Eb; [|done].
  case_if_goal E; [|done]. intros [= <-]. destruct (ok_budgets r Hok _ _ Eb) as [? _].
  apply andb_true_iff in E as [_ E]. apply Z.geb_le in E. apply insert_budget_ok; [done|]. split; simpl; lia.
Qed.

(** ** Cursor history *)

Lemma lookup_delete_all {K A B} `{Countable K} (g : B -> K) (l : list B) (m : gmap K A) k :
  foldr (fun p h => delete (g p) h) m l !! k = (if decide (k ∈ g <$> l) then None else m !! k).
Proof.
  induction l as [|p l IH]; [done|]. cbn [foldr fmap list_fmap]. destruct (decide (g p = k)) as [<-|Hne].
  - rewrite lookup_delete_eq, decide_True; [done|]. by apply elem_of_cons; left.
  - rewrite lookup_delete_ne, IH by done. destruct (decide (k ∈ g <$> l)) as [Hi|Hi].
    + rewrite decide_True; [done|]. by apply elem_of_cons; right.
    + rewrite decide_False; [done|]. by intros [?|?]%elem_of_cons.
Qed.

Lemma elem_of_scope_history scope r x row :
  (x, row) ∈ scope_history scope r <-> history r !! x = Some row /\ x.1 = scope.
Proof.
  unfold scope_history. rewrite list_elem_of_In, filter_In, <- list_elem_of_In, elem_of_map_to_list. simpl.
  by rewrite bool_decide_eq_true.
Qed.

Lemma NoDup_scope_history scope r : NoDup (scope_history scope r).
Proof. unfold scope_history. apply NoDup_ListNoDup, List.NoDup_filter, NoDup_ListNoDup, NoDup_map_to_list. Qed.

(** Pruning leaves the sixty-four latest rows of its scope and no others of it
    change. *)
Lemma prune_scope scope r :
  scope_history scope (pruneProviderCursorHistory scope r) ≡ₚ
    take 64 (merge_sort history_ge (scope_history scope r)).
Proof.
  set (sorted := merge_sort history_ge (scope_history scope r)).
  assert (Hp : sorted ≡ₚ scope_history scope r) by apply merge_sort_Permutation.
  assert (Hnd : NoDup sorted) by (rewrite Hp; apply NoDup_scope_history).
  rewrite <- (take_drop 64 sorted) in Hp, Hnd. apply NoDup_app in Hnd as (Htake & Hdisj & _).
  apply NoDup_Permutation; [apply NoDup_scope_history|done|]. intros [x row]. rewrite elem_of_scope_history. unfold pruneProviderCursorHistory. simpl.
  fold sorted. rewrite (lookup_delete_all fst).
  assert (Huniq : forall row', (x, row') ∈ sorted -> history r !! x = Some row').
  { intros row' Hin. unfold sorted in Hin. rewrite merge_sort_Permutation in Hin.
    by apply elem_of_scope_history in Hin as [? _]. }
  split.
  - intros [Hx Hsc]. case_decide as Hst; [done|].
    assert (Hin : (x, row) ∈ take 64 sorted ++ drop 64 sorted) by (rewrite Hp; by apply elem_of_scope_history).
    apply elem_of_app in Hin as [?|Hin]; [done|]. destruct Hst. apply list_elem_of_fmap. by exists (x, row).
  - intros Hin. assert (Hin' : (x, row) ∈ scope_history scope r) by (rewrite <- Hp; apply elem_of_app; by left).
    apply elem_of_scope_history in Hin' as [Hx Hsc]. split; [|done]. rewrite decide_False; [done|].
    intros ([x' row'] & Hxe & Hd)%list_elem_of_fmap. simpl in Hxe. subst x'.
    assert (row' = row) as ->.
    { assert (Hs : (x, row') ∈ sorted) by (rewrite <- (take_drop 64 sorted); apply elem_of_app; by right).
      apply Huniq in Hs. congruence. }
    by apply (Hdisj _ Hin).
Qed.

Lemma prune_other scope scope' r :
  scope' <> scope -> scope_history scope' (pruneProviderCursorHistory scope r) ≡ₚ scope_history scope' r.
Proof.
  intros Hne. apply NoDup_Permutation; [apply NoDup_scope_history..|]. intros [x row].
  rewrite !elem_of_scope_history. unfold pruneProviderCursorHistory. simpl. rewrite (lookup_delete_all fst).
  case_decide as Hst; [|done]. split; [by intros [? _]|]. intros [Hx Hs].
  apply list_elem_of_fmap in Hst as ([x' row'] & Hxe & Hd). simpl in Hxe. subst x'.
  assert (Hin : (x, row') ∈ merge_sort history_ge (scope_history scope r)).
  { rewrite <- (take_drop 64 (merge_sort _ _)). apply elem_of_app. by right. }
  rewrite merge_sort_Permutation in Hin. apply elem_of_scope_history in Hin as [_ ?]. congruence.
Qed.

(** ** Acknowledgements *)

Lemma ackable_inbox_spec r k :
  ackable_inbox r k = true <->
  exists row rs, inbox r !! k = Some row /\ reservations r !! k = Some rs /\ ib_ACKPending row = true /\
    rs_Disposition rs = InInbox /\ rs_Conflicted rs = false.
Proof.
  unfold ackable_inbox. destruct (inbox r !! k) as [row|]; [|naive_solver].
  destruct (reservations r !! k) as [rs|]; [|naive_solver].
  rewrite !andb_true_iff, negb_true_iff, bool_decide_eq_true. naive_solver.
Qed.

Lemma ackable_rejected_spec r k :
  ackable_rejected r k = true <->
  exists row rs, rejected r !! k = Some row /\ reservations r !! k = Some rs /\ rj_ACKPending row = true /\
    rj_Conflicted row = false /\ rs_Disposition rs = InRejected /\ rs_Conflicted rs = false.
Proof.
  unfold ackable_rejected. destruct (rejected r !! k) as [row|]; [|naive_solver].
  destruct (reservations r !! k) as [rs|]; [|naive_solver].
  rewrite !andb_true_iff, !negb_true_iff, bool_decide_eq_true. naive_solver.
Qed.

Lemma mark_acked_inbox t c ids now r k :
  inbox (mark_acked t c ids now r) !! k =
  (fun row => if requested t c ids k && ackable_inbox r k then with_inbox_ack row false (Some now) else row)
    <$> inbox r !! k.
Proof. unfold mark_acked. cbn [inbox set_rejected set_inbox]. rewrite map_lookup_imap. destruct (inbox r !! k); reflexivity. Qed.

Lemma mark_acked_rejected t c ids now r k :
  rejected (mark_acked t c ids now r) !! k =
  (fun row => if requested t c ids k && ackable_rejected r k
              then with_rejected_ack row false (rj_Conflicted row) (Some now) else row) <$> rejected r !! k.
Proof. unfold mark_acked. cbn [rejected set_rejected set_inbox]. rewrite map_lookup_imap. destruct (rejected r !! k); reflexivity. Qed.

Lemma mark_acked_ok t c ids now r : responses_ok r -> responses_ok (mark_acked t c ids now r).
Proof.
  intros Hok. destruct (same_counts r (mark_acked t c ids now r)) as (H1 & H2 & H3); try done.
  - intros t' c'. unfold mark_acked. simpl. apply tally_imap. intros k row _. by destruct (requested t c ids k && ackable_inbox r k).
  - intros t' c'. unfold mark_acked. simpl. apply tally_imap. intros k row _. by destruct (requested t c ids k && ackable_inbox r k).
  - constructor; try done; [|apply (ok_budgets r Hok)|apply (ok_history r Hok)].
    intros k. unfold slots. rewrite mark_acked_inbox, mark_acked_rejected. cbn [mark_acked reservations conflicts set_rejected set_inbox].
    pose proof (ok_slots r Hok k) as Hs. unfold slots, slot_ok in *.
    destruct (reservations r !! k) as [rs|]; [|destruct Hs as (-> & -> & ->); done].
    destruct Hs as (Hd & Ho & Hs). split_and!; [done|lia..|]. destruct (rs_Disposition rs) eqn:Ed.
    + destruct Hs as (-> & row & -> & Hrow). split; [done|]. eexists. split; [done|].
      destruct Hrow as (? & ? & ? & ? & ?). case_if_goal E; unfold inbox_row_ok; simpl; done.
    + destruct Hs as (-> & -> & row & -> & Hrow). split_and!; [done..|]. eexists. split; [done|].
      destruct Hrow as (? & ? & ? & ? & ?). case_if_goal E; unfold rejected_row_ok; simpl; done.
Qed.

(** An acknowledged response is no longer admissible; the others are as before. *)
Lemma mark_acked_ackable t c ids now r k :
  ackable (mark_acked t c ids now r) k = ackable r k && negb (requested t c ids k).
Proof.
  unfold ackable. assert (Hi : ackable_inbox (mark_acked t c ids now r) k =
    ackable_inbox r k && negb (requested t c ids k)).
  { unfold ackable_inbox at 1. rewrite mark_acked_inbox. cbn [mark_acked reservations set_rejected set_inbox].
    unfold ackable_inbox. destruct (inbox r !! k) as [row|]; [|done]. simpl.
    destruct (reservations r !! k) as [rs|]; [|done]. simpl.
    destruct (requested t c ids k); simpl; [|by rewrite andb_true_r].
    rewrite andb_false_r. destruct (ib_ACKPending row && _ && _) eqn:E; [done|]. done. }
  assert (Hj : ackable_rejected (mark_acked t c ids now r) k =
    ackable_rejected r k && negb (requested t c ids k)).
  { unfold ackable_rejected at 1. rewrite mark_acked_rejected. cbn [mark_acked reservations set_rejected set_inbox].
    unfold ackable_rejected. destruct (rejected r !! k) as [row|]; [|done]. simpl.
    destruct (reservations r !! k) as [rs|]; [|done]. simpl.
    destruct (requested t c ids k); simpl; [|by rewrite andb_true_r].
    rewrite andb_false_r. destruct (rj_ACKPending row && _ && _ && _) eqn:E; [done|]. done. }
  rewrite Hi, Hj. by destruct (ackable_inbox r k), (ackable_rejected r k), (requested t c ids k).
Qed.
