(* ===== verification/CommitSafety.v ===== *)
(** * Guarantees of durable ingress

    What [CommitEnvelope] and the acknowledgement operations guarantee together:
    the invariant of the response tables, the single digest and absorbing
    conflict of a response identifier, exact replay, the cursor breaker, and
    that only durable responses are acknowledged. *)

From S2P Require Import Prelude GoText Crypto GoEncoding Domain Session EventContract Store Leases Outbound Ingress Reconcile Responses Acks Lines Commit InboxInvariant.

(** ** How reservations evolve *)

(** The digest never changes, a conflict is never taken back, and a rejected
    response never enters the inbox. *)
Definition reservation_le (rs rs' : ReservationRow) : Prop :=
  rs_Digest rs' = rs_Digest rs /\ (rs_Conflicted rs = true -> rs_Conflicted rs' = true) /\
  (rs_Disposition rs = InRejected -> rs_Disposition rs' = InRejected).

(** Advances are only added and an exhausted scope stays exhausted. *)
Definition budget_le (b b' : BudgetRow) : Prop :=
  bg_AcceptedAdvances b <= bg_AcceptedAdvances b' /\ (bg_Exhausted b = true -> bg_Exhausted b' = true).

(** Rows of a table are kept, and each grows along [le]. *)
Definition grows {V} (le : relation V) (m m' : gmap rkey V) : Prop :=
  forall k v, m !! k = Some v -> exists v', m' !! k = Some v' /\ le v v'.

Definition evolves (r r' : Responses) : Prop :=
  grows reservation_le (reservations r) (reservations r') /\ grows budget_le (budgets r) (budgets r').

#[export] Instance reservation_le_preorder : PreOrder reservation_le.
Proof.
  split.
  - intros x. by split_and!.
  - intros x y z (D1 & C1 & I1) (D2 & C2 & I2). split_and!; [congruence|by intros ?%C1%C2|by intros ?%I1%I2].
Qed.

#[export] Instance budget_le_preorder : PreOrder budget_le.
Proof.
  split.
  - intros x. by split.
  - intros x y z [A1 E1] [A2 E2]. split; [lia|by intros ?%E1%E2].
Qed.

#[export] Instance grows_preorder {V} (le : relation V) `{!PreOrder le} : PreOrder (grows le).
Proof.
  split.
  - intros m k v Hk. by exists v.
  - intros m1 m2 m3 H1 H2 k v Hk. destruct (H1 _ _ Hk) as (v2 & Hk2 & Hle2).
    destruct (H2 _ _ Hk2) as (v3 & Hk3 & Hle3). exists v3. split; [done|]. by transitivity v2.
Qed.

#[export] Instance evolves_preorder : PreOrder evolves.
Proof.
  split.
  - intros r. by split.
  - intros r1 r2 r3 [R1 B1] [R2 B2]. split; [by transitivity (reservations r2)|by transitivity (budgets r2)].
Qed.

Lemma grows_insert {V} (le : relation V) `{!PreOrder le} (m : gmap rkey V) k v :
  (forall v0, m !! k = Some v0 -> le v0 v) -> grows le m (<[k := v]> m).
Proof.
  intros Hle k' v0 Hk. destruct (decide (k' = k)) as [->|Hne].
  - exists v. rewrite lookup_insert_eq. split; [done|]. by apply Hle.
  - exists v0. by rewrite lookup_insert_ne by done.
Qed.

Lemma evolves_same r r' : reservations r' = reservations r -> budgets r' = budgets r -> evolves r r'.
Proof. intros Hr Hb. unfold evolves. rewrite Hr, Hb. by split. Qed.

Lemma evolves_insert k rs' r r' :
  reservations r' = <[k := rs']> (reservations r) -> budgets r' = budgets r ->
  (forall rs, reservations r !! k = Some rs -> reservation_le rs rs') -> evolves r r'.
Proof. intros Hr Hb Hle. unfold evolves. rewrite Hr, Hb. split; [by apply (grows_insert _)|reflexivity]. Qed.

Lemma evolves_budget k b' r r' :
  reservations r' = reservations r -> budgets r' = <[k := b']> (budgets r) ->
  (forall b, budgets r !! k = Some b -> budget_le b b') -> evolves r r'.
Proof. intros Hr Hb Hle. unfold evolves. rewrite Hr, Hb. split; [reflexivity|by apply (grows_insert _)]. Qed.

(** Each statement keeps the invariant and lets reservations evolve. *)
Definition good (r r' : Responses) : Prop := responses_ok r' /\ evolves r r'.

Lemma good_trans r1 r2 r3 : good r1 r2 -> good r2 r3 -> good r1 r3.
Proof. intros [H1 E1] [H2 E2]. split; [done|by transitivity r2]. Qed.

Lemma insertProviderInbox_good record id r r' b :
  responses_ok r -> 1 <= blen (rc_Raw record) <= 4194304 ->
  insertProviderInbox record id r = Ok (r', b) -> good r r'.
Proof.
  intros Hok Hraw H. split; [by eapply insertProviderInbox_ok|].
  apply insertProviderInbox_effect in H as [[_ ->]|(_ & _ & _ & Hr & _ & ->)]; [done|].
  eapply evolves_insert; [done..|]. intros rs. by rewrite Hr.
Qed.

Lemma insertProviderInboxConflict_good record id now r r' :
  responses_ok r -> insertProviderInboxConflict record id now r = Ok r' -> good r r'.
Proof.
  intros Hok H. split; [by eapply insertProviderInboxConflict_ok|].
  unfold insertProviderInboxConflict in H. destruct (reservations r !! _) as [rs|] eqn:Er; [|by injection H as <-].
  destruct (rs_Disposition rs) eqn:Ed.
  - apply record_conflict_effect in H as (cf & ->). eapply evolves_insert; [done..|].
    intros rs0. rewrite Er. by intros [= <-].
  - injection H as <-. eapply evolves_insert; [done..|]. intros rs0. rewrite Er. by intros [= <-].
Qed.

Lemma reopenProviderACK_good k r : responses_ok r -> good r (reopenProviderACK k r).
Proof.
  intros Hok. split; [by apply reopenProviderACK_ok|]. apply evolves_same; unfold reopenProviderACK;
    (destruct (reservations r !! k) as [rs|] eqn:E; [|done]); (destruct (rs_Conflicted rs); [done|]);
    by destruct (rs_Disposition rs).
Qed.

Lemma finalizeProviderPoison_good k reason now r r' b :
  responses_ok r -> finalizeProviderPoison k reason now r = Ok (r', b) -> good r r'.
Proof.
  intros Hok H. split; [by eapply finalizeProviderPoison_ok|]. unfold finalizeProviderPoison in H.
  destruct (admit_poison k reason r) as [r1|] eqn:E.
  - injection H as <- _. apply admit_poison_effect in E as (row & _ & _ & _ & _ & ->). by apply evolves_same.
  - apply compact_poison_effect in H as [[_ ->]|(_ & row & rs & _ & Hr & _ & _ & ->)]; [done| |done].
    eapply evolves_insert; [done..|]. intros rs0. rewrite Hr. by intros [= <-].
Qed.

Lemma upsertRejected_good record r r' out :
  responses_ok r -> upsertRejectedProviderResponse record r = Ok (r', Some out) -> good r r'.
Proof.
  intros Hok H. destruct out as [[d cf] n]. split; [by eapply upsertRejected_effect|].
  unfold upsertRejectedProviderResponse in H. cbv zeta in H. case_if_in H Ec; [|done].
  apply result_bind_ok in H as (_ & _ & H). destruct (reservations r !! record_key record) as [rs|] eqn:Er; simpl in H.
  - destruct (rs_Disposition rs) eqn:Ed; [done|]. injection H as <- _ _ _. eapply evolves_insert; [done..|].
    intros rs0. rewrite Er. intros [= <-]. split_and!; [done| |done]. simpl. by intros ->.
  - injection H as <- _ _ _. eapply evolves_insert; [done..|]. intros rs0. by rewrite Er.
Qed.

Lemma mark_acked_good t c ids now r : responses_ok r -> good r (mark_acked t c ids now r).
Proof. intros Hok. split; [by apply mark_acked_ok|]. by apply evolves_same. Qed.

Lemma ensureProviderCursorBudget_good scope id r r' :
  responses_ok r -> ensureProviderCursorBudget scope id r = Ok r' -> good r r'.
Proof.
  intros Hok H. split; [by eapply ensureProviderCursorBudget_ok|]. unfold ensureProviderCursorBudget in H.
  apply result_bind_ok in H as (_ & _ & H). destruct (budgets r !! scope) eqn:Eb; injection H as <-; [done|].
  eapply evolves_budget; [done..|]. intros b. by rewrite Eb.
Qed.

Lemma exhaustProviderCursorBudget_good scope id r r' :
  responses_ok r -> exhaustProviderCursorBudget scope id r = Some r' -> good r r'.
Proof.
  intros Hok H. split; [by eapply exhaustProviderCursorBudget_ok|]. unfold exhaustProviderCursorBudget in H.
  destruct (budgets r !! scope) as [b|] eqn:Eb; [|done]. case_if_in H E; [|done]. injection H as <-.
  eapply evolves_budget; [done..|]. intros b0. rewrite Eb. by intros [= <-].
Qed.

(** ** The cursor phase *)

(** What [accept_cursor] leaves: the rows of responses as they were, one more
    advance, history changed in its own scope only. *)
Lemma accept_cursor_effect record candidate now r r' :
  accept_cursor record candidate now r = Ok r' ->
  reservations r' = reservations r /\ inbox r' = inbox r /\ rejected r' = rejected r /\
  conflicts r' = conflicts r /\
  (exists b, budgets r !! cursor_scope record = Some b /\ bg_Exhausted b = false /\
     bg_AcceptedAdvances b < MaxProviderCursorAdvances /\
     budgets r' = <[cursor_scope record := {| bg_AcceptedAdvances := bg_AcceptedAdvances b + 1;
       bg_Exhausted := bg_Exhausted b; bg_LastResponseID := rc_ProviderResponseID record |}]> (budgets r)) /\
  (forall scope d, scope <> cursor_scope record -> history r' !! (scope, d) = history r !! (scope, d)).
Proof.
  unfold accept_cursor. set (scope := cursor_scope record). set (base := base_digest _).
  set (r1 := if is_nil base then r else _).
  assert (Hr1 : r1 = set_history (history r1) r /\
    forall sc d, sc <> scope -> history r1 !! (sc, d) = history r !! (sc, d)).
  { unfold r1, seedProviderCursorHistory. destruct (is_nil base); [by destruct r|].
    destruct (history r !! _); [by destruct r|]. simpl. split; [done|]. intros sc d Hne.
    by rewrite lookup_insert_ne by congruence. }
  clearbody r1. destruct Hr1 as [Hr1 Hh1]. unfold insertProviderCursorHistory.
  assert (Hfin : forall r2 row, r2 = set_history (history r2) r1 ->
    (forall sc d, sc <> scope -> history r2 !! (sc, d) = history r1 !! (sc, d)) ->
    (if negb (base_matches base (default [] (hs_Base row))) ||
        negb (bool_decide (hs_ResponseID row = Some (rc_ProviderResponseID record)))
     then fail "provider cursor history digest mismatch"
     else match incrementProviderCursorBudget scope (rc_ProviderResponseID record) r2 with
     | None => fail "increment provider cursor budget"
     | Some (r3, advances) =>
       if (advances <? 1) || (advances >? MaxProviderCursorAdvances)
       then fail "provider cursor budget increment is invalid" else Ok r3
     end) = Ok r' -> reservations r' = reservations r /\ inbox r' = inbox r /\ rejected r' = rejected r /\
  conflicts r' = conflicts r /\
  (exists b, budgets r !! scope = Some b /\ bg_Exhausted b = false /\
     bg_AcceptedAdvances b < MaxProviderCursorAdvances /\
     budgets r' = <[scope := {| bg_AcceptedAdvances := bg_AcceptedAdvances b + 1;
       bg_Exhausted := bg_Exhausted b; bg_LastResponseID := rc_ProviderResponseID record |}]> (budgets r)) /\
  (forall sc d, sc <> scope -> history r' !! (sc, d) = history r !! (sc, d))).
  { intros r2 row Hr2 Hh2 H. case_if_in H Em; [done|]. unfold incrementProviderCursorBudget in H.
    rewrite Hr2, Hr1 in H. simpl in H. destruct (budgets r !! scope) as [b|] eqn:Eb; [|done].
    case_if_in H Ei; [|done]. case_if_in H Ev; [done|]. injection H as <-. simpl. split_and!; try done.
    - exists b. apply andb_true_iff in Ei as [Ei1 Ei2]. apply negb_true_iff in Ei1. apply Z.ltb_lt in Ei2.
      split_and!; done.
    - intros sc d Hne. rewrite Hh2, Hh1 by done. done. }
  destruct (history r1 !! (scope, candidate)) as [row|] eqn:Ec.
  - case_if_goal Eb; [|done]. apply Hfin; [by destruct r1|done].
  - apply Hfin; [done|]. intros sc d Hne. simpl. by rewrite lookup_insert_ne by congruence.
Qed.

Lemma scope_history_same scope r r' :
  (forall d, history r' !! (scope, d) = history r !! (scope, d)) ->
  scope_history scope r' ≡ₚ scope_history scope r.
Proof.
  intros Heq. apply NoDup_Permutation; [apply NoDup_scope_history..|]. intros [[sc d] row].
  rewrite !elem_of_scope_history. simpl. split; intros [H ->]; split; try done; [by rewrite <- Heq|by rewrite Heq].
Qed.

(** Pruning the scope restores the bound on the history. *)
Lemma prune_ok scope r r' :
  responses_ok r -> reservations r' = reservations r -> inbox r' = inbox r -> rejected r' = rejected r ->
  conflicts r' = conflicts r -> (forall k b, budgets r' !! k = Some b -> budget_ok b) ->
  (forall sc d, sc <> scope -> history r' !! (sc, d) = history r !! (sc, d)) ->
  grows budget_le (budgets r) (budgets r') -> good r (pruneProviderCursorHistory scope r').
Proof.
  intros Hok Hr Hi Hj Hc Hb Hh Hg. split; [|split; simpl; [by rewrite Hr|done]]. apply (same_rows_ok r); try done.
  intros sc. destruct (decide (sc = scope)) as [->|Hne].
  - rewrite prune_scope, length_take. lia.
  - rewrite prune_other by done. rewrite (scope_history_same sc r r'); [apply (ok_history r Hok)|].
    intros d. by apply Hh.
Qed.

Lemma accepted_good record candidate now r r' :
  responses_ok r -> accept_cursor record candidate now r = Ok r' ->
  good r (pruneProviderCursorHistory (cursor_scope record) r').
Proof.
  intros Hok (Hr & Hi & Hj & Hc & (b & Hb & He & Hlt & Hbs) & Hh)%accept_cursor_effect.
  apply prune_ok; try done; rewrite Hbs.
  - intros k b' [[_ <-]|[_ Hk]]%lookup_insert_Some.
    + destruct (ok_budgets r Hok _ _ Hb) as [? _]. split; simpl; [lia|]. by rewrite He.
    + by eapply (ok_budgets r Hok).
  - apply grows_insert; [apply _|]. intros b0. rewrite Hb. intros [= <-]. split; simpl; [lia|done].
Qed.

(** ** The phases that do not touch responses *)

Lemma upsert_lines_responses t c records s s' :
  upsert_lines t c records s = Ok s' -> responses s' = responses s.
Proof.
  revert s. induction records as [|r records IH]; intros s; cbn [upsert_lines]; [by intros [= <-]|].
  intros (s1 & ->%upsert_line_ok & H)%result_bind_ok. by rewrite (IH _ H).
Qed.

Lemma commit_lines_responses record s s' : commit_lines record s = Ok s' -> responses s' = responses s.
Proof.
  unfold commit_lines. case_if_goal E; [|by intros [= <-]].
  intros (rs & _ & (_ & _ & H)%result_bind_ok)%result_bind_ok.
  unfold replaceLineRows in H. apply result_bind_ok in H as (s1 & H & [= <-]). simpl.
  by eapply upsert_lines_responses.
Qed.

Lemma insert_media_responses record locator m j x now s s' :
  insert_media record locator m j x now s = Ok s' -> responses s' = responses s.
Proof. unfold insert_media. intros H. bind_ok H. injection H as <-. reflexivity. Qed.

Lemma project_media_responses record media mids ids n now index s out :
  project_media record media mids ids n now index s = Ok out -> responses out.1 = responses s.
Proof.
  revert n index s. induction media as [|l media IH]; intros n index s; cbn [project_media]; [intros [= <-]; reflexivity|].
  cbv zeta. case_if_goal E; [apply IH|]. case_if_goal Em; [done|]. destruct (ids n) as [m j].
  intros (s1 & H1 & H)%result_bind_ok. rewrite (IH _ _ _ H). by eapply insert_media_responses.
Qed.

Lemma advance_cursor_responses record s s' : advance_cursor record s = Ok s' -> responses s' = responses s.
Proof.
  unfold advance_cursor. case_if_goal E1; [by intros [= <-]|]. case_if_goal E2; [done|]. by intros [= <-].
Qed.

Lemma bind_responses t c p tmp pos d s s' :
  bind_outbound_identity t c p tmp pos d s = Ok s' -> responses s' = responses s.
Proof.
  unfold bind_outbound_identity. destruct (unbound_at _ _ _ _ _ _) as [|m [|]]; try done. by intros [= <-].
Qed.

Lemma poison_effect record reason ids now s s' out :
  poisonCursorEnvelope record reason ids now s = Ok (s', out) ->
  out = CommitPoisoned /\ finalizeProviderPoison (record_key record) reason now (responses s) = Ok (responses s', true).
Proof.
  unfold poisonCursorEnvelope. intros ([r1 b] & Hf & H)%result_bind_ok.
  cbn [snd fst] in H. destruct b; cbn [negb] in H; [|done]. cbv zeta in H.
  apply result_bind_ok in H as (body & _ & H). apply result_bind_ok in H as (db1 & _ & H).
  apply result_bind_ok in H as (db2 & _ & [= <- <-]). done.
Qed.

(** Attachments leave the responses alone, or poison the envelope. *)
Lemma resolve_responses record media ids now index s s' index' out :
  resolve_attachments record media ids now index s = Ok (s', (index', out)) ->
  match out with
  | None => responses s' = responses s
  | Some o => o = CommitPoisoned /\
      finalizeProviderPoison (record_key record) "media_identity_conflict" now (responses s) = Ok (responses s', true)
  end.
Proof.
  revert index s. induction media as [|l media IH]; intros index s; cbn [resolve_attachments].
  { by intros [= <- <- <-]. }
  cbv zeta. destruct (lock_existing_attachment _ _ _ _ _ _) as [a|]; [|apply IH].
  case_if_goal E1; [apply IH|]. case_if_goal E2.
  - intros (s1 & H1 & H)%result_bind_ok. apply IH in H. by rewrite (bind_responses _ _ _ _ _ _ _ _ H1) in H.
  - intros ([s1 o] & H1 & [= <- <- <-])%result_bind_ok. by eapply poison_effect.
Qed.

(** Everything after the cursor phase: nothing, or one finalised poison. *)
Lemma commit_projection_responses record ids now s s' out :
  commit_projection record ids now s = Ok (s', out) ->
  (responses s' = responses s /\ out = (if rc_Poisoned record then CommitPoisoned else CommitInserted)) \/
  (out = CommitPoisoned /\
   finalizeProviderPoison (record_key record) "media_identity_conflict" now (responses s) = Ok (responses s', true)).
Proof.
  unfold commit_projection. intros ([s1 [index poisoned]] & H1 & H)%result_bind_ok.
  apply resolve_responses in H1. destruct poisoned as [o|].
  - injection H as <- <-. right. done.
  - left. apply result_bind_ok in H as (db2 & _ & H). apply result_bind_ok in H as (rec & _ & H).
    apply result_bind_ok in H as (med & Hm & H). apply result_bind_ok in H as (db5 & _ & H).
    apply result_bind_ok in H as (s6 & Ha & [= <- <-]). split; [|done].
    rewrite (advance_cursor_responses _ _ _ Ha). simpl. rewrite (project_media_responses _ _ _ _ _ _ _ _ _ Hm).
    by simpl.
Qed.

(** The cursor phase: unchanged rows, or a poisoned envelope. *)
Lemma commit_cursor_good record adv ids now s s' out :
  responses_ok (responses s) -> commit_cursor record adv ids now s = Ok (s', out) ->
  good (responses s) (responses s') /\
  match out with
  | None => reservations (responses s') = reservations (responses s) /\ inbox (responses s') = inbox (responses s) /\
            rejected (responses s') = rejected (responses s)
  | Some o => o = CommitPoisoned /\ exists r1 reason, reservations r1 = reservations (responses s) /\
      inbox r1 = inbox (responses s) /\ rejected r1 = rejected (responses s) /\ responses_ok r1 /\
      finalizeProviderPoison (record_key record) reason now r1 = Ok (responses s', true)
  end.
Proof.
  intros Hok. unfold commit_cursor. case_if_goal E; [intros [= <- <-]; done|].
  set (scope := cursor_scope record). destruct (history (responses s) !! _) as [row|].
  - case_if_goal Eb.
    + intros [= <- <-]. simpl. split; [|done]. apply prune_ok; try done. apply (ok_budgets _ Hok).
    + intros ([s1 o] & H & [= <- <-])%result_bind_ok. apply poison_effect in H as [-> Hf].
      split; [by eapply finalizeProviderPoison_good|]. split; [done|]. by eexists _, _.
  - case_if_goal Ea.
    + destruct (exhaustProviderCursorBudget _ _ _) as [r1|] eqn:Ex; [|done].
      intros ([s1 o] & H & [= <- <-])%result_bind_ok. apply poison_effect in H as [-> Hf].
      cbn [responses set_responses] in Hf.
      pose proof (exhaustProviderCursorBudget_good _ _ _ _ Hok Ex) as [Hok1 He1].
      split; [eapply good_trans; [by split|by eapply finalizeProviderPoison_good]|]. split; [done|].
      exists r1, "provider_cursor_budget_exhausted".
      unfold exhaustProviderCursorBudget in Ex. destruct (budgets _ !! _); [|done]. case_if_in Ex Eqx; [|done].
      injection Ex as <-. done.
    + intros (r1 & Ha & [= <- <-])%result_bind_ok. simpl.
      split; [by eapply accepted_good|]. by apply accept_cursor_effect in Ha as (? & ? & ? & _).
Qed.

(** ** The transaction *)

Lemma lock_cursor_budget_good record r r1 b :
  responses_ok r -> lock_cursor_budget record r = Ok (r1, b) ->
  good r r1 /\ reservations r1 = reservations r /\ inbox r1 = inbox r /\ rejected r1 = rejected r /\
  conflicts r1 = conflicts r.
Proof.
  intros Hok. unfold lock_cursor_budget. case_if_goal E; [intros [= <- <-]; done|].
  intros (r2 & He & H)%result_bind_ok. destruct (budgets r2 !! _) as [bg|]; [|done]. case_if_in H Ec; [done|].
  injection H as <- <-. split; [by eapply ensureProviderCursorBudget_good|].
  unfold ensureProviderCursorBudget in He. apply result_bind_ok in He as (_ & _ & He).
  destruct (budgets r !! _); by injection He as <-.
Qed.

Lemma commit_existing_good record ex ids now r r' out :
  responses_ok r -> commit_existing record ex ids now r = Ok (r', out) -> good r r'.
Proof.
  intros Hok. unfold commit_existing. case_if_goal Ed.
  - case_if_goal Ew; intros [= <- _]; [done|]. case_if_goal Er; [by apply reopenProviderACK_good|done].
  - intros (r1 & Hc & H)%result_bind_ok. pose proof (insertProviderInboxConflict_good _ _ _ _ _ Hok Hc) as Hg.
    case_if_in H Ep; [|by injection H as <- _].
    apply result_bind_ok in H as ([r2 b] & Hf & [= <- _]). eapply good_trans; [done|]. simpl.
    eapply finalizeProviderPoison_good; [apply Hg|done].
Qed.

Lemma commit_new_good record adv ids now s s' out :
  responses_ok (responses s) -> 1 <= blen (rc_Raw record) <= 4194304 ->
  commit_new record adv ids now s = Ok (s', out) -> good (responses s) (responses s').
Proof.
  intros Hok Hraw. unfold commit_new. intros ([r1 b] & Hi & H)%result_bind_ok.
  cbn [snd fst] in H. destruct b; cbn [negb] in H; [|done]. pose proof (insertProviderInbox_good _ _ _ _ _ Hok Hraw Hi) as Hg1.
  apply result_bind_ok in H as (s1 & Hl%commit_lines_responses & H). simpl in Hl.
  apply result_bind_ok in H as ([s2 o] & Hc & H). rewrite <- Hl in Hg1.
  apply commit_cursor_good in Hc as [Hg2 _]; [|apply Hg1]. simpl in H. destruct o as [o|].
  - injection H as <- _. by eapply good_trans.
  - eapply good_trans; [done|]. eapply good_trans; [done|].
    apply commit_projection_responses in H as [[-> _]|[_ Hf]]; [split; [apply Hg2|done]|].
    eapply finalizeProviderPoison_good; [apply Hg2|done].
Qed.

(** The ways a transaction goes on once the budget is locked: it meets a known
    response, is rejected by an exhausted scope, or is new. *)
Definition committed_from (record : EnvelopeRecord) (ids : CommitIDs) (now adv : Z) (exhausted : bool)
    (r1 : Responses) (s s' : IngressDb) (out : CommitResult) : Prop :=
  (exists ex r2, getProviderInbox (record_key record) r1 = Some ex /\
     commit_existing record ex ids now r1 = Ok (r2, out) /\ s' = set_responses r2 s) \/
  (getProviderInbox (record_key record) r1 = None /\ exhausted = true /\
     cursor_candidate (rc_Projection record) <> [] /\
     exists r2, commit_rejected record r1 = Ok (r2, out) /\ s' = set_responses r2 s) \/
  (getProviderInbox (record_key record) r1 = None /\
     (cursor_candidate (rc_Projection record) <> [] -> exhausted = false) /\
     commit_new record adv ids now (set_responses r1 s) = Ok (s', out)).

(** Inverting a committed transaction: it had the lease. *)
Lemma commit_transaction_cases record ids now s s' out :
  commit_transaction record ids now s = Ok (s', out) ->
  owned_lease (base s) (rc_TenantID record) (rc_ConnectionID record) (rc_OwnerID record) (rc_FencingToken record) now = true /\
  exists r1 adv exhausted, lock_cursor_budget record (responses s) = Ok (r1, (adv, exhausted)) /\
    committed_from record ids now adv exhausted r1 s s' out.
Proof.
  unfold commit_transaction. case_if_goal El; [done|]. apply negb_false_iff in El.
  intros ([r1 [adv exh]] & Hb & H)%result_bind_ok. split; [done|]. exists r1, adv, exh. split; [done|].
  unfold committed_from. destruct (getProviderInbox _ _) as [ex|].
  - apply result_bind_ok in H as ([r2 o] & He & [= <- <-]). left. by exists ex, r2.
  - right. case_if_in H Ex.
    + left. apply andb_true_iff in Ex as [Ec Ex]. apply negb_true_iff, is_nil_false in Ec.
      apply result_bind_ok in H as ([r2 o] & He & [= <- <-]). eauto 10.
    + right. split_and!; [done| |done]. intros Hc. apply is_nil_false in Hc. rewrite Hc in Ex. done.
Qed.

Lemma committed_from_good record ids now adv exhausted r1 s s' out :
  responses_ok r1 -> 1 <= blen (rc_Raw record) <= 4194304 ->
  committed_from record ids now adv exhausted r1 s s' out -> good r1 (responses s').
Proof.
  intros Hok Hraw [(ex & r2 & _ & Hc & ->)|[(_ & _ & _ & r2 & Hc & ->)|(_ & _ & Hc)]].
  - by eapply commit_existing_good.
  - unfold commit_rejected in Hc. apply result_bind_ok in Hc as ([r3 [[[d cf] n]|]] & Hu & Hc); [|done].
    injection Hc as <- _. by eapply upsertRejected_good.
  - by eapply (commit_new_good _ _ _ _ (set_responses r1 s)) in Hc.
Qed.

Lemma commit_transaction_good record ids now s s' out :
  responses_ok (responses s) -> 1 <= blen (rc_Raw record) <= 4194304 ->
  commit_transaction record ids now s = Ok (s', out) -> good (responses s) (responses s').
Proof.
  intros Hok Hraw (_ & r1 & adv & exh & Hb & H)%commit_transaction_cases.
  apply lock_cursor_budget_good in Hb as [Hg _]; [|done]. eapply good_trans; [exact Hg|].
  eapply committed_from_good; [apply Hg|done|exact H].
Qed.

Lemma canonical_record_spec um mc record record' :
  canonical_record um mc record = Some record' ->
  commit_invalid record = false /\ rc_TenantID record' = rc_TenantID record /\
  record_key record' = record_key record /\ rc_Digest record' = rc_Digest record /\
  rc_Raw record' = rc_Raw record /\ rc_Poisoned record' = rc_Poisoned record /\
  rc_ACKWithheld record' = rc_ACKWithheld record /\ rc_Raw record <> [] /\ 1 <= blen (rc_Raw record) <= 4194304.
Proof.
  unfold canonical_record. case_if_goal E; [done|].
  destruct (canonicalizeProjectionCursors _ _ _) as [p|]; [|done]. case_if_goal Ev; [|done]. intros [= <-].
  split; [done|]. unfold commit_invalid in E. repeat (apply orb_false_iff in E as [E ?]).
  match goal with H : is_nil (rc_Raw record) = false |- _ => apply is_nil_false in H; rename H into Hraw end.
  split_and!; try done; [destruct (rc_Raw record); [done|unfold blen; simpl; lia]|].
  match goal with H : (blen (rc_Raw record) >? _) = false |- _ => rewrite Z.gtb_ltb in H; apply Z.ltb_ge in H; exact H end.
Qed.

(** The commit of an envelope keeps the invariant, whatever it is given. *)
Lemma CommitEnvelope_good um mc record ids now s :
  responses_ok (responses s) ->
  good (responses s) (responses (Repository_CommitEnvelope um mc record ids now s).1).
Proof.
  intros Hok. unfold Repository_CommitEnvelope. destruct (canonical_record um mc record) as [rec|] eqn:E; [|done].
  destruct (canonical_record_spec _ _ _ _ E) as (_ & _ & _ & _ & Hr & _ & _ & _ & Hlen).
  destruct (inTenant _ _ s) as [s' r] eqn:Et. simpl.
  apply inTenant_cases in Et as [[-> _]|(v & _ & H)]; [done|].
  eapply commit_transaction_good; [done| |exact H]. by rewrite Hr.
Qed.

(** ** Runs *)

(** One operation of any replica on the ingress tables. The scans of the
    connections in [scanned] may end, which clears their cursor budgets and
    history; [step_other] is every other component, which does not touch
    responses. *)
Inductive ingress_step (scanned : string -> string -> Prop) : IngressDb -> IngressDb -> Prop :=
| step_commit um mc record ids now s :
    ingress_step scanned s (Repository_CommitEnvelope um mc record ids now s).1
| step_list t c owner token limit now s :
    ingress_step scanned s (ListPendingProviderACKsFenced t c owner token limit now s).1
| step_mark t c owner token ids now s :
    ingress_step scanned s (MarkProviderACKedFenced t c owner token ids now s).1
| step_coordinate t c owner token ttl ids send now s :
    ingress_step scanned s (CoordinateProviderACKsFenced t c owner token ttl ids send now s).1.1
| step_scan_end t c s :
    scanned t c -> ingress_step scanned s (set_responses (clear_cursor_scopes t c (responses s)) s)
| step_other b p s : ingress_step scanned s {| base := b; responses := responses s; projected := p |}.

Lemma list_pending_db t c owner token limit now s :
  (ListPendingProviderACKsFenced t c owner token limit now s).1 = s.
Proof.
  unfold ListPendingProviderACKsFenced. case_if_goal E; [done|].
  destruct (inTenant _ _ s) as [s' r] eqn:Et. apply inTenant_cases in Et as [[-> _]|(v & _ & H)]; [done|].
  cbv zeta in H. case_if_in H E1; [done|]. case_if_in H E2; [|done]. injection H as H _. simpl. congruence.
Qed.

Lemma mark_good t c owner token ids now s :
  responses_ok (responses s) -> good (responses s) (responses (MarkProviderACKedFenced t c owner token ids now s).1).
Proof.
  intros Hok. unfold MarkProviderACKedFenced. case_if_goal E; [done|].
  destruct (inTenant _ _ s) as [s' r] eqn:Et. simpl. apply inTenant_cases in Et as [[-> _]|(v & _ & H)]; [done|].
  case_if_in H E1; injection H as <- _; [by apply mark_acked_good|done].
Qed.

Lemma coordinate_good t c owner token ttl ids send now s :
  responses_ok (responses s) ->
  good (responses s) (responses (CoordinateProviderACKsFenced t c owner token ttl ids send now s).1.1).
Proof.
  intros Hok. unfold CoordinateProviderACKsFenced. case_if_goal E; [done|]. unfold coordinate. cbv zeta.
  case_if_goal E1; [done|]. case_if_goal E2; [done|]. case_if_goal E3; [done|].
  case_if_goal E4; [by apply mark_acked_good|done].
Qed.

(** What a run keeps: the invariant, the reservations, and the budgets of the
    connections whose scan does not end. *)
Definition keeps (scanned : string -> string -> Prop) (r r' : Responses) : Prop :=
  responses_ok r' /\ grows reservation_le (reservations r) (reservations r') /\
  forall k b, budgets r !! k = Some b -> ~ scanned k.1.1 k.1.2 -> exists b', budgets r' !! k = Some b' /\ budget_le b b'.

Lemma good_keeps scanned r r' : good r r' -> keeps scanned r r'.
Proof. intros [Hok [Hr Hb]]. split_and!; [done..|]. intros k b Hk _. by apply Hb. Qed.

Lemma keeps_trans scanned r1 r2 r3 : keeps scanned r1 r2 -> keeps scanned r2 r3 -> keeps scanned r1 r3.
Proof.
  intros (_ & R1 & B1) (Hok & R2 & B2). split_and!; [done|by transitivity (reservations r2)|].
  intros k b Hk Hn. destruct (B1 _ _ Hk Hn) as (b2 & Hk2 & Hle2). destruct (B2 _ _ Hk2 Hn) as (b3 & Hk3 & Hle3).
  exists b3. split; [done|]. by transitivity b2.
Qed.

Lemma clear_scope_history t c scope r :
  (length (scope_history scope (clear_cursor_scopes t c r)) <= length (scope_history scope r))%nat.
Proof.
  apply submseteq_length, NoDup_submseteq; [apply NoDup_scope_history|]. intros [q row].
  rewrite !elem_of_scope_history. simpl. rewrite map_lookup_filter_Some. tauto.
Qed.

Lemma clear_keeps (scanned : string -> string -> Prop) t c r :
  scanned t c -> responses_ok r -> keeps scanned r (clear_cursor_scopes t c r).
Proof.
  intros Hs Hok. split_and!; [|done|].
  - apply (same_rows_ok r); try done.
    + intros k b. simpl. rewrite map_lookup_filter_Some. intros [Hk _]. by eapply (ok_budgets r Hok).
    + intros scope. pose proof (clear_scope_history t c scope r). pose proof (ok_history r Hok scope). lia.
  - intros k b Hk Hn. exists b. simpl. rewrite map_lookup_filter_Some. split_and!; [done| |done].
    apply not_true_iff_false. intros [-> ->]%same_connection_spec. done.
Qed.

Lemma ingress_step_keeps scanned s s' :
  responses_ok (responses s) -> ingress_step scanned s s' -> keeps scanned (responses s) (responses s').
Proof.
  intros Hok. destruct 1; [..|by apply clear_keeps|by apply good_keeps]; apply good_keeps.
  - by apply CommitEnvelope_good.
  - by rewrite list_pending_db.
  - by apply mark_good.
  - by apply coordinate_good.
Qed.

Lemma ingress_run_keeps scanned s s' :
  responses_ok (responses s) -> rtc (ingress_step scanned) s s' -> keeps scanned (responses s) (responses s').
Proof.
  intros Hok. induction 1 as [s|s1 s2 s3 Hstep _ IH]; [by apply good_keeps|].
  pose proof (ingress_step_keeps _ _ _ Hok Hstep) as Hg. eapply keeps_trans; [exact Hg|]. apply IH, Hg.
Qed.

(** Any scan may end. *)
Definition any_scan (t c : string) : Prop := True.

(** C16. The response tables are well formed after every run of commits and
    acknowledgements, interleaved with anything the other components do, from
    the empty tables: each response identifier has either no row at all or one
    reservation and exactly one row, in the family the reservation names, with
    the reservation's digest; a conflicted response is never pending; no
    connection keeps more than 256 poisoned envelopes or 32 MiB of them, nor
    more than 256 rejected responses; no scope advances more than 256 times or
    remembers more than 64 cursors. *)
Theorem responses_well_formed (s s' : IngressDb)
  (Hstart : responses s = no_responses) (Hrun : rtc (ingress_step any_scan) s s') : responses_ok (responses s').
Proof. eapply ingress_run_keeps; [|exact Hrun]. rewrite Hstart. apply no_responses_ok. Qed.

(** ** Conflicts are final *)

Lemma conflicted_not_ackable r k : responses_ok r -> conflicted_slot k r -> ackable r k = false.
Proof.
  intros Hok (rs & Hr & Hc). apply not_true_iff_false. unfold ackable. rewrite orb_true_iff.
  rewrite ackable_inbox_spec, ackable_rejected_spec.
  intros [(row & rs' & _ & Hr' & _ & _ & Hn)|(row & rs' & _ & Hr' & _ & _ & _ & Hn)]; congruence.
Qed.

Lemma grows_conflicted r r' k : grows reservation_le (reservations r) (reservations r') -> conflicted_slot k r -> conflicted_slot k r'.
Proof.
  intros Hev (rs & Hr & Hc). destruct (Hev _ _ Hr) as (rs' & Hr' & (_ & Hle & _)). exists rs'. eauto.
Qed.

Lemma commit_existing_conflict record ex ids now r r' :
  responses_ok r -> getProviderInbox (record_key record) r = Some ex ->
  commit_existing record ex ids now r = Ok (r', CommitConflict) -> conflicted_slot (record_key record) r'.
Proof.
  intros Hok Hex. unfold commit_existing. case_if_goal Ed; [case_if_goal Ew; [done|]; by destruct (ex_Poisoned ex)|].
  intros (r1 & Hc & H)%result_bind_ok.
  destruct (insertProviderInboxConflict_ok _ _ _ _ _ Hok Hc) as [Hok1 Hslot].
  assert (Hs : conflicted_slot (record_key record) r1).
  { apply Hslot. unfold getProviderInbox in Hex. by destruct (reservations r !! _). }
  case_if_in H Ep; [|injection H as H; by subst].
  apply result_bind_ok in H as ([r2 b] & Hf & H). injection H as H. subst r'.
  eapply grows_conflicted; [|exact Hs]. by apply (finalizeProviderPoison_good _ _ _ _ _ _ Hok1 Hf).
Qed.

Lemma commit_new_result record adv ids now s s' out :
  commit_new record adv ids now s = Ok (s', out) -> out = CommitPoisoned \/ out = CommitInserted.
Proof.
  unfold commit_new. intros ([r1 b] & _ & H)%result_bind_ok. cbn [snd fst] in H. destruct b; cbn [negb] in H; [|done].
  apply result_bind_ok in H as (s1 & _ & H). apply result_bind_ok in H as ([s2 o] & Hc & H). cbn [snd fst] in H.
  destruct o as [o|].
  - injection H as <- <-. left. unfold commit_cursor in Hc. case_if_in Hc E; [done|].
    destruct (history _ !! _).
    + case_if_in Hc Eb; [done|]. apply result_bind_ok in Hc as ([s3 o'] & Hp & [= _ <-]).
      by apply poison_effect in Hp as [-> _].
    + case_if_in Hc Ea.
      * destruct (exhaustProviderCursorBudget _ _ _); [|done].
        apply result_bind_ok in Hc as ([s3 o'] & Hp & [= _ <-]). by apply poison_effect in Hp as [-> _].
      * by apply result_bind_ok in Hc as (r2 & _ & [= _ ?]).
  - apply commit_projection_responses in H as [[_ ->]|[-> _]]; [|by left].
    destruct (rc_Poisoned record); [by left|by right].
Qed.

Lemma commit_rejected_effect record r r' out :
  responses_ok r -> commit_rejected record r = Ok (r', out) ->
  responses_ok r' /\ exists rs row, reservations r' !! record_key record = Some rs /\
    rejected r' !! record_key record = Some row /\ rs_Disposition rs = InRejected /\
    rj_Digest row = rs_Digest rs /\ rj_Conflicted row = rs_Conflicted rs /\
    rj_ACKPending row = negb (rs_Conflicted rs) /\
    (if rs_Conflicted rs then out = CommitConflict
     else rs_Digest rs = rc_Digest record /\ out ∈ [CommitPoisoned; CommitDuplicatePoisoned]).
Proof.
  intros Hok. unfold commit_rejected. intros ([r1 [[[d cf] n]|]] & Hu & H)%result_bind_ok; [|done].
  destruct (upsertRejected_effect _ _ _ _ _ _ Hok Hu) as (Hok1 & rs & row & Hrs & Hrow & -> & -> & Hd & Hp & Hcf & Hdig & Hm & _).
  cbn [snd fst] in H. injection H as <- <-. split; [done|]. exists rs, row. rewrite Hcf. split_and!; try done.
  destruct (rj_Conflicted row) eqn:Ecf; [done|]. specialize (Hm eq_refl).
  pose proof (ok_slots _ Hok1 (record_key record)) as Hs. unfold slots, slot_ok in Hs. rewrite Hrs in Hs.
  destruct Hs as (H32 & _). split; [done|]. rewrite Hdig, H32, Hm, bool_decide_eq_true_2 by done. simpl.
  case_if_goal Eo; apply list_elem_of_In; simpl; auto.
Qed.

Lemma CommitEnvelope_conflict um mc record ids now s s' :
  responses_ok (responses s) ->
  Repository_CommitEnvelope um mc record ids now s = (s', Ok CommitConflict) ->
  conflicted_slot (record_key record) (responses s').
Proof.
  intros Hok. unfold Repository_CommitEnvelope. destruct (canonical_record um mc record) as [rec|] eqn:E; [|done].
  destruct (canonical_record_spec _ _ _ _ E) as (_ & _ & Hkey & _).
  intros H%inTenant_ok. apply commit_transaction_cases in H as (_ & r1 & adv & exh & Hb & H).
  apply lock_cursor_budget_good in Hb as [[Hok1 _] _]; [|done]. rewrite <- Hkey.
  destruct H as [(ex & r2 & Hex & Hc & ->)|[(_ & _ & _ & r2 & Hc & ->)|(_ & _ & Hc)]].
  - by eapply commit_existing_conflict.
  - apply commit_rejected_effect in Hc as (_ & rs & row & Hrs & _ & _ & _ & _ & _ & Hcf); [|done].
    exists rs. split; [done|]. destruct (rs_Conflicted rs); [done|]. destruct Hcf as [_ Hcf]. by apply list_elem_of_In in Hcf as [|[|[]]].
  - by apply commit_new_result in Hc as [|].
Qed.

(** A commit of a conflicted response: an error or another conflict, and nothing
    is projected. *)
Lemma commit_on_conflicted um mc record ids now s s' out :
  responses_ok (responses s) -> conflicted_slot (record_key record) (responses s) ->
  Repository_CommitEnvelope um mc record ids now s = (s', out) ->
  base s' = base s /\ projected s' = projected s /\ ((exists e, out = Err e) \/ out = Ok CommitConflict).
Proof.
  intros Hok (rs & Hrs & Hcf). unfold Repository_CommitEnvelope.
  destruct (canonical_record um mc record) as [rec|] eqn:E; [|intros [= <- <-]; eauto].
  destruct (canonical_record_spec _ _ _ _ E) as (_ & _ & Hkey & _). rewrite <- Hkey in Hrs.
  intros [[-> He]|(v & -> & H)]%inTenant_cases; [by eauto|].
  apply commit_transaction_cases in H as (_ & r1 & adv & exh & Hb & H).
  apply lock_cursor_budget_good in Hb as ([Hok1 _] & Hr & _); [|done].
  destruct H as [(ex & r2 & Hex & _ & _)|[(_ & _ & _ & r2 & Hc & ->)|(_ & _ & Hc)]].
  - unfold getProviderInbox in Hex. by rewrite Hr, Hrs, Hcf in Hex.
  - split_and!; [done..|right]. apply commit_rejected_effect in Hc as Hc'; [|done].
    destruct Hc' as (_ & rs' & row & Hrs' & _ & _ & _ & _ & _ & Hout).
    assert (Hc1 : conflicted_slot (record_key rec) r2).
    { apply (grows_conflicted r1). 2:{ exists rs. by rewrite Hr. }
      unfold commit_rejected in Hc. apply result_bind_ok in Hc as ([r3 [[[d cf] n]|]] & Hu & Hc); [|done].
      injection Hc as <- _. by eapply upsertRejected_good. }
    destruct Hc1 as (rs2 & Hrs2 & Hcf2). rewrite Hrs' in Hrs2. injection Hrs2 as <-. rewrite Hcf2 in Hout. by subst.
  - exfalso. unfold commit_new in Hc. apply result_bind_ok in Hc as ([r2 b] & Hi & Hc).
    apply insertProviderInbox_effect in Hi as [[-> _]|(_ & _ & _ & Hn & _)]; [done|].
    simpl in Hn. rewrite Hr in Hn. congruence.
Qed.

(** ** What is sent and listed *)

Lemma elem_of_admitted r t c ids id : id ∈ admitted r t c ids <-> id ∈ ids /\ ackable r (t, c, id) = true.
Proof. unfold admitted. by rewrite list_elem_of_In, filter_In, <- list_elem_of_In. Qed.

Lemma admitted_twice r t c ids : admitted r t c (admitted r t c ids) = admitted r t c ids.
Proof.
  unfold admitted. induction ids as [|id ids IH]; [done|]. simpl.
  destruct (ackable r (t, c, id)) eqn:E; [|done]. simpl. by rewrite E, IH.
Qed.

Lemma coordinate_sent t c owner token ttl ids send now s sent :
  (CoordinateProviderACKsFenced t c owner token ttl ids send now s).2 = Some sent ->
  sent = admitted (responses s) t c ids /\ sent <> [] /\ valid_batch ids = true /\
  owned_lease (base s) t c owner token now = true.
Proof.
  unfold CoordinateProviderACKsFenced. case_if_goal E; [done|]. apply orb_false_iff in E as [_ E].
  apply negb_false_iff in E. unfold coordinate. cbv zeta. case_if_goal E1; [done|]. apply negb_false_iff in E1.
  case_if_goal E2; [done|]. apply is_nil_false in E2. simpl in *.
  case_if_goal E3; [intros [= <-]; done|]. case_if_goal E4; intros [= <-]; done.
Qed.

Lemma listed_ackable r t c n id : id ∈ list_pending r t c n -> ackable r (t, c, id) = true.
Proof.
  unfold list_pending. rewrite list_elem_of_fmap. intros (p & -> & Hp).
  apply elem_of_take in Hp as (i & Hp & _). apply list_elem_of_lookup_2 in Hp.
  rewrite merge_sort_Permutation in Hp. unfold ackable. apply orb_true_iff.
  apply elem_of_app in Hp as [Hp|Hp]; [left|right];
    apply elem_of_take in Hp as (j & Hp & _); apply list_elem_of_lookup_2 in Hp;
    rewrite merge_sort_Permutation in Hp; apply list_elem_of_fmap in Hp as ([[[t' c'] id'] row] & -> & Hp);
    apply list_elem_of_In, filter_In in Hp as [_ Hf]; apply andb_true_iff in Hf as [Hs Hf];
    apply same_connection_spec in Hs as [-> ->]; exact Hf.
Qed.

(** C15. A response identifier that was seen with two different contents is never
    acknowledged again and never projected again.  Once a commit reports the
    conflict, then after any further operations of any replica: no coordination
    sends the identifier to the provider, no listing offers it, and every later
    commit under it ends in an error or another conflict and leaves messages,
    media, events and cursors as they were. *)
Theorem conflict_is_final (unmarshalCursor : bytes -> option (string * Z)) (marshalCursor : string * Z -> bytes)
  (record : EnvelopeRecord) (ids : CommitIDs) (now : Z) (s0 s1 s2 : IngressDb)
  (Hok : responses_ok (responses s0))
  (Hconflict : Repository_CommitEnvelope unmarshalCursor marshalCursor record ids now s0 = (s1, Ok CommitConflict))
  (Hrun : rtc (ingress_step any_scan) s1 s2) :
  (forall t c owner token ttl batch send now' sent,
     (CoordinateProviderACKsFenced t c owner token ttl batch send now' s2).2 = Some sent ->
     forall id, id ∈ sent -> (t, c, id) <> record_key record) /\
  (forall t c owner token limit now' listed,
     (ListPendingProviderACKsFenced t c owner token limit now' s2).2 = Ok listed ->
     forall id, id ∈ listed -> (t, c, id) <> record_key record) /\
  (forall record' ids' now' s3 out,
     record_key record' = record_key record ->
     Repository_CommitEnvelope unmarshalCursor marshalCursor record' ids' now' s2 = (s3, out) ->
     base s3 = base s2 /\ projected s3 = projected s2 /\ ((exists e, out = Err e) \/ out = Ok CommitConflict)).
Proof.
  pose proof (CommitEnvelope_good unmarshalCursor marshalCursor record ids now s0 Hok) as [Hok1 _].
  rewrite Hconflict in Hok1. simpl in Hok1.
  destruct (ingress_run_keeps _ _ _ Hok1 Hrun) as (Hok2 & Hev & _).
  pose proof (grows_conflicted _ _ _ Hev (CommitEnvelope_conflict _ _ _ _ _ _ _ Hok Hconflict)) as Hc.
  pose proof (conflicted_not_ackable _ _ Hok2 Hc) as Hna. split_and!.
  - intros t c owner token ttl batch send now' sent (-> & _)%coordinate_sent id Hid Heq.
    apply elem_of_admitted in Hid as [_ Ha]. congruence.
  - intros t c owner token limit now' listed H id Hid Heq. unfold ListPendingProviderACKsFenced in H.
    case_if_in H E; [done|]. destruct (inTenant _ _ s2) as [s' r] eqn:Et. simpl in H. subst r.
    apply inTenant_ok in Et. cbv zeta in Et. case_if_in Et E1; [done|]. case_if_in Et E2; [|done].
    injection Et as _ <-. apply listed_ackable in Hid. congruence.
  - intros record' ids' now' s3 out Hk H. eapply commit_on_conflicted; [exact Hok2| |exact H]. by rewrite Hk.
Qed.

(** Coordination is exact.  The provider is called under the live lease, with
    the requested identifiers that are pending and unconflicted, in the order
    requested and without repetition.  When the provider refuses, nothing
    changes; when it accepts, exactly the identifiers it was given stop being
    pending; and the operation never fails between the two. *)
Theorem Coordinate_exact (t c owner : string) (token ttl : Z) (batch : list string) (send : list string -> error)
  (now : Z) (s s' : IngressDb) (result : ACKCoordinationResult) (err : error) (wire : option (list string))
  (Hrun : CoordinateProviderACKsFenced t c owner token ttl batch send now s = (s', (result, err), wire)) :
  match wire with
  | None => responses s' = responses s /\ ac_AdmittedIDs result = []
  | Some sent =>
    owned_lease (base s) t c owner token now = true /\ err = [] /\ ac_AdmittedIDs result = sent /\
    sent = List.filter (fun id => ackable (responses s) (t, c, id)) batch /\ NoDup sent /\ sent <> [] /\
    ac_ProviderError result = send sent /\
    (if is_nil (send sent)
     then forall k, ackable (responses s') k = ackable (responses s) k && negb (requested t c sent k)
     else s' = s)
  end.
Proof.
  destruct wire as [sent|].
  - destruct (coordinate_sent t c owner token ttl batch send now s sent) as (-> & Hne & Hv & Hl); [by rewrite Hrun|].
    assert (Hnd : NoDup (admitted (responses s) t c batch)).
    { unfold valid_batch in Hv. apply andb_true_iff in Hv as [_ Hv]. apply bool_decide_eq_true in Hv.
      by apply NoDup_ListNoDup, List.NoDup_filter, NoDup_ListNoDup. }
    unfold CoordinateProviderACKsFenced in Hrun. case_if_in Hrun E; [done|]. unfold coordinate in Hrun.
    rewrite Hl in Hrun. cbv zeta in Hrun. cbn [negb responses set_base] in Hrun.
    case_if_in Hrun E2; [done|]. case_if_in Hrun E3.
    + injection Hrun as <- <- <-. apply negb_true_iff in E3. rewrite E3. split_and!; done.
    + apply negb_false_iff in E3. rewrite E3. rewrite admitted_twice, Z.eqb_refl in Hrun.
      injection Hrun as <- <- <-. cbn [ac_AdmittedIDs ac_ProviderError]. apply is_nil_true in E3.
      split_and!; try done. intros k. apply mark_acked_ackable.
  - unfold CoordinateProviderACKsFenced in Hrun. case_if_in Hrun E; [by injection Hrun as <- <- _|].
    unfold coordinate in Hrun. cbv zeta in Hrun. case_if_in Hrun E1; [by injection Hrun as <- <- _|].
    case_if_in Hrun E2; [by injection Hrun as <- <- _|]. case_if_in Hrun E3; [done|]. by case_if_in Hrun E4.
Qed.

(** ** What a commit leaves behind *)

(** The response is known under this digest; [pending] and [poisoned] are the
    columns of its row. *)
Definition known (r : Responses) (k : rkey) (digest : bytes) (pending poisoned : bool) : Prop :=
  exists ex, getProviderInbox k r = Some ex /\ ex_Digest ex = digest /\ blen digest = 32 /\
    ex_ACKPending ex = pending /\ ex_Poisoned ex = poisoned.

Lemma known_same r r' k d p q :
  reservations r' = reservations r -> inbox r' = inbox r -> rejected r' = rejected r ->
  known r k d p q -> known r' k d p q.
Proof. intros Hr Hi Hj. unfold known, getProviderInbox. by rewrite Hr, Hi, Hj. Qed.

Lemma finalize_known k reason now r r' d p :
  responses_ok r -> finalizeProviderPoison k reason now r = Ok (r', true) -> known r k d p false ->
  exists p', known r' k d p' true /\ (p = true -> p' = true).
Proof.
  intros Hok Hf (ex & Hex & <- & H32 & <- & Hq). unfold getProviderInbox in Hex.
  destruct (reservations r !! k) as [rs|] eqn:Er; [|done]. destruct (rs_Conflicted rs) eqn:Ec; [done|].
  destruct (rs_Disposition rs) eqn:Ed; [|destruct (rejected r !! k); [|done]; injection Hex as <-; done].
  destruct (inbox r !! k) as [row|] eqn:Ei; [|done]. injection Hex as <-. simpl in *.
  unfold finalizeProviderPoison in Hf. destruct (admit_poison k reason r) as [r1|] eqn:Ea.
  - injection Hf as <-. apply admit_poison_effect in Ea as (row' & Hi & _ & _ & _ & ->). rewrite Ei in Hi. injection Hi as <-.
    exists (ib_ACKPending row). split; [|done]. eexists. unfold getProviderInbox. simpl.
    rewrite Er, Ec, Ed, lookup_insert_eq. split; [done|]. done.
  - apply compact_poison_effect in Hf as [[? _]|(_ & row' & rs' & Hi & Hr & _ & _ & ->)]; [done| |done].
    rewrite Er in Hr. injection Hr as <-. exists true. split; [|done]. eexists. unfold getProviderInbox. simpl.
    rewrite !lookup_insert_eq. simpl. rewrite Ec. split; [done|]. simpl. done.
Qed.

Lemma commit_new_known record adv ids now s s' out :
  responses_ok (responses s) -> 1 <= blen (rc_Raw record) <= 4194304 ->
  commit_new record adv ids now s = Ok (s', out) ->
  (out = CommitInserted /\ known (responses s') (record_key record) (rc_Digest record) (negb (rc_ACKWithheld record)) false) \/
  (out = CommitPoisoned /\ exists p, known (responses s') (record_key record) (rc_Digest record) p true /\
     (rc_ACKWithheld record = false -> p = true)).
Proof.
  intros Hok Hraw H. unfold commit_new in H. apply result_bind_ok in H as ([r1 b] & Hi & H).
  cbn [snd fst] in H. destruct b; cbn [negb] in H; [|done].
  pose proof (insertProviderInbox_good _ _ _ _ _ Hok Hraw Hi) as [Hok1 _].
  assert (Hk1 : known r1 (record_key record) (rc_Digest record) (negb (rc_ACKWithheld record)) (rc_Poisoned record)).
  { apply insertProviderInbox_effect in Hi as [[? _]|(_ & _ & H32 & _ & _ & ->)]; [done|].
    eexists. unfold getProviderInbox. simpl. rewrite !lookup_insert_eq. split; [done|]. done. }
  apply result_bind_ok in H as (s1 & Hl%commit_lines_responses & H). cbn [responses set_responses] in Hl.
  rewrite <- Hl in Hok1, Hk1. apply result_bind_ok in H as ([s2 o] & Hc & H). cbn [snd fst] in H.
  assert (Hpoison : forall r2 reason, responses_ok r2 ->
    known r2 (record_key record) (rc_Digest record) (negb (rc_ACKWithheld record)) (rc_Poisoned record) ->
    finalizeProviderPoison (record_key record) reason now r2 = Ok (responses s', true) ->
    exists p, known (responses s') (record_key record) (rc_Digest record) p true /\ (rc_ACKWithheld record = false -> p = true)).
  { intros r2 reason Hok2 Hk2 Hf. destruct (rc_Poisoned record) eqn:Ep.
    - exists (negb (rc_ACKWithheld record)). split; [|by intros ->]. exfalso.
      destruct Hk2 as (ex & Hex & _ & _ & _ & Hpo). unfold finalizeProviderPoison in Hf.
      unfold getProviderInbox in Hex. destruct (reservations r2 !! _) as [rs|] eqn:Er; [|done].
      destruct (rs_Conflicted rs); [done|].
      assert (Hpr : forall row, inbox r2 !! record_key record = Some row -> ib_Poisoned row = true).
      { intros row Hrow. destruct (slot_inbox _ _ _ Hok2 Hrow) as (rs' & Hrs' & _ & Hd & _).
        rewrite Er in Hrs'. injection Hrs' as <-. rewrite Hd, Hrow in Hex. injection Hex as <-. done. }
      destruct (admit_poison _ _ _) as [r3|] eqn:Ea.
      + apply admit_poison_effect in Ea as (row & Hrow & Hn & _). specialize (Hpr _ Hrow). congruence.
      + apply compact_poison_effect in Hf as [[? _]|(_ & row & rs' & Hrow & _ & Hn & _)]; [done| |done].
        specialize (Hpr _ Hrow). congruence.
    - destruct (finalize_known _ _ _ _ _ _ _ Hok2 Hf Hk2) as (p' & Hk' & Hp'). exists p'. split; [done|].
      intros Hw. apply Hp'. by rewrite Hw. }
  pose proof (commit_cursor_good _ _ _ _ _ _ _ Hok1 Hc) as [[Hok2 _] Hcur]. destruct o as [o|].
  - injection H as -> <-. destruct Hcur as (-> & r2 & reason & Hr & Hii & Hj & Hokr & Hf). right. split; [done|].
    eapply Hpoison; [exact Hokr| |exact Hf]. by eapply known_same.
  - destruct Hcur as (Hr & Hii & Hj). pose proof (known_same _ _ _ _ _ _ Hr Hii Hj Hk1) as Hk2.
    apply commit_projection_responses in H as [[Hrs ->]|[-> Hf]].
    + rewrite Hrs. destruct (rc_Poisoned record); [right|by left]. split; [done|].
      exists (negb (rc_ACKWithheld record)). split; [done|by intros ->].
    + right. split; [done|]. by eapply Hpoison.
Qed.

Lemma reopen_known k r d q :
  responses_ok r -> known r k d false q -> known (reopenProviderACK k r) k d true q.
Proof.
  intros Hok (ex & Hex & <- & H32 & Hp & <-). unfold getProviderInbox in Hex. unfold reopenProviderACK.
  destruct (reservations r !! k) as [rs|] eqn:Er; [|done]. destruct (rs_Conflicted rs) eqn:Ec; [done|].
  pose proof (ok_slots r Hok k) as Hs. unfold slots, slot_ok in Hs. rewrite Er in Hs. destruct Hs as (_ & _ & Hs).
  destruct (rs_Disposition rs) eqn:Ed.
  - destruct (inbox r !! k) as [row|] eqn:Ei; [|done]. injection Hex as <-. eexists. unfold getProviderInbox. simpl.
    rewrite Er, Ec, Ed, lookup_alter_eq, Ei. split; [done|]. done.
  - destruct (rejected r !! k) as [row|] eqn:Ej; [|done]. injection Hex as <-.
    destruct Hs as (_ & _ & row' & [= <-] & _ & _ & Hcf & _). eexists. unfold getProviderInbox. simpl.
    rewrite Er, Ec, Ed, lookup_alter_eq, Ej. simpl. rewrite Hcf, Ec. split; [done|]. done.
Qed.

(** After a commit that is not a conflict the response is known under the
    record's digest, and pending unless its acknowledgement is withheld. *)
Lemma commit_transaction_known record ids now s s' out :
  responses_ok (responses s) -> 1 <= blen (rc_Raw record) <= 4194304 ->
  commit_transaction record ids now s = Ok (s', out) -> out <> CommitConflict ->
  exists p q, known (responses s') (record_key record) (rc_Digest record) p q /\
    (rc_ACKWithheld record = false -> out <> CommitDuplicateACKWithheld -> p = true) /\
    (out = CommitInserted -> q = false /\ p = negb (rc_ACKWithheld record)) /\ (out = CommitPoisoned -> q = true).
Proof.
  intros Hok Hraw H Hout. apply commit_transaction_cases in H as (_ & r1 & adv & exh & Hb & H).
  apply lock_cursor_budget_good in Hb as [[Hok1 _] _]; [|done].
  destruct H as [(ex & r2 & Hex & Hc & ->)|[(_ & _ & _ & r2 & Hc & ->)|(_ & _ & Hc)]].
  - unfold commit_existing in Hc. case_if_in Hc Ed.
    + apply andb_true_iff in Ed as [E32 Ed]. apply Z.eqb_eq in E32. apply bool_decide_eq_true in Ed.
      assert (Hk : known r1 (record_key record) (rc_Digest record) (ex_ACKPending ex) (ex_Poisoned ex)).
      { exists ex. split_and!; try done. by rewrite <- Ed. }
      cbn [responses set_responses]. case_if_in Hc Ew.
      * injection Hc as <- <-. eexists _, _. split_and!; [exact Hk|done..].
      * injection Hc as <- <-. case_if_goal Er.
        -- apply andb_true_iff in Er as [Er _]. apply negb_true_iff in Er. rewrite Er in Hk.
           exists true, (ex_Poisoned ex). split_and!; [by apply reopen_known|done|by destruct (ex_Poisoned ex)|by destruct (ex_Poisoned ex)].
        -- exists (ex_ACKPending ex), (ex_Poisoned ex). split_and!; [done| |by destruct (ex_Poisoned ex)|by destruct (ex_Poisoned ex)].
           intros Hw _. rewrite Hw in Er. by destruct (ex_ACKPending ex).
    + apply result_bind_ok in Hc as (r3 & _ & Hc). case_if_in Hc Ep.
      * apply result_bind_ok in Hc as (r4 & _ & [= _ <-]). done.
      * by injection Hc as _ <-.
  - apply commit_rejected_effect in Hc as (Hok2 & rs & row & Hrs & Hrow & Hd & Hdig & Hcf & Hp & Hif); [|done].
    destruct (rs_Conflicted rs) eqn:Ec; [by subst|]. destruct Hif as [Hm Ho].
    pose proof (ok_slots _ Hok2 (record_key record)) as Hs. unfold slots, slot_ok in Hs. rewrite Hrs in Hs.
    destruct Hs as (H32 & _). exists true, true. split_and!; try done.
    + eexists. cbn [responses set_responses]. unfold getProviderInbox. rewrite Hrs, Ec, Hd, Hrow. split; [done|]. simpl.
      split_and!; [done|congruence|by rewrite Hp|done].
    + intros ->. by apply list_elem_of_In in Ho as [|[|[]]].
  - apply commit_new_known in Hc as [[-> Hk]|(-> & p & Hk & Hp)]; [..|done|done].
    + eexists _, _. split_and!; [exact Hk|by intros ->|done|done].
    + eexists _, _. split_and!; [exact Hk|by intros Hw _; apply Hp|done|done].
Qed.

Lemma known_ackable r k d q : responses_ok r -> known r k d true q -> ackable r k = true.
Proof.
  intros Hok (ex & Hex & _ & _ & Hp & _). unfold getProviderInbox in Hex. unfold ackable.
  apply orb_true_iff. rewrite ackable_inbox_spec, ackable_rejected_spec.
  destruct (reservations r !! k) as [rs|] eqn:Er; [|done]. destruct (rs_Conflicted rs) eqn:Ec; [done|].
  destruct (rs_Disposition rs) eqn:Ed.
  - destruct (inbox r !! k) as [row|] eqn:Ei; [|done]. injection Hex as <-. left. by exists row, rs.
  - destruct (rejected r !! k) as [row|] eqn:Ej; [|done]. injection Hex as <-. right. exists row, rs.
    destruct (slot_rejected _ _ _ Hok Ej) as (rs' & Hrs' & _ & _ & _ & Hcf & _).
    assert (rs' = rs) as -> by congruence. split_and!; try done. congruence.
Qed.

Lemma known_reservation r k d p q :
  known r k d p q -> exists rs, reservations r !! k = Some rs /\ rs_Digest rs = d /\ rs_Conflicted rs = false.
Proof.
  intros (ex & Hex & <- & _). unfold getProviderInbox in Hex.
  destruct (reservations r !! k) as [rs|]; [|done]. destruct (rs_Conflicted rs) eqn:Ec; [done|]. exists rs.
  destruct (rs_Disposition rs); [destruct (inbox r !! k)|destruct (rejected r !! k)]; [|done| |done];
    injection Hex as <-; done.
Qed.

(** ** Durable before acknowledged *)

(** An envelope is eligible for acknowledgement only once it is durable: when
    the ingress service, over the PostgreSQL store, reports an envelope eligible,
    the store holds a reservation for its response identifier with the digest of
    exactly its bytes, not conflicted, and a row that is pending
    acknowledgement. *)
Lemma eligible_is_durable (unmarshalCursor : bytes -> option (string * Z)) (marshalCursor : string * Z -> bytes)
  (s s' : InboxRepository) (envelope : ProviderEnvelope) (now : Z) (result : ProcessResult)
  (Hok : responses_ok (responses (ir_db s)))
  (Hrun : @Process unmarshalCursor marshalCursor InboxRepository (commit_store unmarshalCursor marshalCursor)
            s envelope now = (s', Ok result))
  (Heligible : pr_ACKEligible result = true) :
  let k := (pe_TenantID envelope, pe_ConnectionID envelope, pe_ProviderResponseID envelope) in
  exists rs, reservations (responses (ir_db s')) !! k = Some rs /\ rs_Digest rs = sha256 (pe_Raw envelope) /\
    rs_Conflicted rs = false /\ ackable (responses (ir_db s')) k = true.
Proof.
  cbv zeta. unfold Process in Hrun. revert Hrun. pass_guard E1. pass_guard E2. pass_guard E3.
  set (record := envelope_record unmarshalCursor marshalCursor envelope now).
  assert (Hrec : record_key record = (pe_TenantID envelope, pe_ConnectionID envelope, pe_ProviderResponseID envelope) /\
    rc_Digest record = sha256 (pe_Raw envelope)).
  { unfold record, envelope_record. by case_if_goal Eb. }
  clearbody record. destruct Hrec as [<- <-]. unfold CommitEnvelope. cbn [commit_store].
  destruct (default _ _) as [ids dbnow].
  destruct (Repository_CommitEnvelope _ _ _ _ _ _) as [db out] eqn:Ec. intros Hrun. injection Hrun as <- Hout.
  apply result_bind_ok in Hout as (commit & -> & Hres). cbn [ir_db].
  assert (Hw : rc_ACKWithheld record = false /\ commit <> CommitConflict /\ commit <> CommitDuplicateACKWithheld).
  { destruct commit; try done; injection Hres as <-; simpl in Heligible; try done; apply negb_true_iff in Heligible;
      done. }
  pose proof (CommitEnvelope_good unmarshalCursor marshalCursor record ids dbnow (ir_db s) Hok) as [Hok' _].
  rewrite Ec in Hok'. simpl in Hok'. unfold Repository_CommitEnvelope in Ec.
  destruct (canonical_record _ _ record) as [rec|] eqn:E; [|done].
  destruct (canonical_record_spec _ _ _ _ E) as (_ & _ & Hkey & Hdig & Hraw & _ & Hwh & _ & Hlen).
  apply inTenant_ok in Ec. apply commit_transaction_known in Ec as (p & q & Hk & Hp & _); [|done|by rewrite Hraw|naive_solver].
  rewrite Hkey, Hdig in Hk. destruct (known_reservation _ _ _ _ _ Hk) as (rs & Hrs & Hd & Hc).
  exists rs. split_and!; [done..|]. rewrite Hp in Hk by naive_solver congruence. by eapply known_ackable.
Qed.

(** ** Exact replay *)

Lemma lock_known_budget record r r1 b r' :
  responses_ok r -> lock_cursor_budget record r = Ok (r1, b) -> responses_ok r' -> evolves r1 r' ->
  exists b', lock_cursor_budget record r' = Ok (r', b').
Proof.
  intros Hok. unfold lock_cursor_budget. case_if_goal E; [eauto|]. intros (r2 & He & H)%result_bind_ok Hok' [_ Hev].
  destruct (budgets r2 !! _) as [bg|] eqn:Eb; [|done]. case_if_in H Ec; [done|]. injection H as <- _.
  destruct (Hev _ _ Eb) as (bg' & Hb' & _). destruct (ok_budgets _ Hok' _ _ Hb') as [Hrange _].
  unfold ensureProviderCursorBudget in *. apply result_bind_ok in He as (u & Hu & _). rewrite Hu. cbn [result_bind].
  rewrite Hb'. cbn [result_bind]. rewrite Hb'.
  assert ((bg_AcceptedAdvances bg' <? 0) || (bg_AcceptedAdvances bg' >? MaxProviderCursorAdvances) = false) as ->; [|eauto].
  apply orb_false_iff. rewrite Z.gtb_ltb, !Z.ltb_ge. lia.
Qed.

Lemma set_responses_id s : set_responses (responses s) s = s.
Proof. by destruct s. Qed.

(** Exact replay changes nothing: when a response was committed, newly or as
    poison, committing the very same record again (after a lost reply, by a later
    attempt, with whatever identifiers it draws) under a live lease leaves the
    whole database as it is and reports a duplicate of the same kind. *)
Theorem replay_is_exact (unmarshalCursor : bytes -> option (string * Z)) (marshalCursor : string * Z -> bytes)
  (record : EnvelopeRecord) (ids ids' : CommitIDs) (now now' : Z) (s s' : IngressDb) (out : CommitResult)
  (Hok : responses_ok (responses s))
  (Hfirst : Repository_CommitEnvelope unmarshalCursor marshalCursor record ids now s = (s', Ok out))
  (Hnew : out = CommitInserted \/ out = CommitPoisoned)
  (Hlease : owned_lease (base s') (rc_TenantID record) (rc_ConnectionID record) (rc_OwnerID record)
              (rc_FencingToken record) now' = true) :
  exists again, Repository_CommitEnvelope unmarshalCursor marshalCursor record ids' now' s' = (s', Ok again) /\
    (out = CommitInserted -> again = CommitDuplicate) /\
    (out = CommitPoisoned -> again = CommitDuplicatePoisoned \/ again = CommitDuplicateACKWithheld).
Proof.
  unfold Repository_CommitEnvelope in *. destruct (canonical_record _ _ record) as [rec|] eqn:E; [|done].
  destruct (canonical_record_spec _ _ _ _ E) as (Hinv & Ht & Hkey & Hdig & Hraw & Hpo & Hwh & _ & Hlen).
  pose proof (inTenant_ok _ _ _ _ _ Hfirst) as H.
  assert (Hlen' : 1 <= blen (rc_Raw rec) <= 4194304) by (by rewrite Hraw).
  pose proof (commit_transaction_good _ _ _ _ _ _ Hok Hlen' H) as [Hok' _].
  destruct (commit_transaction_known _ _ _ _ _ _ Hok Hlen' H) as (p & q & Hk & Hp & Hins & Hpois); [naive_solver|].
  pose proof H as (_ & r1 & adv & exh & Hb & Hfrom)%commit_transaction_cases.
  destruct (lock_cursor_budget_good _ _ _ _ Hok Hb) as [[Hok1 _] _].
  pose proof (committed_from_good _ _ _ _ _ _ _ _ _ Hok1 Hlen' Hfrom) as [_ Hev].
  destruct (lock_known_budget _ _ _ _ _ Hok Hb Hok' Hev) as ([adv' exh'] & Hlock).
  assert (Hl : owned_lease (base s') (rc_TenantID rec) (rc_ConnectionID rec) (rc_OwnerID rec) (rc_FencingToken rec) now' = true).
  { unfold canonical_record in E. case_if_in E Ei; [done|]. destruct (canonicalizeProjectionCursors _ _ _); [|done].
    case_if_in E Ev; [|done]. injection E as <-. exact Hlease. }
  destruct Hk as (ex & Hex & Hd & H32 & Hpend & Hq).
  assert (Hrun : forall again, commit_existing rec ex ids' now' (responses s') = Ok (responses s', again) ->
    inTenant (rc_TenantID rec) (commit_transaction rec ids' now') s' = (s', Ok again)).
  { intros again Hce. unfold inTenant. unfold inTenant in Hfirst. case_if_in Hfirst Et; [done|].
    unfold commit_transaction. rewrite Hl. cbn [negb]. rewrite Hlock. cbn [result_bind]. rewrite Hex, Hce.
    cbn [result_bind fst snd]. by rewrite set_responses_id. }
  unfold commit_existing in Hrun. rewrite Hd, H32, Z.eqb_refl, bool_decide_eq_true_2 in Hrun by done. cbn [andb] in Hrun.
  assert (Hno : negb (ex_ACKPending ex) && negb (rc_ACKWithheld rec) = false).
  { rewrite Hpend. destruct (rc_ACKWithheld rec) eqn:Ew; [by rewrite andb_false_r|]. rewrite Hp; [done|done|].
    by destruct Hnew as [->| ->]. }
  rewrite Hno in Hrun. destruct Hnew as [->| ->].
  - destruct (Hins eq_refl) as [-> _]. rewrite Hq, andb_false_r in Hrun. cbn [andb] in Hrun.
    exists CommitDuplicate. split_and!; [by apply Hrun|done|done].
  - rewrite (Hpois eq_refl) in Hq. rewrite Hq in Hrun.
    case_if_in Hrun Ew; eexists; (split_and!; [by apply Hrun|done|auto]).
Qed.

(** ** The cursor breaker *)

(** No raw envelope was added. *)
Definition inbox_within (r r' : Responses) : Prop := forall k, is_Some (inbox r' !! k) -> is_Some (inbox r !! k).

#[export] Instance inbox_within_refl : Reflexive inbox_within.
Proof. by intros r k. Qed.

Lemma finalize_within k reason now r r' b :
  responses_ok r -> finalizeProviderPoison k reason now r = Ok (r', b) -> inbox_within r r'.
Proof.
  intros Hok H. unfold finalizeProviderPoison in H. destruct (admit_poison k reason r) as [r1|] eqn:E.
  - injection H as <- _. apply admit_poison_effect in E as (row & Hi & _ & _ & _ & ->). intros k'. simpl.
    destruct (decide (k' = k)) as [->|]; [by rewrite Hi|]. by rewrite lookup_insert_ne by done.
  - apply compact_poison_effect in H as [[_ ->]|(_ & row & rs & _ & _ & _ & _ & ->)]; [done| |done].
    intros k'. simpl. destruct (decide (k' = k)) as [->|]; [by rewrite lookup_delete_eq; intros []|].
    by rewrite lookup_delete_ne by done.
Qed.

Lemma commit_existing_within record ex ids now r r' out :
  responses_ok r -> commit_existing record ex ids now r = Ok (r', out) -> inbox_within r r'.
Proof.
  intros Hok. unfold commit_existing. case_if_goal Ed.
  - case_if_goal Ew; intros [= <- _]; [done|]. case_if_goal Er; [|done]. intros k. unfold reopenProviderACK.
    destruct (reservations r !! _) as [rs|]; [|done]. destruct (rs_Conflicted rs); [done|].
    destruct (rs_Disposition rs); [|done]. simpl. destruct (decide (k = record_key record)) as [->|Hne].
    + rewrite lookup_alter_eq. by destruct (inbox r !! _).
    + by rewrite lookup_alter_ne by done.
  - intros (r1 & Hc & H)%result_bind_ok.
    assert (Hw : inbox_within r r1).
    { unfold insertProviderInboxConflict in Hc. destruct (reservations r !! _) as [rs|]; [|by injection Hc as <-].
      destruct (rs_Disposition rs); [|injection Hc as <-; by intros k]. apply record_conflict_effect in Hc as (cf & ->).
      intros k. simpl. destruct (decide (k = record_key record)) as [->|Hne].
      - rewrite lookup_alter_eq. by destruct (inbox r !! _).
      - by rewrite lookup_alter_ne by done. }
    pose proof (insertProviderInboxConflict_good _ _ _ _ _ Hok Hc) as [Hok1 _].
    case_if_in H Ep; [|by injection H as <- _]. apply result_bind_ok in H as ([r2 b] & Hf & [= <- _]).
    intros k Hk. apply Hw. by eapply finalize_within in Hf; [apply Hf|].
Qed.

Lemma commit_rejected_within record r r' out : commit_rejected record r = Ok (r', out) -> inbox_within r r'.
Proof.
  unfold commit_rejected. intros ([r1 o] & Hu & H)%result_bind_ok. unfold upsertRejectedProviderResponse in Hu.
  cbv zeta in Hu. destruct o as [[[d cf] n]|]; [|done]. injection H as <- _. case_if_in Hu Ec; [|done].
  apply result_bind_ok in Hu as (_ & _ & Hu). destruct (reservations r !! _) as [rs|]; simpl in Hu.
  - destruct (rs_Disposition rs); [done|]. injection Hu as <- _ _ _. by intros k.
  - injection Hu as <- _ _ _. by intros k.
Qed.

Lemma canonical_cursor_nonempty um mc cursor c' :
  canonical_cursor um mc cursor = Ok c' -> cursor <> [] -> c' <> [].
Proof.
  unfold canonical_cursor. intros H Hne. apply is_nil_false in Hne. rewrite Hne in H.
  unfold CanonicalProviderCursor in H. case_if_in H E; [done|]. destruct (um cursor) as [[id ts]|]; [|done].
  case_if_in H E1; [done|]. cbv zeta in H. case_if_in H E2; [done|]. injection H as <-. intros Hn. rewrite Hn in E2. done.
Qed.

Lemma canonical_candidate um mc record rec :
  canonical_record um mc record = Some rec -> cursor_candidate (rc_Projection record) <> [] ->
  cursor_candidate (rc_Projection rec) <> [] /\ cursor_scope rec = cursor_scope record.
Proof.
  unfold canonical_record. case_if_goal E; [done|].
  destruct (canonicalizeProjectionCursors _ _ _) as [p|] eqn:Ep; [|done]. case_if_goal Ev; [|done]. intros [= <-] Hc.
  unfold canonicalizeProjectionCursors in Ep. apply result_bind_ok in Ep as (cur & H1 & Ep).
  apply result_bind_ok in Ep as (bas & _ & Ep). apply result_bind_ok in Ep as (cand & H3 & [= <-]).
  split; [|done]. unfold cursor_candidate in *. cbn [pj_Cursor pj_CursorCandidate rc_Projection with_projection].
  destruct (pj_CursorCandidate (rc_Projection record)) as [|x xs].
  - injection H3 as <-. cbn [is_nil andb] in *. case_if_in Hc En; [|done].
    pose proof (canonical_cursor_nonempty _ _ _ _ H1 Hc) as Hne. apply is_nil_false in Hne as Hn. by rewrite Hn.
  - cbn [is_nil andb] in Hc. pose proof (canonical_cursor_nonempty _ _ _ _ H3 Hc) as Hne.
    apply is_nil_false in Hne as Hn. by rewrite Hn.
Qed.

(** The cursor breaker is sticky: once a pagination scope of a connection has
    used up its 256 advances and tripped, then until the scan of that connection
    ends, whatever else happens in between and across restarts, a page that
    carries a cursor of that scope is never projected: messages, media, events, lines and cursors stay as they are, no
    raw envelope is added, and the commit does not report an insertion. *)
Theorem exhausted_scope_sealed (unmarshalCursor : bytes -> option (string * Z)) (marshalCursor : string * Z -> bytes)
  (record : EnvelopeRecord) (ids : CommitIDs) (now : Z) (s s' s'' : IngressDb) (b : BudgetRow)
  (out : result CommitResult)
  (Hok : responses_ok (responses s))
  (Hbudget : budgets (responses s) !! cursor_scope record = Some b) (Hexhausted : bg_Exhausted b = true)
  (Hrun : rtc (ingress_step (fun t c => (t, c) <> (rc_TenantID record, rc_ConnectionID record))) s s')
  (Hcursor : cursor_candidate (rc_Projection record) <> [])
  (Hcommit : Repository_CommitEnvelope unmarshalCursor marshalCursor record ids now s' = (s'', out)) :
  base s'' = base s' /\ projected s'' = projected s' /\ inbox_within (responses s') (responses s'') /\
  out <> Ok CommitInserted.
Proof.
  destruct (ingress_run_keeps _ _ _ Hok Hrun) as (Hok' & _ & Hev).
  destruct (Hev _ _ Hbudget ltac:(by intros Hn; apply Hn)) as (b' & Hb' & _ & Hex'). specialize (Hex' Hexhausted).
  unfold Repository_CommitEnvelope in Hcommit. destruct (canonical_record _ _ record) as [rec|] eqn:E.
  2:{ injection Hcommit as <- <-. done. }
  destruct (canonical_candidate _ _ _ _ E Hcursor) as [Hcand Hscope].
  apply inTenant_cases in Hcommit as [[-> [e ->]]|(v & -> & H)]; [done|].
  apply commit_transaction_cases in H as (_ & r1 & adv & exh & Hb & H).
  assert (exh = true) as ->.
  { unfold lock_cursor_budget in Hb. apply is_nil_false in Hcand. rewrite Hcand in Hb.
    apply result_bind_ok in Hb as (r2 & He & Hb). unfold ensureProviderCursorBudget in He.
    apply result_bind_ok in He as (_ & _ & He). rewrite Hscope, Hb' in He. injection He as <-.
    rewrite Hscope, Hb' in Hb. case_if_in Hb Ec; [done|]. by injection Hb as _ _ <-. }
  apply lock_cursor_budget_good in Hb as ([Hok1 _] & Hr & Hi & _); [|done].
  assert (Hw1 : forall r2, inbox_within r1 r2 -> inbox_within (responses s') r2).
  { intros r2 Hw k Hk. specialize (Hw k Hk). by rewrite Hi in Hw. }
  destruct H as [(ex & r2 & _ & Hc & ->)|[(_ & _ & _ & r2 & Hc & ->)|(_ & Hno & Hc)]].
  - split_and!; [done..|by apply Hw1; eapply commit_existing_within|]. intros [= ->].
    unfold commit_existing in Hc. case_if_in Hc Ed.
    + case_if_in Hc Ew; [done|]. by destruct (ex_Poisoned ex).
    + apply result_bind_ok in Hc as (r3 & _ & Hc). case_if_in Hc Ep; [|done].
      by apply result_bind_ok in Hc as (r4 & _ & [= _ ?]).
  - split_and!; [done..|by apply Hw1; eapply commit_rejected_within|]. intros [= ->].
    apply commit_rejected_effect in Hc as (_ & rs & row & _ & _ & _ & _ & _ & _ & Hif); [|done].
    destruct (rs_Conflicted rs); [done|]. destruct Hif as [_ Ho]. by apply list_elem_of_In in Ho as [|[|[]]].
  - by specialize (Hno Hcand).
Qed.

(** ** Concrete commits *)

Lemma pair_result {A B} (p : A * B) b : p.2 = b -> p = (p.1, b).
Proof. destruct p. by intros <-. Qed.

Lemma triple_result {A B C} (p : A * B * C) b c : p.1.2 = b -> p.2 = c -> p = (p.1.1, b, c).
Proof. destruct p as [[? ?] ?]. by intros <- <-. Qed.

Definition example_commit_ids (n : string) : CommitIDs := {|
  cm_conflict := "cf" +:+ n; cm_inbox := "ib" +:+ n; cm_poison_outbox := "po" +:+ n;
  cm_message := fun i => let x := n +:+ "-" +:+ Itoa (Z.of_nat i) in
    {| ri_candidate := "m" +:+ x; ri_status := "s" +:+ x; ri_outbox := "o" +:+ x |};
  cm_media := fun i => let x := n +:+ "-" +:+ Itoa (Z.of_nat i) in ("media" +:+ x, "job" +:+ x);
  cm_event_outbox := fun i => "eo" +:+ n +:+ "-" +:+ Itoa (Z.of_nat i) |}.

Definition leased_ingress : IngressDb := {|
  base := set_leases {[("t1", "c1") := {| ls_Owner := Some "actor-a"; ls_Token := 1; ls_ExpiresAt := 60 * Second |}]}
            sample_db;
  responses := no_responses; projected := no_projection |}.

Definition example_record : EnvelopeRecord :=
  envelope_record no_codec plain_codec example_provider_envelope Second.

Definition with_raw (record : EnvelopeRecord) (raw : bytes) : EnvelopeRecord := {|
  rc_TenantID := rc_TenantID record; rc_ConnectionID := rc_ConnectionID record; rc_OwnerID := rc_OwnerID record;
  rc_FencingToken := rc_FencingToken record; rc_ProviderResponseID := rc_ProviderResponseID record;
  rc_Raw := raw; rc_Digest := sha256 raw; rc_Projection := rc_Projection record; rc_Media := rc_Media record;
  rc_Events := rc_Events record; rc_Poisoned := rc_Poisoned record; rc_PoisonReason := rc_PoisonReason record;
  rc_ACKPending := rc_ACKPending record; rc_ACKWithheld := rc_ACKWithheld record;
  rc_ReceivedAt := rc_ReceivedAt record |}.

Definition first_commit : IngressDb * result CommitResult :=
  Repository_CommitEnvelope no_codec plain_codec example_record (example_commit_ids "1") Second leased_ingress.
Definition committed_once : IngressDb := first_commit.1.

Lemma leased_ingress_ok : responses_ok (responses leased_ingress).
Proof. apply no_responses_ok. Qed.

Lemma committed_once_ok : responses_ok (responses committed_once).
Proof. apply CommitEnvelope_good, leased_ingress_ok. Qed.

Lemma responses_well_formed_witness : responses_ok (responses committed_once).
Proof.
  apply (responses_well_formed leased_ingress committed_once); [reflexivity|].
  apply rtc_once. apply (step_commit _ no_codec plain_codec example_record (example_commit_ids "1") Second leased_ingress).
Defined.

Definition conflicting_record : EnvelopeRecord := with_raw example_record (bytes_of "other bytes").

Definition conflicting_commit : IngressDb * result CommitResult :=
  Repository_CommitEnvelope no_codec plain_codec conflicting_record (example_commit_ids "2") (2 * Second) committed_once.
Definition conflicted_once : IngressDb := conflicting_commit.1.

Lemma conflict_is_final_witness :
  conflicting_commit.2 = Ok CommitConflict /\
  (forall owner token ttl batch send now' sent,
    (CoordinateProviderACKsFenced "t1" "c1" owner token ttl batch send now' conflicted_once).2 = Some sent ->
    forall id, id ∈ sent -> id <> "resp-1").
Proof.
  split; [vm_compute; reflexivity|].
  destruct (conflict_is_final no_codec plain_codec conflicting_record (example_commit_ids "2") (2 * Second)
    committed_once conflicted_once conflicted_once committed_once_ok) as [H _].
  - exact (pair_result conflicting_commit (Ok CommitConflict) ltac:(vm_compute; reflexivity)).
  - apply rtc_refl.
  - intros owner token ttl batch send now' sent Hs id Hid ->. by apply (H _ _ _ _ _ _ _ _ _ Hs _ Hid).
Defined.

Definition coordination : IngressDb * (ACKCoordinationResult * error) * option (list string) :=
  CoordinateProviderACKsFenced "t1" "c1" "actor-a" 1 (30 * Second) ["resp-1"; "resp-2"] (fun _ => []) (2 * Second)
    committed_once.
Definition coordinated_once : IngressDb := coordination.1.1.

Lemma Coordinate_exact_witness : ackable (responses coordinated_once) ("t1", "c1", "resp-1") = false.
Proof.
  destruct (Coordinate_exact "t1" "c1" "actor-a" 1 (30 * Second) ["resp-1"; "resp-2"] (fun _ => []) (2 * Second)
    committed_once coordinated_once {| ac_AdmittedIDs := ["resp-1"]; ac_ProviderError := [] |} [] (Some ["resp-1"]))
    as (_ & _ & _ & _ & _ & _ & _ & H).
  - exact (triple_result coordination (_, _) _ ltac:(vm_compute; reflexivity) ltac:(vm_compute; reflexivity)).
  - change (forall k, ackable (responses coordinated_once) k =
      ackable (responses committed_once) k && negb (requested "t1" "c1" ["resp-1"] k)) in H.
    rewrite H. vm_compute. reflexivity.
Defined.

Definition example_inbox_repository : InboxRepository :=
  {| ir_db := leased_ingress; ir_calls := [(example_commit_ids "1", Second)] |}.

Lemma replay_is_exact_witness :
  exists again, Repository_CommitEnvelope no_codec plain_codec example_record (example_commit_ids "2") (2 * Second)
    committed_once = (committed_once, Ok again).
Proof.
  destruct (replay_is_exact no_codec plain_codec example_record (example_commit_ids "1") (example_commit_ids "2")
    Second (2 * Second) leased_ingress committed_once CommitInserted) as (again & H & _).
  - apply leased_ingress_ok.
  - exact (pair_result first_commit (Ok CommitInserted) ltac:(vm_compute; reflexivity)).
  - left. reflexivity.
  - vm_compute. reflexivity.
  - exists again. exact H.
Defined.

(** A codec that reads every cursor as one item. *)
Definition item_codec : bytes -> option (string * Z) := fun b => Some (string_of b, 1).

Definition paged_projection : Projection := {|
  pj_Conversations := []; pj_Messages := []; pj_Lines := []; pj_LineSnapshot := false; pj_Cursor := [];
  pj_CursorBase := []; pj_CursorCandidate := bytes_of "page-9"; pj_CursorSource := CursorSourceListConversations;
  pj_CursorConversationID := ProviderPageCursorID |}.

Definition exhausted_budget : BudgetRow :=
  {| bg_AcceptedAdvances := 256; bg_Exhausted := true; bg_LastResponseID := "resp-0" |}.

Definition exhausted_ingress : IngressDb :=
  set_responses (set_budgets {[("t1", "c1", ProviderPageCursorID) := exhausted_budget]} no_responses) leased_ingress.

Definition paged_commit : IngressDb * result CommitResult :=
  Repository_CommitEnvelope item_codec plain_codec
    {| rc_TenantID := "t1"; rc_ConnectionID := "c1"; rc_OwnerID := "actor-a"; rc_FencingToken := 1;
       rc_ProviderResponseID := "resp-1"; rc_Raw := bytes_of "raw"; rc_Digest := sha256 (bytes_of "raw");
       rc_Projection := paged_projection; rc_Media := []; rc_Events := []; rc_Poisoned := false;
       rc_PoisonReason := ""; rc_ACKPending := true; rc_ACKWithheld := false; rc_ReceivedAt := Second |}
    (example_commit_ids "1") Second exhausted_ingress.

Lemma exhausted_scope_sealed_witness :
  paged_commit.2 = Ok CommitPoisoned /\ base paged_commit.1 = base exhausted_ingress.
Proof.
  split; [vm_compute; reflexivity|].
  apply (exhausted_scope_sealed item_codec plain_codec
    {| rc_TenantID := "t1"; rc_ConnectionID := "c1"; rc_OwnerID := "actor-a"; rc_FencingToken := 1;
       rc_ProviderResponseID := "resp-1"; rc_Raw := bytes_of "raw"; rc_Digest := sha256 (bytes_of "raw");
       rc_Projection := paged_projection; rc_Media := []; rc_Events := []; rc_Poisoned := false;
       rc_PoisonReason := ""; rc_ACKPending := true; rc_ACKWithheld := false; rc_ReceivedAt := Second |}
    (example_commit_ids "1") Second exhausted_ingress exhausted_ingress paged_commit.1 exhausted_budget paged_commit.2).
  - apply (insert_budget_ok ("t1", "c1", ProviderPageCursorID) exhausted_budget no_responses no_responses_ok).
    split; [simpl; unfold MaxProviderCursorAdvances; lia|done].
  - vm_compute. reflexivity.
  - reflexivity.
  - apply rtc_refl.
  - discriminate.
  - apply surjective_pairing.
Defined.
