(* ===== verification/Incoming.v ===== *)
(** * Provider frames (pkg/libgm/event_handler.go)

    What the protocol client makes of one frame of the long poll: the parts of
    the protobuf messages the gateway reads, the decoding of a frame into its
    authenticated payload, and the tables that say which response may answer
    which request.  The protobuf codec and the session cipher are parameters.
    An absent message is [None]; a getter of an absent message gives the zero
    value. *)

From S2P Require Import Prelude GoText Crypto Domain Ingress.

(** ** Numbers of the protocol (gmproto/rpc.proto) *)

Definition UNSPECIFIED : Z := 0.
Definition LIST_CONVERSATIONS : Z := 1.
Definition LIST_MESSAGES : Z := 2.
Definition SEND_MESSAGE : Z := 3.
Definition LIST_CONTACTS : Z := 6.
Definition GET_OR_CREATE_CONVERSATION : Z := 9.
Definition MESSAGE_READ : Z := 10.
Definition UPDATE_CONVERSATION : Z := 15.
Definition GET_UPDATES : Z := 16.
Definition GET_CONVERSATION_TYPE : Z := 21.
Definition NOTIFY_DITTO_ACTIVITY : Z := 22.
Definition DELETE_MESSAGE : Z := 23.
Definition LIST_TOP_CONTACTS : Z := 28.
Definition GET_CONTACTS_THUMBNAIL : Z := 29.
Definition IS_BUGLE_DEFAULT : Z := 31.
Definition GET_FULL_SIZE_IMAGE : Z := 36.
Definition GET_PARTICIPANTS_THUMBNAIL : Z := 37.
Definition SEND_REACTION : Z := 38.
Definition GET_CONVERSATION : Z := 43.
Definition CREATE_GAIA_PAIRING_CLIENT_INIT : Z := 44.
Definition CREATE_GAIA_PAIRING_CLIENT_FINISHED : Z := 45.

Definition BugleRoute_GaiaEvent : Z := 7.
Definition BugleRoute_PairEvent : Z := 14.
Definition BugleRoute_DataEvent : Z := 19.

(** ** Messages *)

Module Gm.

(** The known fields and the bytes of the unknown ones. *)
Record Cursor := { LastItemID : string; LastItemTimestamp : Z; unknown : bytes }.

Record Conversation := { ConversationID : string; DefaultOutgoingID : string; IsGroupChat : bool }.

Record MediaContent := {
  MediaID : string;
  MimeType : string;
  MediaName : string;
  Size : Z;
  DecryptionKey : bytes;
  ThumbnailDecryptionKey : bytes
}.

(** The oneof of a [MessageInfo]. *)
Inductive MessageInfo := Content (text : option string) | Media (media : option MediaContent) | NoData.

Record Participant := { FormattedNumber : string; ID_Number : string }.

Record Message := {
  MessageID : string;
  TmpID : string;
  Message_ConversationID : string;
  Infos : list (option MessageInfo);
  Status : Z;
  Timestamp : Z;
  Type_ : Z;
  SenderParticipant : option Participant
}.

Record SIMCard := {
  SIMParticipant_ID : string;
  InternationalPhoneNumber : string;
  FormattedPhoneNumber : string;
  CarrierName : string;
  ColorHex : string;
  SIMNumber : Z;
  SIMPayload_Two : Z;
  RCSChats_Enabled : bool
}.

Record RPCMessageData := {
  SessionID : string;
  Action : Z;
  UnencryptedData : option bytes;
  EncryptedData : option bytes;
  EncryptedData2 : option bytes
}.

Record IncomingRPCMessage := { ResponseID : string; BugleRoute : Z; MessageData : bytes }.

(** The oneof of [UpdateEvents]. *)
Inductive UpdateEvent :=
| ConversationEvent (data : option (list (option Conversation)))
| MessageEvent (data : option (list (option Message)))
| SettingsEvent (simCards : option (list (option SIMCard)))
| UserAlertEvent
| TypingEvent
| BrowserPresenceCheckEvent
| AccountChangeEvent (account : string)
| UnknownEvent.

(** The response messages of the protocol by their Go type. *)
Inductive ResponseType :=
| IsBugleDefaultResponse | UpdateEventsType | ListConversationsType | NotifyDittoActivityResponse
| GetConversationTypeResponse | GetConversationResponse | ListMessagesType | SendMessageResponse
| SendReactionResponse | DeleteMessageResponse | GetThumbnailResponse | ListContactsResponse
| ListTopContactsResponse | GetOrCreateConversationResponse | UpdateConversationResponse
| GetFullSizeImageResponse.

#[global] Instance ResponseType_eq_dec : EqDecision ResponseType.
Proof. solve_decision. Defined.

(** A decoded response; only the contents the gateway reads are kept. *)
Inductive Response :=
| ListConversationsResponse (conversations : list (option Conversation)) (cursorBytes : bytes)
    (cursor : option Cursor)
| ListMessagesResponse (messages : list (option Message)) (cursor : option Cursor)
| UpdateEvents (event : UpdateEvent)
| OtherResponse (type : ResponseType).

(** [reflect.TypeOf]. *)
Definition TypeOf (r : Response) : ResponseType :=
  match r with
  | ListConversationsResponse _ _ _ => ListConversationsType
  | ListMessagesResponse _ _ => ListMessagesType
  | UpdateEvents _ => UpdateEventsType
  | OtherResponse t => t
  end.

Definition GetMessageContent (info : option MessageInfo) : option string :=
  match info with Some (Content text) => text | _ => None end.

Definition GetMediaContent (info : option MessageInfo) : option MediaContent :=
  match info with Some (Media m) => m | _ => None end.

Definition zero_sim : SIMCard := {|
  SIMParticipant_ID := ""; InternationalPhoneNumber := ""; FormattedPhoneNumber := ""; CarrierName := "";
  ColorHex := ""; SIMNumber := 0; SIMPayload_Two := 0; RCSChats_Enabled := false |}.
End Gm.

(** ** Decoded frames *)

Inductive PayloadSource :=
| PayloadSourceNone | PayloadSourceEncryptedData | PayloadSourceEncryptedData2 | PayloadSourceLogoutControl.

#[export] Instance PayloadSource_eq_dec : EqDecision PayloadSource.
Proof. solve_decision. Defined.

Inductive DurableOutcome :=
| DurableOutcomeUnknown | DurableOutcomeCommitted | DurableOutcomePoisoned | DurableOutcomeDuplicatePoisoned.

#[export] Instance DurableOutcome_eq_dec : EqDecision DurableOutcome.
Proof. solve_decision. Defined.

(** [decryptInternalMessage], the only constructor, always embeds the frame.
    [im_Account] is the account of the secondary payload's account change;
    [im_Secondary] says that there is a secondary payload. *)
Record IncomingRPCMessage := {
  im_Frame : Gm.IncomingRPCMessage;
  im_IsOld : bool;
  im_Pair : bool;
  im_Gaia : bool;
  im_Message : option Gm.RPCMessageData;
  im_DecryptedData : bytes;
  im_DecryptedMessage : option Gm.Response;
  im_PayloadSource : PayloadSource;
  im_Secondary : option string;
  im_DurableOutcome : DurableOutcome;
  im_DurableError : error
}.

Record DurableRequest := { dr_Action : Z; dr_ConversationID : string; dr_Cursor : bytes }.

Definition no_request : DurableRequest := {| dr_Action := UNSPECIFIED; dr_ConversationID := ""; dr_Cursor := [] |}.

Record DurableEnvelope := {
  de_ResponseID : string;
  de_Raw : bytes;
  de_Decoded : option IncomingRPCMessage;
  de_DecodeError : error;
  de_Request : DurableRequest
}.

Definition ErrDurablePersistence : sentinel := ErrText "durable envelope persistence failed".
Definition ErrDurablePoisoned : sentinel := ErrText "provider response durably quarantined".

(** ** Which response answers which request *)

Definition responseType (action : Z) : option Gm.ResponseType :=
  if action =? IS_BUGLE_DEFAULT then Some Gm.IsBugleDefaultResponse
  else if action =? GET_UPDATES then Some Gm.UpdateEventsType
  else if action =? LIST_CONVERSATIONS then Some Gm.ListConversationsType
  else if action =? NOTIFY_DITTO_ACTIVITY then Some Gm.NotifyDittoActivityResponse
  else if action =? GET_CONVERSATION_TYPE then Some Gm.GetConversationTypeResponse
  else if action =? GET_CONVERSATION then Some Gm.GetConversationResponse
  else if action =? LIST_MESSAGES then Some Gm.ListMessagesType
  else if action =? SEND_MESSAGE then Some Gm.SendMessageResponse
  else if action =? SEND_REACTION then Some Gm.SendReactionResponse
  else if action =? DELETE_MESSAGE then Some Gm.DeleteMessageResponse
  else if action =? GET_PARTICIPANTS_THUMBNAIL then Some Gm.GetThumbnailResponse
  else if action =? GET_CONTACTS_THUMBNAIL then Some Gm.GetThumbnailResponse
  else if action =? LIST_CONTACTS then Some Gm.ListContactsResponse
  else if action =? LIST_TOP_CONTACTS then Some Gm.ListTopContactsResponse
  else if action =? GET_OR_CREATE_CONVERSATION then Some Gm.GetOrCreateConversationResponse
  else if action =? UPDATE_CONVERSATION then Some Gm.UpdateConversationResponse
  else if action =? GET_FULL_SIZE_IMAGE then Some Gm.GetFullSizeImageResponse
  else None.

Record correlatedRPCResponsePolicy := { prototype : option Gm.ResponseType; emptyPayload : bool }.

Definition answered_by (t : Gm.ResponseType) : option correlatedRPCResponsePolicy :=
  Some {| prototype := Some t; emptyPayload := false |}.

Definition correlatedRPCResponses (action : Z) : option correlatedRPCResponsePolicy :=
  if action =? IS_BUGLE_DEFAULT then answered_by Gm.IsBugleDefaultResponse
  else if action =? NOTIFY_DITTO_ACTIVITY then answered_by Gm.NotifyDittoActivityResponse
  else if action =? GET_CONVERSATION_TYPE then answered_by Gm.GetConversationTypeResponse
  else if action =? GET_CONVERSATION then answered_by Gm.GetConversationResponse
  else if action =? SEND_MESSAGE then answered_by Gm.SendMessageResponse
  else if action =? SEND_REACTION then answered_by Gm.SendReactionResponse
  else if action =? DELETE_MESSAGE then answered_by Gm.DeleteMessageResponse
  else if action =? MESSAGE_READ then Some {| prototype := None; emptyPayload := true |}
  else if action =? GET_PARTICIPANTS_THUMBNAIL then answered_by Gm.GetThumbnailResponse
  else if action =? GET_CONTACTS_THUMBNAIL then answered_by Gm.GetThumbnailResponse
  else if action =? LIST_CONTACTS then answered_by Gm.ListContactsResponse
  else if action =? LIST_TOP_CONTACTS then answered_by Gm.ListTopContactsResponse
  else if action =? GET_OR_CREATE_CONVERSATION then answered_by Gm.GetOrCreateConversationResponse
  else if action =? UPDATE_CONVERSATION then answered_by Gm.UpdateConversationResponse
  else if action =? GET_FULL_SIZE_IMAGE then answered_by Gm.GetFullSizeImageResponse
  else None.

Definition IsKnownCorrelatedRPCResponse (action : Z) (response : option Gm.Response) (source : PayloadSource)
    (authenticatedPayload : bytes) : bool :=
  if negb (bool_decide (source = PayloadSourceEncryptedData)) then false
  else if bool_decide (response = None) || (action =? UNSPECIFIED) || (action =? GET_UPDATES) ||
          (action =? LIST_CONVERSATIONS) || (action =? LIST_MESSAGES) then
    match correlatedRPCResponses action with
    | Some policy => emptyPayload policy && bool_decide (response = None) && is_nil authenticatedPayload
    | None => false
    end
  else match correlatedRPCResponses action, response with
  | Some policy, Some r => bool_decide (prototype policy = Some (Gm.TypeOf r))
  | _, _ => false
  end.

Definition hackyLoggedOutBytes : bytes := [byte_of_Z 0x72; byte_of_Z 0x00].

(** [bytes.Equal] does not tell a nil slice from an empty one. *)
Definition slice (b : option bytes) : bytes := default [] b.

Definition IsLegacyLogoutControl (message : option Gm.RPCMessageData) : bool :=
  match message with
  | Some m => (Gm.Action m =? GET_UPDATES) && (Gm.SessionID m =s "") &&
              bool_decide (Gm.EncryptedData m = None) && bool_decide (Gm.EncryptedData2 m = None) &&
              bool_decide (slice (Gm.UnencryptedData m) = hackyLoggedOutBytes)
  | None => false
  end.

(** ** Decoding a frame *)

(** What the client brings to a frame: [proto.Unmarshal] for each message it
    may hold and the session cipher ([None] without session keys). *)
Record FrameCodec := {
  unmarshal_pair : bytes -> bool;
  unmarshal_gaia : bytes -> bool;
  unmarshal_data : bytes -> option Gm.RPCMessageData;
  unmarshal_response : Gm.ResponseType -> bytes -> option Gm.Response;
  unmarshal_secondary : bytes -> option string;
  decrypt : option (bytes -> option bytes)
}.

Section Decode.
Context (codec : FrameCodec).

Definition pairing_message (data : Gm.IncomingRPCMessage) (pair gaia : bool) : IncomingRPCMessage := {|
  im_Frame := data; im_IsOld := false; im_Pair := pair; im_Gaia := gaia; im_Message := None;
  im_DecryptedData := []; im_DecryptedMessage := None; im_PayloadSource := PayloadSourceNone;
  im_Secondary := None; im_DurableOutcome := DurableOutcomeUnknown; im_DurableError := [] |}.

Definition data_message (data : Gm.IncomingRPCMessage) (message : Gm.RPCMessageData) (decrypted : bytes)
    (response : option Gm.Response) (source : PayloadSource) (secondary : option string) : IncomingRPCMessage := {|
  im_Frame := data; im_IsOld := false; im_Pair := false; im_Gaia := false; im_Message := Some message;
  im_DecryptedData := decrypted; im_DecryptedMessage := response; im_PayloadSource := source;
  im_Secondary := secondary; im_DurableOutcome := DurableOutcomeUnknown; im_DurableError := [] |}.

Definition present (b : option bytes) : bool := bool_decide (is_Some b).

Definition text_error (text : string) : error := [ErrText text].

(** The message may come with an error: its request metadata is authenticated
    although its payload did not decode. Such a payload is kept as a message of
    its type, whose contents nothing reads. *)
Definition decrypt_data (data : Gm.IncomingRPCMessage) (message : Gm.RPCMessageData)
    (cipher : bytes -> option bytes) : option IncomingRPCMessage * error :=
  let d := data_message data message in
  if (present (Gm.EncryptedData message) && present (Gm.EncryptedData2 message)) ||
     (present (Gm.UnencryptedData message) &&
      (present (Gm.EncryptedData message) || present (Gm.EncryptedData2 message)))
  then (Some (d [] None PayloadSourceNone None), text_error "data event has ambiguous ciphertext fields")
  else match Gm.EncryptedData message, Gm.EncryptedData2 message with
  | Some ciphertext, _ =>
    match cipher ciphertext with
    | None => (None, text_error "failed to decrypt data event")
    | Some plaintext =>
      match responseType (Gm.Action message) with
      | None => (Some (d plaintext None PayloadSourceEncryptedData None), [])
      | Some t =>
        match unmarshal_response codec t plaintext with
        | Some r => (Some (d plaintext (Some r) PayloadSourceEncryptedData None), [])
        | None => (Some (d plaintext (Some (Gm.OtherResponse t)) PayloadSourceEncryptedData None),
                   text_error "failed to decode decrypted data event")
        end
      end
    end
  | None, Some ciphertext =>
    match cipher ciphertext with
    | None => (None, text_error "failed to decrypt field 2 in data event")
    | Some plaintext =>
      match unmarshal_secondary codec plaintext with
      | Some account => (Some (d plaintext None PayloadSourceEncryptedData2 (Some account)), [])
      | None => (Some (d plaintext None PayloadSourceEncryptedData2 (Some "")),
                 text_error "failed to decode decrypted field 2 data event")
      end
    end
  | None, None =>
    if IsLegacyLogoutControl (Some message) then (Some (d [] None PayloadSourceLogoutControl None), [])
    else (Some (d [] None PayloadSourceNone None), text_error "data event has no authenticated ciphertext")
  end.

Definition decryptInternalMessage (data : Gm.IncomingRPCMessage) : option IncomingRPCMessage * error :=
  if Gm.BugleRoute data =? BugleRoute_PairEvent then
    if unmarshal_pair codec (Gm.MessageData data) then (Some (pairing_message data true false), [])
    else (None, text_error "failed to decode pair event")
  else if Gm.BugleRoute data =? BugleRoute_GaiaEvent then
    if unmarshal_gaia codec (Gm.MessageData data) then (Some (pairing_message data false true), [])
    else (None, text_error "failed to decode gaia event")
  else if Gm.BugleRoute data =? BugleRoute_DataEvent then
    match decrypt codec with
    | None => (None, text_error "missing session encryption keys")
    | Some cipher =>
      match unmarshal_data codec (Gm.MessageData data) with
      | None => (None, text_error "failed to decode data event")
      | Some message => decrypt_data data message cipher
      end
    end
  else (None, text_error "unknown bugle route").
End Decode.

(** ** Recent updates *)

(** The ring of the last eight updates, first filled with zero items. *)
Record Ring := { ring_items : list (string * bytes); ring_ptr : nat }.

Definition recentUpdatesLen : nat := 8.

Definition empty_ring : Ring := {| ring_items := repeat ("", repeat (byte_of_Z 0) 32) recentUpdatesLen; ring_ptr := 0 |}.

(** The items from the newest to the oldest. *)
Definition ring_newest_first (r : Ring) : list (string * bytes) :=
  rev (drop (ring_ptr r) (ring_items r) ++ take (ring_ptr r) (ring_items r)).

(** [true] is a duplicate: the newest item with the identifier has the hash. *)
Definition deduplicateHash (id : string) (hash : bytes) (r : Ring) : Ring * bool :=
  match find (fun item => item.1 =s id) (ring_newest_first r) with
  | Some item =>
    if bool_decide (item.2 = hash) then (r, true)
    else ({| ring_items := <[ring_ptr r := (id, hash)]> (ring_items r);
             ring_ptr := (ring_ptr r + 1) mod recentUpdatesLen |}, false)
  | None => ({| ring_items := <[ring_ptr r := (id, hash)]> (ring_items r);
                ring_ptr := (ring_ptr r + 1) mod recentUpdatesLen |}, false)
  end.
