(* ===== verification/Projector.v ===== *)
(** * Projecting provider responses (internal/gateway/provider/gmessages)

    The projections [DurableSink] builds from a decoded provider response: lines
    of a settings event (adapter.go), conversations, messages and their media
    jobs, and page cursors (durable_sink.go, backfill_runtime.go).  The key
    sealer is an interface with state; the protobuf codec of a cursor is a
    parameter. *)

From S2P Require Import Prelude GoText Crypto GoEncoding Domain Session EventContract Pool Actor Ingress Provider Incoming.

Definition errMalformedProviderEnvelope : sentinel := ErrText "malformed or unknown provider envelope".
Definition ErrInvalidSettingsSnapshot : sentinel := ErrText "authenticated settings line snapshot is invalid".
Definition ErrInvalidBackfillCursor : sentinel := ErrText "invalid committed provider backfill cursor".

(** [fmt.Errorf("%w: ...", errMalformedProviderEnvelope)]. *)
Definition malformed {A} : result A := Err [errMalformedProviderEnvelope].

(** ** Lines of a settings event (adapter.go) *)

Inductive LineRejectionReason :=
| LineRejectionMissingProviderIdentity | LineRejectionDuplicateProviderIdentity | LineRejectionInvalidPhoneNumber.

Record DiscoveredLine := {
  dl_Line : Line;
  dl_Phone : E164Phone;
  dl_CarrierName : string;
  dl_ColorHex : string;
  dl_RCSEnabled : bool;
  dl_ProviderSIMNumber : Z;
  dl_ProviderSIMPayloadType : Z
}.

Record RejectedLine := {
  rl_ProviderParticipantID : string;
  rl_PhoneNumber : string;
  rl_Reason : LineRejectionReason
}.

Record LineMapResult := { lm_Lines : list DiscoveredLine; lm_Rejected : list RejectedLine }.

Definition lineID (connectionTenantID connectionID participantID : string) : string :=
  "gmessages:" +:+ string_of (base64_encode (sha256 (concat
    (identity_field <$> [bytes_of connectionTenantID; bytes_of connectionID; bytes_of participantID])))).

Definition safeProviderLineMetadata (value : string) (limit : Z) : string :=
  let value := TrimSpace value in
  if (len value >? limit) || ContainsAny value [0; 13; 10] then "" else value.

Definition sim_of (sim : option Gm.SIMCard) : Gm.SIMCard := default Gm.zero_sim sim.

Definition participant_of (sim : option Gm.SIMCard) : string := TrimSpace (Gm.SIMParticipant_ID (sim_of sim)).

(** [identityCounts]. *)
Definition identity_count (simCards : list (option Gm.SIMCard)) (participantID : string) : Z :=
  blen (List.filter (fun sim => ValidProviderIdentifier (participant_of sim) && (participant_of sim =s participantID))
    simCards).

(** One iteration of the second loop: the line or the rejection. *)
Definition map_sim (tenantID connectionID : string) (simCards : list (option Gm.SIMCard)) (sim : option Gm.SIMCard)
    : DiscoveredLine + RejectedLine :=
  let participantID := participant_of sim in
  let sim := sim_of sim in
  let international := TrimSpace (Gm.InternationalPhoneNumber sim) in
  let phoneNumber := if international =s "" then TrimSpace (Gm.FormattedPhoneNumber sim) else international in
  if negb (ValidProviderIdentifier participantID)
  then inr {| rl_ProviderParticipantID := ""; rl_PhoneNumber := phoneNumber;
              rl_Reason := LineRejectionMissingProviderIdentity |}
  else if identity_count simCards participantID >? 1
  then inr {| rl_ProviderParticipantID := participantID; rl_PhoneNumber := phoneNumber;
              rl_Reason := LineRejectionDuplicateProviderIdentity |}
  else match ParseE164 phoneNumber with
  | Err _ => inr {| rl_ProviderParticipantID := participantID; rl_PhoneNumber := phoneNumber;
                    rl_Reason := LineRejectionInvalidPhoneNumber |}
  | Ok phone =>
    let carrierName := safeProviderLineMetadata (Gm.CarrierName sim) 255 in
    inl {| dl_Line := {| line_ID := lineID tenantID connectionID participantID; line_TenantID := tenantID;
                         line_ConnectionID := connectionID; line_ProviderParticipantID := participantID;
                         line_ProviderOutgoingID := participantID;
                         line_DisplayName := if carrierName =s "" then E164Phone_String phone else carrierName |};
           dl_Phone := phone; dl_CarrierName := carrierName;
           dl_ColorHex := safeProviderLineMetadata (Gm.ColorHex sim) 64;
           dl_RCSEnabled := Gm.RCSChats_Enabled sim; dl_ProviderSIMNumber := Gm.SIMNumber sim;
           dl_ProviderSIMPayloadType := Gm.SIMPayload_Two sim |}
  end.

Definition MapSettingsLines (tenantID connectionID : string) (simCards : option (list (option Gm.SIMCard)))
    : LineMapResult :=
  match simCards with
  | Some cards =>
    if (connectionID =s "") || (tenantID =s "") then {| lm_Lines := []; lm_Rejected := [] |}
    else
      let mapped := map_sim tenantID connectionID cards <$> cards in
      {| lm_Lines := omap (fun m => match m with inl l => Some l | inr _ => None end) mapped;
         lm_Rejected := omap (fun m => match m with inl _ => None | inr r => Some r end) mapped |}
  | None => {| lm_Lines := []; lm_Rejected := [] |}
  end.

(** ** Identifiers and text *)

Definition boundedProviderID (value : string) (optional : bool) : bool :=
  if value =s "" then optional else ValidProviderIdentifier value.

Definition boundedProviderMetadata (value : string) : bool :=
  (len value <=? MaxMediaMetadataBytes) && utf8_ValidString value && negb (ContainsByte value 0).

Definition validProviderText (value : string) : bool :=
  (len value <=? MaxMessageTextBytes) && utf8_ValidString value && negb (ContainsByte value 0).

(** The first of the two numbers that is a phone number. *)
Definition exactParticipantE164 (participant : option Gm.Participant) : string :=
  match participant with
  | None => ""
  | Some p =>
    match ParseE164 (Gm.FormattedNumber p) with
    | Ok phone => E164Phone_String phone
    | Err _ => match ParseE164 (Gm.ID_Number p) with
               | Ok phone => E164Phone_String phone
               | Err _ => ""
               end
    end
  end.

(** [MessageStatusType_name]; the string of any other number is its decimal. *)
Definition MessageStatusType_name : list (Z * string) :=
  [(0, "STATUS_UNKNOWN");
   (1, "OUTGOING_COMPLETE");
   (2, "OUTGOING_DELIVERED");
   (11, "OUTGOING_DISPLAYED");
   (3, "OUTGOING_DRAFT");
   (10, "OUTGOING_SEND_AFTER_PROCESSING");
   (4, "OUTGOING_YET_TO_SEND");
   (5, "OUTGOING_SENDING");
   (6, "OUTGOING_RESENDING");
   (7, "OUTGOING_AWAITING_RETRY");
   (8, "OUTGOING_FAILED_GENERIC");
   (9, "OUTGOING_FAILED_EMERGENCY_NUMBER");
   (12, "OUTGOING_CANCELED");
   (13, "OUTGOING_FAILED_TOO_LARGE");
   (14, "OUTGOING_NOT_DELIVERED_YET");
   (15, "OUTGOING_REVOCATION_PENDING");
   (16, "OUTGOING_SCHEDULED");
   (17, "OUTGOING_FAILED_RECIPIENT_LOST_RCS");
   (18, "OUTGOING_FAILED_NO_RETRY_NO_FALLBACK");
   (19, "OUTGOING_FAILED_RECIPIENT_DID_NOT_DECRYPT");
   (20, "OUTGOING_VALIDATING");
   (21, "OUTGOING_FAILED_RECIPIENT_LOST_ENCRYPTION");
   (22, "OUTGOING_FAILED_RECIPIENT_DID_NOT_DECRYPT_NO_MORE_RETRY");
   (23, "OUTGOING_DELETED");
   (24, "OUTGOING_FAILED_RECIPIENT_NEGATIVE_DELIVERY");
   (25, "MESSAGE_STATUS_OUTGOING_FAILED_EMERGENCY_PROTOCOL_DETERMINATION_MESSAGE");
   (26, "OUTGOING_RESTRICTED");
   (27, "OUTGOING_FAILED_TO_ENCRYPT");
   (100, "INCOMING_COMPLETE");
   (101, "INCOMING_YET_TO_MANUAL_DOWNLOAD");
   (102, "INCOMING_RETRYING_MANUAL_DOWNLOAD");
   (103, "INCOMING_MANUAL_DOWNLOADING");
   (104, "INCOMING_RETRYING_AUTO_DOWNLOAD");
   (105, "INCOMING_AUTO_DOWNLOADING");
   (106, "INCOMING_DOWNLOAD_FAILED");
   (107, "INCOMING_EXPIRED_OR_NOT_AVAILABLE");
   (108, "INCOMING_DELIVERED");
   (109, "INCOMING_DISPLAYED");
   (110, "INCOMING_DOWNLOAD_CANCELED");
   (111, "INCOMING_DOWNLOAD_FAILED_TOO_LARGE");
   (112, "INCOMING_DOWNLOAD_FAILED_SIM_HAS_NO_DATA");
   (113, "INCOMING_FAILED_TO_DECRYPT");
   (114, "INCOMING_DECRYPTION_ABORTED");
   (115, "INCOMING_AWAITING_AUTO_DOWNLOAD");
   (116, "INCOMING_UNKNOWN_CONTENT_TYPE");
   (117, "INCOMING_DELETED");
   (118, "INCOMING_DOWNLOAD_RESTRICTED");
   (200, "TOMBSTONE_PARTICIPANT_JOINED");
   (201, "TOMBSTONE_PARTICIPANT_LEFT");
   (202, "TOMBSTONE_SELF_LEFT");
   (203, "TOMBSTONE_RCS_GROUP_CREATED");
   (204, "TOMBSTONE_MMS_GROUP_CREATED");
   (205, "TOMBSTONE_SMS_BROADCAST_CREATED");
   (206, "TOMBSTONE_ONE_ON_ONE_SMS_CREATED");
   (207, "TOMBSTONE_ONE_ON_ONE_RCS_CREATED");
   (208, "TOMBSTONE_SWITCH_TO_GROUP_MMS");
   (209, "TOMBSTONE_SWITCH_TO_BROADCAST_SMS");
   (210, "TOMBSTONE_SHOW_LINK_PREVIEWS");
   (211, "TOMBSTONE_GROUP_RENAMED_LOCAL");
   (212, "TOMBSTONE_VERIFIED_SMS_APPLICABLE");
   (213, "TOMBSTONE_ENCRYPTED_ONE_ON_ONE_RCS_CREATED");
   (214, "TOMBSTONE_PROTOCOL_SWITCH_TO_TEXT");
   (215, "TOMBSTONE_PROTOCOL_SWITCH_TO_RCS");
   (216, "TOMBSTONE_PROTOCOL_SWITCH_TO_ENCRYPTED_RCS");
   (217, "TOMBSTONE_GROUP_RENAMED_GLOBAL");
   (218, "TOMBSTONE_GROUP_NAME_CLEARED_GLOBAL");
   (219, "TOMBSTONE_PROTOCOL_SWITCH_TO_ENCRYPTED_RCS_INFO");
   (220, "TOMBSTONE_SELF_REMOVED_FROM_GROUP");
   (221, "MESSAGE_STATUS_TOMBSTONE_PARTICIPANT_REMOVED_FROM_GROUP");
   (222, "MESSAGE_STATUS_TOMBSTONE_SMS_NORM_PARTICIPANT_UPGRADED");
   (223, "MESSAGE_STATUS_TOMBSTONE_RCS_NORM_PARTICIPANT_UPGRADED");
   (224, "MESSAGE_STATUS_TOMBSTONE_ENCRYPTED_RCS_NORM_PARTICIPANT_UPGRADED");
   (225, "MESSAGE_STATUS_TOMBSTONE_ENCRYPTED_GROUP_PARTICIPANT_JOINED");
   (226, "MESSAGE_STATUS_TOMBSTONE_ENCRYPTED_GROUP_PARTICIPANT_JOINED_INFO");
   (227, "MESSAGE_STATUS_TOMBSTONE_ENCRYPTED_GROUP_PARTICIPANT_LEFT");
   (228, "MESSAGE_STATUS_TOMBSTONE_ENCRYPTED_GROUP_SELF_LEFT");
   (229, "MESSAGE_STATUS_TOMBSTONE_ENCRYPTED_GROUP_CREATED");
   (230, "MESSAGE_STATUS_TOMBSTONE_SELF_REMOVED_FROM_ENCRYPTED_GROUP");
   (231, "MESSAGE_STATUS_TOMBSTONE_PARTICIPANT_REMOVED_FROM_ENCRYPTED_GROUP");
   (232, "MESSAGE_STATUS_TOMBSTONE_SUGGESTION_SHORTCUT_STAR_TOOLSTONE");
   (233, "MESSAGE_STATUS_TOMBSTONE_GROUP_PROTOCOL_SWITCH_RCS_TO_E2EE");
   (234, "MESSAGE_STATUS_TOMBSTONE_GROUP_PROTOCOL_SWITCH_E2EE_TO_RCS");
   (235, "MESSAGE_STATUS_TOMBSTONE_PROTOCOL_SWITCH_TEXT_TO_E2EE");
   (236, "MESSAGE_STATUS_TOMBSTONE_PROTOCOL_SWITCH_E2EE_TO_TEXT");
   (237, "MESSAGE_STATUS_TOMBSTONE_PROTOCOL_SWITCH_RCS_TO_E2EE");
   (238, "MESSAGE_STATUS_TOMBSTONE_PROTOCOL_SWITCH_E2EE_TO_RCS");
   (239, "MESSAGE_STATUS_TOMBSTONE_SATELLITE_EDUCATION");
   (240, "MESSAGE_STATUS_TOMBSTONE_RBM_SIM_SWITCH");
   (241, "MESSAGE_STATUS_TOMBSTONE_RBM_PRIVACY_NOTICE");
   (242, "MESSAGE_STATUS_TOMBSTONE_PENPAL_CONVERSATION_NOTICE");
   (243, "MESSAGE_STATUS_TOMBSTONE_MEET_OTHER_PARTICIPANT_REACHABLE");
   (244, "MESSAGE_STATUS_TOMBSTONE_MISSED_VIDEO_CALL");
   (245, "MESSAGE_STATUS_TOMBSTONE_PARTICIPANT_THEME_CHANGE");
   (246, "MESSAGE_STATUS_TOMBSTONE_SATELLITE_END_OF_EMERGENCY_SUCCESS_HELP_STILL_NEEDED");
   (247, "MESSAGE_STATUS_TOMBSTONE_SATELLITE_END_OF_EMERGENCY_SUCCESS_HELP_NO_LONGER_NEEDED");
   (248, "MESSAGE_STATUS_TOMBSTONE_SATELLITE_END_OF_EMERGENCY_FAILURE_HELP_STILL_NEEDED");
   (249, "MESSAGE_STATUS_TOMBSTONE_SATELLITE_END_OF_EMERGENCY_FAILURE_HELP_NO_LONGER_NEEDED");
   (250, "MESSAGE_STATUS_TOMBSTONE_SATELLITE_END_OF_EMERGENCY_UNEXPECTED_END");
   (251, "MESSAGE_STATUS_TOMBSTONE_SATELLITE_MESSAGING_TOOLSTONE");
   (252, "MESSAGE_STATUS_TOMBSTONE_GROUP_PROTOCOL_SWITCH_E2EE_TO_MMS");
   (253, "MESSAGE_STATUS_TOMBSTONE_PENPAL_PROACTIVE_MESSAGE_NOTICE");
   (254, "MESSAGE_STATUS_TOMBSTONE_SUGGESTION_POSSIBLE_SCAM_TOOLSTONE");
   (255, "MESSAGE_STATUS_TOMBSTONE_CHATBOT_UNSUBSCRIBE_SENT");
   (256, "MESSAGE_STATUS_TOMBSTONE_CHATBOT_SUBSCRIBE_SENT");
   (257, "MESSAGE_STATUS_TOMBSTONE_CHATBOT_UNSUBSCRIBE_CONFIRMED");
   (258, "MESSAGE_STATUS_TOMBSTONE_CHATBOT_SUBSCRIBE_CONFIRMED");
   (259, "MESSAGE_STATUS_TOMBSTONE_ACTIVE_SELF_IDENTITY_CHANGED");
   (260, "MESSAGE_STATUS_TOMBSTONE_GROUP_ICON_CHANGED_GLOBAL");
   (261, "MESSAGE_STATUS_TOMBSTONE_GROUP_ICON_CLEARED_GLOBAL");
   (262, "MESSAGE_STATUS_TOMBSTONE_CHATBOT_UNSUBSCRIBE_ERROR");
   (263, "MESSAGE_STATUS_TOMBSTONE_CHATBOT_SUBSCRIBE_ERROR");
   (264, "MESSAGE_STATUS_TOMBSTONE_EMERGENCY_CONVERSATION_CREATED");
   (265, "MESSAGE_STATUS_TOMBSTONE_SENSITIVE_CONTENT_WARNING_TOOLSTONE");
   (266, "MESSAGE_STATUS_TOMBSTONE_CHATBOT_UNSUBSCRIBE_CONFIRMED_NO_LINK");
   (267, "MESSAGE_STATUS_TOMBSTONE_CHATBOT_SUBSCRIBE_CONFIRMED_NO_LINK");
   (268, "MESSAGE_STATUS_TOMBSTONE_EMERGENCY_QUESTIONNAIRE");
   (269, "MESSAGE_STATUS_TOMBSTONE_CHATBOT_UNSUBSCRIBE_SENT_NO_LINK");
   (270, "MESSAGE_STATUS_TOMBSTONE_CHATBOT_SUBSCRIBE_SENT_NO_LINK");
   (271, "MESSAGE_STATUS_TOMBSTONE_RCS_GROUP_JOINED_BY_LINK");
   (272, "MESSAGE_STATUS_TOMBSTONE_INVITE_LINK_ENABLED");
   (273, "MESSAGE_STATUS_TOMBSTONE_INVITE_LINK_DISABLED");
   (274, "MESSAGE_STATUS_TOMBSTONE_INVITE_LINK_RESET_MANUALLY");
   (275, "MESSAGE_STATUS_TOMBSTONE_INVITE_LINK_RESET_AUTOMATICALLY");
   (276, "MESSAGE_STATUS_TOMBSTONE_MLS");
   (277, "MESSAGE_STATUS_TOMBSTONE_RCS_GROUP_SELF_CREATED");
   (278, "MESSAGE_STATUS_TOMBSTONE_CUSTOM_CARD");
   (279, "MESSAGE_STATUS_TOMBSTONE_RBM_INCOMING_CONVERSATION_CREATED");
   (300, "MESSAGE_DELETED")].

Definition MessageStatusType_String (status : Z) : string :=
  match find (fun p => p.1 =? status) MessageStatusType_name with
  | Some p => p.2
  | None => FormatInt status
  end.

(** ** Conversations and cursors *)

Definition with_conversations (conversations : list ProjectedConversation) : Projection := {|
  pj_Conversations := conversations; pj_Messages := []; pj_Lines := []; pj_LineSnapshot := false;
  pj_Cursor := []; pj_CursorBase := []; pj_CursorCandidate := []; pj_CursorSource := "";
  pj_CursorConversationID := "" |}.

Fixpoint projected_conversations (conversations : list (option Gm.Conversation)) : result (list ProjectedConversation) :=
  match conversations with
  | [] => Ok []
  | None :: _ => malformed
  | Some c :: rest =>
    if negb (ValidProviderConversationID (Gm.ConversationID c)) ||
       negb (boundedProviderID (TrimSpace (Gm.DefaultOutgoingID c)) true)
    then malformed
    else
      let! projected := projected_conversations rest in
      Ok ({| pc_ConversationID := Gm.ConversationID c; pc_DefaultOutgoingID := TrimSpace (Gm.DefaultOutgoingID c);
             pc_IsGroup := Gm.IsGroupChat c |} :: projected)
  end.

Definition projectConversations (conversations : list (option Gm.Conversation)) : result Projection :=
  if blen conversations >? MaxProjectedConversations then malformed
  else let! projected := projected_conversations conversations in Ok (with_conversations projected).

Section Cursors.
(** The codec of the ingress service, and the deterministic encoding of a
    received cursor with its unknown fields ([None] when it has none). *)
Context (unmarshalCursor : bytes -> option (string * Z)) (marshalCursor : string * Z -> bytes)
  (encodeCursor : Gm.Cursor -> option bytes).

Definition backfillCursor (opaque : bytes) (cursor : option Gm.Cursor) : result bytes :=
  match cursor with
  | Some c =>
    match encodeCursor c with
    | None => malformed
    | Some encoded =>
      match CanonicalProviderCursor unmarshalCursor marshalCursor encoded with
      | Ok canonical => Ok canonical
      | Err _ => malformed
      end
    end
  | None =>
    match CanonicalProviderCursor unmarshalCursor marshalCursor opaque with
    | Ok canonical => Ok canonical
    | Err _ => malformed
    end
  end.

Definition decodeBackfillCursor (encoded : bytes) : result (option (string * Z)) :=
  if is_nil encoded then Ok None
  else match CanonicalProviderCursor unmarshalCursor marshalCursor encoded with
  | Err _ => Err [ErrInvalidBackfillCursor]
  | Ok canonical =>
    match unmarshalCursor canonical with
    | Some cursor => Ok (Some cursor)
    | None => Err [ErrInvalidBackfillCursor]
    end
  end.

(** The next cursor and whether the page is the last one. *)
Definition responseBackfillCursor (opaque : bytes) (cursor : option Gm.Cursor) : result (bytes * bool) :=
  if bool_decide (is_Some cursor) && negb (is_nil opaque) then Err [ErrInvalidBackfillCursor]
  else if bool_decide (cursor = None) && is_nil opaque then Ok ([], true)
  else
    let! encoded := backfillCursor opaque cursor in
    let! _ := decodeBackfillCursor encoded in
    Ok (encoded, false).
End Cursors.

(** ** Messages *)

Definition media_in_bounds (media : Gm.MediaContent) : bool :=
  boundedProviderID (Gm.MediaID media) false && boundedProviderMetadata (Gm.MimeType media) &&
  boundedProviderMetadata (Gm.MediaName media) && negb (Gm.Size media <? 0) &&
  negb (Gm.Size media >? MaxDeclaredMediaBytes) && negb (blen (Gm.DecryptionKey media) >? 4096) &&
  negb (blen (Gm.ThumbnailDecryptionKey media) >? 4096).

(** The inner loop: (media of the message, media of the event, text bytes of
    the event). *)
Fixpoint validate_infos (infos : list (option Gm.MessageInfo)) (messageMedia totalMedia totalText : Z)
    : result (Z * Z) :=
  match infos with
  | [] => Ok (totalMedia, totalText)
  | info :: rest =>
    if bool_decide (info = None) then malformed
    else
      let! totalText := (match Gm.GetMessageContent info with
        | Some content =>
          if negb (validProviderText content) then malformed
          else if totalText + len content >? MaxProjectionTextBytes then malformed
          else Ok (totalText + len content)
        | None => Ok totalText
        end) in
      match Gm.GetMediaContent info with
      | None => validate_infos rest messageMedia totalMedia totalText
      | Some media =>
        if (messageMedia + 1 >? MaxAttachmentsPerMessage) || (totalMedia + 1 >? MaxProjectedAttachments) ||
           negb (media_in_bounds media)
        then malformed
        else validate_infos rest (messageMedia + 1) (totalMedia + 1) totalText
      end
  end.

Fixpoint validate_events (messages : list (option Gm.Message)) (seen : gset string)
    (totalInfos totalMedia totalText : Z) : result unit :=
  match messages with
  | [] => Ok tt
  | None :: _ => malformed
  | Some m :: rest =>
    if negb (boundedProviderID (Gm.MessageID m) false) || negb (boundedProviderID (Gm.Message_ConversationID m) false) ||
       negb (boundedProviderID (Gm.TmpID m) true)
    then malformed
    else if bool_decide (Gm.MessageID m ∈ seen) then malformed
    else
      let totalInfos := totalInfos + blen (Gm.Infos m) in
      if (blen (Gm.Infos m) >? 256) || (totalInfos >? 1024) then malformed
      else
        let! totals := validate_infos (Gm.Infos m) 0 totalMedia totalText in
        validate_events rest ({[Gm.MessageID m]} ∪ seen) totalInfos totals.1 totals.2
  end.

Definition validateMessageEvent (messages : list (option Gm.Message)) : result unit :=
  if blen messages >? MaxProjectedMessages then malformed else validate_events messages ∅ 0 0 0.

(** The sealer of media keys; its state is what its calls draw. *)
Class MediaKeySealer (K : Type) := { SealKey : K -> Scope -> bytes -> K * result Session.Envelope }.

Definition no_envelope : Session.Envelope := {|
  en_Revision := 0; en_Version := 0; en_Provider := ""; en_Ciphertext := []; en_WrappedDEK := []; en_Nonce := [];
  en_KeyID := ""; en_KeyVersion := 0 |}.

Section Project.
Context {K : Type} `{MediaKeySealer K}.

Definition media_scope (ownership : ProviderOwnership) : Scope := {|
  sc_TenantID := key_TenantID (ow_Key ownership); sc_ConnectionID := key_ConnectionID (ow_Key ownership);
  sc_Provider := "gmessages-media" |}.

(** A key with its digest; an absent key has neither. *)
Definition seal_key (k : K) (ownership : ProviderOwnership) (key : bytes) : K * result (Session.Envelope * bytes) :=
  if blen key >? 0 then
    let '(k', sealed) := SealKey k (media_scope ownership) key in
    (k', let! envelope := sealed in Ok (envelope, sha256 key))
  else (k, Ok (no_envelope, zero_fingerprint)).

Definition mediaJob (k : K) (ownership : ProviderOwnership) (message : Gm.Message) (content : Gm.MediaContent)
    (position : Z) : K * result MediaLocator :=
  if Gm.MediaID content =s "" then (k, malformed)
  else
    let '(k1, sealed) := seal_key k ownership (Gm.DecryptionKey content) in
    match sealed with
    | Err e => (k1, Err e)
    | Ok (keyEnvelope, keyDigest) =>
      let '(k2, thumbnail) := seal_key k1 ownership (Gm.ThumbnailDecryptionKey content) in
      (k2, let! t := thumbnail in
        Ok {| ml_ProviderMessageID := Gm.MessageID message;
              ml_Locator := "gmessages:" +:+ string_of (base64_encode (bytes_of (Gm.MediaID content)));
              ml_Position := position; ml_MIMEType := Gm.MimeType content; ml_DeclaredSize := Gm.Size content;
              ml_DisplayFilename := Gm.MediaName content; ml_KeyEnvelope := keyEnvelope;
              ml_ThumbnailKeyEnvelope := t.1; ml_KeyDigest := keyDigest; ml_ThumbnailKeyDigest := t.2 |})
    end.

Definition GetContent (info : option Gm.MessageInfo) : string := default "" (Gm.GetMessageContent info).

(** The infos of one message: its text and its media jobs. *)
Fixpoint project_infos (k : K) (ownership : ProviderOwnership) (message : Gm.Message)
    (infos : list (option Gm.MessageInfo)) (attachmentIndex : Z) : K * result (string * list MediaLocator) :=
  match infos with
  | [] => (k, Ok ("", []))
  | info :: rest =>
    match Gm.GetMediaContent info with
    | None =>
      let '(k', projected) := project_infos k ownership message rest attachmentIndex in
      (k', let! p := projected in Ok (GetContent info +:+ p.1, p.2))
    | Some media =>
      let '(k1, job) := mediaJob k ownership message media attachmentIndex in
      match job with
      | Err e => (k1, Err e)
      | Ok locator =>
        let '(k2, projected) := project_infos k1 ownership message rest (attachmentIndex + 1) in
        (k2, let! p := projected in Ok (GetContent info +:+ p.1, locator :: p.2))
      end
    end
  end.

Definition projected_message (provenance : string) (message : Gm.Message) (text : string) : ProjectedMessage :=
  let direction := providerMessageDirection (Gm.Status message) in {|
  pm_ProviderMessageID := Gm.MessageID message; pm_ProviderTmpID := Gm.TmpID message;
  pm_ConversationID := Gm.Message_ConversationID message; pm_Direction := direction; pm_Provenance := provenance;
  pm_ProviderStatus := MessageStatusType_String (Gm.Status message);
  pm_ProviderOccurredAt := trustedProviderMessageTime (Gm.Timestamp message);
  pm_Actionable := (provenance =s MessageProvenanceLive) && (direction =s "inbound") &&
                   providerInboundReady (Gm.Status message);
  pm_Sender := exactParticipantE164 (Gm.SenderParticipant message); pm_Recipients := []; pm_Text := text;
  pm_Transport := mapProviderTransport (Gm.Type_ message); pm_State := MapProviderMessageState (Gm.Status message) |}.

Fixpoint project_sources (k : K) (ownership : ProviderOwnership) (provenance : string)
    (messages : list (option Gm.Message)) : K * result (list ProjectedMessage * list MediaLocator) :=
  match messages with
  | [] => (k, Ok ([], []))
  | None :: _ => (k, malformed)
  | Some m :: rest =>
    if negb (ValidProviderIdentifier (Gm.MessageID m)) || negb (ValidProviderConversationID (Gm.Message_ConversationID m))
    then (k, malformed)
    else
      let '(k1, infos) := project_infos k ownership m (Gm.Infos m) 0 in
      match infos with
      | Err e => (k1, Err e)
      | Ok (text, jobs) =>
        let '(k2, projected) := project_sources k1 ownership provenance rest in
        (k2, let! p := projected in Ok (projected_message provenance m text :: p.1, jobs ++ p.2))
      end
  end.

Definition with_messages (messages : list ProjectedMessage) : Projection := {|
  pj_Conversations := []; pj_Messages := messages; pj_Lines := []; pj_LineSnapshot := false;
  pj_Cursor := []; pj_CursorBase := []; pj_CursorCandidate := []; pj_CursorSource := "";
  pj_CursorConversationID := "" |}.

Definition projectMessages (k : K) (ownership : ProviderOwnership) (messages : list (option Gm.Message))
    (provenance : string) : K * result (Projection * list MediaLocator) :=
  match validateMessageEvent messages with
  | Err e => (k, Err e)
  | Ok _ =>
    let '(k', projected) := project_sources k ownership provenance messages in
    (k', let! p := projected in Ok (with_messages p.1, p.2))
  end.
End Project.
