(* ===== verification/Sink.v ===== *)
(** * The durable sink (internal/gateway/provider/gmessages/durable_sink.go)

    [DurableSink] stands between the protocol client and the ingress service:
    it projects a decoded response, has the envelope committed, and tells the
    client whether the response may be acknowledged; it lists, marks and
    coordinates acknowledgements. *)

From S2P Require Import Prelude GoText Crypto GoEncoding Domain Session EventContract Pool Actor Store Leases Ingress Provider Reconcile Responses Acks Commit Incoming Projector.

Definition ErrDurableFenceLost : sentinel := ErrText "durable message write rejected by connection fence".
Definition ErrDurableInfrastructure : sentinel := ErrText "durable messaging infrastructure failure".
Definition ErrACKAdmissionLimited : sentinel := ErrText "durable ACK admission capacity unavailable".

Definition MinimumACKCoordinationTimeout : Z := 100 * Millisecond.
Definition DefaultACKCoordinationTimeout : Z := 4 * Second.
Definition DefaultACKConcurrency : Z := 8.
Definition MaxACKConcurrency : Z := 16.
Definition ProviderACKRequestTimeout : Z := 5 * Second.

(** ** Configuration *)

(** [inbox], [acks] and [sealer] say which dependencies are present. *)
Record DurableSinkConfig := {
  sk_Inbox : bool; sk_ACKs : bool; sk_Sealer : bool; sk_ACKTimeout : Z; sk_ACKConcurrency : Z }.

Record DurableSink := { ackTimeout : Z; ackSlots : Z }.

Definition NewDurableSink (config : DurableSinkConfig) : result DurableSink :=
  if negb (sk_Inbox config) || negb (sk_ACKs config) || negb (sk_Sealer config)
  then fail "durable inbox, ACK store, and media-key sealer are required"
  else
    let timeout := if sk_ACKTimeout config =? 0 then DefaultACKCoordinationTimeout else sk_ACKTimeout config in
    if (timeout <? MinimumACKCoordinationTimeout) || (timeout >? DefaultACKCoordinationTimeout) ||
       (timeout >=? ProviderACKRequestTimeout)
    then fail "durable ACK transport timeout must be between 100ms and 4s and strictly below the provider request timeout"
    else
      let concurrency := if sk_ACKConcurrency config =? 0 then DefaultACKConcurrency else sk_ACKConcurrency config in
      if (concurrency <? 1) || (concurrency >? MaxACKConcurrency)
      then fail "durable ACK concurrency must be between 1 and 16"
      else Ok {| ackTimeout := timeout; ackSlots := concurrency |}.

(** ** Errors *)

Definition classifyDurablePersistenceError (err : error) : error :=
  if is_nil err || errors_Is err ContextCanceled then err
  else if errors_Is err ErrDurableFenceLost || errors_Is err ErrConnectionLeaseLost
  then errors_Join [[ErrDurableFenceLost]; err]
  else if errors_Is err ErrConflictingEnvelope || errors_Is err ErrInvalidProviderResponseID ||
          errors_Is err ErrProviderResponseCapacity then err
  else if errors_Is err ErrDurableInfrastructure then err
  else errors_Join [[ErrDurableInfrastructure]; err].

Definition owned (ownership : ProviderOwnership) : bool :=
  negb ((key_TenantID (ow_Key ownership) =s "") || (key_ConnectionID (ow_Key ownership) =s "") ||
        (ow_OwnerID ownership =s "") || (ow_FencingToken ownership =? 0)).

(** ** Projecting a response *)

Section Sink.
Context (unmarshalCursor : bytes -> option (string * Z)) (marshalCursor : string * Z -> bytes)
  (encodeCursor : Gm.Cursor -> option bytes).
Context {K : Type} `{MediaKeySealer K}.

(** A projection with its media jobs, and the error: a message page whose cursor
    is refused returns all three. *)
Definition Projected : Type := Projection * list MediaLocator * error.

Definition nothing : Projected := (empty_projection, [], []).
Definition refused (err : error) : Projected := (empty_projection, [], err).
Definition bad : Projected := refused [errMalformedProviderEnvelope].

Definition of_result (r : result Projection) : Projected :=
  match r with Ok p => (p, [], []) | Err e => refused e end.

Definition of_messages (r : result (Projection * list MediaLocator)) : Projected :=
  match r with Ok (p, jobs) => (p, jobs, []) | Err e => refused e end.

(** An account-change payload. *)
Definition valid_account (account : string) : bool :=
  negb (len account =? 0) && negb (len account >? 512) && utf8_ValidString account && ContainsByte account 64 &&
  negb (existsb (fun r => (r <? 0x20) || (r =? 0x7f)) (runes account)).

Definition unsolicited (request : DurableRequest) : bool :=
  (dr_Action request =? UNSPECIFIED) && (dr_ConversationID request =s "") && is_nil (dr_Cursor request).

Definition with_page_cursor (p : Projection) (base next : bytes) : Projection := {|
  pj_Conversations := pj_Conversations p; pj_Messages := pj_Messages p; pj_Lines := pj_Lines p;
  pj_LineSnapshot := pj_LineSnapshot p; pj_Cursor := pj_Cursor p; pj_CursorBase := base;
  pj_CursorCandidate := next; pj_CursorSource := CursorSourceListConversations;
  pj_CursorConversationID := ProviderPageCursorID |}.

Definition project_conversation_page (conversations : list (option Gm.Conversation)) (cursorBytes : bytes)
    (cursor : option Gm.Cursor) (request : DurableRequest) : Projected :=
  if negb (dr_Action request =? LIST_CONVERSATIONS) then bad
  else match responseBackfillCursor unmarshalCursor marshalCursor encodeCursor cursorBytes cursor with
  | Err _ => bad
  | Ok (next, terminal) =>
    match projectConversations conversations with
    | Err e => refused e
    | Ok p => (if terminal then p else with_page_cursor p (dr_Cursor request) next, [], [])
    end
  end.

Definition with_message_cursor (p : Projection) (cursor base : bytes) (conversationID : string) : Projection :=
  let advances := negb (is_nil cursor) in {|
  pj_Conversations := pj_Conversations p; pj_Messages := pj_Messages p; pj_Lines := pj_Lines p;
  pj_LineSnapshot := pj_LineSnapshot p; pj_Cursor := cursor;
  pj_CursorBase := if advances then base else pj_CursorBase p;
  pj_CursorCandidate := if advances then cursor else pj_CursorCandidate p;
  pj_CursorSource := if advances then CursorSourceListMessages else pj_CursorSource p;
  pj_CursorConversationID := if advances then conversationID else pj_CursorConversationID p |}.

Definition in_conversation (conversationID : string) (message : option Gm.Message) : bool :=
  match message with Some m => Gm.Message_ConversationID m =s conversationID | None => false end.

Definition project_message_page (k : K) (ownership : ProviderOwnership) (messages : list (option Gm.Message))
    (cursor : option Gm.Cursor) (request : DurableRequest) : K * Projected :=
  if negb (dr_Action request =? LIST_MESSAGES) || negb (ValidProviderConversationID (dr_ConversationID request))
  then (k, bad)
  else if negb (forallb (in_conversation (dr_ConversationID request)) messages) then (k, bad)
  else
    let '(k', projected) := projectMessages k ownership messages MessageProvenanceHistory in
    (k', match projected with
         | Err e => refused e
         | Ok (p, jobs) =>
           match backfillCursor unmarshalCursor marshalCursor encodeCursor [] cursor with
           | Err e => (p, jobs, e)
           | Ok encoded =>
             (with_message_cursor p encoded (dr_Cursor request) (dr_ConversationID request), jobs, [])
           end
         end).

Definition projected_line (discovered : DiscoveredLine) : ProjectedLine :=
  let line := dl_Line discovered in {|
  pl_ID := line_ID line; pl_TenantID := line_TenantID line; pl_ConnectionID := line_ConnectionID line;
  pl_ProviderParticipantID := line_ProviderParticipantID line; pl_ProviderOutgoingID := line_ProviderOutgoingID line;
  pl_Phone := E164Phone_String (dl_Phone discovered); pl_DisplayName := line_DisplayName line;
  pl_CarrierName := dl_CarrierName discovered; pl_ColorHex := dl_ColorHex discovered;
  pl_RCSEnabled := dl_RCSEnabled discovered; pl_ProviderSIMNumber := dl_ProviderSIMNumber discovered;
  pl_ProviderSIMPayloadType := dl_ProviderSIMPayloadType discovered;
  pl_DiscoverySource := LineDiscoveryAuthenticatedGoogleSettings |}.

Definition with_snapshot (lines : list ProjectedLine) : Projection := {|
  pj_Conversations := []; pj_Messages := []; pj_Lines := lines; pj_LineSnapshot := true; pj_Cursor := [];
  pj_CursorBase := []; pj_CursorCandidate := []; pj_CursorSource := ""; pj_CursorConversationID := "" |}.

Definition invalid_snapshot : Projected := refused (errors_Join [[errMalformedProviderEnvelope]; [ErrInvalidSettingsSnapshot]]).

Definition project_settings (ownership : ProviderOwnership) (simCards : list (option Gm.SIMCard)) : Projected :=
  if is_nil simCards then nothing
  else if blen simCards >? MaxProjectedLines then invalid_snapshot
  else
    let mapped := MapSettingsLines (key_TenantID (ow_Key ownership)) (key_ConnectionID (ow_Key ownership))
                    (Some simCards) in
    if negb (is_nil (lm_Rejected mapped)) || negb (blen (lm_Lines mapped) =? blen simCards) || is_nil (lm_Lines mapped)
    then invalid_snapshot
    else
      let projection := with_snapshot (projected_line <$> lm_Lines mapped) in
      match ValidateProjection unmarshalCursor marshalCursor projection [] with
      | Err e => refused (errors_Join [[errMalformedProviderEnvelope]; [ErrInvalidSettingsSnapshot]; e])
      | Ok _ => (projection, [], [])
      end.

Definition project_update (k : K) (ownership : ProviderOwnership) (isOld : bool) (event : Gm.UpdateEvent)
    : K * Projected :=
  match event with
  | Gm.ConversationEvent None => (k, bad)
  | Gm.ConversationEvent (Some data) => (k, of_result (projectConversations data))
  | Gm.MessageEvent None => (k, bad)
  | Gm.MessageEvent (Some data) =>
    let provenance := if isOld then MessageProvenanceReplay else MessageProvenanceLive in
    let '(k', projected) := projectMessages k ownership data provenance in (k', of_messages projected)
  | Gm.SettingsEvent None => (k, bad)
  | Gm.SettingsEvent (Some simCards) => (k, project_settings ownership simCards)
  | Gm.UserAlertEvent | Gm.TypingEvent | Gm.BrowserPresenceCheckEvent | Gm.AccountChangeEvent _ => (k, nothing)
  | Gm.UnknownEvent => (k, bad)
  end.

(** What follows the two page responses. *)
Definition project_other (k : K) (ownership : ProviderOwnership) (decoded : IncomingRPCMessage)
    (request : DurableRequest) : K * Projected :=
  let correlated := match im_Message decoded with
    | Some m => (Gm.Action m =? dr_Action request) &&
                IsKnownCorrelatedRPCResponse (dr_Action request) (im_DecryptedMessage decoded)
                  (im_PayloadSource decoded) (im_DecryptedData decoded)
    | None => false
    end in
  if correlated then (k, nothing)
  else match im_DecryptedMessage decoded with
  | Some (Gm.UpdateEvents event) => project_update k ownership (im_IsOld decoded) event
  | _ => (k, if (Gm.BugleRoute (im_Frame decoded) =? BugleRoute_PairEvent) ||
                (Gm.BugleRoute (im_Frame decoded) =? BugleRoute_GaiaEvent) then nothing else bad)
  end.

Definition project (k : K) (ownership : ProviderOwnership) (decoded : option IncomingRPCMessage)
    (request : DurableRequest) : K * Projected :=
  match decoded with
  | None => (k, bad)
  | Some d =>
    if (Gm.BugleRoute (im_Frame d) =? BugleRoute_PairEvent) && im_Pair d then (k, nothing)
    else if (Gm.BugleRoute (im_Frame d) =? BugleRoute_GaiaEvent) && im_Gaia d then (k, nothing)
    else match im_PayloadSource d with
    | PayloadSourceLogoutControl =>
      (k, if negb (unsolicited request) || negb (IsLegacyLogoutControl (im_Message d)) ||
             bool_decide (is_Some (im_DecryptedMessage d)) || bool_decide (is_Some (im_Secondary d))
          then bad else nothing)
    | PayloadSourceEncryptedData2 =>
      (k, match im_Message d with
          | Some m => if negb (unsolicited request) || negb (Gm.Action m =? GET_UPDATES) ||
                         (Gm.SessionID m <>s "") || negb (valid_account (default "" (im_Secondary d)))
                      then bad else nothing
          | None => bad
          end)
    | PayloadSourceNone => (k, bad)
    | PayloadSourceEncryptedData =>
      match im_DecryptedMessage d with
      | Some (Gm.ListConversationsResponse conversations cursorBytes cursor) =>
        (k, project_conversation_page conversations cursorBytes cursor request)
      | Some (Gm.ListMessagesResponse messages cursor) => project_message_page k ownership messages cursor request
      | _ => project_other k ownership d request
      end
    end
  end.

(** ** Persisting an envelope *)

Context {S : Type} `{InboxStore S}.

Definition provider_envelope (ownership : ProviderOwnership) (envelope : DurableEnvelope) (projected : Projected)
    (decodeErr : error) (withholdACK : bool) : ProviderEnvelope := {|
  pe_TenantID := key_TenantID (ow_Key ownership); pe_ConnectionID := key_ConnectionID (ow_Key ownership);
  pe_OwnerID := ow_OwnerID ownership; pe_FencingToken := ow_FencingToken ownership;
  pe_ProviderResponseID := de_ResponseID envelope; pe_Raw := de_Raw envelope;
  pe_Projection := projected.1.1; pe_Media := projected.1.2; pe_DecodeError := decodeErr;
  pe_ACKWithheld := withholdACK;
  pe_PoisonReason := if withholdACK then PoisonReasonInvalidSettingsSnapshot else "" |}.

(** What the ingress service's answer means to the client. *)
Definition outcome_of (processed : result ProcessResult) : result DurableOutcome :=
  match processed with
  | Err e => Err (classifyDurablePersistenceError e)
  | Ok r =>
    if negb (pr_ACKEligible r) then
      Err (if pr_ACKWithheld r && pr_Poisoned r
           then errors_Join [[ErrDurablePoisoned]; [ErrInvalidSettingsSnapshot]] else [ErrDurableFenceLost])
    else if pr_Poisoned r then
      Ok (if pr_Duplicate r then DurableOutcomeDuplicatePoisoned else DurableOutcomePoisoned)
    else Ok DurableOutcomeCommitted
  end.

Definition PersistEnvelopeOutcome (k : K) (s : S) (ownership : ProviderOwnership) (envelope : DurableEnvelope)
    (now : Z) : K * S * result DurableOutcome :=
  if negb (owned ownership) then (k, s, Err [ErrDurableFenceLost])
  else if negb (ValidProviderResponseID (de_ResponseID envelope))
  then (k, s, Err (errors_Join [[ErrInvalidProviderResponseID]; [ErrInvalidIdentifier]]))
  else
    let '(k', projected) := if is_nil (de_DecodeError envelope)
      then project k ownership (de_Decoded envelope) (de_Request envelope) else (k, nothing) in
    let err := projected.2 in
    if negb (is_nil err) && negb (errors_Is err errMalformedProviderEnvelope)
    then (k', s, Err (classifyDurablePersistenceError err))
    else
      let withholdACK := errors_Is err ErrInvalidSettingsSnapshot in
      let decodeErr := if is_nil err then de_DecodeError envelope else err in
      let '(s', processed) := Process unmarshalCursor marshalCursor s
        (provider_envelope ownership envelope projected decodeErr withholdACK) now in
      (k', s', outcome_of processed).
End Sink.

(** ** Acknowledgements *)

(** The store of acknowledgements; the last component of [CoordinateACKBatch]
    is what the callback was given. *)
Class ProviderACKStore (S : Type) := {
  MarkProviderACKed : S -> ProviderOwnership -> list string -> S * result bool;
  ListPendingProviderACKs : S -> ProviderOwnership -> Z -> S * result (list string);
  CoordinateACKBatch : S -> ProviderOwnership -> list string -> (list string -> error) ->
    S * (ACKCoordinationResult * error) * option (list string)
}.

(** The PostgreSQL store; every transaction reads the next clock. *)
Definition call_now (s : InboxRepository) : Z := from_option snd 0 (head (ir_calls s)).

Definition after_call (s : InboxRepository) (db : IngressDb) : InboxRepository :=
  {| ir_db := db; ir_calls := tail (ir_calls s) |}.

#[export] Instance postgres_acks : ProviderACKStore InboxRepository := {|
  MarkProviderACKed s o ids :=
    let '(db, out) := MarkProviderACKedFenced (key_TenantID (ow_Key o)) (key_ConnectionID (ow_Key o))
      (ow_OwnerID o) (ow_FencingToken o) ids (call_now s) (ir_db s) in (after_call s db, out);
  ListPendingProviderACKs s o limit :=
    let '(db, out) := ListPendingProviderACKsFenced (key_TenantID (ow_Key o)) (key_ConnectionID (ow_Key o))
      (ow_OwnerID o) (ow_FencingToken o) limit (call_now s) (ir_db s) in (after_call s db, out);
  CoordinateACKBatch s o ids send :=
    let '(db, out, sent) := CoordinateProviderACKsFenced (key_TenantID (ow_Key o)) (key_ConnectionID (ow_Key o))
      (ow_OwnerID o) (ow_FencingToken o) (ow_LeaseTTL o) ids send (call_now s) (ir_db s) in
    (after_call s db, out, sent) |}.

(** How waiting for a slot of a semaphore ended. *)
Inductive Admission := SlotTaken | ContextDone (cause : error).

(** libgm's [ACKCoordinationResult]. *)
Record CoordinationResult := { cr_AdmittedIDs : list string; cr_RetryIDs : list string; cr_ProviderError : error }.

Definition retry_all (candidates : list string) : CoordinationResult :=
  {| cr_AdmittedIDs := []; cr_RetryIDs := candidates; cr_ProviderError := [] |}.

Section Acknowledge.
Context {S : Type} `{ProviderACKStore S}.

Definition PendingACKs (s : S) (ownership : ProviderOwnership) (limit : Z) : S * result (list string) :=
  if negb (owned ownership) || (limit <? 1) || (limit >? 256) then (s, Err [ErrInvalidIdentifier])
  else
    let '(s', listed) := ListPendingProviderACKs s ownership limit in
    (s', match listed with
         | Err e => Err (classifyDurablePersistenceError e)
         | Ok ids => if forallb ValidProviderResponseID ids then Ok ids
                     else Err (errors_Join [[ErrInvalidProviderResponseID]; [ErrInvalidIdentifier]])
         end).

Definition MarkACKed (s : S) (ownership : ProviderOwnership) (ids : list string) : S * error :=
  if is_nil ids || (blen ids >? 256) || negb (forallb ValidProviderResponseID ids) || negb (bool_decide (NoDup ids))
  then (s, [ErrInvalidIdentifier])
  else
    let '(s', marked) := MarkProviderACKed s ownership ids in
    (s', match marked with
         | Err e => classifyDurablePersistenceError e
         | Ok true => []
         | Ok false => [ErrDurableFenceLost]
         end).

(** [contextErr] is the context's error on entry, [sinkSlot] and [processSlot]
    how the waits for the two semaphores end, [contextAfter] the context's error
    once the store has returned. *)
Definition CoordinateACKs (sink : DurableSink) (s : S) (ownership : ProviderOwnership) (candidates : list string)
    (send : list string -> error) (contextErr : error) (sinkSlot processSlot : Admission) (contextAfter : error)
    : S * (CoordinationResult * error) * option (list string) :=
  let none := retry_all [] in
  if negb (owned ownership) || is_nil candidates || (blen candidates >? 256)
  then (s, (none, [ErrInvalidIdentifier]), None)
  else if negb (is_nil contextErr)
  then (s, (retry_all candidates, errors_Join [[ErrACKAdmissionLimited]; contextErr]), None)
  else if (ow_LeaseTTL ownership <=? ProviderACKCoordinationHardTimeout) ||
          (ackTimeout sink * 3 >=? ow_LeaseTTL ownership)
  then (s, (none, [ErrText "durable ACK timeout must be strictly below one third of the connection lease TTL"]), None)
  else match sinkSlot, processSlot with
  | ContextDone cause, _ | SlotTaken, ContextDone cause =>
    (s, (retry_all candidates, errors_Join [[ErrACKAdmissionLimited]; cause]), None)
  | SlotTaken, SlotTaken =>
    let '(s', (stored, err), sent) := CoordinateACKBatch s ownership candidates send in
    let admitted := ac_AdmittedIDs stored in
    if negb (is_nil (ac_ProviderError stored))
    then (s', ({| cr_AdmittedIDs := admitted; cr_RetryIDs := admitted;
                  cr_ProviderError := ac_ProviderError stored |}, []), sent)
    else if negb (is_nil err)
    then (s', ({| cr_AdmittedIDs := admitted; cr_RetryIDs := if is_nil admitted then candidates else admitted;
                  cr_ProviderError := [] |},
               if negb (is_nil contextAfter) then contextAfter else classifyDurablePersistenceError err), sent)
    else (s', ({| cr_AdmittedIDs := admitted; cr_RetryIDs := []; cr_ProviderError := [] |}, []), sent)
  end.
End Acknowledge.
