(* ===== verification/Receive.v ===== *)
(** * Receiving frames and acknowledging them (pkg/libgm/event_handler.go, session_handler.go)

    The protocol client between the long poll and the durable boundary: the
    callers that wait for a response, the bounded queue of acknowledgements, and
    the handling of one frame.  The durable handler and the acknowledgement
    coordinator are the callbacks the gateway installs; [D] is their state. *)

From S2P Require Import Prelude GoText Crypto Domain Ingress Incoming Projector Sink.

Definition ackBatchLimit : Z := 256.
Definition ackQueueLimit : Z := 1024.

(** What leaves the client: events to the application, and what it hands to the
    pairing handlers. *)
Inductive ClientEvent :=
| GaiaLoggedOut
| AccountChange (account : string) (isFake : bool)
| UserAlert
| AuthenticatedSettings (simCards : option (list (option Gm.SIMCard))) (isOld : bool)
| Settings (simCards : option (list (option Gm.SIMCard)))
| ConversationUpdate (conversation : option Gm.Conversation)
| WrappedMessage (message : option Gm.Message) (isOld : bool)
| Typing
| BrowserPresenceACK
| DataReceived
| PairingFrame (frame : IncomingRPCMessage)
| GaiaPairingFrame (frame : IncomingRPCMessage).

(** [cl_Answers] is what the waiting callers were handed, [None] when their
    channel was closed. *)
Record Client := {
  cl_Waiters : gmap string DurableRequest;
  cl_Answers : list (string * option IncomingRPCMessage);
  cl_AckMap : list string;
  cl_AckSet : gset string;
  cl_SkipCount : Z;
  cl_HasCookies : bool;
  cl_Ring : Ring;
  cl_Events : list ClientEvent;
  cl_PhoneResponses : Z;
  cl_Failures : list error
}.

Definition set_waiters (w : gmap string DurableRequest) (c : Client) : Client := {|
  cl_Waiters := w; cl_Answers := cl_Answers c; cl_AckMap := cl_AckMap c; cl_AckSet := cl_AckSet c;
  cl_SkipCount := cl_SkipCount c; cl_HasCookies := cl_HasCookies c; cl_Ring := cl_Ring c;
  cl_Events := cl_Events c; cl_PhoneResponses := cl_PhoneResponses c; cl_Failures := cl_Failures c |}.

Definition set_acks (l : list string) (s : gset string) (c : Client) : Client := {|
  cl_Waiters := cl_Waiters c; cl_Answers := cl_Answers c; cl_AckMap := l; cl_AckSet := s;
  cl_SkipCount := cl_SkipCount c; cl_HasCookies := cl_HasCookies c; cl_Ring := cl_Ring c;
  cl_Events := cl_Events c; cl_PhoneResponses := cl_PhoneResponses c; cl_Failures := cl_Failures c |}.

Definition setSkipCount (n : Z) (c : Client) : Client := {|
  cl_Waiters := cl_Waiters c; cl_Answers := cl_Answers c; cl_AckMap := cl_AckMap c; cl_AckSet := cl_AckSet c;
  cl_SkipCount := n; cl_HasCookies := cl_HasCookies c; cl_Ring := cl_Ring c;
  cl_Events := cl_Events c; cl_PhoneResponses := cl_PhoneResponses c; cl_Failures := cl_Failures c |}.

Definition triggerEvent (e : ClientEvent) (c : Client) : Client := {|
  cl_Waiters := cl_Waiters c; cl_Answers := cl_Answers c; cl_AckMap := cl_AckMap c; cl_AckSet := cl_AckSet c;
  cl_SkipCount := cl_SkipCount c; cl_HasCookies := cl_HasCookies c; cl_Ring := cl_Ring c;
  cl_Events := cl_Events c ++ [e]; cl_PhoneResponses := cl_PhoneResponses c; cl_Failures := cl_Failures c |}.

Definition set_ring (r : Ring) (c : Client) : Client := {|
  cl_Waiters := cl_Waiters c; cl_Answers := cl_Answers c; cl_AckMap := cl_AckMap c; cl_AckSet := cl_AckSet c;
  cl_SkipCount := cl_SkipCount c; cl_HasCookies := cl_HasCookies c; cl_Ring := r;
  cl_Events := cl_Events c; cl_PhoneResponses := cl_PhoneResponses c; cl_Failures := cl_Failures c |}.

Definition observe_failure (e : error) (c : Client) : Client := {|
  cl_Waiters := cl_Waiters c; cl_Answers := cl_Answers c; cl_AckMap := cl_AckMap c; cl_AckSet := cl_AckSet c;
  cl_SkipCount := cl_SkipCount c; cl_HasCookies := cl_HasCookies c; cl_Ring := cl_Ring c;
  cl_Events := cl_Events c; cl_PhoneResponses := cl_PhoneResponses c; cl_Failures := cl_Failures c ++ [e] |}.

(** The waiter is removed before its channel receives the answer. *)
Definition answer (requestID : string) (m : option IncomingRPCMessage) (c : Client) : Client := {|
  cl_Waiters := delete requestID (cl_Waiters c); cl_Answers := cl_Answers c ++ [(requestID, m)];
  cl_AckMap := cl_AckMap c; cl_AckSet := cl_AckSet c; cl_SkipCount := cl_SkipCount c;
  cl_HasCookies := cl_HasCookies c; cl_Ring := cl_Ring c; cl_Events := cl_Events c;
  cl_PhoneResponses := cl_PhoneResponses c; cl_Failures := cl_Failures c |}.

Definition emit_phone_response (c : Client) : Client := {|
  cl_Waiters := cl_Waiters c; cl_Answers := cl_Answers c; cl_AckMap := cl_AckMap c; cl_AckSet := cl_AckSet c;
  cl_SkipCount := cl_SkipCount c; cl_HasCookies := cl_HasCookies c; cl_Ring := cl_Ring c;
  cl_Events := cl_Events c; cl_PhoneResponses := cl_PhoneResponses c + 1; cl_Failures := cl_Failures c |}.

Definition decrementSkipCount (c : Client) : Client * bool :=
  if cl_SkipCount c <=? 0 then (c, false) else (setSkipCount (cl_SkipCount c - 1) c, true).

(** ** Waiting for a response *)

Inductive RequestData :=
| ListMessagesRequest (conversationID : string) (cursor : option Gm.Cursor)
| ListConversationsRequest (cursor : option Gm.Cursor)
| OtherRequest.

Definition marshalDurableRequestCursor (encodeCursor : Gm.Cursor -> option bytes) (cursor : option Gm.Cursor) : bytes :=
  match cursor ≫= encodeCursor with
  | Some encoded => if (blen encoded =? 0) || (blen encoded >? Z.shiftl 4 10) then [] else encoded
  | None => []
  end.

Definition durable_request (encodeCursor : Gm.Cursor -> option bytes) (action : Z) (data : RequestData) : DurableRequest :=
  match data with
  | ListMessagesRequest conversationID cursor =>
    {| dr_Action := action; dr_ConversationID := conversationID;
       dr_Cursor := marshalDurableRequestCursor encodeCursor cursor |}
  | ListConversationsRequest cursor =>
    {| dr_Action := action; dr_ConversationID := "";
       dr_Cursor := marshalDurableRequestCursor encodeCursor cursor |}
  | OtherRequest => {| dr_Action := action; dr_ConversationID := ""; dr_Cursor := [] |}
  end.

Definition waitResponse (encodeCursor : Gm.Cursor -> option bytes) (requestID : string) (action : Z)
    (data : RequestData) (c : Client) : Client :=
  set_waiters (<[requestID := durable_request encodeCursor action data]> (cl_Waiters c)) c.

Definition cancelResponse (requestID : string) (c : Client) : Client :=
  if bool_decide (is_Some (cl_Waiters c !! requestID)) then answer requestID None c else c.

Definition cancelAllResponseWaiters (c : Client) : Client :=
  foldr (fun p acc => answer p.1 None acc) c (map_to_list (cl_Waiters c)).

(** The response an authenticated message names: its request identifier and its
    action. *)
Definition authenticated_session (msg : IncomingRPCMessage) : option (string * Z) :=
  match im_PayloadSource msg, im_Message msg with
  | PayloadSourceEncryptedData, Some m => Some (Gm.SessionID m, Gm.Action m)
  | _, _ => None
  end.

Definition durableRequestFor (c : Client) (msg : option IncomingRPCMessage) : DurableRequest :=
  match msg ≫= authenticated_session with
  | Some (requestID, action) =>
    if requestID =s "" then no_request
    else match cl_Waiters c !! requestID with
    | Some request => if dr_Action request =? action then request else no_request
    | None => no_request
    end
  | None => no_request
  end.

(** Frames with cookies may carry unencrypted data before the real response. *)
Definition early_frame (c : Client) (m : Gm.RPCMessageData) : bool :=
  cl_HasCookies c && negb ((Gm.Action m =? CREATE_GAIA_PAIRING_CLIENT_INIT) ||
    (Gm.Action m =? CREATE_GAIA_PAIRING_CLIENT_FINISHED)) &&
  bool_decide (is_Some (Gm.UnencryptedData m)) && bool_decide (Gm.EncryptedData m = None).

Definition receiveResponse (msg : IncomingRPCMessage) (c : Client) : Client * bool :=
  match im_PayloadSource msg, im_Message msg with
  | PayloadSourceEncryptedData, Some m =>
    if early_frame c m then (c, false)
    else match cl_Waiters c !! Gm.SessionID m with
    | Some request =>
      if dr_Action request =? Gm.Action m
      then (emit_phone_response (answer (Gm.SessionID m) (Some msg) c), true) else (c, false)
    | None => (c, false)
    end
  | _, _ => (c, false)
  end.

Definition discarded (msg : IncomingRPCMessage) (outcome : DurableOutcome) (err : error) : IncomingRPCMessage := {|
  im_Frame := im_Frame msg; im_IsOld := im_IsOld msg; im_Pair := im_Pair msg; im_Gaia := im_Gaia msg;
  im_Message := im_Message msg; im_DecryptedData := []; im_DecryptedMessage := None;
  im_PayloadSource := im_PayloadSource msg; im_Secondary := im_Secondary msg; im_DurableOutcome := outcome;
  im_DurableError := err |}.

Definition receiveDurablePoison (msg : option IncomingRPCMessage) (c : Client) : Client * bool :=
  match msg, msg ≫= authenticated_session with
  | Some m, Some (requestID, _) =>
    if negb (requestID =s "") && bool_decide (is_Some (cl_Waiters c !! requestID))
    then (emit_phone_response (answer requestID (Some (discarded m DurableOutcomePoisoned [ErrDurablePoisoned])) c), true)
    else (c, false)
  | _, _ => (c, false)
  end.

Definition receiveDurableFailure (msg : option IncomingRPCMessage) (failure : error) (c : Client) : Client * bool :=
  match msg, msg ≫= authenticated_session with
  | Some m, Some (requestID, action) =>
    if negb (requestID =s "") && negb (is_nil failure) &&
       bool_decide (dr_Action <$> (cl_Waiters c !! requestID) = Some action)
    then (emit_phone_response (answer requestID (Some (discarded m DurableOutcomeUnknown failure)) c), true)
    else (c, false)
  | _, _ => (c, false)
  end.

(** ** The queue of acknowledgements *)

Definition queueMessageAck (messageID : string) (c : Client) : Client :=
  if negb (ValidProviderResponseID messageID) then c
  else if bool_decide (messageID ∈ cl_AckSet c) then c
  else if blen (cl_AckMap c) >=? ackQueueLimit then c
  else set_acks (cl_AckMap c ++ [messageID]) ({[messageID]} ∪ cl_AckSet c) c.

Fixpoint check_acks (ids : list string) (seen : gset string) : error :=
  match ids with
  | [] => []
  | id :: rest =>
    if negb (ValidProviderResponseID id) then text_error "invalid durable ACK"
    else if bool_decide (id ∈ seen) then text_error "duplicate durable ACK"
    else check_acks rest ({[id]} ∪ seen)
  end.

Definition QueueDurableACKs (ids : list string) (c : Client) : Client * error :=
  if blen ids >? 256 then (c, text_error "too many durable ACKs")
  else let invalid := check_acks ids ∅ in
  if negb (is_nil invalid) then (c, invalid)
  else (foldl (fun acc id => queueMessageAck id acc) c ids, []).

(** The prefix that goes back to the front of the queue. *)
Fixpoint requeue_prefix (ids : list string) (queued : gset string) (room : Z) : list string :=
  match ids with
  | [] => []
  | id :: rest =>
    if negb (bool_decide (id ∈ queued)) && (0 <? room)
    then id :: requeue_prefix rest ({[id]} ∪ queued) (room - 1)
    else requeue_prefix rest queued room
  end.

Definition requeueMessageACKs (ids : list string) (c : Client) : Client :=
  let prefix := requeue_prefix ids (cl_AckSet c) (ackQueueLimit - blen (cl_AckMap c)) in
  set_acks (prefix ++ cl_AckMap c) (list_to_set prefix ∪ cl_AckSet c) c.

(** One of the two lists; [admitted] refuses a retry that was not admitted. *)
Fixpoint validate_ids (candidates : gset string) (admitted : string -> bool) (ids : list string) (seen : gset string)
    : error :=
  match ids with
  | [] => []
  | id :: rest =>
    if negb (bool_decide (id ∈ candidates))
    then text_error "durable ACK coordinator returned an unknown response ID"
    else if bool_decide (id ∈ seen)
    then text_error "durable ACK coordinator returned a duplicate response ID"
    else if negb (admitted id) then text_error "provider ACK retry was not admitted"
    else validate_ids candidates admitted rest ({[id]} ∪ seen)
  end.

Definition validateACKCoordinationResult (candidates : list string) (result : CoordinationResult) : error :=
  let known : gset string := list_to_set candidates in
  let admitted id := is_nil (cr_ProviderError result) || bool_decide (id ∈ cr_AdmittedIDs result) in
  let first := validate_ids known (fun _ => true) (cr_AdmittedIDs result) ∅ in
  let second := validate_ids known admitted (cr_RetryIDs result) ∅ in
  if negb (is_nil first) then first
  else if negb (is_nil second) then second
  else if negb (is_nil (cr_ProviderError result)) && is_nil (cr_RetryIDs result)
  then text_error "provider ACK failure omitted retry IDs"
  else [].

Definition durable_failure (cause : error) : error := ErrDurablePersistence :: cause.

(** The batch that is taken from the front of the queue. *)
Definition take_batch (c : Client) : list string * Client :=
  let batch := take (Z.to_nat (Z.min (blen (cl_AckMap c)) ackBatchLimit)) (cl_AckMap c) in
  (batch, set_acks (drop (length batch) (cl_AckMap c)) (cl_AckSet c ∖ list_to_set batch) c).

Section Acknowledge.
Context {D : Type}.

(** The coordinator may itself queue more acknowledgements; without one the
    batch goes out directly and [observer] records it. *)
Context (coordinator : option (Client -> D -> list string -> Client * D * (CoordinationResult * error)))
  (send : list string -> error) (observer : option (D -> list string -> D * error)).

Definition send_coordinated (coordinate : Client -> D -> list string -> Client * D * (CoordinationResult * error))
    (batch : list string) (c : Client) (d : D) : Client * D :=
  let '(c, d, (result, coordinateErr)) := coordinate c d batch in
  let invalid := validateACKCoordinationResult batch result in
  let err := if is_nil coordinateErr then invalid else coordinateErr in
  if negb (is_nil err) then
    let retryIDs := if is_nil (cr_RetryIDs result) then batch else cr_RetryIDs result in
    (observe_failure (durable_failure err) (requeueMessageACKs retryIDs c), d)
  else if negb (is_nil (cr_ProviderError result)) then (requeueMessageACKs (cr_RetryIDs result) c, d)
  else (c, d).

Definition send_directly (batch : list string) (c : Client) (d : D) : Client * D :=
  if negb (is_nil (send batch)) then (requeueMessageACKs batch c, d)
  else match observer with
  | None => (c, d)
  | Some observe =>
    let '(d, err) := observe d batch in
    if negb (is_nil err) then (observe_failure (durable_failure err) (requeueMessageACKs batch c), d) else (c, d)
  end.

Definition sendAckRequestContext (c : Client) (d : D) : Client * D :=
  let '(batch, c) := take_batch c in
  if is_nil batch then (c, d)
  else match coordinator with
  | Some coordinate => send_coordinated coordinate batch c d
  | None => send_directly batch c d
  end.
End Acknowledge.

(** ** Handling a frame *)

Definition as_old (msg : IncomingRPCMessage) : IncomingRPCMessage := {|
  im_Frame := im_Frame msg; im_IsOld := true; im_Pair := im_Pair msg; im_Gaia := im_Gaia msg;
  im_Message := im_Message msg; im_DecryptedData := im_DecryptedData msg;
  im_DecryptedMessage := im_DecryptedMessage msg; im_PayloadSource := im_PayloadSource msg;
  im_Secondary := im_Secondary msg; im_DurableOutcome := im_DurableOutcome msg;
  im_DurableError := im_DurableError msg |}.

Definition with_outcome (msg : IncomingRPCMessage) (outcome : DurableOutcome) : IncomingRPCMessage := {|
  im_Frame := im_Frame msg; im_IsOld := im_IsOld msg; im_Pair := im_Pair msg; im_Gaia := im_Gaia msg;
  im_Message := im_Message msg; im_DecryptedData := im_DecryptedData msg;
  im_DecryptedMessage := im_DecryptedMessage msg; im_PayloadSource := im_PayloadSource msg;
  im_Secondary := im_Secondary msg; im_DurableOutcome := outcome; im_DurableError := im_DurableError msg |}.

(** [false] when the update is one of the recent ones. *)
Definition fresh_update (id : string) (msg : IncomingRPCMessage) (c : Client) : Client * bool :=
  let '(ring, duplicate) := deduplicateHash id (sha256 (im_DecryptedData msg)) (cl_Ring c) in
  (set_ring ring c, negb duplicate).

Fixpoint conversation_updates (msg : IncomingRPCMessage) (data : list (option Gm.Conversation)) (c : Client) : Client :=
  match data with
  | [] => c
  | part :: rest =>
    let '(c, fresh) := fresh_update (from_option Gm.ConversationID "" part) msg c in
    if negb fresh then c
    else if im_IsOld msg then conversation_updates msg rest c
    else conversation_updates msg rest (triggerEvent (ConversationUpdate part) c)
  end.

Fixpoint message_updates (msg : IncomingRPCMessage) (data : list (option Gm.Message)) (c : Client) : Client :=
  match data with
  | [] => c
  | part :: rest =>
    let '(c, fresh) := fresh_update (from_option Gm.MessageID "" part) msg c in
    if negb fresh then c else message_updates msg rest (triggerEvent (WrappedMessage part (im_IsOld msg)) c)
  end.

Definition update_event (msg : IncomingRPCMessage) (event : Gm.UpdateEvent) (c : Client) : Client :=
  match event with
  | Gm.UserAlertEvent => if im_IsOld msg then c else triggerEvent UserAlert c
  | Gm.SettingsEvent simCards =>
    triggerEvent (Settings simCards) (triggerEvent (AuthenticatedSettings simCards (im_IsOld msg)) c)
  | Gm.ConversationEvent data => conversation_updates msg (default [] data) c
  | Gm.MessageEvent data => message_updates msg (default [] data) c
  | Gm.TypingEvent => if im_IsOld msg then c else triggerEvent Typing c
  | Gm.BrowserPresenceCheckEvent => triggerEvent BrowserPresenceACK c
  | Gm.AccountChangeEvent account => triggerEvent (AccountChange account false) c
  | Gm.UnknownEvent => c
  end.

Definition handleUpdatesEvent (msg : IncomingRPCMessage) (c : Client) : Client :=
  match im_PayloadSource msg with
  | PayloadSourceLogoutControl =>
    if IsLegacyLogoutControl (im_Message msg) then triggerEvent GaiaLoggedOut c else c
  | PayloadSourceEncryptedData2 =>
    let account := default "" (im_Secondary msg) in
    if ContainsByte account 64 then triggerEvent (AccountChange account true) c else c
  | PayloadSourceNone => c
  | PayloadSourceEncryptedData =>
    if bool_decide (Gm.Action <$> im_Message msg = Some GET_UPDATES) then
      let c := if im_IsOld msg then c else triggerEvent DataReceived c in
      match im_DecryptedMessage msg with
      | Some (Gm.UpdateEvents event) => update_event msg event c
      | _ => c
      end
    else c
  end.

Section Handle.
Context {D : Type}.
Context (codec : FrameCodec) (encodeFrame : Gm.IncomingRPCMessage -> option bytes)
  (handler : option (D -> DurableEnvelope -> D * result DurableOutcome)).

Definition raw_frame (rawMsg : Gm.IncomingRPCMessage) (rawEnvelope : bytes) : bytes * error :=
  if is_nil rawEnvelope then
    match encodeFrame rawMsg with Some b => (b, []) | None => ([], text_error "marshal failed") end
  else (rawEnvelope, []).

(** An unsolicited data frame that decoded: its provenance is classified before
    its transaction. *)
Definition classified (c : Client) (msg : option IncomingRPCMessage) (err : error) : bool :=
  match msg with
  | Some m => is_nil err && (Gm.BugleRoute (im_Frame m) =? BugleRoute_DataEvent) &&
              (dr_Action (durableRequestFor c msg) =? UNSPECIFIED)
  | None => false
  end.

Definition consumes_backlog (c : Client) (msg : option IncomingRPCMessage) (err : error) : bool :=
  classified c msg err && (0 <? cl_SkipCount c).

(** The envelope the durable handler is given. *)
Definition durable_envelope (c : Client) (rawMsg : Gm.IncomingRPCMessage) (raw : bytes)
    (msg : option IncomingRPCMessage) (err : error) : DurableEnvelope := {|
  de_ResponseID := Gm.ResponseID rawMsg; de_Raw := raw;
  de_Decoded := if consumes_backlog c msg err then as_old <$> msg else msg;
  de_DecodeError := err; de_Request := durableRequestFor c msg |}.

Definition quarantined (outcome : DurableOutcome) : bool :=
  bool_decide (outcome = DurableOutcomePoisoned) || bool_decide (outcome = DurableOutcomeDuplicatePoisoned).

Definition complete_poison (outcome : DurableOutcome) (msg : option IncomingRPCMessage) (c : Client) : Client :=
  let '(c, matched) := receiveDurablePoison msg c in
  if bool_decide (outcome = DurableOutcomePoisoned) && negb matched
  then observe_failure [ErrDurablePoisoned] c else c.

(** What follows a response that is durable, or that has no durable handler. *)
Definition deliver (outcome : DurableOutcome) (dataEventClassified : bool) (msg : option IncomingRPCMessage)
    (err : error) (responseID : string) (c : Client) : Client :=
  let durable := bool_decide (is_Some handler) in
  let c := if durable then queueMessageAck responseID c else c in
  if negb (is_nil err) then if durable && quarantined outcome then complete_poison outcome msg c else c
  else if quarantined outcome then complete_poison outcome msg c
  else match msg with
  | None => c
  | Some m =>
    let '(c, received) := receiveResponse m c in
    if received then c
    else if Gm.BugleRoute (im_Frame m) =? BugleRoute_PairEvent then triggerEvent (PairingFrame m) c
    else if Gm.BugleRoute (im_Frame m) =? BugleRoute_GaiaEvent then triggerEvent (GaiaPairingFrame m) c
    else if Gm.BugleRoute (im_Frame m) =? BugleRoute_DataEvent then
      let '(c, old) := if dataEventClassified then (c, false) else decrementSkipCount c in
      handleUpdatesEvent (if old then as_old m else m) c
    else c
  end.

Definition fail_durably (cause : error) (msg : option IncomingRPCMessage) (c : Client) : Client :=
  let failure := durable_failure (if is_nil cause then [ErrDurablePersistence] else cause) in
  (receiveDurableFailure msg failure (observe_failure failure c)).1.

Definition handleRPCMsgEnvelopeContext (rawMsg : Gm.IncomingRPCMessage) (rawEnvelope : bytes) (c : Client) (d : D)
    : Client * D :=
  if negb (ValidProviderResponseID (Gm.ResponseID rawMsg)) then (c, d)
  else
    let '(raw, marshalErr) := raw_frame rawMsg rawEnvelope in
    let '(msg, decodeErr) := decryptInternalMessage codec rawMsg in
    let err := if is_nil decodeErr then marshalErr else decodeErr in
    match handler with
    | None => (deliver DurableOutcomeUnknown false msg err (Gm.ResponseID rawMsg) c, d)
    | Some handle =>
      let consume := consumes_backlog c msg err in
      let envelope := durable_envelope c rawMsg raw msg err in
      let '(d, outcome) := handle d envelope in
      match outcome with
      | Err e => (fail_durably e (de_Decoded envelope) c, d)
      | Ok DurableOutcomeUnknown => (fail_durably [] (de_Decoded envelope) c, d)
      | Ok outcome =>
        let c := if bool_decide (outcome = DurableOutcomeCommitted) && consume then (decrementSkipCount c).1 else c in
        (deliver outcome (classified c msg err) ((fun m => with_outcome m outcome) <$> de_Decoded envelope) err
           (Gm.ResponseID rawMsg) c, d)
      end
    end.
End Handle.
