(* ===== verification/Runtime.v ===== *)
(** * The Google Messages runtime (internal/gateway/provider/gmessages/runtime.go)

    The composition of the protocol client with the durable sink for one
    ownership of a connection, and the failure a runtime ends with. *)

From S2P Require Import Prelude GoText Crypto Domain Session Pool Actor Ingress Reconcile Responses Acks Commit Incoming Projector Sink Receive.

(** ** Failures *)

(** [runtimeProvider]: the recorded failure, [[]] when there is none, and
    whether its notification is pending. *)
Record RuntimeFailure := { rf_failure : error; rf_notified : bool }.

Definition terminalFailurePriority (err : error) : Z :=
  if errors_Is err ErrSharedInfrastructure then 500
  else if errors_Is err ErrDurablePoisoned || errors_Is err ErrConflictingEnvelope ||
          errors_Is err ErrInvalidProviderResponseID || errors_Is err ErrProviderResponseCapacity then 450
  else if errors_Is err ErrProviderPermanentProtocol then 400
  else if errors_Is err ErrStaleGeneration then 350
  else if errors_Is err ErrProviderAuthorization then 300
  else if errors_Is err ErrProviderPermanentConfig then 250
  else if errors_Is err ErrProviderTransient then 100
  else 200.

Definition recordFailure (err : error) (p : RuntimeFailure) : RuntimeFailure :=
  if is_nil err || errors_Is err ContextCanceled then p
  else {| rf_failure := if is_nil (rf_failure p) || (terminalFailurePriority err >? terminalFailurePriority (rf_failure p))
                        then err else rf_failure p;
          rf_notified := true |}.

(** The failure [signalFailure] records, if any. *)
Definition signalled (err : error) : option error :=
  if is_nil err || errors_Is err ContextCanceled || errors_Is err ErrACKAdmissionLimited ||
     (errors_Is err ContextDeadlineExceeded && negb (errors_Is err ErrDurableInfrastructure))
  then None
  else Some (
    if errors_Is err ErrDurableFenceLost then errors_Join [[ErrStaleGeneration]; err]
    else if errors_Is err ErrDurableInfrastructure then errors_Join [[ErrSharedInfrastructure]; err]
    else if errors_Is err ErrDurablePoisoned || errors_Is err ErrConflictingEnvelope ||
            errors_Is err ErrInvalidProviderResponseID || errors_Is err ErrProviderResponseCapacity
    then errors_Join [[ErrProviderPermanentProtocol]; err]
    else if errors_Is err ErrDurablePersistence then errors_Join [[ErrProviderPermanentProtocol]; err]
    else err).

Definition signalFailure (err : error) (p : RuntimeFailure) : RuntimeFailure :=
  match signalled err with Some e => recordFailure e p | None => p end.

(** An [events.HTTPError]: its classification and its status code. *)
Record HTTPError := { he_Classification : string; he_StatusCode : Z }.

Inductive RuntimeEvent :=
| EventGaiaLoggedOut
| EventListenFatalError (http : option HTTPError)
| EventOther.

Definition handleEvent (event : RuntimeEvent) (p : RuntimeFailure) : RuntimeFailure :=
  match event with
  | EventGaiaLoggedOut => recordFailure [ErrProviderAuthorization] p
  | EventListenFatalError (Some h) =>
    recordFailure (if he_Classification h =s "authorization" then [ErrProviderAuthorization]
                   else [ErrProviderPermanentProtocol]) p
  | EventListenFatalError None => recordFailure [ErrProviderPermanentProtocol] p
  | EventOther => p
  end.

Definition terminalFailureOr (p : RuntimeFailure) (fallback : error) : error :=
  if is_nil (rf_failure p) then fallback else rf_failure p.

(** How the connected client ended: which arm of the select fired. *)
Inductive RunEnd := FailureSignalled | WaitReturned (err : error) | RunContextDone.

(** [connectErr] is what [ConnectContext] returned, with its HTTP error; [p] the
    failure when [Connect] reads it. *)
Definition Connect (connectErr : error) (http : option HTTPError) (ctxErr : error) (ended : RunEnd)
    (p : RuntimeFailure) : error :=
  if negb (is_nil connectErr) then
    if negb (is_nil (rf_failure p)) then rf_failure p
    else if negb (is_nil ctxErr) then ctxErr
    else match http with
    | Some h => if (he_Classification h =s "authorization") || (he_StatusCode h =? 401) || (he_StatusCode h =? 403)
                then [ErrProviderAuthorization] else [ErrProviderTransient]
    | None => [ErrProviderTransient]
    end
  else match ended with
  | FailureSignalled => terminalFailureOr p [ErrProviderPermanentProtocol]
  | WaitReturned err =>
    if negb (is_nil (rf_failure p)) then rf_failure p
    else if negb (is_nil ctxErr) || errors_Is err ContextCanceled then [ContextCanceled]
    else [ErrProviderPermanentProtocol]
  | RunContextDone => terminalFailureOr p ctxErr
  end.

(** ** Restoring a connection *)

(** What restoring checks before a client is handed out: [decoded] says that the
    session decoded, the booleans which interfaces the client implements. *)
Definition RestoreChecks (decoded : bool) (durable : option DurableSink) (ownership : option ProviderOwnership)
    (needsMediaPolicy supportsMediaPolicy supportsDurable : bool) : result unit :=
  if negb decoded then Err [ErrProviderPermanentConfig]
  else match durable with
  | None => if needsMediaPolicy && negb supportsMediaPolicy then Err [ErrProviderPermanentConfig] else Ok tt
  | Some sink =>
    match ProviderOwnershipFromContext ownership with
    | None => Err [ErrProviderPermanentConfig]
    | Some o =>
      if needsMediaPolicy && negb supportsMediaPolicy then Err [ErrProviderPermanentConfig]
      else if negb supportsDurable then Err [ErrProviderPermanentConfig]
      else if (ow_LeaseTTL o <=? ProviderACKCoordinationHardTimeout) || (ackTimeout sink * 3 >=? ow_LeaseTTL o)
      then Err [ErrProviderPermanentConfig]
      else Ok tt
    end
  end.

Section Runtime.
Context (unmarshalCursor : bytes -> option (string * Z)) (marshalCursor : string * Z -> bytes)
  (encodeCursor : Gm.Cursor -> option bytes).
Context {K : Type} `{MediaKeySealer K}.
Context (sink : DurableSink) (ownership : ProviderOwnership).

(** The sealer and the repository behind the sink. *)
Record Durable := { du_sealer : K; du_repository : InboxRepository }.

(** The handler [Restore] installs; [now] is the clock of the ingress service. *)
Definition durable_handler (now : Z) (d : Durable) (envelope : DurableEnvelope) : Durable * result DurableOutcome :=
  let '(k, s, out) := @PersistEnvelopeOutcome unmarshalCursor marshalCursor encodeCursor K _ InboxRepository
    (commit_store unmarshalCursor marshalCursor) (du_sealer d) (du_repository d) ownership envelope now in
  ({| du_sealer := k; du_repository := s |}, out).

Definition set_repository (s : InboxRepository) (d : Durable) : Durable :=
  {| du_sealer := du_sealer d; du_repository := s |}.

Definition queuePendingACKs (c : Client) (d : Durable) : Client * Durable * error :=
  let '(s, listed) := PendingACKs (du_repository d) ownership 256 in
  match listed with
  | Err e => (c, set_repository s d, e)
  | Ok ids => let '(c, err) := QueueDurableACKs ids c in (c, set_repository s d, err)
  end.

(** The coordinator [Restore] installs. *)
Definition durable_coordinator (send : list string -> error) (contextErr : error) (sinkSlot processSlot : Admission)
    (contextAfter : error) (c : Client) (d : Durable) (ids : list string)
    : Client * Durable * (CoordinationResult * error) :=
  let '(s, (result, err), _) := CoordinateACKs sink (du_repository d) ownership ids send contextErr sinkSlot
    processSlot contextAfter in
  let d := set_repository s d in
  if negb (is_nil err) || negb (is_nil (cr_ProviderError result)) then (c, d, (result, err))
  else
    let '(c, d, refillErr) := queuePendingACKs c d in
    if negb (is_nil refillErr)
    then (c, d, ({| cr_AdmittedIDs := cr_AdmittedIDs result;
                    cr_RetryIDs := if is_nil (cr_AdmittedIDs result) then cr_RetryIDs result
                                   else cr_AdmittedIDs result;
                    cr_ProviderError := cr_ProviderError result |}, refillErr))
    else (c, d, (result, [])).

(** [OnReady]: the pending acknowledgements are queued before the connection is
    reported ready; [true] is [hooks.Ready()]. *)
Definition on_ready (c : Client) (d : Durable) (p : RuntimeFailure) : Client * Durable * RuntimeFailure * bool :=
  let '(c, d, err) := queuePendingACKs c d in
  if negb (is_nil err) then (c, d, signalFailure err p, false) else (c, d, p, true).
End Runtime.
