(* ===== verification/ReceiveSafety.v ===== *)
(** * What an acknowledgement stands for

    The protocol client composed with the durable sink and the PostgreSQL store:
    only durable responses are queued for acknowledgement, the queue keeps its
    shape, no acknowledgement is lost between the queue and the store, and what
    the projections may claim of a provider message. *)

From S2P Require Import Prelude GoText Crypto GoEncoding Domain Session EventContract Pool Actor Store Leases Ingress Provider Reconcile Responses Acks Commit InboxInvariant CommitSafety Incoming Projector Sink Receive Runtime.

(** ** The queue and the rest of the client *)

Definition same_queue (c c' : Client) : Prop := cl_AckMap c' = cl_AckMap c /\ cl_AckSet c' = cl_AckSet c.

#[export] Instance same_queue_preorder : PreOrder same_queue.
Proof. split; [done|]. intros c1 c2 c3 [? ?] [? ?]. split; congruence. Qed.

Lemma same_queue_refl c : same_queue c c.
Proof. done. Qed.

Create HintDb queue.
#[export] Hint Resolve same_queue_refl : queue.

Lemma receiveResponse_queue msg c : same_queue c (receiveResponse msg c).1.
Proof.
  unfold receiveResponse. destruct (im_PayloadSource msg), (im_Message msg) as [m|]; try done.
  case_if_goal E; [done|]. destruct (cl_Waiters c !! _) as [r|]; [|done]. by case_if_goal E'.
Qed.

Lemma receiveDurablePoison_queue msg c : same_queue c (receiveDurablePoison msg c).1.
Proof.
  unfold receiveDurablePoison. destruct msg as [m|]; [|done]. simpl.
  destruct (authenticated_session m) as [[id a]|]; [|done]. by case_if_goal E.
Qed.

Lemma receiveDurableFailure_queue msg e c : same_queue c (receiveDurableFailure msg e c).1.
Proof.
  unfold receiveDurableFailure. destruct msg as [m|]; [|done]. simpl.
  destruct (authenticated_session m) as [[id a]|]; [|done]. by case_if_goal E.
Qed.

Lemma complete_poison_queue outcome msg c : same_queue c (complete_poison outcome msg c).
Proof.
  unfold complete_poison. pose proof (receiveDurablePoison_queue msg c) as H.
  destruct (receiveDurablePoison msg c) as [c1 matched]. by case_if_goal E.
Qed.

Lemma fail_durably_queue cause msg c : same_queue c (fail_durably cause msg c).
Proof. unfold fail_durably. etransitivity; [|apply receiveDurableFailure_queue]. done. Qed.

Lemma fresh_update_queue id msg c : same_queue c (fresh_update id msg c).1.
Proof. unfold fresh_update. by destruct (deduplicateHash _ _ _). Qed.

Lemma conversation_updates_queue msg data c : same_queue c (conversation_updates msg data c).
Proof.
  revert c. induction data as [|part rest IH]; intros c; cbn [conversation_updates]; [done|].
  pose proof (fresh_update_queue (from_option Gm.ConversationID "" part) msg c) as H.
  destruct (fresh_update _ msg c) as [c1 fresh]. simpl in H.
  destruct fresh; [|done]. cbn [negb]. case_if_goal E; (etransitivity; [exact H|]); [apply IH|].
  etransitivity; [|apply IH]. done.
Qed.

Lemma message_updates_queue msg data c : same_queue c (message_updates msg data c).
Proof.
  revert c. induction data as [|part rest IH]; intros c; cbn [message_updates]; [done|].
  pose proof (fresh_update_queue (from_option Gm.MessageID "" part) msg c) as H.
  destruct (fresh_update _ msg c) as [c1 fresh]. simpl in H.
  destruct fresh; [|done]. cbn [negb]. etransitivity; [exact H|]. etransitivity; [|apply IH]. done.
Qed.

Lemma handleUpdatesEvent_queue msg c : same_queue c (handleUpdatesEvent msg c).
Proof.
  unfold handleUpdatesEvent. destruct (im_PayloadSource msg); [done|..|by case_if_goal E].
  2: { case_if_goal E; done. }
  case_if_goal E; [|done]. set (c1 := if im_IsOld msg then c else triggerEvent DataReceived c).
  assert (H : same_queue c c1) by (unfold c1; by destruct (im_IsOld msg)).
  destruct (im_DecryptedMessage msg) as [[| |event|]|]; try done. etransitivity; [exact H|].
  destruct event; cbn [update_event]; try done; try by destruct (im_IsOld msg).
  - apply conversation_updates_queue.
  - apply message_updates_queue.
Qed.

Lemma decrementSkipCount_queue c : same_queue c (decrementSkipCount c).1.
Proof. unfold decrementSkipCount. by case_if_goal E. Qed.

(** Handling what is durable changes the queue by at most the response. *)
Lemma deliver_queue {D} (handler : option (D -> DurableEnvelope -> D * result DurableOutcome)) outcome cls msg err id c :
  same_queue (if bool_decide (is_Some handler) then queueMessageAck id c else c)
    (deliver handler outcome cls msg err id c).
Proof.
  unfold deliver. set (c1 := if bool_decide (is_Some handler) then _ else c). case_if_goal E.
  { case_if_goal E'; [apply complete_poison_queue|done]. }
  case_if_goal E'; [apply complete_poison_queue|]. destruct msg as [m|]; [|done].
  pose proof (receiveResponse_queue m c1) as H. destruct (receiveResponse m c1) as [c2 received]. simpl in H.
  destruct received; [done|]. destruct (_ =? BugleRoute_PairEvent); [done|].
  destruct (_ =? BugleRoute_GaiaEvent); [done|]. destruct (_ =? BugleRoute_DataEvent); [|done].
  etransitivity; [exact H|]. destruct cls; [apply handleUpdatesEvent_queue|].
  pose proof (decrementSkipCount_queue c2) as H'. destruct (decrementSkipCount c2) as [c3 old].
  etransitivity; [exact H'|]. apply handleUpdatesEvent_queue.
Qed.

Lemma queueMessageAck_in id x c : x ∈ cl_AckMap (queueMessageAck id c) -> x ∈ cl_AckMap c \/ x = id.
Proof.
  unfold queueMessageAck. case_if_goal E1; [auto|]. case_if_goal E2; [auto|]. case_if_goal E3; [auto|]. cbn [cl_AckMap set_acks].
  intros [?|?%list_elem_of_singleton]%elem_of_app; auto.
Qed.

(** ** Durable before acknowledged *)

(** A response of the connection that the store holds under the digest of
    exactly these bytes, unconflicted and pending acknowledgement. *)
Definition durable_response (r : Responses) (ownership : ProviderOwnership) (responseID : string) (raw : bytes) : Prop :=
  let k := (key_TenantID (ow_Key ownership), key_ConnectionID (ow_Key ownership), responseID) in
  exists rs, reservations r !! k = Some rs /\ rs_Digest rs = sha256 raw /\ rs_Conflicted rs = false /\
    ackable r k = true.

Section Durable.
Context (unmarshalCursor : bytes -> option (string * Z)) (marshalCursor : string * Z -> bytes)
  (encodeCursor : Gm.Cursor -> option bytes).
Context {K : Type} `{MediaKeySealer K}.
Context (ownership : ProviderOwnership).

Abbreviation handler now := (durable_handler unmarshalCursor marshalCursor encodeCursor ownership now).

Lemma durable_handler_durable now (d d' : Durable) envelope outcome :
  responses_ok (responses (ir_db (du_repository d))) ->
  handler now d envelope = (d', Ok outcome) ->
  outcome <> DurableOutcomeUnknown /\
  durable_response (responses (ir_db (du_repository d'))) ownership (de_ResponseID envelope) (de_Raw envelope).
Proof.
  intros Hok. unfold durable_handler, PersistEnvelopeOutcome.
  case_if_goal E1; [done|]. case_if_goal E2; [done|].
  destruct (if is_nil (de_DecodeError envelope) then _ else _) as [k' projected].
  case_if_goal E3; [done|].
  set (pe := provider_envelope _ _ _ _ _).
  destruct (@Process _ _ _ _ _ pe now) as [s' processed] eqn:Ep. intros [= <- Hout]. cbn [du_repository].
  unfold outcome_of in Hout. destruct processed as [r|e]; [|done]. destruct (pr_ACKEligible r) eqn:Ee; [|done].
  cbn [negb] in Hout. split; [by destruct (pr_Poisoned r), (pr_Duplicate r); injection Hout as <-|].
  exact (eligible_is_durable _ _ _ _ pe now r Hok Ep Ee).
Qed.
End Durable.

(** C13. Only what is durable is acknowledged: when handling a frame of the long poll puts
    a response on the queue of acknowledgements, it is the response of that
    frame, and the store holds it under the digest of exactly the received
    bytes, not in conflict and pending acknowledgement, whether its payload was
    projected, or was quarantined because it did not decode. *)
Theorem acknowledged_is_durable (unmarshalCursor : bytes -> option (string * Z)) (marshalCursor : string * Z -> bytes)
  (encodeCursor : Gm.Cursor -> option bytes) {K : Type} `{MediaKeySealer K} (codec : FrameCodec)
  (encodeFrame : Gm.IncomingRPCMessage -> option bytes) (ownership : ProviderOwnership) (now : Z)
  (frame : Gm.IncomingRPCMessage) (bytes_received : bytes) (c c' : Client) (d d' : @Durable K) (id : string)
  (Hok : responses_ok (responses (ir_db (du_repository d))))
  (Hrun : handleRPCMsgEnvelopeContext codec encodeFrame
            (Some (durable_handler unmarshalCursor marshalCursor encodeCursor ownership now)) frame bytes_received c d
          = (c', d'))
  (Hnew : id ∉ cl_AckMap c) (Hqueued : id ∈ cl_AckMap c') :
  id = Gm.ResponseID frame /\
  durable_response (responses (ir_db (du_repository d'))) ownership id (raw_frame encodeFrame frame bytes_received).1.
Proof.
  unfold handleRPCMsgEnvelopeContext in Hrun. revert Hrun. case_if_goal E; [by intros [= <- _]|].
  destruct (raw_frame encodeFrame frame bytes_received) as [raw marshalErr].
  destruct (decryptInternalMessage codec frame) as [msg decodeErr].
  set (err := if is_nil decodeErr then _ else _). set (env := durable_envelope _ _ _ _ _).
  destruct (durable_handler _ _ _ _ _ d env) as [d1 out] eqn:Eh.
  assert (Hfail : forall cause, id ∉ cl_AckMap (fail_durably cause (de_Decoded env) c)).
  { intros cause. destruct (fail_durably_queue cause (de_Decoded env) c) as [-> _]. done. }
  destruct out as [outcome|e]; [|intros [= <- <-]; by destruct (Hfail e)].
  apply durable_handler_durable in Eh as [Hne Hd]; [|done].
  destruct (bool_decide (outcome = DurableOutcomeUnknown)) eqn:Eu; [by apply bool_decide_eq_true in Eu|].
  set (c1 := if bool_decide (outcome = DurableOutcomeCommitted) && consumes_backlog c msg err
             then (decrementSkipCount c).1 else c).
  assert (Hc1 : same_queue c c1).
  { unfold c1. destruct (_ && _); [apply decrementSkipCount_queue|done]. }
  intros Hrun. assert (c' = deliver (Some (durable_handler unmarshalCursor marshalCursor encodeCursor ownership now)) outcome
    (classified c1 msg err) ((fun m => with_outcome m outcome) <$> de_Decoded env) err (Gm.ResponseID frame) c1 /\ d' = d1)
    as [-> ->] by (unfold c1; destruct outcome; injection Hrun as <- <-; done).
  match type of Hqueued with _ ∈ cl_AckMap (deliver ?h ?o ?cls ?m ?e ?i ?c0) =>
    destruct (deliver_queue h o cls m e i c0) as [Hq _] end.
  rewrite Hq in Hqueued. cbn in Hqueued. apply queueMessageAck_in in Hqueued as [Hin| ->].
  - destruct Hc1 as [Hc1 _]. by rewrite Hc1 in Hin.
  - split; [done|]. exact Hd.
Qed.

(** ** The shape of the queue *)

(** No identifier twice, within the window, and the set is the queue's. *)
Record queue_ok (c : Client) : Prop := {
  queue_nodup : NoDup (cl_AckMap c);
  queue_bound : blen (cl_AckMap c) <= ackQueueLimit;
  queue_set : cl_AckSet c = list_to_set (cl_AckMap c)
}.

Lemma queue_ok_same c c' : same_queue c c' -> queue_ok c -> queue_ok c'.
Proof. intros [Hm Hs] [Hn Hb He]. split; rewrite ?Hs, Hm; done. Qed.

Lemma queueMessageAck_ok id c : queue_ok c -> queue_ok (queueMessageAck id c).
Proof.
  intros Hok. unfold queueMessageAck. case_if_goal E1; [done|]. case_if_goal E2; [done|]. case_if_goal E3; [done|].
  destruct Hok as [Hn Hb He]. apply bool_decide_eq_false in E2. rewrite He in E2.
  split; cbn [cl_AckMap cl_AckSet set_acks].
  - apply NoDup_app. split_and!; [done| |apply NoDup_singleton]. set_solver.
  - unfold blen in *. rewrite length_app. simpl. lia.
  - rewrite He, list_to_set_app_L. set_solver.
Qed.

Lemma QueueDurableACKs_ok ids c : queue_ok c -> queue_ok (QueueDurableACKs ids c).1.
Proof.
  intros Hok. unfold QueueDurableACKs. case_if_goal E1; [done|]. case_if_goal E2; [done|]. simpl. clear E1 E2.
  revert c Hok. induction ids as [|id ids IH]; intros c Hok; [done|]. simpl. apply IH. by apply queueMessageAck_ok.
Qed.

Lemma requeue_prefix_spec ids queued room :
  0 <= room ->
  NoDup (requeue_prefix ids queued room) /\ blen (requeue_prefix ids queued room) <= room /\
  (forall id, id ∈ requeue_prefix ids queued room -> id ∈ ids /\ id ∉ queued) /\
  (forall id, id ∈ ids -> id ∈ queued \/ id ∈ requeue_prefix ids queued room \/
    room <= blen (requeue_prefix ids queued room)).
Proof.
  revert queued room. induction ids as [|id ids IH]; intros queued room Hr; cbn [requeue_prefix].
  { split_and!; [constructor|done|set_solver|set_solver]. }
  case_if_goal E.
  - apply andb_true_iff in E as [E1 E2]. apply negb_true_iff, bool_decide_eq_false in E1. apply Z.ltb_lt in E2.
    destruct (IH ({[id]} ∪ queued) (room - 1)) as (Hn & Hb & Hin & Hall); [lia|]. split_and!.
    + constructor; [|done]. intros Hx. destruct (Hin _ Hx). set_solver.
    + unfold blen in *. simpl. lia.
    + intros x [->|Hx]%elem_of_cons; [set_solver|]. destruct (Hin _ Hx). set_solver.
    + intros x [->|Hx]%elem_of_cons; [set_solver|]. destruct (Hall _ Hx) as [Hq|[Hq|Hq]].
      * apply elem_of_union in Hq as [->%elem_of_singleton|Hq]; set_solver.
      * set_solver.
      * right. right. unfold blen in *. simpl. lia.
  - destruct (IH queued room Hr) as (Hn & Hb & Hin & Hall). split_and!; [done|done|set_solver|].
    intros x [->|Hx]%elem_of_cons; [|by apply Hall]. apply andb_false_iff in E as [E|E].
    + apply negb_false_iff, bool_decide_eq_true in E. by left.
    + apply Z.ltb_ge in E. right. right. unfold blen. lia.
Qed.

Lemma requeueMessageACKs_ok ids c : queue_ok c -> queue_ok (requeueMessageACKs ids c).
Proof.
  intros [Hn Hb He]. unfold requeueMessageACKs.
  destruct (requeue_prefix_spec ids (cl_AckSet c) (ackQueueLimit - blen (cl_AckMap c))) as (Hpn & Hpb & Hin & _); [lia|].
  split; cbn [cl_AckMap cl_AckSet set_acks].
  - apply NoDup_app. split_and!; [done| |done]. intros x Hx. destruct (Hin _ Hx) as [_ Hq]. rewrite He in Hq. set_solver.
  - unfold blen in *. rewrite length_app. lia.
  - rewrite list_to_set_app_L, He. done.
Qed.

Lemma take_batch_spec c :
  queue_ok c ->
  queue_ok (take_batch c).2 /\ NoDup (take_batch c).1 /\ blen (take_batch c).1 <= ackBatchLimit /\
  cl_AckMap c = (take_batch c).1 ++ cl_AckMap (take_batch c).2.
Proof.
  intros [Hn Hb He]. unfold take_batch. set (n := Z.to_nat _). cbn [fst snd cl_AckMap set_acks].
  set (batch := take n (cl_AckMap c)).
  assert (Hsplit : cl_AckMap c = batch ++ drop (length batch) (cl_AckMap c)).
  { unfold batch. rewrite length_take. destruct (Nat.le_gt_cases n (length (cl_AckMap c))).
    - rewrite Nat.min_l by done. by rewrite take_drop.
    - rewrite Nat.min_r by lia. rewrite drop_all, app_nil_r, take_ge by lia. done. }
  rewrite Hsplit in Hn. apply NoDup_app in Hn as (Hn1 & Hdis & Hn2). split_and!.
  - split; cbn [cl_AckMap cl_AckSet set_acks]; [done| |].
    + unfold blen in *. rewrite length_drop. lia.
    + rewrite He. rewrite Hsplit at 1. rewrite list_to_set_app_L. set_solver.
  - done.
  - unfold batch, blen, n. rewrite length_take. unfold ackBatchLimit, blen. lia.
  - done.
Qed.

(** What an operation of the client may be; handlers and coordinators are
    arbitrary, but for the queue a coordinator only adds to. *)
Definition only_queues {D} (coordinate : Client -> D -> list string -> Client * D * (CoordinationResult * error)) : Prop :=
  forall c d batch, exists ids, (coordinate c d batch).1.1 = c \/ (coordinate c d batch).1.1 = (QueueDurableACKs ids c).1.

Inductive client_step {D : Type} : Client -> Client -> Prop :=
| step_frame codec encodeFrame (handler : option (D -> DurableEnvelope -> D * result DurableOutcome)) frame raw c d :
    client_step c (handleRPCMsgEnvelopeContext codec encodeFrame handler frame raw c d).1
| step_acknowledge coordinator send (observer : option (D -> list string -> D * error)) c d :
    (forall coordinate, coordinator = Some coordinate -> only_queues coordinate) ->
    client_step c (sendAckRequestContext coordinator send observer c d).1
| step_refill ids c : client_step c (QueueDurableACKs ids c).1
| step_wait encodeCursor requestID action data c : client_step c (waitResponse encodeCursor requestID action data c)
| step_cancel requestID c : client_step c (cancelResponse requestID c)
| step_close c : client_step c (cancelAllResponseWaiters c)
| step_backlog n c : client_step c (setSkipCount n c).

Lemma handle_frame_ok {D} codec encodeFrame (handler : option (D -> DurableEnvelope -> D * result DurableOutcome)) frame raw c d :
  queue_ok c -> queue_ok (handleRPCMsgEnvelopeContext codec encodeFrame handler frame raw c d).1.
Proof.
  intros Hok. unfold handleRPCMsgEnvelopeContext. case_if_goal E; [done|].
  destruct (raw_frame _ _ _) as [bs marshalErr]. destruct (decryptInternalMessage _ _) as [msg decodeErr].
  set (err := if is_nil decodeErr then _ else _).
  assert (Hdeliver : forall outcome cls m c1, same_queue c c1 ->
    queue_ok (deliver handler outcome cls m err (Gm.ResponseID frame) c1)).
  { intros outcome cls m c1 Hs. eapply queue_ok_same; [apply deliver_queue|].
    pose proof (queue_ok_same _ _ Hs Hok). case_if_goal Eh; [by apply queueMessageAck_ok|done]. }
  destruct handler as [handle|]; [|by apply Hdeliver].
  set (env := durable_envelope _ _ _ _ _). destruct (handle d env) as [d1 out].
  assert (Hfail : forall cause, queue_ok (fail_durably cause (de_Decoded env) c)).
  { intros cause. eapply queue_ok_same; [apply fail_durably_queue|done]. }
  destruct out as [[]|e]; try apply Hfail; apply Hdeliver; cbv zeta;
    (case_if_goal Ec; [apply decrementSkipCount_queue|done]).
Qed.

Lemma cancelAll_queue c : same_queue c (cancelAllResponseWaiters c).
Proof. unfold cancelAllResponseWaiters. induction (map_to_list (cl_Waiters c)) as [|p l IH]; [done|]. exact IH. Qed.

Lemma send_round_ok {D} coordinator send (observer : option (D -> list string -> D * error)) c d :
  (forall coordinate, coordinator = Some coordinate -> only_queues coordinate) ->
  queue_ok c -> queue_ok (sendAckRequestContext coordinator send observer c d).1.
Proof.
  intros Hc Hok. unfold sendAckRequestContext. destruct (take_batch_spec c Hok) as (Hok1 & _).
  destruct (take_batch c) as [batch c1]. simpl in Hok1. case_if_goal E; [done|].
  destruct coordinator as [coordinate|].
  - unfold send_coordinated. destruct (Hc coordinate eq_refl c1 d batch) as [ids Hq].
    destruct (coordinate c1 d batch) as [[c2 d2] [result cerr]]. simpl in Hq.
    assert (Hok2 : queue_ok c2) by (destruct Hq as [-> | ->]; [done|by apply QueueDurableACKs_ok]).
    case_if_goal E1; [by apply (queue_ok_same (requeueMessageACKs (if is_nil (cr_RetryIDs result) then batch else cr_RetryIDs result) c2));
      [|apply requeueMessageACKs_ok]|].
    case_if_goal E2; [by apply requeueMessageACKs_ok|done].
  - unfold send_directly. case_if_goal E1; [by apply requeueMessageACKs_ok|]. destruct observer as [observe|]; [|done].
    destruct (observe d batch) as [d2 err]. case_if_goal E2; [|done].
    apply (queue_ok_same (requeueMessageACKs batch c1)); [done|by apply requeueMessageACKs_ok].
Qed.

(** The queue of acknowledgements keeps its shape under any sequence of frames,
    acknowledgement rounds, refills and cancellations, whatever the durable
    handler and the coordinator answer: no response is queued twice, at most
    1024 are queued, and the set that decides duplicates is the queue's. *)
Theorem ack_queue_well_formed {D : Type} (c c' : Client)
  (Hok : queue_ok c) (Hrun : rtc (@client_step D) c c') : queue_ok c'.
Proof.
  induction Hrun as [c|c1 c2 c3 Hstep _ IH]; [done|]. apply IH. destruct Hstep.
  - by apply handle_frame_ok.
  - by apply send_round_ok.
  - by apply QueueDurableACKs_ok.
  - by apply (queue_ok_same c).
  - unfold cancelResponse. case_if_goal E; [by apply (queue_ok_same c)|done].
  - eapply queue_ok_same; [apply cancelAll_queue|done].
  - by apply (queue_ok_same c).
Qed.

(** ** No acknowledgement is lost *)

(** A coordination either settles every identifier it was given, or changes no
    response and names what is to be tried again. *)
Lemma coordinate_settles t c owner token ttl ids send now s s' result err sent :
  CoordinateProviderACKsFenced t c owner token ttl ids send now s = (s', (result, err), sent) ->
  (err = [] /\ ac_ProviderError result = [] /\ forall id, id ∈ ids -> ackable (responses s') (t, c, id) = false) \/
  (responses s' = responses s /\
   ((err <> [] /\ ac_ProviderError result = [] /\ ac_AdmittedIDs result = []) \/
    ((err <> [] \/ ac_ProviderError result <> []) /\ ac_AdmittedIDs result = admitted (responses s) t c ids /\
     ac_AdmittedIDs result <> []))).
Proof.
  unfold CoordinateProviderACKsFenced. case_if_goal E; [intros [= <- <- <- _]; right; split; [done|by left]|].
  unfold coordinate. cbv zeta. case_if_goal E1; [intros [= <- <- <- _]; right; split; [done|by left]|].
  case_if_goal E2.
  { intros [= <- <- <- _]. left. split_and!; [done..|]. intros id Hid. apply is_nil_true in E2. simpl in *.
    destruct (ackable (responses s) (t, c, id)) eqn:Ea; [|done].
    assert (Hin : id ∈ admitted (responses s) t c ids) by (by apply elem_of_admitted). rewrite E2 in Hin. set_solver. }
  apply is_nil_false in E2. case_if_goal E3.
  { intros [= <- <- <- _]. apply negb_true_iff, is_nil_false in E3. right. split; [done|]. right. split_and!; auto. }
  case_if_goal E4; intros [= <- <- <- _].
  - left. split_and!; [done..|]. intros id Hid. cbn [responses set_responses set_base]. rewrite mark_acked_ackable.
    destruct (ackable (responses s) (t, c, id)) eqn:Ea; [|done]. simpl. apply negb_false_iff.
    unfold requested. apply andb_true_iff. split; [unfold same_connection; simpl; by rewrite !String.eqb_refl|].
    apply bool_decide_eq_true. by apply elem_of_admitted.
  - right. split; [done|]. right. split_and!; auto.
Qed.

Definition acknowledged_or_queued (r : Responses) (o : ProviderOwnership) (c : Client) (id : string) : Prop :=
  ackable r (key_TenantID (ow_Key o), key_ConnectionID (ow_Key o), id) = false \/ id ∈ cl_AckMap c \/
  blen (cl_AckMap c) = ackQueueLimit.

Lemma requeued ids c id :
  queue_ok c -> id ∈ ids \/ id ∈ cl_AckMap c ->
  id ∈ cl_AckMap (requeueMessageACKs ids c) \/ blen (cl_AckMap (requeueMessageACKs ids c)) = ackQueueLimit.
Proof.
  intros Hok Hid. pose proof (queue_bound _ (requeueMessageACKs_ok ids c Hok)) as Hb.
  destruct Hok as [_ Hbc He]. unfold requeueMessageACKs in *. cbn [cl_AckMap set_acks] in *.
  destruct (requeue_prefix_spec ids (cl_AckSet c) (ackQueueLimit - blen (cl_AckMap c))) as (_ & _ & _ & Hall); [lia|].
  destruct Hid as [Hid|Hid]; [|left; set_solver]. destruct (Hall _ Hid) as [Hq|[Hq|Hq]].
  - left. rewrite He in Hq. set_solver.
  - left. set_solver.
  - right. unfold blen in *. rewrite length_app in *. lia.
Qed.

Lemma queueMessageAck_keeps id x c : x ∈ cl_AckMap c -> x ∈ cl_AckMap (queueMessageAck id c).
Proof.
  intros Hx. unfold queueMessageAck. case_if_goal E1; [done|]. case_if_goal E2; [done|]. case_if_goal E3; [done|].
  cbn [cl_AckMap set_acks]. set_solver.
Qed.

Lemma QueueDurableACKs_keeps ids x c : x ∈ cl_AckMap c -> x ∈ cl_AckMap (QueueDurableACKs ids c).1.
Proof.
  intros Hx. unfold QueueDurableACKs. case_if_goal E1; [done|]. case_if_goal E2; [done|]. simpl. clear E1 E2.
  revert c Hx. induction ids as [|id ids IH]; intros c Hx; [done|]. simpl. apply IH. by apply queueMessageAck_keeps.
Qed.

Lemma classify_nonempty err : err <> [] -> classifyDurablePersistenceError err <> [].
Proof.
  intros H. unfold classifyDurablePersistenceError. case_if_goal E1; [done|]. case_if_goal E2; [done|].
  case_if_goal E3; [done|]. by case_if_goal E4.
Qed.

Section NotLost.
Context {K : Type} `{MediaKeySealer K}.
Context (sink : DurableSink) (ownership : ProviderOwnership).

Abbreviation store_responses d := (responses (ir_db (du_repository d))).
Abbreviation pending d id :=
  (ackable (store_responses d) (key_TenantID (ow_Key ownership), key_ConnectionID (ow_Key ownership), id)).

Lemma queuePendingACKs_effect (c c' : Client) (d d' : @Durable K) err :
  queuePendingACKs ownership c d = (c', d', err) ->
  store_responses d' = store_responses d /\ exists ids, c' = c \/ c' = (QueueDurableACKs ids c).1.
Proof.
  unfold queuePendingACKs, PendingACKs. case_if_goal E.
  { intros [= <- <- _]. split; [done|]. exists []. by left. }
  cbn [ListPendingProviderACKs postgres_acks].
  destruct (ListPendingProviderACKsFenced _ _ _ _ _ _ _) as [db listed] eqn:El.
  assert (Hdb : db = ir_db (du_repository d)).
  { pose proof (list_pending_db (key_TenantID (ow_Key ownership)) (key_ConnectionID (ow_Key ownership))
      (ow_OwnerID ownership) (ow_FencingToken ownership) 256 (call_now (du_repository d)) (ir_db (du_repository d))) as Hl.
    rewrite El in Hl. exact Hl. }
  subst db. destruct listed as [ids|e]; [|intros [= <- <- _]; split; [done|]; exists []; by left].
  case_if_goal Ev; [|intros [= <- <- _]; split; [done|]; exists []; by left].
  destruct (QueueDurableACKs ids c) as [c1 e1] eqn:Eq. intros [= <- <- _]. split; [done|].
  exists ids. right. by rewrite Eq.
Qed.

(** What a round leaves of the batch: settled, or in the list that goes back. *)
Definition round_effect (c c' : Client) (d' : @Durable K) (batch : list string) (result : CoordinationResult)
    (err : error) : Prop :=
  (exists ids, c' = c \/ c' = (QueueDurableACKs ids c).1) /\
  ((forall id, id ∈ batch -> pending d' id = false) \/
   ((err <> [] \/ cr_ProviderError result <> []) /\ (cr_ProviderError result <> [] -> cr_RetryIDs result <> []) /\
    forall id, id ∈ batch -> pending d' id = false \/
      id ∈ (if is_nil (cr_RetryIDs result) then batch else cr_RetryIDs result))).

Lemma refused_round c d batch retry err :
  err <> [] -> retry = [] \/ retry = batch -> round_effect c c d batch (retry_all retry) err.
Proof.
  intros Herr Hretry. split; [exists []; by left|]. right. split_and!; [by left|done|]. intros id Hid. right.
  destruct Hretry as [-> | ->]; [done|]. cbn. by case_if_goal E.
Qed.

Lemma durable_coordinator_effect send e0 slot1 slot2 e1 (c c' : Client) (d d' : @Durable K) batch result err :
  durable_coordinator sink ownership send e0 slot1 slot2 e1 c d batch = (c', d', (result, err)) ->
  round_effect c c' d' batch result err.
Proof.
  unfold durable_coordinator, CoordinateACKs. cbv zeta.
  case_if_goal E1; [intros [= <- <- <- <-]; apply refused_round; auto|].
  case_if_goal E2; [intros [= <- <- <- <-]; apply refused_round; auto|].
  case_if_goal E3; [intros [= <- <- <- <-]; apply refused_round; auto|].
  destruct slot1 as [|cause]; [destruct slot2 as [|cause]|];
    [|intros [= <- <- <- <-]; apply refused_round; auto..].
  cbn [CoordinateACKBatch postgres_acks].
  destruct (CoordinateProviderACKsFenced _ _ _ _ _ _ _ _ _) as [[db [stored serr]] sent] eqn:Ec.
  apply coordinate_settles in Ec as [(-> & Hp & Hall)|[Hr Hcase]].
  - rewrite Hp. cbn [negb is_nil orb cr_ProviderError cr_AdmittedIDs cr_RetryIDs].
    destruct (queuePendingACKs ownership c _) as [[c1 d1] rerr] eqn:Eq.
    apply queuePendingACKs_effect in Eq as [Hr Hq]. intros Hrun.
    assert (c' = c1 /\ d' = d1) as [-> ->] by (case_if_in Hrun E; injection Hrun as <- <- _ _; done).
    split; [exact Hq|]. left. intros id Hid. rewrite Hr. by apply Hall.
  - assert (Hback : forall id, id ∈ batch ->
      ackable (responses db) (key_TenantID (ow_Key ownership), key_ConnectionID (ow_Key ownership), id) = false \/
      id ∈ (if is_nil (ac_AdmittedIDs stored) then batch else ac_AdmittedIDs stored)).
    { intros id Hid. rewrite Hr. case_if_goal En; [by right|]. apply is_nil_false in En.
      destruct Hcase as [(_ & _ & Ha)|(_ & Ha & _)]; [done|]. rewrite Ha, elem_of_admitted.
      destruct (ackable _ _); [by right|by left]. }
    destruct (is_nil (ac_ProviderError stored)) eqn:Ep; cbn [negb].
    + apply is_nil_true in Ep. assert (Hse : serr <> []) by naive_solver.
      assert (Hn : is_nil serr = false) by (by apply is_nil_false). rewrite Hn. cbn [negb].
      set (err1 := if negb (is_nil e1) then e1 else classifyDurablePersistenceError serr).
      assert (Hne : err1 <> []).
      { unfold err1. case_if_goal Ee; [by apply negb_true_iff, is_nil_false in Ee|]. by apply classify_nonempty. }
      assert (Hne' : is_nil err1 = false) by (by apply is_nil_false). rewrite Hne'. cbn [negb orb].
      intros [= <- <- <- <-]. split; [exists []; by left|]. right. split_and!; [by left|done|]. intros id Hid.
      cbn [cr_RetryIDs]. destruct (Hback id Hid) as [Hf|Hf]; [by left|]. right.
      destruct (is_nil (ac_AdmittedIDs stored)) eqn:Ea; [by case_if_goal Eb|by rewrite Ea].
    + cbn [cr_ProviderError is_nil negb orb]. rewrite Ep. cbn [negb]. intros [= <- <- <- <-].
      split; [exists []; by left|]. apply is_nil_false in Ep. right. split_and!; [by right| |exact Hback].
      intros _. destruct Hcase as [(_ & ? & _)|(_ & _ & ?)]; done.
Qed.

Lemma durable_coordinator_queues send e0 slot1 slot2 e1 :
  only_queues (durable_coordinator sink ownership send e0 slot1 slot2 e1 : Client -> @Durable K -> _).
Proof.
  intros c d batch. destruct (durable_coordinator _ _ _ _ _ _ _ c d batch) as [[c' d'] [result err]] eqn:E.
  by apply durable_coordinator_effect in E as [(ids & Hids) _]; exists ids.
Qed.
End NotLost.

(** C14. No acknowledgement is lost between the queue and the store: after a round of
    acknowledgements, every response that was queued before it is queued again,
    unless the store no longer has it pending (the provider accepted it, or it
    came into conflict) or the queue's window is full; whatever the provider,
    the semaphores, the lease and the context did. *)
Theorem acknowledgement_not_lost {K : Type} `{MediaKeySealer K} (sink : DurableSink) (ownership : ProviderOwnership)
  (send : list string -> error) (contextErr : error) (sinkSlot processSlot : Admission) (contextAfter : error)
  (c c' : Client) (d d' : @Durable K) (id : string) (Hok : queue_ok c)
  (Hrun : sendAckRequestContext
            (Some (durable_coordinator sink ownership send contextErr sinkSlot processSlot contextAfter))
            send None c d = (c', d'))
  (Hqueued : id ∈ cl_AckMap c) :
  acknowledged_or_queued (responses (ir_db (du_repository d'))) ownership c' id.
Proof.
  unfold sendAckRequestContext in Hrun. destruct (take_batch_spec c Hok) as (Hok1 & _ & _ & Hsplit).
  destruct (take_batch c) as [batch c1]. cbn [fst snd] in *. rewrite Hsplit in Hqueued.
  apply elem_of_app in Hqueued. case_if_in Hrun E.
  { apply is_nil_true in E as ->. injection Hrun as <- _. right. left. set_solver. }
  unfold send_coordinated in Hrun.
  destruct (durable_coordinator _ _ _ _ _ _ _ _ _ _) as [[c2 d2] [result cerr]] eqn:Ec.
  apply durable_coordinator_effect in Ec as [[ids Hids] Heffect].
  assert (Hok2 : queue_ok c2) by (destruct Hids as [-> | ->]; [done|by apply QueueDurableACKs_ok]).
  assert (Hkeep : id ∈ cl_AckMap c1 -> id ∈ cl_AckMap c2)
    by (destruct Hids as [-> | ->]; [done|apply QueueDurableACKs_keeps]).
  set (retry := if is_nil (cr_RetryIDs result) then batch else cr_RetryIDs result) in *.
  set (err := if is_nil cerr then validateACKCoordinationResult batch result else cerr) in *.
  assert (Hd : d' = d2) by (case_if_in Hrun E1; [|case_if_in Hrun E2]; congruence). subst d2.
  assert (Hback : id ∈ retry \/ id ∈ cl_AckMap c1 -> err <> [] \/ cr_ProviderError result <> [] ->
    (cr_ProviderError result <> [] -> cr_RetryIDs result <> []) ->
    acknowledged_or_queued (responses (ir_db (du_repository d'))) ownership c' id).
  { intros Hid Hfail Hretry. right. assert (Hin : id ∈ retry \/ id ∈ cl_AckMap c2) by naive_solver.
    case_if_in Hrun E1; [injection Hrun as <-; by apply requeued|].
    apply negb_false_iff, is_nil_true in E1. case_if_in Hrun E2.
    - injection Hrun as <-. apply requeued; [done|]. apply negb_true_iff, is_nil_false in E2.
      unfold retry in Hin. by rewrite (proj2 (is_nil_false _) (Hretry E2)) in Hin.
    - apply negb_false_iff, is_nil_true in E2. naive_solver. }
  assert (Herr : cerr <> [] -> err <> []) by (unfold err; intros Hc; by rewrite (proj2 (is_nil_false _) Hc)).
  destruct Hqueued as [Hb|Hrest].
  - destruct Heffect as [Hall|(Hfail & Hretry & Hall)]; [left; by apply Hall|].
    destruct (Hall id Hb) as [Hf|Hf]; [by left|]. apply Hback; [by left|naive_solver|done].
  - case_if_in Hrun E1; [injection Hrun as <-; right; apply requeued; auto|].
    case_if_in Hrun E2; [injection Hrun as <-; right; apply requeued; auto|].
    injection Hrun as <-. right. left. by apply Hkeep.
Qed.
