(* ===== verification/SinkGuarantees.v ===== *)
(** * What the durable sink makes of provider data

    Which provider messages can become actionable, which settings snapshots can
    be acknowledged, and what happens to the last page of a conversation. *)

From S2P Require Import Prelude GoText Crypto GoEncoding Domain Session EventContract Pool Actor Store Leases Ingress Provider Reconcile Responses Acks Commit InboxInvariant CommitSafety Incoming Projector Sink Receive Runtime ReceiveSafety.

(** ** Projected messages *)

Section Projected.
Context (unmarshalCursor : bytes -> option (string * Z)) (marshalCursor : string * Z -> bytes)
  (encodeCursor : Gm.Cursor -> option bytes).
Context {K : Type} `{MediaKeySealer K}.

Lemma project_messages_source k k' o provenance messages ms jobs m :
  project_sources k o provenance messages = (k', Ok (ms, jobs)) -> m ∈ ms ->
  exists gm text, Some gm ∈ messages /\ m = projected_message provenance gm text.
Proof.
  revert k ms jobs. induction messages as [|[gm|] rest IH]; intros k ms jobs; cbn [project_sources].
  - intros [= _ <- _]. set_solver.
  - case_if_goal E; [done|]. destruct (project_infos _ _ _ _ _) as [k1 [[text j]|e]]; [|done].
    destruct (project_sources k1 o provenance rest) as [k2 projected] eqn:Ep. intros [= <- Hp].
    apply result_bind_ok in Hp as ([ms' js'] & -> & [= <- _]). intros [->|Hm]%elem_of_cons.
    + exists gm, text. set_solver.
    + destruct (IH _ _ _ Ep Hm) as (gm' & text' & Hin & ->). exists gm', text'. set_solver.
  - done.
Qed.

Lemma projectMessages_source k k' o messages provenance p jobs m :
  projectMessages k o messages provenance = (k', Ok (p, jobs)) -> m ∈ pj_Messages p ->
  exists gm text, Some gm ∈ messages /\ m = projected_message provenance gm text.
Proof.
  unfold projectMessages. destruct (validateMessageEvent messages); [|done].
  destruct (project_sources k o provenance messages) as [k1 projected] eqn:Ep. intros [= _ Hp].
  apply result_bind_ok in Hp as ([ms js] & -> & [= <- _]). cbn. by eapply project_messages_source.
Qed.

Lemma actionable_inv provenance gm text :
  pm_Actionable (projected_message provenance gm text) = true ->
  provenance = MessageProvenanceLive /\ Gm.Status gm = INCOMING_COMPLETE.
Proof.
  cbn [pm_Actionable projected_message]. intros H'. apply andb_true_iff in H' as [H' Hr].
  apply andb_true_iff in H' as [Hp _]. apply String.eqb_eq in Hp. by apply Z.eqb_eq in Hr.
Qed.

Lemma projectConversations_messages conversations p : projectConversations conversations = Ok p -> pj_Messages p = [].
Proof.
  unfold projectConversations. case_if_goal E; [done|]. intros (cs & _ & [= <-])%result_bind_ok. done.
Qed.

Lemma project_settings_messages o simCards : pj_Messages (project_settings unmarshalCursor marshalCursor o simCards).1.1 = [].
Proof.
  unfold project_settings. case_if_goal E1; [done|]. case_if_goal E2; [done|]. cbv zeta. case_if_goal E3; [done|].
  by destruct (ValidateProjection _ _ _ _).
Qed.

Lemma page_messages conversations cursorBytes cursor request :
  pj_Messages (project_conversation_page unmarshalCursor marshalCursor encodeCursor conversations cursorBytes cursor request).1.1 = [].
Proof.
  unfold project_conversation_page. case_if_goal E; [done|]. destruct (responseBackfillCursor _ _ _ _ _) as [[next terminal]|]; [|done].
  destruct (projectConversations conversations) as [p|] eqn:Ep; [|done]. apply projectConversations_messages in Ep.
  by destruct terminal.
Qed.

Lemma message_page_history k k' o messages cursor request p jobs e m :
  project_message_page unmarshalCursor marshalCursor encodeCursor k o messages cursor request = (k', (p, jobs, e)) ->
  m ∈ pj_Messages p -> pm_Actionable m = false.
Proof.
  unfold project_message_page. case_if_goal E1; [intros [= _ <- _ _]; set_solver|].
  case_if_goal E2; [intros [= _ <- _ _]; set_solver|].
  destruct (projectMessages k o messages _) as [k1 [[p1 jobs1]|e1]] eqn:Ep; [|intros [= _ <- _ _]; set_solver].
  assert (Hall : forall m, m ∈ pj_Messages p1 -> pm_Actionable m = false).
  { intros m' Hm. destruct (projectMessages_source _ _ _ _ _ _ _ _ Ep Hm) as (gm & text & _ & ->).
    destruct (pm_Actionable _) eqn:Ea; [|done]. by apply actionable_inv in Ea as [Ea _]. }
  destruct (backfillCursor _ _ _ _ _); intros [= _ <- _ _]; apply Hall.
Qed.

Lemma project_update_actionable k k' o isOld event p jobs e m :
  project_update unmarshalCursor marshalCursor k o isOld event = (k', (p, jobs, e)) ->
  m ∈ pj_Messages p -> pm_Actionable m = true ->
  isOld = false /\ exists data gm, event = Gm.MessageEvent (Some data) /\ Some gm ∈ data /\
    Gm.MessageID gm = pm_ProviderMessageID m /\ Gm.Status gm = INCOMING_COMPLETE.
Proof.
  destruct event as [[data|]|[data|]|[cards|]| | | | |]; cbn [project_update]; try (intros [= _ <- _ _]; set_solver).
  - destruct (projectConversations data) as [q|] eqn:Eq; intros [= _ <- _ _]; [|set_solver].
    apply projectConversations_messages in Eq. rewrite Eq. set_solver.
  - destruct (projectMessages k o data _) as [k1 [[p1 jobs1]|e1]] eqn:Ep; intros [= _ <- _ _]; [|set_solver].
    intros Hm Ha. destruct (projectMessages_source _ _ _ _ _ _ _ _ Ep Hm) as (gm & text & Hin & ->).
    apply actionable_inv in Ha as [Hl Hs]. destruct isOld; [done|]. split; [done|]. by exists data, gm.
  - intros Hp. pose proof (project_settings_messages o cards) as Hn. injection Hp as _ Hp. rewrite Hp in Hn. simpl in Hn.
    rewrite Hn. set_solver.
Qed.

Lemma project_actionable k k' o decoded request p jobs e m :
  project unmarshalCursor marshalCursor encodeCursor k o decoded request = (k', (p, jobs, e)) ->
  m ∈ pj_Messages p -> pm_Actionable m = true ->
  exists d data gm, decoded = Some d /\ im_PayloadSource d = PayloadSourceEncryptedData /\
    im_DecryptedMessage d = Some (Gm.UpdateEvents (Gm.MessageEvent (Some data))) /\ im_IsOld d = false /\
    Some gm ∈ data /\ Gm.MessageID gm = pm_ProviderMessageID m /\ Gm.Status gm = INCOMING_COMPLETE.
Proof.
  unfold project. destruct decoded as [d|]; [|intros [= _ <- _ _]; set_solver].
  case_if_goal E1; [intros [= _ <- _ _]; set_solver|]. case_if_goal E2; [intros [= _ <- _ _]; set_solver|].
  destruct (im_PayloadSource d) eqn:Es.
  - intros [= _ <- _ _]; set_solver.
  - destruct (im_DecryptedMessage d) as [[cs cb cur|ms cur|event|t]|] eqn:Em.
    + intros Hp. pose proof (page_messages cs cb cur request) as Hn. injection Hp as _ Hp. rewrite Hp in Hn.
      simpl in Hn. rewrite Hn. set_solver.
    + intros Hp Hm Ha. pose proof (message_page_history _ _ _ _ _ _ _ _ _ _ Hp Hm). congruence.
    + unfold project_other. rewrite Em. case_if_goal E3; [intros [= _ <- _ _]; set_solver|].
      intros Hp Hm Ha. destruct (project_update_actionable _ _ _ _ _ _ _ _ _ Hp Hm Ha) as (Ho & data & gm & -> & ?).
      exists d, data, gm. naive_solver.
    + unfold project_other. rewrite Em. case_if_goal E3; [|case_if_goal E4]; intros [= _ <- _ _]; set_solver.
    + unfold project_other. rewrite Em. case_if_goal E3; [|case_if_goal E4]; intros [= _ <- _ _]; set_solver.
  - destruct (im_Message d); [case_if_goal E3|]; intros [= _ <- _ _]; set_solver.
  - case_if_goal E3; intros [= _ <- _ _]; set_solver.
Qed.
End Projected.

(** ** Authenticated payloads *)

(** The payload of a decoded message is what the session cipher opened. *)
Lemma decrypt_authenticated codec frame msg err r :
  decryptInternalMessage codec frame = (Some msg, err) ->
  im_PayloadSource msg = PayloadSourceEncryptedData -> im_DecryptedMessage msg = Some r -> err = [] ->
  exists cipher message ciphertext plaintext t,
    Gm.BugleRoute frame = BugleRoute_DataEvent /\ decrypt codec = Some cipher /\
    unmarshal_data codec (Gm.MessageData frame) = Some message /\
    Gm.EncryptedData message = Some ciphertext /\ cipher ciphertext = Some plaintext /\
    responseType (Gm.Action message) = Some t /\ unmarshal_response codec t plaintext = Some r.
Proof.
  unfold decryptInternalMessage. case_if_goal E1; [case_if_goal E1'; [by intros [= <- _]|done]|].
  case_if_goal E2; [case_if_goal E2'; [by intros [= <- _]|done]|]. case_if_goal E3; [|done]. apply Z.eqb_eq in E3.
  destruct (decrypt codec) as [cipher|] eqn:Ed; [|done].
  destruct (unmarshal_data codec _) as [message|] eqn:Em; [|done].
  unfold decrypt_data. cbv zeta. case_if_goal E4; [by intros [= <- _]|].
  destruct (Gm.EncryptedData message) as [ct|] eqn:Ect.
  - destruct (cipher ct) as [pt|] eqn:Ept; [|done].
    destruct (responseType (Gm.Action message)) as [t|] eqn:Et; [|by intros [= <- _]].
    destruct (unmarshal_response codec t pt) as [r'|] eqn:Er; [|by intros [= <- <-]].
    intros [= <- <-] _ [= <-] _. exists cipher, message, ct, pt, t. split_and!; done.
  - destruct (Gm.EncryptedData2 message) as [ct|].
    + destruct (cipher ct) as [pt|]; [|done]. by destruct (unmarshal_secondary codec pt); intros [= <- _].
    + case_if_goal E5; by intros [= <- _].
Qed.

Lemma decrypt_frame codec frame msg err : decryptInternalMessage codec frame = (Some msg, err) -> im_Frame msg = frame.
Proof.
  intros H. unfold decryptInternalMessage, decrypt_data in H. repeat match type of H with
  | context [match ?x with _ => _ end] => destruct x; try discriminate H
  end; by injection H as <-.
Qed.

(** C24. A provider message becomes actionable only when it is live and authenticated.  If
    projecting the envelope that the client builds for a frame gives an
    actionable message, then the frame is a data event whose primary ciphertext
    the session cipher opened; the opened payload is a message event that holds
    a message of that identifier with the status INCOMING_COMPLETE; and the
    frame is not part of the restart backlog. Pages of history, replayed frames,
    unauthenticated controls and correlated responses never do. *)
Theorem actionable_is_live (unmarshalCursor : bytes -> option (string * Z)) (marshalCursor : string * Z -> bytes)
  (encodeCursor : Gm.Cursor -> option bytes) {K : Type} `{MediaKeySealer K} (codec : FrameCodec)
  (ownership : ProviderOwnership) (c : Client) (frame : Gm.IncomingRPCMessage) (raw : bytes)
  (msg : option IncomingRPCMessage) (k k' : K) (p : Projection) (jobs : list MediaLocator) (err : error)
  (m : ProjectedMessage)
  (Hdecode : decryptInternalMessage codec frame = (msg, []))
  (Hproject : project unmarshalCursor marshalCursor encodeCursor k ownership
                (de_Decoded (durable_envelope c frame raw msg [])) (de_Request (durable_envelope c frame raw msg []))
              = (k', (p, jobs, err)))
  (Hm : m ∈ pj_Messages p) (Hactionable : pm_Actionable m = true) :
  (cl_SkipCount c <= 0 \/ dr_Action (durableRequestFor c msg) <> UNSPECIFIED) /\
  exists cipher message ciphertext plaintext t data gm,
    Gm.BugleRoute frame = BugleRoute_DataEvent /\ decrypt codec = Some cipher /\
    unmarshal_data codec (Gm.MessageData frame) = Some message /\
    Gm.EncryptedData message = Some ciphertext /\ cipher ciphertext = Some plaintext /\
    responseType (Gm.Action message) = Some t /\
    unmarshal_response codec t plaintext = Some (Gm.UpdateEvents (Gm.MessageEvent (Some data))) /\
    Some gm ∈ data /\ Gm.MessageID gm = pm_ProviderMessageID m /\ Gm.Status gm = INCOMING_COMPLETE.
Proof.
  destruct (project_actionable _ _ _ _ _ _ _ _ _ _ _ _ Hproject Hm Hactionable)
    as (d & data & gm & Hd & Hs & Hr & Hold & Hin & Hid & Hst).
  cbn [de_Decoded durable_envelope] in Hd. destruct msg as [msg|]; [|by case_if_in Hd E].
  destruct (consumes_backlog c (Some msg) []) eqn:Eb; [injection Hd as <-; done|]. injection Hd as ->.
  destruct (decrypt_authenticated _ _ _ _ _ Hdecode Hs Hr eq_refl)
    as (cipher & message & ct & pt & t & Hroute & ?). split.
  - unfold consumes_backlog, classified in Eb. apply andb_false_iff in Eb as [Eb|Eb]; [|left; by apply Z.ltb_ge].
    right. intros Hu. rewrite Hu in Eb. simpl in Eb. rewrite andb_true_r in Eb. apply Z.eqb_neq in Eb.
    apply Eb. by rewrite (decrypt_frame _ _ _ _ Hdecode).
  - exists cipher, message, ct, pt, t, data, gm. naive_solver.
Qed.

(** ** Poisoned responses *)

Section Poisoned.
Context (unmarshalCursor : bytes -> option (string * Z)) (marshalCursor : string * Z -> bytes)
  (encodeCursor : Gm.Cursor -> option bytes).
Context {K : Type} `{MediaKeySealer K} {S : Type} `{InboxStore S}.

Abbreviation persist := (PersistEnvelopeOutcome unmarshalCursor marshalCursor encodeCursor).

(** What the sink asks the ingress service when projecting refused the response. *)
Lemma persist_refused (k k' : K) (s : S) o envelope now projected :
  owned o = true -> ValidProviderResponseID (de_ResponseID envelope) = true -> de_DecodeError envelope = [] ->
  project unmarshalCursor marshalCursor encodeCursor k o (de_Decoded envelope) (de_Request envelope) = (k', projected) ->
  errors_Is projected.2 errMalformedProviderEnvelope = true ->
  persist k s o envelope now =
    (k', (Process unmarshalCursor marshalCursor s (provider_envelope o envelope projected projected.2
            (errors_Is projected.2 ErrInvalidSettingsSnapshot)) now).1,
     outcome_of (Process unmarshalCursor marshalCursor s (provider_envelope o envelope projected projected.2
            (errors_Is projected.2 ErrInvalidSettingsSnapshot)) now).2).
Proof.
  intros Ho Hid Hde Hp Hm. unfold PersistEnvelopeOutcome. rewrite Ho, Hid, Hde. cbn [negb is_nil]. rewrite Hp, Hm.
  rewrite andb_false_r. assert (Hn : is_nil projected.2 = false).
  { apply is_nil_false. intros Hnil. by rewrite Hnil, errors_Is_nil in Hm. }
  rewrite Hn. by destruct (Process _ _ _ _ _).
Qed.

(** An envelope with a decoding error is committed as poison, if at all. *)
Lemma process_poison (s s' : S) pe now r :
  pe_DecodeError pe <> [] -> Process unmarshalCursor marshalCursor s pe now = (s', Ok r) -> pr_Poisoned r = true.
Proof.
  intros He. unfold Process. case_if_goal E1; [done|]. case_if_goal E2; [done|]. case_if_goal E3; [done|].
  assert (Hrec : rc_Poisoned (envelope_record unmarshalCursor marshalCursor pe now) = true).
  { unfold envelope_record. apply is_nil_false in He. by rewrite He. }
  revert Hrec. set (record := envelope_record _ _ pe now). clearbody record. intros Hrec.
  destruct (CommitEnvelope s record) as [s1 committed]. intros [= <- Hc].
  apply result_bind_ok in Hc as (commit & _ & Hc). destruct commit; try done; by injection Hc as <-.
Qed.

(** A withheld acknowledgement is never granted. *)
Lemma process_withheld (s s' : S) pe now r :
  pe_ACKWithheld pe = true -> Process unmarshalCursor marshalCursor s pe now = (s', Ok r) -> pr_ACKEligible r = false.
Proof.
  intros Hw. unfold Process. case_if_goal E1; [done|]. case_if_goal E2; [done|]. case_if_goal E3; [done|].
  assert (Hrec : rc_ACKWithheld (envelope_record unmarshalCursor marshalCursor pe now) = true).
  { unfold envelope_record. by case_if_goal E. }
  revert Hrec. set (record := envelope_record _ _ pe now). clearbody record. intros Hrec.
  destruct (CommitEnvelope s record) as [s1 committed]. intros [= <- Hc].
  apply result_bind_ok in Hc as (commit & _ & Hc). rewrite Hrec in Hc. destruct commit; try done; by injection Hc as <-.
Qed.
End Poisoned.

(** C36. The last page of a conversation's history cannot be committed: a message page that
    answers its request, and that would be projected, but that has no cursor
    because there is no next page, is refused as malformed.  Whatever the inbox
    store does, it is never reported committed; if the envelope is stored at
    all, it is stored as poison, without its messages.  The worker that asked
    for the page treats the absent cursor as the end of the conversation. *)
Theorem last_message_page_poisoned (unmarshalCursor : bytes -> option (string * Z))
  (marshalCursor : string * Z -> bytes) (encodeCursor : Gm.Cursor -> option bytes) {K : Type} `{MediaKeySealer K}
  {S : Type} `{InboxStore S} (k k' : K) (s : S) (o : ProviderOwnership) (envelope : DurableEnvelope)
  (d : IncomingRPCMessage) (messages : list (option Gm.Message)) (p : Projection) (jobs : list MediaLocator) (now : Z)
  (Howned : owned o = true) (Hid : ValidProviderResponseID (de_ResponseID envelope) = true)
  (Hdecoded : de_Decoded envelope = Some d) (Herr : de_DecodeError envelope = [])
  (Hroute : Gm.BugleRoute (im_Frame d) = BugleRoute_DataEvent)
  (Hsource : im_PayloadSource d = PayloadSourceEncryptedData)
  (Hpage : im_DecryptedMessage d = Some (Gm.ListMessagesResponse messages None))
  (Haction : dr_Action (de_Request envelope) = LIST_MESSAGES)
  (Hconversation : ValidProviderConversationID (dr_ConversationID (de_Request envelope)) = true)
  (Hin : forallb (in_conversation (dr_ConversationID (de_Request envelope))) messages = true)
  (Hproject : projectMessages k o messages MessageProvenanceHistory = (k', Ok (p, jobs))) :
  let run := PersistEnvelopeOutcome unmarshalCursor marshalCursor encodeCursor k s o envelope now in
  run.2 <> Ok DurableOutcomeCommitted /\
  (run.1.2 = s \/ exists record, run.1.2 = (CommitEnvelope s record).1 /\ rc_Poisoned record = true /\
     rc_PoisonReason record = "decode_failed" /\ rc_Projection record = empty_projection /\ rc_Media record = []).
Proof.
  assert (Hp : project unmarshalCursor marshalCursor encodeCursor k o (de_Decoded envelope) (de_Request envelope) =
    (k', (p, jobs, [errMalformedProviderEnvelope]))).
  { unfold project. rewrite Hdecoded, Hroute, Hsource, Hpage. cbn [Z.eqb BugleRoute_DataEvent BugleRoute_PairEvent BugleRoute_GaiaEvent andb].
    unfold project_message_page. rewrite Haction, Hconversation, Hin, Hproject. reflexivity. }
  pose proof (persist_refused unmarshalCursor marshalCursor encodeCursor k k' s o envelope now _ Howned Hid Herr Hp eq_refl) as Hrun.
  cbv zeta. rewrite Hrun. clear Hrun Hp Hproject. cbn [snd fst].
  change (errors_Is [errMalformedProviderEnvelope] ErrInvalidSettingsSnapshot) with false.
  set (pe := provider_envelope o envelope (p, jobs, [errMalformedProviderEnvelope]) [errMalformedProviderEnvelope] false).
  destruct (Process unmarshalCursor marshalCursor s pe now) as [s' processed] eqn:Ep. cbn [fst snd]. split.
  - unfold outcome_of. destruct processed as [r|e]; [|done]. apply process_poison in Ep; [|done]. rewrite Ep.
    by destruct (pr_ACKEligible r), (pr_Duplicate r), (pr_ACKWithheld r).
  - unfold Process in Ep. case_if_in Ep E1; [left; congruence|]. case_if_in Ep E2; [left; congruence|].
    case_if_in Ep E3; [left; congruence|]. right.
    exists (envelope_record unmarshalCursor marshalCursor pe now). destruct (CommitEnvelope s _) as [s1 committed].
    injection Ep as <- _. split_and!; reflexivity.
Qed.

(** ** Settings snapshots *)

Lemma project_settings_rejected unmarshalCursor marshalCursor o simCards sim r :
  sim ∈ simCards ->
  map_sim (key_TenantID (ow_Key o)) (key_ConnectionID (ow_Key o)) simCards sim = inr r ->
  owned o = true ->
  project_settings unmarshalCursor marshalCursor o simCards = invalid_snapshot.
Proof.
  intros Hin Hr Ho. unfold project_settings. case_if_goal E1; [apply is_nil_true in E1; set_solver|].
  case_if_goal E2; [done|]. cbv zeta.
  assert (Hrej : lm_Rejected (MapSettingsLines (key_TenantID (ow_Key o)) (key_ConnectionID (ow_Key o)) (Some simCards)) <> []).
  { unfold MapSettingsLines. unfold owned in Ho. apply negb_true_iff in Ho.
    apply orb_false_iff in Ho as [Ho _]. apply orb_false_iff in Ho as [Ho _]. rewrite orb_comm in Ho. rewrite Ho.
    cbn [lm_Rejected]. intros Hnil. assert (Hx : r ∈ @nil RejectedLine); [|set_solver]. rewrite <- Hnil.
    apply list_elem_of_omap. exists (inr r). split; [|done]. apply list_elem_of_fmap. by exists sim. }
  apply is_nil_false in Hrej. by rewrite Hrej.
Qed.

(** A settings snapshot with a line that cannot be mapped is never acknowledged: when
    one of its SIM cards has no usable or a repeated participant identity, or no
    phone number, the envelope is never reported eligible, whatever the inbox
    store answers, and no line of the snapshot is projected. *)
Theorem invalid_settings_withheld (unmarshalCursor : bytes -> option (string * Z))
  (marshalCursor : string * Z -> bytes) (encodeCursor : Gm.Cursor -> option bytes) {K : Type} `{MediaKeySealer K}
  {S : Type} `{InboxStore S} (k : K) (s : S) (o : ProviderOwnership) (envelope : DurableEnvelope)
  (d : IncomingRPCMessage) (simCards : list (option Gm.SIMCard)) (sim : option Gm.SIMCard) (rejection : RejectedLine)
  (now : Z)
  (Hdecoded : de_Decoded envelope = Some d) (Herr : de_DecodeError envelope = [])
  (Hroute : Gm.BugleRoute (im_Frame d) = BugleRoute_DataEvent)
  (Hsource : im_PayloadSource d = PayloadSourceEncryptedData)
  (Hsettings : im_DecryptedMessage d = Some (Gm.UpdateEvents (Gm.SettingsEvent (Some simCards))))
  (Hrequest : dr_Action (de_Request envelope) = UNSPECIFIED)
  (Hsim : sim ∈ simCards)
  (Hrejected : map_sim (key_TenantID (ow_Key o)) (key_ConnectionID (ow_Key o)) simCards sim = inr rejection) :
  exists e, (PersistEnvelopeOutcome unmarshalCursor marshalCursor encodeCursor k s o envelope now).2 = Err e.
Proof.
  destruct (owned o) eqn:Ho; [|eexists; unfold PersistEnvelopeOutcome; rewrite Ho; reflexivity].
  destruct (ValidProviderResponseID (de_ResponseID envelope)) eqn:Hid;
    [|eexists; unfold PersistEnvelopeOutcome; rewrite Ho, Hid; reflexivity].
  assert (Hp : project unmarshalCursor marshalCursor encodeCursor k o (de_Decoded envelope) (de_Request envelope) =
    (k, invalid_snapshot)).
  { unfold project. rewrite Hdecoded, Hroute, Hsource, Hsettings.
    cbn [Z.eqb BugleRoute_DataEvent BugleRoute_PairEvent BugleRoute_GaiaEvent andb].
    unfold project_other. rewrite Hsettings, Hrequest, Hsource. cbn [project_update].
    rewrite (project_settings_rejected _ _ _ _ _ _ Hsim Hrejected Ho).
    destruct (im_Message d) as [m|]; [|done].
    change (IsKnownCorrelatedRPCResponse UNSPECIFIED (Some (Gm.UpdateEvents (Gm.SettingsEvent (Some simCards))))
      PayloadSourceEncryptedData (im_DecryptedData d)) with false. by rewrite andb_false_r. }
  rewrite (persist_refused _ _ _ k k s o envelope now _ Ho Hid Herr Hp eq_refl). cbn [snd].
  match goal with |- context [Process _ _ s ?pe now] => destruct (Process unmarshalCursor marshalCursor s pe now)
    as [s' processed] eqn:Ep end.
  cbn [snd]. unfold outcome_of. destruct processed as [r|e]; [|by eexists]. apply process_withheld in Ep; [|reflexivity].
  rewrite Ep. by eexists.
Qed.

(** ** Witnesses *)

#[local] Instance plain_sealer : MediaKeySealer unit := {|
  SealKey k scope key := (k, Ok {| en_Revision := 0; en_Version := 1; en_Provider := sc_Provider scope;
    en_Ciphertext := key; en_WrappedDEK := key; en_Nonce := repeat (byte_of_Z 0) 12; en_KeyID := "key"; en_KeyVersion := 1 |}) |}.

Definition example_ownership : ProviderOwnership := {|
  ow_Key := {| key_TenantID := "t1"; key_ConnectionID := "c1" |}; ow_OwnerID := "actor-a"; ow_FencingToken := 1;
  ow_LeaseTTL := 30 * Second |}.

Definition example_gm_message : Gm.Message := {|
  Gm.MessageID := "p1"; Gm.TmpID := ""; Gm.Message_ConversationID := "v1";
  Gm.Infos := [Some (Gm.Content (Some "hello"))]; Gm.Status := INCOMING_COMPLETE; Gm.Timestamp := 1724400000000000;
  Gm.Type_ := 4; Gm.SenderParticipant := None |}.

(** A codec without encryption whose every data event answers [session] with
    [response]. *)
Definition example_codec (session : string) (action : Z) (response : Gm.Response) : FrameCodec := {|
  unmarshal_pair := fun _ => false; unmarshal_gaia := fun _ => false;
  unmarshal_data := fun b => Some {| Gm.SessionID := session; Gm.Action := action; Gm.UnencryptedData := None;
    Gm.EncryptedData := Some b; Gm.EncryptedData2 := None |};
  unmarshal_response := fun _ _ => Some response; unmarshal_secondary := fun _ => None; decrypt := Some Some |}.

Definition message_codec : FrameCodec :=
  example_codec "" GET_UPDATES (Gm.UpdateEvents (Gm.MessageEvent (Some [Some example_gm_message]))).

Definition example_frame : Gm.IncomingRPCMessage := {|
  Gm.ResponseID := "resp-1"; Gm.BugleRoute := BugleRoute_DataEvent; Gm.MessageData := bytes_of "raw" |}.

Definition encode_frame (frame : Gm.IncomingRPCMessage) : option bytes := Some (Gm.MessageData frame).
Definition encode_cursor (cursor : Gm.Cursor) : option bytes := Some (bytes_of (Gm.LastItemID cursor)).

Definition example_client : Client := {|
  cl_Waiters := ∅; cl_Answers := []; cl_AckMap := []; cl_AckSet := ∅; cl_SkipCount := 0; cl_HasCookies := false;
  cl_Ring := empty_ring; cl_Events := []; cl_PhoneResponses := 0; cl_Failures := [] |}.

Definition example_durable : @Durable unit := {| du_sealer := tt; du_repository := example_inbox_repository |}.

Definition handled_once : Client * @Durable unit :=
  handleRPCMsgEnvelopeContext message_codec encode_frame
    (Some (durable_handler no_codec plain_codec encode_cursor example_ownership Second)) example_frame []
    example_client example_durable.

Lemma acknowledged_is_durable_witness :
  durable_response (responses (ir_db (du_repository handled_once.2))) example_ownership "resp-1" (bytes_of "raw").
Proof.
  apply (acknowledged_is_durable no_codec plain_codec encode_cursor message_codec encode_frame example_ownership Second
    example_frame [] example_client handled_once.1 example_durable handled_once.2 "resp-1").
  - exact leased_ingress_ok.
  - exact (surjective_pairing handled_once).
  - intros H. inversion H.
  - assert (E : cl_AckMap handled_once.1 = ["resp-1"]) by (vm_compute; reflexivity). rewrite E. constructor.
Defined.

Lemma example_client_ok : queue_ok example_client.
Proof. split; [constructor|done|done]. Qed.

Lemma ack_queue_well_formed_witness : queue_ok handled_once.1.
Proof.
  apply (ack_queue_well_formed (D := @Durable unit) example_client handled_once.1).
  - exact example_client_ok.
  - eapply rtc_once. apply (step_frame message_codec encode_frame _ example_frame [] example_client example_durable).
Defined.

Definition example_sink : DurableSink := {| ackTimeout := 4 * Second; ackSlots := 8 |}.

(** The provider refuses the batch. *)
Definition refused_round_run : Client * @Durable unit :=
  sendAckRequestContext
    (Some (durable_coordinator example_sink example_ownership (fun _ => text_error "unavailable") [] SlotTaken SlotTaken []))
    (fun _ => text_error "unavailable") None handled_once.1 handled_once.2.

Lemma handled_once_ok : queue_ok handled_once.1.
Proof. apply (handle_frame_ok message_codec encode_frame _ example_frame [] example_client). exact example_client_ok. Qed.

Lemma acknowledgement_not_lost_witness :
  acknowledged_or_queued (responses (ir_db (du_repository refused_round_run.2))) example_ownership
    refused_round_run.1 "resp-1".
Proof.
  apply (acknowledgement_not_lost example_sink example_ownership (fun _ => text_error "unavailable") [] SlotTaken SlotTaken []
    handled_once.1 refused_round_run.1 handled_once.2 refused_round_run.2 "resp-1").
  - exact handled_once_ok.
  - exact (surjective_pairing refused_round_run).
  - assert (E : cl_AckMap handled_once.1 = ["resp-1"]) by (vm_compute; reflexivity). rewrite E. constructor.
Defined.

Definition example_decoded : option IncomingRPCMessage := (decryptInternalMessage message_codec example_frame).1.

Definition example_projected_update : unit * Projected :=
  project no_codec plain_codec encode_cursor tt example_ownership
    (de_Decoded (durable_envelope example_client example_frame (bytes_of "raw") example_decoded []))
    (de_Request (durable_envelope example_client example_frame (bytes_of "raw") example_decoded [])).

Lemma actionable_is_live_witness :
  cl_SkipCount example_client <= 0 \/ dr_Action (durableRequestFor example_client example_decoded) <> UNSPECIFIED.
Proof.
  destruct (actionable_is_live no_codec plain_codec encode_cursor message_codec example_ownership example_client
    example_frame (bytes_of "raw") example_decoded tt tt example_projected_update.2.1.1 example_projected_update.2.1.2
    example_projected_update.2.2 (projected_message MessageProvenanceLive example_gm_message "hello")) as [H _].
  - reflexivity.
  - vm_compute. reflexivity.
  - vm_compute. constructor.
  - reflexivity.
  - exact H.
Defined.

(** The answer to a request for the messages of "v1". *)
Definition page_request : DurableRequest := {| dr_Action := LIST_MESSAGES; dr_ConversationID := "v1"; dr_Cursor := [] |}.

Definition page_message : IncomingRPCMessage := {|
  im_Frame := example_frame; im_IsOld := false; im_Pair := false; im_Gaia := false; im_Message := None;
  im_DecryptedData := bytes_of "page";
  im_DecryptedMessage := Some (Gm.ListMessagesResponse [Some example_gm_message] None);
  im_PayloadSource := PayloadSourceEncryptedData; im_Secondary := None;
  im_DurableOutcome := DurableOutcomeUnknown; im_DurableError := [] |}.

Definition page_envelope : DurableEnvelope := {|
  de_ResponseID := "resp-1"; de_Raw := bytes_of "raw"; de_Decoded := Some page_message; de_DecodeError := [];
  de_Request := page_request |}.

(** A store that records what it commits. *)
#[local] Instance recording_store : InboxStore (list EnvelopeRecord) := {|
  CommitEnvelope s record := (s ++ [record], Ok CommitInserted) |}.

Lemma last_message_page_poisoned_witness :
  (PersistEnvelopeOutcome no_codec plain_codec encode_cursor tt ([] : list EnvelopeRecord) example_ownership page_envelope
    Second).2 <> Ok DurableOutcomeCommitted.
Proof.
  apply (last_message_page_poisoned no_codec plain_codec encode_cursor tt tt ([] : list EnvelopeRecord)
    example_ownership page_envelope page_message [Some example_gm_message]
    (with_messages [projected_message MessageProvenanceHistory example_gm_message "hello"]) [] Second); vm_compute; reflexivity.
Defined.

(** A SIM card without a participant. *)
Definition anonymous_sim : option Gm.SIMCard := None.

Definition settings_message : IncomingRPCMessage := {|
  im_Frame := example_frame; im_IsOld := false; im_Pair := false; im_Gaia := false; im_Message := None;
  im_DecryptedData := bytes_of "settings";
  im_DecryptedMessage := Some (Gm.UpdateEvents (Gm.SettingsEvent (Some [anonymous_sim])));
  im_PayloadSource := PayloadSourceEncryptedData; im_Secondary := None;
  im_DurableOutcome := DurableOutcomeUnknown; im_DurableError := [] |}.

Definition settings_envelope : DurableEnvelope := {|
  de_ResponseID := "resp-1"; de_Raw := bytes_of "raw"; de_Decoded := Some settings_message; de_DecodeError := [];
  de_Request := no_request |}.

Lemma invalid_settings_withheld_witness :
  exists e, (PersistEnvelopeOutcome no_codec plain_codec encode_cursor tt ([] : list EnvelopeRecord) example_ownership
    settings_envelope Second).2 = Err e.
Proof.
  apply (invalid_settings_withheld no_codec plain_codec encode_cursor tt ([] : list EnvelopeRecord) example_ownership
    settings_envelope settings_message [anonymous_sim] anonymous_sim
    {| rl_ProviderParticipantID := ""; rl_PhoneNumber := ""; rl_Reason := LineRejectionMissingProviderIdentity |} Second);
    try reflexivity. constructor.
Defined.
