(* ===== verification/Backfill.v ===== *)
(** * Import of conversation history (internal/gateway/messaging/backfill.go,
    store/postgres/backfill.go, provider/gmessages/backfill_runtime.go)

    A scan of the conversation list proceeds page by page: a page is staged as a
    checkpoint with one item per conversation, every item is fetched to its last
    message page, and only then the cursor of the list advances. *)

From S2P Require Import Prelude GoText Crypto GoEncoding Domain Session EventContract Pool Actor Store Leases Ingress Reconcile Responses Acks Commit Incoming Projector Sink.

(** ** messaging/backfill.go *)

Definition MaxBackfillConversationsPerPage : Z := 100.

Inductive BackfillItemState := BackfillItemPending | BackfillItemComplete | BackfillItemPoisoned | BackfillItemOther (s : string).

#[export] Instance BackfillItemState_eq_dec : EqDecision BackfillItemState.
Proof. solve_decision. Defined.

Definition ErrBackfillCheckpointConflict : sentinel := ErrText "provider backfill checkpoint changed".
Definition ErrBackfillProviderUnavailable : sentinel := ErrText "provider backfill operation unavailable".

Record BackfillItem := {
  bi_Ordinal : Z;
  bi_ConversationID : string;
  bi_State : BackfillItemState;
  bi_SafeError : string
}.

Record BackfillCheckpoint := {
  bc_ID : string;
  bc_NextCursor : bytes;
  bc_Terminal : bool;
  bc_ScanComplete : bool;
  bc_Items : list BackfillItem
}.

Record BackfillPage := {
  bp_BaseCursor : bytes;
  bp_NextCursor : bytes;
  bp_Terminal : bool;
  bp_Items : list BackfillItem
}.

(** ** The checkpoint table *)

(** A row of provider_backfill_checkpoints with its three arrays. *)
Record CheckpointRow := {
  ck_ID : string;
  ck_NextCursor : option bytes;
  ck_Terminal : bool;
  ck_ScanComplete : bool;
  ck_ConversationIDs : list string;
  ck_States : list BackfillItemState;
  ck_SafeErrors : list string
}.

Record BackfillDb := { ingress_db : IngressDb; checkpoints : gmap (string * string) CheckpointRow }.

Definition set_ingress (s : IngressDb) (b : BackfillDb) : BackfillDb :=
  {| ingress_db := s; checkpoints := checkpoints b |}.
Definition set_checkpoints (m : gmap (string * string) CheckpointRow) (b : BackfillDb) : BackfillDb :=
  {| ingress_db := ingress_db b; checkpoints := m |}.

Definition page_scope (t c : string) : rkey := (t, c, ProviderPageCursorID).

Definition known_state (state : BackfillItemState) : bool :=
  match state with BackfillItemOther _ => false | _ => true end.

Fixpoint checkpoint_items (ordinal : Z) (conversationIDs : list string) (states : list BackfillItemState)
    (safeErrors : list string) : list BackfillItem :=
  match conversationIDs, states, safeErrors with
  | id :: ids, state :: states, e :: es =>
    {| bi_Ordinal := ordinal; bi_ConversationID := id; bi_State := state; bi_SafeError := e |} ::
      checkpoint_items (ordinal + 1) ids states es
  | _, _, _ => []
  end.

Definition load_row (row : CheckpointRow) : result BackfillCheckpoint :=
  if negb (length (ck_ConversationIDs row) =? length (ck_States row))%nat ||
     negb (length (ck_States row) =? length (ck_SafeErrors row))%nat ||
     (blen (ck_States row) >? MaxBackfillConversationsPerPage)
  then Err [ErrBackfillCheckpointConflict]
  else if negb (forallb known_state (ck_States row)) then Err [ErrBackfillCheckpointConflict]
  else Ok {| bc_ID := ck_ID row; bc_NextCursor := default [] (ck_NextCursor row); bc_Terminal := ck_Terminal row;
             bc_ScanComplete := ck_ScanComplete row;
             bc_Items := checkpoint_items 0 (ck_ConversationIDs row) (ck_States row) (ck_SafeErrors row) |}.

Definition LoadBackfillCheckpoint (tenantID connectionID : string) (b : BackfillDb)
    : BackfillDb * result (option BackfillCheckpoint) :=
  if connectionID =s "" then (b, Err [ErrInvalidIdentifier])
  else inTenant tenantID (fun b =>
    match checkpoints b !! (tenantID, connectionID) with
    | None => Ok (b, None)
    | Some row => let! checkpoint := load_row row in Ok (b, Some checkpoint)
    end) b.

(** ** Staging a page *)

Definition stageable (index : Z) (item : BackfillItem) : bool :=
  (bi_Ordinal item =? index) &&
  (bool_decide (bi_State item = BackfillItemPending) || bool_decide (bi_State item = BackfillItemPoisoned)) &&
  ((bi_ConversationID item =s "") || ValidProviderConversationID (bi_ConversationID item)) &&
  (len (bi_SafeError item) <=? 128) && utf8_ValidString (bi_SafeError item) &&
  negb (bool_decide (bi_State item = BackfillItemPending) && (bi_ConversationID item =s "")).

Fixpoint all_stageable (index : Z) (items : list BackfillItem) : bool :=
  match items with
  | [] => true
  | item :: rest => stageable index item && all_stageable (index + 1) rest
  end.

Definition invalid_page (page : BackfillPage) : bool :=
  (blen (bp_BaseCursor page) >? MaxCursorBytes) || (blen (bp_NextCursor page) >? MaxCursorBytes) ||
  (bp_Terminal page && negb (is_nil (bp_NextCursor page))) ||
  (negb (bp_Terminal page) && is_nil (bp_NextCursor page)) ||
  (blen (bp_Items page) >? MaxBackfillConversationsPerPage).

Definition page_row (checkpointID : string) (page : BackfillPage) : CheckpointRow := {|
  ck_ID := checkpointID; ck_NextCursor := NULL_if_empty (bp_NextCursor page); ck_Terminal := bp_Terminal page;
  ck_ScanComplete := false; ck_ConversationIDs := bi_ConversationID <$> bp_Items page;
  ck_States := bi_State <$> bp_Items page; ck_SafeErrors := bi_SafeError <$> bp_Items page |}.

(** [stageBackfillPageSQL]; [None] is nothing staged. *)
Definition stage_page (t c owner : string) (token : Z) (checkpointID : string) (page : BackfillPage) (now : Z)
    (b : BackfillDb) : option BackfillDb :=
  if owned_lease (base (ingress_db b)) t c owner token now &&
     bool_decide (default [] (committed_cursors (projected (ingress_db b)) !! page_scope t c) = bp_BaseCursor page) &&
     bool_decide (checkpoints b !! (t, c) = None)
  then Some (set_checkpoints (<[(t, c) := page_row checkpointID page]> (checkpoints b)) b)
  else None.

Definition StageBackfillPageFenced (tenantID connectionID ownerID : string) (fencingToken : Z) (page : BackfillPage)
    (newID : string) (now : Z) (b : BackfillDb) : BackfillDb * result unit :=
  if (connectionID =s "") || (ownerID =s "") || (fencingToken =? 0) || invalid_page page ||
     negb (all_stageable 0 (bp_Items page))
  then (b, Err [ErrInvalidIdentifier])
  else inTenant tenantID (fun b =>
    match stage_page tenantID connectionID ownerID fencingToken newID page now b with
    | Some b' => Ok (b', tt)
    | None => Err [ErrBackfillCheckpointConflict]
    end) b.

(** ** Marking an item *)

(** [markBackfillItemSQL]: only a pending item changes. *)
Definition mark_item (t c owner : string) (token : Z) (checkpointID : string) (ordinal : nat)
    (state : BackfillItemState) (safeError : string) (now : Z) (b : BackfillDb) : option BackfillDb :=
  match checkpoints b !! (t, c) with
  | Some row =>
    if owned_lease (base (ingress_db b)) t c owner token now && (ck_ID row =s checkpointID) &&
       bool_decide (ck_States row !! ordinal = Some BackfillItemPending)
    then Some (set_checkpoints (<[(t, c) := {|
           ck_ID := ck_ID row; ck_NextCursor := ck_NextCursor row; ck_Terminal := ck_Terminal row;
           ck_ScanComplete := ck_ScanComplete row; ck_ConversationIDs := ck_ConversationIDs row;
           ck_States := <[ordinal := state]> (ck_States row);
           ck_SafeErrors := <[ordinal := safeError]> (ck_SafeErrors row) |}]> (checkpoints b)) b)
    else None
  | None => None
  end.

Definition MarkBackfillItemFenced (tenantID connectionID ownerID : string) (fencingToken : Z) (checkpointID : string)
    (ordinal : Z) (state : BackfillItemState) (safeError : string) (now : Z) (b : BackfillDb)
    : BackfillDb * result unit :=
  if (connectionID =s "") || (ownerID =s "") || (fencingToken =? 0) || (checkpointID =s "") || (ordinal <? 0) ||
     (ordinal >=? MaxBackfillConversationsPerPage) ||
     (negb (bool_decide (state = BackfillItemComplete)) && negb (bool_decide (state = BackfillItemPoisoned))) ||
     (len safeError >? 128) || negb (utf8_ValidString safeError)
  then (b, Err [ErrInvalidIdentifier])
  else inTenant tenantID (fun b =>
    match mark_item tenantID connectionID ownerID fencingToken checkpointID (Z.to_nat ordinal) state safeError now b with
    | Some b' => Ok (b', tt)
    | None => Err [ErrBackfillCheckpointConflict]
    end) b.

(** ** Completing a page *)

Definition all_complete (row : CheckpointRow) : bool :=
  forallb (fun state => bool_decide (state = BackfillItemComplete)) (ck_States row).

Definition scan_completed (row : CheckpointRow) : CheckpointRow := {|
  ck_ID := ck_ID row; ck_NextCursor := ck_NextCursor row; ck_Terminal := ck_Terminal row; ck_ScanComplete := true;
  ck_ConversationIDs := ck_ConversationIDs row; ck_States := ck_States row; ck_SafeErrors := ck_SafeErrors row |}.

(** The list's row of conversations with the next cursor. *)
Definition advance_page_cursor (t c : string) (next : option bytes) (s : IngressDb) : IngressDb :=
  let k := page_scope t c in
  let conversations' := match conversations (base s) !! k with
    | Some _ => conversations (base s)
    | None => <[k := {| cv_DefaultOutgoingID := ""; cv_IsGroup := false; cv_OrderingKey := "" |}]> (conversations (base s))
    end in
  set_cursors (match next with
               | Some cursor => <[k := cursor]> (committed_cursors (projected s))
               | None => delete k (committed_cursors (projected s))
               end) (set_base (set_conversations conversations' (base s)) s).

(** [completeBackfillPageSQL]. *)
Definition complete_page (t c owner : string) (token : Z) (checkpointID : string) (now : Z) (b : BackfillDb)
    : option BackfillDb :=
  match checkpoints b !! (t, c) with
  | Some row =>
    if owned_lease (base (ingress_db b)) t c owner token now && (ck_ID row =s checkpointID) && all_complete row then
      if ck_Terminal row
      then Some {| ingress_db := set_responses (clear_cursor_scopes t c (responses (ingress_db b))) (ingress_db b);
                   checkpoints := <[(t, c) := scan_completed row]> (checkpoints b) |}
      else Some {| ingress_db := advance_page_cursor t c (ck_NextCursor row) (ingress_db b);
                   checkpoints := delete (t, c) (checkpoints b) |}
    else None
  | None => None
  end.

Definition CompleteBackfillPageFenced (tenantID connectionID ownerID : string) (fencingToken : Z)
    (checkpointID : string) (now : Z) (b : BackfillDb) : BackfillDb * result unit :=
  if (connectionID =s "") || (ownerID =s "") || (fencingToken =? 0) || (checkpointID =s "")
  then (b, Err [ErrInvalidIdentifier])
  else inTenant tenantID (fun b =>
    match complete_page tenantID connectionID ownerID fencingToken checkpointID now b with
    | Some b' => Ok (b', tt)
    | None => Err [ErrBackfillCheckpointConflict]
    end) b.

(** ** The worker (backfill_runtime.go) *)

Definition classifyBackfillProviderError (err : error) : error :=
  if is_nil err || errors_Is err ContextCanceled then err
  else if errors_Is err ErrDurableFenceLost || errors_Is err ErrStaleGeneration || errors_Is err ErrConnectionLeaseLost
  then errors_Join [[ErrStaleGeneration]; err]
  else if errors_Is err ErrConflictingEnvelope || errors_Is err ErrInvalidProviderResponseID ||
          errors_Is err ErrProviderResponseCapacity || errors_Is err ErrDurablePoisoned
  then errors_Join [[ErrBackfillPoisoned]; err]
  else if errors_Is err ErrDurableInfrastructure || errors_Is err ErrSharedInfrastructure
  then errors_Join [[ErrSharedInfrastructure]; err]
  else if errors_Is err ErrBackfillPoisoned || errors_Is err ErrBackfillProviderUnavailable ||
          errors_Is err ErrProviderUnavailable || errors_Is err ErrProviderTransient ||
          errors_Is err ErrProviderPermanentProtocol
  then err
  else errors_Join [[ErrBackfillProviderUnavailable]; err].

Definition classifyBackfillStoreError (err : error) : error :=
  if is_nil err || errors_Is err ContextCanceled then err
  else if errors_Is err ErrConnectionLeaseLost || errors_Is err ErrBackfillCheckpointConflict ||
          errors_Is err ErrDurableFenceLost || errors_Is err ErrStaleGeneration
  then errors_Join [[ErrStaleGeneration]; err]
  else errors_Join [[ErrSharedInfrastructure]; err].

Definition classifyBackfillExecutionError (err : error) : error :=
  if is_nil err || errors_Is err ContextCanceled then err else classifyBackfillProviderError err.

Record BackfillWorker := { bw_ConversationPageSize : Z; bw_MessagePageSize : Z }.

(** [dependencies] says that the executor and both stores are present. *)
Definition NewActorBackfillWorker (dependencies : bool) (conversationPageSize messagePageSize : Z) : result BackfillWorker :=
  if negb dependencies then Err [ErrInvalidIdentifier]
  else
    let conversations := if conversationPageSize =? 0 then 25 else conversationPageSize in
    let messages := if messagePageSize =? 0 then 50 else messagePageSize in
    if (conversations <? 1) || (conversations >? MaxBackfillConversationsPerPage) || (messages <? 1) ||
       (messages >? MaxProjectedMessages)
    then Err [ErrInvalidIdentifier]
    else Ok {| bw_ConversationPageSize := conversations; bw_MessagePageSize := messages |}.

(** What a durable provider call returns; the page is absent without one. *)
Record DurablePage (A : Type) := { dp_Outcome : DurableOutcome; dp_Error : error; dp_Page : option A }.
Arguments dp_Outcome {A}.
Arguments dp_Error {A}.
Arguments dp_Page {A}.

Definition ConversationPage : Type := list (option Gm.Conversation) * bytes * option Gm.Cursor.
Definition GmMessagePage : Type := list (option Gm.Message) * option Gm.Cursor.

Definition poisoned_outcome (outcome : DurableOutcome) : bool :=
  bool_decide (outcome = DurableOutcomePoisoned) || bool_decide (outcome = DurableOutcomeDuplicatePoisoned).

Definition err_of {A} (r : result A) : error := match r with Ok _ => [] | Err e => e end.

Section Worker.
Context (unmarshalCursor : bytes -> option (string * Z)) (marshalCursor : string * Z -> bytes)
  (encodeCursor : Gm.Cursor -> option bytes).

(** The provider: a call commits its response while it runs, so it changes the
    database.  [cursor] is the decoded cursor of the request. *)
Context (list_conversations : BackfillDb -> Z -> option (string * Z) -> BackfillDb * DurablePage ConversationPage)
  (fetch_messages : BackfillDb -> string -> Z -> option (string * Z) -> BackfillDb * DurablePage GmMessagePage).
Context (worker : BackfillWorker) (newID : string) (now : Z).

Definition load_committed (o : ProviderOwnership) (conversationID : string) (b : BackfillDb) : result bytes :=
  (LoadCommittedCursor (key_TenantID (ow_Key o)) (key_ConnectionID (ow_Key o)) conversationID (ingress_db b)).2.

(** The items of a page: (seen identifiers, items). *)
Fixpoint page_items (index : Z) (conversations : list (option Gm.Conversation)) (seen : gset string) : list BackfillItem :=
  match conversations with
  | [] => []
  | conversation :: rest =>
    let poisoned reason := {| bi_Ordinal := index; bi_ConversationID := ""; bi_State := BackfillItemPoisoned;
                              bi_SafeError := reason |} in
    match conversation with
    | Some c =>
      if negb (ValidProviderIdentifier (Gm.ConversationID c))
      then poisoned "invalid_provider_conversation" :: page_items (index + 1) rest seen
      else if bool_decide (Gm.ConversationID c ∈ seen)
      then poisoned "duplicate_provider_conversation" :: page_items (index + 1) rest seen
      else {| bi_Ordinal := index; bi_ConversationID := Gm.ConversationID c; bi_State := BackfillItemPending;
              bi_SafeError := "" |} :: page_items (index + 1) rest ({[Gm.ConversationID c]} ∪ seen)
    | None => poisoned "invalid_provider_conversation" :: page_items (index + 1) rest seen
    end
  end.

Definition stageConversationPage (o : ProviderOwnership) (b : BackfillDb) : BackfillDb * error :=
  match load_committed o ProviderPageCursorID b with
  | Err e => (b, classifyBackfillStoreError e)
  | Ok baseEncoded =>
    match decodeBackfillCursor unmarshalCursor marshalCursor baseEncoded with
    | Err e => (b, e)
    | Ok baseCursor =>
      let '(b, result) := list_conversations b (bw_ConversationPageSize worker) baseCursor in
      if poisoned_outcome (dp_Outcome result) then (b, [ErrBackfillPoisoned])
      else if negb (is_nil (dp_Error result)) then (b, classifyBackfillProviderError (dp_Error result))
      else if negb (bool_decide (dp_Outcome result = DurableOutcomeCommitted))
      then (b, text_error "provider conversation page has no committed durable outcome")
      else match dp_Page result with
      | None => (b, [ErrBackfillPoisoned])
      | Some (conversations, cursorBytes, cursor) =>
        if blen conversations >? bw_ConversationPageSize worker then (b, [ErrBackfillPoisoned])
        else match responseBackfillCursor unmarshalCursor marshalCursor encodeCursor cursorBytes cursor with
        | Err e => (b, e)
        | Ok (next, terminal) =>
          let '(b, staged) := StageBackfillPageFenced (key_TenantID (ow_Key o)) (key_ConnectionID (ow_Key o))
            (ow_OwnerID o) (ow_FencingToken o)
            {| bp_BaseCursor := baseEncoded; bp_NextCursor := next; bp_Terminal := terminal;
               bp_Items := page_items 0 conversations ∅ |} newID now b in
          (b, classifyBackfillStoreError (err_of staged))
        end
      end
    end
  end.

Definition mark (o : ProviderOwnership) (checkpointID : string) (item : BackfillItem) (state : BackfillItemState)
    (safeError : string) (b : BackfillDb) : BackfillDb * error :=
  let '(b, marked) := MarkBackfillItemFenced (key_TenantID (ow_Key o)) (key_ConnectionID (ow_Key o)) (ow_OwnerID o)
    (ow_FencingToken o) checkpointID (bi_Ordinal item) state safeError now b in
  (b, classifyBackfillStoreError (err_of marked)).

Definition fetchMessagePage (o : ProviderOwnership) (checkpointID : string) (item : BackfillItem) (b : BackfillDb)
    : BackfillDb * error :=
  match load_committed o (bi_ConversationID item) b with
  | Err e => (b, classifyBackfillStoreError e)
  | Ok encoded =>
    match decodeBackfillCursor unmarshalCursor marshalCursor encoded with
    | Err e => (b, e)
    | Ok cursor =>
      let '(b, result) := fetch_messages b (bi_ConversationID item) (bw_MessagePageSize worker) cursor in
      if poisoned_outcome (dp_Outcome result)
      then mark o checkpointID item BackfillItemPoisoned "durable_provider_page_poisoned" b
      else if negb (is_nil (dp_Error result)) then (b, classifyBackfillProviderError (dp_Error result))
      else if negb (bool_decide (dp_Outcome result = DurableOutcomeCommitted))
      then (b, text_error "provider message page has no committed durable outcome")
      else match dp_Page result with
      | None => mark o checkpointID item BackfillItemPoisoned "invalid_provider_message_page" b
      | Some (messages, next) =>
        if (blen messages >? bw_MessagePageSize worker) || negb (is_ok (validateMessageEvent messages))
        then mark o checkpointID item BackfillItemPoisoned "invalid_provider_message_page" b
        else match next with
        | None => mark o checkpointID item BackfillItemComplete "" b
        | Some _ =>
          if is_ok (responseBackfillCursor unmarshalCursor marshalCursor encodeCursor [] next) then (b, [])
          else mark o checkpointID item BackfillItemPoisoned "invalid_provider_message_cursor" b
        end
      end
    end
  end.

Definition is_pending (item : BackfillItem) : bool := bool_decide (bi_State item = BackfillItemPending).
Definition is_poisoned (item : BackfillItem) : bool := bool_decide (bi_State item = BackfillItemPoisoned).

(** The operation the actor executes: (processed, error). [ownership] is what
    its context carries. *)
Definition backfill_operation (key : Key) (ownership : option ProviderOwnership) (supportsBackfill : bool)
    (b : BackfillDb) : BackfillDb * (bool * error) :=
  match ProviderOwnershipFromContext ownership with
  | None => (b, (false, [ErrProviderUnavailable]))
  | Some o =>
    if negb (bool_decide (ow_Key o = key)) then (b, (false, [ErrProviderUnavailable]))
    else if negb supportsBackfill then (b, (false, text_error "active provider does not support cursor backfill"))
    else
      let '(b, loaded) := LoadBackfillCheckpoint (key_TenantID key) (key_ConnectionID key) b in
      match loaded with
      | Err e => (b, (false, classifyBackfillStoreError e))
      | Ok None => let '(b, err) := stageConversationPage o b in (b, (true, err))
      | Ok (Some checkpoint) =>
        if bc_ScanComplete checkpoint then (b, (false, []))
        else match List.find is_pending (bc_Items checkpoint) with
        | Some item => let '(b, err) := fetchMessagePage o (bc_ID checkpoint) item b in (b, (true, err))
        | None =>
          if existsb is_poisoned (bc_Items checkpoint) then (b, (false, [ErrBackfillPoisoned]))
          else
            let '(b, completed) := CompleteBackfillPageFenced (key_TenantID key) (key_ConnectionID key) (ow_OwnerID o)
              (ow_FencingToken o) (bc_ID checkpoint) now b in
            (b, (true, classifyBackfillStoreError (err_of completed)))
        end
      end
  end.

(** [refused] is the executor's error when it does not run the operation. *)
Definition RunConnection (key : Key) (refused : error) (ownership : option ProviderOwnership) (supportsBackfill : bool)
    (b : BackfillDb) : BackfillDb * (bool * error) :=
  if (key_TenantID key =s "") || (key_ConnectionID key =s "") then (b, (false, [ErrInvalidIdentifier]))
  else if negb (is_nil refused) then (b, (false, classifyBackfillExecutionError refused))
  else
    let '(b, (processed, err)) := backfill_operation key ownership supportsBackfill b in
    (b, (processed, classifyBackfillExecutionError err)).
End Worker.
