(* ===== verification/BackfillSafety.v ===== *)
(** * Guarantees of history import

    The cursor of the conversation list waits for every conversation of its
    page, and a poisoned conversation holds it back for good. *)

From S2P Require Import Prelude GoText Crypto GoEncoding Domain Session EventContract Pool Actor Store Leases Ingress Reconcile Responses Acks Lines Commit InboxInvariant CommitSafety Incoming Projector Sink Backfill.

(** ** Committing an envelope and the cursor of the list *)

Definition cursors (s : IngressDb) : gmap rkey bytes := committed_cursors (projected s).
Definition page_cursor (t c : string) (s : IngressDb) : option bytes := cursors s !! page_scope t c.

Lemma upsert_lines_cursors t c records s s' : upsert_lines t c records s = Ok s' -> cursors s' = cursors s.
Proof.
  revert s. induction records as [|r records IH]; intros s; cbn [upsert_lines]; [by intros [= <-]|].
  intros (s1 & ->%upsert_line_ok & H)%result_bind_ok. by rewrite (IH _ H).
Qed.

Lemma commit_lines_cursors record s s' : commit_lines record s = Ok s' -> cursors s' = cursors s.
Proof.
  unfold commit_lines. case_if_goal E; [|by intros [= <-]].
  intros (rs & _ & (_ & _ & H)%result_bind_ok)%result_bind_ok.
  unfold replaceLineRows in H. apply result_bind_ok in H as (s1 & H & [= <-]).
  etransitivity; [|by eapply upsert_lines_cursors]. done.
Qed.

Lemma project_media_cursors record media mids ids n now index s out :
  project_media record media mids ids n now index s = Ok out -> cursors out.1 = cursors s.
Proof.
  revert n index s. induction media as [|l media IH]; intros n index s; cbn [project_media]; [intros [= <-]; reflexivity|].
  cbv zeta. case_if_goal E; [apply IH|]. case_if_goal Em; [done|]. destruct (ids n) as [m j].
  intros (s1 & H1 & H)%result_bind_ok. rewrite (IH _ _ _ H). unfold insert_media in H1. bind_ok H1. by injection H1 as <-.
Qed.

Lemma poison_cursors record reason ids now s s' out :
  poisonCursorEnvelope record reason ids now s = Ok (s', out) -> cursors s' = cursors s.
Proof.
  unfold poisonCursorEnvelope. intros ([r1 b] & _ & H)%result_bind_ok. cbn [snd fst] in H.
  destruct b; cbn [negb] in H; [|done]. cbv zeta in H. apply result_bind_ok in H as (body & _ & H).
  apply result_bind_ok in H as (db1 & _ & H). by apply result_bind_ok in H as (db2 & _ & [= <- <-]).
Qed.

Lemma resolve_cursors record media ids now index s s' out :
  resolve_attachments record media ids now index s = Ok (s', out) -> cursors s' = cursors s.
Proof.
  revert index s. induction media as [|l media IH]; intros index s; cbn [resolve_attachments]; [by intros [= <- _]|].
  cbv zeta. destruct (lock_existing_attachment _ _ _ _ _ _) as [a|]; [|apply IH].
  case_if_goal E1; [apply IH|]. case_if_goal E2.
  - intros (s1 & H1 & H)%result_bind_ok. rewrite (IH _ _ H). unfold bind_outbound_identity in H1.
    destruct (unbound_at _ _ _ _ _ _) as [|m [|]]; try done. by injection H1 as <-.
  - intros ([s1 o] & H1 & [= <- _])%result_bind_ok. by eapply poison_cursors.
Qed.

Lemma commit_cursor_cursors record adv ids now s s' out :
  commit_cursor record adv ids now s = Ok (s', out) -> cursors s' = cursors s.
Proof.
  unfold commit_cursor. case_if_goal E; [by intros [= <- _]|]. destruct (history (responses s) !! _) as [row|].
  - case_if_goal Eb; [by intros [= <- _]|]. intros ([s1 o] & H & [= <- _])%result_bind_ok. by eapply poison_cursors.
  - case_if_goal Ea.
    + destruct (exhaustProviderCursorBudget _ _ _) as [r1|]; [|done].
      intros ([s1 o] & H & [= <- _])%result_bind_ok. by rewrite (poison_cursors _ _ _ _ _ _ _ H).
    + intros H. bind_ok H. by injection H as <- _.
Qed.

(** A message page moves the cursor of its own conversation only. *)
Lemma advance_cursor_page record s s' t c : advance_cursor record s = Ok s' -> page_cursor t c s' = page_cursor t c s.
Proof.
  unfold advance_cursor. case_if_goal E1; [by intros [= <-]|]. case_if_goal E2; [done|]. intros [= <-].
  apply orb_false_iff in E2 as [_ E2]. apply negb_false_iff in E2. unfold page_cursor, cursors. simpl.
  apply lookup_insert_ne. unfold cursor_scope, page_scope. intros [= _ _ Heq]. rewrite Heq in E2. by vm_compute in E2.
Qed.

Lemma commit_new_page record adv ids now s s' out t c :
  commit_new record adv ids now s = Ok (s', out) -> page_cursor t c s' = page_cursor t c s.
Proof.
  unfold commit_new. intros ([r1 b] & _ & H)%result_bind_ok. case_if_in H E; [done|].
  apply result_bind_ok in H as (s1 & H1%commit_lines_cursors & H).
  apply result_bind_ok in H as ([s2 o] & H2%commit_cursor_cursors & H). cbn [fst snd] in H.
  assert (Hs2 : page_cursor t c s2 = page_cursor t c s) by (unfold page_cursor; by rewrite H2, H1).
  destruct o as [o|]; [injection H as <- _; done|]. rewrite <- Hs2. unfold commit_projection in H.
  apply result_bind_ok in H as ([s3 [index poisoned]] & H3%resolve_cursors & H).
  assert (Hs3 : page_cursor t c s3 = page_cursor t c s2) by (unfold page_cursor; by rewrite H3). rewrite <- Hs3.
  destruct poisoned as [o|]; [by injection H as <- _|].
  apply result_bind_ok in H as (db2 & _ & H). apply result_bind_ok in H as (rec & _ & H).
  apply result_bind_ok in H as (med & Hm%project_media_cursors & H). apply result_bind_ok in H as (db5 & _ & H).
  apply result_bind_ok in H as (s6 & Ha & [= <- _]). rewrite (advance_cursor_page _ _ _ _ _ Ha).
  unfold page_cursor. unfold cursors at 1. cbn [projected set_base]. fold (cursors med.1). by rewrite Hm.
Qed.

Lemma CommitEnvelope_page um mc record ids now s t c :
  page_cursor t c (Repository_CommitEnvelope um mc record ids now s).1 = page_cursor t c s.
Proof.
  unfold Repository_CommitEnvelope. destruct (canonical_record um mc record) as [rec|]; [|done].
  destruct (inTenant _ _ s) as [s' r] eqn:Et. apply inTenant_cases in Et as [[-> _]|(v & _ & H)]; [done|].
  apply commit_transaction_cases in H as (_ & r1 & adv & exh & _ & H).
  destruct H as [(ex & r2 & _ & _ & ->)|[(_ & _ & _ & r2 & _ & ->)|(_ & _ & Hc)]]; [done..|].
  cbn [fst]. rewrite (commit_new_page _ _ _ _ _ _ _ t c Hc). done.
Qed.

(** ** Runs *)

(** One operation of any replica; [step_elsewhere] is every other component,
    which touches neither the checkpoints nor the cursors. *)
Inductive backfill_step : BackfillDb -> BackfillDb -> Prop :=
| step_stage t c owner token page newID now b :
    backfill_step b (StageBackfillPageFenced t c owner token page newID now b).1
| step_mark_item t c owner token id ordinal state safeError now b :
    backfill_step b (MarkBackfillItemFenced t c owner token id ordinal state safeError now b).1
| step_complete t c owner token id now b :
    backfill_step b (CompleteBackfillPageFenced t c owner token id now b).1
| step_ingress um mc record ids now b :
    backfill_step b (set_ingress (Repository_CommitEnvelope um mc record ids now (ingress_db b)).1 b)
| step_elsewhere s b : cursors s = cursors (ingress_db b) -> backfill_step b (set_ingress s b).

Definition row_of (t c : string) (b : BackfillDb) : option CheckpointRow := checkpoints b !! (t, c).
Definition list_cursor (t c : string) (b : BackfillDb) : option bytes := page_cursor t c (ingress_db b).

(** What one step does to a connection: nothing to its cursor and its staged
    checkpoint but for marking pending items; or it completes the page. *)
Definition row_kept (row : CheckpointRow) (row' : CheckpointRow) : Prop :=
  ck_ID row' = ck_ID row /\ ck_NextCursor row' = ck_NextCursor row /\ ck_Terminal row' = ck_Terminal row /\
  ck_ScanComplete row' = ck_ScanComplete row /\
  forall i, ck_States row !! i = Some BackfillItemPoisoned -> ck_States row' !! i = Some BackfillItemPoisoned.

Definition page_completed (t c : string) (b b' : BackfillDb) : Prop :=
  exists row, row_of t c b = Some row /\ all_complete row = true /\
    ((ck_Terminal row = true /\ list_cursor t c b' = list_cursor t c b /\ row_of t c b' = Some (scan_completed row)) \/
     (ck_Terminal row = false /\ list_cursor t c b' = ck_NextCursor row /\ row_of t c b' = None)).

Lemma complete_item row k state : all_complete row = true -> ck_States row !! k = Some state -> state = BackfillItemComplete.
Proof.
  unfold all_complete. rewrite forallb_forall. intros Hall Hk. apply list_elem_of_lookup_2, list_elem_of_In, Hall in Hk.
  by apply bool_decide_eq_true in Hk.
Qed.

Lemma row_kept_refl row : row_kept row row.
Proof. by split_and!. Qed.

Lemma stage_effect t c t' c' owner token page newID now b :
  let b' := (StageBackfillPageFenced t' c' owner token page newID now b).1 in
  ingress_db b' = ingress_db b /\ forall row, row_of t c b = Some row -> row_of t c b' = Some row.
Proof.
  cbv zeta. unfold StageBackfillPageFenced. case_if_goal E; [done|]. destruct (inTenant _ _ b) as [b' r] eqn:Et.
  apply inTenant_cases in Et as [[-> _]|(v & _ & H)]; [done|]. cbn [fst].
  destruct (stage_page _ _ _ _ _ _ _ b) as [b1|] eqn:Es; [|done]. injection H as <- _. unfold stage_page in Es.
  case_if_in Es Ec; [|done]. injection Es as <-. split; [done|]. intros row Hrow.
  apply andb_true_iff in Ec as [_ Ec]. apply bool_decide_eq_true in Ec. unfold row_of in *. simpl.
  rewrite lookup_insert_ne; [done|]. congruence.
Qed.

Lemma mark_effect t c t' c' owner token id ordinal state safeError now b :
  let b' := (MarkBackfillItemFenced t' c' owner token id ordinal state safeError now b).1 in
  ingress_db b' = ingress_db b /\
  forall row, row_of t c b = Some row -> exists row', row_of t c b' = Some row' /\ row_kept row row'.
Proof.
  cbv zeta. assert (Hid : forall row, row_of t c b = Some row -> exists row', row_of t c b = Some row' /\ row_kept row row').
  { intros row Hrow. exists row. split; [done|apply row_kept_refl]. }
  unfold MarkBackfillItemFenced. case_if_goal E; [done|]. destruct (inTenant _ _ b) as [b' r] eqn:Et.
  apply inTenant_cases in Et as [[-> _]|(v & _ & H)]; [done|]. cbn [fst].
  destruct (mark_item _ _ _ _ _ _ _ _ _ b) as [b1|] eqn:Es; [|done]. injection H as <- _. unfold mark_item in Es.
  destruct (checkpoints b !! (t', c')) as [old|] eqn:Eo; [|done]. case_if_in Es Ec; [|done]. injection Es as <-.
  split; [done|]. intros row Hrow. apply andb_true_iff in Ec as [_ Ec]. apply bool_decide_eq_true in Ec.
  unfold row_of in *. simpl. destruct (decide ((t, c) = (t', c'))) as [[= -> ->]|Hne].
  - rewrite lookup_insert_eq. rewrite Eo in Hrow. injection Hrow as <-. eexists. split; [done|]. split_and!; try done.
    intros i Hi. simpl. rewrite list_lookup_insert_ne; [done|]. congruence.
  - rewrite lookup_insert_ne by done. exists row. split; [done|apply row_kept_refl].
Qed.

Lemma complete_effect t c t' c' owner token id now b :
  let b' := (CompleteBackfillPageFenced t' c' owner token id now b).1 in
  page_completed t c b b' \/ (list_cursor t c b' = list_cursor t c b /\ row_of t c b' = row_of t c b).
Proof.
  cbv zeta. unfold CompleteBackfillPageFenced. case_if_goal E; [by right|]. destruct (inTenant _ _ b) as [b' r] eqn:Et.
  apply inTenant_cases in Et as [[-> _]|(v & _ & H)]; [by right|]. cbn [fst].
  destruct (complete_page _ _ _ _ _ _ b) as [b1|] eqn:Es; [|done]. injection H as <- _. unfold complete_page in Es.
  destruct (checkpoints b !! (t', c')) as [row|] eqn:Eo; [|done]. case_if_in Es Ec; [|done].
  apply andb_true_iff in Ec as [_ Ec]. unfold page_completed, list_cursor, page_cursor, cursors, row_of.
  destruct (decide ((t, c) = (t', c'))) as [[= -> ->]|Hne].
  - left. exists row. split_and!; [done..|]. case_if_in Es Et; injection Es as <-; [left|right]; split_and!; try done; simpl.
    + by rewrite lookup_insert_eq.
    + destruct (ck_NextCursor row); [by rewrite lookup_insert_eq|by rewrite lookup_delete_eq].
    + by rewrite lookup_delete_eq.
  - right. case_if_in Es Et; injection Es as <-; simpl; split; try done.
    + by rewrite lookup_insert_ne by done.
    + unfold page_scope. destruct (ck_NextCursor row); [rewrite lookup_insert_ne by congruence|rewrite lookup_delete_ne by congruence]; done.
    + by rewrite lookup_delete_ne by done.
Qed.

Lemma backfill_step_effect t c b b' :
  backfill_step b b' ->
  page_completed t c b b' \/
  (list_cursor t c b' = list_cursor t c b /\
   forall row, row_of t c b = Some row -> exists row', row_of t c b' = Some row' /\ row_kept row row').
Proof.
  destruct 1.
  - right. destruct (stage_effect t c t0 c0 owner token page newID now b) as [Hi Hr]. unfold list_cursor. rewrite Hi.
    split; [done|]. intros row Hrow. exists row. split; [by apply Hr|apply row_kept_refl].
  - right. destruct (mark_effect t c t0 c0 owner token id ordinal state safeError now b) as [Hi Hr].
    unfold list_cursor. rewrite Hi. by split.
  - destruct (complete_effect t c t0 c0 owner token id now b) as [Hc|[Hc Hr]]; [by left|]. right. split; [done|].
    intros row Hrow. exists row. rewrite Hr. split; [done|apply row_kept_refl].
  - right. split; [apply CommitEnvelope_page|]. intros row Hrow. exists row. split; [done|apply row_kept_refl].
  - right. split; [unfold list_cursor, page_cursor; cbn [ingress_db set_ingress]; by rewrite H|]. intros row Hrow. exists row. split; [done|apply row_kept_refl].
Qed.

(** The step marks conversation [k] of the checkpoint complete, under the lease. *)
Definition marked_complete (t c id : string) (k : nat) (b b' : BackfillDb) : Prop :=
  exists owner token safeError now,
    b' = (MarkBackfillItemFenced t c owner token id (Z.of_nat k) BackfillItemComplete safeError now b).1 /\
    owned_lease (base (ingress_db b)) t c owner token now = true.

Lemma mark_pending t c t' c' owner token id ordinal state safeError now b row row' k :
  let b' := (MarkBackfillItemFenced t' c' owner token id ordinal state safeError now b).1 in
  row_of t c b = Some row -> ck_States row !! k = Some BackfillItemPending -> row_of t c b' = Some row' ->
  ck_States row' !! k = Some BackfillItemPending \/ ck_States row' !! k = Some BackfillItemPoisoned \/
  marked_complete t c (ck_ID row) k b b'.
Proof.
  cbv zeta. intros Hrow Hk. assert (row_of t c b = Some row' -> ck_States row' !! k = Some BackfillItemPending) as Hid by congruence.
  remember (MarkBackfillItemFenced t' c' owner token id ordinal state safeError now b) as out eqn:Eo. revert Eo.
  unfold MarkBackfillItemFenced at 1. case_if_goal E; [intros ->; auto|].
  destruct (inTenant _ _ b) as [b' r] eqn:Et. intros ->. apply inTenant_cases in Et as Hcase. cbn [fst].
  destruct Hcase as [[-> _]|(v & _ & H)]; [by auto|].
  destruct (mark_item _ _ _ _ _ _ _ _ _ b) as [b1|] eqn:Es; [|done]. injection H as <- _. unfold mark_item in Es.
  destruct (checkpoints b !! (t', c')) as [old|] eqn:Eold; [|done]. case_if_in Es Ec; [|done]. injection Es as <-.
  apply andb_true_iff in Ec as [Ec Ep]. apply andb_true_iff in Ec as [Eown Eid]. apply String.eqb_eq in Eid as <-.
  unfold row_of in *. cbn [checkpoints set_checkpoints]. destruct (decide ((t', c') = (t, c))) as [[= -> ->]|Hne].
  2: { rewrite lookup_insert_ne by done. intros Hr. left. congruence. }
  rewrite Hrow in Eold. injection Eold as <-. rewrite lookup_insert_eq. intros [= <-]. cbn [ck_States].
  destruct (decide (Z.to_nat ordinal = k)) as [Hok|Hok]; [|left; by rewrite list_lookup_insert_ne].
  apply lookup_lt_Some in Hk as Hlt. rewrite Hok, list_lookup_insert_eq by done.
  assert (Z.of_nat k = ordinal) as Hord by (rewrite <- Hok; repeat (apply orb_false_iff in E as [E ?]); lia).
  assert (state = BackfillItemComplete \/ state = BackfillItemPoisoned) as [->| ->].
  { repeat (apply orb_false_iff in E as [E ?]). destruct (decide (state = BackfillItemComplete)); [by left|]. right.
    match goal with Hs : negb _ && negb _ = false |- _ => rewrite bool_decide_false in Hs by done; cbn in Hs;
      by apply negb_false_iff, bool_decide_eq_true in Hs end. }
  - right. right. exists owner, token, safeError, now. split; [|done]. unfold MarkBackfillItemFenced. rewrite Hord, E, Et. cbn [fst]. by rewrite Hok.
  - by right; left.
Qed.

Lemma pending_step t c b b' row row' k :
  backfill_step b b' -> row_of t c b = Some row -> ck_States row !! k = Some BackfillItemPending -> row_of t c b' = Some row' ->
  ck_States row' !! k = Some BackfillItemPending \/ ck_States row' !! k = Some BackfillItemPoisoned \/
  marked_complete t c (ck_ID row) k b b'.
Proof.
  intros Hstep Hrow Hk Hrow'. destruct Hstep as [t0 c0 owner token page newID now b| | t0 c0 owner token id now b| |].
  - left. destruct (stage_effect t c t0 c0 owner token page newID now b) as [_ Hr]. rewrite (Hr _ Hrow) in Hrow'. by injection Hrow' as <-.
  - by eapply mark_pending.
  - left. destruct (complete_effect t c t0 c0 owner token id now b) as [(row1 & Hrow1 & Hall & _)|[_ Hr]].
    + rewrite Hrow in Hrow1. injection Hrow1 as <-. by pose proof (complete_item _ _ _ Hall Hk).
    + congruence.
  - left. unfold row_of in *. cbn in Hrow'. congruence.
  - left. unfold row_of in *. cbn in Hrow'. congruence.
Qed.

Section Trace.
Variables (t c : string) (states : nat -> BackfillDb).

(** The checkpoint [id] is staged in every state from [j] to [i]. *)
Definition staged_throughout (id : string) (j i : nat) : Prop :=
  forall m, (j <= m <= i)%nat -> exists row, row_of t c (states m) = Some row /\ ck_ID row = id.

Lemma poisoned_throughout id j i k row rowi :
  (forall m, (j <= m < i)%nat -> backfill_step (states m) (states (Datatypes.S m))) -> staged_throughout id j i -> (j <= i)%nat ->
  row_of t c (states j) = Some row -> ck_States row !! k = Some BackfillItemPoisoned ->
  row_of t c (states i) = Some rowi -> ck_States rowi !! k = Some BackfillItemPoisoned.
Proof.
  intros Hsteps Hst Hji Hrow Hk. revert rowi. remember (i - j)%nat as n eqn:En. revert i En Hsteps Hst Hji. induction n as [|n IH]; intros i En Hsteps Hst Hji rowi Hi.
  { assert (i = j) as -> by lia. congruence. }
  destruct i as [|i]; [lia|]. destruct (Hst i ltac:(lia)) as (rowm & Hm & _).
  assert (ck_States rowm !! k = Some BackfillItemPoisoned) as Hp.
  { apply (IH i); [lia | intros m ?; apply Hsteps; lia | intros m ?; apply Hst; lia | lia | done]. }
  destruct (backfill_step_effect t c _ _ (Hsteps i ltac:(lia))) as [(r & Hr & Hall & _)|[_ Hkept]].
  - rewrite Hm in Hr. injection Hr as <-. by pose proof (complete_item _ _ _ Hall Hp).
  - destruct (Hkept _ Hm) as (r & Hr & _ & _ & _ & _ & Hpo). rewrite Hi in Hr. injection Hr as <-. by apply Hpo.
Qed.

(** Between a state in which a conversation is pending and one in which its page is
    complete, a step marked it complete. *)
Lemma pending_was_marked id j i k row rowi :
  (forall m, (j <= m < i)%nat -> backfill_step (states m) (states (Datatypes.S m))) -> staged_throughout id j i -> (j <= i)%nat ->
  row_of t c (states j) = Some row -> ck_States row !! k = Some BackfillItemPending ->
  row_of t c (states i) = Some rowi -> all_complete rowi = true ->
  exists m, (j <= m < i)%nat /\ marked_complete t c id k (states m) (states (Datatypes.S m)).
Proof.
  intros Hsteps Hst Hji Hrow Hk Hi Hall. remember (i - j)%nat as n eqn:En. revert j row En Hsteps Hst Hji Hrow Hk.
  induction n as [|n IH]; intros j row En Hsteps Hst Hji Hrow Hk.
  { assert (i = j) as -> by lia. rewrite Hrow in Hi. injection Hi as <-. by pose proof (complete_item _ _ _ Hall Hk). }
  destruct (Hst (Datatypes.S j) ltac:(lia)) as (row1 & Hrow1 & _).
  destruct (pending_step t c _ _ row row1 k (Hsteps j ltac:(lia)) Hrow Hk Hrow1) as [Hp|[Hp|Hm]].
  - destruct (IH (Datatypes.S j) row1) as (m & Hm & Hmark); [lia | intros m ?; apply Hsteps; lia | intros m ?; apply Hst; lia | lia | done | done|].
    exists m. split; [lia | done].
  - assert (ck_States rowi !! k = Some BackfillItemPoisoned) as Hpi; [|by pose proof (complete_item _ _ _ Hall Hpi)].
    apply (poisoned_throughout id (Datatypes.S j) i k row1); [intros m ?; apply Hsteps; lia | intros m ?; apply Hst; lia | lia | done..].
  - exists j. split; [lia|]. destruct (Hst j ltac:(lia)) as (r & Hr & <-). rewrite Hrow in Hr. by injection Hr as <-.
Qed.
End Trace.

(** C17. The cursor of the conversation list waits for every conversation of its page.
    In any run of staging, marking, completing, committing of envelopes and other
    operations of any replica, at every step at which the cursor of a connection
    changes, the state before the step has a checkpoint of the connection that is not
    the last page and has all its conversations complete, and the step sets the cursor
    to the checkpoint's next cursor and removes the checkpoint. And each conversation
    that was pending in an earlier state of the run, the checkpoint being staged since,
    was marked complete by a step in between, by the holder of the lease. *)
Theorem list_cursor_waits (t c : string) (states : nat -> BackfillDb) (n : nat)
  (Hrun : forall i, (i < n)%nat -> backfill_step (states i) (states (Datatypes.S i)))
  (i : nat) (Hi : (i < n)%nat) (Hmoved : list_cursor t c (states (Datatypes.S i)) <> list_cursor t c (states i)) :
  exists row, row_of t c (states i) = Some row /\ all_complete row = true /\ ck_Terminal row = false /\
    list_cursor t c (states (Datatypes.S i)) = ck_NextCursor row /\ row_of t c (states (Datatypes.S i)) = None /\
    (forall j k rowj, (j <= i)%nat -> staged_throughout t c states (ck_ID row) j i ->
       row_of t c (states j) = Some rowj -> ck_States rowj !! k = Some BackfillItemPending ->
       exists m, (j <= m < i)%nat /\ marked_complete t c (ck_ID row) k (states m) (states (Datatypes.S m))).
Proof.
  destruct (backfill_step_effect t c _ _ (Hrun i Hi)) as [(row & Hrow & Hall & Hcase)|[Hc _]]; [|done].
  destruct Hcase as [(_ & Hc & _)|(Ht & Hc & Hr)]; [done|]. exists row. split_and!; [done..|].
  intros j k rowj Hj Hst Hrowj Hk. apply (pending_was_marked t c states (ck_ID row) j i k rowj row); try done. intros m ?. apply Hrun. lia.
Qed.

(** A poisoned conversation holds the list back for good: once an item of a
    connection's checkpoint is poisoned, then after any further operations of
    any replica the same checkpoint is still staged with that item poisoned, the
    scan is not complete, and the cursor of the list is where it was.  Nothing
    in the program takes the poison back. *)
Theorem poisoned_item_blocks (t c : string) (b b' : BackfillDb) (row : CheckpointRow) (i : nat)
  (Hrow : row_of t c b = Some row) (Hpoisoned : ck_States row !! i = Some BackfillItemPoisoned)
  (Hscan : ck_ScanComplete row = false) (Hrun : rtc backfill_step b b') :
  exists row', row_of t c b' = Some row' /\ ck_ID row' = ck_ID row /\
    ck_States row' !! i = Some BackfillItemPoisoned /\ ck_ScanComplete row' = false /\
    list_cursor t c b' = list_cursor t c b.
Proof.
  revert row Hrow Hpoisoned Hscan. induction Hrun as [b|b b1 b' Hstep Hrun IH]; intros row Hrow Hp Hs; [by exists row|].
  destruct (backfill_step_effect t c b b1 Hstep) as [(row1 & Hrow1 & Hall & _)|[Hc Hk]].
  - rewrite Hrow in Hrow1. injection Hrow1 as <-. by pose proof (complete_item _ _ _ Hall Hp).
  - destruct (Hk _ Hrow) as (row1 & Hrow1 & Hid & _ & _ & Hsc & Hpo). rewrite <- Hc, <- Hid.
    apply IH; [done|by apply Hpo|congruence].
Qed.

(** ** Concrete runs *)

Definition backfill_start : BackfillDb := {| ingress_db := leased_ingress; checkpoints := ∅ |}.

Definition one_conversation : BackfillPage := {|
  bp_BaseCursor := []; bp_NextCursor := bytes_of "next"; bp_Terminal := false;
  bp_Items := [{| bi_Ordinal := 0; bi_ConversationID := "v1"; bi_State := BackfillItemPending; bi_SafeError := "" |}] |}.

Definition staged_once : BackfillDb := (StageBackfillPageFenced "t1" "c1" "actor-a" 1 one_conversation "ck1" Second backfill_start).1.

Definition marked_as (state : BackfillItemState) : BackfillDb :=
  (MarkBackfillItemFenced "t1" "c1" "actor-a" 1 "ck1" 0 state "" Second staged_once).1.

Definition completed_after (state : BackfillItemState) : BackfillDb :=
  (CompleteBackfillPageFenced "t1" "c1" "actor-a" 1 "ck1" Second (marked_as state)).1.

(** Staged, marked, completed. *)
Definition import_states (n : nat) : BackfillDb :=
  match n with
  | 0%nat => backfill_start
  | 1%nat => staged_once
  | 2%nat => marked_as BackfillItemComplete
  | _ => completed_after BackfillItemComplete
  end.

Lemma list_cursor_waits_witness :
  exists row, row_of "t1" "c1" (import_states 2) = Some row /\ all_complete row = true /\ ck_Terminal row = false /\
    list_cursor "t1" "c1" (import_states 3) = ck_NextCursor row /\ row_of "t1" "c1" (import_states 3) = None.
Proof.
  assert (forall i, (i < 3)%nat -> backfill_step (import_states i) (import_states (Datatypes.S i))) as Hrun.
  { intros [|[|[|i]]] Hi; [apply step_stage | apply step_mark_item | apply step_complete | lia]. }
  assert (list_cursor "t1" "c1" (import_states 3) <> list_cursor "t1" "c1" (import_states 2)) as Hm by (vm_compute; discriminate).
  destruct (list_cursor_waits "t1" "c1" import_states 3 Hrun 2 (ltac:(lia)) Hm) as (row & H1 & H2 & H3 & H4 & H5 & _).
  exists row. split; [exact H1|]. split; [exact H2|]. split; [exact H3|]. split; [exact H4 | exact H5].
Defined.

Definition poisoned_row : CheckpointRow := {|
  ck_ID := "ck1"; ck_NextCursor := Some (bytes_of "next"); ck_Terminal := false; ck_ScanComplete := false;
  ck_ConversationIDs := ["v1"]; ck_States := [BackfillItemPoisoned]; ck_SafeErrors := [""] |}.

Lemma poisoned_item_blocks_witness :
  exists row', row_of "t1" "c1" (completed_after BackfillItemPoisoned) = Some row' /\ ck_ID row' = "ck1" /\
    ck_States row' !! 0%nat = Some BackfillItemPoisoned /\ ck_ScanComplete row' = false /\
    list_cursor "t1" "c1" (completed_after BackfillItemPoisoned) = list_cursor "t1" "c1" (marked_as BackfillItemPoisoned).
Proof.
  apply (poisoned_item_blocks "t1" "c1" (marked_as BackfillItemPoisoned) (completed_after BackfillItemPoisoned)
    poisoned_row 0%nat).
  - vm_compute. reflexivity.
  - reflexivity.
  - reflexivity.
  - apply rtc_once, step_complete.
Defined.
