(* ===== verification/Images.v ===== *)
(** * Inspection of uploaded images (internal/gateway/media/upload.go)

    The raster inspection of uploads and imports: sniffing, the structural
    validators of GIF and WebP, the dimensions of WebP files, and the limit on
    pixels.  A file is the list of its bytes; a read returns the rest of the
    input.  [image.DecodeConfig] of PNG, JPEG and GIF files is an argument of
    [inspectImage].

    The validators are shown to accept exactly the files of a grammar; the loops
    take fuel, and acceptance of every file of the grammar shows that the length
    of the file is enough. *)

From S2P Require Import Prelude.

(** ** Reading *)

(** [io.ReadFull] into a buffer of [n] bytes. *)
Definition ReadFull (n : Z) (input : bytes) : option (bytes * bytes) :=
  if blen input <? n then None else Some (take (Z.to_nat n) input, drop (Z.to_nat n) input).

Definition discardExact (count : Z) (input : bytes) : option bytes := snd <$> ReadFull count input.

Definition byte_at (b : bytes) (i : nat) : Z := byte_val (default (byte_of_Z 0) (b !! i)).

(** [binary.LittleEndian]. *)
Fixpoint le_decode (b : bytes) : Z :=
  match b with
  | [] => 0
  | c :: rest => byte_val c + 256 * le_decode rest
  end.

Definition le_at (width i : nat) (b : bytes) : Z := le_decode (take width (drop i b)).

(** [bytes.Equal(b[i:i+len(s)], s)]. *)
Definition has_at (i : nat) (s : string) (b : bytes) : bool :=
  bool_decide (take (String.length s) (drop i b) = bytes_of s).

Definition sniffRasterMIME (header : bytes) : string :=
  if bool_decide (take 8 header = byte_of_Z <$> [0x89; 80; 78; 71; 13; 10; 0x1a; 10]) then "image/png"
  else if bool_decide (take 3 header = byte_of_Z <$> [0xff; 0xd8; 0xff]) then "image/jpeg"
  else if has_at 0 "GIF87a" header || has_at 0 "GIF89a" header then "image/gif"
  else if (16 <=? blen header) && has_at 0 "RIFF" header && has_at 8 "WEBP" header then "image/webp"
  else "".

Definition validImageDimensions (width height maxPixels : Z) : bool :=
  (0 <? width) && (0 <? height) && (width <=? Z.quot maxPixels height).

(** ** GIF *)

(** The bytes of the color table a packed field announces. *)
Definition color_table (packed : Z) : Z :=
  if Z.testbit packed 7 then 3 * Z.shiftl 2 (Z.land packed 0x07) else 0.

Fixpoint discardGIFSubBlocks (fuel : nat) (input : bytes) : option bytes :=
  match fuel with
  | O => None
  | S fuel =>
    '(size, rest) ← ReadFull 1 input;
    if byte_at size 0 =? 0 then Some rest
    else rest' ← discardExact (byte_at size 0) rest; discardGIFSubBlocks fuel rest'
  end.

(** The rectangle of an image descriptor lies on the canvas and within the limit. *)
Definition frame_fits (canvasWidth canvasHeight maxPixels : Z) (descriptor : bytes) : bool :=
  let left := le_at 2 0 descriptor in
  let top := le_at 2 2 descriptor in
  let width := le_at 2 4 descriptor in
  let height := le_at 2 6 descriptor in
  negb ((width <? 1) || (height <? 1) || (left >? canvasWidth - width) || (top >? canvasHeight - height) ||
        (width >? Z.quot maxPixels height)).

Definition gif_image (canvasWidth canvasHeight maxPixels : Z) (input : bytes) : option bytes :=
  '(descriptor, rest) ← ReadFull 9 input;
  if negb (frame_fits canvasWidth canvasHeight maxPixels descriptor) then None
  else
    rest ← discardExact (color_table (byte_at descriptor 8)) rest;
    '(codeSize, rest) ← ReadFull 1 rest;
    if (byte_at codeSize 0 <? 2) || (byte_at codeSize 0 >? 8) then None
    else discardGIFSubBlocks (S (length rest)) rest.

Fixpoint gif_blocks (canvasWidth canvasHeight maxPixels : Z) (fuel : nat) (images : Z) (input : bytes) : bool :=
  match fuel with
  | O => false
  | S fuel =>
    match ReadFull 1 input with
    | None => false
    | Some (marker, rest) =>
      if byte_at marker 0 =? 0x3b then is_nil rest && (images =? 1)
      else if byte_at marker 0 =? 0x21 then
        match discardExact 1 rest ≫= (fun rest => discardGIFSubBlocks (S (length rest)) rest) with
        | None => false
        | Some rest => gif_blocks canvasWidth canvasHeight maxPixels fuel images rest
        end
      else if byte_at marker 0 =? 0x2c then
        if images + 1 >? 1 then false
        else match gif_image canvasWidth canvasHeight maxPixels rest with
        | None => false
        | Some rest => gif_blocks canvasWidth canvasHeight maxPixels fuel (images + 1) rest
        end
      else false
    end
  end.

Definition validateStaticGIF (maxPixels : Z) (input : bytes) : bool :=
  match ReadFull 13 input with
  | None => false
  | Some (header, rest) =>
    if negb (has_at 0 "GIF87a" header) && negb (has_at 0 "GIF89a" header) then false
    else
      let canvasWidth := le_at 2 6 header in
      let canvasHeight := le_at 2 8 header in
      if (canvasWidth <? 1) || (canvasHeight <? 1) || (canvasWidth >? Z.quot maxPixels canvasHeight) then false
      else match discardExact (color_table (byte_at header 10)) rest with
      | None => false
      | Some rest => gif_blocks canvasWidth canvasHeight maxPixels (S (length rest)) 0 rest
      end
  end.

(** ** WebP *)

Record WebPState := {
  wp_imageChunks : Z;
  wp_canvasWidth : Z;
  wp_canvasHeight : Z;
  wp_imageWidth : Z;
  wp_imageHeight : Z
}.

Definition webp_start : WebPState :=
  {| wp_imageChunks := 0; wp_canvasWidth := 0; wp_canvasHeight := 0; wp_imageWidth := 0; wp_imageHeight := 0 |}.

Definition with_canvas (d : Z * Z) (s : WebPState) : WebPState :=
  {| wp_imageChunks := wp_imageChunks s; wp_canvasWidth := d.1; wp_canvasHeight := d.2;
     wp_imageWidth := wp_imageWidth s; wp_imageHeight := wp_imageHeight s |}.
Definition with_image (d : Z * Z) (s : WebPState) : WebPState :=
  {| wp_imageChunks := wp_imageChunks s; wp_canvasWidth := wp_canvasWidth s; wp_canvasHeight := wp_canvasHeight s;
     wp_imageWidth := d.1; wp_imageHeight := d.2 |}.
Definition count_image (s : WebPState) : WebPState :=
  {| wp_imageChunks := wp_imageChunks s + 1; wp_canvasWidth := wp_canvasWidth s;
     wp_canvasHeight := wp_canvasHeight s; wp_imageWidth := wp_imageWidth s; wp_imageHeight := wp_imageHeight s |}.

(** The size in the flags of a VP8X chunk, and in the prefix of an image chunk. *)
Definition canvas_size (flags : bytes) : Z * Z :=
  (1 + byte_at flags 4 + Z.shiftl (byte_at flags 5) 8 + Z.shiftl (byte_at flags 6) 16,
   1 + byte_at flags 7 + Z.shiftl (byte_at flags 8) 8 + Z.shiftl (byte_at flags 9) 16).

Definition lossless_size (prefix : bytes) : Z * Z :=
  let bits := Z.lor (byte_at prefix 1) (Z.lor (Z.shiftl (byte_at prefix 2) 8)
    (Z.lor (Z.shiftl (byte_at prefix 3) 16) (Z.shiftl (byte_at prefix 4) 24))) in
  (Z.land bits 0x3fff + 1, Z.land (Z.shiftr bits 14) 0x3fff + 1).

Definition lossy_size (prefix : bytes) : Z * Z :=
  (Z.lor (byte_at prefix 6) (Z.shiftl (Z.land (byte_at prefix 7) 0x3f) 8),
   Z.lor (byte_at prefix 8) (Z.shiftl (Z.land (byte_at prefix 9) 0x3f) 8)).

Definition start_code : bytes := byte_of_Z <$> [0x9d; 0x01; 0x2a].

(** Reads the payload of a chunk, whose padded size is known to be there. *)
Definition webp_payload (maxPixels : Z) (chunkType : string) (chunkSize : Z) (s : WebPState) (input : bytes)
    : option (WebPState * bytes) :=
  if chunkType =s "VP8X" then
    if negb (chunkSize =? 10) then None
    else
      '(flags, rest) ← ReadFull 10 input;
      if Z.testbit (byte_at flags 0) 1 then None
      else
        let d := canvas_size flags in
        if validImageDimensions d.1 d.2 maxPixels then Some (with_canvas d s, rest) else None
  else if chunkType =s "VP8L" then
    '(prefix, rest) ← ReadFull (Z.min chunkSize 5) input;
    if (blen prefix <? 5) || negb (byte_at prefix 0 =? 0x2f) then None
    else
      let d := lossless_size prefix in
      if negb (validImageDimensions d.1 d.2 maxPixels) then None
      else rest ← discardExact (chunkSize - blen prefix) rest; Some (with_image d s, rest)
  else if chunkType =s "VP8 " then
    '(prefix, rest) ← ReadFull (Z.min chunkSize 10) input;
    if (blen prefix <? 10) || negb (bool_decide (take 3 (drop 3 prefix) = start_code)) then None
    else
      let d := lossy_size prefix in
      if negb (validImageDimensions d.1 d.2 maxPixels) then None
      else rest ← discardExact (chunkSize - blen prefix) rest; Some (with_image d s, rest)
  else rest ← discardExact chunkSize input; Some (s, rest).

(** The zero byte after a chunk of odd size. *)
Definition webp_padding (chunkSize : Z) (input : bytes) : option bytes :=
  if chunkSize mod 2 =? 0 then Some input
  else '(padding, rest) ← ReadFull 1 input; if byte_at padding 0 =? 0 then Some rest else None.

Definition webp_chunk (maxPixels remaining : Z) (s : WebPState) (input : bytes) : option (WebPState * bytes * Z) :=
  if remaining <? 8 then None
  else
    '(chunkHeader, rest) ← ReadFull 8 input;
    let remaining := remaining - 8 in
    let chunkSize := le_at 4 4 chunkHeader in
    let padded := chunkSize + chunkSize mod 2 in
    if (chunkSize <? 0) || (padded >? remaining) then None
    else
      let chunkType := string_of (take 4 chunkHeader) in
      if (chunkType =s "ANIM") || (chunkType =s "ANMF") then None
      else
        let image := (chunkType =s "VP8 ") || (chunkType =s "VP8L") in
        let s := if image then count_image s else s in
        if image && (wp_imageChunks s >? 1) then None
        else
          '(s, rest) ← webp_payload maxPixels chunkType chunkSize s rest;
          rest ← webp_padding chunkSize rest;
          Some (s, rest, remaining - padded).

Fixpoint webp_chunks (maxPixels : Z) (fuel : nat) (remaining : Z) (s : WebPState) (input : bytes) : option WebPState :=
  if remaining <=? 0 then Some s
  else match fuel with
  | O => None
  | S fuel =>
    match webp_chunk maxPixels remaining s input with
    | None => None
    | Some (s, rest, remaining) => webp_chunks maxPixels fuel remaining s rest
    end
  end.

Definition webp_complete (s : WebPState) : bool :=
  if negb (wp_imageChunks s =? 1) then false
  else negb (negb (wp_canvasWidth s =? 0) &&
             (negb (wp_canvasWidth s =? wp_imageWidth s) || negb (wp_canvasHeight s =? wp_imageHeight s))).

Definition validateStaticWebP (maxPixels : Z) (input : bytes) : bool :=
  let total := blen input in
  if total <? 20 then false
  else match ReadFull 12 input with
  | None => false
  | Some (header, rest) =>
    if negb (has_at 0 "RIFF" header) || negb (has_at 8 "WEBP" header) || negb (le_at 4 4 header + 8 =? total)
    then false
    else match webp_chunks maxPixels (length rest) (total - 12) webp_start rest with
    | None => false
    | Some s => webp_complete s
    end
  end.

(** [webPDimensions] of the first 32 bytes of a file. *)
Definition webPDimensions (header : bytes) : result (Z * Z) :=
  if blen header <? 30 then Err [ErrUnsupportedImage]
  else
    let chunkType := string_of (take 4 (drop 12 header)) in
    if chunkType =s "VP8X" then Ok (canvas_size (drop 20 header))
    else if chunkType =s "VP8L" then
      if negb (byte_at header 20 =? 0x2f) then Err [ErrUnsupportedImage] else Ok (lossless_size (drop 20 header))
    else if chunkType =s "VP8 " then
      if negb (bool_decide (take 3 (drop 23 header) = start_code)) then Err [ErrUnsupportedImage]
      else Ok (lossy_size (drop 20 header))
    else Err [ErrUnsupportedImage].

(** ** Inspection *)

Definition validateStaticRasterStructure (mimeType : string) (maxPixels : Z) (input : bytes) : bool :=
  if mimeType =s "image/gif" then validateStaticGIF maxPixels input
  else if mimeType =s "image/webp" then validateStaticWebP maxPixels input
  else true.

(** [DecodeConfig] is [image.DecodeConfig] with the decoders the package
    registers: the width and height of a file, or an error. *)
Definition inspectImage (DecodeConfig : bytes -> result (Z * Z)) (maxPixels : Z) (input : bytes)
    : result (string * Z * Z) :=
  let header := take 32 input in
  let actualMIME := sniffRasterMIME header in
  if is_nil header || (actualMIME =s "") then Err [ErrUnsupportedImage]
  else if negb (validateStaticRasterStructure actualMIME maxPixels input) then Err [ErrUnsupportedImage]
  else match (if actualMIME =s "image/webp" then webPDimensions header else DecodeConfig input) with
  | Err _ => Err [ErrUnsupportedImage]
  | Ok (width, height) =>
    if (width <=? 0) || (height <=? 0) then Err [ErrUnsupportedImage]
    else if width >? Z.quot maxPixels height then Err [ErrPixelLimit]
    else Ok (actualMIME, width, height)
  end.

(** ** Reading back what was written *)

Lemma ReadFull_app n a rest : blen a = n -> ReadFull n (a ++ rest) = Some (a, rest).
Proof.
  unfold ReadFull, blen. intros <-. rewrite length_app.
  destruct (Z.ltb_spec (Z.of_nat (length a + length rest)) (Z.of_nat (length a))); [lia|].
  by rewrite Nat2Z.id, take_app_length, drop_app_length.
Qed.

Lemma ReadFull_Some n input a rest :
  0 <= n -> ReadFull n input = Some (a, rest) -> input = a ++ rest /\ blen a = n.
Proof.
  unfold ReadFull, blen. intros Hn. destruct (Z.ltb_spec (Z.of_nat (length input)) n); [done|].
  intros [= <- <-]. rewrite take_drop, length_take. split; [done|lia].
Qed.

Lemma discardExact_Some n input rest :
  0 <= n -> discardExact n input = Some rest <-> exists a, input = a ++ rest /\ blen a = n.
Proof.
  intros Hn. unfold discardExact. split.
  - destruct (ReadFull n input) as [[a r]|] eqn:E; [|done]. intros [= <-].
    apply ReadFull_Some in E; [|done]. by exists a.
  - intros (a & -> & Ha). by rewrite (ReadFull_app n a).
Qed.

Lemma ReadFull_1 input marker rest :
  ReadFull 1 input = Some (marker, rest) <-> exists b, marker = [b] /\ input = b :: rest.
Proof.
  split.
  - intros [-> H]%ReadFull_Some; [|lia]. destruct marker as [|b [|]]; unfold blen in H; cbn in H; try lia. by exists b.
  - intros (b & -> & ->). by apply (ReadFull_app 1 [b]).
Qed.

Lemma byte_at_zero (b : ascii) : (byte_at [b] 0 =? 0) = bool_decide (b = byte_of_Z 0).
Proof.
  change (byte_at [b] 0) with (byte_val b). apply eq_iff_eq_true. rewrite Z.eqb_eq, bool_decide_eq_true.
  split; [intros H; by apply byte_val_inj | by intros ->].
Qed.

Lemma byte_of_val b : byte_of_Z (byte_val b) = b.
Proof. apply byte_val_inj. rewrite byte_val_of_Z. pose proof (byte_val_range b). by rewrite Z.mod_small. Qed.

Lemma byte_at_range b i : 0 <= byte_at b i < 256.
Proof. apply byte_val_range. Qed.

Lemma color_table_nonneg packed : 0 <= color_table packed.
Proof.
  unfold color_table. destruct (Z.testbit packed 7); [|lia].
  apply Z.mul_nonneg_nonneg; [lia|]. apply Z.shiftl_nonneg. lia.
Qed.

(** ** The GIF grammar *)

Definition sub_blocks (blocks : list bytes) : bytes :=
  concat ((fun b => byte_of_Z (blen b) :: b) <$> blocks) ++ [byte_of_Z 0].

Definition sub_block_ok (b : bytes) : Prop := 1 <= blen b <= 255.

(** An image descriptor, its local color table, the code size and the data. *)
Definition gif_frame (canvasWidth canvasHeight maxPixels : Z) (frame : bytes) : Prop :=
  exists descriptor table codeSize data,
    frame = descriptor ++ table ++ codeSize :: sub_blocks data /\
    blen descriptor = 9 /\ frame_fits canvasWidth canvasHeight maxPixels descriptor = true /\
    blen table = color_table (byte_at descriptor 8) /\
    2 <= byte_val codeSize <= 8 /\ Forall sub_block_ok data.

(** The blocks after the header: extensions around a single frame, and the trailer. *)
Inductive gif_stream (canvasWidth canvasHeight maxPixels : Z) : Z -> bytes -> Prop :=
| gif_trailer : gif_stream canvasWidth canvasHeight maxPixels 1 [byte_of_Z 0x3b]
| gif_extension images label data rest :
    Forall sub_block_ok data -> gif_stream canvasWidth canvasHeight maxPixels images rest ->
    gif_stream canvasWidth canvasHeight maxPixels images (byte_of_Z 0x21 :: label :: sub_blocks data ++ rest)
| gif_single frame rest :
    gif_frame canvasWidth canvasHeight maxPixels frame ->
    gif_stream canvasWidth canvasHeight maxPixels 1 rest ->
    gif_stream canvasWidth canvasHeight maxPixels 0 (byte_of_Z 0x2c :: frame ++ rest).

Definition static_gif (maxPixels : Z) (input : bytes) : Prop :=
  exists header table stream,
    let canvasWidth := le_at 2 6 header in
    let canvasHeight := le_at 2 8 header in
    input = header ++ table ++ stream /\ blen header = 13 /\
    (has_at 0 "GIF87a" header = true \/ has_at 0 "GIF89a" header = true) /\
    1 <= canvasWidth /\ 1 <= canvasHeight /\ canvasWidth <= Z.quot maxPixels canvasHeight /\
    blen table = color_table (byte_at header 10) /\
    gif_stream canvasWidth canvasHeight maxPixels 0 stream.

Lemma discardGIFSubBlocks_spec fuel input rest :
  (length input < fuel)%nat ->
  discardGIFSubBlocks fuel input = Some rest <->
  exists data, Forall sub_block_ok data /\ input = sub_blocks data ++ rest.
Proof.
  revert input. induction fuel as [|fuel IH]; intros input Hf; [lia|]. cbn [discardGIFSubBlocks]. split.
  - destruct (ReadFull 1 input) as [[size tail]|] eqn:E; [|done].
    apply ReadFull_1 in E as (b & -> & ->). cbn [mbind option_bind]. rewrite byte_at_zero.
    case_bool_decide as Hb; [intros [= <-]; subst b; by exists []|].
    change (byte_at [b] 0) with (byte_val b).
    destruct (discardExact (byte_val b) tail) as [tail'|] eqn:D; [|done]. cbn [mbind option_bind].
    apply discardExact_Some in D as (blk & -> & Hblk); [|apply byte_val_range].
    cbn in Hf. rewrite length_app in Hf. intros (data & Hd & ->)%IH; [|lia].
    exists (blk :: data). split.
    + constructor; [|done]. unfold sub_block_ok. rewrite Hblk. pose proof (byte_val_range b).
      assert (byte_val b <> 0) by (intros H0; apply Hb; rewrite <- (byte_of_val b), H0; done). lia.
    + unfold sub_blocks. cbn. by rewrite Hblk, byte_of_val, <- !app_assoc.
  - intros (data & Hd & ->). destruct Hd as [|b data Hb Hd].
    { cbn. rewrite (proj2 (ReadFull_1 _ [byte_of_Z 0] rest)); [done | by eexists]. }
    unfold sub_blocks in *. cbn. rewrite (proj2 (ReadFull_1 _ [byte_of_Z (blen b)] _)) by (by eexists).
    cbn [mbind option_bind]. unfold sub_block_ok in Hb.
    assert (Hv : byte_val (byte_of_Z (blen b)) = blen b).
    { rewrite byte_val_of_Z. apply Z.mod_small. lia. }
    rewrite byte_at_zero. case_bool_decide as H0.
    { exfalso. apply (f_equal byte_val) in H0. rewrite Hv in H0. change (byte_val (byte_of_Z 0)) with 0 in H0. lia. }
    change (byte_at [byte_of_Z (blen b)] 0) with (byte_val (byte_of_Z (blen b))). rewrite Hv.
    rewrite <- !app_assoc.
    rewrite (proj2 (discardExact_Some (blen b) _ _ ltac:(lia))) by (eexists; split; [reflexivity|done]).
    cbn [mbind option_bind]. apply IH; [|exists data; by rewrite <- app_assoc].
    cbn in Hf. rewrite !length_app in Hf. cbn in Hf. rewrite !length_app. cbn. lia.
Qed.

Lemma gif_image_spec cw ch max input rest :
  gif_image cw ch max input = Some rest <-> exists frame, gif_frame cw ch max frame /\ input = frame ++ rest.
Proof.
  unfold gif_image. split.
  - destruct (ReadFull 9 input) as [[descriptor r1]|] eqn:E; [|done]. cbn [mbind option_bind].
    apply ReadFull_Some in E as [-> Hd]; [|lia]. destruct (frame_fits cw ch max descriptor) eqn:Ef; cbn [negb]; [|done].
    destruct (discardExact _ r1) as [r2|] eqn:E; cbn [mbind option_bind]; [|done].
    apply discardExact_Some in E as (table & -> & Ht); [|apply color_table_nonneg].
    destruct (ReadFull 1 r2) as [[code r3]|] eqn:E; cbn [mbind option_bind]; [|done].
    apply ReadFull_1 in E as (c & -> & ->). change (byte_at [c] 0) with (byte_val c).
    case_if_goal Ec; [done|]. intros (data & Hdata & ->)%discardGIFSubBlocks_spec; [|lia]. reflect_bools.
    exists (descriptor ++ table ++ c :: sub_blocks data). split; [|by rewrite <- !app_assoc].
    exists descriptor, table, c, data. repeat split; try done; lia.
  - intros (frame & (descriptor & table & c & data & -> & Hd & Hf & Ht & Hc & Hdata) & ->).
    rewrite <- !app_assoc, (ReadFull_app 9 descriptor) by done. cbn [mbind option_bind].
    rewrite Hf. cbn [negb]. rewrite (proj2 (discardExact_Some _ _ ((c :: sub_blocks data) ++ rest) (color_table_nonneg _)))
      by (by exists table).
    cbn [mbind option_bind app]. rewrite (proj2 (ReadFull_1 _ [c] (sub_blocks data ++ rest))) by (by eexists).
    cbn [mbind option_bind]. change (byte_at [c] 0) with (byte_val c).
    destruct (Z.ltb_spec (byte_val c) 2); [lia|]. destruct (byte_val c >? 8) eqn:E; reflect_bools; [lia|]. cbn [orb].
    apply discardGIFSubBlocks_spec; [lia | by exists data].
Qed.

Lemma byte_is b v : 0 <= v < 256 -> (byte_at [b] 0 =? v) = true <-> b = byte_of_Z v.
Proof.
  intros Hv. change (byte_at [b] 0) with (byte_val b). rewrite Z.eqb_eq. split.
  - intros <-. by rewrite byte_of_val.
  - intros ->. by rewrite byte_val_of_Z, Z.mod_small.
Qed.

Lemma gif_blocks_sound cw ch max fuel images input :
  0 <= images -> gif_blocks cw ch max fuel images input = true -> gif_stream cw ch max images input.
Proof.
  revert images input. induction fuel as [|fuel IH]; intros images input Hi; [done|]. cbn [gif_blocks].
  destruct (ReadFull 1 input) as [[marker rest]|] eqn:E; [|done]. apply ReadFull_1 in E as (b & -> & ->).
  case_if_goal E3b.
  { apply byte_is in E3b as ->; [|lia]. intros [->%is_nil_true ->%Z.eqb_eq]%andb_true_iff. constructor. }
  case_if_goal E21.
  { apply byte_is in E21 as ->; [|lia]. destruct (discardExact 1 rest) as [r1|] eqn:E1; [cbn [mbind option_bind]|done].
    destruct (discardGIFSubBlocks _ r1) as [r2|] eqn:E2; [|done]. intros H%IH; [|done].
    apply discardExact_Some in E1 as (l & -> & Hl); [|lia]. destruct l as [|l [|]]; unfold blen in Hl; cbn in Hl; try lia.
    apply discardGIFSubBlocks_spec in E2 as (data & Hd & ->); [|lia]. by constructor. }
  case_if_goal E2c; [|done]. apply byte_is in E2c as ->; [|lia]. case_if_goal Eone; [done|]. reflect_bools.
  replace images with 0 by lia. destruct (gif_image cw ch max rest) as [r1|] eqn:E1; [|done].
  intros H%IH; [|lia]. apply gif_image_spec in E1 as (frame & Hf & ->). by constructor.
Qed.

Lemma gif_blocks_complete cw ch max fuel images input :
  gif_stream cw ch max images input -> (length input < fuel)%nat -> gif_blocks cw ch max fuel images input = true.
Proof.
  intros Hs. revert fuel. induction Hs as [|images label data rest Hd Hs IH|frame rest Hf Hs IH]; intros fuel Hl;
    (destruct fuel as [|fuel]; [lia|]); cbn [gif_blocks].
  - done.
  - rewrite (proj2 (ReadFull_1 _ [byte_of_Z 0x21] _)) by (by eexists). cbn in Hl. rewrite length_app in Hl.
    change (byte_at [byte_of_Z 33] 0 =? 59) with false. change (byte_at [byte_of_Z 33] 0 =? 33) with true. cbv iota.
    rewrite (proj2 (discardExact_Some 1 _ (sub_blocks data ++ rest) ltac:(lia))) by (by exists [label]).
    cbn [mbind option_bind]. rewrite (proj2 (discardGIFSubBlocks_spec _ _ rest (Nat.lt_succ_diag_r _))) by (by exists data).
    apply IH. lia.
  - rewrite (proj2 (ReadFull_1 _ [byte_of_Z 0x2c] _)) by (by eexists). cbn in Hl. rewrite length_app in Hl.
    change (byte_at [byte_of_Z 44] 0 =? 59) with false. change (byte_at [byte_of_Z 44] 0 =? 33) with false.
    change (byte_at [byte_of_Z 44] 0 =? 44) with true. cbv iota. change (0 + 1 >? 1) with false. cbv iota.
    rewrite (proj2 (gif_image_spec _ _ _ _ rest)) by (by exists frame). apply IH. lia.
Qed.

Lemma validateStaticGIF_spec max input : validateStaticGIF max input = true <-> static_gif max input.
Proof.
  unfold validateStaticGIF. split.
  - destruct (ReadFull 13 input) as [[header rest]|] eqn:E; [|done]. apply ReadFull_Some in E as [-> Hh]; [|lia].
    case_if_goal Es; [done|]. cbv zeta. case_if_goal Ec; [done|]. reflect_bools.
    destruct (discardExact _ rest) as [r1|] eqn:E1; [|done].
    apply discardExact_Some in E1 as (table & -> & Ht); [|apply color_table_nonneg].
    intros Hs%gif_blocks_sound; [|lia]. exists header, table, r1. cbv zeta.
    apply andb_false_iff in Es. rewrite !negb_false_iff in Es. repeat split; try done; lia.
  - intros (header & table & stream & -> & Hh & Hsig & Hw & Hhh & Hpx & Ht & Hs).
    rewrite (ReadFull_app 13 header) by done.
    assert (negb (has_at 0 "GIF87a" header) && negb (has_at 0 "GIF89a" header) = false) as ->
      by (destruct Hsig as [-> | ->]; [done | apply andb_false_r]).
    cbv zeta. destruct (Z.ltb_spec (le_at 2 6 header) 1); [lia|]. destruct (Z.ltb_spec (le_at 2 8 header) 1); [lia|].
    destruct (le_at 2 6 header >? _) eqn:E; reflect_bools; [lia|]. cbn [orb].
    rewrite (proj2 (discardExact_Some _ _ stream (color_table_nonneg _))) by (by exists table).
    apply gif_blocks_complete; [done|lia].
Qed.

(** ** The WebP grammar *)

Fixpoint le_encode (k : nat) (v : Z) : bytes :=
  match k with
  | O => []
  | S k => byte_of_Z v :: le_encode k (v / 256)
  end.

Record chunk := { ck_type : string; ck_data : bytes }.

Definition encode_chunk (c : chunk) : bytes :=
  bytes_of (ck_type c) ++ le_encode 4 (blen (ck_data c)) ++ ck_data c ++
  (if blen (ck_data c) mod 2 =? 0 then [] else [byte_of_Z 0]).

Definition is_canvas (c : chunk) : bool := ck_type c =s "VP8X".
Definition is_image (c : chunk) : bool := (ck_type c =s "VP8 ") || (ck_type c =s "VP8L").

(** The size an image chunk announces, when its prefix is one of its format. *)
Definition image_size (c : chunk) : option (Z * Z) :=
  let data := ck_data c in
  if ck_type c =s "VP8L" then
    if (5 <=? blen data) && (byte_at data 0 =? 0x2f) then Some (lossless_size data) else None
  else if (10 <=? blen data) && bool_decide (take 3 (drop 3 data) = start_code) then Some (lossy_size data)
  else None.

Definition within (maxPixels : Z) (d : Z * Z) : Prop := validImageDimensions d.1 d.2 maxPixels = true.

(** A canvas is not animated and, like an image, within the limit. *)
Definition payload_ok (maxPixels : Z) (c : chunk) : Prop :=
  (is_canvas c = true ->
    blen (ck_data c) = 10 /\ Z.testbit (byte_at (ck_data c) 0) 1 = false /\
    within maxPixels (canvas_size (ck_data c))) /\
  (is_image c = true -> exists d, image_size c = Some d /\ within maxPixels d).

Definition chunk_ok (maxPixels : Z) (c : chunk) : Prop :=
  len (ck_type c) = 4 /\ blen (ck_data c) < 2 ^ 32 /\ ck_type c <> "ANIM" /\ ck_type c <> "ANMF" /\
  payload_ok maxPixels c.

(** A RIFF container with one image, whose size the last announced canvas has. *)
Definition static_webp (maxPixels : Z) (input : bytes) (chunks : list chunk) (image : chunk) : Prop :=
  let body := concat (encode_chunk <$> chunks) in
  input = bytes_of "RIFF" ++ le_encode 4 (blen body + 4) ++ bytes_of "WEBP" ++ body /\
  20 <= blen input < 2 ^ 32 + 8 /\ Forall (chunk_ok maxPixels) chunks /\
  List.filter is_image chunks = [image] /\
  (forall canvas, last (List.filter is_canvas chunks) = Some canvas ->
     image_size image = Some (canvas_size (ck_data canvas))).

(** What the loop remembers of a chunk. *)
Definition note (s : WebPState) (c : chunk) : WebPState :=
  if is_canvas c then with_canvas (canvas_size (ck_data c)) s
  else if is_image c then with_image (default (0, 0) (image_size c)) s else s.

Definition see (s : WebPState) (c : chunk) : WebPState := note (if is_image c then count_image s else s) c.

Lemma length_le_encode k v : length (le_encode k v) = k.
Proof. revert v. induction k; intros v; simpl; congruence. Qed.

Lemma le_decode_range b : 0 <= le_decode b < 256 ^ blen b.
Proof.
  induction b as [|c b IH]; [done|]. cbn [le_decode]. unfold blen in *. cbn [length].
  rewrite Nat2Z.inj_succ, Z.pow_succ_r by lia. pose proof (byte_val_range c). lia.
Qed.

Lemma le_encode_decode b : le_encode (length b) (le_decode b) = b.
Proof.
  induction b as [|c b IH]; [done|]. cbn [length le_encode le_decode].
  pose proof (byte_val_range c). rewrite (Z.mul_comm 256), Z.div_add by lia.
  rewrite Z.div_small, Z.add_0_l, IH by lia. f_equal.
  apply byte_val_inj. by rewrite byte_val_of_Z, Z.mod_add, Z.mod_small by lia.
Qed.

Lemma le_decode_encode k v : 0 <= v < 256 ^ Z.of_nat k -> le_decode (le_encode k v) = v.
Proof.
  revert v. induction k as [|k IH]; intros v Hv; [cbn in *; lia|]. cbn [le_encode le_decode].
  rewrite Nat2Z.inj_succ, Z.pow_succ_r in Hv by lia. rewrite byte_val_of_Z, IH.
  - pose proof (Z.div_mod v 256 ltac:(lia)). lia.
  - split; [apply Z.div_pos; lia | apply Z.div_lt_upper_bound; lia].
Qed.

Lemma byte_at_take n b i : (i < n)%nat -> byte_at (take n b) i = byte_at b i.
Proof. intros H. unfold byte_at. by rewrite lookup_take_lt. Qed.

Lemma byte_at_app a b i : (i < length a)%nat -> byte_at (a ++ b) i = byte_at a i.
Proof. intros H. unfold byte_at. by rewrite lookup_app_l. Qed.

(** The payload of a chunk is its data. *)
Lemma lossless_prefix data : lossless_size (take 5 data) = lossless_size data.
Proof. unfold lossless_size. by rewrite !byte_at_take by lia. Qed.

Lemma lossy_prefix data : lossy_size (take 10 data) = lossy_size data.
Proof. unfold lossy_size. by rewrite !byte_at_take by lia. Qed.

Lemma start_prefix (data : bytes) : take 3 (drop 3 (take 10 data)) = take 3 (drop 3 data).
Proof. rewrite !take_drop_commute. by rewrite take_take. Qed.

Lemma read_prefix size n data rest :
  blen data = size -> ReadFull (Z.min size (Z.of_nat n)) (data ++ rest) = Some (take n data, drop n data ++ rest).
Proof.
  intros <-. rewrite <- (take_drop n data) at 2. rewrite <- app_assoc. apply ReadFull_app.
  unfold blen. rewrite length_take. lia.
Qed.

Lemma discard_rest size n data rest :
  blen data = size -> discardExact (size - blen (take n data)) (drop n data ++ rest) = Some rest.
Proof.
  intros <-. apply discardExact_Some; unfold blen; rewrite length_take; [lia|].
  exists (drop n data). rewrite length_drop. split; [done|lia].
Qed.

Lemma short_prefix n m (data : bytes) : m = Z.of_nat n -> (blen (take n data) <? m) = negb (m <=? blen data).
Proof.
  intros ->. unfold blen. rewrite length_take. destruct (Z.leb_spec (Z.of_nat n) (Z.of_nat (length data)));
    [apply Z.ltb_ge | apply Z.ltb_lt]; lia.
Qed.

(** On the data of a chunk the payload is read exactly when it is well formed. *)
Lemma webp_payload_data max c s rest :
  webp_payload max (ck_type c) (blen (ck_data c)) s (ck_data c ++ rest) =
    Some (note s c, rest) /\ payload_ok max c \/
  webp_payload max (ck_type c) (blen (ck_data c)) s (ck_data c ++ rest) = None /\ ~ payload_ok max c.
Proof.
  unfold webp_payload, payload_ok, note, is_canvas, is_image, image_size. destruct c as [type data]; cbn [ck_type ck_data].
  destruct (String.eqb_spec type "VP8X") as [->|Hx].
  { cbn [orb String.eqb Ascii.eqb eqb]. destruct (Z.eqb_spec (blen data) 10) as [H10|H10]; cbn [negb];
      [|right; split; [done|]; intros [H _]; by destruct (H eq_refl)].
    rewrite (ReadFull_app 10 data) by done. cbn [mbind option_bind].
    destruct (Z.testbit (byte_at data 0) 1) eqn:Et; [right; split; [done|]; intros [H _]; by destruct (H eq_refl) as (_ & ? & _)|].
    unfold within. destruct (validImageDimensions _ _ max) eqn:Ev; [left | right]; (split; [done|]).
    - split; [by intros _ | discriminate].
    - intros [H _]. destruct (H eq_refl) as (_ & _ & ?). congruence. }
  destruct (String.eqb_spec type "VP8L") as [->|Hl].
  { rewrite orb_true_r, (read_prefix _ 5) by done. cbn [mbind option_bind].
    rewrite lossless_prefix, byte_at_take by lia.
    rewrite (short_prefix 5 5 data) by done.
    destruct ((5 <=? blen data) && (byte_at data 0 =? 47)) eqn:E.
    - apply andb_true_iff in E as [-> ->]. cbn [negb orb]. unfold within.
      destruct (validImageDimensions _ _ max) eqn:Ev; cbn [negb].
      + left. rewrite discard_rest by done. split; [done|]. split; [done|]. intros _. eauto.
      + right. split; [done|]. intros [_ H]. destruct (H eq_refl) as (d & [= <-] & ?). congruence.
    - rewrite <- negb_andb, E. right. split; [done|]. intros [_ H]. by destruct (H eq_refl) as (d & ? & _). }
  destruct (String.eqb_spec type "VP8 ") as [->|Hy].
  { cbn [orb]. rewrite (read_prefix _ 10) by done. cbn [mbind option_bind].
    rewrite lossy_prefix, start_prefix.
    rewrite (short_prefix 10 10 data) by done.
    destruct ((10 <=? blen data) && bool_decide (take 3 (drop 3 data) = start_code)) eqn:E.
    - apply andb_true_iff in E as [-> ->]. cbn [negb orb]. unfold within.
      destruct (validImageDimensions _ _ max) eqn:Ev; cbn [negb].
      + left. rewrite discard_rest by done. split; [done|]. split; [done|]. intros _. eauto.
      + right. split; [done|]. intros [_ H]. destruct (H eq_refl) as (d & [= <-] & ?). congruence.
    - rewrite <- negb_andb, E. right. split; [done|]. intros [_ H]. by destruct (H eq_refl) as (d & ? & _). }
  left. cbn [orb]. rewrite (proj2 (discardExact_Some (blen data) _ rest ltac:(unfold blen; lia))) by (by exists data).
  done.
Qed.

Lemma webp_padding_spec (data input rest : bytes) :
  webp_padding (blen data) input = Some rest <->
  input = (if blen data mod 2 =? 0 then [] else [byte_of_Z 0]) ++ rest.
Proof.
  unfold webp_padding. destruct (blen data mod 2 =? 0); cbn [app]; [split; congruence|]. split.
  - destruct (ReadFull 1 input) as [[padding r]|] eqn:E; cbn [mbind option_bind]; [|done].
    apply ReadFull_1 in E as (b & -> & ->). rewrite byte_at_zero. case_bool_decide; [|done]. congruence.
  - intros ->. by rewrite (proj2 (ReadFull_1 _ [byte_of_Z 0] rest)) by (by eexists).
Qed.

Lemma blen_app {A} (a b : list A) : blen (a ++ b) = blen a + blen b.
Proof. unfold blen. rewrite length_app. lia. Qed.

Lemma chunk_padded (data : bytes) :
  blen (if blen data mod 2 =? 0 then [] else [byte_of_Z 0]) = blen data mod 2.
Proof.
  pose proof (Z.mod_pos_bound (blen data) 2 ltac:(lia)). destruct (Z.eqb_spec (blen data mod 2) 0) as [->|]; [done|].
  unfold blen at 1. cbn [length]. lia.
Qed.

Lemma webp_chunk_encoded max s c rest :
  chunk_ok max c -> (is_image c = true -> wp_imageChunks s + 1 <= 1) ->
  webp_chunk max (blen (encode_chunk c ++ rest)) s (encode_chunk c ++ rest) = Some (see s c, rest, blen rest).
Proof.
  intros (Ht & Hd & Ha & Hm & Hp) Hi. unfold webp_chunk, encode_chunk. rewrite len_bytes in Ht.
  rewrite <- !app_assoc, !blen_app, chunk_padded, Ht.
  assert (Hle : blen (le_encode 4 (blen (ck_data c))) = 4) by (unfold blen; by rewrite length_le_encode).
  pose proof (Z.mod_pos_bound (blen (ck_data c)) 2 ltac:(lia)).
  assert (0 <= blen (ck_data c)) by (unfold blen; lia). assert (0 <= blen rest) by (unfold blen; lia).
  destruct (Z.ltb_spec (4 + (blen (le_encode 4 (blen (ck_data c))) + (blen (ck_data c) + (blen (ck_data c) mod 2 + blen rest)))) 8);
    [lia|].
  rewrite (app_assoc (bytes_of (ck_type c))), (ReadFull_app 8) by (rewrite blen_app; lia). cbn [mbind option_bind]. cbv zeta.
  assert (H4 : length (bytes_of (ck_type c)) = 4%nat) by (unfold blen in Ht; lia).
  assert (le_at 4 4 (bytes_of (ck_type c) ++ le_encode 4 (blen (ck_data c))) = blen (ck_data c)) as ->.
  { unfold le_at. rewrite drop_app_length' by done. rewrite take_ge by (by rewrite length_le_encode).
    apply le_decode_encode. change (256 ^ Z.of_nat 4) with (2 ^ 32). lia. }
  assert (take 4 (bytes_of (ck_type c) ++ le_encode 4 (blen (ck_data c))) = bytes_of (ck_type c)) as ->
    by (rewrite take_app_length' by done; done).
  rewrite string_of_bytes_of. destruct (Z.ltb_spec (blen (ck_data c)) 0); [lia|]. cbn [orb].
  match goal with |- context [?a >? ?b] => destruct (a >? b) eqn:Eg end; reflect_bools; [lia|].
  rewrite (proj2 (String.eqb_neq _ _) Ha), (proj2 (String.eqb_neq _ _) Hm). cbn [orb].
  fold (is_image c). assert (is_image c && (wp_imageChunks (if is_image c then count_image s else s) >? 1) = false) as ->.
  { destruct (is_image c); [|done]. cbn. specialize (Hi eq_refl). destruct (_ >? 1) eqn:E; [|done]. reflect_bools. lia. }
  destruct (webp_payload_data max c (if is_image c then count_image s else s)
    ((if blen (ck_data c) mod 2 =? 0 then [] else [byte_of_Z 0]) ++ rest)) as [[-> _]|[_ []]]; [|done].
  cbn [mbind option_bind]. rewrite (proj2 (webp_padding_spec (ck_data c) _ rest) eq_refl). cbn [mbind option_bind].
  unfold see. do 2 f_equal. lia.
Qed.

(** A header of eight bytes is a type and a size. *)
Lemma chunk_header (header : bytes) :
  blen header = 8 ->
  header = bytes_of (string_of (take 4 header)) ++ le_encode 4 (le_at 4 4 header) /\
  len (string_of (take 4 header)) = 4 /\ 0 <= le_at 4 4 header < 2 ^ 32.
Proof.
  unfold blen. intros H. rewrite len_bytes, bytes_of_string_of. unfold le_at.
  assert (Hd : take 4 (drop 4 header) = drop 4 header) by (apply take_ge; rewrite length_drop; lia).
  rewrite Hd. assert (Hl : length (drop 4 header) = 4%nat) by (rewrite length_drop; lia).
  pose proof (le_decode_range (drop 4 header)) as Hr. unfold blen in *. rewrite Hl in Hr.
  rewrite length_take. change (2 ^ 32) with (256 ^ Z.of_nat 4). split; [|split; [lia|done]].
  rewrite <- Hl at 2. by rewrite le_encode_decode, take_drop.
Qed.

Lemma webp_chunk_inv max s input s' rest remaining :
  webp_chunk max (blen input) s input = Some (s', rest, remaining) ->
  exists c, chunk_ok max c /\ input = encode_chunk c ++ rest /\ s' = see s c /\ remaining = blen rest /\
            (is_image c = true -> wp_imageChunks s + 1 <= 1).
Proof.
  unfold webp_chunk. case_if_goal E8; [done|]. destruct (ReadFull 8 input) as [[header r0]|] eqn:E; [|done].
  cbn [mbind option_bind]. cbv zeta. apply ReadFull_Some in E as [-> Hh]; [|lia].
  apply chunk_header in Hh as Hc. destruct Hc as (Hheader & Ht & Hs). set (type := string_of (take 4 header)) in *.
  set (size := le_at 4 4 header) in *. case_if_goal Ep; [done|]. reflect_bools.
  pose proof (Z.mod_pos_bound size 2 ltac:(lia)). rewrite blen_app in *.
  set (data := take (Z.to_nat size) r0). set (r1 := drop (Z.to_nat size) r0).
  assert (Hd : blen data = size) by (subst data; unfold blen in *; rewrite length_take; lia).
  assert (Hr0 : r0 = data ++ r1) by (subst data r1; by rewrite take_drop).
  case_if_goal Ea; [done|]. apply orb_false_iff in Ea as [Ea%String.eqb_neq Em%String.eqb_neq].
  set (c := {| ck_type := type; ck_data := data |}).
  change ((type =s "VP8 ") || (type =s "VP8L")) with (is_image c). case_if_goal Ei; [done|].
  rewrite Hr0, <- Hd. change data with (ck_data c). change type with (ck_type c).
  destruct (webp_payload_data max c (if is_image c then count_image s else s) r1) as [[-> Hp]|[-> _]]; [|done].
  cbn [mbind option_bind]. destruct (webp_padding (blen (ck_data c)) r1) as [r2|] eqn:Ew; [|done].
  cbn [mbind option_bind]. apply webp_padding_spec in Ew as Hr1. intros [= <- <- <-]. exists c.
  split; [|split; [|split; [done|split]]].
  - unfold chunk_ok. cbn [ck_type ck_data c]. rewrite Hd. split_and!; done || lia.
  - rewrite Hheader at 1. unfold encode_chunk. cbn [ck_type ck_data c]. rewrite Hd. rewrite <- !app_assoc.
    do 3 f_equal. rewrite <- Hd. exact Hr1.
  - rewrite Hr1, !blen_app, chunk_padded. cbn [ck_data c]. lia.
  - intros Him. rewrite Him in Ei. cbn in Ei. reflect_bools. lia.
Qed.

Definition images_in (chunks : list chunk) : Z := blen (List.filter is_image chunks).

Lemma see_images s c : wp_imageChunks (see s c) = wp_imageChunks s + (if is_image c then 1 else 0).
Proof. unfold see, note. destruct (is_canvas c), (is_image c); cbn; lia. Qed.

Lemma webp_chunks_complete max fuel s chunks :
  Forall (chunk_ok max) chunks -> wp_imageChunks s + images_in chunks <= 1 ->
  (length (concat (encode_chunk <$> chunks)) <= fuel)%nat ->
  webp_chunks max fuel (blen (concat (encode_chunk <$> chunks))) s (concat (encode_chunk <$> chunks)) =
    Some (fold_left see chunks s).
Proof.
  intros Hok. revert fuel s. induction Hok as [|c chunks Hc Hok IH]; intros fuel s Hi Hf; [by destruct fuel|].
  cbn [fmap list_fmap concat fold_left] in *. unfold images_in in *. cbn [List.filter] in Hi.
  assert (H8 : (8 <= length (encode_chunk c))%nat).
  { unfold encode_chunk. rewrite !length_app, length_le_encode, length_bytes_of. destruct Hc as [Ht _].
    unfold len in Ht. lia. }
  rewrite length_app in Hf. destruct fuel as [|fuel]; [lia|]. cbn [webp_chunks].
  destruct (Z.leb_spec (blen (encode_chunk c ++ concat (encode_chunk <$> chunks))) 0);
    [unfold blen in *; rewrite length_app in *; lia|].
  rewrite webp_chunk_encoded; [|done|].
  - apply IH; [|lia]. rewrite see_images. destruct (is_image c); unfold blen in *; cbn [length] in *; lia.
  - intros Him. rewrite Him in Hi. unfold blen in *. cbn [length] in Hi. lia.
Qed.

Lemma webp_chunks_sound max fuel s input s' :
  webp_chunks max fuel (blen input) s input = Some s' ->
  exists chunks, Forall (chunk_ok max) chunks /\ input = concat (encode_chunk <$> chunks) /\
                 s' = fold_left see chunks s.
Proof.
  revert s input. induction fuel as [|fuel IH]; intros s input; cbn [webp_chunks].
  all: destruct (Z.leb_spec (blen input) 0);
    [intros [= <-]; exists []; split; [done|]; split; [destruct input; [done|unfold blen in *; cbn in *; lia]|done]|].
  { done. }
  destruct (webp_chunk max (blen input) s input) as [[[s1 r] rem]|] eqn:E; [|done].
  apply webp_chunk_inv in E as (c & Hc & -> & -> & -> & _). intros (chunks & Hok & -> & ->)%IH.
  exists (c :: chunks). split; [by constructor | done].
Qed.

(** What the loop remembers of all the chunks. *)
Lemma seen_chunks chunks s :
  let s' := fold_left see chunks s in
  wp_imageChunks s' = wp_imageChunks s + images_in chunks /\
  (wp_canvasWidth s', wp_canvasHeight s') =
    match last (List.filter is_canvas chunks) with
    | Some c => canvas_size (ck_data c)
    | None => (wp_canvasWidth s, wp_canvasHeight s)
    end /\
  (wp_imageWidth s', wp_imageHeight s') =
    match last (List.filter is_image chunks) with
    | Some c => default (0, 0) (image_size c)
    | None => (wp_imageWidth s, wp_imageHeight s)
    end.
Proof.
  induction chunks as [|c chunks IH] using rev_ind; [cbn; split; [change (images_in []) with 0; lia|done]|]. cbv zeta in *.
  rewrite fold_left_app. unfold images_in in *. rewrite !List.filter_app, blen_app. cbn [fold_left List.filter].
  destruct IH as (Hn & Hc & Hi). rewrite see_images, Hn.
  assert (Hx : is_canvas c = true -> is_image c = false).
  { unfold is_canvas, is_image. by intros ->%String.eqb_eq. }
  unfold see, note. destruct (is_canvas c) eqn:Ec; [rewrite Hx by done | destruct (is_image c) eqn:Ei].
  all: cbn; rewrite ?app_nil_r, ?last_snoc; (split; [unfold blen; cbn; lia|]); split; try done.
  all: by rewrite <- surjective_pairing.
Qed.

Lemma has_at_app (a b : bytes) s : has_at 0 s (a ++ b) = true <-> take (String.length s) (a ++ b) = bytes_of s.
Proof. unfold has_at. rewrite drop_0. apply bool_decide_eq_true. Qed.

Lemma riff_header (header : bytes) n :
  blen header = 12 -> has_at 0 "RIFF" header = true -> has_at 8 "WEBP" header = true -> le_at 4 4 header = n ->
  header = bytes_of "RIFF" ++ le_encode 4 n ++ bytes_of "WEBP".
Proof.
  unfold blen, has_at. rewrite !bool_decide_eq_true. intros Hl Hr Hw Hn. rewrite drop_0 in Hr.
  rewrite take_ge in Hw by (rewrite length_drop; cbn; lia).
  rewrite <- (take_drop 4 header). cbn [String.length] in Hr, Hw. rewrite Hr. f_equal.
  rewrite <- (take_drop 4 (drop 4 header)), drop_drop. change (4 + 4)%nat with 8%nat. rewrite Hw. f_equal.
  subst n. unfold le_at. symmetry.
  assert (length (take 4 (drop 4 header)) = 4%nat) as H4 by (rewrite length_take, length_drop; lia).
  rewrite <- H4 at 1. apply le_encode_decode.
Qed.

Lemma one_image chunks : images_in chunks = 1 -> exists image, List.filter is_image chunks = [image].
Proof.
  unfold images_in, blen. destruct (List.filter is_image chunks) as [|image [|]]; cbn; [lia| eauto | lia].
Qed.

Lemma within_positive max d : within max d -> 0 < d.1 /\ 0 < d.2.
Proof. unfold within, validImageDimensions. intros H. reflect_bools. lia. Qed.

Lemma filtered_ok {A} (P : A -> Prop) f l x : Forall P l -> x ∈ List.filter f l -> P x /\ f x = true.
Proof.
  intros Hl [Hx Hf]%elem_of_List_filter. split; [|done]. by apply (proj1 (Forall_forall P l) Hl).
Qed.

Lemma webp_complete_spec max chunks image :
  Forall (chunk_ok max) chunks -> List.filter is_image chunks = [image] ->
  webp_complete (fold_left see chunks webp_start) = true <->
  forall canvas, last (List.filter is_canvas chunks) = Some canvas ->
    image_size image = Some (canvas_size (ck_data canvas)).
Proof.
  intros Hok Hi. destruct (seen_chunks chunks webp_start) as (Hn & Hc & Hm). cbv zeta in *.
  unfold images_in in Hn. rewrite Hi in Hn, Hm. change (wp_imageChunks webp_start + blen [image]) with 1 in Hn. cbn [last] in Hm.
  destruct (filtered_ok _ is_image chunks image Hok) as [(_ & _ & _ & _ & _ & Him) Hti]; [rewrite Hi; set_solver|].
  destruct (Him Hti) as (d & Hd & _). rewrite Hd in Hm |- *. cbn [default] in Hm.
  set (s := fold_left see chunks webp_start) in *. unfold webp_complete. rewrite Hn. cbn [negb Z.eqb Pos.eqb].
  destruct (last (List.filter is_canvas chunks)) as [canvas|] eqn:El.
  - destruct (filtered_ok _ is_canvas chunks canvas Hok) as [(_ & _ & _ & _ & Hcv & _) Htc].
    { apply last_Some_elem_of. done. }
    destruct (Hcv Htc) as (_ & _ & [Hpos _]%within_positive).
    destruct (canvas_size (ck_data canvas)) as [cw ch] eqn:Ecs, d as [w h]. cbn [fst snd] in Hpos.
    injection Hc as -> ->. injection Hm as -> ->. destruct (Z.eqb_spec cw 0); [lia|]. cbn [negb andb].
    rewrite negb_true_iff, orb_false_iff, !negb_false_iff, !Z.eqb_eq. split.
    + intros [-> ->] c' [= <-]. congruence.
    + intros H. specialize (H canvas eq_refl). rewrite Ecs in H. by injection H as -> ->.
  - injection Hc as -> _. cbn. split; [done|congruence].
Qed.

Lemma validateStaticWebP_spec max input :
  validateStaticWebP max input = true <-> exists chunks image, static_webp max input chunks image.
Proof.
  unfold validateStaticWebP. cbv zeta. split.
  - case_if_goal E20; [done|]. destruct (ReadFull 12 input) as [[header body]|] eqn:E; [|done].
    apply ReadFull_Some in E as [-> Hh]; [|lia]. case_if_goal Eh; [done|]. rewrite blen_app in *. reflect_bools.
    replace (blen header + blen body - 12) with (blen body) by lia.
    destruct (webp_chunks _ _ _ _ _) as [s|] eqn:E; [|done].
    apply webp_chunks_sound in E as (chunks & Hok & -> & ->). intros Hc.
    destruct (one_image chunks) as [image Hi].
    { destruct (seen_chunks chunks webp_start) as (Hn & _). cbv zeta in Hn. unfold webp_complete in Hc.
      case_if_in Hc E1; [done|]. reflect_bools. rewrite Hn in E1. cbn in E1. lia. }
    exists chunks, image. unfold static_webp. cbv zeta.
    pose proof (le_decode_range (take 4 (drop 4 header))) as Hr.
    assert (blen (take 4 (drop 4 header)) = 4) as Hl4 by (unfold blen in *; rewrite length_take, length_drop; lia).
    rewrite Hl4 in Hr. fold (le_at 4 4 header) in Hr. change (256 ^ 4) with (2 ^ 32) in Hr.
    split_and!; try done; [|rewrite blen_app; lia..|by apply (webp_complete_spec max)].
    rewrite (riff_header header (blen (concat (encode_chunk <$> chunks)) + 4)) at 1 by (done || lia).
    by rewrite <- !app_assoc.
  - intros (chunks & image & Hin & Hlen & Hok & Hi & Hc). cbv zeta in Hin.
    set (body := concat (encode_chunk <$> chunks)) in *.
    assert (Hh : blen (bytes_of "RIFF" ++ le_encode 4 (blen body + 4) ++ bytes_of "WEBP") = 12)
      by (unfold blen; by rewrite !length_app, length_le_encode).
    rewrite !app_assoc in Hin. rewrite <- (app_assoc (bytes_of "RIFF")) in Hin.
    set (header := bytes_of "RIFF" ++ le_encode 4 (blen body + 4) ++ bytes_of "WEBP") in *.
    destruct (Z.ltb_spec (blen input) 20); [lia|]. rewrite Hin, (ReadFull_app 12) by done.
    rewrite blen_app in *. rewrite Hin, blen_app in Hlen.
    assert (Hle : le_at 4 4 header = blen body + 4).
    { unfold le_at, header. rewrite (drop_app_length' (bytes_of "RIFF") _ 4) by done.
      rewrite take_app_length' by (by rewrite length_le_encode). apply le_decode_encode.
      change (256 ^ Z.of_nat 4) with (2 ^ 32). unfold blen in *. lia. }
    assert (has_at 0 "RIFF" header = true) as -> by done. assert (has_at 8 "WEBP" header = true) as -> by done.
    rewrite Hle, (proj2 (Z.eqb_eq _ _)) by lia. cbn [negb orb].
    replace (blen header + blen body - 12) with (blen body) by lia. subst body.
    rewrite webp_chunks_complete; [by apply (webp_complete_spec max _ image) | done | | done].
    unfold images_in. rewrite Hi. done.
Qed.

Definition DefaultMaxPixels : Z := 40000000.

Definition encode_webp (chunks : list chunk) : bytes :=
  let body := concat (encode_chunk <$> chunks) in
  bytes_of "RIFF" ++ le_encode 4 (blen body + 4) ++ bytes_of "WEBP" ++ body.

Definition canvas_chunk (width height : Z) : chunk :=
  {| ck_type := "VP8X"; ck_data := byte_of_Z <$> [0; 0; 0; 0; width - 1; 0; 0; height - 1; 0; 0] |}.
Definition lossless_chunk (low high : Z) : chunk :=
  {| ck_type := "VP8L"; ck_data := byte_of_Z <$> [0x2f; low; high; 0; 0] |}.
Definition forged_chunks : list chunk := [canvas_chunk 1 1; canvas_chunk 2 2; lossless_chunk 1 64].

(** ** Guarantees *)

(** C38. The structural validators accept exactly the files of the grammar: a GIF
    is a header, a color table, extensions around a single frame that lies on its
    canvas, and a trailer with nothing after it; a WebP file is a RIFF container of
    exactly its length, without animation chunks, with one image within the limit
    whose size the last announced canvas has. In particular the loops finish on
    every file of the grammar, whatever its length. *)
Theorem static_rasters_exact (maxPixels : Z) (input : bytes) :
  (validateStaticRasterStructure "image/gif" maxPixels input = true <-> static_gif maxPixels input) /\
  (validateStaticRasterStructure "image/webp" maxPixels input = true <->
     exists chunks image, static_webp maxPixels input chunks image).
Proof. split; [apply validateStaticGIF_spec | apply validateStaticWebP_spec]. Qed.

Lemma byte_at_drop n b i : byte_at (drop n b) i = byte_at b (n + i).
Proof. unfold byte_at. by rewrite lookup_drop. Qed.

Lemma has_at_take (s : string) n i b : (i + String.length s <= n)%nat -> has_at i s (take n b) = has_at i s b.
Proof.
  intros H. unfold has_at. f_equal. apply bool_decide_ext. by rewrite !take_drop_commute, take_take, Nat.min_l.
Qed.

(** What the first 32 bytes show of the first chunk. *)
Lemma first_chunk max input c chunks image :
  static_webp max input (c :: chunks) image ->
  chunk_ok max c /\ string_of (take 4 (drop 12 (take 32 input))) = ck_type c /\
  (forall i, (i < 12)%nat -> (i < length (ck_data c))%nat ->
     byte_at (drop 20 (take 32 input)) i = byte_at (ck_data c) i).
Proof.
  intros (Hin & _ & Hok & _). cbv zeta in Hin. apply Forall_cons in Hok as [Hc _]. split; [done|].
  destruct Hc as (Ht & _).
  assert (exists header size tail, input = header ++ bytes_of (ck_type c) ++ size ++ ck_data c ++ tail /\
    length header = 12%nat /\ length size = 4%nat) as (header & size & tail & -> & Hh & Hs).
  { cbn [fmap list_fmap concat] in Hin. set (n := le_encode 4 _) in Hin.
    assert (Hn : length n = 4%nat) by apply length_le_encode. unfold encode_chunk in Hin at 1.
    eexists (bytes_of "RIFF" ++ n ++ bytes_of "WEBP"), (le_encode 4 (blen (ck_data c))), _.
    split; [rewrite Hin, <- !app_assoc; reflexivity|]. by rewrite !length_app, length_le_encode, Hn. }
  unfold len in Ht. rewrite <- length_bytes_of in Ht. split.
  - rewrite skipn_firstn_comm, drop_app_length' by done. rewrite take_take. change (4 `min` (32 - 12))%nat with 4%nat.
    rewrite take_app_length' by lia. apply string_of_bytes_of.
  - intros i Hi Hl. rewrite byte_at_drop, byte_at_take by lia. unfold byte_at. do 2 f_equal.
    rewrite !lookup_app_r by lia. rewrite lookup_app_l by lia. f_equal. lia.
Qed.

(** The dimensions read from the header are those of the first chunk. *)
Lemma webPDimensions_first max input c chunks image d :
  static_webp max input (c :: chunks) image -> webPDimensions (take 32 input) = Ok d ->
  is_canvas c = true /\ d = canvas_size (ck_data c) \/ is_image c = true /\ image_size c = Some d.
Proof.
  intros (Hok & Htype & Hbytes)%first_chunk. unfold webPDimensions. case_if_goal E30; [done|].
  rewrite Htype. destruct Hok as (_ & _ & _ & _ & Hcanvas & Himage). unfold is_canvas, is_image in *.
  destruct (ck_type c =s "VP8X") eqn:Ex.
  { intros [= <-]. left. split; [done|]. destruct (Hcanvas eq_refl) as (H10 & _). unfold blen in H10.
    unfold canvas_size. by rewrite !Hbytes by lia. }
  intros H. right. destruct (ck_type c =s "VP8L") eqn:El.
  { rewrite orb_true_r in *. split; [done|]. revert H. destruct (Himage eq_refl) as (d' & Hd' & _). rewrite Hd'.
    unfold image_size in Hd'. rewrite El in Hd'. case_if_in Hd' E5; [|done]. apply andb_true_iff in E5 as [E5%Z.leb_le _].
    unfold blen in E5. case_if_goal E2f; [done|]. intros [= <-]. injection Hd' as <-. f_equal.
    unfold lossless_size. by rewrite !Hbytes by lia. }
  destruct (ck_type c =s "VP8 ") eqn:Ey; [|done].
  destruct (Himage eq_refl) as (d' & Hd' & _). cbn [orb]. split; [done|]. revert H. rewrite Hd'.
  unfold image_size in Hd'. rewrite El in Hd'. case_if_in Hd' E5; [|done]. apply andb_true_iff in E5 as [E5%Z.leb_le _].
  unfold blen in E5. case_if_goal E2f; [done|]. intros [= <-]. injection Hd' as <-. f_equal.
  unfold lossy_size. by rewrite !Hbytes by lia.
Qed.

(** Whatever is accepted is one of the four types, within the limit on pixels. *)
Lemma inspectImage_accepted (DecodeConfig : bytes -> result (Z * Z)) maxPixels input mimeType width height :
  inspectImage DecodeConfig maxPixels input = Ok (mimeType, width, height) ->
  mimeType ∈ ["image/png"; "image/jpeg"; "image/gif"; "image/webp"] /\
  1 <= width /\ 1 <= height /\ width * height <= maxPixels.
Proof.
  unfold inspectImage. cbv zeta. intros H. case_if_in H E; [done|].
  apply orb_false_iff in E as [_ Hsniff%String.eqb_neq]. case_if_in H Es; [done|].
  destruct (if sniffRasterMIME (take 32 input) =s "image/webp" then _ else _) as [[w h]|] eqn:Ed; [|done].
  case_if_in H Ep; [done|]. case_if_in H El; [done|]. injection H as Hm -> ->. rewrite Hm in *.
  apply orb_false_iff in Ep as [?%Z.leb_gt ?%Z.leb_gt]. rewrite Z.gtb_ltb in El. apply Z.ltb_ge in El.
  split_and!; try lia.
  - revert Hsniff. rewrite <- Hm. unfold sniffRasterMIME. repeat case_match; set_solver.
  - pose proof (Z.quot_rem' maxPixels height). pose proof (Z.rem_bound_abs maxPixels height ltac:(lia)).
    assert (height * width <= height * Z.quot maxPixels height) by (apply Z.mul_le_mono_nonneg_l; lia).
    destruct (Z_lt_le_dec maxPixels 0) as [Hneg|Hpos].
    + pose proof (Z.rem_nonpos maxPixels height ltac:(lia) ltac:(lia)). nia.
    + pose proof (Z.rem_nonneg maxPixels height ltac:(lia) ltac:(lia)). lia.
Qed.

(** What an accepted image is recorded as: one of four formats, with
    positive dimensions whose product is within the limit; a GIF or WebP file is
    one of its grammar; and the recorded dimensions of a WebP file are those of
    its image, if the file announces a canvas at most once. *)
Theorem inspected_dimensions (DecodeConfig : bytes -> result (Z * Z)) (maxPixels : Z) (input : bytes)
    (mimeType : string) (width height : Z)
    (Hinspect : inspectImage DecodeConfig maxPixels input = Ok (mimeType, width, height)) :
  mimeType ∈ ["image/png"; "image/jpeg"; "image/gif"; "image/webp"] /\
  1 <= width /\ 1 <= height /\ width * height <= maxPixels /\
  (mimeType = "image/gif" -> static_gif maxPixels input) /\
  (mimeType = "image/webp" ->
     exists chunks image, static_webp maxPixels input chunks image /\
       (blen (List.filter is_canvas chunks) <= 1 -> image_size image = Some (width, height))).
Proof.
  destruct (inspectImage_accepted _ _ _ _ _ _ Hinspect) as (Hmime & Hw1 & Hh1 & Harea). split_and!; try done.
  all: unfold inspectImage in Hinspect; cbv zeta in Hinspect; case_if_in Hinspect E; [done|];
    case_if_in Hinspect Es; [done|]; apply negb_false_iff in Es;
    destruct (if sniffRasterMIME (take 32 input) =s "image/webp" then _ else _) as [[w h]|] eqn:Ed; [|done];
    case_if_in Hinspect Ep; [done|]; case_if_in Hinspect El; [done|]; injection Hinspect as Hm -> ->; rewrite Hm in *.
  - intros ->. by apply validateStaticGIF_spec.
  - intros ->. apply validateStaticWebP_spec in Es as (chunks & image & Hw). exists chunks, image. split; [done|].
    intros Hone. destruct chunks as [|c chunks]; [by destruct Hw as (_ & _ & _ & ? & _)|].
    destruct (webPDimensions_first _ _ _ _ _ _ Hw Ed) as [[Hc ->]|[Hc Hi]]; destruct Hw as (_ & _ & _ & Hf & Hl).
    + cbn [List.filter] in Hl, Hone. rewrite Hc in Hl, Hone. apply Hl.
      destruct (List.filter is_canvas chunks); [done|unfold blen in Hone; cbn in Hone; lia].
    + cbn [List.filter] in Hf. rewrite Hc in Hf. by injection Hf as -> _.
Qed.

Definition small_webp : bytes := encode_webp [canvas_chunk 2 2; lossless_chunk 1 64].

Lemma inspected_dimensions_witness :
  "image/webp" ∈ ["image/png"; "image/jpeg"; "image/gif"; "image/webp"] /\ 2 * 2 <= DefaultMaxPixels /\
  exists chunks image, static_webp DefaultMaxPixels small_webp chunks image.
Proof.
  destruct (inspected_dimensions (fun _ => Err []) DefaultMaxPixels small_webp "image/webp" 2 2
    ltac:(vm_compute; reflexivity)) as (H1 & _ & _ & H2 & _ & H3).
  split; [exact H1|]. split; [exact H2|]. destruct (H3 eq_refl) as (chunks & image & H & _). by exists chunks, image.
Defined.

(** A WebP file that announces its canvas twice can be recorded with
    dimensions its image does not have: the validator compares the image with the
    last canvas, and the recorded dimensions are those of the first. *)
Theorem webp_dimensions_forged (DecodeConfig : bytes -> result (Z * Z)) :
  exists input chunks image,
    static_webp DefaultMaxPixels input chunks image /\ image_size image = Some (2, 2) /\
    inspectImage DecodeConfig DefaultMaxPixels input = Ok ("image/webp", 1, 1).
Proof.
  exists (encode_webp forged_chunks), forged_chunks, (lossless_chunk 1 64). split_and!; try done.
  - split; [reflexivity|]. split; [vm_compute; split; congruence|]. split; [|split; [reflexivity|]].
    + repeat constructor; vm_compute; try done; eauto.
    + intros canvas [= <-]. reflexivity.
Qed.
