(* ===== verification/MediaStore.v ===== *)
(** * Stored media and fetch jobs (internal/gateway/store/postgres/media.go,
    media_fetch.go; the records of media/upload.go and media/fetch.go)

    A media object is a row of [media_objects]: its state is in [media_objects] of
    the database and its other columns are in [media_details].  A fetch job imports
    the bytes of one object from the provider: it is claimed by a worker under a
    token, and completed, retried or failed by the holder of the token. *)

From S2P Require Import Prelude GoText Crypto GoEncoding Domain Session EventContract Store Leases Ingress Responses.

(** [strings.Contains]. *)
Definition Contains (s substr : string) : bool := bool_decide (is_Some (String.index 0 substr s)).

Definition HardMaxBytes : Z := 26214400.

(** [media.Record]. *)
Record MediaRecord := {
  mr_ID : string;
  mr_TenantID : string;
  mr_ObjectKey : string;
  mr_MIMEType : string;
  mr_Size : Z;
  mr_SHA256 : bytes;
  mr_Width : Z;
  mr_Height : Z;
  mr_DisplayFilename : string;
  mr_State : string;
  mr_CreatedAt : Z
}.

(** [media.FetchJob]. *)
Record FetchJob := {
  ff_TenantID : string;
  ff_JobID : string;
  ff_MediaID : string;
  ff_ConnectionID : string;
  ff_ProviderMessageID : string;
  ff_Locator : string;
  ff_DeclaredMIME : string;
  ff_DeclaredSize : Z;
  ff_DisplayFilename : string;
  ff_KeyEnvelope : Session.Envelope;
  ff_ThumbnailKeyEnvelope : Session.Envelope;
  ff_AttemptCount : Z;
  ff_OwnerID : string;
  ff_ClaimToken : Z;
  ff_Imported : option MediaRecord
}.

(** ** Objects *)

Definition media_row (s : IngressDb) (t mediaID : string) : option (string * MediaDetails) :=
  state ← media_objects (base s) !! (t, mediaID);
  details ← media_details (projected s) !! (t, mediaID);
  Some (state, details).

Definition set_media_details (m : gmap (string * string) MediaDetails) (s : IngressDb) : IngressDb :=
  let p := projected s in
  set_projected {| committed_cursors := committed_cursors p; line_details := line_details p;
    attachment_identities := attachment_identities p; media_details := m; fetch_jobs := fetch_jobs p |} s.

Definition set_fetch_jobs (m : gmap (string * string) FetchJobRow) (s : IngressDb) : IngressDb :=
  let p := projected s in
  set_projected {| committed_cursors := committed_cursors p; line_details := line_details p;
    attachment_identities := attachment_identities p; media_details := media_details p; fetch_jobs := m |} s.

Definition put_media (t mediaID state : string) (details : MediaDetails) (s : IngressDb) : IngressDb :=
  set_media_details (<[(t, mediaID) := details]> (media_details (projected s)))
    (set_base (set_media_objects (<[(t, mediaID) := state]> (media_objects (base s))) (base s)) s).

Definition validMediaRecord (record : MediaRecord) : bool :=
  negb ((mr_TenantID record =s "") || (mr_ID record =s "") || negb (HasPrefix (mr_ObjectKey record) "objects/") ||
        Contains (mr_ObjectKey record) ".." || (mr_Size record <? 0) || (mr_Size record >? HardMaxBytes) ||
        negb (blen (mr_SHA256 record) =? 32) || (mr_Width record <? 1) || (mr_Height record <? 1) ||
        (mr_DisplayFilename record =s "") || (len (mr_DisplayFilename record) >? 255) ||
        (mr_State record <>s "ready")) &&
  ((mr_MIMEType record =s "image/jpeg") || (mr_MIMEType record =s "image/png") ||
   (mr_MIMEType record =s "image/gif") || (mr_MIMEType record =s "image/webp")).

Definition max_int32 : Z := 2 ^ 31 - 1.

(** The columns [createMediaMetadataSQL] writes. *)
Definition record_details (record : MediaRecord) (messageID : option string) (createdAt : Z) : MediaDetails := {|
  mo_MessageID := messageID; mo_MIMEType := mr_MIMEType record; mo_DisplayFilename := mr_DisplayFilename record;
  mo_ByteSize := mr_Size record; mo_ObjectKey := Some (mr_ObjectKey record); mo_SHA256 := Some (mr_SHA256 record);
  mo_Width := Some (mr_Width record); mo_Height := Some (mr_Height record); mo_CreatedAt := createdAt |}.

(** UNIQUE (tenant_id, object_key). *)
Definition object_key_taken (s : IngressDb) (t mediaID key : string) : bool :=
  existsb (fun q => (q.1.1 =s t) && (q.1.2 <>s mediaID) && bool_decide (mo_ObjectKey q.2 = Some key))
    (map_to_list (media_details (projected s))).

(** The row may be taken over by an import of the same object. *)
Definition replaceable (state : string) (details : MediaDetails) (key : string) : bool :=
  ((state =s "pending") || (state =s "failed")) &&
  (bool_decide (mo_ObjectKey details = None) || bool_decide (mo_ObjectKey details = Some key)).

Definition create_media (record : MediaRecord) (s : IngressDb) : result (IngressDb * unit) :=
  let t := mr_TenantID record in
  let m := mr_ID record in
  let! _ := check_constraint ((mr_Width record <=? max_int32) && (mr_Height record <=? max_int32)) in
  match media_row s t m with
  | None =>
    let! _ := foreign_key (bool_decide (is_Some (tenants (base s) !! t))) in
    let! _ := check_constraint (negb (object_key_taken s t m (mr_ObjectKey record))) in
    Ok (put_media t m (mr_State record) (record_details record None (mr_CreatedAt record)) s, tt)
  | Some (state, details) =>
    if replaceable state details (mr_ObjectKey record) then
      let! _ := check_constraint (negb (object_key_taken s t m (mr_ObjectKey record))) in
      Ok (put_media t m (mr_State record) (record_details record (mo_MessageID details) (mo_CreatedAt details)) s, tt)
    else Err [ErrText "media metadata identity conflict"]
  end.

Definition Media_Create (record : MediaRecord) (s : IngressDb) : IngressDb * result unit :=
  if negb (validMediaRecord record) then (s, Err [ErrInvalidIdentifier])
  else inTenant (mr_TenantID record) (create_media record) s.

(** A row as [media.Record]. *)
Definition scan_media (t mediaID state : string) (details : MediaDetails) : MediaRecord := {|
  mr_ID := mediaID; mr_TenantID := t; mr_ObjectKey := default "" (mo_ObjectKey details);
  mr_MIMEType := mo_MIMEType details; mr_Size := mo_ByteSize details; mr_SHA256 := default [] (mo_SHA256 details);
  mr_Width := default 0 (mo_Width details); mr_Height := default 0 (mo_Height details);
  mr_DisplayFilename := mo_DisplayFilename details; mr_State := state; mr_CreatedAt := mo_CreatedAt details |}.

Definition fetch_failed (s : IngressDb) (t mediaID : string) : bool :=
  existsb (fun q => (q.1.1 =s t) && (fj_MediaID q.2 =s mediaID) && (fj_State q.2 =s "failed"))
    (map_to_list (fetch_jobs (projected s))).

(** [getMediaMetadataSQL] hides the objects of failed jobs. *)
Definition Media_Get (tenantID mediaID : string) (s : IngressDb) : IngressDb * result MediaRecord :=
  if (tenantID =s "") || (mediaID =s "") then (s, Err [ErrMediaNotFound])
  else inTenant tenantID (fun s =>
    match media_row s tenantID mediaID with
    | Some (state, details) =>
      if fetch_failed s tenantID mediaID then Err [ErrMediaNotFound]
      else Ok (s, scan_media tenantID mediaID state details)
    | None => Err [ErrMediaNotFound]
    end) s.

(** ** Claiming *)

Definition FetchClaimInterval : Z := 60 * Second.

Definition job_claimable (now : Z) (row : FetchJobRow) : bool :=
  ((fj_State row =s "pending") || (fj_State row =s "fetching")) && (fj_AvailableAt row <=? now) &&
  match fj_OwnerID row with
  | None => true
  | Some _ => match fj_ClaimExpiresAt row with Some expires => expires <=? now | None => false end
  end.

Definition job_le (a b : string * FetchJobRow) : Prop :=
  fj_AvailableAt a.2 < fj_AvailableAt b.2 \/ fj_AvailableAt a.2 = fj_AvailableAt b.2 /\ String.le a.1 b.1.

#[export] Instance job_le_dec a b : Decision (job_le a b).
Proof. unfold job_le. apply _. Defined.

(** The oldest claimable job of a tenant. *)
Definition fetch_candidate (s : IngressDb) (t : string) (now : Z) : option (string * FetchJobRow) :=
  head (merge_sort job_le ((fun q => (q.1.2, q.2)) <$>
    List.filter (fun q => (q.1.1 =s t) && job_claimable now q.2) (map_to_list (fetch_jobs (projected s))))).

(** The claim columns of a job. *)
Definition with_claim (state : string) (attempts available : Z) (owner : option string) (token : Z)
    (expires : option Z) (lastError : string) (row : FetchJobRow) : FetchJobRow := {|
  fj_MediaID := fj_MediaID row; fj_ConnectionID := fj_ConnectionID row;
  fj_ProviderMessageID := fj_ProviderMessageID row; fj_Locator := fj_Locator row; fj_MIMEType := fj_MIMEType row;
  fj_DeclaredSize := fj_DeclaredSize row; fj_DisplayFilename := fj_DisplayFilename row; fj_Key := fj_Key row;
  fj_ThumbnailKey := fj_ThumbnailKey row; fj_IdentityDigest := fj_IdentityDigest row; fj_State := state;
  fj_AttemptCount := attempts; fj_AvailableAt := available; fj_OwnerID := owner; fj_ClaimToken := token;
  fj_ClaimExpiresAt := expires; fj_LastSafeError := lastError |}.

(** [attempt_count] is an [integer] and [claim_token] a [bigint]. *)
Definition claimed_job (owner : string) (now : Z) (row : FetchJobRow) : result FetchJobRow :=
  let! token := next_token (fj_ClaimToken row) in
  if fj_AttemptCount row + 1 >? max_int32 then Err [ErrText "integer out of range"]
  else Ok (with_claim "fetching" (fj_AttemptCount row + 1) (fj_AvailableAt row) (Some owner) token
             (Some (now + FetchClaimInterval)) (fj_LastSafeError row) row).

Definition no_envelope : Session.Envelope := {|
  en_Revision := 0; en_Version := 0; en_Provider := ""; en_Ciphertext := []; en_WrappedDEK := []; en_Nonce := [];
  en_KeyID := ""; en_KeyVersion := 0 |}.

Definition mediaKeyEnvelope (key : option SealedKey) : Session.Envelope :=
  match key with
  | None => no_envelope
  | Some k =>
    if is_nil (sk_Ciphertext k) then no_envelope
    else {| en_Revision := 0; en_Version := EnvelopeVersion; en_Provider := "gmessages-media";
            en_Ciphertext := sk_Ciphertext k; en_WrappedDEK := sk_WrappedDEK k; en_Nonce := sk_Nonce k;
            en_KeyID := sk_KeyID k; en_KeyVersion := sk_KeyVersion k |}
  end.

Definition scan_job (t jobID : string) (row : FetchJobRow) (object : string * MediaDetails) : FetchJob := {|
  ff_TenantID := t; ff_JobID := jobID; ff_MediaID := fj_MediaID row; ff_ConnectionID := fj_ConnectionID row;
  ff_ProviderMessageID := fj_ProviderMessageID row; ff_Locator := fj_Locator row; ff_DeclaredMIME := fj_MIMEType row;
  ff_DeclaredSize := fj_DeclaredSize row; ff_DisplayFilename := fj_DisplayFilename row;
  ff_KeyEnvelope := mediaKeyEnvelope (fj_Key row); ff_ThumbnailKeyEnvelope := mediaKeyEnvelope (fj_ThumbnailKey row);
  ff_AttemptCount := fj_AttemptCount row; ff_OwnerID := default "" (fj_OwnerID row);
  ff_ClaimToken := fj_ClaimToken row;
  ff_Imported := if object.1 =s "ready" then Some (scan_media t (fj_MediaID row) "ready" object.2) else None |}.

Definition invalid_claim (job : FetchJob) (ownerID : string) : bool :=
  (ff_JobID job =s "") || (ff_MediaID job =s "") || (ff_ConnectionID job =s "") || (ff_OwnerID job <>s ownerID) ||
  (ff_ClaimToken job =? 0) || (ff_AttemptCount job <? 1).

Definition claim_fetch (t ownerID : string) (now : Z) (s : IngressDb) : result (IngressDb * option FetchJob) :=
  match fetch_candidate s t now with
  | None => Ok (s, None)
  | Some (jobID, row) =>
    let! row := claimed_job ownerID now row in
    let s := set_fetch_jobs (<[(t, jobID) := row]> (fetch_jobs (projected s))) s in
    match media_row s t (fj_MediaID row) with
    | None => Ok (s, None)
    | Some object =>
      let job := scan_job t jobID row object in
      if invalid_claim job ownerID then Err [ErrText "invalid media fetch claim returned by database"]
      else Ok (s, Some job)
    end
  end.

Definition ClaimFetch (tenantID ownerID : string) (now : Z) (s : IngressDb) : IngressDb * result (option FetchJob) :=
  if (tenantID =s "") || (ownerID =s "") || (len ownerID >? 256) then (s, Err [ErrInvalidIdentifier])
  else inTenant tenantID (claim_fetch tenantID ownerID now) s.

(** ** Holding and completing a claim *)

Definition validFetchCompletion (job : FetchJob) : bool :=
  (ff_TenantID job <>s "") && (ff_JobID job <>s "") && (ff_MediaID job <>s "") && (ff_ConnectionID job <>s "") &&
  (ff_OwnerID job <>s "") && (ff_ClaimToken job >? 0) && (ff_AttemptCount job >? 0).

(** The row of the job while the claim of [job] is the current one. *)
Definition held_row (s : IngressDb) (job : FetchJob) : option FetchJobRow :=
  row ← fetch_jobs (projected s) !! (ff_TenantID job, ff_JobID job);
  if (fj_MediaID row =s ff_MediaID job) && (fj_State row =s "fetching") &&
     bool_decide (fj_OwnerID row = Some (ff_OwnerID job)) && (fj_ClaimToken row =? ff_ClaimToken job)
  then Some row else None.

Definition put_job (job : FetchJob) (row : FetchJobRow) (s : IngressDb) : IngressDb :=
  set_fetch_jobs (<[(ff_TenantID job, ff_JobID job) := row]> (fetch_jobs (projected s))) s.

Definition RenewFetch (job : FetchJob) (now : Z) (s : IngressDb) : IngressDb * result bool :=
  if negb (validFetchCompletion job) then (s, Err [ErrInvalidIdentifier])
  else inTenant (ff_TenantID job) (fun s =>
    match held_row s job with
    | Some row =>
      if match fj_ClaimExpiresAt row with Some expires => expires >? now | None => false end
      then Ok (put_job job (with_claim (fj_State row) (fj_AttemptCount row) (fj_AvailableAt row) (fj_OwnerID row)
                 (fj_ClaimToken row) (Some (now + FetchClaimInterval)) (fj_LastSafeError row) row) s, true)
      else Ok (s, false)
    | None => Ok (s, false)
    end) s.

(** The job is settled: no owner, no expiry. *)
Definition settled_row (state safeError : string) (row : FetchJobRow) : FetchJobRow :=
  with_claim state (fj_AttemptCount row) (fj_AvailableAt row) None (fj_ClaimToken row) None safeError row.

(** The event of a settled job and its outbox rows. *)
Definition media_event (job : FetchJob) (row : FetchJobRow) (eventType eventID outboxID : string) (body : bytes)
    (now : Z) (s : IngressDb) : result IngressDb :=
  let! db1 := insertGatewayEvent (ff_TenantID job) eventID eventType "media" (fj_MediaID row) (fj_ConnectionID row)
                "" body (base s) in
  let! db2 := insertEventOutbox (ff_TenantID job) outboxID eventID now db1 in
  Ok (set_base db2 s).

Definition ready_as (object : string * MediaDetails) (record : MediaRecord) : bool :=
  (object.1 =s "ready") && bool_decide (mo_ObjectKey object.2 = Some (mr_ObjectKey record)) &&
  (mo_ByteSize object.2 =? mr_Size record) && bool_decide (mo_SHA256 object.2 = Some (mr_SHA256 record)) &&
  (mo_MIMEType object.2 =s mr_MIMEType record).

Definition complete_ready (job : FetchJob) (record : MediaRecord) (eventID outboxID : string) (body : bytes) (now : Z)
    (s : IngressDb) : result (IngressDb * unit) :=
  match held_row s job, media_row s (ff_TenantID job) (ff_MediaID job) with
  | Some row, Some object =>
    if ready_as object record then
      let! s1 := media_event job row "media.ready" eventID outboxID body now
                   (put_job job (settled_row "ready" "" row) s) in
      Ok (s1, tt)
    else Err [ErrFetchFenceLost]
  | _, _ => Err [ErrFetchFenceLost]
  end.

Definition CompleteReady (job : FetchJob) (record : MediaRecord) (eventID : string) (body : bytes) (outboxID : string)
    (now : Z) (s : IngressDb) : IngressDb * result unit :=
  if negb (validFetchCompletion job) || (mr_TenantID record <>s ff_TenantID job) || (mr_ID record <>s ff_MediaID job) ||
     (mr_State record <>s "ready") || (mr_ObjectKey record =s "") || (mr_Size record <? 1) ||
     (mr_Size record >? HardMaxBytes) || negb (blen (mr_SHA256 record) =? 32) || (mr_MIMEType record =s "") ||
     (eventID =s "") || (blen body =? 0) || (blen body >? 2 ^ 20)
  then (s, Err [ErrInvalidIdentifier])
  else inTenant (ff_TenantID job) (complete_ready job record eventID outboxID body now) s.

Definition retry_fetch (job : FetchJob) (safeReason : string) (retryAt : Z) (s : IngressDb) : result (IngressDb * unit) :=
  match held_row s job with
  | Some row =>
    Ok (put_job job (with_claim "pending" (fj_AttemptCount row) retryAt None (fj_ClaimToken row) None safeReason row) s, tt)
  | None => Err [ErrFetchFenceLost]
  end.

(** A ready object keeps its state when its job fails. *)
Definition fail_object (t mediaID : string) (s : IngressDb) : IngressDb :=
  match media_objects (base s) !! (t, mediaID) with
  | Some state =>
    if state =s "ready" then s
    else set_base (set_media_objects (<[(t, mediaID) := "failed"]> (media_objects (base s))) (base s)) s
  | None => s
  end.

Definition fail_fetch (job : FetchJob) (safeReason eventID outboxID : string) (body : bytes) (now : Z) (s : IngressDb)
    : result (IngressDb * unit) :=
  match held_row s job with
  | Some row =>
    let! s1 := media_event job row "media.failed" eventID outboxID body now
                 (fail_object (ff_TenantID job) (fj_MediaID row) (put_job job (settled_row "failed" safeReason row) s)) in
    Ok (s1, tt)
  | None => Err [ErrFetchFenceLost]
  end.

(** A zero [retryAt] is terminal. *)
Definition CompleteFailed (job : FetchJob) (safeReason eventID : string) (body : bytes) (retryAt : Z)
    (outboxID : string) (now : Z) (s : IngressDb) : IngressDb * result unit :=
  if negb (validFetchCompletion job) || (safeReason =s "") || (len safeReason >? 128)
  then (s, Err [ErrInvalidIdentifier])
  else if negb (time_IsZero retryAt) then inTenant (ff_TenantID job) (retry_fetch job safeReason retryAt) s
  else if (eventID =s "") || (blen body =? 0) || (blen body >? 2 ^ 20) then (s, Err [ErrInvalidIdentifier])
  else inTenant (ff_TenantID job) (fail_fetch job safeReason eventID outboxID body now) s.
