(* ===== verification/MediaSafety.v ===== *)
(** * Guarantees of stored media and fetch jobs

    What any sequence of claims, renewals, completions, imports and commits does to
    the fetch jobs and the media objects. *)

From S2P Require Import Prelude GoText Crypto GoEncoding Domain Session EventContract Store Leases Ingress Reconcile Responses Acks Lines Commit InboxInvariant CommitSafety MediaStore.

(** ** Committing an envelope *)

(** The tables of media. *)
Definition media_tables (s : IngressDb)
    : gmap (string * string) string * gmap (string * string) MediaDetails * gmap (string * string) FetchJobRow :=
  (media_objects (base s), media_details (projected s), fetch_jobs (projected s)).

(** Every object has its details, every job its object, and no object two jobs. *)
Definition media_ok (s : IngressDb) : Prop :=
  (forall k, is_Some (media_objects (base s) !! k) <-> is_Some (media_details (projected s) !! k)) /\
  (forall t j row, fetch_jobs (projected s) !! (t, j) = Some row -> is_Some (media_objects (base s) !! (t, fj_MediaID row))) /\
  (forall t j j' row row', fetch_jobs (projected s) !! (t, j) = Some row -> fetch_jobs (projected s) !! (t, j') = Some row' ->
     fj_MediaID row = fj_MediaID row' -> j = j').

(** Rows are added, none is changed. *)
Definition media_grows (s s' : IngressDb) : Prop :=
  media_ok s -> media_ok s' /\ media_objects (base s) ⊆ media_objects (base s') /\
  media_details (projected s) ⊆ media_details (projected s') /\ fetch_jobs (projected s) ⊆ fetch_jobs (projected s').

Lemma same_tables_grow s s' : media_tables s' = media_tables s -> media_grows s s'.
Proof. unfold media_tables, media_grows, media_ok. by intros [= -> -> ->]. Qed.

Lemma media_grows_trans s1 s2 s3 : media_grows s1 s2 -> media_grows s2 s3 -> media_grows s1 s3.
Proof.
  intros H1 H2 Hok. destruct (H1 Hok) as (Hok2 & A & B & C). destruct (H2 Hok2) as (Hok3 & A' & B' & C').
  split_and!; [done | by etransitivity..].
Qed.

Lemma events_media t e ty at_ ai c cv body o now db db1 db2 :
  insertGatewayEvent t e ty at_ ai c cv body db = Ok db1 -> insertEventOutbox t o e now db1 = Ok db2 ->
  media_objects db2 = media_objects db.
Proof. intros [_ ->]%insertGatewayEvent_ok H. by apply insertEventOutbox_ok in H as (_ & _ & _ & ->). Qed.

Lemma upsert_lines_media t c records s s' : upsert_lines t c records s = Ok s' -> media_tables s' = media_tables s.
Proof.
  revert s. induction records as [|r records IH]; intros s; cbn [upsert_lines]; [by intros [= <-]|].
  intros (s1 & ->%upsert_line_ok & H)%result_bind_ok. by rewrite (IH _ H).
Qed.

Lemma commit_lines_media record s s' : commit_lines record s = Ok s' -> media_tables s' = media_tables s.
Proof.
  unfold commit_lines. case_if_goal E; [|by intros [= <-]].
  intros (rs & _ & (_ & _ & H)%result_bind_ok)%result_bind_ok.
  unfold replaceLineRows in H. apply result_bind_ok in H as (s1 & H & [= <-]).
  etransitivity; [|by eapply upsert_lines_media]. done.
Qed.

Lemma poison_media record reason ids now s s' out :
  poisonCursorEnvelope record reason ids now s = Ok (s', out) -> media_tables s' = media_tables s.
Proof.
  unfold poisonCursorEnvelope. intros ([r1 b] & _ & H)%result_bind_ok. cbn [snd fst] in H.
  destruct b; cbn [negb] in H; [|done]. cbv zeta in H. apply result_bind_ok in H as (body & _ & H).
  apply result_bind_ok in H as (db1 & H1 & H). apply result_bind_ok in H as (db2 & H2 & [= <- <-]).
  unfold media_tables. cbn. by rewrite (events_media _ _ _ _ _ _ _ _ _ _ _ _ _ H1 H2).
Qed.

Lemma commit_cursor_media record adv ids now s s' out :
  commit_cursor record adv ids now s = Ok (s', out) -> media_tables s' = media_tables s.
Proof.
  unfold commit_cursor. case_if_goal E; [by intros [= <- _]|]. destruct (history (responses s) !! _) as [row|].
  - case_if_goal Eb; [by intros [= <- _]|]. intros ([s1 o] & H & [= <- _])%result_bind_ok. by eapply poison_media.
  - case_if_goal Ea.
    + destruct (exhaustProviderCursorBudget _ _ _) as [r1|]; [|done].
      intros ([s1 o] & H & [= <- _])%result_bind_ok. by rewrite (poison_media _ _ _ _ _ _ _ H).
    + intros H. bind_ok H. by injection H as <- _.
Qed.

Lemma resolve_media record media ids now index s s' out :
  resolve_attachments record media ids now index s = Ok (s', out) -> media_tables s' = media_tables s.
Proof.
  revert index s. induction media as [|l media IH]; intros index s; cbn [resolve_attachments]; [by intros [= <- _]|].
  cbv zeta. destruct (lock_existing_attachment _ _ _ _ _ _) as [a|]; [|apply IH].
  case_if_goal E1; [apply IH|]. case_if_goal E2.
  - intros (s1 & H1 & H)%result_bind_ok. rewrite (IH _ _ H). unfold bind_outbound_identity in H1.
    destruct (unbound_at _ _ _ _ _ _) as [|m [|]]; try done. by injection H1 as <-.
  - intros ([s1 o] & H1 & [= <- _])%result_bind_ok. by eapply poison_media.
Qed.

Lemma project_conversations_media t c l db db' :
  project_conversations t c l db = Ok db' -> media_objects db' = media_objects db.
Proof.
  revert db. induction l as [|p l IH]; intros db; cbn [project_conversations]; [by intros [= <-]|].
  case_if_goal E; [done|]. intros H. rewrite (IH _ H). unfold upsert_conversation. by destruct (conversations db !! _).
Qed.

Lemma reconcile_tail_media cx p ro ids now db db' :
  reconcile_tail cx p ro ids now db = Ok db' -> media_objects db' = media_objects db.
Proof.
  intros (db2 & H2 & H)%result_bind_ok. assert (E : media_objects db2 = media_objects db).
  { destruct (bool_decide _); [by injection H2 as <-|]. by apply insertMessageStatus_ok in H2 as (_ & _ & ->). }
  rewrite <- E. destruct (ro_transition ro); [|by injection H as <-].
  apply result_bind_ok in H as (body & _ & H). apply result_bind_ok in H as (db3 & H3 & H). by eapply events_media.
Qed.

Lemma reconcile_messages_media cx l ids n now index db out :
  reconcile_messages cx l ids n now index db = Ok out -> media_objects out.1 = media_objects db.
Proof.
  revert n index db. induction l as [|p l IH]; intros n index db; cbn [reconcile_messages]; [by intros [= <-]|].
  intros ([db1 ro] & H1 & H)%result_bind_ok. rewrite (IH _ _ _ H). cbn [fst]. clear H IH.
  unfold reconcile_message in H1. destruct (lock_projected _ _ _ _ _) as [[k m]|].
  - apply result_bind_ok in H1 as ([db2 r] & H2 & H). apply result_bind_ok in H as (db3 & H3 & [= <- _]).
    rewrite (reconcile_tail_media _ _ _ _ _ _ _ H3). unfold reconcile_existing in H2.
    apply result_bind_ok in H2 as (dir & _ & H2). destruct (negb _); [done|]. bind_ok H2. by injection H2 as <- _.
  - apply result_bind_ok in H1 as ([db2 [[x st] dir]] & H2 & H). apply result_bind_ok in H as (db3 & H3 & [= <- _]).
    rewrite (reconcile_tail_media _ _ _ _ _ _ _ H3). unfold insert_projected in H2. destruct (negb _); [done|].
    bind_ok H2. destruct (messages db !! _); [done|]. by injection H2 as <- _ _ _.
Qed.

Lemma project_events_media record l mids index ids n now db db' :
  project_events record l mids index ids n now db = Ok db' -> media_objects db' = media_objects db.
Proof.
  revert n db. induction l as [|e l IH]; intros n db; cbn [project_events]; [by intros [= <-]|].
  case_if_goal E1; [apply IH|]. case_if_goal E2; [done|]. intros (se & _ & H)%result_bind_ok.
  apply result_bind_ok in H as (db1 & H1 & H). rewrite (IH _ _ H). clear H IH. unfold insert_stored_event in H1.
  apply result_bind_ok in H1 as ([db2 b] & H2 & H). cbn [fst snd] in H.
  assert (Hdb2 : media_objects db2 = media_objects db).
  { case_if_in H2 Es.
    - unfold insertGatewayEventIfAbsent in H2. apply result_bind_ok in H2 as (_ & _ & H2).
      destruct (events db !! _); [by injection H2 as <- _|].
      by apply result_bind_ok in H2 as (db3 & [_ ->]%insertGatewayEvent_ok & [= <- _]).
    - by apply result_bind_ok in H2 as (db3 & [_ ->]%insertGatewayEvent_ok & [= <- _]). }
  rewrite <- Hdb2. destruct b; [|by injection H as <-]. by apply insertEventOutbox_ok in H as (_ & _ & _ & ->).
Qed.

Lemma advance_cursor_media record s s' : advance_cursor record s = Ok s' -> media_tables s' = media_tables s.
Proof.
  unfold advance_cursor. case_if_goal E1; [by intros [= <-]|]. case_if_goal E2; [done|]. by intros [= <-].
Qed.

Lemma insert_media_grows record locator m j x now s s' :
  insert_media record locator m j x now s = Ok s' -> media_grows s s'.
Proof.
  unfold insert_media. intros H (Hk & Hj & Hu). bind_ok H. injection H as <-.
  repeat match goal with Hi : insert_unique _ _ _ = Ok _ |- _ => apply insert_unique_ok in Hi as [? ->] end.
  repeat match goal with Hi : check_constraint ?b = Ok _ |- _ =>
    unfold check_constraint in Hi; destruct b eqn:?; [clear Hi|done] end.
  cbn [base projected media_details fetch_jobs set_message_media set_media_objects media_objects].
  assert (Hd : media_details (projected s) !! (rc_TenantID record, m) = None).
  { apply eq_None_not_Some. rewrite <- Hk. by apply eq_None_not_Some. }
  split_and!; try by apply insert_subseteq. split; [|split].
  - intros k. cbn. rewrite !lookup_insert. by case_decide.
  - cbn. intros t j' row. rewrite lookup_insert_Some. intros [[[= <- <-] <-]|[_ Hrow]].
    + rewrite lookup_insert. by rewrite decide_True.
    + apply Hj in Hrow as [o Ho]. rewrite lookup_insert. case_decide; [done|]. by exists o.
  - cbn. assert (Hfresh : forall j' row, fetch_jobs (projected s) !! (rc_TenantID record, j') = Some row -> fj_MediaID row <> m).
    { intros j' row Hrow%elem_of_map_to_list Hm.
      match goal with Hn : negb (existsb _ (map_to_list (fetch_jobs _))) = true |- _ =>
        apply negb_true_iff in Hn; rewrite existsb_false in Hn; specialize (Hn _ Hrow) as Hn' end.
      cbn in Hn'. by rewrite Hm, !String.eqb_refl in Hn'. }
    intros t j1 j2 row1 row2. rewrite !lookup_insert_Some.
    intros [[K1 <-]|[K1 H1]] [[K2 <-]|[K2 H2]]; cbn [fj_MediaID job_row]; intros Heq.
    + congruence.
    + injection K1 as <- <-. by destruct (Hfresh _ _ H2).
    + injection K2 as <- <-. by destruct (Hfresh _ _ H1).
    + by eapply Hu.
Qed.

Lemma project_media_grows record media mids ids n now index s out :
  project_media record media mids ids n now index s = Ok out -> media_grows s out.1.
Proof.
  revert n index s. induction media as [|l media IH]; intros n index s; cbn [project_media].
  { intros [= <-]. by apply same_tables_grow. }
  cbv zeta. case_if_goal E; [apply IH|]. case_if_goal Em; [done|]. destruct (ids n) as [m j].
  intros (s1 & H1%insert_media_grows & H)%result_bind_ok. eapply media_grows_trans; [done|by eapply IH].
Qed.

Lemma commit_new_grows record adv ids now s s' out :
  commit_new record adv ids now s = Ok (s', out) -> media_grows s s'.
Proof.
  unfold commit_new. intros ([r1 b] & _ & H)%result_bind_ok. case_if_in H E; [done|].
  apply result_bind_ok in H as (s1 & H1%commit_lines_media & H).
  apply result_bind_ok in H as ([s2 o] & H2%commit_cursor_media & H). cbn [fst snd] in H.
  assert (Hs2 : media_tables s2 = media_tables s) by (by rewrite H2, H1).
  destruct o as [o|]; [injection H as <- _; by apply same_tables_grow|]. unfold commit_projection in H.
  apply result_bind_ok in H as ([s3 [index poisoned]] & H3%resolve_media & H). rewrite Hs2 in H3.
  destruct poisoned as [o|]; [injection H as <- _; by apply same_tables_grow|].
  apply result_bind_ok in H as (db2 & Hc%project_conversations_media & H).
  apply result_bind_ok in H as (rec & Hr%reconcile_messages_media & H).
  apply result_bind_ok in H as (med & Hm%project_media_grows & H).
  apply result_bind_ok in H as (db5 & He%project_events_media & H).
  apply result_bind_ok in H as (s6 & Ha%advance_cursor_media & [= <- _]).
  eapply media_grows_trans; [|eapply media_grows_trans; [exact Hm|]]; apply same_tables_grow.
  - rewrite <- H3. unfold media_tables. cbn. by rewrite Hr, Hc.
  - rewrite Ha. unfold media_tables. cbn. by rewrite He.
Qed.

Lemma CommitEnvelope_grows um mc record ids now s :
  media_grows s (Repository_CommitEnvelope um mc record ids now s).1.
Proof.
  unfold Repository_CommitEnvelope. destruct (canonical_record um mc record) as [rec|]; [|by apply same_tables_grow].
  destruct (inTenant _ _ s) as [s' r] eqn:Et.
  apply inTenant_cases in Et as [[-> _]|(v & _ & H)]; [by apply same_tables_grow|].
  apply commit_transaction_cases in H as (_ & r1 & adv & exh & _ & H).
  destruct H as [(ex & r2 & _ & _ & ->)|[(_ & _ & _ & r2 & _ & ->)|(_ & _ & Hc)]]; [by apply same_tables_grow..|].
  cbn [fst]. intros Hok. by apply (commit_new_grows _ _ _ _ _ _ _ Hc).
Qed.

(** ** Steps *)

Definition settled (row : FetchJobRow) : Prop := fj_State row = "ready" \/ fj_State row = "failed".

(** How the row of a job changes: tokens grow, the object of a job and a settled
    job do not change, and a claim that ended stays ended until the next token. *)
Definition job_evolves (row row' : FetchJobRow) : Prop :=
  fj_MediaID row' = fj_MediaID row /\ fj_ClaimToken row <= fj_ClaimToken row' /\
  (settled row -> row' = row) /\
  (fj_ClaimToken row' = fj_ClaimToken row ->
     if fj_State row =s "fetching" then fj_State row' = "fetching" -> fj_OwnerID row' = fj_OwnerID row
     else row' = row).

Definition media_keeps (s s' : IngressDb) : Prop :=
  media_ok s ->
  media_ok s' /\
  (forall k row, fetch_jobs (projected s) !! k = Some row ->
     exists row', fetch_jobs (projected s') !! k = Some row' /\ job_evolves row row') /\
  (forall t m d, media_row s t m = Some ("ready", d) -> media_row s' t m = Some ("ready", d)).

(** One operation of any replica at a reading of the clock; [media_elsewhere] is every
    other component, which changes neither objects nor jobs. *)
Inductive media_step_at (now : Z) : IngressDb -> IngressDb -> Prop :=
| step_claim t owner s : media_step_at now s (ClaimFetch t owner now s).1
| step_renew job s : media_step_at now s (RenewFetch job now s).1
| step_ready job record eventID body outboxID s :
    media_step_at now s (CompleteReady job record eventID body outboxID now s).1
| step_failed job reason eventID body retryAt outboxID s :
    media_step_at now s (CompleteFailed job reason eventID body retryAt outboxID now s).1
| step_create record s : media_step_at now s (Media_Create record s).1
| step_envelope um mc record ids s : media_step_at now s (Repository_CommitEnvelope um mc record ids now s).1
| media_elsewhere s s' : media_tables s' = media_tables s -> media_step_at now s s'.

Definition media_step (s s' : IngressDb) : Prop := exists now, media_step_at now s s'.

(** A run whose clock does not go back. *)
Inductive media_run (now : Z) (s : IngressDb) : Z -> IngressDb -> Prop :=
| media_run_refl : media_run now s now s
| media_run_step now1 s1 now2 s2 :
    now <= now1 -> media_step_at now1 s s1 -> media_run now1 s1 now2 s2 -> media_run now s now2 s2.

Lemma media_run_steps now s now' s' : media_run now s now' s' -> rtc media_step s s'.
Proof. induction 1 as [|now s now1 s1 now2 s2 _ Hs _ IH]; [apply rtc_refl|]. eapply rtc_l; [by exists now1 | done]. Qed.

Lemma job_evolves_refl row : job_evolves row row.
Proof. split_and!; try done. intros _. by destruct (fj_State row =s "fetching"). Qed.

Lemma settled_not_fetching row : settled row -> (fj_State row =s "fetching") = false.
Proof. by intros [-> | ->]. Qed.

Lemma job_evolves_trans a b c : job_evolves a b -> job_evolves b c -> job_evolves a c.
Proof.
  intros (M1 & T1 & S1 & H1) (M2 & T2 & S2 & H2). split_and!; [congruence | lia | | ].
  - intros Ha. specialize (S1 Ha). subst b. by apply S2.
  - intros Hc. assert (Hb : fj_ClaimToken b = fj_ClaimToken a) by lia. specialize (H1 Hb). specialize (H2 ltac:(lia)).
    destruct (fj_State a =s "fetching") eqn:Ea; [|subst b; by rewrite Ea in H2].
    intros Hf. destruct (String.eqb_spec (fj_State b) "fetching") as [Eb|Eb]; [rewrite H2 by done; auto|].
    subst c. done.
Qed.

Lemma grows_keeps s s' : media_grows s s' -> media_keeps s s'.
Proof.
  intros H Hok. destruct (H Hok) as (Hok' & A & B & C). split_and!; [done| |].
  - intros k row Hrow. exists row. split; [|apply job_evolves_refl]. by eapply lookup_weaken.
  - unfold media_row. intros t m d Hm. destruct (media_objects (base s) !! (t, m)) as [st|] eqn:E1; [|done].
    destruct (media_details (projected s) !! (t, m)) as [d'|] eqn:E2; [|done].
    rewrite (lookup_weaken _ _ _ _ E1 A), (lookup_weaken _ _ _ _ E2 B). done.
Qed.

Lemma same_tables_keep s s' : media_tables s' = media_tables s -> media_keeps s s'.
Proof. intros H. by apply grows_keeps, same_tables_grow. Qed.

Lemma media_keeps_trans s1 s2 s3 : media_keeps s1 s2 -> media_keeps s2 s3 -> media_keeps s1 s3.
Proof.
  intros H1 H2 Hok. destruct (H1 Hok) as (Hok2 & J1 & R1). destruct (H2 Hok2) as (Hok3 & J2 & R2).
  split_and!; [done | | auto]. intros k row Hrow. destruct (J1 _ _ Hrow) as (row2 & Hrow2 & E1).
  destruct (J2 _ _ Hrow2) as (row3 & Hrow3 & E2). exists row3. split; [done | by eapply job_evolves_trans].
Qed.

Lemma put_row_keeps s k row row' :
  fetch_jobs (projected s) !! k = Some row -> job_evolves row row' ->
  media_keeps s (set_fetch_jobs (<[k := row']> (fetch_jobs (projected s))) s).
Proof.
  intros Hrow He (Hk & Hj & Hu). destruct He as (Hm & He). split; [|split].
  - split; [exact Hk|]. cbn. destruct k as [t0 j0]. split.
    + intros t j r [[[= <- <-] <-]|[_ Hr]]%lookup_insert_Some; [rewrite Hm; by eapply Hj | by eapply Hj].
    + intros t j j' r r'. rewrite !lookup_insert_Some. intros [[K1 <-]|[_ H1]] [[K2 <-]|[_ H2]] Heq.
      * congruence.
      * injection K1 as <- <-. rewrite Hm in Heq. by eapply Hu.
      * injection K2 as <- <-. rewrite Hm in Heq. by eapply Hu.
      * by eapply Hu.
  - intros k' r Hr. cbn. rewrite lookup_insert. case_decide as Hkk; [subst k'|].
    + exists row'. rewrite Hrow in Hr. by injection Hr as <-.
    + exists r. split; [done | apply job_evolves_refl].
  - done.
Qed.

Lemma held_row_Some s job row :
  held_row s job = Some row ->
  fetch_jobs (projected s) !! (ff_TenantID job, ff_JobID job) = Some row /\ fj_MediaID row = ff_MediaID job /\
  fj_State row = "fetching" /\ fj_OwnerID row = Some (ff_OwnerID job) /\ fj_ClaimToken row = ff_ClaimToken job.
Proof.
  unfold held_row. destruct (fetch_jobs _ !! _) as [r|]; [|done]. cbn [mbind option_bind].
  case_if_goal E; [|done]. intros [= <-]. reflect_bools. done.
Qed.

(** The holder of a claim changes the state, the owner, the expiry, the time and
    the error of its job, under the same token. *)
Lemma held_evolves row state attempts available owner expires lastError :
  fj_State row = "fetching" -> (state = "fetching" -> owner = fj_OwnerID row) ->
  job_evolves row (with_claim state attempts available owner (fj_ClaimToken row) expires lastError row).
Proof.
  intros Hf Ho. unfold job_evolves, settled. cbn. rewrite Hf. split_and!; try done. by intros [|].
Qed.

Lemma put_held_keeps s job row row' :
  held_row s job = Some row -> job_evolves row row' -> media_keeps s (put_job job row' s).
Proof. intros (Hrow & _)%held_row_Some. by apply put_row_keeps. Qed.

Lemma media_event_tables job row ty eventID outboxID body now s s' :
  media_event job row ty eventID outboxID body now s = Ok s' -> media_tables s' = media_tables s.
Proof.
  unfold media_event. intros (db1 & H1 & (db2 & H2 & [= <-])%result_bind_ok)%result_bind_ok.
  unfold media_tables. cbn. by rewrite (events_media _ _ _ _ _ _ _ _ _ _ _ _ _ H1 H2).
Qed.

Lemma fetch_candidate_Some s t now j row :
  fetch_candidate s t now = Some (j, row) ->
  fetch_jobs (projected s) !! (t, j) = Some row /\ job_claimable now row = true.
Proof.
  unfold fetch_candidate. intros Ec%head_merge_sort. apply list_elem_of_fmap in Ec as ([[t' j'] r] & [= -> ->] & Hin).
  apply elem_of_List_filter in Hin as [Hin Hb]. cbn [fst snd] in Hb.
  apply andb_true_iff in Hb as [->%String.eqb_eq Hb]. by apply elem_of_map_to_list in Hin.
Qed.

Lemma claim_keeps t owner now s s' out : claim_fetch t owner now s = Ok (s', out) -> media_keeps s s'.
Proof.
  unfold claim_fetch. destruct (fetch_candidate s t now) as [[j row]|] eqn:Ec.
  2:{ intros [= <- _]. by apply same_tables_keep. }
  intros (row' & Hr & H)%result_bind_ok.
  apply fetch_candidate_Some in Ec as [Hrow Hc].
  assert (Hs : media_keeps s (set_fetch_jobs (<[(t, j) := row']> (fetch_jobs (projected s))) s)).
  { apply (put_row_keeps s _ row); [done|]. unfold claimed_job in Hr. apply result_bind_ok in Hr as (token & Ht & Hr).
    unfold next_token in Ht. case_if_in Ht E; [done|]. injection Ht as <-. case_if_in Hr E2; [done|]. injection Hr as <-.
    split_and!; cbn; [done | lia | | lia]. intros Hs. unfold job_claimable in Hc.
    destruct Hs as [Hs|Hs]; rewrite Hs in Hc; done. }
  destruct (media_row _ _ _) as [object|]; [|by injection H as <- _]. cbv zeta in H. case_if_in H E; [done|].
  by injection H as <- _.
Qed.

Lemma renew_keeps job now s : media_keeps s (RenewFetch job now s).1.
Proof.
  unfold RenewFetch. case_if_goal Ev; [by apply same_tables_keep|]. destruct (inTenant _ _ s) as [s' r] eqn:Et.
  apply inTenant_cases in Et as [[-> _]|(v & _ & H)]; [by apply same_tables_keep|]. cbn [fst].
  destruct (held_row s job) as [row|] eqn:Eh; [|injection H as <- _; by apply same_tables_keep].
  case_if_in H Ee; injection H as <- _; [|by apply same_tables_keep].
  apply (put_held_keeps s job row); [done|]. apply held_row_Some in Eh as (_ & _ & Hf & _). by apply held_evolves.
Qed.

Lemma complete_ready_keeps job record eventID body outboxID now s :
  media_keeps s (CompleteReady job record eventID body outboxID now s).1.
Proof.
  unfold CompleteReady. case_if_goal Ev; [by apply same_tables_keep|]. destruct (inTenant _ _ s) as [s' r] eqn:Et.
  apply inTenant_cases in Et as [[-> _]|(v & _ & H)]; [by apply same_tables_keep|]. cbn [fst]. unfold complete_ready in H.
  destruct (held_row s job) as [row|] eqn:Eh; [|done]. destruct (media_row s _ _) as [object|]; [|done].
  case_if_in H Er; [|done]. apply result_bind_ok in H as (s1 & H & [= <- _]).
  eapply media_keeps_trans; [|by eapply same_tables_keep, media_event_tables].
  apply (put_held_keeps s job row); [done|]. apply held_row_Some in Eh as (_ & _ & Hf & _). by apply held_evolves.
Qed.

Lemma fail_object_keeps t m s : media_keeps s (fail_object t m s).
Proof.
  unfold fail_object. destruct (media_objects (base s) !! (t, m)) as [st|] eqn:E; [|by apply same_tables_keep].
  case_if_goal Er; [by apply same_tables_keep|]. apply String.eqb_neq in Er. intros (Hk & Hj & Hu). split_and!.
  - split_and!; [|intros t' j row Hrow; cbn; rewrite lookup_insert; case_decide; [done|by eapply Hj]|exact Hu].
    intros k. cbn. rewrite lookup_insert. case_decide as Hkk; [subst k|apply Hk].
    split; [intros _; apply Hk; by rewrite E | done].
  - intros k row Hrow. exists row. split; [done | apply job_evolves_refl].
  - intros t' m' d. unfold media_row. cbn. rewrite lookup_insert. case_decide as Hkk; [|done].
    injection Hkk as <- <-. rewrite E. cbn. by destruct (media_details _ !! _) as [d'|]; [intros [= -> _]|].
Qed.

Lemma complete_failed_keeps job reason eventID body retryAt outboxID now s :
  media_keeps s (CompleteFailed job reason eventID body retryAt outboxID now s).1.
Proof.
  unfold CompleteFailed. case_if_goal Ev; [by apply same_tables_keep|]. case_if_goal Er.
  - destruct (inTenant _ _ s) as [s' r] eqn:Et.
    apply inTenant_cases in Et as [[-> _]|(v & _ & H)]; [by apply same_tables_keep|]. cbn [fst]. unfold retry_fetch in H.
    destruct (held_row s job) as [row|] eqn:Eh; [|done]. injection H as <- _.
    apply (put_held_keeps s job row); [done|]. apply held_row_Some in Eh as (_ & _ & Hf & _). by apply held_evolves.
  - case_if_goal Eb; [by apply same_tables_keep|]. destruct (inTenant _ _ s) as [s' r] eqn:Et.
    apply inTenant_cases in Et as [[-> _]|(v & _ & H)]; [by apply same_tables_keep|]. cbn [fst]. unfold fail_fetch in H.
    destruct (held_row s job) as [row|] eqn:Eh; [|done]. apply result_bind_ok in H as (s1 & H & [= <- _]).
    eapply media_keeps_trans; [|by eapply same_tables_keep, media_event_tables].
    eapply media_keeps_trans; [|apply fail_object_keeps].
    apply (put_held_keeps s job row); [done|]. apply held_row_Some in Eh as (_ & _ & Hf & _). by apply held_evolves.
Qed.

Lemma put_media_keeps t m state d s :
  (forall d', media_row s t m <> Some ("ready", d')) -> media_keeps s (put_media t m state d s).
Proof.
  intros Hnr (Hk & Hj & Hu). split_and!.
  - split_and!; cbn.
    + intros k. rewrite !lookup_insert. by case_decide.
    + intros t' j row Hrow. rewrite lookup_insert. case_decide; [done|by eapply Hj].
    + exact Hu.
  - intros k row Hrow. exists row. split; [done | apply job_evolves_refl].
  - intros t' m' d' Hm. unfold media_row. cbn. rewrite !lookup_insert. case_decide as Hkk; [|done].
    injection Hkk as <- <-. by destruct (Hnr d').
Qed.

Lemma create_keeps record s : media_keeps s (Media_Create record s).1.
Proof.
  unfold Media_Create. case_if_goal Ev; [by apply same_tables_keep|]. destruct (inTenant _ _ s) as [s' r] eqn:Et.
  apply inTenant_cases in Et as [[-> _]|(v & _ & H)]; [by apply same_tables_keep|]. cbn [fst]. unfold create_media in H.
  cbv zeta in H. apply result_bind_ok in H as (_ & _ & H). destruct (media_row s _ _) as [[st d]|] eqn:Em.
  - case_if_in H Er; [|done]. apply result_bind_ok in H as (_ & _ & [= <- _]). apply put_media_keeps.
    rewrite Em. intros d' [= -> _]. done.
  - apply result_bind_ok in H as (_ & _ & H). apply result_bind_ok in H as (_ & _ & [= <- _]). apply put_media_keeps.
    by rewrite Em.
Qed.

Lemma media_step_keeps s s' : media_step s s' -> media_keeps s s'.
Proof.
  intros [now []]; [|apply renew_keeps|apply complete_ready_keeps|apply complete_failed_keeps|apply create_keeps
             |by apply grows_keeps, CommitEnvelope_grows|by apply same_tables_keep].
  unfold ClaimFetch. case_if_goal Ev; [by apply same_tables_keep|]. destruct (inTenant _ _ _) as [s1 r] eqn:Et.
  apply inTenant_cases in Et as [[-> _]|(v & _ & H)]; [by apply same_tables_keep|]. by eapply claim_keeps.
Qed.

Lemma media_step_ok s s' : media_ok s -> media_step s s' -> media_ok s'.
Proof. intros Hok H. by destruct (media_step_keeps _ _ H Hok). Qed.

Lemma media_run_keeps s s' : rtc media_step s s' -> media_keeps s s'.
Proof.
  induction 1 as [s|s1 s2 s3 H _ IH]; [by apply same_tables_keep|].
  eapply media_keeps_trans; [by apply media_step_keeps | done].
Qed.

(** ** Guarantees *)

(** Nothing a worker does under the claim of [job] succeeds or changes anything. *)
Definition refused (job : FetchJob) (s : IngressDb) : Prop :=
  forall now record eventID body outboxID reason retryAt,
    (exists r, RenewFetch job now s = (s, r) /\ r <> Ok true) /\
    (exists e, CompleteReady job record eventID body outboxID now s = (s, Err e)) /\
    (exists e, CompleteFailed job reason eventID body retryAt outboxID now s = (s, Err e)).

Lemma inTenant_fails {S T} t op (s : S) : (forall e, op s <> Ok e) -> exists e, @inTenant S T t op s = (s, Err e).
Proof.
  intros H. unfold inTenant. destruct (t =s ""); [by eexists|]. destruct (op s) as [[s' v]|e] eqn:E; [|by eexists].
  by destruct (H (s', v)).
Qed.

Lemma not_held_refused s job : held_row s job = None -> refused job s.
Proof.
  intros Hn now record eventID body outboxID reason retryAt. split_and!.
  - unfold RenewFetch. case_if_goal Ev; [by eexists|]. unfold inTenant. rewrite Hn.
    destruct (ff_TenantID job =s ""); by eexists.
  - unfold CompleteReady. case_if_goal Ev; [by eexists|]. apply inTenant_fails. intros e. unfold complete_ready. by rewrite Hn.
  - unfold CompleteFailed. case_if_goal Ev; [by eexists|]. case_if_goal Er; [|case_if_goal Eb; [by eexists|]];
      apply inTenant_fails; intros e; unfold retry_fetch, fail_fetch; by rewrite Hn.
Qed.

(** A claim that is over, under a token that was given out, is over for good. *)
Lemma not_held_stays s s' job row :
  media_ok s -> rtc media_step s s' -> fetch_jobs (projected s) !! (ff_TenantID job, ff_JobID job) = Some row ->
  ff_ClaimToken job <= fj_ClaimToken row -> held_row s job = None -> held_row s' job = None.
Proof.
  intros Hok Hrun Hrow Ht Hn. destruct (media_run_keeps _ _ Hrun Hok) as (_ & Hj & _).
  destruct (Hj _ _ Hrow) as (row' & Hrow' & (Hm & Htok & _ & He)).
  destruct (held_row s' job) as [r|] eqn:Eh; [exfalso|done].
  apply held_row_Some in Eh as (Hr & Em & Ef & Eo & Et). rewrite Hrow' in Hr. injection Hr as <-.
  specialize (He ltac:(lia)). unfold held_row in Hn. rewrite Hrow in Hn. cbn [mbind option_bind] in Hn.
  destruct (String.eqb_spec (fj_State row) "fetching") as [Hf|Hf].
  - assert (fj_OwnerID row = Some (ff_OwnerID job)) as Ho by (rewrite <- He; done).
    rewrite <- Hm, Em, String.eqb_refl, Ho in Hn. assert (fj_ClaimToken row = ff_ClaimToken job) as Htk by lia.
    rewrite Htk, Z.eqb_refl, bool_decide_true in Hn by done. done.
  - by subst row'.
Qed.

(** What a successful claim returns and leaves. *)
Lemma ClaimFetch_spec t owner now s s' job :
  ClaimFetch t owner now s = (s', Ok (Some job)) ->
  exists row, fetch_jobs (projected s) !! (t, ff_JobID job) = Some row /\ job_claimable now row = true /\
    ff_TenantID job = t /\ ff_OwnerID job = owner /\ ff_ClaimToken job = fj_ClaimToken row + 1 /\
    ff_AttemptCount job = fj_AttemptCount row + 1 /\
    held_row s' job = Some (with_claim "fetching" (fj_AttemptCount row + 1) (fj_AvailableAt row) (Some owner)
      (fj_ClaimToken row + 1) (Some (now + FetchClaimInterval)) (fj_LastSafeError row) row).
Proof.
  unfold ClaimFetch. case_if_goal Ev; [done|]. intros H%inTenant_ok. unfold claim_fetch in H.
  destruct (fetch_candidate s t now) as [[j row]|] eqn:Ec; [|done].
  apply fetch_candidate_Some in Ec as [Hrow Hc]. apply result_bind_ok in H as (row' & Hr & H).
  unfold claimed_job in Hr. apply result_bind_ok in Hr as (token & Ht & Hr).
  unfold next_token in Ht. case_if_in Ht E; [done|]. injection Ht as <-. case_if_in Hr E2; [done|]. injection Hr as <-.
  destruct (media_row _ _ _) as [object|] eqn:Em; [|done]. cbv zeta in H. case_if_in H Ei; [done|]. injection H as <- <-.
  exists row. cbn [ff_TenantID ff_JobID ff_OwnerID ff_ClaimToken ff_AttemptCount scan_job]. split_and!; try done.
  unfold held_row. cbn. rewrite lookup_insert_eq. cbn. rewrite String.eqb_refl, Z.eqb_refl. cbn.
  by rewrite bool_decide_true.
Qed.

(** ** A claim lasts its minute *)

(** What one step does to a job: nothing, a claim under the next token, the end of the
    claim, or a renewal. *)
Definition job_moves (now : Z) (row row' : FetchJobRow) : Prop :=
  row' = row \/ fj_ClaimToken row' = fj_ClaimToken row + 1 \/ fj_State row' <> "fetching" \/
  fj_ClaimExpiresAt row' = Some (now + FetchClaimInterval).

Definition jobs_move (now : Z) (s s' : IngressDb) : Prop :=
  forall k row, fetch_jobs (projected s) !! k = Some row ->
    exists row', fetch_jobs (projected s') !! k = Some row' /\ job_moves now row row'.

Lemma jobs_same now s s' : fetch_jobs (projected s') = fetch_jobs (projected s) -> jobs_move now s s'.
Proof. intros H k row Hrow. exists row. rewrite H. split; [done | by left]. Qed.

Lemma put_job_moves now s s' job row row' :
  held_row s job = Some row -> job_moves now row row' ->
  fetch_jobs (projected s') = <[(ff_TenantID job, ff_JobID job) := row']> (fetch_jobs (projected s)) -> jobs_move now s s'.
Proof.
  intros (Hrow & _)%held_row_Some Hm Heq k r Hr. rewrite Heq, lookup_insert. case_decide as Hk.
  - subst k. rewrite Hrow in Hr. injection Hr as <-. by exists row'.
  - exists r. split; [done | by left].
Qed.

Lemma media_event_jobs job row ty eventID outboxID body now s s' :
  media_event job row ty eventID outboxID body now s = Ok s' -> fetch_jobs (projected s') = fetch_jobs (projected s).
Proof. intros H%media_event_tables. by injection H. Qed.

Lemma fail_object_jobs t m s : fetch_jobs (projected (fail_object t m s)) = fetch_jobs (projected s).
Proof. unfold fail_object. destruct (media_objects _ !! _); [|done]. by case_if_goal E. Qed.

Lemma claim_moves t owner now s s' out : claim_fetch t owner now s = Ok (s', out) -> jobs_move now s s'.
Proof.
  unfold claim_fetch. destruct (fetch_candidate s t now) as [[j row]|] eqn:Ec; [|intros [= <- _]; by apply jobs_same].
  intros (row' & Hr & H)%result_bind_ok. apply fetch_candidate_Some in Ec as [Hrow _].
  assert (fj_ClaimToken row' = fj_ClaimToken row + 1) as Ht.
  { unfold claimed_job in Hr. apply result_bind_ok in Hr as (token & Ht & Hr).
    unfold next_token in Ht. case_if_in Ht E; [done|]. injection Ht as <-. case_if_in Hr E2; [done|]. by injection Hr as <-. }
  assert (fetch_jobs (projected s') = <[(t, j) := row']> (fetch_jobs (projected s))) as Heq.
  { destruct (media_row _ _ _) as [object|]; [|by injection H as <- _]. cbv zeta in H. case_if_in H E; [done|]. by injection H as <- _. }
  intros k r Hr'. rewrite Heq, lookup_insert. case_decide as Hk.
  - subst k. rewrite Hrow in Hr'. injection Hr' as <-. exists row'. split; [done | by right; left].
  - exists r. split; [done | by left].
Qed.

Lemma held_moves now s job op (s' : IngressDb) (r : result unit) t :
  inTenant t op s = (s', r) ->
  (forall s1 v, op s = Ok (s1, v) -> exists row row', held_row s job = Some row /\ fj_State row' <> "fetching" /\
     fetch_jobs (projected s1) = <[(ff_TenantID job, ff_JobID job) := row']> (fetch_jobs (projected s))) ->
  jobs_move now s s'.
Proof.
  intros [[-> _]|(v & _ & H)]%inTenant_cases Hop; [by apply jobs_same|].
  destruct (Hop _ _ H) as (row & row' & Hh & Hst & Heq). eapply put_job_moves; [done | | done]. by right; right; left.
Qed.

Lemma media_step_moves now s s' : media_ok s -> media_step_at now s s' -> jobs_move now s s'.
Proof.
  intros Hok Hs. revert Hok.
  destruct Hs as [t owner s0|job s0|job record eventID body outboxID s0|job reason eventID body retryAt outboxID s0|record s0|um mc record ids s0|s0 s1 Heq]; intros Hok.
  - unfold ClaimFetch. case_if_goal Ev; [by apply jobs_same|]. destruct (inTenant _ _ _) as [s1 r] eqn:Et.
    apply inTenant_cases in Et as [[-> _]|(v & _ & H)]; [by apply jobs_same | by eapply claim_moves].
  - unfold RenewFetch. case_if_goal Ev; [by apply jobs_same|]. destruct (inTenant _ _ _) as [s1 r] eqn:Et.
    apply inTenant_cases in Et as [[-> _]|(v & _ & H)]; [by apply jobs_same|]. cbn [fst].
    destruct (held_row s0 job) as [row|] eqn:Eh; [|injection H as <- _; by apply jobs_same].
    case_if_in H Ee; injection H as <- _; [|by apply jobs_same]. eapply put_job_moves; [done | | done]. by right; right; right.
  - unfold CompleteReady. case_if_goal Ev; [by apply jobs_same|]. destruct (inTenant _ _ _) as [s1 r] eqn:Et.
    apply (held_moves _ _ job _ _ _ _ Et). intros s2 v H. unfold complete_ready in H.
    destruct (held_row s0 job) as [row|] eqn:Eh; [|done]. destruct (media_row _ _ _) as [object|]; [|done]. case_if_in H Er; [|done].
    apply result_bind_ok in H as (s3 & H & [= <- _]). exists row. eexists. split; [done|]. split; [|by rewrite (media_event_jobs _ _ _ _ _ _ _ _ _ H)]. done.
  - unfold CompleteFailed. case_if_goal Ev; [by apply jobs_same|]. case_if_goal Er.
    + destruct (inTenant _ _ _) as [s1 r] eqn:Et. apply (held_moves _ _ job _ _ _ _ Et). intros s2 v H. unfold retry_fetch in H.
      destruct (held_row s0 job) as [row|] eqn:Eh; [|done]. injection H as <- _. exists row. eexists. split; [done|]. split; [|reflexivity]. done.
    + case_if_goal Eb; [by apply jobs_same|]. destruct (inTenant _ _ _) as [s1 r] eqn:Et.
      apply (held_moves _ _ job _ _ _ _ Et). intros s2 v H. unfold fail_fetch in H.
      destruct (held_row s0 job) as [row|] eqn:Eh; [|done]. apply result_bind_ok in H as (s3 & H & [= <- _]).
      exists row. eexists. split; [done|]. split; [|by rewrite (media_event_jobs _ _ _ _ _ _ _ _ _ H), fail_object_jobs]. done.
  - apply jobs_same. unfold Media_Create. case_if_goal Ev; [done|]. destruct (inTenant _ _ _) as [s1 r] eqn:Et.
    apply inTenant_cases in Et as [[-> _]|(v & _ & H)]; [done|]. cbn [fst]. unfold create_media in H.
    cbv zeta in H. apply result_bind_ok in H as (_ & _ & H). destruct (media_row _ _ _) as [[st d]|].
    + case_if_in H Er; [|done]. by apply result_bind_ok in H as (_ & _ & [= <- _]).
    + apply result_bind_ok in H as (_ & _ & H). by apply result_bind_ok in H as (_ & _ & [= <- _]).
  - destruct (CommitEnvelope_grows um mc record ids now s0 Hok) as (_ & _ & _ & Hsub). intros k row Hrow. exists row.
    split; [by eapply lookup_weaken | by left].
  - apply jobs_same. by injection Heq.
Qed.

(** The token of [job] was given out, and while [job] holds its claim it does not expire
    before [expiry]. *)
Definition held_until (expiry : Z) (job : FetchJob) (s : IngressDb) : Prop :=
  (exists row, fetch_jobs (projected s) !! (ff_TenantID job, ff_JobID job) = Some row /\ ff_ClaimToken job <= fj_ClaimToken row) /\
  (forall row, held_row s job = Some row -> exists e, fj_ClaimExpiresAt row = Some e /\ expiry <= e).

Lemma held_until_run since job now s now' s' :
  media_run now s now' s' -> media_ok s -> since <= now -> held_until (since + FetchClaimInterval) job s ->
  held_until (since + FetchClaimInterval) job s'.
Proof.
  induction 1 as [|now s now1 s1 now2 s2 Hle Hs _ IH]; [done|]. intros Hok Hsince [(row & Hrow & Ht) Hheld].
  pose proof (media_step_moves _ _ _ Hok Hs) as Hmove. apply IH; [by apply (media_step_ok s); [|exists now1] | lia|].
  destruct (Hmove _ _ Hrow) as (row1 & Hrow1 & Hm). destruct (media_step_keeps s s1 (ex_intro _ now1 Hs) Hok) as (_ & Hj & _).
  destruct (Hj _ _ Hrow) as (row1' & Hrow1' & _ & Htok & _). rewrite Hrow1 in Hrow1'. injection Hrow1' as <-.
  split; [exists row1; split; [done | lia]|]. intros r Hr. apply held_row_Some in Hr as Hrs. destruct Hrs as (Hr1 & Hmid & Hf & Ho & Htk).
  rewrite Hrow1 in Hr1. injection Hr1 as <-. destruct Hm as [->|[Hm|[Hm|Hm]]]; [|lia|done|].
  - apply Hheld. unfold held_row. rewrite Hrow. cbn [mbind option_bind]. rewrite Hmid, Hf, Ho, Htk, String.eqb_refl, Z.eqb_refl, bool_decide_true by done. done.
  - exists (now1 + FetchClaimInterval). split; [done | lia].
Qed.

(** While [job] holds its claim, nobody claims the job before [expiry]. *)
Definition excludes_until (expiry : Z) (job : FetchJob) (s : IngressDb) : Prop :=
  held_row s job <> None -> forall owner now s' job', now < expiry ->
    ClaimFetch (ff_TenantID job) owner now s = (s', Ok (Some job')) -> ff_JobID job' <> ff_JobID job.

Lemma held_excludes expiry job s : held_until expiry job s -> excludes_until expiry job s.
Proof.
  intros [_ Hheld] Hh owner now s' job' Hnow H Hsame. destruct (held_row s job) as [row|] eqn:Eh; [|done].
  destruct (Hheld _ eq_refl) as (e & He & Hle). apply held_row_Some in Eh as (Hrow & _ & Hf & Ho & _).
  apply ClaimFetch_spec in H as (row' & Hrow' & Hc & _). rewrite Hsame, Hrow in Hrow'. injection Hrow' as <-.
  unfold job_claimable in Hc. rewrite Hf, Ho, He in Hc. cbn in Hc. reflect_bools. lia.
Qed.

Lemma renewed_until job now s s' :
  RenewFetch job now s = (s', Ok true) -> held_until (now + FetchClaimInterval) job s' /\ held_row s' job <> None.
Proof.
  unfold RenewFetch. case_if_goal Ev; [done|]. intros H%inTenant_ok. destruct (held_row s job) as [row|] eqn:Eh; [|done].
  case_if_in H Ee; [|done]. injection H as <-. apply held_row_Some in Eh as (Hrow & Hmid & Hf & Ho & Htk).
  assert (held_row (put_job job (with_claim (fj_State row) (fj_AttemptCount row) (fj_AvailableAt row) (fj_OwnerID row)
    (fj_ClaimToken row) (Some (now + FetchClaimInterval)) (fj_LastSafeError row) row) s) job =
    Some (with_claim (fj_State row) (fj_AttemptCount row) (fj_AvailableAt row) (fj_OwnerID row)
    (fj_ClaimToken row) (Some (now + FetchClaimInterval)) (fj_LastSafeError row) row)) as Hh.
  { unfold held_row. cbn. rewrite lookup_insert_eq. cbn. rewrite Hmid, Hf, Ho, Htk, String.eqb_refl, Z.eqb_refl, bool_decide_true by done. done. }
  rewrite Hh. split; [|done]. split; [|intros r; rewrite Hh; intros [= <-]; by eexists].
  apply held_row_Some in Hh as (Hr & _ & _ & _ & Ht). eexists. split; [exact Hr | lia].
Qed.

Lemma claimed_until t owner now s s' job :
  ClaimFetch t owner now s = (s', Ok (Some job)) -> held_until (now + FetchClaimInterval) job s' /\ held_row s' job <> None.
Proof.
  intros (row & _ & _ & _ & _ & Htok & _ & Hheld)%ClaimFetch_spec. rewrite Hheld. split; [|done]. apply held_row_Some in Hheld as Hr.
  destruct Hr as (Hr & _ & _ & _ & Ht). split; [eexists; split; [exact Hr | lia]|]. intros r. rewrite Hheld. intros [= <-]. by eexists.
Qed.

(** C19. A claim of a fetch job excludes other workers for its minute, and every renewal
    that is granted for a minute more: whatever other workers, imports and commits do
    meanwhile, under clocks that do not go back, nobody else gets the job before then
    as long as the claim is not ended by its holder. Every later claim of the job
    carries a newer token and ends the earlier one; and a worker whose claim has ended
    can never renew, complete, retry or fail the job again. *)
Theorem fetch_claims_fenced (t owner : string) (now : Z) (s0 s1 : IngressDb) (job : FetchJob)
  (Hok : media_ok s0)
  (Hclaim : ClaimFetch t owner now s0 = (s1, Ok (Some job))) :
  (held_row s1 job <> None /\ forall now2 s2, media_run now s1 now2 s2 -> excludes_until (now + FetchClaimInterval) job s2) /\
  (forall now2 s2 s2' now3 s3, media_run now s1 now2 s2 -> RenewFetch job now2 s2 = (s2', Ok true) -> media_run now2 s2' now3 s3 ->
     held_row s2' job <> None /\ excludes_until (now2 + FetchClaimInterval) job s3) /\
  (forall s2, rtc media_step s1 s2 ->
   (forall owner' now' s3 job', ClaimFetch t owner' now' s2 = (s3, Ok (Some job')) -> ff_JobID job' = ff_JobID job ->
     ff_ClaimToken job < ff_ClaimToken job' /\ held_row s3 job = None) /\
   (held_row s2 job = None -> forall s3, rtc media_step s2 s3 -> refused job s3)).
Proof.
  assert (Hok1 : media_ok s1).
  { replace s1 with (ClaimFetch t owner now s0).1 by (by rewrite Hclaim). by apply (media_step_ok s0); [|eexists; constructor]. }
  destruct (claimed_until _ _ _ _ _ _ Hclaim) as [Huntil Hheld1].
  apply ClaimFetch_spec in Hclaim as (row & _ & _ & Ht & _ & Htok & _ & Hheld). apply held_row_Some in Hheld as (Hrow & _).
  rewrite Ht in Hrow. split_and!; [done|..].
  - intros now2 s2 Hrun. eapply held_excludes, held_until_run; [done.. | lia | done].
  - intros now2 s2 s2' now3 s3 Hrun Hrenew Hrun3. destruct (renewed_until _ _ _ _ Hrenew) as [Hu Hh]. split; [done|].
    eapply held_excludes, held_until_run; [done | | lia | done].
    destruct (media_run_keeps _ _ (media_run_steps _ _ _ _ Hrun) Hok1) as (Hok2 & _). apply (media_step_ok s2); [done|].
    exists now2. replace s2' with (RenewFetch job now2 s2).1 by (by rewrite Hrenew). constructor.
  - intros s2 Hrun. destruct (media_run_keeps _ _ Hrun Hok1) as (Hok2 & Hjobs & _). split.
    + intros owner' now' s3 job' H Hsame. apply ClaimFetch_spec in H as (row2 & Hrow2 & _ & Ht2 & _ & Htok2 & _ & Hheld2).
      rewrite Hsame in Hrow2. destruct (Hjobs _ _ Hrow) as (row2' & Hrow2' & _ & Hle & _).
      rewrite Hrow2' in Hrow2. injection Hrow2 as <-. cbn in Hle. split; [lia|].
      apply held_row_Some in Hheld2 as (Hrow3 & _ & _ & _ & Htok3). rewrite Ht2, Hsame in Hrow3.
      destruct (held_row s3 job) as [r|] eqn:E; [|done]. apply held_row_Some in E as (Hr & _ & _ & _ & Htok').
      rewrite Ht, Hrow3 in Hr. injection Hr as <-. lia.
    + intros Hn s3 Hrun3. apply not_held_refused. destruct (Hjobs _ _ Hrow) as (row2 & Hrow2 & _ & Hle & _).
      rewrite <- Ht in Hrow2. apply (not_held_stays s2 s3 job row2); try done. cbn in Hle. lia.
Qed.

(** A settled job is settled for good. *)
Lemma settled_stays s s' t j row :
  media_ok s -> rtc media_step s s' -> fetch_jobs (projected s) !! (t, j) = Some row -> settled row ->
  fetch_jobs (projected s') !! (t, j) = Some row /\
  (forall job, ff_TenantID job = t -> ff_JobID job = j -> refused job s') /\
  (forall owner now s'' job, ClaimFetch t owner now s' = (s'', Ok (Some job)) -> ff_JobID job <> j).
Proof.
  intros Hok Hrun Hrow Hs. destruct (media_run_keeps _ _ Hrun Hok) as (_ & Hj & _).
  destruct (Hj _ _ Hrow) as (row' & Hrow' & _ & _ & Heq & _). rewrite (Heq Hs) in Hrow'. clear row' Heq.
  split_and!; [done| |].
  - intros job <- <-. apply not_held_refused. unfold held_row. rewrite Hrow'. cbn [mbind option_bind].
    rewrite (settled_not_fetching row Hs), andb_false_r. done.
  - intros owner now s'' job H <-. apply ClaimFetch_spec in H as (row2 & Hrow2 & Hc & _). rewrite Hrow' in Hrow2.
    injection Hrow2 as <-. unfold job_claimable in Hc. destruct Hs as [-> | ->] in Hc; done.
Qed.

(** The event of a completion, in the outbox of both destinations. *)
Definition announced (s : IngressDb) (t eventID outboxID eventType mediaID : string) (body : bytes) : Prop :=
  (exists event, events (base s) !! (t, eventID) = Some event /\ er_Type event = eventType /\
     er_AggregateID event = mediaID /\ er_Body event = body) /\
  (forall destination, destination ∈ ["webhook"; "kafka"] ->
     exists row, outbox (base s) !! (t, outboxID +:+ ":" +:+ destination) = Some row /\
       ob_EventID row = eventID /\ ob_Destination row = destination /\ ob_PublishedAt row = None).

Lemma media_event_announced job row ty eventID outboxID body now s s' :
  media_event job row ty eventID outboxID body now s = Ok s' ->
  announced s' (ff_TenantID job) eventID outboxID ty (fj_MediaID row) body.
Proof.
  unfold media_event. intros (db1 & [_ ->]%insertGatewayEvent_ok & H)%result_bind_ok.
  apply result_bind_ok in H as (db2 & H & [= <-]). apply insertEventOutbox_ok in H as (_ & _ & _ & ->).
  assert (Hne : (ff_TenantID job, outboxID +:+ ":kafka") <> (ff_TenantID job, outboxID +:+ ":webhook")).
  { by intros [= H%(inj (String.append outboxID))]. }
  unfold announced. cbn [base set_base events outbox set_outbox set_events]. split.
  - eexists. rewrite lookup_insert_eq. by split_and!.
  - intros d Hd. repeat (apply elem_of_cons in Hd as [->|Hd]); [..|by apply elem_of_nil in Hd].
    + eexists. rewrite lookup_insert_ne, lookup_insert_eq by exact Hne. by split_and!.
    + eexists. rewrite lookup_insert_eq. by split_and!.
Qed.

(** The job is over: no worker gets anything done under any claim of it, and it is
    never claimed again. *)
Definition job_over (s : IngressDb) (t j : string) : Prop :=
  (forall job, ff_TenantID job = t -> ff_JobID job = j -> refused job s) /\
  (forall owner now s' job, ClaimFetch t owner now s = (s', Ok (Some job)) -> ff_JobID job <> j).

Lemma valid_completion job : validFetchCompletion job = true -> ff_TenantID job <> "" /\ ff_MediaID job <> "".
Proof. unfold validFetchCompletion. intros H. reflect_bools. done. Qed.

Lemma fetch_failed_spec s t m :
  fetch_failed s t m = true <->
  exists j row, fetch_jobs (projected s) !! (t, j) = Some row /\ fj_MediaID row = m /\ fj_State row = "failed".
Proof.
  unfold fetch_failed. rewrite existsb_exists. split.
  - intros ([[t' j] row] & Hin%list_elem_of_In%elem_of_map_to_list & Hb). cbn in Hb. reflect_bools. subst. eauto.
  - intros (j & row & Hrow & <- & Hf). exists ((t, j), row).
    rewrite <- list_elem_of_In, elem_of_map_to_list. cbn. by rewrite Hf, !String.eqb_refl.
Qed.

Lemma Media_Get_row s t m :
  t <> "" -> m <> "" ->
  Media_Get t m s = (s, match media_row s t m with
    | Some (state, d) => if fetch_failed s t m then Err [ErrMediaNotFound] else Ok (scan_media t m state d)
    | None => Err [ErrMediaNotFound]
    end).
Proof.
  intros Ht%String.eqb_neq Hm%String.eqb_neq. unfold Media_Get, inTenant. rewrite Ht, Hm. cbn [orb].
  destruct (media_row s t m) as [[st d]|]; [|done]. by destruct (fetch_failed s t m).
Qed.

(** Once a fetch job has been completed as ready, its event is in the outbox of
    both destinations, and from then on, whatever workers, imports and commits do,
    the job is over and reading the media gives the object that was completed: the
    same key, size, digest and type. *)
Theorem completed_media_final (job : FetchJob) (record : MediaRecord) (eventID outboxID : string) (body : bytes) (now : Z)
  (s0 s1 s2 : IngressDb)
  (Hok : media_ok s0)
  (Hcomplete : CompleteReady job record eventID body outboxID now s0 = (s1, Ok tt))
  (Hrun : rtc media_step s1 s2) :
  announced s1 (ff_TenantID job) eventID outboxID "media.ready" (ff_MediaID job) body /\
  job_over s2 (ff_TenantID job) (ff_JobID job) /\
  exists r, Media_Get (ff_TenantID job) (ff_MediaID job) s2 = (s2, Ok r) /\ mr_State r = "ready" /\
    mr_ObjectKey r = mr_ObjectKey record /\ mr_Size r = mr_Size record /\ mr_SHA256 r = mr_SHA256 record /\
    mr_MIMEType r = mr_MIMEType record.
Proof.
  assert (Hok1 : media_ok s1).
  { replace s1 with (CompleteReady job record eventID body outboxID now s0).1 by (by rewrite Hcomplete).
    by apply (media_step_ok s0); [|eexists; constructor]. }
  unfold CompleteReady in Hcomplete. case_if_in Hcomplete Ev; [done|]. reflect_bools.
  match goal with Hv : validFetchCompletion job = true |- _ => apply valid_completion in Hv as [Ht Hm] end.
  apply inTenant_ok in Hcomplete. unfold complete_ready in Hcomplete.
  destruct (held_row s0 job) as [row|] eqn:Eh; [|done]. apply held_row_Some in Eh as (_ & Hmedia & _).
  destruct (media_row s0 _ _) as [[st d]|] eqn:Eo; [|done]. case_if_in Hcomplete Er; [|done].
  apply result_bind_ok in Hcomplete as (s1' & He & [= ->]).
  pose proof (media_event_announced _ _ _ _ _ _ _ _ _ He) as Ha. rewrite Hmedia in Ha. split; [done|].
  apply media_event_tables in He. unfold media_tables in He. injection He as Hobj Hdet Hjobs.
  unfold ready_as in Er. cbn [fst snd] in Er. reflect_bools. subst st.
  assert (Hrow1 : fetch_jobs (projected s1) !! (ff_TenantID job, ff_JobID job) = Some (settled_row "ready" "" row)).
  { rewrite Hjobs. cbn. apply lookup_insert_eq. }
  assert (Hmr1 : media_row s1 (ff_TenantID job) (ff_MediaID job) = Some ("ready", d)).
  { unfold media_row in *. rewrite Hobj, Hdet. exact Eo. }
  destruct (settled_stays s1 s2 _ _ _ Hok1 Hrun Hrow1 ltac:(by left)) as (Hrow2 & Hover). split; [exact Hover|].
  destruct (media_run_keeps _ _ Hrun Hok1) as ((_ & _ & Hu) & _ & Hready). rewrite Media_Get_row, (Hready _ _ _ Hmr1) by done.
  assert (Hnf : fetch_failed s2 (ff_TenantID job) (ff_MediaID job) = false).
  { apply not_true_is_false. intros (j & r & Hr & Hrm & Hrf)%fetch_failed_spec.
    assert (j = ff_JobID job) as -> by (eapply Hu; [exact Hr|exact Hrow2|]; cbn; congruence).
    rewrite Hrow2 in Hr. injection Hr as <-. done. }
  rewrite Hnf. eexists. split; [done|]. cbn. by repeat match goal with E : _ = Some _ |- _ => rewrite E; clear E end.
Qed.

(** Once a fetch job has failed for good, its event is in the outbox and the
    job is over; and from then on reading the metadata of the media reports that
    there is none, although the object exists, and although the event names the
    path of that metadata. *)
Theorem failed_media_hidden (job : FetchJob) (reason eventID outboxID : string) (body : bytes) (now : Z)
  (s0 s1 s2 : IngressDb)
  (Hok : media_ok s0)
  (Hcomplete : CompleteFailed job reason eventID body time_zero outboxID now s0 = (s1, Ok tt))
  (Hrun : rtc media_step s1 s2) :
  announced s1 (ff_TenantID job) eventID outboxID "media.failed" (ff_MediaID job) body /\
  job_over s2 (ff_TenantID job) (ff_JobID job) /\
  is_Some (media_row s2 (ff_TenantID job) (ff_MediaID job)) /\
  Media_Get (ff_TenantID job) (ff_MediaID job) s2 = (s2, Err [ErrMediaNotFound]).
Proof.
  assert (Hok1 : media_ok s1).
  { replace s1 with (CompleteFailed job reason eventID body time_zero outboxID now s0).1 by (by rewrite Hcomplete).
    by apply (media_step_ok s0); [|eexists; constructor]. }
  unfold CompleteFailed in Hcomplete. case_if_in Hcomplete Ev; [done|]. reflect_bools.
  match goal with Hv : validFetchCompletion job = true |- _ => apply valid_completion in Hv as [Ht Hm] end.
  change (time_IsZero time_zero) with true in Hcomplete. cbn [negb] in Hcomplete.
  case_if_in Hcomplete Eb; [done|]. apply inTenant_ok in Hcomplete. unfold fail_fetch in Hcomplete.
  destruct (held_row s0 job) as [row|] eqn:Eh; [|done]. apply held_row_Some in Eh as (_ & Hmedia & _).
  apply result_bind_ok in Hcomplete as (s1' & He & [= ->]).
  pose proof (media_event_announced _ _ _ _ _ _ _ _ _ He) as Ha. rewrite Hmedia in Ha. split; [done|].
  apply media_event_tables in He. unfold media_tables in He. injection He as _ _ Hjobs.
  assert (Hrow1 : fetch_jobs (projected s1) !! (ff_TenantID job, ff_JobID job) = Some (settled_row "failed" reason row)).
  { rewrite Hjobs. unfold fail_object. destruct (media_objects _ !! _) as [st|]; [case_if_goal Ex|]; cbn; apply lookup_insert_eq. }
  destruct (settled_stays s1 s2 _ _ _ Hok1 Hrun Hrow1 ltac:(by right)) as (Hrow2 & Hover). split; [exact Hover|].
  destruct (media_run_keeps _ _ Hrun Hok1) as ((Hk & Hj & _) & _ & _).
  assert (Hobj : is_Some (media_row s2 (ff_TenantID job) (ff_MediaID job))).
  { destruct (Hj _ _ _ Hrow2) as [st Hst]. cbn in Hst. rewrite Hmedia in Hst.
    destruct (proj1 (Hk (ff_TenantID job, ff_MediaID job)) ltac:(by rewrite Hst)) as [d Hd].
    unfold media_row. rewrite Hst, Hd. by eexists. }
  split; [done|]. rewrite Media_Get_row by done. destruct Hobj as [[st d] ->].
  rewrite (proj2 (fetch_failed_spec s2 _ _)); [done|]. exists (ff_JobID job), (settled_row "failed" reason row).
  by split_and!.
Qed.

(** ** A concrete job *)

Definition example_details : MediaDetails := {|
  mo_MessageID := None; mo_MIMEType := "image/png"; mo_DisplayFilename := "image.png"; mo_ByteSize := 0; mo_ObjectKey := None;
  mo_SHA256 := None; mo_Width := None; mo_Height := None; mo_CreatedAt := 0 |}.

Definition example_job_row : FetchJobRow := {|
  fj_MediaID := "media-1"; fj_ConnectionID := "c1"; fj_ProviderMessageID := "p1"; fj_Locator := "l1"; fj_MIMEType := "image/png";
  fj_DeclaredSize := 3; fj_DisplayFilename := "image.png"; fj_Key := None; fj_ThumbnailKey := None; fj_IdentityDigest := None;
  fj_State := "pending"; fj_AttemptCount := 0; fj_AvailableAt := 0; fj_OwnerID := None; fj_ClaimToken := 0;
  fj_ClaimExpiresAt := None; fj_LastSafeError := "" |}.

Definition pending_media : IngressDb :=
  set_fetch_jobs {[("t1", "job-1") := example_job_row]} (put_media "t1" "media-1" "pending" example_details leased_ingress).

Definition example_claim : FetchJob :=
  scan_job "t1" "job-1" (with_claim "fetching" 1 0 (Some "worker-a") 1 (Some FetchClaimInterval) "" example_job_row)
    ("pending", example_details).

Definition claimed_media : IngressDb := (ClaimFetch "t1" "worker-a" 0 pending_media).1.

Definition example_media_record : MediaRecord := {|
  mr_ID := "media-1"; mr_TenantID := "t1"; mr_ObjectKey := "objects/a"; mr_MIMEType := "image/png"; mr_Size := 3;
  mr_SHA256 := sha256 (bytes_of "abc"); mr_Width := 1; mr_Height := 1; mr_DisplayFilename := "image.png"; mr_State := "ready";
  mr_CreatedAt := 0 |}.

Definition imported_media : IngressDb := (Media_Create example_media_record claimed_media).1.

Lemma example_claimed : ClaimFetch "t1" "worker-a" 0 pending_media = (claimed_media, Ok (Some example_claim)).
Proof. apply pair_result. vm_compute. reflexivity. Qed.

Lemma pending_media_ok : media_ok pending_media.
Proof.
  assert (media_objects (base pending_media) = {[("t1", "media-1") := "pending"]}) as Hobj by (vm_compute; reflexivity).
  assert (media_details (projected pending_media) = {[("t1", "media-1") := example_details]}) as Hdet by (vm_compute; reflexivity).
  unfold media_ok. rewrite Hobj, Hdet. change (fetch_jobs (projected pending_media)) with ({[("t1", "job-1") := example_job_row]} : gmap (string * string) FetchJobRow).
  split_and!.
  - intros k. rewrite !lookup_singleton. by case_decide.
  - intros t j row [[= <- <-] <-]%lookup_singleton_Some. cbn. by rewrite lookup_singleton_eq.
  - intros t j j' row row' [[= <- <-] _]%lookup_singleton_Some [[= <-] _]%lookup_singleton_Some. done.
Qed.

Lemma fetch_claims_fenced_witness :
  exists s3 job', ClaimFetch "t1" "worker-b" (61 * Second) claimed_media = (s3, Ok (Some job')) /\
    ff_JobID job' = ff_JobID example_claim /\ ff_ClaimToken example_claim < ff_ClaimToken job' /\ held_row s3 example_claim = None.
Proof.
  set (again := scan_job "t1" "job-1" (with_claim "fetching" 2 0 (Some "worker-b") 2 (Some (121 * Second)) "" example_job_row)
    ("pending", example_details)).
  assert ((ClaimFetch "t1" "worker-b" (61 * Second) claimed_media).2 = Ok (Some again)) as H by (vm_compute; reflexivity).
  destruct (ClaimFetch "t1" "worker-b" (61 * Second) claimed_media) as [s3 r] eqn:E. cbn in H. subst r.
  exists s3, again. split; [reflexivity|]. split; [reflexivity|].
  exact (proj1 (proj2 (proj2 (fetch_claims_fenced "t1" "worker-a" 0 pending_media claimed_media example_claim pending_media_ok
    example_claimed)) claimed_media (rtc_refl _ _)) "worker-b" (61 * Second) s3 again E eq_refl).
Defined.

Lemma claimed_media_ok : media_ok claimed_media.
Proof. apply (media_step_ok pending_media); [apply pending_media_ok|]. eexists. exact (step_claim _ _ _ _). Qed.

Lemma imported_media_ok : media_ok imported_media.
Proof. apply (media_step_ok claimed_media); [apply claimed_media_ok|]. exists 0. exact (step_create _ _ _). Qed.

Lemma completed_media_final_witness :
  exists s1 r, CompleteReady example_claim example_media_record "ev-1" (bytes_of "{}") "ob-1" Second imported_media = (s1, Ok tt) /\
    Media_Get "t1" "media-1" s1 = (s1, Ok r) /\ mr_ObjectKey r = mr_ObjectKey example_media_record /\ mr_SHA256 r = mr_SHA256 example_media_record.
Proof.
  assert ((CompleteReady example_claim example_media_record "ev-1" (bytes_of "{}") "ob-1" Second imported_media).2 = Ok tt) as H
    by (vm_compute; reflexivity).
  destruct (CompleteReady _ _ _ _ _ _ imported_media) as [s1 r1] eqn:E. cbn in H. subst r1.
  destruct (completed_media_final example_claim example_media_record "ev-1" "ob-1" (bytes_of "{}") Second imported_media s1 s1
    imported_media_ok E (rtc_refl _ _)) as (_ & _ & r & Hget & _ & Hkey & _ & Hsha & _).
  exists s1, r. split; [reflexivity|]. split; [exact Hget|]. split; [exact Hkey|exact Hsha].
Defined.

Lemma failed_media_hidden_witness :
  exists s1, CompleteFailed example_claim "fetch_failed" "ev-1" (bytes_of "{}") time_zero "ob-1" Second claimed_media = (s1, Ok tt) /\
    is_Some (media_row s1 "t1" "media-1") /\ Media_Get "t1" "media-1" s1 = (s1, Err [ErrMediaNotFound]).
Proof.
  assert ((CompleteFailed example_claim "fetch_failed" "ev-1" (bytes_of "{}") time_zero "ob-1" Second claimed_media).2 = Ok tt) as H
    by (vm_compute; reflexivity).
  destruct (CompleteFailed _ _ _ _ _ _ _ claimed_media) as [s1 r1] eqn:E. cbn in H. subst r1.
  destruct (failed_media_hidden example_claim "fetch_failed" "ev-1" "ob-1" (bytes_of "{}") Second claimed_media s1 s1
    claimed_media_ok E (rtc_refl _ _)) as (_ & _ & Hrow & Hget).
  exists s1. split; [reflexivity|]. split; [exact Hrow|exact Hget].
Defined.
