(* ===== verification/MediaGuard.v ===== *)
(** * The address guard of media downloads (internal/gateway/media/ssrf.go)

    A provider URL is fetched only over https from an allowed host, and only if
    every address the host resolves to is public; the connection is then made to
    the address that was checked.  [net/netip] is modelled as far as the guard uses
    it; [url.Parse], [net.ParseIP] and the resolver are arguments. *)

From S2P Require Import Prelude GoText.

(** ** net/netip *)

(** An address is its 32 or 128 bits. *)
Inductive Addr := V4 (bits : Z) | V6 (bits : Z).

#[export] Instance Addr_eq_dec : EqDecision Addr.
Proof. solve_decision. Defined.

(** [netip.AddrFromSlice]. *)
Definition AddrFromSlice (ip : bytes) : option Addr :=
  if blen ip =? 4 then Some (V4 (be_decode 0 ip))
  else if blen ip =? 16 then Some (V6 (be_decode 0 ip))
  else None.

Definition Is4In6 (bits : Z) : bool := Z.shiftr bits 32 =? 0xffff.

Definition Unmap (a : Addr) : Addr :=
  match a with
  | V4 bits => V4 bits
  | V6 bits => if Is4In6 bits then V4 (bits mod 2 ^ 32) else V6 bits
  end.

(** The bits of an address written in groups. *)
Definition ip4 (a b c d : Z) : Z := be_decode 0 (byte_of_Z <$> [a; b; c; d]).
Definition ip6 (groups : list Z) : Z :=
  foldl (fun acc group => acc * 65536 + group) 0 (groups ++ replicate (8 - length groups) 0).

(** A prefix is an address and a number of leading bits; [Prefix.Contains] compares
    the leading bits with those of an address of the same family. *)
Inductive Prefix := P4 (base len : Z) | P6 (base len : Z).

Definition Contains (p : Prefix) (a : Addr) : bool :=
  match p, a with
  | P4 base n, V4 bits => Z.shiftr bits (32 - n) =? Z.shiftr base (32 - n)
  | P6 base n, V6 bits => Z.shiftr bits (128 - n) =? Z.shiftr base (128 - n)
  | _, _ => false
  end.

Definition IsLoopback (a : Addr) : bool :=
  match a with V4 bits => Z.shiftr bits 24 =? 127 | V6 bits => bits =? 1 end.
Definition IsMulticast (a : Addr) : bool :=
  match a with V4 bits => Z.land (Z.shiftr bits 24) 0xf0 =? 0xe0 | V6 bits => Z.shiftr bits 120 =? 0xff end.
Definition IsLinkLocalUnicast (a : Addr) : bool :=
  match a with
  | V4 bits => (Z.shiftr bits 24 =? 169) && (Z.land (Z.shiftr bits 16) 0xff =? 254)
  | V6 bits => Z.land (Z.shiftr bits 112) 0xffc0 =? 0xfe80
  end.
Definition IsUnspecified (a : Addr) : bool := match a with V4 bits => bits =? 0 | V6 bits => bits =? 0 end.
Definition IsPrivate (a : Addr) : bool :=
  match a with
  | V4 bits =>
    (Z.shiftr bits 24 =? 10) ||
    ((Z.shiftr bits 24 =? 172) && (Z.land (Z.land (Z.shiftr bits 16) 0xff) 0xf0 =? 16)) ||
    ((Z.shiftr bits 24 =? 192) && (Z.land (Z.shiftr bits 16) 0xff =? 168))
  | V6 bits => Z.land (Z.shiftr bits 120) 0xfe =? 0xfc
  end.
Definition IsGlobalUnicast (a : Addr) : bool :=
  negb (match a with V4 bits => (bits =? 0) || (bits =? 0xffffffff) | V6 _ => false end) &&
  negb (match a with V4 _ => false | V6 bits => bits =? 0 end) &&
  negb (IsLoopback a) && negb (IsMulticast a) && negb (IsLinkLocalUnicast a).

(** ** The guard *)

Definition deniedProviderPrefixes : list Prefix :=
  [P4 (ip4 0 0 0 0) 8; P4 (ip4 100 64 0 0) 10; P4 (ip4 192 0 0 0) 24; P4 (ip4 192 0 2 0) 24; P4 (ip4 198 18 0 0) 15;
   P4 (ip4 198 51 100 0) 24; P4 (ip4 203 0 113 0) 24; P4 (ip4 224 0 0 0) 4; P4 (ip4 240 0 0 0) 4;
   P6 (ip6 [0x64; 0xff9b]) 96; P6 (ip6 [0x64; 0xff9b; 1]) 48; P6 (ip6 [0x2001]) 32; P6 (ip6 [0x2002]) 16;
   P6 (ip6 [0x2001; 0xdb8]) 32; P6 (ip6 [0x2001; 0x10]) 28; P6 (ip6 [0x2001; 2]) 48; P6 (ip6 [0xff00]) 8].

Definition publicProviderIP (ip : bytes) : bool :=
  match AddrFromSlice ip with
  | None => false
  | Some address =>
    let address := Unmap address in
    if negb (IsGlobalUnicast address) || IsPrivate address || IsLoopback address || IsLinkLocalUnicast address ||
       IsMulticast address || IsUnspecified address
    then false
    else negb (existsb (fun prefix => Contains prefix address) deniedProviderPrefixes)
  end.

(** What the guard reads of a [url.URL]. *)
Record URL := {
  url_Scheme : string;
  url_HasUser : bool;
  url_Fragment : string;
  url_Hostname : string;
  url_Port : string
}.

Record PinnedTarget := { pt_URL : URL; pt_Hostname : string; pt_Port : string; pt_IP : bytes }.

Record URLPolicyConfig := {
  uc_AllowedHosts : list string;
  uc_ConnectTimeout : Z;
  uc_TLSHandshakeTimeout : Z;
  uc_ResponseHeaderTimeout : Z;
  uc_TotalTimeout : Z
}.

Record URLPolicy := {
  up_hosts : gset string;
  up_connectTimeout : Z;
  up_tlsHandshakeTimeout : Z;
  up_responseHeaderTimeout : Z;
  up_totalTimeout : Z
}.

(** [strings.TrimSuffix(s, ".")]. *)
Definition trim_dot (s : string) : string :=
  match rev (bytes_of s) with
  | c :: rest => if byte_val c =? 46 then string_of (rev rest) else s
  | [] => s
  end.

Section Policy.
(** [net/url.Parse], [strings.ToLower], [net.ParseIP] (whether the text is an
    address) and the resolver. *)
Context (Parse : string -> option URL) (ToLower : string -> string) (ParseIP : string -> bool)
  (LookupIPAddr : string -> result (list bytes)).

Fixpoint allowed_hosts (l : list string) (hosts : gset string) : result (gset string) :=
  match l with
  | [] => Ok hosts
  | host :: rest =>
    let host := ToLower (trim_dot (TrimSpace host)) in
    if (host =s "") || ParseIP host || ContainsAny host [47; 58; 64] then Err [ErrUnsafeURL]
    else allowed_hosts rest ({[host]} ∪ hosts)
  end.

Definition default_timeout (value fallback : Z) : Z := if value =? 0 then fallback else value.

Definition NewURLPolicy (config : URLPolicyConfig) : result URLPolicy :=
  if is_nil (uc_AllowedHosts config) then Err [ErrText "provider URL hostname allowlist is required"]
  else
    let! hosts := allowed_hosts (uc_AllowedHosts config) ∅ in
    let connect := default_timeout (uc_ConnectTimeout config) (5 * Second) in
    let handshake := default_timeout (uc_TLSHandshakeTimeout config) (5 * Second) in
    let header := default_timeout (uc_ResponseHeaderTimeout config) (10 * Second) in
    let total := default_timeout (uc_TotalTimeout config) (30 * Second) in
    if (connect <? Millisecond) || (connect >? 30 * Second) || (handshake <? Millisecond) || (handshake >? 30 * Second) ||
       (header <? Millisecond) || (header >? Minute) || (total <? Millisecond) || (total >? 5 * Minute) ||
       (connect >? total) || (handshake >? total) || (header >? total)
    then Err [ErrUnsafeURL]
    else Ok {| up_hosts := hosts; up_connectTimeout := connect; up_tlsHandshakeTimeout := handshake;
               up_responseHeaderTimeout := header; up_totalTimeout := total |}.

(** The first address, when all are public. *)
Fixpoint pin (addresses : list bytes) (pinned : option bytes) : result (option bytes) :=
  match addresses with
  | [] => Ok pinned
  | address :: rest =>
    if negb (publicProviderIP address) then Err [ErrUnsafeURL]
    else pin rest (match pinned with None => Some address | Some ip => Some ip end)
  end.

Definition ValidateAndPin (policy : URLPolicy) (rawURL : string) : result PinnedTarget :=
  match Parse rawURL with
  | None => Err [ErrUnsafeURL]
  | Some parsed =>
    if (url_Scheme parsed <>s "https") || url_HasUser parsed || (url_Fragment parsed <>s "") ||
       (url_Hostname parsed =s "")
    then Err [ErrUnsafeURL]
    else
      let hostname := ToLower (trim_dot (url_Hostname parsed)) in
      if negb (bool_decide (hostname ∈ up_hosts policy)) || ParseIP hostname then Err [ErrUnsafeURL]
      else
        let port := if url_Port parsed =s "" then "443" else url_Port parsed in
        if port <>s "443" then Err [ErrUnsafeURL]
        else match LookupIPAddr hostname with
        | Err _ => Err [ErrUnsafeURL]
        | Ok addresses =>
          if is_nil addresses then Err [ErrUnsafeURL]
          else
            let! pinned := pin addresses None in
            Ok {| pt_URL := parsed; pt_Hostname := hostname; pt_Port := port; pt_IP := default [] pinned |}
        end
  end.
End Policy.

(** What the transport of [Client] dials and checks, whatever address it is asked
    for, and how it treats a redirect. *)
Record ClientConfig := {
  cc_DialIP : bytes;
  cc_DialPort : string;
  cc_ServerName : string;
  cc_Timeout : Z;
  cc_Redirect : error
}.

Definition Client (policy : URLPolicy) (target : PinnedTarget) : ClientConfig := {|
  cc_DialIP := pt_IP target; cc_DialPort := pt_Port target; cc_ServerName := pt_Hostname target;
  cc_Timeout := up_totalTimeout policy; cc_Redirect := [ErrRedirectDenied] |}.

(** ** The blocks that are not public *)

(** Unspecified, private, loopback, link-local, multicast and reserved addresses as
    blocks, with the blocks the guard names. *)
Definition reserved : list Prefix :=
  [P4 (ip4 10 0 0 0) 8; P4 (ip4 127 0 0 0) 8; P4 (ip4 169 254 0 0) 16; P4 (ip4 172 16 0 0) 12; P4 (ip4 192 168 0 0) 16;
   P6 (ip6 []) 128; P6 (ip6 [0; 0; 0; 0; 0; 0; 0; 1]) 128; P6 (ip6 [0xfc00]) 7; P6 (ip6 [0xfe80]) 10] ++
  deniedProviderPrefixes.

Definition in_range (a : Addr) : Prop :=
  match a with V4 bits => 0 <= bits < 2 ^ 32 | V6 bits => 0 <= bits < 2 ^ 128 end.

Lemma be_decode_bound b : 0 <= be_decode 0 b < 256 ^ blen b.
Proof.
  enough (forall acc, 0 <= acc -> acc * 256 ^ blen b <= be_decode acc b < (acc + 1) * 256 ^ blen b) as H
    by (specialize (H 0 ltac:(lia)); lia).
  induction b as [|c b IH]; intros acc Hacc;
    [change (256 ^ blen []) with 1; cbn; lia|]. cbn [be_decode]. pose proof (byte_val_range c).
  specialize (IH (acc * 256 + byte_val c) ltac:(lia)). unfold blen in *. cbn [length].
  rewrite Nat2Z.inj_succ, Z.pow_succ_r by lia. set (n := 256 ^ Z.of_nat (length b)) in *.
  assert (0 < n) by (apply Z.pow_pos_nonneg; lia).
  pose proof (Z.mul_le_mono_nonneg_r (acc * 256) (acc * 256 + byte_val c) n ltac:(lia) ltac:(lia)).
  pose proof (Z.mul_le_mono_nonneg_r (acc * 256 + byte_val c + 1) ((acc + 1) * 256) n ltac:(lia) ltac:(lia)). lia.
Qed.

Lemma AddrFromSlice_range ip a : AddrFromSlice ip = Some a -> in_range (Unmap a).
Proof.
  unfold AddrFromSlice. pose proof (be_decode_bound ip) as Hb.
  destruct (Z.eqb_spec (blen ip) 4) as [H4|]; [intros [= <-]; rewrite H4 in Hb; exact Hb|].
  destruct (Z.eqb_spec (blen ip) 16) as [H16|]; [|done]. intros [= <-]. rewrite H16 in Hb. cbn [Unmap].
  destruct (Is4In6 _); [cbn; apply Z.mod_pos_bound; lia | exact Hb].
Qed.

(** A mask of leading bits compares leading bits. *)
Lemma leading_mask x m k d : 0 <= k <= m -> 0 <= x < 2 ^ m ->
  (Z.land x (Z.shiftl (Z.ones (m - k)) k) =? Z.shiftl d k) = (Z.shiftr x k =? d).
Proof.
  intros Hk Hx. replace (Z.land x (Z.shiftl (Z.ones (m - k)) k)) with (Z.shiftl (Z.shiftr x k) k).
  - apply eq_iff_eq_true. rewrite !Z.eqb_eq, !Z.shiftl_mul_pow2 by lia. split; [|by intros ->].
    apply Z.mul_reg_r. pose proof (Z.pow_pos_nonneg 2 k). lia.
  - apply Z.bits_inj'. intros n Hn. rewrite Z.land_spec, !Z.shiftl_spec by lia.
    destruct (Z_lt_le_dec n k); [by rewrite !(Z.testbit_neg_r _ (n - k)), andb_false_r by lia|].
    rewrite Z.shiftr_spec, Z.sub_add by lia. destruct (Z_lt_le_dec n m).
    + by rewrite Z.ones_spec_low, andb_true_r by lia.
    + rewrite <- (Z.mod_small x (2 ^ m)) by lia. by rewrite Z.mod_pow2_bits_high by lia.
Qed.

(** Leading bits of leading bits. *)
Lemma shiftr_twice bits m n : 0 <= m -> 0 <= n -> Z.shiftr (Z.shiftr bits m) n = Z.shiftr bits (m + n).
Proof. intros. by apply Z.shiftr_shiftr. Qed.

Lemma shiftr_range bits n m : 0 <= n <= m -> 0 <= bits < 2 ^ m -> 0 <= Z.shiftr bits n < 2 ^ (m - n).
Proof.
  intros Hn Hb. rewrite Z.shiftr_div_pow2 by lia. split; [apply Z.div_pos; [lia|apply Z.pow_pos_nonneg; lia]|].
  apply Z.div_lt_upper_bound; [apply Z.pow_pos_nonneg; lia|]. rewrite <- Z.pow_add_r by lia. replace (n + (m - n)) with m by lia. lia.
Qed.

(** Two adjacent groups of bits. *)
Lemma adjacent_groups y a b : 0 <= b < 256 ->
  (Z.shiftr y 8 =? a) && (Z.land y 0xff =? b) = (y =? a * 256 + b).
Proof.
  intros Hb. change 0xff with (Z.ones 8). rewrite Z.land_ones, Z.shiftr_div_pow2 by lia. change (2 ^ 8) with 256.
  apply eq_iff_eq_true. rewrite andb_true_iff, !Z.eqb_eq. pose proof (Z.div_mod y 256 ltac:(lia)).
  split; [lia|]. intros ->. rewrite Z.div_add_l, Z.div_small, (Z.add_comm _ b), Z.mod_add, Z.mod_small by lia. lia.
Qed.

Lemma v4_blocks bits : 0 <= bits < 2 ^ 32 ->
  IsMulticast (V4 bits) = Contains (P4 (ip4 224 0 0 0) 4) (V4 bits) /\
  IsLinkLocalUnicast (V4 bits) = Contains (P4 (ip4 169 254 0 0) 16) (V4 bits) /\
  IsPrivate (V4 bits) = Contains (P4 (ip4 10 0 0 0) 8) (V4 bits) || Contains (P4 (ip4 172 16 0 0) 12) (V4 bits) ||
                        Contains (P4 (ip4 192 168 0 0) 16) (V4 bits).
Proof.
  intros Hb. pose proof (shiftr_range bits 24 32 ltac:(lia) Hb) as H8. pose proof (shiftr_range bits 16 32 ltac:(lia) Hb) as H16.
  assert (E24 : Z.shiftr bits 24 = Z.shiftr (Z.shiftr bits 16) 8) by (by rewrite shiftr_twice).
  split_and!.
  - cbn [IsMulticast Contains]. etransitivity; [exact (leading_mask (Z.shiftr bits 24) 8 4 14 ltac:(lia) H8)|].
    by rewrite shiftr_twice by lia.
  - cbn [IsLinkLocalUnicast Contains]. rewrite E24. rewrite adjacent_groups by lia. done.
  - cbn [IsPrivate Contains]. f_equal; [f_equal|].
    + rewrite E24. set (y := Z.shiftr bits 16) in *.
      replace (Z.shiftr bits (32 - 12)) with (Z.shiftr y 4) by (subst y; by rewrite shiftr_twice).
      change (Z.shiftr (ip4 172 16 0 0) (32 - 12)) with 0xac1.
      change 0xff with (Z.ones 8) at 1. rewrite Z.land_ones by lia. change (2 ^ 8) with 256 in *.
      pose proof (leading_mask (y mod 256) 8 4 1 ltac:(lia) (Z.mod_pos_bound y 256 ltac:(lia))) as Hmask.
      change (Z.shiftl (Z.ones (8 - 4)) 4) with 0xf0 in Hmask. change (Z.shiftl 1 4) with 16 in Hmask. rewrite Hmask.
      rewrite !Z.shiftr_div_pow2 by lia. change (2 ^ 8) with 256. change (2 ^ 4) with 16.
      apply eq_iff_eq_true. rewrite andb_true_iff, !Z.eqb_eq.
      assert (Hy : y / 16 = y / 256 * 16 + y mod 256 / 16).
      { rewrite (Z.div_mod y 256) at 1 by lia. replace (256 * (y / 256)) with (y / 256 * 16 * 16) by lia.
        by rewrite Z.div_add_l by lia. }
      pose proof (Z.mod_pos_bound y 256 ltac:(lia)). assert (0 <= y mod 256 / 16 < 16).
      { split; [apply Z.div_pos; lia | apply Z.div_lt_upper_bound; lia]. }
      lia.
    + rewrite E24. rewrite adjacent_groups by lia. done.
Qed.

Lemma v6_blocks bits : 0 <= bits < 2 ^ 128 ->
  IsLinkLocalUnicast (V6 bits) = Contains (P6 (ip6 [0xfe80]) 10) (V6 bits) /\
  IsPrivate (V6 bits) = Contains (P6 (ip6 [0xfc00]) 7) (V6 bits).
Proof.
  intros Hb. pose proof (shiftr_range bits 112 128 ltac:(lia) Hb) as H16. pose proof (shiftr_range bits 120 128 ltac:(lia) Hb) as H8.
  split; cbn [IsLinkLocalUnicast IsPrivate Contains].
  - etransitivity; [exact (leading_mask (Z.shiftr bits 112) 16 6 0x3fa ltac:(lia) H16)|]. by rewrite shiftr_twice by lia.
  - etransitivity; [exact (leading_mask (Z.shiftr bits 120) 8 1 0x7e ltac:(lia) H8)|]. by rewrite shiftr_twice by lia.
Qed.

Lemma impl_false (b : bool) : (b = true -> false = true) -> b = false.
Proof. destruct b; [intros H; by specialize (H eq_refl) | done]. Qed.

Lemma public_exact ip :
  publicProviderIP ip = match AddrFromSlice ip with
    | None => false
    | Some a => negb (existsb (fun prefix => Contains prefix (Unmap a)) reserved)
    end.
Proof.
  unfold publicProviderIP. destruct (AddrFromSlice ip) as [a|] eqn:E; [|done].
  apply AddrFromSlice_range in E as Hr. cbv zeta. unfold reserved. rewrite existsb_app, negb_orb.
  set (denied := existsb _ deniedProviderPrefixes). destruct (Unmap a) as [bits|bits] eqn:Ea.
  - destruct (v4_blocks bits Hr) as (Hm & Hl & Hp). unfold IsGlobalUnicast. rewrite Hm, Hl, Hp.
    assert (Hmc : Contains (P4 (ip4 224 0 0 0) 4) (V4 bits) = true -> denied = true).
    { intros H. apply existsb_exists. exists (P4 (ip4 224 0 0 0) 4). split; [cbn; tauto|done]. }
    assert (H0 : (bits =? 0) = true -> denied = true).
    { intros ->%Z.eqb_eq. apply existsb_exists. exists (P4 (ip4 0 0 0 0) 8). split; [cbn; tauto|done]. }
    assert (Hff : (bits =? 0xffffffff) = true -> denied = true).
    { intros ->%Z.eqb_eq. apply existsb_exists. exists (P4 (ip4 240 0 0 0) 4). split; [cbn; tauto|done]. }
    change (IsLoopback (V4 bits)) with (Contains (P4 (ip4 127 0 0 0) 8) (V4 bits)).
    change (IsUnspecified (V4 bits)) with (bits =? 0). cbn [existsb].
    repeat match goal with |- context [Contains (P6 ?b ?n) (V4 bits)] => change (Contains (P6 b n) (V4 bits)) with false end.
    destruct denied; [rewrite andb_false_r; by case_if_goal Ed|].
    apply impl_false in Hmc, H0, Hff. rewrite Hmc, H0, Hff.
    repeat match goal with |- context [Contains ?p (V4 bits)] => destruct (Contains p (V4 bits)) end; reflexivity.
  - destruct (v6_blocks bits Hr) as (Hl & Hp). unfold IsGlobalUnicast. rewrite Hl, Hp.
    assert (Hmc : IsMulticast (V6 bits) = true -> denied = true).
    { intros H. apply existsb_exists. exists (P6 (ip6 [0xff00]) 8). split; [cbn; tauto|done]. }
    change (IsUnspecified (V6 bits)) with (bits =? 0). change (IsLoopback (V6 bits)) with (bits =? 1).
    cbn [existsb].
    repeat match goal with |- context [Contains (P4 ?b ?n) (V6 bits)] => change (Contains (P4 b n) (V6 bits)) with false end.
    change (Contains (P6 (ip6 []) 128) (V6 bits)) with (Z.shiftr bits 0 =? 0).
    change (Contains (P6 (ip6 [0; 0; 0; 0; 0; 0; 0; 1]) 128) (V6 bits)) with (Z.shiftr bits 0 =? 1).
    rewrite Z.shiftr_0_r. destruct denied; [rewrite andb_false_r; by case_if_goal Ed|]. apply impl_false in Hmc. rewrite Hmc.
    destruct (bits =? 0), (bits =? 1);
      repeat match goal with |- context [Contains ?p (V6 bits)] => destruct (Contains p (V6 bits)) end; reflexivity.
Qed.

(** The address is well formed and, unmapped, in no reserved block. *)
Definition public (ip : bytes) : Prop :=
  exists a, AddrFromSlice ip = Some a /\ Forall (fun prefix => Contains prefix (Unmap a) = false) reserved.

Lemma publicProviderIP_spec ip : publicProviderIP ip = true <-> public ip.
Proof.
  rewrite public_exact. unfold public. destruct (AddrFromSlice ip) as [a|]; [|split; [done|by intros (? & ? & _)]].
  rewrite negb_true_iff, existsb_false. split.
  - intros H. exists a. split; [done|]. by apply Forall_forall.
  - intros (? & [= <-] & H). by apply Forall_forall.
Qed.

Lemma pin_spec addresses first pinned :
  pin addresses first = Ok pinned ->
  Forall public addresses /\ pinned = match first with Some ip => Some ip | None => head addresses end.
Proof.
  revert first. induction addresses as [|ip rest IH]; intros first; cbn [pin]; [intros [= ->]; by destruct pinned|].
  case_if_goal E; [done|]. apply negb_false_iff, publicProviderIP_spec in E. intros [H ->]%IH.
  split; [by constructor | by destruct first].
Qed.

(** A host name as the guard compares it. *)
Definition normal_host (ToLower : string -> string) (host : string) : string := ToLower (trim_dot host).

Lemma allowed_hosts_spec ToLower ParseIP l hosts allowed :
  allowed_hosts ToLower ParseIP l hosts = Ok allowed ->
  forall host, host ∈ allowed <-> host ∈ hosts \/ exists entry, entry ∈ l /\ host = normal_host ToLower (TrimSpace entry).
Proof.
  revert hosts. induction l as [|entry l IH]; intros hosts; cbn [allowed_hosts].
  - intros [= ->] host. set_solver.
  - case_if_goal E; [done|]. intros H host. rewrite (IH _ H), elem_of_union, elem_of_singleton. split.
    + intros [[->|?]|(other & ? & ->)]; [right; exists entry | by left | right; exists other]; split; set_solver.
    + intros [?|(other & [->|?]%elem_of_cons & ->)]; [by left; right | by left; left | right; by exists other].
Qed.

Lemma NewURLPolicy_hosts ToLower ParseIP config policy :
  NewURLPolicy ToLower ParseIP config = Ok policy ->
  forall host, host ∈ up_hosts policy <-> exists entry, entry ∈ uc_AllowedHosts config /\ host = normal_host ToLower (TrimSpace entry).
Proof.
  unfold NewURLPolicy. case_if_goal E; [done|]. intros (hosts & Hh & H)%result_bind_ok host. cbv zeta in H.
  case_if_in H Eb; [done|]. injection H as <-. cbn [up_hosts]. rewrite (allowed_hosts_spec _ _ _ _ _ Hh). set_solver.
Qed.

Lemma pin_public addresses ip : Forall public addresses -> head addresses = Some ip -> pin addresses None = Ok (Some ip).
Proof.
  intros Hall Hhead. destruct addresses as [|a rest]; [done|]. injection Hhead as ->. inversion_clear Hall as [|? ? Hip Hrest].
  cbn [pin]. apply publicProviderIP_spec in Hip. rewrite Hip. cbn [negb].
  induction Hrest as [|b rest Hb _ IH]; [done|]. cbn [pin]. apply publicProviderIP_spec in Hb. by rewrite Hb.
Qed.

(** What makes a URL acceptable, and the target it is pinned to: everything is read off
    the URL itself and off the addresses of its own host. *)
Definition pinned_as (Parse : string -> option URL) (ToLower : string -> string) (ParseIP : string -> bool)
  (LookupIPAddr : string -> result (list bytes)) (config : URLPolicyConfig) (rawURL : string) (target : PinnedTarget) : Prop :=
  exists parsed addresses ip, Parse rawURL = Some parsed /\
    url_Scheme parsed = "https" /\ url_HasUser parsed = false /\ url_Fragment parsed = "" /\ url_Hostname parsed <> "" /\
    (url_Port parsed = "" \/ url_Port parsed = "443") /\
    let host := normal_host ToLower (url_Hostname parsed) in
    ParseIP host = false /\
    (exists entry, entry ∈ uc_AllowedHosts config /\ host = normal_host ToLower (TrimSpace entry)) /\
    LookupIPAddr host = Ok addresses /\ head addresses = Some ip /\ Forall public addresses /\
    target = {| pt_URL := parsed; pt_Hostname := host; pt_Port := "443"; pt_IP := ip |}.

(** C37. The guard of provider URLs, exactly. An address passes if and only if, read
    through its IPv4-mapped form, it is in none of the reserved blocks. A URL is
    accepted by a policy if and only if it is an https URL without credentials and
    fragment, on no port or port 443, whose own host name, normalised, is no address,
    is one of the configured hosts, and resolves to addresses all of which pass; it is
    then pinned to that host name, port 443 and the first of those addresses, and
    nothing else. The client dials that address and port, checks the certificate
    against that name, and refuses redirects. *)
Theorem pinned_target_public (Parse : string -> option URL) (ToLower : string -> string) (ParseIP : string -> bool)
  (LookupIPAddr : string -> result (list bytes)) (config : URLPolicyConfig) (policy : URLPolicy) (rawURL : string)
  (target : PinnedTarget) (Hpolicy : NewURLPolicy ToLower ParseIP config = Ok policy) :
  (forall ip, publicProviderIP ip = true <-> public ip) /\
  (ValidateAndPin Parse ToLower ParseIP LookupIPAddr policy rawURL = Ok target <->
     pinned_as Parse ToLower ParseIP LookupIPAddr config rawURL target) /\
  cc_DialIP (Client policy target) = pt_IP target /\ cc_DialPort (Client policy target) = pt_Port target /\
  cc_ServerName (Client policy target) = pt_Hostname target /\ cc_Redirect (Client policy target) <> [].
Proof.
  split; [apply publicProviderIP_spec|]. split; [|done]. unfold pinned_as. setoid_rewrite <- (NewURLPolicy_hosts _ _ _ _ Hpolicy).
  unfold ValidateAndPin. split.
  - intros Hpin. destruct (Parse rawURL) as [parsed|] eqn:Ep; [|done]. case_if_in Hpin E1; [done|]. cbv zeta in Hpin.
    case_if_in Hpin E2; [done|]. case_if_in Hpin E3; [done|]. destruct (LookupIPAddr _) as [addresses|] eqn:El; [|done].
    case_if_in Hpin E4; [done|]. apply result_bind_ok in Hpin as (pinned & [Hall ->]%pin_spec & [= <-]).
    destruct addresses as [|ip rest]; [done|]. exists parsed, (ip :: rest), ip. cbv zeta. unfold normal_host.
    destruct (url_Port parsed =s "") eqn:Eport; reflect_bools; split_and!; try done; try (by left); try (by right); cbn; congruence.
  - intros (parsed & addresses & ip & -> & Hs & Hu & Hf & Hh & Hp & H). cbv zeta in H. destruct H as (Hip & Hin & El & Hhead & Hall & ->).
    unfold normal_host in *. apply String.eqb_neq in Hh. rewrite Hs, Hu, Hf, Hh. cbn. rewrite bool_decide_eq_true_2, Hip by done. cbn.
    assert ((if url_Port parsed =s "" then "443" else url_Port parsed) = "443") as -> by (by destruct Hp as [->| ->]). cbn.
    rewrite El. replace (is_nil addresses) with false by (by destruct addresses). by rewrite (pin_public _ ip).
Qed.

Definition example_policy : URLPolicy := {|
  up_hosts := {["media.example"]}; up_connectTimeout := 5 * Second; up_tlsHandshakeTimeout := 5 * Second;
  up_responseHeaderTimeout := 10 * Second; up_totalTimeout := 30 * Second |}.
Definition example_url : URL := {|
  url_Scheme := "https"; url_HasUser := false; url_Fragment := ""; url_Hostname := "media.example"; url_Port := "" |}.
Definition example_address : bytes := byte_of_Z <$> [8; 8; 8; 8].
Definition example_target : PinnedTarget := {|
  pt_URL := example_url; pt_Hostname := "media.example"; pt_Port := "443"; pt_IP := example_address |}.

Definition example_hosts : URLPolicyConfig := {|
  uc_AllowedHosts := [" media.example."]; uc_ConnectTimeout := 0; uc_TLSHandshakeTimeout := 0; uc_ResponseHeaderTimeout := 0;
  uc_TotalTimeout := 0 |}.

(** The example URL is pinned to the example target, and to no other. *)
Lemma pinned_target_public_witness :
  let pinned := pinned_as (fun _ => Some example_url) id (fun _ => false) (fun _ => Ok [example_address]) example_hosts "https://media.example" in
  pinned example_target /\ cc_DialIP (Client example_policy example_target) = example_address /\
  (forall target, pinned target -> target = example_target) /\ public example_address.
Proof.
  intros pinned.
  assert (NewURLPolicy id (fun _ => false) example_hosts = Ok example_policy) as Hp by (vm_compute; reflexivity).
  pose proof (fun target => pinned_target_public (fun _ => Some example_url) id (fun _ => false) (fun _ => Ok [example_address])
    example_hosts example_policy "https://media.example" target Hp) as H.
  split; [apply (H example_target); vm_compute; reflexivity|]. split; [apply (H example_target)|]. split.
  - intros target Ht. apply (H target) in Ht. vm_compute in Ht. injection Ht as <-. vm_compute. reflexivity.
  - apply (proj1 (H example_target)). vm_compute. reflexivity.
Defined.
