(* ===== verification/MediaIngest.v ===== *)
(** * Importing media (internal/gateway/media/upload.go, fetch.go)

    The uploader, which spools a body, inspects it and stores it with its metadata,
    and the fetch worker, which imports the media of claimed jobs.  Both are
    programs of calls to the object store, the metadata store, the spool, the fetch
    store and the connection actor. *)

From S2P Require Import Prelude GoText Crypto GoEncoding Domain Session EventContract Store Rely Ingress Responses Images MediaStore.

(** ** Data *)

Definition DefaultMaxBytes : Z := 10 * 2 ^ 20.

(** An [io.Reader]: the bytes it yields and the error it ends with, [[]] for EOF. *)
Record Body := { bd_Data : bytes; bd_Err : error }.

Record ObjectInfo := { oi_Key : string; oi_Size : Z }.

Record Upload := {
  ul_Body : option Body;
  ul_ContentLength : Z;
  ul_DeclaredMIME : string;
  ul_Filename : string
}.

Record Uploader := { ur_maxBytes : Z; ur_maxPixels : Z; ur_maxConcurrent : Z }.

Definition NewUploader (MaxBytes MaxPixels MaxConcurrent : Z) : result Uploader :=
  let maxBytes := if MaxBytes =? 0 then DefaultMaxBytes else MaxBytes in
  if (maxBytes <? 1) || (maxBytes >? HardMaxBytes) then Err [ErrTooLarge]
  else
    let maxPixels := if MaxPixels =? 0 then DefaultMaxPixels else MaxPixels in
    if maxPixels <? 1 then Err [ErrPixelLimit]
    else
      let concurrent := if MaxConcurrent =? 0 then 8 else MaxConcurrent in
      if (concurrent <? 1) || (concurrent >? 1024) then Err [ErrText "invalid media concurrency"]
      else Ok {| ur_maxBytes := maxBytes; ur_maxPixels := maxPixels; ur_maxConcurrent := concurrent |}.

(** [copyBounded]: the bytes written and the error. One byte beyond the limit is
    read, and is the error. *)
Definition copyBounded (source : Body) (maximum : Z) : bytes * error :=
  if blen (bd_Data source) >? maximum then (take (Z.to_nat (maximum + 1)) (bd_Data source), [ErrTooLarge])
  else (bd_Data source, bd_Err source).

(** ** Names *)

Fixpoint take_while {A} (p : A -> bool) (l : list A) : list A :=
  match l with
  | [] => []
  | a :: l' => if p a then a :: take_while p l' else []
  end.

(** [filepath.Base] on a path with slashes. *)
Definition filepath_Base (path : string) : string :=
  if path =s "" then "."
  else
    let is_slash := fun c => byte_val c =? 47 in
    let reversed := drop_while is_slash (rev (bytes_of path)) in
    let base := rev (take_while (fun c => negb (is_slash c)) reversed) in
    if is_nil base then "/" else string_of base.

(** [strings.ReplaceAll(s, "\\", "/")]. *)
Definition forward_slashes (s : string) : string :=
  string_of ((fun c => if byte_val c =? 92 then byte_of_Z 47 else c) <$> bytes_of s).

(** The runes that are written, until 200 bytes are. *)
Fixpoint write_name (rs : list Z) (written : bytes) : bytes :=
  match rs with
  | [] => written
  | char :: rest =>
    if unicode_IsControl char || (char =? 47) || (char =? 92) || (char =? 58) then write_name rest written
    else
      let written := written ++ encode_rune char in
      if blen written >=? 200 then written else write_name rest written
  end.

Definition extension (mimeType : string) : string :=
  if mimeType =s "image/jpeg" then ".jpg"
  else if mimeType =s "image/png" then ".png"
  else if mimeType =s "image/gif" then ".gif"
  else if mimeType =s "image/webp" then ".webp"
  else "".

Definition sanitizeFilename (input actualMIME : string) : string :=
  let input := filepath_Base (forward_slashes input) in
  let name := TrimSpace (string_of (write_name (runes input) [])) in
  let name := if (name =s "") || (name =s ".") then "image" +:+ extension actualMIME else name in
  if negb (utf8_ValidString name) then "image" else name.

Definition opaqueObjectKey (tenantID mediaID : string) : string :=
  "objects/" +:+ string_of (hex_encode (take 16 (sha256 (bytes_of tenantID)))) +:+ "/" +:+
  string_of (hex_encode (sha256 (bytes_of tenantID ++ byte_of_Z 0 :: bytes_of mediaID))).

(** [strings.EqualFold] with one of the four types, which have no letter that folds
    outside ASCII. *)
Definition fold_byte (c : ascii) : ascii :=
  if (65 <=? byte_val c) && (byte_val c <=? 90) then byte_of_Z (byte_val c + 32) else c.
Definition equal_fold (s t : string) : bool := bool_decide (fold_byte <$> bytes_of s = fold_byte <$> bytes_of t).

Definition OsErrNotExist : sentinel := ErrText "file does not exist".

Section Declared.
(** [mime.ParseMediaType]: the media type of a header value. *)
Context (ParseMediaType : string -> option string).

Definition matchingDeclaredMIME (declared actual : string) : bool :=
  if TrimSpace declared =s "" then true
  else match ParseMediaType declared with Some parsed => equal_fold parsed actual | None => false end.
End Declared.

(** ** Fetching *)

Record FetchContent := {
  fc_Body : option Body;
  fc_ContentLength : Z;
  fc_MIMEType : string;
  fc_Filename : string
}.

Record FetchWorker := {
  fw_tenantID : string;
  fw_ownerID : string;
  fw_maxAttempts : Z;
  fw_retryDelay : Z -> Z;
  fw_renewInterval : Z
}.

(** The default of [RetryDelay]; a negative shift panics, attempts are positive. *)
Definition default_retry_delay (attempt : Z) : Z :=
  Z.min (int64 (Z.shiftl Second (Z.min attempt 10))) (15 * Minute).

Definition NewFetchWorker (TenantID OwnerID : string) (MaxAttempts : Z) (RetryDelay : option (Z -> Z))
    (RenewInterval : Z) : result FetchWorker :=
  if (TenantID =s "") || (OwnerID =s "") || (len OwnerID >? 256) then Err [ErrInvalidIdentifier]
  else
    let tries := if MaxAttempts =? 0 then 5 else MaxAttempts in
    if (tries <? 1) || (tries >? 100) then Err [ErrInvalidIdentifier]
    else
      let renew := if RenewInterval =? 0 then 20 * Second else RenewInterval in
      if (renew <? Millisecond) || (renew >? 30 * Second) then Err [ErrInvalidIdentifier]
      else Ok {| fw_tenantID := TenantID; fw_ownerID := OwnerID; fw_maxAttempts := tries;
                 fw_retryDelay := default default_retry_delay RetryDelay; fw_renewInterval := renew |}.

Definition safeFetchReason (err : error) : string :=
  if errors_Is err ErrUnsafeURL || errors_Is err ErrRedirectDenied then "unsafe_locator"
  else if errors_Is err ErrTooLarge || errors_Is err ErrLengthMismatch || errors_Is err ErrUnsupportedImage ||
          errors_Is err ErrPixelLimit then "invalid_media"
  else if errors_Is err ErrMediaNotFound || errors_Is err ErrStoredMediaCorrupt then "invalid_media"
  else if errors_Is err ContextCanceled || errors_Is err ContextDeadlineExceeded then "fetch_canceled"
  else "fetch_failed".

Definition mediaEventBody (eventID eventType : string) (job : FetchJob) (occurredAt : Z) (reason : string)
    : result bytes :=
  let failed := eventType =s "media.failed" in
  let status := if failed then "failed" else "ready" in
  let metadataPath := "/v1/media/" +:+ ff_MediaID job in
  let contentPath := if failed then "" else "/v1/media/" +:+ ff_MediaID job +:+ "/content" in
  Marshal {|
    ev_EventID := eventID; ev_Type := eventType; ev_Version := 0; ev_OccurredAt := occurredAt;
    ev_OccurredAtText := ""; ev_IngestedAt := time_zero; ev_IngestedAtText := "";
    ev_TenantID := ff_TenantID job; ev_ConnectionID := ff_ConnectionID job; ev_ConversationID := "";
    ev_MessageID := ""; ev_ProviderMessageID := ff_ProviderMessageID job; ev_ProviderTmpID := "";
    ev_Direction := ""; ev_Provenance := ""; ev_ProviderStatus := ""; ev_Actionable := false; ev_Sender := "";
    ev_Recipients := []; ev_Text := ""; ev_Transport := ""; ev_Status := status; ev_State := "";
    ev_MediaID := ff_MediaID job; ev_MetadataPath := metadataPath; ev_ContentPath := contentPath;
    ev_Media := [{| md_ID := ff_MediaID job; md_Position := 0; md_Status := status; md_MIMEType := "";
                    md_Size := 0; md_DisplayFilename := ""; md_MetadataPath := metadataPath;
                    md_ContentPath := contentPath |}];
    ev_ProviderResponseID := ""; ev_Reason := reason; ev_Data := [] |}.

(** ** Calls *)

(** [AcquireSlot] waits for the quota or the context; [Ticks] are the answers the
    renewal of a claim got until it was stopped; [CtxErr] reads the context. The
    tenant of [NewMediaID] is the one the identifier is for. *)
Inductive MediaCall : Type -> Type :=
| AcquireSlot : MediaCall error
| ReleaseSlot : MediaCall unit
| SpoolCreate : MediaCall error
| SpoolSecure : MediaCall error
| SpoolWrite (data : bytes) : MediaCall error
| SpoolRewind : MediaCall error
| SpoolRemove : MediaCall unit
| NewMediaID (tenantID : string) : MediaCall string
| NewEventID : MediaCall string
| Clock : MediaCall Z
| PutObject (key : string) (data : bytes) (size : Z) (contentType : string) : MediaCall error
| OpenObject (key : string) : MediaCall (result (Body * ObjectInfo))
| CloseObject : MediaCall unit
| DeleteObject (key : string) : MediaCall error
| CreateMetadata (record : MediaRecord) : MediaCall error
| GetMetadataRow (tenantID mediaID : string) : MediaCall (result MediaRecord)
| ClaimJob (tenantID ownerID : string) : MediaCall (result (option FetchJob))
| FetchBytes (job : FetchJob) : MediaCall (result FetchContent)
| CloseBody : MediaCall unit
| CtxErr : MediaCall error
| Ticks (job : FetchJob) : MediaCall (list (result bool))
| PutReady (job : FetchJob) (record : MediaRecord) (eventID : string) (body : bytes) : MediaCall error
| PutFailed (job : FetchJob) (reason eventID : string) (body : bytes) (retryAt : Z) : MediaCall error.

(** ** The uploader *)

Section Uploader.
Context (ParseMediaType : string -> option string) (DecodeConfig : bytes -> result (Z * Z)).

(** The bytes of an opened object, compared with what is expected of it. *)
Definition same_object (stored : Body) (size : Z) (digest : bytes) : bool :=
  let '(written, err) := copyBounded stored size in
  is_nil err && (blen written =? size) && bool_decide (sha256 written = digest).

Definition putOrVerify (key : string) (data : bytes) (size : Z) (contentType : string) (digest : bytes)
    : prog MediaCall error :=
  call! err := PutObject key data size contentType in
  if is_nil err then Ret []
  else
    call! opened := OpenObject key in
    match opened with
    | Err e => Ret e
    | Ok (stored, info) =>
      call! _ := CloseObject in
      if negb (oi_Size info =? size) || negb (same_object stored size digest)
      then Ret [ErrText "media object identity conflict"]
      else Ret []
    end.

Definition store_media (tenantID assignedID : string) (upload : Upload) (data : bytes) (actualMIME : string)
    (width height : Z) (deleteOnMetadataFailure : bool) : prog MediaCall (result MediaRecord) :=
  do! id := (if assignedID =s "" then (call! id := NewMediaID tenantID in Ret id) else Ret assignedID) in
  if id =s "" then Ret (Err [ErrInvalidIdentifier])
  else
    let key := opaqueObjectKey tenantID id in
    do! err := putOrVerify key data (blen data) actualMIME (sha256 data) in
    if negb (is_nil err) then Ret (Err err)
    else
      call! now := Clock in
      let record := {| mr_ID := id; mr_TenantID := tenantID; mr_ObjectKey := key; mr_MIMEType := actualMIME;
        mr_Size := blen data; mr_SHA256 := sha256 data; mr_Width := width; mr_Height := height;
        mr_DisplayFilename := sanitizeFilename (ul_Filename upload) actualMIME; mr_State := "ready";
        mr_CreatedAt := now |} in
      call! err := CreateMetadata record in
      if is_nil err then Ret (Ok record)
      else if deleteOnMetadataFailure then (call! _ := DeleteObject key in Ret (Err err))
      else Ret (Err err).

(** From the spooled file on. *)
Definition ingest_spooled (uploader : Uploader) (tenantID assignedID : string) (upload : Upload) (body : Body)
    (deleteOnMetadataFailure : bool) : prog MediaCall (result MediaRecord) :=
  let '(data, readErr) := copyBounded body (ur_maxBytes uploader) in
  call! writeErr := SpoolWrite data in
  if negb (is_nil writeErr) then Ret (Err writeErr)
  else if negb (is_nil readErr) then Ret (Err readErr)
  else if (ul_ContentLength upload >=? 0) && negb (ul_ContentLength upload =? blen data)
  then Ret (Err [ErrLengthMismatch])
  else
    call! err := SpoolRewind in
    if negb (is_nil err) then Ret (Err err)
    else match inspectImage DecodeConfig (ur_maxPixels uploader) data with
    | Err e => Ret (Err e)
    | Ok (actualMIME, width, height) =>
      if negb (matchingDeclaredMIME ParseMediaType (ul_DeclaredMIME upload) actualMIME)
      then Ret (Err [ErrUnsupportedImage])
      else
        call! err := SpoolRewind in
        if negb (is_nil err) then Ret (Err err)
        else store_media tenantID assignedID upload data actualMIME width height deleteOnMetadataFailure
    end.

(** The spool is closed and removed on every return. *)
Definition ingest_admitted (uploader : Uploader) (tenantID assignedID : string) (upload : Upload) (body : Body)
    (deleteOnMetadataFailure : bool) : prog MediaCall (result MediaRecord) :=
  call! err := CtxErr in
  if negb (is_nil err) then Ret (Err err)
  else
    call! err := SpoolCreate in
    if negb (is_nil err) then Ret (Err err)
    else
      do! outcome :=
        (call! err := SpoolSecure in
         if negb (is_nil err) then Ret (Err err)
         else ingest_spooled uploader tenantID assignedID upload body deleteOnMetadataFailure) in
      call! _ := SpoolRemove in
      Ret outcome.

Definition ingest (uploader : Uploader) (tenantID assignedID : string) (upload : Upload)
    (deleteOnMetadataFailure : bool) : prog MediaCall (result MediaRecord) :=
  match ul_Body upload with
  | None => Ret (Err [ErrInvalidIdentifier])
  | Some body =>
    if tenantID =s "" then Ret (Err [ErrInvalidIdentifier])
    else if (ul_ContentLength upload >? ur_maxBytes uploader) || (ul_ContentLength upload >? HardMaxBytes)
    then Ret (Err [ErrTooLarge])
    else
      call! err := AcquireSlot in
      if negb (is_nil err) then Ret (Err err)
      else
        do! outcome := ingest_admitted uploader tenantID assignedID upload body deleteOnMetadataFailure in
        call! _ := ReleaseSlot in
        Ret outcome
  end.

Definition Uploader_Upload (uploader : Uploader) (tenantID : string) (upload : Upload)
    : prog MediaCall (result MediaRecord) := ingest uploader tenantID "" upload true.

Definition Import (uploader : Uploader) (tenantID mediaID : string) (upload : Upload)
    : prog MediaCall (result MediaRecord) :=
  if mediaID =s "" then Ret (Err [ErrInvalidIdentifier]) else ingest uploader tenantID mediaID upload false.

Definition Verify (uploader : Uploader) (tenantID mediaID : string) (expected : MediaRecord)
    : prog MediaCall (result MediaRecord) :=
  if (tenantID =s "") || (mediaID =s "") || (mr_TenantID expected <>s tenantID) || (mr_ID expected <>s mediaID) ||
     (mr_Size expected <? 1) || (mr_Size expected >? ur_maxBytes uploader) ||
     negb (blen (mr_SHA256 expected) =? 32) || (mr_ObjectKey expected =s "")
  then Ret (Err [ErrInvalidIdentifier])
  else
    call! opened := OpenObject (mr_ObjectKey expected) in
    match opened with
    | Err e => Ret (Err (if errors_Is e ErrMediaNotFound || errors_Is e OsErrNotExist then [ErrMediaNotFound] else e))
    | Ok (stored, info) =>
      call! _ := CloseObject in
      if negb (oi_Size info =? mr_Size expected) then Ret (Err [ErrStoredMediaCorrupt])
      else
        let '(written, err) := copyBounded stored (mr_Size expected) in
        if negb (is_nil err) then Ret (Err (if errors_Is err ErrTooLarge then [ErrStoredMediaCorrupt] else err))
        else if negb (blen written =? mr_Size expected) || negb (bool_decide (sha256 written = mr_SHA256 expected))
        then Ret (Err [ErrStoredMediaCorrupt])
        else Ret (Ok expected)
    end.

(** [GetMetadata] and [Open]; the reader stays open for the caller. *)
Definition GetMetadata (tenantID mediaID : string) : prog MediaCall (result MediaRecord) :=
  if (tenantID =s "") || (mediaID =s "") then Ret (Err [ErrMediaNotFound])
  else
    call! found := GetMetadataRow tenantID mediaID in
    match found with
    | Err e => Ret (Err e)
    | Ok record =>
      if (mr_TenantID record <>s tenantID) || (mr_ID record <>s mediaID) then Ret (Err [ErrMediaNotFound])
      else Ret (Ok record)
    end.

Definition Uploader_Open (tenantID mediaID : string) : prog MediaCall (result (Body * MediaRecord)) :=
  do! found := GetMetadata tenantID mediaID in
  match found with
  | Err e => Ret (Err e)
  | Ok record =>
    if (mr_State record <>s "ready") || (mr_ObjectKey record =s "") then Ret (Err [ErrMediaNotFound])
    else
      call! opened := OpenObject (mr_ObjectKey record) in
      match opened with
      | Err e => Ret (Err e)
      | Ok (stored, info) =>
        if ((oi_Key info <>s "") && (oi_Key info <>s mr_ObjectKey record)) || negb (oi_Size info =? mr_Size record) ||
           (oi_Size info <? 0) || (oi_Size info >? HardMaxBytes)
        then (call! _ := CloseObject in Ret (Err [ErrMediaNotFound]))
        else Ret (Ok (stored, record))
      end
  end.

(** ** The fetch worker *)

Definition completeReady (worker : FetchWorker) (job : FetchJob) (record : MediaRecord) : prog MediaCall error :=
  call! eventID := NewEventID in
  call! now := Clock in
  match mediaEventBody eventID "media.ready" job now "" with
  | Err _ => Ret [ErrText "create media ready event"]
  | Ok body =>
    if eventID =s "" then Ret [ErrText "create media ready event"]
    else call! err := PutReady job record eventID body in Ret err
  end.

Definition terminal_failure (worker : FetchWorker) (job : FetchJob) (reason : string) : bool :=
  (ff_AttemptCount job >=? fw_maxAttempts worker) || (reason =s "unsafe_locator") || (reason =s "invalid_media").

Definition completeFailure (worker : FetchWorker) (job : FetchJob) (cause : error) : prog MediaCall error :=
  let reason := safeFetchReason cause in
  if negb (terminal_failure worker job reason) then
    call! now := Clock in
    call! err := PutFailed job reason "" [] (now + fw_retryDelay worker (ff_AttemptCount job)) in
    Ret err
  else
    call! eventID := NewEventID in
    call! now := Clock in
    match mediaEventBody eventID "media.failed" job now reason with
    | Err _ => Ret [ErrText "create media failed event"]
    | Ok body =>
      if eventID =s "" then Ret [ErrText "create media failed event"]
      else call! err := PutFailed job reason eventID body time_zero in Ret err
    end.

(** A failure counts only while the context lives. *)
Definition failed_attempt (worker : FetchWorker) (job : FetchJob) (cause : error) : prog MediaCall error :=
  call! ctxErr := CtxErr in
  if negb (is_nil ctxErr) then Ret ctxErr else completeFailure worker job cause.

Definition fetched_upload (job : FetchJob) (content : FetchContent) : Upload := {|
  ul_Body := fc_Body content; ul_ContentLength := fc_ContentLength content;
  ul_DeclaredMIME := if fc_MIMEType content =s "" then ff_DeclaredMIME job else fc_MIMEType content;
  ul_Filename := if fc_Filename content =s "" then ff_DisplayFilename job else fc_Filename content |}.

Definition processClaim (worker : FetchWorker) (uploader : Uploader) (job : FetchJob) : prog MediaCall error :=
  match ff_Imported job with
  | Some imported =>
    do! verified := Verify uploader (ff_TenantID job) (ff_MediaID job) imported in
    match verified with
    | Ok record => completeReady worker job record
    | Err e => failed_attempt worker job e
    end
  | None =>
    call! fetched := FetchBytes job in
    match fetched with
    | Err e => failed_attempt worker job e
    | Ok content =>
      if bool_decide (fc_Body content = None) then failed_attempt worker job [ErrText "empty provider media body"]
      else
        do! imported := Import uploader (ff_TenantID job) (ff_MediaID job) (fetched_upload job content) in
        do! err := (match imported with
                    | Ok record => completeReady worker job record
                    | Err e => failed_attempt worker job e
                    end) in
        call! _ := CloseBody in
        Ret err
    end
  end.

(** [renewClaim]: what the renewal reports of the ticks it had. *)
Fixpoint fetch_renewal (ticks : list (result bool)) : error :=
  match ticks with
  | [] => []
  | Ok true :: rest => fetch_renewal rest
  | Ok false :: _ => [ErrFetchFenceLost]
  | Err e :: _ => if is_nil e then [ErrFetchFenceLost] else e
  end.

Definition wrong_claim (worker : FetchWorker) (job : FetchJob) : bool :=
  (ff_TenantID job <>s fw_tenantID worker) || (ff_JobID job =s "") || (ff_MediaID job =s "") ||
  (ff_ConnectionID job =s "") || (ff_OwnerID job <>s fw_ownerID worker) || (ff_ClaimToken job =? 0) ||
  (ff_AttemptCount job <? 1).

Definition RunOne (worker : FetchWorker) (uploader : Uploader) : prog MediaCall (bool * error) :=
  call! claimed := ClaimJob (fw_tenantID worker) (fw_ownerID worker) in
  match claimed with
  | Err e => Ret (false, e)
  | Ok None => Ret (false, [])
  | Ok (Some job) =>
    if wrong_claim worker job then Ret (true, [ErrText "invalid media fetch claim"])
    else
      do! workErr := processClaim worker uploader job in
      call! ticks := Ticks job in
      let renewErr := fetch_renewal ticks in
      Ret (true, if is_nil renewErr then workErr else renewErr)
  end.
End Uploader.
