(* ===== verification/MediaPool.v ===== *)
(** * Stored media is intact (internal/gateway/media/upload.go, fetch.go)

    Any number of uploads and fetch workers run over one object store and one table of
    ready media. Each thread makes only calls that keep every ready row backed by the
    bytes it describes, holds at most one slot of the quota and one spool, and leaves
    neither behind. *)

From S2P Require Import Prelude GoText Crypto GoEncoding Domain Session EventContract Store Rely Ingress Responses Images MediaStore MediaIngest.

(** ** Records the uploader makes are acceptable *)

Lemma length_drop_while {A} (p : A -> bool) l : exists k, l = k ++ drop_while p l.
Proof.
  induction l as [|a l [k IH]]; [by exists []|]. cbn. destruct (p a); [|by exists []].
  exists (a :: k). cbn. by f_equal.
Qed.

Lemma blen_TrimSpace b : blen (TrimSpace_bytes b) <= blen b.
Proof.
  unfold TrimSpace_bytes. rewrite <- (chunks_concat b) at 2.
  destruct (length_drop_while space_chunk (chunks b)) as [k Hk].
  destruct (length_drop_while space_chunk (rev (drop_while space_chunk (chunks b)))) as [k' Hk'].
  rewrite Hk at 2. rewrite <- (rev_involutive (drop_while space_chunk (chunks b))) at 2. rewrite Hk' at 2.
  rewrite rev_app_distr, !fmap_app, !concat_app, !blen_app. unfold blen. lia.
Qed.

Lemma blen_encode_rune r : blen (encode_rune r) <= 4.
Proof. unfold encode_rune. cbv zeta. generalize (if between 0 0xD7FF r || between 0xE000 MaxRune r then r else RuneError). intros x. repeat case_match; unfold blen; cbn; lia. Qed.

Lemma blen_write_name rs written : blen written < 200 -> blen (write_name rs written) < 204.
Proof.
  revert written. induction rs as [|r rs IH]; intros written Hw; cbn; [lia|]. case_match; [by apply IH|].
  pose proof (blen_encode_rune r). pose proof (blen_app written (encode_rune r)).
  destruct (blen (written ++ encode_rune r) >=? 200) eqn:E; reflect_bools; [lia|]. apply IH. lia.
Qed.

Lemma sanitized_name input mime : sanitizeFilename input mime <> "" /\ len (sanitizeFilename input mime) <= 255.
Proof.
  unfold sanitizeFilename. cbv zeta. set (written := write_name _ _).
  assert (blen written < 204) as Hw by (apply blen_write_name; unfold blen; cbn; lia).
  assert (len (TrimSpace (string_of written)) <= 255) as Hl.
  { unfold TrimSpace. rewrite len_bytes, !bytes_of_string_of. pose proof (blen_TrimSpace written). lia. }
  generalize dependent (TrimSpace (string_of written)). intros name Hl. clear written Hw.
  assert (len (extension mime) <= 5) as He.
  { unfold extension. repeat match goal with |- context [if ?b then _ else _] => destruct b end; vm_compute; done. }
  set (chosen := if (name =s "") || (name =s ".") then _ else _). assert (chosen <> "" /\ len chosen <= 255) as Hc.
  { subst chosen. destruct ((name =s "") || (name =s ".")) eqn:E; reflect_bools; [|done]. split; [done|]. rewrite len_bytes, bytes_of_app, blen_app.
    rewrite len_bytes in He. assert (blen (bytes_of "image") = 5) by done. lia. }
  case_match; [|done]. split; [done|]. vm_compute. done.
Qed.

Lemma no_dots s : Forall (fun c => byte_val c <> 46) (bytes_of s) -> Contains s ".." = false.
Proof.
  intros H. unfold Contains. apply bool_decide_eq_false. intros [n Hn]. revert n Hn.
  induction s as [|c s IH]; intros n Hn; [done|]. cbn [bytes_of String.list_ascii_of_string] in H.
  apply Forall_cons in H as [Hc Hs]. cbn [String.index] in Hn. destruct (String.prefix ".." (String c s)) eqn:E.
  - cbn in E. case_match; [|done]. subst. by apply Hc.
  - destruct (String.index 0 ".." s) as [m|] eqn:Ei; [|done]. by eapply IH.
Qed.

Lemma hex_no_dots b : Forall (fun c => byte_val c <> 46) (hex_encode b).
Proof.
  assert (forall x, 0 <= x < 16 -> byte_val (nth_char lowerHex x) <> 46) as Hd.
  { intros x Hx Heq. pose proof (hex_digit_nth x Hx) as Hdigit.
    assert (nth_char lowerHex x = "."%char) as Hdot by (apply byte_val_inj; by rewrite Heq). by rewrite Hdot in Hdigit. }
  unfold hex_encode. induction b as [|c b IH]; [constructor|]. cbn [fmap list_fmap concat app]. pose proof (byte_val_range c).
  constructor; [|constructor; [|exact IH]]; apply Hd.
  - rewrite Z.shiftr_div_pow2 by lia. change (2 ^ 4) with 16. split; [apply Z.div_pos; lia | apply Z.div_lt_upper_bound; lia].
  - change 0x0f with (Z.ones 4). rewrite Z.land_ones by lia. apply Z.mod_pos_bound. lia.
Qed.

Lemma opaque_key_ok t m :
  HasPrefix (opaqueObjectKey t m) "objects/" = true /\ Contains (opaqueObjectKey t m) ".." = false.
Proof.
  unfold opaqueObjectKey. generalize (take 16 (sha256 (bytes_of t))) (sha256 (bytes_of t ++ byte_of_Z 0 :: bytes_of m)).
  intros a b. split; [unfold HasPrefix; by destruct (string_of (hex_encode a))|]. apply no_dots. rewrite !bytes_of_app, !bytes_of_string_of.
  repeat (apply Forall_app; split); try apply hex_no_dots; by repeat constructor.
Qed.

Definition uploader_ok (uploader : Uploader) : Prop :=
  1 <= ur_maxBytes uploader <= HardMaxBytes /\ 1 <= ur_maxPixels uploader /\ 1 <= ur_maxConcurrent uploader <= 1024.

Lemma NewUploader_ok mb mp mc uploader : NewUploader mb mp mc = Ok uploader -> uploader_ok uploader.
Proof.
  unfold NewUploader. cbv zeta. intros H. case_if_in H E1; [done|]. case_if_in H E2; [done|]. case_if_in H E3; [done|].
  injection H as <-. unfold uploader_ok. cbn [ur_maxBytes ur_maxPixels ur_maxConcurrent]. reflect_bools. split_and!; lia.
Qed.

(** The record of inspected bytes. *)
Definition record_of (tenantID id filename : string) (data : bytes) (mime : string) (width height now : Z) : MediaRecord := {|
  mr_ID := id; mr_TenantID := tenantID; mr_ObjectKey := opaqueObjectKey tenantID id; mr_MIMEType := mime;
  mr_Size := blen data; mr_SHA256 := sha256 data; mr_Width := width; mr_Height := height;
  mr_DisplayFilename := sanitizeFilename filename mime; mr_State := "ready"; mr_CreatedAt := now |}.

Lemma record_of_valid t id filename data mime width height now :
  t <> "" -> id <> "" -> blen data <= HardMaxBytes ->
  mime ∈ ["image/png"; "image/jpeg"; "image/gif"; "image/webp"] -> 1 <= width -> 1 <= height ->
  validMediaRecord (record_of t id filename data mime width height now) = true.
Proof.
  intros Ht Hid Hsize Hmime Hw Hh. unfold validMediaRecord, record_of.
  cbn [mr_ID mr_TenantID mr_ObjectKey mr_MIMEType mr_Size mr_SHA256 mr_Width mr_Height mr_DisplayFilename mr_State].
  destruct (opaque_key_ok t id) as [-> ->]. destruct (sanitized_name filename mime) as [Hn Hl].
  generalize dependent (sanitizeFilename filename mime). intros name Hn Hl.
  assert (blen (sha256 data) = 32) as -> by (unfold blen; by rewrite length_sha256).
  rewrite (proj2 (String.eqb_neq t "") Ht), (proj2 (String.eqb_neq id "") Hid), (proj2 (String.eqb_neq name "") Hn).
  rewrite (proj2 (Z.ltb_ge (blen data) 0)), (proj2 (Z.ltb_ge width 1)), (proj2 (Z.ltb_ge height 1)) by (unfold blen; lia).
  rewrite !Z.gtb_ltb, (proj2 (Z.ltb_ge HardMaxBytes (blen data))), (proj2 (Z.ltb_ge 255 (len name))) by lia.
  cbn [orb negb andb String.eqb]. repeat (apply elem_of_cons in Hmime as [->|Hmime]; [done|]). by apply elem_of_nil in Hmime.
Qed.

(** ** The world of the threads *)

(** [mw_rows] are the ready rows. [mw_issued] has the object keys of the identifiers
    the generator gave out, with the thread that asked. [mw_lost] has the keys of
    uploads whose metadata was committed although the call failed. [mw_fate] says, of
    each write that fails, whether it took effect. *)
Record MediaWorld := {
  mw_objects : gmap string bytes;
  mw_rows : gmap (string * string) MediaRecord;
  mw_issued : gmap string nat;
  mw_lost : gset string;
  mw_slots : gset nat;
  mw_spools : gset nat;
  mw_fate : list bool
}.

Definition with_objects (m : gmap string bytes) (w : MediaWorld) : MediaWorld := {|
  mw_objects := m; mw_rows := mw_rows w; mw_issued := mw_issued w; mw_lost := mw_lost w; mw_slots := mw_slots w;
  mw_spools := mw_spools w; mw_fate := mw_fate w |}.
Definition with_row (k : string * string) (r : MediaRecord) (w : MediaWorld) : MediaWorld := {|
  mw_objects := mw_objects w; mw_rows := <[k := r]> (mw_rows w); mw_issued := mw_issued w; mw_lost := mw_lost w;
  mw_slots := mw_slots w; mw_spools := mw_spools w; mw_fate := mw_fate w |}.
Definition with_issued (key : string) (i : nat) (w : MediaWorld) : MediaWorld := {|
  mw_objects := mw_objects w; mw_rows := mw_rows w; mw_issued := <[key := i]> (mw_issued w); mw_lost := mw_lost w;
  mw_slots := mw_slots w; mw_spools := mw_spools w; mw_fate := mw_fate w |}.
Definition with_lost (l : gset string) (w : MediaWorld) : MediaWorld := {|
  mw_objects := mw_objects w; mw_rows := mw_rows w; mw_issued := mw_issued w; mw_lost := l; mw_slots := mw_slots w;
  mw_spools := mw_spools w; mw_fate := mw_fate w |}.
Definition with_holders (slots spools : gset nat) (w : MediaWorld) : MediaWorld := {|
  mw_objects := mw_objects w; mw_rows := mw_rows w; mw_issued := mw_issued w; mw_lost := mw_lost w; mw_slots := slots;
  mw_spools := spools; mw_fate := mw_fate w |}.
Definition next_fate (w : MediaWorld) : MediaWorld := {|
  mw_objects := mw_objects w; mw_rows := mw_rows w; mw_issued := mw_issued w; mw_lost := mw_lost w; mw_slots := mw_slots w;
  mw_spools := mw_spools w; mw_fate := tail (mw_fate w) |}.

(** The write took effect. *)
Definition effective (err : error) (w : MediaWorld) : bool := is_nil err || default false (head (mw_fate w)).

Definition guarded (b : bool) (w : MediaWorld) : option MediaWorld := if b then Some w else None.

Section World.
(** The size of the quota, and the keys of the media that fetch jobs are for. *)
Variables (quota : nat) (assigned : string -> bool).

Definition row_key (r : MediaRecord) : string * string := (mr_TenantID r, mr_ID r).

(** Objects are written once and whole; rows become ready once; generated identifiers
    are fresh. A write that fails took effect or did not. *)
Definition put_answer (key : string) (data : bytes) (size : Z) (err : error) (w : MediaWorld) : option MediaWorld :=
  let free := bool_decide (mw_objects w !! key = None) && (size =? blen data) in
  let w' := if effective err w && free then with_objects (<[key := data]> (mw_objects w)) w else w in
  if is_nil err then guarded free w' else Some (next_fate w').

Definition open_answer (key : string) (opened : result (Body * ObjectInfo)) (w : MediaWorld) : option MediaWorld :=
  match opened, mw_objects w !! key with
  | Err e, _ => guarded (negb (is_nil e)) w
  | Ok (body, info), Some data =>
    guarded ((oi_Size info =? blen data) && (negb (is_nil (bd_Err body)) || bool_decide (bd_Data body = data))) w
  | Ok _, None => None
  end.

Definition delete_answer (key : string) (err : error) (w : MediaWorld) : option MediaWorld :=
  let w' := if effective err w then with_objects (delete key (mw_objects w)) w else w in
  if is_nil err then Some w' else Some (next_fate w').

Definition create_answer (r : MediaRecord) (err : error) (w : MediaWorld) : option MediaWorld :=
  let free := validMediaRecord r && bool_decide (mw_rows w !! row_key r = None) in
  let w' := if effective err w && free then with_row (row_key r) r w else w in
  if is_nil err then guarded free w'
  else Some (next_fate (if effective err w && free && negb (assigned (mr_ObjectKey r))
                        then with_lost ({[mr_ObjectKey r]} ∪ mw_lost w) w' else w')).

Definition issue_answer (i : nat) (t id : string) (w : MediaWorld) : option MediaWorld :=
  let key := opaqueObjectKey t id in
  if id =s "" then Some w
  else guarded (negb (assigned key) && bool_decide (mw_issued w !! key = None)) (with_issued key i w).

Definition claim_answer (claimed : result (option FetchJob)) (w : MediaWorld) : option MediaWorld :=
  match claimed with
  | Ok (Some job) =>
    guarded (assigned (opaqueObjectKey (ff_TenantID job) (ff_MediaID job)) &&
             match ff_Imported job with Some r => assigned (mr_ObjectKey r) | None => true end) w
  | _ => Some w
  end.

Definition media_respond (i : nat) (X : Type) (c : MediaCall X) (w : MediaWorld) : X -> option MediaWorld :=
  match c in MediaCall X return X -> option MediaWorld with
  | AcquireSlot => fun err =>
      if is_nil err then guarded (bool_decide (size (mw_slots w) < quota)%nat) (with_holders ({[i]} ∪ mw_slots w) (mw_spools w) w)
      else Some w
  | ReleaseSlot => fun _ => Some (with_holders (mw_slots w ∖ {[i]}) (mw_spools w) w)
  | SpoolCreate => fun err => Some (if is_nil err then with_holders (mw_slots w) ({[i]} ∪ mw_spools w) w else w)
  | SpoolRemove => fun _ => Some (with_holders (mw_slots w) (mw_spools w ∖ {[i]}) w)
  | NewMediaID t => fun id => issue_answer i t id w
  | PutObject key data size _ => fun err => put_answer key data size err w
  | OpenObject key => fun opened => open_answer key opened w
  | DeleteObject key => fun err => delete_answer key err w
  | CreateMetadata r => fun err => create_answer r err w
  | ClaimJob _ _ => fun claimed => claim_answer claimed w
  | _ => fun _ => Some w
  end.

(** The object of a record has its size and its digest. *)
Definition holds_bytes (w : MediaWorld) (key : string) (size : Z) (digest : bytes) : Prop :=
  exists data, mw_objects w !! key = Some data /\ blen data = size /\ sha256 data = digest.
Definition intact (w : MediaWorld) (r : MediaRecord) : Prop := holds_bytes w (mr_ObjectKey r) (mr_Size r) (mr_SHA256 r).

Record media_world_ok (w : MediaWorld) : Prop := {
  mok_rows : forall k r, mw_rows w !! k = Some r ->
    k = row_key r /\ mr_ObjectKey r = opaqueObjectKey (mr_TenantID r) (mr_ID r) /\ validMediaRecord r = true /\
    (assigned (mr_ObjectKey r) = true \/ is_Some (mw_issued w !! mr_ObjectKey r)) /\
    (mr_ObjectKey r ∈ mw_lost w \/ intact w r);
  mok_issued : forall key i, mw_issued w !! key = Some i -> assigned key = false;
  mok_lost : forall key, key ∈ mw_lost w -> is_Some (mw_issued w !! key);
  mok_slots : (size (mw_slots w) <= quota)%nat;
  mok_spools : mw_spools w ⊆ mw_slots w
}.

(** The key is one thread [i] may write to. *)
Definition mine (i : nat) (w : MediaWorld) (key : string) : Prop := assigned key = true \/ mw_issued w !! key = Some i.

Record media_rely (j : nat) (w w' : MediaWorld) : Prop := {
  mrel_objects : forall key data, mine j w key -> mw_objects w !! key = Some data -> mw_objects w' !! key = Some data;
  mrel_rows : forall k r, mw_rows w !! k = Some r -> mw_rows w' !! k = Some r;
  mrel_new_rows : forall k r, mw_rows w' !! k = Some r -> mw_issued w !! mr_ObjectKey r = Some j -> mw_rows w !! k = Some r;
  mrel_issued : forall key, mw_issued w' !! key = Some j <-> mw_issued w !! key = Some j;
  mrel_lost : forall key, mw_issued w !! key = Some j -> key ∈ mw_lost w' <-> key ∈ mw_lost w;
  mrel_slots : j ∈ mw_slots w' <-> j ∈ mw_slots w;
  mrel_spools : j ∈ mw_spools w' <-> j ∈ mw_spools w
}.

(** Every ready row under the key is one whose commit was not reported. *)
Definition unreported (w : MediaWorld) (key : string) : Prop :=
  forall k r, mw_rows w !! k = Some r -> mr_ObjectKey r = key -> key ∈ mw_lost w.

(** What holds when thread [i] makes a call: a body is spooled under a slot and within
    the limit; an object is written under a key of the thread; metadata is written, and
    a job completed, only when the object is there with the recorded size and digest;
    and an object is deleted only when no reported row has it. *)
Definition media_allowed (maxBytes : Z) (i : nat) (X : Type) (c : MediaCall X) (w : MediaWorld) : Prop :=
  match c with
  | AcquireSlot => i ∉ mw_slots w
  | SpoolCreate => i ∈ mw_slots w /\ i ∉ mw_spools w
  | SpoolSecure | SpoolRewind => i ∈ mw_spools w
  | SpoolWrite data => i ∈ mw_spools w /\ blen data <= maxBytes + 1
  | ReleaseSlot => i ∉ mw_spools w
  | PutObject key data size _ => i ∈ mw_spools w /\ mine i w key /\ size = blen data /\ size <= maxBytes
  | DeleteObject key => mw_issued w !! key = Some i /\ unreported w key
  | CreateMetadata r => mine i w (mr_ObjectKey r) /\ mr_ObjectKey r = opaqueObjectKey (mr_TenantID r) (mr_ID r) /\
      validMediaRecord r = true /\ intact w r
  | PutReady job r _ _ => mr_TenantID r = ff_TenantID job /\ mr_ID r = ff_MediaID job /\ intact w r
  | _ => True
  end.
End World.

(** ** Every allowed call keeps the world and what the others rely on *)

Section Guarantee.
Variables (quota : nat) (assigned : string -> bool) (maxBytes : Z).
Abbreviation world_ok := (media_world_ok quota assigned).
Abbreviation relies := (media_rely assigned).

Lemma media_rely_refl j w : relies j w w.
Proof. by split. Qed.

Lemma fate_ok w : world_ok w -> world_ok (next_fate w).
Proof. intros []. by split. Qed.

Lemma fate_rely j w w' : relies j w w' -> relies j w (next_fate w').
Proof. intros []. by split. Qed.

Lemma put_ok key data w :
  mw_objects w !! key = None -> world_ok w -> world_ok (with_objects (<[key := data]> (mw_objects w)) w).
Proof.
  intros Hfree [Hr Hi Hl Hs Hp]. split; try done. intros k r Hk. destruct (Hr k r Hk) as (? & ? & ? & ? & Hb).
  split_and!; try done. destruct Hb as [?|(d & Hd & ? & ?)]; [by left|]. right. exists d. split; [|done]. cbn.
  rewrite lookup_insert_ne; [done|congruence].
Qed.

Lemma put_rely j key data w : mw_objects w !! key = None -> relies j w (with_objects (<[key := data]> (mw_objects w)) w).
Proof. intros Hfree. split; try done. intros key' d _ Hd. cbn. rewrite lookup_insert_ne; [done|congruence]. Qed.

Lemma delete_ok i key w :
  mw_issued w !! key = Some i -> unreported w key -> world_ok w -> world_ok (with_objects (delete key (mw_objects w)) w).
Proof.
  intros Hkey Hun [Hr Hi Hl Hs Hp]. split; try done. intros k r Hk. destruct (Hr k r Hk) as (? & ? & ? & ? & Hb).
  split_and!; try done. destruct (decide (mr_ObjectKey r = key)) as [<-|Hne]; [left; cbn; by eapply Hun|].
  destruct Hb as [?|(d & Hd & ? & ?)]; [by left|]. right. exists d. split; [|done]. cbn. by rewrite lookup_delete_ne.
Qed.

Lemma delete_rely i j key w :
  mw_issued w !! key = Some i -> j <> i -> world_ok w -> relies j w (with_objects (delete key (mw_objects w)) w).
Proof.
  intros Hkey Hne Hok. split; try done. intros key' d Hm Hd. cbn. rewrite lookup_delete_ne; [done|]. intros <-.
  destruct Hm as [Ha|Hj]; [|congruence]. by rewrite (mok_issued _ _ _ Hok _ _ Hkey) in Ha.
Qed.

Lemma row_ok i r w lost :
  mw_rows w !! row_key r = None -> mine assigned i w (mr_ObjectKey r) ->
  mr_ObjectKey r = opaqueObjectKey (mr_TenantID r) (mr_ID r) -> validMediaRecord r = true -> intact w r ->
  (lost = mw_lost w \/ assigned (mr_ObjectKey r) = false /\ lost = {[mr_ObjectKey r]} ∪ mw_lost w) ->
  world_ok w -> world_ok (with_lost lost (with_row (row_key r) r w)).
Proof.
  intros Hfree Hm Hkey Hv Hin Hlost [Hr Hi Hl Hs Hp]. split; try done.
  - cbn. intros k r' [[<- <-]|[Hne Hk]]%lookup_insert_Some.
    + split_and!; try done; [|by right]. destruct Hm as [?|Hm]; [by left|]. right. by eexists.
    + destruct (Hr k r' Hk) as (? & ? & ? & ? & Hb). split_and!; try done. destruct Hb as [?|Hb]; [left|by right].
      destruct Hlost as [->|[_ ->]]; set_solver.
  - intros key. cbn. destruct Hlost as [->|[Ha ->]]; [apply Hl|]. intros [->%elem_of_singleton|?]%elem_of_union; [|by apply Hl].
    destruct Hm as [Hm|Hm]; [congruence|by eexists].
Qed.

Lemma row_rely i j r w lost :
  mw_rows w !! row_key r = None -> mine assigned i w (mr_ObjectKey r) -> j <> i ->
  (lost = mw_lost w \/ assigned (mr_ObjectKey r) = false /\ lost = {[mr_ObjectKey r]} ∪ mw_lost w) ->
  world_ok w -> relies j w (with_lost lost (with_row (row_key r) r w)).
Proof.
  intros Hfree Hm Hne Hlost Hok. split; try done; cbn.
  - intros k r' Hk. rewrite lookup_insert_ne; [done|congruence].
  - intros k r' [[<- <-]|[? Hk]]%lookup_insert_Some Hj; [|done]. destruct Hm as [Ha|Hi]; [|congruence].
    by rewrite (mok_issued _ _ _ Hok _ _ Hj) in Ha.
  - intros key Hj. destruct Hlost as [->|[Ha ->]]; [done|]. rewrite elem_of_union, elem_of_singleton.
    split; [|by right]. intros [->|?]; [|done]. destruct Hm as [?|?]; congruence.
Qed.

Lemma with_lost_same w : with_lost (mw_lost w) w = w.
Proof. by destruct w. Qed.

Lemma issue_ok i key w :
  assigned key = false -> mw_issued w !! key = None -> world_ok w -> world_ok (with_issued key i w).
Proof.
  intros Ha Hfree [Hr Hi Hl Hs Hp]. assert (forall key', is_Some (mw_issued w !! key') -> is_Some (<[key := i]> (mw_issued w) !! key')) as Hmono.
  { intros key' [n Hn]. exists n. rewrite lookup_insert_ne; [done|congruence]. }
  split; try done; cbn.
  - intros k r Hk. destruct (Hr k r Hk) as (? & ? & ? & Hown & ?). split_and!; try done. destruct Hown; auto.
  - intros key' n [[<- _]|[_ ?]]%lookup_insert_Some; [done|by eapply Hi].
  - intros key' Hk. apply Hmono, Hl, Hk.
Qed.

Lemma issue_rely i j key w :
  mw_issued w !! key = None -> j <> i -> relies j w (with_issued key i w).
Proof.
  intros Hfree Hne. split; try done; cbn. intros key'. destruct (decide (key' = key)) as [->|Hk].
  - rewrite lookup_insert_eq, Hfree. split; [congruence|done].
  - by rewrite lookup_insert_ne.
Qed.

Lemma holders_ok slots spools w :
  (size slots <= quota)%nat -> spools ⊆ slots -> world_ok w -> world_ok (with_holders slots spools w).
Proof. intros ? ? []. by split. Qed.

Lemma holders_rely j slots spools w :
  (j ∈ slots <-> j ∈ mw_slots w) -> (j ∈ spools <-> j ∈ mw_spools w) -> relies j w (with_holders slots spools w).
Proof. by split. Qed.

Lemma guarded_Some b w w' : guarded b w = Some w' -> b = true /\ w' = w.
Proof. unfold guarded. destruct b; [|done]. by intros [= <-]. Qed.

Lemma create_guarantee i r err w w' :
  world_ok w -> mine assigned i w (mr_ObjectKey r) -> mr_ObjectKey r = opaqueObjectKey (mr_TenantID r) (mr_ID r) ->
  validMediaRecord r = true -> intact w r -> create_answer assigned r err w = Some w' ->
  world_ok w' /\ forall j, j <> i -> relies j w w'.
Proof.
  intros Hok Hm Hkey Hv Hin. unfold create_answer. rewrite Hv. cbn [andb]. cbv zeta.
  destruct (bool_decide (mw_rows w !! row_key r = None)) eqn:Efree; reflect_bools; rewrite ?andb_true_r, ?andb_false_r; cbn [andb].
  - assert (forall lost, (lost = mw_lost w \/ assigned (mr_ObjectKey r) = false /\ lost = {[mr_ObjectKey r]} ∪ mw_lost w) ->
      world_ok (with_lost lost (with_row (row_key r) r w)) /\ forall j, j <> i -> relies j w (with_lost lost (with_row (row_key r) r w))) as Hrow.
    { intros lost Hl. split; [by eapply row_ok|]. intros j Hj. by eapply row_rely. }
    assert (with_row (row_key r) r w = with_lost (mw_lost w) (with_row (row_key r) r w)) as Hsame by (by destruct w).
    unfold effective. destruct (is_nil err); cbn [orb].
    + intros [= <-]. rewrite Hsame. apply Hrow. by left.
    + destruct (default false (head (mw_fate w))); cbn [andb].
      * intros [= <-]. destruct (assigned (mr_ObjectKey r)) eqn:Ea; cbn [negb].
        -- rewrite Hsame. destruct (Hrow (mw_lost w) (or_introl eq_refl)). split; [by apply fate_ok|]. intros. apply fate_rely; auto.
        -- destruct (Hrow _ (or_intror (conj eq_refl eq_refl))). split; [by apply fate_ok|]. intros. apply fate_rely; auto.
      * intros [= <-]. split; [by apply fate_ok|]. intros. apply fate_rely, media_rely_refl.
  - destruct (is_nil err); [done|]. intros [= <-]. split; [by apply fate_ok|]. intros. apply fate_rely, media_rely_refl.
Qed.

Lemma media_guarantee i X (c : MediaCall X) w x w' :
  world_ok w -> media_allowed assigned maxBytes i X c w -> media_respond quota assigned i X c w x = Some w' ->
  world_ok w' /\ forall j, j <> i -> relies j w w'.
Proof.
  intros Hok Hal Hr. destruct c; cbn in Hr, Hal; try (injection Hr as <-; split; [done|intros; apply media_rely_refl]).
  - destruct (is_nil x); [|injection Hr as <-; split; [done|intros; apply media_rely_refl]].
    apply guarded_Some in Hr as [Hq ->]. reflect_bools. split.
    + apply holders_ok; [|pose proof (mok_spools _ _ _ Hok); set_solver|done]. rewrite size_union by set_solver. rewrite size_singleton. lia.
    + intros j Hj. apply holders_rely; set_solver.
  - injection Hr as <-. split.
    + apply holders_ok; [|pose proof (mok_spools _ _ _ Hok); set_solver|done].
      pose proof (mok_slots _ _ _ Hok). pose proof (subseteq_size (mw_slots w ∖ {[i]}) (mw_slots w) ltac:(set_solver)). lia.
    + intros j Hj. apply holders_rely; set_solver.
  - injection Hr as <-. destruct (is_nil x); [|split; [done|intros; apply media_rely_refl]]. split.
    + apply holders_ok; [apply (mok_slots _ _ _ Hok)|pose proof (mok_spools _ _ _ Hok); set_solver|done].
    + intros j Hj. apply holders_rely; set_solver.
  - injection Hr as <-. split.
    + apply holders_ok; [apply (mok_slots _ _ _ Hok)|pose proof (mok_spools _ _ _ Hok); set_solver|done].
    + intros j Hj. apply holders_rely; set_solver.
  - unfold issue_answer in Hr. cbv zeta in Hr. case_if_in Hr E; [injection Hr as <-; split; [done|intros; apply media_rely_refl]|].
    apply guarded_Some in Hr as [Hg ->]. reflect_bools. split; [by apply issue_ok|]. intros. by apply issue_rely.
  - unfold put_answer in Hr. cbv zeta in Hr.
    destruct (bool_decide (mw_objects w !! key = None)) eqn:Ef; reflect_bools; cbn [andb] in Hr.
    + assert (world_ok (with_objects (<[key := data]> (mw_objects w)) w) /\
        forall j, j <> i -> relies j w (with_objects (<[key := data]> (mw_objects w)) w)) as [Hp1 Hp2].
      { split; [by apply put_ok|]. intros. by apply put_rely. }
      destruct (is_nil x).
      * apply guarded_Some in Hr as [Hs ->]. case_match; [done|]. split; [done|intros; apply media_rely_refl].
      * injection Hr as <-. case_match; (split; [by apply fate_ok|intros; apply fate_rely; auto using media_rely_refl]).
    + rewrite andb_false_r in Hr. destruct (is_nil x); [done|]. injection Hr as <-.
      split; [by apply fate_ok|intros; apply fate_rely, media_rely_refl].
  - unfold open_answer in Hr. destruct x as [[body info]|e].
    + destruct (mw_objects w !! key); [|done]. apply guarded_Some in Hr as [_ ->]. split; [done|intros; apply media_rely_refl].
    + assert (w' = w) as -> by (by destruct (mw_objects w !! key); apply guarded_Some in Hr as [_ ->]). split; [done|intros; apply media_rely_refl].
  - destruct Hal as [Hi Hun]. unfold delete_answer in Hr. cbv zeta in Hr.
    assert (world_ok (with_objects (delete key (mw_objects w)) w) /\
        forall j, j <> i -> relies j w (with_objects (delete key (mw_objects w)) w)) as [Hp1 Hp2].
    { split; [by eapply delete_ok|]. intros. by eapply delete_rely. }
    destruct (is_nil x); injection Hr as <-; (case_match; [|split; [by try apply fate_ok|intros; try apply fate_rely; apply media_rely_refl]]).
    + done.
    + split; [by apply fate_ok|]. intros. apply fate_rely; auto.
  - destruct Hal as (Hm & Hkey & Hv & Hin). by eapply create_guarantee.
  - unfold claim_answer in Hr. destruct x as [[job|]|e]; [apply guarded_Some in Hr as [_ ->]|injection Hr as <-..];
      (split; [done|intros; apply media_rely_refl]).
Qed.
End Guarantee.

(** ** The threads *)

Section Thread.
Variables (quota : nat) (assigned : string -> bool) (uploader : Uploader) (i : nat).
Hypothesis Huploader : uploader_ok uploader.
Context (ParseMediaType : string -> option string) (DecodeConfig : bytes -> result (Z * Z)).

Abbreviation world_ok := (media_world_ok quota assigned).
Abbreviation env := (others (media_rely assigned) world_ok i).
Abbreviation responds := (media_respond quota assigned i).
Abbreviation sf := (safe env responds (media_allowed assigned (ur_maxBytes uploader) i)).

(** What the thread holds, and what it knows. *)
Definition view (slot spool : bool) (K : MediaWorld -> Prop) (w : MediaWorld) : Prop :=
  world_ok w /\ (i ∈ mw_slots w <-> slot = true) /\ (i ∈ mw_spools w <-> spool = true) /\ K w.

Definition known (K : MediaWorld -> Prop) : Prop := forall w w', env w w' -> K w -> K w'.

Lemma media_view_stable slot spool K : known K -> forall w w', env w w' -> view slot spool K w -> view slot spool K w'.
Proof.
  intros HK w w' He (Hok & Hs & Hp & Hk). pose proof He as [[_ _ _ _ _ Hs' Hp'] Hok']. split; [done|].
  rewrite Hs', Hp'. split_and!; try done. by eapply HK.
Qed.

Lemma known_True : known (fun _ => True).
Proof. done. Qed.

(** A thread returns with what it knows. *)
Lemma view_ret {A} (a : A) slot spool K (Q : A -> MediaWorld -> Prop) w :
  known K -> view slot spool K w -> (forall w, view slot spool K w -> Q a w) -> sf (Ret a) Q w.
Proof. intros HK Hv HQ. eapply (safe_ret _ _ _ (view slot spool K)); [by apply media_view_stable|done|done]. Qed.

(** A call that changes nothing. *)
Lemma quiet {A X} (c : MediaCall X) (k : X -> prog MediaCall A) slot spool K Q w :
  known K -> view slot spool K w -> (forall w, view slot spool K w -> media_allowed assigned (ur_maxBytes uploader) i X c w) ->
  (forall w x w', responds X c w x = Some w' -> w' = w) -> (forall x w, view slot spool K w -> sf (k x) Q w) -> sf (Call c k) Q w.
Proof.
  intros HK Hv Hal Hsame Hk. eapply (safe_call _ _ _ (view slot spool K)); [by apply media_view_stable|done|done|].
  intros w1 x w2 Hw1 Hr. rewrite (Hsame _ _ _ Hr). by apply Hk.
Qed.

(** The key belongs to a job, or to an upload that has not been recorded. *)
Definition owned (key : string) (w : MediaWorld) : Prop :=
  assigned key = true \/
  mw_issued w !! key = Some i /\ (key ∉ mw_lost w) /\ forall k r, mw_rows w !! k = Some r -> mr_ObjectKey r <> key.

Lemma owned_mine key w : owned key w -> mine assigned i w key.
Proof. intros [?|(? & _)]; [by left|by right]. Qed.

Lemma owned_known key : known (owned key).
Proof.
  intros w w' [[_ _ Hn Hi Hl _ _] _]. intros [Ha|(Hk & Hlost & Hrows)]; [by left|right]. rewrite Hi. split_and!; [done| |].
  - by rewrite Hl.
  - intros k r Hr Hkey. refine (Hrows k r (Hn _ _ Hr _) Hkey). by rewrite Hkey.
Qed.

Definition stored_under (key : string) (size : Z) (digest : bytes) (w : MediaWorld) : Prop :=
  owned key w /\ holds_bytes w key size digest.

Lemma holds_known key size digest w w' : env w w' -> mine assigned i w key -> holds_bytes w key size digest -> holds_bytes w' key size digest.
Proof. intros [[Ho _ _ _ _ _ _] _] Hm (d & Hd & ? & ?). exists d. split; [by apply Ho|done]. Qed.

Lemma stored_known key size digest : known (stored_under key size digest).
Proof.
  intros w w' He [Hm Hb]. split; [by eapply owned_known|]. eapply holds_known; [done|by apply owned_mine|done].
Qed.

(** The record is in the table and its object is intact for good. *)
Definition recorded (r : MediaRecord) (w : MediaWorld) : Prop :=
  mw_rows w !! row_key r = Some r /\ mine assigned i w (mr_ObjectKey r) /\ intact w r.

Lemma recorded_known r : known (recorded r).
Proof.
  intros w w' He (Hr & Hm & Hi). pose proof He as [[_ Hrows _ Hiss _ _ _] _]. split_and!.
  - by apply Hrows.
  - destruct Hm as [?|Hm]; [by left|right]. by apply Hiss.
  - by eapply holds_known.
Qed.

Lemma deletable_known key : known (fun w => mw_issued w !! key = Some i /\ unreported w key).
Proof.
  intros w w' [[_ _ Hn Hi Hl _ _] _] [Hk Hun]. split; [by apply Hi|]. intros k r Hr Hkey.
  apply Hl; [done|]. refine (Hun k r (Hn _ _ Hr _) Hkey). by rewrite Hkey.
Qed.

(** ** The uploader *)

Lemma same_object_spec stored size digest data :
  same_object stored size digest = true -> (bd_Err stored = [] -> bd_Data stored = data) ->
  blen data = size /\ sha256 data = digest.
Proof.
  unfold same_object, copyBounded. intros H Hd. destruct (blen (bd_Data stored) >? size); [done|].
  destruct (bd_Err stored); [|done]. rewrite (Hd eq_refl) in H. cbn [is_nil andb] in H. reflect_bools. done.
Qed.

Lemma putOrVerify_safe key data mime (Q : error -> MediaWorld -> Prop) w :
  blen data <= ur_maxBytes uploader -> view true true (owned key) w ->
  (forall w, view true true (stored_under key (blen data) (sha256 data)) w -> Q [] w) ->
  (forall e w, e <> [] -> view true true (owned key) w -> Q e w) ->
  sf (putOrVerify key data (blen data) mime (sha256 data)) Q w.
Proof.
  intros Hmax Hv Hok Herr. unfold putOrVerify.
  eapply (safe_call _ _ _ (view true true (owned key))); [apply media_view_stable, owned_known|done| |].
  { intros w1 (_ & _ & Hsp & Hown). cbn. split; [by apply Hsp|]. split; [by apply owned_mine|done]. }
  intros w1 err w2 Hv1 Hr. destruct Hv1 as (Hok1 & Hs1 & Hp1 & Hown1).
  assert (world_ok w2) as Hok2.
  { eapply media_guarantee; [exact Hok1| |exact Hr]. cbn. split; [by apply Hp1|]. split; [by apply owned_mine|done]. }
  cbn in Hr. unfold put_answer in Hr. cbv zeta in Hr. rewrite Z.eqb_refl, andb_true_r in Hr.
  destruct err as [|e0 err]; cbn [is_nil] in Hr |- *.
  - apply guarded_Some in Hr as [Hf ->]. unfold effective in *. cbn [is_nil orb andb] in *. rewrite Hf in *.
    eapply (view_ret _ true true (stored_under key (blen data) (sha256 data))); [apply stored_known| |done].
    split_and!; try done. split; [exact Hown1|]. exists data. cbn. by rewrite lookup_insert_eq.
  - injection Hr as <-. set (w2 := next_fate _) in *. assert (view true true (owned key) w2) as Hv2.
    { split; [done|]. subst w2. by destruct (effective (e0 :: err) w1 && _). }
    clearbody w2. clear dependent w1. clear Hv w.
    eapply (safe_call _ _ _ (view true true (owned key))); [apply media_view_stable, owned_known|done|done|].
    intros w opened w' Hvw Hr. cbn in Hr. unfold open_answer in Hr. destruct opened as [[stored info]|e].
    + destruct (mw_objects w !! key) as [found|] eqn:Eo; [|done]. apply guarded_Some in Hr as [[Hsz%Z.eqb_eq Hg]%andb_true_iff ->].
      assert (bd_Err stored = [] -> bd_Data stored = found) as Hd.
      { intros He. rewrite He in Hg. by apply bool_decide_eq_true in Hg. }
      destruct (same_object stored (blen data) (sha256 data)) eqn:Es.
      * destruct (same_object_spec _ _ _ _ Es Hd) as [Hl Hh].
        eapply (quiet _ _ true true (stored_under key (blen data) (sha256 data))); [apply stored_known| |done|by intros ??? [= <-]|].
        { destruct Hvw as (? & ? & ? & ?). split_and!; try done. split; [done|]. by exists found. }
        intros _ w1 Hv1. replace (oi_Size info =? blen data) with true by (symmetry; apply Z.eqb_eq; congruence). cbn [negb orb].
        eapply view_ret; [apply stored_known|exact Hv1|done].
      * eapply (quiet _ _ true true (owned key)); [apply owned_known|done|done|by intros ??? [= <-]|].
        intros _ w1 Hv1. cbn [negb]. rewrite orb_true_r. eapply view_ret; [apply owned_known|exact Hv1|by intros; apply Herr].
    + assert (e <> [] /\ w' = w) as [He ->].
      { by destruct (mw_objects w !! key); apply guarded_Some in Hr as [He ->]; destruct e. }
      eapply view_ret; [apply owned_known|exact Hvw|by intros; apply Herr].
Qed.
(** What an import leaves: a recorded medium under the identifier it was given, or
    nothing that is known. *)
Definition ingested (slot spool : bool) (t assignedID : string) (outcome : result MediaRecord) (w : MediaWorld) : Prop :=
  match outcome with
  | Ok r => view slot spool (recorded r) w /\ mr_TenantID r = t /\ (assignedID <> "" -> mr_ID r = assignedID)
  | Err _ => view slot spool (fun _ => True) w
  end.

Lemma view_weaken slot spool K K' w : (K w -> K' w) -> view slot spool K w -> view slot spool K' w.
Proof. intros HK (? & ? & ? & ?). split_and!; auto. Qed.

Lemma ingested_err slot spool K t assignedID e w :
  view slot spool K w -> sf (Ret (Err e)) (ingested slot spool t assignedID) w.
Proof. intros Hv. eapply view_ret; [apply known_True|by eapply view_weaken, Hv|done]. Qed.

Lemma create_refused r err w w' key :
  err <> [] -> create_answer assigned r err w = Some w' -> mr_ObjectKey r = key -> assigned key = false -> owned key w ->
  view true true (fun _ => True) w -> world_ok w' ->
  view true true (fun w => mw_issued w !! key = Some i /\ unreported w key) w'.
Proof.
  intros He Hr Hkey Ha Hown (_ & Hs & Hp & _) Hok'. destruct Hown as [?|(Hi & Hl & Hrows)]; [congruence|].
  unfold create_answer in Hr. cbv zeta in Hr. destruct err as [|e err]; [done|]. cbn [is_nil] in Hr. injection Hr as <-.
  rewrite Hkey, Ha in Hok' |- *. cbn [negb] in Hok' |- *. rewrite andb_true_r in Hok' |- *.
  destruct (effective (e :: err) w && _) eqn:Eb; (split; [exact Hok'|]); unfold unreported; cbn; split_and!; try done.
  - intros k r' [[_ <-]|[_ Hk]]%lookup_insert_Some Hk'; [set_solver|]. by destruct (Hrows _ _ Hk).
  - intros k r' Hk Hk'. by destruct (Hrows _ _ Hk).
Qed.

Lemma create_safe r t key (deleteOnMetadataFailure : bool) assignedID w :
  mr_TenantID r = t -> mr_ObjectKey r = key -> key = opaqueObjectKey (mr_TenantID r) (mr_ID r) -> validMediaRecord r = true ->
  (assignedID <> "" -> mr_ID r = assignedID) -> (deleteOnMetadataFailure = true -> assigned key = false) ->
  view true true (stored_under key (mr_Size r) (mr_SHA256 r)) w ->
  sf (call! err := CreateMetadata r in
      if is_nil err then Ret (Ok r)
      else if deleteOnMetadataFailure then (call! _ := DeleteObject key in Ret (Err err)) else Ret (Err err))
     (ingested true true t assignedID) w.
Proof.
  intros <- Hkey Hopaque Hvalid Hid Hflag Hv.
  assert (forall w, view true true (stored_under key (mr_Size r) (mr_SHA256 r)) w ->
            media_allowed assigned (ur_maxBytes uploader) i _ (CreateMetadata r) w) as Hal.
  { intros w1 (_ & _ & _ & Hown & Hb). cbn. rewrite Hkey. split_and!; try done; [by apply owned_mine|].
    unfold intact. by rewrite Hkey. }
  eapply (safe_call _ _ _ (view true true (stored_under key (mr_Size r) (mr_SHA256 r)))); [apply media_view_stable, stored_known|done|done|].
  intros w1 err w2 Hv1 Hr. pose proof (Hal _ Hv1) as Hal1. pose proof Hv1 as (Hok1 & Hs1 & Hp1 & Hown1 & Hb1).
  assert (world_ok w2) as Hok2 by (by eapply media_guarantee). cbn in Hr. destruct err as [|e err]; cbn [is_nil].
  - unfold create_answer in Hr. cbv zeta in Hr. cbn [is_nil] in Hr. apply guarded_Some in Hr as [Hf ->].
    unfold effective in *. cbn [is_nil orb andb] in *. rewrite Hf in *.
    eapply (view_ret _ true true (recorded r)); [apply recorded_known| |intros w3 Hv3; exact (conj Hv3 (conj eq_refl Hid))].
    split_and!; try done. split; [cbn; by rewrite lookup_insert_eq|]. split; [rewrite Hkey; exact (owned_mine _ _ Hown1)|].
    unfold intact. rewrite Hkey. exact Hb1.
  - destruct deleteOnMetadataFailure.
    + assert (view true true (fun w => mw_issued w !! key = Some i /\ unreported w key) w2) as Hv2.
      { eapply create_refused; [|exact Hr|done|by apply Hflag|done|by eapply view_weaken, Hv1|done]. done. }
      eapply (safe_call _ _ _ (view true true (fun w => mw_issued w !! key = Some i /\ unreported w key)));
        [apply media_view_stable, deletable_known|done|by intros ? (_ & _ & _ & ?)|].
      intros w3 x w4 Hv3 Hr3. pose proof Hv3 as (Hok3 & Hs3 & Hp3 & Hd3).
      eapply (ingested_err true true (fun _ => True)). split.
      { eapply (media_guarantee _ _ (ur_maxBytes uploader)); [exact Hok3| |exact Hr3]. exact Hd3. }
      cbn in Hr3. unfold delete_answer in Hr3. cbv zeta in Hr3.
      destruct (is_nil x); injection Hr3 as <-; destruct (effective x w3); done.
    + eapply (ingested_err true true (fun _ => True)). split; [done|]. unfold create_answer in Hr. cbv zeta in Hr. cbn [is_nil] in Hr.
      injection Hr as <-. repeat case_match; done.
Qed.

Lemma store_media_safe t assignedID upload data mime width height (deleteOnMetadataFailure : bool) w :
  t <> "" -> blen data <= ur_maxBytes uploader ->
  mime ∈ ["image/png"; "image/jpeg"; "image/gif"; "image/webp"] -> 1 <= width -> 1 <= height ->
  (assignedID = "" \/ assigned (opaqueObjectKey t assignedID) = true /\ deleteOnMetadataFailure = false) ->
  view true true (fun _ => True) w ->
  sf (store_media t assignedID upload data mime width height deleteOnMetadataFailure) (ingested true true t assignedID) w.
Proof.
  intros Ht Hmax Hmime Hw Hh Hkind Hv. unfold store_media.
  eapply (safe_bind _ _ _ _ _ (fun id w => if id =s "" then view true true (fun _ => True) w
    else (deleteOnMetadataFailure = true -> assigned (opaqueObjectKey t id) = false) /\ (assignedID <> "" -> id = assignedID) /\
         view true true (owned (opaqueObjectKey t id)) w)).
  - case_if_goal Ea; reflect_bools.
    + eapply (safe_call _ _ _ (view true true (fun _ => True))); [apply media_view_stable, known_True|done|done|].
      intros w1 id w2 Hv1 Hr. assert (world_ok w2) as Hok2 by (eapply (media_guarantee _ _ (ur_maxBytes uploader)); [apply Hv1| |exact Hr]; done).
      cbn in Hr. unfold issue_answer in Hr. cbv zeta in Hr. case_if_in Hr Eid.
      * injection Hr as <-. eapply view_ret; [apply known_True|exact Hv1|]. by rewrite Eid.
      * apply guarded_Some in Hr as [Hg ->]. reflect_bools.
        eapply (view_ret _ true true (owned (opaqueObjectKey t id))); [apply owned_known| |].
        -- destruct Hv1 as (Hok1 & ? & ? & _). split_and!; try done. right. cbn. rewrite lookup_insert_eq. split_and!; [done| |].
           ++ intros Hl%(mok_lost _ _ _ Hok1). destruct Hl. congruence.
           ++ intros k r Hk Hkey. destruct (mok_rows _ _ _ Hok1 _ _ Hk) as (_ & _ & _ & Hown & _). rewrite Hkey in Hown.
              destruct Hown as [?|[? ?]]; congruence.
        -- intros w3 Hv3. rewrite (proj2 (String.eqb_neq id "")) by done. done.
    + destruct Hkind as [?|[Hass ->]]; [done|].
      eapply view_ret; [apply (owned_known (opaqueObjectKey t assignedID))|eapply view_weaken, Hv; by left|].
      intros w3 Hv3. rewrite (proj2 (String.eqb_neq assignedID "")) by done. done.
  - intros id w1 Hid. case_if_goal Eid; [by eapply ingested_err|]. destruct Hid as (Hflag & Hsame & Hv1). reflect_bools.
    eapply (safe_bind _ _ _ _ _ (fun err w => if is_nil err
      then view true true (stored_under (opaqueObjectKey t id) (blen data) (sha256 data)) w else view true true (fun _ => True) w)).
    + apply putOrVerify_safe; [done|done|done|]. intros [|e err] w2 He Hv2; [done|]. by eapply view_weaken, Hv2.
    + intros [|e err] w2 Hv2; cbn [is_nil negb] in *; [|by eapply ingested_err].
      eapply quiet; [apply stored_known|exact Hv2|done|by intros ??? [= <-]|]. intros now w3 Hv3.
      eapply (create_safe (record_of t id (ul_Filename upload) data mime width height now)); [done|done|done|apply record_of_valid; try done; destruct Huploader; lia|done|done|exact Hv3].
Qed.
Lemma copyBounded_data body maximum data err :
  copyBounded body maximum = (data, err) -> 0 <= maximum -> blen data <= maximum + 1 /\ (err = [] -> blen data <= maximum).
Proof.
  unfold copyBounded. intros H Hm. destruct (blen (bd_Data body) >? maximum) eqn:E; injection H as <- <-; reflect_bools.
  - split; [|done]. unfold blen. rewrite length_take. lia.
  - split; [lia|done].
Qed.

Lemma ingest_spooled_safe t assignedID upload body (deleteOnMetadataFailure : bool) w :
  t <> "" ->
  (assignedID = "" \/ assigned (opaqueObjectKey t assignedID) = true /\ deleteOnMetadataFailure = false) ->
  view true true (fun _ => True) w ->
  sf (ingest_spooled ParseMediaType DecodeConfig uploader t assignedID upload body deleteOnMetadataFailure)
     (ingested true true t assignedID) w.
Proof.
  intros Ht Hkind Hv. unfold ingest_spooled. destruct (copyBounded body (ur_maxBytes uploader)) as [data readErr] eqn:Ec.
  apply copyBounded_data in Ec as [Hb Hmax]; [|destruct Huploader; lia].
  eapply quiet; [apply known_True|exact Hv| |by intros ??? [= <-]|].
  { intros w1 (_ & _ & Hp & _). split; [by apply Hp|done]. }
  intros writeErr w1 Hv1. case_if_goal E1; [by eapply ingested_err|]. case_if_goal E2; [by eapply ingested_err|].
  case_if_goal E3; [by eapply ingested_err|]. destruct readErr; [specialize (Hmax eq_refl)|done].
  eapply quiet; [apply known_True|exact Hv1|by intros w2 (_ & _ & Hp & _); apply Hp|by intros ??? [= <-]|].
  intros err w2 Hv2. case_if_goal E4; [by eapply ingested_err|].
  destruct (inspectImage DecodeConfig (ur_maxPixels uploader) data) as [[[mime width] height]|e] eqn:Ei; [|by eapply ingested_err].
  apply inspectImage_accepted in Ei as (Hmime & Hw & Hh & _). case_if_goal E5; [by eapply ingested_err|].
  eapply quiet; [apply known_True|exact Hv2|by intros w3 (_ & _ & Hp & _); apply Hp|by intros ??? [= <-]|].
  intros err' w3 Hv3. case_if_goal E6; [by eapply ingested_err|]. by apply store_media_safe.
Qed.

(** Giving back a slot or a spool keeps what was recorded. *)
Lemma give_back {X} (c : MediaCall X) slot spool slot' spool' t assignedID outcome w x w' :
  (slot' = slot /\ spool' = false /\ mw_spools w' = mw_spools w ∖ {[i]} /\ mw_slots w' = mw_slots w \/
   spool' = spool /\ slot' = false /\ mw_slots w' = mw_slots w ∖ {[i]} /\ mw_spools w' = mw_spools w) ->
  responds X c w x = Some w' -> media_allowed assigned (ur_maxBytes uploader) i X c w ->
  (forall r, recorded r w -> recorded r w') ->
  ingested slot spool t assignedID outcome w -> ingested slot' spool' t assignedID outcome w'.
Proof.
  intros Hback Hr Hal Hrec Hi.
  assert (forall K K' : MediaWorld -> Prop, (K w -> K' w') -> view slot spool K w -> view slot' spool' K' w') as Hview.
  { intros K K' HK (Hok & Hs & Hp & Hk). split; [by eapply media_guarantee|].
    destruct Hback as [(-> & -> & -> & ->)|(-> & -> & -> & ->)]; split_and!; auto; set_solver. }
  destruct outcome as [r|e]; [|by eapply Hview, Hi]. destruct Hi as (Hv & Hrest). split; [|done].
  eapply Hview; [apply Hrec|exact Hv].
Qed.

Lemma ingested_call {X B} (c : MediaCall X) (k : X -> prog MediaCall B) slot spool t assignedID outcome Q w :
  ingested slot spool t assignedID outcome w ->
  (forall w, ingested slot spool t assignedID outcome w -> media_allowed assigned (ur_maxBytes uploader) i X c w) ->
  (forall w x w', ingested slot spool t assignedID outcome w -> responds X c w x = Some w' -> sf (k x) Q w') ->
  sf (Call c k) Q w.
Proof.
  intros Hi Hal Hk. eapply (safe_call _ _ _ (ingested slot spool t assignedID outcome)); [|done|done|done].
  intros w1 w2 He. destruct outcome as [r|e]; cbn.
  - intros (Hv & Hrest). split; [|done]. eapply media_view_stable; [apply recorded_known|exact He|exact Hv].
  - apply media_view_stable; [apply known_True|exact He].
Qed.

Lemma ingested_ret {B} (b : B) slot spool t assignedID outcome (Q : B -> MediaWorld -> Prop) w :
  ingested slot spool t assignedID outcome w ->
  (forall w, ingested slot spool t assignedID outcome w -> Q b w) -> sf (Ret b) Q w.
Proof.
  intros Hi HQ. destruct outcome as [r|e].
  - destruct Hi as (Hv & Hrest). eapply view_ret; [apply recorded_known|exact Hv|]. intros w1 Hv1. apply HQ. by split.
  - eapply view_ret; [apply known_True|exact Hi|]. intros w1 Hv1. by apply HQ.
Qed.

Lemma ingested_view slot spool t assignedID outcome w :
  ingested slot spool t assignedID outcome w -> view slot spool (fun _ => True) w.
Proof. destruct outcome; [|done]. intros (Hv & _). by eapply view_weaken, Hv. Qed.

Lemma ingest_safe t assignedID upload (deleteOnMetadataFailure : bool) w :
  (assignedID = "" \/ assigned (opaqueObjectKey t assignedID) = true /\ deleteOnMetadataFailure = false) ->
  view false false (fun _ => True) w ->
  sf (ingest ParseMediaType DecodeConfig uploader t assignedID upload deleteOnMetadataFailure)
     (ingested false false t assignedID) w.
Proof.
  intros Hkind Hv. unfold ingest. destruct (ul_Body upload) as [body|]; [|by eapply ingested_err].
  case_if_goal E1; [by eapply ingested_err|]. case_if_goal E2; [by eapply ingested_err|]. reflect_bools.
  eapply (safe_call _ _ _ (view false false (fun _ => True))); [apply media_view_stable, known_True|exact Hv|by intros w1 (_ & Hs & _) ?%Hs|].
  intros w1 err w2 Hv1 Hr. destruct err as [|e err]; cbn [is_nil negb];
    [|cbn in Hr; injection Hr as <-; by eapply ingested_err].
  assert (view true false (fun _ => True) w2) as Hv2.
  { destruct Hv1 as (Hok1 & Hs & Hp & _). split.
    - eapply (media_guarantee _ _ (ur_maxBytes uploader)); [exact Hok1| |exact Hr]. cbn. by intros ?%Hs.
    - cbn in Hr. apply guarded_Some in Hr as [_ ->]. cbn. split_and!; [set_solver|done|done]. }
  clear Hr Hv1 Hv w w1. eapply (safe_bind _ _ _ _ _ (ingested true false t assignedID)).
  - unfold ingest_admitted. eapply quiet; [apply known_True|exact Hv2|done|by intros ??? [= <-]|].
    intros err w Hv. case_if_goal E3; [by eapply ingested_err|].
    eapply (safe_call _ _ _ (view true false (fun _ => True))); [apply media_view_stable, known_True|exact Hv| |].
    { intros w1 (_ & Hs & Hp & _). split; [by apply Hs|]. by intros ?%Hp. }
    intros w1 err' w3 Hv1 Hr. destruct err' as [|e err']; cbn [is_nil negb];
      [|cbn in Hr; injection Hr as <-; by eapply ingested_err].
    assert (view true true (fun _ => True) w3) as Hv3.
    { destruct Hv1 as (Hok1 & Hs & Hp & _). split.
      - eapply (media_guarantee _ _ (ur_maxBytes uploader)); [exact Hok1| |exact Hr]. split; [by apply Hs|by intros ?%Hp].
      - cbn in Hr. injection Hr as <-. cbn. split_and!; [done|set_solver|done]. }
    eapply (safe_bind _ _ _ _ _ (ingested true true t assignedID)).
    + eapply quiet; [apply known_True|exact Hv3|by intros w4 (_ & _ & Hp & _); apply Hp|by intros ??? [= <-]|].
      intros err'' w4 Hv4. case_if_goal E4; [by eapply ingested_err|]. by apply ingest_spooled_safe.
    + intros outcome w4 Hi. eapply ingested_call; [exact Hi|done|]. intros w5 x w6 Hi5 Hr5.
      eapply ingested_ret; [eapply (give_back SpoolRemove true true); [|exact Hr5|done| |exact Hi5]|done];
        cbn in Hr5; injection Hr5 as <-; cbn; [by left|done].
  - intros outcome w Hi. eapply ingested_call; [exact Hi| |].
    { intros w1 (_ & _ & Hp & _)%ingested_view. by intros ?%Hp. }
    intros w5 x w6 Hi5 Hr5. pose proof (ingested_view _ _ _ _ _ _ Hi5) as (_ & _ & Hp & _).
    eapply ingested_ret; [eapply (give_back ReleaseSlot true false); [|exact Hr5| | |exact Hi5]|done];
      cbn in Hr5; injection Hr5 as <-; cbn; [by right|by intros ?%Hp|done].
Qed.
(** ** The worker *)

Definition idle {A} (_ : A) (w : MediaWorld) : Prop := view false false (fun _ => True) w.

Lemma idle_ret {A} (a : A) K w : view false false K w -> sf (Ret a) idle w.
Proof. intros Hv. eapply view_ret; [apply known_True|by eapply view_weaken, Hv|done]. Qed.

(** The object of a verified or imported record is there and stays there. *)
Definition verified (job : FetchJob) (r : MediaRecord) (w : MediaWorld) : Prop :=
  mr_TenantID r = ff_TenantID job /\ mr_ID r = ff_MediaID job /\ mine assigned i w (mr_ObjectKey r) /\ intact w r.

Lemma verified_known job r : known (verified job r).
Proof.
  intros w w' He (? & ? & Hm & Hi). pose proof He as [[_ _ _ Hiss _ _ _] _]. split_and!; try done.
  - destruct Hm as [?|Hm]; [by left|right]. by apply Hiss.
  - by eapply holds_known.
Qed.

Lemma completeReady_safe worker job r w :
  view false false (verified job r) w -> sf (completeReady worker job r) idle w.
Proof.
  intros Hv. unfold completeReady. eapply quiet; [apply verified_known|exact Hv|done|by intros ??? [= <-]|].
  intros eventID w1 Hv1. eapply quiet; [apply verified_known|exact Hv1|done|by intros ??? [= <-]|]. intros now w2 Hv2.
  destruct (mediaEventBody _ _ _ _ _) as [body|e]; [|by eapply idle_ret]. case_if_goal E; [by eapply idle_ret|].
  eapply quiet; [apply verified_known|exact Hv2| |by intros ??? [= <-]|].
  - intros w3 (_ & _ & _ & ? & ? & _ & ?). by split_and!.
  - intros err w3 Hv3. by eapply idle_ret.
Qed.

Lemma failed_attempt_safe worker job cause w :
  view false false (fun _ => True) w -> sf (failed_attempt worker job cause) idle w.
Proof.
  intros Hv. unfold failed_attempt, completeFailure. eapply quiet; [apply known_True|exact Hv|done|by intros ??? [= <-]|].
  intros ctxErr w1 Hv1. case_if_goal E1; [by eapply idle_ret|]. cbv zeta.
  case_if_goal E2; repeat (eapply quiet; [apply known_True|eassumption|done|by intros ??? [= <-]|]; intros);
    [by eapply idle_ret|].
  destruct (mediaEventBody _ _ _ _ _) as [body|e]; [|by eapply idle_ret]. case_if_goal E3; [by eapply idle_ret|].
  eapply quiet; [apply known_True|eassumption|done|by intros ??? [= <-]|]. intros. by eapply idle_ret.
Qed.

Lemma Verify_safe job expected w :
  assigned (mr_ObjectKey expected) = true -> view false false (fun _ => True) w ->
  sf (Verify uploader (ff_TenantID job) (ff_MediaID job) expected)
     (fun outcome w => match outcome with Ok r => view false false (verified job r) w | Err _ => view false false (fun _ => True) w end) w.
Proof.
  intros Ha Hv. unfold Verify. case_if_goal E; [by eapply view_ret; [apply known_True|exact Hv|]|]. reflect_bools.
  eapply (safe_call _ _ _ (view false false (fun _ => True))); [apply media_view_stable, known_True|exact Hv|done|].
  intros w1 opened w2 Hv1 Hr. cbn in Hr. unfold open_answer in Hr. destruct opened as [[stored info]|e].
  - destruct (mw_objects w1 !! mr_ObjectKey expected) as [found|] eqn:Eo; [|done].
    apply guarded_Some in Hr as [[_ Hg]%andb_true_iff ->].
    destruct (same_object stored (mr_Size expected) (mr_SHA256 expected)) eqn:Es.
    + assert (view false false (verified job expected) w1) as Hv2.
      { destruct (same_object_spec _ _ _ found Es) as [? ?].
        { intros He. rewrite He in Hg. by apply bool_decide_eq_true in Hg. }
        eapply view_weaken, Hv1. intros _. split_and!; try done; [by left|]. by exists found. }
      eapply quiet; [apply verified_known|exact Hv2|done|by intros ??? [= <-]|]. intros _ w2 Hv3. case_if_goal E1.
      { eapply view_ret; [apply known_True|by eapply view_weaken, Hv3|done]. }
      unfold same_object in Es. destruct (copyBounded stored (mr_Size expected)) as [written err].
      apply andb_true_iff in Es as [[He Hlen]%andb_true_iff Hdigest]. rewrite He, Hlen, Hdigest. cbn [negb orb].
      eapply view_ret; [apply verified_known|exact Hv3|done].
    + eapply quiet; [apply known_True|exact Hv1|done|by intros ??? [= <-]|]. intros _ w2 Hv3.
      assert (forall e, sf (Ret (Err e)) (fun outcome w => match outcome with Ok r => view false false (verified job r) w
        | Err _ => view false false (fun _ => True) w end) w2) as Herr by (intros; by eapply view_ret; [apply known_True|exact Hv3|]).
      case_if_goal E1; [apply Herr|]. unfold same_object in Es. destruct (copyBounded stored (mr_Size expected)) as [written err].
      case_if_goal E2; [apply Herr|]. case_if_goal E3; [apply Herr|].
      apply negb_false_iff in E2. apply orb_false_iff in E3 as [Hlen%negb_false_iff Hdigest%negb_false_iff].
      by rewrite E2, Hlen, Hdigest in Es.
  - assert (w2 = w1) as -> by (by destruct (mw_objects w1 !! mr_ObjectKey expected); apply guarded_Some in Hr as [_ ->]).
    eapply view_ret; [apply known_True|exact Hv1|done].
Qed.

Lemma RunOne_safe worker w :
  view false false (fun _ => True) w ->
  sf (RunOne ParseMediaType DecodeConfig worker uploader) idle w.
Proof.
  intros Hv. unfold RunOne. eapply (safe_call _ _ _ (view false false (fun _ => True))); [apply media_view_stable, known_True|exact Hv|done|].
  intros w1 claimed w2 Hv1 Hr. cbn in Hr. unfold claim_answer in Hr.
  destruct claimed as [[job|]|e]; [|injection Hr as <-; by eapply idle_ret..]. apply guarded_Some in Hr as [[Hjob Himported]%andb_true_iff ->].
  case_if_goal E; [by eapply idle_ret|]. unfold wrong_claim in E. reflect_bools. eapply (safe_bind _ _ _ _ _ idle).
  - unfold processClaim. destruct (ff_Imported job) as [expected|].
    + eapply safe_bind; [by apply Verify_safe|]. intros [r|e] w2 Hv2; [by apply completeReady_safe|by apply failed_attempt_safe].
    + eapply quiet; [apply known_True|exact Hv1|done|by intros ??? [= <-]|]. intros [content|e] w2 Hv2; [|by apply failed_attempt_safe].
      case_if_goal Eb; [by apply failed_attempt_safe|].
      eapply (safe_bind _ _ _ _ _ (ingested false false (ff_TenantID job) (ff_MediaID job))).
      * unfold Import. case_if_goal Em; [by eapply ingested_err|]. apply ingest_safe; [by right|done].
      * intros outcome w3 Hi. eapply (safe_bind _ _ _ _ _ idle).
        -- destruct outcome as [r|e]; [|by apply failed_attempt_safe]. destruct Hi as (Hv3 & Ht & Hid). apply completeReady_safe.
           eapply view_weaken, Hv3. intros (_ & Hm & Hin). split_and!; auto.
        -- intros err w4 Hv4. eapply quiet; [apply known_True|exact Hv4|done|by intros ??? [= <-]|]. intros. by eapply idle_ret.
  - intros workErr w3 Hv3. eapply quiet; [apply known_True|exact Hv3|done|by intros ??? [= <-]|]. intros. by eapply idle_ret.
Qed.
End Thread.
