(* ===== verification/MediaGuarantees.v ===== *)
(** * What the media components guarantee

    The uploads and workers of MediaIngest.v, run beside each other (MediaPool.v), keep
    stored media intact; and an attempt at a fetch job settles it once. *)

From S2P Require Import Prelude GoText Crypto GoEncoding Domain Session EventContract Store Rely Ingress Responses Images MediaStore MediaIngest MediaPool.

(** ** Threads *)

Inductive media_client :=
| UploadClient (tenantID : string) (upload : Upload)
| WorkerClient (worker : FetchWorker).

Section Pool.
Context (ParseMediaType : string -> option string) (DecodeConfig : bytes -> result (Z * Z)).
Variables (uploader : Uploader) (assigned : string -> bool).

Abbreviation outcome := (result MediaRecord + bool * error)%type.

Definition client_body (o : media_client) : prog MediaCall outcome :=
  match o with
  | UploadClient t upload => do! r := Uploader_Upload ParseMediaType DecodeConfig uploader t upload in Ret (inl r)
  | WorkerClient worker => do! r := RunOne ParseMediaType DecodeConfig worker uploader in Ret (inr r)
  end.

Definition media_quota : nat := Z.to_nat (ur_maxConcurrent uploader).
Definition holds_nothing (i : nat) (w : MediaWorld) : Prop := i ∉ mw_slots w.
Definition media_entry (p : prog MediaCall outcome) : Prop := exists o, p = client_body o.

Definition media_reachable (w0 w : MediaWorld) (ts : gmap nat (prog MediaCall outcome)) : Prop :=
  rtc (pool_step (media_respond media_quota assigned) holds_nothing media_entry) (w0, ∅) (w, ts).

(** A thread that is done. *)
Definition finished (i : nat) (a : outcome) (w : MediaWorld) : Prop :=
  view media_quota assigned i false false (fun w =>
    match a with inl (Ok r) => recorded assigned i r w | _ => True end) w.

Lemma client_safe i o w :
  uploader_ok uploader -> media_world_ok media_quota assigned w -> holds_nothing i w ->
  safe (others (media_rely assigned) (media_world_ok media_quota assigned) i) (media_respond media_quota assigned i)
    (media_allowed assigned (ur_maxBytes uploader) i) (client_body o) (finished i) w.
Proof.
  intros Hu Hok Hn. assert (view media_quota assigned i false false (fun _ => True) w) as Hv.
  { split_and!; try done. pose proof (mok_spools _ _ _ Hok). unfold holds_nothing in Hn. set_solver. }
  destruct o as [t upload|worker]; cbn [client_body].
  - eapply safe_bind; [by apply ingest_safe; [..|left|]|]. intros outcome w1 Hi.
    eapply ingested_ret; [exact Hi|]. intros w2 Hi2. destruct outcome as [r|e]; [|exact Hi2]. by destruct Hi2.
  - eapply safe_bind; [by apply RunOne_safe|]. intros r w1 Hi. eapply view_ret; [apply known_True|exact Hi|done].
Qed.

Lemma media_pool_safe w0 w ts :
  uploader_ok uploader -> media_world_ok media_quota assigned w0 -> media_reachable w0 w ts ->
  media_world_ok media_quota assigned w /\
  forall i p, ts !! i = Some p ->
    safe (others (media_rely assigned) (media_world_ok media_quota assigned) i) (media_respond media_quota assigned i)
      (media_allowed assigned (ur_maxBytes uploader) i) p (finished i) w.
Proof.
  intros Hu Hok Hr. eapply pool_safe; [| |exact Hok|exact Hr].
  - intros i X c w1 x w2. apply media_guarantee.
  - intros i p w1 [o ->] Hok1 Hn. by apply client_safe.
Qed.
End Pool.

(** C18. Whatever uploads and fetch workers run at once over the object store and the
    metadata, with writes that fail before or after taking effect, and whatever bodies
    they are given: a ready row always has its object under the key of its tenant and
    identifier, with the recorded size and SHA-256, unless it is the row of an upload
    that was told that its metadata failed; at no time are more bodies spooled than the
    quota allows; every call is one that is allowed (a body is written within the
    limit, metadata and completions only for bytes that are stored, a deletion only of an
    object without a reported row); and a thread that is done holds neither a slot nor a
    spool, and an upload that succeeded is recorded with its bytes in place. *)
Theorem stored_media_intact (ParseMediaType : string -> option string) (DecodeConfig : bytes -> result (Z * Z))
  (assigned : string -> bool) (MaxBytes MaxPixels MaxConcurrent : Z) (uploader : Uploader) (w0 w : MediaWorld) ts
  (Hnew : NewUploader MaxBytes MaxPixels MaxConcurrent = Ok uploader)
  (Hok : media_world_ok (media_quota uploader) assigned w0)
  (Hrun : media_reachable ParseMediaType DecodeConfig uploader assigned w0 w ts) :
  (forall t m r, mw_rows w !! (t, m) = Some r ->
     mr_ObjectKey r = opaqueObjectKey t m /\ validMediaRecord r = true /\
     (assigned (mr_ObjectKey r) = true \/ mr_ObjectKey r ∉ mw_lost w -> intact w r)) /\
  mw_spools w ⊆ mw_slots w /\ Z.of_nat (size (mw_slots w)) <= ur_maxConcurrent uploader /\
  (forall i X (c : MediaCall X) k, ts !! i = Some (Call c k) -> media_allowed assigned (ur_maxBytes uploader) i X c w) /\
  (forall i a, ts !! i = Some (Ret a) -> (i ∉ mw_slots w) /\
     match a with inl (Ok r) => mw_rows w !! row_key r = Some r /\ intact w r | _ => True end).
Proof.
  apply NewUploader_ok in Hnew. destruct (media_pool_safe _ _ _ _ _ _ _ Hnew Hok Hrun) as [Hw Hts]. split_and!.
  - intros t m r Hr. destruct (mok_rows _ _ _ Hw _ _ Hr) as (Hk & Hkey & Hv & _ & Hin). injection Hk as -> ->. split_and!; try done.
    intros Hrep. destruct Hin as [Hl|?]; [|done]. destruct Hrep as [Ha|?]; [|done]. destruct (mok_lost _ _ _ Hw _ Hl) as [j Hj].
    by rewrite (mok_issued _ _ _ Hw _ _ Hj) in Ha.
  - apply (mok_spools _ _ _ Hw).
  - pose proof (mok_slots _ _ _ Hw) as Hs. unfold media_quota in Hs. destruct Hnew as (_ & _ & Hq). lia.
  - intros i X c k Hi. by destruct (Hts _ _ Hi w (rtc_refl _ _)).
  - intros i a Hi. destruct (Hts _ _ Hi w (rtc_refl _ _)) as (_ & Hs & _ & Ha). split; [by intros ?%Hs|].
    destruct a as [[r|e]|x]; [|done..]. by destruct Ha as (? & _ & ?).
Qed.

(** An upload and a worker over one slot; the worker's first write of the object fails
    after taking effect. *)
Module Example.
Definition no_params (s : string) : option string := Some s.
Definition no_config (b : bytes) : result (Z * Z) := Err [ErrUnsupportedImage].
Definition body : Body := {| bd_Data := small_webp; bd_Err := [] |}.
Definition upload : Upload := {| ul_Body := Some body; ul_ContentLength := -1; ul_DeclaredMIME := "image/webp"; ul_Filename := "a/b.webp" |}.
Definition job : FetchJob := {|
  ff_TenantID := "t"; ff_JobID := "j"; ff_MediaID := "m"; ff_ConnectionID := "c"; ff_ProviderMessageID := "p"; ff_Locator := "l";
  ff_DeclaredMIME := "image/webp"; ff_DeclaredSize := 0; ff_DisplayFilename := ""; ff_KeyEnvelope := no_envelope;
  ff_ThumbnailKeyEnvelope := no_envelope; ff_AttemptCount := 1; ff_OwnerID := "w"; ff_ClaimToken := 1; ff_Imported := None |}.
Definition worker : FetchWorker := {|
  fw_tenantID := "t"; fw_ownerID := "w"; fw_maxAttempts := 5; fw_retryDelay := default_retry_delay; fw_renewInterval := 20 * Second |}.
Definition job_key : string := Eval vm_compute in opaqueObjectKey "t" "m".
Definition assigned (key : string) : bool := key =s job_key.
Definition uploader : Uploader := {| ur_maxBytes := DefaultMaxBytes; ur_maxPixels := DefaultMaxPixels; ur_maxConcurrent := 1 |}.

Definition start : MediaWorld := {|
  mw_objects := ∅; mw_rows := ∅; mw_issued := ∅; mw_lost := ∅; mw_slots := ∅; mw_spools := ∅; mw_fate := [true] |}.

Definition oracle (X : Type) (c : MediaCall X) (w : MediaWorld) : X :=
  match c in MediaCall X return X with
  | AcquireSlot | SpoolCreate | SpoolSecure | SpoolWrite _ | SpoolRewind | DeleteObject _ | CreateMetadata _ | CtxErr
  | PutReady _ _ _ _ | PutFailed _ _ _ _ _ => []
  | ReleaseSlot | SpoolRemove | CloseObject | CloseBody => tt
  | NewMediaID _ => "u"
  | NewEventID => "e"
  | Clock => 1000
  | PutObject key _ _ _ => if assigned key then [ErrText "timeout"] else []
  | OpenObject key => match mw_objects w !! key with
                      | Some data => Ok ({| bd_Data := data; bd_Err := [] |}, {| oi_Key := key; oi_Size := blen data |})
                      | None => Err [ErrMediaNotFound]
                      end
  | GetMetadataRow _ _ => Err [ErrMediaNotFound]
  | ClaimJob _ _ => Ok (Some job)
  | FetchBytes _ => Ok {| fc_Body := Some body; fc_ContentLength := -1; fc_MIMEType := ""; fc_Filename := "" |}
  | Ticks _ => [Ok true]
  end.

Definition steps_of (i n : nat) : list (nat * option media_client) := repeat (i, None) n.
Definition script : list (nat * option media_client) :=
  (0%nat, Some (UploadClient "t" upload)) :: (1%nat, Some (WorkerClient worker)) ::
  steps_of 1 2 ++ steps_of 0 13 ++ steps_of 1 19.

Definition may_enter (i : nat) (w : MediaWorld) : bool := bool_decide (i ∉ mw_slots w).

Definition run := pool_play (media_respond 1 assigned) (client_body no_params no_config uploader) may_enter oracle script start ∅.

Definition ended (p : prog MediaCall (result MediaRecord + bool * error)) : bool :=
  match p with Ret (inl (Ok _)) | Ret (inr (true, [])) => true | _ => false end.

Lemma run_facts : exists w ts, run = Some (w, ts) /\
  bool_decide (size (mw_rows w) = 2%nat) && forallb (fun q => ended q.2) (map_to_list ts) && bool_decide (size ts = 2%nat) = true.
Proof.
  assert (match run with
    | Some (w, ts) => bool_decide (size (mw_rows w) = 2%nat) && forallb (fun q => ended q.2) (map_to_list ts) && bool_decide (size ts = 2%nat)
    | None => false end = true) as H by (vm_compute; reflexivity).
  destruct run as [[w ts]|]; [by exists w, ts|done].
Qed.

Lemma example_start_ok : media_world_ok 1 assigned start.
Proof. split; cbn; try done; intros *; rewrite ?lookup_empty; try done; try set_solver. Qed.

Lemma run_reaches w ts : run = Some (w, ts) -> media_reachable no_params no_config uploader assigned start w ts.
Proof.
  intros H. eapply (pool_play_steps _ _ _ (client_body no_params no_config uploader)); [|by intros i w' Hi; apply bool_decide_eq_true in Hi|exact H].
  intros o. by exists o.
Qed.
End Example.

Lemma stored_media_intact_witness :
  exists w ts, Example.run = Some (w, ts) /\ size (mw_rows w) = 2%nat /\
    (forall t m r, mw_rows w !! (t, m) = Some r ->
       mr_ObjectKey r = opaqueObjectKey t m /\ validMediaRecord r = true /\
       (Example.assigned (mr_ObjectKey r) = true \/ mr_ObjectKey r ∉ mw_lost w -> intact w r)).
Proof.
  destruct Example.run_facts as (w & ts & Hrun & [[H1%bool_decide_eq_true _]%andb_true_iff _]%andb_true_iff).
  exists w, ts. split; [exact Hrun|]. split; [exact H1|].
  exact (proj1 (stored_media_intact Example.no_params Example.no_config Example.assigned DefaultMaxBytes DefaultMaxPixels 1
    Example.uploader Example.start w ts eq_refl Example.example_start_ok (Example.run_reaches w ts Hrun))).
Defined.

(** ** An attempt settles its job *)

(** What matters of a call and its answer. *)
Inductive MediaAct :=
| ActReady (job : FetchJob) (record : MediaRecord) (eventID : string) (err : error)
| ActFailed (job : FetchJob) (reason eventID : string) (retryAt : Z) (err : error)
| ActClock (now : Z)
| ActOther.

Definition media_log (X : Type) (c : MediaCall X) : X -> MediaAct :=
  match c in MediaCall X return X -> MediaAct with
  | PutReady job record eventID _ => fun err => ActReady job record eventID err
  | PutFailed job reason eventID _ retryAt => fun err => ActFailed job reason eventID retryAt err
  | Clock => fun now => ActClock now
  | _ => fun _ => ActOther
  end.

Definition completion (a : MediaAct) : bool := match a with ActReady _ _ _ _ | ActFailed _ _ _ _ _ => true | _ => false end.
Definition completions (t : list MediaAct) : list MediaAct := List.filter completion t.

Definition completes {X} (c : MediaCall X) : bool :=
  match c with PutReady _ _ _ _ | PutFailed _ _ _ _ _ => true | _ => false end.

(** The program makes no completion and returns a result of [P]. *)
Fixpoint silent {A} (p : prog MediaCall A) (P : A -> Prop) : Prop :=
  match p with
  | Ret a => P a
  | Call c k => completes c = false /\ forall x, silent (k x) P
  end.

Lemma silent_bind {A B} (p : prog MediaCall A) (k : A -> prog MediaCall B) P Q :
  silent p P -> (forall a, P a -> silent (k a) Q) -> silent (prog_bind p k) Q.
Proof. intros Hp Hk. induction p as [a|X c k' IH]; [by apply Hk|]. destruct Hp as [Hc Hp]. split; [done|]. intros x. by apply IH. Qed.

Lemma silent_executes {A} (p : prog MediaCall A) P t a : silent p P -> executes media_log p t a -> completions t = [] /\ P a.
Proof.
  revert t. induction p as [a'|X c k IH]; intros t Hp He; cbn in He; [by destruct He as [-> ->]|].
  destruct He as (x & t' & -> & He). destruct Hp as [Hc Hp]. destruct (IH x t' (Hp x) He) as [Ht Ha]. split; [|done].
  unfold completions in *. cbn. by destruct c; cbn in *.
Qed.

Section Silent.
Context (ParseMediaType : string -> option string) (DecodeConfig : bytes -> result (Z * Z)).

(** The record of an import carries the identifiers it was given. *)
Definition named (t m : string) (outcome : result MediaRecord) : Prop :=
  match outcome with Ok r => mr_TenantID r = t /\ (m <> "" -> mr_ID r = m) | Err _ => True end.

Ltac quietly := repeat first [done | match goal with
  | |- silent (Call _ _) _ => split; [reflexivity|intros]
  | |- silent (Ret _) _ => cbn
  | |- silent (if ?b then _ else _) _ => destruct b eqn:?
  | |- silent (match ?r with Ok _ => _ | Err _ => _ end) _ => destruct r as [?|?]
  | |- silent (let '(_, _) := ?p in _) _ => destruct p
  end].

Lemma putOrVerify_silent key data size mime digest : silent (putOrVerify key data size mime digest) (fun _ => True).
Proof. unfold putOrVerify. quietly. Qed.

Lemma ingest_silent uploader t m upload flag : silent (ingest ParseMediaType DecodeConfig uploader t m upload flag) (named t m).
Proof.
  unfold ingest. destruct (ul_Body upload) as [body|]; [|done]. quietly.
  apply (silent_bind _ _ (named t m)); [|by intros; split]. unfold ingest_admitted. quietly.
  apply (silent_bind _ _ (named t m)); [|by intros; split]. quietly. unfold ingest_spooled. quietly. unfold store_media.
  apply (silent_bind _ _ (fun id => m <> "" -> id = m)).
  { case_if_goal Em; [|done]. reflect_bools. split; [done|]. by intros id Hm. }
  intros id Hid. quietly. eapply silent_bind; [apply putOrVerify_silent|]. intros err _. quietly.
Qed.

Lemma Verify_silent uploader t m expected : silent (Verify uploader t m expected) (named t m).
Proof.
  unfold Verify. case_if_goal E; [done|]. reflect_bools. quietly.
Qed.
End Silent.

Lemma default_delay_bounds attempt : 1 <= attempt -> 2 * Second <= default_retry_delay attempt <= 15 * Minute.
Proof.
  intros Ha. unfold default_retry_delay. split; [|lia]. apply Z.min_glb; [|vm_compute; done].
  assert (exists n, (n < 10)%nat /\ Z.min attempt 10 = Z.of_nat (S n)) as (n & Hn & ->) by (exists (Z.to_nat (Z.min attempt 10 - 1)); lia).
  do 10 (destruct n as [|n]; [vm_compute; done|]). lia.
Qed.

(** One completion of the job, reported with its error. *)
Definition settles (worker : FetchWorker) (job : FetchJob) (t : list MediaAct) (err : error) : Prop :=
  match completions t with
  | [] => err <> []
  | [ActReady job' r eventID e] =>
    job' = job /\ mr_TenantID r = ff_TenantID job /\ mr_ID r = ff_MediaID job /\ eventID <> "" /\ err = e
  | [ActFailed job' reason eventID retryAt e] =>
    job' = job /\ err = e /\ reason ∈ ["unsafe_locator"; "invalid_media"; "fetch_canceled"; "fetch_failed"] /\
    (if (ff_AttemptCount job >=? fw_maxAttempts worker) || (reason =s "unsafe_locator") || (reason =s "invalid_media")
     then retryAt = time_zero /\ eventID <> ""
     else eventID = "" /\ exists now, ActClock now ∈ t /\ now + 2 * Second <= retryAt <= now + 15 * Minute)
  | _ => False
  end.

Lemma safe_reason cause : safeFetchReason cause ∈ ["unsafe_locator"; "invalid_media"; "fetch_canceled"; "fetch_failed"].
Proof. unfold safeFetchReason. repeat match goal with |- context [if ?b then _ else _] => destruct b end; set_solver. Qed.

Lemma settles_after worker job t1 t2 err : completions t1 = [] -> settles worker job t2 err -> settles worker job (t1 ++ t2) err.
Proof.
  unfold settles, completions. intros H1. rewrite List.filter_app, H1. cbn [app].
  destruct (List.filter completion t2) as [|[] [|]]; try done. intros (? & ? & ? & Hr). split_and!; try done.
  case_match; [done|]. destruct Hr as (? & now & ? & ?). split; [done|]. exists now. split; [|done]. apply elem_of_app. by right.
Qed.

Lemma settles_before worker job t1 t2 err : completions t2 = [] -> settles worker job t1 err -> settles worker job (t1 ++ t2) err.
Proof.
  unfold settles, completions. intros H1. rewrite List.filter_app, H1, app_nil_r.
  destruct (List.filter completion t1) as [|[] [|]]; try done. intros (? & ? & ? & Hr). split_and!; try done.
  case_match; [done|]. destruct Hr as (? & now & ? & ?). split; [done|]. exists now. split; [|done]. apply elem_of_app. by left.
Qed.

Lemma completeReady_settles worker job r t err :
  named (ff_TenantID job) (ff_MediaID job) (Ok r) -> ff_MediaID job <> "" ->
  executes media_log (completeReady worker job r) t err -> settles worker job t err.
Proof.
  intros [Ht Hm] Hne (eventID & t1 & -> & now & t2 & -> & He).
  destruct (mediaEventBody _ _ _ _ _) as [body|e]; [|by destruct He as [-> ->]].
  case_if_in He E; [by destruct He as [-> ->]|]. destruct He as (e & t3 & -> & -> & ->). reflect_bools. unfold settles. cbn.
  by split_and!; auto.
Qed.

Lemma failed_attempt_settles worker job cause t err :
  fw_retryDelay worker = default_retry_delay -> 1 <= ff_AttemptCount job ->
  executes media_log (failed_attempt worker job cause) t err -> settles worker job t err.
Proof.
  intros Hd Ha (ctxErr & t1 & -> & He). destruct ctxErr as [|c0 ctxErr]; cbn [is_nil negb] in He; [|by destruct He as [-> ->]].
  unfold completeFailure in He. cbv zeta in He. pose proof (safe_reason cause) as Hreason.
  destruct (terminal_failure worker job (safeFetchReason cause)) eqn:Et; cbn [negb] in He; unfold terminal_failure in Et.
  - destruct He as (eventID & t2 & -> & now & t3 & -> & He). destruct (mediaEventBody _ _ _ _ _) as [body|e]; [|by destruct He as [-> ->]].
    case_if_in He E; [by destruct He as [-> ->]|]. destruct He as (e & t4 & -> & -> & ->). reflect_bools. unfold settles. cbn.
    rewrite Et. by split_and!.
  - destruct He as (now & t2 & -> & e & t3 & -> & -> & ->). unfold settles. cbn. rewrite Et. split_and!; try done.
    exists now. split; [set_solver|]. rewrite Hd. pose proof (default_delay_bounds _ Ha). lia.
Qed.

Lemma processClaim_settles ParseMediaType DecodeConfig worker uploader job t err :
  fw_retryDelay worker = default_retry_delay -> 1 <= ff_AttemptCount job -> ff_MediaID job <> "" ->
  executes media_log (processClaim ParseMediaType DecodeConfig worker uploader job) t err -> settles worker job t err.
Proof.
  intros Hd Ha Hm He. unfold processClaim in He. destruct (ff_Imported job) as [imported|].
  - apply executes_bind in He as (t1 & t2 & verified & -> & H1 & H2).
    apply (silent_executes _ _ _ _ (Verify_silent _ _ _ _)) in H1 as [H1 Hn]. apply settles_after; [done|].
    destruct verified; [by eapply completeReady_settles|by eapply failed_attempt_settles].
  - destruct He as (fetched & t1 & -> & He). apply (settles_after _ _ [_] t1); [done|].
    destruct fetched as [content|e]; [|by eapply failed_attempt_settles].
    case_if_in He Eb; [by eapply failed_attempt_settles|]. apply executes_bind in He as (t2 & t3 & imported & -> & H1 & H2).
    assert (silent (Import ParseMediaType DecodeConfig uploader (ff_TenantID job) (ff_MediaID job) (fetched_upload job content))
      (named (ff_TenantID job) (ff_MediaID job))) as Hs by (unfold Import; case_if_goal Em; [done|apply ingest_silent]).
    apply (silent_executes _ _ _ _ Hs) in H1 as [H1 Hn]. apply settles_after; [done|].
    apply executes_bind in H2 as (t4 & t5 & e & -> & H2 & x & t6 & -> & -> & ->). apply settles_before; [done|].
    destruct imported; [by eapply completeReady_settles|by eapply failed_attempt_settles].
Qed.

(** An attempt of the fetch worker at a claimed job settles it at most once, and
    reports success only if it has settled it and its claim was renewed throughout: as ready
    under the media identifier of the job with an event, as failed for good exactly
    when the attempts are used up or the media is unsafe or invalid, or for another
    attempt after two seconds to fifteen minutes. Nothing is settled without a claim
    that is the worker's own. *)
Theorem fetch_attempt_settles (ParseMediaType : string -> option string) (DecodeConfig : bytes -> result (Z * Z))
  (TenantID OwnerID : string) (MaxAttempts RenewInterval : Z) (worker : FetchWorker) (uploader : Uploader)
  (t : list MediaAct) (ran : bool) (err : error)
  (Hnew : NewFetchWorker TenantID OwnerID MaxAttempts None RenewInterval = Ok worker)
  (Hrun : executes media_log (RunOne ParseMediaType DecodeConfig worker uploader) t (ran, err)) :
  1 <= fw_maxAttempts worker <= 100 /\
  (completions t = [] /\ (ran = true -> err <> []) \/
   exists job workErr, ran = true /\ ff_TenantID job = TenantID /\ ff_OwnerID job = OwnerID /\ 1 <= ff_AttemptCount job /\
     settles worker job t workErr /\ (err = [] -> workErr = [] /\ completions t <> [])).
Proof.
  unfold NewFetchWorker in Hnew. case_if_in Hnew E1; [done|]. cbv zeta in Hnew. case_if_in Hnew E2; [done|].
  case_if_in Hnew E3; [done|]. injection Hnew as Hw. reflect_bools. split; [subst worker; cbn [fw_maxAttempts]; lia|].
  destruct Hrun as (claimed & t1 & -> & He). change (completions (media_log _ (ClaimJob (fw_tenantID worker) (fw_ownerID worker)) claimed :: t1)) with (completions t1).
  destruct claimed as [[job|]|e]; [|by destruct He as [-> [= -> ->]]; left..].
  case_if_in He Ew; [by destruct He as [-> [= -> ->]]; left|]. unfold wrong_claim in Ew. reflect_bools. right.
  apply executes_bind in He as (t2 & t3 & workErr & -> & Hp & ticks & t4 & -> & -> & [= -> ->]). exists job, workErr.
  apply processClaim_settles in Hp; [|by subst worker|done|done].
  assert (settles worker job (ActOther :: t2 ++ [ActOther]) workErr) as Hs.
  { apply (settles_after _ _ [_]); [done|]. by apply settles_before. }
  split_and!; try done; try (subst worker; done). intros He.
  destruct (is_nil (fetch_renewal ticks)) eqn:Er; [|by rewrite He in Er]. split; [done|]. subst workErr. intros Hc.
  unfold settles in Hs. change (completions (ActOther :: t2 ++ [ActOther])) with (completions (t2 ++ [ActOther])) in Hs.
  cbn in Hc. by rewrite Hc in Hs.
Qed.

Lemma fetch_attempt_settles_witness :
  exists t, executes media_log (RunOne Example.no_params Example.no_config Example.worker Example.uploader) t (true, []) /\
    completions t = [ActFailed Example.job "invalid_media" "e" time_zero []] /\
    exists job workErr, settles Example.worker job t workErr /\ workErr = [].
Proof.
  set (answer := fun X (c : MediaCall X) (w : MediaWorld) => (w, Example.oracle X c w)).
  pose proof (transcript_executes media_log answer (RunOne Example.no_params Example.no_config Example.worker Example.uploader) Example.start) as He.
  assert ((transcript media_log answer (RunOne Example.no_params Example.no_config Example.worker Example.uploader) Example.start).2 = (true, []) /\
    completions (transcript media_log answer (RunOne Example.no_params Example.no_config Example.worker Example.uploader) Example.start).1
      = [ActFailed Example.job "invalid_media" "e" time_zero []]) as [Hres Hc] by (vm_compute; split; reflexivity).
  destruct (transcript media_log answer _ Example.start) as [t a]. cbn [fst snd] in Hres, Hc. rewrite Hres in He.
  exists t. split; [exact He|]. split; [exact Hc|].
  destruct (fetch_attempt_settles Example.no_params Example.no_config "t" "w" 5 (20 * Second) Example.worker Example.uploader t true []
    eq_refl He) as [_ [[Hn _]|(job & workErr & _ & _ & _ & _ & Hs & Hw)]]; [by rewrite Hc in Hn|].
  exists job, workErr. split; [exact Hs|]. by destruct (Hw eq_refl).
Defined.
