(* ===== verification/Contacts.v ===== *)
(** * Contacts, labels and contact synchronisation

    internal/gateway/store/postgres/contacts.go and metadata.go, the services of
    internal/gateway/contacts and internal/gateway/contactsync, and the listing of
    contacts by internal/gateway/provider/gmessages (adapter.go, contacts_runtime.go).
    The columns [created_at] and [updated_at], which nothing reads, are left out; the
    identifiers the repository generates are arguments. *)

From S2P Require Import Prelude GoText Domain Store Connections.

Definition ErrInvalidCursor : sentinel := ErrText "invalid contact cursor".
Definition ErrContactNotFound : sentinel := ErrText "contact not found".
Definition ErrLabelNotFound : sentinel := ErrText "label not found".
Definition ErrContactLabelLinkNotFound : sentinel := ErrText "contact-label link not found".
Definition ErrContactSyncRunNotFound : sentinel := ErrText "contact sync run not found".

(** ** Tables *)

Record ContactRow := { ct_Phone : string; ct_Alias : string; ct_ProviderName : string }.
Record SourceRow := { so_ContactID : string; so_Phone : string; so_ProviderName : string }.
Record LabelRow := { lr_Name : string; lr_Slug : string }.
Record SyncRunRow := {
  sr_ConnectionID : string;
  sr_Status : string;
  sr_ImportedCount : Z;
  sr_RejectedCount : Z;
  sr_ErrorSummary : string;
  sr_StartedAt : Z;
  sr_FinishedAt : option Z
}.

Record ContactDb := {
  cdb_gateway : Db;
  contacts : gmap (string * string) ContactRow;
  sources : gmap (string * string * string) SourceRow;
  labels : gmap (string * string) LabelRow;
  contact_labels : gset (string * string * string);
  sync_runs : gmap (string * string) SyncRunRow
}.

Definition set_contacts (m : gmap (string * string) ContactRow) (db : ContactDb) : ContactDb := {|
  cdb_gateway := cdb_gateway db; contacts := m; sources := sources db; labels := labels db;
  contact_labels := contact_labels db; sync_runs := sync_runs db |}.
Definition set_sources (m : gmap (string * string * string) SourceRow) (db : ContactDb) : ContactDb := {|
  cdb_gateway := cdb_gateway db; contacts := contacts db; sources := m; labels := labels db;
  contact_labels := contact_labels db; sync_runs := sync_runs db |}.
Definition set_labels (m : gmap (string * string) LabelRow) (db : ContactDb) : ContactDb := {|
  cdb_gateway := cdb_gateway db; contacts := contacts db; sources := sources db; labels := m;
  contact_labels := contact_labels db; sync_runs := sync_runs db |}.
Definition set_contact_labels (m : gset (string * string * string)) (db : ContactDb) : ContactDb := {|
  cdb_gateway := cdb_gateway db; contacts := contacts db; sources := sources db; labels := labels db;
  contact_labels := m; sync_runs := sync_runs db |}.
Definition set_sync_runs (m : gmap (string * string) SyncRunRow) (db : ContactDb) : ContactDb := {|
  cdb_gateway := cdb_gateway db; contacts := contacts db; sources := sources db; labels := labels db;
  contact_labels := contact_labels db; sync_runs := m |}.

Definition unique_key (b : bool) : result unit :=
  if b then Ok tt else Err [ErrText "duplicate key value violates unique constraint"].

(** The contact of a tenant with a phone number: UNIQUE (tenant_id, normalized_phone). *)
Definition contact_by_phone (db : ContactDb) (t phone : string) : option (string * ContactRow) :=
  (fun q => (q.1.2, q.2)) <$> head (List.filter (fun q => (q.1.1 =s t) && (ct_Phone q.2 =s phone)) (map_to_list (contacts db))).

(** [json_agg(label_id ORDER BY label_id)] of a contact. *)
Definition label_ids (db : ContactDb) (t contactID : string) : list string :=
  merge_sort String.le ((fun q => q.2) <$> List.filter (fun q => (q.1.1 =s t) && (q.1.2 =s contactID)) (elements (contact_labels db))).

Definition scanContact (db : ContactDb) (t contactID : string) (row : ContactRow) : result Contact :=
  match ParseE164 (ct_Phone row) with
  | Err e => Err e
  | Ok phone => Ok {| contact_ID := contactID; contact_TenantID := t; contact_Phone := phone; contact_Alias := ct_Alias row;
                      contact_ProviderDisplayName := ct_ProviderName row; contact_LabelIDs := label_ids db t contactID |}
  end.

(** INSERT of a contact whose phone number is new. *)
Definition insert_contact (t contactID : string) (row : ContactRow) (db : ContactDb) : result ContactDb :=
  let! _ := unique_key (bool_decide (contacts db !! (t, contactID) = None)) in
  let! _ := foreign_key (bool_decide (is_Some (tenants (cdb_gateway db) !! t))) in
  Ok (set_contacts (<[(t, contactID) := row]> (contacts db)) db).

(** ** Server contacts *)

Definition MaxServerAliasBytes : Z := 256.

Definition invalid_alias (alias : string) : bool :=
  (len alias >? MaxServerAliasBytes) || negb (utf8_ValidString alias) || ContainsByte alias 0.

Definition invalid_contact_id (createdID : string) : bool :=
  (createdID =s "") || (len createdID >? 256) || negb (utf8_ValidString createdID) ||
  (TrimSpace createdID <>s createdID) || ContainsAny createdID [0; 13; 10].

(** [upsertServerContactSQL]: the row the statement leaves, and its identifier. *)
Definition upsert_server_contact (t createdID phone aliasValue : string) (aliasProvided : bool) (db : ContactDb)
    : result (ContactDb * Contact) :=
  match contact_by_phone db t phone with
  | Some (contactID, row) =>
    let row' := {| ct_Phone := ct_Phone row; ct_Alias := if aliasProvided then aliasValue else ct_Alias row;
                   ct_ProviderName := ct_ProviderName row |} in
    let db' := set_contacts (<[(t, contactID) := row']> (contacts db)) db in
    let! contact := scanContact db' t contactID row' in Ok (db', contact)
  | None =>
    let row := {| ct_Phone := phone; ct_Alias := if aliasProvided then aliasValue else ""; ct_ProviderName := "" |} in
    let! db' := insert_contact t createdID row db in
    let! contact := scanContact db' t createdID row in Ok (db', contact)
  end.

Definition UpsertServerContact (tenantID createdID : string) (phone : E164Phone) (alias : option string) (db : ContactDb)
    : ContactDb * result Contact :=
  let aliasValue := match alias with Some a => TrimSpace a | None => "" end in
  if (tenantID =s "") || invalid_contact_id createdID || (E164Phone_String phone =s "") then (db, Err [ErrInvalidContact])
  else if bool_decide (is_Some alias) && invalid_alias aliasValue then (db, Err [ErrInvalidContact])
  else inTenant tenantID
    (upsert_server_contact tenantID createdID (E164Phone_String phone) aliasValue (bool_decide (is_Some alias))) db.

Record UpsertInput := { ui_Phone : string; ui_ServerAlias : option string }.

Definition Upsert (tenantID newID : string) (input : UpsertInput) (db : ContactDb) : ContactDb * result Contact :=
  if tenantID =s "" then (db, Err [ErrInvalidContact])
  else match ParseE164 (ui_Phone input) with
  | Err _ => (db, Err [ErrInvalidContact])
  | Ok phone =>
    if ui_Phone input <>s E164Phone_String phone then (db, Err [ErrInvalidContact])
    else
      let alias := TrimSpace <$> ui_ServerAlias input in
      if match alias with Some canonical => invalid_alias canonical | None => false end then (db, Err [ErrInvalidContact])
      else if invalid_contact_id newID then (db, Err [ErrInvalidContact])
      else
        let '(db', r) := UpsertServerContact tenantID newID phone alias db in
        match r with
        | Err e => (db', Err e)
        | Ok contact =>
          if contact_TenantID contact <>s tenantID then (db', Err [ErrTenantBoundary])
          else if (contact_ID contact =s "") || negb (bool_decide (contact_Phone contact = phone))
          then (db', Err [ErrInvalidContact])
          else (db', Ok contact)
        end
  end.

Definition set_alias (t contactID alias : string) (db : ContactDb) : result (ContactDb * unit) :=
  match contacts db !! (t, contactID) with
  | None => Err [ErrContactNotFound]
  | Some row =>
    Ok (set_contacts (<[(t, contactID) := {| ct_Phone := ct_Phone row; ct_Alias := alias; ct_ProviderName := ct_ProviderName row |}]>
          (contacts db)) db, tt)
  end.

Definition SetContactAlias (tenantID contactID alias : string) (db : ContactDb) : ContactDb * result unit :=
  if tenantID =s "" then (db, Err [ErrInvalidTenantID])
  else if contactID =s "" then (db, Err [ErrInvalidIdentifier])
  else inTenant tenantID (set_alias tenantID contactID (TrimSpace alias)) db.

Definition ClearContactAlias (tenantID contactID : string) (db : ContactDb) : ContactDb * result unit :=
  if tenantID =s "" then (db, Err [ErrInvalidTenantID])
  else if contactID =s "" then (db, Err [ErrInvalidIdentifier])
  else inTenant tenantID (set_alias tenantID contactID "") db.

(** ** Provider contacts *)

Record ProviderContactUpsert := {
  pu_TenantID : string;
  pu_ConnectionID : string;
  pu_ProviderContactID : string;
  pu_Phone : E164Phone;
  pu_ProviderDisplayName : string
}.

(** The first common table expression: the canonical contact of the phone number. *)
Definition upsert_canonical (t createdID phone providerName : string) (db : ContactDb) : result (ContactDb * (string * ContactRow)) :=
  match contact_by_phone db t phone with
  | Some (contactID, row) =>
    let row' := {| ct_Phone := ct_Phone row; ct_Alias := ct_Alias row; ct_ProviderName := providerName |} in
    Ok (set_contacts (<[(t, contactID) := row']> (contacts db)) db, (contactID, row'))
  | None =>
    let row := {| ct_Phone := phone; ct_Alias := ""; ct_ProviderName := providerName |} in
    let! db' := insert_contact t createdID row db in Ok (db', (createdID, row))
  end.

(** The second one: the source, which keeps its contact and its phone number. No row
    when it has another. *)
Definition upsert_source (t connectionID providerContactID contactID phone providerName : string) (db : ContactDb)
    : result (option ContactDb) :=
  let row := {| so_ContactID := contactID; so_Phone := phone; so_ProviderName := providerName |} in
  let put := set_sources (<[(t, connectionID, providerContactID) := row]> (sources db)) db in
  match sources db !! (t, connectionID, providerContactID) with
  | None =>
    let! _ := foreign_key (has_connection (cdb_gateway db) t connectionID) in Ok (Some put)
  | Some old =>
    if (so_ContactID old =s contactID) && (so_Phone old =s phone) then Ok (Some put) else Ok None
  end.

Definition upsert_provider_contact (t connectionID providerContactID phone createdID providerName : string) (db : ContactDb)
    : result (ContactDb * Contact) :=
  let! out := upsert_canonical t createdID phone providerName db in
  let '(db1, (contactID, row)) := out in
  let! found := upsert_source t connectionID providerContactID contactID (ct_Phone row) providerName db1 in
  match found with
  | None => Err [ErrProviderIdentityConflict]
  | Some db2 => let! contact := scanContact db2 t contactID row in Ok (db2, contact)
  end.

Definition UpsertProviderContact (update : ProviderContactUpsert) (newID : string) (db : ContactDb) : ContactDb * result Contact :=
  if pu_TenantID update =s "" then (db, Err [ErrInvalidTenantID])
  else if (pu_ConnectionID update =s "") || (TrimSpace (pu_ProviderContactID update) =s "") || (E164Phone_String (pu_Phone update) =s "")
  then (db, Err [ErrInvalidIdentifier])
  else inTenant (pu_TenantID update)
    (upsert_provider_contact (pu_TenantID update) (pu_ConnectionID update) (pu_ProviderContactID update)
       (E164Phone_String (pu_Phone update)) newID (TrimSpace (pu_ProviderDisplayName update))) db.

(** ** Listing contacts *)

Definition contact_le (a b : string * ContactRow) : Prop := String.le a.1 b.1.

#[export] Instance contact_le_dec : RelDecision contact_le.
Proof. intros a b. unfold contact_le. apply _. Defined.

(** [ORDER BY contacts.contact_id] over the contacts of a tenant. *)
Definition contact_rows (db : ContactDb) (t : string) : list (string * ContactRow) :=
  merge_sort contact_le ((fun q => (q.1.2, q.2)) <$> List.filter (fun q => q.1.1 =s t) (map_to_list (contacts db))).

Fixpoint scan_contacts (db : ContactDb) (t : string) (rows : list (string * ContactRow)) : result (list Contact) :=
  match rows with
  | [] => Ok []
  | (id, row) :: rest =>
    let! contact := scanContact db t id row in
    let! found := scan_contacts db t rest in Ok (contact :: found)
  end.

Definition after_cursor (after : string) (r : string * ContactRow) : bool := String.leb after r.1 && (r.1 <>s after).

Record ContactPage := { cpg_Contacts : list Contact; cpg_NextCursor : string }.

Definition ListContacts (tenantID after : string) (Limit : Z) (db : ContactDb) : ContactDb * result ContactPage :=
  if (Limit <? 0) || (Limit >? 200) then (db, Err [ErrInvalidCursor])
  else
    let limit := if Limit =? 0 then 50 else Limit in
    inTenant tenantID (fun db =>
      let! found := scan_contacts db tenantID (take (Z.to_nat (limit + 1))
        (List.filter (after_cursor after) (contact_rows db tenantID))) in
      Ok (db, if blen found >? limit then
                let page := take (Z.to_nat limit) found in
                {| cpg_Contacts := page;
                   cpg_NextCursor := match last page with Some contact => contact_ID contact | None => "" end |}
              else {| cpg_Contacts := found; cpg_NextCursor := "" |})) db.

(** ** Labels *)

Section Labels.
Context (IsLetter IsDigit : Z -> bool) (ToLower : Z -> Z).

Definition slug_taken (db : ContactDb) (t slug : string) : bool :=
  existsb (fun q => (q.1.1 =s t) && (lr_Slug q.2 =s slug)) (map_to_list (labels db)).

Definition CreateLabel (tenantID : string) (label : Label) (db : ContactDb) : ContactDb * result unit :=
  if tenantID =s "" then (db, Err [ErrInvalidTenantID])
  else if label_TenantID label <>s tenantID then (db, Err [ErrTenantBoundary])
  else match NewLabel IsLetter IsDigit ToLower (label_ID label) tenantID (label_Name label) with
  | Err e => (db, Err e)
  | Ok canonical => inTenant tenantID (fun db =>
      let! _ := unique_key (bool_decide (labels db !! (tenantID, label_ID canonical) = None) &&
                            negb (slug_taken db tenantID (label_Slug canonical))) in
      let! _ := foreign_key (bool_decide (is_Some (tenants (cdb_gateway db) !! tenantID))) in
      Ok (set_labels (<[(tenantID, label_ID canonical) := {| lr_Name := label_Name canonical; lr_Slug := label_Slug canonical |}]>
            (labels db)) db, tt)) db
  end.
End Labels.

Definition label_le (a b : Label) : Prop :=
  String.le (label_Slug a) (label_Slug b) /\ label_Slug a <> label_Slug b \/ label_Slug a = label_Slug b /\ String.le (label_ID a) (label_ID b).

#[export] Instance label_le_dec : RelDecision label_le.
Proof. intros a b. unfold label_le. apply _. Defined.

Definition ListLabels (tenantID : string) (db : ContactDb) : ContactDb * result (list Label) :=
  inTenant tenantID (fun db => Ok (db, merge_sort label_le
    ((fun q => {| label_ID := q.1.2; label_TenantID := tenantID; label_Name := lr_Name q.2; label_Slug := lr_Slug q.2 |}) <$>
       List.filter (fun q => q.1.1 =s tenantID) (map_to_list (labels db))))) db.

Definition AttachLabel (tenantID contactID labelID : string) (db : ContactDb) : ContactDb * result unit :=
  if tenantID =s "" then (db, Err [ErrInvalidTenantID])
  else if (contactID =s "") || (labelID =s "") then (db, Err [ErrInvalidIdentifier])
  else inTenant tenantID (fun db =>
    if bool_decide (is_Some (contacts db !! (tenantID, contactID))) && bool_decide (is_Some (labels db !! (tenantID, labelID)))
    then Ok (set_contact_labels ({[(tenantID, contactID, labelID)]} ∪ contact_labels db) db, tt)
    else Err [ErrContactLabelLinkNotFound]) db.

Definition DetachLabel (tenantID contactID labelID : string) (db : ContactDb) : ContactDb * result unit :=
  if tenantID =s "" then (db, Err [ErrInvalidTenantID])
  else if (contactID =s "") || (labelID =s "") then (db, Err [ErrInvalidIdentifier])
  else inTenant tenantID (fun db =>
    if negb (bool_decide (is_Some (contacts db !! (tenantID, contactID)))) then Err [ErrContactNotFound]
    else if negb (bool_decide (is_Some (labels db !! (tenantID, labelID)))) then Err [ErrLabelNotFound]
    else Ok (set_contact_labels (contact_labels db ∖ {[(tenantID, contactID, labelID)]}) db, tt)) db.

(** ** Synchronisation runs *)

Record ContactSyncRun := {
  cr_ID : string;
  cr_TenantID : string;
  cr_ConnectionID : string;
  cr_Status : string;
  cr_ImportedCount : Z;
  cr_RejectedCount : Z;
  cr_ErrorSummary : string;
  cr_StartedAt : Z
}.

Definition BeginContactSyncRun (tenantID : string) (run : ContactSyncRun) (db : ContactDb) : ContactDb * result unit :=
  if tenantID =s "" then (db, Err [ErrInvalidTenantID])
  else if cr_TenantID run <>s tenantID then (db, Err [ErrTenantBoundary])
  else if (cr_ID run =s "") || (cr_ConnectionID run =s "") then (db, Err [ErrInvalidIdentifier])
  else if (cr_Status run <>s "running") || time_IsZero (cr_StartedAt run) || (cr_ImportedCount run <? 0) || (cr_RejectedCount run <? 0)
  then (db, Err [ErrText "invalid contact sync run"])
  else inTenant tenantID (fun db =>
    let! _ := unique_key (bool_decide (sync_runs db !! (tenantID, cr_ID run) = None)) in
    let! _ := foreign_key (has_connection (cdb_gateway db) tenantID (cr_ConnectionID run)) in
    Ok (set_sync_runs (<[(tenantID, cr_ID run) := {| sr_ConnectionID := cr_ConnectionID run; sr_Status := cr_Status run;
          sr_ImportedCount := cr_ImportedCount run; sr_RejectedCount := cr_RejectedCount run;
          sr_ErrorSummary := cr_ErrorSummary run; sr_StartedAt := cr_StartedAt run; sr_FinishedAt := None |}]> (sync_runs db)) db, tt)) db.

Definition FinishContactSyncRun (tenantID runID status : string) (importedCount rejectedCount : Z) (errorSummary : string)
    (finishedAt : Z) (db : ContactDb) : ContactDb * result unit :=
  if tenantID =s "" then (db, Err [ErrInvalidTenantID])
  else if runID =s "" then (db, Err [ErrInvalidIdentifier])
  else if ((status <>s "succeeded") && (status <>s "failed")) || (importedCount <? 0) || (rejectedCount <? 0) || time_IsZero finishedAt
  then (db, Err [ErrText "invalid contact sync completion"])
  else inTenant tenantID (fun db =>
    match sync_runs db !! (tenantID, runID) with
    | Some row =>
      if sr_Status row =s "running" then
        Ok (set_sync_runs (<[(tenantID, runID) := {| sr_ConnectionID := sr_ConnectionID row; sr_Status := status;
              sr_ImportedCount := importedCount; sr_RejectedCount := rejectedCount; sr_ErrorSummary := errorSummary;
              sr_StartedAt := sr_StartedAt row; sr_FinishedAt := Some finishedAt |}]> (sync_runs db)) db, tt)
      else Err [ErrContactSyncRunNotFound]
    | None => Err [ErrContactSyncRunNotFound]
    end) db.

(** ** The contacts of the provider *)

(** A contact of the protocol. *)
Record GmContact := { gc_ContactID : string; gc_ParticipantID : string; gc_Number : string; gc_Name : string }.

Record ProviderContact := { pc_ID : string; pc_PhoneNumber : string; pc_DisplayName : string }.

Definition providerContactID (contact : GmContact) : string :=
  let contactID := TrimSpace (gc_ContactID contact) in
  if contactID <>s "" then "contact:" +:+ contactID
  else
    let participantID := TrimSpace (gc_ParticipantID contact) in
    if participantID <>s "" then "participant:" +:+ participantID else "".

(** The adapter is bound to [bound]; [response] is the answer of the client. *)
Definition Adapter_ListContacts (bound connection : Connection) (response : result (list GmContact)) : result (list ProviderContact) :=
  if (conn_ID connection <>s conn_ID bound) || (conn_TenantID connection <>s conn_TenantID bound)
  then Err [ErrConnectionAccessDenied]
  else match response with
  | Err e => Err e
  | Ok found => Ok ((fun contact => {| pc_ID := providerContactID contact; pc_PhoneNumber := gc_Number contact;
                                       pc_DisplayName := gc_Name contact |}) <$> found)
  end.

(** What the executor of the connection's actor did: it refused, or ran the operation
    with the active provider, whose client, if it has one, answered. *)
Inductive Execution :=
| ExecutionRefused (err : error)
| ExecutionRan (client : option (result (list GmContact))).

Definition ActorContactProvider_ListContacts (execute : string -> string -> Execution) (connection : Connection)
    : result (list ProviderContact) :=
  if (conn_ID connection =s "") || (conn_TenantID connection =s "") then Err [ErrConnectionAccessDenied]
  else match execute (conn_TenantID connection) (conn_ID connection) with
  | ExecutionRefused e => Err e
  | ExecutionRan None => Err [ErrText "active provider does not support contact sync"]
  | ExecutionRan (Some response) => Adapter_ListContacts connection connection response
  end.

(** ** Synchronising *)

Inductive RejectionReason :=
  RejectionInvalidPhoneNumber | RejectionInvalidProviderContactID | RejectionProviderIdentityConflict.

Record RejectedContact := { rj_ProviderContactID : string; rj_PhoneNumber : string; rj_Reason : RejectionReason }.

Record SyncResult := { sy_Contacts : list Contact; sy_Rejected : list RejectedContact }.

Definition empty_result : SyncResult := {| sy_Contacts := []; sy_Rejected := [] |}.

Definition reject (contact : ProviderContact) (reason : RejectionReason) (result : SyncResult) : SyncResult := {|
  sy_Contacts := sy_Contacts result;
  sy_Rejected := sy_Rejected result ++
    [{| rj_ProviderContactID := pc_ID contact; rj_PhoneNumber := pc_PhoneNumber contact; rj_Reason := reason |}] |}.

(** The slot of the phone number is replaced, or one is appended. *)
Definition place (contactIndexes : gmap string nat) (phone : E164Phone) (contact : Contact) (result : SyncResult)
    : gmap string nat * SyncResult :=
  let key := E164Phone_String phone in
  match contactIndexes !! key with
  | Some index => (contactIndexes, {| sy_Contacts := <[index := contact]> (sy_Contacts result); sy_Rejected := sy_Rejected result |})
  | None => (<[key := length (sy_Contacts result)]> contactIndexes,
             {| sy_Contacts := sy_Contacts result ++ [contact]; sy_Rejected := sy_Rejected result |})
  end.

Section Sync.
Variables (tenantID connectionID : string) (newID : nat -> string).

Definition sync_update (providerContact : ProviderContact) (phone : E164Phone) : ProviderContactUpsert := {|
  pu_TenantID := tenantID; pu_ConnectionID := connectionID; pu_ProviderContactID := pc_ID providerContact; pu_Phone := phone;
  pu_ProviderDisplayName := TrimSpace (pc_DisplayName providerContact) |}.

Fixpoint sync_contacts (i : nat) (providerContacts : list ProviderContact) (contactIndexes : gmap string nat)
    (providerIdentities : gmap string E164Phone) (result : SyncResult) (db : ContactDb) : ContactDb * (SyncResult * error) :=
  match providerContacts with
  | [] => (db, (result, []))
  | providerContact :: rest =>
    if TrimSpace (pc_ID providerContact) =s ""
    then sync_contacts (S i) rest contactIndexes providerIdentities (reject providerContact RejectionInvalidProviderContactID result) db
    else match ParseE164 (pc_PhoneNumber providerContact) with
    | Err _ => sync_contacts (S i) rest contactIndexes providerIdentities (reject providerContact RejectionInvalidPhoneNumber result) db
    | Ok phone =>
      match providerIdentities !! pc_ID providerContact with
      | Some existingPhone =>
        sync_contacts (S i) rest contactIndexes providerIdentities
          (if bool_decide (existingPhone = phone) then result else reject providerContact RejectionProviderIdentityConflict result) db
      | None =>
        let providerIdentities := <[pc_ID providerContact := phone]> providerIdentities in
        let '(db', r) := UpsertProviderContact (sync_update providerContact phone) (newID i) db in
        match r with
        | Err e =>
          if errors_Is e ErrProviderIdentityConflict
          then sync_contacts (S i) rest contactIndexes providerIdentities (reject providerContact RejectionProviderIdentityConflict result) db'
          else (db', (result, e))
        | Ok contact =>
          if (contact_TenantID contact <>s tenantID) || negb (bool_decide (contact_Phone contact = phone))
          then (db', ({| sy_Contacts := []; sy_Rejected := sy_Rejected result |}, [ErrContactAccessDenied]))
          else
            let '(contactIndexes, result) := place contactIndexes phone contact result in
            sync_contacts (S i) rest contactIndexes providerIdentities result db'
        end
      end
    end
  end.

(** [found] is what the connection repository answers, [list_contacts] the provider. *)
Definition Sync (found : result Connection) (list_contacts : Connection -> result (list ProviderContact)) (db : ContactDb)
    : ContactDb * (SyncResult * error) :=
  if (tenantID =s "") || (connectionID =s "") then (db, (empty_result, [ErrConnectionAccessDenied]))
  else match found with
  | Err e => (db, (empty_result, if errors_Is e ErrConnectionNotFound then [ErrConnectionAccessDenied] else e))
  | Ok connection =>
    if (conn_ID connection <>s connectionID) || (conn_TenantID connection <>s tenantID)
    then (db, (empty_result, [ErrConnectionAccessDenied]))
    else match list_contacts connection with
    | Err e => (db, (empty_result, e))
    | Ok providerContacts => sync_contacts 0 providerContacts ∅ ∅ empty_result db
    end
  end.
End Sync.
