(* ===== verification/ContactsSafety.v ===== *)
(** * Guarantees of contacts and contact synchronisation *)

From S2P Require Import Prelude GoText Domain Store Connections Contacts.

(** Contacts have readable phone numbers, one per number and tenant, and names of their
    own; a source has a contact with its phone number; a label link has both its ends. *)
Record contacts_ok (db : ContactDb) : Prop := {
  cok_phone : forall k r, contacts db !! k = Some r -> exists p, ParseE164 (ct_Phone r) = Ok p;
  cok_id : forall t c r, contacts db !! (t, c) = Some r -> c <> "";
  cok_unique : forall t c c' r r', contacts db !! (t, c) = Some r -> contacts db !! (t, c') = Some r' -> ct_Phone r = ct_Phone r' -> c = c';
  cok_sources : forall t n p so, sources db !! (t, n, p) = Some so ->
    exists r, contacts db !! (t, so_ContactID so) = Some r /\ ct_Phone r = so_Phone so;
  cok_links : forall t c l, (t, c, l) ∈ contact_labels db -> is_Some (contacts db !! (t, c)) /\ is_Some (labels db !! (t, l));
  cok_slugs : forall t l l' r r', labels db !! (t, l) = Some r -> labels db !! (t, l') = Some r' -> lr_Slug r = lr_Slug r' -> l = l'
}.

Lemma contact_by_phone_Some db t phone c r :
  contact_by_phone db t phone = Some (c, r) -> contacts db !! (t, c) = Some r /\ ct_Phone r = phone.
Proof.
  unfold contact_by_phone. intros H. apply fmap_Some in H as ([[t' c'] r'] & H & [= -> ->]). apply head_Some_elem_of in H.
  apply elem_of_List_filter in H as [H Hb]. apply elem_of_map_to_list in H. cbn in Hb. reflect_bools. by subst.
Qed.

Lemma contact_by_phone_None db t phone c r :
  contact_by_phone db t phone = None -> contacts db !! (t, c) = Some r -> ct_Phone r <> phone.
Proof.
  unfold contact_by_phone. intros H Hr Hp. apply fmap_None, head_None in H.
  assert ((t, c, r) ∈ List.filter (fun q => (q.1.1 =s t) && (ct_Phone q.2 =s phone)) (map_to_list (contacts db))) as Hin.
  { apply elem_of_List_filter. split; [by apply elem_of_map_to_list|]. cbn. by rewrite Hp, !String.eqb_refl. }
  rewrite H in Hin. by apply elem_of_nil in Hin.
Qed.

Lemma insert_contact_Ok t c row db db' :
  insert_contact t c row db = Ok db' -> contacts db !! (t, c) = None /\ db' = set_contacts (<[(t, c) := row]> (contacts db)) db.
Proof.
  unfold insert_contact, unique_key, foreign_key. intros H. apply result_bind_ok in H as (? & H1 & H). case_if_in H1 E1; [|done].
  apply result_bind_ok in H as (_ & _ & [= <-]). reflect_bools. done.
Qed.

(** A row of the tenant's contact is changed but for its phone number, or a contact with
    a new phone number is added. *)
Lemma put_contact_ok t c row db :
  c <> "" -> (exists p, ParseE164 (ct_Phone row) = Ok p) ->
  (contacts db !! (t, c) = None /\ (forall c' r, contacts db !! (t, c') = Some r -> ct_Phone r <> ct_Phone row) \/
   exists old, contacts db !! (t, c) = Some old /\ ct_Phone old = ct_Phone row) ->
  contacts_ok db -> contacts_ok (set_contacts (<[(t, c) := row]> (contacts db)) db).
Proof.
  intros Hc Hp Hrow [H1 H2 H3 H4 H5 H6]. split; cbn; try done.
  - intros k r [[_ <-]|[_ ?]]%lookup_insert_Some; [done|by eapply H1].
  - intros t' c' r [[[= <- <-] _]|[_ ?]]%lookup_insert_Some; [done|by eapply H2].
  - intros t' c1 c2 r1 r2 [[[= <- <-] <-]|[Hn1 Hr1]]%lookup_insert_Some [[Hk2 <-]|[Hn2 Hr2]]%lookup_insert_Some Heq; try done.
    + by injection Hk2.
    + destruct Hrow as [[_ Hnew]|(old & Hold & Hph)]; [by destruct (Hnew _ _ Hr2)|]. by eapply H3; [exact Hold|exact Hr2|congruence].
    + injection Hk2 as <- <-. destruct Hrow as [[_ Hnew]|(old & Hold & Hph)]; [by destruct (Hnew _ _ Hr1)|].
      eapply H3; [exact Hr1|exact Hold|congruence].
    + by eapply H3.
  - intros t' n p so Hs. destruct (H4 _ _ _ _ Hs) as (r & Hr & Hph). rewrite lookup_insert. case_decide as E; [|by exists r].
    exists row. split; [done|]. injection E as -> ->. destruct Hrow as [[Hnone _]|(old & Hold & Hph')]; congruence.
  - intros t' c' l Hl. destruct (H5 _ _ _ Hl) as [Hcl Hll]. split; [|done]. rewrite lookup_insert. by case_decide.
Qed.

Lemma put_source_ok t n p so r db :
  contacts db !! (t, so_ContactID so) = Some r -> ct_Phone r = so_Phone so ->
  contacts_ok db -> contacts_ok (set_sources (<[(t, n, p) := so]> (sources db)) db).
Proof.
  intros Hr Hp [H1 H2 H3 H4 H5 H6]. split; cbn; try done.
  intros t' n' p' so' [[[= <- <- <-] <-]|[_ ?]]%lookup_insert_Some; [by exists r|by eapply H4].
Qed.

(** What the synchronisation of connection [n] of tenant [t] leaves alone. *)
Record server_kept (t n : string) (db db' : ContactDb) : Prop := {
  sk_contacts : forall k r, contacts db !! k = Some r ->
    exists r', contacts db' !! k = Some r' /\ ct_Phone r' = ct_Phone r /\ ct_Alias r' = ct_Alias r;
  sk_tenants : forall t' c, t' <> t -> contacts db' !! (t', c) = contacts db !! (t', c);
  sk_new : forall k r', contacts db' !! k = Some r' -> contacts db !! k = None -> ct_Alias r' = "";
  sk_sources : forall k so, sources db !! k = Some so ->
    exists so', sources db' !! k = Some so' /\ so_ContactID so' = so_ContactID so /\ so_Phone so' = so_Phone so;
  sk_connections : forall t' n' p, (t', n') <> (t, n) -> sources db' !! (t', n', p) = sources db !! (t', n', p);
  sk_labels : labels db' = labels db;
  sk_links : contact_labels db' = contact_labels db;
  sk_runs : sync_runs db' = sync_runs db;
  sk_gateway : cdb_gateway db' = cdb_gateway db
}.

Lemma server_kept_refl t n db : server_kept t n db db.
Proof. split; try done; eauto. intros k r' H1 H2. congruence. Qed.

Lemma server_kept_trans t n db1 db2 db3 : server_kept t n db1 db2 -> server_kept t n db2 db3 -> server_kept t n db1 db3.
Proof.
  intros [A1 A2 A3 A4 A5 A6 A7 A8 A9] [B1 B2 B3 B4 B5 B6 B7 B8 B9]. split; try congruence.
  - intros k r Hr. destruct (A1 _ _ Hr) as (r2 & Hr2 & ? & ?). destruct (B1 _ _ Hr2) as (r3 & Hr3 & ? & ?). exists r3. split_and!; congruence.
  - intros t' c Hne. by rewrite B2, A2.
  - intros k r' Hr Hn. destruct (contacts db2 !! k) as [r2|] eqn:E; [|by eapply B3].
    destruct (B1 _ _ E) as (r3 & Hr3 & _ & Ha). assert (r3 = r') as -> by congruence. rewrite Ha. by eapply A3.
  - intros k so Hs. destruct (A4 _ _ Hs) as (s2 & Hs2 & ? & ?). destruct (B4 _ _ Hs2) as (s3 & Hs3 & ? & ?). exists s3. split_and!; congruence.
  - intros t' n' p Hne. by rewrite B5, A5.
Qed.

(** What a successful upsert of a provider contact stored. *)
Definition stored_contact (t : string) (contact : Contact) (db : ContactDb) : Prop :=
  contact_TenantID contact = t /\
  exists row, contacts db !! (t, contact_ID contact) = Some row /\ ct_Phone row = E164Phone_String (contact_Phone contact) /\
    scanContact db t (contact_ID contact) row = Ok contact.

Definition sourced (t n pid : string) (contact : Contact) (db : ContactDb) : Prop :=
  exists so, sources db !! (t, n, pid) = Some so /\ so_ContactID so = contact_ID contact /\
    so_Phone so = E164Phone_String (contact_Phone contact).

Lemma upsert_canonical_Ok t createdID phone name db db1 c row :
  contacts_ok db -> createdID <> "" -> (exists p, ParseE164 phone = Ok p) ->
  upsert_canonical t createdID phone name db = Ok (db1, (c, row)) ->
  db1 = set_contacts (<[(t, c) := row]> (contacts db)) db /\ contacts_ok db1 /\ ct_Phone row = phone /\ ct_ProviderName row = name /\
  match contacts db !! (t, c) with Some old => ct_Phone old = phone /\ ct_Alias row = ct_Alias old | None => ct_Alias row = "" end.
Proof.
  intros Hok Hid Hphone H. unfold upsert_canonical in H. destruct (contact_by_phone db t phone) as [[c0 r0]|] eqn:Ep.
  - apply contact_by_phone_Some in Ep as [Hr Hp]. injection H as <- <- <-. rewrite Hr. cbn. split_and!; try done.
    apply put_contact_ok; [by eapply cok_id|by rewrite <- Hp in Hphone|right; by exists r0|done].
  - apply result_bind_ok in H as (db' & [Hn ->]%insert_contact_Ok & [= <- <- <-]). rewrite Hn. cbn. split_and!; try done.
    apply put_contact_ok; [done|done|left; split; [done|]|done]. intros c' r. by apply contact_by_phone_None.
Qed.

Lemma UpsertProviderContact_spec u newID db db' r raw :
  contacts_ok db -> newID <> "" -> ParseE164 raw = Ok (pu_Phone u) -> UpsertProviderContact u newID db = (db', r) ->
  contacts_ok db' /\ server_kept (pu_TenantID u) (pu_ConnectionID u) db db' /\
  match r with
  | Err _ => db' = db
  | Ok contact => stored_contact (pu_TenantID u) contact db' /\ contact_Phone contact = pu_Phone u /\
      sourced (pu_TenantID u) (pu_ConnectionID u) (pu_ProviderContactID u) contact db' /\
      (forall c, c <> contact_ID contact -> contacts db' !! (pu_TenantID u, c) = contacts db !! (pu_TenantID u, c))
  end.
Proof.
  intros Hok Hid Hraw H. apply ParseE164_String in Hraw. unfold UpsertProviderContact in H.
  case_if_in H E1; [injection H as <- <-; split_and!; [done|apply server_kept_refl|done]|].
  case_if_in H E2; [injection H as <- <-; split_and!; [done|apply server_kept_refl|done]|].
  apply inTenant_cases in H as [[-> (e & ->)]|(contact & -> & H)]; [split_and!; [done|apply server_kept_refl|done]|].
  unfold upsert_provider_contact in H. apply result_bind_ok in H as ([db1 [c row]] & H1 & H).
  apply upsert_canonical_Ok in H1 as (-> & Hok1 & Hphone & Hname & Hold); [|done|done|by eexists].
  apply result_bind_ok in H as ([db2|] & Hs & H); [|done]. apply result_bind_ok in H as (contact' & Hscan & [= -> ->]).
  unfold scanContact in Hscan. rewrite Hphone, Hraw in Hscan. injection Hscan as <-.
  set (db1 := set_contacts _ db) in *. set (so := {| so_ContactID := c; so_Phone := ct_Phone row; so_ProviderName := TrimSpace (pu_ProviderDisplayName u) |}).
  assert (db' = set_sources (<[(pu_TenantID u, pu_ConnectionID u, pu_ProviderContactID u) := so]> (sources db)) db1 /\
    (forall old, sources db !! (pu_TenantID u, pu_ConnectionID u, pu_ProviderContactID u) = Some old ->
      so_ContactID old = c /\ so_Phone old = ct_Phone row)) as [-> Hsame].
  { unfold upsert_source in Hs. cbv zeta in Hs. change (sources db1) with (sources db) in Hs.
    destruct (sources db !! _) as [old|] eqn:Eo.
    - case_if_in Hs E3; [|done]. injection Hs as <-. reflect_bools. split; [done|]. by intros old' [= <-].
    - apply result_bind_ok in Hs as (_ & _ & [= <-]). done. }
  assert (contacts db1 !! (pu_TenantID u, c) = Some row) as Hrow1 by (cbn; by rewrite lookup_insert_eq).
  split_and!.
  - exact (put_source_ok _ _ _ so row db1 Hrow1 eq_refl Hok1).
  - split; cbn; try done.
    + intros k r0 Hr. rewrite lookup_insert. case_decide as E; [|by exists r0]. subst k. rewrite Hr in Hold. exists row.
      split_and!; [done|destruct Hold; congruence|by destruct Hold].
    + intros t' c' Hne. rewrite lookup_insert_ne; [done|congruence].
    + intros k r' Hr' Hn. rewrite lookup_insert in Hr'. case_decide as E; [|congruence]. subst k. rewrite Hn in Hold. by injection Hr' as <-.
    + intros k old Ho. rewrite lookup_insert. case_decide as E; [|by exists old]. subst k. exists so. split; [done|].
      destruct (Hsame _ Ho) as [-> ->]. done.
    + intros t' n' p Hne. rewrite lookup_insert_ne; [done|congruence].
  - split; [done|]. exists row. cbn [contact_ID contact_Phone]. split; [exact Hrow1|]. split; [done|].
    unfold scanContact. rewrite Hphone, Hraw. done.
  - done.
  - exists so. cbn [sources set_sources]. rewrite lookup_insert_eq. cbn. by rewrite Hphone.
  - cbn. intros c' Hne. rewrite lookup_insert_ne; [done|congruence].
Qed.

(** An error is not [nil]. *)
Definition loud {A} (r : result A) : Prop := r <> Err [].

Lemma loud_bind {A B} (c : result A) (k : A -> result B) :
  loud c -> (forall a, c = Ok a -> loud (k a)) -> loud (result_bind c k).
Proof. unfold loud. destruct c as [a|e]; cbn; [|congruence]. intros _ H. by apply H. Qed.

Lemma loud_keys b : loud (unique_key b) /\ loud (foreign_key b).
Proof. by destruct b. Qed.

Lemma UpsertProviderContact_err u newID db db' e raw :
  ParseE164 raw = Ok (pu_Phone u) -> UpsertProviderContact u newID db = (db', Err e) -> e <> [].
Proof.
  intros Hraw%ParseE164_String H ->. unfold UpsertProviderContact in H. case_if_in H E1; [done|]. case_if_in H E2; [done|].
  unfold inTenant in H. rewrite E1 in H.
  assert (loud (upsert_provider_contact (pu_TenantID u) (pu_ConnectionID u) (pu_ProviderContactID u) (E164Phone_String (pu_Phone u))
    newID (TrimSpace (pu_ProviderDisplayName u)) db)) as Hl; [|by destruct (upsert_provider_contact _ _ _ _ _ _ db) as [[]|]; simplify_eq].
  clear H E1 E2. unfold upsert_provider_contact. apply loud_bind.
  - unfold upsert_canonical. destruct (contact_by_phone _ _ _) as [[c r]|]; [done|].
    apply loud_bind; [|by intros]. unfold insert_contact. apply loud_bind; [apply loud_keys|]. intros _ _.
    by apply loud_bind; [apply loud_keys|].
  - intros [db1 [c row]] Hc. apply loud_bind.
    + unfold upsert_source. cbv zeta. destruct (sources db1 !! _); [by case_match|]. by apply loud_bind; [apply loud_keys|].
    + intros [db2|] _; [|done]. apply loud_bind; [|by intros]. unfold scanContact.
      assert (ct_Phone row = E164Phone_String (pu_Phone u)) as ->; [|by rewrite Hraw].
      unfold upsert_canonical in Hc. destruct (contact_by_phone _ _ _) as [[c' r']|] eqn:Ep.
      * apply contact_by_phone_Some in Ep as [_ Hp]. by injection Hc as _ _ <-.
      * by apply result_bind_ok in Hc as (db2' & _ & [= _ _ <-]).
Qed.

(** ** The loop *)

Lemma E164Phone_ext (p q : E164Phone) : E164Phone_String p = E164Phone_String q -> p = q.
Proof. destruct p, q. unfold E164Phone_String. cbn. by intros ->. Qed.

Definition rejected_as (result : SyncResult) (pid : string) : Prop :=
  exists rj, rj ∈ sy_Rejected result /\ rj_ProviderContactID rj = pid.

(** A provider contact is reported: rejected, or stored with its source. *)
Definition accounted (t n pid : string) (phone : E164Phone) (result : SyncResult) (db : ContactDb) : Prop :=
  rejected_as result pid \/
  exists contact, contact ∈ sy_Contacts result /\ contact_Phone contact = phone /\ sourced t n pid contact db.

Definition reason_holds (pc : ProviderContact) (reason : RejectionReason) : Prop :=
  match reason with
  | RejectionInvalidProviderContactID => TrimSpace (pc_ID pc) = ""
  | RejectionInvalidPhoneNumber => exists e, ParseE164 (pc_PhoneNumber pc) = Err e
  | RejectionProviderIdentityConflict => TrimSpace (pc_ID pc) <> "" /\ exists phone, ParseE164 (pc_PhoneNumber pc) = Ok phone
  end.

Definition explained (done : list ProviderContact) (rj : RejectedContact) : Prop :=
  exists pc, pc ∈ done /\ rj_ProviderContactID rj = pc_ID pc /\ rj_PhoneNumber rj = pc_PhoneNumber pc /\ reason_holds pc (rj_Reason rj).

Definition reported (t n : string) (result : SyncResult) (db : ContactDb) (pc : ProviderContact) : Prop :=
  rejected_as result (pc_ID pc) \/ exists phone, ParseE164 (pc_PhoneNumber pc) = Ok phone /\ accounted t n (pc_ID pc) phone result db.

Section Loop.
Variables (t n : string) (newID : nat -> string) (db0 : ContactDb).
Hypothesis newID_named : forall i, newID i <> "".

Record loop_ok (done : list ProviderContact) (idx : gmap string nat) (ids : gmap string E164Phone) (result : SyncResult) (db : ContactDb)
    : Prop := {
  lo_db : contacts_ok db;
  lo_kept : server_kept t n db0 db;
  lo_stored : forall contact, contact ∈ sy_Contacts result -> stored_contact t contact db;
  lo_index : forall k m, idx !! k = Some m <->
    exists contact, sy_Contacts result !! m = Some contact /\ E164Phone_String (contact_Phone contact) = k;
  lo_ids : forall pid phone, ids !! pid = Some phone -> accounted t n pid phone result db;
  lo_done : Forall (reported t n result db) done;
  lo_rejected : Forall (explained done) (sy_Rejected result)
}.

Lemma accounted_mono pid phone result result' db db' :
  (forall pid, rejected_as result pid -> rejected_as result' pid) ->
  (forall pid contact, contact ∈ sy_Contacts result -> sourced t n pid contact db ->
     exists contact', contact' ∈ sy_Contacts result' /\ contact_Phone contact' = contact_Phone contact /\ sourced t n pid contact' db') ->
  accounted t n pid phone result db -> accounted t n pid phone result' db'.
Proof.
  intros Hr Hc [H|(contact & Hin & Hp & Hs)]; [by left; apply Hr|]. right. destruct (Hc _ _ Hin Hs) as (c' & ? & ? & ?).
  exists c'. split_and!; congruence.
Qed.

Lemma reported_mono result result' db db' pc :
  (forall pid, rejected_as result pid -> rejected_as result' pid) ->
  (forall pid contact, contact ∈ sy_Contacts result -> sourced t n pid contact db ->
     exists contact', contact' ∈ sy_Contacts result' /\ contact_Phone contact' = contact_Phone contact /\ sourced t n pid contact' db') ->
  reported t n result db pc -> reported t n result' db' pc.
Proof.
  intros Hr Hc [H|(phone & Hp & H)]; [by left; apply Hr|]. right. exists phone. split; [done|]. by eapply accounted_mono.
Qed.

Lemma explained_mono done pc rj : explained done rj -> explained (done ++ [pc]) rj.
Proof. intros (pc' & ? & ?). exists pc'. split; [|done]. apply elem_of_app. by left. Qed.

Lemma rejected_reject pc reason result pid : rejected_as result pid -> rejected_as (reject pc reason result) pid.
Proof. intros (rj & Hin & ?). exists rj. split; [|done]. cbn. apply elem_of_app. by left. Qed.

Lemma rejected_self pc reason result : rejected_as (reject pc reason result) (pc_ID pc).
Proof. eexists. split; [cbn; apply elem_of_app; right; by apply list_elem_of_singleton|done]. Qed.

(** A contact is rejected. *)
Lemma loop_reject done idx ids result db pc reason :
  reason_holds pc reason -> loop_ok done idx ids result db -> loop_ok (done ++ [pc]) idx ids (reject pc reason result) db.
Proof.
  intros Hreason [H1 H2 H3 H4 H5 H6 H7]. split; try done.
  - intros pid phone Hp. eapply accounted_mono; [apply rejected_reject| |by apply H5]. intros pid' contact Hc Hs. by exists contact.
  - apply Forall_app. split; [|apply Forall_singleton; left; apply rejected_self].
    eapply Forall_impl; [exact H6|]. intros pc'. apply reported_mono; [apply rejected_reject|]. intros pid' contact Hc Hs. by exists contact.
  - cbn. apply Forall_app. split; [eapply Forall_impl; [exact H7|]; intros rj; apply explained_mono|].
    apply Forall_singleton. exists pc. split_and!; try done. apply elem_of_app. right. by apply list_elem_of_singleton.
Qed.

(** The identity is one that has been seen with the same number. *)
Lemma loop_seen done idx ids result db pc phone :
  ParseE164 (pc_PhoneNumber pc) = Ok phone -> accounted t n (pc_ID pc) phone result db ->
  loop_ok done idx ids result db -> loop_ok (done ++ [pc]) idx ids result db.
Proof.
  intros Hp Ha [H1 H2 H3 H4 H5 H6 H7]. split; try done.
  - apply Forall_app. split; [done|]. apply Forall_singleton. right. by exists phone.
  - eapply Forall_impl; [exact H7|]. intros rj. apply explained_mono.
Qed.

(** The identity is noted once it is accounted for. *)
Lemma loop_note done idx ids result db pid phone :
  accounted t n pid phone result db -> loop_ok done idx ids result db -> loop_ok done idx (<[pid := phone]> ids) result db.
Proof. intros Ha []. split; try done. intros pid' phone' [[<- <-]|[_ ?]]%lookup_insert_Some; auto. Qed.

Lemma stored_kept contact c db db' :
  server_kept t n db db' -> (forall c', c' <> contact_ID c -> contacts db' !! (t, c') = contacts db !! (t, c')) ->
  contact_ID contact <> contact_ID c -> stored_contact t contact db -> stored_contact t contact db'.
Proof.
  intros Hk Hsame Hne (Ht & row & Hr & Hp & Hs). split; [done|]. exists row. rewrite Hsame by done. split_and!; try done.
  unfold scanContact, label_ids in *. by rewrite (sk_links _ _ _ _ Hk).
Qed.

Lemma sourced_kept pid contact contact' db db' :
  server_kept t n db db' -> contact_ID contact' = contact_ID contact -> contact_Phone contact' = contact_Phone contact ->
  sourced t n pid contact db -> sourced t n pid contact' db'.
Proof.
  intros Hk Hid Hp (so & Hs & H1 & H2). destruct (sk_sources _ _ _ _ Hk _ _ Hs) as (so' & ? & ? & ?). exists so'.
  split_and!; congruence.
Qed.

(** A contact is stored and placed. *)
Lemma loop_place done idx ids result db db' contact phone idx' result' :
  loop_ok done idx ids result db -> contacts_ok db' -> server_kept t n db db' -> stored_contact t contact db' ->
  contact_Phone contact = phone -> (forall c', c' <> contact_ID contact -> contacts db' !! (t, c') = contacts db !! (t, c')) ->
  place idx phone contact result = (idx', result') ->
  loop_ok done idx' ids result' db' /\ contact ∈ sy_Contacts result'.
Proof.
  intros Hloop Hok' Hk Hst <- Hsame Hplace. pose proof Hloop as [H1 H2 H3 H4 H5 H6 H7].
  assert (forall c m, sy_Contacts result !! m = Some c -> contact_ID c = contact_ID contact -> contact_Phone c = contact_Phone contact) as Hsamephone.
  { intros c m Hm Hid. destruct (H3 c ltac:(by eapply list_elem_of_lookup_2)) as (_ & row & Hr & Hp & _).
    destruct Hst as (_ & row' & Hr' & Hp' & _). destruct (sk_contacts _ _ _ _ Hk _ _ Hr) as (row2 & Hr2 & Hp2 & _).
    rewrite Hid in Hr2. apply E164Phone_ext. congruence. }
  unfold place in Hplace. cbv zeta in Hplace. destruct (idx !! E164Phone_String (contact_Phone contact)) as [m|] eqn:Ei; injection Hplace as <- <-.
  - apply H4 in Ei as Hold. destruct Hold as (old & Hm & Hold). apply E164Phone_ext in Hold.
    assert (m < length (sy_Contacts result))%nat as Hlen by (by eapply lookup_lt_Some).
    assert (contact_ID old = contact_ID contact) as Hid.
    { destruct (H3 old ltac:(by eapply list_elem_of_lookup_2)) as (_ & row & Hr & Hp & _). destruct Hst as (_ & row' & Hr' & Hp' & _).
      destruct (sk_contacts _ _ _ _ Hk _ _ Hr) as (row2 & Hr2 & Hp2 & _). eapply (cok_unique _ Hok'); [exact Hr2|exact Hr'|congruence]. }
    assert (contact ∈ <[m := contact]> (sy_Contacts result)) as Hin.
    { apply list_elem_of_lookup_2 with m. by rewrite list_lookup_insert_eq. }
    assert (forall pid c, c ∈ sy_Contacts result -> sourced t n pid c db ->
      exists c', c' ∈ <[m := contact]> (sy_Contacts result) /\ contact_Phone c' = contact_Phone c /\ sourced t n pid c' db') as Hmono.
    { intros pid c [m' Hm']%list_elem_of_lookup_1 Hs. destruct (decide (m' = m)) as [->|Hne].
      - exists contact. assert (c = old) as -> by congruence. split_and!; [done|congruence|]. eapply sourced_kept; [exact Hk|done|by symmetry|exact Hs].
      - exists c. split_and!; [|done|by eapply sourced_kept]. apply list_elem_of_lookup_2 with m'. by rewrite list_lookup_insert_ne. }
    split; [|done]. split; try done.
    + by eapply server_kept_trans.
    + cbn. intros c [m' Hm']%list_elem_of_lookup_1. destruct (decide (m' = m)) as [->|Hne].
      { rewrite list_lookup_insert_eq in Hm' by done. by injection Hm' as <-. }
      rewrite list_lookup_insert_ne in Hm' by done. eapply stored_kept; [exact Hk|exact Hsame| |apply H3; by eapply list_elem_of_lookup_2].
      intros Heq. pose proof (Hsamephone _ _ Hm' Heq) as Hp. assert (idx !! E164Phone_String (contact_Phone contact) = Some m') as Hi
        by (apply H4; exists c; split; [done|congruence]). congruence.
    + cbn. intros k m'. rewrite H4. destruct (decide (m' = m)) as [->|Hne]; [|by rewrite list_lookup_insert_ne].
      rewrite list_lookup_insert_eq by done. split; intros (c & Hc & <-).
      * assert (c = old) as -> by congruence. exists contact. by rewrite Hold.
      * injection Hc as <-. exists old. by rewrite Hold.
    + intros pid phone Hp. eapply accounted_mono; [|exact Hmono|by apply H5]. done.
    + eapply Forall_impl; [exact H6|]. intros pc. apply reported_mono; [done|exact Hmono].
  - assert (forall c, c ∈ sy_Contacts result -> contact_ID c <> contact_ID contact) as Hother.
    { intros c [m Hm]%list_elem_of_lookup_1 Heq. pose proof (Hsamephone _ _ Hm Heq) as Hp.
      assert (idx !! E164Phone_String (contact_Phone contact) = Some m) as Hi by (apply H4; exists c; split; [done|congruence]). congruence. }
    assert (forall pid c, c ∈ sy_Contacts result -> sourced t n pid c db ->
      exists c', c' ∈ sy_Contacts result ++ [contact] /\ contact_Phone c' = contact_Phone c /\ sourced t n pid c' db') as Hmono.
    { intros pid c Hc Hs. exists c. split_and!; [apply elem_of_app; by left|done|by eapply sourced_kept]. }
    split; [|cbn; apply elem_of_app; right; by apply list_elem_of_singleton]. split; try done.
    + by eapply server_kept_trans.
    + cbn. intros c [Hc| ->%list_elem_of_singleton]%elem_of_app; [|done]. eapply stored_kept; [exact Hk|exact Hsame|by apply Hother|by apply H3].
    + cbn. intros k m. destruct (decide (k = E164Phone_String (contact_Phone contact))) as [->|Hne].
      * rewrite lookup_insert_eq. split.
        -- intros [= <-]. exists contact. split; [|done]. rewrite lookup_app_r by lia. by rewrite Nat.sub_diag.
        -- intros (c & Hc & Hp). f_equal. apply lookup_app_Some in Hc as [Hc|[Hge Hc]].
           ++ assert (idx !! E164Phone_String (contact_Phone contact) = Some m) as Hi by (apply H4; eauto). congruence.
           ++ apply list_lookup_singleton_Some in Hc as [Hz _]. lia.
      * rewrite lookup_insert_ne by done. rewrite H4. split; intros (c & Hc & Hp); exists c; (split; [|done]).
        -- by apply lookup_app_l_Some.
        -- apply lookup_app_Some in Hc as [Hc|[_ Hc]]; [done|]. apply list_lookup_singleton_Some in Hc as [_ <-]. by destruct Hne.
    + intros pid phone Hp. eapply accounted_mono; [|exact Hmono|by apply H5]. done.
    + eapply Forall_impl; [exact H6|]. intros pc. apply reported_mono; [done|exact Hmono].
Qed.
(** What the loop comes to, however it ends. *)
Lemma sync_contacts_ok i pcs done idx ids result db db' out err :
  loop_ok done idx ids result db -> sync_contacts t n newID i pcs idx ids result db = (db', (out, err)) ->
  contacts_ok db' /\ server_kept t n db0 db' /\
  (err = [] -> exists idx' ids', loop_ok (done ++ pcs) idx' ids' out db').
Proof.
  revert i done idx ids result db. induction pcs as [|pc pcs IH]; intros i done idx ids result db Hloop H; cbn [sync_contacts] in H.
  { injection H as <- <- <-. split_and!; [apply Hloop..|]. intros _. rewrite app_nil_r. by exists idx, ids. }
  replace (done ++ pc :: pcs) with ((done ++ [pc]) ++ pcs) by (by rewrite <- app_assoc).
  case_if_in H Eblank; reflect_bools; [eapply IH; [|exact H]; by apply loop_reject|].
  destruct (ParseE164 (pc_PhoneNumber pc)) as [phone|e] eqn:Ep; [|eapply IH; [|exact H]; apply loop_reject; [by exists e|done]].
  assert (reason_holds pc RejectionProviderIdentityConflict) as Hconflict by (split; [done|by exists phone]).
  destruct (ids !! pc_ID pc) as [existing|] eqn:Ei.
  { eapply IH; [|exact H]. case_if_goal Es; reflect_bools; [|by apply loop_reject]. subst existing.
    eapply loop_seen; [exact Ep|by eapply lo_ids|done]. }
  destruct (UpsertProviderContact _ (newID i) db) as [db1 r] eqn:Eu.
  destruct (UpsertProviderContact_spec (sync_update t n pc phone) _ _ _ _ _ (lo_db _ _ _ _ _ Hloop) (newID_named i) Ep Eu) as (Hok1 & Hk1 & Hr).
  cbn [pu_TenantID pu_ConnectionID pu_ProviderContactID pu_Phone sync_update] in Hk1, Hr. destruct r as [contact|e].
  - destruct Hr as (Hst & Hph & Hsrc & Hsame). destruct (contact_TenantID contact <>s t) eqn:Et.
    { destruct Hst as [Hst _]. rewrite Hst, String.eqb_refl in Et. done. }
    rewrite bool_decide_true in H by done. cbn [orb negb] in H.
    destruct (place idx phone contact result) as [idx1 result1] eqn:Epl.
    destruct (loop_place _ _ _ _ _ _ _ _ _ _ Hloop Hok1 Hk1 Hst Hph Hsame Epl) as [Hloop1 Hin].
    assert (accounted t n (pc_ID pc) phone result1 db1) as Ha by (right; by exists contact).
    eapply IH; [|exact H]. apply loop_note; [done|]. by eapply loop_seen.
  - subst db1. case_if_in H Ec.
    + eapply IH; [|exact H]. apply loop_note; [left; apply rejected_self|]. by apply loop_reject.
    + injection H as <- <- <-. split_and!; [apply Hloop..|]. intros ->.
      by destruct (UpsertProviderContact_err (sync_update t n pc phone) _ _ _ _ _ Ep Eu).
Qed.
End Loop.

Section Synchronise.
Variables (t n : string) (newID : nat -> string) (db0 : ContactDb).
Hypothesis newID_named : forall i, newID i <> "".
Hypothesis db0_ok : contacts_ok db0.

Lemma loop_start : loop_ok t n db0 [] ∅ ∅ empty_result db0.
Proof.
  split; try done; try (by constructor).
  - apply server_kept_refl.
  - intros contact H. by apply elem_of_nil in H.
  - intros k m. rewrite lookup_empty. split; [done|]. intros (c & Hc & _). cbn in Hc. by rewrite lookup_nil in Hc.
Qed.

Lemma Sync_ok found list_contacts db out err :
  Sync t n newID found list_contacts db0 = (db, (out, err)) ->
  contacts_ok db /\ server_kept t n db0 db /\
  (err = [] -> forall connection pcs, found = Ok connection -> list_contacts connection = Ok pcs ->
     exists idx ids, loop_ok t n db0 pcs idx ids out db).
Proof.
  unfold Sync. intros H. assert (contacts_ok db0 /\ server_kept t n db0 db0) as [H1 H2] by (split; [done|apply server_kept_refl]).
  case_if_in H E1; [by injection H as <- <- <-|]. destruct found as [connection|e].
  - case_if_in H E2; [by injection H as <- <- <-|]. destruct (list_contacts connection) as [pcs|e] eqn:El.
    + destruct (sync_contacts_ok t n newID db0 newID_named _ _ _ _ _ _ _ _ _ _ loop_start H) as (? & ? & Hend).
      split_and!; try done. intros He c' pcs' [= <-] Hl. assert (pcs' = pcs) as -> by congruence. by apply Hend.
    + injection H as <- <- <-. split_and!; try done. intros -> c' pcs [= <-] Hl. congruence.
  - injection H as <- <- <-. split_and!; try done.
Qed.
End Synchronise.

(** C31. Synchronising the contacts of a connection, whatever the provider lists and
    however it ends, keeps the table of contacts well formed and changes only provider
    data: every contact keeps its phone number and its server alias, and no label,
    label link, synchronisation run or contact of another tenant changes; a source
    that exists keeps its contact and its number, those of other connections are untouched,
    and a new contact has no alias. *)
Theorem sync_keeps_server_data (t n : string) (newID : nat -> string) (found : result Connection)
  (list_contacts : Connection -> result (list ProviderContact)) (db db' : ContactDb) (out : SyncResult) (err : error)
  (Hids : forall i, newID i <> "") (Hok : contacts_ok db)
  (Hsync : Sync t n newID found list_contacts db = (db', (out, err))) :
  contacts_ok db' /\ server_kept t n db db'.
Proof. by destruct (Sync_ok t n newID db Hids Hok _ _ _ _ _ Hsync) as (? & ? & _). Qed.

(** A synchronisation that reports no error reports what it stored: the contacts
    of its result have distinct phone numbers and are the contacts in the table as a
    read gives them; every contact the provider listed is rejected, or its number is
    among them with a source that names it; and each rejection is of a listed contact and
    has its reason. *)
Theorem sync_reports_stored (t n : string) (newID : nat -> string) (connection : Connection)
  (list_contacts : Connection -> result (list ProviderContact)) (listed : list ProviderContact) (db db' : ContactDb) (out : SyncResult)
  (Hids : forall i, newID i <> "") (Hok : contacts_ok db) (Hlisted : list_contacts connection = Ok listed)
  (Hsync : Sync t n newID (Ok connection) list_contacts db = (db', (out, []))) :
  NoDup (contact_Phone <$> sy_Contacts out) /\
  Forall (fun contact => stored_contact t contact db') (sy_Contacts out) /\
  Forall (reported t n out db') listed /\
  Forall (explained listed) (sy_Rejected out).
Proof.
  destruct (Sync_ok t n newID db Hids Hok _ _ _ _ _ Hsync) as (_ & _ & H).
  destruct (H eq_refl connection listed eq_refl Hlisted) as (idx & ids & [_ _ H3 H4 _ H6 H7]). split_and!; try done; [|by apply Forall_forall].
  apply NoDup_alt. intros i j p Hi Hj. apply list_lookup_fmap_Some in Hi as (ci & -> & Hi). apply list_lookup_fmap_Some in Hj as (cj & Hp & Hj).
  assert (idx !! E164Phone_String (contact_Phone ci) = Some i) as H1 by (apply H4; eauto).
  assert (idx !! E164Phone_String (contact_Phone ci) = Some j) as H2 by (apply H4; exists cj; split; [done|congruence]). congruence.
Qed.

(** ** Pages *)

#[export] Instance contact_le_transitive : Transitive contact_le.
Proof. intros a b c. unfold contact_le. apply transitivity. Qed.

#[export] Instance contact_le_total : Total contact_le.
Proof. intros a b. unfold contact_le. apply total, _. Qed.

Lemma contact_rows_elem db t id row : (id, row) ∈ contact_rows db t <-> contacts db !! (t, id) = Some row.
Proof.
  unfold contact_rows. rewrite merge_sort_Permutation, list_elem_of_fmap. split.
  - intros ([[t' id'] row'] & [= -> ->] & H). apply elem_of_List_filter in H as [H E]. cbn in E. apply String.eqb_eq in E as ->.
    by apply elem_of_map_to_list in H.
  - intros H. exists ((t, id), row). split; [done|]. apply elem_of_List_filter. cbn. rewrite String.eqb_refl. split; [|done].
    by apply elem_of_map_to_list.
Qed.

Lemma contact_rows_sorted db t : StronglySorted contact_le (contact_rows db t).
Proof. apply StronglySorted_merge_sort; apply _. Qed.

Lemma contact_ids_sorted rows : StronglySorted contact_le rows -> StronglySorted String.le rows.*1.
Proof. induction 1 as [|r rows _ IH Hr]; cbn; constructor; [done|by apply Forall_fmap]. Qed.

Lemma contact_rows_nodup db t : NoDup (contact_rows db t).*1.
Proof.
  unfold contact_rows. rewrite merge_sort_Permutation, <- list_fmap_compose.
  assert (forall l : list (string * string * ContactRow), NoDup l.*1 -> NoDup ((fst ∘ (fun q => (q.1.2, q.2))) <$> List.filter (fun q => q.1.1 =s t) l)) as H.
  { induction l as [|[[t' c] r] l IH]; cbn; [constructor|]. intros [Hn Hl]%NoDup_cons. destruct (t' =s t) eqn:E; cbn; [|by apply IH].
    apply String.eqb_eq in E as ->. constructor; [|by apply IH]. intros ([[t'' c''] r''] & Hc & Hin)%list_elem_of_fmap. cbn in Hc. subst c''.
    apply elem_of_List_filter in Hin as [Hin E]. cbn in E. apply String.eqb_eq in E as ->.
    apply Hn, list_elem_of_fmap. by exists (t, c, r''). }
  apply H, NoDup_fst_map_to_list.
Qed.

(** Reading page after page, from a cursor, until there is no next one. *)
Fixpoint walk (fuel : nat) (t after : string) (limit : Z) (db : ContactDb) : result (list Contact) :=
  match fuel with
  | O => Err [ErrText "out of fuel"]
  | S fuel =>
    let! page := (ListContacts t after limit db).2 in
    if cpg_NextCursor page =s "" then Ok (cpg_Contacts page)
    else let! rest := walk fuel t (cpg_NextCursor page) limit db in Ok (cpg_Contacts page ++ rest)
  end.

Definition readable (db : ContactDb) (t : string) (rows : list (string * ContactRow)) : Prop :=
  Forall (fun q => exists contact, scanContact db t q.1 q.2 = Ok contact) rows.

Lemma scan_contacts_readable db t rows :
  readable db t rows -> exists found, scan_contacts db t rows = Ok found /\
    Forall2 (fun q contact => scanContact db t q.1 q.2 = Ok contact) rows found.
Proof.
  induction 1 as [|[id row] rows [contact Hc] _ (found & Hf & H2)]; cbn; [by exists []|]. cbn in Hc. rewrite Hc, Hf. cbn.
  exists (contact :: found). split; [done|]. by constructor.
Qed.

Lemma scan_contacts_app db t l1 l2 f1 f2 :
  scan_contacts db t l1 = Ok f1 -> scan_contacts db t l2 = Ok f2 -> scan_contacts db t (l1 ++ l2) = Ok (f1 ++ f2).
Proof.
  revert f1. induction l1 as [|[id row] l1 IH]; intros f1; cbn; [by intros [= <-]|].
  intros (contact & Hc & H)%result_bind_ok H2. apply result_bind_ok in H as (found & Hf & [= <-]). rewrite Hc. cbn.
  by rewrite (IH found).
Qed.

Lemma scan_ids db t rows found :
  Forall2 (fun q contact => scanContact db t q.1 q.2 = Ok contact) rows found -> contact_ID <$> found = rows.*1.
Proof.
  induction 1 as [|[id row] contact rows found H _ IH]; cbn; [done|]. f_equal; [|done]. cbn in H. unfold scanContact in H.
  destruct (ParseE164 (ct_Phone row)); [|done]. by injection H as <-.
Qed.

Lemma List_filter_all {A} (f : A -> bool) l : (forall x, x ∈ l -> f x = true) -> List.filter f l = l.
Proof. induction l as [|x l IH]; intros H; cbn; [done|]. rewrite H by set_solver. f_equal. apply IH. set_solver. Qed.

Lemma after_suffix pre x suf :
  StronglySorted contact_le (pre ++ x :: suf) -> NoDup (pre ++ x :: suf).*1 ->
  List.filter (after_cursor x.1) (pre ++ x :: suf) = suf.
Proof.
  intros Hs Hn. rewrite List.filter_app. cbn [List.filter]. unfold after_cursor at 2. rewrite String.eqb_refl. cbn [negb]. rewrite andb_false_r.
  rewrite fmap_app, fmap_cons in Hn. apply NoDup_app in Hn as (_ & Hd & [Hx Hsuf]%NoDup_cons).
  apply StronglySorted_app in Hs as (Hcross & _ & Hs2). inversion Hs2 as [|? ? _ Hx']; subst.
  assert (List.filter (after_cursor x.1) pre = []) as ->.
  { apply elem_of_nil_inv. intros q [Hq Ha]%elem_of_List_filter. unfold after_cursor in Ha. apply andb_true_iff in Ha as [Hle Hne].
    pose proof (Hcross q x Hq ltac:(set_solver)) as Hq'. unfold contact_le in Hq'. apply Is_true_true_2 in Hle.
    assert (q.1 = x.1) as E by (apply (anti_symm String.le); done). by rewrite E, String.eqb_refl in Hne. }
  cbn. apply List_filter_all. rewrite Forall_forall in Hx'. intros q Hq. specialize (Hx' q Hq). unfold contact_le in Hx'.
  unfold after_cursor. apply andb_true_iff. split; [by apply Is_true_true_1|]. apply negb_true_iff, String.eqb_neq. intros E.
  apply Hx. rewrite <- E. by apply list_elem_of_fmap_2.
Qed.

Lemma leb_empty s : String.leb "" s = true.
Proof. by destruct s. Qed.

Section Pages.
Variables (db : ContactDb) (t : string) (Limit : Z).
Hypothesis Ht : t <> "".
Hypothesis HLimit : 0 <= Limit <= 200.
Hypothesis Hok : contacts_ok db.

Let limit : Z := if Limit =? 0 then 50 else Limit.

Lemma rows_readable suf : suf ⊆ contact_rows db t -> readable db t suf.
Proof.
  intros Hsub. apply Forall_forall. intros [id row] Hq%Hsub. apply contact_rows_elem in Hq. unfold scanContact. cbn.
  destruct (cok_phone _ Hok _ _ Hq) as [p ->]. by eexists.
Qed.

Lemma ListContacts_page after :
  ListContacts t after Limit db = (db,
    let! found := scan_contacts db t (take (Z.to_nat (limit + 1)) (List.filter (after_cursor after) (contact_rows db t))) in
    Ok (if blen found >? limit then
          let page := take (Z.to_nat limit) found in
          {| cpg_Contacts := page; cpg_NextCursor := match last page with Some contact => contact_ID contact | None => "" end |}
        else {| cpg_Contacts := found; cpg_NextCursor := "" |})).
Proof.
  unfold ListContacts. rewrite (proj2 (Z.ltb_ge Limit 0)), Z.gtb_ltb, (proj2 (Z.ltb_ge 200 Limit)) by lia. cbn [orb].
  unfold inTenant. rewrite (proj2 (String.eqb_neq t "") Ht). cbv zeta. fold limit.
  by destruct (scan_contacts db t _).
Qed.

(** From a cursor after which the rows [suf] come. *)
Lemma walk_suffix fuel pre suf after :
  contact_rows db t = pre ++ suf -> List.filter (after_cursor after) (contact_rows db t) = suf -> (length suf < fuel)%nat ->
  walk fuel t after Limit db = scan_contacts db t suf.
Proof.
  assert (1 <= limit <= 200) as Hlimit by (subst limit; destruct (Z.eqb_spec Limit 0); lia).
  revert pre suf after. induction fuel as [|fuel IH]; intros pre suf after Hrows Hsuf Hlen; [lia|]. cbn [walk].
  rewrite ListContacts_page, Hsuf. cbn [snd].
  assert (readable db t suf) as Hread by (apply rows_readable; rewrite Hrows; set_solver).
  destruct (scan_contacts_readable _ _ _ Hread) as (all & Hall & H2).
  assert (readable db t (take (Z.to_nat (limit + 1)) suf)) as Hread' by (by apply Forall_take).
  destruct (scan_contacts_readable _ _ _ Hread') as (found & Hfound & H2'). rewrite Hfound. cbn [result_bind].
  pose proof (Forall2_length _ _ _ H2') as Hl. rewrite length_take in Hl.
  destruct (blen found >? limit) eqn:Eb; reflect_bools; cbv zeta; unfold blen in Eb; cbn [cpg_NextCursor cpg_Contacts].
  - assert (exists p x rest, suf = p ++ x :: rest /\ length (p ++ [x]) = Z.to_nat limit) as (p & x & rest & -> & Hpx).
    { destruct (lookup_lt_is_Some_2 suf (Z.to_nat limit - 1)%nat ltac:(lia)) as [x Hx].
      exists (take (Z.to_nat limit - 1) suf), x, (drop (Z.to_nat limit) suf). rewrite length_app, length_take. cbn. split; [|lia].
      rewrite <- (take_drop_middle _ _ _ Hx) at 1. repeat f_equal. lia. }
    replace (p ++ x :: rest) with ((p ++ [x]) ++ rest) in * by (by rewrite <- app_assoc).
    assert (readable db t (p ++ [x])) as Hread1 by (apply Forall_app in Hread; apply Hread).
    destruct (scan_contacts_readable _ _ _ Hread1) as (f1 & Hf1 & H21).
    assert (readable db t rest) as Hread2 by (apply Forall_app in Hread; apply Hread).
    destruct (scan_contacts_readable _ _ _ Hread2) as (f2 & Hf2 & H22).
    assert (take (Z.to_nat limit) found = f1) as Hpage.
    { assert (exists extra, found = f1 ++ extra) as [extra ->].
      { rewrite take_app_ge in Hfound by lia.
        assert (readable db t (take (Z.to_nat (limit + 1) - length (p ++ [x])) rest)) as Hr3 by (by apply Forall_take).
        destruct (scan_contacts_readable _ _ _ Hr3) as (f3 & Hf3 & _). exists f3.
        rewrite (scan_contacts_app _ _ _ _ _ _ Hf1 Hf3) in Hfound. by injection Hfound. }
      rewrite take_app_length'; [done|]. pose proof (Forall2_length _ _ _ H21). lia. }
    rewrite Hpage. assert (contact_ID <$> last f1 = Some x.1) as Hlast.
    { rewrite <- fmap_last, (scan_ids _ _ _ _ H21), fmap_app, last_app. done. }
    destruct (last f1) as [lastc|] eqn:El; [|done]. injection Hlast as Hlast. rewrite Hlast.
    assert (x.1 <> "") as Hx.
    { destruct x as [id row]. cbn. eapply (cok_id _ Hok t id row), contact_rows_elem. rewrite Hrows. set_solver. }
    rewrite (proj2 (String.eqb_neq _ _) Hx), (IH (pre ++ p ++ [x]) rest x.1).
    + rewrite Hf2. cbn [result_bind]. by rewrite (scan_contacts_app _ _ _ _ _ _ Hf1 Hf2).
    + by rewrite Hrows, !app_assoc.
    + replace (contact_rows db t) with ((pre ++ p) ++ x :: rest) by (by rewrite Hrows, <- !app_assoc).
      apply after_suffix; [|]; rewrite <- app_assoc; cbn; replace (pre ++ p ++ x :: rest) with (contact_rows db t)
        by (by rewrite Hrows, <- !app_assoc); [apply contact_rows_sorted|apply contact_rows_nodup].
    + rewrite length_app in Hlen. lia.
  - cbn [String.eqb]. rewrite take_ge in Hfound; [done|]. lia.
Qed.
End Pages.

(** C32. Reading the contacts of a tenant page by page, with any page size that is
    accepted, ends and gives every contact of the tenant once, in the order of their
    identifiers, as it is stored. *)
Theorem contact_pages_complete (db : ContactDb) (t : string) (Limit : Z)
  (Ht : t <> "") (HLimit : 0 <= Limit <= 200) (Hok : contacts_ok db) :
  exists found, walk (S (length (contact_rows db t))) t "" Limit db = Ok found /\
    StronglySorted String.le (contact_ID <$> found) /\ NoDup (contact_ID <$> found) /\
    forall contact, contact ∈ found <->
      exists id row, contacts db !! (t, id) = Some row /\ scanContact db t id row = Ok contact.
Proof.
  destruct (scan_contacts_readable db t (contact_rows db t)) as (found & Hf & H2); [by apply rows_readable|].
  exists found. rewrite (walk_suffix db t Limit Ht HLimit Hok _ [] (contact_rows db t) ""); [|done| |lia].
  - split; [done|]. rewrite (scan_ids _ _ _ _ H2). split_and!; [|apply contact_rows_nodup|].
    + apply contact_ids_sorted, contact_rows_sorted.
    + intros contact. split.
      * intros [i Hi]%list_elem_of_lookup_1. destruct (Forall2_lookup_r _ _ _ _ _ H2 Hi) as ([id row] & Hrow & Hscan).
        exists id, row. split; [|done]. by apply contact_rows_elem, (list_elem_of_lookup_2 _ i).
      * intros (id & row & Hrow & Hscan). apply contact_rows_elem, list_elem_of_lookup_1 in Hrow as [i Hi].
        destruct (Forall2_lookup_l _ _ _ _ _ H2 Hi) as (contact' & Hc & Hscan'). cbn in Hscan'. apply list_elem_of_lookup_2 with i. congruence.
  - apply List_filter_all. intros [id row] Hq%contact_rows_elem. unfold after_cursor. cbn. rewrite leb_empty.
    apply negb_true_iff, String.eqb_neq. by eapply cok_id.
Qed.

(** ** Every operation keeps the tables well formed *)

Section Steps.
Context (IsLetter IsDigit : Z -> bool) (ToLower : Z -> Z).

Inductive contact_step : ContactDb -> ContactDb -> Prop :=
| step_server_contact t newID phone alias db : contact_step db (UpsertServerContact t newID phone alias db).1
| step_provider_contact u newID raw db : newID <> "" -> ParseE164 raw = Ok (pu_Phone u) ->
    contact_step db (UpsertProviderContact u newID db).1
| step_set_alias t c alias db : contact_step db (SetContactAlias t c alias db).1
| step_clear_alias t c db : contact_step db (ClearContactAlias t c db).1
| step_create_label t label db : contact_step db (CreateLabel IsLetter IsDigit ToLower t label db).1
| step_attach t c l db : contact_step db (AttachLabel t c l db).1
| step_detach t c l db : contact_step db (DetachLabel t c l db).1
| step_begin_run t run db : contact_step db (BeginContactSyncRun t run db).1
| step_finish_run t run status imported rejected summary at_ db :
    contact_step db (FinishContactSyncRun t run status imported rejected summary at_ db).1
| step_sync t n newID found list_contacts db : (forall i, newID i <> "") -> contact_step db (Sync t n newID found list_contacts db).1.

(** A transaction keeps a property its operation keeps. *)
Lemma inTenant_keeps {T} (P : ContactDb -> Prop) t (op : ContactDb -> result (ContactDb * T)) db :
  P db -> (forall db' v, op db = Ok (db', v) -> P db') -> P (inTenant t op db).1.
Proof. unfold inTenant. intros Hp Hop. destruct (t =s ""); [done|]. destruct (op db) as [[db' v]|]; [by eapply Hop|done]. Qed.

Lemma set_alias_ok t c alias db db' v : contacts_ok db -> set_alias t c alias db = Ok (db', v) -> contacts_ok db'.
Proof.
  unfold set_alias. intros Hok H. destruct (contacts db !! (t, c)) as [row|] eqn:E; [|done]. injection H as <- _.
  apply put_contact_ok; [by eapply cok_id|exact (cok_phone _ Hok _ _ E)|right; by exists row|done].
Qed.

Lemma upsert_server_ok t createdID phone alias provided db db' contact :
  createdID <> "" -> contacts_ok db -> upsert_server_contact t createdID phone alias provided db = Ok (db', contact) -> contacts_ok db'.
Proof.
  unfold upsert_server_contact. intros Hid Hok H. destruct (contact_by_phone db t phone) as [[c row]|] eqn:E.
  - apply contact_by_phone_Some in E as [Hr Hp]. apply result_bind_ok in H as (_ & _ & [= <- _]).
    apply put_contact_ok; [by eapply cok_id|exact (cok_phone _ Hok _ _ Hr)|right; by exists row|done].
  - apply result_bind_ok in H as (db1 & [Hn ->]%insert_contact_Ok & H). apply result_bind_ok in H as (contact' & Hs & [= <- _]).
    unfold scanContact in Hs. cbn [ct_Phone] in Hs. destruct (ParseE164 phone) as [p|] eqn:Ep; [|done].
    apply put_contact_ok; [done|by exists p|left; split; [done|]|done]. intros c' r. by apply contact_by_phone_None.
Qed.

Lemma links_ok m db :
  (forall t c l, (t, c, l) ∈ m -> is_Some (contacts db !! (t, c)) /\ is_Some (labels db !! (t, l))) ->
  contacts_ok db -> contacts_ok (set_contact_labels m db).
Proof. intros Hm []. by split. Qed.

Lemma slug_free db t slug l r : slug_taken db t slug = false -> labels db !! (t, l) = Some r -> lr_Slug r <> slug.
Proof.
  unfold slug_taken. intros H Hr Hs. apply not_true_iff_false in H. apply H, existsb_exists. exists (t, l, r).
  split; [by apply list_elem_of_In, elem_of_map_to_list|]. cbn. by rewrite Hs, !String.eqb_refl.
Qed.

Lemma contact_step_ok db db' : contacts_ok db -> contact_step db db' -> contacts_ok db'.
Proof.
  intros Hok Hstep. revert Hok. destruct Hstep as [t newID phone alias db|u newID raw db Hid Hraw|t c alias db|
    t c db|t label db|t c l db|t c l db|t run db|t run status imported rejected summary at_ db|t n newID found list_contacts db Hids]; intros Hok.
  - unfold UpsertServerContact. cbv zeta. case_if_goal E1; [done|]. case_if_goal E2; [done|]. apply inTenant_keeps; [done|].
    intros db' v H. eapply upsert_server_ok; [|done|exact H]. apply orb_false_iff in E1 as [[_ E1]%orb_false_iff _].
    unfold invalid_contact_id in E1. repeat apply orb_false_iff in E1 as [E1 _]. by apply String.eqb_neq.
  - destruct (UpsertProviderContact u newID db) as [db1 r] eqn:E. by eapply UpsertProviderContact_spec in E as (? & _).
  - unfold SetContactAlias. case_if_goal E1; [done|]. case_if_goal E2; [done|]. apply inTenant_keeps; [done|]. intros db' v. by apply set_alias_ok.
  - unfold ClearContactAlias. case_if_goal E1; [done|]. case_if_goal E2; [done|]. apply inTenant_keeps; [done|]. intros db' v. by apply set_alias_ok.
  - unfold CreateLabel. case_if_goal E1; [done|]. case_if_goal E2; [done|]. destruct (NewLabel _ _ _ _ _ _) as [canonical|]; [|done].
    apply inTenant_keeps; [done|]. intros db' v H. apply result_bind_ok in H as (? & Hu & H). apply result_bind_ok in H as (_ & _ & [= <- _]).
    unfold unique_key in Hu. case_if_in Hu Ef; [|done]. reflect_bools. destruct Hok as [K1 K2 K3 K4 K5 K6]. split; cbn; try done.
    + intros t' c l Hl. destruct (K5 _ _ _ Hl) as [? ?]. split; [done|]. rewrite lookup_insert. by case_decide.
    + intros t' l1 l2 r1 r2 [[[= <- <-] <-]|[_ Hr1]]%lookup_insert_Some [[Hk <-]|[_ Hr2]]%lookup_insert_Some Hs; cbn in Hs.
      * by injection Hk.
      * by destruct (slug_free _ _ _ _ _ ltac:(eassumption) Hr2).
      * injection Hk as <- <-. by destruct (slug_free _ _ _ _ _ ltac:(eassumption) Hr1).
      * by eapply K6.
  - unfold AttachLabel. case_if_goal E1; [done|]. case_if_goal E2; [done|]. apply inTenant_keeps; [done|]. intros db' v H.
    case_if_in H Ef; [|done]. injection H as <- _. reflect_bools. apply links_ok; [|done].
    intros t' c' l' [[= -> -> ->]%elem_of_singleton|Hl]%elem_of_union; [done|by apply (cok_links _ Hok)].
  - unfold DetachLabel. case_if_goal E1; [done|]. case_if_goal E2; [done|]. apply inTenant_keeps; [done|]. intros db' v H.
    case_if_in H Ef; [done|]. case_if_in H Eg; [done|]. injection H as <- _. apply links_ok; [|done].
    intros t' c' l' [Hl _]%elem_of_difference. by apply (cok_links _ Hok).
  - unfold BeginContactSyncRun. repeat (case_if_goal E1; [done|clear E1]). apply inTenant_keeps; [done|]. intros db' v H.
    apply result_bind_ok in H as (_ & _ & H). apply result_bind_ok in H as (_ & _ & [= <- _]). destruct Hok. by split.
  - unfold FinishContactSyncRun. repeat (case_if_goal E1; [done|clear E1]). apply inTenant_keeps; [done|]. intros db' v H.
    destruct (sync_runs db !! _) as [row|]; [|done]. case_if_in H E; [|done]. injection H as <- _. destruct Hok. by split.
  - destruct (Sync t n newID found list_contacts db) as [db1 [out err]] eqn:E. by destruct (Sync_ok t n newID db Hids Hok _ _ _ _ _ E).
Qed.
End Steps.

(** ** A concrete synchronisation *)

Definition contact_gateway : Db :=
  set_connections {[("t1", "c1") := {|
    cn_Name := "phone"; cn_State := ConnectionStateConnected;
    cn_Fingerprint := Some (repeat (byte_of_Z 7) 32); cn_ReauthorizationEventID := None;
    cn_PriorState := None; cn_PairingStartedAt := None; cn_PairingAttemptID := None;
    cn_TenantSuspendPriorState := None |}]}
    (set_tenants {["t1" := {| tn_Name := "tenant"; tn_Status := "active"; tn_MaxConnections := 128 |}]} empty_db).

Definition no_contacts : ContactDb := {|
  cdb_gateway := contact_gateway; contacts := ∅; sources := ∅; labels := ∅; contact_labels := ∅; sync_runs := ∅ |}.

(** A contact with an alias that the provider does not know of. *)
Definition aliased : ContactDb :=
  (UpsertServerContact "t1" "contact-0" {| e164_value := "+12025550123" |} (Some "Ann") no_contacts).1.

Definition example_listed : list ProviderContact := [
  {| pc_ID := "contact:1"; pc_PhoneNumber := "+1 202 555 0123"; pc_DisplayName := "A." |};
  {| pc_ID := "contact:2"; pc_PhoneNumber := "+12025550124"; pc_DisplayName := "B." |};
  {| pc_ID := "contact:2"; pc_PhoneNumber := "+12025550125"; pc_DisplayName := "C." |};
  {| pc_ID := " "; pc_PhoneNumber := "+12025550126"; pc_DisplayName := "" |}].

Definition example_connection : Connection :=
  {| conn_ID := "c1"; conn_TenantID := "t1"; conn_Name := "phone"; conn_State := ConnectionStateConnected |}.

Definition example_new_id (i : nat) : string := "new-" +:+ Itoa (Z.of_nat i).

Definition example_sync : ContactDb * (SyncResult * error) :=
  Sync "t1" "c1" example_new_id (Ok example_connection) (fun _ => Ok example_listed) aliased.

Lemma no_contacts_ok : contacts_ok no_contacts.
Proof. split; cbn; intros *; rewrite ?lookup_empty; try done; set_solver. Qed.

Lemma aliased_ok : contacts_ok aliased.
Proof.
  apply (contact_step_ok (fun _ => false) (fun _ => false) id no_contacts); [apply no_contacts_ok|]. apply step_server_contact.
Qed.

Lemma sync_keeps_server_data_witness :
  contacts_ok example_sync.1 /\ server_kept "t1" "c1" aliased example_sync.1 /\
  contacts aliased !! ("t1", "contact-0") = Some {| ct_Phone := "+12025550123"; ct_Alias := "Ann"; ct_ProviderName := "" |} /\
  contacts example_sync.1 !! ("t1", "contact-0") = Some {| ct_Phone := "+12025550123"; ct_Alias := "Ann"; ct_ProviderName := "A." |}.
Proof.
  destruct (sync_keeps_server_data "t1" "c1" example_new_id (Ok example_connection) (fun _ => Ok example_listed) aliased
    example_sync.1 example_sync.2.1 example_sync.2.2) as [H1 H2].
  - intros i. unfold example_new_id. by destruct (Itoa (Z.of_nat i)).
  - apply aliased_ok.
  - unfold example_sync. by destruct (Sync _ _ _ _ _ _) as [? [? ?]].
  - split; [exact H1|]. split; [exact H2|]. split; vm_compute; reflexivity.
Defined.

Lemma sync_reports_stored_witness :
  example_sync.2.2 = [] /\ length (sy_Contacts example_sync.2.1) = 2%nat /\ length (sy_Rejected example_sync.2.1) = 2%nat /\
  Forall (reported "t1" "c1" example_sync.2.1 example_sync.1) example_listed.
Proof.
  assert (example_sync.2.2 = []) as He by (vm_compute; reflexivity). split; [exact He|].
  split; [vm_compute; reflexivity|]. split; [vm_compute; reflexivity|].
  refine (proj1 (proj2 (proj2 (sync_reports_stored "t1" "c1" example_new_id example_connection (fun _ => Ok example_listed) example_listed
    aliased example_sync.1 example_sync.2.1 _ aliased_ok eq_refl _)))).
  - intros i. unfold example_new_id. by destruct (Itoa (Z.of_nat i)).
  - rewrite <- He. unfold example_sync. by destruct (Sync _ _ _ _ _ _) as [? [? ?]].
Defined.

Lemma contact_pages_complete_witness :
  exists found, walk (S (length (contact_rows aliased "t1"))) "t1" "" 1 aliased = Ok found /\ NoDup (contact_ID <$> found).
Proof.
  destruct (contact_pages_complete aliased "t1" 1 ltac:(done) ltac:(lia) aliased_ok) as (found & H1 & _ & H2 & _).
  exists found. split; [exact H1|exact H2].
Defined.
