(* ===== verification/Tenants.v ===== *)
(** * Tenant administration (internal/gateway/store/postgres/tenant_admin.go, migration 0016)

    Provisioning, suspension and resumption of a tenant, each one transaction
    under the advisory lock of the tenant, with the audit event of every change. *)

From S2P Require Import Prelude GoText Crypto GoEncoding Domain Session EventContract Store Connections SessionVault Leases PairingStore.

(** ** Input *)

(** [^[a-z0-9][a-z0-9_-]{0,127}$]. *)
Definition admin_id_head (c : ascii) : bool := between 97 122 (byte_val c) || between 48 57 (byte_val c).
Definition admin_id_char (c : ascii) : bool := admin_id_head c || (byte_val c =? 95) || (byte_val c =? 45).

Definition tenantAdminIDPattern (id : string) : bool :=
  match bytes_of id with
  | [] => false
  | c :: rest => admin_id_head c && forallb admin_id_char rest && (blen rest <=? 127)
  end.

Definition safeAdminText (value : string) (maxBytes : Z) : bool :=
  if (value =s "") || (len value >? maxBytes) || negb (utf8_ValidString value) || (TrimSpace value <>s value)
  then false
  else forallb (fun r => negb (unicode_IsControl r || in_ranges Cf_ranges r)) (runes value).

Record TenantAdminInput := { ti_TenantID : string; ti_Name : string; ti_MaxConnections : Z; ti_Actor : string }.

Definition TenantAdminInput_Validate (input : TenantAdminInput) : result unit :=
  if negb (tenantAdminIDPattern (ti_TenantID input)) || negb (safeAdminText (ti_Name input) 256) ||
     negb (safeAdminText (ti_Actor input) 128) || (ti_MaxConnections input <? 1) ||
     (ti_MaxConnections input >? DefaultMaxConnectionsPerTenant)
  then Err [ErrInvalidTenantAdminInput] else Ok tt.

Record TenantOperationalStatus := {
  os_TenantID : string; os_Name : string; os_Status : string; os_MaxConnections : Z; os_ConnectionCount : Z }.

(** ** State

    The gateway's tables with the two parts only this component touches: the
    column [tenants.suspended_at] and the table [tenant_admin_events]. *)

Record AdminEventRow := {
  av_Action : string; av_Actor : string; av_TenantName : string; av_MaxConnections : Z; av_OccurredAt : Z }.

Record AdminDb := {
  ad_Db : Db;
  ad_SuspendedAt : gmap string Z;
  ad_Events : gmap (string * string) AdminEventRow }.

Definition on_db (db : Db) (st : AdminDb) : AdminDb :=
  {| ad_Db := db; ad_SuspendedAt := ad_SuspendedAt st; ad_Events := ad_Events st |}.

(** The transaction [beginTenant] opens: committed as a whole or rolled back. *)
Definition admin_transaction {T} (op : AdminDb -> result (AdminDb * T)) (st : AdminDb) : AdminDb * result T :=
  match op st with Ok (st', v) => (st', Ok v) | Err e => (st, Err e) end.

(** The CHECK constraints of [tenants], on the row written. *)
Definition tenant_row_ok (tn : TenantRow) (suspendedAt : option Z) : bool :=
  (1 <=? tn_MaxConnections tn) && (tn_MaxConnections tn <=? 128) &&
  ((tn_Status tn =s "active") && bool_decide (suspendedAt = None) ||
   (tn_Status tn =s "suspended") && bool_decide (suspendedAt <> None)).

Definition put_tenant (t : tenant) (tn : TenantRow) (suspendedAt : option Z) (st : AdminDb) : result AdminDb :=
  let! _ := check_constraint (tenant_row_ok tn suspendedAt) in
  Ok {| ad_Db := set_tenants (<[t := tn]> (tenants (ad_Db st))) (ad_Db st);
        ad_SuspendedAt := partial_alter (fun _ => suspendedAt) t (ad_SuspendedAt st);
        ad_Events := ad_Events st |}.

(** ** Operations

    The receiver is not nil and carries the actor [NewTenantAdministrator]
    accepted; [eventID] is what [newID] returns and [now] the database clock. *)

Definition NewTenantAdministrator (hasDb : bool) (actor : string) : result string :=
  if negb hasDb || negb (safeAdminText actor 128) then Err [ErrInvalidTenantAdminInput] else Ok actor.

Definition admin_actions : list string := ["provision"; "update"; "suspend"; "resume"].

Definition audit (actor : string) (t : tenant) (eventID action name : string) (quota now : Z) (st : AdminDb)
    : result AdminDb :=
  if eventID =s "" then Err [ErrText "create tenant audit identity"]
  else
    let! _ := foreign_key (bool_decide (is_Some (tenants (ad_Db st) !! t))) in
    let! _ := check_constraint (existsb (String.eqb action) admin_actions && (1 <=? len actor) && (len actor <=? 128) &&
                (1 <=? len name) && (len name <=? 256) && (1 <=? quota) && (quota <=? 128)) in
    let! events' := insert_unique (ad_Events st) (t, eventID)
      {| av_Action := action; av_Actor := actor; av_TenantName := name; av_MaxConnections := quota; av_OccurredAt := now |} in
    Ok {| ad_Db := ad_Db st; ad_SuspendedAt := ad_SuspendedAt st; ad_Events := events' |}.

Definition readTenantOperationalStatus (t : tenant) (st : AdminDb) : result TenantOperationalStatus :=
  match tenants (ad_Db st) !! t with
  | None => Err [ErrTenantNotFound]
  | Some tn => Ok {| os_TenantID := t; os_Name := tn_Name tn; os_Status := tn_Status tn;
                     os_MaxConnections := tn_MaxConnections tn; os_ConnectionCount := connection_count (ad_Db st) t |}
  end.

Definition Provision (actor : string) (input : TenantAdminInput) (eventID : string) (now : Z) (st : AdminDb)
    : AdminDb * result TenantOperationalStatus :=
  let input := {| ti_TenantID := ti_TenantID input; ti_Name := ti_Name input;
                  ti_MaxConnections := ti_MaxConnections input; ti_Actor := actor |} in
  let t := ti_TenantID input in
  let name := ti_Name input in
  let quota := ti_MaxConnections input in
  match TenantAdminInput_Validate input with
  | Err e => (st, Err e)
  | Ok _ => admin_transaction (fun st =>
    let! st1 := match tenants (ad_Db st) !! t with
      | None =>
        let! st' := put_tenant t {| tn_Name := name; tn_Status := "active"; tn_MaxConnections := quota |} None st in
        audit actor t eventID "provision" name quota now st'
      | Some old =>
        if (tn_Name old <>s name) || negb (tn_MaxConnections old =? quota) then
          let! st' := put_tenant t {| tn_Name := name; tn_Status := tn_Status old; tn_MaxConnections := quota |}
                        (ad_SuspendedAt st !! t) st in
          audit actor t eventID "update" name quota now st'
        else Ok st
      end in
    let! status := readTenantOperationalStatus t st1 in
    Ok (st1, status)) st
  end.

Definition Status (t : tenant) (st : AdminDb) : AdminDb * result TenantOperationalStatus :=
  if negb (tenantAdminIDPattern t) then (st, Err [ErrInvalidTenantAdminInput])
  else admin_transaction (fun st => let! status := readTenantOperationalStatus t st in Ok (st, status)) st.

(** [UPDATE connections ... WHERE tenant_id = $1 AND ...]: every row selected is
    replaced, or the statement fails on a constraint. No fingerprint changes. *)
Definition suspendable (state : ConnectionState) : bool :=
  match state with
  | ConnectionStateUnpaired | ConnectionStateConnected | ConnectionStateDegraded
  | ConnectionStateReauthorizationRequired | ConnectionStateSuspended | ConnectionStateDisconnected => true
  | _ => false
  end.

Definition suspend_prior_ok (c : ConnectionRow) : bool :=
  match cn_TenantSuspendPriorState c with Some p => suspendable p | None => true end.

Definition update_connections (t : tenant) (selected : ConnectionRow -> bool) (f : ConnectionRow -> ConnectionRow)
    (db : Db) : result Db :=
  let! _ := check_constraint (forallb (fun p => negb ((p.1.1 =s t) && selected p.2) ||
                connection_row_ok (f p.2) && suspend_prior_ok (f p.2)) (map_to_list (connections db))) in
  Ok (set_connections (map_imap (fun k c => Some (if (k.1 =s t) && selected c then f c else c)) (connections db)) db).

Definition with_suspension (c : ConnectionRow) (state : ConnectionState) (prior : option ConnectionState)
    : ConnectionRow := {|
  cn_Name := cn_Name c; cn_State := state; cn_Fingerprint := cn_Fingerprint c;
  cn_ReauthorizationEventID := cn_ReauthorizationEventID c; cn_PriorState := cn_PriorState c;
  cn_PairingStartedAt := cn_PairingStartedAt c; cn_PairingAttemptID := cn_PairingAttemptID c;
  cn_TenantSuspendPriorState := prior |}.

Definition suspend_connections (t : tenant) : Db -> result Db :=
  update_connections t
    (fun c => suspendable (cn_State c) && bool_decide (cn_TenantSuspendPriorState c = None))
    (fun c => with_suspension c ConnectionStateSuspended (Some (cn_State c))).

Definition resume_connections (t : tenant) : Db -> result Db :=
  update_connections t
    (fun c => bool_decide (cn_State c = ConnectionStateSuspended) && bool_decide (cn_TenantSuspendPriorState c <> None))
    (fun c => with_suspension c (default (cn_State c) (cn_TenantSuspendPriorState c)) None).

(** [UPDATE connection_leases SET owner_id = NULL, fencing_token = fencing_token + 1, ...]. *)
Definition lease_owned (l : LeaseRow) : bool := bool_decide (ls_Owner l <> None).

Definition fence_leases (t : tenant) (now : Z) (db : Db) : result Db :=
  if existsb (fun p => (p.1.1 =s t) && lease_owned p.2 && negb (is_ok (next_token (ls_Token p.2))))
       (map_to_list (leases db))
  then Err [ErrText "bigint out of range"]
  else Ok (set_leases (map_imap (fun k l => Some (if (k.1 =s t) && lease_owned l
         then {| ls_Owner := None; ls_Token := ls_Token l + 1; ls_ExpiresAt := now |} else l)) (leases db)) db).

Definition pairing_active (t : tenant) (db : Db) : bool :=
  existsb (fun p => (p.1.1 =s t) && bool_decide (cn_State p.2 = ConnectionStatePairing)) (map_to_list (connections db)).

Definition with_status (tn : TenantRow) (status : string) : TenantRow :=
  {| tn_Name := tn_Name tn; tn_Status := status; tn_MaxConnections := tn_MaxConnections tn |}.

(** The statements of a suspension and of a resumption. *)
Definition suspend_tenant (t : tenant) (tn : TenantRow) (now : Z) (st : AdminDb) : result AdminDb :=
  if pairing_active t (ad_Db st) then Err [ErrTenantPairingActive]
  else
    let! db1 := suspend_connections t (ad_Db st) in
    let! db2 := fence_leases t now db1 in
    put_tenant t (with_status tn "suspended") (Some now) (on_db db2 st).

Definition resume_tenant (t : tenant) (tn : TenantRow) (st : AdminDb) : result AdminDb :=
  let! db1 := resume_connections t (ad_Db st) in
  put_tenant t (with_status tn "active") None (on_db db1 st).

Definition changeSuspension (actor : string) (t : tenant) (suspend : bool) (eventID : string) (now : Z) (st : AdminDb)
    : AdminDb * result TenantOperationalStatus :=
  if negb (tenantAdminIDPattern t) then (st, Err [ErrInvalidTenantAdminInput])
  else admin_transaction (fun st =>
    match tenants (ad_Db st) !! t with
    | None => Err [ErrTenantNotFound]
    | Some tn =>
      let wantStatus := if suspend then "suspended" else "active" in
      let! st1 := if tn_Status tn <>s wantStatus then
          let! st' := (if suspend then suspend_tenant t tn now st else resume_tenant t tn st) in
          audit actor t eventID (if suspend then "suspend" else "resume") (tn_Name tn) (tn_MaxConnections tn) now st'
        else Ok st in
      let! status := readTenantOperationalStatus t st1 in
      Ok (st1, status)
    end) st.

Definition Suspend (actor : string) (t : tenant) : string -> Z -> AdminDb -> AdminDb * result TenantOperationalStatus :=
  changeSuspension actor t true.
Definition Resume (actor : string) (t : tenant) : string -> Z -> AdminDb -> AdminDb * result TenantOperationalStatus :=
  changeSuspension actor t false.
