(* ===== verification/TenantSafety.v ===== *)
(** * Suspension of a tenant: what it preserves and what it locks out

    How every operation on connections, pairings and leases treats the rows of a
    suspended tenant ([db_moves]), the invariant of administrative suspension
    ([suspension_ok]), and what follows: a suspension is undone exactly, and the
    leases it found are dead for good. *)

From S2P Require Import Prelude GoText Crypto GoEncoding Domain Session EventContract Store Connections SessionVault Leases PairingStore Tenants.

(** ** What the other operations do to connections

    A write of a connection row keeps [tenant_suspend_prior_state] and obeys the
    constraints, and where the tenant is not active it resolves a pairing, only
    changes the state, or asks for reauthorization. *)

Definition tenant_active (db : Db) (t : tenant) : Prop :=
  exists tn, tenants db !! t = Some tn /\ tn_Status tn = "active".

Definition row_moves (db : Db) (k : string * string) (new : ConnectionRow) : Prop :=
  connection_row_ok new = true /\ is_Some (tenants db !! k.1) /\
  cn_TenantSuspendPriorState new = (connections db !! k ≫= cn_TenantSuspendPriorState) /\
  (tenant_active db k.1 \/ exists r, connections db !! k = Some r /\
    (cn_State r = ConnectionStatePairing \/ new = with_state r (cn_State new) \/
     cn_State new = ConnectionStateReauthorizationRequired)).

Definition db_moves (db db' : Db) : Prop :=
  tenants db' = tenants db /\ table_evolves (leases db) (leases db') /\
  forall k, connections db' !! k = connections db !! k \/
    exists new, connections db' !! k = Some new /\ row_moves db k new.

Lemma db_moves_same db db' :
  tenants db' = tenants db -> table_evolves (leases db) (leases db') -> connections db' = connections db -> db_moves db db'.
Proof. intros Ht Hl Hc. split_and!; [done..|]. intros k. left. by rewrite Hc. Qed.

Lemma db_moves_refl db : db_moves db db.
Proof. by apply db_moves_same. Qed.

(** What follows the last write of a connection row. *)
Lemma db_moves_then db db1 db2 :
  db_moves db db1 -> tenants db2 = tenants db1 -> table_evolves (leases db1) (leases db2) ->
  connections db2 = connections db1 -> db_moves db db2.
Proof.
  intros (Ht & Hl & Hc) Ht2 Hl2 Hc2. split_and!; [congruence | by transitivity (leases db1)|].
  intros k. rewrite Hc2. apply Hc.
Qed.

Lemma put_connection_all t c row db db' :
  put_connection t c row db = Ok db' ->
  is_Some (tenants db !! t) /\ connection_row_ok row = true /\ db' = set_connections (<[(t, c) := row]> (connections db)) db.
Proof.
  intros H. destruct (put_connection_ok _ _ _ _ _ H) as [Hok ->]. split_and!; [|done..].
  unfold put_connection in H. apply result_bind_ok in H as (? & Hf & _). unfold foreign_key in Hf.
  by destruct (bool_decide (is_Some (tenants db !! t))) eqn:E; [reflect_bools|].
Qed.

(** One write, described relative to the state [db] the operation started from. *)
Lemma put_moves db t c row db0 db1 :
  db_moves db db0 -> put_connection t c row db0 = Ok db1 ->
  cn_TenantSuspendPriorState row = (connections db !! (t, c) ≫= cn_TenantSuspendPriorState) ->
  (tenant_active db t \/ exists r, connections db !! (t, c) = Some r /\
    (cn_State r = ConnectionStatePairing \/ row = with_state r (cn_State row) \/
     cn_State row = ConnectionStateReauthorizationRequired)) ->
  db_moves db db1.
Proof.
  intros (Ht & Hl & Hc) (Hfk & Hok & ->)%put_connection_all Hp Hw. split_and!; [done..|].
  intros k. cbn. destruct (decide ((t, c) = k)) as [<-|Hne]; [|rewrite lookup_insert_ne by done; apply Hc].
  right. exists row. rewrite lookup_insert_eq. split; [done|]. unfold row_moves. cbn. rewrite Ht in Hfk. by auto.
Qed.

Lemma fence_lease_tenants t c now db db' :
  fence_lease_for_reauthorization t c now db = Ok db' -> tenants db' = tenants db.
Proof.
  unfold fence_lease_for_reauthorization. destruct (leases db !! (t, c)) as [l|]; [|congruence].
  destruct (ls_Owner l); [|congruence]. by intros (token & _ & [= <-])%result_bind_ok.
Qed.

Lemma insertReauthorizationEvent_tenants t c e wall now db db' :
  insertReauthorizationEvent t c e wall now db = Ok db' -> tenants db' = tenants db.
Proof.
  unfold insertReauthorizationEvent. intros (body & _ & (db1 & H1 & H)%result_bind_ok)%result_bind_ok.
  assert (tenants db1 = tenants db) as <-.
  { destruct (events db !! (t, e)); [congruence|]. by apply insertGatewayEvent_ok in H1 as [_ ->]. }
  destruct (events db1 !! (t, e)); [|done]. destruct (_ || _); [done|].
  assert (forall o d da db', ensure_outbox_row t o e d now da = Ok db' -> tenants db' = tenants da) as Hens.
  { intros o d da dc. unfold ensure_outbox_row. destruct (outbox_has _ _ _ _); [congruence|]. by intros (_ & _ & ->)%insert_outbox_row_ok. }
  apply result_bind_ok in H as (db2 & H2 & H3). apply Hens in H2, H3. congruence.
Qed.

Lemma insertReauthorizationEvent_moves t c e wall now db db1 db2 :
  db_moves db db1 -> insertReauthorizationEvent t c e wall now db1 = Ok db2 -> db_moves db db2.
Proof.
  intros Hm H. eapply db_moves_then; [exact Hm|..].
  - by eapply insertReauthorizationEvent_tenants.
  - rewrite (insertReauthorizationEvent_leases _ _ _ _ _ _ _ H). reflexivity.
  - by eapply insertReauthorizationEvent_connections.
Qed.

Lemma fence_lease_moves t c now db db1 db2 :
  db_moves db db1 -> fence_lease_for_reauthorization t c now db1 = Ok db2 -> db_moves db db2.
Proof.
  intros Hm H. eapply db_moves_then; [exact Hm|..].
  - by eapply fence_lease_tenants.
  - by eapply fence_lease_evolves.
  - by eapply fence_lease_connections.
Qed.

(** Opens the transaction of a call in the goal. *)
Ltac run_call Hf :=
  match goal with |- context [inTenant ?t ?f ?db] =>
    let db' := fresh "db'" in destruct (inTenant_keeps_or_runs t f db) as [->|(db' & ? & Hf & ->)]; [apply db_moves_refl|]; cbn [fst]
  end.

Lemma begin_db_moves t c id ttl now db : db_moves db (BeginPairing t c id ttl now db).1.
Proof.
  unfold BeginPairing. destruct (_ || _ || _ || _); [apply db_moves_refl|].
  run_call Hf. cbn in Hf. destruct (tenants db !! t) as [tn|] eqn:Et; [|done].
  destruct (tn_Status tn <>s "active") eqn:Es; [done|]. reflect_bools.
  destruct (connections db !! (t, c)) as [r|] eqn:Er; [|done]. destruct (_ || _); [|by destruct (bool_decide _)].
  apply result_bind_ok in Hf as (db1 & Hput & [= <- _]).
  eapply put_moves; [apply db_moves_refl | exact Hput | by rewrite Er|]. left. by exists tn.
Qed.

Lemma restore_db_moves t c id db : db_moves db (RestorePairing t c id db).1.
Proof.
  unfold RestorePairing. destruct (_ || _ || _); [apply db_moves_refl|]. run_call Hf. cbn in Hf.
  destruct (connections db !! (t, c)) as [r|] eqn:Er; [|done]. destruct (cn_PriorState r) as [prior|]; [|done].
  destruct (_ && _) eqn:Eb; [|done]. reflect_bools.
  apply result_bind_ok in Hf as (db1 & Hput & [= <- _]).
  eapply put_moves; [apply db_moves_refl | exact Hput | by rewrite Er|]. right. exists r. auto.
Qed.

Lemma upsert_session_rest t c e db db' :
  upsert_session t c e db = Ok db' -> tenants db' = tenants db /\ leases db' = leases db.
Proof.
  unfold upsert_session. intros (? & _ & H)%result_bind_ok. apply result_bind_ok in H as (? & _ & H). by injection H as <-.
Qed.

Lemma commit_db_moves t c id e f db : db_moves db (CommitPairedSession t c id e f db).1.
Proof.
  unfold CommitPairedSession. destruct (_ || _ || _ || _ || _); [apply db_moves_refl|]. run_call Hf. cbn in Hf.
  apply result_bind_ok in Hf as (db1 & Hup & Hf). destruct (upsert_session_rest _ _ _ _ _ Hup) as [Ht Hl].
  apply upsert_session_connections in Hup. rewrite Hup in Hf.
  destruct (connections db !! (t, c)) as [r|] eqn:Er; [|done]. destruct (_ && _) eqn:Eb; [|done]. reflect_bools.
  apply result_bind_ok in Hf as (db2 & Hput & [= <- _]).
  eapply put_moves; [|exact Hput | by rewrite Er|].
  - apply db_moves_same; [done | by rewrite Hl | done].
  - right. exists r. auto.
Qed.

Lemma reconcile_db_moves t ttl now db : db_moves db (ReconcileStalePairings t ttl now db).1.
Proof.
  unfold ReconcileStalePairings. destruct (_ || _); [apply db_moves_refl|]. run_call Hf. cbn in Hf.
  assert (forall row, row ∈ map_to_list (connections db) -> connections db !! row.1 = Some row.2) as Hrows
    by (intros [k r]; apply elem_of_map_to_list).
  generalize dependent (map_to_list (connections db)). intros rows Hf Hrows.
  assert (forall st, db_moves db st.1 -> fold_left (reconcile_stale_row t ttl now) rows (Ok st) = Ok (db', x) ->
    db_moves db db') as Hfold; [|exact (Hfold (db, 0) (db_moves_refl db) Hf)].
  clear Hf. induction rows as [|[[t0 c0] r] rows IH]; intros st Hst H; cbn in H; [by injection H as ->|].
  assert (forall e, fold_left (reconcile_stale_row t ttl now) rows (Err e) <> Ok (db', x)) as Herr
    by (intros e; clear; by induction rows).
  assert (forall row, row ∈ rows -> connections db !! row.1 = Some row.2) as Hrows'
    by (intros; apply Hrows; by right).
  destruct (cn_PriorState r) as [prior|] eqn:Ep; [|by eapply IH].
  destruct (_ && _) eqn:Eb; [|by eapply IH]. apply andb_true_iff in Eb as [Et Hs]. apply String.eqb_eq in Et as ->.
  unfold pairing_stale in Hs. reflect_bools. pose proof (Hrows ((t, c0), r) ltac:(by left)) as Er. cbn in Er.
  destruct (put_connection t c0 _ st.1) as [db1|e] eqn:Eput; cbn in H; [|by apply Herr in H].
  eapply IH; [exact Hrows'| |exact H]. cbn. eapply put_moves; [exact Hst | exact Eput | by rewrite Er|]. right. exists r. auto.
Qed.

Lemma transition_db_moves t c from to db : db_moves db (TransitionConnection t c from to db).1.
Proof.
  unfold TransitionConnection. destruct (_ || _); [apply db_moves_refl|]. destruct (negb _); [apply db_moves_refl|].
  run_call Hf. cbn in Hf. destruct (connections db !! (t, c)) as [r|] eqn:Er; [|done].
  destruct (bool_decide (cn_State r ∈ from)); [|done]. apply result_bind_ok in Hf as (db1 & Hput & [= <- _]).
  eapply put_moves; [apply db_moves_refl | exact Hput | by rewrite Er|]. right. exists r. auto.
Qed.

Lemma save_db_moves t record db : db_moves db (SaveConnection t record db).1.
Proof.
  unfold SaveConnection. destruct (t =s ""); [apply db_moves_refl|]. destruct (_ =s ""); [apply db_moves_refl|].
  destruct (_ <>s t); [apply db_moves_refl|]. destruct (ConnectionState_Validate _); [|apply db_moves_refl].
  destruct (_ || _); [apply db_moves_refl|]. destruct (negb _); [apply db_moves_refl|]. run_call Hf. cbn in Hf.
  destruct (tenants db !! t) as [tn|] eqn:Et; [|done]. destruct (tn_Status tn =s "suspended"); [done|].
  destruct (tn_Status tn <>s "active") eqn:Es; [done|]. destruct (_ || _); [done|]. destruct (_ && _); [done|]. reflect_bools.
  apply result_bind_ok in Hf as (db1 & Hput & [= <- _]).
  assert (tenant_active db t) as Ha by by exists tn.
  destruct (connections db !! _) as [old|] eqn:Eo; [destruct (_ && _); [done|]|];
    (eapply put_moves; [apply db_moves_refl | exact Hput | by rewrite Eo | by left]).
Qed.

Lemma mark_db_moves t c ev wall now db : db_moves db (MarkReauthorizationRequired t c ev wall now db).1.
Proof.
  unfold MarkReauthorizationRequired. destruct (_ || _); [apply db_moves_refl|]. run_call Hf. cbn in Hf.
  destruct (connections db !! (t, c)) as [r|] eqn:Er; [|done]. destruct (_ && _).
  - apply result_bind_ok in Hf as (db1 & H1 & Hf). apply result_bind_ok in Hf as (db2 & H2 & [= <- _]).
    eapply insertReauthorizationEvent_moves; [|exact H2]. eapply fence_lease_moves; [apply db_moves_refl | exact H1].
  - destruct (negb _); [done|]. destruct (ev =s ""); [done|].
    apply result_bind_ok in Hf as (db1 & H1 & Hf). apply result_bind_ok in Hf as (db2 & H2 & Hf).
    apply result_bind_ok in Hf as (db3 & H3 & [= <- _]).
    eapply insertReauthorizationEvent_moves; [|exact H3]. eapply fence_lease_moves; [|exact H2].
    eapply put_moves; [apply db_moves_refl | exact H1 | by rewrite Er|]. right. exists r. auto.
Qed.

Lemma pairing_db_moves op db : db_moves db (PairingStore.exec op db).
Proof.
  destruct op; cbn [PairingStore.exec]; [apply begin_db_moves | apply restore_db_moves | apply commit_db_moves
    | apply reconcile_db_moves | apply transition_db_moves | apply save_db_moves | apply mark_db_moves].
Qed.

(** The operations on leases: only a quarantine and a reauthorization write the connection. *)
Lemma lease_op_rows op now db :
  tenants (Leases.exec op now db).1 = tenants db /\
  forall k, connections (Leases.exec op now db).1 !! k = connections db !! k \/
    exists new, connections (Leases.exec op now db).1 !! k = Some new /\ row_moves db k new.
Proof.
  assert (forall db', db_moves db db' -> tenants db' = tenants db /\
    forall k, connections db' !! k = connections db !! k \/ exists new, connections db' !! k = Some new /\ row_moves db k new)
    as Hmoves by (by intros db' (? & _ & ?)).
  destruct op as [t c o ttl|t c o k ttl|t c o k|t c o k h|t c reason|t c o k e w|t c e w|t c o k rv en];
    cbn [Leases.exec];
    match goal with |- context [let '(_, _) := ?f in _] => destruct f as [db1 r1] eqn:H end; cbn [fst].
  - unfold AcquireConnectionLease in H. open_call H; [by eauto..|].
    apply result_bind_ok in H as (? & _ & (row & _ & H)%result_bind_ok).
    destruct row; injection H as <- <-; by eauto.
  - unfold RenewConnectionLease in H. open_call H; [by eauto..|].
    destruct (leases db !! (t, c)); [destruct (lease_matches _ _ _ _)|]; injection H as <- <-; by eauto.
  - unfold ReleaseConnectionLease in H. open_call H; [by eauto..|].
    destruct (leases db !! (t, c)); [destruct (lease_matches _ _ _ _)|]; injection H as <- <-; by eauto.
  - unfold WriteConnectionHealthFenced in H. open_call H; [by eauto..|].
    destruct (negb _); [injection H as <- <-; by eauto|]. apply result_bind_ok in H as (? & _ & H).
    match goal with Hh : (if ?b then _ else _) = _ |- _ => destruct b end; injection H as <- <-; by eauto.
  - unfold QuarantineBackfillConnection in H. open_call H; [by eauto..|].
    destruct (connections db !! (t, c)) as [cn|] eqn:Ec; [|done].
    destruct (leases db !! (t, c)) as [l|]; [|done]. destruct (negb _); [done|].
    apply result_bind_ok in H as (token & _ & (db2 & Hp & H)%result_bind_ok). injection H as <- <-.
    apply (Hmoves db2). eapply put_moves; [apply db_moves_refl | exact Hp | by rewrite Ec|]. right. exists cn. auto.
  - unfold MarkReauthorizationRequiredFenced in H. open_call H; [by eauto..|].
    destruct (connections db !! (t, c)) as [cn|] eqn:Ec; [|injection H as <- <-; by eauto].
    destruct (_ || _); [injection H as <- <-; by eauto|].
    apply result_bind_ok in H as (db2 & Hp & (db3 & Hi & H)%result_bind_ok). injection H as <- <-.
    apply Hmoves. eapply insertReauthorizationEvent_moves; [|exact Hi].
    eapply put_moves; [apply db_moves_refl | exact Hp | by rewrite Ec|]. right. exists cn. auto.
  - apply Hmoves. pose proof (mark_db_moves t c e w now db) as Hm. by rewrite H in Hm.
  - unfold CompareAndSwapEncryptedSessionFenced in H. open_call H; [by eauto..|].
    destruct (owned_lease _ _ _ _ _ _); [|injection H as <- <-; by eauto].
    unfold swap_session in H. destruct (sessions db !! (t, c)); [|injection H as <- <-; by eauto].
    destruct (_ =? _); [|injection H as <- <-; by eauto].
    apply result_bind_ok in H as (r & _ & H). injection H as <- <-. by eauto.
Qed.

Lemma lease_db_moves op now db : db_moves db (Leases.exec op now db).1.
Proof.
  destruct (lease_op_rows op now db) as [Ht Hc]. split_and!; [done | |done].
  destruct (Leases.exec op now db) as [db' r] eqn:E. by eapply exec_evolves.
Qed.

(** ** Every operation on tenants, connections and leases *)

Inductive TenantOp :=
| OnPairing (op : PairingOp)
| OnLease (op : LeaseOp) (now : Z)
| OnProvision (actor : string) (input : TenantAdminInput) (eventID : string) (now : Z)
| OnSuspend (actor t eventID : string) (now : Z)
| OnResume (actor t eventID : string) (now : Z).

Definition tenant_exec (op : TenantOp) (st : AdminDb) : AdminDb :=
  match op with
  | OnPairing op => on_db (PairingStore.exec op (ad_Db st)) st
  | OnLease op now => on_db (Leases.exec op now (ad_Db st)).1 st
  | OnProvision actor input eventID now => (Provision actor input eventID now st).1
  | OnSuspend actor t eventID now => (Suspend actor t eventID now st).1
  | OnResume actor t eventID now => (Resume actor t eventID now st).1
  end.

Definition tenant_exec_all (ops : list TenantOp) (st : AdminDb) : AdminDb := foldl (fun st op => tenant_exec op st) st ops.

(** A connection belongs to a tenant, obeys its constraints, and remembers a state
    to return to exactly while its tenant is suspended. *)
Definition row_suspension_ok (st : AdminDb) (t : tenant) (r : ConnectionRow) : Prop :=
  connection_row_ok r = true /\
  exists tn, tenants (ad_Db st) !! t = Some tn /\
    (tn_Status tn = "active" /\ cn_TenantSuspendPriorState r = None \/
     tn_Status tn = "suspended" /\ cn_TenantSuspendPriorState r <> None).

Definition suspension_ok (st : AdminDb) : Prop :=
  (forall t c r, connections (ad_Db st) !! (t, c) = Some r -> row_suspension_ok st t r) /\
  (forall t tn, tenants (ad_Db st) !! t = Some tn -> tenant_row_ok tn (ad_SuspendedAt st !! t) = true /\
     1 <= len (tn_Name tn) <= 256).

Lemma prior_means_suspended r p :
  connection_row_ok r = true -> cn_TenantSuspendPriorState r = Some p -> cn_State r = ConnectionStateSuspended.
Proof.
  unfold connection_row_ok. intros H Hp. reflect_bools.
  match goal with H : (_ || _) = true |- _ => apply orb_true_iff in H as [H|H] end; reflect_bools; congruence.
Qed.

(** The operations of the other components keep the invariant, and leave every
    connection of a suspended tenant as it is. *)
Lemma moves_keep_ok st db' : suspension_ok st -> db_moves (ad_Db st) db' -> suspension_ok (on_db db' st).
Proof.
  intros [Hrows Htn] (Ht & _ & Hc). split; [|intros t tn; cbn; rewrite Ht; apply Htn].
  intros t c r. cbn. destruct (Hc (t, c)) as [->|(new & -> & Hok & [tn Etn] & Hp & Hw)].
  { intros (Hok & tn & Etn & Hs)%Hrows. split; [done|]. exists tn. cbn. by rewrite Ht. }
  intros [= <-]. split; [done|]. exists tn. cbn in *. rewrite Ht. split; [done|]. rewrite Hp.
  destruct (connections (ad_Db st) !! (t, c)) as [r|] eqn:Er.
  - apply Hrows in Er as (_ & tn' & Etn' & Hs). rewrite Etn in Etn'. injection Etn' as <-. cbn. exact Hs.
  - left. split; [|done]. destruct Hw as [(tn' & Etn' & Ha)|(r & Hr & _)]; [|done]. congruence.
Qed.

Lemma moves_keep_rows st db' t tn c :
  suspension_ok st -> db_moves (ad_Db st) db' -> tenants (ad_Db st) !! t = Some tn -> tn_Status tn = "suspended" ->
  connections db' !! (t, c) = connections (ad_Db st) !! (t, c).
Proof.
  intros [Hrows _] (_ & _ & Hc) Etn Es. destruct (Hc (t, c)) as [->|(new & -> & Hok & _ & Hp & Hw)]; [done|].
  destruct Hw as [(tn' & Etn' & Ha)|(r & Er & Hw)]; [cbn in Etn'; congruence|]. rewrite Er in *. cbn in Hp. f_equal.
  destruct (Hrows _ _ _ Er) as (Hokr & tn' & Etn' & [[Ha _]|[_ Hpr]]); [congruence|].
  destruct (cn_TenantSuspendPriorState r) as [p|] eqn:Epr; [|done].
  pose proof (prior_means_suspended _ _ Hok Hp) as Hnew. pose proof (prior_means_suspended _ _ Hokr Epr) as Hold.
  destruct Hw as [?|[Hw|?]]; [congruence| |congruence]. rewrite Hw, Hnew. destruct r; cbn in *; unfold with_state; cbn; congruence.
Qed.

(** ** The administrative operations *)

Lemma audit_ok actor t id action name quota now st st' :
  audit actor t id action name quota now st = Ok st' ->
  ad_Db st' = ad_Db st /\ ad_SuspendedAt st' = ad_SuspendedAt st /\ ad_Events st !! (t, id) = None /\
  ad_Events st' = <[(t, id) := {| av_Action := action; av_Actor := actor; av_TenantName := name;
    av_MaxConnections := quota; av_OccurredAt := now |}]> (ad_Events st).
Proof.
  unfold audit. destruct (id =s ""); [done|]. intros H. bind_ok H. injection H as <-.
  match goal with Hi : insert_unique _ _ _ = _ |- _ => apply insert_unique_ok in Hi as [? ->] end. done.
Qed.

Lemma audit_succeeds actor t id action name quota now st tn :
  id <> "" -> tenants (ad_Db st) !! t = Some tn -> action ∈ admin_actions -> 1 <= len actor <= 128 ->
  1 <= len name <= 256 -> 1 <= quota <= 128 -> ad_Events st !! (t, id) = None ->
  exists st', audit actor t id action name quota now st = Ok st'.
Proof.
  intros Hid Ht Hact Ha Hn Hq Hf. unfold audit. rewrite (proj2 (String.eqb_neq _ _) Hid).
  unfold foreign_key. rewrite bool_decide_true by (by rewrite Ht). cbn [result_bind].
  assert (existsb (String.eqb action) admin_actions = true) as ->.
  { apply existsb_exists. exists action. split; [by apply list_elem_of_In | by apply String.eqb_refl]. }
  unfold check_constraint, insert_unique. rewrite Hf. rewrite !(proj2 (Z.leb_le _ _)) by lia. cbn. by eexists.
Qed.

Lemma update_connections_ok t sel f db db' :
  update_connections t sel f db = Ok db' ->
  tenants db' = tenants db /\ leases db' = leases db /\
  (forall k, connections db' !! k = (fun c => if (k.1 =s t) && sel c then f c else c) <$> connections db !! k) /\
  (forall c r, connections db !! (t, c) = Some r -> sel r = true -> connection_row_ok (f r) = true).
Proof.
  unfold update_connections. intros (? & Hc & [= <-])%result_bind_ok. split_and!; [done | done | |].
  - intros k. cbn. rewrite map_lookup_imap. by destruct (connections db !! k).
  - intros c r Hr Hs. unfold check_constraint in Hc. destruct (forallb _ _) eqn:E; [|done].
    rewrite forallb_forall in E. specialize (E ((t, c), r)). rewrite <- list_elem_of_In, elem_of_map_to_list in E.
    specialize (E Hr). cbn in E. rewrite String.eqb_refl, Hs in E. cbn in E. by apply andb_true_iff in E as [? _].
Qed.

Lemma update_connections_succeeds t sel f db :
  (forall c r, connections db !! (t, c) = Some r -> sel r = true -> connection_row_ok (f r) = true /\ suspend_prior_ok (f r) = true) ->
  exists db', update_connections t sel f db = Ok db'.
Proof.
  intros H. unfold update_connections. assert (forallb _ (map_to_list (connections db)) = true) as ->; [|by eexists].
  apply forallb_forall. intros [[t' c] r] Hin%list_elem_of_In%elem_of_map_to_list. cbn.
  destruct (t' =s t) eqn:Et; [|done]. apply String.eqb_eq in Et as ->. destruct (sel r) eqn:Es; [|done].
  destruct (H _ _ Hin Es) as [-> ->]. done.
Qed.

Lemma fence_leases_ok t now db db' :
  fence_leases t now db = Ok db' ->
  tenants db' = tenants db /\ connections db' = connections db /\
  forall k, leases db' !! k = (fun l => if (k.1 =s t) && lease_owned l
    then {| ls_Owner := None; ls_Token := ls_Token l + 1; ls_ExpiresAt := now |} else l) <$> leases db !! k.
Proof.
  unfold fence_leases. destruct (existsb _ _); [done|]. intros [= <-]. split_and!; [done | done|].
  intros k. cbn. rewrite map_lookup_imap. by destruct (leases db !! k).
Qed.

Lemma put_tenant_ok t tn at_ st st' :
  put_tenant t tn at_ st = Ok st' ->
  tenant_row_ok tn at_ = true /\ ad_Events st' = ad_Events st /\
  tenants (ad_Db st') = <[t := tn]> (tenants (ad_Db st)) /\ connections (ad_Db st') = connections (ad_Db st) /\
  leases (ad_Db st') = leases (ad_Db st) /\ ad_SuspendedAt st' !! t = at_ /\
  forall t', t' <> t -> ad_SuspendedAt st' !! t' = ad_SuspendedAt st !! t'.
Proof.
  unfold put_tenant. intros (? & Hc & [= <-])%result_bind_ok. cbn. unfold check_constraint in Hc.
  destruct (tenant_row_ok tn at_); [|done]. split_and!; try done.
  - by rewrite lookup_partial_alter_eq.
  - intros t' Hne. by rewrite lookup_partial_alter_ne.
Qed.

(** A change of suspension: nothing, or its statements and their audit event. *)
Lemma changeSuspension_cases actor t suspend id now st st' r :
  changeSuspension actor t suspend id now st = (st', r) ->
  st' = st \/ exists tn st1, tenants (ad_Db st) !! t = Some tn /\
    tn_Status tn <> (if suspend then "suspended" else "active") /\
    (if suspend then suspend_tenant t tn now st else resume_tenant t tn st) = Ok st1 /\
    audit actor t id (if suspend then "suspend" else "resume") (tn_Name tn) (tn_MaxConnections tn) now st1 = Ok st'.
Proof.
  unfold changeSuspension, admin_transaction. destruct (negb _); [intros [= <- _]; by left|].
  destruct (tenants (ad_Db st) !! t) as [tn|] eqn:Et; [|intros [= <- _]; by left].
  destruct (result_bind _ _) as [[st1 s]|e] eqn:E; [|intros [= <- _]; by left]. intros [= <- _].
  apply result_bind_ok in E as (st2 & H2 & (s' & _ & [= -> _])%result_bind_ok).
  destruct (tn_Status tn <>s _) eqn:Es; [|injection H2 as ->; by left]. reflect_bools.
  apply result_bind_ok in H2 as (st3 & H3 & H4). right. by exists tn, st3.
Qed.

(** What a suspension does to a row, and a resumption undoes. *)
Definition suspended_row (c : ConnectionRow) : ConnectionRow :=
  with_suspension c ConnectionStateSuspended (Some (cn_State c)).

Definition resumed_row (c : ConnectionRow) : ConnectionRow :=
  with_suspension c (default (cn_State c) (cn_TenantSuspendPriorState c)) None.

Lemma resumed_suspended c : cn_TenantSuspendPriorState c = None -> resumed_row (suspended_row c) = c.
Proof. destruct c. cbn. by intros ->. Qed.

Lemma suspend_tenant_ok t tn now st st1 :
  suspension_ok st -> tenants (ad_Db st) !! t = Some tn -> tn_Status tn <> "suspended" ->
  suspend_tenant t tn now st = Ok st1 ->
  tenants (ad_Db st1) = <[t := with_status tn "suspended"]> (tenants (ad_Db st)) /\
  ad_SuspendedAt st1 !! t = Some now /\ (forall t', t' <> t -> ad_SuspendedAt st1 !! t' = ad_SuspendedAt st !! t') /\
  (forall t' c, connections (ad_Db st1) !! (t', c) =
     (if t' =s t then suspended_row else id) <$> connections (ad_Db st) !! (t', c)) /\
  (forall c r, connections (ad_Db st) !! (t, c) = Some r -> connection_row_ok (suspended_row r) = true) /\
  tenant_row_ok (with_status tn "suspended") (Some now) = true.
Proof.
  intros [Hrows _] Et Es. unfold suspend_tenant. destruct (pairing_active t (ad_Db st)) eqn:Ep; [done|].
  intros (db1 & (Ht1 & _ & Hc1 & Hok1)%update_connections_ok & H)%result_bind_ok.
  apply result_bind_ok in H as (db2 & (Ht2 & Hc2 & _)%fence_leases_ok & H).
  apply put_tenant_ok in H as (Htn & _ & Ht3 & Hc3 & _ & Hat & Hother). cbn in Ht3, Hc3.
  assert (forall c r, connections (ad_Db st) !! (t, c) = Some r ->
    suspendable (cn_State r) && bool_decide (cn_TenantSuspendPriorState r = None) = true) as Hsel.
  { intros c r Hr. destruct (Hrows _ _ _ Hr) as (Hok & tn' & Et' & [[_ Hp]|[Hs _]]); [|congruence].
    rewrite bool_decide_true, andb_true_r by done.
    assert (cn_State r <> ConnectionStatePairing) as Hnp.
    { intros Hpair. unfold pairing_active in Ep. rewrite <- not_true_iff_false, existsb_exists in Ep. apply Ep.
      exists ((t, c), r). rewrite <- list_elem_of_In, elem_of_map_to_list. split; [done|]. cbn.
      by rewrite String.eqb_refl, bool_decide_true. }
    unfold connection_row_ok in Hok. reflect_bools. by destruct (cn_State r). }
  split_and!; [by rewrite Ht3, Ht2, Ht1 | done | done | | |done].
  - intros t' c. rewrite Hc3, Hc2, Hc1. destruct (connections (ad_Db st) !! (t', c)) as [r|] eqn:Er; [|done]. cbn.
    destruct (t' =s t) eqn:E; [|done]. apply String.eqb_eq in E as ->. by rewrite (Hsel _ _ Er).
  - intros c r Hr. eapply Hok1; [done | by eapply Hsel].
Qed.

Lemma resume_tenant_ok t tn st st1 :
  suspension_ok st -> tenants (ad_Db st) !! t = Some tn -> tn_Status tn <> "active" ->
  resume_tenant t tn st = Ok st1 ->
  tenants (ad_Db st1) = <[t := with_status tn "active"]> (tenants (ad_Db st)) /\
  ad_SuspendedAt st1 !! t = None /\ (forall t', t' <> t -> ad_SuspendedAt st1 !! t' = ad_SuspendedAt st !! t') /\
  (forall t' c, connections (ad_Db st1) !! (t', c) =
     (if t' =s t then resumed_row else id) <$> connections (ad_Db st) !! (t', c)) /\
  (forall c r, connections (ad_Db st) !! (t, c) = Some r -> connection_row_ok (resumed_row r) = true) /\
  leases (ad_Db st1) = leases (ad_Db st) /\ tenant_row_ok (with_status tn "active") None = true.
Proof.
  intros [Hrows _] Et Es. unfold resume_tenant.
  intros (db1 & (Ht1 & Hl1 & Hc1 & Hok1)%update_connections_ok & H)%result_bind_ok.
  apply put_tenant_ok in H as (Htn & _ & Ht3 & Hc3 & Hl3 & Hat & Hother). cbn in Ht3, Hc3, Hl3.
  assert (forall c r, connections (ad_Db st) !! (t, c) = Some r -> bool_decide (cn_State r = ConnectionStateSuspended) &&
    bool_decide (cn_TenantSuspendPriorState r <> None) = true) as Hsel.
  { intros c r Hr. destruct (Hrows _ _ _ Hr) as (Hok & tn' & Et' & [[Hs _]|[_ Hp]]); [congruence|].
    rewrite (bool_decide_true (_ <> None)), andb_true_r, bool_decide_true; [done| |done].
    destruct (cn_TenantSuspendPriorState r) eqn:E; [|done]. by eapply prior_means_suspended. }
  split_and!; [by rewrite Ht3, Ht1 | done | done | | |by rewrite Hl3 |done].
  - intros t' c. rewrite Hc3, Hc1. destruct (connections (ad_Db st) !! (t', c)) as [r|] eqn:Er; [|done]. cbn.
    destruct (t' =s t) eqn:E; [|done]. apply String.eqb_eq in E as ->. by rewrite (Hsel _ _ Er).
  - intros c r Hr. eapply Hok1; [done | by eapply Hsel].
Qed.

(** ** The invariant *)

Lemma suspended_ne_active : "suspended" <> "active".
Proof. done. Qed.

(** A change of suspension changes all rows of one tenant alike. *)
Lemma change_keeps_ok st st' t tn status (f : ConnectionRow -> ConnectionRow) :
  suspension_ok st -> tenants (ad_Db st) !! t = Some tn ->
  tenants (ad_Db st') = <[t := with_status tn status]> (tenants (ad_Db st)) ->
  (forall t', t' <> t -> ad_SuspendedAt st' !! t' = ad_SuspendedAt st !! t') ->
  (forall t' c, connections (ad_Db st') !! (t', c) = (if t' =s t then f else id) <$> connections (ad_Db st) !! (t', c)) ->
  (forall c r, connections (ad_Db st) !! (t, c) = Some r -> connection_row_ok (f r) = true) ->
  (forall r, status = "active" /\ cn_TenantSuspendPriorState (f r) = None \/
     status = "suspended" /\ cn_TenantSuspendPriorState (f r) <> None) ->
  tenant_row_ok (with_status tn status) (ad_SuspendedAt st' !! t) = true ->
  suspension_ok st'.
Proof.
  intros [Hrows Htn] Et Ht Hat Hc Hok Hf Hrow. split.
  - intros t' c r. rewrite Hc. intros (r0 & Hr & ->)%fmap_Some. destruct (t' =s t) eqn:E.
    + apply String.eqb_eq in E as ->. split; [by eapply Hok|]. eexists. rewrite Ht, lookup_insert_eq. split; [done|]. apply Hf.
    + apply String.eqb_neq in E. destruct (Hrows _ _ _ Hr) as (? & tn' & Et' & ?). split; [done|]. exists tn'.
      by rewrite Ht, lookup_insert_ne.
  - intros t' tn'. rewrite Ht. destruct (decide (t = t')) as [<-|Hne].
    + rewrite lookup_insert_eq. intros [= <-]. split; [done|]. cbn. by destruct (Htn t tn Et).
    + rewrite lookup_insert_ne, Hat by done. apply Htn.
Qed.

Lemma audit_keeps actor t id action name quota now st st' :
  audit actor t id action name quota now st = Ok st' -> suspension_ok st -> suspension_ok st'.
Proof. intros (Hdb & Hat & _)%audit_ok [H1 H2]. unfold suspension_ok, row_suspension_ok. by rewrite Hdb, Hat. Qed.

Lemma changeSuspension_keeps actor t suspend id now st :
  suspension_ok st -> suspension_ok (changeSuspension actor t suspend id now st).1.
Proof.
  intros Hst. destruct (changeSuspension actor t suspend id now st) as [st' r] eqn:E. cbn.
  apply changeSuspension_cases in E as [->|(tn & st1 & Et & Es & Hch & Ha)]; [done|].
  eapply audit_keeps; [exact Ha|]. destruct suspend.
  - eapply suspend_tenant_ok in Hch as (Ht & Hat & Hother & Hc & Hok & Hrow); [|done..].
    eapply change_keeps_ok with (status := "suspended") (f := suspended_row); try done; [|by rewrite Hat].
    intros r0. right. by split.
  - eapply resume_tenant_ok in Hch as (Ht & Hat & Hother & Hc & Hok & _ & Hrow); [|done..].
    eapply change_keeps_ok with (status := "active") (f := resumed_row); try done; [|by rewrite Hat].
    intros r0. left. by split.
Qed.

Lemma safeAdminText_bounds value n : safeAdminText value n = true -> 1 <= len value <= n.
Proof.
  unfold safeAdminText. destruct (_ || _) eqn:E; [done|]. intros _. reflect_bools.
  split; [|lia]. destruct value; [done|]. unfold len. cbn. lia.
Qed.

(** Provisioning writes one tenant row, keeping its status, or nothing. *)
Lemma Provision_cases actor input id now st :
  let st' := (Provision actor input id now st).1 in
  let t := ti_TenantID input in
  st' = st \/ exists tn at_ st1 action, put_tenant t tn at_ st = Ok st1 /\
    1 <= len (tn_Name tn) <= 256 /\
    audit actor t id action (tn_Name tn) (tn_MaxConnections tn) now st1 = Ok st' /\
    (forall old, tenants (ad_Db st) !! t = Some old -> tn_Status tn = tn_Status old).
Proof.
  cbn zeta. unfold Provision. destruct (TenantAdminInput_Validate _) eqn:Ev; [|by left].
  unfold TenantAdminInput_Validate in Ev. destruct (_ || _) eqn:Eb in Ev; [done|]. cbn in Eb. reflect_bools.
  match goal with Hn : safeAdminText (ti_Name _) _ = true |- _ => apply safeAdminText_bounds in Hn as Hlen end.
  unfold admin_transaction. destruct (result_bind _ _) as [[st1 s]|e] eqn:E; [|by left]. cbn [fst].
  apply result_bind_ok in E as (st2 & Hb2 & (s' & _ & [= -> _])%result_bind_ok). cbn [ti_TenantID ti_Name ti_MaxConnections] in *.
  destruct (tenants (ad_Db st) !! ti_TenantID input) as [old|] eqn:Et.
  - destruct (_ || _); [|injection Hb2 as ->; by left]. apply result_bind_ok in Hb2 as (st3 & Hb3 & Hb4).
    right. do 4 eexists. split; [exact Hb3|]. split; [exact Hlen|]. split; [exact Hb4|]. by intros old' [= <-].
  - apply result_bind_ok in Hb2 as (st3 & Hb3 & Hb4).
    right. do 4 eexists. split; [exact Hb3|]. split; [exact Hlen|]. by split; [exact Hb4|].
Qed.

Lemma Provision_keeps actor input id now st : suspension_ok st -> suspension_ok (Provision actor input id now st).1.
Proof.
  intros [Hrows Htn]. destruct (Provision_cases actor input id now st) as [->|(tn & at_ & st1 & action & Hput & Hlen & Ha & Hs)]; [done|].
  eapply audit_keeps; [exact Ha|]. apply put_tenant_ok in Hput as (Hok & _ & Ht & Hc & _ & Hat & Hother). split.
  - intros t c r. rewrite Hc. intros (Hr & tn' & Et & Hw)%Hrows. split; [done|]. rewrite Ht.
    destruct (decide (ti_TenantID input = t)) as [<-|Hne].
    + exists tn. rewrite lookup_insert_eq. by rewrite (Hs _ Et).
    + exists tn'. by rewrite lookup_insert_ne.
  - intros t tn'. rewrite Ht. destruct (decide (ti_TenantID input = t)) as [<-|Hne].
    + rewrite lookup_insert_eq. intros [= <-]. by rewrite Hat.
    + rewrite lookup_insert_ne, Hother by done. apply Htn.
Qed.

(** Whatever happens, a connection remembers a state to return to exactly while
    its tenant is suspended. *)
Lemma tenant_exec_ok op st : suspension_ok st -> suspension_ok (tenant_exec op st).
Proof.
  intros H. destruct op; cbn [tenant_exec].
  - apply moves_keep_ok; [done | apply pairing_db_moves].
  - apply moves_keep_ok; [done | apply lease_db_moves].
  - by apply Provision_keeps.
  - by apply changeSuspension_keeps.
  - by apply changeSuspension_keeps.
Qed.

Lemma tenant_exec_all_ok ops st : suspension_ok st -> suspension_ok (tenant_exec_all ops st).
Proof. revert st. induction ops as [|op ops IH]; intros st H; [done|]. cbn. apply IH. by apply tenant_exec_ok. Qed.

(** ** Leases *)

Lemma suspend_tenant_leases t tn now st st1 :
  suspend_tenant t tn now st = Ok st1 ->
  forall k, leases (ad_Db st1) !! k = (fun l => if (k.1 =s t) && lease_owned l
    then {| ls_Owner := None; ls_Token := ls_Token l + 1; ls_ExpiresAt := now |} else l) <$> leases (ad_Db st) !! k.
Proof.
  unfold suspend_tenant. destruct (pairing_active t (ad_Db st)); [done|].
  intros (db1 & (_ & Hl1 & _)%update_connections_ok & H)%result_bind_ok.
  apply result_bind_ok in H as (db2 & (_ & _ & Hl2)%fence_leases_ok & H).
  apply put_tenant_ok in H as (_ & _ & _ & _ & Hl3 & _). cbn in Hl3. intros k. by rewrite Hl3, Hl2, Hl1.
Qed.

Lemma resume_tenant_leases t tn st st1 : resume_tenant t tn st = Ok st1 -> leases (ad_Db st1) = leases (ad_Db st).
Proof.
  unfold resume_tenant. intros (db1 & (_ & Hl1 & _)%update_connections_ok & H)%result_bind_ok.
  apply put_tenant_ok in H as (_ & _ & _ & _ & Hl3 & _). cbn in Hl3. by rewrite Hl3, Hl1.
Qed.

Lemma changeSuspension_evolves actor t suspend id now st :
  table_evolves (leases (ad_Db st)) (leases (ad_Db (changeSuspension actor t suspend id now st).1)).
Proof.
  destruct (changeSuspension actor t suspend id now st) as [st' r] eqn:E. cbn.
  apply changeSuspension_cases in E as [->|(tn & st1 & Et & Es & Hch & (Hdb & _)%audit_ok)]; [reflexivity|]. rewrite Hdb.
  destruct suspend; [|rewrite (resume_tenant_leases _ _ _ _ Hch); reflexivity].
  intros k l Hl. rewrite (suspend_tenant_leases _ _ _ _ _ Hch), Hl. eexists. split; [done|].
  destruct (_ && _); [left; cbn; lia | reflexivity].
Qed.

Lemma tenant_exec_evolves op st : table_evolves (leases (ad_Db st)) (leases (ad_Db (tenant_exec op st))).
Proof.
  destruct op; cbn [tenant_exec].
  - apply pairing_db_moves.
  - apply lease_db_moves.
  - destruct (Provision_cases actor input eventID now st) as [->|(tn & at_ & st1 & action & Hput & _ & (Hdb & _)%audit_ok & _)]; [reflexivity|].
    rewrite Hdb. apply put_tenant_ok in Hput as (_ & _ & _ & _ & -> & _). reflexivity.
  - apply changeSuspension_evolves.
  - apply changeSuspension_evolves.
Qed.

Lemma tenant_exec_all_evolves ops st :
  table_evolves (leases (ad_Db st)) (leases (ad_Db (tenant_exec_all ops st))).
Proof.
  revert st. induction ops as [|op ops IH]; intros st; [reflexivity|]. cbn.
  transitivity (leases (ad_Db (tenant_exec op st))); [apply tenant_exec_evolves | apply IH].
Qed.

(** ** A suspended tenant *)

Definition tenant_suspended (st : AdminDb) (t : tenant) : Prop :=
  exists tn, tenants (ad_Db st) !! t = Some tn /\ tn_Status tn = "suspended".

Definition resumes (op : TenantOp) (t : tenant) : Prop := exists actor id now, op = OnResume actor t id now.

(** The other tenants' administration does not reach the tenant. *)
Lemma changeSuspension_other actor t0 suspend id now st t c :
  suspension_ok st -> t <> t0 ->
  let st' := (changeSuspension actor t0 suspend id now st).1 in
  tenants (ad_Db st') !! t = tenants (ad_Db st) !! t /\ connections (ad_Db st') !! (t, c) = connections (ad_Db st) !! (t, c).
Proof.
  intros Hst Hne. destruct (changeSuspension actor t0 suspend id now st) as [st' r] eqn:E. cbn.
  apply changeSuspension_cases in E as [->|(tn & st1 & Et & Es & Hch & (-> & _)%audit_ok)]; [done|].
  assert ((t =s t0) = false) as Hb by by apply String.eqb_neq.
  destruct suspend; [eapply suspend_tenant_ok in Hch as (Ht & _ & _ & Hc & _) | eapply resume_tenant_ok in Hch as (Ht & _ & _ & Hc & _)]; try done;
    rewrite Ht, Hc, Hb, option_fmap_id, lookup_insert_ne; done.
Qed.

Lemma changeSuspension_same actor t id now st :
  tenant_suspended st t -> (changeSuspension actor t true id now st).1 = st.
Proof.
  intros (tn & Et & Es). destruct (changeSuspension actor t true id now st) as [st' r] eqn:E. cbn.
  apply changeSuspension_cases in E as [->|(tn' & st1 & Et' & Es' & _)]; [done|]. congruence.
Qed.

(** Until it is resumed, it stays suspended and its connections stay as they are. *)
Lemma suspended_frozen op st t :
  suspension_ok st -> tenant_suspended st t -> ~ resumes op t ->
  tenant_suspended (tenant_exec op st) t /\
  forall c, connections (ad_Db (tenant_exec op st)) !! (t, c) = connections (ad_Db st) !! (t, c).
Proof.
  intros Hst Hsus Hop. destruct op as [op|op now|actor input id now|actor t0 id now|actor t0 id now]; cbn [tenant_exec].
  - destruct Hsus as (tn & Et & Es). pose proof (pairing_db_moves op (ad_Db st)) as Hm. split.
    + exists tn. cbn. by rewrite (proj1 Hm).
    + intros c. by eapply moves_keep_rows.
  - destruct Hsus as (tn & Et & Es). pose proof (lease_db_moves op now (ad_Db st)) as Hm. split.
    + exists tn. cbn. by rewrite (proj1 Hm).
    + intros c. by eapply moves_keep_rows.
  - destruct (Provision_cases actor input id now st) as [->|(tn & at_ & st1 & action & Hput & _ & (Hdb & _)%audit_ok & Hs)]; [done|].
    unfold tenant_suspended. rewrite Hdb. apply put_tenant_ok in Hput as (_ & _ & Ht & -> & _). split; [|done].
    destruct Hsus as (tn0 & Et & Es). rewrite Ht. destruct (decide (ti_TenantID input = t)) as [<-|Hne].
    + exists tn. rewrite lookup_insert_eq. split; [done|]. by rewrite (Hs _ Et).
    + exists tn0. by rewrite lookup_insert_ne.
  - unfold Suspend. destruct (decide (t = t0)) as [<-|Hne]; [by rewrite changeSuspension_same|].
    split; [|intros c; by apply changeSuspension_other]. unfold tenant_suspended.
    by rewrite (proj1 (changeSuspension_other actor t0 true id now st t "" Hst Hne)).
  - destruct (decide (t = t0)) as [<-|Hne]; [destruct Hop; by eexists _, _, _|]. unfold Resume.
    split; [|intros c; by apply changeSuspension_other]. unfold tenant_suspended.
    by rewrite (proj1 (changeSuspension_other actor t0 false id now st t "" Hst Hne)).
Qed.

Lemma suspended_frozen_all ops st t :
  suspension_ok st -> tenant_suspended st t -> Forall (fun op => ~ resumes op t) ops ->
  tenant_suspended (tenant_exec_all ops st) t /\
  forall c, connections (ad_Db (tenant_exec_all ops st)) !! (t, c) = connections (ad_Db st) !! (t, c).
Proof.
  intros Hst Hsus Hops. revert st Hst Hsus. induction Hops as [|op ops Hop _ IH]; intros st Hst Hsus; [done|]. cbn.
  destruct (suspended_frozen op st t Hst Hsus Hop) as [Hs Hc].
  destruct (IH _ (tenant_exec_ok op st Hst) Hs) as [Hs' Hc']. split; [done|]. intros c. by rewrite Hc', Hc.
Qed.

(** What a successful suspension of an active tenant leaves. *)
Lemma Suspend_effect actor t id now st st1 s tn :
  suspension_ok st -> tenants (ad_Db st) !! t = Some tn -> tn_Status tn = "active" ->
  Suspend actor t id now st = (st1, Ok s) ->
  tenantAdminIDPattern t = true /\ tenant_suspended st1 t /\
  (forall c, connections (ad_Db st1) !! (t, c) = suspended_row <$> connections (ad_Db st) !! (t, c)) /\
  (forall k, leases (ad_Db st1) !! k = (fun l => if (k.1 =s t) && lease_owned l
     then {| ls_Owner := None; ls_Token := ls_Token l + 1; ls_ExpiresAt := now |} else l) <$> leases (ad_Db st) !! k).
Proof.
  intros Hst Et Es H. assert (tenantAdminIDPattern t = true) as Hpat.
  { unfold Suspend, changeSuspension in H. by destruct (tenantAdminIDPattern t). }
  split; [done|]. pose proof H as Hc. apply changeSuspension_cases in Hc as [->|(tn' & st2 & Et' & _ & Hch & (Hdb & _)%audit_ok)].
  - exfalso. unfold Suspend, changeSuspension, admin_transaction in H. rewrite Hpat, Et, Es in H. cbn [negb] in H.
    destruct (result_bind _ _) as [[stx sx]|] eqn:E in H; [|done]. injection H as -> _.
    apply result_bind_ok in E as (st3 & H3 & (sx' & _ & [= -> _])%result_bind_ok).
    cbn [String.eqb negb] in H3. apply result_bind_ok in H3 as (st4 & H4 & (Hdb & _)%audit_ok).
    eapply suspend_tenant_ok in H4 as (Ht & _); [|done| done|by rewrite Es]. rewrite Hdb, Ht, lookup_insert_eq in Et.
    injection Et as Heq. rewrite <- Heq in Es. discriminate Es.
  - rewrite Et in Et'. injection Et' as <-. unfold tenant_suspended. rewrite Hdb.
    pose proof (suspend_tenant_leases _ _ _ _ _ Hch) as Hl.
    eapply suspend_tenant_ok in Hch as (Ht & _ & _ & Hc & _); [|done|done|by rewrite Es]. split_and!; [|intros c; by rewrite Hc, String.eqb_refl|done].
    exists (with_status tn "suspended"). by rewrite Ht, lookup_insert_eq.
Qed.

(** Resuming a tenant whose connections are as a suspension left them succeeds. *)
Lemma Resume_restores actor t id now st (rows : string -> option ConnectionRow) :
  suspension_ok st -> tenant_suspended st t -> tenantAdminIDPattern t = true -> 1 <= len actor <= 128 ->
  id <> "" -> ad_Events st !! (t, id) = None ->
  (forall c, connections (ad_Db st) !! (t, c) = suspended_row <$> rows c) ->
  (forall c r, rows c = Some r -> connection_row_ok r = true /\ cn_TenantSuspendPriorState r = None) ->
  exists st' s, Resume actor t id now st = (st', Ok s) /\ os_Status s = "active" /\
    forall c, connections (ad_Db st') !! (t, c) = rows c.
Proof.
  intros Hst (tn & Et & Es) Hpat Ha Hid Hfresh Hrows Hok. destruct (proj2 Hst _ _ Et) as [Htn Hlen].
  unfold tenant_row_ok in Htn. reflect_bools.
  destruct (update_connections_succeeds t
    (fun c => bool_decide (cn_State c = ConnectionStateSuspended) && bool_decide (cn_TenantSuspendPriorState c <> None))
    resumed_row (ad_Db st)) as [db1 Hdb1].
  { intros c r. rewrite Hrows. intros (r0 & Hr & ->)%fmap_Some _. destruct (Hok _ _ Hr) as [Hr0 Hp].
    rewrite resumed_suspended by done. unfold suspend_prior_ok. by rewrite Hp. }
  assert (exists st1, resume_tenant t tn st = Ok st1) as [st1 Hst1].
  { unfold resume_tenant, resume_connections. fold resumed_row. rewrite Hdb1. cbn [result_bind]. unfold put_tenant, tenant_row_ok. cbn [tn_MaxConnections tn_Status with_status].
    rewrite !(proj2 (Z.leb_le _ _)) by lia. cbn. by eexists. }
  pose proof Hst1 as (Ht & _ & _ & Hc & _)%resume_tenant_ok; [|done..|by rewrite Es].
  destruct (audit_succeeds actor t id "resume" (tn_Name tn) (tn_MaxConnections tn) now st1 (with_status tn "active")) as [st' Hst'];
    [done | by rewrite Ht, lookup_insert_eq | by apply (bool_decide_unpack _) | done | done | lia | |].
  { unfold resume_tenant in Hst1. apply result_bind_ok in Hst1 as (db2 & _ & (_ & He & _)%put_tenant_ok). by rewrite He. }
  pose proof (audit_ok _ _ _ _ _ _ _ _ _ Hst') as (Hdb & _).
  exists st', {| os_TenantID := t; os_Name := tn_Name tn; os_Status := "active"; os_MaxConnections := tn_MaxConnections tn;
    os_ConnectionCount := connection_count (ad_Db st') t |}. split; [|split; [done|]].
  - unfold Resume, changeSuspension, admin_transaction. rewrite Hpat, Et, Es. cbn [negb].
    replace ("suspended" <>s "active") with true by reflexivity.
    rewrite Hst1. cbn [result_bind]. rewrite Hst'. cbn [result_bind]. unfold readTenantOperationalStatus.
    by rewrite Hdb, Ht, lookup_insert_eq.
  - intros c. rewrite Hdb, Hc, String.eqb_refl, Hrows. destruct (rows c) as [r|] eqn:Er; [|done]. cbn.
    by rewrite resumed_suspended by by eapply Hok.
Qed.

(** C22. A suspension is undone exactly: from any state the operations on tenants,
    connections, pairings and leases can reach, once an active tenant has been
    suspended then, whatever they do short of resuming it, every one of its
    connections is suspended and none is added, and a resumption with a fresh audit
    identity succeeds and gives every connection the row it had before the
    suspension. In particular a quarantine of a connection in the meantime is lost. *)
Theorem suspension_reversible (st0 st1 : AdminDb) (before ops : list TenantOp) (t actor id actor' id' : string)
  (now now' : Z) (tn : TenantRow) (s : TenantOperationalStatus) :
  let st := tenant_exec_all before st0 in
  let st2 := tenant_exec_all ops st1 in
  suspension_ok st0 ->
  tenants (ad_Db st) !! t = Some tn -> tn_Status tn = "active" ->
  Suspend actor t id now st = (st1, Ok s) ->
  Forall (fun op => ~ resumes op t) ops ->
  NewTenantAdministrator true actor' = Ok actor' -> id' <> "" -> ad_Events st2 !! (t, id') = None ->
  (forall c, is_Some (connections (ad_Db st2) !! (t, c)) <-> is_Some (connections (ad_Db st) !! (t, c))) /\
  (forall c r, connections (ad_Db st2) !! (t, c) = Some r -> cn_State r = ConnectionStateSuspended) /\
  exists st3 s', Resume actor' t id' now' st2 = (st3, Ok s') /\ os_Status s' = "active" /\
    forall c, connections (ad_Db st3) !! (t, c) = connections (ad_Db st) !! (t, c).
Proof.
  intros st st2 Hst0 Et Es Hsus Hops Hact Hid Hfresh.
  pose proof (tenant_exec_all_ok before st0 Hst0 : suspension_ok st) as Hst.
  destruct (Suspend_effect _ _ _ _ _ _ _ _ Hst Et Es Hsus) as (Hpat & Hs1 & Hc1 & _).
  assert (suspension_ok st1) as Hst1.
  { pose proof (changeSuspension_keeps actor t true id now st Hst) as H. unfold Suspend in Hsus. by rewrite Hsus in H. }
  destruct (suspended_frozen_all ops st1 t Hst1 Hs1 Hops) as [Hs2 Hc2].
  assert (forall c, connections (ad_Db st2) !! (t, c) = suspended_row <$> connections (ad_Db st) !! (t, c)) as Hrows
    by (intros c; unfold st2; by rewrite Hc2, Hc1).
  split_and!.
  - intros c. rewrite Hrows. apply fmap_is_Some.
  - intros c r. rewrite Hrows. by intros (r0 & _ & ->)%fmap_Some.
  - apply Resume_restores; try done.
    + apply tenant_exec_all_ok. done.
    + unfold NewTenantAdministrator in Hact. cbn in Hact. destruct (safeAdminText actor' 128) eqn:E; [|done].
      by apply safeAdminText_bounds.
    + intros c r Hr. destruct (proj1 Hst _ _ _ Hr) as (Hok & tn' & Et' & [[_ Hp]|[Hx _]]); [done|]. congruence.
Qed.

(** C23. A suspension ends the work of the tenant's actors: a lease held when an
    active tenant is suspended is never valid again. Whatever operations follow, a
    resumption included, every renewal, release, health write, reauthorization or
    session swap under its token is refused and changes nothing, and until the tenant
    is resumed an actor that takes a lease anew reads its connection as suspended. *)
Theorem suspension_locks_out (st st1 : AdminDb) (ops : list TenantOp) (t c actor id owner : string)
  (now later : Z) (tn : TenantRow) (s : TenantOperationalStatus) (l : LeaseRow) (op : LeaseOp) :
  let st2 := tenant_exec_all ops st1 in
  suspension_ok st -> tenants (ad_Db st) !! t = Some tn -> tn_Status tn = "active" ->
  leases (ad_Db st) !! (t, c) = Some l -> ls_Owner l = Some owner ->
  Suspend actor t id now st = (st1, Ok s) ->
  fenced op = Some (t, c, ls_Token l) ->
  (exists r, Leases.exec op later (ad_Db st2) = (ad_Db st2, r) /\ refused r) /\
  (Forall (fun op => ~ resumes op t) ops -> forall db' connection,
     GetConnection t c (ad_Db st2) = (db', Ok connection) -> conn_State connection = ConnectionStateSuspended).
Proof.
  intros st2 Hst Et Es Hl Ho Hsus Hop.
  destruct (Suspend_effect _ _ _ _ _ _ _ _ Hst Et Es Hsus) as (_ & Hs1 & Hc1 & Hl1). split.
  - specialize (Hl1 (t, c)). rewrite Hl in Hl1. cbn in Hl1. unfold lease_owned in Hl1.
    rewrite String.eqb_refl, bool_decide_true in Hl1 by (by rewrite Ho).
    destruct (tenant_exec_all_evolves ops st1 _ _ Hl1) as (l2 & Hl2 & He).
    eapply fenced_stale_refused; [exact Hop | exact Hl2|]. unfold lease_evolves in He. cbn in He. lia.
  - intros Hops db' connection.
    assert (suspension_ok st1) as Hst1.
    { pose proof (changeSuspension_keeps actor t true id now st Hst) as H. unfold Suspend in Hsus. by rewrite Hsus in H. }
    destruct (suspended_frozen_all ops st1 t Hst1 Hs1 Hops) as [_ Hc2].
    unfold GetConnection. destruct (t =s ""); [done|]. destruct (c =s ""); [done|]. intros H%inTenant_ok.
    unfold st2 in H. rewrite Hc2, Hc1 in H. destruct (connections (ad_Db st) !! (t, c)) as [r|]; [|done].
    cbn in H. by injection H as _ <-.
Qed.

(** ** A tenant with one connected phone, quarantined while suspended *)

Definition empty_admin : AdminDb := {| ad_Db := empty_db; ad_SuspendedAt := ∅; ad_Events := ∅ |}.

Definition example_record : ConnectionRecord := {|
  rec_Connection := {| conn_ID := "c1"; conn_TenantID := "t1"; conn_Name := "phone"; conn_State := ConnectionStateConnected |};
  rec_Fingerprint := repeat (byte_of_Z 7) 32 |}.

Definition example_before : list TenantOp :=
  [OnProvision "ops" {| ti_TenantID := "t1"; ti_Name := "Tenant"; ti_MaxConnections := 2; ti_Actor := "" |} "e1" 0;
   OnPairing (OpSave "t1" example_record); OnLease (OpAcquire "t1" "c1" "o" (30 * Second)) 10].

Definition example_active : AdminDb := tenant_exec_all example_before empty_admin.
Definition example_suspended : AdminDb * result TenantOperationalStatus := Suspend "ops" "t1" "e2" 20 example_active.
Definition example_ops : list TenantOp := [OnLease (OpQuarantine "t1" "c1" "provider-protocol") 30].
Definition example_status : TenantOperationalStatus :=
  {| os_TenantID := "t1"; os_Name := "Tenant"; os_Status := "suspended"; os_MaxConnections := 2; os_ConnectionCount := 1 |}.

Lemma empty_admin_ok : suspension_ok empty_admin.
Proof. split; [intros t c r H | intros t tn H]; cbn in H; by rewrite lookup_empty in H. Qed.

Lemma example_suspends : Suspend "ops" "t1" "e2" 20 example_active = (example_suspended.1, Ok example_status).
Proof.
  assert (example_suspended.2 = Ok example_status) as H by (vm_compute; reflexivity).
  unfold example_suspended in *. destruct (Suspend "ops" "t1" "e2" 20 example_active). cbn in *. by rewrite H.
Qed.

Lemma example_ops_do_not_resume : Forall (fun op => ~ resumes op "t1") example_ops.
Proof. repeat constructor. by intros (a & i & n & [=]). Qed.

(** The quarantine is recorded, and lost with the resumption. *)
Lemma suspension_reversible_witness :
  let st2 := tenant_exec_all example_ops example_suspended.1 in
  hl_LastSafeReason <$> Store.health (ad_Db st2) !! ("t1", "c1") = Some "provider-protocol" /\
  exists st3 s', Resume "ops" "t1" "e3" 40 st2 = (st3, Ok s') /\
    cn_State <$> connections (ad_Db st3) !! ("t1", "c1") = Some ConnectionStateConnected.
Proof.
  split; [vm_compute; reflexivity|].
  destruct (suspension_reversible empty_admin example_suspended.1 example_before example_ops "t1" "ops" "e2" "ops" "e3" 20 40
    {| tn_Name := "Tenant"; tn_Status := "active"; tn_MaxConnections := 2 |} example_status)
    as (_ & _ & st3 & s' & Hr & _ & Hc).
  - exact empty_admin_ok.
  - vm_compute. reflexivity.
  - reflexivity.
  - exact example_suspends.
  - exact example_ops_do_not_resume.
  - vm_compute. reflexivity.
  - discriminate.
  - vm_compute. reflexivity.
  - exists st3, s'. split; [exact Hr|]. rewrite Hc. vm_compute. reflexivity.
Defined.

Lemma suspension_locks_out_witness :
  let st2 := tenant_exec_all [] example_suspended.1 in
  ls_Owner <$> leases (ad_Db example_active) !! ("t1", "c1") = Some (Some "o") /\
  exists r, Leases.exec (OpRenew "t1" "c1" "o" 1 (30 * Second)) 21 (ad_Db st2) = (ad_Db st2, r) /\ refused r.
Proof.
  split; [vm_compute; reflexivity|].
  apply (suspension_locks_out example_active example_suspended.1 [] "t1" "c1" "ops" "e2" "o" 20 21
    {| tn_Name := "Tenant"; tn_Status := "active"; tn_MaxConnections := 2 |} example_status
    {| ls_Owner := Some "o"; ls_Token := 1; ls_ExpiresAt := 10 + 30 * Second |} (OpRenew "t1" "c1" "o" 1 (30 * Second))).
  - apply tenant_exec_all_ok. exact empty_admin_ok.
  - vm_compute. reflexivity.
  - reflexivity.
  - vm_compute. reflexivity.
  - reflexivity.
  - exact example_suspends.
  - reflexivity.
Defined.
