(* ===== verification/MediaCipher.v ===== *)
(** * Encryption of media and of requests (pkg/libgm/crypto/aesgcm.go, aesctr.go)

    Media travel as a two-byte header and chunks of AES-256-GCM, each
    authenticated with its index and whether it is the last; requests as
    AES-256-CTR with an HMAC over ciphertext and initialisation vector. Random
    nonces are arguments. *)

From S2P Require Import Prelude GoText Crypto GoEncoding Aes.

(** What a call does that can also panic. *)
Inductive call_result (A : Type) :=
| Returns (r : result A)
| Panics.
Arguments Returns {A} _.
Arguments Panics {A}.

(** ** Media: AES-GCM in chunks *)

Definition NonceSize : Z := 12.
Definition Overhead : Z := 16.
Definition outgoingRawChunkSize : Z := Z.shiftl 1 15.

(** An [AESGCMHelper] is its key. *)
Definition NewAESGCMHelper (key : bytes) : result bytes :=
  if negb (blen key =? 32) then Err [ErrText "unsupported AES key length"] else Ok key.

Definition calculateAAD (index : Z) (isLastChunk : bool) : bytes :=
  byte_of_Z (if isLastChunk then 1 else 0) :: PutUint32 index.

Definition encryptChunk (key nonce data aad : bytes) : bytes := nonce ++ gcm_Seal key nonce data aad.

Definition decryptChunk (key data aad : bytes) : result bytes :=
  if blen data <? NonceSize then Err [ErrText "invalid encrypted data length"]
  else match gcm_Open key (take (Z.to_nat NonceSize) data) (drop (Z.to_nat NonceSize) data) aad with
       | Some decrypted => Ok decrypted
       | None => Err [ErrText "cipher: message authentication failed"]
       end.

(** The loop of [EncryptData]: [nonces i] is the nonce of chunk [i], and the
    index is a [uint32]. A unit of [fuel] is a chunk. *)
Fixpoint encrypt_chunks (fuel : nat) (key : bytes) (nonces : nat -> bytes) (size : nat) (i : nat) (data : bytes) : bytes :=
  match fuel, data with
  | S f, _ :: _ =>
    let isLastChunk := Z.of_nat size >=? blen data in
    let chunk := take size data in
    encryptChunk key (nonces i) chunk (calculateAAD (Z.of_nat i mod 2 ^ 32) isLastChunk) ++
    if isLastChunk then [] else encrypt_chunks f key nonces size (S i) (drop size data)
  | _, _ => []
  end.

Definition EncryptData (key : bytes) (nonces : nat -> bytes) (data : bytes) : bytes :=
  let chunkOverhead := NonceSize + Overhead in
  let chunkSize := outgoingRawChunkSize - chunkOverhead in
  [byte_of_Z 0; byte_of_Z (Z.log2 outgoingRawChunkSize)] ++
  encrypt_chunks (length data) key nonces (Z.to_nat chunkSize) 0 data.

(** [1 << shift] in a 64-bit [int]. *)
Definition chunk_size (shift : Z) : Z :=
  if shift <? 63 then 2 ^ shift else if shift =? 63 then - 2 ^ 63 else 0.

(** The capacity of [decryptedData]. The quotient by a power of two is exact in a
    [float64]; for a size of zero or less the count converts to a multiple that
    leaves the capacity at least the length. *)
Definition chunk_count (n size : Z) : Z := (n + size - 1) / size.
Definition decrypted_capacity (n size : Z) : Z :=
  if size <=? 0 then n else n - 28 * chunk_count n size.

(** The loop of [DecryptData]. [make] panics on a negative size. *)
Fixpoint decrypt_chunks (fuel : nat) (key : bytes) (size : Z) (i : nat) (data : bytes) : call_result bytes :=
  match fuel, data with
  | S f, _ :: _ =>
    if size <? 0 then Panics
    else
      let isLastChunk := size >=? blen data in
      let chunk := if isLastChunk then data else take (Z.to_nat size) data in
      match decryptChunk key chunk (calculateAAD (Z.of_nat i mod 2 ^ 32) isLastChunk) with
      | Err e => Returns (Err e)
      | Ok decryptedChunk =>
        if isLastChunk then Returns (Ok decryptedChunk)
        else match decrypt_chunks f key size (S i) (drop (Z.to_nat size) data) with
             | Returns (Ok rest) => Returns (Ok (decryptedChunk ++ rest))
             | r => r
             end
      end
  | _, _ => Returns (Ok [])
  end.

Definition DecryptData (key encryptedData : bytes) : call_result bytes :=
  if is_nil encryptedData || negb (blen key =? 32) then Returns (Ok encryptedData)
  else match encryptedData with
  | [] => Returns (Ok [])
  | first :: tail =>
    if negb (byte_val first =? 0) then Returns (Err [ErrText "invalid first-byte header signature"])
    else match tail with
    | [] => Panics
    | shift :: data =>
      let chunkSize := chunk_size (byte_val shift) in
      if decrypted_capacity (blen data) chunkSize <? 0 then Panics
      else decrypt_chunks (length data) key chunkSize 0 data
    end
  end.

(** ** Requests: AES-CTR with HMAC *)

Record AESCTRHelper := { AESKey : bytes; HMACKey : bytes }.

(** [aes.NewCipher] for the 32-byte keys [NewAESCTRHelper] generates and the
    session codec requires. *)
Definition NewCipher (key : bytes) : result (list (list Z)) :=
  if blen key =? 32 then Ok (round_keys (values key)) else Err [ErrText "crypto/aes: invalid key size"].

(** [cipher.NewCTR]: a counter block of 128 bits that starts at the vector. *)
Definition ctr_stream (keys : list (list Z)) (counter : Z) : list Z :=
  take 16 (aes_encrypt keys (values (be_encode 16 counter)) ++ repeat 0 16).

Definition XORKeyStream (keys : list (list Z)) (iv data : bytes) : bytes :=
  stream_xor (length data) (ctr_stream keys) (big_endian 0 (values iv)) data.

Definition CTR_Encrypt (c : AESCTRHelper) (iv plaintext : bytes) : result bytes :=
  let! keys := NewCipher (AESKey c) in
  let ciphertext := XORKeyStream keys iv plaintext ++ iv in
  Ok (ciphertext ++ hmac_sha256 (HMACKey c) ciphertext).

Definition CTR_Decrypt (c : AESCTRHelper) (encryptedData : bytes) : result bytes :=
  if blen encryptedData <? 48 then Err [ErrText "input data is too short"]
  else
    let n := (length encryptedData - 32)%nat in
    let hmacSignature := drop n encryptedData in
    let signed := take n encryptedData in
    if negb (bool_decide (hmacSignature = hmac_sha256 (HMACKey c) signed)) then Err [ErrText "HMAC mismatch"]
    else
      let iv := drop (n - 16) signed in
      let! keys := NewCipher (AESKey c) in
      Ok (XORKeyStream keys iv (take (n - 16) signed)).

(** CTR-AES256 of SP 800-38A, first block. *)
Example ctr_test_vector :
  hex_encode (XORKeyStream (round_keys (values (hex "603deb1015ca71be2b73aef0857d77811f352c073b6108d72d9810a30914dff4")))
    (hex "f0f1f2f3f4f5f6f7f8f9fafbfcfdfeff") (hex "6bc1bee22e409f96e93d7e117393172a")) =
  bytes_of "601ec313775789a5b7a7f504bbf3d228".
Proof. vm_compute. reflexivity. Qed.

(** ** Chunks *)

Lemma length_encryptChunk key nonce data aad :
  length nonce = 12%nat -> length (encryptChunk key nonce data aad) = (length data + 28)%nat.
Proof. intros Hn. unfold encryptChunk. rewrite length_app, length_gcm_Seal. lia. Qed.

Lemma decryptChunk_encryptChunk key nonce data aad :
  length nonce = 12%nat -> decryptChunk key (encryptChunk key nonce data aad) aad = Ok data.
Proof.
  intros Hn. unfold decryptChunk. unfold blen. rewrite length_encryptChunk by done.
  rewrite (proj2 (Z.ltb_ge _ _)) by (unfold NonceSize; lia). unfold encryptChunk.
  change (Z.to_nat NonceSize) with 12%nat. rewrite take_app_length', drop_app_length' by done. by rewrite gcm_Open_Seal.
Qed.

(** One chunk per unit of fuel is enough: the loops do not depend on more. *)
Lemma decrypt_chunks_fuel f1 f2 key size i data :
  (length data <= f1)%nat -> (length data <= f2)%nat -> decrypt_chunks f1 key size i data = decrypt_chunks f2 key size i data.
Proof.
  revert f2 i data. induction f1 as [|f1 IH]; intros f2 i data H1 H2.
  { destruct data; [by destruct f2 | simpl in H1; lia]. }
  destruct data as [|b data]; [by destruct f2|]. destruct f2 as [|f2]; [simpl in H2; lia|]. cbn [decrypt_chunks].
  destruct (size <? 0) eqn:Es; [done|]. destruct (size >=? blen (b :: data)) eqn:El; [done|].
  destruct (decide (size = 0)) as [->|Hne]; [by rewrite take_0|].
  destruct (decryptChunk _ _ _); [|done]. rewrite (IH f2); [done|..]; reflect_bools;
    rewrite length_drop; cbn [length] in *; lia.
Qed.

Lemma encrypt_chunks_last f key nonces size i b data :
  (length (b :: data) <= size)%nat ->
  encrypt_chunks (S f) key nonces size i (b :: data) =
    encryptChunk key (nonces i) (b :: data) (calculateAAD (Z.of_nat i mod 2 ^ 32) true).
Proof.
  intros H. cbn [encrypt_chunks]. unfold blen. rewrite Z.geb_leb, (proj2 (Z.leb_le _ _)) by lia.
  by rewrite take_ge, app_nil_r by done.
Qed.

Lemma encrypt_chunks_more f key nonces size i data :
  (size < length data)%nat ->
  encrypt_chunks (S f) key nonces size i data =
    encryptChunk key (nonces i) (take size data) (calculateAAD (Z.of_nat i mod 2 ^ 32) false) ++
    encrypt_chunks f key nonces size (S i) (drop size data).
Proof.
  intros H. destruct data as [|b data]; [simpl in H; lia|]. cbn [encrypt_chunks]. unfold blen.
  by rewrite Z.geb_leb, (proj2 (Z.leb_gt _ _)) by lia.
Qed.

Section chunks.
Context (key : bytes) (nonces : nat -> bytes) (size : nat).
Context (length_nonces : forall i, length (nonces i) = 12%nat) (size_positive : (0 < size)%nat).

Lemma chunk_count_last n : 0 < n <= Z.of_nat size -> chunk_count n (Z.of_nat size) = 1.
Proof. intros H. unfold chunk_count. symmetry. apply (Z.div_unique _ _ 1 (n - 1)); lia. Qed.

Lemma chunk_count_more n : chunk_count (n + Z.of_nat size) (Z.of_nat size) = chunk_count n (Z.of_nat size) + 1.
Proof.
  unfold chunk_count. replace (n + Z.of_nat size + Z.of_nat size - 1) with (n + Z.of_nat size - 1 + 1 * Z.of_nat size) by lia.
  by rewrite Z.div_add by lia.
Qed.

Lemma length_encrypt_chunks f i data :
  (length data <= f)%nat ->
  blen (encrypt_chunks f key nonces size i data) = blen data + 28 * chunk_count (blen data) (Z.of_nat size).
Proof.
  revert i data. induction f as [|f IH]; intros i data H.
  { destruct data; [|simpl in H; lia]. unfold blen, chunk_count. cbn. rewrite Z.div_small by lia. done. }
  destruct data as [|b data]. { unfold blen, chunk_count. cbn. rewrite Z.div_small by lia. done. }
  destruct (decide (length (b :: data) <= size)%nat) as [Hle|Hgt].
  - rewrite encrypt_chunks_last by done. unfold blen. rewrite length_encryptChunk by done.
    rewrite chunk_count_last; cbn [length] in *; lia.
  - rewrite encrypt_chunks_more by lia. specialize (IH (S i) (drop size (b :: data))). unfold blen in *.
    rewrite length_app, length_encryptChunk, length_take by done. rewrite length_drop in IH.
    replace (Z.of_nat (length (b :: data))) with (Z.of_nat (length (b :: data) - size) + Z.of_nat size) by lia.
    rewrite chunk_count_more. cbn [length] in *. rewrite Nat2Z.inj_add, IH by lia. lia.
Qed.

Lemma decrypt_encrypt_chunks f f' i data :
  (length data <= f)%nat -> (length (encrypt_chunks f key nonces size i data) <= f')%nat ->
  decrypt_chunks f' key (Z.of_nat size + 28) i (encrypt_chunks f key nonces size i data) = Returns (Ok data).
Proof.
  revert f' i data. induction f as [|f IH]; intros f' i data H Hf.
  { destruct data; [|simpl in H; lia]. by destruct f'. }
  destruct data as [|b data]; [by destruct f'|].
  destruct (decide (length (b :: data) <= size)%nat) as [Hle|Hgt].
  - rewrite encrypt_chunks_last in * by done. set (e := encryptChunk _ _ _ _) in *.
    assert (length e = (length (b :: data) + 28)%nat) as He by (by apply length_encryptChunk).
    destruct f' as [|f']; [lia|]. assert (exists x r, e = x :: r) as (x & r & Ee) by (destruct e; [simpl in He; lia | by eexists _, _]).
    rewrite Ee in *. cbn [decrypt_chunks].
    rewrite (proj2 (Z.ltb_ge _ _)) by lia. rewrite Z.geb_leb, (proj2 (Z.leb_le _ _)) by (unfold blen; lia).
    rewrite <- Ee. unfold e. by rewrite decryptChunk_encryptChunk by done.
  - rewrite encrypt_chunks_more in * by lia. set (e := encryptChunk _ _ _ _) in *. set (rest := encrypt_chunks _ _ _ _ _ _) in *.
    assert (length e = (size + 28)%nat) as He by (unfold e; rewrite length_encryptChunk, length_take by done; lia).
    assert (0 < blen rest) as Hrest.
    { unfold rest. rewrite length_encrypt_chunks by (rewrite length_drop; cbn [length] in *; lia). unfold blen, chunk_count.
      rewrite length_drop. pose proof (Z.div_pos (Z.of_nat (length (b :: data) - size) + Z.of_nat size - 1) (Z.of_nat size)). lia. }
    assert (take (Z.to_nat (Z.of_nat size + 28)) (e ++ rest) = e) as Htake by (apply take_app_length'; lia).
    assert (drop (Z.to_nat (Z.of_nat size + 28)) (e ++ rest) = rest) as Hdrop by (apply drop_app_length'; lia).
    destruct f' as [|f']; [rewrite length_app in Hf; lia|].
    assert (exists x r, e ++ rest = x :: r) as (x & r & Ex) by (destruct e; [simpl in He; lia | by eexists _, _]).
    rewrite Ex in *. cbn [decrypt_chunks]. rewrite (proj2 (Z.ltb_ge _ _)) by lia.
    rewrite Z.geb_leb, (proj2 (Z.leb_gt _ _)) by (rewrite <- Ex; unfold blen in *; rewrite length_app; lia).
    rewrite Htake, Hdrop. unfold e at 1. rewrite decryptChunk_encryptChunk by done.
    unfold rest. rewrite IH; [by rewrite take_drop| |].
    + rewrite length_drop. cbn [length] in *. lia.
    + fold rest. rewrite <- Ex, length_app in Hf. lia.
Qed.

Lemma encrypted_chunk_count n :
  0 <= n -> chunk_count (n + 28 * chunk_count n (Z.of_nat size)) (Z.of_nat size + 28) = chunk_count n (Z.of_nat size).
Proof.
  intros Hn. set (k := chunk_count n (Z.of_nat size)). unfold chunk_count. symmetry.
  pose proof (Z.div_mod (n + Z.of_nat size - 1) (Z.of_nat size)) as Hd. pose proof (Z.mod_pos_bound (n + Z.of_nat size - 1) (Z.of_nat size)).
  fold (chunk_count n (Z.of_nat size)) in Hd. fold k in Hd.
  apply (Z.div_unique _ _ k ((n + Z.of_nat size - 1) mod Z.of_nat size + 28)); nia.
Qed.
End chunks.

(** ** What was encrypted decrypts to itself *)

Definition plain_chunk : nat := Z.to_nat (outgoingRawChunkSize - (NonceSize + Overhead)).

Lemma plain_chunk_value : Z.of_nat plain_chunk = 32740.
Proof. reflexivity. Qed.

Lemma EncryptData_eq key nonces data :
  EncryptData key nonces data =
    [byte_of_Z 0; byte_of_Z 15] ++ encrypt_chunks (length data) key nonces plain_chunk 0 data.
Proof. reflexivity. Qed.

(** The overhead: two bytes, and 28 per chunk of 32740 bytes. *)
Lemma length_EncryptData key nonces data :
  (forall i, length (nonces i) = 12%nat) ->
  blen (EncryptData key nonces data) = 2 + blen data + 28 * chunk_count (blen data) 32740.
Proof.
  intros Hn. rewrite EncryptData_eq. rewrite <- plain_chunk_value.
  rewrite <- Z.add_assoc, <- (length_encrypt_chunks key nonces plain_chunk Hn ltac:(pose proof plain_chunk_value; lia) (length data) 0 data) by done.
  unfold blen. rewrite length_app. cbn [length]. lia.
Qed.

Lemma DecryptData_EncryptData key nonces data :
  length key = 32%nat -> (forall i, length (nonces i) = 12%nat) ->
  DecryptData key (EncryptData key nonces data) = Returns (Ok data).
Proof.
  intros Hk Hn. assert (0 < plain_chunk)%nat as Hp by (pose proof plain_chunk_value; lia).
  pose proof (length_encrypt_chunks key nonces plain_chunk Hn Hp (length data) 0 data ltac:(done)) as Hlen.
  unfold DecryptData. rewrite EncryptData_eq. cbn [app is_nil orb].
  replace (blen key =? 32) with true by (symmetry; apply Z.eqb_eq; unfold blen; lia). cbn [negb].
  replace (byte_val (byte_of_Z 0) =? 0) with true by reflexivity. cbn [negb].
  replace (chunk_size (byte_val (byte_of_Z 15))) with (Z.of_nat plain_chunk + 28) by (rewrite plain_chunk_value; reflexivity).
  rewrite (proj2 (Z.ltb_ge _ _)); [by apply decrypt_encrypt_chunks|]. unfold decrypted_capacity.
  rewrite (proj2 (Z.leb_gt _ _)) by lia. rewrite Hlen, encrypted_chunk_count by (done || unfold blen; lia). unfold blen. lia.
Qed.

(** ** What makes decryption panic *)

Lemma decrypt_chunks_returns f key size i data : 0 <= size -> decrypt_chunks f key size i data <> Panics.
Proof.
  intros Hs. revert i data. induction f as [|f IH]; intros i data; [done|]. destruct data as [|b data]; [done|].
  cbn [decrypt_chunks]. rewrite (proj2 (Z.ltb_ge _ _)) by lia. destruct (decryptChunk _ _ _); [|done].
  destruct (_ >=? _); [done|]. specialize (IH (S i) (drop (Z.to_nat size) (b :: data))).
  destruct (decrypt_chunks _ _ _ _ _) as [[|]|]; done.
Qed.

Lemma chunk_count_nil size : 0 < size -> chunk_count 0 size = 0.
Proof. intros H. unfold chunk_count. apply Z.div_small. lia. Qed.

(** The inputs that make it panic: the header is cut after its first byte, the
    chunk size overflows to a negative one, or the capacity is negative because a
    chunk is shorter than its overhead of 28 bytes on average. *)
Definition panicking_body (shift : Z) (body : bytes) : bool :=
  negb (is_nil body) && ((shift =? 63) || (shift <? 63) && (blen body <? 28 * chunk_count (blen body) (2 ^ shift))).

Definition panicking (data : bytes) : bool :=
  match data with
  | first :: tail => (byte_val first =? 0) && match tail with [] => true | shift :: body => panicking_body (byte_val shift) body end
  | [] => false
  end.

Lemma decrypt_body_panics key shift body :
  0 <= shift ->
  (if decrypted_capacity (blen body) (chunk_size shift) <? 0 then Panics
   else decrypt_chunks (length body) key (chunk_size shift) 0 body) = Panics <-> panicking_body shift body = true.
Proof.
  intros Hs. unfold panicking_body, chunk_size, decrypted_capacity. destruct (shift <? 63) eqn:E.
  - assert (0 < 2 ^ shift) as Hpos by (apply Z.pow_pos_nonneg; reflect_bools; lia).
    rewrite (proj2 (Z.leb_gt _ _)) by done. replace (shift =? 63) with false by (symmetry; apply Z.eqb_neq; reflect_bools; lia).
    destruct body as [|b body]; cbn [is_nil negb andb orb].
    + change (blen []) with 0. rewrite chunk_count_nil by done. done.
    + destruct (blen (b :: body) <? _) eqn:El; reflect_bools.
      * by rewrite (proj2 (Z.ltb_lt _ _)) by lia.
      * rewrite (proj2 (Z.ltb_ge _ _)) by lia. split; [|done]. intros H. by apply decrypt_chunks_returns in H; [|lia].
  - destruct (shift =? 63) eqn:E63; cbn [Z.leb].
    + replace (- 2 ^ 63 <=? 0) with true by reflexivity. rewrite (proj2 (Z.ltb_ge _ _)) by (unfold blen; lia).
      destruct body as [|b body]; [done|]. cbn [is_nil negb andb orb length decrypt_chunks]. by replace (- 2 ^ 63 <? 0) with true by reflexivity.
    + rewrite (proj2 (Z.ltb_ge _ _)) by (unfold blen; cbn; lia). cbn [orb andb]. rewrite andb_false_r. split; [|done].
      intros H. by apply decrypt_chunks_returns in H.
Qed.

(** C39. Decryption of media panics on exactly the inputs [panicking] describes: a
    header of one byte, a chunk exponent of 63, or a body with fewer than 28 bytes
    per chunk; on every other input it returns a result. *)
Theorem DecryptData_panics_iff (key data : bytes) :
  length key = 32%nat -> DecryptData key data = Panics <-> panicking data = true.
Proof.
  intros Hk. unfold DecryptData. replace (blen key =? 32) with true by (symmetry; apply Z.eqb_eq; unfold blen; lia).
  destruct data as [|first tail]; [done|]. cbn [is_nil orb negb panicking].
  destruct (byte_val first =? 0); [|done]. cbn [negb andb]. destruct tail as [|shift body]; [done|].
  apply decrypt_body_panics. pose proof (byte_val_range shift). lia.
Qed.

(** Three bytes after the header are enough, whatever chunk size it names. *)
Lemma DecryptData_panics_iff_witness :
  let data := [byte_of_Z 0; byte_of_Z 15; byte_of_Z 1; byte_of_Z 2; byte_of_Z 3] in
  DecryptData (repeat (byte_of_Z 7) 32) data = Panics /\ DecryptData (repeat (byte_of_Z 7) 32) [byte_of_Z 0] = Panics.
Proof. split; apply DecryptData_panics_iff; vm_compute; reflexivity. Defined.

(** ** Requests *)

Lemma length_XORKeyStream keys iv data : length (XORKeyStream keys iv data) = length data.
Proof.
  apply length_stream_xor; [|done]. intros c. unfold ctr_stream. rewrite length_take, length_app, repeat_length. lia.
Qed.

Lemma XORKeyStream_involutive keys iv data : XORKeyStream keys iv (XORKeyStream keys iv data) = data.
Proof.
  unfold XORKeyStream at 1. rewrite length_XORKeyStream. apply stream_xor_involutive; [|done].
  intros c. unfold ctr_stream. rewrite length_take, length_app, repeat_length. lia.
Qed.

(** A request decrypts to itself, and only what carries the HMAC of its ciphertext
    and vector under the same key decrypts at all. *)
Theorem request_cipher_exact (c : AESCTRHelper) (data plaintext : bytes) :
  length (AESKey c) = 32%nat ->
  CTR_Decrypt c data = Ok plaintext <->
  exists iv, length iv = 16%nat /\ CTR_Encrypt c iv plaintext = Ok data.
Proof.
  intros Hk. unfold CTR_Decrypt, CTR_Encrypt, NewCipher.
  replace (blen (AESKey c) =? 32) with true by (symmetry; apply Z.eqb_eq; unfold blen; lia). cbn [result_bind].
  set (keys := round_keys _). split.
  - destruct (blen data <? 48) eqn:El; [done|]. destruct (negb _) eqn:Em; [done|]. reflect_bools. intros [= <-].
    set (n := (length data - 32)%nat) in *. exists (drop (n - 16) (take n data)). unfold blen in El.
    split; [rewrite length_drop, length_take; lia|]. f_equal. rewrite XORKeyStream_involutive, take_drop, <- Em. apply take_drop.
  - intros (iv & Hiv & [= <-]). set (ct := XORKeyStream keys iv plaintext ++ iv).
    assert (length ct = (length plaintext + 16)%nat) as Hct by (unfold ct; rewrite length_app, length_XORKeyStream; lia).
    assert (length (ct ++ hmac_sha256 (HMACKey c) ct) - 32 = length ct)%nat as -> by (rewrite length_app, length_hmac_sha256; lia).
    rewrite (proj2 (Z.ltb_ge _ _)) by (unfold blen; rewrite length_app, length_hmac_sha256; lia).
    rewrite take_app_length, drop_app_length, bool_decide_true by done. cbn [negb].
    assert (length ct - 16 = length (XORKeyStream keys iv plaintext))%nat as -> by (rewrite length_XORKeyStream; lia).
    unfold ct. by rewrite take_app_length, drop_app_length, XORKeyStream_involutive.
Qed.
