(* ===== verification/MediaTransfer.v ===== *)
(** * Bounded transfer of media (pkg/libgm/media_context.go, media.go)

    [UploadMediaContext] and [DownloadMediaContext] as programs of calls to the
    request policy, the HTTP client it hands out and the source of randomness.
    Protobuf coding is a parameter. *)

From S2P Require Import Prelude GoText Crypto GoEncoding Rely Aes MediaCipher.

Definition maxGatewayMediaBytes : Z := Z.shiftl 25 20.
Definition maxUploadResponseBytes : Z := Z.shiftl 64 10.

(** The target of both directions (util/paths.go). *)
Definition UploadMediaURL : string := "https://instantmessaging-pa.googleapis.com/upload".

(** The part of a request that varies: the headers carry the size, the command and
    the type, and [rq_Metadata] is [x-goog-download-metadata]. *)
Record MediaRequest := {
  rq_Method : string; rq_URL : string; rq_Size : Z; rq_Command : string; rq_MIME : string;
  rq_Metadata : bytes; rq_Body : bytes }.

(** A response; its body yields [rp_Body] and then the error [rp_ReadErr], [[]] for EOF. *)
Record MediaResponse := {
  rp_StatusCode : Z; rp_ContentLength : Z; rp_UploadURL : string; rp_Body : bytes; rp_ReadErr : error }.

Record MediaContent := {
  mc_Format : Z; mc_MediaID : string; mc_MediaName : string; mc_Size : Z; mc_DecryptionKey : bytes; mc_MimeType : string }.

(** [ClientFor] answers whether the policy returned a client; [HasPolicy] reads
    whether there is one. [Nonces] are the nonces of the chunks of one encryption. *)
Inductive TransferCall : Type -> Type :=
| HasPolicy : TransferCall bool
| ClientFor (url : string) : TransferCall (result bool)
| Do (request : MediaRequest) : TransferCall (result MediaResponse)
| GenerateKey : TransferCall bytes
| Nonces : TransferCall (nat -> bytes).

Definition transfer (A : Type) : Type := prog TransferCall A.

(** [mediaClient]: whether there is a client for the target. *)
Definition mediaClient (url : string) : transfer (result unit) :=
  call! policy := HasPolicy in
  if negb policy then Ret (Err [ErrMediaPolicyRequired])
  else
    call! client := ClientFor url in
    match client with
    | Err e => Ret (Err e)
    | Ok false => Ret (Err [ErrMediaPolicyRequired])
    | Ok true => Ret (Ok tt)
    end.

(** [readMediaBounded]: one byte beyond the limit is read, and is the error. *)
Definition readMediaBounded (body : bytes) (readErr : error) (maximum : Z) : result bytes :=
  if blen body >? maximum then Err [ErrMediaTooLarge]
  else if negb (is_nil readErr) then Err readErr
  else Ok body.

Definition gatewayImageMIME (value : string) : bool :=
  (value =s "image/jpeg") || (value =s "image/png") || (value =s "image/gif") || (value =s "image/webp").

(** The entries of [MimeToMediaType] for these types; there is none for WebP. *)
Definition MimeToMediaType (mimeType : string) : Z :=
  if mimeType =s "image/jpeg" then 1 else if mimeType =s "image/png" then 3 else if mimeType =s "image/gif" then 4 else 0.

(** ** Standard base64 *)

Definition base64_value (c : ascii) : option Z :=
  let v := byte_val c in
  if between 65 90 v then Some (v - 65) else if between 97 122 v then Some (v - 71)
  else if between 48 57 v then Some (v + 4) else if v =? 43 then Some 62 else if v =? 47 then Some 63 else None.

Definition isBase64Character (c : ascii) : bool := bool_decide (base64_value c <> None) || (byte_val c =? 61).

Definition isStandardBase64 (data : bytes) : bool :=
  (blen data mod 4 =? 0) && forallb isBase64Character data.

(** [base64.StdEncoding.Decode] of what [isStandardBase64] accepts; padding only ends it. *)
Fixpoint std_base64_decode (data : bytes) : option bytes :=
  match data with
  | [] => Some []
  | a :: b :: c :: d :: rest =>
    match base64_value a, base64_value b with
    | Some x, Some y =>
      match base64_value c, base64_value d with
      | Some z, Some w =>
        let v := x * 262144 + y * 4096 + z * 64 + w in
        match std_base64_decode rest with
        | Some out => Some (byte_of_Z (v / 65536) :: byte_of_Z (v / 256) :: byte_of_Z v :: out)
        | None => None
        end
      | Some z, None =>
        if (byte_val d =? 61) && is_nil rest
        then Some [byte_of_Z ((x * 4096 + y * 64 + z) / 1024); byte_of_Z ((x * 4096 + y * 64 + z) / 4)] else None
      | None, _ =>
        if (byte_val c =? 61) && (byte_val d =? 61) && is_nil rest then Some [byte_of_Z ((x * 64 + y) / 16)] else None
      end
    | _, _ => None
    end
  | _ => None
  end.

Section transfer.
(** [buildStartUploadPayload], the marshalled [DownloadAttachmentRequest] of a media
    identifier, and the media identifier of an [UploadMediaResponse]. *)
Context (buildStartUploadPayload : result bytes) (downloadMetadata : string -> result bytes).
Context (uploadedMediaID : bytes -> option string).

Definition success (status : Z) : bool := (200 <=? status) && (status <? 300).

Definition startMediaUploadContext (encrypted : bytes) (mimeType : string) : transfer (result string) :=
  match buildStartUploadPayload with
  | Err _ => Ret (Err [ErrMediaInvalid])
  | Ok payload =>
    do! client := mediaClient UploadMediaURL in
    match client with
    | Err err => Ret (Err err)
    | Ok _ =>
      call! reply := Do {| rq_Method := "POST"; rq_URL := UploadMediaURL; rq_Size := blen encrypted;
                           rq_Command := "start"; rq_MIME := mimeType; rq_Metadata := []; rq_Body := payload |} in
      match reply with
      | Err e => Ret (Err e)
      | Ok response =>
        if negb (success (rp_StatusCode response)) then Ret (Err [ErrText "provider media upload start failed"])
        else if rp_UploadURL response =s "" then Ret (Err [ErrMediaInvalid])
        else
          do! client := mediaClient (rp_UploadURL response) in
          match client with Err err => Ret (Err err) | Ok _ => Ret (Ok (rp_UploadURL response)) end
      end
    end
  end.

Definition uploadedID (body : bytes) : result string :=
  let decoded := if isStandardBase64 body then std_base64_decode body else Some body in
  match decoded with
  | None => Err [ErrMediaInvalid]
  | Some body =>
    match uploadedMediaID body with
    | Some id => if id =s "" then Err [ErrMediaInvalid] else Ok id
    | None => Err [ErrMediaInvalid]
    end
  end.

(** [validURL]: whether [http.NewRequestWithContext] accepts the returned target. *)
Definition finalizeMediaUploadContext (validURL : string -> bool) (uploadURL : string) (encrypted : bytes) (mimeType : string)
    : transfer (result string) :=
  if negb (validURL uploadURL) then Ret (Err [ErrMediaInvalid])
  else
    do! client := mediaClient uploadURL in
    match client with
    | Err err => Ret (Err err)
    | Ok _ =>
      call! reply := Do {| rq_Method := "POST"; rq_URL := uploadURL; rq_Size := blen encrypted;
                           rq_Command := "upload, finalize"; rq_MIME := mimeType; rq_Metadata := []; rq_Body := encrypted |} in
      match reply with
      | Err e => Ret (Err e)
      | Ok response =>
        if negb (success (rp_StatusCode response)) then Ret (Err [ErrText "provider media upload finalize failed"])
        else match readMediaBounded (rp_Body response) (rp_ReadErr response) maxUploadResponseBytes with
             | Err _ => Ret (Err [ErrMediaInvalid])
             | Ok body => Ret (uploadedID body)
             end
      end
    end.

(** [source] is what the reader yields and ends with, [None] for a nil reader. *)
Definition UploadMediaContext (validURL : string -> bool) (source : option (bytes * error)) (declaredSize : Z)
    (fileName mimeType : string) (maximum : Z) : transfer (result MediaContent) :=
  match source with
  | None => Ret (Err [ErrMediaInvalid])
  | Some (data, readErr) =>
    if (maximum <? 1) || (maximum >? maxGatewayMediaBytes) || (declaredSize >? maximum) ||
       negb (gatewayImageMIME mimeType) || (len fileName >? 255)
    then Ret (Err [ErrMediaInvalid])
    else
      call! policy := HasPolicy in
      if negb policy then Ret (Err [ErrMediaPolicyRequired])
      else match readMediaBounded data readErr maximum with
      | Err e => Ret (Err e)
      | Ok plaintext =>
        if (declaredSize >=? 0) && negb (blen plaintext =? declaredSize) then Ret (Err [ErrMediaInvalid])
        else
          call! key := GenerateKey in
          match NewAESGCMHelper key with
          | Err _ => Ret (Err [ErrMediaInvalid])
          | Ok cryptor =>
            call! nonces := Nonces in
            let encrypted := EncryptData cryptor nonces plaintext in
            do! started := startMediaUploadContext encrypted mimeType in
            match started with
            | Err e => Ret (Err e)
            | Ok uploadURL =>
              do! finished := finalizeMediaUploadContext validURL uploadURL encrypted mimeType in
              match finished with
              | Err e => Ret (Err e)
              | Ok mediaID => Ret (Ok {| mc_Format := MimeToMediaType mimeType; mc_MediaID := mediaID; mc_MediaName := fileName;
                                         mc_Size := blen plaintext; mc_DecryptionKey := key; mc_MimeType := mimeType |})
              end
            end
          end
      end
  end.

Definition DownloadMediaContext (mediaID : string) (key : bytes) (maximum : Z) : transfer (call_result bytes) :=
  if (mediaID =s "") || (len mediaID >? 1024) || negb (blen key =? 32) || (maximum <? 1) || (maximum >? maxGatewayMediaBytes)
  then Ret (Returns (Err [ErrMediaInvalid]))
  else match downloadMetadata mediaID with
  | Err _ => Ret (Returns (Err [ErrMediaInvalid]))
  | Ok encoded =>
    do! client := mediaClient UploadMediaURL in
    match client with
    | Err err => Ret (Returns (Err err))
    | Ok _ =>
      call! reply := Do {| rq_Method := "GET"; rq_URL := UploadMediaURL; rq_Size := 0; rq_Command := ""; rq_MIME := "";
                           rq_Metadata := encoded; rq_Body := [] |} in
      match reply with
      | Err e => Ret (Returns (Err e))
      | Ok response =>
        if negb (success (rp_StatusCode response)) then Ret (Returns (Err [ErrText "provider media download failed"]))
        else if rp_ContentLength response >? maximum + 32 then Ret (Returns (Err [ErrMediaTooLarge]))
        else match readMediaBounded (rp_Body response) (rp_ReadErr response) (maximum + 32) with
        | Err e => Ret (Returns (Err e))
        | Ok encrypted =>
          match NewAESGCMHelper key with
          | Err _ => Ret (Returns (Err [ErrMediaInvalid]))
          | Ok cryptor =>
            match DecryptData cryptor encrypted with
            | Panics => Ret Panics
            | Returns (Err _) => Ret (Returns (Err [ErrMediaInvalid]))
            | Returns (Ok plaintext) =>
              if blen plaintext >? maximum then Ret (Returns (Err [ErrMediaTooLarge])) else Ret (Returns (Ok plaintext))
            end
          end
        end
      end
    end
  end.
End transfer.

(** ** Executions *)

Inductive TransferEvent :=
| EvPolicy (present : bool)
| EvClient (url : string) (answer : result bool)
| EvDo (request : MediaRequest) (answer : result MediaResponse)
| EvKey (key : bytes)
| EvNonces (nonces : nat -> bytes).

Definition transfer_log (X : Type) (c : TransferCall X) : X -> TransferEvent :=
  match c with
  | HasPolicy => EvPolicy
  | ClientFor url => EvClient url
  | Do request => EvDo request
  | GenerateKey => EvKey
  | Nonces => EvNonces
  end.

(** Every request goes to the target the policy gave a client for just before. *)
Fixpoint validated (allowed : option string) (t : list TransferEvent) : Prop :=
  match t with
  | [] => True
  | EvDo request _ :: t' => allowed = Some (rq_URL request) /\ validated None t'
  | EvClient url (Ok true) :: t' => validated (Some url) t'
  | _ :: t' => validated None t'
  end.

(** What the random source promises. *)
Definition sound_randomness (e : TransferEvent) : Prop :=
  match e with
  | EvKey key => length key = 32%nat
  | EvNonces nonces => forall i, length (nonces i) = 12%nat
  | _ => True
  end.

(** A part of a trace after which nothing is allowed that was not asked for. *)
Definition valid_part (t : list TransferEvent) : Prop :=
  forall allowed t', validated None t' -> validated allowed (t ++ t').

Lemma valid_part_nil : valid_part [].
Proof. intros allowed [|e t']; [done|]. cbn. destruct e as [| |request answer| |]; try done. by intros [? _]. Qed.

Lemma valid_part_app t1 t2 : valid_part t1 -> valid_part t2 -> valid_part (t1 ++ t2).
Proof. intros H1 H2 allowed t' Ht. rewrite <- app_assoc. by apply H1, H2. Qed.

Lemma valid_part_validated t : valid_part t -> validated None t.
Proof. intros H. rewrite <- (app_nil_r t). by apply H. Qed.

Lemma valid_part_policy b : valid_part [EvPolicy b].
Proof. by intros allowed t'. Qed.

Lemma valid_part_client url answer : valid_part [EvPolicy true; EvClient url answer].
Proof. intros allowed t' Ht. destruct answer as [[|]|]; cbn; [by apply valid_part_nil | done..]. Qed.

Lemma valid_part_request request answer :
  valid_part [EvPolicy true; EvClient (rq_URL request) (Ok true); EvDo request answer].
Proof. by intros allowed t' Ht. Qed.

Lemma valid_part_random key nonces : valid_part [EvPolicy true; EvKey key; EvNonces nonces].
Proof. by intros allowed t'. Qed.

Definition no_request (t : list TransferEvent) : Prop :=
  Forall (fun e => match e with EvDo _ _ => False | _ => True end) t.

Lemma mediaClient_trace url t r :
  executes transfer_log (mediaClient url) t r ->
  match r with
  | Ok _ => t = [EvPolicy true; EvClient url (Ok true)]
  | Err _ => valid_part t /\ no_request t
  end.
Proof.
  intros (policy & t1 & -> & H). destruct policy; cbn in H.
  - destruct H as (answer & t2 & -> & H).
    destruct answer as [[|]|e]; destruct H as [-> ->]; [done|..]; (split; [apply valid_part_client | by repeat constructor]).
  - destruct H as [-> ->]. split; [apply valid_part_policy | by repeat constructor].
Qed.

(** A program that asks for a client and then makes one request with it. *)
Lemma request_trace {A} request (fail : error -> A) (k : result MediaResponse -> transfer A) t a :
  executes transfer_log (prog_bind (mediaClient (rq_URL request)) (fun client =>
    match client with Err e => Ret (fail e) | Ok _ => Call (Do request) k end)) t a ->
  (valid_part t /\ no_request t /\ exists e, a = fail e) \/
  exists answer t', t = [EvPolicy true; EvClient (rq_URL request) (Ok true); EvDo request answer] ++ t' /\
    executes transfer_log (k answer) t' a.
Proof.
  intros (t1 & t2 & r & -> & H1%mediaClient_trace & H2)%executes_bind. destruct r as [[]|e].
  - destruct H2 as (answer & t' & -> & H2). right. exists answer, t'. by rewrite H1.
  - destruct H2 as [-> ->], H1 as [? ?]. left. rewrite app_nil_r. by eauto.
Qed.

Section traces.
Context (payload : result bytes) (metadata : string -> result bytes) (parse : bytes -> option string) (validURL : string -> bool).

Definition start_request (payload encrypted : bytes) (mimeType : string) : MediaRequest :=
  {| rq_Method := "POST"; rq_URL := UploadMediaURL; rq_Size := blen encrypted; rq_Command := "start";
     rq_MIME := mimeType; rq_Metadata := []; rq_Body := payload |}.

Definition finalize_request (uploadURL : string) (encrypted : bytes) (mimeType : string) : MediaRequest :=
  {| rq_Method := "POST"; rq_URL := uploadURL; rq_Size := blen encrypted; rq_Command := "upload, finalize";
     rq_MIME := mimeType; rq_Metadata := []; rq_Body := encrypted |}.

Lemma start_trace encrypted mimeType t r :
  executes transfer_log (startMediaUploadContext payload encrypted mimeType) t r -> valid_part t.
Proof.
  unfold startMediaUploadContext. destruct payload as [p|]; [|intros [-> _]; apply valid_part_nil].
  intros [(Ht & _)|(answer & t' & -> & H)]%(request_trace (start_request p encrypted mimeType) Err); [done|].
  apply valid_part_app; [apply (valid_part_request (start_request p encrypted mimeType))|].
  destruct answer as [response|]; [|destruct H as [-> _]; apply valid_part_nil].
  destruct (negb _); [destruct H as [-> _]; apply valid_part_nil|].
  destruct (_ =s ""); [destruct H as [-> _]; apply valid_part_nil|].
  apply executes_bind in H as (t1 & t2 & r' & -> & H1%mediaClient_trace & H2).
  destruct r' as [[]|]; destruct H2 as [-> _]; rewrite app_nil_r; [rewrite H1; apply valid_part_client | by destruct H1].
Qed.

Lemma finalize_trace uploadURL encrypted mimeType t r :
  executes transfer_log (finalizeMediaUploadContext parse validURL uploadURL encrypted mimeType) t r ->
  valid_part t /\ forall id, r = Ok id -> exists answer, EvDo (finalize_request uploadURL encrypted mimeType) answer ∈ t.
Proof.
  unfold finalizeMediaUploadContext. destruct (negb (validURL uploadURL)); [intros [-> ->]; split; [apply valid_part_nil | done]|].
  intros [(Ht & _ & e & ->)|(answer & t' & -> & H)]%(request_trace (finalize_request uploadURL encrypted mimeType) Err); [done|].
  assert (t' = []) as ->.
  { destruct answer as [response|]; [|by destruct H]. destruct (negb _); [by destruct H|].
    by destruct (readMediaBounded _ _ _); destruct H. }
  rewrite app_nil_r. split; [apply (valid_part_request (finalize_request uploadURL encrypted mimeType))|].
  intros id _. exists answer. by right; right; left.
Qed.

(** An upload: what it returned describes the request that carried the body. *)
Lemma upload_trace source declaredSize fileName mimeType maximum t r :
  executes transfer_log (UploadMediaContext payload parse validURL source declaredSize fileName mimeType maximum) t r ->
  valid_part t /\ forall content, r = Ok content ->
    exists data nonces uploadURL answer, source = Some (data, []) /\
      mc_Size content = blen data /\ blen data <= maximum <= maxGatewayMediaBytes /\ (0 <= declaredSize -> declaredSize = blen data) /\
      EvKey (mc_DecryptionKey content) ∈ t /\ EvNonces nonces ∈ t /\
      EvDo (finalize_request uploadURL (EncryptData (mc_DecryptionKey content) nonces data) mimeType) answer ∈ t.
Proof.
  unfold UploadMediaContext. destruct source as [[data readErr]|]; [|intros [-> ->]; split; [apply valid_part_nil | done]].
  destruct (_ || _) eqn:Eb; [intros [-> ->]; split; [apply valid_part_nil | done]|]. reflect_bools.
  intros (policy & t1 & -> & Hx). destruct policy; cbn [negb] in Hx; [|destruct Hx as [-> ->]; split; [apply valid_part_policy | done]].
  unfold readMediaBounded in Hx. destruct (blen data >? maximum) eqn:El; [destruct Hx as [-> ->]; split; [apply valid_part_policy | done]|].
  destruct readErr as [|x readErr]; cbn [is_nil negb] in Hx; [|destruct Hx as [-> ->]; split; [apply valid_part_policy | done]].
  destruct ((declaredSize >=? 0) && negb _) eqn:Ed; [destruct Hx as [-> ->]; split; [apply valid_part_policy | done]|].
  destruct Hx as (key & t2 & -> & Hx). unfold NewAESGCMHelper in Hx.
  destruct (negb (blen key =? 32)); [destruct Hx as [-> ->]; split; [by intros allowed t' | done]|].
  destruct Hx as (nonces & t3 & -> & Hx). apply executes_bind in Hx as (t4 & t5 & started & -> & Hx1%start_trace & Hx).
  change (transfer_log bool HasPolicy true :: transfer_log bytes GenerateKey key :: transfer_log (nat -> bytes) Nonces nonces :: t4 ++ t5)
    with ([EvPolicy true; EvKey key; EvNonces nonces] ++ (t4 ++ t5)).
  destruct started as [uploadURL|].
  2: { destruct Hx as [-> ->]. split; [|done]. apply valid_part_app; [apply valid_part_random|]. by rewrite app_nil_r. }
  apply executes_bind in Hx as (t6 & t7 & finished & -> & [Hx2 Hdo]%finalize_trace & Hx).
  assert (t7 = []) as -> by (destruct finished; by destruct Hx). rewrite app_nil_r.
  split; [apply valid_part_app; [apply valid_part_random | by apply valid_part_app]|].
  intros content ->. destruct finished as [id|]; [|by destruct Hx]. destruct Hx as [_ [= ->]].
  destruct (Hdo id eq_refl) as [answer Hin]. exists data, nonces, uploadURL, answer. cbn [mc_Size mc_DecryptionKey].
  reflect_bools. split_and!; try done; try lia.
  - by right; left.
  - by right; right; left.
  - do 3 right. apply elem_of_app. by right.
Qed.
End traces.

(** ** What was uploaded can be downloaded, within a limit *)

(** The length of an encrypted body of [n] bytes. *)
Definition encrypted_length (n : Z) : Z := 2 + n + 28 * chunk_count n 32740.

Section download.
Context (metadata : string -> result bytes) (mediaID : string) (key : bytes) (maximum : Z) (encoded : bytes).
Context (id_ok : ((mediaID =s "") || (len mediaID >? 1024)) = false) (key_ok : length key = 32%nat).
Context (maximum_ok : 1 <= maximum <= maxGatewayMediaBytes) (encoded_ok : metadata mediaID = Ok encoded).

Definition download_request : MediaRequest :=
  {| rq_Method := "GET"; rq_URL := UploadMediaURL; rq_Size := 0; rq_Command := ""; rq_MIME := ""; rq_Metadata := encoded; rq_Body := [] |}.

Definition download_result (response : MediaResponse) : call_result bytes :=
  if negb (success (rp_StatusCode response)) then Returns (Err [ErrText "provider media download failed"])
  else if rp_ContentLength response >? maximum + 32 then Returns (Err [ErrMediaTooLarge])
  else match readMediaBounded (rp_Body response) (rp_ReadErr response) (maximum + 32) with
  | Err e => Returns (Err e)
  | Ok encrypted =>
    match DecryptData key encrypted with
    | Panics => Panics
    | Returns (Err _) => Returns (Err [ErrMediaInvalid])
    | Returns (Ok plaintext) => if blen plaintext >? maximum then Returns (Err [ErrMediaTooLarge]) else Returns (Ok plaintext)
    end
  end.

Lemma download_trace t r :
  executes transfer_log (DownloadMediaContext metadata mediaID key maximum) t r ->
  valid_part t /\ forall request response, EvDo request (Ok response) ∈ t -> r = download_result response.
Proof.
  assert ((blen key =? 32) = true) as Hk by (apply Z.eqb_eq; unfold blen; lia).
  unfold DownloadMediaContext. rewrite id_ok, Hk, (proj2 (Z.ltb_ge _ _)) by lia.
  rewrite Z.gtb_ltb, (proj2 (Z.ltb_ge _ _)), encoded_ok by lia. cbn [negb orb].
  intros [(Ht & Hno & _)|(answer & t' & -> & H)]%(request_trace download_request (fun e => Returns (Err e))).
  { split; [done|]. intros request response Hin. unfold no_request in Hno. rewrite Forall_forall in Hno. by apply Hno in Hin. }
  unfold NewAESGCMHelper in H. rewrite Hk in H. cbn [negb] in H.
  assert (t' = [] /\ forall response, answer = Ok response -> r = download_result response) as [-> Hr].
  { destruct answer as [response|]; [|by destruct H]. cut (t' = [] /\ r = download_result response); [intros [? ?]; split; congruence|].
    cbn beta iota in H. unfold download_result. destruct (negb (success _)); [done|].
    destruct (rp_ContentLength response >? maximum + 32); [done|]. destruct (readMediaBounded _ _ _) as [encrypted|]; [|done].
    destruct (DecryptData key encrypted) as [[plaintext|]|]; [destruct (blen plaintext >? maximum)|..]; done. }
  rewrite app_nil_r. split; [apply (valid_part_request download_request)|]. intros request response Hin. apply Hr.
  rewrite !elem_of_cons in Hin. destruct Hin as [|[|[|Hin]]]; [done | done | congruence | by apply elem_of_nil in Hin].
Qed.

(** What a download of an encrypted body gives: the limit is on the encrypted body,
    at [maximum + 32]. *)
Lemma download_encrypted nonces data response :
  (forall i, length (nonces i) = 12%nat) ->
  success (rp_StatusCode response) = true -> rp_Body response = EncryptData key nonces data -> rp_ReadErr response = [] ->
  rp_ContentLength response <= blen (rp_Body response) ->
  download_result response =
    if (encrypted_length (blen data) <=? maximum + 32) && (blen data <=? maximum)
    then Returns (Ok data) else Returns (Err [ErrMediaTooLarge]).
Proof.
  intros Hn Hs Hbody Hread Hlen. unfold download_result. rewrite Hs. cbn [negb].
  assert (blen (rp_Body response) = encrypted_length (blen data)) as Hel by (rewrite Hbody; by apply length_EncryptData).
  unfold readMediaBounded. rewrite Hel, Hread, Hbody. cbn [is_nil negb]. rewrite Hel in Hlen.
  destruct (encrypted_length (blen data) <=? maximum + 32) eqn:El; reflect_bools; cbn [andb].
  - rewrite !Z.gtb_ltb. rewrite (proj2 (Z.ltb_ge (maximum + 32) (rp_ContentLength response))) by lia.
    rewrite (proj2 (Z.ltb_ge (maximum + 32) (encrypted_length _))), DecryptData_EncryptData by (done || lia).
    rewrite Z.gtb_ltb, Z.leb_antisym. by destruct (maximum <? blen data).
  - destruct (rp_ContentLength response >? maximum + 32); [done|]. by rewrite Z.gtb_ltb, (proj2 (Z.ltb_lt _ _)) by lia.
Qed.
End download.

(** C33. What the gateway uploads it can download again, within a bound on the
    encrypted size. Every request of an upload or a download goes to a target the
    request policy gave a client for just before. If an upload succeeded, it posted
    one encryption of exactly the bytes read, under the key it returned; and when a
    download under that key is answered with that body, it returns exactly these
    bytes if and only if the body fits in the download limit and the encryption of it
    (two bytes and 28 per 32740 bytes) in that limit plus 32, and reports the media
    as too large otherwise. *)
Theorem uploaded_media_downloads (payload : result bytes) (metadata : string -> result bytes) (parse : bytes -> option string)
  (validURL : string -> bool) (source : option (bytes * error)) (declaredSize maximum limit : Z) (fileName mimeType : string)
  (up down : list TransferEvent) (content : MediaContent) (r : call_result bytes) :
  executes transfer_log (UploadMediaContext payload parse validURL source declaredSize fileName mimeType maximum) up (Ok content) ->
  executes transfer_log (DownloadMediaContext metadata (mc_MediaID content) (mc_DecryptionKey content) limit) down r ->
  Forall sound_randomness up ->
  ((mc_MediaID content =s "") || (len (mc_MediaID content) >? 1024)) = false ->
  is_ok (metadata (mc_MediaID content)) = true -> 1 <= limit <= maxGatewayMediaBytes ->
  validated None up /\ validated None down /\
  exists data uploadURL body answer,
    source = Some (data, []) /\ blen data <= maximum /\
    EvDo (finalize_request uploadURL body mimeType) answer ∈ up /\
    forall request response,
      EvDo request (Ok response) ∈ down -> success (rp_StatusCode response) = true ->
      rp_Body response = body -> rp_ReadErr response = [] -> rp_ContentLength response <= blen body ->
      r = if (encrypted_length (blen data) <=? limit + 32) && (blen data <=? limit)
          then Returns (Ok data) else Returns (Err [ErrMediaTooLarge]).
Proof.
  intros [Hup Hcontent]%upload_trace Hdown Hrand Hid Hmeta Hlimit.
  destruct (Hcontent _ eq_refl) as (data & nonces & uploadURL & answer & Hsrc & _ & Hmax & _ & Hkey & Hnonces & Hdo).
  rewrite Forall_forall in Hrand. pose proof (Hrand _ Hkey) as Hklen. pose proof (Hrand _ Hnonces) as Hnlen. cbn in Hklen, Hnlen.
  destruct (metadata (mc_MediaID content)) as [encoded|] eqn:Em; [|done].
  apply (download_trace metadata _ _ _ encoded Hid Hklen Hlimit Em) in Hdown as [Hdown Hr].
  split; [by apply valid_part_validated|]. split; [by apply valid_part_validated|].
  exists data, uploadURL, (EncryptData (mc_DecryptionKey content) nonces data), answer. split_and!; [done | lia | done|].
  intros request response Hin Hs Hbody Hread Hlen. rewrite (Hr _ _ Hin).
  eapply download_encrypted; try done. by rewrite Hbody.
Qed.

(** ** A picture of three bytes *)

Definition example_key : bytes := repeat (byte_of_Z 7) 32.
Definition example_nonces : nat -> bytes := fun _ => repeat (byte_of_Z 9) 12.
Definition example_data : bytes := bytes_of "abc".

Definition example_response (request : MediaRequest) : MediaResponse := {|
  rp_StatusCode := 200; rp_ContentLength := -1; rp_UploadURL := "https://upload.example/1";
  rp_Body := if rq_Method request =s "GET" then EncryptData example_key example_nonces example_data else bytes_of "!";
  rp_ReadErr := [] |}.

Definition example_answer (X : Type) (c : TransferCall X) (s : unit) : unit * X :=
  (s, match c in TransferCall X return X with
      | HasPolicy => true
      | ClientFor _ => Ok true
      | Do request => Ok (example_response request)
      | GenerateKey => example_key
      | Nonces => example_nonces
      end).

Definition example_upload : transfer (result MediaContent) :=
  UploadMediaContext (Ok []) (fun _ => Some "media-1") (fun _ => true) (Some (example_data, [])) 3 "a.png" "image/png" 100.
Definition example_download : transfer (call_result bytes) := DownloadMediaContext (fun _ => Ok []) "media-1" example_key 100.
Definition example_content : MediaContent := {|
  mc_Format := 3; mc_MediaID := "media-1"; mc_MediaName := "a.png"; mc_Size := 3; mc_DecryptionKey := example_key; mc_MimeType := "image/png" |}.

Lemma transcript_runs {A} (p : transfer A) :
  executes transfer_log p (transcript transfer_log example_answer p tt).1 (transcript transfer_log example_answer p tt).2.
Proof. pose proof (transcript_executes transfer_log example_answer p tt) as H. by destruct (transcript _ _ _ _). Qed.

Lemma example_uploads : executes transfer_log example_upload (transcript transfer_log example_answer example_upload tt).1 (Ok example_content).
Proof.
  pose proof (transcript_runs example_upload) as H.
  assert ((transcript transfer_log example_answer example_upload tt).2 = Ok example_content) as Hr by (vm_compute; reflexivity).
  by rewrite Hr in H.
Qed.

(** It comes back; a picture of 25 MiB, which is within the limit, would not. *)
Lemma uploaded_media_downloads_witness :
  (transcript transfer_log example_answer example_download tt).2 = Returns (Ok example_data) /\
  (encrypted_length maxGatewayMediaBytes <=? maxGatewayMediaBytes + 32) = false.
Proof.
  split; [|vm_compute; reflexivity].
  destruct (uploaded_media_downloads (Ok []) (fun _ => Ok []) (fun _ => Some "media-1") (fun _ => true) (Some (example_data, [])) 3 100 100
    "a.png" "image/png" _ (transcript transfer_log example_answer example_download tt).1 example_content
    (transcript transfer_log example_answer example_download tt).2 example_uploads (transcript_runs example_download))
    as (_ & _ & data & uploadURL & body & answer & Hsrc & _ & Hin & Hdown).
  - apply transcript_forall. by intros X [].
  - reflexivity.
  - reflexivity.
  - split; vm_compute; discriminate.
  - injection Hsrc as <-. set (up := (transcript transfer_log example_answer example_upload tt).1) in Hin. vm_compute in up.
    unfold up in Hin. rewrite !elem_of_cons, elem_of_nil in Hin.
    repeat (destruct Hin as [Hin|Hin]; [try discriminate Hin|]); [|done]. injection Hin as _ _ Hbody _.
    rewrite (Hdown (download_request []) (example_response (download_request []))).
    + vm_compute. reflexivity.
    + replace (transcript transfer_log example_answer example_download tt).1 with
        [EvPolicy true; EvClient UploadMediaURL (Ok true); EvDo (download_request []) (Ok (example_response (download_request [])))]
        by (vm_compute; reflexivity).
      apply list_elem_of_further, list_elem_of_further, list_elem_of_here.
    + reflexivity.
    + rewrite Hbody. vm_compute. reflexivity.
    + reflexivity.
    + rewrite Hbody. vm_compute. discriminate.
Defined.
