(* ===== verification/Sender.v ===== *)
(** * Sending and fetching through the active provider
    (internal/gateway/provider/gmessages/messaging_runtime.go)

    [ActorSender.SendOnce], what the dispatcher hands a claimed message to, and
    [ActorMediaFetcher.Fetch], what the media worker fetches with. Both run an
    operation inside the actor of the connection: programs of calls to the
    executor, the provider's client and the stores. *)

From S2P Require Import Prelude GoText Crypto GoEncoding Domain Messaging Session EventContract Store DispatchStore Dispatch Rely Pool Backoff Actor Ingress MediaStore MediaCipher MediaTransfer MediaIngest.

(** ** Data *)

Record Conversation := { cv_ConversationID : string; cv_DefaultOutgoingID : string; cv_IsGroupChat : bool }.


Inductive MessageInfo := InfoText (content : string) | InfoMedia (content : MediaContent).

(** [SendMessageRequest]: the conversation and the temporary identifier appear in
    the request and in its payload. *)
Record SendMessageRequest := {
  sr_ConversationID : string; sr_TmpID : string; sr_ParticipantID : string; sr_MessageInfo : list MessageInfo }.


(** An operation that was admitted: the ownership its context carries, and whether
    the provider has a messaging client. *)
Record Operation := { op_Ownership : option ProviderOwnership; op_HasClient : bool }.

(** [Admit] and [Await] are [Execute]: it refuses the operation with an error, or waits
    for it. [Await], asked between any two acts of the operation, is whether the caller
    gives up there, with an error of its own ([Some]); the operation then runs on by
    itself. [Assign] is an assignment to the variable [result] the operation shares with
    the caller. *)
Inductive SendCall : Type -> Type :=
| GetLine (tenantID connectionID lineID : string) : SendCall (result Line)
| Admit (key : Key) : SendCall (Operation + sentinel)
| Await : SendCall (option sentinel)
| Assign (result : ProviderSendResult) : SendCall unit
| GetConversation (conversationID : string) : SendCall (result (option Conversation))
| GetOrCreateConversation (number : string) : SendCall (result (Z * option Conversation))
| RecordRoute (tenantID connectionID messageID conversationID outgoingID : string) (isGroup : bool) (ownerID : string)
    (fencingToken : Z) : SendCall (result unit)
| OpenMedia (tenantID mediaID : string) : SendCall (result (Body * MediaRecord))
| CloseMedia : SendCall (result unit)
| UploadMedia (reader : Body) (declaredSize : Z) (fileName mimeType : string) (maximum : Z) : SendCall (result MediaContent)
| SendMessage (request : SendMessageRequest) : SendCall (result Z)
| OpenKey (scope : Scope) (envelope : Session.Envelope) : SendCall (result bytes)
| DownloadMedia (mediaID : string) (key : bytes) (maximum : Z) : SendCall (result bytes).

Definition sending (A : Type) : Type := prog SendCall A.

Definition media_limit (configured : Z) : result Z :=
  let maximum := if configured =? 0 then DefaultMaxBytes else configured in
  if (maximum <? 1) || (maximum >? HardMaxBytes) then Err [ErrTooLarge] else Ok maximum.

(** An [ActorSender] is its media limit. *)
Definition NewActorSender (dependencies : bool) (MaxMediaBytes : Z) : result Z :=
  if negb dependencies then Err [ErrInvalidCommand] else media_limit MaxMediaBytes.

Definition NewActorMediaFetcher (dependencies : bool) (MaxBytes : Z) : result Z :=
  if negb dependencies then Err [ErrInvalidIdentifier] else media_limit MaxBytes.

(** ** Sending *)













(** ** Fetching media *)

Definition base64url_value (c : ascii) : option Z :=
  let v := byte_val c in
  if between 65 90 v then Some (v - 65) else if between 97 122 v then Some (v - 71)
  else if between 48 57 v then Some (v + 4) else if v =? 45 then Some 62 else if v =? 95 then Some 63 else None.

(** [base64.RawURLEncoding.DecodeString]; newlines are skipped. *)
Fixpoint rawurl_decode (data : bytes) : option bytes :=
  match data with
  | [] => Some []
  | [_] => None
  | [a; b] =>
    match base64url_value a, base64url_value b with
    | Some x, Some y => Some [byte_of_Z ((x * 64 + y) / 16)]
    | _, _ => None
    end
  | [a; b; c] =>
    match base64url_value a, base64url_value b, base64url_value c with
    | Some x, Some y, Some z => Some [byte_of_Z ((x * 4096 + y * 64 + z) / 1024); byte_of_Z ((x * 4096 + y * 64 + z) / 4)]
    | _, _, _ => None
    end
  | a :: b :: c :: d :: rest =>
    match base64url_value a, base64url_value b, base64url_value c, base64url_value d, rawurl_decode rest with
    | Some x, Some y, Some z, Some w, Some out =>
      let v := x * 262144 + y * 4096 + z * 64 + w in
      Some (byte_of_Z (v / 65536) :: byte_of_Z (v / 256) :: byte_of_Z v :: out)
    | _, _, _, _, _ => None
    end
  end.

Definition RawURLEncoding_DecodeString (s : string) : option bytes :=
  rawurl_decode (List.filter (fun c => negb ((byte_val c =? 10) || (byte_val c =? 13))) (bytes_of s)).

Definition media_provider : string := "gmessages-media".

(** The operation beside the caller; what it fetched is discarded with an error. *)
Fixpoint execute_fetch (p : sending (result FetchContent)) : sending (result FetchContent) :=
  match p with
  | Ret r => call! abandoned := Await in Ret (match abandoned with Some e => Err [e] | None => r end)
  | Call c k =>
    call! abandoned := Await in
    match abandoned with
    | Some e => do! _ := Call c k in Ret (Err [e])
    | None => call! x := c in execute_fetch (k x)
    end
  end.

Definition fetch_operation (maxBytes : Z) (job : FetchJob) (mediaID : bytes) (operation : Operation) : sending (result FetchContent) :=
  if negb (op_HasClient operation) then Ret (Err [ErrText "active provider does not support media"])
  else
    call! opened := OpenKey {| sc_TenantID := ff_TenantID job; sc_ConnectionID := ff_ConnectionID job;
                               sc_Provider := media_provider |} (ff_KeyEnvelope job) in
    match opened with
    | Err e => Ret (Err e)
    | Ok key =>
      call! downloaded := DownloadMedia (string_of mediaID) key maxBytes in
      match downloaded with
      | Err e => Ret (Err e)
      | Ok data => Ret (Ok {| fc_Body := Some {| bd_Data := data; bd_Err := [] |}; fc_ContentLength := blen data;
                              fc_MIMEType := ff_DeclaredMIME job; fc_Filename := ff_DisplayFilename job |})
      end
    end.

Definition ActorMediaFetcher_Fetch (maxBytes : Z) (job : FetchJob) : sending (result FetchContent) :=
  let found := String.prefix "gmessages:" (ff_Locator job) in
  let encodedMediaID := if found then string_of (drop 10 (bytes_of (ff_Locator job))) else ff_Locator job in
  match RawURLEncoding_DecodeString encodedMediaID with
  | None => Ret (Err [ErrUnsafeURL])
  | Some mediaID =>
    if (ff_TenantID job =s "") || (ff_ConnectionID job =s "") || negb found || (encodedMediaID =s "") ||
       (blen mediaID =? 0) || (blen mediaID >? 1024) || (en_Provider (ff_KeyEnvelope job) <>s media_provider)
    then Ret (Err [ErrUnsafeURL])
    else
      call! admitted := Admit {| key_TenantID := ff_TenantID job; key_ConnectionID := ff_ConnectionID job |} in
      match admitted with
      | inr e => Ret (Err [e])
      | inl operation => execute_fetch (fetch_operation maxBytes job mediaID operation)
      end
  end.

(** ** Executions *)

Inductive SendEvent :=
| EvLine (tenantID connectionID lineID : string) (answer : result Line)
| EvAdmit (key : Key) (answer : Operation + sentinel)
| EvAwait (answer : option sentinel)
| EvAssign (result : ProviderSendResult)
| EvGetConversation (conversationID : string) (answer : result (option Conversation))
| EvCreate (number : string) (answer : result (Z * option Conversation))
| EvRoute (tenantID connectionID messageID conversationID outgoingID : string) (isGroup : bool) (ownerID : string)
    (fencingToken : Z) (answer : result unit)
| EvOpen (tenantID mediaID : string) (answer : result (Body * MediaRecord))
| EvClose (answer : result unit)
| EvUpload (reader : Body) (declaredSize : Z) (fileName mimeType : string) (maximum : Z) (answer : result MediaContent)
| EvSend (request : SendMessageRequest) (answer : result Z)
| EvKeyOpened (scope : Scope) (envelope : Session.Envelope) (answer : result bytes)
| EvDownload (mediaID : string) (key : bytes) (maximum : Z) (answer : result bytes).



Definition opened (t : list SendEvent) : list string :=
  omap (fun e => match e with EvOpen _ m _ => Some m | _ => None end) t.
















(** *** The operation beside its caller *)





















(** ** A message with one attachment to a new recipient *)










