(* ===== verification/ApiJson.v ===== *)
(** * Strict decoding of request bodies (encoding/json as internal/gateway/httpapi uses it)

    [json.Decoder.Decode] reads one value from a body that may be cut off at a
    limit: a scan ends with a value, with an error, or with the input. Decoding
    into a structure with unknown fields disallowed matches names exactly or with
    case folded, lets a later member override an earlier one, ignores [null] for a
    string, and fails on any other type. (Nesting beyond 10000 levels, which the
    library refuses, is an error here by its type.) *)

From S2P Require Import Prelude GoText Crypto GoEncoding Domain Messaging Session EventContract Store Kafka.

Inductive jval :=
| VNull
| VBool (b : bool)
| VNumber
| VString (s : string)
| VArray (l : list jval)
| VObject (members : list (string * jval)).

Inductive parse (A : Type) :=
| Parsed (a : A) (rest : bytes)
| Incomplete
| Malformed.
Arguments Parsed {A} _ _.
Arguments Incomplete {A}.
Arguments Malformed {A}.

Definition parse_bind {A B} (p : parse A) (k : A -> bytes -> parse B) : parse B :=
  match p with Parsed a rest => k a rest | Incomplete => Incomplete | Malformed => Malformed end.

(** ** Scanning *)

Definition is_hex (c : ascii) : bool := match hex_digit c with Some _ => true | None => false end.

Fixpoint scan_hex (n : nat) (b : bytes) : parse bytes :=
  match n with
  | O => Parsed [] b
  | S n =>
    match b with
    | [] => Incomplete
    | c :: b => if is_hex c then parse_bind (scan_hex n b) (fun h rest => Parsed (c :: h) rest) else Malformed
    end
  end.

(** The raw contents of a string literal after its opening quote. *)
Fixpoint scan_literal (fuel : nat) (b : bytes) : parse bytes :=
  match fuel with
  | O => Incomplete
  | S fuel =>
    match b with
    | [] => Incomplete
    | c :: rest =>
      if is_byte c 34 then Parsed [] rest
      else if byte_val c <? 32 then Malformed
      else if negb (is_byte c 92) then parse_bind (scan_literal fuel rest) (fun raw r => Parsed (c :: raw) r)
      else match rest with
      | [] => Incomplete
      | e :: rest =>
        if is_byte e 117 then
          parse_bind (scan_hex 4 rest) (fun h r =>
            parse_bind (scan_literal fuel r) (fun raw r' => Parsed (c :: e :: h ++ raw) r'))
        else match simple_escape e with
        | None => Malformed
        | Some _ => parse_bind (scan_literal fuel rest) (fun raw r => Parsed (c :: e :: raw) r)
        end
      end
    end
  end.

Definition hex_rune (r : Z) : Z :=
  if between 48 57 r then r - 48 else if between 97 102 r then r - 87 else r - 55.

Definition simple_rune (r : Z) : Z :=
  if r =? 98 then 8 else if r =? 102 then 12 else if r =? 110 then 10 else if r =? 114 then 13 else if r =? 116 then 9 else r.

Definition unit_value (a b c d : Z) : Z := ((hex_rune a * 16 + hex_rune b) * 16 + hex_rune c) * 16 + hex_rune d.

(** [unquote] of the runes of a literal, invalid UTF-8 having become U+FFFD. *)
Fixpoint unquote (rs : list Z) : list Z :=
  match rs with
  | [] => []
  | 92 :: 117 :: a :: b :: c :: d :: rest =>
    let r := unit_value a b c d in
    if high_surrogate r then
      match rest with
      | 92 :: 117 :: e :: f :: g :: h :: rest' =>
        let l := unit_value e f g h in
        if low_surrogate l then (0x10000 + (r - 0xD800) * 1024 + (l - 0xDC00)) :: unquote rest' else RuneError :: unquote rest
      | _ => RuneError :: unquote rest
      end
    else if low_surrogate r then RuneError :: unquote rest
    else r :: unquote rest
  | 92 :: e :: rest => simple_rune e :: unquote rest
  | r :: rest => r :: unquote rest
  end.

Definition literal (raw : bytes) : string := string_of_runes (unquote (runes (string_of raw))).

Definition scan_string (b : bytes) : parse string :=
  parse_bind (scan_literal (S (length b)) b) (fun raw rest => Parsed (literal raw) rest).

(** A literal word such as [null]. *)
Fixpoint scan_word (word b : bytes) : parse unit :=
  match word, b with
  | [], _ => Parsed tt b
  | _ :: _, [] => Incomplete
  | w :: word, c :: b => if is_byte c (byte_val w) then scan_word word b else Malformed
  end.

Fixpoint scan_digits (b : bytes) : bytes :=
  match b with c :: rest => if between 48 57 (byte_val c) then scan_digits rest else b | [] => [] end.

(** At least one digit. *)
Definition scan_some_digits (b : bytes) : parse unit :=
  match b with
  | [] => Incomplete
  | c :: rest => if between 48 57 (byte_val c) then Parsed tt (scan_digits rest) else Malformed
  end.

Definition scan_integer (b : bytes) : parse unit :=
  match b with
  | [] => Incomplete
  | c :: rest => if is_byte c 48 then Parsed tt rest else scan_some_digits b
  end.

Definition scan_fraction (b : bytes) : parse unit :=
  match b with c :: rest => if is_byte c 46 then scan_some_digits rest else Parsed tt b | [] => Parsed tt b end.

Definition scan_exponent (b : bytes) : parse unit :=
  match b with
  | c :: rest =>
    if is_byte c 101 || is_byte c 69 then
      match rest with
      | s :: rest' => if is_byte s 43 || is_byte s 45 then scan_some_digits rest' else scan_some_digits rest
      | [] => Incomplete
      end
    else Parsed tt b
  | [] => Parsed tt b
  end.

Definition scan_number (b : bytes) : parse unit :=
  let unsigned := match b with c :: rest => if is_byte c 45 then rest else b | [] => b end in
  parse_bind (scan_integer unsigned) (fun _ r =>
    parse_bind (scan_fraction r) (fun _ r' => scan_exponent r')).

(** A value; [fuel] is twice the length of the input and more, which is always enough
    (see [scan_value_fuel]). *)
Fixpoint scan_value (fuel : nat) (b : bytes) : parse jval :=
  match fuel with
  | O => Incomplete
  | S fuel =>
    match skip_space b with
    | [] => Incomplete
    | c :: rest =>
      if is_byte c 34 then parse_bind (scan_string rest) (fun s r => Parsed (VString s) r)
      else if is_byte c 123 then
        match skip_space rest with
        | [] => Incomplete
        | d :: rest' => if is_byte d 125 then Parsed (VObject []) rest'
                        else parse_bind (scan_members fuel rest) (fun ms r => Parsed (VObject ms) r)
        end
      else if is_byte c 91 then
        match skip_space rest with
        | [] => Incomplete
        | d :: rest' => if is_byte d 93 then Parsed (VArray []) rest'
                        else parse_bind (scan_elements fuel rest) (fun vs r => Parsed (VArray vs) r)
        end
      else if is_byte c 110 then parse_bind (scan_word (bytes_of "ull") rest) (fun _ r => Parsed VNull r)
      else if is_byte c 116 then parse_bind (scan_word (bytes_of "rue") rest) (fun _ r => Parsed (VBool true) r)
      else if is_byte c 102 then parse_bind (scan_word (bytes_of "alse") rest) (fun _ r => Parsed (VBool false) r)
      else if is_byte c 45 || between 48 57 (byte_val c) then parse_bind (scan_number (c :: rest)) (fun _ r => Parsed VNumber r)
      else Malformed
    end
  end
with scan_members (fuel : nat) (b : bytes) : parse (list (string * jval)) :=
  match fuel with
  | O => Incomplete
  | S fuel =>
    match skip_space b with
    | [] => Incomplete
    | q :: rest =>
      if negb (is_byte q 34) then Malformed
      else parse_bind (scan_string rest) (fun key r =>
        match skip_space r with
        | [] => Incomplete
        | c :: r =>
          if negb (is_byte c 58) then Malformed
          else parse_bind (scan_value fuel r) (fun v r =>
            match skip_space r with
            | [] => Incomplete
            | c :: r =>
              if is_byte c 125 then Parsed [(key, v)] r
              else if is_byte c 44 then parse_bind (scan_members fuel r) (fun ms r' => Parsed ((key, v) :: ms) r')
              else Malformed
            end)
        end)
    end
  end
with scan_elements (fuel : nat) (b : bytes) : parse (list jval) :=
  match fuel with
  | O => Incomplete
  | S fuel =>
    parse_bind (scan_value fuel b) (fun v r =>
      match skip_space r with
      | [] => Incomplete
      | c :: r =>
        if is_byte c 93 then Parsed [v] r
        else if is_byte c 44 then parse_bind (scan_elements fuel r) (fun vs r' => Parsed (v :: vs) r')
        else Malformed
      end)
  end.

Definition json_fuel (b : bytes) : nat := (2 * length b + 2)%nat.

(** ** Decoding *)

Inductive decoded (A : Type) := Decoded (a : A) | DecodeInvalid | DecodeTooLarge.
Arguments Decoded {A} _.
Arguments DecodeInvalid {A}.
Arguments DecodeTooLarge {A}.

Definition scalar (v : jval) : bool := match v with VArray _ | VObject _ => false | _ => true end.

(** [decoder.Decode(target)] and then the check for EOF, on a body read through a
    [MaxBytesReader]: what the body holds beyond the limit is an error of its own, and
    so is a reader that fails ([fails]) instead of ending. A scalar is complete only
    when something follows it or the body ends. *)
Definition decode_body {A} (limit : Z) (body : bytes) (fails : bool) (assign : jval -> option A) : decoded A :=
  let cut := blen body >? limit in
  let input := take (Z.to_nat limit) body in
  let short := if cut then DecodeTooLarge else DecodeInvalid in
  match scan_value (json_fuel input) input with
  | Malformed => DecodeInvalid
  | Incomplete => short
  | Parsed v rest =>
    if scalar v && is_nil rest && (cut || fails) then short
    else match assign v with
    | None => DecodeInvalid
    | Some a =>
      match skip_space rest with
      | [] => if cut || fails then short else Decoded a
      | trailing =>
        match scan_value (json_fuel trailing) trailing with
        | Incomplete => short
        | Parsed v [] => if scalar v then short else DecodeInvalid
        | _ => DecodeInvalid
        end
      end
    end
  end.

(** The field a member is for. *)
Definition member_field (fields : list string) (key : string) : option string :=
  match find (fun f => f =s key) fields with
  | Some f => Some f
  | None => find (fun f => bool_decide (fold_name (bytes_of f) = fold_name (bytes_of key))) fields
  end.

(** A structure: [set field value] assigns one member, [None] on a type mismatch. *)
Fixpoint assign_members {A} (fields : list string) (set : string -> jval -> A -> option A) (members : list (string * jval)) (a : A)
    : option A :=
  match members with
  | [] => Some a
  | (key, v) :: rest =>
    match member_field fields key with
    | None => None
    | Some f => match set f v a with Some a => assign_members fields set rest a | None => None end
    end
  end.

Definition assign_struct {A} (fields : list string) (set : string -> jval -> A -> option A) (zero : A) (v : jval) : option A :=
  match v with
  | VObject members => assign_members fields set members zero
  | VNull => Some zero
  | _ => None
  end.

(** A field of type [string], [[]string] and [map[string]string]. *)
Definition assign_string (v : jval) (old : string) : option string :=
  match v with VString s => Some s | VNull => Some old | _ => None end.

Fixpoint assign_elements (old : list string) (vs : list jval) : option (list string) :=
  match vs with
  | [] => Some []
  | v :: rest =>
    match assign_string v (default "" (head old)), assign_elements (tail old) rest with
    | Some s, Some l => Some (s :: l)
    | _, _ => None
    end
  end.

Definition assign_strings (v : jval) (old : list string) : option (list string) :=
  match v with VArray vs => assign_elements old vs | VNull => Some [] | _ => None end.

Fixpoint assign_entries (members : list (string * jval)) (m : gmap string string) : option (gmap string string) :=
  match members with
  | [] => Some m
  | (key, v) :: rest => match assign_string v "" with Some s => assign_entries rest (<[key := s]> m) | None => None end
  end.

Definition assign_map (v : jval) (old : option (gmap string string)) : option (option (gmap string string)) :=
  match v with
  | VObject members => match assign_entries members (default ∅ old) with Some m => Some (Some m) | None => None end
  | VNull => Some None
  | _ => None
  end.

(** [json.Unmarshal] of a raw member into a string: [None] is an error, [null] leaves
    the empty string. *)
Definition raw_string (v : jval) : option string := assign_string v "".

(** ** The fuel is enough *)

Lemma length_skip_space b : (length (skip_space b) <= length b)%nat.
Proof. induction b as [|c b IH]; [done|]. cbn. destruct (json_space c); cbn; lia. Qed.

Lemma parse_bind_Parsed {A B} (p : parse A) (k : A -> bytes -> parse B) b rest :
  parse_bind p k = Parsed b rest -> exists a r, p = Parsed a r /\ k a r = Parsed b rest.
Proof. destruct p; [|done..]. by eauto. Qed.

(** What is left after a token. *)
Definition shrinks {A} (strict : bool) (b : bytes) (p : parse A) : Prop :=
  forall a rest, p = Parsed a rest -> (length rest + (if strict then 1 else 0) <= length b)%nat.

Lemma shrinks_bind {A B} s1 s2 b (p : parse A) (k : A -> bytes -> parse B) :
  shrinks s1 b p -> (forall a r, shrinks s2 r (k a r)) -> shrinks (s1 || s2) b (parse_bind p k).
Proof.
  intros Hp Hk a rest (a1 & r & H1 & H2)%parse_bind_Parsed. apply Hp in H1. apply Hk in H2. destruct s1, s2; cbn in *; lia.
Qed.

Lemma shrinks_ret {A} (a : A) b : shrinks false b (Parsed a b).
Proof. intros a' rest [= _ <-]. lia. Qed.

Lemma scan_hex_shrinks n b : shrinks false b (scan_hex n b).
Proof.
  revert b. induction n as [|n IH]; intros b; [apply shrinks_ret|]. cbn. destruct b as [|c b]; [done|]. destruct (is_hex c); [|done].
  intros a rest (h & r & H1 & [= _ <-])%parse_bind_Parsed. apply IH in H1. cbn in *. lia.
Qed.

Lemma scan_literal_shrinks fuel b : shrinks true b (scan_literal fuel b).
Proof.
  revert b. induction fuel as [|fuel IH]; intros b; [done|]. cbn [scan_literal]. destruct b as [|c b]; [done|].
  destruct (is_byte c 34). { intros a rest [= _ <-]. cbn. lia. }
  destruct (_ <? 32); [done|]. destruct (negb _).
  { intros a rest (h & r & H1 & [= _ <-])%parse_bind_Parsed. apply IH in H1. cbn in *. lia. }
  destruct b as [|e b]; [done|]. destruct (is_byte e 117).
  - intros a rest (h & r & H1 & (h' & r' & H2 & [= _ <-])%parse_bind_Parsed)%parse_bind_Parsed.
    apply scan_hex_shrinks in H1. apply IH in H2. cbn in *. lia.
  - destruct (simple_escape e); [|done]. intros a rest (h & r & H1 & [= _ <-])%parse_bind_Parsed. apply IH in H1. cbn in *. lia.
Qed.

Lemma scan_string_shrinks b : shrinks true b (scan_string b).
Proof. intros a rest (h & r & H1 & [= _ <-])%parse_bind_Parsed. by eapply scan_literal_shrinks. Qed.

Lemma scan_word_shrinks word b : shrinks false b (scan_word word b).
Proof.
  revert b. induction word as [|w word IH]; intros b; cbn; [apply shrinks_ret|]. destruct b as [|c b]; [done|]. destruct (is_byte c _); [|done].
  intros a rest H. apply IH in H. cbn in *. lia.
Qed.

Lemma length_scan_digits b : (length (scan_digits b) <= length b)%nat.
Proof. induction b as [|c b IH]; [done|]. cbn. destruct (between _ _ _); cbn; lia. Qed.

Lemma scan_some_digits_shrinks b : shrinks true b (scan_some_digits b).
Proof.
  destruct b as [|c b]; [done|]. cbn. destruct (between _ _ _); [|done]. intros a rest [= _ <-]. pose proof (length_scan_digits b). cbn. lia.
Qed.

Lemma scan_number_shrinks b : shrinks true b (scan_number b).
Proof.
  unfold scan_number. set (u := match b with c :: rest => if is_byte c 45 then rest else b | [] => b end).
  assert (length u <= length b)%nat as Hu by (unfold u; destruct b as [|c b]; [done|]; destruct (is_byte c 45); cbn; lia).
  assert (shrinks true u (scan_integer u)) as Hi.
  { unfold scan_integer. destruct u as [|c u']; [done|]. destruct (is_byte c 48); [|apply scan_some_digits_shrinks].
    intros a rest [= _ <-]. cbn. lia. }
  assert (forall r, shrinks false r (scan_fraction r)) as Hf.
  { intros r. unfold scan_fraction. destruct r as [|c r]; [apply shrinks_ret|]. destruct (is_byte c 46); [|apply shrinks_ret].
    intros a rest H%scan_some_digits_shrinks. cbn in *. lia. }
  assert (forall r, shrinks false r (scan_exponent r)) as He.
  { intros r. unfold scan_exponent. destruct r as [|c r]; [apply shrinks_ret|]. destruct (_ || _); [|apply shrinks_ret].
    destruct r as [|s r]; [done|]. destruct (_ || _); intros a rest H%scan_some_digits_shrinks; cbn in *; lia. }
  intros a rest (a1 & r1 & H1 & (a2 & r2 & H2 & H3)%parse_bind_Parsed)%parse_bind_Parsed.
  apply Hi in H1. apply Hf in H2. apply He in H3. cbn in *. lia.
Qed.

Lemma scan_shrinks fuel :
  (forall b, shrinks true b (scan_value fuel b)) /\ (forall b, shrinks true b (scan_members fuel b)) /\
  (forall b, shrinks true b (scan_elements fuel b)).
Proof.
  induction fuel as [|fuel (IHv & IHm & IHe)]; [done|]. split_and!; intros b.
  - cbn [scan_value]. pose proof (length_skip_space b) as Hb. destruct (skip_space b) as [|c rest]; [done|]. cbn in Hb.
    pose proof (length_skip_space rest) as Hr.
    assert (forall A (p : parse A) s, shrinks s rest p -> forall B (f : A -> B), shrinks true b (parse_bind p (fun a r => Parsed (f a) r))) as Hsub.
    { intros A p s Hp B f a r (a' & r' & H1 & [= _ <-])%parse_bind_Parsed. apply Hp in H1. cbn. destruct s; lia. }
    destruct (is_byte c 34); [eapply (Hsub _ _ true), scan_string_shrinks|].
    destruct (is_byte c 123).
    { destruct (skip_space rest) as [|d rest'] eqn:E; [done|]. destruct (is_byte d 125); [intros a r [= _ <-]; cbn in *; lia|].
      eapply (Hsub _ _ true), IHm. }
    destruct (is_byte c 91).
    { destruct (skip_space rest) as [|d rest'] eqn:E; [done|]. destruct (is_byte d 93); [intros a r [= _ <-]; cbn in *; lia|].
      eapply (Hsub _ _ true), IHe. }
    do 3 (case_match; [eapply (Hsub _ _ false), scan_word_shrinks|]).
    destruct (_ || _); [|done]. intros a r (a' & r' & Hn & [= _ <-])%parse_bind_Parsed. apply scan_number_shrinks in Hn. cbn in *. lia.
  - cbn [scan_members]. pose proof (length_skip_space b) as Hb. destruct (skip_space b) as [|q rest]; [done|]. cbn in Hb.
    destruct (negb _); [done|]. intros a r (key & r1 & H1 & H)%parse_bind_Parsed. apply scan_string_shrinks in H1.
    pose proof (length_skip_space r1) as Hr1. destruct (skip_space r1) as [|c r2]; [done|]. destruct (negb _); [done|].
    apply parse_bind_Parsed in H as (v & r3 & H3%IHv & H). pose proof (length_skip_space r3) as Hr3.
    destruct (skip_space r3) as [|d r4]; [done|]. cbn in *. destruct (is_byte d 125); [injection H as _ <-; lia|].
    destruct (is_byte d 44); [|done]. apply parse_bind_Parsed in H as (ms & r5 & H5%IHm & [= _ <-]). cbn in *. lia.
  - cbn [scan_elements]. intros a r (v & r3 & H3%IHv & H)%parse_bind_Parsed. pose proof (length_skip_space r3) as Hr3.
    destruct (skip_space r3) as [|d r4]; [done|]. cbn in *. destruct (is_byte d 93); [injection H as _ <-; lia|].
    destruct (is_byte d 44); [|done]. apply parse_bind_Parsed in H as (ms & r5 & H5%IHe & [= _ <-]). cbn in *. lia.
Qed.

Lemma parse_bind_ext {A B} (p q : parse A) (k k' : A -> bytes -> parse B) :
  p = q -> (forall a r, p = Parsed a r -> k a r = k' a r) -> parse_bind p k = parse_bind q k'.
Proof. intros <- H. destruct p; [|done..]. by apply H. Qed.

Lemma scan_fuel_enough f1 : forall f2,
  (forall b, 2 * length b + 2 <= f1 -> 2 * length b + 2 <= f2 -> scan_value f1 b = scan_value f2 b)%nat /\
  (forall b, 2 * length b + 3 <= f1 -> 2 * length b + 3 <= f2 -> scan_members f1 b = scan_members f2 b)%nat /\
  (forall b, 2 * length b + 3 <= f1 -> 2 * length b + 3 <= f2 -> scan_elements f1 b = scan_elements f2 b)%nat.
Proof.
  induction f1 as [|f1 IH]; intros f2; [split_and!; intros b; lia|]. destruct f2 as [|f2]; [split_and!; intros b; lia|].
  destruct (IH f2) as (IHv & IHm & IHe). split_and!; intros b H1 H2.
  - cbn [scan_value]. pose proof (length_skip_space b) as Hb. destruct (skip_space b) as [|c rest]; [done|]. cbn in Hb.
    destruct (is_byte c 34); [done|]. destruct (is_byte c 123); [|destruct (is_byte c 91); [|done]];
      (destruct (skip_space rest); [done|]; case_match; [done|]).
    + rewrite IHm by lia. done.
    + rewrite IHe by lia. done.
  - cbn [scan_members]. pose proof (length_skip_space b) as Hb. destruct (skip_space b) as [|q rest]; [done|]. cbn in Hb.
    destruct (negb _); [done|]. apply parse_bind_ext; [done|]. intros key r1 Hr1%scan_string_shrinks.
    pose proof (length_skip_space r1). destruct (skip_space r1) as [|c r2]; [done|]. destruct (negb _); [done|]. cbn in *.
    apply parse_bind_ext; [apply IHv; lia|]. intros v r3 Hr3%scan_shrinks. pose proof (length_skip_space r3).
    destruct (skip_space r3) as [|d r4]; [done|]. destruct (is_byte d 125); [done|]. destruct (is_byte d 44); [|done]. cbn in *.
    rewrite IHm by lia. done.
  - cbn [scan_elements]. apply parse_bind_ext; [apply IHv; lia|]. intros v r3 Hr3%scan_shrinks. pose proof (length_skip_space r3).
    destruct (skip_space r3) as [|d r4]; [done|]. destruct (is_byte d 93); [done|]. destruct (is_byte d 44); [|done]. cbn in *.
    rewrite IHe by lia. done.
Qed.

(** Any fuel beyond [json_fuel] gives the same scan. *)
Lemma scan_value_fuel f b : (json_fuel b <= f)%nat -> scan_value f b = scan_value (json_fuel b) b.
Proof. unfold json_fuel. intros H. apply (scan_fuel_enough f (2 * length b + 2)); lia. Qed.

(** Quotation marks are written as apostrophes. *)
Definition sample_json (s : string) : bytes := (fun c => if is_byte c 39 then byte_of_Z 34 else c) <$> bytes_of s.

Example scan_sample :
  scan_value 200 (sample_json " {'a' : [1.5e+3, true,null], 'b\u0041\n':{}, 'c':'\ud83d\ude00'} x") =
  Parsed (VObject [("a", VArray [VNumber; VBool true; VNull]); ("bA" +:+ string_of [byte_of_Z 10], VObject []);
    ("c", VString (string_of_runes [0x1F600]))]) (bytes_of " x").
Proof. vm_compute. reflexivity. Qed.

Example scan_cut : scan_value 50 (sample_json "{'a':'b") = Incomplete /\ scan_value 50 (sample_json "{'a':b") = Malformed.
Proof. split; vm_compute; reflexivity. Qed.
