(* ===== verification/Auth.v ===== *)
(** * Access tokens (internal/gateway/auth/verifier.go)

    What the gateway takes from a verified OIDC token: the subject, the tenant of the
    configured claim, and the scopes of the claims [scope] and [scp]. The provider
    discovery and the verification of signature, issuer, audience and time are those
    of the OIDC library, which is an argument. *)

From S2P Require Import Prelude GoText Crypto GoEncoding Domain Messaging Session EventContract Store Kafka MediaGuard ApiJson.

Definition ErrInvalidConfiguration : sentinel := ErrText "invalid authentication configuration".
Definition ErrInvalidToken : sentinel := ErrText "invalid authentication token".

Record Principal := { pr_Subject : string; pr_TenantID : string; pr_Scopes : list string }.

Definition HasScope (principal : Principal) (required : string) : bool := existsb (fun scope => scope =s required) (pr_Scopes principal).

(** [strings.Fields]: the runs of characters that are not space. *)
Fixpoint fields_of (cs : list (option Z * bytes)) (word : bytes) : list bytes :=
  match cs with
  | [] => if is_nil word then [] else [word]
  | c :: rest =>
    if space_chunk c then (if is_nil word then [] else [word]) ++ fields_of rest []
    else fields_of rest (word ++ c.2)
  end.

Definition Fields (s : string) : list string := string_of <$> fields_of (chunks (bytes_of s)) [].

(** ** Scopes *)

(** The claims of a token, as raw JSON values. *)
Abbreviation claims := (gmap string jval).

Definition add_scope (scopes : list string) (scope : string) : list string :=
  if bool_decide (scope ∈ scopes) then scopes else scopes ++ [scope].

Definition add_scopes (scopes : list string) (text : string) : list string := fold_left add_scope (Fields text) scopes.

Definition claim_scopes (c : claims) (scopes : list string) (name : string) : option (list string) :=
  match c !! name with
  | None | Some VNull => Some scopes
  | Some (VString text) => Some (add_scopes scopes text)
  | Some raw =>
    match assign_strings raw [] with
    | Some array => Some (fold_left add_scopes array scopes)
    | None => None
    end
  end.

Definition claimScopes (c : claims) : option (list string) :=
  match claim_scopes c [] "scope" with
  | Some scopes => claim_scopes c scopes "scp"
  | None => None
  end.

(** ** The verifier *)

(** What the library returns for a valid token: its subject, and the claims when they
    can be decoded. *)
Record IDToken := { it_Subject : string; it_Claims : option claims }.

Section Verifier.
Context (library : string -> result IDToken) (tenantClaim : string).

Definition Verify (rawToken : string) : result Principal :=
  if TrimSpace rawToken =s "" then Err [ErrInvalidToken]
  else match library rawToken with
  | Err _ => Err [ErrInvalidToken]
  | Ok token =>
    let subject := TrimSpace (it_Subject token) in
    if subject =s "" then Err [ErrInvalidToken]
    else match it_Claims token with
    | None => Err [ErrInvalidToken]
    | Some c =>
      match c !! tenantClaim ≫= raw_string with
      | None => Err [ErrInvalidToken]
      | Some tenant =>
        if TrimSpace tenant =s "" then Err [ErrInvalidToken]
        else match claimScopes c with
        | None => Err [ErrInvalidToken]
        | Some scopes => Ok {| pr_Subject := subject; pr_TenantID := TrimSpace tenant; pr_Scopes := scopes |}
        end
      end
    end
  end.
End Verifier.

(** ** Configuration *)

(** What the configuration reads of the issuer's [url.URL], beside the parts the media
    guard reads. *)
Record IssuerURL := { iu_URL : URL; iu_Host : string; iu_Opaque : string; iu_RawQuery : string; iu_ForceQuery : bool }.

Section Configuration.
Context (Parse : string -> option IssuerURL) (ToLower : string -> string) (ParseIP : string -> option bytes) (discover : string -> bool).

(** [net.IP.IsLoopback]. *)
Definition ip_loopback (ip : bytes) : bool :=
  match AddrFromSlice ip with Some a => IsLoopback (Unmap a) | None => false end.

Definition validIssuerURL (issuer : IssuerURL) (allowInsecureLoopback : bool) : bool :=
  if (iu_Host issuer =s "") || (iu_Opaque issuer <>s "") || url_HasUser (iu_URL issuer) || (iu_RawQuery issuer <>s "") ||
     iu_ForceQuery issuer || (url_Fragment (iu_URL issuer) <>s "")
  then false
  else
    let scheme := ToLower (url_Scheme (iu_URL issuer)) in
    if scheme =s "https" then true
    else if scheme =s "http" then
      if negb allowInsecureLoopback then false
      else
        let hostname := url_Hostname (iu_URL issuer) in
        if bool_decide (fold_name (bytes_of hostname) = fold_name (bytes_of "localhost")) then true
        else match ParseIP hostname with Some ip => ip_loopback ip | None => false end
    else false.

(** The claim that names the tenant, when the configuration is accepted and the
    provider's discovery succeeds. *)
Definition NewOIDCVerifier (Issuer Audience TenantClaim : string) (AllowInsecureLoopbackIssuer : bool) : result string :=
  let issuer := TrimSpace Issuer in
  let audience := TrimSpace Audience in
  match Parse issuer with
  | None => Err [ErrInvalidConfiguration]
  | Some parsedIssuer =>
    if (audience =s "") || negb (validIssuerURL parsedIssuer AllowInsecureLoopbackIssuer) then Err [ErrInvalidConfiguration]
    else
      let tenantClaim := TrimSpace TenantClaim in
      let tenantClaim := if tenantClaim =s "" then "tenant_id" else tenantClaim in
      if ContainsAny tenantClaim [32; 9; 13; 10] then Err [ErrInvalidConfiguration]
      else if discover issuer then Ok tenantClaim else Err [ErrInvalidConfiguration]
  end.
End Configuration.

(** ** What a principal is *)

Lemma add_scope_elem scopes scope s : s ∈ add_scope scopes scope <-> s ∈ scopes \/ s = scope.
Proof. unfold add_scope. case_bool_decide; set_solver. Qed.

Lemma add_scopes_elem text scopes s : s ∈ add_scopes scopes text <-> s ∈ scopes \/ s ∈ Fields text.
Proof.
  unfold add_scopes. revert scopes. induction (Fields text) as [|w ws IH]; intros scopes; cbn; [set_solver|].
  rewrite IH, add_scope_elem. set_solver.
Qed.

Lemma add_scopes_NoDup text scopes : NoDup scopes -> NoDup (add_scopes scopes text).
Proof.
  unfold add_scopes. revert scopes. induction (Fields text) as [|w ws IH]; intros scopes Hs; cbn; [done|]. apply IH.
  unfold add_scope. case_bool_decide; [done|]. apply NoDup_app. split_and!; [done | set_solver | apply NoDup_singleton].
Qed.

(** The texts a scope claim holds. *)
Definition scope_texts (c : claims) (name : string) : option (list string) :=
  match c !! name with
  | None | Some VNull => Some []
  | Some (VString text) => Some [text]
  | Some raw => assign_strings raw []
  end.

Lemma claim_scopes_fold c scopes name :
  claim_scopes c scopes name = (fun texts => fold_left add_scopes texts scopes) <$> scope_texts c name.
Proof. unfold claim_scopes, scope_texts. destruct (c !! name) as [[]|]; try done; by destruct (assign_strings _ _). Qed.

Lemma fold_add_scopes texts scopes :
  NoDup scopes -> NoDup (fold_left add_scopes texts scopes) /\
  forall s, s ∈ fold_left add_scopes texts scopes <-> s ∈ scopes \/ exists text, text ∈ texts /\ s ∈ Fields text.
Proof.
  revert scopes. induction texts as [|text texts IH]; intros scopes Hs; cbn; [set_solver|].
  destruct (IH (add_scopes scopes text)) as [Hn He]; [by apply add_scopes_NoDup|]. split; [done|].
  intros s. rewrite He, add_scopes_elem. set_solver.
Qed.

(** A principal has a subject and a tenant without surrounding space, and exactly the
    scopes that are words of its two scope claims, each once. *)
Theorem principal_exact library tenantClaim rawToken p :
  Verify library tenantClaim rawToken = Ok p ->
  pr_Subject p <> "" /\ pr_TenantID p <> "" /\ NoDup (pr_Scopes p) /\
  exists token c tenant, library rawToken = Ok token /\ it_Claims token = Some c /\
    pr_Subject p = TrimSpace (it_Subject token) /\ c !! tenantClaim = Some (VString tenant) /\ pr_TenantID p = TrimSpace tenant /\
    forall s, HasScope p s = true <->
      exists name texts text, name ∈ ["scope"; "scp"] /\ scope_texts c name = Some texts /\ text ∈ texts /\ s ∈ Fields text.
Proof.
  unfold Verify. case_if_goal E; [done|]. destruct (library rawToken) as [token|]; [|done].
  case_if_goal Es; [done|]. destruct (it_Claims token) as [c|] eqn:Ec; [|done].
  destruct (c !! tenantClaim ≫= raw_string) as [tenant|] eqn:Et; [|done]. case_if_goal En; [done|].
  destruct (claimScopes c) as [scopes|] eqn:Esc; [|done]. intros [= <-]. cbn [pr_Subject pr_TenantID pr_Scopes HasScope]. reflect_bools.
  unfold claimScopes in Esc. rewrite claim_scopes_fold in Esc.
  destruct (scope_texts c "scope") as [t1|] eqn:E1; cbn in Esc; [|done].
  rewrite claim_scopes_fold in Esc. destruct (scope_texts c "scp") as [t2|] eqn:E2; cbn in Esc; [|done]. injection Esc as <-.
  destruct (fold_add_scopes t1 []) as [Hn1 He1]; [by constructor|]. destruct (fold_add_scopes t2 _ Hn1) as [Hn2 He2].
  split_and!; [done..|]. exists token, c, tenant. split_and!; try done.
  - destruct (c !! tenantClaim) as [v|]; [|done]. cbn in Et. destruct v; cbn in Et; try done; [|by injection Et as ->].
    injection Et as <-. done.
  - intros s. unfold HasScope. cbn [pr_Scopes].
    assert (existsb (fun scope => scope =s s) (fold_left add_scopes t2 (fold_left add_scopes t1 [])) = true <->
            s ∈ fold_left add_scopes t2 (fold_left add_scopes t1 [])) as ->.
    { rewrite existsb_exists. split; [intros (x & Hx & <-%String.eqb_eq); by apply list_elem_of_In|].
      intros Hx%list_elem_of_In. exists s. split; [done | apply String.eqb_refl]. }
    rewrite He2, He1. split.
    + intros [[[]%elem_of_nil|(text & Ht & Hs)]|(text & Ht & Hs)];
        [exists "scope", t1, text | exists "scp", t2, text]; split_and!; try done; set_solver.
    + intros (name & texts & text & Hname & Htexts & Ht & Hs). rewrite !elem_of_cons, elem_of_nil in Hname.
      destruct Hname as [->|[->|[]]]; simplify_eq; [left; right | right]; by exists text.
Qed.

Example fields_sample : Fields " openid  messaging:read " = ["openid"; "messaging:read"].
Proof. vm_compute. reflexivity. Qed.
