(* ===== verification/Http.v ===== *)
(** * Requests, responses and bodies (internal/gateway/httpapi; net/http, net/url)

    A request as the server hands it to the handler, the response writer, and what
    the handlers of the API share: reading the query, headers and bodies, writing
    JSON and errors, and the cursors of contact pages. *)

From S2P Require Import Prelude GoText Crypto GoEncoding Domain Messaging Session EventContract Store Kafka Leases Ingress Responses Images MediaStore MediaIngest Contacts ApiJson.

(** ** Text *)

Definition HasSuffix (s suffix : string) : bool :=
  let n := (length (bytes_of s) - length (bytes_of suffix))%nat in bool_decide (drop n (bytes_of s) = bytes_of suffix).

(** [strings.TrimSuffix]. *)
Definition TrimSuffix (s suffix : string) : string :=
  if HasSuffix s suffix then string_of (take (length (bytes_of s) - length (bytes_of suffix)) (bytes_of s)) else s.

(** [strings.Split] at a byte. *)
Fixpoint split_bytes (c : Z) (b : bytes) : list bytes :=
  match b with
  | [] => [[]]
  | x :: rest =>
    if is_byte x c then [] :: split_bytes c rest
    else match split_bytes c rest with part :: parts => (x :: part) :: parts | [] => [[x]] end
  end.

Definition Split (c : Z) (s : string) : list string := string_of <$> split_bytes c (bytes_of s).

Definition lower_ascii (c : ascii) : ascii := if between 65 90 (byte_val c) then byte_of_Z (byte_val c + 32) else c.

(** [strings.EqualFold] with a text of ASCII letters other than k and s. *)
Definition EqualFold (s t : string) : bool := bool_decide (lower_ascii <$> bytes_of s = lower_ascii <$> bytes_of t).

(** [strings.ToLower], as far as its result is ASCII. *)
Definition lower_rune (r : Z) : Z :=
  if between 65 90 r then r + 32 else if r =? 0x130 then 105 else if r =? 0x212A then 107 else r.

Definition ToLower_ascii (s : string) : string := string_of_runes (lower_rune <$> runes s).

(** [strings.ReplaceAll] of one byte by another. *)
Definition ReplaceByte (s : string) (old new : Z) : string :=
  string_of ((fun c => if is_byte c old then byte_of_Z new else c) <$> bytes_of s).

(** [strconv.Atoi]; [None] is an error. *)
Definition Atoi (s : string) : option Z :=
  let digits := fun b => if negb (is_nil b) && forallb is_digit_char b then Some (decimal_value 0 b) else None in
  let value := match bytes_of s with
               | c :: rest => if is_byte c 45 then Z.opp <$> digits rest else if is_byte c 43 then digits rest else digits (c :: rest)
               | [] => None
               end in
  match value with Some n => if (n <? - two63) || (n >=? two63) then None else Some n | None => None end.

(** ** The query: [url.ParseQuery] *)

(** [url.QueryUnescape]. *)
Fixpoint unescape (b : bytes) : option bytes :=
  match b with
  | [] => Some []
  | c :: rest =>
    if is_byte c 37 then
      match rest with
      | h :: l :: rest' =>
        match hex_digit h, hex_digit l, unescape rest' with
        | Some x, Some y, Some out => Some (byte_of_Z (x * 16 + y) :: out)
        | _, _, _ => None
        end
      | _ => None
      end
    else match unescape rest with
    | Some out => Some ((if is_byte c 43 then byte_of_Z 32 else c) :: out)
    | None => None
    end
  end.

(** [strings.Cut] at a byte. *)
Fixpoint cut_bytes (c : Z) (b : bytes) : bytes * bytes :=
  match b with
  | [] => ([], [])
  | x :: rest => if is_byte x c then ([], rest) else let '(before, after) := cut_bytes c rest in (x :: before, after)
  end.

Abbreviation values := (gmap string (list string)).

Definition add_pair (m : values) (pair : bytes) : values :=
  if existsb (fun c => is_byte c 59) pair || is_nil pair then m
  else let '(key, value) := cut_bytes 61 pair in
  match unescape key, unescape value with
  | Some k, Some v => <[string_of k := default [] (m !! string_of k) ++ [string_of v]]> m
  | _, _ => m
  end.

(** Of a query with more parameters nothing is read. *)
Definition maxQueryParams : Z := 10000.

Definition ParseQuery (query : string) : values :=
  let pairs := split_bytes 38 (bytes_of query) in
  if blen pairs >? maxQueryParams then ∅ else fold_left add_pair pairs ∅.

(** ** Requests *)

(** The keys of the header are canonical; a body is [None] for [http.NoBody]. *)
Record Request := {
  rq_Method : string;
  rq_Path : string;
  rq_RawQuery : string;
  rq_Header : values;
  rq_ContentLength : Z;
  rq_Body : option Body
}.

Definition Query (request : Request) : values := ParseQuery (rq_RawQuery request).
Definition Header_Values (request : Request) (name : string) : list string := default [] (rq_Header request !! name).
Definition first_value (l : list string) : string := default "" (head l).
Definition Header_Get (request : Request) (name : string) : string := first_value (Header_Values request name).
Definition Query_Get (request : Request) (name : string) : string := first_value (default [] (Query request !! name)).

Definition no_body : Body := {| bd_Data := []; bd_Err := [] |}.

Definition queryIsExactly (request : Request) (allowed : list string) : bool :=
  forallb (fun q => bool_decide (q.1 ∈ allowed) && (blen q.2 =? 1)) (map_to_list (Query request)).

Definition singleHeaderValue (request : Request) (name : string) : option string :=
  match Header_Values request name with [value] => Some value | _ => None end.

Definition hasTenantInput (request : Request) : bool :=
  bool_decide (is_Some (rq_Header request !! "X-Tenant-Id")) ||
  existsb (fun q => let normalized := ToLower_ascii (ReplaceByte q.1 45 95) in
                    (normalized =s "tenant") || (normalized =s "tenant_id") || (normalized =s "tenantid"))
    (map_to_list (Query request)).

Definition maxRequestIDBytes : Z := 64.

Definition id_rune (char : Z) : bool :=
  between 97 122 char || between 65 90 char || between 48 57 char || (char =? 45) || (char =? 95) || (char =? 46).

Definition acceptedRequestID (candidate : string) : string :=
  if (candidate =s "") || (len candidate >? maxRequestIDBytes) then ""
  else if forallb id_rune (runes candidate) then candidate else "".

Definition validStableID (value : string) : bool :=
  if (value =s "") || (len value >? 128) then false else forallb id_rune (runes value).

(** The key of an HTTP submission: one header value, so without a comma too. *)
Definition api_validIdempotencyKey (value : string) : bool :=
  if (len value <? 1) || (len value >? 200) || (TrimSpace value <>s value) || ContainsByte value 44 then false
  else forallb (fun c => negb ((byte_val c <? 0x21) || (byte_val c >? 0x7e))) (bytes_of value).

(** ** Responses *)

(** What was written: [None] is a handler that wrote nothing, for which the server
    sends 200. *)
Record Writer := { w_Header : gmap string string; w_Status : option Z; w_Body : bytes }.

Definition new_writer : Writer := {| w_Header := ∅; w_Status := None; w_Body := [] |}.

Definition set_header (name value : string) (w : Writer) : Writer :=
  {| w_Header := <[name := value]> (w_Header w); w_Status := w_Status w; w_Body := w_Body w |}.

Definition WriteHeader (status : Z) (w : Writer) : Writer :=
  {| w_Header := w_Header w; w_Status := Some status; w_Body := w_Body w |}.

Definition write_body (data : bytes) (w : Writer) : Writer :=
  {| w_Header := w_Header w; w_Status := w_Status w; w_Body := w_Body w ++ data |}.

Definition sent_status (w : Writer) : Z := default 200 (w_Status w).

(** A [map[string]any]: the keys are written sorted. *)
Definition json_map (members : list (string * json)) : json := JObject (merge_sort member_le members).

Definition write_encoded (w : Writer) (status : Z) (v : json) : Writer :=
  write_body (json_print v ++ [byte_of_Z 10]) (WriteHeader status (set_header "Content-Type" "application/json; charset=utf-8" w)).

Definition error_json (code message requestID : string) : json :=
  json_map [("error", json_map [("code", JString code); ("message", JString message); ("request_id", JString requestID)])].

Definition writeError (w : Writer) (status : Z) (code message : string) : Writer :=
  write_encoded w status (error_json code message (default "" (w_Header w !! "X-Request-Id"))).

Definition writeInvalidRequest (w : Writer) : Writer := writeError w 400 "invalid_request" "request is invalid".
Definition writeNotFound (w : Writer) : Writer := writeError w 404 "not_found" "resource not found".
Definition writeInternalError (w : Writer) : Writer := writeError w 500 "internal_error" "request could not be completed".

(** [writeJSON] of a value [json.Marshal] may refuse ([None]). *)
Definition writeJSON (w : Writer) (status : Z) (v : option json) : Writer :=
  match v with Some v => write_encoded w status v | None => writeInternalError w end.

(** A [time.Time] is refused outside the years 0 to 9999. *)
Definition json_time (t : Z) : option json :=
  let '(year, _, _) := civil_of_days (t / Second / 86400) in
  if (year <? 0) || (year >? 9999) then None else Some (JString (RFC3339Nano t)).

(** Objects and arrays with members that may be refused. *)
Definition marshal_members (members : list (string * option json)) : option (list (string * json)) :=
  mapM (fun m => match m.2 with Some v => Some (m.1, v) | None => None end) members.

Definition marshal_struct (members : list (string * option json)) : option json := JObject <$> marshal_members members.
Definition marshal_map (members : list (string * option json)) : option json := json_map <$> marshal_members members.
Definition marshal_list (items : list (option json)) : option json := JArray <$> mapM id items.

Definition text (name value : string) : list (string * option json) := [(name, Some (JString value))].
Definition when (b : bool) {A} (l : list A) : list A := if b then l else [].

(** ** Bodies

    A check returns the refused response, or what it read. *)

Notation "'let?' x ':=' c 'in' k" := (match c with inl w => Ret w | inr x => k end)
  (at level 10, x binder, c at level 100, k at level 200) : gateway_scope.

Definition maxJSONBodyBytes : Z := 8 * 1024.

Definition writeJSONDecodeError (w : Writer) (tooLarge : bool) : Writer :=
  if tooLarge then writeError w 413 "request_too_large" "request body is too large" else writeInvalidRequest w.

Section Decoding.
Context (ParseMediaType : string -> option string).

Definition decodeStrictJSONWithLimit {A} (limit : Z) (w : Writer) (request : Request) (assign : jval -> option A) : Writer + A :=
  let unsupported := writeError w 415 "unsupported_media_type" "Content-Type must be application/json" in
  match singleHeaderValue request "Content-Type" with
  | None => inl unsupported
  | Some contentType =>
    match ParseMediaType contentType with
    | None => inl unsupported
    | Some mediaType =>
      if mediaType <>s "application/json" then inl unsupported
      else
        let body := default no_body (rq_Body request) in
        match decode_body limit (bd_Data body) (negb (is_nil (bd_Err body))) assign with
        | Decoded a => inr a
        | DecodeInvalid => inl (writeJSONDecodeError w false)
        | DecodeTooLarge => inl (writeJSONDecodeError w true)
        end
    end
  end.

Definition decodeStrictJSON {A} (w : Writer) (request : Request) (assign : jval -> option A) : Writer + A :=
  decodeStrictJSONWithLimit maxJSONBodyBytes w request assign.
End Decoding.

Definition ensureEmptyBody (w : Writer) (request : Request) : Writer + unit :=
  match rq_Body request with
  | None => inr tt
  | Some body =>
    if blen (bd_Data body) >? maxJSONBodyBytes then inl (writeJSONDecodeError w true)
    else if negb (is_nil (bd_Err body)) then inl (writeJSONDecodeError w false)
    else if negb (is_nil (TrimSpace_bytes (bd_Data body))) then inl (writeInvalidRequest w)
    else inr tt
  end.

(** The guard most handlers start with. *)
Definition expectQuery (w : Writer) (request : Request) (allowed : list string) : Writer + unit :=
  if queryIsExactly request allowed then inr tt else inl (writeInvalidRequest w).

(** ** Pages *)

Definition defaultPageLimit : Z := 50.
Definition maxPageLimit : Z := 200.

Definition in_page (limit : Z) : bool := negb ((limit <? 1) || (limit >? maxPageLimit)).

(** [after] of the lists of connections, messages and webhooks. *)
Definition invalid_after (request : Request) : bool :=
  match Query request !! "after" with
  | None => false
  | Some values =>
    let v := first_value values in (v =s "") || (len v >? 256) || ContainsAny v [0; 13; 10]
  end.

(** The limit of the lists of connections and webhooks; [None] is refused. *)
Definition page_limit (request : Request) : option Z :=
  match Query request !! "limit" with
  | None => Some defaultPageLimit
  | Some values =>
    match Atoi (first_value values) with
    | Some parsed => if in_page parsed then Some parsed else None
    | None => None
    end
  end.

(** ** Cursors of contact pages *)

Definition base64url_value (c : ascii) : option Z :=
  let v := byte_val c in
  if between 65 90 v then Some (v - 65) else if between 97 122 v then Some (v - 71)
  else if between 48 57 v then Some (v + 4) else if v =? 45 then Some 62 else if v =? 95 then Some 63 else None.

Fixpoint base64url_values (b : bytes) : option (list Z) :=
  match b with
  | [] => Some []
  | c :: rest =>
    match base64url_value c, base64url_values rest with Some v, Some vs => Some (v :: vs) | _, _ => None end
  end.

(** Four digits are three bytes; a rest of two or three digits is one or two bytes,
    whose unused bits are dropped. *)
Fixpoint base64_bytes (vs : list Z) : option bytes :=
  match vs with
  | [] => Some []
  | [_] => None
  | [a; b] => Some [byte_of_Z ((a * 64 + b) / 16)]
  | [a; b; c] => let v := (a * 64 + b) * 64 + c in Some [byte_of_Z (v / 1024); byte_of_Z (v / 4)]
  | a :: b :: c :: d :: rest =>
    let v := ((a * 64 + b) * 64 + c) * 64 + d in
    match base64_bytes rest with
    | Some out => Some (byte_of_Z (v / 65536) :: byte_of_Z (v / 256) :: byte_of_Z v :: out)
    | None => None
    end
  end.

(** [base64.RawURLEncoding.DecodeString], which skips line breaks. *)
Definition RawURL_DecodeString (s : string) : option bytes :=
  match base64url_values (List.filter (fun c => negb (is_byte c 10 || is_byte c 13)) (bytes_of s)) with
  | Some vs => base64_bytes vs
  | None => None
  end.

Definition cursor_prefix : bytes := bytes_of "sirenaix-contact-v1" ++ [byte_of_Z 0].

Definition encodeCursor (after : string) : string := string_of (base64_encode (cursor_prefix ++ bytes_of after)).

Definition maxDecodedCursorBytes : Z := 512.
Definition maxEncodedCursorBytes : Z := 683.

Definition decodeCursor (value : string) : result string :=
  if len value >? maxEncodedCursorBytes then Err [ErrInvalidCursor]
  else match RawURL_DecodeString value with
  | None => Err [ErrInvalidCursor]
  | Some decoded =>
    if (blen decoded >? maxDecodedCursorBytes) || negb (utf8_Valid decoded) then Err [ErrInvalidCursor]
    else if negb (bool_decide (take (length cursor_prefix) decoded = cursor_prefix)) then Err [ErrInvalidCursor]
    else
      let after := string_of (drop (length cursor_prefix) decoded) in
      if (after =s "") || ContainsAny after [0; 13; 10] then Err [ErrInvalidCursor] else Ok after
  end.

Definition contactPageOptions (w : Writer) (request : Request) : Writer + (string * Z) :=
  if negb (queryIsExactly request ["limit"; "cursor"]) then inl (writeInvalidRequest w)
  else
    let limit := match Query request !! "limit" with
                 | None => Some defaultPageLimit
                 | Some [v] => match (if v =s "" then None else Atoi v) with
                               | Some limit => if in_page limit then Some limit else None
                               | None => None
                               end
                 | Some _ => None
                 end in
    match limit with
    | None => inl (writeInvalidRequest w)
    | Some limit =>
      match Query request !! "cursor" with
      | None => inr ("", limit)
      | Some [v] =>
        match (if v =s "" then Err [ErrInvalidCursor] else decodeCursor v) with
        | Ok after => inr (after, limit)
        | Err _ => inl (writeInvalidRequest w)
        end
      | Some _ => inl (writeInvalidRequest w)
      end
    end.

Example query_sample :
  Query {| rq_Method := "GET"; rq_Path := "/"; rq_RawQuery := "a=1&b=x%20+y&a=%7E&c;d&bad=%zz&e"; rq_Header := ∅; rq_ContentLength := 0; rq_Body := None |}
  = {["a" := ["1"; "~"]; "b" := ["x  y"]; "e" := [""]]}.
Proof. vm_compute. reflexivity. Qed.

Example cursor_sample : decodeCursor (encodeCursor "contact-1") = Ok "contact-1".
Proof. vm_compute. reflexivity. Qed.

(** ** Decoding what was encoded *)

Lemma base64url_value_nth i : 0 <= i < 64 -> base64url_value (nth_char base64url i) = Some i.
Proof.
  intros H. assert (forallb (fun n => bool_decide (base64url_value (nth_char base64url (Z.of_nat n)) = Some (Z.of_nat n))) (seq 0 64) = true) as Hall
    by (vm_compute; reflexivity).
  rewrite forallb_forall in Hall. specialize (Hall (Z.to_nat i)). rewrite Z2Nat.id in Hall by lia.
  eapply bool_decide_eq_true_1, Hall, in_seq. lia.
Qed.

Lemma base64url_value_kept c v : base64url_value c = Some v -> negb (is_byte c 10 || is_byte c 13) = true.
Proof.
  unfold base64url_value, is_byte, between. intros H. case_hyp H; reflect_bools; apply negb_true_iff, orb_false_iff;
    split; apply Z.eqb_neq; lia.
Qed.

(** The digits an encoding stands for. *)
Fixpoint base64_digits (b : bytes) : list Z :=
  match b with
  | [] => []
  | [x] => let v := byte_val x * 16 in [v / 64; v mod 64]
  | [x; y] => let v := (byte_val x * 256 + byte_val y) * 4 in [v / 4096; v / 64 mod 64; v mod 64]
  | x :: y :: z :: b' =>
    let v := (byte_val x * 256 + byte_val y) * 256 + byte_val z in
    v / 262144 :: v / 4096 mod 64 :: v / 64 mod 64 :: v mod 64 :: base64_digits b'
  end.

(** Bytes, three at a time. *)
Lemma triples_ind (P : bytes -> Prop) :
  P [] -> (forall x, P [x]) -> (forall x y, P [x; y]) -> (forall x y z b, P b -> P (x :: y :: z :: b)) -> forall b, P b.
Proof.
  intros H0 H1 H2 H3. fix IH 1. intros [|x [|y [|z b]]]; [apply H0 | apply H1 | apply H2|]. apply H3, IH.
Qed.

Lemma base64_digits_range b : Forall (fun d => 0 <= d < 64) (base64_digits b).
Proof.
  induction b as [|x|x y|x y z b IH] using triples_ind; cbn [base64_digits]; [done|..].
  - pose proof (byte_val_range x). repeat apply Forall_cons_2; try done; Z.to_euclidean_division_equations; lia.
  - pose proof (byte_val_range x). pose proof (byte_val_range y). repeat apply Forall_cons_2; try done; Z.to_euclidean_division_equations; lia.
  - pose proof (byte_val_range x). pose proof (byte_val_range y). pose proof (byte_val_range z).
    repeat apply Forall_cons_2; try done; Z.to_euclidean_division_equations; lia.
Qed.

Lemma base64_encode_digits b : base64_encode b = nth_char base64url <$> base64_digits b.
Proof. induction b as [|x|x y|x y z b IH] using triples_ind; [done..|]. cbn [base64_encode base64_digits]. by rewrite IH. Qed.

Lemma byte_of_byte_val c z : z mod 256 = byte_val c -> byte_of_Z z = c.
Proof. intros H. apply byte_val_inj. by rewrite byte_val_of_Z. Qed.

Lemma base64_bytes_digits b : base64_bytes (base64_digits b) = Some b.
Proof.
  induction b as [|x|x y|x y z b IH] using triples_ind; cbn [base64_digits base64_bytes]; [done|..].
  - pose proof (byte_val_range x). do 3 f_equal. apply byte_of_byte_val. Z.to_euclidean_division_equations. lia.
  - pose proof (byte_val_range x). pose proof (byte_val_range y). do 2 f_equal; [|f_equal]; apply byte_of_byte_val;
      Z.to_euclidean_division_equations; lia.
  - pose proof (byte_val_range x). pose proof (byte_val_range y). pose proof (byte_val_range z). rewrite IH.
    do 2 f_equal; [|f_equal; [|f_equal]]; apply byte_of_byte_val; Z.to_euclidean_division_equations; lia.
Qed.

Lemma base64url_values_digits ds : Forall (fun d => 0 <= d < 64) ds -> base64url_values (nth_char base64url <$> ds) = Some ds.
Proof. induction 1 as [|d ds Hd _ IH]; [done|]. cbn. by rewrite base64url_value_nth, IH. Qed.

Lemma filter_kept ds : Forall (fun d => 0 <= d < 64) ds ->
  List.filter (fun c => negb (is_byte c 10 || is_byte c 13)) (nth_char base64url <$> ds) = nth_char base64url <$> ds.
Proof.
  induction 1 as [|d ds Hd _ IH]; [done|]. cbn [fmap list_fmap List.filter].
  rewrite (base64url_value_kept _ _ (base64url_value_nth d Hd)). f_equal. exact IH.
Qed.

Lemma RawURL_DecodeString_encode b : RawURL_DecodeString (string_of (base64_encode b)) = Some b.
Proof.
  unfold RawURL_DecodeString. rewrite bytes_of_string_of, base64_encode_digits. pose proof (base64_digits_range b).
  by rewrite filter_kept, base64url_values_digits, base64_bytes_digits.
Qed.

