(* ===== verification/Endpoints.v ===== *)
(** * Webhook endpoints and deliveries (internal/gateway/webhook endpoints.go, http.go)

    The service that creates, rotates, lists, deletes and replays for a tenant, as
    programs of calls to the destination guard, the sources of identifiers, bytes and
    time, the sealer and the store; and the deliverer, which posts a body to a
    destination the guard pinned. *)

From S2P Require Import Prelude GoText Crypto GoEncoding Domain Messaging EventContract Session SessionVault Store Rely Kafka Webhook Delivery DeliveryFencing Leases Ingress Responses Images MediaStore MediaGuard MediaIngest Contacts ApiJson Http.

Definition DefaultMaxEndpointsPerTenant : Z := 32.

(** ** Interfaces *)

Inductive EndpointCall : Type -> Type :=
| GuardDestination (destination : string) : EndpointCall (result ClientConfig)
| EndpointNewID : EndpointCall string
| EndpointRandom (n : nat) : EndpointCall (option bytes)
| SealSecret (scope : Scope) (secret : bytes) : EndpointCall (result Session.Envelope)
| EndpointNow : EndpointCall Z
| StoreCreateEndpoint (endpoint : Endpoint) (secret : Session.Envelope) (maxEndpoints : Z) : EndpointCall (result unit)
| StoreRotateEndpoint (rotation : EndpointRotation) : EndpointCall (result unit)
| StoreListEndpoints (t after : string) (limit : Z) : EndpointCall (result (list Endpoint * string))
| StoreDeleteEndpoint (t endpointID : string) : EndpointCall (result bool)
| StoreReplayDLQ (t dlqID : string) : EndpointCall (result unit).

Record EndpointService := { es_rotationGrace : Z; es_maxEndpoints : Z }.

Definition NewEndpointService (dependencies : bool) (RotationGrace MaxEndpoints : Z) : result EndpointService :=
  if negb dependencies then Err [ErrInvalidEndpoint]
  else
    let grace := if RotationGrace =? 0 then 24 * Hour else RotationGrace in
    let maxEndpoints := if MaxEndpoints =? 0 then DefaultMaxEndpointsPerTenant else MaxEndpoints in
    if (grace <? 0) || (grace >? 7 * 24 * Hour) then Err [ErrInvalidEndpoint]
    else if (maxEndpoints <? 1) || (maxEndpoints >? MaxEndpointsPerTenant) then Err [ErrInvalidEndpoint]
    else Ok {| es_rotationGrace := grace; es_maxEndpoints := maxEndpoints |}.

(** ** The service *)

Section Service.
Context (Parse : string -> option URL) (service : EndpointService).





Definition Endpoint_List (tenantID after : string) (limit : Z) : prog EndpointCall (result (list Endpoint * string)) :=
  if (tenantID =s "") || (limit <? 1) || (limit >? 200) || (len after >? 256) then Ret (Err [ErrInvalidEndpoint])
  else
    call! listed := StoreListEndpoints tenantID after limit in
    match listed with
    | Err err => Ret (Err err)
    | Ok page =>
      if existsb (fun endpoint => we_TenantID endpoint <>s tenantID) page.1
      then Ret (Err [ErrText "webhook store returned a cross-tenant endpoint"]) else Ret (Ok page)
    end.

Definition Endpoint_Delete (tenantID endpointID : string) : prog EndpointCall (result bool) :=
  if (tenantID =s "") || (endpointID =s "") then Ret (Err [ErrInvalidEndpoint])
  else call! deleted := StoreDeleteEndpoint tenantID endpointID in Ret deleted.

Definition Endpoint_Replay (tenantID dlqID : string) : prog EndpointCall (result unit) :=
  if (tenantID =s "") || (dlqID =s "") then Ret (Err [ErrInvalidEndpoint])
  else call! replayed := StoreReplayDLQ tenantID dlqID in Ret replayed.
End Service.

(** ** Destinations and deliveries *)

Section Deliverer.
Context (Parse : string -> option URL) (ToLower : string -> string) (ParseIP : string -> bool)
  (LookupIPAddr : string -> result (list bytes)) (ParseTime : string -> option Z).

(** The policy of a destination allows its own host only. *)
Definition ClientFor (config : URLPolicyConfig) (destination : string) : result ClientConfig :=
  match Parse destination with
  | None => Err [ErrUnsafeDestination]
  | Some parsed =>
    if url_Hostname parsed =s "" then Err [ErrUnsafeDestination]
    else
      let config := {| uc_AllowedHosts := [ToLower (trim_dot (url_Hostname parsed))]; uc_ConnectTimeout := uc_ConnectTimeout config;
        uc_TLSHandshakeTimeout := uc_TLSHandshakeTimeout config; uc_ResponseHeaderTimeout := uc_ResponseHeaderTimeout config;
        uc_TotalTimeout := uc_TotalTimeout config |} in
      match NewURLPolicy ToLower ParseIP config with
      | Err _ => Err [ErrUnsafeDestination]
      | Ok policy =>
        match ValidateAndPin Parse ToLower ParseIP LookupIPAddr policy destination with
        | Err _ => Err [ErrUnsafeDestination]
        | Ok target => Ok (Client policy target)
        end
      end
  end.

Definition parseRetryAfter (value : string) (now : Z) : Z :=
  let value := TrimSpace value in
  if value =s "" then 0
  else match Atoi value with
  | Some seconds =>
    if seconds <=? 0 then 0
    else if seconds >=? Z.quot maxRetryAfter Second then maxRetryAfter
    else seconds * Second
  | None =>
    match ParseTime value with
    | None => 0
    | Some instant => if instant >? now then Z.min (instant - now) maxRetryAfter else 0
    end
  end.

(** What is posted, and what comes back: the status and the [Retry-After] header. *)
Record Posted := { po_Client : ClientConfig; po_Destination : string; po_Headers : Headers; po_ContentType : string;
  po_UserAgent : string; po_Body : bytes }.

Inductive DeliverCall : Type -> Type :=
| DeliverClient (destination : string) : DeliverCall (result ClientConfig)
| DeliverDo (request : Posted) : DeliverCall (result (Z * string))
| DeliverNow : DeliverCall Z.

Definition HTTPDeliverer_Deliver (destination : string) (headers : Headers) (body : bytes) : prog DeliverCall (result HTTPResult) :=
  call! guarded := DeliverClient destination in
  match guarded with
  | Err _ => Ret (Err [ErrUnsafeDestination])
  | Ok client =>
    match Parse destination with
    | None => Ret (Err [ErrUnsafeDestination])
    | Some _ =>
      call! answered := DeliverDo {| po_Client := client; po_Destination := destination; po_Headers := headers;
        po_ContentType := "application/json"; po_UserAgent := "SirenaIX-Webhook/1"; po_Body := body |} in
      match answered with
      | Err err => Ret (Err err)
      | Ok (status, retryAfter) =>
        call! now := DeliverNow in
        Ret (Ok {| hr_StatusCode := status; hr_RetryAfter := parseRetryAfter retryAfter now |})
      end
    end
  end.
End Deliverer.

(** ** Bounds and destinations *)

Theorem parseRetryAfter_bounds ParseTime value now : 0 <= parseRetryAfter ParseTime value now <= maxRetryAfter.
Proof.
  unfold parseRetryAfter. change (Z.quot maxRetryAfter Second) with 3600.
  assert (maxRetryAfter = 3600 * Second) as Hm by done. assert (0 < Second) by done.
  repeat case_match; reflect_bools; unfold Second, Millisecond, Microsecond, Nanosecond in *; lia.
Qed.

(** A client for a destination dials, on port 443, an address of the destination's own
    https host all of whose addresses are public. *)
Theorem destination_public Parse ToLower ParseIP LookupIPAddr config destination client :
  ClientFor Parse ToLower ParseIP LookupIPAddr config destination = Ok client ->
  exists parsed addresses, Parse destination = Some parsed /\ url_Scheme parsed = "https" /\ url_HasUser parsed = false /\
    cc_ServerName client = ToLower (trim_dot (url_Hostname parsed)) /\ LookupIPAddr (cc_ServerName client) = Ok addresses /\
    head addresses = Some (cc_DialIP client) /\ Forall public addresses /\ cc_DialPort client = "443" /\ cc_Redirect client <> [].
Proof.
  unfold ClientFor. destruct (Parse destination) as [parsed|] eqn:Ep; [|done]. case_if_goal Eh; [done|].
  destruct (NewURLPolicy _ _ _) as [policy|]; [|done].
  destruct (ValidateAndPin _ _ _ _ _ _) as [target|] eqn:Ev; [|done]. intros [= <-].
  unfold ValidateAndPin in Ev. rewrite Ep in Ev. case_if_in Ev E1; [done|]. cbv zeta in Ev. case_if_in Ev E2; [done|].
  case_if_in Ev E3; [done|]. destruct (LookupIPAddr _) as [addresses|] eqn:El; [|done]. case_if_in Ev E4; [done|].
  apply result_bind_ok in Ev as (pinned & [Hall ->]%pin_spec & [= <-]). reflect_bools.
  destruct addresses as [|ip rest]; [done|]. exists parsed, (ip :: rest). cbn. by split_and!.
Qed.

(** ** The secret of an endpoint *)




Section Secrets.
Context {W : Type} `{KeyWrapperLaws W}.








End Secrets.


(** ** A concrete endpoint *)













