(* ===== verification/Api.v ===== *)
(** * The HTTP API (internal/gateway/httpapi handler.go, endpoints.go, messaging_endpoints.go)

    A request is handled by a program of calls: to the token verifier, the
    identifier and random sources, the store and the services. The handler of a
    route gets the response writer, the request, the principal and the path
    arguments, and returns what was written. *)

From S2P Require Import Prelude GoText Crypto GoEncoding Domain Messaging Session EventContract Store Connections Rely PairingService Webhook Delivery Leases Kafka Ingress Responses Lines Images MediaStore MediaIngest Contacts ApiJson Auth Http.

(** ** Interfaces *)

Inductive ApiCall : Type -> Type :=
| VerifyToken (rawToken : string) : ApiCall (result Principal)
| ReadRandom (n : nat) : ApiCall (option bytes)
| NewID : ApiCall string
(* Store, contacts.Service, HealthReader *)
| StoreSaveConnection (t : string) (record : ConnectionRecord) : ApiCall (result unit)
| StoreGetConnection (t connectionID : string) : ApiCall (result Connection)
| StoreListConnectionsPage (t after : string) (limit : Z) : ApiCall (result ConnectionPage)
| StoreListLines (t connectionID : string) : ApiCall (result (list LineRecord))
| StoreListContacts (t after : string) (limit : Z) : ApiCall (result ContactPage)
| StoreSetContactAlias (t contactID alias : string) : ApiCall (result unit)
| StoreClearContactAlias (t contactID : string) : ApiCall (result unit)
| StoreListLabels (t : string) : ApiCall (result (list Label))
| StoreCreateLabel (t : string) (label : Label) : ApiCall (result unit)
| StoreAttachLabel (t contactID labelID : string) : ApiCall (result unit)
| StoreDetachLabel (t contactID labelID : string) : ApiCall (result unit)
| ContactsUpsert (t : string) (input : UpsertInput) : ApiCall (result Contact)
| HealthGet (t connectionID : string) : ApiCall (result ConnectionActorHealth)
(* ConnectionPairer, ContactSyncer *)
| PairingStart (t connectionID : string) (cookies : gmap string string) : ApiCall (result Attempt)
| PairingSelectDevice (t connectionID pairingID deviceID : string) : ApiCall (result Attempt)
| PairingComplete (t connectionID pairingID : string) : ApiCall (result Attempt)
| PairingCancel (t connectionID pairingID : string) : ApiCall (result unit)
| SyncContacts (t connectionID : string) : ApiCall (result SyncResult)
(* MessageService, MediaService, WebhookService *)
| MessagesSubmit (t idempotencyKey : string) (input : SendInput) : ApiCall (result OutboundMessage)
| MessagesGet (t messageID : string) : ApiCall (result OutboundMessage)
| MessagesList (t : string) (options : ListOptions) : ApiCall (result MessagePage)
| MediaUpload (t : string) (upload : Upload) : ApiCall (result MediaRecord)
| MediaGetMetadata (t mediaID : string) : ApiCall (result MediaRecord)
| MediaOpen (t mediaID : string) : ApiCall (result (Body * MediaRecord))
| WebhooksCreate (t destination : string) : ApiCall (result (Endpoint * string))
| WebhooksRotate (t endpointID : string) : ApiCall (result string)
| WebhooksList (t after : string) (limit : Z) : ApiCall (result (list Endpoint * string))
| WebhooksDelete (t endpointID : string) : ApiCall (result bool)
| WebhooksReplay (t dlqID : string) : ApiCall (result unit).

(** The optional collaborators a handler was built with. *)
Record handler := { h_health : bool; h_messages : bool; h_media : bool; h_webhooks : bool }.

(** Which collaborators are given, and whether the store reads health itself. *)
Record Dependencies := {
  d_Store : bool; d_StoreReadsHealth : bool; d_Syncer : bool; d_Pairing : bool; d_Health : bool; d_Verifier : bool; d_NewID : bool;
  d_Messages : bool; d_Media : bool; d_Webhooks : bool
}.

Definition NewHandler (d : Dependencies) : result handler :=
  if negb (d_Store d) then Err [ErrText "http API store is required"]
  else if negb (d_Syncer d) then Err [ErrText "http API contact syncer is required"]
  else if negb (d_Pairing d) then Err [ErrText "http API pairing service is required"]
  else if negb (d_Verifier d) then Err [ErrText "http API token verifier is required"]
  else if negb (d_NewID d) then Err [ErrText "http API ID generator is required"]
  else Ok {| h_health := d_Health d || d_StoreReadsHealth d; h_messages := d_Messages d; h_media := d_Media d; h_webhooks := d_Webhooks d |}.

Definition ErrConnectionQuotaExceeded : sentinel := ErrText "tenant connection quota exceeded".

(** ** Errors *)

Definition isNotFound (err : error) : bool :=
  errors_Is err ErrConnectionNotFound || errors_Is err ErrConnectionAccessDenied || errors_Is err ErrContactAccessDenied ||
  errors_Is err ErrContactNotFound || errors_Is err ErrLabelNotFound || errors_Is err ErrContactLabelLinkNotFound ||
  errors_Is err ErrTenantBoundary || errors_Is err ErrConnectionBoundary.

Definition writeDependencyError (w : Writer) (err : error) : Writer :=
  if isNotFound err then writeNotFound w else writeInternalError w.

Definition writePairingError (w : Writer) (err : error) : Writer :=
  if errors_Is err ErrAttemptNotFound then writeNotFound w
  else if errors_Is err ErrAttemptActive || errors_Is err ErrAttemptBusy || errors_Is err ErrPairingConnectionState
  then writeError w 409 "pairing_conflict" "connection cannot begin pairing"
  else if errors_Is err ErrAttemptExpired then writeError w 410 "pairing_expired" "pairing attempt expired"
  else if errors_Is err ErrUnknownDevice then writeError w 400 "invalid_device" "selected device is not eligible"
  else if errors_Is err ErrInvalidCookieBundle then writeError w 400 "invalid_cookie_bundle" "Google cookie bundle is invalid"
  else writeInternalError w.

(** ** Response values *)

Definition ConnectionState_text (state : ConnectionState) : string :=
  match state with
  | ConnectionStateUnpaired => "unpaired"
  | ConnectionStatePairing => "pairing"
  | ConnectionStateConnected => "connected"
  | ConnectionStateDegraded => "degraded"
  | ConnectionStateReauthorizationRequired => "reauthorization-required"
  | ConnectionStateSuspended => "suspended"
  | ConnectionStateDisconnected => "disconnected"
  | ConnectionStateOther s => s
  end.

Definition State_text (state : State) : string :=
  match state with
  | StateNone => ""
  | StateAwaitingDeviceSelection => "awaiting_device_selection"
  | StateAwaitingPhoneApproval => "awaiting_phone_approval"
  | StateComplete => "complete"
  | StateExpired => "expired"
  | StateCancelled => "cancelled"
  | StateFailed => "failed"
  end.

Definition reason_text (reason : RejectionReason) : string :=
  match reason with
  | RejectionInvalidPhoneNumber => "invalid_phone_number"
  | RejectionInvalidProviderContactID => "invalid_provider_contact_id"
  | RejectionProviderIdentityConflict => "provider_identity_conflict"
  end.

Definition connectionResponse (id name state : string) : json :=
  JObject [("id", JString id); ("name", JString name); ("state", JString state)].

Definition makeLabelResponse (label : Label) : json :=
  JObject [("id", JString (label_ID label)); ("name", JString (label_Name label)); ("slug", JString (label_Slug label))].

(** [None] when the contact references a missing label. *)
Definition makeContactResponse (contact : Contact) (labels : gmap string Label) : option json :=
  match mapM (fun labelID => labels !! labelID) (contact_LabelIDs contact) with
  | None => None
  | Some found => Some (JObject [
      ("id", JString (contact_ID contact)); ("phone", JString (E164Phone_String (contact_Phone contact)));
      ("provider_name", JString (contact_ProviderDisplayName contact)); ("server_alias", JString (contact_Alias contact));
      ("effective_display_name", JString (EffectiveDisplayName contact)); ("labels", JArray (makeLabelResponse <$> found))])
  end.

Definition label_index (labels : list Label) : gmap string Label :=
  fold_left (fun m label => <[label_ID label := label]> m) labels ∅.

Definition labelBySlug (labels : list Label) (slug : string) : option Label := find (fun label => label_Slug label =s slug) labels.

Definition device_json (device : Device) : json := JObject [("id", JString (dv_ID device)); ("label", JString (dv_Label device))].

Definition attempt_json (attempt : Attempt) : option json :=
  marshal_struct (text "pairing_id" (at_ID attempt) ++ text "state" (State_text (at_State attempt)) ++
    [("expires_at", json_time (at_ExpiresAt attempt))] ++
    when (negb (is_nil (at_Devices attempt))) [("devices", Some (JArray (device_json <$> at_Devices attempt)))] ++
    when (at_Emoji attempt <>s "") (text "emoji" (at_Emoji attempt))).

Definition line_json (record : LineRecord) : json :=
  json_map ([("id", JString (line_ID (lr_Line record))); ("connection_id", JString (line_ConnectionID (lr_Line record)));
    ("phone", JString (E164Phone_String (lr_Phone record))); ("display_name", JString (line_DisplayName (lr_Line record)));
    ("rcs_enabled", JBool (lr_RCSEnabled record)); ("provider_sim_number", JInt (lr_ProviderSIMNumber record));
    ("provider_sim_payload_type", JInt (lr_ProviderSIMPayloadType record)); ("discovery_source", JString (lr_DiscoverySource record))] ++
    when (lr_CarrierName record <>s "") [("carrier_name", JString (lr_CarrierName record))] ++
    when (lr_ColorHex record <>s "") [("color_hex", JString (lr_ColorHex record))]).

Definition routing_capabilities : json :=
  json_map [("explicit_line_send", JString "existing_conversation_match_only"); ("new_conversation_line_selection", JBool false);
    ("new_conversation_route", JString "phone_default")].

Definition optional_time (name : string) (t : option Z) : list (string * option json) :=
  match t with Some t => [(name, json_time t)] | None => [] end.

Definition health_members (health : ConnectionActorHealth) : list (string * option json) :=
  text "lease_state" (ah_LeaseState health) ++
  when (ah_ActorState health <>s "") (text "actor_state" (ah_ActorState health) ++
    [("reconnect_count", Some (JInt (ah_ReconnectCount health)));
     ("current_backoff_ms", Some (JInt (Z.quot (ah_CurrentBackoff health) Millisecond)))] ++
    text "last_safe_reason" (ah_LastSafeReason health)) ++
  optional_time "connected_at" (ah_ConnectedAt health) ++ optional_time "last_frame_at" (ah_LastFrameAt health) ++
  optional_time "last_phone_response_at" (ah_LastPhoneResponseAt health).

Definition attachment_json (attachment : Attachment) : json :=
  json_map [("media_id", JString (att_MediaID attachment)); ("position", JInt (att_Position attachment))].

Definition messagePayload (message : OutboundMessage) : option json :=
  let attachments := if is_nil (om_Attachments message) && negb (is_nil (om_MediaIDs message))
                     then imap (fun index mediaID => {| att_MediaID := mediaID; att_Position := Z.of_nat index |}) (om_MediaIDs message)
                     else om_Attachments message in
  marshal_map (text "id" (om_ID message) ++ text "connection_id" (om_ConnectionID message) ++
    text "conversation_id" (om_ConversationID message) ++ text "direction" (om_Direction message) ++
    text "state" (MessageState_text (om_State message)) ++ text "text" (om_Text message) ++
    [("created_at", json_time (om_CreatedAt message))] ++
    when (om_ProviderMessageID message <>s "") (text "provider_message_id" (om_ProviderMessageID message)) ++
    when (om_Transport message <>s "") (text "transport" (om_Transport message)) ++
    when (om_Recipient message <>s "") (text "recipient" (om_Recipient message)) ++
    when (om_LineID message <>s "") (text "line_id" (om_LineID message)) ++
    when (om_RouteMode message <>s "") (text "route_mode" (om_RouteMode message)) ++
    when (negb (is_nil (om_MediaIDs message))) [("media_ids", Some (JArray (JString <$> om_MediaIDs message)))] ++
    when (negb (is_nil attachments)) [("attachments", Some (JArray (attachment_json <$> attachments)))]).

Definition mediaPayload (record : MediaRecord) : option json :=
  marshal_map (text "id" (mr_ID record) ++ text "state" (mr_State record) ++ text "display_filename" (mr_DisplayFilename record) ++
    [("created_at", json_time (mr_CreatedAt record))] ++
    when (mr_MIMEType record <>s "") (text "mime_type" (mr_MIMEType record)) ++
    when (mr_Size record >? 0) [("size", Some (JInt (mr_Size record)))] ++
    when ((mr_Width record >? 0) && (mr_Height record >? 0))
      [("width", Some (JInt (mr_Width record))); ("height", Some (JInt (mr_Height record)))] ++
    when (mr_State record =s "ready") (text "content_path" ("/v1/media/" +:+ mr_ID record +:+ "/content"))).

Definition webhookPayload (endpoint : Endpoint) : option json :=
  marshal_map (text "id" (we_ID endpoint) ++ text "destination" (we_Destination endpoint) ++ text "key_id" (we_KeyID endpoint) ++
    [("active", Some (JBool (we_Active endpoint))); ("created_at", json_time (we_CreatedAt endpoint))]).

(** ** Request bodies *)

Record PairingBody := { pb_Cookies : option (gmap string string); pb_PairingID : string; pb_SelectedDeviceID : string }.

Definition set_pairing (f : string) (v : jval) (b : PairingBody) : option PairingBody :=
  if f =s "cookies" then
    (fun c => {| pb_Cookies := c; pb_PairingID := pb_PairingID b; pb_SelectedDeviceID := pb_SelectedDeviceID b |}) <$> assign_map v (pb_Cookies b)
  else if f =s "pairing_id" then
    (fun s => {| pb_Cookies := pb_Cookies b; pb_PairingID := s; pb_SelectedDeviceID := pb_SelectedDeviceID b |}) <$> assign_string v (pb_PairingID b)
  else
    (fun s => {| pb_Cookies := pb_Cookies b; pb_PairingID := pb_PairingID b; pb_SelectedDeviceID := s |}) <$> assign_string v (pb_SelectedDeviceID b).

Definition pairing_body : jval -> option PairingBody :=
  assign_struct ["cookies"; "pairing_id"; "selected_device_id"] set_pairing {| pb_Cookies := None; pb_PairingID := ""; pb_SelectedDeviceID := "" |}.

(** A structure with one string field, and one with none. *)
Definition one_string (f : string) : jval -> option string := assign_struct [f] (fun _ v s => assign_string v s) "".
Definition no_fields : jval -> option unit := assign_struct [] (fun _ _ _ => None) tt.

Record ContactBody := { cb_Phone : string; cb_ServerAlias : option jval }.

Definition set_contact (f : string) (v : jval) (b : ContactBody) : option ContactBody :=
  if f =s "phone" then (fun s => {| cb_Phone := s; cb_ServerAlias := cb_ServerAlias b |}) <$> assign_string v (cb_Phone b)
  else Some {| cb_Phone := cb_Phone b; cb_ServerAlias := Some v |}.

Definition contact_body : jval -> option ContactBody :=
  assign_struct ["phone"; "server_alias"] set_contact {| cb_Phone := ""; cb_ServerAlias := None |}.

(** The raw member, [null] included. *)
Definition alias_body : jval -> option (option jval) := assign_struct ["server_alias"] (fun _ v _ => Some (Some v)) None.

Definition set_message (f : string) (v : jval) (b : SendInput) : option SendInput :=
  let with_texts := fun conversation recipient line mode content => {|
    si_ConnectionID := si_ConnectionID b; si_ConversationID := conversation; si_Recipient := recipient; si_LineID := line;
    si_RouteMode := mode; si_Text := content; si_MediaIDs := si_MediaIDs b |} in
  let set_text := fun put old => put <$> assign_string v old in
  if f =s "conversation_id"
  then set_text (fun s => with_texts s (si_Recipient b) (si_LineID b) (si_RouteMode b) (si_Text b)) (si_ConversationID b)
  else if f =s "recipient"
  then set_text (fun s => with_texts (si_ConversationID b) s (si_LineID b) (si_RouteMode b) (si_Text b)) (si_Recipient b)
  else if f =s "line_id"
  then set_text (fun s => with_texts (si_ConversationID b) (si_Recipient b) s (si_RouteMode b) (si_Text b)) (si_LineID b)
  else if f =s "route_mode"
  then set_text (fun s => with_texts (si_ConversationID b) (si_Recipient b) (si_LineID b) s (si_Text b)) (si_RouteMode b)
  else if f =s "text"
  then set_text (fun s => with_texts (si_ConversationID b) (si_Recipient b) (si_LineID b) (si_RouteMode b) s) (si_Text b)
  else
    (fun ids => {| si_ConnectionID := si_ConnectionID b; si_ConversationID := si_ConversationID b; si_Recipient := si_Recipient b;
      si_LineID := si_LineID b; si_RouteMode := si_RouteMode b; si_Text := si_Text b; si_MediaIDs := ids |})
    <$> assign_strings v (si_MediaIDs b).

(** The connection of the path is in the input already. *)
Definition message_body (connectionID : string) : jval -> option SendInput :=
  assign_struct ["conversation_id"; "recipient"; "line_id"; "route_mode"; "text"; "media_ids"] set_message
    {| si_ConnectionID := connectionID; si_ConversationID := ""; si_Recipient := ""; si_LineID := ""; si_RouteMode := "";
       si_Text := ""; si_MediaIDs := [] |}.

Definition maxMessageJSONBytes : Z := 128 * 1024.

(** ** Handlers *)

Section Handlers.
Context (ParseMediaType : string -> option string) (Quote : string -> string).
Context (IsLetter IsDigit : Z -> bool) (ToLower : Z -> Z).
Context (api : handler).

Definition argument (arguments : list string) (i : nat) : string := default "" (arguments !! i).

Definition ownedConnection (w : Writer) (t connectionID : string) : prog ApiCall (Writer + Connection) :=
  call! found := StoreGetConnection t connectionID in
  match found with
  | Err err => Ret (inl (writeDependencyError w err))
  | Ok connection =>
    if (conn_ID connection <>s connectionID) || (conn_TenantID connection <>s t) ||
       negb (is_ok (ConnectionState_Validate (conn_State connection)))
    then Ret (inl (writeNotFound w)) else Ret (inr connection)
  end.

Definition ownedLabels (t : string) : prog ApiCall (result (list Label)) :=
  call! listed := StoreListLabels t in
  match listed with
  | Err err => Ret (Err err)
  | Ok labels =>
    let owned := fun label =>
      match NewLabel IsLetter IsDigit ToLower (label_ID label) t (label_Name label) with
      | Ok canonical => (label_TenantID label =s t) && (label_Slug canonical =s label_Slug label)
      | Err _ => false
      end in
    Ret (if forallb owned labels then Ok labels else Err [ErrTenantBoundary])
  end.

Definition createConnection (w : Writer) (request : Request) (principal : Principal) (arguments : list string) : prog ApiCall Writer :=
  let? _ := expectQuery w request [] in
  let? body := decodeStrictJSON ParseMediaType w request (one_string "display_label") in
  let label := TrimSpace body in
  call! id := NewID in
  if (label =s "") || (len label >? 128) || negb (utf8_ValidString label) || negb (validStableID id) then Ret (writeInvalidRequest w)
  else
    let record := {| rec_Connection := {| conn_ID := id; conn_TenantID := pr_TenantID principal; conn_Name := label;
                       conn_State := ConnectionStateUnpaired |}; rec_Fingerprint := [] |} in
    call! saved := StoreSaveConnection (pr_TenantID principal) record in
    match saved with
    | Err err =>
      if errors_Is err ErrConnectionQuotaExceeded then Ret (writeError w 409 "resource_limit" "tenant connection quota reached")
      else Ret (writeInternalError w)
    | Ok _ => Ret (writeJSON w 201 (Some (connectionResponse id label (ConnectionState_text ConnectionStateUnpaired))))
    end.

Definition answerAttempt (w : Writer) (outcome : result Attempt) : prog ApiCall Writer :=
  match outcome with
  | Err err => Ret (writePairingError w err)
  | Ok attempt => Ret (writeJSON w 200 (attempt_json attempt))
  end.

Definition startPairing (w : Writer) (request : Request) (principal : Principal) (arguments : list string) : prog ApiCall Writer :=
  let? _ := expectQuery w request [] in
  let? body := decodeStrictJSON ParseMediaType w request pairing_body in
  let connectionID := argument arguments 0 in
  match pb_Cookies body with
  | Some cookies =>
    if (pb_PairingID body =s "") && (pb_SelectedDeviceID body =s "") then
      call! outcome := PairingStart (pr_TenantID principal) connectionID cookies in answerAttempt w outcome
    else Ret (writeInvalidRequest w)
  | None =>
    if (pb_PairingID body <>s "") && (pb_SelectedDeviceID body <>s "") then
      if negb (ValidPairingID (pb_PairingID body)) || negb (ValidDeviceID (pb_SelectedDeviceID body)) then Ret (writeInvalidRequest w)
      else
        call! outcome := PairingSelectDevice (pr_TenantID principal) connectionID (pb_PairingID body) (pb_SelectedDeviceID body) in
        answerAttempt w outcome
    else Ret (writeInvalidRequest w)
  end.

Definition decodePairingID (w : Writer) (request : Request) : Writer + string :=
  match decodeStrictJSON ParseMediaType w request (one_string "pairing_id") with
  | inl w' => inl w'
  | inr pairingID => if ValidPairingID pairingID then inr pairingID else inl (writeInvalidRequest w)
  end.

Definition completePairing (w : Writer) (request : Request) (principal : Principal) (arguments : list string) : prog ApiCall Writer :=
  let? _ := expectQuery w request [] in
  let? pairingID := decodePairingID w request in
  call! outcome := PairingComplete (pr_TenantID principal) (argument arguments 0) pairingID in answerAttempt w outcome.

Definition cancelPairing (w : Writer) (request : Request) (principal : Principal) (arguments : list string) : prog ApiCall Writer :=
  let? _ := expectQuery w request [] in
  let? pairingID := decodePairingID w request in
  call! outcome := PairingCancel (pr_TenantID principal) (argument arguments 0) pairingID in
  match outcome with
  | Err err => Ret (writePairingError w err)
  | Ok _ => Ret (WriteHeader 204 w)
  end.

Definition reauthorize (w : Writer) (request : Request) (principal : Principal) (arguments : list string) : prog ApiCall Writer :=
  let? _ := expectQuery w request [] in
  let? _ := decodeStrictJSON ParseMediaType w request no_fields in
  do! owned := ownedConnection w (pr_TenantID principal) (argument arguments 0) in
  let? _ := owned in
  Ret (writeJSON w 200 (Some (json_map [("next_action", JString "post_pairing_start");
    ("path", JString ("/v1/connections/" +:+ argument arguments 0 +:+ "/pairing/start"))]))).

(** A page payload: the items, and the cursor when there is a next page. *)
Definition page_payload (name : string) (items : option json) (next : string) : option json :=
  marshal_map ([(name, items)] ++ when (next <>s "") (text "next_cursor" next)).

Definition listConnections (w : Writer) (request : Request) (principal : Principal) (arguments : list string) : prog ApiCall Writer :=
  let? _ := expectQuery w request ["after"; "limit"] in
  let? _ := ensureEmptyBody w request in
  if invalid_after request then Ret (writeInvalidRequest w)
  else match page_limit request with
  | None => Ret (writeInvalidRequest w)
  | Some limit =>
    call! listed := StoreListConnectionsPage (pr_TenantID principal) (Query_Get request "after") limit in
    match listed with
    | Err _ => Ret (writeInternalError w)
    | Ok page =>
      let connections := rec_Connection <$> pg_Records page in
      let foreign := fun c => (conn_TenantID c <>s pr_TenantID principal) || (conn_ID c =s "") ||
                              negb (is_ok (ConnectionState_Validate (conn_State c))) in
      if existsb foreign connections then Ret (writeNotFound w)
      else Ret (writeJSON w 200 (page_payload "connections"
        (Some (JArray ((fun c => connectionResponse (conn_ID c) (conn_Name c) (ConnectionState_text (conn_State c))) <$> connections)))
        (pg_NextCursor page)))
    end
  end.

Definition connectionHealth (w : Writer) (request : Request) (principal : Principal) (arguments : list string) : prog ApiCall Writer :=
  let? _ := expectQuery w request [] in
  let? _ := ensureEmptyBody w request in
  do! owned := ownedConnection w (pr_TenantID principal) (argument arguments 0) in
  let? connection := owned in
  let payload := text "connection_id" (conn_ID connection) ++ text "state" (ConnectionState_text (conn_State connection)) ++
    [("requires_reauthorization", Some (JBool (bool_decide (conn_State connection = ConnectionStateReauthorizationRequired))))] in
  if h_health api then
    call! found := HealthGet (pr_TenantID principal) (conn_ID connection) in
    match found with
    | Err err => if negb (errors_Is err SqlErrNoRows) then Ret (writeInternalError w) else Ret (writeJSON w 200 (marshal_map payload))
    | Ok health => Ret (writeJSON w 200 (marshal_map (payload ++ health_members health)))
    end
  else Ret (writeJSON w 200 (marshal_map payload)).

Definition listLines (w : Writer) (request : Request) (principal : Principal) (arguments : list string) : prog ApiCall Writer :=
  let? _ := expectQuery w request [] in
  let? _ := ensureEmptyBody w request in
  do! owned := ownedConnection w (pr_TenantID principal) (argument arguments 0) in
  let? connection := owned in
  call! listed := StoreListLines (pr_TenantID principal) (argument arguments 0) in
  match listed with
  | Err err => Ret (writeDependencyError w err)
  | Ok records =>
    let foreign := fun record =>
      (line_ID (lr_Line record) =s "") || (E164Phone_String (lr_Phone record) =s "") ||
      negb (is_ok (Line_ValidateFor (lr_Line record) connection)) ||
      (lr_DiscoverySource record <>s LineDiscoveryAuthenticatedGoogleSettings) && (lr_DiscoverySource record <>s LineDiscoveryLegacyUnknown) in
    if existsb foreign records then Ret (writeNotFound w)
    else Ret (writeJSON w 200 (Some (json_map [("lines", JArray (line_json <$> records)); ("routing_capabilities", routing_capabilities)])))
  end.

Definition count_reasons (rejected : list RejectedContact) : gmap string Z :=
  fold_left (fun m r => let reason := reason_text (rj_Reason r) in <[reason := default 0 (m !! reason) + 1]> m) rejected ∅.

Definition syncContacts (w : Writer) (request : Request) (principal : Principal) (arguments : list string) : prog ApiCall Writer :=
  let? _ := expectQuery w request [] in
  let? _ := ensureEmptyBody w request in
  call! synced := SyncContacts (pr_TenantID principal) (argument arguments 0) in
  match synced with
  | Err err => Ret (writeDependencyError w err)
  | Ok result => Ret (writeJSON w 200 (Some (json_map [("accepted", JInt (blen (sy_Contacts result)));
      ("quarantined", JInt (blen (sy_Rejected result)));
      ("reasons", json_map ((fun p => (p.1, JInt p.2)) <$> map_to_list (count_reasons (sy_Rejected result))))])))
  end.

(** The contacts of a page: one of another tenant is 404, one with a missing label 500. *)
Fixpoint contact_views (w : Writer) (t : string) (labels : gmap string Label) (contacts : list Contact) : Writer + list json :=
  match contacts with
  | [] => inr []
  | contact :: rest =>
    if (contact_TenantID contact <>s t) || (contact_ID contact =s "") || (E164Phone_String (contact_Phone contact) =s "")
    then inl (writeNotFound w)
    else match makeContactResponse contact labels with
    | None => inl (writeInternalError w)
    | Some view => match contact_views w t labels rest with inl w' => inl w' | inr views => inr (view :: views) end
    end
  end.

Definition listContacts (w : Writer) (request : Request) (principal : Principal) (arguments : list string) : prog ApiCall Writer :=
  let? _ := ensureEmptyBody w request in
  let? options := contactPageOptions w request in
  call! listed := StoreListContacts (pr_TenantID principal) options.1 options.2 in
  match listed with
  | Err err => Ret (writeDependencyError w err)
  | Ok page =>
    do! owned := ownedLabels (pr_TenantID principal) in
    match owned with
    | Err err => Ret (writeDependencyError w err)
    | Ok labels =>
      let? views := contact_views w (pr_TenantID principal) (label_index labels) (cpg_Contacts page) in
      let next := if cpg_NextCursor page <>s "" then encodeCursor (cpg_NextCursor page) else "" in
      Ret (writeJSON w 200 (Some (json_map [("contacts", JArray views); ("next_cursor", JString next)])))
    end
  end.

Definition putContact (w : Writer) (request : Request) (principal : Principal) (arguments : list string) : prog ApiCall Writer :=
  let? _ := expectQuery w request [] in
  let? body := decodeStrictJSON ParseMediaType w request contact_body in
  let alias := match cb_ServerAlias body with
               | None => Some None
               | Some raw => Some <$> raw_string raw
               end in
  match alias with
  | None => Ret (writeInvalidRequest w)
  | Some alias =>
    call! upserted := ContactsUpsert (pr_TenantID principal) {| ui_Phone := cb_Phone body; ui_ServerAlias := alias |} in
    match upserted with
    | Err err => if errors_Is err ErrInvalidContact then Ret (writeInvalidRequest w) else Ret (writeDependencyError w err)
    | Ok contact =>
      do! owned := ownedLabels (pr_TenantID principal) in
      match owned with
      | Err err => Ret (writeDependencyError w err)
      | Ok labels =>
        match makeContactResponse contact (label_index labels) with
        | None => Ret (writeInternalError w)
        | Some view => Ret (writeJSON w 200 (Some view))
        end
      end
    end
  end.

Definition noContent (w : Writer) (outcome : result unit) : prog ApiCall Writer :=
  match outcome with
  | Err err => Ret (writeDependencyError w err)
  | Ok _ => Ret (WriteHeader 204 w)
  end.

Definition patchContact (w : Writer) (request : Request) (principal : Principal) (arguments : list string) : prog ApiCall Writer :=
  let? _ := expectQuery w request [] in
  let? body := decodeStrictJSON ParseMediaType w request alias_body in
  match body with
  | None => Ret (writeInvalidRequest w)
  | Some raw =>
    match raw_string raw with
    | None => Ret (writeInvalidRequest w)
    | Some alias =>
      let alias := TrimSpace alias in
      if alias =s "" then
        call! outcome := StoreClearContactAlias (pr_TenantID principal) (argument arguments 0) in noContent w outcome
      else
        call! outcome := StoreSetContactAlias (pr_TenantID principal) (argument arguments 0) alias in noContent w outcome
    end
  end.

Definition listLabels (w : Writer) (request : Request) (principal : Principal) (arguments : list string) : prog ApiCall Writer :=
  let? _ := expectQuery w request [] in
  let? _ := ensureEmptyBody w request in
  do! owned := ownedLabels (pr_TenantID principal) in
  match owned with
  | Err err => Ret (writeDependencyError w err)
  | Ok labels => Ret (writeJSON w 200 (Some (json_map [("labels", JArray (makeLabelResponse <$> labels))])))
  end.

Definition createLabel (w : Writer) (request : Request) (principal : Principal) (arguments : list string) : prog ApiCall Writer :=
  let? _ := expectQuery w request [] in
  let? name := decodeStrictJSON ParseMediaType w request (one_string "name") in
  call! id := NewID in
  match NewLabel IsLetter IsDigit ToLower id (pr_TenantID principal) name with
  | Err _ => Ret (writeInvalidRequest w)
  | Ok desired =>
    do! owned := ownedLabels (pr_TenantID principal) in
    match owned with
    | Err err => Ret (writeDependencyError w err)
    | Ok labels =>
      match labelBySlug labels (label_Slug desired) with
      | Some existing => Ret (writeJSON w 200 (Some (makeLabelResponse existing)))
      | None =>
        call! created := StoreCreateLabel (pr_TenantID principal) desired in
        match created with
        | Err _ =>
          do! relisted := ownedLabels (pr_TenantID principal) in
          match relisted with
          | Ok labels =>
            match labelBySlug labels (label_Slug desired) with
            | Some existing => Ret (writeJSON w 200 (Some (makeLabelResponse existing)))
            | None => Ret (writeInternalError w)
            end
          | Err _ => Ret (writeInternalError w)
          end
        | Ok _ => Ret (writeJSON w 201 (Some (makeLabelResponse desired)))
        end
      end
    end
  end.

Definition attachLabel (w : Writer) (request : Request) (principal : Principal) (arguments : list string) : prog ApiCall Writer :=
  let? _ := expectQuery w request [] in
  let? _ := ensureEmptyBody w request in
  call! outcome := StoreAttachLabel (pr_TenantID principal) (argument arguments 0) (argument arguments 1) in noContent w outcome.

Definition detachLabel (w : Writer) (request : Request) (principal : Principal) (arguments : list string) : prog ApiCall Writer :=
  let? _ := expectQuery w request [] in
  let? _ := ensureEmptyBody w request in
  call! outcome := StoreDetachLabel (pr_TenantID principal) (argument arguments 0) (argument arguments 1) in noContent w outcome.

(** ** Messages, media and webhooks *)

Definition submitMessage (w : Writer) (request : Request) (principal : Principal) (arguments : list string) : prog ApiCall Writer :=
  let? _ := expectQuery w request [] in
  match singleHeaderValue request "Idempotency-Key" with
  | None => Ret (writeInvalidRequest w)
  | Some key =>
    if negb (api_validIdempotencyKey key) then Ret (writeInvalidRequest w)
    else
      let? input := decodeStrictJSONWithLimit ParseMediaType maxMessageJSONBytes w request (message_body (argument arguments 0)) in
      if (si_ConversationID input <>s "") && negb (ValidProviderConversationID (TrimSpace (si_ConversationID input)))
      then Ret (writeInvalidRequest w)
      else
        do! owned := ownedConnection w (pr_TenantID principal) (argument arguments 0) in
        let? _ := owned in
        if negb (h_messages api) then Ret (writeInternalError w)
        else
          call! submitted := MessagesSubmit (pr_TenantID principal) key input in
          match submitted with
          | Err err =>
            if errors_Is err ErrIdempotencyConflict
            then Ret (writeError w 409 "idempotency_conflict" "Idempotency-Key was already used for a different request")
            else if errors_Is err ErrInvalidCommand || errors_Is err ErrInvalidRoute then Ret (writeInvalidRequest w)
            else Ret (writeInternalError w)
          | Ok message => Ret (writeJSON w 202 (messagePayload message))
          end
  end.

(** The guard of the handlers that read or change one resource: an unexpected query
    parameter ends them without a response. *)
Definition bareRequest (w : Writer) (request : Request) : Writer + unit :=
  if negb (queryIsExactly request []) then inl w else ensureEmptyBody w request.

Definition orNotFound (w : Writer) (err : error) (missing : sentinel) : prog ApiCall Writer :=
  if errors_Is err missing then Ret (writeNotFound w) else Ret (writeInternalError w).

Definition getMessage (w : Writer) (request : Request) (principal : Principal) (arguments : list string) : prog ApiCall Writer :=
  let? _ := bareRequest w request in
  if negb (h_messages api) then Ret (writeInternalError w)
  else
    call! found := MessagesGet (pr_TenantID principal) (argument arguments 0) in
    match found with
    | Err err => orNotFound w err ErrMessageNotFound
    | Ok message => Ret (writeJSON w 200 (messagePayload message))
    end.

Definition listMessages (w : Writer) (request : Request) (principal : Principal) (arguments : list string) : prog ApiCall Writer :=
  let? _ := ensureEmptyBody w request in
  let? _ := expectQuery w request ["after"; "limit"] in
  if invalid_after request then Ret (writeInvalidRequest w)
  else if match Query request !! "limit" with Some values => first_value values =s "" | None => false end then Ret (writeInvalidRequest w)
  else if negb (h_messages api) then Ret (writeInternalError w)
  else
    match page_limit request with
    | None => Ret (writeInvalidRequest w)
    | Some limit =>
      call! listed := MessagesList (pr_TenantID principal) {| lo_After := Query_Get request "after"; lo_Limit := limit |} in
      match listed with
      | Err _ => Ret (writeInternalError w)
      | Ok page => Ret (writeJSON w 200 (page_payload "messages" (marshal_list (messagePayload <$> mp_Messages page)) (mp_NextCursor page)))
      end
    end.

(** The body of an upload, cut at the hard limit. *)
Definition limited_upload (body : Body) : Body :=
  if blen (bd_Data body) >? HardMaxBytes + 1
  then {| bd_Data := take (Z.to_nat (HardMaxBytes + 1)) (bd_Data body); bd_Err := [ErrText "http: request body too large"] |}
  else body.

Definition uploadMedia (w : Writer) (request : Request) (principal : Principal) (arguments : list string) : prog ApiCall Writer :=
  let? _ := expectQuery w request [] in
  let unsupported := writeError w 415 "unsupported_media_type" "a supported raster image Content-Type is required" in
  match singleHeaderValue request "Content-Type" with
  | None => Ret unsupported
  | Some contentType =>
    match ParseMediaType contentType with
    | None => Ret unsupported
    | Some mediaType =>
      if negb (HasPrefix mediaType "image/") then Ret unsupported
      else
        let filenames := Header_Values request "X-Filename" in
        if blen filenames >? 1 then Ret (writeInvalidRequest w)
        else if negb (h_media api) then Ret (writeInternalError w)
        else
          call! uploaded := MediaUpload (pr_TenantID principal) {|
            ul_Body := Some (limited_upload (default no_body (rq_Body request))); ul_ContentLength := rq_ContentLength request;
            ul_DeclaredMIME := mediaType; ul_Filename := first_value filenames |} in
          match uploaded with
          | Err err =>
            if errors_Is err ErrTooLarge || errors_Is err ErrPixelLimit
            then Ret (writeError w 413 "media_too_large" "image exceeds configured limits")
            else if errors_Is err ErrUnsupportedImage || errors_Is err ErrLengthMismatch then Ret (writeInvalidRequest w)
            else Ret (writeInternalError w)
          | Ok record => Ret (writeJSON w 201 (mediaPayload record))
          end
    end
  end.

Definition getMedia (w : Writer) (request : Request) (principal : Principal) (arguments : list string) : prog ApiCall Writer :=
  let? _ := bareRequest w request in
  if negb (h_media api) then Ret (writeInternalError w)
  else
    call! found := MediaGetMetadata (pr_TenantID principal) (argument arguments 0) in
    match found with
    | Err err => orNotFound w err ErrMediaNotFound
    | Ok record => Ret (writeJSON w 200 (mediaPayload record))
    end.

Definition getMediaContent (w : Writer) (request : Request) (principal : Principal) (arguments : list string) : prog ApiCall Writer :=
  let? _ := bareRequest w request in
  if negb (h_media api) then Ret (writeInternalError w)
  else
    call! opened := MediaOpen (pr_TenantID principal) (argument arguments 0) in
    match opened with
    | Err err => orNotFound w err ErrMediaNotFound
    | Ok (reader, record) =>
      Ret (write_body (take (Z.to_nat (mr_Size record)) (bd_Data reader))
        (WriteHeader 200
          (set_header "Content-Length" (FormatInt (mr_Size record))
            (set_header "X-Content-Type-Options" "nosniff"
              (set_header "Content-Disposition" ("attachment; filename=" +:+ Quote (mr_DisplayFilename record))
                (set_header "Content-Type" (mr_MIMEType record) w))))))
    end.

Definition createWebhook (w : Writer) (request : Request) (principal : Principal) (arguments : list string) : prog ApiCall Writer :=
  let? _ := expectQuery w request [] in
  let? destination := decodeStrictJSON ParseMediaType w request (one_string "destination") in
  if negb (h_webhooks api) then Ret (writeInternalError w)
  else
    call! created := WebhooksCreate (pr_TenantID principal) destination in
    match created with
    | Err err =>
      if errors_Is err ErrInvalidEndpoint || errors_Is err ErrUnsafeDestination then Ret (writeInvalidRequest w)
      else if errors_Is err ErrEndpointQuotaExceeded
      then Ret (writeError w 409 "resource_limit" "tenant webhook endpoint quota reached")
      else Ret (writeInternalError w)
    | Ok (endpoint, secret) =>
      Ret (writeJSON w 201 (marshal_map ([("endpoint", webhookPayload endpoint)] ++ text "secret" secret)))
    end.

Definition listWebhooks (w : Writer) (request : Request) (principal : Principal) (arguments : list string) : prog ApiCall Writer :=
  let? _ := expectQuery w request ["after"; "limit"] in
  let? _ := ensureEmptyBody w request in
  if negb (h_webhooks api) then Ret (writeInternalError w)
  else if invalid_after request then Ret (writeInvalidRequest w)
  else match page_limit request with
  | None => Ret (writeInvalidRequest w)
  | Some limit =>
    call! listed := WebhooksList (pr_TenantID principal) (Query_Get request "after") limit in
    match listed with
    | Err _ => Ret (writeInternalError w)
    | Ok page => Ret (writeJSON w 200 (page_payload "webhooks" (marshal_list (map webhookPayload page.1)) page.2))
    end
  end.

Definition deleteWebhook (w : Writer) (request : Request) (principal : Principal) (arguments : list string) : prog ApiCall Writer :=
  let? _ := bareRequest w request in
  if negb (h_webhooks api) then Ret (writeInternalError w)
  else
    call! deleted := WebhooksDelete (pr_TenantID principal) (argument arguments 0) in
    match deleted with
    | Err _ => Ret (writeNotFound w)
    | Ok deleting =>
      if (deleting : bool) then Ret (writeJSON w 202 (Some (json_map [("status", JString "deleting")]))) else Ret (WriteHeader 204 w)
    end.

Definition rotateWebhook (w : Writer) (request : Request) (principal : Principal) (arguments : list string) : prog ApiCall Writer :=
  let? _ := bareRequest w request in
  if negb (h_webhooks api) then Ret (writeInternalError w)
  else
    call! rotated := WebhooksRotate (pr_TenantID principal) (argument arguments 0) in
    match rotated with
    | Err _ => Ret (writeNotFound w)
    | Ok secret => Ret (writeJSON w 200 (Some (json_map [("secret", JString secret)])))
    end.

Definition replayWebhookDLQ (w : Writer) (request : Request) (principal : Principal) (arguments : list string) : prog ApiCall Writer :=
  let? _ := bareRequest w request in
  if negb (h_webhooks api) then Ret (writeInternalError w)
  else
    call! replayed := WebhooksReplay (pr_TenantID principal) (argument arguments 0) in
    match replayed with
    | Err _ => Ret (writeNotFound w)
    | Ok _ => Ret (WriteHeader 202 w)
    end.

(** ** Routes *)

Record route := {
  ro_method : string;
  ro_allow : string;
  ro_scope : string;
  ro_action : Writer -> Request -> Principal -> list string -> prog ApiCall Writer
}.

Definition read : string := "messaging:read".
Definition write : string := "messaging:write".

(** A route for the request's method alone. *)
Definition only (method scope : string) (action : Writer -> Request -> Principal -> list string -> prog ApiCall Writer) : route :=
  {| ro_method := method; ro_allow := method; ro_scope := scope; ro_action := action |}.

(** A path with [GET] and a method that changes it. *)
Definition listed (requestMethod method : string) (change view : Writer -> Request -> Principal -> list string -> prog ApiCall Writer) : route :=
  let allow := "GET, " +:+ method in
  if requestMethod =s method then {| ro_method := method; ro_allow := allow; ro_scope := write; ro_action := change |}
  else {| ro_method := "GET"; ro_allow := allow; ro_scope := read; ro_action := view |}.

Definition match_two (resource requestMethod : string) : option (route * list string) :=
  if resource =s "connections" then Some (listed requestMethod "POST" createConnection listConnections, [])
  else if resource =s "messages" then Some (only "GET" read listMessages, [])
  else if resource =s "media" then Some (only "POST" write uploadMedia, [])
  else if resource =s "webhooks" then Some (listed requestMethod "POST" createWebhook listWebhooks, [])
  else if resource =s "contacts" then Some (listed requestMethod "PUT" putContact listContacts, [])
  else if resource =s "labels" then Some (listed requestMethod "POST" createLabel listLabels, [])
  else None.

Definition match_three (resource id : string) : option (route * list string) :=
  if (resource =s "messages") && (id <>s "") then Some (only "GET" read getMessage, [id])
  else if (resource =s "media") && (id <>s "") then Some (only "GET" read getMedia, [id])
  else if (resource =s "webhooks") && HasSuffix id ":rotate" then Some (only "POST" write rotateWebhook, [TrimSuffix id ":rotate"])
  else if (resource =s "webhooks") && (id <>s "") then Some (only "DELETE" write deleteWebhook, [id])
  else if (resource =s "contacts") && (id <>s "") then Some (only "PATCH" write patchContact, [id])
  else None.

Definition match_four (resource id action : string) : option (route * list string) :=
  let connection := (resource =s "connections") && (id <>s "") in
  if connection && (action =s "health") then Some (only "GET" read connectionHealth, [id])
  else if connection && (action =s "lines") then Some (only "GET" read listLines, [id])
  else if connection && (action =s "messages") then Some (only "POST" write submitMessage, [id])
  else if (resource =s "media") && (id <>s "") && (action =s "content") then Some (only "GET" read getMediaContent, [id])
  else if (resource =s "webhooks") && (id =s "dlq") && HasSuffix action ":replay"
  then Some (only "POST" write replayWebhookDLQ, [TrimSuffix action ":replay"])
  else if connection && (action =s "contacts:sync") then Some (only "POST" write syncContacts, [id])
  else if connection && (action =s "reauthorize") then Some (only "POST" write reauthorize, [id])
  else None.

Definition match_five (resource id action sub requestMethod : string) : option (route * list string) :=
  let pairing := (resource =s "connections") && (id <>s "") && (action =s "pairing") in
  if pairing && (sub =s "start") then Some (only "POST" write startPairing, [id])
  else if pairing && (sub =s "complete") then Some (only "POST" write completePairing, [id])
  else if pairing && (sub =s "cancel") then Some (only "POST" write cancelPairing, [id])
  else if (resource =s "contacts") && (id <>s "") && (action =s "labels") && (sub <>s "") then
    Some ((if requestMethod =s "DELETE"
           then {| ro_method := "DELETE"; ro_allow := "PUT, DELETE"; ro_scope := write; ro_action := detachLabel |}
           else {| ro_method := "PUT"; ro_allow := "PUT, DELETE"; ro_scope := write; ro_action := attachLabel |}), [id; sub])
  else None.

Definition match_path (path requestMethod : string) : option (route * list string) :=
  if (path =s "") || HasSuffix path "/" then None
  else match Split 47 (TrimPrefix path "/") with
  | [version; a] => if version =s "v1" then match_two a requestMethod else None
  | [version; a; b] => if version =s "v1" then match_three a b else None
  | [version; a; b; c] => if version =s "v1" then match_four a b c else None
  | [version; a; b; c; d] => if version =s "v1" then match_five a b c d requestMethod else None
  | _ => None
  end.

Definition unauthorized (w : Writer) : Writer :=
  writeError (set_header "Www-Authenticate" "Bearer" w) 401 "unauthorized" "valid bearer token required".

Definition token_byte (c : ascii) : bool := negb ((byte_val c <? 0x21) || (byte_val c >? 0x7e) || (byte_val c =? 44)).

(** The token of the one [Authorization] header. *)
Definition bearer (request : Request) : option string :=
  match Header_Values request "Authorization" with
  | [value] =>
    let b := bytes_of value in
    if (blen b <? 8) || negb (EqualFold (string_of (take 6 b)) "Bearer") || negb (bool_decide (b !! 6%nat = Some (byte_of_Z 32))) then None
    else let rawToken := drop 7 b in if forallb token_byte rawToken then Some (string_of rawToken) else None
  | _ => None
  end.

Definition blank (s : string) : bool := TrimSpace s =s "".

Definition authenticate (w : Writer) (request : Request) : prog ApiCall (Writer + Principal) :=
  match bearer request with
  | None => Ret (inl (unauthorized w))
  | Some rawToken =>
    call! verified := VerifyToken rawToken in
    match verified with
    | Err _ => Ret (inl (unauthorized w))
    | Ok principal =>
      if blank (pr_Subject principal) || blank (pr_TenantID principal) then Ret (inl (unauthorized w)) else Ret (inr principal)
    end
  end.

Definition newRequestID (buffer : option bytes) : string :=
  match buffer with Some buffer => string_of (hex_encode buffer) | None => "request-unavailable" end.

Definition requestID (request : Request) : prog ApiCall string :=
  let accepted := acceptedRequestID (Header_Get request "X-Request-Id") in
  if accepted =s "" then call! buffer := ReadRandom 16 in Ret (newRequestID buffer) else Ret accepted.

Definition ServeHTTP (request : Request) : prog ApiCall Writer :=
  do! id := requestID request in
  let w := set_header "Cache-Control" "no-store" (set_header "X-Request-Id" id new_writer) in
  if negb (HasPrefix (rq_Path request) "/v1") then Ret (writeNotFound w)
  else
    do! authenticated := authenticate w request in
    let? principal := authenticated in
    if hasTenantInput request then Ret (writeError w 400 "invalid_request" "tenant identity must come from the access token")
    else match match_path (rq_Path request) (rq_Method request) with
    | None => Ret (writeNotFound w)
    | Some (matched, arguments) =>
      if rq_Method request <>s ro_method matched
      then Ret (writeError (set_header "Allow" (ro_allow matched) w) 405 "method_not_allowed" "method not allowed")
      else if negb (HasScope principal (ro_scope matched)) then Ret (writeError w 403 "forbidden" "required scope is missing")
      else ro_action matched w request principal arguments
    end.
End Handlers.
