(* ===== verification/ApiSafety.v ===== *)
(** * What the HTTP API guarantees

    Every call to a service is made for the tenant of a verified token, under the
    scope of the route; an unexpected query parameter makes six routes report
    success without doing anything; the cursors of contact pages are read back. *)

From S2P Require Import Prelude GoText Crypto GoEncoding Domain Messaging Session EventContract Store Connections Rely PairingService Webhook Delivery Leases Kafka Ingress Responses Lines Images MediaStore MediaIngest Contacts ApiJson Auth Http Api.

(** ** Calls *)

Inductive api_entry :=
| Verified (rawToken : string) (answer : result Principal)
| RandomRead
| FreshID
| Served (tenantID : string) (changes : bool).

(** The tenant a service is called for, and whether the call can change something. *)
Definition service {X} (c : ApiCall X) : option (string * bool) :=
  match c with
  | VerifyToken _ | ReadRandom _ | NewID => None
  | StoreGetConnection t _ | StoreListConnectionsPage t _ _ | StoreListLines t _ | StoreListContacts t _ _ | StoreListLabels t
  | HealthGet t _ | MessagesGet t _ | MessagesList t _ | MediaGetMetadata t _ | MediaOpen t _ | WebhooksList t _ _ => Some (t, false)
  | StoreSaveConnection t _ | StoreSetContactAlias t _ _ | StoreClearContactAlias t _ | StoreCreateLabel t _ | StoreAttachLabel t _ _
  | StoreDetachLabel t _ _ | ContactsUpsert t _ | PairingStart t _ _ | PairingSelectDevice t _ _ _ | PairingComplete t _ _
  | PairingCancel t _ _ | SyncContacts t _ | MessagesSubmit t _ _ | MediaUpload t _ | WebhooksCreate t _ | WebhooksRotate t _
  | WebhooksDelete t _ | WebhooksReplay t _ => Some (t, true)
  end.

Definition api_log (X : Type) (c : ApiCall X) : X -> api_entry :=
  match c in ApiCall Y return Y -> api_entry with
  | VerifyToken rawToken => fun answer => Verified rawToken answer
  | ReadRandom _ => fun _ => RandomRead
  | NewID => fun _ => FreshID
  | c => fun _ => match service c with Some (t, changes) => Served t changes | None => FreshID end
  end.

(** Every call a program can make satisfies [P]. *)
Fixpoint calls_all {A} (P : forall X, ApiCall X -> Prop) (p : prog ApiCall A) : Prop :=
  match p with
  | Ret _ => True
  | Call c k => P _ c /\ forall x, calls_all P (k x)
  end.

Lemma calls_all_bind {A B} P (p : prog ApiCall A) (k : A -> prog ApiCall B) :
  calls_all P p -> (forall a, calls_all P (k a)) -> calls_all P (prog_bind p k).
Proof. intros Hp Hk. induction p as [a | X c k' IH]; cbn in *; [apply Hk|]. destruct Hp as [Hc Hp]. split; [done|]. intros x. apply IH, Hp. Qed.

Lemma calls_all_mono {A} (P Q : forall X, ApiCall X -> Prop) (p : prog ApiCall A) :
  (forall X (c : ApiCall X), P X c -> Q X c) -> calls_all P p -> calls_all Q p.
Proof. intros H. induction p as [a | X c k IH]; [done|]. intros [Hc Hk]. split; [by apply H|]. intros x. apply IH, Hk. Qed.

Lemma calls_all_executes {A} P (E : api_entry -> Prop) (p : prog ApiCall A) t a :
  (forall X (c : ApiCall X) x, P X c -> E (api_log X c x)) -> calls_all P p -> executes api_log p t a -> Forall E t.
Proof.
  intros HE. revert t. induction p as [a' | X c k IH]; intros t Hp He; cbn in He; [by destruct He as [-> _]|].
  destruct Hp as [Hc Hk]. destruct He as (x & t' & -> & He). constructor; [by apply HE|]. by apply (IH x).
Qed.

(** A handler's calls: identifiers, and services for the tenant, changing something
    only when allowed to. *)
Definition for_tenant (t : string) (changes : bool) (X : Type) (c : ApiCall X) : Prop :=
  match c with
  | NewID => True
  | VerifyToken _ | ReadRandom _ => False
  | c => exists b, service c = Some (t, b) /\ (b = true -> changes = true)
  end.

Ltac one_call := lazymatch goal with |- for_tenant _ _ _ _ => first [exact I | by eexists] end.

Ltac handler_calls :=
  repeat first
    [ exact I
    | one_call
    | lazymatch goal with
      | |- calls_all _ (Ret _) => exact I
      | |- calls_all _ (Call _ _) => split; [one_call | intros ?]
      | |- calls_all _ (prog_bind _ _) => apply calls_all_bind; [|intros ?]
      | |- calls_all _ (match ?x with _ => _ end) => destruct x
      | |- calls_all _ (answerAttempt _ _) => unfold answerAttempt
      | |- calls_all _ (noContent _ _) => unfold noContent
      | |- calls_all _ (orNotFound _ _ _) => unfold orNotFound
      end ].

Ltac head_of t := lazymatch t with ?f _ => head_of f | _ => t end.

Section Routes.
Context (ParseMediaType : string -> option string) (Quote : string -> string).
Context (IsLetter IsDigit : Z -> bool) (ToLower : Z -> Z).
Context (api : handler).

Abbreviation action := (Writer -> Request -> Principal -> list string -> prog ApiCall Writer).

(** What a route's action may call. *)
Definition confined (changes : bool) (a : action) : Prop :=
  forall w request principal arguments, calls_all (for_tenant (pr_TenantID principal) changes) (a w request principal arguments).

Lemma ownedConnection_calls w t c changes : calls_all (for_tenant t changes) (ownedConnection w t c).
Proof. unfold ownedConnection. handler_calls. Qed.

Lemma ownedLabels_calls t changes : calls_all (for_tenant t changes) (ownedLabels IsLetter IsDigit ToLower t).
Proof. unfold ownedLabels. handler_calls. Qed.

Ltac confine :=
  intros w request principal arguments; cbn [ro_action only];
  match goal with |- calls_all _ ?p => let h := head_of p in unfold h end;
  handler_calls; try apply ownedConnection_calls; try apply ownedLabels_calls.

(** The routes: a scope, and an action that changes nothing under the read scope. *)
Definition route_ok (r : option (route * list string)) : Prop :=
  forall matched arguments, r = Some (matched, arguments) ->
  exists changes : bool, ro_scope matched = (if changes then write else read) /\ confined changes (ro_action matched).

Lemma route_ok_none : route_ok None.
Proof. done. Qed.

Lemma route_ok_some matched arguments (changes : bool) :
  ro_scope matched = (if changes then write else read) -> confined changes (ro_action matched) -> route_ok (Some (matched, arguments)).
Proof. intros Hs Hc m a [= <- <-]. by exists changes. Qed.

Ltac routes :=
  repeat first
    [ apply route_ok_none
    | eapply (route_ok_some _ _ true); [done | confine; fail]
    | eapply (route_ok_some _ _ false); [done | confine; fail]
    | match goal with |- route_ok (if ?b then _ else _) => destruct b end
    | match goal with |- route_ok (Some (if ?b then _ else _, _)) => destruct b end ].

Lemma match_two_ok a m : route_ok (match_two ParseMediaType IsLetter IsDigit ToLower api a m).
Proof. unfold match_two, listed. routes. Qed.

Lemma match_three_ok a b : route_ok (match_three ParseMediaType api a b).
Proof. unfold match_three. routes. Qed.

Lemma match_four_ok a b c : route_ok (match_four ParseMediaType Quote api a b c).
Proof. unfold match_four. routes. Qed.

Lemma match_five_ok a b c d m : route_ok (match_five ParseMediaType a b c d m).
Proof. unfold match_five. routes. Qed.

Lemma match_path_ok path m : route_ok (match_path ParseMediaType Quote IsLetter IsDigit ToLower api path m).
Proof.
  unfold match_path. case_if_goal E; [done|].
  destruct (Split _ _) as [|v [|a [|b [|c [|d [|? ?]]]]]]; try done;
    (case_if_goal E'; [|done]);
    [apply match_two_ok | apply match_three_ok | apply match_four_ok | apply match_five_ok].
Qed.

(** ** One request *)

Definition serves (request : Request) (t : list api_entry) (w : Writer) : Prop :=
  executes api_log (ServeHTTP ParseMediaType Quote IsLetter IsDigit ToLower api request) t w.

(** No service may be called for the principal. *)
Definition unfit (request : Request) (principal : Principal) : bool :=
  blank (pr_Subject principal) || blank (pr_TenantID principal) || hasTenantInput request ||
  match match_path ParseMediaType Quote IsLetter IsDigit ToLower api (rq_Path request) (rq_Method request) with
  | Some (matched, _) => (rq_Method request <>s ro_method matched) || negb (HasScope principal (ro_scope matched))
  | None => true
  end.

Definition no_service (e : api_entry) : Prop := match e with Verified _ _ | RandomRead => True | _ => False end.

(** The request ends before a route is taken: no service was called, the response is an
    error, and no fit principal was verified. *)
Definition refused (request : Request) (t : list api_entry) (w : Writer) : Prop :=
  Forall no_service t /\ match w_Status w with Some status => 400 <= status < 500 | None => False end /\
  forall token principal, Verified token (Ok principal) ∈ t -> unfit request principal = true.

(** The request reaches the action of a route. *)
Record routed (request : Request) (pre calls : list api_entry) (token : string) (principal : Principal) (matched : route)
    (arguments : list string) (w0 w : Writer) : Prop := {
  ra_first : Forall (eq RandomRead) pre;
  ra_token : bearer request = Some token;
  ra_subject : blank (pr_Subject principal) = false;
  ra_tenant : blank (pr_TenantID principal) = false;
  ra_input : hasTenantInput request = false;
  ra_route : match_path ParseMediaType Quote IsLetter IsDigit ToLower api (rq_Path request) (rq_Method request) = Some (matched, arguments);
  ra_method : rq_Method request = ro_method matched;
  ra_scope : HasScope principal (ro_scope matched) = true;
  ra_fresh : w_Status w0 = None /\ w_Body w0 = [];
  ra_action : executes api_log (ro_action matched w0 request principal arguments) calls w
}.

Lemma requestID_executes request t id : executes api_log (requestID request) t id -> Forall (eq RandomRead) t.
Proof.
  unfold requestID. case_if_goal E; cbn; [intros (x & t' & -> & -> & ->) | intros [-> ->]]; [by constructor | done].
Qed.

Lemma authenticate_executes w request t r :
  executes api_log (authenticate w request) t r ->
  match r with
  | inl w' => w' = unauthorized w /\ Forall no_service t /\
      forall token principal, Verified token (Ok principal) ∈ t -> blank (pr_Subject principal) || blank (pr_TenantID principal) = true
  | inr principal => exists token, t = [Verified token (Ok principal)] /\ bearer request = Some token /\
      blank (pr_Subject principal) = false /\ blank (pr_TenantID principal) = false
  end.
Proof.
  unfold authenticate. destruct (bearer request) as [token|]; [|intros [-> ->]; split_and!; [done..|]; by intros ? ? ?%elem_of_nil].
  intros (x & t' & -> & He). destruct x as [principal|e]; cbn in He.
  - case_if_in He E; destruct He as [-> ->].
    + split_and!; [done | by constructor|]. intros ? ? [[= _ <-]|[]%elem_of_nil]%elem_of_cons. done.
    + apply orb_false_iff in E as [? ?]. by exists token.
  - destruct He as [-> ->]. split_and!; [done | by constructor|]. by intros ? ? [?|[]%elem_of_nil]%elem_of_cons.
Qed.

Lemma refused_after request pre token principal w :
  Forall (eq RandomRead) pre -> unfit request principal = true ->
  match w_Status w with Some status => 400 <= status < 500 | None => False end ->
  refused request (pre ++ [Verified token (Ok principal)] ++ []) w.
Proof.
  intros Hpre Hu Hw. rewrite app_nil_r. split_and!; [|done|].
  - apply Forall_app. split; [eapply Forall_impl; [exact Hpre|]; by intros ? <- | by constructor].
  - intros ? ? [Hin|[[= _ <-]|[]%elem_of_nil]%elem_of_cons]%elem_of_app; [|done].
    rewrite Forall_forall in Hpre. by apply Hpre in Hin.
Qed.

Lemma serves_cases request t w :
  serves request t w -> refused request t w \/
  exists pre token principal matched arguments w0 calls,
    t = pre ++ Verified token (Ok principal) :: calls /\ routed request pre calls token principal matched arguments w0 w.
Proof.
  unfold serves, ServeHTTP. intros (pre & t1 & id & -> & Hpre%requestID_executes & He)%executes_bind.
  assert (Forall no_service pre) as Hp by (eapply Forall_impl; [exact Hpre|]; by intros ? <-).
  assert (forall token principal, ~ Verified token (Ok principal) ∈ pre) as Hn.
  { intros ? ? Hin. rewrite Forall_forall in Hpre. by apply Hpre in Hin. }
  case_if_in He E.
  { destruct He as [-> ->]. left. rewrite app_nil_r. split_and!; [done | cbn; lia|]. intros ? ? ?. by exfalso; eapply Hn. }
  apply executes_bind in He as (tv & calls & r & -> & Ha%authenticate_executes & He). destruct r as [w'|principal].
  { destruct Ha as (-> & Hv & Hb), He as [-> ->]. left. rewrite app_nil_r. split_and!; [by apply Forall_app | cbn; lia|].
    intros ? ? [?|Hin%Hb]%elem_of_app; [by exfalso; eapply Hn|]. unfold unfit. by rewrite Hin. }
  destruct Ha as (token & -> & Hb & Hs & Ht).
  case_if_in He Ei; [destruct He as [-> ->]; left; apply refused_after; [done | unfold unfit; by rewrite Ei, orb_true_r | cbn; lia]|].
  destruct (match_path _ _ _ _ _ _ _ _) as [[matched arguments]|] eqn:Em.
  2: { destruct He as [-> ->]. left. apply refused_after; [done | unfold unfit; by rewrite Em, orb_true_r | cbn; lia]. }
  case_if_in He Emd; [destruct He as [-> ->]; left; apply refused_after; [done | unfold unfit; by rewrite Em, Emd, orb_true_r | cbn; lia]|].
  case_if_in He Es; [destruct He as [-> ->]; left; apply refused_after; [done | unfold unfit; by rewrite Em, Es, !orb_true_r | cbn; lia]|].
  right. eexists pre, token, principal, matched, arguments, _, calls. split; [done|].
  apply negb_false_iff, String.eqb_eq in Emd. apply negb_false_iff in Es. constructor; try done. by split.
Qed.

(** An entry of a handler for a tenant. *)
Definition tenant_entry (principal : Principal) (e : api_entry) : Prop :=
  match e with
  | FreshID => True
  | Served t changes => t = pr_TenantID principal /\ (changes = true -> HasScope principal write = true)
  | _ => False
  end.

Lemma for_tenant_entry principal changes X (c : ApiCall X) x :
  (changes = true -> HasScope principal write = true) -> for_tenant (pr_TenantID principal) changes X c ->
  tenant_entry principal (api_log X c x).
Proof. intros Hw. destruct c; cbn; intros H; try done; destruct H as (b & [= <- <-] & Hb); auto. Qed.
End Routes.

(** C4. Every service call of a request is made for the tenant of its verified token.
    The response is a 4xx error made without any service call, for want of a fit
    principal, or the single bearer token was verified first, to a principal with a
    subject and a tenant; the request named no tenant by header or query; the path and
    the method are those of a route whose scope the principal has; and every call after
    the verification is for that tenant, one that can change something only with the
    write scope. *)
Theorem api_calls_authorized ParseMediaType Quote IsLetter IsDigit ToLower api request t w
  (Hrun : serves ParseMediaType Quote IsLetter IsDigit ToLower api request t w) :
  refused ParseMediaType Quote IsLetter IsDigit ToLower api request t w \/
  exists pre token principal calls matched arguments,
    t = pre ++ Verified token (Ok principal) :: calls /\ Forall (eq RandomRead) pre /\
    bearer request = Some token /\ blank (pr_Subject principal) = false /\ blank (pr_TenantID principal) = false /\
    hasTenantInput request = false /\
    match_path ParseMediaType Quote IsLetter IsDigit ToLower api (rq_Path request) (rq_Method request) = Some (matched, arguments) /\
    rq_Method request = ro_method matched /\ HasScope principal (ro_scope matched) = true /\
    Forall (tenant_entry principal) calls.
Proof.
  apply serves_cases in Hrun as [H|(pre & token & principal & matched & arguments & w0 & calls & -> & H)]; [by left|]. right.
  exists pre, token, principal, calls, matched, arguments. destruct H.
  destruct (match_path_ok _ _ _ _ _ _ _ _ _ _ ra_route0) as (changes & Hs & Hc).
  split_and!; try done. eapply calls_all_executes; [|apply Hc | exact ra_action0].
  intros X c x. apply for_tenant_entry. intros ->. by rewrite <- ra_scope0, Hs.
Qed.

(** ** Unexpected query parameters *)

(** The routes that check the query without answering. *)
Definition bare_actions (Quote : string -> string) (api : handler)
    : list (Writer -> Request -> Principal -> list string -> prog ApiCall Writer) :=
  [getMessage api; getMedia api; getMediaContent Quote api; deleteWebhook api; rotateWebhook api; replayWebhookDLQ api].

Lemma bare_silent Quote api a w request principal arguments t w' :
  a ∈ bare_actions Quote api -> queryIsExactly request [] = false ->
  executes api_log (a w request principal arguments) t w' -> t = [] /\ w' = w.
Proof.
  intros Ha Hq He. unfold bare_actions in Ha. rewrite !elem_of_cons in Ha.
  assert (bareRequest w request = inl w) as Hb by (unfold bareRequest; by rewrite Hq).
  destruct Ha as [->|[->|[->|[->|[->|[->|[]%elem_of_nil]]]]]];
    unfold getMessage, getMedia, getMediaContent, deleteWebhook, rotateWebhook, replayWebhookDLQ in He;
    rewrite Hb in He; exact He.
Qed.

(** C40. A request to read a message or a media object, to delete or rotate a webhook or to
    replay a dead letter that carries an unexpected query parameter does nothing, and
    when its principal is fit it reports success: no service is called, nothing is
    written, and the server sends 200 with an empty body. *)
Theorem unexpected_query_succeeds ParseMediaType Quote IsLetter IsDigit ToLower api request t w matched arguments
  (Hroute : match_path ParseMediaType Quote IsLetter IsDigit ToLower api (rq_Path request) (rq_Method request) = Some (matched, arguments))
  (Hbare : ro_action matched ∈ bare_actions Quote api)
  (Hquery : queryIsExactly request [] = false)
  (Hrun : serves ParseMediaType Quote IsLetter IsDigit ToLower api request t w) :
  Forall no_service t /\
  forall token principal, Verified token (Ok principal) ∈ t ->
    unfit ParseMediaType Quote IsLetter IsDigit ToLower api request principal = false ->
    w_Status w = None /\ sent_status w = 200 /\ w_Body w = [].
Proof.
  apply serves_cases in Hrun as [(H & _ & Hu)|(pre & token & principal & m & a & w0 & calls & -> & H)].
  { split; [done|]. intros token principal Hin. by rewrite (Hu token principal). }
  destruct H. rewrite Hroute in ra_route0. injection ra_route0 as <- <-.
  destruct (bare_silent _ _ _ _ _ _ _ _ _ Hbare Hquery ra_action0) as [-> ->]. split.
  - apply Forall_app. split; [eapply Forall_impl; [exact ra_first0|]; by intros ? <- | by constructor].
  - intros _ _ _ _. unfold sent_status. destruct ra_fresh0 as [-> ->]. done.
Qed.

(** ** A concrete deployment *)

Definition sample_api : handler := {| h_health := true; h_messages := true; h_media := true; h_webhooks := true |}.
Definition sample_principal : Principal := {| pr_Subject := "user-1"; pr_TenantID := "tenant-1"; pr_Scopes := ["messaging:read"; "messaging:write"] |}.

Definition sample_answer (X : Type) (c : ApiCall X) : unit -> unit * X :=
  match c in ApiCall Y return unit -> unit * Y with
  | VerifyToken _ => fun s => (s, Ok sample_principal)
  | ReadRandom n => fun s => (s, Some (repeat (byte_of_Z 0) n))
  | NewID => fun s => (s, "connection-1")
  | WebhooksDelete _ _ => fun s => (s, Ok false)
  | StoreSaveConnection _ _ | StoreSetContactAlias _ _ _ | StoreClearContactAlias _ _ | StoreCreateLabel _ _
  | StoreAttachLabel _ _ _ | StoreDetachLabel _ _ _ | PairingCancel _ _ _ | WebhooksReplay _ _ => fun s => (s, Ok tt)
  | _ => fun s => (s, Err [ErrText "unavailable"])
  end.

Definition sample_media_type (value : string) : option string := Some value.

Definition sample_request (method path query : string) (body : option Body) : Request := {|
  rq_Method := method; rq_Path := path; rq_RawQuery := query;
  rq_Header := {["Authorization" := ["bearer token-1"]; "Content-Type" := ["application/json"]; "X-Request-Id" := ["request-1"]]};
  rq_ContentLength := -1; rq_Body := body |}.

Definition sample_serves (request : Request) : list api_entry * Writer :=
  transcript api_log sample_answer
    (ServeHTTP sample_media_type id (fun r => between 97 122 r) (fun _ => false) id sample_api request) tt.

Lemma sample_serves_run request :
  serves sample_media_type id (fun r => between 97 122 r) (fun _ => false) id sample_api request (sample_serves request).1 (sample_serves request).2.
Proof.
  unfold sample_serves. pose proof (transcript_executes api_log sample_answer
    (ServeHTTP sample_media_type id (fun r => between 97 122 r) (fun _ => false) id sample_api request) tt) as H.
  by destruct (transcript _ _ _ _).
Qed.

(** Creating a connection. *)
Definition create_request : Request :=
  sample_request "POST" "/v1/connections" "" (Some {| bd_Data := sample_json "{'display_label':' Office '}"; bd_Err := [] |}).

Example create_calls :
  (sample_serves create_request).1 = [Verified "token-1" (Ok sample_principal); FreshID; Served "tenant-1" true] /\
  w_Status (sample_serves create_request).2 = Some 201 /\
  w_Body (sample_serves create_request).2 = sample_json "{'id':'connection-1','name':'Office','state':'unpaired'}" ++ [byte_of_Z 10].
Proof. vm_compute. done. Qed.

Lemma api_calls_authorized_witness :
  refused sample_media_type id (fun r => between 97 122 r) (fun _ => false) id sample_api create_request
    (sample_serves create_request).1 (sample_serves create_request).2 \/
  exists pre token principal calls matched arguments,
    (sample_serves create_request).1 = pre ++ Verified token (Ok principal) :: calls /\ Forall (eq RandomRead) pre /\
    bearer create_request = Some token /\ blank (pr_Subject principal) = false /\ blank (pr_TenantID principal) = false /\
    hasTenantInput create_request = false /\
    match_path sample_media_type id (fun r => between 97 122 r) (fun _ => false) id sample_api (rq_Path create_request)
      (rq_Method create_request) = Some (matched, arguments) /\
    rq_Method create_request = ro_method matched /\ HasScope principal (ro_scope matched) = true /\
    Forall (tenant_entry principal) calls.
Proof. apply (api_calls_authorized sample_media_type id (fun r => between 97 122 r) (fun _ => false) id sample_api create_request), sample_serves_run. Defined.

(** Deleting a webhook, with a parameter the route does not know. *)
Definition delete_request (query : string) : Request := sample_request "DELETE" "/v1/webhooks/endpoint-1" query None.

Example delete_calls :
  (sample_serves (delete_request "")).1 = [Verified "token-1" (Ok sample_principal); Served "tenant-1" true] /\
  w_Status (sample_serves (delete_request "")).2 = Some 204 /\
  (sample_serves (delete_request "force=1")).1 = [Verified "token-1" (Ok sample_principal)] /\
  w_Status (sample_serves (delete_request "force=1")).2 = None.
Proof. vm_compute. done. Qed.

Lemma unexpected_query_succeeds_witness :
  Forall no_service (sample_serves (delete_request "force=1")).1 /\
  forall token principal, Verified token (Ok principal) ∈ (sample_serves (delete_request "force=1")).1 ->
    unfit sample_media_type id (fun r => between 97 122 r) (fun _ => false) id sample_api (delete_request "force=1") principal = false ->
    w_Status (sample_serves (delete_request "force=1")).2 = None /\ sent_status (sample_serves (delete_request "force=1")).2 = 200 /\
    w_Body (sample_serves (delete_request "force=1")).2 = [].
Proof.
  apply (unexpected_query_succeeds sample_media_type id (fun r => between 97 122 r) (fun _ => false) id sample_api (delete_request "force=1")
    _ _ (only "DELETE" write (deleteWebhook sample_api)) ["endpoint-1"]).
  - reflexivity.
  - unfold bare_actions. rewrite !elem_of_cons. cbn. tauto.
  - vm_compute. reflexivity.
  - apply sample_serves_run.
Defined.

(** ** Cursors *)

Lemma length_base64_digits b : 3 * blen (base64_digits b) <= 4 * blen b + 2 /\ 4 * blen b <= 3 * blen (base64_digits b).
Proof.
  unfold blen. induction b as [|x|x y|x y z b IH] using triples_ind; cbn [base64_digits length]; lia.
Qed.

Lemma len_encodeCursor after :
  len (encodeCursor after) <= maxEncodedCursorBytes <-> len after <= 492.
Proof.
  unfold encodeCursor. rewrite (len_bytes (string_of _)), bytes_of_string_of, base64_encode_digits. unfold blen at 1. rewrite length_fmap.
  fold (blen (base64_digits (cursor_prefix ++ bytes_of after))).
  destruct (length_base64_digits (cursor_prefix ++ bytes_of after)) as [H1 H2].
  rewrite (len_bytes after). revert H1 H2. unfold blen. rewrite length_app. change (length cursor_prefix) with 20%nat.
  unfold maxEncodedCursorBytes. lia.
Qed.

Lemma utf8_Valid_prefix p b : ascii_bytes p -> utf8_Valid (p ++ b) = utf8_Valid b.
Proof. intros H. induction H as [|c p Hc _ IH]; [done|]. cbn [app]. unfold utf8_Valid in *. rewrite chunks_ascii_cons by done. cbn. exact IH. Qed.

Lemma cursor_prefix_ascii : ascii_bytes cursor_prefix.
Proof.
  apply Forall_forall. intros c Hc. assert (forallb (fun c => byte_val c <? 0x80) cursor_prefix = true) as H by (vm_compute; reflexivity).
  rewrite forallb_forall in H. by apply Z.ltb_lt, H, list_elem_of_In.
Qed.

(** The contact a page ends with is read back from the cursor of the page, exactly when
    its identifier is at most 492 bytes of UTF-8, not empty, without NUL, CR and LF. *)
Theorem cursor_round_trip after :
  decodeCursor (encodeCursor after) = Ok after <->
  after <> "" /\ len after <= 492 /\ utf8_ValidString after = true /\ ContainsAny after [0; 13; 10] = false.
Proof.
  unfold decodeCursor. unfold encodeCursor at 2. rewrite RawURL_DecodeString_encode.
  rewrite (utf8_Valid_prefix _ _ cursor_prefix_ascii), take_app_length, drop_app_length, string_of_bytes_of.
  rewrite bool_decide_true by done. cbn [negb]. pose proof (len_encodeCursor after) as Hl. pose proof (len_bytes after) as Hb.
  assert (blen (cursor_prefix ++ bytes_of after) = 20 + len after) as ->.
  { rewrite Hb. unfold blen. rewrite length_app. change (length cursor_prefix) with 20%nat. lia. }
  unfold utf8_ValidString, maxDecodedCursorBytes, maxEncodedCursorBytes in *. split.
  - intros H. case_hyp H. reflect_bools. split_and!; try done. lia.
  - intros (Hne & H492 & -> & ->). rewrite orb_false_r.
    assert ((after =s "") = false) as -> by (by apply String.eqb_neq).
    assert ((len (encodeCursor after) >? 683) = false) as -> by (rewrite Z.gtb_ltb; apply Z.ltb_ge; tauto).
    assert ((20 + len after >? 512) = false) as -> by (rewrite Z.gtb_ltb; apply Z.ltb_ge; lia). done.
Qed.

(** ** Submissions *)

(** A key the API accepts is one the messaging service accepts. *)
Lemma api_key_accepted key : api_validIdempotencyKey key = true -> validIdempotencyKey key = true.
Proof.
  unfold api_validIdempotencyKey, validIdempotencyKey, maxIdempotencyBytes. case_if_goal E; [done|]. intros H.
  apply orb_false_iff in E as [[[E1 E2]%orb_false_iff E3]%orb_false_iff _]. rewrite E2, E3, !orb_false_r.
  destruct (key =s "") eqn:Ek; [|done]. apply String.eqb_eq in Ek as ->. done.
Qed.
