(* ===== verification/AdoptionProbes.v ===== *)
(** * Adoption probes (internal/gateway/store/postgres/migration_runner.go)

    The queries that must answer yes, one per migration, before an existing schema is
    recorded as migrated. Their texts are those of the source; what PostgreSQL answers to
    them is an argument of the operations that send them. *)

From S2P Require Import Prelude GoText Crypto GoEncoding.

(** [strings.Cut(name, ".")] of a name with a dot. *)
Definition cut_dot (name : string) : option (string * string) :=
  let fix cut (before b : bytes) : option (bytes * bytes) :=
    match b with
    | [] => None
    | c :: rest => if byte_val c =? 46 then Some (before, rest) else cut (before ++ [c]) rest
    end in
  match cut [] (bytes_of name) with Some (before, after) => Some (string_of before, string_of after) | None => None end.

(** [^[a-z][a-z0-9_]*$]. *)
Definition adoptionObjectName (name : string) : bool :=
  match bytes_of name with
  | c :: rest => between 97 122 (byte_val c) && forallb (fun d => between 97 122 (byte_val d) || between 48 57 (byte_val d) || (byte_val d =? 95)) rest
  | [] => false
  end.

Definition tenantTablesAdoptionProbe (tableNames : list string) : string :=
  if is_nil tableNames || negb (forallb adoptionObjectName tableNames) then ""
  else "SELECT NOT EXISTS (
    SELECT 1
    FROM unnest(ARRAY[" +:+
    String.concat ", " ((fun tableName => "'" +:+ tableName +:+ "'") <$> tableNames) +:+
    "]::text[]) AS required(table_name)
    WHERE NOT EXISTS (
        SELECT 1
        FROM pg_class AS relation
        JOIN pg_policy AS policy ON policy.polrelid = relation.oid
        WHERE relation.oid = to_regclass(format('%I.%I', current_schema(), required.table_name))
          AND relation.relkind IN ('r', 'p')
          AND relation.relrowsecurity
          AND relation.relforcerowsecurity
          AND policy.polname = required.table_name || '_tenant_isolation'
          AND policy.polcmd = '*'
          AND policy.polpermissive
          AND policy.polroles = ARRAY[0]::oid[]
          AND regexp_replace(pg_get_expr(policy.polqual, policy.polrelid), '[[:space:]]', '', 'g')
              IN ('(tenant_id=NULLIF(current_setting(''sirenaix.tenant_id''::text,true),''''::text))',
                  'tenant_id=NULLIF(current_setting(''sirenaix.tenant_id''::text,true),''''::text)')
          AND regexp_replace(pg_get_expr(policy.polwithcheck, policy.polrelid), '[[:space:]]', '', 'g')
              IN ('(tenant_id=NULLIF(current_setting(''sirenaix.tenant_id''::text,true),''''::text))',
                  'tenant_id=NULLIF(current_setting(''sirenaix.tenant_id''::text,true),''''::text)')
          AND NOT EXISTS (
              SELECT 1 FROM pg_policy AS extra
              WHERE extra.polrelid = relation.oid AND extra.oid <> policy.oid
          )
    )
)".

Definition columnsAdoptionProbe (columnNames : list string) : string :=
  let columns := (fun name => cut_dot name) <$> columnNames in
  if is_nil columnNames || negb (forallb (fun column => match column with
       | Some (tableName, columnName) => adoptionObjectName tableName && adoptionObjectName columnName
       | None => false end) columns) then ""
  else "SELECT NOT EXISTS (
    SELECT 1
    FROM (VALUES " +:+
    String.concat ", " ((fun column => match column with
       | Some (tableName, columnName) => "('" +:+ tableName +:+ "', '" +:+ columnName +:+ "')" | None => "" end) <$> columns) +:+
    ") AS required(table_name, column_name)
    WHERE NOT EXISTS (
        SELECT 1 FROM information_schema.columns AS present
        WHERE present.table_schema = current_schema()
          AND present.table_name = required.table_name
          AND present.column_name = required.column_name
    )
)".

Definition combineAdoptionProbes (probes : list string) : string :=
  if existsb (fun probe => TrimSpace probe =s "") probes || is_nil probes then ""
  else "SELECT " +:+ String.concat " AND " ((fun probe => "COALESCE((" +:+ probe +:+ "), false)") <$> probes).

Definition lineMetadataAdoptionProbe : string :=
  combineAdoptionProbes [
    "SELECT NOT EXISTS (
    SELECT 1
    FROM (VALUES
        ('carrier_name', 'text', 'NO', chr(39) || chr(39) || '::text'),
        ('color_hex', 'text', 'NO', chr(39) || chr(39) || '::text'),
        ('rcs_enabled', 'bool', 'NO', 'false'),
        ('provider_sim_number', 'int4', 'NO', '0'),
        ('provider_sim_payload_type', 'int4', 'NO', '0'),
        ('discovery_source', 'text', 'NO', chr(39) || 'legacy_unknown' || chr(39) || '::text'),
        ('active', 'bool', 'NO', 'true')
    ) AS required(column_name, udt_name, is_nullable, column_default)
    WHERE NOT EXISTS (
        SELECT 1
        FROM information_schema.columns AS present
        WHERE present.table_schema = current_schema()
          AND present.table_name = 'lines'
          AND present.column_name = required.column_name
          AND present.udt_name = required.udt_name
          AND present.is_nullable = required.is_nullable
          AND regexp_replace(COALESCE(present.column_default, ''), '[[:space:]()]', '', 'g') = required.column_default
    )
)";
    "SELECT NOT EXISTS (
    SELECT 1
    FROM (VALUES
        ('lines_carrier_name_boundary', 'checkoctet_lengthcarrier_name<=255'),
        ('lines_color_hex_boundary', 'checkoctet_lengthcolor_hex<=64'),
        ('lines_discovery_source_check', 'checkdiscovery_source=anyarray[''legacy_unknown''::text,''authenticated_google_settings''::text]'),
        ('messages_direction_check', 'checkdirection=anyarray[''inbound''::text,''outbound''::text,''unknown''::text]')
    ) AS required(constraint_name, normalized_definition)
    WHERE NOT EXISTS (
        SELECT 1
        FROM pg_constraint AS present
        WHERE present.conname = required.constraint_name
          AND present.conrelid = CASE
              WHEN required.constraint_name = 'messages_direction_check'
                  THEN to_regclass(format('%I.%I', current_schema(), 'messages'))
              ELSE to_regclass(format('%I.%I', current_schema(), 'lines'))
          END
          AND present.contype = 'c'
          AND present.convalidated
          AND NOT present.connoinherit
          AND lower(regexp_replace(pg_get_constraintdef(present.oid), '[[:space:]()]', '', 'g')) = required.normalized_definition
    )
)";
    (tenantTablesAdoptionProbe ["lines"; "messages"; "connections"; "gateway_events"; "event_outbox"]) ].

Definition migrationAdoptionProbe (version : Z) : string :=
  if version =? 1 then tenantTablesAdoptionProbe [
    "tenants"; "connections"; "lines"; "connection_sessions"; "contacts"; "provider_contact_sources"; "labels"; "contact_labels"; "contact_sync_runs" ]
  else if version =? 2 then combineAdoptionProbes [
    (columnsAdoptionProbe ["connections.provider_device_fingerprint"; "connections.reauthorization_event_id"; "connection_sessions.envelope_version"; "connection_sessions.provider"]);
    "SELECT EXISTS (SELECT 1 FROM information_schema.columns WHERE table_schema = current_schema() AND table_name = 'connections' AND column_name = 'provider_device_fingerprint' AND is_nullable = 'YES') AND EXISTS (SELECT 1 FROM information_schema.columns WHERE table_schema = current_schema() AND table_name = 'connection_sessions' AND column_name = 'envelope_version' AND is_nullable = 'NO' AND column_default IS NULL) AND EXISTS (SELECT 1 FROM information_schema.columns WHERE table_schema = current_schema() AND table_name = 'connection_sessions' AND column_name = 'provider' AND is_nullable = 'NO' AND column_default IS NULL)" ]
  else if version =? 3 then columnsAdoptionProbe ["connections.pairing_prior_state"; "connections.pairing_started_at"; "connections.pairing_attempt_id"; "connection_sessions.revision"]
  else if version =? 4 then "SELECT EXISTS (SELECT 1 FROM pg_constraint WHERE conname = 'connections_fingerprint_matches_state' AND conrelid = to_regclass(format('%I.%I', current_schema(), 'connections'))) AND EXISTS (SELECT 1 FROM pg_constraint WHERE conname = 'connections_reauthorization_event_required' AND conrelid = to_regclass(format('%I.%I', current_schema(), 'connections'))) AND EXISTS (SELECT 1 FROM pg_constraint WHERE conname = 'connections_pairing_metadata_required' AND conrelid = to_regclass(format('%I.%I', current_schema(), 'connections'))) AND EXISTS (SELECT 1 FROM pg_constraint WHERE conname = 'connection_sessions_revision_positive' AND conrelid = to_regclass(format('%I.%I', current_schema(), 'connection_sessions')))"
  else if version =? 5 then "SELECT EXISTS (SELECT 1 FROM pg_constraint WHERE conname = 'connections_fingerprint_matches_state' AND conrelid = to_regclass(format('%I.%I', current_schema(), 'connections')) AND convalidated) AND EXISTS (SELECT 1 FROM pg_constraint WHERE conname = 'connections_reauthorization_event_required' AND conrelid = to_regclass(format('%I.%I', current_schema(), 'connections')) AND convalidated) AND EXISTS (SELECT 1 FROM pg_constraint WHERE conname = 'connections_pairing_metadata_required' AND conrelid = to_regclass(format('%I.%I', current_schema(), 'connections')) AND convalidated) AND EXISTS (SELECT 1 FROM pg_constraint WHERE conname = 'connection_sessions_revision_positive' AND conrelid = to_regclass(format('%I.%I', current_schema(), 'connection_sessions')) AND convalidated) AND EXISTS (SELECT 1 FROM information_schema.columns WHERE table_schema = current_schema() AND table_name = 'connection_sessions' AND column_name = 'revision' AND is_nullable = 'NO')"
  else if version =? 6 then tenantTablesAdoptionProbe ["connection_leases"; "connection_actor_health"]
  else if version =? 7 then tenantTablesAdoptionProbe [
    "conversations"; "messages"; "message_status_history"; "message_idempotency"; "message_lanes"; "message_attempts"; "gateway_events"; "event_outbox";
    "provider_inbox"; "provider_inbox_conflicts"; "media_objects"; "message_media"; "media_fetch_jobs"; "webhook_endpoints"; "webhook_deliveries";
    "webhook_attempts"; "webhook_dlq"; "kafka_commands"; "kafka_event_deliveries"; "kafka_command_dlq" ]
  else if version =? 8 then columnsAdoptionProbe ["conversations.ordering_key"; "webhook_deliveries.claim_token"]
  else if version =? 9 then columnsAdoptionProbe [
    "webhook_endpoints.generation"; "webhook_deliveries.endpoint_generation"; "webhook_deliveries.http_started_at";
    "media_fetch_jobs.attachment_identity_digest"; "message_media.provider_identity_digest" ]
  else if version =? 10 then tenantTablesAdoptionProbe ["provider_backfill_checkpoints"]
  else if version =? 11 then combineAdoptionProbes [
    (tenantTablesAdoptionProbe ["provider_cursor_history"]);
    "SELECT EXISTS (SELECT 1 FROM pg_constraint WHERE conname = 'connection_actor_health_last_safe_reason_check' AND conrelid = to_regclass(format('%I.%I', current_schema(), 'connection_actor_health')) AND pg_get_constraintdef(oid) LIKE '%session-conflict%')" ]
  else if version =? 12 then tenantTablesAdoptionProbe ["provider_cursor_budgets"]
  else if version =? 13 then combineAdoptionProbes [
    (tenantTablesAdoptionProbe ["provider_response_id_quarantine"]);
    "SELECT to_regprocedure(format('%I.sirenaix_valid_provider_response_id(text)', current_schema())) IS NOT NULL AND EXISTS (SELECT 1 FROM pg_constraint WHERE conname = 'provider_inbox_response_id_boundary' AND conrelid = to_regclass(format('%I.%I', current_schema(), 'provider_inbox')) AND convalidated) AND EXISTS (SELECT 1 FROM pg_constraint WHERE conname = 'provider_inbox_conflicts_response_id_boundary' AND conrelid = to_regclass(format('%I.%I', current_schema(), 'provider_inbox_conflicts')) AND convalidated) AND EXISTS (SELECT 1 FROM pg_constraint WHERE conname = 'provider_cursor_history_response_id_boundary' AND conrelid = to_regclass(format('%I.%I', current_schema(), 'provider_cursor_history')) AND convalidated) AND EXISTS (SELECT 1 FROM pg_constraint WHERE conname = 'provider_cursor_budgets_response_id_boundary' AND conrelid = to_regclass(format('%I.%I', current_schema(), 'provider_cursor_budgets')) AND convalidated)" ]
  else if version =? 14 then tenantTablesAdoptionProbe ["provider_rejected_responses"]
  else if version =? 15 then combineAdoptionProbes [
    (tenantTablesAdoptionProbe ["provider_response_reservations"; "provider_response_overflow_audits"]);
    ("SELECT EXISTS (SELECT 1 FROM information_schema.columns WHERE table_schema = current_schema() AND table_name = 'provider_inbox_conflicts' AND column_name = 'conflicting_envelope_size' AND is_nullable = 'NO') AND EXISTS (SELECT 1 FROM information_schema.columns WHERE table_schema = current_schema() AND table_name = 'provider_inbox_conflicts' AND column_name = 'occurrence_count' AND is_nullable = 'NO') AND (SELECT count(" +:+ "*" +:+ ") = 3 FROM pg_constraint WHERE conrelid = to_regclass(format('%I.%I', current_schema(), 'provider_inbox_conflicts')) AND conname IN ('provider_inbox_conflicts_size_boundary', 'provider_inbox_conflicts_sample_boundary', 'provider_inbox_conflicts_one_per_response')) AND EXISTS (SELECT 1 FROM pg_constraint WHERE conrelid = to_regclass(format('%I.%I', current_schema(), 'provider_rejected_responses')) AND conname = 'provider_rejected_responses_reason_check' AND pg_get_constraintdef(oid) LIKE '%response_id_digest_conflict%')") ]
  else if version =? 16 then combineAdoptionProbes [
    (tenantTablesAdoptionProbe ["tenant_admin_events"]);
    (columnsAdoptionProbe ["tenants.status"; "tenants.max_connections"; "tenants.suspended_at"; "connections.tenant_suspend_prior_state"]);
    "SELECT EXISTS (SELECT 1 FROM pg_constraint WHERE conname = 'tenants_suspension_timestamp' AND conrelid = to_regclass(format('%I.%I', current_schema(), 'tenants')) AND convalidated) AND EXISTS (SELECT 1 FROM pg_constraint WHERE conname = 'connections_fingerprint_matches_state' AND conrelid = to_regclass(format('%I.%I', current_schema(), 'connections')) AND convalidated AND pg_get_constraintdef(oid) LIKE '%tenant_suspend_prior_state%') AND EXISTS (SELECT 1 FROM pg_constraint WHERE conname = 'connections_tenant_suspension_state' AND conrelid = to_regclass(format('%I.%I', current_schema(), 'connections')) AND convalidated)" ]
  else if version =? 17 then lineMetadataAdoptionProbe
  else "".

(** Every migration of the catalogue has a probe, and no other version does. *)
Lemma adoption_probes_present version : TrimSpace (migrationAdoptionProbe version) <> "" <-> 1 <= version <= 17.
Proof.
  assert (forall n, (n < 17)%nat -> (TrimSpace (migrationAdoptionProbe (Z.of_nat n + 1)) =s "") = false) as Hall.
  { intros n Hn. assert (forallb (fun n => negb (TrimSpace (migrationAdoptionProbe (Z.of_nat n + 1)) =s "")) (seq 0 17) = true) as H by (vm_compute; reflexivity).
    rewrite forallb_forall in H. apply negb_true_iff, H, in_seq. lia. }
  split.
  - intros H. destruct (decide (1 <= version <= 17)) as [|Hn]; [done|]. exfalso. apply H. unfold migrationAdoptionProbe.
    repeat (rewrite (proj2 (Z.eqb_neq _ _)) by lia). vm_compute. reflexivity.
  - intros Hv. specialize (Hall (Z.to_nat (version - 1)) ltac:(lia)). replace (Z.of_nat (Z.to_nat (version - 1)) + 1) with version in Hall by lia.
    by apply String.eqb_neq.
Qed.
