(* ===== verification/Migrations.v ===== *)
(** * Schema migrations (internal/gateway/store/postgres/migration_runner.go)

    The catalogue of embedded migrations, the scanner that finds transaction commands
    in their SQL, the ledger, and the operations of the runner as programs of calls.
    A transaction is one call, answered by the stage it failed at. What PostgreSQL makes
    of a migration's SQL is the world's. *)

From S2P Require Import Prelude GoText Crypto GoEncoding Rely Kafka AdoptionProbes.

Definition ErrMigrationConfig : sentinel := ErrText "invalid migration runner configuration".
Definition ErrMigrationCatalog : sentinel := ErrText "invalid embedded migration catalog".
Definition ErrMigrationGap : sentinel := ErrText "migration ledger contains a gap".
Definition ErrMigrationDuplicate : sentinel := ErrText "migration ledger contains a duplicate".
Definition ErrMigrationDrift : sentinel := ErrText "migration ledger checksum or name drift".
Definition ErrDatabaseAhead : sentinel := ErrText "database schema is ahead of this binary".
Definition ErrMigrationPending : sentinel := ErrText "database schema migrations are pending".
Definition ErrMigrationLock : sentinel := ErrText "migration advisory lock was not acquired".
Definition ErrUntrackedSchema : sentinel := ErrText "existing schema has no migration ledger".
Definition ErrUnsafeAdoption : sentinel := ErrText "existing schema could not be safely adopted".

Record SchemaMigration := {
  sm_Version : Z;
  sm_Name : string;
  sm_Contents : bytes;
  sm_SHA256 : bytes;
  sm_AdoptionProbe : string
}.

Record MigrationLedgerRow := { ml_Version : Z; ml_Name : string; ml_SHA256 : bytes }.

#[export] Instance MigrationLedgerRow_eq_dec : EqDecision MigrationLedgerRow.
Proof. solve_decision. Defined.

Record MigrationStatus := { ms_Tracked : bool; ms_Current : Z; ms_Latest : Z; ms_Pending : list SchemaMigration }.

Definition IsCurrent (status : MigrationStatus) : bool :=
  ms_Tracked status && (ms_Current status =? ms_Latest status) && is_nil (ms_Pending status).

Record MigrationRunnerConfig := { mc_LockTimeout : Z; mc_StatementTimeout : Z }.

Definition setDefaultsAndValidate (config : MigrationRunnerConfig) : result MigrationRunnerConfig :=
  let lock := if mc_LockTimeout config =? 0 then 30 * Second else mc_LockTimeout config in
  let statement := if mc_StatementTimeout config =? 0 then 2 * Minute else mc_StatementTimeout config in
  if (lock <? 100 * Millisecond) || (lock >? 5 * Minute) || (statement <? Second) || (statement >? 30 * Minute)
  then Err [ErrMigrationConfig] else Ok {| mc_LockTimeout := lock; mc_StatementTimeout := statement |}.

(** ** The SQL scanner *)

Record sqlStatement := { sq_start : nat; sq_end : nat; sq_tokens : list string }.

(** The variables of the loop. *)
Record scanner := {
  sc_statements : list sqlStatement;
  sc_start : nat;
  sc_tokens : list string;
  sc_significant : bool;
  sc_depth : nat;
  sc_dollar : bytes;
  sc_quote : option Z;
  sc_escape : bool
}.

Definition isSQLWordStart (value : Z) : bool := (value =? 95) || between 97 122 value || between 65 90 value.
Definition isSQLIdentifierByte (value : Z) : bool := isSQLWordStart value || between 48 57 value || (value =? 36).

(** The byte at an index, [-1] beyond the end. *)
Definition at_index (contents : bytes) (index : nat) : Z :=
  match contents !! index with Some c => byte_val c | None => -1 end.

Definition run_length (p : Z -> bool) (contents : bytes) (index : nat) : nat :=
  let fix count b := match b with c :: rest => if p (byte_val c) then Datatypes.S (count rest) else O | [] => O end in count (drop index contents).

Definition not_newline (value : Z) : bool := negb (value =? 10).

(** [sqlDollarDelimiter]: the length of the delimiter, 0 for none. *)
Definition sqlDollarDelimiter (contents : bytes) (index : nat) : nat :=
  let first := Datatypes.S index in
  let word := run_length (fun v => isSQLIdentifierByte v && negb (v =? 36)) contents first in
  if negb (at_index contents (first + word) =? 36) then O
  else if (word =? 0)%nat || isSQLWordStart (at_index contents first) then (word + 2)%nat else O.

Definition upper_ascii (c : ascii) : ascii := if between 97 122 (byte_val c) then byte_of_Z (byte_val c - 32) else c.

Definition set_mode (depth : nat) (dollar : bytes) (quote : option Z) (escape significant : bool) (s : scanner) : scanner := {|
  sc_statements := sc_statements s; sc_start := sc_start s; sc_tokens := sc_tokens s; sc_significant := significant;
  sc_depth := depth; sc_dollar := dollar; sc_quote := quote; sc_escape := escape |}.

Definition finish_statement (stop : nat) (s : scanner) : scanner := {|
  sc_statements := if sc_significant s then sc_statements s ++ [{| sq_start := sc_start s; sq_end := stop; sq_tokens := sc_tokens s |}]
                   else sc_statements s;
  sc_start := stop; sc_tokens := []; sc_significant := false;
  sc_depth := sc_depth s; sc_dollar := sc_dollar s; sc_quote := sc_quote s; sc_escape := sc_escape s |}.

Definition add_token (token : string) (s : scanner) : scanner := {|
  sc_statements := sc_statements s; sc_start := sc_start s; sc_tokens := sc_tokens s ++ [token]; sc_significant := true;
  sc_depth := sc_depth s; sc_dollar := sc_dollar s; sc_quote := sc_quote s; sc_escape := sc_escape s |}.

(** One iteration at a byte of the contents: the bytes it advances by, and the new state. *)
Definition sql_step (contents : bytes) (index : nat) (s : scanner) : nat * scanner :=
  let c := at_index contents index in
  let d := at_index contents (Datatypes.S index) in
  let keep := sc_significant s in
  if negb (is_nil (sc_dollar s)) then
    if bool_decide (take (length (sc_dollar s)) (drop index contents) = sc_dollar s)
    then (length (sc_dollar s), set_mode (sc_depth s) [] (sc_quote s) (sc_escape s) keep s)
    else (1%nat, s)
  else if (0 <? sc_depth s)%nat then
    if (c =? 47) && (d =? 42) then (2%nat, set_mode (sc_depth s + 1) [] (sc_quote s) (sc_escape s) keep s)
    else if (c =? 42) && (d =? 47) then (2%nat, set_mode (sc_depth s - 1) [] (sc_quote s) (sc_escape s) keep s)
    else (1%nat, s)
  else match sc_quote s with
  | Some quote =>
    if (quote =? 39) && sc_escape s && (c =? 92) && (0 <=? d) then (2%nat, s)
    else if c =? quote then
      if d =? quote then (2%nat, s) else (1%nat, set_mode 0 [] None false keep s)
    else (1%nat, s)
  | None =>
    if (c =? 45) && (d =? 45) then (Nat.add 2 (run_length not_newline contents (index + 2)), s)
    else if (c =? 47) && (d =? 42) then (2%nat, set_mode 1 [] None (sc_escape s) keep s)
    else if (c =? 39) || (c =? 34) then
      let before := at_index contents (index - 1) in
      let escape := (c =? 39) && (0 <? index)%nat && ((before =? 101) || (before =? 69)) &&
                    ((index =? 1)%nat || negb (isSQLIdentifierByte (at_index contents (index - 2)))) in
      (1%nat, set_mode 0 [] (Some c) escape true s)
    else if c =? 36 then
      let n := sqlDollarDelimiter contents index in
      if (n =? 0)%nat then (1%nat, set_mode 0 [] None (sc_escape s) true s)
      else (n, set_mode 0 (take n (drop index contents)) None (sc_escape s) true s)
    else if c =? 59 then (1%nat, finish_statement (index + 1) s)
    else if isSQLWordStart c then
      let n := run_length isSQLIdentifierByte contents index in
      (n, add_token (string_of (upper_ascii <$> take n (drop index contents))) s)
    else (1%nat, set_mode 0 [] None (sc_escape s) (keep || negb (bool_decide (c ∈ [32; 9; 13; 10]))) s)
  end.

(** The loop; every iteration advances, so the length of the contents is enough fuel. *)
Fixpoint sql_loop (fuel : nat) (contents : bytes) (index : nat) (s : scanner) : scanner :=
  match fuel with
  | O => s
  | Datatypes.S fuel =>
    if (index <? length contents)%nat then
      let '(n, s') := sql_step contents index s in sql_loop fuel contents (index + n) s'
    else s
  end.

Definition initial_scanner : scanner := {|
  sc_statements := []; sc_start := 0; sc_tokens := []; sc_significant := false; sc_depth := 0; sc_dollar := []; sc_quote := None;
  sc_escape := false |}.

Definition scanTopLevelSQLStatements (contents : bytes) : option (list sqlStatement) :=
  let s := sql_loop (length contents) contents 0 initial_scanner in
  if bool_decide (sc_quote s <> None) || (0 <? sc_depth s)%nat || negb (is_nil (sc_dollar s)) then None
  else Some (sc_statements (finish_statement (length contents) s)).

Definition isTransactionControl (tokens : list string) : bool :=
  match tokens with
  | [] => false
  | first :: rest =>
    if bool_decide (first ∈ ["ABORT"; "BEGIN"; "COMMIT"; "END"; "ROLLBACK"]) then true
    else if (first =s "PREPARE") || (first =s "START") then bool_decide (head rest = Some "TRANSACTION")
    else false
  end.

(** [bytes.ReplaceAll(contents, "\r\n", "\n")]. *)
Fixpoint normalize_lines (b : bytes) : bytes :=
  match b with
  | c :: rest =>
    match rest with
    | d :: rest' => if (byte_val c =? 13) && (byte_val d =? 10) then d :: normalize_lines rest' else c :: normalize_lines rest
    | [] => [c]
    end
  | [] => []
  end.

Definition known_envelopes : list string :=
  ["1960a89ba21748afd597940f6b0765c8e3f45f1399c8db1b7be9468dd7bae11d";
   "e3cc236c18be08c6f6feab871dcb87fb866d7370dc4c9a6da1d4a61485320f39";
   "22e84cbe118f37a08f1a04ffd66d31007290e794387c6e916b05b5ce13e48216"].

Definition isKnownShippedTransactionEnvelope (contents : bytes) : bool :=
  bool_decide (string_of (hex_encode (sha256 (normalize_lines contents))) ∈ known_envelopes).

(** A statement's bytes other than line breaks become spaces. *)
Definition blank_statement (statement : sqlStatement) (contents : bytes) : bytes :=
  imap (fun index c => if (sq_start statement <=? index)%nat && (index <? sq_end statement)%nat && negb (byte_val c =? 10) && negb (byte_val c =? 13)
                       then byte_of_Z 32 else c) contents.

Definition prepareMigrationSQL (contents : bytes) : result string :=
  match scanTopLevelSQLStatements contents with
  | None => Err [ErrMigrationCatalog]
  | Some statements =>
    let controls := List.filter (fun p => isTransactionControl (sq_tokens p.2)) (imap pair statements) in
    match controls with
    | [] => Ok (string_of contents)
    | [(i, first); (j, last)] =>
      if negb (i =? 0)%nat || negb (j =? length statements - 1)%nat || negb (bool_decide (sq_tokens first = ["BEGIN"])) ||
         negb (bool_decide (sq_tokens last = ["COMMIT"])) || negb (isKnownShippedTransactionEnvelope contents)
      then Err [ErrMigrationCatalog]
      else
        let prepared := TrimSpace (string_of (blank_statement last (blank_statement first contents))) in
        if prepared =s "" then Err [ErrMigrationCatalog] else Ok prepared
    | _ => Err [ErrMigrationCatalog]
    end
  end.

(** ** The catalogue *)

Definition version_prefix (version : Z) : string := string_of (pad 4 version) +:+ "_".

Definition catalog_entry_ok (wantVersion : Z) (migration : SchemaMigration) : result unit :=
  if negb (sm_Version migration =? wantVersion) || negb (HasPrefix (sm_Name migration) (version_prefix wantVersion)) ||
     is_nil (TrimSpace_bytes (sm_Contents migration)) || negb (bool_decide (sm_SHA256 migration = sha256 (sm_Contents migration))) ||
     (TrimSpace (sm_AdoptionProbe migration) =s "")
  then Err [ErrMigrationCatalog]
  else let! _ := prepareMigrationSQL (sm_Contents migration) in Ok tt.

Fixpoint catalog_entries_ok (version : Z) (migrations : list SchemaMigration) : result unit :=
  match migrations with
  | [] => Ok tt
  | migration :: rest => let! _ := catalog_entry_ok version migration in catalog_entries_ok (version + 1) rest
  end.

Definition validateSchemaMigrationCatalog (migrations : list SchemaMigration) : result unit :=
  if is_nil migrations then Err [ErrMigrationCatalog] else catalog_entries_ok 1 migrations.

(** [^(\d{4})_[a-z0-9_]+\.sql$]: the version. *)
Definition migration_name (name : string) : option Z :=
  let b := bytes_of name in
  let digits := take 4 b in
  let rest := drop 5 b in
  let stem := take (length rest - 4) rest in
  if (length digits =? 4)%nat && forallb (fun c => between 48 57 (byte_val c)) digits && (at_index b 4 =? 95) &&
     negb (is_nil stem) && forallb (fun c => between 97 122 (byte_val c) || between 48 57 (byte_val c) || (byte_val c =? 95)) stem &&
     bool_decide (drop (length rest - 4) rest = bytes_of ".sql")
  then Some (decimal_value 0 digits) else None.

(** A file of the embedded directory: its name, whether it is a directory, and its
    contents when they can be read. *)
Record CatalogFile := { cf_Name : string; cf_IsDir : bool; cf_Contents : option bytes }.

Fixpoint load_entries (entries : list CatalogFile) : result (list SchemaMigration) :=
  match entries with
  | [] => Ok []
  | entry :: rest =>
    if cf_IsDir entry then Err [ErrMigrationCatalog]
    else match migration_name (cf_Name entry), cf_Contents entry with
    | Some version, Some contents =>
      if is_nil (TrimSpace_bytes contents) then Err [ErrMigrationCatalog]
      else let! loaded := load_entries rest in
        Ok ({| sm_Version := version; sm_Name := cf_Name entry; sm_Contents := contents; sm_SHA256 := sha256 contents;
               sm_AdoptionProbe := migrationAdoptionProbe version |} :: loaded)
    | _, _ => Err [ErrMigrationCatalog]
    end
  end.

Definition version_le (a b : SchemaMigration) : Prop := sm_Version a <= sm_Version b.

#[export] Instance version_le_dec : RelDecision version_le.
Proof. intros a b. unfold version_le. apply _. Defined.

Definition LoadSchemaMigrations (entries : result (list CatalogFile)) : result (list SchemaMigration) :=
  match entries with
  | Err _ => Err [ErrMigrationCatalog]
  | Ok entries =>
    let! loaded := load_entries entries in
    let migrations := merge_sort version_le loaded in
    let! _ := validateSchemaMigrationCatalog migrations in
    Ok migrations
  end.

(** ** The ledger *)

Fixpoint ledger_rows_ok (migrations : list SchemaMigration) (index : Z) (seen : gset Z) (seenNames : gset string)
    (rows : list MigrationLedgerRow) : result Z :=
  match rows with
  | [] => Ok index
  | row :: rest =>
    if bool_decide (ml_Version row ∈ seen) then Err [ErrMigrationDuplicate]
    else if bool_decide (ml_Name row ∈ seenNames) then Err [ErrMigrationDuplicate]
    else if ml_Version row >? blen migrations then Err [ErrDatabaseAhead]
    else if negb (ml_Version row =? index + 1) || (ml_Version row <? 1) then Err [ErrMigrationGap]
    else match migrations !! Z.to_nat (ml_Version row - 1) with
    | None => Err [ErrMigrationDrift]
    | Some expected =>
      if (ml_Name row <>s sm_Name expected) || negb (bool_decide (ml_SHA256 row = sm_SHA256 expected)) then Err [ErrMigrationDrift]
      else ledger_rows_ok migrations (ml_Version row) ({[ml_Version row]} ∪ seen) ({[ml_Name row]} ∪ seenNames) rest
    end
  end.

(** The status that comes with an error here and in [Status] is discarded by every caller. *)
Definition validateMigrationLedger (migrations : list SchemaMigration) (rows : list MigrationLedgerRow) : result MigrationStatus :=
  let! current := ledger_rows_ok migrations 0 ∅ ∅ rows in
  Ok {| ms_Tracked := true; ms_Current := current; ms_Latest := blen migrations; ms_Pending := drop (Z.to_nat current) migrations |}.

(** ** The runner *)

(** Where a transaction failed; [FailedCommit] may have taken effect. *)
Inductive tx_failure := FailedBegin | FailedLockTimeout | FailedStatementTimeout | FailedStatement | FailedRecord | FailedCommit | FailedProbe (version : Z).

Inductive MigrationCall : Type -> Type :=
| OpenConnection : MigrationCall error
| TryAdvisoryLock : MigrationCall (result bool)
| LockTick : MigrationCall bool
| LockDone : MigrationCall bool
| ReleaseAdvisoryLock : MigrationCall unit
| SchemaPresence : MigrationCall (result (bool * bool))
| ReadLedger : MigrationCall (result (list MigrationLedgerRow))
| CreateLedger : MigrationCall (option tx_failure)
| ApplyTx (prepared : string) (row : MigrationLedgerRow) : MigrationCall (option tx_failure)
| AdoptTx (markers : list (string * MigrationLedgerRow)) : MigrationCall (option tx_failure).

Record MigrationRunner := { rn_config : MigrationRunnerConfig; rn_migrations : list SchemaMigration }.

Definition NewMigrationRunner (db : bool) (config : MigrationRunnerConfig) (entries : result (list CatalogFile)) : result MigrationRunner :=
  if negb db then Err [ErrMigrationConfig]
  else let! config := setDefaultsAndValidate config in
  let! migrations := LoadSchemaMigrations entries in
  Ok {| rn_config := config; rn_migrations := migrations |}.

Definition ledger_row (migration : SchemaMigration) : MigrationLedgerRow :=
  {| ml_Version := sm_Version migration; ml_Name := sm_Name migration; ml_SHA256 := sm_SHA256 migration |}.

Section Runner.
Variable runner : MigrationRunner.
Let migrations : list SchemaMigration := rn_migrations runner.

Definition Status : prog MigrationCall (result MigrationStatus) :=
  call! err := OpenConnection in
  if negb (is_nil err) then Ret (Err [ErrText "read schema status"])
  else
    call! presence := SchemaPresence in
    match presence with
    | Err err => Ret (Err err)
    | Ok (tracked, schemaExists) =>
      if negb tracked then
        if (schemaExists : bool) then Ret (Err [ErrUntrackedSchema])
        else Ret (Ok {| ms_Tracked := false; ms_Current := 0; ms_Latest := blen migrations; ms_Pending := migrations |})
      else
        call! rows := ReadLedger in
        match rows with
        | Err err => Ret (Err err)
        | Ok rows => Ret (validateMigrationLedger migrations rows)
        end
    end.

Definition CheckCurrent : prog MigrationCall (result unit) :=
  do! status := Status in
  match status with
  | Err err => Ret (Err err)
  | Ok status => Ret (if IsCurrent status then Ok tt else Err [ErrMigrationPending])
  end.

(** Tries every 100 ms until the timeout: [rounds] is how often it can. [LockDone] is
    whether the context of the attempts is done, [LockTick] whether it was before the
    next tick. *)
Fixpoint acquireLock (rounds : nat) : prog MigrationCall (result unit) :=
  match rounds with
  | O => Ret (Err [ErrMigrationLock])
  | Datatypes.S rounds =>
    call! acquired := TryAdvisoryLock in
    match acquired with
    | Err err =>
      call! done := LockDone in
      Ret (Err (if (done : bool) then [ErrMigrationLock] else [ErrText "acquire migration advisory lock"]))
    | Ok got =>
      if (got : bool) then Ret (Ok tt) else
      call! expired := LockTick in
      if (expired : bool) then Ret (Err [ErrMigrationLock]) else acquireLock rounds
    end
  end.

Definition lock_rounds : nat := Z.to_nat (Z.quot (mc_LockTimeout (rn_config runner)) (100 * Millisecond) + 2).

Definition tx_error (failure : tx_failure) (begin statement record commit : string) : error :=
  match failure with
  | FailedBegin => [ErrText begin]
  | FailedLockTimeout => [ErrText "configure migration lock timeout"]
  | FailedStatementTimeout => [ErrText "configure migration statement timeout"]
  | FailedStatement => [ErrText statement]
  | FailedRecord => [ErrText record]
  | FailedCommit => [ErrText commit]
  | FailedProbe _ => [ErrUnsafeAdoption]
  end.

Definition ensureMigrationLedger : prog MigrationCall (result unit) :=
  call! failure := CreateLedger in
  match failure with
  | None => Ret (Ok tt)
  | Some f => Ret (Err (tx_error f "begin migration ledger transaction" "create migration ledger" "create migration ledger" "commit migration ledger"))
  end.

Definition applyOne (migration : SchemaMigration) : prog MigrationCall (result unit) :=
  match prepareMigrationSQL (sm_Contents migration) with
  | Err err => Ret (Err err)
  | Ok prepared =>
    call! failure := ApplyTx prepared (ledger_row migration) in
    match failure with
    | None => Ret (Ok tt)
    | Some f => Ret (Err (tx_error f "begin migration transaction" "migration statement failed" "record migration ledger" "commit migration transaction"))
    end
  end.

Definition adoptExisting : prog MigrationCall (result unit) :=
  call! failure := AdoptTx ((fun m => (sm_AdoptionProbe m, ledger_row m)) <$> migrations) in
  match failure with
  | None => Ret (Ok tt)
  | Some f => Ret (Err (tx_error f "begin schema adoption" "begin schema adoption" "record adopted migration" "commit schema adoption"))
  end.

Record MigrationResult := { mr_Previous : Z; mr_Current : Z; mr_Applied : Z; mr_Adopted : bool }.

(** The result so far comes with the error. *)
Fixpoint apply_pending (pending : list SchemaMigration) (result : MigrationResult) : prog MigrationCall (MigrationResult * error) :=
  match pending with
  | [] => Ret (result, [])
  | migration :: rest =>
    do! applied := applyOne migration in
    match applied with
    | Err err => Ret (result, err)
    | Ok _ => apply_pending rest {| mr_Previous := mr_Previous result; mr_Current := sm_Version migration;
                mr_Applied := mr_Applied result + 1; mr_Adopted := mr_Adopted result |}
    end
  end.

Definition no_result : MigrationResult := {| mr_Previous := 0; mr_Current := 0; mr_Applied := 0; mr_Adopted := false |}.

(** [Up] after the lock was acquired. *)
Definition up_locked (AdoptExisting : bool) : prog MigrationCall (MigrationResult * error) :=
  call! presence := SchemaPresence in
  match presence with
  | Err err => Ret (no_result, err)
  | Ok (tracked, schemaExists) =>
    do! ensured := (if (tracked : bool) then Ret (Ok tt) else ensureMigrationLedger) in
    match ensured with
    | Err err => Ret (no_result, err)
    | Ok _ =>
      call! read := ReadLedger in
      match read with
      | Err err => Ret (no_result, err)
      | Ok rows =>
        match validateMigrationLedger migrations rows with
        | Err err => Ret (no_result, err)
        | Ok status =>
          let result := {| mr_Previous := ms_Current status; mr_Current := ms_Current status; mr_Applied := 0; mr_Adopted := false |} in
          if schemaExists && is_nil rows then
            if negb AdoptExisting then Ret (result, [ErrUntrackedSchema])
            else
              do! adopted := adoptExisting in
              match adopted with
              | Err err => Ret (result, err)
              | Ok _ => Ret ({| mr_Previous := ms_Current status; mr_Current := blen migrations; mr_Applied := 0; mr_Adopted := true |}, [])
              end
          else apply_pending (ms_Pending status) result
        end
      end
    end
  end.

Definition Up (AdoptExisting : bool) : prog MigrationCall (MigrationResult * error) :=
  call! err := OpenConnection in
  if negb (is_nil err) then Ret (no_result, [ErrText "open migration connection"])
  else
    do! locked := acquireLock lock_rounds in
    match locked with
    | Err err => Ret (no_result, err)
    | Ok _ =>
      do! outcome := up_locked AdoptExisting in
      call! _ := ReleaseAdvisoryLock in
      Ret outcome
    end.
End Runner.

Definition sample_sql (s : string) : list (list string) := from_option (map sq_tokens) [] (scanTopLevelSQLStatements (bytes_of s)).

Example scan_sql_sample :
  sample_sql "/* a /* ; */ b */ create table t (x text); -- commit;
     insert into t values ('a;''b', E'\';', $q$ begin; $q$); $1 ; commit" =
  [["CREATE"; "TABLE"; "T"; "X"; "TEXT"]; ["INSERT"; "INTO"; "T"; "VALUES"; "E"]; []; ["COMMIT"]].
Proof. vm_compute. reflexivity. Qed.

Example prepare_refuses : prepareMigrationSQL (bytes_of "BEGIN; SELECT 1; COMMIT;") = Err [ErrMigrationCatalog].
Proof. vm_compute. reflexivity. Qed.
