(* ===== verification/MigrationSafety.v ===== *)
(** * What schema migration guarantees

    Any number of runners work on one database, with transactions that fail, commits
    whose reply is lost, and runners that stop anywhere: the schema is always what a
    prefix of the catalogue made of the original one, each migration applied once and
    in order, and the ledger says which. Nothing here needs the advisory lock to be
    exclusive. *)

From S2P Require Import Prelude GoText Crypto GoEncoding Rely Kafka AdoptionProbes Migrations.

(** ** The scanner ends *)

Lemma sql_step_advances contents index s : (index < length contents)%nat -> (1 <= (sql_step contents index s).1)%nat.
Proof.
  intros Hi. destruct (lookup_lt_is_Some_2 contents index Hi) as [b Hb].
  assert (forall p, p (byte_val b) = true -> (1 <= run_length p contents index)%nat) as Hrun.
  { intros p Hp. unfold run_length. rewrite (drop_S _ _ _ Hb). rewrite Hp. lia. }
  unfold sql_step. destruct (sc_dollar s) as [|d ds]; cbn [is_nil negb].
  - repeat case_match; cbn [fst]; try lia.
    + match goal with Hd : (sqlDollarDelimiter _ _ =? 0)%nat = false |- _ => apply Nat.eqb_neq in Hd; lia end.
    + apply Hrun. match goal with Hw : isSQLWordStart _ = true |- _ => unfold at_index in Hw; rewrite Hb in Hw; unfold isSQLIdentifierByte; by rewrite Hw end.
  - case_bool_decide; cbn; lia.
Qed.

Lemma sql_loop_fuel contents f index s :
  (length contents - index <= f)%nat -> sql_loop f contents index s = sql_loop (length contents - index) contents index s.
Proof.
  remember (length contents - index)%nat as n eqn:Hn. revert f index s Hn.
  induction n as [n IH] using lt_wf_ind. intros f index s Hn Hf. destruct (index <? length contents)%nat eqn:E.
  - apply Nat.ltb_lt in E as Hlt. destruct f as [|f]; [lia|]. destruct n as [|n]; [lia|]. cbn [sql_loop]. rewrite E.
    pose proof (sql_step_advances contents index s Hlt) as Ha. destruct (sql_step contents index s) as [k s']. cbn in Ha.
    rewrite (IH (length contents - (index + k))%nat ltac:(lia) f) by lia.
    symmetry. apply (IH (length contents - (index + k))%nat ltac:(lia) n); lia.
  - apply Nat.ltb_ge in E as Hge. assert (n = 0%nat) as -> by lia. destruct f as [|f]; [done|]. cbn [sql_loop]. by rewrite E.
Qed.

(** ** A ledger is valid exactly when it is a prefix of the catalogue *)

Definition prefix_rows (n : nat) (migrations : list SchemaMigration) : list MigrationLedgerRow := ledger_row <$> take n migrations.

(** The migrations are numbered from 1, with distinct names. *)
Definition numbered (migrations : list SchemaMigration) : Prop :=
  (forall i m, migrations !! i = Some m -> sm_Version m = Z.of_nat i + 1) /\ NoDup (sm_Name <$> migrations).

Lemma ledger_row_eq row m :
  ml_Version row = sm_Version m -> ml_Name row = sm_Name m -> ml_SHA256 row = sm_SHA256 m -> row = ledger_row m.
Proof. destruct row. cbn. by intros -> -> ->. Qed.

Lemma ledger_rows_ok_iff migrations rows n seen seenNames current :
  numbered migrations -> (n <= length migrations)%nat ->
  (forall v, v ∈ seen <-> 1 <= v <= Z.of_nat n) -> (forall name, name ∈ seenNames <-> name ∈ sm_Name <$> take n migrations) ->
  ledger_rows_ok migrations (Z.of_nat n) seen seenNames rows = Ok current <->
  (exists k, (n + k <= length migrations)%nat /\ current = Z.of_nat (n + k) /\ rows = ledger_row <$> take k (drop n migrations)).
Proof.
  intros [Hv Hn]. revert n seen seenNames. induction rows as [|row rows IH]; intros n seen seenNames Hle Hseen Hnames; cbn [ledger_rows_ok].
  { split.
    - intros [= <-]. exists 0%nat. split_and!; [lia | f_equal; lia | done].
    - intros (k & Hk & -> & Hnil). destruct (take k (drop n migrations)) eqn:E; [|done].
      apply (f_equal length) in E. rewrite length_take, length_drop in E. cbn in E. do 2 f_equal. lia. }
  assert ((exists k, (n + k <= length migrations)%nat /\ current = Z.of_nat (n + k) /\
             row :: rows = ledger_row <$> take k (drop n migrations)) <->
          exists m, migrations !! n = Some m /\ row = ledger_row m /\
            exists k, (Datatypes.S n + k <= length migrations)%nat /\ current = Z.of_nat (Datatypes.S n + k) /\
              rows = ledger_row <$> take k (drop (Datatypes.S n) migrations)) as ->.
  { split.
    - intros (k & Hk & -> & He). destruct k as [|k]; [done|]. destruct (migrations !! n) as [m|] eqn:Em.
      + rewrite (drop_S _ _ _ Em) in He. cbn in He. injection He as -> ->. exists m. split_and!; [done..|]. exists k. split_and!; [lia..| done].
      + apply lookup_ge_None in Em. lia.
    - intros (m & Em & -> & k & Hk & -> & ->). exists (Datatypes.S k). rewrite (drop_S _ _ _ Em). cbn. split_and!; [lia..| done]. }
  assert (forall m, migrations !! n = Some m ->
    (ledger_rows_ok migrations (Z.of_nat (Datatypes.S n)) ({[sm_Version m]} ∪ seen) ({[sm_Name m]} ∪ seenNames) rows = Ok current <->
     exists k, (Datatypes.S n + k <= length migrations)%nat /\ current = Z.of_nat (Datatypes.S n + k) /\
       rows = ledger_row <$> take k (drop (Datatypes.S n) migrations))) as Hnext.
  { intros m Em. pose proof (lookup_lt_Some _ _ _ Em). apply IH; [lia|..].
    - intros v. rewrite elem_of_union, elem_of_singleton, Hseen, (Hv _ _ Em). lia.
    - intros name. rewrite elem_of_union, elem_of_singleton, Hnames, (take_S_r _ _ _ Em), fmap_app, elem_of_app. cbn. set_solver. }
  split.
  - intros H. case_bool_decide as Hs; [done|]. case_bool_decide as Hsn; [done|]. case_if_in H Ea; [done|]. case_if_in H Eg; [done|].
    reflect_bools. assert (Z.to_nat (ml_Version row - 1) = n) as Hidx by lia. rewrite Hidx in H.
    destruct (migrations !! n) as [m|] eqn:Em; [|done]. case_if_in H Ed; [done|]. reflect_bools.
    pose proof (Hv _ _ Em) as Hver. assert (row = ledger_row m) as -> by (apply ledger_row_eq; [lia | done | done]).
    exists m. split_and!; [done..|]. apply (Hnext m eq_refl). cbn [ledger_row ml_Version ml_Name] in H. rewrite <- H. f_equal. lia.
  - intros (m & Em & -> & Hk). pose proof (Hv _ _ Em) as Hver. pose proof (lookup_lt_Some _ _ _ Em) as Hlt.
    cbn [ledger_row ml_Version ml_Name ml_SHA256].
    rewrite bool_decide_false by (rewrite Hseen; lia).
    rewrite bool_decide_false.
    2: { rewrite Hnames. intros (m' & Hm' & Hin)%list_elem_of_fmap. apply list_elem_of_lookup in Hin as [j Hj].
         apply lookup_take_Some in Hj as [Hj Hjn]. assert (j = n); [|lia].
         apply (NoDup_lookup (sm_Name <$> migrations) j n (sm_Name m) Hn); rewrite list_lookup_fmap; [rewrite Hj | by rewrite Em]. cbn. by rewrite Hm'. }
    unfold blen. rewrite Z.gtb_ltb, (proj2 (Z.ltb_ge _ _)) by lia. rewrite (proj2 (Z.eqb_eq _ _)), (proj2 (Z.ltb_ge _ _)) by lia. cbn [negb orb].
    replace (Z.to_nat (sm_Version m - 1)) with n by lia. rewrite Em, String.eqb_refl, bool_decide_true by done. cbn [negb orb].
    apply (Hnext m Em) in Hk. rewrite <- Hk. f_equal. lia.
Qed.

Lemma ledger_valid_iff_prefix migrations rows status :
  numbered migrations ->
  validateMigrationLedger migrations rows = Ok status <->
  exists n, (n <= length migrations)%nat /\ rows = prefix_rows n migrations /\
    status = {| ms_Tracked := true; ms_Current := Z.of_nat n; ms_Latest := blen migrations; ms_Pending := drop n migrations |}.
Proof.
  intros Hnum. unfold validateMigrationLedger, prefix_rows. pose proof (ledger_rows_ok_iff migrations rows 0 ∅ ∅) as H.
  specialize (fun current => H current Hnum (Nat.le_0_l _) ltac:(set_solver by lia) ltac:(set_solver)). cbn [Nat.add] in H. change (Z.of_nat 0) with 0 in H. split.
  - intros (current & Hc & [= <-])%result_bind_ok. apply H in Hc as (n & Hn & -> & ->). exists n. rewrite drop_0, Nat2Z.id. done.
  - intros (n & Hn & -> & ->). rewrite (proj2 (H (Z.of_nat n))); [cbn; by rewrite Nat2Z.id|]. exists n. by rewrite drop_0.
Qed.

(** ** The catalogue *)

Lemma catalog_entries_lookup v migrations :
  catalog_entries_ok v migrations = Ok tt ->
  forall i m, migrations !! i = Some m -> sm_Version m = v + Z.of_nat i /\ TrimSpace (sm_AdoptionProbe m) <> "" /\ exists p, prepareMigrationSQL (sm_Contents m) = Ok p.
Proof.
  revert v. induction migrations as [|m0 rest IH]; intros v H i m Hi; [by rewrite lookup_nil in Hi|].
  cbn [catalog_entries_ok] in H. apply result_bind_ok in H as ([] & Hm & H). destruct i as [|i]; cbn in Hi.
  - injection Hi as <-. unfold catalog_entry_ok in Hm. case_if_in Hm E; [done|]. apply result_bind_ok in Hm as (p & Hp & _).
    apply orb_false_iff in E as [E Ep]. apply orb_false_iff in E as [E _]. apply orb_false_iff in E as [E _]. apply orb_false_iff in E as [E _].
    apply negb_false_iff, Z.eqb_eq in E. split_and!; [lia | by apply String.eqb_neq | by exists p].
  - destruct (IH _ H _ _ Hi) as [-> Hp]. split; [lia | done].
Qed.

Lemma load_entries_names entries loaded :
  load_entries entries = Ok loaded -> sm_Name <$> loaded = cf_Name <$> entries.
Proof.
  revert loaded. induction entries as [|e rest IH]; intros loaded; cbn [load_entries]; [by intros [= <-]|].
  destruct (cf_IsDir e); [done|]. destruct (migration_name _); [|done]. destruct (cf_Contents e); [|done].
  case_if_goal En; [done|]. intros (tl & Htl & [= <-])%result_bind_ok. cbn. by rewrite (IH _ Htl).
Qed.

Lemma load_entries_probes entries loaded :
  load_entries entries = Ok loaded -> forall m, m ∈ loaded -> sm_AdoptionProbe m = migrationAdoptionProbe (sm_Version m).
Proof.
  revert loaded. induction entries as [|e rest IH]; intros loaded; cbn [load_entries]; [by intros [= <-] m ?%elem_of_nil|].
  destruct (cf_IsDir e); [done|]. destruct (migration_name _); [|done]. destruct (cf_Contents e); [|done].
  case_if_goal En; [done|]. intros (tl & Htl & [= <-])%result_bind_ok m [->|Hm]%elem_of_cons; [done | by eapply IH].
Qed.

(** A migration without a probe of its own is refused: no catalogue has an eighteenth. *)
Lemma catalogue_has_probes entries migrations : LoadSchemaMigrations entries = Ok migrations -> (length migrations <= 17)%nat.
Proof.
  unfold LoadSchemaMigrations. destruct entries as [entries|]; [|done]. intros (loaded & Hl & H)%result_bind_ok.
  apply result_bind_ok in H as ([] & Hv & [= <-]). unfold validateSchemaMigrationCatalog in Hv. case_if_in Hv E; [done|].
  destruct (decide (length (merge_sort version_le loaded) <= 17)%nat) as [|Hn]; [done|].
  destruct (lookup_lt_is_Some_2 (merge_sort version_le loaded) 17) as [m Hm]; [lia|].
  destruct (catalog_entries_lookup _ _ Hv _ _ Hm) as (Hver & Hp & _).
  rewrite (load_entries_probes _ _ Hl) in Hp by (rewrite <- (merge_sort_Permutation version_le loaded); by eapply list_elem_of_lookup_2).
  apply adoption_probes_present in Hp. lia.
Qed.

(** A catalogue loaded from a directory of distinct names. *)
Lemma loaded_catalogue entries migrations :
  NoDup (cf_Name <$> entries) -> LoadSchemaMigrations (Ok entries) = Ok migrations ->
  numbered migrations /\ forall m, m ∈ migrations -> exists p, prepareMigrationSQL (sm_Contents m) = Ok p.
Proof.
  unfold LoadSchemaMigrations. intros Hd (loaded & Hl & H)%result_bind_ok. apply result_bind_ok in H as ([] & Hv & [= <-]).
  unfold validateSchemaMigrationCatalog in Hv. case_if_in Hv E; [done|]. pose proof (catalog_entries_lookup _ _ Hv) as Hc.
  split; [split|].
  - intros i m Hi. apply Hc in Hi as [-> _]. lia.
  - rewrite merge_sort_Permutation. by rewrite (load_entries_names _ _ Hl).
  - intros m [i Hi]%list_elem_of_lookup. by apply Hc in Hi as (_ & _ & ?).
Qed.

Lemma new_runner_catalogue config entries runner :
  NoDup (cf_Name <$> entries) -> NewMigrationRunner true config (Ok entries) = Ok runner ->
  numbered (rn_migrations runner) /\ (forall m, m ∈ rn_migrations runner -> exists p, prepareMigrationSQL (sm_Contents m) = Ok p) /\
  rn_migrations runner <> [].
Proof.
  intros Hd (c & _ & H)%result_bind_ok. apply result_bind_ok in H as (migrations & Hl & [= <-]). cbn.
  destruct (loaded_catalogue _ _ Hd Hl) as [Hn Hp]. split_and!; [done..|]. intros ->.
  unfold LoadSchemaMigrations in Hl. apply result_bind_ok in Hl as (loaded & _ & Hl). apply result_bind_ok in Hl as ([] & Hv & [= He]).
  by rewrite He in Hv.
Qed.

(** ** The database of the runners *)

Section World.
Context {D : Type}.
(** What a text of SQL makes of a schema, in one transaction; whether the schema has the
    table of tenants; and what an adoption probe answers. *)
Variables (exec : string -> D -> option D) (has_tenants : D -> bool) (probe : string -> D -> bool).
Variables (runner : MigrationRunner) (original : D).
Let migrations : list SchemaMigration := rn_migrations runner.

(** [wm_fate] says of each commit that fails whether it took effect. *)
Record MigrationWorld := { wm_ledger : option (list MigrationLedgerRow); wm_schema : D; wm_fate : list bool }.

(** INSERT into the ledger, whose rows are read in the order of their versions; versions
    and names are unique. *)
Fixpoint place_row (row : MigrationLedgerRow) (rows : list MigrationLedgerRow) : list MigrationLedgerRow :=
  match rows with
  | [] => [row]
  | r :: rest => if ml_Version row <? ml_Version r then row :: r :: rest else r :: place_row row rest
  end.

Definition insert_row (row : MigrationLedgerRow) (rows : list MigrationLedgerRow) : option (list MigrationLedgerRow) :=
  if existsb (fun r => (ml_Version r =? ml_Version row) || (ml_Name r =s ml_Name row)) rows then None else Some (place_row row rows).

Fixpoint insert_rows (new rows : list MigrationLedgerRow) : option (list MigrationLedgerRow) :=
  match new with
  | [] => Some rows
  | row :: rest => match insert_row row rows with Some rows' => insert_rows rest rows' | None => None end
  end.

(** A transaction that can succeed: it does, or its commit fails with or without
    effect; any transaction can fail before. *)
Definition tx_answer (after : option (option (list MigrationLedgerRow) * D)) (failure : option tx_failure) (w : MigrationWorld)
    : option MigrationWorld :=
  match failure, after with
  | None, Some (ledger, schema) => Some {| wm_ledger := ledger; wm_schema := schema; wm_fate := wm_fate w |}
  | None, None => None
  | Some FailedCommit, Some (ledger, schema) =>
    Some (if default false (head (wm_fate w))
          then {| wm_ledger := ledger; wm_schema := schema; wm_fate := tail (wm_fate w) |}
          else {| wm_ledger := wm_ledger w; wm_schema := wm_schema w; wm_fate := tail (wm_fate w) |})
  | Some _, _ => Some w
  end.

Definition apply_after (prepared : string) (row : MigrationLedgerRow) (w : MigrationWorld) : option (option (list MigrationLedgerRow) * D) :=
  match exec prepared (wm_schema w), wm_ledger w ≫= insert_row row with
  | Some schema, Some rows => Some (Some rows, schema)
  | _, _ => None
  end.

Definition adopt_after (markers : list (string * MigrationLedgerRow)) (w : MigrationWorld) : option (option (list MigrationLedgerRow) * D) :=
  if forallb (fun m => probe m.1 (wm_schema w)) markers then
    match wm_ledger w ≫= insert_rows (snd <$> markers) with
    | Some rows => Some (Some rows, wm_schema w)
    | None => None
    end
  else None.

Definition migration_respond (i : nat) (X : Type) (c : MigrationCall X) (w : MigrationWorld) : X -> option MigrationWorld :=
  match c in MigrationCall X return X -> option MigrationWorld with
  | SchemaPresence => fun x =>
      match x with
      | Ok (tracked, schemaExists) =>
        if Bool.eqb tracked (bool_decide (is_Some (wm_ledger w))) && Bool.eqb schemaExists (has_tenants (wm_schema w)) then Some w else None
      | Err e => if is_nil e then None else Some w
      end
  | ReadLedger => fun x =>
      match x with
      | Ok rows => if bool_decide (wm_ledger w = Some rows) then Some w else None
      | Err e => if is_nil e then None else Some w
      end
  | CreateLedger => fun failure => tx_answer (Some (Some (default [] (wm_ledger w)), wm_schema w)) failure w
  | ApplyTx prepared row => fun failure => tx_answer (apply_after prepared row w) failure w
  | AdoptTx markers => fun failure => tx_answer (adopt_after markers w) failure w
  | _ => fun _ => Some w
  end.

(** ** The invariant *)

Definition run_migration (schema : option D) (m : SchemaMigration) : option D :=
  match schema, prepareMigrationSQL (sm_Contents m) with
  | Some schema, Ok prepared => exec prepared schema
  | _, _ => None
  end.

(** The original schema after the first [n] migrations, each once and in order. *)
Definition migrated (n : nat) : option D := foldl run_migration (Some original) (take n migrations).

Definition untouched (w : MigrationWorld) : Prop := wm_ledger w = None /\ wm_schema w = original.

Definition migrated_to (n : nat) (w : MigrationWorld) : Prop :=
  (n <= length migrations)%nat /\ wm_ledger w = Some (prefix_rows n migrations) /\ migrated n = Some (wm_schema w) /\
  ((0 < n)%nat -> has_tenants original = false).

Definition adopted_whole (w : MigrationWorld) : Prop :=
  wm_ledger w = Some (prefix_rows (length migrations) migrations) /\ wm_schema w = original /\ has_tenants original = true /\
  Forall (fun m => probe (sm_AdoptionProbe m) original = true) migrations.

Definition migration_ok (w : MigrationWorld) : Prop := untouched w \/ (exists n, migrated_to n w) \/ adopted_whole w.

(** The ledger has at least [n] rows. *)
Definition rows_at_least (n : nat) (w : MigrationWorld) : Prop := exists rows, wm_ledger w = Some rows /\ (n <= length rows)%nat.

Definition migration_rely (j : nat) (w w' : MigrationWorld) : Prop := forall n, rows_at_least n w -> rows_at_least n w'.

Definition migration_allowed (i : nat) (X : Type) (c : MigrationCall X) (w : MigrationWorld) : Prop :=
  match c with
  | ApplyTx prepared row => exists n m, migrations !! n = Some m /\ prepareMigrationSQL (sm_Contents m) = Ok prepared /\ row = ledger_row m /\
      rows_at_least n w /\ has_tenants original = false
  | AdoptTx markers => markers = (fun m => (sm_AdoptionProbe m, ledger_row m)) <$> migrations /\ has_tenants original = true
  | _ => True
  end.

Hypothesis catalogue : numbered migrations.

Lemma length_prefix_rows n : (n <= length migrations)%nat -> length (prefix_rows n migrations) = n.
Proof. intros H. unfold prefix_rows. rewrite length_fmap, length_take. lia. Qed.

Lemma prefix_rows_S n m : migrations !! n = Some m -> prefix_rows (Datatypes.S n) migrations = prefix_rows n migrations ++ [ledger_row m].
Proof. intros H. unfold prefix_rows. by rewrite (take_S_r _ _ _ H), fmap_app. Qed.

Lemma prefix_rows_elem n row : row ∈ prefix_rows n migrations -> exists j m, (j < n)%nat /\ migrations !! j = Some m /\ row = ledger_row m.
Proof.
  intros (m & -> & Hin)%list_elem_of_fmap. apply list_elem_of_lookup in Hin as [j Hj]. apply lookup_take_Some in Hj as [Hj Hlt]. by exists j, m.
Qed.

Lemma place_row_last row rows : Forall (fun r => ml_Version r < ml_Version row) rows -> place_row row rows = rows ++ [row].
Proof.
  induction 1 as [|r rows Hr _ IH]; [done|]. cbn. rewrite (proj2 (Z.ltb_ge _ _)) by lia. by rewrite IH.
Qed.

(** The next row is placed last, an earlier one conflicts. *)
Lemma insert_row_next n m : migrations !! n = Some m -> insert_row (ledger_row m) (prefix_rows n migrations) = Some (prefix_rows (Datatypes.S n) migrations).
Proof.
  intros Hm. destruct catalogue as [Hv Hn]. unfold insert_row.
  assert (existsb (fun r => (ml_Version r =? ml_Version (ledger_row m)) || (ml_Name r =s ml_Name (ledger_row m))) (prefix_rows n migrations) = false) as ->.
  { apply existsb_false. intros row (j & m' & Hj & Hm' & ->)%prefix_rows_elem. apply orb_false_iff. cbn. split.
    - apply Z.eqb_neq. rewrite (Hv _ _ Hm), (Hv _ _ Hm'). lia.
    - apply String.eqb_neq. intros He. assert (j = n); [|lia].
      apply (NoDup_lookup (sm_Name <$> migrations) j n (sm_Name m) Hn); rewrite list_lookup_fmap; [rewrite Hm'; cbn; by rewrite He | by rewrite Hm]. }
  rewrite (prefix_rows_S _ _ Hm), place_row_last; [done|]. apply Forall_forall. intros row (j & m' & Hj & Hm' & ->)%prefix_rows_elem.
  cbn. rewrite (Hv _ _ Hm), (Hv _ _ Hm'). lia.
Qed.

Lemma insert_row_again n k m : migrations !! n = Some m -> (n < k)%nat -> insert_row (ledger_row m) (prefix_rows k migrations) = None.
Proof.
  intros Hm Hk. unfold insert_row.
  assert (existsb (fun r => (ml_Version r =? ml_Version (ledger_row m)) || (ml_Name r =s ml_Name (ledger_row m))) (prefix_rows k migrations) = true) as ->; [|done].
  apply existsb_exists. exists (ledger_row m). split; [|by rewrite Z.eqb_refl].
  apply list_elem_of_In, list_elem_of_fmap. exists m. split; [done|]. apply list_elem_of_lookup. exists n. by rewrite lookup_take_lt.
Qed.

Lemma insert_rows_all n :
  (n <= length migrations)%nat ->
  insert_rows (ledger_row <$> drop n migrations) (prefix_rows n migrations) = Some (prefix_rows (length migrations) migrations).
Proof.
  intros Hn. remember (length migrations - n)%nat as k eqn:Hk. revert n Hn Hk. induction k as [|k IH]; intros n Hn Hk.
  - rewrite drop_ge by lia. cbn. do 2 f_equal. lia.
  - destruct (lookup_lt_is_Some_2 migrations n) as [m Hm]; [lia|]. rewrite (drop_S _ _ _ Hm). cbn [fmap list_fmap insert_rows].
    rewrite (insert_row_next _ _ Hm). apply IH; lia.
Qed.

Lemma migrated_S n m prepared schema schema' :
  migrations !! n = Some m -> migrated n = Some schema -> prepareMigrationSQL (sm_Contents m) = Ok prepared -> exec prepared schema = Some schema' ->
  migrated (Datatypes.S n) = Some schema'.
Proof. intros Hm Hs Hp He. unfold migrated in *. rewrite (take_S_r _ _ _ Hm), foldl_snoc, Hs. cbn. by rewrite Hp. Qed.

(** Applying the migration after at least its predecessors were applied. *)
Lemma apply_after_ok n m prepared w ledger schema :
  migration_ok w -> migrations !! n = Some m -> prepareMigrationSQL (sm_Contents m) = Ok prepared -> rows_at_least n w ->
  has_tenants original = false -> apply_after prepared (ledger_row m) w = Some (ledger, schema) ->
  ledger = Some (prefix_rows (Datatypes.S n) migrations) /\ wm_ledger w = Some (prefix_rows n migrations) /\ migrated (Datatypes.S n) = Some schema.
Proof.
  intros Hok Hm Hp (rows & Hrows & Hle) Ht H. pose proof (lookup_lt_Some _ _ _ Hm) as Hlt. unfold apply_after in H. rewrite Hrows in H. cbn in H.
  destruct (exec prepared (wm_schema w)) as [schema'|] eqn:Ee; [|done].
  destruct Hok as [[Hl _]|[(k & Hk & Hl & Hs & _)|(Hl & _ & Ht' & _)]]; [by rewrite Hl in Hrows| |by rewrite Ht in Ht'].
  rewrite Hl in Hrows. injection Hrows as <-. rewrite length_prefix_rows in Hle by done.
  destruct (decide (n < k)%nat) as [Hnk|Hnk]; [by rewrite (insert_row_again _ _ _ Hm Hnk) in H|]. assert (k = n) as -> by lia.
  rewrite (insert_row_next _ _ Hm) in H. injection H as <- <-. split_and!; [done..|]. by eapply migrated_S.
Qed.

Lemma tx_answer_cases after failure w w' :
  tx_answer after failure w = Some w' ->
  (wm_ledger w' = wm_ledger w /\ wm_schema w' = wm_schema w /\ failure <> None) \/
  exists ledger schema, after = Some (ledger, schema) /\ wm_ledger w' = ledger /\ wm_schema w' = schema.
Proof.
  unfold tx_answer. destruct failure as [[| | | | | |v]|]; destruct after as [[ledger schema]|];
    try (intros [= <-]; by left); [|intros [= <-]; right; by exists ledger, schema].
  destruct (default false (head (wm_fate w))); intros [= <-]; [right; by exists ledger, schema | by left].
Qed.

(** ** One transaction keeps the invariant *)

Lemma migration_ok_same w w' : wm_ledger w' = wm_ledger w -> wm_schema w' = wm_schema w -> migration_ok w -> migration_ok w'.
Proof. unfold migration_ok, untouched, migrated_to, adopted_whole. by intros -> ->. Qed.

Lemma rely_same i w w' : wm_ledger w' = wm_ledger w -> migration_rely i w w'.
Proof. intros Hl n. unfold rows_at_least. by rewrite Hl. Qed.

Lemma ledger_nonempty w rows :
  migration_ok w -> wm_ledger w = Some rows -> exists n, (n <= length migrations)%nat /\ rows = prefix_rows n migrations /\ length rows = n.
Proof.
  intros [[Hl _]|[(n & Hn & Hl & _)|(Hl & _)]] Hr; rewrite Hl in Hr; [done|..]; injection Hr as <-;
    [exists n | exists (length migrations)]; split_and!; try done; by apply length_prefix_rows.
Qed.

Lemma apply_guarantee w w' n m prepared failure :
  migration_ok w -> migrations !! n = Some m -> prepareMigrationSQL (sm_Contents m) = Ok prepared -> rows_at_least n w ->
  has_tenants original = false -> tx_answer (apply_after prepared (ledger_row m) w) failure w = Some w' ->
  migration_ok w' /\ migration_rely 0 w w' /\ (failure = None -> rows_at_least (Datatypes.S n) w').
Proof.
  intros Hok Hm Hp Hr Ht [(Hl & Hs & Hf)|(ledger & schema & Ha & Hl & Hs)]%tx_answer_cases.
  - split_and!; [by eapply migration_ok_same | by apply rely_same | by intros ->].
  - destruct (apply_after_ok _ _ _ _ _ _ Hok Hm Hp Hr Ht Ha) as (-> & Hw & Hmig). pose proof (lookup_lt_Some _ _ _ Hm) as Hlt.
    assert (length (prefix_rows (Datatypes.S n) migrations) = Datatypes.S n) as Hlen by (apply length_prefix_rows; lia).
    split_and!.
    + right. left. exists (Datatypes.S n). split_and!; [lia | done | by rewrite Hs | done].
    + intros k (rows & Hrows & Hk). exists (prefix_rows (Datatypes.S n) migrations). split; [done|]. rewrite Hw in Hrows. injection Hrows as <-.
      rewrite length_prefix_rows in Hk by lia. lia.
    + intros _. exists (prefix_rows (Datatypes.S n) migrations). split; [done | lia].
Qed.

Lemma create_ledger_guarantee w w' failure :
  migration_ok w -> tx_answer (Some (Some (default [] (wm_ledger w)), wm_schema w)) failure w = Some w' ->
  migration_ok w' /\ migration_rely 0 w w'.
Proof.
  intros Hok [(Hl & Hs & _)|(ledger & schema & [= <- <-] & Hl & Hs)]%tx_answer_cases.
  - split; [by eapply migration_ok_same | by apply rely_same].
  - destruct Hok as [[Hn Ho]|Hok].
    + rewrite Hn in Hl. cbn in Hl. split.
      * right. left. exists 0%nat. split_and!; [lia | done | by rewrite Hs, Ho | lia].
      * intros k (rows & Hrows & _). by rewrite Hn in Hrows.
    + assert (wm_ledger w' = wm_ledger w) as Hl'.
      { rewrite Hl. destruct Hok as [(n & _ & -> & _)|(-> & _)]; done. }
      split; [eapply migration_ok_same; [exact Hl' | exact Hs | by right] | by apply rely_same].
Qed.

Lemma adopt_guarantee w w' failure :
  migration_ok w -> has_tenants original = true ->
  tx_answer (adopt_after ((fun m => (sm_AdoptionProbe m, ledger_row m)) <$> migrations) w) failure w = Some w' ->
  migration_ok w' /\ migration_rely 0 w w' /\ (failure = None -> rows_at_least (length migrations) w').
Proof.
  intros Hok Ht [(Hl & Hs & Hf)|(ledger & schema & Ha & Hl & Hs)]%tx_answer_cases.
  { split_and!; [by eapply migration_ok_same | by apply rely_same | by intros ->]. }
  unfold adopt_after in Ha. case_if_in Ha Ep; [|done]. destruct (wm_ledger w) as [rows|] eqn:Hw; [|done]. cbn in Ha.
  rewrite <- list_fmap_compose in Ha. destruct (ledger_nonempty w rows Hok Hw) as (n & Hn & -> & Hlen).
  assert (n = 0%nat \/ length migrations = 0%nat) as Hz.
  { destruct n as [|n]; [by left|]. destruct migrations as [|m0 rest] eqn:Em; [by right|]. exfalso. cbn [fmap list_fmap insert_rows compose snd] in Ha.
    rewrite <- Em in Ha. rewrite (insert_row_again 0 (Datatypes.S n) m0) in Ha; [done | by rewrite Em | lia]. }
  assert (n = 0%nat) as -> by (destruct Hz; lia). clear Hz.
  assert (insert_rows (ledger_row <$> migrations) (prefix_rows 0 migrations) = Some (prefix_rows (length migrations) migrations)) as Hall.
  { pose proof (insert_rows_all 0 ltac:(lia)) as H. by rewrite drop_0 in H. }
  assert (snd ∘ (fun m => (sm_AdoptionProbe m, ledger_row m)) <$> migrations = ledger_row <$> migrations) as Hsnd by (by apply list_fmap_ext).
  rewrite Hsnd, Hall in Ha. injection Ha as <- <-.
  assert (wm_schema w = original) as Ho.
  { destruct Hok as [[_ ?]|[(k & Hk & Hl0 & Hm & _)|(_ & ? & _)]]; [done| |done].
    assert (length (prefix_rows 0 migrations) = k) as <- by (rewrite Hw in Hl0; injection Hl0 as ->; by apply length_prefix_rows).
    rewrite Hlen in Hm. cbn in Hm. by injection Hm as ->. }
  rewrite Ho in *. split_and!.
  - right. right. split_and!; [done..|]. apply Forall_forall. intros m Hm. rewrite forallb_forall in Ep.
    apply (Ep (sm_AdoptionProbe m, ledger_row m)). apply list_elem_of_In, list_elem_of_fmap. by exists m.
  - intros k (rows & Hrows & Hk). exists (prefix_rows (length migrations) migrations). split; [done|]. rewrite length_prefix_rows by lia.
    rewrite Hw in Hrows. injection Hrows as <-. lia.
  - intros _. exists (prefix_rows (length migrations) migrations). split; [done|]. by rewrite length_prefix_rows.
Qed.

Lemma migration_guarantee i X (c : MigrationCall X) w x w' :
  migration_ok w -> migration_allowed i X c w -> migration_respond i X c w x = Some w' ->
  migration_ok w' /\ forall j, j <> i -> migration_rely j w w'.
Proof.
  intros Hok Hal Hr. assert (Hsame : w' = w -> migration_ok w' /\ forall j, j <> i -> migration_rely j w w').
  { intros ->. split; [done|]. intros j _. by apply rely_same. }
  destruct c; cbn in Hr, Hal; try (injection Hr as <-; by apply Hsame).
  - destruct x as [[tracked ex]|e]; case_hyp Hr; injection Hr as <-; by apply Hsame.
  - destruct x as [rows|e]; case_hyp Hr; injection Hr as <-; by apply Hsame.
  - destruct (create_ledger_guarantee _ _ _ Hok Hr) as [? Hrel]. split; [done|]. intros j _. exact Hrel.
  - destruct Hal as (n & m & Hm & Hp & -> & Hrows & Ht). destruct (apply_guarantee _ _ _ _ _ _ Hok Hm Hp Hrows Ht Hr) as (? & Hrel & _).
    split; [done|]. intros j _. exact Hrel.
  - destruct Hal as [-> Ht]. destruct (adopt_guarantee _ _ _ Hok Ht Hr) as (? & Hrel & _). split; [done|]. intros j _. exact Hrel.
Qed.
(** ** The programs *)

Hypothesis prepares : forall m, m ∈ migrations -> exists p, prepareMigrationSQL (sm_Contents m) = Ok p.
Context (i : nat).

Abbreviation safely := (safe (others migration_rely migration_ok i) (migration_respond i) (migration_allowed i)).

(** Known of the world, whatever the others do: the invariant, and [n] rows. *)
Definition known (n : nat) (w : MigrationWorld) : Prop := migration_ok w /\ (n = 0%nat \/ rows_at_least n w).

Lemma known_stable n w w' : others migration_rely migration_ok i w w' -> known n w -> known n w'.
Proof. intros [Hr Hok] [_ Hn]. split; [done|]. destruct Hn as [?|Hn]; [by left | right; by apply Hr]. Qed.

Definition complete (w : MigrationWorld) : Prop := wm_ledger w = Some (prefix_rows (length migrations) migrations).

Lemma complete_rows w : migration_ok w -> rows_at_least (length migrations) w -> complete w.
Proof.
  intros Hok (rows & Hr & Hle). destruct (ledger_nonempty _ _ Hok Hr) as (n & Hn & -> & Hlen). unfold complete. rewrite Hr. do 2 f_equal. lia.
Qed.

(** An answer that leaves the world as it is. *)
Lemma quiet_same X (c : MigrationCall X) w x w' :
  match c with CreateLedger | ApplyTx _ _ | AdoptTx _ => False | _ => True end ->
  migration_respond i X c w x = Some w' -> w' = w.
Proof. destruct c; intros Hq Hr; try done; cbn in Hr; try congruence; destruct x as [[]|]; case_hyp Hr; congruence. Qed.

Lemma safe_quiet {A X} (c : MigrationCall X) (k : X -> prog MigrationCall A) Q n w :
  match c with CreateLedger | ApplyTx _ _ | AdoptTx _ => False | _ => True end ->
  known n w -> (forall w x, known n w -> migration_respond i X c w x = Some w -> safely (k x) Q w) -> safely (Call c k) Q w.
Proof.
  intros Hq Hw Hk. apply (safe_call _ _ _ (known n)); [apply known_stable | done | by destruct c|].
  intros w1 x w2 Hw1 Hr. pose proof (quiet_same _ _ _ _ _ Hq Hr) as ->. by apply Hk.
Qed.

#[local] Ltac quietly H := eapply (safe_quiet _ _ _ 0); [exact I | exact H |].

Lemma safe_return {A} (a : A) (Q : A -> MigrationWorld -> Prop) n w : known n w -> (forall w, known n w -> Q a w) -> safely (Ret a) Q w.
Proof. intros Hw HQ. apply (safe_ret _ _ _ (known n)); [apply known_stable | done | done]. Qed.

Definition reports_complete (o : MigrationResult * error) (w : MigrationWorld) : Prop :=
  migration_ok w /\ (o.2 = [] -> rows_at_least (length migrations) w /\ mr_Current o.1 = blen migrations).

Lemma reports_stable o w w' : others migration_rely migration_ok i w w' -> reports_complete o w -> reports_complete o w'.
Proof. intros [Hr Hok] [_ Hc]. split; [done|]. intros He. destruct (Hc He) as [Hrows ?]. split; [by apply Hr | done]. Qed.

Lemma reports_error r e n w : e <> [] -> known n w -> safely (Ret (r, e)) reports_complete w.
Proof. intros He Hw. apply (safe_return _ _ _ _ Hw). by intros w' [Hok _]. Qed.

Lemma reports_all r n w : known n w -> (length migrations <= n)%nat -> (0 < n)%nat -> mr_Current r = blen migrations -> safely (Ret (r, [])) reports_complete w.
Proof.
  intros Hw Hn Hp Hc. apply (safe_return _ _ _ _ Hw). intros w' [Hok [->|(rows & Hr & Hle)]]; [lia|]. split; [done|]. intros _.
  split; [|done]. exists rows. split; [done | lia].
Qed.

Lemma tx_error_some f a b c d : tx_error f a b c d <> [].
Proof. by destruct f. Qed.

Lemma apply_pending_safe pending result n w :
  pending = drop n migrations -> known n w -> (n <= length migrations)%nat -> migrations <> [] -> (pending <> [] -> has_tenants original = false) ->
  (0 < n)%nat \/ rows_at_least 0 w ->
  mr_Current result = Z.of_nat n -> safely (apply_pending pending result) reports_complete w.
Proof.
  revert result n w. induction pending as [|m rest IH]; intros result n w Hp Hw Hn Hne Ht Hl Hc; cbn [apply_pending].
  { apply (f_equal length) in Hp. rewrite length_drop in Hp. cbn in Hp. assert (n = length migrations) as -> by lia.
    apply (reports_all _ (length migrations)); [done | done | by destruct migrations; cbn; [|lia] | done]. }
  specialize (Ht ltac:(done)). assert (migrations !! n = Some m) as Hm.
  { rewrite <- (Nat.add_0_r n). rewrite <- lookup_drop, <- Hp. done. }
  destruct (prepares m ltac:(by eapply list_elem_of_lookup_2)) as [prepared Hprep]. destruct (catalogue) as [Hver _].
  assert (known n w /\ rows_at_least n w) as [_ Hrows].
  { split; [done|]. destruct Hw as [_ [->|?]]; [destruct Hl; [lia | done] | done]. }
  unfold applyOne. rewrite Hprep. cbn [prog_bind].
  apply (safe_call _ _ _ (fun w => migration_ok w /\ rows_at_least n w)).
  - intros w1 w2 [Hr Hok] [_ Hrw]. split; [done | by apply Hr].
  - split; [apply Hw | done].
  - intros w1 [_ Hrw]. exists n, m. by split_and!.
  - intros w1 failure w2 [Hok Hrw] Hr. cbn in Hr.
    destruct (apply_guarantee _ _ _ _ _ _ Hok Hm Hprep Hrw Ht Hr) as (Hok2 & _ & Hdone). destruct failure as [f|]; cbn [prog_bind].
    + apply (reports_error _ _ 0); [apply tx_error_some | split; [done | by left]].
    + apply (IH _ (Datatypes.S n)); cbn [mr_Current].
      * rewrite (drop_S _ _ _ Hm) in Hp. by injection Hp.
      * split; [done | right; by apply Hdone].
      * apply lookup_lt_Some in Hm. unfold migrations in *. lia.
      * done.
      * done.
      * left. lia.
      * rewrite (Hver _ _ Hm). lia.
Qed.
(** What the presence of the table of tenants tells. *)
Definition presence_known (schemaExists : bool) (w : MigrationWorld) : Prop :=
  migration_ok w /\ (has_tenants original = schemaExists \/ rows_at_least 1 w).

Lemma presence_stable b w w' : others migration_rely migration_ok i w w' -> presence_known b w -> presence_known b w'.
Proof. intros [Hr Hok] [_ Hp]. split; [done|]. destruct Hp as [?|Hp]; [by left | right; by apply Hr]. Qed.

Lemma presence_seen w : migration_ok w -> presence_known (has_tenants (wm_schema w)) w.
Proof.
  intros Hok. split; [done|]. destruct Hok as [[_ ->]|[(n & Hn & Hl & Hm & _)|(_ & -> & _)]]; [by left| |by left].
  destruct n as [|n]; [left; cbn in Hm; by injection Hm as ->|]. right. exists (prefix_rows (Datatypes.S n) migrations).
  rewrite length_prefix_rows by done. split; [done | lia].
Qed.

(** Pending migrations of a schema that is not adopted belong to a schema that had no
    tenants. *)
Lemma pending_unadopted b w rows n :
  presence_known b w -> wm_ledger w = Some rows -> rows = prefix_rows n migrations -> (n <= length migrations)%nat ->
  b && is_nil rows = false -> drop n migrations <> [] -> has_tenants original = false.
Proof.
  intros [Hok Hb] Hr -> Hn He Hd.
  assert (n < length migrations)%nat as Hlt by (destruct (decide (n < length migrations)%nat); [done | by rewrite drop_ge in Hd by lia]).
  destruct Hok as [[Hl _]|[(k & Hk & Hl & _ & Hz)|(Hl & _)]]; rewrite Hl in Hr; [done|..]; injection Hr as Hr; apply (f_equal length) in Hr;
    rewrite !length_prefix_rows in Hr by (done || lia); [subst k | unfold migrations in *; lia].
  destruct n as [|n]; [|apply Hz; lia]. destruct Hb as [->|(rows & Hr & Hle)].
  - cbn in He. by rewrite andb_true_r in He.
  - rewrite Hl in Hr. injection Hr as <-. rewrite length_prefix_rows in Hle by lia. lia.
Qed.

Lemma adopted_tenants b w rows : presence_known b w -> wm_ledger w = Some rows -> b && is_nil rows = true -> has_tenants original = true.
Proof.
  intros [_ Hb] Hr [-> He]%andb_true_iff. destruct rows; [|done]. destruct Hb as [?|(rows & Hr' & Hle)]; [done|].
  rewrite Hr in Hr'. injection Hr' as <-. cbn in Hle. lia.
Qed.

Lemma adoptExisting_safe result adopted w :
  migration_ok w -> has_tenants original = true -> migrations <> [] -> mr_Current adopted = blen migrations ->
  safely (do! done := adoptExisting runner in match done with Err err => Ret (result, err) | Ok _ => Ret (adopted, []) end) reports_complete w.
Proof.
  intros Hok Ht Hne Hc. unfold adoptExisting. cbn [prog_bind].
  apply (safe_call _ _ _ migration_ok); [by intros w1 w2 [_ ?] | done | done|]. intros w1 failure w2 Hok1 Hr. cbn in Hr.
  destruct (adopt_guarantee _ _ _ Hok1 Ht Hr) as (Hok2 & _ & Hd). destruct failure as [f|]; cbn [prog_bind].
  - apply (reports_error _ _ 0); [apply tx_error_some | split; [done | by left]].
  - apply (reports_all _ (length migrations)); [split; [done | right; by apply Hd] | done | by destruct migrations; cbn; [|lia] | done].
Qed.

(** From the reading of the ledger on. *)
Lemma read_safe adopt schemaExists w :
  presence_known schemaExists w -> migrations <> [] ->
  safely (call! read := ReadLedger in
      match read with
      | Err err => Ret (no_result, err)
      | Ok rows =>
        match validateMigrationLedger migrations rows with
        | Err err => Ret (no_result, err)
        | Ok status =>
          let result := {| mr_Previous := ms_Current status; mr_Current := ms_Current status; mr_Applied := 0; mr_Adopted := false |} in
          if schemaExists && is_nil rows then
            if negb adopt then Ret (result, [ErrUntrackedSchema])
            else
              do! adopted := adoptExisting runner in
              match adopted with
              | Err err => Ret (result, err)
              | Ok _ => Ret ({| mr_Previous := ms_Current status; mr_Current := blen migrations; mr_Applied := 0; mr_Adopted := true |}, [])
              end
          else apply_pending (ms_Pending status) result
        end
      end) reports_complete w.
Proof.
  intros Hp Hne. apply (safe_call _ _ _ (presence_known schemaExists)); [apply presence_stable | done | done|].
  intros w1 read w2 Hw Hr. pose proof (quiet_same _ ReadLedger _ _ _ I Hr) as ->. pose proof (proj1 Hw) as Hok.
  assert (known 0 w1) as Hk by (split; [done | by left]). cbn in Hr. destruct read as [rows|e].
  2: { apply (reports_error _ _ 0); [by destruct e | done]. }
  case_bool_decide as Hl; [|done]. destruct (ledger_nonempty _ _ Hok Hl) as (n & Hn & Hrows & Hlen).
  assert (validateMigrationLedger migrations rows = Ok {| ms_Tracked := true; ms_Current := Z.of_nat n; ms_Latest := blen migrations; ms_Pending := drop n migrations |})
    as -> by (apply ledger_valid_iff_prefix; [done | by exists n]).
  cbv zeta. cbn [ms_Current ms_Pending]. case_if_goal He.
  - destruct adopt; cbn [negb]; [|by apply (reports_error _ _ 0)].
    apply adoptExisting_safe; [done | by eapply adopted_tenants | done | done].
  - apply (apply_pending_safe _ _ n); [done | | done | done | intros Hd; by eapply pending_unadopted | right; exists rows; split; [done | lia] | done].
    split; [done|]. right. exists rows. split; [done | lia].
Qed.

Lemma up_locked_safe adopt w : known 0 w -> migrations <> [] -> safely (up_locked runner adopt) reports_complete w.
Proof.
  intros Hw Hne. unfold up_locked. quietly Hw. intros w1 presence Hk Hr. cbn in Hr.
  destruct presence as [[tracked schemaExists]|e]; [|apply (reports_error _ _ 0); [by destruct e | done]].
  case_if_in Hr Eb; [|done]. apply andb_true_iff in Eb as [_ Eb]. apply Bool.eqb_prop in Eb as ->.
  pose proof (presence_seen _ (proj1 Hk)) as Hp. remember (has_tenants (wm_schema w1)) as schemaExists eqn:Ex. clear Hr Ex.
  destruct tracked; cbn [prog_bind]; [by apply read_safe|]. unfold ensureMigrationLedger. cbn [prog_bind].
  apply (safe_call _ _ _ (presence_known schemaExists)); [apply presence_stable | done | done|]. intros w2 failure w3 [Hok2 Hb] Hr. cbn in Hr.
  destruct (create_ledger_guarantee _ _ _ Hok2 Hr) as [Hok3 Hrel]. destruct failure as [f|]; cbn [prog_bind].
  - apply (reports_error _ _ 0); [apply tx_error_some | split; [done | by left]].
  - apply read_safe; [|done]. split; [done|]. destruct Hb as [?|Hb]; [by left | right; by apply Hrel].
Qed.

Lemma acquireLock_safe rounds w : known 0 w -> safely (acquireLock rounds) (fun r w => known 0 w /\ r <> Err []) w.
Proof.
  revert w. induction rounds as [|rounds IH]; intros w Hw; cbn [acquireLock]; [by apply (safe_return _ _ _ _ Hw)|].
  quietly Hw. intros w1 [[]|e] Hw1 _; [by apply (safe_return _ _ _ _ Hw1)|..].
  - quietly Hw1. intros w2 [] Hw2 _; [by apply (safe_return _ _ _ _ Hw2) | by apply IH].
  - quietly Hw1. intros w2 [] Hw2 _; by apply (safe_return _ _ _ _ Hw2).
Qed.

Lemma Up_safe adopt w : known 0 w -> migrations <> [] -> safely (Up runner adopt) reports_complete w.
Proof.
  intros Hw Hne. unfold Up. quietly Hw. intros w1 err Hw1 _. case_if_goal Ee; [by apply (reports_error _ _ 0)|].
  eapply safe_bind; [by apply acquireLock_safe|]. intros [[]|e] w2 [Hw2 He]; [|apply (reports_error _ _ 0); [by intros ->|done]].
  eapply safe_bind; [by apply up_locked_safe|]. intros o w3 Hq.
  pose proof (reports_stable o) as Hst.
  apply (safe_call _ _ _ (reports_complete o)); [done..|]. intros w4 [] w5 Hq4 [= <-]. by apply (safe_ret _ _ _ (reports_complete o)).
Qed.

Lemma CheckCurrent_safe w :
  known 0 w -> safely (CheckCurrent runner) (fun r w => r = Ok tt -> migration_ok w /\ rows_at_least (length migrations) w) w.
Proof.
  intros Hw. unfold CheckCurrent, Status. cbn [prog_bind]. quietly Hw. intros w1 err Hw1 _.
  case_if_goal Ee; cbn [prog_bind]; [by apply (safe_return _ _ _ _ Hw1)|].
  quietly Hw1. intros w2 [[tracked ex]|e] Hw2 _; cbn [prog_bind]; [|by apply (safe_return _ _ _ _ Hw2)].
  destruct tracked; cbn [negb prog_bind]; [|destruct ex; by apply (safe_return _ _ _ _ Hw2)].
  quietly Hw2. intros w3 [rows|e] Hw3 Hr; cbn [prog_bind]; [|by apply (safe_return _ _ _ _ Hw3)].
  cbn in Hr. case_bool_decide as Hl; [|done].
  destruct (ledger_nonempty _ _ (proj1 Hw3) Hl) as (n & Hn & Hrows & Hlen).
  assert (validateMigrationLedger migrations rows = Ok {| ms_Tracked := true; ms_Current := Z.of_nat n; ms_Latest := blen migrations; ms_Pending := drop n migrations |})
    as Hv by (apply ledger_valid_iff_prefix; [done | by exists n]).
  unfold migrations in *. rewrite Hv. unfold IsCurrent. cbn [ms_Tracked ms_Current ms_Latest ms_Pending andb]. case_if_goal Ec.
  - apply andb_true_iff in Ec as [Ec _]. apply Z.eqb_eq in Ec. unfold blen in Ec.
    apply (safe_ret _ _ _ (fun w => migration_ok w /\ rows_at_least (length (rn_migrations runner)) w)); [|split; [apply Hw3|]|done].
    + intros w4 w5 [Hrel Hok] [_ Hrw]. split; [done | by apply Hrel].
    + exists rows. split; [done | lia].
  - by apply (safe_return _ _ _ _ Hw3).
Qed.
End World.

(** ** Any number of runners *)

Inductive MigrationOutcome := Upped (result : MigrationResult) (err : error) | Checked (result : result unit).

Inductive MigrationOperation := RunUp (AdoptExisting : bool) | RunCheck.

Definition migration_body (runner : MigrationRunner) (o : MigrationOperation) : prog MigrationCall MigrationOutcome :=
  match o with
  | RunUp adopt => do! outcome := Up runner adopt in Ret (Upped outcome.1 outcome.2)
  | RunCheck => do! outcome := CheckCurrent runner in Ret (Checked outcome)
  end.

Definition migration_entry (runner : MigrationRunner) (p : prog MigrationCall MigrationOutcome) : Prop := exists o, p = migration_body runner o.

(** A database without a ledger. *)
Definition untracked {D} (original : D) (fate : list bool) : MigrationWorld := {| wm_ledger := None; wm_schema := original; wm_fate := fate |}.

Section Runners.
Context {D : Type} (exec : string -> D -> option D) (has_tenants : D -> bool) (probe : string -> D -> bool).
Context (runner : MigrationRunner) (original : D).
Hypothesis catalogue : numbered (rn_migrations runner).
Hypothesis prepares : forall m, m ∈ rn_migrations runner -> exists p, prepareMigrationSQL (sm_Contents m) = Ok p.
Hypothesis some : rn_migrations runner <> [].

Abbreviation ok := (migration_ok exec has_tenants probe runner original).

Definition outcome_ok (outcome : MigrationOutcome) (w : @MigrationWorld D) : Prop :=
  match outcome with
  | Upped result err => err = [] -> ok w /\ rows_at_least (length (rn_migrations runner)) w /\ mr_Current result = blen (rn_migrations runner)
  | Checked checked => checked = Ok tt -> ok w /\ rows_at_least (length (rn_migrations runner)) w
  end.

Lemma migration_body_safe i p w :
  migration_entry runner p -> ok w -> True ->
  safe (others migration_rely ok i) (migration_respond exec has_tenants probe i) (migration_allowed has_tenants runner original i) p outcome_ok w.
Proof.
  intros [[adopt|] ->] Hok _; assert (known exec has_tenants probe runner original 0 w) as Hw by (split; [done | by left]); cbn [migration_body].
  - eapply safe_bind; [by apply Up_safe|]. intros o w1 Hq w2 Hi.
    assert (reports_complete exec has_tenants probe runner original o w2) as [Hok2 Hc].
    { eapply (interferes_stable _ (reports_complete exec has_tenants probe runner original o)); [|exact Hi | exact Hq].
      apply reports_stable. }
    intros He. split; [done|]. by apply Hc.
  - eapply safe_bind; [by apply CheckCurrent_safe|]. intros r w1 Hq w2 Hi.
    refine (interferes_stable _ (fun w => r = Ok tt -> ok w /\ rows_at_least (length (rn_migrations runner)) w) _ w1 w2 Hi Hq).
    intros w3 w4 [Hr Hok4] Hc He. destruct (Hc He) as [_ Hrows]. split; [done | by apply Hr].
Qed.
End Runners.

(** C21. Any number of migration runs and checks share a database that has no ledger yet,
    with transactions that fail, commits that report failure after taking effect, and
    runs that stop anywhere. The schema is the original one after a prefix of the
    catalogue, each of its migrations applied once, in order, as one transaction with its
    row, or the original one adopted as a whole after every probe answered yes; a schema
    that had tenants is never migrated before it is adopted. The ledger always validates
    and records exactly that prefix. A run that ends without an error, and a check that
    passes, leave every migration recorded. *)
Theorem migrations_exact {D} (exec : string -> D -> option D) has_tenants probe original fate config files runner w ts :
  NoDup (cf_Name <$> files) -> NewMigrationRunner true config (Ok files) = Ok runner ->
  rtc (pool_step (migration_respond exec has_tenants probe) (fun _ _ => True) (migration_entry runner)) (untracked original fate, ∅) (w, ts) ->
  (untouched original w \/ (exists n, migrated_to exec has_tenants runner original n w) \/ adopted_whole has_tenants probe runner original w) /\
  (forall rows, wm_ledger w = Some rows -> exists n, (n <= length (rn_migrations runner))%nat /\
     rows = prefix_rows n (rn_migrations runner) /\
     validateMigrationLedger (rn_migrations runner) rows = Ok {| ms_Tracked := true; ms_Current := Z.of_nat n;
       ms_Latest := blen (rn_migrations runner); ms_Pending := drop n (rn_migrations runner) |}) /\
  (forall i outcome, ts !! i = Some (Ret outcome) ->
     match outcome with Upped _ err => err = [] | Checked checked => checked = Ok tt end ->
     wm_ledger w = Some (prefix_rows (length (rn_migrations runner)) (rn_migrations runner)) /\
     match outcome with Upped result _ => mr_Current result = blen (rn_migrations runner) | Checked _ => True end).
Proof.
  intros Hd Hnew Hs. destruct (new_runner_catalogue _ _ _ Hd Hnew) as (Hnum & Hprep & Hne).
  destruct (pool_safe _ _ _ migration_rely (migration_ok exec has_tenants probe runner original) (migration_allowed has_tenants runner original)
    (fun _ => outcome_ok exec has_tenants probe runner original) (migration_guarantee exec has_tenants probe runner original Hnum)
    (migration_body_safe exec has_tenants probe runner original Hnum Hprep Hne) (untracked original fate) w ts) as [Hok Hts]; [by left | done|].
  split_and!; [exact Hok|..].
  - intros rows Hr. destruct (ledger_nonempty _ _ _ _ _ _ _ Hok Hr) as (n & Hn & -> & _). exists n. split_and!; [done..|].
    apply ledger_valid_iff_prefix; [done | by exists n].
  - intros i outcome Hi Hc. pose proof (Hts _ _ Hi w (rtc_refl _ _)) as Hq. destruct outcome as [res err|checked]; cbn in Hq.
    + destruct (Hq Hc) as (_ & Hrows & Hcur). split; [by eapply complete_rows | done].
    + destruct (Hq Hc) as [_ Hrows]. split; [by eapply complete_rows | done].
Qed.

Module MigrationExample.
(** Schemas are the texts executed; two runs, the first losing the reply of a commit. *)
Definition exec (text : string) (schema : list string) : option (list string) := Some (schema ++ [text]).
Definition has_tenants (schema : list string) : bool := negb (is_nil schema).
Definition probe (_ : string) (_ : list string) : bool := false.
Definition file (name sql : string) : CatalogFile := {| cf_Name := name; cf_IsDir := false; cf_Contents := Some (bytes_of sql) |}.
Definition files : list CatalogFile := [file "0001_tenants.sql" "CREATE TABLE tenants ();"; file "0002_lines.sql" "CREATE TABLE lines ();"].
Definition config : MigrationRunnerConfig := {| mc_LockTimeout := 0; mc_StatementTimeout := 0 |}.
Definition runner : MigrationRunner :=
  match NewMigrationRunner true config (Ok files) with
  | Ok runner => runner
  | Err _ => {| rn_config := config; rn_migrations := [] |}
  end.

Definition oracle (X : Type) (c : MigrationCall X) (w : MigrationWorld) : X :=
  match c in MigrationCall X return X with
  | OpenConnection => []
  | TryAdvisoryLock => Ok true
  | LockTick | LockDone => false
  | ReleaseAdvisoryLock => tt
  | SchemaPresence => Ok (bool_decide (is_Some (wm_ledger w)), has_tenants (wm_schema w))
  | ReadLedger => Ok (default [] (wm_ledger w))
  | CreateLedger => None
  | ApplyTx _ _ => if is_nil (wm_fate w) then None else Some FailedCommit
  | AdoptTx _ => Some FailedBegin
  end.

Definition script : list (nat * option MigrationOperation) :=
  (0%nat, Some (RunUp false)) :: repeat (0%nat, None) 7 ++ (1%nat, Some (RunUp false)) :: repeat (1%nat, None) 6.

Definition run := pool_play (migration_respond exec has_tenants probe) (migration_body runner) (fun _ _ => true) oracle script (untracked [] [true]) ∅.

Definition ended (p : prog MigrationCall MigrationOutcome) : option (Z * error) :=
  match p with Ret (Upped result err) => Some (mr_Current result, err) | _ => None end.

Lemma migration_run_facts : exists w ts result, run = Some (w, ts) /\ ts !! 1%nat = Some (Ret (Upped result [])) /\
  (ts !! 0%nat ≫= ended) = Some (0, [ErrText "commit migration transaction"]).
Proof.
  assert (match run with
    | Some (w, ts) => bool_decide ((ts !! 1%nat ≫= ended) = Some (2, [])) && bool_decide ((ts !! 0%nat ≫= ended) = Some (0, [ErrText "commit migration transaction"]))
    | None => false end = true) as H by (vm_compute; reflexivity).
  destruct run as [[w ts]|]; [|done]. apply andb_true_iff in H as [H1%bool_decide_eq_true H2%bool_decide_eq_true].
  destruct (ts !! 1%nat) as [[[result err|]|]|] eqn:E1; try done. cbn in H1. injection H1 as _ ->. by exists w, ts, result.
Qed.

Lemma migration_run_reaches w ts :
  run = Some (w, ts) ->
  rtc (pool_step (migration_respond exec has_tenants probe) (fun _ _ => True) (migration_entry runner)) (untracked [] [true], ∅) (w, ts).
Proof. intros H. eapply (pool_play_steps _ _ _ (migration_body runner)); [|by intros|exact H]. intros o. by exists o. Qed.
End MigrationExample.

Lemma migrations_exact_witness :
  exists w ts result, MigrationExample.run = Some (w, ts) /\ ts !! 1%nat = Some (Ret (Upped result [])) /\
    wm_ledger w = Some (prefix_rows (length (rn_migrations MigrationExample.runner)) (rn_migrations MigrationExample.runner)) /\
    length (rn_migrations MigrationExample.runner) = 2%nat.
Proof.
  destruct MigrationExample.migration_run_facts as (w & ts & result & Hrun & H1 & _). exists w, ts, result. split; [exact Hrun|]. split; [exact H1|].
  split; [|vm_compute; reflexivity].
  refine (proj1 (proj2 (proj2 (migrations_exact MigrationExample.exec MigrationExample.has_tenants MigrationExample.probe [] [true] MigrationExample.config
    MigrationExample.files MigrationExample.runner w ts _ _ (MigrationExample.migration_run_reaches w ts Hrun))) 1%nat _ H1 eq_refl)).
  - apply (bool_decide_unpack _). vm_compute. exact I.
  - vm_compute. reflexivity.
Defined.
